(* ===== verification/_CoqProject ===== *)
-Q . S2P
Prelude.v
PyStr.v
Constants.v
Errors.v
Buffer.v
Frames.v
Requests.v
RequestLayout.v
Responses.v
ResponseProps.v
Sigver.v
Flags.v
ConfigFile.v
Machine.v
MachineFraming.v
MachineStreams.v
MachineDelivery.v
MachineBodies.v
MachineSecurity.v
MachineFindings.v
Words.v
Crc.v
Checksum.v
Aes.v
AesProps.v
Blowfish.v
Sss.v
Krb5.v
Der.v
Rsa.v
RsaProps.v
Gsi.v
GsiProps.v
X509.v
X509Props.v
Compression.v
CompressionProps.v
Url.v
UrlText.v
Glob.v
Auth.v
Ladder.v
FileClient.v
FileTransfer.v
FileProps.v
FileReadv.v
RawIO.v
FileSystem.v
FsLocate.v
FsTree.v
S3Sign.v
Copy.v
CopyAhead.v
CopySpans.v
CopyProps.v
CopyMemory.v
CopyTree.v
CopyTreeProps.v
CopyTreeMemory.v
Path.v
Tpc.v
RootBuffer.v
RootFile.v
Winfo.v
RootPack.v
RootWriter.v
RootInterp.v
RootTree.v
RootEncoding.v
RootInfos.v
RootContainer.v
RootRoundTrip.v
RootTreeRecord.v
RootFill.v
RootTreeTrip.v
Pool.v
Router.v
RouterProps.v
Session.v
SessionProps.v
