(* ===== verification/Prelude.v ===== *)
(** * PyXRootDClient: a verification library

    PyXRootDClient (src/xrd) is an XRootD client in pure Python. At its core
    is a sans-IO protocol stack: request classes encode themselves into
    frames, a [SessionMachine] turns the bytes of a connection into events,
    a blocking [Session] drives one machine over sockets, a [Router] follows
    redirects and reconnects, and a process-wide [SessionPool] keeps idle
    connections for the next caller with the same identity. On top of the
    router are the file client, the raw stream over it, and the file system
    client; beside it are the authentication mechanisms, with the ciphers and
    certificates they need written in Python. The copy engine moves files between any two of its endpoints, in
    one stream, over several connections, as trees, or from server to server.
    Apart from the protocols, root/ reads and writes the container format of
    ROOT files. This library models all of these and proves what makes them
    correct.

    ** How the program is modelled

    A method of a mutable object is a function of the monad [st] below: it
    takes the object's state and returns the new state with the value or the
    exception; what was changed before a [raise] stays changed. A pure
    function that may raise returns a [result]. A Python [dict] is an
    association list in insertion order ([dict_get], [dict_set], [dict_pop]),
    because several loops depend on that order. [bytes] are lists of bytes,
    [str] lists of code points, integers are [Z] and keep their wire width
    wherever they are packed or unpacked; seconds are rationals.

    What the program gets from elsewhere is a parameter: HMAC-SHA256 and
    SHA-256, [repr], [str.lower], [str.upper] and [str.isdigit],
    [os.path.abspath], [hashlib] digests, GSS-API contexts ([GssOps]), zlib,
    lzma and zstd ([Codecs], with [CodecLaws]). Components meet at
    interfaces: the machine sees authentication through [CredentialOps] (with
    [CredentialLaws]) and requests through [RequestOps]; the driver sees
    sockets through [TransportEnv]; the router sees sessions through
    [SessionEnv]; the file and file system clients see the router through
    [RouterEnv]; the ladder of credentials sees files, the environment, the
    clock and the terminal through [Env]; the copy engine sees streams,
    operating system, protocols and clock through [CopyEnv], directories
    through [TreeEnv], and its theorems are against contracts that say what
    one call promises: [Storage] (opening, reading, writing, seeking, closing,
    asking) for a copy, [Library] (walking, removing) on top of it for a tree,
    [Moving] for the two streams of a pump and [Spreading] for a target written
    at offsets. The ROOT reader sees handles, processes
    and the objects behind a key through [RootEnv], the writer its handle, the
    clock and the identifier of a new file through [WriterEnv]. Locks are the atomicity of the
    operations they guard.

    ** Files

    - [Prelude], [PyStr], [Words]: results, state, dictionaries, slices,
      big-endian integers; Python's string methods and UTF-8; machine words.
    - [Constants], [Errors], [ConfigFile], [Flags]:
      proto/constants.py, errors.py (classes, which [except] catches what, the
      server error table), config.py with its files and its ambient value,
      flags.py.
    - [Buffer], [Frames], [Requests], [Responses]: proto/buffer.py,
      proto/frames.py, proto/requests.py and proto/responses.py - every
      request class as a [request_class] behind the interface [RequestOps],
      every response parser. [RequestLayout] and [ResponseProps] prove what a
      peer finds in a request and what the parsers accept.
    - [Sigver]: crypto/sigver.py.
    - [Machine]: proto/machine.py, the whole [SessionMachine].
      Its Module [MachineScenarios] holds the concrete sessions witnesses run
      on.
      [MachineFraming]: reads may be cut anywhere. [MachineStreams]: stream
      ids and signed requests, over every state reachable by calls.
      [MachineDelivery] and [MachineBodies]: which events bytes become, that
      no request is lost or answered twice, and how pieces make a body.
      [MachineSecurity]: the ladder of credentials, and that nothing is sent
      in clear that should be encrypted. [MachineFindings]: where the machine
      and its documentation part.
    - [Crc], [Checksum]: crypto/crc32c.py, crypto/crc64.py,
      crypto/checksum.py.
    - [Aes], [AesProps]; [Blowfish]; [Rsa], [RsaProps]; [Der];
      [X509], [X509Props]: the modules of crypto/ of those names.
    - [Sss], [Krb5], [Gsi], [GsiProps]: auth/sss.py, auth/krb5.py,
      auth/gsi.py. [Auth] holds the other mechanisms (auth/simple.py,
      auth/ztn.py), offers and questions (auth/base.py, auth/prompt.py);
      [Ladder]: [select], [require] and [supply] of
      auth/__init__.py.
    - [Compression], [CompressionProps]: root/compression.py.
    - [Url], [UrlText]: url.py.
    - [Pool]: session/pool.py. [Router], [RouterProps]: session/router.py,
      and the calls it makes, observed by an environment that records them.
    - [Session], [SessionProps]: session/sync.py, the inbox, streaming to a
      callback, the end of a connection.
    - [FileClient]: client/file.py. [FileTransfer] and [FileReadv]: reads,
      writes and vectored reads against a server that holds a content;
      [FileProps]: recovery, checkpoints, batches.
    - [RawIO]: io/raw.py, and its refinement of a byte string with a position.
    - [Glob]: the patterns of client/filesystem.py, with as much
      of [re] as they are written in, and the shell patterns of [fnmatch].
    - [FileSystem]: client/filesystem.py. [FsLocate]: how paths
      and their opaque data are resolved, locating replicas and listing;
      [FsTree]: removing a tree.
    - [Copy]: copy/engine.py for one file, with the read-ahead thread and the
      workers of a spread transfer as step machines, and the plain pump;
      [CopyAhead] and [CopySpans] prove the other two ways bytes move, [CopyProps] the whole of
      [copy] from [Storage], [CopyMemory] runs it on files in memory.
      [CopyTree], [CopyTreeProps], [CopyTreeMemory]: [copy_tree], its pool of
      workers, its walks and its deletions. A task of the pool makes one call
      of [CopyEnv] in a step, so that transfers interleave call by call.
    - [Tpc]: copy/tpc.py, and its requests on the wire.
    - [Path]: path.py, paths that share the connection they come from.
    - [S3Sign]: s3/sigv4.py, and the check of a signature in testing/s3.py.
    - [RootBuffer]: root/buffer.py, the cursor with its map of references.
      [RootFile]: root/file.py and root/streamers.py: sources, keys,
      directories and the streamer list. [Winfo]: the table of layouts of
      root/winfo.py, row by row. [RootPack]: the buffer, the objects and the
      descriptions of root/writer.py. [RootWriter]: its [WritableFile], and
      [WritableTree] of root/wtree.py. [RootEncoding]: what a piece of the
      writer appends ([emits]) and what the cursor makes of it ([reads]).
      [RootInfos]: the streamer information. [RootContainer]: the invariant of
      a file being written, over any sequence of operations.
      [RootRoundTrip]: the written file opened again. [RootInterp]:
      root/cxx.py and root/interp.py, what the bytes of a class or a column
      mean, with the parts of root/hist.py and root/graph.py that reading a
      key runs. [RootTree]: root/objects.py and root/tree.py, records of
      trees, baskets, branches and the arrays they give. [RootTreeRecord]: the
      record the writer makes of a tree, read. [RootFill]: what the columns
      and baskets of a tree hold after any sequence of operations.
      [RootTreeTrip]: a filled tree opened and read again.

    ** What the theorems show

    - On the wire: an encoded request is its header, payload and trailer with
      the declared length right; vectored requests and checkpointed requests
      carry what they were given; a vectored read reply is parsed exactly; a
      directory listing cannot escape its directory.
    - In the machine: framing is independent of how bytes arrive and refines
      handling one message after the other; requests in flight never share a
      stream; each request gets at most one end, and its body is the pieces
      announced; losing a link fails what rode on it and nothing else; a
      signed request travels behind its signature; TLS precedes everything
      when anyone asks for it; the credential ladder decides.
    - In the driver: events reach the caller they are for; a streaming caller
      is given exactly the body; a wait does not outlive the connection.
    - In the router and pool: execution ends within its limits, never repeats
      what is not idempotent after a lost connection, and only uses sessions
      dialled as the caller, on TLS if the caller was; no session is in two
      hands; keys separate identities up to a SHA-256 collision.
    - In the checksums and URLs: the table-driven CRCs equal the bitwise ones
      and detect bursts, paged data round-trips and exactly the corrupt pages
      are reported; URLs read back as printed, and every URL derived from a
      parsed one keeps a normal, confined path.
    - In authentication: exactly the usable mechanisms of an offer are tried,
      preferred ones first, and nobody is asked while one is usable; the peer
      can open and verify what the GSI and shared-secret mechanisms send;
      AES-CBC and Blowfish decrypt what they encrypt and RSA signatures
      verify; proxies and ticket caches are read whole.
    - In the file client: a read returns the bytes asked for and a write
      stores the bytes given, whatever the chunk size, the data paths and one
      lost server; only read-only handles are re-opened; checkpoints journal
      every change; batches keep within the limits of the protocol. The raw
      stream refines a byte string with a position.
    - In the file system client: path resolution loses no parameter; [rmtree]
      removes a tree and nothing else; patterns mean what they say and are
      looked for where they can match; looking for replicas ends.
    - In the copy engine: what a copy leaves at the target is the source, in
      one stream, read ahead or resumed, and what a spread transfer writes is,
      for every interleaving of its threads; a tree copied by one worker has
      every selected file, and a deletion removes the rest and only the rest;
      a pool of workers answers in order and stops at the first failure,
      whatever its tasks are, if they share nothing; files land below the
      target; a third-party copy keeps its order and its
      connections.
    - In signed S3 requests: a server that checks them by the specification
      accepts them, and a signature is good for one request only, up to a
      collision of the hash functions.
    - In path objects: parents are prefixes, and one connection serves all
      that is derived from a path.
    - In the settings: arguments, profile, defaults and environment, in this
      order.
    - In ROOT files: decompression undoes compression; a file that closes
      reads back as the objects and trees put into it, byte for byte, cycle by
      cycle, whatever the compression; its streamer information reads back as
      the layouts of every class reached from the ones used; a name finds the
      object written last under it; a tree opens with its columns and gives,
      for any columns and ranges of entries, the values of the rows it was
      filled with.
    - Where the code does not do what it says: a late answer handed to the
      wrong caller, a body repeated after a wait, a signature sent twice, a
      negative length that breaks framing, a query inside entry paths, a full
      block that does not shrink.

    ** Fuel

    [parse_loop] runs on a measure of the buffer that every turn decreases, so
    it never runs out ([MachineFraming.loop_fuel], [receive_drains]);
    [try_credentials] on the ladder's own bound ([ladder_decides]);
    [Router.execute_loop] on [redirect_limit + connect_retries + 1], shown
    always enough ([execute_bounded]). The loops of [Session] that read until
    something arrives really can read for ever; their fuel is the number of
    reads, [None] means still reading, and [execute_ends] shows a closed
    connection ends them. The chunk loops of [FileClient] have one turn per
    byte at most, enough whenever the chunk size is positive ([read_exact],
    [write_exact]); with a chunk size of zero they really do not end.
    [FileSystem.walk] and [rmtree] take the depth they may descend, any bound
    on the depth of the tree being enough ([rmtree_removes]); [deep_locate]
    takes the number of managers it may ask ([deep_locate_ends]). The parsers
    of patterns and expressions run on the length of their input, one turn
    taking at least one character ([glob_compiles]). Threads are run by
    explicit schedules: [ahead_in_order], [parallel_exact] and the safety part
    of the pool hold of every schedule, and a schedule made of enough fair
    rounds ([fair], [fair_round]) is shown to see the threads to their end, so
    that the [None] of an exhausted schedule does not arise ([copy_exact],
    [copy_tree_exact], [in_order_alone]). Reading ROOT objects takes the
    depth to which classes and branches nest; the trees the writer makes have
    depth one, and [tree_reads_back] holds for every depth from there. That
    theorem asks that no record reach one gibibyte ([records_small]), where
    the format's byte count ends, and that names are text that UTF-8 encodes.

    ** Not modelled, and the order in which it comes next

    Next: the views of histograms and graphs (root/hist.py, root/graph.py) and
    the asyncio twin of the driver (aio.py); and, of the trees several workers
    copy, that transfers of different files do not disturb each other, which
    [in_order_alone] takes as its hypothesis and [tree_interleaved] shows in
    one run. Left out as not part
    of the core: the transports (socket I/O), the buffered and text layers of
    the standard library that [open] stacks on the raw stream, HTTP/WebDAV
    and the S3 client over it,
    the plots and tables of datasets of root/, the command line and the test
    servers. Exception messages, logging and
    [repr]s are not modelled. *)

From stdpp Require Export base list option strings pretty.
From Stdlib Require Export ZArith Lia.
From Stdlib Require Import Strings.Byte.
From Stdlib Require Export Init.Byte.

Open Scope Z_scope.

Declare Scope py_scope.
Delimit Scope py_scope with py.
Open Scope py_scope.

Create HintDb xrd.
Create HintDb zlen discriminated.

(** ** Automation *)

(** Split every conjunction and existential of the context. *)
Ltac destruct_all :=
  repeat match goal with
  | H : _ /\ _ |- _ => destruct H
  | H : exists _, _ |- _ => destruct H
  | p : (_ * _)%type |- _ => destruct p
  end.

(** Case on the scrutinee of some [if] or [match] of the goal or of a
    hypothesis, keeping the equation. *)
Ltac case_goal :=
  match goal with
  | |- context [if ?b then _ else _] => let E := fresh "E" in destruct b eqn:E
  | |- context [match ?b with _ => _ end] => let E := fresh "E" in destruct b eqn:E
  end.

Ltac case_hyp :=
  match goal with
  | H : context [if ?b then _ else _] |- _ => let E := fresh "E" in destruct b eqn:E
  | H : context [match ?b with _ => _ end] |- _ => let E := fresh "E" in destruct b eqn:E
  end.

(** Boolean comparisons on [Z] turned into propositions. *)
Ltac zbool :=
  repeat match goal with
  | H : (_ <? _) = true |- _ => apply Z.ltb_lt in H
  | H : (_ <? _) = false |- _ => apply Z.ltb_ge in H
  | H : (_ <=? _) = true |- _ => apply Z.leb_le in H
  | H : (_ <=? _) = false |- _ => apply Z.leb_gt in H
  | H : (_ =? _) = true |- _ => apply Z.eqb_eq in H
  | H : (_ =? _) = false |- _ => apply Z.eqb_neq in H
  | H : (_ && _)%bool = true |- _ => apply andb_true_iff in H as [? ?]
  | H : (_ || _)%bool = false |- _ => apply orb_false_iff in H as [? ?]
  | H : negb _ = true |- _ => apply negb_true_iff in H
  | H : negb _ = false |- _ => apply negb_false_iff in H
  end.

(** A closed decidable fact, by running its decision procedure. *)
Ltac decided := refine (bool_decide_unpack _ _); vm_compute; exact I.

(** ** Bytes

    A Python [bytes], [bytearray] or [memoryview] is a list of bytes. *)

Definition bytes := list byte.

#[export] Instance byte_eq_dec : EqDecision byte := Byte.byte_eq_dec.

Definition b2z (b : byte) : Z := Z.of_N (Byte.to_N b).

Definition z2b (z : Z) : byte := default x00 (Byte.of_N (Z.to_N (z mod 256))).

Lemma b2z_range b : 0 <= b2z b < 256.
Proof. unfold b2z. pose proof (Byte.to_N_bounded b). lia. Qed.

Lemma b2z_z2b_mod z : b2z (z2b z) = z mod 256.
Proof.
  unfold z2b, b2z.
  pose proof (Z.mod_pos_bound z 256 ltac:(lia)).
  destruct (Byte.of_N _) eqn:E; simpl.
  - apply Byte.to_of_N in E. rewrite E. lia.
  - apply Byte.of_N_None_iff in E. lia.
Qed.

Lemma b2z_z2b z : 0 <= z < 256 -> b2z (z2b z) = z.
Proof. intros. rewrite b2z_z2b_mod. apply Z.mod_small; lia. Qed.

Lemma b2z_inj a b : b2z a = b2z b -> a = b.
Proof.
  unfold b2z. intros H. apply N2Z.inj in H.
  pose proof (Byte.of_to_N a) as Ha. pose proof (Byte.of_to_N b) as Hb.
  rewrite H in Ha. congruence.
Qed.

Lemma z2b_b2z b : z2b (b2z b) = b.
Proof. apply b2z_inj. apply b2z_z2b, b2z_range. Qed.

Lemma z2b_mod z : z2b (z mod 256) = z2b z.
Proof. unfold z2b. by rewrite Z.mod_mod by lia. Qed.

(** ** Sizes and slices *)

(** Python's [len]. *)
Definition zlen {A} (l : list A) : Z := Z.of_nat (length l).

(** [l[:n]], counting from the end when [n] is negative. *)
Definition slice_to {A} (l : list A) (n : Z) : list A :=
  if n <? 0 then take (Z.to_nat (zlen l + n)) l else take (Z.to_nat n) l.

(** [l[n:]], and what [del l[:n]] leaves behind. *)
Definition slice_from {A} (l : list A) (n : Z) : list A :=
  if n <? 0 then drop (Z.to_nat (zlen l + n)) l else drop (Z.to_nat n) l.

(** [l[a:b]] for [0 <= a], with [b] counting from the end when negative. *)
Definition slice {A} (l : list A) (a b : Z) : list A :=
  let b := if b <? 0 then zlen l + b else b in
  take (Z.to_nat (b - a)) (drop (Z.to_nat a) l).

Lemma slice_pos {A} (l : list A) a b :
  0 <= b -> slice l a b = take (Z.to_nat (b - a)) (drop (Z.to_nat a) l).
Proof. intros Hb. unfold slice. by destruct (Z.ltb_spec b 0); [lia|]. Qed.

Lemma zlen_nonneg {A} (l : list A) : 0 <= zlen l.
Proof. unfold zlen; lia. Qed.

Lemma zlen_app {A} (l k : list A) : zlen (l ++ k) = zlen l + zlen k.
Proof. unfold zlen. rewrite length_app. lia. Qed.

Lemma zlen_nil {A} : zlen (@nil A) = 0.
Proof. reflexivity. Qed.

Lemma zlen_cons {A} (x : A) l : zlen (x :: l) = 1 + zlen l.
Proof. unfold zlen. simpl. lia. Qed.

Lemma slice_to_from {A} (l : list A) n : slice_to l n ++ slice_from l n = l.
Proof. unfold slice_to, slice_from. case_goal; apply take_drop. Qed.

Lemma slice_to_app {A} (l k : list A) : slice_to (l ++ k) (zlen l) = l.
Proof.
  unfold slice_to, zlen. case_goal; zbool; [lia|].
  rewrite Nat2Z.id. apply take_app_length.
Qed.

Lemma slice_from_app {A} (l k : list A) : slice_from (l ++ k) (zlen l) = k.
Proof.
  unfold slice_from, zlen. case_goal; zbool; [lia|].
  rewrite Nat2Z.id. apply drop_app_length.
Qed.

#[export] Hint Rewrite @zlen_app @zlen_nil @zlen_cons : zlen.

(** Two filters that agree on the elements of a list. *)
Lemma filter_Forall_iff {A} (P Q : A -> Prop) `{!forall x, Decision (P x), !forall x, Decision (Q x)} (l : list A) :
  (forall x, x ∈ l -> (P x <-> Q x)) -> filter P l = filter Q l.
Proof.
  induction l as [|x l IH]; intros HPQ; [done|]. rewrite !filter_cons.
  rewrite IH by (intros; apply HPQ; by right). pose proof (HPQ x ltac:(left)).
  repeat case_decide; tauto.
Qed.

Lemma filter_all {A} (P : A -> Prop) `{!forall x, Decision (P x)} (l : list A) :
  (forall x, x ∈ l -> P x) -> filter P l = l.
Proof.
  induction l as [|x l IH]; intros HP; [done|].
  rewrite filter_cons_True by (apply HP; left). rewrite IH; [done|]. intros; apply HP; by right.
Qed.

(** ** Results: a value, or the exception that was raised *)

Inductive result (E A : Type) :=
| Ok (a : A)
| Err (e : E).
Arguments Ok {E A} a.
Arguments Err {E A} e.

#[export] Instance result_ret E : MRet (result E) := fun A a => Ok a.
#[export] Instance result_bind E : MBind (result E) := fun A B f r =>
  match r with Ok a => f a | Err e => Err e end.
#[export] Instance result_fmap E : FMap (result E) := fun A B f r =>
  match r with Ok a => Ok (f a) | Err e => Err e end.

Definition is_ok {E A} (r : result E A) : bool :=
  match r with Ok _ => true | Err _ => false end.

(** [if c then raise e]. *)
Definition guard_err {E} (c : bool) (e : E) : result E unit :=
  if c then Err e else Ok tt.

(** Run [f] over a list, left to right, stopping at the first exception. *)
Fixpoint mapM_res {E A B} (f : A -> result E B) (l : list A) : result E (list B) :=
  match l with
  | [] => Ok []
  | a :: l => b ← f a; bs ← mapM_res f l; Ok (b :: bs)
  end.

Lemma bind_ok_inv {E A B} (r : result E A) (f : A -> result E B) b :
  (r ≫= f) = Ok b -> exists a, r = Ok a /\ f a = Ok b.
Proof. destruct r; [eauto | discriminate]. Qed.

Lemma mapM_res_app {E A B} (f : A -> result E B) l k :
  mapM_res f (l ++ k) = (bs ← mapM_res f l; cs ← mapM_res f k; Ok (bs ++ cs)).
Proof.
  induction l as [|a l IH]; simpl.
  - by destruct (mapM_res f k).
  - destruct (f a); simpl; [|done]. rewrite IH.
    destruct (mapM_res f l); simpl; [|done]. by destruct (mapM_res f k).
Qed.

(** Take a successful monadic computation apart. *)
Ltac inv_bind :=
  repeat match goal with
  | H : (_ ≫= _) = Ok _ |- _ =>
      let a := fresh "a" in let Ha := fresh "Ha" in
      apply bind_ok_inv in H as (a & Ha & H); simpl in H
  | H : Ok _ = Ok _ |- _ => injection H as H; try subst
  | H : Err _ = Ok _ |- _ => discriminate H
  | H : mret _ = Ok _ |- _ => unfold mret, result_ret in H
  end.

(** ** State with exceptions

    A method of a mutable object: the new state, and what it returned or
    raised. Unlike in a pure exception monad, the state changes made before
    a [raise] stay. *)

Definition st (E S A : Type) := S -> S * result E A.

#[export] Instance st_ret E S : MRet (st E S) := fun A a s => (s, Ok a).
#[export] Instance st_bind E S : MBind (st E S) := fun A B f m s =>
  match m s with
  | (s', Ok a) => f a s'
  | (s', Err e) => (s', Err e)
  end.

Definition get {E S} : st E S S := fun s => (s, Ok s).
Definition modify {E S} (f : S -> S) : st E S unit := fun s => (f s, Ok tt).
Definition raise {E S A} (e : E) : st E S A := fun s => (s, Err e).
Definition lift {E S A} (r : result E A) : st E S A := fun s => (s, r).

(** *** Reasoning about methods

    [preserves P c]: [c] keeps [P], whether it returns or raises.
    [commutes g c]: running [c] on a state changed by [g] is running [c] and
    then changing the state: [c] does not look at what [g] changes. *)

Section StFacts.
Context {E S : Type}.
Implicit Types (P : S -> Prop) (g : S -> S).

Definition preserves {A} P (c : st E S A) : Prop := forall s, P s -> P (c s).1.
Definition commutes {A} g (c : st E S A) : Prop := forall s, c (g s) = (g (c s).1, (c s).2).

Lemma preserves_ret {A} P (a : A) : preserves P (mret a : st E S A).
Proof. by intros s. Qed.
Lemma preserves_lift {A} P (r : result E A) : preserves P (lift r : st E S A).
Proof. by intros s. Qed.
Lemma preserves_raise {A} P (e : E) : preserves P (raise e : st E S A).
Proof. by intros s. Qed.
Lemma preserves_modify P f : (forall s, P s -> P (f s)) -> preserves P (modify f : st E S unit).
Proof. intros Hf s Hs. by apply Hf. Qed.
Lemma preserves_bind {A B} P (c : st E S A) (k : A -> st E S B) :
  preserves P c -> (forall a, preserves P (k a)) -> preserves P (c ≫= k).
Proof.
  intros Hc Hk s Hs. unfold mbind, st_bind. specialize (Hc s Hs).
  destruct (c s) as [s' [a|e]]; simpl in *; [by apply Hk | done].
Qed.
(** After [get] the rest may be looked at in the state it was handed. *)
Lemma preserves_get {B} P (k : S -> st E S B) :
  (forall s, P s -> P (k s s).1) -> preserves P (get ≫= k).
Proof. intros Hk s Hs. by apply Hk. Qed.
Lemma preserves_get_all {B} P (k : S -> st E S B) :
  (forall s, preserves P (k s)) -> preserves P (get ≫= k).
Proof. intros Hk. apply preserves_get. intros s Hs. by apply Hk. Qed.
Lemma preserves_true {A} (c : st E S A) : preserves (fun _ => True) c.
Proof. by intros s _. Qed.

Lemma commutes_ret {A} g (a : A) : commutes g (mret a : st E S A).
Proof. by intros s. Qed.
Lemma commutes_lift {A} g (r : result E A) : commutes g (lift r : st E S A).
Proof. by intros s. Qed.
Lemma commutes_raise {A} g (e : E) : commutes g (raise e : st E S A).
Proof. by intros s. Qed.
Lemma commutes_modify g f : (forall s, f (g s) = g (f s)) -> commutes g (modify f : st E S unit).
Proof. intros Hf s. unfold modify; simpl. by rewrite Hf. Qed.
Lemma commutes_bind {A B} g (c : st E S A) (k : A -> st E S B) :
  commutes g c -> (forall a, commutes g (k a)) -> commutes g (c ≫= k).
Proof.
  intros Hc Hk s. unfold mbind, st_bind. rewrite Hc.
  destruct (c s) as [s' [a|e]]; simpl; [apply Hk | done].
Qed.
Lemma commutes_get {B} g (k : S -> st E S B) :
  (forall s, k (g s) = k s) -> (forall s, commutes g (k s)) -> commutes g (get ≫= k).
Proof. intros Hg Hk s. unfold mbind, st_bind, get. rewrite Hg. apply Hk. Qed.

(** How a sequence ended. *)
Lemma st_bind_ok {A B} (c : st E S A) (k : A -> st E S B) s s' b :
  (c ≫= k) s = (s', Ok b) <-> exists s1 a, c s = (s1, Ok a) /\ k a s1 = (s', Ok b).
Proof.
  unfold mbind, st_bind. destruct (c s) as [s1 [a|e]]; split.
  - intros H. by exists s1, a.
  - by intros (? & ? & [= <- <-] & H).
  - done.
  - by intros (? & ? & [=] & _).
Qed.
Lemma st_bind_eq {A B} (c : st E S A) (k : A -> st E S B) s :
  (c ≫= k) s = match c s with (s', Ok a) => k a s' | (s', Err e) => (s', Err e) end.
Proof. done. Qed.
End StFacts.

#[export] Hint Resolve preserves_ret preserves_lift preserves_raise preserves_bind
  commutes_ret commutes_lift commutes_raise commutes_bind : xrd.

(** ** Dictionaries

    A Python [dict] keeps its keys in the order they were first inserted,
    and several loops of the program depend on it, so a dictionary is an
    association list and not a finite map. *)

Notation dict K V := (list (K * V)).

Section Dict.
Context {K V : Type} `{!EqDecision K}.
Implicit Types (d : dict K V) (k : K) (v : V).

(** [d.get(k)]. *)
Fixpoint dict_get k d : option V :=
  match d with
  | [] => None
  | (k', v) :: d => if decide (k = k') then Some v else dict_get k d
  end.

(** [d[k] = v]: in place when [k] is there, at the end when it is not. *)
Fixpoint dict_set k v d : dict K V :=
  match d with
  | [] => [(k, v)]
  | (k', v') :: d =>
      if decide (k = k') then (k', v) :: d else (k', v') :: dict_set k v d
  end.

(** What is left of [d] after [d.pop(k, None)]. *)
Definition dict_pop k d : dict K V := filter (fun kv => kv.1 <> k) d.

(** [k in d]. *)
Definition dict_mem k d : bool := bool_decide (is_Some (dict_get k d)).

(** [d.setdefault(k, v)], as the dictionary it leaves. *)
Definition dict_setdefault k v d : dict K V :=
  match dict_get k d with Some _ => d | None => dict_set k v d end.

Definition dict_keys d : list K := d.*1.

Lemma dict_get_set_eq k v d : dict_get k (dict_set k v d) = Some v.
Proof.
  induction d as [|[k' v'] d IH]; simpl; [by rewrite decide_True|].
  case_decide; simpl; [by rewrite decide_True|]. by rewrite decide_False.
Qed.

Lemma dict_get_set_ne k k' v d : k <> k' -> dict_get k' (dict_set k v d) = dict_get k' d.
Proof.
  intros Hne. induction d as [|[k1 v1] d IH]; simpl; [by rewrite decide_False|].
  case_decide; simpl; [subst; by rewrite !decide_False|]. by rewrite IH.
Qed.

Lemma dict_get_set k k' v d :
  dict_get k' (dict_set k v d) = if decide (k = k') then Some v else dict_get k' d.
Proof. case_decide; subst; [apply dict_get_set_eq | by apply dict_get_set_ne]. Qed.

Lemma dict_set_set k v v' d : dict_set k v (dict_set k v' d) = dict_set k v d.
Proof.
  induction d as [|[k1 v1] d IH]; simpl; [by rewrite decide_True|].
  case_decide; simpl; [by rewrite decide_True|]. rewrite decide_False by done. by rewrite IH.
Qed.

Lemma dict_get_pop_eq k d : dict_get k (dict_pop k d) = None.
Proof.
  induction d as [|[k' v'] d IH]; simpl; [done|]. unfold dict_pop in *.
  rewrite filter_cons; simpl. case_decide; simpl; [|done].
  rewrite decide_False; done.
Qed.

Lemma dict_get_pop_ne k k' d : k <> k' -> dict_get k' (dict_pop k d) = dict_get k' d.
Proof.
  intros Hne. induction d as [|[k1 v1] d IH]; simpl; [done|]. unfold dict_pop in *.
  rewrite filter_cons; simpl. case_decide; simpl; [by rewrite IH|].
  destruct (decide (k' = k1)); [congruence | done].
Qed.

Lemma dict_get_pop k k' d :
  dict_get k' (dict_pop k d) = if decide (k = k') then None else dict_get k' d.
Proof. case_decide; subst; [apply dict_get_pop_eq | by apply dict_get_pop_ne]. Qed.

Lemma dict_get_Some_in k v d : dict_get k d = Some v -> (k, v) ∈ d.
Proof.
  induction d as [|[k' v'] d IH]; simpl; [done|].
  case_decide; [intros [= ->]; subst; left | right; auto].
Qed.

Lemma dict_get_None_keys k d : dict_get k d = None <-> k ∉ dict_keys d.
Proof.
  unfold dict_keys. induction d as [|[k' v'] d IH]; simpl.
  - split; [intros _ H; inversion H | done].
  - rewrite elem_of_cons. case_decide; subst; [intuition congruence|].
    rewrite IH. intuition congruence.
Qed.

Lemma dict_get_keys k d : k ∈ dict_keys d <-> is_Some (dict_get k d).
Proof.
  pose proof (dict_get_None_keys k d). destruct (dict_get k d) eqn:E.
  - split; [eauto|]. intros _. apply dict_get_Some_in in E.
    apply list_elem_of_fmap. by exists (k, v).
  - split; [tauto|]. intros [? ?]; done.
Qed.

Lemma dict_in_get k v d : NoDup (dict_keys d) -> (k, v) ∈ d -> dict_get k d = Some v.
Proof.
  unfold dict_keys. induction d as [|[k' v'] d IH]; simpl; [intros _ H; inversion H|].
  intros [Hn Hd]%NoDup_cons [[= -> ->]|Hin]%elem_of_cons; [by rewrite decide_True|].
  rewrite decide_False; [auto|]. intros ->. apply Hn, list_elem_of_fmap. by exists (k', v).
Qed.

Lemma dict_keys_set k v d :
  dict_keys (dict_set k v d)
  = if dict_get k d then dict_keys d else dict_keys d ++ [k].
Proof.
  induction d as [|[k' v'] d IH]; simpl; [done|].
  case_decide; subst; simpl; [done|]. rewrite IH. by destruct (dict_get k d).
Qed.

Lemma dict_set_NoDup k v d : NoDup (dict_keys d) -> NoDup (dict_keys (dict_set k v d)).
Proof.
  intros Hd. rewrite dict_keys_set. destruct (dict_get k d) eqn:E; [done|].
  apply NoDup_app; split_and!; [done| |apply NoDup_singleton].
  intros k' Hin ->%list_elem_of_singleton.
  by apply dict_get_None_keys in E.
Qed.

Lemma dict_keys_pop k d : dict_keys (dict_pop k d) = filter (fun k' => k' <> k) (dict_keys d).
Proof.
  unfold dict_pop, dict_keys. induction d as [|[k' v'] d IH]; simpl; [done|].
  rewrite !filter_cons; simpl. case_decide; simpl; [f_equal|]; exact IH.
Qed.

Lemma dict_pop_NoDup k d : NoDup (dict_keys d) -> NoDup (dict_keys (dict_pop k d)).
Proof. intros. rewrite dict_keys_pop. by apply NoDup_filter. Qed.

Lemma dict_pop_set k v d : dict_pop k (dict_set k v d) = dict_pop k d.
Proof.
  unfold dict_pop. induction d as [|[k' v'] d IH]; simpl.
  - rewrite filter_cons_False; [done|]. intros Hk. by apply Hk.
  - case_decide; simpl; rewrite !filter_cons; simpl; case_decide; by rewrite ?IH.
Qed.

Lemma dict_set_same k v d : dict_get k d = Some v -> dict_set k v d = d.
Proof.
  induction d as [|[k' v'] d IH]; simpl; [done|].
  case_decide; [by intros [= ->]|]. intros Hd. by rewrite IH.
Qed.

Lemma dict_set_end k v d : k ∉ dict_keys d -> dict_set k v d = d ++ [(k, v)].
Proof.
  unfold dict_keys. induction d as [|[k' v'] d IH]; [done|]. cbn [fmap list_fmap fst].
  rewrite not_elem_of_cons. intros [Hk Hd]. cbn [dict_set]. rewrite decide_False by done.
  by rewrite (IH Hd).
Qed.

(** Taking a key out and putting it at the end is a permutation. *)
Lemma dict_keys_pop_perm k d :
  NoDup (dict_keys d) -> is_Some (dict_get k d) -> dict_keys d ≡ₚ dict_keys (dict_pop k d) ++ [k].
Proof.
  intros Hd Hk%dict_get_keys. apply NoDup_Permutation; [done| |].
  - apply NoDup_app. split_and!; [by apply dict_pop_NoDup | | apply NoDup_singleton].
    intros k' Hk' ->%list_elem_of_singleton. rewrite dict_keys_pop in Hk'.
    apply list_elem_of_filter in Hk' as [Hne _]. done.
  - intros k'. rewrite elem_of_app, list_elem_of_singleton, dict_keys_pop, list_elem_of_filter.
    destruct (decide (k' = k)); subst; naive_solver.
Qed.

Lemma dict_mem_true k d : dict_mem k d = true <-> is_Some (dict_get k d).
Proof. unfold dict_mem. apply bool_decide_eq_true. Qed.
End Dict.

#[export] Hint Resolve dict_set_NoDup dict_pop_NoDup : xrd.

(** ** Integers as bytes *)

(** [int.to_bytes(n, "big")], of the value modulo [256 ^ n]. *)
Fixpoint be_enc (n : nat) (z : Z) : bytes :=
  match n with
  | O => []
  | S n => be_enc n (z / 256) ++ [z2b z]
  end.

(** [int.from_bytes(l, "big")]. *)
Definition be_dec (l : bytes) : Z := foldl (fun acc b => acc * 256 + b2z b) 0 l.

(** [int.from_bytes(l, "little")]. *)
Fixpoint le_dec (l : bytes) : Z :=
  match l with
  | [] => 0
  | b :: l => b2z b + 256 * le_dec l
  end.

Lemma be_enc_length n z : length (be_enc n z) = n.
Proof.
  revert z. induction n as [|n IH]; intros z; simpl; [done|].
  rewrite length_app, IH; simpl; lia.
Qed.

Lemma be_enc_zlen n z : zlen (be_enc n z) = Z.of_nat n.
Proof. unfold zlen. by rewrite be_enc_length. Qed.

Lemma be_dec_snoc l b : be_dec (l ++ [b]) = be_dec l * 256 + b2z b.
Proof. unfold be_dec. by rewrite foldl_app. Qed.

Lemma be_dec_enc n z : be_dec (be_enc n z) = z mod 256 ^ Z.of_nat n.
Proof.
  revert z. induction n as [|n IH]; intros z; simpl be_enc.
  - rewrite Z.mod_1_r. reflexivity.
  - rewrite be_dec_snoc, IH, b2z_z2b_mod.
    replace (256 ^ Z.of_nat (S n)) with (256 * 256 ^ Z.of_nat n)
      by (rewrite Nat2Z.inj_succ, Z.pow_succ_r; lia).
    rewrite Z.rem_mul_r by (try apply Z.pow_pos_nonneg; lia).
    lia.
Qed.

Lemma be_dec_enc_small n z : 0 <= z < 256 ^ Z.of_nat n -> be_dec (be_enc n z) = z.
Proof. intros. rewrite be_dec_enc. by apply Z.mod_small. Qed.

Lemma be_dec_range l : 0 <= be_dec l < 256 ^ zlen l.
Proof.
  induction l as [|b l IH] using rev_ind; [by vm_compute|].
  rewrite be_dec_snoc. autorewrite with zlen. pose proof (b2z_range b).
  rewrite Z.add_0_r, Z.pow_add_r by (try apply zlen_nonneg; lia). lia.
Qed.

Lemma be_enc_dec l : be_enc (length l) (be_dec l) = l.
Proof.
  induction l as [|b l IH] using rev_ind; [done|].
  rewrite length_app, Nat.add_comm; simpl. rewrite be_dec_snoc.
  pose proof (b2z_range b).
  rewrite Z.div_add_l, Z.div_small, Z.add_0_r, IH by lia.
  f_equal. f_equal. rewrite <- z2b_mod.
  rewrite Z.add_comm, Z.mod_add, Z.mod_small, z2b_b2z by lia. done.
Qed.

Lemma be_enc_mod n z : be_enc n (z mod 256 ^ Z.of_nat n) = be_enc n z.
Proof. rewrite <- be_dec_enc, <- (be_enc_length n z) at 1. apply be_enc_dec. Qed.

Lemma be_enc_inj n x y :
  0 <= x < 256 ^ Z.of_nat n -> 0 <= y < 256 ^ Z.of_nat n ->
  be_enc n x = be_enc n y -> x = y.
Proof. intros Hx Hy H. by rewrite <- (be_dec_enc_small n x), H, be_dec_enc_small. Qed.

Lemma le_dec_range l : 0 <= le_dec l < 256 ^ zlen l.
Proof.
  induction l as [|b l IH]; [by vm_compute|]. simpl le_dec. rewrite zlen_cons.
  pose proof (b2z_range b). rewrite Z.pow_add_r by (try apply zlen_nonneg; lia). lia.
Qed.

(** Two's complement: [w] bits read as a signed integer, and written. *)
Definition to_signed (w u : Z) : Z := if u <? 2 ^ (w - 1) then u else u - 2 ^ w.

Lemma to_signed_range w u :
  0 < w -> 0 <= u < 2 ^ w -> - 2 ^ (w - 1) <= to_signed w u < 2 ^ (w - 1).
Proof.
  intros Hw Hu. unfold to_signed.
  assert (2 ^ w = 2 * 2 ^ (w - 1)) by (rewrite <- Z.pow_succ_r by lia; f_equal; lia).
  case_goal; zbool; lia.
Qed.

Lemma to_signed_mod w v :
  0 < w -> - 2 ^ (w - 1) <= v < 2 ^ (w - 1) -> to_signed w (v mod 2 ^ w) = v.
Proof.
  intros Hw Hv. unfold to_signed.
  assert (2 ^ w = 2 * 2 ^ (w - 1)) as Hp by (rewrite <- Z.pow_succ_r by lia; f_equal; lia).
  destruct (Z.neg_nonneg_cases v).
  - rewrite (Z.mod_eq v (2 ^ w)) by lia.
    replace (v / 2 ^ w) with (-1) by (apply (Z.div_unique v (2 ^ w) (-1) (v + 2 ^ w)); lia).
    case_goal; zbool; lia.
  - rewrite Z.mod_small by lia. case_goal; zbool; lia.
Qed.
