(* ===== verification/PyStr.v ===== *)
(** * Python strings

    What the program uses of Python's [str] and [bytes]: code-point strings,
    UTF-8 with the [strict] encoder and the [replace] decoder, [partition],
    [split], [strip], [join] and [int]. A [str] is the list of its code
    points, so a lone surrogate can be held (and cannot be encoded), as in
    Python. The digit and white-space tables are those of Unicode 14. *)

From S2P Require Import Prelude.

Definition str := list Z.

(** An ASCII literal as a Python string. *)
Fixpoint s_ (t : string) : str :=
  match t with
  | EmptyString => []
  | String a t => Z.of_nat (Ascii.nat_of_ascii a) :: s_ t
  end.

(** An ASCII literal as Python bytes, [b"..."]. *)
Definition b_ (t : string) : bytes := z2b <$> s_ t.

Inductive unicode_error := UnicodeEncodeError.

(** ** Searching and splitting on one element *)

Section Split.
Context {A : Type} `{!EqDecision A}.
Implicit Types (l : list A) (sep : A).

(** [l.partition(sep)]: what is before the first [sep], whether there is
    one, and what is after it. *)
Fixpoint partition sep l : list A * bool * list A :=
  match l with
  | [] => ([], false, [])
  | x :: l =>
      if decide (x = sep) then ([], true, l)
      else match partition sep l with (h, f, t) => (x :: h, f, t) end
  end.

(** [l.split(sep, 1)[0]]. *)
Definition until sep l : list A := (partition sep l).1.1.

(** [l.rpartition(sep)]: split at the last [sep]; when there is none,
    everything is the third component. *)
Definition rpartition sep l : list A * bool * list A :=
  match partition sep (reverse l) with
  | (t, true, h) => (reverse h, true, reverse t)
  | (_, false, _) => ([], false, l)
  end.

(** [l.split(sep)]. *)
Fixpoint split_all sep l : list (list A) :=
  match l with
  | [] => [[]]
  | x :: l =>
      if decide (x = sep) then [] :: split_all sep l
      else match split_all sep l with
           | h :: t => (x :: h) :: t
           | [] => [[x]]
           end
  end.

(** [sep.join(parts)] for a one-element separator. *)
Fixpoint join sep (parts : list (list A)) : list A :=
  match parts with
  | [] => []
  | [p] => p
  | p :: ps => p ++ sep :: join sep ps
  end.

Definition lstrip_by (p : A -> bool) l : list A :=
  (fix go l := match l with
               | [] => []
               | x :: l' => if p x then go l' else l
               end) l.
Definition rstrip_by (p : A -> bool) l : list A := reverse (lstrip_by p (reverse l)).
Definition strip_by (p : A -> bool) l : list A := rstrip_by p (lstrip_by p l).

Lemma lstrip_cons (p : A -> bool) c l : lstrip_by p (c :: l) = if p c then lstrip_by p l else c :: l.
Proof. reflexivity. Qed.

Lemma rstrip_snoc (p : A -> bool) l c : rstrip_by p (l ++ [c]) = if p c then rstrip_by p l else l ++ [c].
Proof.
  unfold rstrip_by. rewrite reverse_snoc, lstrip_cons. destruct (p c); [done|]. by rewrite reverse_cons, reverse_involutive.
Qed.

Fixpoint startswith (pre l : list A) : bool :=
  match pre, l with
  | [], _ => true
  | x :: pre, y :: l => bool_decide (x = y) && startswith pre l
  | _ :: _, [] => false
  end.

Definition endswith (suf l : list A) : bool := startswith (reverse suf) (reverse l).

Definition contains sep l : bool := bool_decide (sep ∈ l).

Lemma partition_spec sep l h f t :
  partition sep l = (h, f, t) ->
  sep ∉ h /\ (if f then l = h ++ sep :: t else l = h /\ t = []).
Proof.
  revert h f t. induction l as [|x l IH]; intros h f t; simpl.
  - intros [= <- <- <-]. split; [apply not_elem_of_nil | done].
  - case_decide as Hx; [intros [= <- <- <-]; subst; split; [apply not_elem_of_nil|done]|].
    destruct (partition sep l) as [[h' f'] t'].
    destruct (IH _ _ _ eq_refl) as [Hn Hl]. intros [= <- <- <-].
    split; [rewrite not_elem_of_cons; intuition congruence|].
    destruct f'; [by rewrite Hl | destruct Hl; by subst].
Qed.

Lemma partition_app sep h t : sep ∉ h -> partition sep (h ++ sep :: t) = (h, true, t).
Proof.
  induction h as [|x h IH]; simpl; [by rewrite decide_True|].
  intros [Hx Hh]%not_elem_of_cons. rewrite decide_False, IH by congruence. done.
Qed.

Lemma partition_none sep l : sep ∉ l -> partition sep l = (l, false, []).
Proof.
  induction l as [|x l IH]; simpl; [done|].
  intros [Hx Hl]%not_elem_of_cons. rewrite decide_False, IH by congruence. done.
Qed.

Lemma until_app sep h t : sep ∉ h -> until sep (h ++ sep :: t) = h.
Proof. intros H. unfold until. by rewrite partition_app. Qed.

Lemma until_none sep l : sep ∉ l -> until sep l = l.
Proof. intros H. unfold until. by rewrite partition_none. Qed.

Lemma until_not_in sep l : sep ∉ until sep l.
Proof.
  unfold until. destruct (partition sep l) as [[h f] t] eqn:E.
  by apply partition_spec in E as [? _].
Qed.

Lemma rpartition_app sep h t : sep ∉ t -> rpartition sep (h ++ sep :: t) = (h, true, t).
Proof.
  intros Ht. unfold rpartition. rewrite reverse_app, reverse_cons, <- app_assoc. simpl.
  rewrite partition_app by (by rewrite elem_of_reverse). by rewrite !reverse_involutive.
Qed.

Lemma split_all_not_nil sep l : split_all sep l <> [].
Proof. destruct l; simpl; [done|]. case_decide; [done|]. by destruct (split_all sep l). Qed.

Lemma split_all_pieces sep l : Forall (fun p => sep ∉ p) (split_all sep l).
Proof.
  induction l as [|x l IH]; simpl.
  - constructor; [apply not_elem_of_nil | constructor].
  - case_decide; [constructor; [apply not_elem_of_nil | done]|].
    destruct (split_all sep l) as [|h t].
    + constructor; [|constructor]. rewrite not_elem_of_cons.
      split; [congruence | apply not_elem_of_nil].
    + apply Forall_cons in IH as [Hh Ht]. constructor; [|done].
      rewrite not_elem_of_cons. split; [congruence | done].
Qed.

Lemma split_all_app sep p l :
  sep ∉ p -> split_all sep (p ++ sep :: l) = p :: split_all sep l.
Proof.
  induction p as [|x p IH]; simpl; [by rewrite decide_True|].
  intros [Hx Hp]%not_elem_of_cons. rewrite decide_False by congruence. by rewrite IH.
Qed.

Lemma split_all_single sep p : sep ∉ p -> split_all sep p = [p].
Proof.
  induction p as [|x p IH]; simpl; [done|].
  intros [Hx Hp]%not_elem_of_cons. rewrite decide_False by congruence. by rewrite IH.
Qed.

(** Splitting undoes joining when no piece holds the separator. *)
Lemma split_join sep parts :
  parts <> [] -> Forall (fun p => sep ∉ p) parts -> split_all sep (join sep parts) = parts.
Proof.
  induction parts as [|p ps IH]; [done|]. intros _ [Hp Hps]%Forall_cons.
  destruct ps as [|q ps]; [by apply split_all_single|].
  change (join sep (p :: q :: ps)) with (p ++ sep :: join sep (q :: ps)).
  rewrite split_all_app by done. by rewrite IH.
Qed.
End Split.

(** ** UTF-8 *)

Open Scope Z_scope.

(** One code point; [None] for a surrogate, which has no UTF-8 form. *)
Definition utf8_char (c : Z) : option bytes :=
  if (c <? 0) || (0x110000 <=? c) then None
  else if c <? 0x80 then Some [z2b c]
  else if c <? 0x800 then Some [z2b (0xC0 + c / 64); z2b (0x80 + c mod 64)]
  else if (0xD800 <=? c) && (c <? 0xE000) then None
  else if c <? 0x10000 then
    Some [z2b (0xE0 + c / 4096); z2b (0x80 + c / 64 mod 64); z2b (0x80 + c mod 64)]
  else
    Some [z2b (0xF0 + c / 262144); z2b (0x80 + c / 4096 mod 64);
          z2b (0x80 + c / 64 mod 64); z2b (0x80 + c mod 64)].

(** [s.encode("utf-8")]; [None] is [UnicodeEncodeError]. *)
Fixpoint utf8_encode (s : str) : option bytes :=
  match s with
  | [] => Some []
  | c :: s => h ← utf8_char c; t ← utf8_encode s; Some (h ++ t)
  end.

(** How many bytes a lead byte announces, [0] when it cannot lead. *)
Definition utf8_len (c0 : Z) : Z :=
  if c0 <? 0x80 then 1 else if c0 <? 0xC2 then 0 else if c0 <? 0xE0 then 2
  else if c0 <? 0xF0 then 3 else if c0 <? 0xF5 then 4 else 0.

(** The second byte's range depends on the lead (no overlong forms, no
    surrogates, nothing past U+10FFFF). *)
Definition utf8_second (c0 : Z) (b1 : byte) : bool :=
  let lo := if c0 =? 0xE0 then 0xA0 else if c0 =? 0xF0 then 0x90 else 0x80 in
  let hi := if c0 =? 0xED then 0x9F else if c0 =? 0xF4 then 0x8F else 0xBF in
  (lo <=? b2z b1) && (b2z b1 <=? hi).

Definition utf8_cont (b : byte) : bool := (0x80 <=? b2z b) && (b2z b <=? 0xBF).

(** The low six bits of a continuation byte. *)
Definition low6 (b : byte) : Z := b2z b - 0x80.

(** [data.decode("utf-8", "replace")]: a maximal ill-formed prefix of a
    sequence becomes one U+FFFD and decoding resumes after it. *)
Fixpoint utf8_decode (l : bytes) : str :=
  match l with
  | [] => []
  | b0 :: l1 =>
      let c0 := b2z b0 in
      if utf8_len c0 =? 1 then c0 :: utf8_decode l1
      else if utf8_len c0 =? 2 then
        match l1 with
        | [] => [0xFFFD]
        | b1 :: l2 =>
            if utf8_cont b1 then ((c0 - 0xC0) * 64 + low6 b1) :: utf8_decode l2
            else 0xFFFD :: utf8_decode l1
        end
      else if utf8_len c0 =? 3 then
        match l1 with
        | [] => [0xFFFD]
        | b1 :: l2 =>
            if utf8_second c0 b1 then
              match l2 with
              | [] => [0xFFFD]
              | b2 :: l3 =>
                  if utf8_cont b2
                  then ((c0 - 0xE0) * 4096 + low6 b1 * 64 + low6 b2) :: utf8_decode l3
                  else 0xFFFD :: utf8_decode l2
              end
            else 0xFFFD :: utf8_decode l1
        end
      else if utf8_len c0 =? 4 then
        match l1 with
        | [] => [0xFFFD]
        | b1 :: l2 =>
            if utf8_second c0 b1 then
              match l2 with
              | [] => [0xFFFD]
              | b2 :: l3 =>
                  if utf8_cont b2 then
                    match l3 with
                    | [] => [0xFFFD]
                    | b3 :: l4 =>
                        if utf8_cont b3
                        then ((c0 - 0xF0) * 262144 + low6 b1 * 4096 + low6 b2 * 64 + low6 b3)
                               :: utf8_decode l4
                        else 0xFFFD :: utf8_decode l3
                    end
                  else 0xFFFD :: utf8_decode l2
              end
            else 0xFFFD :: utf8_decode l1
        end
      else 0xFFFD :: utf8_decode l1
  end.

(** ** White space and [int] *)

(** [str.isspace] of one code point. *)
Definition is_space (c : Z) : bool :=
  ((0x9 <=? c) && (c <=? 0xD)) || ((0x1C <=? c) && (c <=? 0x20)) || (c =? 0x85)
  || (c =? 0xA0) || (c =? 0x1680) || ((0x2000 <=? c) && (c <=? 0x200A)) || (c =? 0x2028)
  || (c =? 0x2029) || (c =? 0x202F) || (c =? 0x205F) || (c =? 0x3000).

(** [s.strip()]. *)
Definition strip (s : str) : str := strip_by is_space s.

(** [s.split()]: the maximal runs of non-space characters. *)
Fixpoint words_from (cur : str) (s : str) : list str :=
  match s with
  | [] => match cur with [] => [] | _ => [reverse cur] end
  | c :: s =>
      if is_space c
      then match cur with [] => words_from [] s | _ => reverse cur :: words_from [] s end
      else words_from (c :: cur) s
  end.
Definition words (s : str) : list str := words_from [] s.

(** The zero of every decimal digit block. *)
Definition decimal_zeros : list Z :=
  [
    0x30; 0x660; 0x6f0; 0x7c0; 0x966; 0x9e6; 0xa66; 0xae6; 0xb66; 0xbe6; 0xc66;
    0xce6; 0xd66; 0xde6; 0xe50; 0xed0; 0xf20; 0x1040; 0x1090; 0x17e0; 0x1810;
    0x1946; 0x19d0; 0x1a80; 0x1a90; 0x1b50; 0x1bb0; 0x1c40; 0x1c50; 0xa620; 0xa8d0;
    0xa900; 0xa9d0; 0xa9f0; 0xaa50; 0xabf0; 0xff10; 0x104a0; 0x10d30; 0x11066;
    0x110f0; 0x11136; 0x111d0; 0x112f0; 0x11450; 0x114d0; 0x11650; 0x116c0; 0x11730;
    0x118e0; 0x11950; 0x11c50; 0x11d50; 0x11da0; 0x16a60; 0x16ac0; 0x16b50; 0x1d7ce;
    0x1d7d8; 0x1d7e2; 0x1d7ec; 0x1d7f6; 0x1e140; 0x1e2f0; 0x1e950; 0x1fbf0
  ].

Definition digit_value (c : Z) : option Z :=
  z ← list_find (fun z => (z <=? c) && (c <? z + 10)) decimal_zeros; Some (c - z.2).

(** White space [int] skips: of the ASCII separators only the C ones. *)
Definition int_space (c : Z) : bool := is_space c && negb ((0x1C <=? c) && (c <=? 0x1F)).

(** Digits with single underscores between them; [n] counts the digits. *)
Fixpoint int_digits (s : str) (acc n : Z) (after_digit : bool) : option (Z * Z) :=
  match s with
  | [] => if after_digit then Some (acc, n) else None
  | c :: s =>
      match digit_value c with
      | Some d => int_digits s (acc * 10 + d) (n + 1) true
      | None => if (c =? 0x5F) && after_digit then int_digits s acc n false else None
      end
  end.

(** The interpreter's ceiling on the digits [int] converts. *)
Definition max_str_digits : Z := 4300.

(** [int(s)], base ten; [None] is [ValueError]. *)
Definition py_int (s : str) : option Z :=
  let t := strip_by int_space s in
  let '(neg, t) :=
    match t with
    | c :: t' => if c =? 0x2D then (true, t') else if c =? 0x2B then (false, t') else (false, t)
    | [] => (false, t)
    end in
  match int_digits t 0 0 false with
  | Some (v, n) => if max_str_digits <? n then None else Some (if neg then - v else v)
  | None => None
  end.

(** ** Facts about UTF-8 *)

Lemma b2z_z2b_add base c n :
  0 <= base -> 0 <= c < n -> base + n <= 256 -> b2z (z2b (base + c)) = base + c.
Proof. intros. apply b2z_z2b. lia. Qed.

Ltac div_mod_lia := Z.to_euclidean_division_equations; lia.

(** Evaluate every comparison on arithmetic terms that [lia] can decide. *)
Ltac decide_cmp :=
  repeat match goal with
  | |- context [?a <? ?b] =>
      first [ replace (a <? b) with true by (symmetry; apply Z.ltb_lt; div_mod_lia)
            | replace (a <? b) with false by (symmetry; apply Z.ltb_ge; div_mod_lia) ]
  | |- context [?a <=? ?b] =>
      first [ replace (a <=? b) with true by (symmetry; apply Z.leb_le; div_mod_lia)
            | replace (a <=? b) with false by (symmetry; apply Z.leb_gt; div_mod_lia) ]
  | |- context [?a =? ?b] =>
      first [ replace (a =? b) with true by (symmetry; apply Z.eqb_eq; div_mod_lia)
            | replace (a =? b) with false by (symmetry; apply Z.eqb_neq; div_mod_lia) ]
  end; simpl.

Lemma utf8_cont_mod x : utf8_cont (z2b (0x80 + x mod 64)) = true.
Proof.
  pose proof (Z.mod_pos_bound x 64 ltac:(lia)).
  unfold utf8_cont. rewrite b2z_z2b by lia. by decide_cmp.
Qed.

Lemma low6_mod x : low6 (z2b (0x80 + x mod 64)) = x mod 64.
Proof.
  pose proof (Z.mod_pos_bound x 64 ltac:(lia)).
  unfold low6. rewrite b2z_z2b by lia. lia.
Qed.

Lemma utf8_second_ok (c0 x lo hi : Z) :
  lo = (if c0 =? 0xE0 then 0xA0 else if c0 =? 0xF0 then 0x90 else 0x80) ->
  hi = (if c0 =? 0xED then 0x9F else if c0 =? 0xF4 then 0x8F else 0xBF) ->
  lo <= 0x80 + x mod 64 <= hi -> utf8_second c0 (z2b (0x80 + x mod 64)) = true.
Proof.
  intros -> -> H. unfold utf8_second.
  pose proof (Z.mod_pos_bound x 64 ltac:(lia)). rewrite b2z_z2b by lia.
  apply andb_true_iff. split; apply Z.leb_le; lia.
Qed.

Lemma utf8_len_3 c0 : 0xE0 <= c0 < 0xF0 -> utf8_len c0 = 3.
Proof. intros. unfold utf8_len. by decide_cmp. Qed.

Lemma utf8_len_4 c0 : 0xF0 <= c0 < 0xF5 -> utf8_len c0 = 4.
Proof. intros. unfold utf8_len. by decide_cmp. Qed.

(** Decoding takes an encoded code point off the front. *)
Lemma utf8_decode_char c h t : utf8_char c = Some h -> utf8_decode (h ++ t) = c :: utf8_decode t.
Proof.
  unfold utf8_char. intros H. repeat case_hyp; zbool; try discriminate; injection H as <-.
  all: rewrite ?orb_false_iff in *; zbool.
  - cbn [app utf8_decode]. rewrite b2z_z2b by lia. unfold utf8_len. by decide_cmp.
  - cbn [app utf8_decode]. rewrite b2z_z2b, utf8_cont_mod, low6_mod by div_mod_lia.
    unfold utf8_len. decide_cmp. f_equal. div_mod_lia.
  - cbn [app utf8_decode]. rewrite b2z_z2b by div_mod_lia.
    rewrite utf8_len_3 by div_mod_lia. simpl.
    rewrite andb_false_iff, Z.leb_gt, Z.ltb_ge in *.
    erewrite utf8_second_ok; [|reflexivity|reflexivity|].
    2: { repeat case_goal; zbool; div_mod_lia. }
    rewrite utf8_cont_mod, !low6_mod. f_equal. div_mod_lia.
  - cbn [app utf8_decode]. rewrite b2z_z2b by div_mod_lia.
    rewrite utf8_len_4 by div_mod_lia. simpl.
    erewrite utf8_second_ok; [|reflexivity|reflexivity|].
    2: { repeat case_goal; zbool; div_mod_lia. }
    rewrite !utf8_cont_mod, !low6_mod. f_equal. div_mod_lia.
Qed.

Lemma utf8_decode_encode_app s b t :
  utf8_encode s = Some b -> utf8_decode (b ++ t) = s ++ utf8_decode t.
Proof.
  revert b. induction s as [|c s IH]; intros b; simpl; [by intros [= <-]|].
  destruct (utf8_char c) as [h|] eqn:Eh; simpl; [|discriminate].
  destruct (utf8_encode s) as [k|]; simpl; [|discriminate].
  intros [= <-]. rewrite <- app_assoc, (utf8_decode_char c) by done. by rewrite IH.
Qed.

(** Decoding undoes encoding. *)
Lemma utf8_decode_encode s b : utf8_encode s = Some b -> utf8_decode b = s.
Proof.
  intros H. rewrite <- (app_nil_r b), (utf8_decode_encode_app _ _ _ H). apply app_nil_r.
Qed.

(** An encoded string without a NUL code point holds no NUL byte. *)
Lemma utf8_char_no_nul c h : utf8_char c = Some h -> c <> 0 -> x00 ∉ h.
Proof.
  intros H Hc. assert (forall z, 0 < z < 256 -> x00 <> z2b z) as Hz.
  { intros z Hz E. apply (f_equal b2z) in E. rewrite b2z_z2b in E by lia.
    change (b2z x00) with 0 in E. lia. }
  unfold utf8_char in H. repeat case_hyp; zbool; try discriminate; injection H as <-;
    rewrite ?orb_false_iff in *; zbool;
    rewrite ?not_elem_of_cons; repeat split; try (apply Hz; div_mod_lia);
    apply not_elem_of_nil.
Qed.

Lemma utf8_encode_no_nul s b : utf8_encode s = Some b -> 0 ∉ s -> x00 ∉ b.
Proof.
  revert b. induction s as [|c s IH]; intros b; simpl; [by intros [= <-] _ ?%elem_of_nil|].
  destruct (utf8_char c) as [h|] eqn:Eh; simpl; [|discriminate].
  destruct (utf8_encode s) as [k|]; simpl; [|discriminate].
  intros [= <-] [Hc Hs]%not_elem_of_cons. rewrite not_elem_of_app.
  split; [eapply utf8_char_no_nul; eauto | by apply IH].
Qed.

Lemma utf8_encode_app s t :
  utf8_encode (s ++ t) = (a ← utf8_encode s; b ← utf8_encode t; Some (a ++ b)).
Proof.
  induction s as [|c s IH]; simpl; [by destruct (utf8_encode t)|].
  destruct (utf8_char c); simpl; [|done]. rewrite IH.
  destruct (utf8_encode s); simpl; [|done].
  destruct (utf8_encode t); simpl; [|done]. by rewrite app_assoc.
Qed.
