(* ===== verification/Constants.v ===== *)
(** * Wire constants

    The [kXR_*] vocabulary of src/xrd/proto/constants.py: request opcodes,
    response statuses, option bits, frame sizes, and the two tables that turn
    an opcode or a status back into its name. *)

From S2P Require Import Prelude PyStr.

Definition kXR_auth : Z := 3000.
Definition kXR_query : Z := 3001.
Definition kXR_chmod : Z := 3002.
Definition kXR_close : Z := 3003.
Definition kXR_dirlist : Z := 3004.
Definition kXR_gpfile : Z := 3005.
Definition kXR_protocol : Z := 3006.
Definition kXR_login : Z := 3007.
Definition kXR_mkdir : Z := 3008.
Definition kXR_mv : Z := 3009.
Definition kXR_open : Z := 3010.
Definition kXR_ping : Z := 3011.
Definition kXR_chkpoint : Z := 3012.
Definition kXR_read : Z := 3013.
Definition kXR_rm : Z := 3014.
Definition kXR_rmdir : Z := 3015.
Definition kXR_sync : Z := 3016.
Definition kXR_stat : Z := 3017.
Definition kXR_set : Z := 3018.
Definition kXR_write : Z := 3019.
Definition kXR_fattr : Z := 3020.
Definition kXR_prepare : Z := 3021.
Definition kXR_statx : Z := 3022.
Definition kXR_endsess : Z := 3023.
Definition kXR_bind : Z := 3024.
Definition kXR_readv : Z := 3025.
Definition kXR_pgwrite : Z := 3026.
Definition kXR_locate : Z := 3027.
Definition kXR_truncate : Z := 3028.
Definition kXR_sigver : Z := 3029.
Definition kXR_pgread : Z := 3030.
Definition kXR_writev : Z := 3031.
Definition kXR_clone : Z := 3032.
Definition kXR_1stRequest : Z := 3000.
Definition kXR_setattr : Z := 3500.
Definition kXR_symlink : Z := 3501.
Definition kXR_readlink : Z := 3502.
Definition kXR_link : Z := 3503.
Definition kXR_sa_times : Z := 0x01.
Definition kXR_sa_owner : Z := 0x02.
Definition UTIME_NOW : Z := Z.shiftl 1 30 - 1.
Definition UTIME_OMIT : Z := Z.shiftl 1 30 - 2.
Definition kXR_ok : Z := 0.
Definition kXR_oksofar : Z := 4000.
Definition kXR_attn : Z := 4001.
Definition kXR_authmore : Z := 4002.
Definition kXR_error : Z := 4003.
Definition kXR_redirect : Z := 4004.
Definition kXR_wait : Z := 4005.
Definition kXR_waitresp : Z := 4006.
Definition kXR_status : Z := 4007.
Definition kXR_asyncab : Z := 5000.
Definition kXR_asyncdi : Z := 5001.
Definition kXR_asyncms : Z := 5002.
Definition kXR_asyncrd : Z := 5003.
Definition kXR_asyncwt : Z := 5004.
Definition kXR_asyncav : Z := 5005.
Definition kXR_asynunav : Z := 5006.
Definition kXR_asyncgo : Z := 5007.
Definition kXR_asynresp : Z := 5008.
Definition kXR_isManager : Z := 0x00000002.
Definition kXR_isServer : Z := 0x00000001.
Definition kXR_attrCache : Z := 0x00000080.
Definition kXR_attrMeta : Z := 0x00000100.
Definition kXR_attrProxy : Z := 0x00000200.
Definition kXR_attrSuper : Z := 0x00000400.
Definition kXR_attrVirtRdr : Z := 0x00000800.
Definition kXR_recoverWrts : Z := 0x00001000.
Definition kXR_collapseRedir : Z := 0x00002000.
Definition kXR_ecRedir : Z := 0x00004000.
Definition kXR_supposc : Z := 0x00100000.
Definition kXR_suppgrw : Z := 0x00200000.
Definition kXR_supgpf : Z := 0x00400000.
Definition kXR_anongpf : Z := 0x00800000.
Definition kXR_haveTLS : Z := 0x80000000.
Definition kXR_gotoTLS : Z := 0x40000000.
Definition kXR_tlsAny : Z := 0x1F000000.
Definition kXR_tlsData : Z := 0x01000000.
Definition kXR_tlsGPF : Z := 0x02000000.
Definition kXR_tlsLogin : Z := 0x04000000.
Definition kXR_tlsSess : Z := 0x08000000.
Definition kXR_tlsTPC : Z := 0x10000000.
Definition kXR_tlsGPFA : Z := 0x20000000.
Definition ROOTD_PQ : Z := 2012.
Definition kXR_PROTOCOLVERSION : Z := 0x00000520.
Definition kXR_secreqs : Z := 0x01.
Definition kXR_ableTLS : Z := 0x02.
Definition kXR_wantTLS : Z := 0x04.
Definition kXR_ExpLogin : Z := 0x03.
Definition kXR_asyncap : Z := 0x80.
Definition kXR_ver005 : Z := 0x05.
Definition SESSION_ID_LEN : Z := 16.
Definition kXR_online : Z := 0x01.
Definition kXR_dstat : Z := 0x02.
Definition kXR_dcksm : Z := 0x04.
Definition kXR_vfs : Z := 0x01.
Definition kXR_statNoFollow : Z := 0x40.
Definition kXR_compress : Z := 0x0001.
Definition kXR_delete : Z := 0x0002.
Definition kXR_force : Z := 0x0004.
Definition kXR_new : Z := 0x0008.
Definition kXR_open_read : Z := 0x0010.
Definition kXR_open_updt : Z := 0x0020.
Definition kXR_async : Z := 0x0040.
Definition kXR_refresh : Z := 0x0080.
Definition kXR_mkpath : Z := 0x0100.
Definition kXR_open_apnd : Z := 0x0200.
Definition kXR_retstat : Z := 0x0400.
Definition kXR_replica : Z := 0x0800.
Definition kXR_posc : Z := 0x1000.
Definition kXR_nowait : Z := 0x2000.
Definition kXR_seqio : Z := 0x4000.
Definition kXR_open_wrto : Z := 0x8000.
Definition kXR_mkdirpath : Z := 0x01.
Definition kXR_QStats : Z := 1.
Definition kXR_QPrep : Z := 2.
Definition kXR_Qcksum : Z := 3.
Definition kXR_Qxattr : Z := 4.
Definition kXR_Qspace : Z := 5.
Definition kXR_Qckscan : Z := 6.
Definition kXR_Qconfig : Z := 7.
Definition kXR_Qvisa : Z := 8.
Definition kXR_Qopaque : Z := 16.
Definition kXR_Qopaquf : Z := 32.
Definition kXR_Qopaqug : Z := 64.
Definition kXR_cancel : Z := 1.
Definition kXR_notify : Z := 2.
Definition kXR_noerrs : Z := 4.
Definition kXR_stage : Z := 8.
Definition kXR_wmode : Z := 16.
Definition kXR_coloc : Z := 32.
Definition kXR_fresh : Z := 64.
Definition kXR_usetcp : Z := 128.
Definition kXR_evict : Z := 0x0001.
Definition kXR_addPeers : Z := 0x0001.
Definition kXR_refreshLoc : Z := 0x0080.
Definition kXR_prefname : Z := 0x0100.
Definition kXR_4dirlist : Z := 0x0400.
Definition kXR_nowaitLoc : Z := 0x2000.
Definition kXR_fattrDel : Z := 0.
Definition kXR_fattrGet : Z := 1.
Definition kXR_fattrList : Z := 2.
Definition kXR_fattrSet : Z := 3.
Definition kXR_fattrMaxVars : Z := 16.
Definition kXR_fattrIsNew : Z := 0x01.
Definition kXR_fattrAData : Z := 0x10.
Definition kXR_fattrRecurse : Z := 0x20.
Definition kXR_ckpBegin : Z := 0.
Definition kXR_ckpCommit : Z := 1.
Definition kXR_ckpQuery : Z := 2.
Definition kXR_ckpRollback : Z := 3.
Definition kXR_ckpXeq : Z := 4.
Definition kXR_wv_doSync : Z := 0x01.
Definition READ_LIST_ENTRY_LEN : Z := 16.
Definition CLONE_ITEM_LEN : Z := 32.
Definition kXR_SHA256_sig : Z := 0x01.
Definition kXR_nodata_sig : Z := 0x01.
Definition kXR_secNone : Z := 0.
Definition kXR_secCompatible : Z := 1.
Definition kXR_secStandard : Z := 2.
Definition kXR_secIntense : Z := 3.
Definition kXR_secPedantic : Z := 4.
Definition kXR_pgPageSZ : Z := 4096.
Definition kXR_pgUnitSZ : Z := kXR_pgPageSZ + 4.
Definition kXR_pgMaxEpr : Z := 128.
Definition kXR_pgRetry : Z := 0x01.
Definition kXR_pgValid : Z := 0x02.
Definition kXR_FinalResult : Z := 0x00.
Definition kXR_PartialResult : Z := 0x01.
Definition STATUS_HDR_LEN : Z := 16.
Definition STATUS_BODY_LEN : Z := 24.
Definition kXR_xset : Z := 0x01.
Definition kXR_isDir : Z := 0x02.
Definition kXR_other : Z := 0x04.
Definition kXR_offline : Z := 0x08.
Definition kXR_readable : Z := 0x10.
Definition kXR_writable : Z := 0x20.
Definition kXR_poscpend : Z := 0x40.
Definition kXR_bkpexist : Z := 0x80.
Definition DEFAULT_PORT : Z := 1094.
Definition REQUEST_HDRLEN : Z := 24.
Definition RESPONSE_HDRLEN : Z := 8.
Definition FHANDLE_LEN : Z := 4.
Definition NULL_FHANDLE : bytes := [x00; x00; x00; x00].
Definition MAX_FRAME_PAYLOAD : Z := 0x7FFFFFFF.
Definition MAX_RESPONSE_BODY : Z := Z.shiftl 1 30.

(** The module's [kXR_*] globals, in the order they are assigned. *)
Definition kXR_globals : list (string * Z) := [
  ("kXR_auth", kXR_auth); ("kXR_query", kXR_query); ("kXR_chmod", kXR_chmod);
  ("kXR_close", kXR_close); ("kXR_dirlist", kXR_dirlist); ("kXR_gpfile", kXR_gpfile);
  ("kXR_protocol", kXR_protocol); ("kXR_login", kXR_login); ("kXR_mkdir", kXR_mkdir);
  ("kXR_mv", kXR_mv); ("kXR_open", kXR_open); ("kXR_ping", kXR_ping);
  ("kXR_chkpoint", kXR_chkpoint); ("kXR_read", kXR_read); ("kXR_rm", kXR_rm);
  ("kXR_rmdir", kXR_rmdir); ("kXR_sync", kXR_sync); ("kXR_stat", kXR_stat);
  ("kXR_set", kXR_set); ("kXR_write", kXR_write); ("kXR_fattr", kXR_fattr);
  ("kXR_prepare", kXR_prepare); ("kXR_statx", kXR_statx); ("kXR_endsess", kXR_endsess);
  ("kXR_bind", kXR_bind); ("kXR_readv", kXR_readv); ("kXR_pgwrite", kXR_pgwrite);
  ("kXR_locate", kXR_locate); ("kXR_truncate", kXR_truncate); ("kXR_sigver", kXR_sigver);
  ("kXR_pgread", kXR_pgread); ("kXR_writev", kXR_writev); ("kXR_clone", kXR_clone);
  ("kXR_1stRequest", kXR_1stRequest); ("kXR_setattr", kXR_setattr);
  ("kXR_symlink", kXR_symlink); ("kXR_readlink", kXR_readlink); ("kXR_link", kXR_link);
  ("kXR_sa_times", kXR_sa_times); ("kXR_sa_owner", kXR_sa_owner); ("kXR_ok", kXR_ok);
  ("kXR_oksofar", kXR_oksofar); ("kXR_attn", kXR_attn); ("kXR_authmore", kXR_authmore);
  ("kXR_error", kXR_error); ("kXR_redirect", kXR_redirect); ("kXR_wait", kXR_wait);
  ("kXR_waitresp", kXR_waitresp); ("kXR_status", kXR_status); ("kXR_asyncab", kXR_asyncab);
  ("kXR_asyncdi", kXR_asyncdi); ("kXR_asyncms", kXR_asyncms); ("kXR_asyncrd", kXR_asyncrd);
  ("kXR_asyncwt", kXR_asyncwt); ("kXR_asyncav", kXR_asyncav); ("kXR_asynunav", kXR_asynunav);
  ("kXR_asyncgo", kXR_asyncgo); ("kXR_asynresp", kXR_asynresp);
  ("kXR_isManager", kXR_isManager); ("kXR_isServer", kXR_isServer);
  ("kXR_attrCache", kXR_attrCache); ("kXR_attrMeta", kXR_attrMeta);
  ("kXR_attrProxy", kXR_attrProxy); ("kXR_attrSuper", kXR_attrSuper);
  ("kXR_attrVirtRdr", kXR_attrVirtRdr); ("kXR_recoverWrts", kXR_recoverWrts);
  ("kXR_collapseRedir", kXR_collapseRedir); ("kXR_ecRedir", kXR_ecRedir);
  ("kXR_supposc", kXR_supposc); ("kXR_suppgrw", kXR_suppgrw); ("kXR_supgpf", kXR_supgpf);
  ("kXR_anongpf", kXR_anongpf); ("kXR_haveTLS", kXR_haveTLS); ("kXR_gotoTLS", kXR_gotoTLS);
  ("kXR_tlsAny", kXR_tlsAny); ("kXR_tlsData", kXR_tlsData); ("kXR_tlsGPF", kXR_tlsGPF);
  ("kXR_tlsLogin", kXR_tlsLogin); ("kXR_tlsSess", kXR_tlsSess); ("kXR_tlsTPC", kXR_tlsTPC);
  ("kXR_tlsGPFA", kXR_tlsGPFA); ("kXR_PROTOCOLVERSION", kXR_PROTOCOLVERSION);
  ("kXR_secreqs", kXR_secreqs); ("kXR_ableTLS", kXR_ableTLS); ("kXR_wantTLS", kXR_wantTLS);
  ("kXR_ExpLogin", kXR_ExpLogin); ("kXR_asyncap", kXR_asyncap); ("kXR_ver005", kXR_ver005);
  ("kXR_online", kXR_online); ("kXR_dstat", kXR_dstat); ("kXR_dcksm", kXR_dcksm);
  ("kXR_vfs", kXR_vfs); ("kXR_statNoFollow", kXR_statNoFollow);
  ("kXR_compress", kXR_compress); ("kXR_delete", kXR_delete); ("kXR_force", kXR_force);
  ("kXR_new", kXR_new); ("kXR_open_read", kXR_open_read); ("kXR_open_updt", kXR_open_updt);
  ("kXR_async", kXR_async); ("kXR_refresh", kXR_refresh); ("kXR_mkpath", kXR_mkpath);
  ("kXR_open_apnd", kXR_open_apnd); ("kXR_retstat", kXR_retstat);
  ("kXR_replica", kXR_replica); ("kXR_posc", kXR_posc); ("kXR_nowait", kXR_nowait);
  ("kXR_seqio", kXR_seqio); ("kXR_open_wrto", kXR_open_wrto);
  ("kXR_mkdirpath", kXR_mkdirpath); ("kXR_QStats", kXR_QStats); ("kXR_QPrep", kXR_QPrep);
  ("kXR_Qcksum", kXR_Qcksum); ("kXR_Qxattr", kXR_Qxattr); ("kXR_Qspace", kXR_Qspace);
  ("kXR_Qckscan", kXR_Qckscan); ("kXR_Qconfig", kXR_Qconfig); ("kXR_Qvisa", kXR_Qvisa);
  ("kXR_Qopaque", kXR_Qopaque); ("kXR_Qopaquf", kXR_Qopaquf); ("kXR_Qopaqug", kXR_Qopaqug);
  ("kXR_cancel", kXR_cancel); ("kXR_notify", kXR_notify); ("kXR_noerrs", kXR_noerrs);
  ("kXR_stage", kXR_stage); ("kXR_wmode", kXR_wmode); ("kXR_coloc", kXR_coloc);
  ("kXR_fresh", kXR_fresh); ("kXR_usetcp", kXR_usetcp); ("kXR_evict", kXR_evict);
  ("kXR_addPeers", kXR_addPeers); ("kXR_refreshLoc", kXR_refreshLoc);
  ("kXR_prefname", kXR_prefname); ("kXR_4dirlist", kXR_4dirlist);
  ("kXR_nowaitLoc", kXR_nowaitLoc); ("kXR_fattrDel", kXR_fattrDel);
  ("kXR_fattrGet", kXR_fattrGet); ("kXR_fattrList", kXR_fattrList);
  ("kXR_fattrSet", kXR_fattrSet); ("kXR_fattrMaxVars", kXR_fattrMaxVars);
  ("kXR_fattrIsNew", kXR_fattrIsNew); ("kXR_fattrAData", kXR_fattrAData);
  ("kXR_fattrRecurse", kXR_fattrRecurse); ("kXR_ckpBegin", kXR_ckpBegin);
  ("kXR_ckpCommit", kXR_ckpCommit); ("kXR_ckpQuery", kXR_ckpQuery);
  ("kXR_ckpRollback", kXR_ckpRollback); ("kXR_ckpXeq", kXR_ckpXeq);
  ("kXR_wv_doSync", kXR_wv_doSync); ("kXR_SHA256_sig", kXR_SHA256_sig);
  ("kXR_nodata_sig", kXR_nodata_sig); ("kXR_secNone", kXR_secNone);
  ("kXR_secCompatible", kXR_secCompatible); ("kXR_secStandard", kXR_secStandard);
  ("kXR_secIntense", kXR_secIntense); ("kXR_secPedantic", kXR_secPedantic);
  ("kXR_pgPageSZ", kXR_pgPageSZ); ("kXR_pgUnitSZ", kXR_pgUnitSZ);
  ("kXR_pgMaxEpr", kXR_pgMaxEpr); ("kXR_pgRetry", kXR_pgRetry); ("kXR_pgValid", kXR_pgValid);
  ("kXR_FinalResult", kXR_FinalResult); ("kXR_PartialResult", kXR_PartialResult);
  ("kXR_xset", kXR_xset); ("kXR_isDir", kXR_isDir); ("kXR_other", kXR_other);
  ("kXR_offline", kXR_offline); ("kXR_readable", kXR_readable);
  ("kXR_writable", kXR_writable); ("kXR_poscpend", kXR_poscpend);
  ("kXR_bkpexist", kXR_bkpexist)
]%string.

Definition is_request_code (v : Z) : bool :=
  ((3000 <=? v) && (v <=? 3032)) || ((3501 <=? v) && (v <=? 3503)).

(** [{v: k for k, v in globals().items() if ...}]: a later name for the same
    value replaces an earlier one. *)
Definition _REQUEST_NAMES : dict Z string :=
  foldl (fun d kv => if is_request_code kv.2 then dict_set kv.2 kv.1 d else d) [] kXR_globals.

Definition _STATUS_NAMES : dict Z string :=
  [(kXR_ok, "kXR_ok"); (kXR_oksofar, "kXR_oksofar"); (kXR_attn, "kXR_attn");
   (kXR_authmore, "kXR_authmore"); (kXR_error, "kXR_error"); (kXR_redirect, "kXR_redirect");
   (kXR_wait, "kXR_wait"); (kXR_waitresp, "kXR_waitresp"); (kXR_status, "kXR_status")]%string.

Definition request_name (rid : Z) : string :=
  default ("kXR_unknown(" +:+ pretty rid +:+ ")") (dict_get rid _REQUEST_NAMES).

Definition status_name (status : Z) : string :=
  default ("kXR_unknown(" +:+ pretty status +:+ ")") (dict_get status _STATUS_NAMES).

(** The request opcodes, by name. *)
Definition opcode_globals : list (string * Z) :=
  filter (fun kv => 3000 <= kv.2 <= 3032 \/ 3500 <= kv.2 <= 3503) kXR_globals.
