(* ===== verification/Errors.v ===== *)
(** * Exceptions

    src/xrd/errors.py: the exception classes, which of them an [except]
    clause catches, and the table from a server's [kXR_error] code to the
    class raised for it. An exception is modelled by its class and the data
    callers read off it; the English text of its message is left out, except
    that of a server's own message, which is data. *)

From S2P Require Import Prelude PyStr.

(** [ServerError] and the subclasses [_oserror] builds. *)
Inductive server_class :=
| ServerError | NotFoundError | ExistsError | PermissionError_ | IsADirectoryError_
| NotADirectoryError_ | NoSpaceError | IOError_ | UnsupportedError | ReadOnlyError
| QuotaError | AttrNotFoundError | BusyError | InvalidArgumentError | ServerTimeoutError.

#[export] Instance server_class_eq_dec : EqDecision server_class.
Proof. solve_decision. Defined.

Inductive exn :=
(* the package's own *)
| ProtocolError
| ConnectionError
| TransientError (attempts committed : Z)
| TimeoutError (attempts committed : Z)
| AuthenticationError
| NoMechanismError (offered : list str) (tried : dict str str)
| CredentialError
| TokenExpiredError
| RedirectLimitError
| WaitLimitError (attempts : Z)
| ChecksumMismatchError (algorithm expected actual : str)
| TooLargeError (size limit : Z) (path : option str)
| ServerExn (cls : server_class) (code : Z) (message : str) (path : option str)
| RedirectRequired (host : str) (port : Z) (token : str)
| XRootDError
(* Python's *)
| StructError
| ValueError
| TypeError
| KeyError
| IndexError
| AssertionError
| OSError
| DERError
| UnicodeEncodeError
| PermissionError
| OverflowError
| ZeroDivisionError
| NotImplementedError
| ReError
| UnsupportedOperation
| FileNotFoundError
| BufferError
| RecursionError
| ConfigParserError
| AttributeError
(* of the ROOT reader, both [XRootDError]s *)
| FormatError
| UnsupportedFeatureError
(* inside the ROOT reader: a class that cannot be read member by member, and
   a read that stops for the streamer information to be read first *)
| Unreadable
| Unasked.

Notation res := (result exn).

(** ** Which [except] clause catches what *)

(** [except XRootDError]. *)
Definition is_xrootd_error (e : exn) : bool :=
  match e with
  | StructError | ValueError | TypeError | KeyError | IndexError | AssertionError
  | OSError | DERError | UnicodeEncodeError | PermissionError | OverflowError
  | ZeroDivisionError | NotImplementedError | ReError | UnsupportedOperation
  | FileNotFoundError | BufferError | ConfigParserError | RecursionError | AttributeError | Unreadable | Unasked => false
  | _ => true
  end.

(** [except ValueError]. *)
Definition is_value_error (e : exn) : bool :=
  match e with ValueError | DERError | UnicodeEncodeError | UnsupportedOperation => true | _ => false end.

(** [except xrd.errors.ConnectionError]: a timeout is a [TransientError] and
    a [TransientError] is a [ConnectionError]; so is a server's own timeout. *)
Definition is_connection_error (e : exn) : bool :=
  match e with
  | ConnectionError | TransientError _ _ | TimeoutError _ _ | WaitLimitError _
  | ServerExn ServerTimeoutError _ _ _ => true
  | _ => false
  end.

(** [except xrd.errors.TransientError]. *)
Definition is_transient (e : exn) : bool :=
  match e with
  | TransientError _ _ | TimeoutError _ _ | WaitLimitError _
  | ServerExn ServerTimeoutError _ _ _ => true
  | _ => false
  end.

(** [except xrd.errors.TimeoutError]. *)
Definition is_timeout (e : exn) : bool :=
  match e with
  | TimeoutError _ _ | ServerExn ServerTimeoutError _ _ _ => true
  | _ => false
  end.

(** [except OSError]: Python's own, a lost connection, and every server error
    but one whose code has no class. *)
Definition is_os_error (e : exn) : bool :=
  match e with
  | OSError | PermissionError | FileNotFoundError | UnsupportedOperation | ConnectionError | TransientError _ _ | TimeoutError _ _ | WaitLimitError _ => true
  | ServerExn ServerError _ _ _ => false
  | ServerExn _ _ _ _ => true
  | _ => false
  end.

(** The [errno] an instance carries. *)
Definition class_errno (c : server_class) : option Z :=
  match c with
  | ServerError => None
  | NotFoundError => Some 2            (* ENOENT *)
  | ExistsError => Some 17             (* EEXIST *)
  | PermissionError_ => Some 13        (* EACCES *)
  | IsADirectoryError_ => Some 21      (* EISDIR *)
  | NotADirectoryError_ => Some 20     (* ENOTDIR *)
  | NoSpaceError => Some 28            (* ENOSPC *)
  | IOError_ => Some 5                 (* EIO *)
  | UnsupportedError => Some 38        (* ENOSYS *)
  | ReadOnlyError => Some 30           (* EROFS *)
  | QuotaError => Some 122             (* EDQUOT *)
  | AttrNotFoundError => Some 61       (* ENODATA *)
  | BusyError => Some 16               (* EBUSY *)
  | InvalidArgumentError => Some 22    (* EINVAL *)
  | ServerTimeoutError => Some 110     (* ETIMEDOUT *)
  end.

(** ** Server error codes *)

Definition kXR_ArgInvalid : Z := 3000.
Definition kXR_ArgMissing : Z := 3001.
Definition kXR_ArgTooLong : Z := 3002.
Definition kXR_FileLocked : Z := 3003.
Definition kXR_FileNotOpen : Z := 3004.
Definition kXR_FSError : Z := 3005.
Definition kXR_InvalidRequest : Z := 3006.
Definition kXR_IOError : Z := 3007.
Definition kXR_NoMemory : Z := 3008.
Definition kXR_NoSpace : Z := 3009.
Definition kXR_NotAuthorized : Z := 3010.
Definition kXR_NotFound : Z := 3011.
Definition kXR_ServerError : Z := 3012.
Definition kXR_Unsupported : Z := 3013.
Definition kXR_noserver : Z := 3014.
Definition kXR_NotFile : Z := 3015.
Definition kXR_isDirectory : Z := 3016.
Definition kXR_Cancelled : Z := 3017.
Definition kXR_ItExists : Z := 3018.
Definition kXR_ChkSumErr : Z := 3019.
Definition kXR_inProgress : Z := 3020.
Definition kXR_overQuota : Z := 3021.
Definition kXR_SigVerErr : Z := 3022.
Definition kXR_DecryptErr : Z := 3023.
Definition kXR_Overloaded : Z := 3024.
Definition kXR_fsReadOnly : Z := 3025.
Definition kXR_BadPayload : Z := 3026.
Definition kXR_AttrNotFound : Z := 3027.
Definition kXR_TLSRequired : Z := 3028.
Definition kXR_noReplicas : Z := 3029.
Definition kXR_AuthFailed : Z := 3030.
Definition kXR_Impossible : Z := 3031.
Definition kXR_Conflict : Z := 3032.
Definition kXR_TooManyErrs : Z := 3033.
Definition kXR_ReqTimedOut : Z := 3034.
Definition kXR_TimerExpired : Z := 3035.

(** The module's [kXR_*] globals, in order. *)
Definition kXR_error_globals : list (string * Z) := [
  ("kXR_ArgInvalid", kXR_ArgInvalid); ("kXR_ArgMissing", kXR_ArgMissing);
  ("kXR_ArgTooLong", kXR_ArgTooLong); ("kXR_FileLocked", kXR_FileLocked);
  ("kXR_FileNotOpen", kXR_FileNotOpen); ("kXR_FSError", kXR_FSError);
  ("kXR_InvalidRequest", kXR_InvalidRequest); ("kXR_IOError", kXR_IOError);
  ("kXR_NoMemory", kXR_NoMemory); ("kXR_NoSpace", kXR_NoSpace);
  ("kXR_NotAuthorized", kXR_NotAuthorized); ("kXR_NotFound", kXR_NotFound);
  ("kXR_ServerError", kXR_ServerError); ("kXR_Unsupported", kXR_Unsupported);
  ("kXR_noserver", kXR_noserver); ("kXR_NotFile", kXR_NotFile);
  ("kXR_isDirectory", kXR_isDirectory); ("kXR_Cancelled", kXR_Cancelled);
  ("kXR_ItExists", kXR_ItExists); ("kXR_ChkSumErr", kXR_ChkSumErr);
  ("kXR_inProgress", kXR_inProgress); ("kXR_overQuota", kXR_overQuota);
  ("kXR_SigVerErr", kXR_SigVerErr); ("kXR_DecryptErr", kXR_DecryptErr);
  ("kXR_Overloaded", kXR_Overloaded); ("kXR_fsReadOnly", kXR_fsReadOnly);
  ("kXR_BadPayload", kXR_BadPayload); ("kXR_AttrNotFound", kXR_AttrNotFound);
  ("kXR_TLSRequired", kXR_TLSRequired); ("kXR_noReplicas", kXR_noReplicas);
  ("kXR_AuthFailed", kXR_AuthFailed); ("kXR_Impossible", kXR_Impossible);
  ("kXR_Conflict", kXR_Conflict); ("kXR_TooManyErrs", kXR_TooManyErrs);
  ("kXR_ReqTimedOut", kXR_ReqTimedOut); ("kXR_TimerExpired", kXR_TimerExpired)
]%string.

(** [{v: k for k, v in globals().items() if k.startswith("kXR_")}]. *)
Definition _CODE_NAMES : dict Z string :=
  foldl (fun d kv => dict_set kv.2 kv.1 d) [] kXR_error_globals.

Definition _CODE_CLASSES : dict Z server_class := [
  (kXR_ArgInvalid, InvalidArgumentError); (kXR_ArgMissing, InvalidArgumentError);
  (kXR_ArgTooLong, InvalidArgumentError); (kXR_InvalidRequest, InvalidArgumentError);
  (kXR_Impossible, InvalidArgumentError); (kXR_FileLocked, BusyError);
  (kXR_inProgress, BusyError); (kXR_Overloaded, BusyError); (kXR_Conflict, BusyError);
  (kXR_FileNotOpen, InvalidArgumentError); (kXR_FSError, IOError_); (kXR_IOError, IOError_);
  (kXR_ServerError, IOError_); (kXR_TooManyErrs, IOError_); (kXR_NoMemory, NoSpaceError);
  (kXR_NoSpace, NoSpaceError); (kXR_overQuota, QuotaError);
  (kXR_NotAuthorized, PermissionError_); (kXR_AuthFailed, PermissionError_);
  (kXR_TLSRequired, PermissionError_); (kXR_SigVerErr, PermissionError_);
  (kXR_DecryptErr, PermissionError_); (kXR_BadPayload, InvalidArgumentError);
  (kXR_NotFound, NotFoundError); (kXR_noserver, NotFoundError);
  (kXR_noReplicas, NotFoundError); (kXR_ReqTimedOut, ServerTimeoutError);
  (kXR_TimerExpired, ServerTimeoutError); (kXR_Unsupported, UnsupportedError);
  (kXR_NotFile, NotADirectoryError_); (kXR_isDirectory, IsADirectoryError_);
  (kXR_ItExists, ExistsError); (kXR_fsReadOnly, ReadOnlyError);
  (kXR_AttrNotFound, AttrNotFoundError); (kXR_Cancelled, InvalidArgumentError)
].

(** [ServerError._describe]: the name of the code, the server's message, the path. *)
Definition describe (code : Z) (message : str) (path : option str) : str :=
  let name := default ("kXR_unknown(" +:+ pretty code +:+ ")") (dict_get code _CODE_NAMES) in
  let suffix := match path with
               | Some (c :: p) => s_ " [" ++ (c :: p) ++ s_ "]"
               | _ => []
               end in
  s_ name ++ s_ ": " ++ message ++ suffix.

(** Raise the exception that best represents a [kXR_error] response. *)
Definition raise_for_status (code : Z) (message : str) (path : option str) : res unit :=
  if code =? 0 then Ok tt
  else if code =? kXR_ChkSumErr then
    Err (ChecksumMismatchError (s_ "crc32c") (s_ "<server>")
           (match message with [] => s_ "<client>" | _ => message end))
  else
    Err (ServerExn (default ServerError (dict_get code _CODE_CLASSES)) code message path).

(** ** Properties *)

Lemma raise_for_status_err code message path e :
  raise_for_status code message path = Err e -> code <> 0.
Proof. unfold raise_for_status. case_goal; zbool; [done|]. lia. Qed.

(** A server's timeout is caught as a lost connection; no other server error is. *)
Lemma server_connection_error c code message path :
  is_connection_error (ServerExn c code message path) = bool_decide (c = ServerTimeoutError).
Proof. by destruct c. Qed.

(** Every code the protocol defines, but the checksum one, has a class. *)
Lemma code_class_defined code :
  kXR_ArgInvalid <= code <= kXR_TimerExpired -> code <> kXR_ChkSumErr ->
  exists c, dict_get code _CODE_CLASSES = Some c /\ is_Some (class_errno c).
Proof.
  unfold kXR_ArgInvalid, kXR_TimerExpired, kXR_ChkSumErr. intros Hr Hn.
  assert (exists n : nat, code = 3000 + Z.of_nat n /\ (n < 36)%nat) as (n & -> & Hlt).
  { exists (Z.to_nat (code - 3000)). lia. }
  do 36 (destruct n as [|n]; [first [exfalso; lia | eexists; split; [vm_compute; reflexivity | by eexists]]|]).
  lia.
Qed.
