(* ===== verification/Buffer.v ===== *)
(** * Read and write cursors

    src/xrd/proto/buffer.py. [Reader] is a bounds-checked big-endian cursor
    over a read-only buffer: every read either advances it by exactly what
    was asked for or raises [ProtocolError]. [Writer] appends, and raises
    [struct.error] when a value does not fit its field. *)

From S2P Require Import Prelude PyStr Errors.

(** ** [struct] formats *)

(** [">B"], [">H"], [">I"], [">Q"] for [n] = 1, 2, 4, 8. *)
Definition pack_u (n : nat) (v : Z) : res bytes :=
  if (0 <=? v) && (v <? 256 ^ Z.of_nat n) then Ok (be_enc n v) else Err StructError.

(** [">h"], [">i"], [">q"]. *)
Definition pack_i (n : nat) (v : Z) : res bytes :=
  let half := 2 ^ (8 * Z.of_nat n - 1) in
  if (- half <=? v) && (v <? half) then Ok (be_enc n v) else Err StructError.

Definition unpack_u (l : bytes) : Z := be_dec l.
Definition unpack_i (l : bytes) : Z := to_signed (8 * zlen l) (be_dec l).

Lemma pow256_pow2 n : 256 ^ Z.of_nat n = 2 ^ (8 * Z.of_nat n).
Proof. change 256 with (2 ^ 8). rewrite <- Z.pow_mul_r by lia. done. Qed.

Lemma pack_u_small n v : 0 <= v < 256 ^ Z.of_nat n -> pack_u n v = Ok (be_enc n v).
Proof.
  intros Hv. unfold pack_u. destruct (Z.leb_spec 0 v); [|lia].
  destruct (Z.ltb_spec v (256 ^ Z.of_nat n)); [done | lia].
Qed.

Lemma unpack_pack_u n v l : pack_u n v = Ok l -> length l = n /\ unpack_u l = v.
Proof.
  unfold pack_u. case_goal; zbool; [|done]. intros [= <-].
  split; [apply be_enc_length | apply be_dec_enc_small; lia].
Qed.

Lemma unpack_pack_i n v l :
  (0 < n)%nat -> pack_i n v = Ok l -> length l = n /\ unpack_i l = v.
Proof.
  unfold pack_i. intros Hn. case_goal; zbool; [|done]. intros [= <-].
  split; [apply be_enc_length|].
  unfold unpack_i. rewrite be_enc_zlen, be_dec_enc, pow256_pow2. apply to_signed_mod; lia.
Qed.

Lemma pack_unpack_u l : pack_u (length l) (unpack_u l) = Ok l.
Proof.
  unfold pack_u, unpack_u. pose proof (be_dec_range l).
  unfold zlen in *. rewrite be_enc_dec.
  replace (0 <=? _) with true by (symmetry; apply Z.leb_le; lia).
  replace (_ <? _) with true by (symmetry; apply Z.ltb_lt; lia). done.
Qed.

Lemma be_enc_unpack_i l : be_enc (length l) (unpack_i l) = l.
Proof.
  unfold unpack_i, to_signed. destruct (_ <? _); [apply be_enc_dec|].
  rewrite <- be_enc_mod. replace (2 ^ (8 * zlen l)) with (256 ^ Z.of_nat (length l))
    by (unfold zlen; apply pow256_pow2).
  rewrite <- (Z.mod_add _ 1), Z.mul_1_l, Z.sub_add by (apply Z.pow_nonzero; lia).
  rewrite be_enc_mod. apply be_enc_dec.
Qed.

Lemma unpack_i_range l :
  l <> [] -> - 2 ^ (8 * zlen l - 1) <= unpack_i l < 2 ^ (8 * zlen l - 1).
Proof.
  intros Hl. assert (0 < zlen l) by (destruct l; [done|]; rewrite zlen_cons; pose proof (zlen_nonneg l); lia).
  apply to_signed_range; [lia|]. unfold zlen in *. rewrite <- pow256_pow2. apply be_dec_range.
Qed.

Lemma unpack_i_enc n v :
  (0 < n)%nat -> - 2 ^ (8 * Z.of_nat n - 1) <= v < 2 ^ (8 * Z.of_nat n - 1) -> unpack_i (be_enc n v) = v.
Proof.
  intros Hn Hv. unfold unpack_i. rewrite be_enc_zlen, be_dec_enc, pow256_pow2.
  apply to_signed_mod; lia.
Qed.

(** ** Reader *)

Module Reader.
Record t := mk { buf : bytes; pos : Z }.

Definition make (data : bytes) : t := mk data 0.

Definition remaining (r : t) : Z := zlen (buf r) - pos r.

(** The cursor stays inside the buffer. *)
Definition wf (r : t) : Prop := 0 <= pos r <= zlen (buf r).

Definition _take (n : Z) (r : t) : res (bytes * t) :=
  if n <? 0 then Err ProtocolError
  else
    let stop := pos r + n in
    if zlen (buf r) <? stop then Err ProtocolError
    else Ok (slice (buf r) (pos r) stop, mk (buf r) stop).

Definition u8 (r : t) : res (Z * t) := '(c, r) ← _take 1 r; Ok (unpack_u c, r).
Definition u16 (r : t) : res (Z * t) := '(c, r) ← _take 2 r; Ok (unpack_u c, r).
Definition i16 (r : t) : res (Z * t) := '(c, r) ← _take 2 r; Ok (unpack_i c, r).
Definition u32 (r : t) : res (Z * t) := '(c, r) ← _take 4 r; Ok (unpack_u c, r).
Definition i32 (r : t) : res (Z * t) := '(c, r) ← _take 4 r; Ok (unpack_i c, r).
Definition u64 (r : t) : res (Z * t) := '(c, r) ← _take 8 r; Ok (unpack_u c, r).
Definition i64 (r : t) : res (Z * t) := '(c, r) ← _take 8 r; Ok (unpack_i c, r).

(** [bytes(n)], and [view(n)], which differs only in not copying. *)
Definition read (n : Z) (r : t) : res (bytes * t) := _take n r.
Definition rest (r : t) : res (bytes * t) := _take (remaining r) r.
Definition skip (n : Z) (r : t) : res t := '(_, r) ← _take n r; Ok r.

(** [cstring(n)]: a field of [n] bytes, up to its first NUL. *)
Definition cstring_n (n : Z) (r : t) : res (str * t) :=
  '(raw, r) ← _take n r; Ok (utf8_decode (until x00 raw), r).

(** [cstring()]: up to the next NUL, which is consumed, or to the end. *)
Definition cstring (r : t) : str * t :=
  let tail := drop (Z.to_nat (pos r)) (buf r) in
  match partition x00 tail with
  | (h, true, _) => (utf8_decode h, mk (buf r) (pos r + zlen h + 1))
  | (_, false, _) => (utf8_decode tail, mk (buf r) (pos r + zlen tail))
  end.

(** *** The buffer a reader still has in front of it *)

Definition left_ (r : t) : bytes := drop (Z.to_nat (pos r)) (buf r).

Lemma make_wf data : wf (make data).
Proof. unfold wf, make; simpl. pose proof (zlen_nonneg data). lia. Qed.

Lemma left_make data : left_ (make data) = data.
Proof. done. Qed.

Lemma remaining_left r : wf r -> remaining r = zlen (left_ r).
Proof. unfold wf, remaining, left_, zlen. rewrite length_drop. lia. Qed.

(** Reading takes from the front of what is left, or raises. *)
Lemma take_spec n r :
  wf r ->
  _take n r =
    if (n <? 0) || (zlen (left_ r) <? n) then Err ProtocolError
    else Ok (take (Z.to_nat n) (left_ r), mk (buf r) (pos r + n)).
Proof.
  intros Hw. unfold _take. rewrite <- (remaining_left r Hw). unfold remaining.
  destruct (Z.ltb_spec n 0); simpl; [done|].
  replace (zlen (buf r) - pos r <? n) with (zlen (buf r) <? pos r + n)
    by (destruct (Z.ltb_spec (zlen (buf r)) (pos r + n)),
                 (Z.ltb_spec (zlen (buf r) - pos r) n); lia).
  case_goal; [done|]. unfold wf in Hw. rewrite slice_pos by lia. unfold left_. do 3 f_equal. lia.
Qed.

Lemma take_ok n r l r' :
  wf r -> _take n r = Ok (l, r') ->
  wf r' /\ left_ r = l ++ left_ r' /\ zlen l = n /\ 0 <= n.
Proof.
  intros Hw. rewrite take_spec by done. case_goal; [done|]. intros [= <- <-].
  rewrite orb_false_iff in E. zbool. destruct E as [En El]. zbool.
  pose proof (remaining_left r Hw) as Hr. unfold remaining, wf in *. simpl.
  split_and!; [lia| lia | | | lia].
  - unfold left_; simpl. rewrite Z2Nat.inj_add, <- drop_drop by lia.
    symmetry. apply take_drop.
  - unfold zlen in *. rewrite length_take. lia.
Qed.

(** Reading what was written: with [l] in front, [_take] returns [l]. *)
Lemma take_app l k r :
  wf r -> left_ r = l ++ k ->
  exists r', _take (zlen l) r = Ok (l, r') /\ wf r' /\ left_ r' = k.
Proof.
  intros Hw Hl. rewrite take_spec, Hl by done.
  pose proof (zlen_nonneg l). pose proof (zlen_nonneg k).
  rewrite zlen_app.
  replace (zlen l <? 0) with false by (symmetry; apply Z.ltb_ge; lia).
  replace (zlen l + zlen k <? zlen l) with false by (symmetry; apply Z.ltb_ge; lia). simpl.
  eexists; split; [f_equal; f_equal; unfold zlen; rewrite Nat2Z.id; apply take_app_length|].
  pose proof (remaining_left r Hw) as Hr. rewrite Hl, zlen_app in Hr.
  unfold remaining, wf in *; simpl. split; [lia|].
  unfold left_ in *; simpl. rewrite Z2Nat.inj_add, <- drop_drop, Hl by lia.
  unfold zlen. rewrite Nat2Z.id. apply drop_app_length.
Qed.

(** A short buffer raises [ProtocolError], never anything else. *)
Lemma take_err n r e : _take n r = Err e -> e = ProtocolError.
Proof. unfold _take. repeat case_goal; congruence. Qed.

Lemma cstring_wf r s r' : wf r -> cstring r = (s, r') -> wf r'.
Proof.
  intros Hw. unfold cstring. pose proof (remaining_left r Hw) as Hr.
  unfold remaining, left_ in Hr. set (tail := drop _ _) in *.
  destruct (partition x00 tail) as [[h f] t'] eqn:E.
  apply partition_spec in E as [_ E]. unfold wf in *.
  destruct f; intros [= <- <-]; simpl; pose proof (zlen_nonneg tail).
  - rewrite E in Hr. autorewrite with zlen in Hr.
    pose proof (zlen_nonneg h). pose proof (zlen_nonneg t'). lia.
  - lia.
Qed.
End Reader.

(** ** Writer

    A writer is the buffer built so far; a method returns the longer buffer,
    or the [struct.error] of the pack. *)

Module Writer.
Definition t := bytes.

Definition make : t := [].

Definition u8 (v : Z) (w : t) : res t := b ← pack_u 1 v; Ok (w ++ b).
Definition u16 (v : Z) (w : t) : res t := b ← pack_u 2 v; Ok (w ++ b).
Definition u32 (v : Z) (w : t) : res t := b ← pack_u 4 v; Ok (w ++ b).
Definition i32 (v : Z) (w : t) : res t := b ← pack_i 4 v; Ok (w ++ b).
Definition u64 (v : Z) (w : t) : res t := b ← pack_u 8 v; Ok (w ++ b).
Definition i64 (v : Z) (w : t) : res t := b ← pack_i 8 v; Ok (w ++ b).
Definition raw (data : bytes) (w : t) : res t := Ok (w ++ data).
Definition zeros (n : nat) (w : t) : res t := Ok (w ++ replicate n x00).

(** [s.encode("utf-8")]. *)
Definition encode_str (s : str) : res bytes :=
  match utf8_encode s with Some b => Ok b | None => Err UnicodeEncodeError end.

Definition text (s : str) (nul : bool) (w : t) : res t :=
  b ← encode_str s; Ok (w ++ b ++ (if nul then [x00] else [])).

(** [b[:width].ljust(width, b"\x00")]. *)
Definition ljust (width : nat) (b : bytes) : bytes :=
  take width b ++ replicate (width - length b) x00.

Definition padded (b : bytes) (width : nat) (w : t) : res t := Ok (w ++ ljust width b).
Definition padded_str (s : str) (width : nat) (w : t) : res t :=
  b ← encode_str s; Ok (w ++ ljust width b).

(** A write appends [n] bytes and touches nothing before them. *)
Definition appends (n : nat) (f : t -> res t) : Prop :=
  forall w w', f w = Ok w' -> exists b, w' = w ++ b /\ length b = n.

Lemma ljust_length width b : length (ljust width b) = width.
Proof. unfold ljust. rewrite length_app, length_take, length_replicate. lia. Qed.

Lemma ljust_exact width b : length b = width -> ljust width b = b.
Proof.
  intros H. unfold ljust. rewrite take_ge by lia.
  replace (width - length b)%nat with 0%nat by lia. apply app_nil_r.
Qed.

Lemma appends_pack n p : (forall b, p = Ok b -> length b = n) ->
  appends n (fun w => b ← p; Ok (w ++ b)).
Proof. intros Hp w w' H. destruct p as [b|]; simpl in H; [|done]. inv_bind. eauto. Qed.

Lemma pack_u_length n v b : pack_u n v = Ok b -> length b = n.
Proof. intros H. by apply unpack_pack_u in H as [? _]. Qed.

Lemma pack_i_length n v b : pack_i n v = Ok b -> length b = n.
Proof.
  unfold pack_i. case_goal; [|done]. intros [= <-]. apply be_enc_length.
Qed.

Lemma appends_u8 v : appends 1 (u8 v).
Proof. apply appends_pack, pack_u_length. Qed.
Lemma appends_u16 v : appends 2 (u16 v).
Proof. apply appends_pack, pack_u_length. Qed.
Lemma appends_u32 v : appends 4 (u32 v).
Proof. apply appends_pack, pack_u_length. Qed.
Lemma appends_i32 v : appends 4 (i32 v).
Proof. apply appends_pack, pack_i_length. Qed.
Lemma appends_u64 v : appends 8 (u64 v).
Proof. apply appends_pack, pack_u_length. Qed.
Lemma appends_i64 v : appends 8 (i64 v).
Proof. apply appends_pack, pack_i_length. Qed.
Lemma appends_zeros n : appends n (zeros n).
Proof. intros w w' [= <-]. eexists; split; [done | apply length_replicate]. Qed.
Lemma appends_padded b n : appends n (padded b n).
Proof. intros w w' [= <-]. eexists; split; [done | apply ljust_length]. Qed.
Lemma appends_padded_str s n : appends n (padded_str s n).
Proof.
  intros w w' H. unfold padded_str in H. inv_bind.
  eexists; split; [done | apply ljust_length].
Qed.

(** Writes chain, as [w.u8(...).zeros(...)] does. *)
Lemma appends_bind n m f g :
  appends n f -> appends m g -> appends (n + m) (fun w => w ← f w; g w).
Proof.
  intros Hf Hg w w' H. inv_bind.
  apply Hf in Ha as (b & -> & <-). apply Hg in H as (c & -> & <-).
  exists (b ++ c). by rewrite app_assoc, length_app.
Qed.
End Writer.

#[export] Hint Resolve Writer.appends_u8 Writer.appends_u16 Writer.appends_u32
  Writer.appends_i32 Writer.appends_u64 Writer.appends_i64 Writer.appends_zeros
  Writer.appends_padded Writer.appends_padded_str : xrd.
