(* ===== verification/Frames.v ===== *)
(** * Frames

    src/xrd/proto/frames.py. The [Request] base class is the interface
    [RequestOps]: what a request must answer for [encode] to put it on the
    wire. [decode_header] reads the 8-byte [ServerResponseHdr]. *)

From S2P Require Import Prelude PyStr Constants Errors Buffer.

(** Three zero words, then 4, then [ROOTD_PQ]. *)
Definition HANDSHAKE : bytes := replicate 12 x00 ++ be_enc 4 4 ++ be_enc 4 ROOTD_PQ.

(** What a client request answers. [path_data] travels on the bound path but
    is counted in [dlen]; [trailer] follows the frame and is not. *)
Class RequestOps (R : Type) := {
  opcode : R -> Z;
  signed : R -> bool;
  idempotent : R -> bool;
  pathid : R -> Z;
  reply_on_path : R -> bool;
  params : R -> Writer.t -> res Writer.t;
  payload : R -> res bytes;
  path_data : R -> bytes;
  trailer : R -> bytes
}.

(** [_HDR.pack(streamid & 0xFFFF, opcode, params, dlen)], [">HH16sI"]. *)
Definition pack_hdr (sid op : Z) (p : bytes) (dlen : Z) : res bytes :=
  a ← pack_u 2 (Z.land sid 0xFFFF); b ← pack_u 2 op; d ← pack_u 4 dlen;
  Ok (a ++ b ++ Writer.ljust 16 p ++ d).

(** Serialise [req] into a complete wire frame. *)
Definition encode {R} `{RequestOps R} (req : R) (streamid : Z) : res bytes :=
  w ← params req Writer.make;
  if negb (zlen w =? 16) then Err ProtocolError
  else
    body ← payload req;
    let dlen := zlen body + zlen (path_data req) in
    if MAX_FRAME_PAYLOAD <? dlen then Err ProtocolError
    else
      h ← pack_hdr streamid (opcode req) w dlen;
      Ok (h ++ body ++ trailer req).

(** The 8-byte [ServerResponseHdr]. *)
Record ResponseHeader := { rh_streamid : Z; rh_status : Z; rh_dlen : Z }.

Definition decode_header (data : bytes) : res ResponseHeader :=
  if zlen data <? RESPONSE_HDRLEN then Err ProtocolError
  else
    let d := take 8 data in
    let h := {| rh_streamid := be_dec (take 2 d);
                rh_status := be_dec (take 2 (drop 2 d));
                rh_dlen := be_dec (drop 4 d) |} in
    if MAX_RESPONSE_BODY <? rh_dlen h then Err ProtocolError else Ok h.

(** ** The wire, as the server side reads it

    A specification of the frame: what a conforming peer takes apart. *)

Record wire_frame := {
  wf_streamid : Z; wf_opcode : Z; wf_params : bytes; wf_dlen : Z; wf_rest : bytes
}.

Definition split_frame (f : bytes) : wire_frame :=
  {| wf_streamid := be_dec (take 2 f);
     wf_opcode := be_dec (take 2 (drop 2 f));
     wf_params := take 16 (drop 4 f);
     wf_dlen := be_dec (take 4 (drop 20 f));
     wf_rest := drop 24 f |}.

(** The peer's own encoder of a response frame. *)
Definition response_frame (sid status : Z) (body : bytes) : bytes :=
  be_enc 2 sid ++ be_enc 2 status ++ be_enc 4 (zlen body) ++ body.

Lemma land_FFFF x : Z.land x 0xFFFF = x mod 65536.
Proof. change 0xFFFF with (Z.ones 16). by rewrite Z.land_ones by lia. Qed.

Lemma pack_hdr_ok sid op p dlen h :
  pack_hdr sid op p dlen = Ok h ->
  h = be_enc 2 (sid mod 65536) ++ be_enc 2 op ++ Writer.ljust 16 p ++ be_enc 4 dlen
  /\ 0 <= op < 65536 /\ 0 <= dlen < 2 ^ 32.
Proof.
  unfold pack_hdr, pack_u. rewrite land_FFFF. intros H.
  repeat case_hyp; zbool; simpl in *; try discriminate. injection H as <-.
  split_and!; done || (change (256 ^ Z.of_nat 2) with 65536 in *;
                       change (256 ^ Z.of_nat 4) with (2 ^ 32) in *; lia).
Qed.

Section Encode.
Context {R : Type} `{RequestOps R}.
Implicit Types (req : R) (sid : Z).

(** What [encode] returned, field by field. *)
Lemma encode_ok req sid f :
  encode req sid = Ok f ->
  exists w body,
    params req Writer.make = Ok w /\ length w = 16%nat /\ payload req = Ok body
    /\ 0 <= opcode req < 65536
    /\ zlen body + zlen (path_data req) <= MAX_FRAME_PAYLOAD
    /\ f = (be_enc 2 (sid mod 65536) ++ be_enc 2 (opcode req) ++ w
              ++ be_enc 4 (zlen body + zlen (path_data req))) ++ body ++ trailer req.
Proof.
  unfold encode. intros Hf.
  destruct (params req Writer.make) as [w|] eqn:Ew; simpl in Hf; [|done].
  case_hyp; zbool; [done|].
  destruct (payload req) as [body|] eqn:Eb; simpl in Hf; [|done].
  case_hyp; zbool; [done|]. inv_bind. apply pack_hdr_ok in Ha as (-> & Hop & _).
  assert (length w = 16%nat) by (unfold zlen in *; lia).
  exists w, body. rewrite Writer.ljust_exact by done. repeat split; try done; lia.
Qed.

Lemma split_frame_concat sid op w dlen rest :
  0 <= sid < 65536 -> 0 <= op < 65536 -> length w = 16%nat -> 0 <= dlen < 2 ^ 32 ->
  split_frame ((be_enc 2 sid ++ be_enc 2 op ++ w ++ be_enc 4 dlen) ++ rest)
  = {| wf_streamid := sid; wf_opcode := op; wf_params := w; wf_dlen := dlen; wf_rest := rest |}.
Proof.
  intros Hs Ho Hw Hd. unfold split_frame. rewrite <- !app_assoc.
  set (F := be_enc 2 sid ++ _).
  assert (take 2 F = be_enc 2 sid) as -> by (apply take_app_length'; by rewrite be_enc_length).
  assert (drop 2 F = be_enc 2 op ++ w ++ be_enc 4 dlen ++ rest) as ->
    by (apply drop_app_length'; by rewrite be_enc_length).
  assert (drop 4 F = w ++ be_enc 4 dlen ++ rest) as ->.
  { unfold F. rewrite app_assoc. apply drop_app_length'.
    by rewrite length_app, !be_enc_length. }
  assert (drop 20 F = be_enc 4 dlen ++ rest) as ->.
  { unfold F. rewrite !app_assoc, <- (app_assoc _ (be_enc 4 dlen)). apply drop_app_length'.
    by rewrite !length_app, !be_enc_length, Hw. }
  assert (drop 24 F = rest) as ->.
  { unfold F. rewrite !app_assoc. apply drop_app_length'.
    by rewrite !length_app, !be_enc_length, Hw. }
  rewrite !take_app_length' by (by rewrite ?be_enc_length).
  f_equal; by apply be_dec_enc_small.
Qed.

(** A peer that takes an encoded frame apart finds the request's fields. *)
Lemma split_encode req sid f :
  encode req sid = Ok f ->
  exists w body,
    params req Writer.make = Ok w /\ payload req = Ok body /\
    split_frame f =
      {| wf_streamid := sid mod 65536; wf_opcode := opcode req; wf_params := w;
         wf_dlen := zlen body + zlen (path_data req); wf_rest := body ++ trailer req |}.
Proof.
  intros Hf. apply encode_ok in Hf as (w & body & Hw & Hl & Hb & Hop & Hd & ->).
  exists w, body. repeat split; try done. apply split_frame_concat; try done.
  - apply Z.mod_pos_bound; lia.
  - unfold MAX_FRAME_PAYLOAD in Hd. pose proof (zlen_nonneg body).
    pose proof (zlen_nonneg (path_data req)). lia.
Qed.

Lemma encode_length req sid f :
  encode req sid = Ok f ->
  exists body, payload req = Ok body /\ zlen f = 24 + zlen body + zlen (trailer req).
Proof.
  intros Hf. apply encode_ok in Hf as (w & body & _ & Hl & Hb & _ & _ & ->).
  exists body. split; [done|]. rewrite !zlen_app, !be_enc_zlen.
  unfold zlen at 1. rewrite Hl. lia.
Qed.
End Encode.

(** ** Response headers *)

Lemma decode_header_frame sid status body k :
  0 <= sid < 65536 -> 0 <= status < 65536 -> zlen body <= MAX_RESPONSE_BODY ->
  decode_header (take 8 (response_frame sid status body ++ k))
  = Ok {| rh_streamid := sid; rh_status := status; rh_dlen := zlen body |}.
Proof.
  intros Hs Ht Hb. pose proof (zlen_nonneg body).
  assert (MAX_RESPONSE_BODY < 2 ^ 32) by (vm_compute; done).
  unfold response_frame. rewrite <- !app_assoc, !(assoc (++)), <- !app_assoc.
  set (h := be_enc 2 sid ++ be_enc 2 status ++ be_enc 4 (zlen body)).
  assert (take 8 (be_enc 2 sid ++ be_enc 2 status ++ be_enc 4 (zlen body) ++ body ++ k) = h) as E.
  { unfold h. replace (be_enc 2 sid ++ be_enc 2 status ++ be_enc 4 (zlen body) ++ body ++ k)
      with ((be_enc 2 sid ++ be_enc 2 status ++ be_enc 4 (zlen body)) ++ body ++ k)
      by (by rewrite <- !app_assoc).
    apply take_app_length'. rewrite !length_app, !be_enc_length. done. }
  rewrite E. unfold decode_header.
  assert (length h = 8%nat) as Hl by (unfold h; rewrite !length_app, !be_enc_length; done).
  destruct (Z.ltb_spec (zlen h) RESPONSE_HDRLEN) as [Hc|_];
    [unfold zlen, RESPONSE_HDRLEN in Hc; lia|].
  cbv zeta. rewrite (take_ge h 8) by (rewrite Hl; done). cbn [rh_dlen].
  assert (be_dec (take 2 h) = sid) as ->.
  { unfold h. rewrite take_app_length' by (by rewrite be_enc_length). by apply be_dec_enc_small. }
  assert (be_dec (take 2 (drop 2 h)) = status) as ->.
  { unfold h. rewrite drop_app_length' by (by rewrite be_enc_length).
    rewrite take_app_length' by (by rewrite be_enc_length). by apply be_dec_enc_small. }
  assert (be_dec (drop 4 h) = zlen body) as ->.
  { unfold h. rewrite app_assoc, drop_app_length' by (rewrite length_app, !be_enc_length; done).
    apply be_dec_enc_small. change (256 ^ Z.of_nat 4) with (2 ^ 32). lia. }
  destruct (Z.ltb_spec MAX_RESPONSE_BODY (zlen body)); [lia | done].
Qed.

(** A header that was accepted declares a body within the client's ceiling. *)
Lemma decode_header_bounds data h :
  decode_header data = Ok h ->
  0 <= rh_streamid h < 65536 /\ 0 <= rh_status h < 65536 /\ 0 <= rh_dlen h <= MAX_RESPONSE_BODY.
Proof.
  unfold decode_header. intros H. case_hyp; zbool; [done|]. case_hyp; zbool; [done|].
  injection H as <-. simpl in *.
  assert (forall l, (length l <= 2)%nat -> 0 <= be_dec l < 65536) as Hr.
  { intros l Hl. pose proof (be_dec_range l). unfold zlen in *.
    assert (256 ^ Z.of_nat (length l) <= 256 ^ 2) by (apply Z.pow_le_mono_r; lia). lia. }
  split_and!; try (apply Hr; rewrite length_take; lia); try lia.
  apply be_dec_range.
Qed.

Lemma decode_header_err data e : decode_header data = Err e -> e = ProtocolError.
Proof. unfold decode_header. repeat case_goal; congruence. Qed.
