(* ===== verification/Requests.v ===== *)
(** * Requests

    src/xrd/proto/requests.py: one constructor per request class, with the
    attributes [__init__] stores; the constructors' own checks and defaults
    as functions; and the class attributes and methods as the instance of
    [RequestOps]. *)

From S2P Require Import Prelude PyStr Constants Errors Buffer Frames.

(** An argument that may be a [str] or [bytes]. *)
Inductive text_or_bytes := Text (s : str) | Raw (b : bytes).

Inductive Request :=
(* session bring-up *)
| Protocol (flags : Z)
| Login (username : str) (pid capver : Z) (token : str)
| Auth (credtype : str) (cred : bytes)
| Ping
| EndSession (sessid : bytes)
| Bind (sessid : bytes)
(* metadata *)
| Stat (path : str) (options : Z) (fhandle : bytes)
| Statx (paths : list str)
| Dirlist (path : str) (options : Z)
| Locate (path : str) (options : Z)
| Query (infotype : Z) (args : text_or_bytes) (fhandle : bytes)
| Prepare (paths : list str) (options priority port extended : Z)
(* namespace mutation *)
| Mkdir (path : str) (mode : Z) (mkpath : bool)
| Rm (path : str)
| Rmdir (path : str)
| Mv (src dst : str)
| Symlink (src dst : str)
| Link (src dst : str)
| Readlink (path : str)
| Setattr (path : str) (flags : Z) (atime mtime : Z * Z) (uid gid : Z)
| Chmod (path : str) (mode : Z)
| Truncate (path : str) (size : Z) (fhandle : bytes)
| Set_ (data : str)
(* file I/O *)
| Open (path : str) (options mode : Z)
| Close (fhandle : bytes)
| Read (fhandle : bytes) (offset length : Z) (pathid : Z)
| Write (fhandle : bytes) (offset : Z) (data : bytes) (pathid : Z)
| Sync (fhandle : bytes)
| ReadV (chunks : list (bytes * Z * Z)) (pathid : Z)
| WriteV (chunks : list (bytes * Z * bytes)) (options : Z)
| Clone (fhandle : bytes) (items : list (bytes * Z * Z * Z))
| PgRead (fhandle : bytes) (offset length reqflags : Z) (pathid : Z)
| PgWrite (fhandle : bytes) (offset : Z) (data : bytes) (reqflags : Z) (pathid : Z)
| ChkPoint (fhandle : bytes) (subcode : Z) (data tail : bytes)
| Fattr (subcode : Z) (body : bytes) (numattr options : Z) (fhandle : bytes)
| Sigver (expectrid seqno : Z) (signature : bytes) (crypto : Z) (nodata : bool).

(** ** Constructors with checks or defaults *)

Definition Protocol_init (flags : option Z) : Request :=
  Protocol (default (Z.lor kXR_secreqs kXR_ableTLS) flags).

(** [Login(username, pid, capver, token)]; [getpid] is the process id. *)
Definition Login_init (getpid : Z) (username : str) (pid capver : option Z) (token : str) :=
  Login username (default getpid pid) (default (Z.lor kXR_ver005 kXR_asyncap) capver) token.

(** A credential type is at most four bytes. *)
Definition Auth_init (credtype : str) (cred : bytes) : res Request :=
  b ← Writer.encode_str credtype;
  if 4 <? zlen b then Err ValueError else Ok (Auth credtype cred).

Definition StatVFS (path : str) : Request := Stat path kXR_vfs NULL_FHANDLE.

Definition Dirlist_init (path : str) (options : option Z) : Request :=
  Dirlist path (default kXR_dstat options).

Definition WriteV_init (chunks : list (bytes * Z * bytes)) (sync : bool) : Request :=
  WriteV chunks (if sync then kXR_wv_doSync else 0).

Definition PgRead_init (fhandle : bytes) (offset length : Z) (retry : bool) (pathid : Z) :=
  PgRead fhandle offset length (if retry then kXR_pgRetry else 0) pathid.

Definition PgWrite_init (fhandle : bytes) (offset : Z) (data : bytes) (retry : bool) (pathid : Z) :=
  PgWrite fhandle offset data (if retry then kXR_pgRetry else 0) pathid.

Definition Sigver_init (expectrid seqno : Z) (signature : bytes) (crypto : option Z) (nodata : bool) :=
  Sigver expectrid seqno signature (default kXR_SHA256_sig crypto) nodata.

(** ** The classes *)

(** The attributes and methods of a request class. *)
Record request_class := mkClass {
  rc_opcode : Z; rc_signed : bool; rc_idempotent : bool; rc_pathid : Z; rc_reply_on_path : bool;
  rc_params : Writer.t -> res Writer.t; rc_payload : res bytes; rc_path_data : bytes;
  rc_trailer : bytes
}.

(** A class that inherits [pathid], [reply_on_path], [path_data] and
    [trailer] from [Request]. *)
Definition control_class (opcode : Z) (signed idempotent : bool)
    (params : Writer.t -> res Writer.t) (payload : res bytes) : request_class :=
  mkClass opcode signed idempotent 0 false params payload [] [].

(** [Request.params]. *)
Definition base_params (w : Writer.t) : res Writer.t := Writer.zeros 16 w.

Definition Protocol_class (flags : Z) :=
  control_class kXR_protocol false true
    (fun w => w ← Writer.u32 kXR_PROTOCOLVERSION w; w ← Writer.u8 flags w;
              w ← Writer.u8 kXR_ExpLogin w; Writer.zeros 10 w)
    (Ok []).

Definition Login_class (username : str) (pid capver : Z) (token : str) :=
  control_class kXR_login false true
    (fun w => w ← Writer.i32 pid w; w ← Writer.padded_str username 8 w; w ← Writer.zeros 2 w;
              w ← Writer.u8 capver w; Writer.u8 0 w)
    (Writer.encode_str token).

Definition Auth_class (credtype : str) (cred : bytes) :=
  control_class kXR_auth false false
    (fun w => w ← Writer.zeros 12 w; Writer.padded_str credtype 4 w)
    (Ok cred).

Definition Ping_class := control_class kXR_ping false true base_params (Ok []).

Definition EndSession_class (sessid : bytes) :=
  control_class kXR_endsess false false (Writer.padded sessid 16) (Ok []).

Definition Bind_class (sessid : bytes) :=
  control_class kXR_bind false false (Writer.padded sessid 16) (Ok []).

Definition Stat_class (path : str) (options : Z) (fhandle : bytes) :=
  control_class kXR_stat false true
    (fun w => w ← Writer.u8 options w; w ← Writer.zeros 11 w; Writer.padded fhandle 4 w)
    (Writer.encode_str path).

Definition Statx_class (paths : list str) :=
  control_class kXR_statx false true base_params (Writer.encode_str (join 10 paths)).

Definition Dirlist_class (path : str) (options : Z) :=
  control_class kXR_dirlist false true
    (fun w => w ← Writer.zeros 15 w; Writer.u8 options w)
    (Writer.encode_str path).

Definition Locate_class (path : str) (options : Z) :=
  control_class kXR_locate false true
    (fun w => w ← Writer.u16 options w; Writer.zeros 14 w)
    (Writer.encode_str path).

Definition Query_class (infotype : Z) (args : text_or_bytes) (fhandle : bytes) :=
  control_class kXR_query false true
    (fun w => w ← Writer.u16 infotype w; w ← Writer.zeros 2 w; w ← Writer.padded fhandle 4 w;
              Writer.zeros 8 w)
    (match args with Text s => Writer.encode_str s | Raw b => Ok b end).

Definition Prepare_class (paths : list str) (options priority port extended : Z) :=
  control_class kXR_prepare true false
    (fun w => w ← Writer.u8 options w; w ← Writer.u8 priority w; w ← Writer.u16 port w;
              w ← Writer.u16 extended w; Writer.zeros 10 w)
    (Writer.encode_str (join 10 paths)).

Definition Mkdir_class (path : str) (mode : Z) (mkpath : bool) :=
  control_class kXR_mkdir true false
    (fun w => w ← Writer.u8 (if mkpath then kXR_mkdirpath else 0) w; w ← Writer.zeros 13 w;
              Writer.u16 mode w)
    (Writer.encode_str path).

Definition Rm_class (path : str) := control_class kXR_rm true false base_params (Writer.encode_str path).

(** [Rmdir] differs from [Rm] by its opcode. *)
Definition Rmdir_class (path : str) :=
  control_class kXR_rmdir true false base_params (Writer.encode_str path).

(** The length [Mv.params] declares for its first argument. *)
Definition arg1len (src : str) : res Z := b ← Writer.encode_str src; Ok (zlen b).

(** [Mv], and [Symlink] and [Link], which differ from it by their opcode. *)
Definition Mv_class (opcode : Z) (src dst : str) :=
  control_class opcode true false
    (fun w => w ← Writer.zeros 14 w; n ← arg1len src; Writer.u16 n w)
    (Writer.encode_str (src ++ 32 :: dst)).

Definition Symlink_class := Mv_class kXR_symlink.
Definition Link_class := Mv_class kXR_link.

Definition Readlink_class (path : str) :=
  control_class kXR_readlink true true base_params (Writer.encode_str path).

Definition setattr_block (flags : Z) (atime mtime : Z * Z) (uid gid : Z) (w : Writer.t) :=
  w ← Writer.i32 flags w;
  w ← Writer.i64 atime.1 w; w ← Writer.i64 atime.2 w;
  w ← Writer.i64 mtime.1 w; w ← Writer.i64 mtime.2 w;
  w ← Writer.i32 uid w; Writer.i32 gid w.

Definition Setattr_class (path : str) (flags : Z) (atime mtime : Z * Z) (uid gid : Z) :=
  control_class kXR_setattr true false base_params
    (w ← setattr_block flags atime mtime uid gid Writer.make;
     p ← Writer.encode_str path; Ok (w ++ p ++ [x00])).

Definition Chmod_class (path : str) (mode : Z) :=
  control_class kXR_chmod true false
    (fun w => w ← Writer.zeros 14 w; Writer.u16 mode w)
    (Writer.encode_str path).

Definition Truncate_class (path : str) (size : Z) (fhandle : bytes) :=
  control_class kXR_truncate true false
    (fun w => w ← Writer.padded fhandle 4 w; w ← Writer.i64 size w; Writer.zeros 4 w)
    (Writer.encode_str path).

Definition Set_class (data : str) := control_class kXR_set true false base_params (Writer.encode_str data).

Definition Open_class (path : str) (options mode : Z) :=
  control_class kXR_open true false
    (fun w => w ← Writer.u16 mode w; w ← Writer.u16 options w; Writer.zeros 12 w)
    (Writer.encode_str path).

Definition Close_class (fhandle : bytes) :=
  control_class kXR_close false false
    (fun w => w ← Writer.padded fhandle 4 w; Writer.zeros 12 w) (Ok []).

Definition Read_class (fhandle : bytes) (offset length pathid : Z) :=
  mkClass kXR_read false true pathid true
    (fun w => w ← Writer.padded fhandle 4 w; w ← Writer.i64 offset w; Writer.i32 length w)
    (if pathid =? 0 then Ok [] else w ← Writer.u8 pathid Writer.make; Writer.zeros 7 w)
    [] [].

Definition Write_class (fhandle : bytes) (offset : Z) (data : bytes) (pathid : Z) :=
  mkClass kXR_write true false pathid false
    (fun w => w ← Writer.padded fhandle 4 w; w ← Writer.i64 offset w; w ← Writer.u8 pathid w;
              Writer.zeros 3 w)
    (if pathid =? 0 then Ok data else Ok [])
    (if pathid =? 0 then [] else data) [].

Definition Sync_class (fhandle : bytes) :=
  control_class kXR_sync false false
    (fun w => w ← Writer.padded fhandle 4 w; Writer.zeros 12 w) (Ok []).

(** [for x in xs: f(x, w)] on one writer. *)
Definition write_all {A} (f : A -> Writer.t -> res Writer.t) : list A -> Writer.t -> res Writer.t :=
  fix go l w := match l with [] => Ok w | x :: l => w ← f x w; go l w end.

Definition read_list_entry (c : bytes * Z * Z) (w : Writer.t) : res Writer.t :=
  let '(fhandle, offset, length) := c in
  w ← Writer.padded fhandle 4 w; w ← Writer.i32 length w; Writer.i64 offset w.

Definition ReadV_class (chunks : list (bytes * Z * Z)) (pathid : Z) :=
  mkClass kXR_readv false true pathid true
    (fun w => w ← Writer.zeros 15 w; Writer.u8 pathid w)
    (write_all read_list_entry chunks Writer.make) [] [].

Definition write_list_entry (c : bytes * Z * bytes) (w : Writer.t) : res Writer.t :=
  let '(fhandle, offset, data) := c in
  w ← Writer.padded fhandle 4 w; w ← Writer.i32 (zlen data) w; Writer.i64 offset w.

Definition WriteV_class (chunks : list (bytes * Z * bytes)) (options : Z) :=
  mkClass kXR_writev true false 0 false
    (fun w => w ← Writer.u8 options w; Writer.zeros 15 w)
    (write_all write_list_entry chunks Writer.make) [] (concat (map snd chunks)).

Definition clone_item (c : bytes * Z * Z * Z) (w : Writer.t) : res Writer.t :=
  let '(source, offset, length, target) := c in
  w ← Writer.padded source 4 w; w ← Writer.zeros 4 w; w ← Writer.i64 offset w;
  w ← Writer.i64 length w; Writer.i64 target w.

Definition Clone_class (fhandle : bytes) (items : list (bytes * Z * Z * Z)) :=
  control_class kXR_clone true false
    (fun w => w ← Writer.padded fhandle 4 w; Writer.zeros 12 w)
    (write_all clone_item items Writer.make).

Definition PgRead_class (fhandle : bytes) (offset length reqflags pathid : Z) :=
  mkClass kXR_pgread false true pathid true
    (fun w => w ← Writer.padded fhandle 4 w; w ← Writer.i64 offset w; Writer.i32 length w)
    (if (reqflags =? 0) && (pathid =? 0) then Ok []
     else w ← Writer.u8 pathid Writer.make; w ← Writer.u8 reqflags w; Writer.zeros 2 w)
    [] [].

Definition PgWrite_class (fhandle : bytes) (offset : Z) (data : bytes) (reqflags pathid : Z) :=
  mkClass kXR_pgwrite true false pathid false
    (fun w => w ← Writer.padded fhandle 4 w; w ← Writer.i64 offset w; w ← Writer.u8 pathid w;
              w ← Writer.u8 reqflags w; Writer.zeros 2 w)
    (if pathid =? 0 then Ok data else Ok [])
    (if pathid =? 0 then [] else data) [].

Definition ChkPoint_class (fhandle : bytes) (subcode : Z) (data tail : bytes) :=
  mkClass kXR_chkpoint true false 0 false
    (fun w => w ← Writer.padded fhandle 4 w; w ← Writer.zeros 11 w; Writer.u8 subcode w)
    (Ok data) [] tail.

Definition Fattr_class (subcode : Z) (body : bytes) (numattr options : Z) (fhandle : bytes) :=
  control_class kXR_fattr true ((subcode =? kXR_fattrGet) || (subcode =? kXR_fattrList))
    (fun w => w ← Writer.padded fhandle 4 w; w ← Writer.u8 subcode w; w ← Writer.u8 numattr w;
              w ← Writer.u8 options w; Writer.zeros 9 w)
    (Ok body).

Definition Sigver_class (expectrid seqno : Z) (signature : bytes) (crypto : Z) (nodata : bool) :=
  control_class kXR_sigver false true
    (fun w => w ← Writer.u16 expectrid w; w ← Writer.u8 0 w;
              w ← Writer.u8 (if nodata then kXR_nodata_sig else 0) w;
              w ← Writer.u64 seqno w; w ← Writer.u8 crypto w; Writer.zeros 3 w)
    (Ok signature).

(** The class of an object. *)
Definition class_of (r : Request) : request_class :=
  match r with
  | Protocol flags => Protocol_class flags
  | Login username pid capver token => Login_class username pid capver token
  | Auth credtype cred => Auth_class credtype cred
  | Ping => Ping_class
  | EndSession sessid => EndSession_class sessid
  | Bind sessid => Bind_class sessid
  | Stat path options fhandle => Stat_class path options fhandle
  | Statx paths => Statx_class paths
  | Dirlist path options => Dirlist_class path options
  | Locate path options => Locate_class path options
  | Query infotype args fhandle => Query_class infotype args fhandle
  | Prepare paths options priority port extended => Prepare_class paths options priority port extended
  | Mkdir path mode mkpath => Mkdir_class path mode mkpath
  | Rm path => Rm_class path
  | Rmdir path => Rmdir_class path
  | Mv src dst => Mv_class kXR_mv src dst
  | Symlink src dst => Symlink_class src dst
  | Link src dst => Link_class src dst
  | Readlink path => Readlink_class path
  | Setattr path flags atime mtime uid gid => Setattr_class path flags atime mtime uid gid
  | Chmod path mode => Chmod_class path mode
  | Truncate path size fhandle => Truncate_class path size fhandle
  | Set_ data => Set_class data
  | Open path options mode => Open_class path options mode
  | Close fhandle => Close_class fhandle
  | Read fhandle offset length pathid => Read_class fhandle offset length pathid
  | Write fhandle offset data pathid => Write_class fhandle offset data pathid
  | Sync fhandle => Sync_class fhandle
  | ReadV chunks pathid => ReadV_class chunks pathid
  | WriteV chunks options => WriteV_class chunks options
  | Clone fhandle items => Clone_class fhandle items
  | PgRead fhandle offset length reqflags pathid => PgRead_class fhandle offset length reqflags pathid
  | PgWrite fhandle offset data reqflags pathid => PgWrite_class fhandle offset data reqflags pathid
  | ChkPoint fhandle subcode data tail => ChkPoint_class fhandle subcode data tail
  | Fattr subcode body numattr options fhandle => Fattr_class subcode body numattr options fhandle
  | Sigver expectrid seqno signature crypto nodata => Sigver_class expectrid seqno signature crypto nodata
  end.

#[export] Instance Request_ops : RequestOps Request := {
  opcode r := rc_opcode (class_of r);
  signed r := rc_signed (class_of r);
  idempotent r := rc_idempotent (class_of r);
  pathid r := rc_pathid (class_of r);
  reply_on_path r := rc_reply_on_path (class_of r);
  params r := rc_params (class_of r);
  payload r := rc_payload (class_of r);
  path_data r := rc_path_data (class_of r);
  trailer r := rc_trailer (class_of r)
}.

(** ** Checkpointed execution and extended attributes *)

(** The requests a checkpoint will run. *)
Definition EXECUTABLE : list Z := [kXR_write; kXR_pgwrite; kXR_truncate].

(** [ChkPoint.execute]: the embedded request's header is the payload, its
    data the trailer, and its stream id is 0. *)
Definition ChkPoint_execute (fhandle : bytes) (inner : Request) : res Request :=
  if negb (bool_decide (opcode inner ∈ EXECUTABLE)) then Err ProtocolError
  else
    frame ← encode inner 0;
    Ok (ChkPoint fhandle kXR_ckpXeq (slice_to frame REQUEST_HDRLEN)
          (slice_from frame REQUEST_HDRLEN)).

Definition _path_name (path name : str) : res bytes :=
  w ← Writer.text path true Writer.make; w ← Writer.u16 0 w; Writer.text name true w.

Definition Fattr_get (path name : str) (fhandle : bytes) : res Request :=
  b ← _path_name path name; Ok (Fattr kXR_fattrGet b 1 0 fhandle).

Definition Fattr_delete (path name : str) (fhandle : bytes) : res Request :=
  b ← _path_name path name; Ok (Fattr kXR_fattrDel b 1 0 fhandle).

Definition Fattr_set (path name : str) (value : bytes) (create_only : bool) (fhandle : bytes)
    : res Request :=
  b ← _path_name path name; v ← Writer.u32 (zlen value) Writer.make; v ← Writer.raw value v;
  Ok (Fattr kXR_fattrSet (b ++ v) 1 (if create_only then kXR_fattrIsNew else 0) fhandle).

Definition Fattr_list (path : str) (values : bool) (fhandle : bytes) (recurse : bool)
    : res Request :=
  let options := Z.lor (if values then kXR_fattrAData else 0)
                       (if recurse then kXR_fattrRecurse else 0) in
  b ← Writer.text path true Writer.make; Ok (Fattr kXR_fattrList b 0 options fhandle).

(** ** Properties *)

(** No request has both data on a bound path and data after its frame. *)
Lemma path_data_or_trailer (r : Request) : path_data r = [] \/ trailer r = [].
Proof. destruct r; simpl; auto. Qed.
