(* ===== verification/RequestLayout.v ===== *)
(** * What a request looks like on the wire

    Properties of src/xrd/proto/requests.py through src/xrd/proto/frames.py:
    the size of the parameter block, when encoding raises, and the layout of
    the requests whose payload is itself a structure, as a peer that reads
    the protocol document would take it apart. *)

From S2P Require Import Prelude PyStr Constants Errors Buffer Frames Requests.
Open Scope Z_scope.

(** ** The parameter block *)

Lemma appends_then {A} n m f (c : Writer.t -> res A) (g : A -> Writer.t -> res Writer.t) :
  Writer.appends n f -> (forall a, Writer.appends m (g a)) ->
  Writer.appends (n + m) (fun w => w ← f w; a ← c w; g a w).
Proof.
  intros Hf Hg w w' H. inv_bind. apply Hf in Ha as (b & -> & <-).
  apply Hg in H as (d & -> & <-). exists (b ++ d). by rewrite app_assoc, length_app.
Qed.

(** Reduce a chain of writes to its parts. *)
Ltac appends_chain :=
  first [ solve [eauto with xrd]
        | eapply Writer.appends_bind; [solve [eauto with xrd] | appends_chain]
        | eapply appends_then; [solve [eauto with xrd] | intros; appends_chain] ].

Lemma appends_eq n m f : Writer.appends n f -> n = m -> Writer.appends m f.
Proof. by intros ? <-. Qed.

Lemma params_appends (r : Request) : Writer.appends 16 (params r).
Proof.
  destruct r; lazy beta iota delta [params Request_ops rc_params class_of control_class base_params
    Protocol_class Login_class Auth_class Ping_class EndSession_class Bind_class Stat_class
    Statx_class Dirlist_class Locate_class Query_class Prepare_class Mkdir_class Rm_class
    Rmdir_class Mv_class Symlink_class Link_class Readlink_class Setattr_class Chmod_class
    Truncate_class Set_class Open_class Close_class Read_class Write_class Sync_class
    ReadV_class WriteV_class Clone_class PgRead_class PgWrite_class ChkPoint_class Fattr_class
    Sigver_class];
    (eapply appends_eq; [appends_chain | reflexivity]).
Qed.

(** Every request class keeps the contract of [Request.params]: it
    raises, or it appends exactly the sixteen parameter bytes; so [encode]
    never refuses a request for the size of its parameter block. *)
Theorem params_sixteen (r : Request) w w' : params r w = Ok w' -> exists b, w' = w ++ b /\ zlen b = 16.
Proof.
  intros (b & -> & Hb)%(params_appends r). exists b. split; [done|]. unfold zlen. by rewrite Hb.
Qed.

Lemma params_sixteen_witness :
  exists b, params (Read (be_enc 4 7) 0 4096 0) [] = Ok b /\ zlen b = 16.
Proof.
  destruct (params (Read (be_enc 4 7) 0 4096 0) []) as [w|e] eqn:E; [|vm_compute in E; discriminate E].
  destruct (params_sixteen (Read (be_enc 4 7) 0 4096 0) [] w E) as (b & -> & Hb).
  exists b. split; [reflexivity | exact Hb].
Defined.

(** ** The frame *)

(** What a peer finds in an encoded request. The frame is the 24-byte
    header - the stream id modulo 2^16, the opcode, the parameter block, and
    a length that counts the payload and what travels on a data path - then
    the payload, then the data that length does not count; nothing else. *)
Theorem encode_split (r : Request) sid f :
  encode r sid = Ok f ->
  exists w body,
    params r Writer.make = Ok w /\ payload r = Ok body
    /\ split_frame f = {| wf_streamid := sid mod 65536; wf_opcode := opcode r; wf_params := w;
                          wf_dlen := zlen body + zlen (path_data r); wf_rest := body ++ trailer r |}
    /\ zlen f = 24 + zlen body + zlen (trailer r)
    /\ zlen body + zlen (path_data r) <= MAX_FRAME_PAYLOAD.
Proof.
  intros Hf. pose proof Hf as (w & body & Hw & Hb & Hs)%split_encode.
  exists w, body. pose proof Hf as (b1 & Hb1 & Hl)%encode_length.
  pose proof Hf as (w2 & b2 & _ & _ & Hb2 & _ & Hd & _)%encode_ok.
  assert (b1 = body) as -> by congruence. assert (b2 = body) as -> by congruence. done.
Qed.

Definition demo_writev : Request := WriteV [(be_enc 4 7, 0, b_ "abc"); (be_enc 4 7, 10, b_ "de")] 0.

Lemma encode_split_witness :
  exists f, encode demo_writev 65541 = Ok f /\ wf_streamid (split_frame f) = 5
    /\ zlen f = 24 + 32 + 5.
Proof.
  destruct (encode demo_writev 65541) as [f|e] eqn:E; [|vm_compute in E; discriminate E].
  destruct (encode_split demo_writev 65541 f E) as (w & body & _ & Hb & Hs & Hl & _).
  exists f. split; [reflexivity|]. rewrite Hs, Hl.
  vm_compute in Hb. injection Hb as <-. split; vm_compute; reflexivity.
Defined.

Lemma opcode_range (r : Request) : 0 <= opcode r < 65536.
Proof.
  destruct r; simpl; vm_compute; split; discriminate || reflexivity.
Qed.

(** Why [encode] raises. It raises what the class's own [params] or
    [payload] raised - a field out of range, text that has no encoding - or
    [ProtocolError] because the declared length is over the protocol's
    maximum; there is no other way. *)
Theorem encode_errors (r : Request) sid e :
  encode r sid = Err e ->
  params r Writer.make = Err e
  \/ payload r = Err e
  \/ (e = ProtocolError /\ exists body, payload r = Ok body
      /\ MAX_FRAME_PAYLOAD < zlen body + zlen (path_data r)).
Proof.
  unfold encode. destruct (params r Writer.make) as [w|e'] eqn:Ew; cbn [mbind result_bind];
    [|by intros [= <-]; left].
  apply params_appends in Ew as (b & -> & Hb). change (Writer.make ++ b) with b.
  destruct (Z.eqb_spec (zlen b) 16) as [_|Hne]; [|unfold zlen in Hne; lia]. cbn [negb].
  destruct (payload r) as [body|e'] eqn:Eb; cbn [mbind result_bind];
    [|by intros [= <-]; right; left].
  destruct (Z.ltb_spec MAX_FRAME_PAYLOAD (zlen body + zlen (path_data r))) as [Hm|Hm].
  { intros [= <-]. right; right. split; [done|]. by exists body. }
  pose proof (opcode_range r). unfold pack_hdr. rewrite land_FFFF.
  pose proof (Z.mod_pos_bound sid 65536 ltac:(lia)). pose proof (zlen_nonneg body).
  pose proof (zlen_nonneg (path_data r)). unfold MAX_FRAME_PAYLOAD in Hm.
  rewrite !pack_u_small; [done | change (256 ^ Z.of_nat 4) with (2 ^ 32); lia
                         | change (256 ^ Z.of_nat 2) with 65536; lia..].
Qed.

Lemma encode_errors_witness :
  encode (Read (be_enc 4 7) 0 (2 ^ 31) 0) 4 = Err StructError
  /\ params (Read (be_enc 4 7) 0 (2 ^ 31) 0) Writer.make = Err StructError.
Proof.
  split; [vm_compute; reflexivity|].
  destruct (encode_errors (Read (be_enc 4 7) 0 (2 ^ 31) 0) 4 StructError) as [H|[H|(H & _)]].
  - vm_compute; reflexivity.
  - exact H.
  - vm_compute in H. discriminate H.
  - discriminate H.
Defined.

(** ** Descriptor lists

    [kXR_readv] and [kXR_writev] carry 16-byte descriptors: a 4-byte file
    handle, a signed 32-bit length and a signed 64-bit offset. This is the
    other end's reading of them. *)

Definition descriptor (b : bytes) : bytes * Z * Z :=
  (take 4 b, unpack_i (take 8 (drop 8 b)), unpack_i (take 4 (drop 4 b))).

Fixpoint descriptors (n : nat) (b : bytes) : list (bytes * Z * Z) :=
  match n with
  | O => []
  | S n => descriptor (take 16 b) :: descriptors n (drop 16 b)
  end.

(** As many as the block holds. *)
Definition descriptor_list (b : bytes) : list (bytes * Z * Z) := descriptors (length b / 16) b.

(** Cut the data behind a write list where its descriptors say. *)
Fixpoint cut (lens : list Z) (b : bytes) : list bytes :=
  match lens with
  | [] => []
  | n :: lens => take (Z.to_nat n) b :: cut lens (drop (Z.to_nat n) b)
  end.

Lemma read_list_entry_ok fh off len w w' :
  length fh = 4%nat -> read_list_entry (fh, off, len) w = Ok w' ->
  exists b, w' = w ++ b /\ length b = 16%nat /\ descriptor b = (fh, off, len).
Proof.
  intros Hfh H. unfold read_list_entry, Writer.padded, Writer.i32, Writer.i64 in H.
  cbn [mbind result_bind] in H.
  destruct (pack_i 4 len) as [l|] eqn:El; [|done]. cbn [mbind result_bind] in H.
  destruct (pack_i 8 off) as [o|] eqn:Eo; [|done]. cbn [mbind result_bind] in H. injection H as <-.
  apply unpack_pack_i in El as [Hl <-]; [|lia]. apply unpack_pack_i in Eo as [Ho <-]; [|lia].
  exists (fh ++ l ++ o). rewrite Writer.ljust_exact by done.
  split; [by rewrite <- !app_assoc|]. split; [rewrite !length_app; lia|].
  unfold descriptor. rewrite take_app_length' by done.
  assert (drop 4 (fh ++ l ++ o) = l ++ o) as -> by (by apply drop_app_length').
  rewrite (take_app_length' l) by done.
  assert (drop 8 (fh ++ l ++ o) = o) as ->
    by (rewrite app_assoc; apply drop_app_length'; rewrite length_app; lia).
  by rewrite take_ge by lia.
Qed.

Lemma write_all_descriptors {A} (f : A -> Writer.t -> res Writer.t) (d : A -> bytes * Z * Z) l w w' :
  (forall a w w', a ∈ l -> f a w = Ok w' ->
     exists b, w' = w ++ b /\ length b = 16%nat /\ descriptor b = d a) ->
  write_all f l w = Ok w' ->
  exists b, w' = w ++ b /\ length b = (16 * length l)%nat /\ descriptors (length l) b = map d l.
Proof.
  revert w. induction l as [|a l IH]; intros w Hf H; simpl in H.
  - injection H as <-. exists []. by rewrite app_nil_r.
  - inv_bind. apply Hf in Ha as (b & -> & Hb & Hd); [|left].
    apply IH in H as (b' & -> & Hb' & Hd'); [|intros; apply Hf; [by right|done]].
    exists (b ++ b'). split; [by rewrite app_assoc|]. split; [rewrite length_app; simpl; lia|].
    cbn [descriptors length map]. rewrite take_app_length', drop_app_length' by done. by rewrite Hd, Hd'.
Qed.

Lemma descriptors_of_block n b l :
  length b = (16 * n)%nat -> descriptors n b = l -> descriptor_list b = l.
Proof. intros Hb <-. unfold descriptor_list. by rewrite Hb, Nat.mul_comm, Nat.div_mul by done. Qed.

Lemma cut_concat ds : cut (map zlen ds) (concat ds) = ds.
Proof.
  induction ds as [|d ds IH]; [done|]. cbn [map concat cut]. unfold zlen at 1 3. rewrite !Nat2Z.id.
  by rewrite take_app_length, drop_app_length, IH.
Qed.

(** A vectored read asks for what it was given: for 4-byte handles, a
    peer that reads the payload as 16-byte descriptors finds exactly the
    (handle, offset, length) triples, in order, and nothing more. *)
Theorem readv_layout chunks pathid b :
  Forall (fun c => length c.1.1 = 4%nat) chunks ->
  payload (ReadV chunks pathid) = Ok b ->
  zlen b = 16 * zlen chunks /\ descriptor_list b = chunks.
Proof.
  intros Hh H. rewrite Forall_forall in Hh.
  change (write_all read_list_entry chunks [] = Ok b) in H.
  apply (write_all_descriptors _ id) in H as (b' & -> & Hl & Hd).
  - rewrite map_id in Hd. split; [unfold zlen, bytes in *; cbn [app]; lia|]. by apply (descriptors_of_block (length chunks)).
  - intros [[fh off] len] w w' Hin Hw. apply (read_list_entry_ok _ _ _ w w'); [by apply (Hh _ Hin) | done].
Qed.

Lemma readv_layout_witness :
  exists b, payload (ReadV [(be_enc 4 7, 2 ^ 40, 100); (be_enc 4 9, 0, 1)] 0) = Ok b
    /\ descriptor_list b = [(be_enc 4 7, 2 ^ 40, 100); (be_enc 4 9, 0, 1)].
Proof.
  destruct (payload (ReadV [(be_enc 4 7, 2 ^ 40, 100); (be_enc 4 9, 0, 1)] 0)) as [b|e] eqn:E;
    [|vm_compute in E; discriminate E].
  exists b. split; [reflexivity|].
  apply (readv_layout [(be_enc 4 7, 2 ^ 40, 100); (be_enc 4 9, 0, 1)] 0 b); [|exact E].
  repeat constructor.
Defined.

(** A vectored write arrives as it was given: the descriptors of its
    payload, and the data that follows the frame uncounted, cut at the
    lengths the descriptors declare, are the chunks, in order. *)
Theorem writev_layout chunks options b :
  Forall (fun c => length c.1.1 = 4%nat) chunks ->
  payload (WriteV chunks options) = Ok b ->
  let ds := descriptor_list b in
  ds = map (fun c => (c.1.1, c.1.2, zlen c.2)) chunks
  /\ cut (map snd ds) (trailer (WriteV chunks options)) = map snd chunks.
Proof.
  intros Hh H. rewrite Forall_forall in Hh. cbv zeta.
  change (write_all write_list_entry chunks [] = Ok b) in H.
  change (trailer (WriteV chunks options)) with (concat (map snd chunks)).
  apply (write_all_descriptors _ (fun c => (c.1.1, c.1.2, zlen c.2))) in H as (b' & -> & Hl & Hd).
  - assert (descriptor_list ([] ++ b') = map (fun c => (c.1.1, c.1.2, zlen c.2)) chunks) as ->
      by (by apply (descriptors_of_block (length chunks))).
    split; [done|]. rewrite map_map. cbn [snd]. rewrite <- (map_map snd zlen). apply cut_concat.
  - intros [[fh off] d] w w' Hin Hw. apply (read_list_entry_ok fh off (zlen d) w w'); [by apply (Hh _ Hin)|].
    exact Hw.
Qed.

Lemma writev_layout_witness :
  exists b, payload demo_writev = Ok b
    /\ cut (map snd (descriptor_list b)) (trailer demo_writev) = [b_ "abc"; b_ "de"].
Proof.
  destruct (payload demo_writev) as [b|e] eqn:E; [|vm_compute in E; discriminate E].
  exists b. split; [reflexivity|].
  destruct (writev_layout [(be_enc 4 7, 0, b_ "abc"); (be_enc 4 7, 10, b_ "de")] 0 b) as [_ H];
    [repeat constructor | exact E | exact H].
Defined.

(** ** Checkpointed execution *)

(** [ChkPoint.execute] wraps a request without changing it: only a
    write, a page write or a truncate is accepted, the payload is exactly its
    24-byte header on stream 0, the trailer is the rest of its frame, and for
    a request with nothing on a data path that rest is what the embedded
    header declares. *)
Theorem execute_embeds fhandle inner outer :
  ChkPoint_execute fhandle inner = Ok outer ->
  (opcode inner = kXR_write \/ opcode inner = kXR_pgwrite \/ opcode inner = kXR_truncate)
  /\ exists hdr, payload outer = Ok hdr /\ zlen hdr = 24
     /\ encode inner 0 = Ok (hdr ++ trailer outer)
     /\ (path_data inner = [] -> trailer inner = [] ->
         wf_dlen (split_frame (hdr ++ trailer outer)) = zlen (trailer outer)).
Proof.
  unfold ChkPoint_execute. destruct (bool_decide (opcode inner ∈ EXECUTABLE)) eqn:Ex; [|done].
  apply bool_decide_eq_true in Ex. cbn [negb].
  destruct (encode inner 0) as [f|] eqn:Ef; [|done]. cbn [mbind result_bind]. intros [= <-]. split.
  { unfold EXECUTABLE in Ex. rewrite !elem_of_cons, elem_of_nil in Ex. tauto. }
  pose proof Ef as (b & Hb & Hl)%encode_length. pose proof (zlen_nonneg b).
  pose proof (zlen_nonneg (trailer inner)).
  exists (slice_to f REQUEST_HDRLEN). split; [done|].
  change (trailer (ChkPoint fhandle kXR_ckpXeq (slice_to f REQUEST_HDRLEN) (slice_from f REQUEST_HDRLEN)))
    with (slice_from f REQUEST_HDRLEN).
  change (slice_to f REQUEST_HDRLEN) with (take 24 f). change (slice_from f REQUEST_HDRLEN) with (drop 24 f).
  rewrite take_drop. split_and!; [unfold zlen in *; rewrite length_take; lia | done|].
  intros Hp Ht. pose proof Ef as (w & b' & _ & Hb' & Hs)%split_encode.
  assert (b' = b) as -> by congruence. rewrite Hs. cbn [wf_dlen]. rewrite Hp.
  assert (drop 24 f = b ++ trailer inner) as -> by (by injection Hs).
  rewrite Ht, app_nil_r, zlen_nil. lia.
Qed.

Lemma execute_embeds_witness :
  exists outer hdr, ChkPoint_execute (be_enc 4 7) (Write (be_enc 4 7) 0 (b_ "abc") 0) = Ok outer
    /\ payload outer = Ok hdr /\ zlen hdr = 24 /\ trailer outer = b_ "abc".
Proof.
  destruct (ChkPoint_execute (be_enc 4 7) (Write (be_enc 4 7) 0 (b_ "abc") 0)) as [outer|e] eqn:E;
    [|vm_compute in E; discriminate E].
  destruct (execute_embeds _ _ _ E) as (_ & hdr & Hp & Hl & _).
  exists outer, hdr. split; [reflexivity|]. split; [exact Hp|]. split; [exact Hl|].
  vm_compute in E. injection E as <-. vm_compute. reflexivity.
Defined.
