(* ===== verification/Responses.v ===== *)
(** * Responses

    src/xrd/proto/responses.py, with the records of src/xrd/types.py it
    fills in: one decoder per response body. Every decoder is total on the
    bytes a server can send: it returns the decoded record or raises.

    [str.lower] on text outside ASCII needs the Unicode case tables, so it is
    a parameter of the decoders that use it. *)

From S2P Require Import Prelude PyStr Constants Errors Buffer.

(** [data.split(b"\x00", 1)[0].decode("utf-8", "replace")]. *)
Definition nul_text (data : bytes) : str := utf8_decode (until x00 data).

(** ** Control statuses *)

Record ErrorInfo := { ei_code : Z; ei_message : str }.

Definition parse_error (data : bytes) : res ErrorInfo :=
  '(code, r) ← Reader.i32 (Reader.make data);
  Ok {| ei_code := code; ei_message := (Reader.cstring r).1 |}.

Record RedirectInfo := { ri_host : str; ri_port : Z; ri_token : str }.

Definition parse_redirect (data : bytes) : res RedirectInfo :=
  '(port, r) ← Reader.i32 (Reader.make data);
  '(tail, _) ← Reader.rest r;
  let target := nul_text tail in
  let '(host, sep, token) := partition 0x3F target in
  match host with
  | [] => Err ProtocolError
  | _ => Ok {| ri_host := host; ri_port := port; ri_token := if sep then token else [] |}
  end.

Record WaitInfo := { wi_seconds : Z; wi_message : str }.

Definition parse_wait (data : bytes) : res WaitInfo :=
  '(seconds, r) ← Reader.i32 (Reader.make data);
  Ok {| wi_seconds := seconds; wi_message := (Reader.cstring r).1 |}.

Definition parse_waitresp (data : bytes) : res WaitInfo :=
  '(seconds, _) ← Reader.i32 (Reader.make data);
  Ok {| wi_seconds := seconds; wi_message := [] |}.

Record AttnInfo := { ai_action : Z; ai_params : bytes }.

Definition parse_attn (data : bytes) : res AttnInfo :=
  '(action, r) ← Reader.i32 (Reader.make data);
  '(ps, _) ← Reader.rest r;
  Ok {| ai_action := action; ai_params := ps |}.

Record StatusInfo := {
  si_crc32c : Z; si_streamid : Z; si_requestid : Z; si_resptype : Z; si_dlen : Z; si_info : bytes
}.

Definition is_final (s : StatusInfo) : bool := si_resptype s =? kXR_FinalResult.

(** [StatusInfo.offset]. *)
Definition status_offset (s : StatusInfo) : res Z :=
  if zlen (si_info s) <? 8 then Err ProtocolError
  else '(o, _) ← Reader.i64 (Reader.make (si_info s)); Ok o.

Definition parse_status (data : bytes) : res StatusInfo :=
  '(crc, r) ← Reader.u32 (Reader.make data);
  '(streamid, r) ← Reader.u16 r;
  '(requestid, r) ← Reader.u8 r;
  '(resptype, r) ← Reader.u8 r;
  r ← Reader.skip 4 r;
  '(dlen, r) ← Reader.i32 r;
  '(info, _) ← Reader.rest r;
  Ok {| si_crc32c := crc; si_streamid := streamid; si_requestid := requestid + kXR_1stRequest;
        si_resptype := resptype; si_dlen := dlen; si_info := info |}.

(** ** Session bring-up *)

Record ProtocolInfo := {
  pi_version : Z; pi_flags : Z; pi_security_level : Z; pi_security_version : Z;
  pi_security_options : Z; pi_security_overrides : dict Z Z
}.

(** [ProtocolInfo()]. *)
Definition ProtocolInfo_default : ProtocolInfo :=
  {| pi_version := 0; pi_flags := 0; pi_security_level := 0; pi_security_version := 0;
     pi_security_options := 0; pi_security_overrides := [] |}.

(** [data[i]] for an index known to be in range. *)
Definition byte_at (l : bytes) (i : Z) : Z := b2z (default x00 (l !! Z.to_nat i)).

Definition tag_S : byte := z2b 0x53.

(** The security requirements record, in either of its two places. *)
Definition _find_sec_reqs (trailer : bytes) : option bytes :=
  if (6 <=? zlen trailer) && bool_decide (slice trailer 0 1 = [tag_S]) then Some trailer
  else if 4 <=? zlen trailer then
    let off := 4 + byte_at trailer 2 * 8 in
    if (off + 6 <=? zlen trailer) && bool_decide (slice trailer off (off + 1) = [tag_S])
    then Some (slice_from trailer off)
    else None
  else None.

(** The override loop: at most [n] pairs, stopping at a short one. *)
Fixpoint sec_overrides (n : nat) (reqs : bytes) (pos : Z) (acc : dict Z Z) : dict Z Z :=
  match n with
  | O => acc
  | S n =>
      if zlen reqs <? pos + 2 then acc
      else sec_overrides n reqs (pos + 2)
             (dict_set (byte_at reqs pos + kXR_1stRequest) (byte_at reqs (pos + 1)) acc)
  end.

Definition parse_protocol (data : bytes) : res ProtocolInfo :=
  '(version, r) ← Reader.i32 (Reader.make data);
  '(flags, r) ← Reader.u32 r;
  '(tail, _) ← Reader.rest r;
  match _find_sec_reqs tail with
  | None =>
      Ok {| pi_version := version; pi_flags := flags; pi_security_level := kXR_secNone;
            pi_security_version := 0; pi_security_options := 0; pi_security_overrides := [] |}
  | Some reqs =>
      Ok {| pi_version := version; pi_flags := flags;
            pi_security_level := byte_at reqs 4;
            pi_security_version := byte_at reqs 2;
            pi_security_options := byte_at reqs 3;
            pi_security_overrides := sec_overrides (Z.to_nat (byte_at reqs 5)) reqs 6 [] |}
  end.

Record LoginInfo := { li_sessid : bytes; li_sec : str }.

(** The protocol names offered, most preferred first. *)
Definition mechanisms (l : LoginInfo) : list str :=
  map (fun part => until 0x2C (drop 2 part))
      (filter (fun part => startswith (s_ "P=") part = true) (split_all 0x26 (li_sec l))).

Definition parse_login (data : bytes) : res LoginInfo :=
  let r := Reader.make data in
  '(sessid, r) ← Reader.read (Z.min SESSION_ID_LEN (Reader.remaining r)) r;
  '(tail, _) ← Reader.rest r;
  Ok {| li_sessid := sessid; li_sec := nul_text tail |}.

Definition parse_bind (data : bytes) : res Z :=
  '(pathid, _) ← Reader.u8 (Reader.make data);
  if pathid =? 0 then Err ProtocolError else Ok pathid.

(** ** Metadata *)

(** [StatInfoFlags(v)]: the value kept as it is; a negative one is made
    non-negative by the enumeration's [KEEP] boundary. *)
Definition StatInfoFlags (v : Z) : Z :=
  if 0 <=? v then v
  else if -256 <=? v then v + 256
  else Z.max 256 (2 ^ (Z.log2 (- v) + 1)) + v.

Record StatInfo := {
  st_id : str; st_size : Z; st_flags : Z; st_mtime : Z; st_ctime : Z; st_atime : Z; st_path : str
}.

(** [int(s)] where a [ValueError] is not caught. *)
Definition int_exn (s : str) : res Z :=
  match py_int s with Some v => Ok v | None => Err ValueError end.

Definition _stat_fields (text path : str) : res StatInfo :=
  match words text with
  | id :: size :: flags :: mtime :: _ =>
      m ← int_exn mtime; sz ← int_exn size; fl ← int_exn flags;
      Ok {| st_id := id; st_size := sz; st_flags := StatInfoFlags fl;
            st_mtime := m; st_ctime := m; st_atime := m; st_path := path |}
  | _ => Err ProtocolError
  end.

Definition parse_stat (data : bytes) (path : str) : res StatInfo :=
  _stat_fields (nul_text data) path.

Record VFSInfo := {
  nodes_rw : Z; free_rw : Z; utilization_rw : Z;
  nodes_staging : Z; free_staging : Z; utilization_staging : Z
}.

Definition parse_statvfs (data : bytes) : res VFSInfo :=
  match words (nul_text data) with
  | p0 :: p1 :: p2 :: p3 :: p4 :: p5 :: _ =>
      a ← int_exn p0; b ← int_exn p1; c ← int_exn p2;
      d ← int_exn p3; e ← int_exn p4; f ← int_exn p5;
      Ok {| nodes_rw := a; free_rw := b; utilization_rw := c;
            nodes_staging := d; free_staging := e; utilization_staging := f |}
  | _ => Err ProtocolError
  end.

Definition parse_statx (data : bytes) : list Z := map (fun b => StatInfoFlags (b2z b)) data.

(** A listing entry must be a single path component. *)
Definition _checked (name : str) : res str :=
  if contains 0x2F name || bool_decide (name = s_ "..") then Err ProtocolError else Ok name.

Record ChecksumInfo := { ck_algorithm : str; ck_value : str }.

Record DirEntry := {
  de_name : str; de_parent : str; de_stat : option StatInfo; de_checksum : option ChecksumInfo
}.

(** [zip(lines[::2], lines[1::2])]. *)
Fixpoint pairs {A} (l : list A) : list (A * A) :=
  match l with
  | a :: b :: l => (a, b) :: pairs l
  | _ => []
  end.

Section Lower.
(** Python's [str.lower]. *)
Variable lower : str -> str.

Definition _cksum_token (line : str) : str * option ChecksumInfo :=
  let '(head, bracket, rest) := rpartition 0x5B line in
  let rest' := rstrip_by is_space rest in
  if negb bracket || negb (endswith [0x5D] rest') then (line, None)
  else
    let '(algorithm, colon, value) :=
      partition 0x3A (strip (rstrip_by (fun c => c =? 0x5D) rest')) in
    if negb colon || bool_decide (algorithm = []) then (line, None)
    else
      (head, if bool_decide (value = []) || bool_decide (value = s_ "none") then None
             else Some {| ck_algorithm := lower algorithm; ck_value := value |}).

(** The path a listing entry's stat is filed under. *)
Definition entry_path (path name : str) : str :=
  match path with
  | [] => name
  | _ => rstrip_by (fun c => c =? 0x2F) path ++ 0x2F :: name
  end.

Fixpoint stat_entries (path : str) (l : list (str * str)) : res (list DirEntry) :=
  match l with
  | [] => Ok []
  | (name, statline) :: l =>
      if bool_decide (name = s_ ".") then stat_entries path l
      else
        _ ← _checked name;
        let '(statline, checksum) := _cksum_token statline in
        st ← _stat_fields statline (entry_path path name);
        es ← stat_entries path l;
        Ok ({| de_name := name; de_parent := path; de_stat := Some st;
               de_checksum := checksum |} :: es)
  end.

Definition parse_dirlist (data : bytes) (path : str) (with_stat : bool) : res (list DirEntry) :=
  let lines := filter (fun ln => ln <> []) (split_all 10 (nul_text data)) in
  if negb with_stat || negb (bool_decide (take 1 lines = [s_ "."])) then
    mapM_res (fun n => nm ← _checked n;
                       Ok {| de_name := nm; de_parent := path; de_stat := None;
                             de_checksum := None |}) lines
  else stat_entries path (pairs lines).

Definition parse_checksum (data : bytes) : res ChecksumInfo :=
  let text := strip (nul_text data) in
  let '(name, _, value) := partition 32 text in
  match value with
  | [] => Err ProtocolError
  | _ => Ok {| ck_algorithm := lower name; ck_value := lower (strip value) |}
  end.
End Lower.

Record LocationInfo := { loc_address : str; loc_type : Z; loc_access : Z }.

Definition parse_locate (data : bytes) : list LocationInfo :=
  omap (fun token =>
          match token with
          | t :: a :: addr =>
              if zlen token <? 3 then None
              else Some {| loc_address := addr; loc_type := t; loc_access := a |}
          | _ => None
          end) (words (nul_text data)).

Definition parse_open (data : bytes) (path : str) : res (bytes * option StatInfo * (Z * str)) :=
  '(fhandle, r) ← Reader.read FHANDLE_LEN (Reader.make data);
  if Reader.remaining r <? 8 then Ok (fhandle, None, (0, []))
  else
    '(page, r) ← Reader.i32 r;
    '(alg, r) ← Reader.read 4 r;
    '(rest, _) ← Reader.rest r;
    let tail := strip (nul_text rest) in
    match tail with
    | [] => Ok (fhandle, None, (page, nul_text alg))
    | _ => st ← _stat_fields tail path; Ok (fhandle, Some st, (page, nul_text alg))
    end.

Record SpaceInfo := {
  sp_name : str; sp_total : Z; sp_free : Z; sp_largest_free : Z; sp_used : Z; sp_quota : Z
}.

(** [oss.*] fields: a later pair with the same key wins. *)
Definition space_fields (text : str) : dict str str :=
  foldl (fun d pair =>
           match partition 0x3D pair with
           | (key, true, value) => dict_set (strip key) (strip value) d
           | _ => d
           end) []
        (split_all 0x26 (map (fun c => if c =? 10 then 0x26 else c) text)).

Definition space_number (fields : dict str str) (key : str) (dflt : Z) : res Z :=
  match dict_get key fields with
  | None | Some [] => Ok dflt
  | Some raw => match py_int raw with Some v => Ok v | None => Err ProtocolError end
  end.

Definition parse_space (data : bytes) : res SpaceInfo :=
  let fields := space_fields (strip (nul_text data)) in
  total ← space_number fields (s_ "oss.space") 0;
  free ← space_number fields (s_ "oss.free") 0;
  largest ← space_number fields (s_ "oss.maxf") 0;
  used ← space_number fields (s_ "oss.used") 0;
  quota ← space_number fields (s_ "oss.quota") (-1);
  Ok {| sp_name := default [] (dict_get (s_ "oss.cgroup") fields); sp_total := total;
        sp_free := free; sp_largest_free := largest; sp_used := used; sp_quota := quota |}.

Record CheckpointInfo := { cp_capacity : Z; cp_used : Z }.

Definition parse_checkpoint (data : bytes) : res CheckpointInfo :=
  '(capacity, r) ← Reader.u32 (Reader.make data);
  '(used, _) ← Reader.u32 r;
  Ok {| cp_capacity := capacity; cp_used := used |}.

Definition parse_readlink (data : bytes) : res str :=
  match strip (nul_text data) with
  | [] => Err ProtocolError
  | target => Ok target
  end.

(** ** Vector reads *)

Record ReadVSegment := { rv_fhandle : bytes; rv_offset : Z; rv_data : bytes }.

(** One segment off the front of the reader. *)
Definition readv_segment (r : Reader.t) : res (ReadVSegment * Reader.t) :=
  '(fhandle, r) ← Reader.read FHANDLE_LEN r;
  '(length, r) ← Reader.i32 r;
  '(offset, r) ← Reader.i64 r;
  if length <? 0 then Err ProtocolError
  else
    '(data, r) ← Reader.read length r;
    Ok ({| rv_fhandle := fhandle; rv_offset := offset; rv_data := data |}, r).

(** [while r.remaining]: a segment takes at least sixteen bytes, so the fuel
    [parse_readv] gives (the length of the body) is never used up. *)
Fixpoint readv_loop (fuel : nat) (r : Reader.t) : res (list ReadVSegment) :=
  match fuel with
  | O => Ok []
  | S fuel =>
      if Reader.remaining r =? 0 then Ok []
      else '(seg, r) ← readv_segment r; segs ← readv_loop fuel r; Ok (seg :: segs)
  end.

Definition parse_readv (data : bytes) : res (list ReadVSegment) :=
  readv_loop (S (length data)) (Reader.make data).

(** ** Extended attributes *)

Record FattrItem := { fi_name : str; fi_code : Z; fi_value : option bytes }.
Record FattrResult := { fr_errors : Z; fr_items : list FattrItem }.

(** [_read_name]: byte by byte to the NUL, raising at the end of the body. *)
Fixpoint read_name_loop (fuel : nat) (r : Reader.t) (raw : bytes) : res (str * Reader.t) :=
  match fuel with
  | O => Err ProtocolError
  | S fuel =>
      '(b, r) ← Reader.u8 r;
      if b =? 0 then Ok (utf8_decode raw, r) else read_name_loop fuel r (raw ++ [z2b b])
  end.
Definition _read_name (r : Reader.t) : res (str * Reader.t) :=
  read_name_loop (S (Z.to_nat (Reader.remaining r))) r [].

Definition fattr_item (values : bool) (r : Reader.t) : res (FattrItem * Reader.t) :=
  '(code, r) ← Reader.u16 r;
  '(name, r) ← _read_name r;
  if values && (4 <=? Reader.remaining r) then
    '(n, r) ← Reader.i32 r; '(v, r) ← Reader.read n r;
    Ok ({| fi_name := name; fi_code := code; fi_value := Some v |}, r)
  else Ok ({| fi_name := name; fi_code := code; fi_value := None |}, r).

Fixpoint fattr_items (count : nat) (values : bool) (r : Reader.t) : res (list FattrItem) :=
  match count with
  | O => Ok []
  | S count =>
      if Reader.remaining r <? 3 then Ok []
      else '(i, r) ← fattr_item values r; is_ ← fattr_items count values r; Ok (i :: is_)
  end.

Definition parse_fattr (data : bytes) (values : bool) : res FattrResult :=
  if zlen data <? 2 then Ok {| fr_errors := 0; fr_items := [] |}
  else
    '(errors, r) ← Reader.u8 (Reader.make data);
    '(count, r) ← Reader.u8 r;
    items ← fattr_items (Z.to_nat count) values r;
    Ok {| fr_errors := errors; fr_items := items |}.

(** [tree.setdefault(path, []).append(name)]. *)
Definition tree_add (path name : str) (d : dict str (list str)) : dict str (list str) :=
  dict_set path (default [] (dict_get path d) ++ [name]) d.

Definition parse_fattr_tree (data : bytes) : dict str (list str) :=
  foldl (fun d entry =>
           match entry with
           | [] => d
           | _ => match rpartition 0x3A (utf8_decode entry) with
                  | (path, true, name) => tree_add path name d
                  | _ => d
                  end
           end) [] (split_all x00 data).
