(* ===== verification/ResponseProps.v ===== *)
(** * What the response parsers promise

    Properties of src/xrd/proto/responses.py: the vectored-read reply is
    parsed exactly, and what a listing may name. *)

From S2P Require Import Prelude PyStr Constants Errors Buffer Responses.
Open Scope Z_scope.

(** ** Vectored reads *)

(** A segment as the server writes it. *)
Definition segment_bytes (s : ReadVSegment) : bytes :=
  rv_fhandle s ++ be_enc 4 (zlen (rv_data s)) ++ be_enc 8 (rv_offset s) ++ rv_data s.

Definition segment_ok (s : ReadVSegment) : Prop :=
  zlen (rv_fhandle s) = 4 /\ zlen (rv_data s) < 2 ^ 31 /\ - 2 ^ 63 <= rv_offset s < 2 ^ 63.

Definition readv_body (segs : list ReadVSegment) : bytes := concat (map segment_bytes segs).

Lemma take_bind {A} n r (k : bytes * Reader.t -> res A) a :
  Reader.wf r -> (Reader._take n r ≫= k) = Ok a ->
  exists l r', k (l, r') = Ok a /\ Reader.wf r' /\ Reader.left_ r = l ++ Reader.left_ r' /\ zlen l = n.
Proof.
  intros Hw H. destruct (Reader._take n r) as [[l r']|] eqn:E; [|done].
  apply Reader.take_ok in E as (Hw' & Hl & Hn & _); [|done]. by exists l, r'.
Qed.

Lemma readv_segment_ok r seg r' :
  Reader.wf r -> readv_segment r = Ok (seg, r') ->
  Reader.wf r' /\ Reader.left_ r = segment_bytes seg ++ Reader.left_ r' /\ segment_ok seg.
Proof.
  intros Hw H. unfold readv_segment, Reader.read, Reader.i32, Reader.i64 in H.
  apply take_bind in H as (fh & r1 & H & Hw1 & Hl1 & Hfh); [|done]. cbn beta iota in H.
  destruct (Reader._take 4 r1) as [[c4 r2]|] eqn:E2; [|done]. cbn [mbind result_bind] in H.
  apply Reader.take_ok in E2 as (Hw2 & Hl2 & Hc4 & _); [|done].
  destruct (Reader._take 8 r2) as [[c8 r3]|] eqn:E3; [|done]. cbn [mbind result_bind] in H.
  apply Reader.take_ok in E3 as (Hw3 & Hl3 & Hc8 & _); [|done].
  case_hyp; [done|]. zbool.
  apply take_bind in H as (d & r4 & H & Hw4 & Hl4 & Hd); [|done]. injection H as <- <-.
  split; [done|]. unfold segment_bytes, segment_ok. cbn [rv_fhandle rv_offset rv_data].
  assert (length c4 = 4%nat /\ length c8 = 8%nat) as [H4 H8] by (unfold zlen in *; lia).
  split.
  - assert (be_enc 4 (unpack_i c4) = c4) as E4 by (rewrite <- H4 at 1; apply be_enc_unpack_i).
    assert (be_enc 8 (unpack_i c8) = c8) as E8 by (rewrite <- H8 at 1; apply be_enc_unpack_i).
    rewrite Hl1, Hl2, Hl3, Hl4, Hd, E4, E8. by rewrite <- !app_assoc.
  - pose proof (unpack_i_range c4 ltac:(by intros ->)). pose proof (unpack_i_range c8 ltac:(by intros ->)).
    rewrite Hc4, Hc8 in *. split; [exact Hfh|]. rewrite Hd. simpl in *. lia.
Qed.

Lemma readv_segment_written r seg k :
  Reader.wf r -> Reader.left_ r = segment_bytes seg ++ k -> segment_ok seg ->
  exists r', readv_segment r = Ok (seg, r') /\ Reader.wf r' /\ Reader.left_ r' = k.
Proof.
  intros Hw Hl (Hfh & Hd & Ho). unfold segment_bytes in Hl. rewrite <- !app_assoc in Hl.
  pose proof (zlen_nonneg (rv_data seg)) as Hdp.
  destruct (Reader.take_app _ _ r Hw Hl) as (r1 & E1 & Hw1 & Hl1).
  destruct (Reader.take_app _ _ r1 Hw1 Hl1) as (r2 & E2 & Hw2 & Hl2).
  destruct (Reader.take_app _ _ r2 Hw2 Hl2) as (r3 & E3 & Hw3 & Hl3).
  destruct (Reader.take_app _ _ r3 Hw3 Hl3) as (r4 & E4 & Hw4 & Hl4).
  exists r4. split; [|done]. unfold readv_segment, Reader.read, Reader.i32, Reader.i64.
  rewrite be_enc_zlen in E2, E3. rewrite Hfh in E1.
  change FHANDLE_LEN with 4. rewrite E1. cbn [mbind result_bind].
  change (Z.of_nat 4) with 4 in E2. rewrite E2. cbn [mbind result_bind].
  rewrite unpack_i_enc by (simpl; lia).
  change (Z.of_nat 8) with 8 in E3. rewrite E3. cbn [mbind result_bind].
  rewrite unpack_i_enc by (simpl; lia).
  destruct (Z.ltb_spec (zlen (rv_data seg)) 0); [lia|]. rewrite E4. cbn [mbind result_bind].
  by destruct seg.
Qed.

Lemma segment_bytes_length seg : segment_ok seg -> (16 <= length (segment_bytes seg))%nat.
Proof.
  intros (Hf & _). unfold segment_bytes. rewrite !length_app, !be_enc_length. unfold zlen in Hf. lia.
Qed.

Lemma readv_loop_spec fuel r segs :
  Reader.wf r -> (length (Reader.left_ r) < fuel)%nat ->
  readv_loop fuel r = Ok segs <-> Reader.left_ r = readv_body segs /\ Forall segment_ok segs.
Proof.
  revert r segs. induction fuel as [|fuel IH]; intros r segs Hw Hf; [lia|]. cbn [readv_loop].
  rewrite Reader.remaining_left by done.
  destruct (Z.eqb_spec (zlen (Reader.left_ r)) 0) as [Hz|Hz].
  - destruct (Reader.left_ r) as [|x l] eqn:El; [|rewrite zlen_cons in Hz; pose proof (zlen_nonneg l); lia].
    split; [by intros [= <-]|]. intros [Hb Ha]. destruct segs as [|s segs]; [done|].
    apply Forall_cons in Ha as [Hs _]. apply segment_bytes_length in Hs.
    unfold readv_body in Hb. cbn [map concat] in Hb. apply (f_equal length) in Hb.
    rewrite length_app in Hb. simpl in Hb. lia.
  - split.
    + intros H. destruct (readv_segment r) as [[seg r']|] eqn:Es; [|done]. cbn [mbind result_bind] in H.
      apply readv_segment_ok in Es as (Hw' & Hl & Hok); [|done].
      destruct (readv_loop fuel r') as [segs'|] eqn:El; [|done]. cbn [mbind result_bind] in H.
      injection H as <-. apply segment_bytes_length in Hok as Hlen.
      apply IH in El as [Hb Ha]; [|done|rewrite Hl, length_app in Hf; lia].
      rewrite Hl, Hb. split; [done|]. by constructor.
    + intros [Hb Ha]. destruct segs as [|seg segs].
      { unfold readv_body in Hb. simpl in Hb. rewrite Hb in Hz. done. }
      apply Forall_cons in Ha as [Hok Ha]. unfold readv_body in Hb. cbn [map concat] in Hb.
      destruct (readv_segment_written r seg _ Hw Hb Hok) as (r' & -> & Hw' & Hl').
      cbn [mbind result_bind]. apply segment_bytes_length in Hok.
      assert (readv_loop fuel r' = Ok segs) as ->.
      { apply IH; [done | | by split]. rewrite Hl'. rewrite Hb, length_app in Hf. lia. }
      done.
Qed.

(** A vectored-read reply is parsed exactly. [parse_readv] returns a list
    of segments if and only if the body is precisely their concatenation -
    handle, signed 32-bit length, signed 64-bit offset, that many bytes of
    data - with nothing missing, nothing left over and no negative length; it
    raises on every other body. *)
Theorem parse_readv_exact data segs :
  parse_readv data = Ok segs <-> data = readv_body segs /\ Forall segment_ok segs.
Proof.
  unfold parse_readv. rewrite readv_loop_spec; [by rewrite Reader.left_make|apply Reader.make_wf|].
  rewrite Reader.left_make. lia.
Qed.

(** ** Listings *)

Definition SLASH : Z := 0x2F.

Lemma checked_ok name n : _checked name = Ok n -> n = name /\ contains SLASH name = false /\ name <> s_ "..".
Proof.
  unfold _checked. case_goal; [done|]. intros [= <-]. apply orb_false_iff in E as [E1 E2].
  apply bool_decide_eq_false in E2. done.
Qed.

(** No entry of a listing escapes its directory. *)
Definition confined (e : DirEntry) : Prop :=
  contains SLASH (de_name e) = false /\ de_name e <> s_ "..".

Lemma stat_entries_confined lower path l es :
  stat_entries lower path l = Ok es -> Forall (fun e => confined e /\ de_parent e = path) es.
Proof.
  revert es. induction l as [|[name line] l IH]; intros es H; simpl in H; [by injection H as <-|].
  case_hyp; [by apply IH|]. destruct (_checked name) as [n|] eqn:Ec; [|done]. cbn [mbind result_bind] in H.
  destruct (_cksum_token lower line) as [st ck]. inv_bind. constructor; [|by apply IH].
  apply checked_ok in Ec as (_ & ? & ?). done.
Qed.

Lemma plain_entries_confined path l es :
  mapM_res (fun n => nm ← _checked n; Ok {| de_name := nm; de_parent := path; de_stat := None;
                                            de_checksum := None |}) l = Ok es ->
  Forall (fun e => confined e /\ de_parent e = path) es.
Proof.
  revert es. induction l as [|n l IH]; intros es H; cbn [mapM_res] in H; [by injection H as <-|].
  destruct (_checked n) as [n'|] eqn:Ec; [|done]. cbn [mbind result_bind] in H.
  destruct (mapM_res _ l) as [es'|]; [|done]. injection H as <-. constructor; [|by apply IH].
  apply checked_ok in Ec as (-> & ? & ?). done.
Qed.

(** A listing cannot name anything outside its directory. However the
    server words its reply, with or without stat lines, every entry the
    client returns is a single path component - no slash in it - that is not
    [..], filed under the directory that was listed. *)
Theorem dirlist_confined lower data path with_stat es :
  parse_dirlist lower data path with_stat = Ok es ->
  Forall (fun e => contains 0x2F (de_name e) = false /\ de_name e <> s_ ".." /\ de_parent e = path) es.
Proof.
  intros H. assert (Forall (fun e => confined e /\ de_parent e = path) es) as Ha.
  { unfold parse_dirlist in H. cbv zeta in H. case_hyp;
      [by eapply plain_entries_confined | by eapply stat_entries_confined]. }
  eapply Forall_impl; [exact Ha|]. by intros e [[? ?] ?].
Qed.

Lemma dirlist_confined_witness :
  exists es, parse_dirlist id (b_ "a
b") (s_ "/d") false = Ok es /\ length es = 2%nat
    /\ Forall (fun e => contains 0x2F (de_name e) = false /\ de_name e <> s_ ".." /\ de_parent e = s_ "/d") es.
Proof.
  destruct (parse_dirlist id (b_ "a
b") (s_ "/d") false) as [es|] eqn:E; [|vm_compute in E; discriminate E].
  exists es. split; [reflexivity|]. split; [|exact (dirlist_confined _ _ _ _ _ E)].
  vm_compute in E. injection E as <-. reflexivity.
Defined.
