(* ===== verification/Sigver.v ===== *)
(** * Request signing

    src/xrd/crypto/sigver.py: which opcodes a security level covers, and the
    per-connection [Signer], whose sequence number only [sign] advances.
    HMAC-SHA256 is a parameter: nothing here depends on which function of the
    key and the message it is. *)

From S2P Require Import Prelude PyStr Constants Errors Buffer Frames.

Definition SIGNED_OPCODES : list Z :=
  [kXR_chmod; kXR_fattr; kXR_mkdir; kXR_mv; kXR_open; kXR_pgwrite; kXR_prepare; kXR_rm;
   kXR_rmdir; kXR_set; kXR_truncate; kXR_write; kXR_writev; kXR_chkpoint; kXR_clone].

(** [opcode in LEVEL_OPCODES.get(level, SIGNED_OPCODES)]. *)
Definition level_covers (level opcode : Z) : bool :=
  if (level =? kXR_secNone) || (level =? kXR_secCompatible) then false
  else if level =? kXR_secStandard then bool_decide (opcode ∈ SIGNED_OPCODES)
  else if level =? kXR_secIntense then
    bool_decide (opcode ∈ SIGNED_OPCODES ++ [kXR_close; kXR_dirlist; kXR_locate; kXR_stat])
  else if level =? kXR_secPedantic then (kXR_1stRequest <=? opcode) && (opcode <? kXR_clone + 1)
  else bool_decide (opcode ∈ SIGNED_OPCODES).

Definition is_signed (opcode level : Z) (overrides : dict Z Z) : bool :=
  match dict_get opcode overrides with
  | Some v => negb (v =? kXR_secNone)
  | None => if level <=? kXR_secCompatible then false else level_covers level opcode
  end.

Module Signer.
Record t := mk { key : bytes; level : Z; overrides : dict Z Z; seqno : Z }.

Definition make (key : bytes) (level : Z) (overrides : dict Z Z) : t :=
  mk key level overrides 0.

(** [bool(self.key) and is_signed(...)]. *)
Definition required (s : t) (opcode : Z) : bool :=
  negb (bool_decide (key s = [])) && is_signed opcode (level s) (overrides s).

Section Mac.
Variable hmac_sha256 : bytes -> bytes -> bytes.

Definition sigver_hmac (key : bytes) (seqno : Z) (header payload : bytes) : res bytes :=
    n ← pack_u 8 seqno; Ok (hmac_sha256 key (n ++ header ++ payload)).

(** [struct.unpack_from(fmt, frame, at)] for a field of [n] bytes. *)
Definition unpack_from (n at_ : nat) (frame : bytes) : res bytes :=
    if (length frame <? at_ + n)%nat then Err StructError else Ok (take n (drop at_ frame)).

(** The signature of an encoded frame, or [None] when none is needed;
      the signed payload is what [dlen] declares, not what follows. *)
Definition sign (s : t) (frame : bytes) : t * res (option (Z * bytes)) :=
    match unpack_from 2 2 frame with
    | Err e => (s, Err e)
    | Ok op =>
        if negb (required s (unpack_u op)) then (s, Ok None)
        else
          let s' := mk (key s) (level s) (overrides s) (seqno s + 1) in
          let header := slice_to frame REQUEST_HDRLEN in
          match unpack_from 4 20 frame with
          | Err e => (s', Err e)
          | Ok d =>
              let dlen := unpack_i d in
              let body := slice frame REQUEST_HDRLEN (REQUEST_HDRLEN + dlen) in
              match sigver_hmac (key s) (seqno s') header body with
              | Err e => (s', Err e)
              | Ok mac => (s', Ok (Some (seqno s', mac)))
              end
          end
    end.
End Mac.

Lemma unpack_from_ok n at_ frame :
  (at_ + n <= length frame)%nat -> unpack_from n at_ frame = Ok (take n (drop at_ frame)).
Proof. intros Hl. unfold unpack_from. destruct (Nat.ltb_spec (length frame) (at_ + n)); [lia|done]. Qed.
End Signer.

(** ** Signing an encoded request *)

Section SignEncoded.
Context {R : Type} `{RequestOps R}.
Variable hmac_sha256 : bytes -> bytes -> bytes.

(** The fields [sign] reads out of a frame are the ones [encode] put there. *)
Lemma encoded_fields (req : R) sid f body :
  encode req sid = Ok f -> payload req = Ok body -> path_data req = [] \/ trailer req = [] ->
  unpack_u (take 2 (drop 2 f)) = opcode req
  /\ slice f REQUEST_HDRLEN (REQUEST_HDRLEN + unpack_i (take 4 (drop 20 f))) = body
  /\ (24 <= length f)%nat.
Proof.
  intros Hf Hb Htr. pose proof Hf as (w & b' & Hw & Hb' & Hsp)%split_encode.
  assert (b' = body) as -> by congruence.
  pose proof Hf as (w' & b' & _ & Hlw & Hb'' & Hop & Hd & Ef)%encode_ok.
  assert (b' = body) as -> by congruence.
  apply encode_length in Hf as (b' & Hb3 & Hlen). assert (b' = body) as -> by congruence.
  injection Hsp as _ Eop _ Edl Erest.
  set (dlen := zlen body + zlen (path_data req)) in *.
  assert (0 <= dlen <= MAX_FRAME_PAYLOAD) as Hdl
    by (unfold dlen in *; pose proof (zlen_nonneg body); pose proof (zlen_nonneg (path_data req)); lia).
  assert (unpack_i (take 4 (drop 20 f)) = dlen) as ->.
  { unfold unpack_i. assert (zlen (take 4 (drop 20 f)) = 4) as ->.
    { unfold zlen in *. rewrite length_take, length_drop. pose proof (zlen_nonneg (trailer req)).
      pose proof (zlen_nonneg body). unfold zlen in *. lia. }
    rewrite Edl. unfold to_signed, MAX_FRAME_PAYLOAD in *.
    destruct (Z.ltb_spec dlen (2 ^ (8 * 4 - 1))); [done | lia]. }
  pose proof (zlen_nonneg body). pose proof (zlen_nonneg (trailer req)).
  split_and!; [exact Eop | | unfold zlen in *; lia].
  rewrite slice_pos by (unfold REQUEST_HDRLEN; lia).
  replace (REQUEST_HDRLEN + dlen - REQUEST_HDRLEN) with dlen by lia.
  change (Z.to_nat REQUEST_HDRLEN) with 24%nat. rewrite Erest.
  destruct Htr as [Hz|Hz]; unfold dlen; rewrite Hz; autorewrite with zlen.
  - rewrite Z.add_0_r. unfold zlen. rewrite Nat2Z.id. apply take_app_length.
  - rewrite app_nil_r. apply take_ge. unfold zlen. lia.
Qed.

Lemma sign_encoded (s : Signer.t) (req : R) sid f body :
  encode req sid = Ok f -> payload req = Ok body -> path_data req = [] \/ trailer req = [] ->
  Signer.required s (opcode req) = true -> 0 <= Signer.seqno s < 2 ^ 64 - 1 ->
  Signer.sign hmac_sha256 s f
  = (Signer.mk (Signer.key s) (Signer.level s) (Signer.overrides s) (Signer.seqno s + 1),
     Ok (Some (Signer.seqno s + 1,
               hmac_sha256 (Signer.key s) (be_enc 8 (Signer.seqno s + 1) ++ take 24 f ++ body)))).
Proof.
  intros Hf Hb Htr Hreq Hseq. destruct (encoded_fields req sid f body Hf Hb Htr) as (Hop & Hbody & Hl).
  unfold Signer.sign. rewrite Signer.unpack_from_ok by lia. rewrite Hop, Hreq. cbn [negb].
  rewrite Signer.unpack_from_ok by lia. cbv zeta. rewrite Hbody.
  unfold Signer.sigver_hmac, pack_u. cbn [Signer.seqno].
  change (256 ^ Z.of_nat 8) with (2 ^ 64).
  destruct (Z.leb_spec 0 (Signer.seqno s + 1)); [|lia].
  destruct (Z.ltb_spec (Signer.seqno s + 1) (2 ^ 64)); [|lia]. cbn [andb mbind result_bind].
  assert (slice_to f REQUEST_HDRLEN = take 24 f) as -> by done. done.
Qed.
End SignEncoded.
