(* ===== verification/Flags.v ===== *)
(** * Flags and modes

    src/xrd/flags.py: the flag sets as their bits, the word parser every one
    of them shares, permissions, and the translation of an [open] mode. The
    case mapping [str.upper] is a parameter. *)

From S2P Require Import Prelude PyStr Errors.
Open Scope Z_scope.

Module Flags.

(** The members of each set, in the order they are declared. *)
Definition members (l : list (string * Z)) : dict str Z := (fun '(n, v) => (s_ n, v)) <$> l.

Definition OpenFlags : dict str Z := members
  [("NONE", 0); ("COMPRESS", 0x0001); ("DELETE", 0x0002); ("FORCE", 0x0004); ("NEW", 0x0008);
   ("READ", 0x0010); ("UPDATE", 0x0020); ("REFRESH", 0x0080); ("MAKEPATH", 0x0100); ("APPEND", 0x0200);
   ("RETSTAT", 0x0400); ("REPLICA", 0x0800); ("POSC", 0x1000); ("NOWAIT", 0x2000); ("SEQIO", 0x4000);
   ("WRITE", 0x8000)]%string.

Definition Access : dict str Z := members
  [("NONE", 0); ("OTHER_EXEC", 0x001); ("OTHER_WRITE", 0x002); ("OTHER_READ", 0x004);
   ("GROUP_EXEC", 0x008); ("GROUP_WRITE", 0x010); ("GROUP_READ", 0x020);
   ("OWNER_EXEC", 0x040); ("OWNER_WRITE", 0x080); ("OWNER_READ", 0x100)]%string.

Definition DirListFlags : dict str Z := members
  [("NONE", 0); ("ONLINE", 0x01); ("STAT", 0x02); ("CKSUM", 0x04); ("RECURSIVE", 0x08)]%string.

Definition MkDirFlags : dict str Z := members [("NONE", 0); ("MAKEPATH", 0x01)]%string.

Definition QueryCode : dict str Z := members
  [("STATS", 1); ("PREPARE", 2); ("CHECKSUM", 3); ("XATTR", 4); ("SPACE", 5); ("CHECKSUM_CANCEL", 6);
   ("CONFIG", 7); ("VISA", 8); ("OPAQUE", 16); ("OPAQUE_FILE", 32); ("OPAQUE_GROUP", 64)]%string.

Definition PrepareFlags : dict str Z := members
  [("NONE", 0); ("CANCEL", 1); ("NOTIFY", 2); ("NO_ERRORS", 4); ("STAGE", 8); ("WRITE_MODE", 16);
   ("COLOCATE", 32); ("FRESH", 64); ("USE_TCP", 128); ("EVICT", 256)]%string.

Definition LocateFlags : dict str Z := members
  [("NONE", 0); ("ADD_PEERS", 1); ("REFRESH", 128); ("PREFER_NAME", 256); ("FOR_DIRLIST", 1024);
   ("NO_WAIT", 8192)]%string.

Definition FattrCode : dict str Z := members [("DEL", 0); ("GET", 1); ("LIST", 2); ("SET", 3)]%string.

Definition ChkPointCode : dict str Z := members
  [("BEGIN", 0); ("COMMIT", 1); ("QUERY", 2); ("ROLLBACK", 3); ("XEQ", 4)]%string.

(** The bits that are named in the code. *)
Definition DELETE := 0x0002.
Definition NEW := 0x0008.
Definition READ := 0x0010.
Definition UPDATE := 0x0020.
Definition MAKEPATH := 0x0100.
Definition APPEND := 0x0200.
Definition POSC := 0x1000.
Definition WRITE := 0x8000.

Section Words.
Variable upper : str -> str.

(** [_SEPARATORS]: white space, commas, bars and plus signs. *)
Definition separator (c : Z) : bool := is_space c || (c =? 0x2C) || (c =? 0x7C) || (c =? 0x2B).

(** The words of [_SEPARATORS.split(...)] that are not empty. *)
Fixpoint split_words (cur : str) (s : str) : list str :=
  match s with
  | [] => match cur with [] => [] | _ => [reverse cur] end
  | c :: s =>
      if separator c then match cur with [] => split_words [] s | _ => reverse cur :: split_words [] s end
      else split_words (c :: cur) s
  end.

(** [_Words._missing_] on a string; [many] is [issubclass(enum, IntFlag)]. *)
Definition from_words (enum : dict str Z) (many : bool) (value : str) : res Z :=
  let words := split_words [] ((fun c => if c =? 0x2D then 0x5F else c) <$> upper (strip value)) in
  match words with
  | [] => Err ValueError
  | _ :: _ :: _ =>
      if many then
        vs ← mapM_res (fun w => match dict_get w enum with Some v => Ok v | None => Err ValueError end) words;
        Ok (foldl Z.lor 0 vs)
      else Err ValueError
  | [w] => match dict_get w enum with Some v => Ok v | None => Err ValueError end
  end.

(** *** Permissions *)

Definition _RWX : list Z := [0x100; 0x080; 0x040; 0x020; 0x010; 0x008; 0x004; 0x002; 0x001].

(** [int(text, 8)] of a string of digits. *)
Fixpoint octal (text : str) (acc : Z) : res Z :=
  match text with
  | [] => Ok acc
  | c :: text =>
      match digit_value c with
      | Some d => if d <? 8 then octal text (8 * acc + d) else Err ValueError
      | None => Err ValueError
      end
  end.

Definition is_rwx (c : Z) : bool := bool_decide (c ∈ s_ "rwx-").

Definition access_word (isdigit : str -> bool) (value : str) : res Z :=
  let text := strip value in
  if (zlen text =? 9) && forallb is_rwx text then
    Ok (foldl Z.lor 0 (zip_with (fun c bit => if c =? 0x2D then 0 else bit) text _RWX))
  else if isdigit text then octal text 0
  else from_words Access true value.

(** A mode as it was written down: a number, taken to be its bits, or text. *)
Inductive spelled := Bits (n : Z) | Words_ (s : str).

Definition permissions (isdigit : str -> bool) (mode : spelled) : res Z :=
  match mode with
  | Bits n => Ok (Z.land n 0x1FF)
  | Words_ s => v ← access_word isdigit s; Ok (Z.land v 0x1FF)
  end.

(** *** Modes *)

Definition parse_mode (mode : str) : res (Z * bool * bool) :=
  let cleaned := filter (fun c => c <> 0x55) mode in
  let binary := contains 0x62 cleaned in
  let text := contains 0x74 cleaned in
  if binary && text then Err ValueError else
  let updating := contains 0x2B cleaned in
  match filter (fun c => c ∈ s_ "rwxa") cleaned with
  | [base] =>
      if forallb (fun c => bool_decide (c ∈ s_ "rwxa+bt")) cleaned then Ok (base, binary, updating)
      else Err ValueError
  | _ => Err ValueError
  end.

Definition flags_for_mode (mode : str) (posc makepath : bool) : res Z :=
  '(base, _, updating) ← parse_mode mode;
  let flags :=
    if base =? 0x72 then (if (updating : bool) then UPDATE else READ)
    else if base =? 0x77 then Z.lor UPDATE DELETE
    else if base =? 0x78 then Z.lor UPDATE NEW
    else Z.lor UPDATE APPEND in
  Ok (if base =? 0x72 then flags
      else Z.lor (Z.lor flags (if makepath then MAKEPATH else 0)) (if posc then POSC else 0)).

Definition _MODE_LETTERS : str := s_ "rwxabt+U".

Definition open_flags (flags : spelled) : res Z :=
  match flags with
  | Bits n => Ok n
  | Words_ s =>
      if forallb (fun c => bool_decide (c ∈ _MODE_LETTERS)) s then flags_for_mode s false true
      else from_words OpenFlags true s
  end.

(** *** Options asked for in words *)

(** [flags], when given, as it stands. *)
Definition spelled_flags (enum : dict str Z) (flags : spelled) : res Z :=
  match flags with Bits n => Ok n | Words_ s => from_words enum true s end.

Definition either (asked : list (bool * Z)) (start : Z) : Z :=
  foldl (fun chosen '(on, flag) => if (on : bool) then Z.lor chosen flag else chosen) start asked.

Definition dirlist_flags (stat online : bool) (algorithm : str) (flags : option spelled) : res Z :=
  match flags with
  | Some f => spelled_flags DirListFlags f
  | None => Ok (either [(online, 0x01); (negb (bool_decide (algorithm = [])), Z.lor 0x02 0x04)]
                  (if stat then 0x02 else 0))
  end.

Definition locate_flags (refresh no_wait add_peers prefer_name : bool) (flags : option spelled) : res Z :=
  match flags with
  | Some f => spelled_flags LocateFlags f
  | None => Ok (either [(refresh, 128); (no_wait, 8192); (add_peers, 1); (prefer_name, 256)] 0)
  end.

Definition prepare_flags (stage : option bool) (evict notify fresh : bool) (flags : option spelled) : res Z :=
  match flags with
  | Some f => spelled_flags PrepareFlags f
  | None => Ok (either [(evict, 256); (notify, 2); (fresh, 64)] (if default (negb evict) stage then 8 else 0))
  end.
End Words.

(** *** What they mean *)

(** A permission set as a listing shows it. *)
Definition show_rwx (m : Z) : str :=
  zip_with (fun c bit => if Z.land m bit =? 0 then 0x2D else c) (s_ "rwxrwxrwx") _RWX.

(** Every permission set reads back from its listing. *)
Lemma permissions_rwx upper isdigit m :
  0 <= m < 512 -> permissions upper isdigit (Words_ (show_rwx m)) = Ok m.
Proof.
  intros Hm.
  assert (H : forallb (fun m => bool_decide (
      strip (show_rwx m) = show_rwx m /\ (zlen (show_rwx m) =? 9) && forallb is_rwx (show_rwx m) = true
      /\ Z.land (foldl Z.lor 0 (zip_with (fun c bit => if c =? 0x2D then 0 else bit) (show_rwx m) _RWX)) 0x1FF = m))
    (seqZ 0 512) = true) by (vm_compute; reflexivity).
  rewrite forallb_forall in H. specialize (H m). rewrite <- list_elem_of_In, elem_of_seqZ in H.
  specialize (H ltac:(lia)). apply bool_decide_eq_true in H as (H1 & H2 & H3).
  unfold permissions, access_word. rewrite H1, H2. cbn [mbind result_bind]. by rewrite H3.
Qed.

(** The options of an [open] that changes nothing. *)
Definition _WRITING : Z := Z.lor (Z.lor (Z.lor (Z.lor WRITE UPDATE) NEW) DELETE) APPEND.

(** A mode opens for reading only exactly when it is an [r] without a plus. *)
Lemma flags_writing mode posc makepath base binary updating flags :
  parse_mode mode = Ok (base, binary, updating) -> flags_for_mode mode posc makepath = Ok flags ->
  (Z.land flags _WRITING = 0 <-> base = 0x72 /\ updating = false).
Proof.
  unfold flags_for_mode. intros ->. cbn [mbind result_bind]. intros [= <-].
  destruct (Z.eqb_spec base 0x72) as [->|Hr].
  - destruct updating; split; try done. by intros [_ [=]].
  - split; [|by intros [-> _]]. intros H. exfalso. revert H.
    destruct (base =? 0x77), (base =? 0x78), makepath, posc; vm_compute; discriminate.
Qed.

End Flags.
