(* ===== verification/ConfigFile.v ===== *)
(** * Settings

    src/xrd/config.py: the fields of [Config] and what they are when nobody
    says otherwise, which the environment decides. Where a setting is a Python
    [float] (seconds), it is a rational; [prompter], a callable, is left out. *)

From S2P Require Import Prelude PyStr Errors.
From Stdlib Require Import QArith.

Record Config := mkConfig {
  c_username : str; c_connect_timeout : Q; c_request_timeout : Q; c_stream_timeout : Q; c_connect_retries : Z;
  c_retry_backoff : Q; c_redirect_limit : Z; c_wait_cap : Q; c_keepalive_interval : Q; c_chunk_size : Z;
  c_readahead : Z; c_parallel_chunks : Z; c_parallel_files : Z; c_in_flight : Z; c_data_streams : Z;
  c_data_stream_timeout : Q; c_max_read_size : Z; c_pool_size : Z; c_pool_idle_ttl : Q; c_token : option str;
  c_token_file : option str; c_keytab : option str; c_proxy : option str; c_ca_path : option str; c_ca_file : option str
 ; c_auth_order : list str; c_verify_tls : bool; c_require_tls : bool; c_prompt : option bool;
  c_recover_handles : bool; c_verify_checksums : bool; c_preferred_checksum : str
}.

(** Every field as it is but one. *)
Ltac config_with c f v :=
  let eta := constr:(mkConfig
    (c_username c) (c_connect_timeout c) (c_request_timeout c) (c_stream_timeout c) (c_connect_retries c)
    (c_retry_backoff c) (c_redirect_limit c) (c_wait_cap c) (c_keepalive_interval c) (c_chunk_size c)
    (c_readahead c) (c_parallel_chunks c) (c_parallel_files c) (c_in_flight c) (c_data_streams c)
    (c_data_stream_timeout c) (c_max_read_size c) (c_pool_size c) (c_pool_idle_ttl c) (c_token c)
    (c_token_file c) (c_keytab c) (c_proxy c) (c_ca_path c) (c_ca_file c) (c_auth_order c) (c_verify_tls c)
    (c_require_tls c) (c_prompt c) (c_recover_handles c) (c_verify_checksums c) (c_preferred_checksum c)) in
  let e := eval pattern (f c) in eta in
  match e with ?g _ => let t := eval cbv beta in (g v) in exact t end.
(** [replace(c, field=v)]. *)
Notation "c <| f := v |>" := ltac:(config_with c f v) (at level 1, left associativity, only parsing).

(** ** The environment *)

Section Environment.
Local Open Scope Z_scope.
(** [os.environ.get], [str.lower], [float] ([None] where it raises) and
    [getpass.getuser] ([None] where it raises). *)
Variable getenv : str -> option str.
Variable lower : str -> str.
Variable float_ : str -> option Q.
Variable getuser : option str.

(** [a or b] of two strings that may be missing. *)
Definition py_or (a b : option str) : option str :=
  match a with None | Some [] => b | _ => a end.

(** A tri-state switch. *)
Definition _env_flag (name : str) : option bool :=
  match getenv name with
  | None => None
  | Some raw =>
      match strip raw with
      | [] => None
      | t => Some (bool_decide (lower t ∉ [s_ "0"; s_ "no"; s_ "off"; s_ "false"]))
      end
  end.

Definition _env_int (name : str) (default_ : Z) : Z :=
  match getenv name with
  | None | Some [] => default_
  | Some raw => default default_ (py_int raw)
  end.

Definition _env_float (name : str) (default_ : Q) : Q :=
  match getenv name with
  | None | Some [] => default_
  | Some raw => default default_ (float_ raw)
  end.

(** The first name that is set, then the account's. *)
Definition _default_user : str :=
  let login := py_or (getenv (s_ "XRD_USER")) (py_or (getenv (s_ "USER")) (getenv (s_ "LOGNAME"))) in
  match login with
  | None | Some [] => default (s_ "nobody") getuser
  | Some user => user
  end.

(** [Config()]. *)
Definition Config_init : Config :=
  mkConfig
    (_default_user)
    (_env_float (s_ "XRD_CONNECTIONWINDOW") 30)
    (_env_float (s_ "XRD_REQUESTTIMEOUT") 300)
    (_env_float (s_ "XRD_STREAMTIMEOUT") 60)
    (_env_int (s_ "XRD_CONNECTIONRETRY") 3)
    (_env_float (s_ "XRD_STREAMERRORWINDOW") (1 # 2))
    (_env_int (s_ "XRD_REDIRECTLIMIT") 16)
    (600)
    (60)
    (_env_int (s_ "XRD_CPCHUNKSIZE") (Z.shiftl 1 22))
    (_env_int (s_ "XRD_READAHEAD") (Z.shiftl 1 20))
    (_env_int (s_ "XRD_CPPARALLELCHUNKS") 4)
    (_env_int (s_ "XRD_CPPARALLELFILES") 1)
    (_env_int (s_ "XRD_CPINFLIGHT") 2)
    (Z.max 0 (_env_int (s_ "XRD_SUBSTREAMSPERCHANNEL") 2 - 1))
    (_env_float (s_ "XRD_SUBSTREAMTIMEOUT") 2)
    (_env_int (s_ "XRD_MAXREADSIZE") (Z.shiftl 1 30))
    (_env_int (s_ "XRD_POOLSIZE") 8)
    (120)
    (None)
    (getenv (s_ "BEARER_TOKEN_FILE"))
    (py_or (getenv (s_ "XrdSecSSSKT")) (getenv (s_ "XrdSecsssKT")))
    (getenv (s_ "X509_USER_PROXY"))
    (getenv (s_ "X509_CERT_DIR"))
    (getenv (s_ "SSL_CERT_FILE"))
    ([s_ "gsi"; s_ "ztn"; s_ "krb5"; s_ "sss"; s_ "unix"; s_ "host"])
    (true)
    (false)
    (_env_flag (s_ "XRD_PROMPT"))
    (true)
    (true)
    (s_ "adler32").
End Environment.

(** In an empty environment. *)
Definition factory (user : str) : Config := Config_init (fun _ => None) id (fun _ => None) (Some user).

(** [min(a, b)]: the first unless the second is smaller. *)
Definition qmin (a b : Q) : Q := if Qle_bool a b then a else b.

Lemma qmin_le_r a b : (qmin a b <= b)%Q.
Proof.
  unfold qmin. destruct (Qle_bool a b) eqn:E; [by apply Qle_bool_iff | apply Qle_refl].
Qed.

(** [Config.check_whole_read]: whether a read nobody put a number on is too
    large. *)
Definition refuses_whole_read (c : Config) (size : Z) : bool :=
  (negb (c_max_read_size c =? 0) && (c_max_read_size c <? size))%Z%bool.

(** ** Settings in files, and in effect

    src/xrd/config.py: reading a configuration file, and the configuration a
    piece of code runs under. The [configparser] module is a parameter: what
    it makes of a file is the sections it found, each with its items or the
    failure of its interpolation. *)

Open Scope Z_scope.

Module ConfigFile.

Definition CONFIG_PATHS : list str := [s_ "~/.config/xrd/config.ini"; s_ "~/.xrdrc"].
Definition DEFAULTS_SECTION : str := s_ "defaults".
Definition _NOT_IN_FILES : list str := [s_ "prompter"; s_ "token"].

(** ** Fields by name *)

(** What may be stored in a field. *)
Inductive value :=
  | VStr (s : str) | VInt (z : Z) | VFloat (q : Q) | VBool (b : bool) | VNone | VSeq (l : list str).

Definition of_opt (o : option str) : value := match o with Some s => VStr s | None => VNone end.
Definition of_flag (o : option bool) : value := match o with Some b => VBool b | None => VNone end.

(** Storing a value in a field declared with some type; [None] when the value
    is not one of that type. *)
Definition vstr (set : str -> Config -> Config) (v : value) (c : Config) : option Config :=
  match v with VStr s => Some (set s c) | _ => None end.
Definition vint (set : Z -> Config -> Config) (v : value) (c : Config) : option Config :=
  match v with VInt z => Some (set z c) | _ => None end.
Definition vfloat (set : Q -> Config -> Config) (v : value) (c : Config) : option Config :=
  match v with VFloat q => Some (set q c) | _ => None end.
Definition vbool (set : bool -> Config -> Config) (v : value) (c : Config) : option Config :=
  match v with VBool b => Some (set b c) | _ => None end.
Definition vseq (set : list str -> Config -> Config) (v : value) (c : Config) : option Config :=
  match v with VSeq l => Some (set l c) | _ => None end.
Definition vopt (set : option str -> Config -> Config) (v : value) (c : Config) : option Config :=
  match v with VStr s => Some (set (Some s) c) | VNone => Some (set None c) | _ => None end.
Definition vflag (set : option bool -> Config -> Config) (v : value) (c : Config) : option Config :=
  match v with VBool b => Some (set (Some b) c) | VNone => Some (set None c) | _ => None end.

Record field := mkField {
  fd_type : str;
  fd_get : Config -> value;
  fd_set : value -> Config -> option Config
}.

(** [fields(Config)]: names and annotations. *)
Definition fields : dict str field :=
  [(s_ "username", mkField (s_ "str") (fun c => VStr (c_username c)) (vstr (fun v c => c <| c_username := v |>)));
   (s_ "connect_timeout", mkField (s_ "float") (fun c => VFloat (c_connect_timeout c)) (vfloat (fun v c => c <| c_connect_timeout := v |>)));
   (s_ "request_timeout", mkField (s_ "float") (fun c => VFloat (c_request_timeout c)) (vfloat (fun v c => c <| c_request_timeout := v |>)));
   (s_ "stream_timeout", mkField (s_ "float") (fun c => VFloat (c_stream_timeout c)) (vfloat (fun v c => c <| c_stream_timeout := v |>)));
   (s_ "connect_retries", mkField (s_ "int") (fun c => VInt (c_connect_retries c)) (vint (fun v c => c <| c_connect_retries := v |>)));
   (s_ "retry_backoff", mkField (s_ "float") (fun c => VFloat (c_retry_backoff c)) (vfloat (fun v c => c <| c_retry_backoff := v |>)));
   (s_ "redirect_limit", mkField (s_ "int") (fun c => VInt (c_redirect_limit c)) (vint (fun v c => c <| c_redirect_limit := v |>)));
   (s_ "wait_cap", mkField (s_ "float") (fun c => VFloat (c_wait_cap c)) (vfloat (fun v c => c <| c_wait_cap := v |>)));
   (s_ "keepalive_interval", mkField (s_ "float") (fun c => VFloat (c_keepalive_interval c)) (vfloat (fun v c => c <| c_keepalive_interval := v |>)));
   (s_ "chunk_size", mkField (s_ "int") (fun c => VInt (c_chunk_size c)) (vint (fun v c => c <| c_chunk_size := v |>)));
   (s_ "readahead", mkField (s_ "int") (fun c => VInt (c_readahead c)) (vint (fun v c => c <| c_readahead := v |>)));
   (s_ "parallel_chunks", mkField (s_ "int") (fun c => VInt (c_parallel_chunks c)) (vint (fun v c => c <| c_parallel_chunks := v |>)));
   (s_ "parallel_files", mkField (s_ "int") (fun c => VInt (c_parallel_files c)) (vint (fun v c => c <| c_parallel_files := v |>)));
   (s_ "in_flight", mkField (s_ "int") (fun c => VInt (c_in_flight c)) (vint (fun v c => c <| c_in_flight := v |>)));
   (s_ "data_streams", mkField (s_ "int") (fun c => VInt (c_data_streams c)) (vint (fun v c => c <| c_data_streams := v |>)));
   (s_ "data_stream_timeout", mkField (s_ "float") (fun c => VFloat (c_data_stream_timeout c)) (vfloat (fun v c => c <| c_data_stream_timeout := v |>)));
   (s_ "max_read_size", mkField (s_ "int") (fun c => VInt (c_max_read_size c)) (vint (fun v c => c <| c_max_read_size := v |>)));
   (s_ "pool_size", mkField (s_ "int") (fun c => VInt (c_pool_size c)) (vint (fun v c => c <| c_pool_size := v |>)));
   (s_ "pool_idle_ttl", mkField (s_ "float") (fun c => VFloat (c_pool_idle_ttl c)) (vfloat (fun v c => c <| c_pool_idle_ttl := v |>)));
   (s_ "token", mkField (s_ "str | None") (fun c => of_opt (c_token c)) (vopt (fun v c => c <| c_token := v |>)));
   (s_ "token_file", mkField (s_ "str | None") (fun c => of_opt (c_token_file c)) (vopt (fun v c => c <| c_token_file := v |>)));
   (s_ "keytab", mkField (s_ "str | None") (fun c => of_opt (c_keytab c)) (vopt (fun v c => c <| c_keytab := v |>)));
   (s_ "proxy", mkField (s_ "str | None") (fun c => of_opt (c_proxy c)) (vopt (fun v c => c <| c_proxy := v |>)));
   (s_ "ca_path", mkField (s_ "str | None") (fun c => of_opt (c_ca_path c)) (vopt (fun v c => c <| c_ca_path := v |>)));
   (s_ "ca_file", mkField (s_ "str | None") (fun c => of_opt (c_ca_file c)) (vopt (fun v c => c <| c_ca_file := v |>)));
   (s_ "auth_order", mkField (s_ "Sequence[str]") (fun c => VSeq (c_auth_order c)) (vseq (fun v c => c <| c_auth_order := v |>)));
   (s_ "verify_tls", mkField (s_ "bool") (fun c => VBool (c_verify_tls c)) (vbool (fun v c => c <| c_verify_tls := v |>)));
   (s_ "require_tls", mkField (s_ "bool") (fun c => VBool (c_require_tls c)) (vbool (fun v c => c <| c_require_tls := v |>)));
   (s_ "prompt", mkField (s_ "bool | None") (fun c => of_flag (c_prompt c)) (vflag (fun v c => c <| c_prompt := v |>)));
   (s_ "prompter", mkField (s_ "Prompter | None") (fun _ => VNone) (fun _ _ => None));
   (s_ "recover_handles", mkField (s_ "bool") (fun c => VBool (c_recover_handles c)) (vbool (fun v c => c <| c_recover_handles := v |>)));
   (s_ "verify_checksums", mkField (s_ "bool") (fun c => VBool (c_verify_checksums c)) (vbool (fun v c => c <| c_verify_checksums := v |>)));
   (s_ "preferred_checksum", mkField (s_ "str") (fun c => VStr (c_preferred_checksum c)) (vstr (fun v c => c <| c_preferred_checksum := v |>)))].

(** [Config] called with the settings of a dictionary, over the defaults. *)
Definition Config_of (base : Config) (settings : dict str value) : option Config :=
  foldl (fun c kv => c ← c; f ← dict_get kv.1 fields; fd_set f kv.2 c) (Some base) settings.

(** ** Files *)

(** What [configparser] made of a file: the items of each section, defaults
    and interpolation included, or what raising them raised. *)
Notation ini := (dict str (res (dict str str))).

(** [sub in s]. *)
Fixpoint has_sub (sub s : str) : bool :=
  startswith sub s || match s with [] => false | _ :: s => has_sub sub s end.

Section Files.
(** [os.environ.get], [os.path.expanduser], [os.path.isfile], [str.lower],
    [float], and [open] with [ConfigParser.read_file]. *)
Variable getenv : str -> option str.
Variable expanduser : str -> str.
Variable isfile : str -> bool.
Variable lower : str -> str.
Variable float_ : str -> option Q.
Variable read_ini : str -> res ini.

Definition find_config_file : option str :=
  match getenv (s_ "XRD_CONFIG") with
  | None | Some [] => snd <$> list_find (fun p => isfile p = true) (expanduser <$> CONFIG_PATHS)
  | Some named => Some (expanduser named)
  end.

(** [configparser]'s vocabulary of truth. *)
Definition BOOLEAN_STATES : dict str bool :=
  [(s_ "1", true); (s_ "yes", true); (s_ "true", true); (s_ "on", true);
   (s_ "0", false); (s_ "no", false); (s_ "false", false); (s_ "off", false)].

Definition _as_flag (raw : str) : res bool :=
  match dict_get (lower (strip raw)) BOOLEAN_STATES with Some b => Ok b | None => Err ValueError end.

(** One string of the file, as the type its field is declared with. *)
Definition _coerce (raw annotation : str) : res value :=
  let text := strip raw in
  let blank := bool_decide (text = []) && has_sub (s_ "None") annotation in
  if has_sub (s_ "Sequence") annotation then
    Ok (VSeq (filter (fun p => p <> []) (strip <$> words ((fun c => if c =? 0x2C then 0x20 else c) <$> text))))
  else if startswith (s_ "bool") annotation then
    if blank then Ok VNone else b ← _as_flag text; Ok (VBool b)
  else if blank then Ok VNone
  else if startswith (s_ "int") annotation then
    match py_int text with Some z => Ok (VInt z) | None => Err ValueError end
  else if startswith (s_ "float") annotation then
    match float_ text with Some q => Ok (VFloat q) | None => Err ValueError end
  else Ok (VStr (expanduser text)).

(** [key.strip().lower().replace("-", "_")]. *)
Definition setting_name (key : str) : str := (fun c => if c =? 0x2D then 0x5F else c) <$> lower (strip key).

Fixpoint settings_loop (settings : dict str value) (items : dict str str) : res (dict str value) :=
  match items with
  | [] => Ok settings
  | (key, raw) :: items =>
      let name := setting_name key in
      if bool_decide (name ∈ _NOT_IN_FILES) then Err ValueError else
      match dict_get name fields with
      | None => Err ValueError
      | Some f => v ← _coerce raw (fd_type f); settings_loop (dict_set name v settings) items
      end
  end.

(** One section, validated against the fields there are. *)
Definition _settings_from (parser : ini) (section : str) : res (dict str value) :=
  match dict_get section parser with
  | None => Err ConfigParserError
  | Some items => items ← items; settings_loop [] items
  end.

(** [d.update(e)]. *)
Definition dict_update (d e : dict str value) : dict str value := foldl (fun d kv => dict_set kv.1 kv.2 d) d e.

(** The settings a file holds, its defaults under the alias. *)
Definition file_settings (parser : ini) (alias : option str) : res (dict str value) :=
  settings ← (if dict_mem DEFAULTS_SECTION parser then _settings_from parser DEFAULTS_SECTION else Ok []);
  match alias with
  | None => Ok settings
  | Some alias =>
      let section := s_ "alias " ++ alias in
      if dict_mem section parser
      then s ← _settings_from parser section; Ok (dict_update settings s)
      else Err KeyError
  end.

(** [Config.from_file]. *)
Definition from_file (base : Config) (path alias : option str) : res (option Config) :=
  match (match path with Some p => Some p | None => find_config_file end) with
  | None => match alias with Some _ => Err FileNotFoundError | None => Ok (Some base) end
  | Some target =>
      parser ← (match read_ini target with Err ConfigParserError => Err ValueError | r => r end);
      settings ← file_settings parser alias;
      Ok (Config_of base settings)
  end.

(** ** Fields are independent *)

Definition fits (f : field) (v : value) : Prop := forall c, is_Some (fd_set f v c).

Lemma field_In n f : dict_get n fields = Some f -> In (n, f) fields.
Proof. intros H%dict_get_Some_in. by apply list_elem_of_In. Qed.

(** Every row of the table, one goal each. *)
Ltac each_field H := apply field_In in H; repeat (destruct H as [H|H]; [injection H as <- <-|]); [..|destruct H].

Lemma set_get n f v c c' : dict_get n fields = Some f -> fd_set f v c = Some c' -> fd_get f c' = v.
Proof. intros H. each_field H; destruct v; intros [=]; by subst. Qed.

(** What storing in a field changes, seen from each of the others. *)
Lemma set_other n f v c c' :
  dict_get n fields = Some f -> fd_set f v c = Some c' ->
  Forall (fun g => g.1 <> n -> fd_get g.2 c' = fd_get g.2 c) fields.
Proof.
  intros H. each_field H; destruct v; intros [=]; subst;
    repeat (apply Forall_cons_2; [by first [reflexivity | intros []]|]); apply Forall_nil_2.
Qed.

(** Run the tests [_coerce] makes on the annotation. *)
Ltac annotation_in E :=
  repeat match type of E with
  | context [has_sub ?x ?y] => let b := eval vm_compute in (has_sub x y) in change (has_sub x y) with b in E
  | context [startswith ?x ?y] => let b := eval vm_compute in (startswith x y) in change (startswith x y) with b in E
  end.

Lemma coerce_fits n f raw v :
  n ∉ _NOT_IN_FILES -> dict_get n fields = Some f -> _coerce raw (fd_type f) = Ok v -> fits f v.
Proof.
  intros Hn H E c. unfold _coerce in E. revert Hn. each_field H; cbn [fd_type] in E; annotation_in E; intros Hn;
    rewrite ?andb_false_r, ?andb_true_r in E;
    try (destruct (_as_flag _) as [b|]); repeat case_match; cbn in E; simplify_eq; try done.
  all: exfalso; apply Hn; by apply list_elem_of_In; cbn; auto.
Qed.

Lemma Config_of_spec base s :
  NoDup (dict_keys s) ->
  Forall (fun kv => exists f, dict_get kv.1 fields = Some f /\ fits f kv.2) s ->
  exists c, Config_of base s = Some c
    /\ forall n f, dict_get n fields = Some f -> fd_get f c = default (fd_get f base) (dict_get n s).
Proof.
  unfold Config_of. revert base. induction s as [|[k v] s IH]; intros base Hn Hf; [by exists base|].
  apply NoDup_cons in Hn as [Hk Hn]. apply Forall_cons in Hf as [(f & Ef & Hv) Hf]. cbn [foldl fst snd] in *.
  destruct (Hv base) as [c1 E1]. destruct (IH c1 Hn Hf) as (c & Ec & Hc). exists c.
  rewrite <- Ec. split.
  { cbn [mbind option_bind]. rewrite Ef. cbn [mbind option_bind]. by rewrite E1. }
  intros n g Hg. rewrite (Hc n g Hg). cbn [dict_get].
  destruct (decide (n = k)) as [->|Hne].
  - apply dict_get_None_keys in Hk. rewrite Hk. rewrite Hg in Ef. injection Ef as <-.
    cbn. by eapply set_get.
  - f_equal.
    eapply set_other in E1; [|done]. rewrite Forall_forall in E1.
    by apply (E1 (n, g)); [apply dict_get_Some_in|].
Qed.

(** ** What a file says *)

(** The value a list of items gives a name, the last one winning. *)
Definition item_of (n : str) (items : dict str str) : option str :=
  last (snd <$> filter (fun kv => setting_name kv.1 = n) items).

Definition said (n : str) (items : dict str str) (v : value) : Prop :=
  exists raw f, item_of n items = Some raw /\ dict_get n fields = Some f /\ _coerce raw (fd_type f) = Ok v.

Definition good (s : dict str value) : Prop :=
  NoDup (dict_keys s)
  /\ Forall (fun kv => kv.1 ∉ _NOT_IN_FILES /\ exists f, dict_get kv.1 fields = Some f /\ fits f kv.2) s.

Lemma Forall_dict_set (P : str * value -> Prop) k v s : P (k, v) -> Forall P s -> Forall P (dict_set k v s).
Proof.
  intros Hk Hs. induction Hs as [|[k' v'] s Hx Hs IH]; cbn; [by repeat constructor|].
  case_decide; subst; by constructor.
Qed.

Lemma good_set n f v s :
  n ∉ _NOT_IN_FILES -> dict_get n fields = Some f -> fits f v -> good s -> good (dict_set n v s).
Proof.
  intros Hn Hf Hv [H1 H2]. split; [by apply dict_set_NoDup|]. apply Forall_dict_set; [|done]. split; [done|]. by exists f.
Qed.

Lemma good_update d e : good d -> good e -> good (dict_update d e).
Proof.
  intros Hd [He1 He2]. unfold dict_update. clear He1. revert d Hd.
  induction He2 as [|[k v] e (Hk & f & Hf & Hv) He IH]; intros d Hd; [done|].
  apply IH. by apply (good_set k f).
Qed.

Lemma dict_update_get d e n :
  NoDup (dict_keys e) -> dict_get n (dict_update d e) = match dict_get n e with Some v => Some v | None => dict_get n d end.
Proof.
  revert d. unfold dict_update. induction e as [|[k v] e IH]; intros d Hn; [done|].
  apply NoDup_cons in Hn as [Hk Hn]. cbn [foldl fst snd dict_get]. rewrite (IH _ Hn). rewrite dict_get_set.
  destruct (decide (n = k)) as [->|Hne]; [|by rewrite decide_False]. 
  apply dict_get_None_keys in Hk. cbn [fst] in Hk. by rewrite Hk, decide_True.
Qed.

Lemma settings_loop_spec items s0 s :
  settings_loop s0 items = Ok s -> good s0 ->
  good s /\ forall n, match item_of n items with
                    | Some raw => exists f v, dict_get n fields = Some f /\ _coerce raw (fd_type f) = Ok v /\ dict_get n s = Some v
                    | None => dict_get n s = dict_get n s0
                    end.
Proof.
  revert s0. induction items as [|[key raw] items IH]; intros s0 E Hg; cbn [settings_loop] in E.
  { injection E as <-. split; [done|]. by intros n. }
  destruct (bool_decide_reflect (setting_name key ∈ _NOT_IN_FILES)) as [|Hn]; [done|].
  destruct (dict_get (setting_name key) fields) as [f|] eqn:Ef; [|done].
  destruct (_coerce raw (fd_type f)) as [v|] eqn:Ev; [|done]. cbn [mbind result_bind] in E.
  apply IH in E as [Hg' Hs]; [|by eapply good_set, Hg; [..|by eapply coerce_fits]]. split; [done|]. intros n. specialize (Hs n).
  unfold item_of in *. rewrite filter_cons. destruct (decide _) as [Hk|Hk]; cbn [fst] in Hk.
  - rewrite fmap_cons, last_cons. destruct (last _); [done|]. exists f, v. subst n. rewrite Hs. by rewrite dict_get_set_eq.
  - destruct (last _); [done|]. rewrite Hs. by apply dict_get_set_ne.
Qed.

(** A section that is read sets exactly what its items say. *)
Lemma settings_from_spec parser section s :
  _settings_from parser section = Ok s ->
  good s /\ exists items, dict_get section parser = Some (Ok items)
    /\ forall n, match item_of n items with
                | Some raw => exists f v, dict_get n fields = Some f /\ _coerce raw (fd_type f) = Ok v /\ dict_get n s = Some v
                | None => dict_get n s = None
                end.
Proof.
  unfold _settings_from. destruct (dict_get section parser) as [[items|e]|]; [|done|done]. cbn [mbind result_bind]. intros E.
  apply settings_loop_spec in E as [Hg Hs]; [|by repeat constructor]. split; [done|]. by exists items.
Qed.

(** What a section of a file sets a field to, if it names it. *)
Definition says (parser : ini) (section n : str) : option value :=
  match dict_get section parser with
  | Some (Ok items) =>
      raw ← item_of n items; f ← dict_get n fields;
      match _coerce raw (fd_type f) with Ok v => Some v | Err _ => None end
  | _ => None
  end.

Lemma settings_says parser section s n : _settings_from parser section = Ok s -> dict_get n s = says parser section n.
Proof.
  intros (_ & items & E & Hs)%settings_from_spec. unfold says. rewrite E. specialize (Hs n).
  destruct (item_of n items) as [raw|]; [|done]. destruct Hs as (f & v & Ef & Ev & ->).
  cbn [mbind option_bind]. rewrite Ef. cbn [mbind option_bind]. by rewrite Ev.
Qed.

Definition or_else_ {A} (a b : option A) : option A := match a with Some _ => a | None => b end.

Lemma file_settings_spec parser alias s :
  file_settings parser alias = Ok s ->
  good s /\ forall n, dict_get n s
    = or_else_ (a ← alias; says parser (s_ "alias " ++ a) n) (says parser DEFAULTS_SECTION n).
Proof.
  unfold file_settings. intros E.
  destruct (if dict_mem DEFAULTS_SECTION parser then _ else _) as [d|] eqn:Ed; [|done]. cbn [mbind result_bind] in E.
  assert (good d /\ forall n, dict_get n d = says parser DEFAULTS_SECTION n) as [Hg Hd].
  { unfold dict_mem in Ed. destruct (bool_decide_reflect (is_Some (dict_get DEFAULTS_SECTION parser))) as [_|Hn].
    - split; [exact (proj1 (settings_from_spec _ _ _ Ed)) | intros n; by apply settings_says].
    - injection Ed as <-. split; [by repeat constructor|]. intros n. unfold says.
      apply eq_None_not_Some in Hn. by rewrite Hn. }
  destruct alias as [a|]; [|injection E as <-; by split]. destruct (dict_mem (s_ "alias " ++ a) parser); [|done].
  destruct (_settings_from parser (s_ "alias " ++ a)) as [e|] eqn:Ee; [|done]. injection E as <-.
  destruct (settings_from_spec _ _ _ Ee) as [Hge _]. split; [by apply good_update|]. intros n.
  rewrite dict_update_get by apply Hge. rewrite (settings_says _ _ _ n Ee), Hd. cbn [mbind option_bind]. by destruct (says parser (s_ "alias " ++ a) n).
Qed.
End Files.

Section Layers.
Variable getenv : str -> option str.
Variable expanduser lower : str -> str.
Variable isfile : str -> bool.
Variable float_ : str -> option Q.
Variable read_ini : str -> res ini.
Notation says := (says expanduser lower float_).

(** C21: a configuration made from a file that could be read, on top of any
    configuration [base] ([Config()] in the code), never takes its token from
    the file, and each of its fields is what the section of the alias says,
    or else what the [defaults] section says, or else what it is in [base].
    *)
Theorem from_file_layers base target alias parser r :
  read_ini target = Ok parser ->
  from_file getenv expanduser isfile lower float_ read_ini base (Some target) alias = Ok r ->
  exists c, r = Some c /\ c_token c = c_token base
    /\ forall n f, dict_get n fields = Some f ->
         fd_get f c = default (fd_get f base)
           (or_else_ (a ← alias; says parser (s_ "alias " ++ a) n) (says parser DEFAULTS_SECTION n)).
Proof.
  unfold from_file. intros ->. cbn [mbind result_bind]. intros E.
  destruct (file_settings _ _ _ _ _) as [x|] eqn:Hx; [|done]. injection E as <-. apply file_settings_spec in Hx as [[Hn Hg] Hs].
  destruct (Config_of_spec base x) as (c & -> & Hc); [done | by eapply Forall_impl; [exact Hg | intros ? []]|].
  exists c. split; [done|]. split; [|intros n f Hf; by rewrite (Hc n f Hf), Hs].
  assert (dict_get (s_ "token") x = None) as Ht.
  { apply dict_get_None_keys. intros ([k v] & Hk & Hin)%list_elem_of_fmap. rewrite Forall_forall in Hg.
    apply Hg in Hin as [Hin _]. apply Hin. cbn [fst] in *. rewrite <- Hk. right. left. }
  pose proof (Hc (s_ "token") _ eq_refl) as Hf. rewrite Ht in Hf. cbn [default fd_get] in Hf.
  destruct (c_token c), (c_token base); cbn in Hf; congruence.
Qed.
End Layers.

(** ** The configuration in effect

    [_current] is a context variable: each thread and task has its own value
    of it, or else the one it was created with when the module was imported. *)

Record ambient := mkAmbient { am_default : Config; am_imported : Config; am_contexts : dict Z Config }.

Definition current (t : Z) (s : ambient) : Config := default (am_imported s) (dict_get t (am_contexts s)).

Definition set_current (t : Z) (c : Config) (s : ambient) : ambient :=
  mkAmbient (am_default s) (am_imported s) (dict_set t c (am_contexts s)).

(** [_current.reset(token)]: back to the value the token remembers. *)
Definition reset (t : Z) (token : option Config) (s : ambient) : ambient :=
  mkAmbient (am_default s) (am_imported s)
    (match token with Some c => dict_set t c (am_contexts s) | None => dict_pop t (am_contexts s) end).

Definition configure (t : Z) (changes : Config -> Config) (s : ambient) : ambient * Config :=
  let d := changes (am_default s) in
  (set_current t d (mkAmbient d (am_imported s) (am_contexts s)), d).

(** [with override(...) as cfg: body]. *)
Definition override {A} (t : Z) (changes : Config -> Config) (body : Config -> st exn ambient A) : st exn ambient A := fun s =>
  let cfg := changes (current t s) in
  let '(s', r) := body cfg (set_current t cfg s) in
  (reset t (dict_get t (am_contexts s)) s', r).

(** Whatever happens in the block, the configuration after it is the one
    before it - and whatever the block configured for the process is gone from
    this thread, though it stays in the default. *)
Lemma override_restores {A} t changes (body : Config -> st exn ambient A) s :
  (forall c s, am_imported (body c s).1 = am_imported s) ->
  current t (override t changes body s).1 = current t s.
Proof.
  intros Hb. unfold override. pose proof (Hb (changes (current t s)) (set_current t (changes (current t s)) s)) as Hi.
  destruct (body _ _) as [s' r]. cbn in Hi |- *. unfold current, reset. cbn.
  destruct (dict_get t (am_contexts s)) as [c|]; [by rewrite dict_get_set_eq | by rewrite dict_get_pop_eq].
Qed.

(** [configure] says it changes the default of the whole process; another
    thread still gets the configuration of when the module was imported. *)
Theorem configure_local s t u changes :
  t <> u -> dict_get u (am_contexts s) = None ->
  current u (configure t changes s).1 = am_imported s /\ current t (configure t changes s).1 = changes (am_default s).
Proof.
  intros Hne Hu. unfold configure, set_current, current. cbn. rewrite dict_get_set_eq, dict_get_set_ne by done. by rewrite Hu.
Qed.

Lemma configure_local_witness :
  c_chunk_size (current 2 (configure 1 (fun c => c <| c_chunk_size := 7 |>)
    (mkAmbient (factory (s_ "me")) (factory (s_ "me")) [])).1) = 4194304.
Proof.
  rewrite (proj1 (configure_local (mkAmbient (factory (s_ "me")) (factory (s_ "me")) []) 1 2
    (fun c => c <| c_chunk_size := 7 |>) ltac:(lia) eq_refl)).
  reflexivity.
Defined.

(** *** A file *)

Definition demo_ini : ini :=
  [(s_ "defaults", Ok [(s_ "chunk-size", s_ "1000"); (s_ "auth_order", s_ "ztn, gsi"); (s_ "require_tls", s_ "yes")]);
   (s_ "alias eos", Ok [(s_ "chunk_size", s_ " 2000 "); (s_ "proxy", [])])].

Lemma from_file_layers_witness :
  exists c, from_file (fun _ => None) id (fun _ => false) id (fun _ => None) (fun _ => Ok demo_ini)
              (factory (s_ "me")) (Some (s_ "f")) (Some (s_ "eos")) = Ok (Some c)
    /\ VInt (c_chunk_size c) = VInt 2000 /\ VBool (c_require_tls c) = VBool true /\ VStr (c_username c) = VStr (s_ "me").
Proof.
  destruct (from_file_layers (fun _ => None) id id (fun _ => false) (fun _ => None) (fun _ => Ok demo_ini)
    (factory (s_ "me")) (s_ "f") (Some (s_ "eos")) demo_ini
    (Config_of (factory (s_ "me")) [(s_ "chunk_size", VInt 2000); (s_ "auth_order", VSeq [s_ "ztn"; s_ "gsi"]);
       (s_ "require_tls", VBool true); (s_ "proxy", VNone)])) as (c & E & _ & Hc); [done | by vm_compute|].
  exists c. split; [rewrite <- E; by vm_compute|].
  pose proof (Hc (s_ "chunk_size") _ eq_refl) as H1. pose proof (Hc (s_ "require_tls") _ eq_refl) as H2.
  pose proof (Hc (s_ "username") _ eq_refl) as H3. by split_and!; [exact H1 | exact H2 | exact H3].
Defined.
End ConfigFile.
