(* ===== verification/Machine.v ===== *)
(** * The session state machine

    src/xrd/proto/machine.py, [SessionMachine]: all protocol state of one
    connection and no I/O. Every method is a function of the machine with the
    exception it may raise; what it changed before raising stays changed.

    The authentication mechanisms are behind the [CredentialOps] interface
    (a [Credential] and the iterator [auth.select] returns). HMAC-SHA256,
    the process id, and the text of an exception are parameters. *)

From S2P Require Import Prelude PyStr Constants Errors Buffer Frames Requests Responses Sigver ConfigFile.
From Stdlib Require Import QArith.
Open Scope Z_scope.

(** Stream ids reserved for bring-up; regular traffic starts above these. *)
Definition _SID_HANDSHAKE : Z := 0.
Definition _SID_PROTOCOL : Z := 1.
Definition _SID_LOGIN : Z := 2.
Definition _SID_AUTH : Z := 3.
Definition _SID_BIND : Z := 2.
Definition _FIRST_SID : Z := 4.

Inductive State :=
| NEW | HANDSHAKE_ | PROTOCOL | TLS | LOGIN | AUTH | READY | FAILED | CLOSED | BIND.

#[export] Instance State_eq_dec : EqDecision State.
Proof. solve_decision. Defined.

(** ** Events *)

Inductive Event :=
| Negotiated (info : ProtocolInfo)
| NeedTLS (reason : string)
| Ready (session_id : bytes) (mechanism : str)
| Completed (streamid : Z) (request : Request) (data : bytes) (status : option StatusInfo)
| Chunk (streamid : Z) (request : Request) (data : bytes)
| Redirected (streamid : Z) (request : Request) (target : RedirectInfo)
| Waiting (streamid : Z) (request : Request) (seconds : Q) (message : str) (resend : bool)
| Attention (info : AttnInfo)
| Failed (streamid : option Z) (request : option Request) (error : exn)
| PathLost (pathid : Z) (reason : string)
| Disconnected (reason : string).

(** [getattr(event, "streamid", None)]. *)
Definition event_streamid (e : Event) : option Z :=
  match e with
  | Completed s _ _ _ | Chunk s _ _ | Redirected s _ _ | Waiting s _ _ _ _ => Some s
  | Failed s _ _ => s
  | _ => None
  end.

(** ** Per-stream and per-link state *)

Record Pending := mkPending {
  p_request : Request; p_frame : bytes; p_buffer : bytes; p_status : option StatusInfo;
  p_path : str; p_pathid : Z; p_path_bytes : bytes
}.

Definition pending_extend (b : bytes) (p : Pending) : Pending :=
  mkPending (p_request p) (p_frame p) (p_buffer p ++ b) (p_status p) (p_path p) (p_pathid p)
    (p_path_bytes p).
Definition pending_set_status (s : StatusInfo) (p : Pending) : Pending :=
  mkPending (p_request p) (p_frame p) (p_buffer p) (Some s) (p_path p) (p_pathid p)
    (p_path_bytes p).

(** One link's inbound cursor. *)
Record Framer := mkFramer {
  f_buffer : bytes; f_header : option ResponseHeader; f_need_trailer : Z; f_trailer_for : option Z
}.

Definition Framer_new : Framer := mkFramer [] None 0 None.

(** [_server_error]: the exception a [kXR_error] on a request becomes. *)
Definition _server_error (info : ErrorInfo) (path : str) : exn :=
  let where_ := match path with [] => None | _ => Some path end in
  match raise_for_status (ei_code info) (ei_message info) where_ with
  | Err e => e
  | Ok _ => ServerExn ServerError (ei_code info) (ei_message info) where_
  end.

(** ** Credentials

    A credential is stateful, so its methods return its next state. The
    iterator may write in the dictionary of rejections as it advances.
    [cred_bound] bounds how many credentials it has left. *)

Class CredentialOps (C I : Type) := {
  cred_name : C -> str;
  cred_initial : C -> C * res bytes;
  cred_step : C -> bytes -> C * res (option bytes);
  cred_session_key : C -> option bytes;
  cred_select : str -> Config -> str -> str -> I;
  cred_next : I -> dict str str -> I * dict str str * res (option C);
  cred_bound : I -> nat
}.

(** What the ladder promises: each credential it yields is one fewer to come. *)
Class CredentialLaws (C I : Type) `{CredentialOps C I} := {
  cred_next_bound : forall i d i' d' c,
    cred_next i d = (i', d', Ok (Some c)) -> (cred_bound i' < cred_bound i)%nat
}.

Module SessionMachine.
Section Machine.
Context {C I : Type} `{CredentialOps C I}.
Variable hmac_sha256 : bytes -> bytes -> bytes.
Variable getpid : Z.
Variable describe_exn : exn -> str.

Record machine := mkMachine {
  host : str; port : Z; config : Config; username : str; want_tls : bool; bind_to : bytes;
  m_pathid : Z; state : State; protocol_info : ProtocolInfo; session_id : bytes;
  mechanism : str; signer : option Signer.t; tls_active : bool; out : bytes;
  out_path : dict Z bytes; events : list Event; pending : dict Z Pending; free : list Z;
  next_sid : Z; framers : dict Z Framer; credentials : option I; credential : option C;
  auth_rejected : dict str str; offered : list str
}.

(** One assignment [self.field = value] each. *)
Definition set_m_pathid (v : Z) (m : machine) : machine :=
  mkMachine (host m) (port m) (config m) (username m) (want_tls m) (bind_to m) v (state m)
    (protocol_info m) (session_id m) (mechanism m) (signer m) (tls_active m) (out m)
    (out_path m) (events m) (pending m) (free m) (next_sid m) (framers m) (credentials m)
    (credential m) (auth_rejected m) (offered m).
Definition set_state (v : State) (m : machine) : machine :=
  mkMachine (host m) (port m) (config m) (username m) (want_tls m) (bind_to m) (m_pathid
    m) v (protocol_info m) (session_id m) (mechanism m) (signer m) (tls_active m) (out m)
    (out_path m) (events m) (pending m) (free m) (next_sid m) (framers m) (credentials m)
    (credential m) (auth_rejected m) (offered m).
Definition set_protocol_info (v : ProtocolInfo) (m : machine) : machine :=
  mkMachine (host m) (port m) (config m) (username m) (want_tls m) (bind_to m) (m_pathid
    m) (state m) v (session_id m) (mechanism m) (signer m) (tls_active m) (out m)
    (out_path m) (events m) (pending m) (free m) (next_sid m) (framers m) (credentials m)
    (credential m) (auth_rejected m) (offered m).
Definition set_session_id (v : bytes) (m : machine) : machine :=
  mkMachine (host m) (port m) (config m) (username m) (want_tls m) (bind_to m) (m_pathid
    m) (state m) (protocol_info m) v (mechanism m) (signer m) (tls_active m) (out m)
    (out_path m) (events m) (pending m) (free m) (next_sid m) (framers m) (credentials m)
    (credential m) (auth_rejected m) (offered m).
Definition set_mechanism (v : str) (m : machine) : machine :=
  mkMachine (host m) (port m) (config m) (username m) (want_tls m) (bind_to m) (m_pathid
    m) (state m) (protocol_info m) (session_id m) v (signer m) (tls_active m) (out m)
    (out_path m) (events m) (pending m) (free m) (next_sid m) (framers m) (credentials m)
    (credential m) (auth_rejected m) (offered m).
Definition set_signer (v : option Signer.t) (m : machine) : machine :=
  mkMachine (host m) (port m) (config m) (username m) (want_tls m) (bind_to m) (m_pathid
    m) (state m) (protocol_info m) (session_id m) (mechanism m) v (tls_active m) (out m)
    (out_path m) (events m) (pending m) (free m) (next_sid m) (framers m) (credentials m)
    (credential m) (auth_rejected m) (offered m).
Definition set_tls_active (v : bool) (m : machine) : machine :=
  mkMachine (host m) (port m) (config m) (username m) (want_tls m) (bind_to m) (m_pathid
    m) (state m) (protocol_info m) (session_id m) (mechanism m) (signer m) v (out m)
    (out_path m) (events m) (pending m) (free m) (next_sid m) (framers m) (credentials m)
    (credential m) (auth_rejected m) (offered m).
Definition set_out (v : bytes) (m : machine) : machine :=
  mkMachine (host m) (port m) (config m) (username m) (want_tls m) (bind_to m) (m_pathid
    m) (state m) (protocol_info m) (session_id m) (mechanism m) (signer m) (tls_active m)
    v (out_path m) (events m) (pending m) (free m) (next_sid m) (framers m) (credentials
    m) (credential m) (auth_rejected m) (offered m).
Definition set_out_path (v : dict Z bytes) (m : machine) : machine :=
  mkMachine (host m) (port m) (config m) (username m) (want_tls m) (bind_to m) (m_pathid
    m) (state m) (protocol_info m) (session_id m) (mechanism m) (signer m) (tls_active m)
    (out m) v (events m) (pending m) (free m) (next_sid m) (framers m) (credentials m)
    (credential m) (auth_rejected m) (offered m).
Definition set_events (v : list Event) (m : machine) : machine :=
  mkMachine (host m) (port m) (config m) (username m) (want_tls m) (bind_to m) (m_pathid
    m) (state m) (protocol_info m) (session_id m) (mechanism m) (signer m) (tls_active m)
    (out m) (out_path m) v (pending m) (free m) (next_sid m) (framers m) (credentials m)
    (credential m) (auth_rejected m) (offered m).
Definition set_pending (v : dict Z Pending) (m : machine) : machine :=
  mkMachine (host m) (port m) (config m) (username m) (want_tls m) (bind_to m) (m_pathid
    m) (state m) (protocol_info m) (session_id m) (mechanism m) (signer m) (tls_active m)
    (out m) (out_path m) (events m) v (free m) (next_sid m) (framers m) (credentials m)
    (credential m) (auth_rejected m) (offered m).
Definition set_free (v : list Z) (m : machine) : machine :=
  mkMachine (host m) (port m) (config m) (username m) (want_tls m) (bind_to m) (m_pathid
    m) (state m) (protocol_info m) (session_id m) (mechanism m) (signer m) (tls_active m)
    (out m) (out_path m) (events m) (pending m) v (next_sid m) (framers m) (credentials m)
    (credential m) (auth_rejected m) (offered m).
Definition set_next_sid (v : Z) (m : machine) : machine :=
  mkMachine (host m) (port m) (config m) (username m) (want_tls m) (bind_to m) (m_pathid
    m) (state m) (protocol_info m) (session_id m) (mechanism m) (signer m) (tls_active m)
    (out m) (out_path m) (events m) (pending m) (free m) v (framers m) (credentials m)
    (credential m) (auth_rejected m) (offered m).
Definition set_framers (v : dict Z Framer) (m : machine) : machine :=
  mkMachine (host m) (port m) (config m) (username m) (want_tls m) (bind_to m) (m_pathid
    m) (state m) (protocol_info m) (session_id m) (mechanism m) (signer m) (tls_active m)
    (out m) (out_path m) (events m) (pending m) (free m) (next_sid m) v (credentials m)
    (credential m) (auth_rejected m) (offered m).
Definition set_credentials (v : option I) (m : machine) : machine :=
  mkMachine (host m) (port m) (config m) (username m) (want_tls m) (bind_to m) (m_pathid
    m) (state m) (protocol_info m) (session_id m) (mechanism m) (signer m) (tls_active m)
    (out m) (out_path m) (events m) (pending m) (free m) (next_sid m) (framers m) v
    (credential m) (auth_rejected m) (offered m).
Definition set_credential (v : option C) (m : machine) : machine :=
  mkMachine (host m) (port m) (config m) (username m) (want_tls m) (bind_to m) (m_pathid
    m) (state m) (protocol_info m) (session_id m) (mechanism m) (signer m) (tls_active m)
    (out m) (out_path m) (events m) (pending m) (free m) (next_sid m) (framers m)
    (credentials m) v (auth_rejected m) (offered m).
Definition set_auth_rejected (v : dict str str) (m : machine) : machine :=
  mkMachine (host m) (port m) (config m) (username m) (want_tls m) (bind_to m) (m_pathid
    m) (state m) (protocol_info m) (session_id m) (mechanism m) (signer m) (tls_active m)
    (out m) (out_path m) (events m) (pending m) (free m) (next_sid m) (framers m)
    (credentials m) (credential m) v (offered m).
Definition set_offered (v : list str) (m : machine) : machine :=
  mkMachine (host m) (port m) (config m) (username m) (want_tls m) (bind_to m) (m_pathid
    m) (state m) (protocol_info m) (session_id m) (mechanism m) (signer m) (tls_active m)
    (out m) (out_path m) (events m) (pending m) (free m) (next_sid m) (framers m)
    (credentials m) (credential m) (auth_rejected m) v.

Notation M := (st exn machine).

(** [SessionMachine(...)]. *)
Definition make (host : str) (port : Z) (config : Config) (credentials : option I)
    (username : str) (want_tls : bool) (bind_to : bytes) : machine :=
  mkMachine host port config
    (match username with [] => c_username config | _ => username end)
    (want_tls || c_require_tls config) bind_to
    0 NEW ProtocolInfo_default [] [] None false [] [] [] [] [] _FIRST_SID
    [(0, Framer_new)] credentials None [] [].

Definition emit (e : Event) : M unit := modify (fun m => set_events (events m ++ [e]) m).
Definition send_out (b : bytes) : M unit := modify (fun m => set_out (out m ++ b) m).

(** [self._out_path.setdefault(p, bytearray()).extend(b)]. *)
Definition send_path (p : Z) (b : bytes) : M unit :=
  modify (fun m => set_out_path (dict_set p (default [] (dict_get p (out_path m)) ++ b)
                                   (out_path m)) m).

(** *** Outbound *)

Definition start : M unit :=
  m ← get;
  if negb (bool_decide (state m = NEW)) then raise ProtocolError
  else
    let flags := Z.lor (Z.lor kXR_secreqs kXR_ableTLS) (if want_tls m then kXR_wantTLS else 0) in
    send_out HANDSHAKE ≫= fun _ =>
    f ← lift (encode (Protocol_init (Some flags)) _SID_PROTOCOL);
    send_out f ≫= fun _ =>
    modify (set_state HANDSHAKE_).

Definition data_to_send : M bytes :=
  m ← get; modify (set_out []) ≫= fun _ => mret (out m).

Definition path_data_to_send (p : Z) : M bytes :=
  m ← get;
  modify (set_out_path (dict_pop p (out_path m))) ≫= fun _ =>
  mret (default [] (dict_get p (out_path m))).

Definition has_data_to_send (m : machine) : bool := negb (bool_decide (out m = [])).

Definition _acquire_sid : M Z :=
  m ← get;
  match last (free m) with
  | Some sid => modify (set_free (take (length (free m) - 1) (free m))) ≫= fun _ => mret sid
  | None =>
      let sid := next_sid m in
      let nxt := if 0xFFFF <? sid + 1 then _FIRST_SID else sid + 1 in
      modify (set_next_sid nxt) ≫= fun _ =>
      if dict_mem sid (pending m) then raise ProtocolError else mret sid
  end.

(** [self.signer.sign(frame)], when there is a signer. *)
Definition sign_frame (frame : bytes) : M (option (Z * bytes)) := fun m =>
  match signer m with
  | None => (m, Ok None)
  | Some s => let '(s', r) := Signer.sign hmac_sha256 s frame in (set_signer (Some s') m, r)
  end.

Definition _send (request : Request) (sid : Z) (path : str) (arrive_on_path : bool) : M unit :=
  frame ← lift (encode request sid);
  sg ← sign_frame frame;
  frame ← match sg with
          | None => mret frame
          | Some (seqno, mac) =>
              pre ← lift (encode (Sigver_init (opcode request) seqno mac None false) sid);
              mret (pre ++ frame)
          end;
  let data := path_data request in
  modify (fun m => set_pending (dict_set sid
            (mkPending request frame [] None path (pathid request) data) (pending m)) m) ≫= fun _ =>
  if arrive_on_path && negb (pathid request =? 0) then
    send_path (pathid request) (frame ++ data)
  else
    send_out frame ≫= fun _ =>
    match data with [] => mret tt | _ => send_path (pathid request) data end.

Definition submit (request : Request) (path : str) (arrive_on_path : bool) : M Z :=
  m ← get;
  if negb (bool_decide (state m = READY)) then raise ProtocolError
  else
    sid ← _acquire_sid;
    _send request sid path arrive_on_path ≫= fun _ => mret sid.

Definition resume (streamid : Z) : M unit :=
  m ← get;
  match dict_get streamid (pending m) with
  | None => raise ProtocolError
  | Some p =>
      send_out (p_frame p) ≫= fun _ =>
      match p_path_bytes p with [] => mret tt | b => send_path (p_pathid p) b end
  end.

(** [release]: abandon a stream; its id goes back for re-use. *)
Definition release_ (streamid : Z) (m : machine) : machine :=
  match dict_get streamid (pending m) with
  | None => m
  | Some _ =>
      let m := set_pending (dict_pop streamid (pending m)) m in
      if _FIRST_SID <=? streamid then set_free (free m ++ [streamid]) m else m
  end.
Definition release (streamid : Z) : M unit := modify (release_ streamid).

Definition close (graceful : bool) : M unit :=
  m ← get;
  (if bool_decide (state m = READY) && graceful && negb (bool_decide (session_id m = [])) then
     sid ← _acquire_sid;
     f ← lift (encode (EndSession (session_id m)) sid);
     send_out f
   else mret tt) ≫= fun _ =>
  modify (set_state CLOSED) ≫= fun _ =>
  emit (Disconnected "closed by client").

(** *** Bring-up *)

Definition _fail (error : exn) : M unit :=
  modify (set_state FAILED) ≫= fun _ => emit (Failed None None error).

Definition _begin_login : M unit :=
  m ← get;
  match bind_to m with
  | [] =>
      modify (set_state LOGIN) ≫= fun _ =>
      f ← lift (encode (Login_init getpid (username m) None None []) _SID_LOGIN); send_out f
  | _ =>
      modify (set_state BIND) ≫= fun _ =>
      f ← lift (encode (Bind (bind_to m)) _SID_BIND); send_out f
  end.

Definition tls_established : M unit :=
  m ← get;
  if negb (bool_decide (state m = TLS)) then raise ProtocolError
  else modify (set_tls_active true) ≫= fun _ => _begin_login.

(** The capability bits that oblige the client to encrypt. *)
Definition tls_demanded (flags : Z) : bool :=
  negb (Z.land flags (Z.lor (Z.lor (Z.lor kXR_gotoTLS kXR_tlsLogin) kXR_tlsSess) kXR_tlsData) =? 0).

Definition _after_protocol : M unit :=
  m ← get;
  let flags := pi_flags (protocol_info m) in
  if want_tls m || tls_demanded flags then
    if Z.land flags kXR_haveTLS =? 0 then _fail ProtocolError
    else
      modify (set_state TLS) ≫= fun _ =>
      emit (NeedTLS (if tls_demanded flags then "server requested TLS" else "client policy"))
  else _begin_login.

Definition _become_ready : M unit :=
  modify (set_state READY) ≫= fun _ =>
  m ← get;
  (match credential m ≫= cred_session_key with
   | None | Some [] => mret tt
   | Some key =>
       modify (set_signer (Some (Signer.make key (pi_security_level (protocol_info m))
                                   (pi_security_overrides (protocol_info m)))))
   end) ≫= fun _ =>
  emit (Ready (session_id m) (mechanism m)).

(** [self._out += encode(r.Auth(cred.name, blob), _SID_AUTH)]. *)
Definition send_auth (name : str) (blob : bytes) : M unit :=
  a ← lift (Auth_init name blob); f ← lift (encode a _SID_AUTH); send_out f.

(** [for cred in self._credentials]; [fuel] is what the ladder has left. *)
Fixpoint try_credentials (fuel : nat) : M unit :=
  match fuel with
  | O => m ← get; _fail (NoMechanismError (offered m) (auth_rejected m))
  | S fuel =>
      m ← get;
      match credentials m with
      | None => _fail (NoMechanismError (offered m) (auth_rejected m))
      | Some it =>
          let '(it', d', r) := cred_next it (auth_rejected m) in
          modify (fun m => set_auth_rejected d' (set_credentials (Some it') m)) ≫= fun _ =>
          c ← lift r;
          match c with
          | None => m ← get; _fail (NoMechanismError (offered m) (auth_rejected m))
          | Some c =>
              let '(c', blob) := cred_initial c in
              match blob with
              | Err e =>
                  modify (fun m => set_auth_rejected
                    (dict_set (cred_name c) (describe_exn e) (auth_rejected m)) m) ≫= fun _ =>
                  try_credentials fuel
              | Ok b =>
                  modify (set_credential (Some c')) ≫= fun _ =>
                  modify (set_mechanism (cred_name c)) ≫= fun _ =>
                  send_auth (cred_name c) b
              end
          end
      end
  end.

Definition _next_credential (sec : str) : M unit :=
  m ← get;
  let it := match credentials m with
            | Some it => it
            | None => cred_select sec (config m) (username m) (host m)
            end in
  modify (set_credentials (Some it)) ≫= fun _ =>
  try_credentials (S (cred_bound it)).

Definition _auth_step (challenge : bytes) : M unit :=
  m ← get;
  match credential m with
  | None => _fail AuthenticationError
  | Some cred =>
      let '(cred', r) := cred_step cred challenge in
      modify (set_credential (Some cred')) ≫= fun _ =>
      (match r with
       | Err e => modify (fun m => set_auth_rejected
           (dict_set (cred_name cred) (describe_exn e) (auth_rejected m)) m)
       | Ok _ => mret tt
       end) ≫= fun _ =>
      match r with
      | Ok (Some blob) => send_auth (cred_name cred) blob
      | _ =>
          modify (fun m => set_auth_rejected (dict_setdefault (cred_name cred)
            (s_ "server asked for another round the mechanism cannot answer")
            (auth_rejected m)) m) ≫= fun _ =>
          _next_credential []
      end
  end.

Definition _bringup (header : ResponseHeader) (body : bytes) : M unit :=
  let status := rh_status header in
  if status =? kXR_error then
    info ← lift (parse_error body);
    _fail (ServerExn ServerError (ei_code info) (ei_message info) None)
  else if negb ((status =? kXR_ok) || (status =? kXR_authmore)) then _fail ProtocolError
  else
    m ← get;
    match state m with
    | HANDSHAKE_ => modify (set_state PROTOCOL)
    | PROTOCOL =>
        info ← lift (parse_protocol body);
        modify (set_protocol_info info) ≫= fun _ =>
        emit (Negotiated info) ≫= fun _ => _after_protocol
    | BIND =>
        p ← lift (parse_bind body);
        modify (set_m_pathid p) ≫= fun _ => _become_ready
    | LOGIN =>
        login ← lift (parse_login body);
        modify (set_session_id (li_sessid login)) ≫= fun _ =>
        modify (set_offered (mechanisms login)) ≫= fun _ =>
        match li_sec login with
        | [] => _become_ready
        | sec => modify (set_state AUTH) ≫= fun _ => _next_credential sec
        end
    | _ => if status =? kXR_authmore then _auth_step body else _become_ready
    end.

(** *** Responses *)

Definition set_pending_at (sid : Z) (f : Pending -> Pending) (m : machine) : machine :=
  match dict_get sid (pending m) with
  | Some p => set_pending (dict_set sid (f p) (pending m)) m
  | None => m
  end.

Definition _on_status_data (sid : Z) (data : bytes) : M unit :=
  m ← get;
  match dict_get sid (pending m) with
  | Some p =>
      match p_status p with
      | Some info =>
          if is_final info then
            release sid ≫= fun _ =>
            emit (Completed sid (p_request p) (p_buffer p ++ data) (Some info))
          else
            modify (set_pending_at sid (pending_extend data)) ≫= fun _ =>
            emit (Chunk sid (p_request p) data)
      | None => mret tt
      end
  | None => mret tt
  end.

Definition framer_of (p : Z) (m : machine) : Framer := default Framer_new (dict_get p (framers m)).
Definition set_framer (p : Z) (f : Framer) (m : machine) : machine :=
  set_framers (dict_set p f (framers m)) m.

Definition _on_response (header : ResponseHeader) (body : bytes) (p : Pending) (link : Z)
    : M unit :=
  let sid := rh_streamid header in
  let status := rh_status header in
  if status =? kXR_ok then
    release sid ≫= fun _ =>
    emit (Completed sid (p_request p) (p_buffer p ++ body) (p_status p))
  else if status =? kXR_oksofar then
    modify (set_pending_at sid (pending_extend body)) ≫= fun _ =>
    emit (Chunk sid (p_request p) body)
  else if status =? kXR_error then
    info ← lift (parse_error body);
    release sid ≫= fun _ =>
    emit (Failed (Some sid) (Some (p_request p)) (_server_error info (p_path p)))
  else if status =? kXR_redirect then
    t ← lift (parse_redirect body); emit (Redirected sid (p_request p) t)
  else if status =? kXR_wait then
    w ← lift (parse_wait body);
    m ← get;
    emit (Waiting sid (p_request p) (qmin (inject_Z (wi_seconds w)) (c_wait_cap (config m)))
            (wi_message w) true)
  else if status =? kXR_waitresp then
    w ← lift (parse_waitresp body);
    emit (Waiting sid (p_request p) (inject_Z (wi_seconds w)) [] false)
  else if status =? kXR_status then
    info ← lift (parse_status body);
    modify (set_pending_at sid (pending_set_status info)) ≫= fun _ =>
    if negb (si_dlen info =? 0) then
      modify (fun m =>
        let f := framer_of link m in
        set_framer link (mkFramer (f_buffer f) (f_header f) (si_dlen info) (Some sid)) m)
    else _on_status_data sid []
  else
    release sid ≫= fun _ => emit (Failed (Some sid) (Some (p_request p)) ProtocolError).

(** A [kXR_asynresp] carries a whole response; anything else is a notice. *)
Definition _unwrap_attn (body : bytes) : M (option (ResponseHeader * bytes)) :=
  info ← lift (parse_attn body);
  if (ai_action info =? kXR_asynresp) && (16 <=? zlen body) then
    h ← lift (decode_header (slice body 8 16)); mret (Some (h, slice_from body 16))
  else emit (Attention info) ≫= fun _ => mret None.

Definition in_bringup (s : State) : bool :=
  match s with HANDSHAKE_ | PROTOCOL | LOGIN | AUTH | BIND => true | _ => false end.

(** The part of [_dispatch] after a [kXR_attn] has been unwrapped. *)
Definition dispatch_to (header : ResponseHeader) (body : bytes) (link : Z) : M unit :=
  m ← get;
  if in_bringup (state m) then _bringup header body
  else match dict_get (rh_streamid header) (pending m) with
       | None => mret tt
       | Some p => _on_response header body p link
       end.

Definition _dispatch (header : ResponseHeader) (body : bytes) (link : Z) : M unit :=
  if rh_status header =? kXR_attn then
    inner ← _unwrap_attn body;
    match inner with
    | None => mret tt
    | Some (h, b) => dispatch_to h b link
    end
  else dispatch_to header body link.

(** *** Framing *)

(** One turn of [_parse]'s loop: [true] to go round again. *)
Definition parse_step (link : Z) : M bool :=
  m ← get;
  let f := framer_of link m in
  if negb (f_need_trailer f =? 0) then
    if zlen (f_buffer f) <? f_need_trailer f then mret false
    else
      let data := slice_to (f_buffer f) (f_need_trailer f) in
      modify (set_framer link
        (mkFramer (slice_from (f_buffer f) (f_need_trailer f)) (f_header f) 0 None)) ≫= fun _ =>
      match f_trailer_for f with
      | None => raise AssertionError
      | Some sid => _on_status_data sid data ≫= fun _ => mret true
      end
  else
    h ← match f_header f with
        | Some h => mret (Some h)
        | None =>
            if zlen (f_buffer f) <? RESPONSE_HDRLEN then mret None
            else
              h ← lift (decode_header (slice_to (f_buffer f) RESPONSE_HDRLEN));
              modify (set_framer link (mkFramer (slice_from (f_buffer f) RESPONSE_HDRLEN) (Some h)
                        (f_need_trailer f) (f_trailer_for f))) ≫= fun _ =>
              mret (Some h)
        end;
    match h with
    | None => mret false
    | Some h =>
        m ← get;
        let f := framer_of link m in
        if zlen (f_buffer f) <? rh_dlen h then mret false
        else
          let body := slice_to (f_buffer f) (rh_dlen h) in
          modify (set_framer link (mkFramer (slice_from (f_buffer f) (rh_dlen h)) None
                    (f_need_trailer f) (f_trailer_for f))) ≫= fun _ =>
          _dispatch h body link ≫= fun _ => mret true
    end.

Fixpoint parse_loop (fuel : nat) (link : Z) : M unit :=
  match fuel with
  | O => mret tt
  | S fuel => again ← parse_step link; if (again : bool) then parse_loop fuel link else mret tt
  end.

(** Every turn that goes round again makes this smaller. *)
Definition parse_measure (f : Framer) : nat :=
  (2 * length (f_buffer f) + (if f_header f then 2 else 0)
   + (if (f_need_trailer f =? 0)%Z then 0 else 1))%nat.

Definition _parse (link : Z) : M unit :=
  m ← get; parse_loop (S (parse_measure (framer_of link m))) link.

(** *** End of a link *)

Definition fail_all (reason : exn) (ps : dict Z Pending) : list Event :=
  map (fun kv => Failed (Some kv.1) (Some (p_request kv.2)) reason) ps.

Definition _on_eof : M unit :=
  m ← get;
  if bool_decide (state m = CLOSED) || bool_decide (state m = FAILED) then mret tt
  else
    modify (set_state CLOSED) ≫= fun _ =>
    modify (fun m => set_events (events m ++ fail_all ConnectionError (pending m)) m) ≫= fun _ =>
    modify (set_pending []) ≫= fun _ =>
    emit (Disconnected "connection closed by peer").

(** The streams routed over a data path, in the order they were queued. *)
Definition on_path (p : Z) (ps : dict Z Pending) : dict Z Pending :=
  filter (fun kv => p_pathid kv.2 = p) ps.

Definition forget_path (p : Z) : M unit :=
  modify (fun m =>
    let m := foldl (fun m sid => release_ sid m) m (dict_keys (on_path p (pending m))) in
    set_out_path (dict_pop p (out_path m)) (set_framers (dict_pop p (framers m)) m)).

Definition _on_path_eof (p : Z) : M unit :=
  modify (fun m =>
    set_events (events m ++ fail_all ConnectionError (on_path p (pending m))) m) ≫= fun _ =>
  forget_path p ≫= fun _ =>
  emit (PathLost p ("data path " +:+ pretty p +:+ " closed by peer")).

(** Feed bytes from one link; [None] or [b""] is its end of file. *)
Definition receive_data (data : option bytes) (link : Z) : M unit :=
  modify (fun m => set_framers (dict_setdefault link Framer_new (framers m)) m) ≫= fun _ =>
  match data with
  | None | Some [] => if link =? 0 then _on_eof else _on_path_eof link
  | Some b =>
      modify (fun m =>
        let f := framer_of link m in
        set_framer link (mkFramer (f_buffer f ++ b) (f_header f) (f_need_trailer f)
          (f_trailer_for f)) m) ≫= fun _ =>
      _parse link
  end.

Definition next_event : M (option Event) :=
  m ← get;
  match events m with
  | [] => mret None
  | e :: es => modify (set_events es) ≫= fun _ => mret (Some e)
  end.

(** [list(machine.events())]. *)
Definition drain_events : M (list Event) :=
  m ← get; modify (set_events []) ≫= fun _ => mret (events m).

Definition in_flight (m : machine) : Z := zlen (pending m).
End Machine.
End SessionMachine.

(** Walk through a method, leaving the assignments to [tac] and the calls to
    the hint database. *)
Ltac m_preserves tac :=
  repeat match goal with
  | |- preserves _ (get ≫= _) => apply preserves_get_all; intros
  | |- preserves _ (_ ≫= _) => apply preserves_bind; [|intros]
  | |- preserves _ (lift _) => apply preserves_lift
  | |- preserves _ (raise _) => apply preserves_raise
  | |- preserves _ (mret _) => apply preserves_ret
  | |- preserves _ (SessionMachine._fail _) => unfold SessionMachine._fail
  | |- preserves _ (SessionMachine.send_auth _ _) => unfold SessionMachine.send_auth
  | |- preserves _ _ => solve [eauto with xrd]
  | |- preserves _ (modify _) => apply preserves_modify; intros; tac
  | |- preserves _ (SessionMachine.emit _) => apply preserves_modify; intros; tac
  | |- preserves _ (SessionMachine.send_out _) => apply preserves_modify; intros; tac
  | |- context [if ?b then _ else _] => destruct b
  | |- context [match ?b with _ => _ end] => destruct b
  end.

(** ** Concrete sessions

    A client with no authentication mechanism, brought up against a server
    that asks for none: the machines the witnesses of the general theorems
    are evaluated on. *)
Module MachineScenarios.
Import SessionMachine.

(** An installation with no mechanism to offer. *)
#[export] Instance NoCredentials : CredentialOps unit unit := {
  cred_name _ := [];
  cred_initial c := (c, Ok []);
  cred_step c _ := (c, Ok None);
  cred_session_key _ := None;
  cred_select _ _ _ _ := tt;
  cred_next i d := (i, d, Ok None);
  cred_bound _ := O
}.

#[export] Instance NoCredentials_laws : CredentialLaws unit unit.
Proof. split. intros ? ? ? ? ? [=]. Qed.

Definition demo_config : Config :=
  Eval vm_compute in let c := factory (s_ "me") in
  let c := c <| c_retry_backoff := 0%Q |> in
  c.

Definition demo_hmac (key msg : bytes) : bytes := take 32 (key ++ msg ++ replicate 32 x00).
Definition demo_pid : Z := 4242.
Definition demo_text (e : exn) : str := s_ "failed".

Notation demo_machine := (@machine unit unit).

Definition demo_new : demo_machine :=
  make (s_ "eos.example.org") 1094 demo_config None [] false [].

Definition demo_receive (b : bytes) (m : demo_machine) : demo_machine :=
  (receive_data demo_pid demo_text (Some b) 0 m).1.

(** What a server with no security answers to the bring-up. *)
Definition demo_handshake : bytes := response_frame 0 kXR_ok (be_enc 4 0x520 ++ be_enc 4 1).
Definition demo_protocol : bytes := response_frame 1 kXR_ok (be_enc 4 0x520 ++ be_enc 4 kXR_isServer).
Definition demo_login : bytes := response_frame 2 kXR_ok (replicate 16 (z2b 7)).

Definition demo_ready : demo_machine :=
  demo_receive demo_login (demo_receive demo_protocol (demo_receive demo_handshake (start demo_new).1)).

Example demo_ready_state : state demo_ready = READY.
Proof. vm_compute. reflexivity. Qed.

Definition demo_read (m : demo_machine) (pathid : Z) (arrive : bool) : demo_machine :=
  (submit demo_hmac (Read (be_enc 4 1) 0 100 pathid) [] arrive m).1.

(** Two requests in flight, on streams 4 and 5. *)
Definition demo_busy : demo_machine := demo_read (demo_read demo_ready 0 false) 0 false.

Example demo_busy_pending : dict_keys (pending demo_busy) = [4; 5].
Proof. vm_compute. reflexivity. Qed.

(** The same session with a signing key, at the level that covers everything. *)
Definition demo_signer : Signer.t := Signer.make (replicate 32 (z2b 9)) 4 [].
Definition demo_signed : demo_machine := set_signer (Some demo_signer) demo_ready.

Lemma demo_signed_signer : signer demo_signed = Some demo_signer.
Proof. reflexivity. Qed.
End MachineScenarios.
