(* ===== verification/MachineFraming.v ===== *)
(** * Framing: the machine does not care how the bytes were cut

    The inbound half of [SessionMachine]: [_parse] terminates, and feeding a
    link in two pieces is feeding it in one. *)

From S2P Require Import Prelude PyStr Constants Errors Buffer Frames Requests Responses Sigver ConfigFile Machine.
Import MachineScenarios.
From Stdlib Require Import QArith.
Open Scope Z_scope.
Import SessionMachine.

Section Framing.
Context {C I : Type} `{CredentialOps C I}.
Variable getpid : Z.
Variable describe_exn : exn -> str.

Notation machine := (@machine C I).
Notation M := (st exn machine).
Notation dispatch := (_dispatch getpid describe_exn).
Notation step := (parse_step getpid describe_exn).
Notation loop := (parse_loop getpid describe_exn).
Notation parse := (_parse getpid describe_exn).
Notation receive := (receive_data getpid describe_exn).
Implicit Types (m : machine) (link : Z) (b : bytes).

(** More bytes at the end of one link's buffer. *)
Definition grow link b m : machine :=
  let f := framer_of link m in
  set_framer link (mkFramer (f_buffer f ++ b) (f_header f) (f_need_trailer f) (f_trailer_for f)) m.

Lemma framer_of_set link f m : framer_of link (set_framer link f m) = f.
Proof. unfold framer_of, set_framer; simpl. by rewrite dict_get_set_eq. Qed.

Lemma set_framer_set link f f' m : set_framer link f (set_framer link f' m) = set_framer link f m.
Proof. unfold set_framer, set_framers; simpl. by rewrite dict_set_set. Qed.

Lemma framer_of_grow link b m :
  framer_of link (grow link b m)
  = let f := framer_of link m in
    mkFramer (f_buffer f ++ b) (f_header f) (f_need_trailer f) (f_trailer_for f).
Proof. apply framer_of_set. Qed.

Lemma set_framer_grow link f b m : set_framer link f (grow link b m) = set_framer link f m.
Proof. unfold grow. by rewrite set_framer_set. Qed.

Lemma grow_set_framer link f b m :
  grow link b (set_framer link f m)
  = set_framer link (mkFramer (f_buffer f ++ b) (f_header f) (f_need_trailer f)
                       (f_trailer_for f)) m.
Proof. unfold grow. by rewrite framer_of_set, set_framer_set. Qed.

(** *** Handlers do not look at the buffer *)

Ltac comm :=
  repeat match goal with
  | |- commutes _ (get ≫= _) => apply commutes_get; [intros; reflexivity | intros]
  | |- commutes _ (_ ≫= _) => apply commutes_bind; [|intros]
  | |- commutes _ (modify _) => apply commutes_modify; intros; reflexivity
  | |- commutes _ (lift _) => apply commutes_lift
  | |- commutes _ (raise _) => apply commutes_raise
  | |- commutes _ (mret _) => apply commutes_ret
  | |- commutes _ (emit _) => apply commutes_modify; intros; reflexivity
  | |- commutes _ (send_out _) => apply commutes_modify; intros; reflexivity
  | |- commutes _ (_fail _) => unfold _fail
  | |- commutes _ (send_auth _ _) => unfold send_auth
  | |- commutes _ _ => progress eauto with xrd
  | |- context [if ?b then _ else _] => destruct b
  | |- context [match ?b with _ => _ end] => destruct b
  end.

Lemma release_grow link b sid : commutes (grow link b) (release sid : M unit).
Proof.
  apply commutes_modify. intros m. unfold release_.
  change (pending (grow link b m)) with (pending m).
  destruct (dict_get sid (pending m)); [|done]. by case_goal.
Qed.

Lemma begin_login_grow link b : commutes (grow link b) (_begin_login getpid : M unit).
Proof. unfold _begin_login. comm. Qed.

Lemma become_ready_grow link b : commutes (grow link b) (_become_ready : M unit).
Proof. unfold _become_ready. comm. Qed.
Hint Resolve release_grow begin_login_grow become_ready_grow : xrd.

Lemma try_credentials_grow link b n :
  commutes (grow link b) (try_credentials describe_exn n : M unit).
Proof. induction n as [|n IH]; simpl; comm; auto. Qed.
Hint Resolve try_credentials_grow : xrd.

Lemma next_credential_grow link b sec :
  commutes (grow link b) (_next_credential describe_exn sec : M unit).
Proof. unfold _next_credential. comm. Qed.
Hint Resolve next_credential_grow : xrd.

Lemma auth_step_grow link b c :
  commutes (grow link b) (_auth_step describe_exn c : M unit).
Proof. unfold _auth_step. comm. Qed.

Lemma after_protocol_grow link b : commutes (grow link b) (_after_protocol getpid : M unit).
Proof. unfold _after_protocol. comm. Qed.
Hint Resolve auth_step_grow after_protocol_grow : xrd.

Lemma bringup_grow link b h body :
  commutes (grow link b) (_bringup getpid describe_exn h body : M unit).
Proof. unfold _bringup. comm. Qed.

Lemma set_pending_at_grow link b sid f :
  commutes (grow link b) (modify (set_pending_at sid f) : M unit).
Proof.
  apply commutes_modify. intros m. unfold set_pending_at.
  change (pending (grow link b m)) with (pending m). by destruct (dict_get sid (pending m)).
Qed.
Hint Resolve bringup_grow set_pending_at_grow : xrd.

Lemma on_status_data_grow link b sid data :
  commutes (grow link b) (_on_status_data sid data : M unit).
Proof. unfold _on_status_data. comm; auto with xrd. Qed.
Hint Resolve on_status_data_grow : xrd.

(** The one handler that writes in the framer leaves its buffer alone. *)
Lemma arm_trailer_grow link b n sid :
  commutes (grow link b) (modify (fun m =>
    let f := framer_of link m in
    set_framer link (mkFramer (f_buffer f) (f_header f) n (Some sid)) m) : M unit).
Proof.
  apply commutes_modify. intros m. cbv zeta.
  rewrite framer_of_grow, set_framer_grow, grow_set_framer. done.
Qed.
Hint Resolve arm_trailer_grow : xrd.

Lemma on_response_grow link b h body p :
  commutes (grow link b) (_on_response h body p link : M unit).
Proof. unfold _on_response. comm; auto with xrd. Qed.
Hint Resolve on_response_grow : xrd.

Lemma unwrap_attn_grow link b body :
  commutes (grow link b) (_unwrap_attn body : M (option (ResponseHeader * bytes))).
Proof. unfold _unwrap_attn. comm. Qed.

Lemma dispatch_to_grow link b h body :
  commutes (grow link b) (dispatch_to getpid describe_exn h body link : M unit).
Proof. unfold dispatch_to. comm. Qed.
Hint Resolve unwrap_attn_grow dispatch_to_grow : xrd.

Lemma dispatch_grow link b h body : commutes (grow link b) (dispatch h body link : M unit).
Proof. unfold _dispatch. comm. Qed.

(** *** Handlers leave the inbound cursors alone *)

Section Framers.
Context (P : dict Z Framer -> Prop).
Notation K := (fun m => P (framers m)).

Lemma release_framers sid : preserves K (release sid : M unit).
Proof.
  apply preserves_modify. intros m Hm. unfold release_.
  destruct (dict_get sid (pending m)); [|done]. by case_goal.
Qed.
Lemma begin_login_framers : preserves K (_begin_login getpid : M unit).
Proof. unfold _begin_login. m_preserves ltac:(assumption). Qed.
Lemma become_ready_framers : preserves K (_become_ready : M unit).
Proof. unfold _become_ready. m_preserves ltac:(assumption). Qed.
Hint Resolve release_framers begin_login_framers become_ready_framers : xrd.
Lemma try_credentials_framers n : preserves K (try_credentials describe_exn n : M unit).
Proof. induction n as [|n IH]; simpl; m_preserves ltac:(assumption); auto. Qed.
Hint Resolve try_credentials_framers : xrd.
Lemma next_credential_framers sec : preserves K (_next_credential describe_exn sec : M unit).
Proof. unfold _next_credential. m_preserves ltac:(assumption). Qed.
Hint Resolve next_credential_framers : xrd.
Lemma auth_step_framers c : preserves K (_auth_step describe_exn c : M unit).
Proof. unfold _auth_step. m_preserves ltac:(assumption). Qed.
Lemma after_protocol_framers : preserves K (_after_protocol getpid : M unit).
Proof. unfold _after_protocol. m_preserves ltac:(assumption). Qed.
Hint Resolve auth_step_framers after_protocol_framers : xrd.
Lemma bringup_framers h body : preserves K (_bringup getpid describe_exn h body : M unit).
Proof. unfold _bringup. m_preserves ltac:(assumption). Qed.
Lemma set_pending_at_framers sid f : preserves K (modify (set_pending_at sid f) : M unit).
Proof.
  apply preserves_modify. intros m Hm. unfold set_pending_at.
  by destruct (dict_get sid (pending m)).
Qed.
Hint Resolve bringup_framers set_pending_at_framers : xrd.
Lemma on_status_data_framers sid data : preserves K (_on_status_data sid data : M unit).
Proof. unfold _on_status_data. m_preserves ltac:(assumption); auto with xrd. Qed.
Hint Resolve on_status_data_framers : xrd.
Lemma unwrap_attn_framers body :
  preserves K (_unwrap_attn body : M (option (ResponseHeader * bytes))).
Proof. unfold _unwrap_attn. m_preserves ltac:(assumption). Qed.
(** Only a [kXR_status] writes in one. *)
Lemma dispatch_to_framers h body link :
  rh_status h <> kXR_status -> preserves K (dispatch_to getpid describe_exn h body link : M unit).
Proof.
  intros Hs. unfold dispatch_to, _on_response. apply Z.eqb_neq in Hs. rewrite Hs.
  m_preserves ltac:(assumption); auto with xrd.
Qed.
End Framers.

(** A [kXR_status] writes in the cursor of its link, and leaves the buffer
    and the header alone. *)
Definition keeps link b (h : option ResponseHeader) (fs : dict Z Framer) : Prop :=
  let f := default Framer_new (dict_get link fs) in f_buffer f = b /\ f_header f = h.

Section Keeps.
Context (link0 : Z) (b0 : bytes) (h0 : option ResponseHeader).
Notation K := (fun m => keeps link0 b0 h0 (framers m)).
Hint Resolve release_framers bringup_framers set_pending_at_framers on_status_data_framers
  unwrap_attn_framers : xrd.
Lemma arm_trailer_keeps n sid :
  preserves K (modify (fun m =>
    let f := framer_of link0 m in
    set_framer link0 (mkFramer (f_buffer f) (f_header f) n (Some sid)) m) : M unit).
Proof.
  apply preserves_modify. intros m [Hb Hh]. unfold keeps, framer_of, set_framer. simpl.
  rewrite dict_get_set_eq. by split.
Qed.
Hint Resolve arm_trailer_keeps : xrd.
Lemma on_response_keeps h body p : preserves K (_on_response h body p link0 : M unit).
Proof. unfold _on_response. m_preserves ltac:(assumption); auto with xrd. Qed.
Hint Resolve on_response_keeps : xrd.
Lemma dispatch_to_keeps h body : preserves K (dispatch_to getpid describe_exn h body link0 : M unit).
Proof. unfold dispatch_to. m_preserves ltac:(assumption). Qed.
Hint Resolve dispatch_to_keeps : xrd.
Lemma dispatch_keeps h body : preserves K (dispatch h body link0 : M unit).
Proof. unfold _dispatch. m_preserves ltac:(assumption). Qed.

End Keeps.

(** *** One turn of the loop *)

(** Consume the body of a frame whose header is known, and dispatch it. *)
Definition take_body link (h : ResponseHeader) : M bool := fun m =>
  let f := framer_of link m in
  if zlen (f_buffer f) <? rh_dlen h then (m, Ok false)
  else (dispatch h (slice_to (f_buffer f) (rh_dlen h)) link ≫= fun _ => mret true)
         (set_framer link (mkFramer (slice_from (f_buffer f) (rh_dlen h)) None
            (f_need_trailer f) (f_trailer_for f)) m).

Lemma step_eq link m :
  step link m =
  let f := framer_of link m in
  if negb (f_need_trailer f =? 0) then
    if zlen (f_buffer f) <? f_need_trailer f then (m, Ok false)
    else
      let m1 := set_framer link
        (mkFramer (slice_from (f_buffer f) (f_need_trailer f)) (f_header f) 0 None) m in
      match f_trailer_for f with
      | None => (m1, Err AssertionError)
      | Some sid =>
          (_on_status_data sid (slice_to (f_buffer f) (f_need_trailer f)) ≫= fun _ => mret true) m1
      end
  else
    match f_header f with
    | Some h => take_body link h m
    | None =>
        if zlen (f_buffer f) <? RESPONSE_HDRLEN then (m, Ok false)
        else match decode_header (slice_to (f_buffer f) RESPONSE_HDRLEN) with
             | Err e => (m, Err e)
             | Ok h =>
                 take_body link h
                   (set_framer link (mkFramer (slice_from (f_buffer f) RESPONSE_HDRLEN) (Some h)
                      (f_need_trailer f) (f_trailer_for f)) m)
             end
    end.
Proof.
  unfold parse_step, take_body. cbv zeta.
  rewrite st_bind_eq. unfold get at 1. cbv beta iota.
  destruct (negb (f_need_trailer (framer_of link m) =? 0)) eqn:En.
  - destruct (zlen _ <? _); [done|].
    rewrite st_bind_eq. unfold modify. cbv beta iota.
    by destruct (f_trailer_for (framer_of link m)).
  - rewrite st_bind_eq. destruct (f_header (framer_of link m)) as [h|].
    + unfold mret at 1, st_ret at 1. cbv beta iota.
      rewrite st_bind_eq. unfold get at 1. cbv beta iota.
      by destruct (zlen _ <? _).
    + destruct (zlen _ <? _); [done|].
      rewrite st_bind_eq. unfold lift at 1. cbv beta iota.
      destruct (decode_header _) as [h|e]; [|done].
      rewrite st_bind_eq. unfold modify at 1. cbv beta iota.
      unfold mret at 1, st_ret at 1. cbv beta iota.
      rewrite st_bind_eq. unfold get at 1. cbv beta iota.
      by destruct (zlen (f_buffer (framer_of link (set_framer link _ m))) <? rh_dlen h).
Qed.

Lemma slice_from_length {A} (l : list A) n : (length (slice_from l n) <= length l)%nat.
Proof. unfold slice_from. case_goal; rewrite length_drop; lia. Qed.

Lemma take_body_measure link h m m' :
  take_body link h m = (m', Ok true) ->
  (parse_measure (framer_of link m') <= 2 * length (f_buffer (framer_of link m)) + 1)%nat.
Proof.
  unfold take_body. cbv zeta. case_goal; [done|]. intros (m2 & [] & Hd & Hr)%st_bind_ok.
  injection Hr as <-.
  set (m1 := set_framer link _ m) in *.
  assert (keeps link (slice_from (f_buffer (framer_of link m)) (rh_dlen h)) None (framers m1)) as Hk
    by (unfold keeps, m1, set_framer; simpl; by rewrite dict_get_set_eq).
  apply (dispatch_keeps link _ None h
           (slice_to (f_buffer (framer_of link m)) (rh_dlen h))) in Hk.
  rewrite Hd in Hk. destruct Hk as [Hb Hh].
  change (f_buffer (framer_of link m2) = slice_from (f_buffer (framer_of link m)) (rh_dlen h)) in Hb.
  change (f_header (framer_of link m2) = None) in Hh. unfold parse_measure. rewrite Hb, Hh.
  pose proof (slice_from_length (f_buffer (framer_of link m)) (rh_dlen h)).
  case_goal; lia.
Qed.

(** Going round again makes the measure smaller. *)
Lemma step_measure link m m' :
  step link m = (m', Ok true) ->
  (parse_measure (framer_of link m') < parse_measure (framer_of link m))%nat.
Proof.
  rewrite step_eq. cbv zeta. set (f := framer_of link m).
  destruct (f_need_trailer f =? 0) eqn:En; simpl.
  - destruct (f_header f) as [h|] eqn:Eh.
    + intros Ht%take_body_measure. unfold parse_measure at 2. fold f in Ht. rewrite Eh, En. lia.
    + case_goal; [done|]. zbool. destruct (decode_header _) as [h|]; [|done].
      intros Ht%take_body_measure. rewrite framer_of_set in Ht. simpl in Ht.
      unfold parse_measure at 2. rewrite Eh.
      assert (length (slice_from (f_buffer f) RESPONSE_HDRLEN) + 8 <= length (f_buffer f))%nat.
      { unfold slice_from, RESPONSE_HDRLEN, zlen in *. simpl. rewrite length_drop. lia. }
      destruct (_ =? _); lia.
  - case_goal; [done|]. destruct (f_trailer_for f) as [sid|]; [|done].
    intros (m2 & [] & Hd & Hr)%st_bind_ok. injection Hr as <-.
    set (m1 := set_framer link _ m) in *.
    pose proof (on_status_data_framers (fun F => F = framers m1) sid
                  (slice_to (f_buffer f) (f_need_trailer f)) m1 eq_refl) as Hk.
    rewrite Hd in Hk. simpl in Hk.
    assert (framer_of link m2 = framer_of link m1) as -> by (unfold framer_of; by rewrite Hk).
    unfold m1. rewrite framer_of_set. unfold parse_measure. simpl. rewrite En.
    pose proof (slice_from_length (f_buffer f) (f_need_trailer f)). lia.
Qed.

(** Fuel beyond the measure is never used. *)
Lemma loop_fuel link n n' m :
  (parse_measure (framer_of link m) < n)%nat -> (parse_measure (framer_of link m) < n')%nat ->
  loop n link m = loop n' link m.
Proof.
  revert n' m. induction n as [|n IH]; intros n' m Hn Hn'; [lia|].
  destruct n' as [|n']; [lia|]. simpl. rewrite !st_bind_eq.
  destruct (step link m) as [m' [[]|e]] eqn:E; [|done|done].
  apply step_measure in E. apply IH; lia.
Qed.

Lemma parse_unfold link m :
  parse link m = match step link m with
                 | (m', Ok true) => parse link m'
                 | (m', Ok false) => (m', Ok tt)
                 | (m', Err e) => (m', Err e)
                 end.
Proof.
  unfold _parse. rewrite !st_bind_eq. unfold get at 1. cbv beta iota.
  cbn [parse_loop]. rewrite st_bind_eq.
  destruct (step link m) as [m' [[]|e]] eqn:E; [|done|done].
  rewrite st_bind_eq. unfold get. cbv beta iota. apply step_measure in E.
  exact (loop_fuel link (parse_measure (framer_of link m))
           (S (parse_measure (framer_of link m'))) m' ltac:(lia) ltac:(lia)).
Qed.

(** *** Cutting the input *)

Lemma slice_to_app_l (l k : bytes) n :
  0 <= n <= zlen l -> slice_to (l ++ k) n = slice_to l n.
Proof.
  intros Hn. unfold slice_to. destruct (Z.ltb_spec n 0); [lia|].
  apply take_app_le. unfold zlen in *. lia.
Qed.

Lemma slice_from_app_l (l k : bytes) n :
  0 <= n <= zlen l -> slice_from (l ++ k) n = slice_from l n ++ k.
Proof.
  intros Hn. unfold slice_from. destruct (Z.ltb_spec n 0); [lia|].
  apply drop_app_le. unfold zlen in *. lia.
Qed.

(** A header in the framer was accepted by [decode_header]. *)
Definition header_ok (h : option ResponseHeader) : Prop :=
  match h with Some h => 0 <= rh_dlen h | None => True end.

Lemma take_body_grow link h b m m' r :
  0 <= rh_dlen h -> take_body link h m = (m', r) ->
  (r = Ok false -> m' = m) /\
  (r <> Ok false -> take_body link h (grow link b m) = (grow link b m', r)).
Proof.
  intros Hh. unfold take_body. cbv zeta. rewrite framer_of_grow. cbn [f_buffer].
  destruct (Z.ltb_spec (zlen (f_buffer (framer_of link m))) (rh_dlen h)) as [Hlt|Hge].
  { intros [= <- <-]. split; [done | intros []; done]. }
  intros Ht. split.
  { intros ->. apply st_bind_ok in Ht as (? & ? & _ & [=]). }
  intros _. autorewrite with zlen. pose proof (zlen_nonneg b).
  destruct (Z.ltb_spec (zlen (f_buffer (framer_of link m)) + zlen b) (rh_dlen h)); [lia|].
  rewrite set_framer_grow, slice_to_app_l, slice_from_app_l by lia. cbn [f_need_trailer f_trailer_for].
  assert (commutes (grow link b) (dispatch h (slice_to (f_buffer (framer_of link m)) (rh_dlen h)) link
            ≫= fun _ => mret true : M bool)) as Hc
    by (apply commutes_bind; [apply dispatch_grow | intros; apply commutes_ret]).
  specialize (Hc (set_framer link (mkFramer (slice_from (f_buffer (framer_of link m)) (rh_dlen h))
    None (f_need_trailer (framer_of link m)) (f_trailer_for (framer_of link m))) m)).
  rewrite grow_set_framer in Hc. cbn [f_buffer f_header f_need_trailer f_trailer_for] in Hc.
  rewrite Hc, Ht. done.
Qed.

(** The trailer of a [kXR_status], all of it there. *)
Lemma step_grow_trailer link b m m' r :
  let f := framer_of link m in
  0 < f_need_trailer f <= zlen (f_buffer f) ->
  step link m = (m', r) -> step link (grow link b m) = (grow link b m', r) /\ r <> Ok false.
Proof.
  intros f Hn Hs. rewrite step_eq in Hs. cbv zeta in Hs.
  rewrite (step_eq link (grow link b m)), framer_of_grow. cbv zeta.
  cbn [f_buffer f_header f_need_trailer f_trailer_for]. fold f in Hs |- *. pose proof (zlen_nonneg b).
  destruct (Z.eqb_spec (f_need_trailer f) 0); [lia|]. cbn [negb] in *.
  destruct (Z.ltb_spec (zlen (f_buffer f)) (f_need_trailer f)); [lia|].
  rewrite zlen_app. destruct (Z.ltb_spec (zlen (f_buffer f) + zlen b) (f_need_trailer f)); [lia|].
  rewrite slice_to_app_l, slice_from_app_l, set_framer_grow by lia.
  destruct (f_trailer_for f) as [sid|].
  2: { injection Hs as <- <-. by rewrite grow_set_framer. }
  assert (commutes (grow link b) (_on_status_data sid (slice_to (f_buffer f) (f_need_trailer f))
            ≫= fun _ => mret true : M bool)) as Hc
    by (apply commutes_bind; [apply on_status_data_grow | intros; apply commutes_ret]).
  specialize (Hc (set_framer link
    (mkFramer (slice_from (f_buffer f) (f_need_trailer f)) (f_header f) 0 None) m)).
  rewrite grow_set_framer in Hc. cbn [f_buffer f_header f_need_trailer f_trailer_for] in Hc.
  rewrite Hc, Hs. split; [done|]. intros ->. apply st_bind_ok in Hs as (? & ? & _ & [=]).
Qed.

(** One turn with more bytes behind it: the same turn, unless it stopped
    for want of bytes, and then the longer buffer goes on from there. *)
Lemma step_grow link b m m' r :
  0 <= f_need_trailer (framer_of link m) -> header_ok (f_header (framer_of link m)) ->
  step link m = (m', r) ->
  match r with
  | Ok false => step link (grow link b m) = step link (grow link b m')
  | _ => step link (grow link b m) = (grow link b m', r)
  end.
Proof.
  intros Hn Hh Hs. rewrite step_eq in Hs. cbv zeta in Hs.
  rewrite (step_eq link (grow link b m)), framer_of_grow. cbv zeta.
  cbn [f_buffer f_header f_need_trailer f_trailer_for].
  set (f := framer_of link m) in *. pose proof (zlen_nonneg b).
  destruct (f_need_trailer f =? 0) eqn:En; cbn [negb] in *.
  - destruct (f_header f) as [h|] eqn:Eh.
    + destruct (take_body_grow link h b m m' r Hh Hs) as [Hf Ht].
      destruct r as [[]|]; [by apply Ht| |by apply Ht].
      rewrite (Hf eq_refl), (step_eq link (grow link b m)), framer_of_grow. cbv zeta.
      cbn [f_buffer f_header f_need_trailer f_trailer_for]. fold f. by rewrite En, Eh.
    + destruct (Z.ltb_spec (zlen (f_buffer f)) RESPONSE_HDRLEN) as [Hlt|Hge].
      { injection Hs as <- <-.
        rewrite (step_eq link (grow link b m)), framer_of_grow. cbv zeta.
        cbn [f_buffer f_header f_need_trailer f_trailer_for]. fold f. by rewrite En, Eh. }
      assert (0 <= RESPONSE_HDRLEN <= zlen (f_buffer f)) by (unfold RESPONSE_HDRLEN in *; lia).
      rewrite zlen_app. destruct (Z.ltb_spec (zlen (f_buffer f) + zlen b) RESPONSE_HDRLEN); [lia|].
      rewrite slice_to_app_l, slice_from_app_l by done.
      destruct (decode_header _) as [h|e] eqn:Ed.
      2: { by injection Hs as <- <-. }
      apply decode_header_bounds in Ed as (_ & _ & Hd).
      destruct (take_body_grow link h b _ m' r (proj1 Hd) Hs) as [Hf Ht].
      rewrite set_framer_grow.
      rewrite grow_set_framer in Ht. cbn [f_buffer f_header f_need_trailer f_trailer_for] in Ht.
      destruct r as [[]|]; [by apply Ht| |by apply Ht].
      rewrite (Hf eq_refl), grow_set_framer, (step_eq link (set_framer link _ m)), framer_of_set.
      cbv zeta. cbn [f_buffer f_header f_need_trailer f_trailer_for]. by rewrite En.
  - destruct (Z.ltb_spec (zlen (f_buffer f)) (f_need_trailer f)) as [Hlt|Hge].
    { injection Hs as <- <-.
      rewrite (step_eq link (grow link b m)), framer_of_grow. cbv zeta.
      cbn [f_buffer f_header f_need_trailer f_trailer_for]. fold f. by rewrite En. }
    destruct (step_grow_trailer link b m m' r) as [Hg Hr]; [unfold f in *; lia | |].
    { rewrite step_eq. cbv zeta. fold f. rewrite En. cbn [negb].
      destruct (Z.ltb_spec (zlen (f_buffer f)) (f_need_trailer f)); [lia | exact Hs]. }
    rewrite step_eq, framer_of_grow in Hg. cbv zeta in Hg.
    cbn [f_buffer f_header f_need_trailer f_trailer_for] in Hg. fold f in Hg. rewrite En in Hg.
    by destruct r as [[]|].
Qed.

(** A framer no announced length of which is negative. *)
Definition sane (f : Framer) : bool :=
  (0 <=? f_need_trailer f) && match f_header f with Some h => 0 <=? rh_dlen h | None => true end.

(** The loop meets only sane framers. It always does unless a [kXR_status]
    body declares a negative [dlen]: see [negative_trailer] below. *)
Fixpoint calm (fuel : nat) link m : bool :=
  sane (framer_of link m) &&
  match fuel with
  | O => true
  | S fuel => match step link m with (m', Ok true) => calm fuel link m' | _ => true end
  end.

Lemma sane_props f : sane f = true -> 0 <= f_need_trailer f /\ header_ok (f_header f).
Proof.
  unfold sane, header_ok. intros [H1 H2]%andb_true_iff.
  destruct (f_header f); zbool; done.
Qed.

Lemma parse_grow link b n m :
  (parse_measure (framer_of link m) < n)%nat -> calm n link m = true ->
  parse link (grow link b m) =
  match parse link m with
  | (m1, Ok _) => parse link (grow link b m1)
  | (m1, Err e) => (grow link b m1, Err e)
  end.
Proof.
  revert m. induction n as [|n IH]; intros m Hn Hc; [lia|].
  simpl in Hc. apply andb_true_iff in Hc as [Hs Hc]. apply sane_props in Hs as [Hnt Hh].
  rewrite (parse_unfold link (grow link b m)), (parse_unfold link m).
  destruct (step link m) as [m' r] eqn:E.
  pose proof (step_grow link b m m' r Hnt Hh E) as Hg.
  destruct r as [[]|e]; rewrite Hg; [|by rewrite <- parse_unfold|done].
  apply step_measure in E. rewrite (IH m') by (done || lia). done.
Qed.

(** Feeding a piece is growing the buffer and parsing. *)
Lemma receive_eq link b m : b <> [] -> receive (Some b) link m = parse link (grow link b m).
Proof.
  intros Hb. destruct b as [|x b]; [done|]. unfold receive_data.
  rewrite st_bind_eq. unfold modify at 1. cbv beta iota.
  rewrite st_bind_eq. unfold modify at 1. cbv beta iota.
  set (m1 := set_framers _ m).
  assert (framer_of link m1 = framer_of link m) as Hf.
  { unfold framer_of, m1, dict_setdefault; simpl.
    destruct (dict_get link (framers m)) eqn:E; [by rewrite E|]. by rewrite dict_get_set_eq. }
  rewrite Hf. f_equal. unfold grow, set_framer, set_framers, m1, dict_setdefault; simpl.
  destruct (dict_get link (framers m)); [done|]. by rewrite dict_set_set.
Qed.

Lemma grow_grow link a b m : grow link b (grow link a m) = grow link (a ++ b) m.
Proof.
  unfold grow at 1. rewrite framer_of_grow. cbn [f_buffer f_header f_need_trailer f_trailer_for].
  rewrite set_framer_grow, <- app_assoc. done.
Qed.

(** [receive_data] for each piece in turn, stopping where one raises. *)
Fixpoint feed link (pieces : list bytes) : M unit :=
  match pieces with
  | [] => mret tt
  | p :: ps => receive (Some p) link ≫= fun _ => feed link ps
  end.

(** The run over one piece is calm. *)
Definition calm_receive link b m : bool :=
  calm (S (parse_measure (framer_of link (grow link b m)))) link (grow link b m).

Fixpoint calm_feed link (pieces : list bytes) m : bool :=
  match pieces with
  | [] => true
  | p :: ps =>
      negb (bool_decide (p = [])) && calm_receive link p m &&
      match receive (Some p) link m with
      | (m', Ok _) => calm_feed link ps m'
      | _ => true
      end
  end.

Lemma receive_split link a b m :
  a <> [] -> b <> [] -> calm_receive link a m = true ->
  receive (Some (a ++ b)) link m =
  match receive (Some a) link m with
  | (m1, Ok _) => receive (Some b) link m1
  | (m1, Err e) => (grow link b m1, Err e)
  end.
Proof.
  intros Ha Hb Hc. rewrite !receive_eq, <- grow_grow by (done || by destruct a).
  rewrite (parse_grow link b _ _ (Nat.lt_succ_diag_r _) Hc).
  destruct (parse link (grow link a m)) as [m1 [[]|e]]; [|done].
  by rewrite receive_eq.
Qed.

Lemma concat_nonempty (p : bytes) ps : p <> [] -> concat (p :: ps) <> [].
Proof. by destruct p. Qed.

(** C1: framing does not depend on how the transport cut the stream, as long as
    no kXR_status on the way announces a negative data length ([calm_feed];
    after one of those it does depend on the cuts). When a link's bytes
    arrive in one or more non-empty pieces, the machine ends in the same
    state - same events in the same order, same queued output, same half-read
    frame - as when they arrive at once; and when a piece makes it raise, the
    whole raises the same exception, in the same state up to the bytes that
    were not looked at. *)
Theorem feed_concat link pieces m :
  calm_feed link pieces m = true -> pieces <> [] ->
  match feed link pieces m with
  | (m', Ok _) => receive (Some (concat pieces)) link m = (m', Ok tt)
  | (m', Err e) =>
      exists rest, receive (Some (concat pieces)) link m = (m', Err e)
                   \/ receive (Some (concat pieces)) link m = (grow link rest m', Err e)
  end.
Proof.
  intros Hc Hp. revert m Hc. induction pieces as [|p ps IH]; [done|]. intros m Hc.
  simpl in Hc. rewrite !andb_true_iff, negb_true_iff, bool_decide_eq_false in Hc.
  destruct Hc as [[Hne Hcp] Hcs]. simpl feed. rewrite st_bind_eq.
  destruct ps as [|q ps].
  - cbn [concat feed]. rewrite app_nil_r.
    destruct (receive (Some p) link m) as [m' [[]|e]] eqn:E; [exact E|].
    exists []. left. exact E.
  - assert (concat (q :: ps) <> [] \/ snd (receive (Some p) link m) <> Ok tt) as Hq.
    { destruct (receive (Some p) link m) as [m' [[]|e]]; [left|right; done].
      simpl in Hcs. rewrite !andb_true_iff, negb_true_iff, bool_decide_eq_false in Hcs.
      apply concat_nonempty. tauto. }
    change (concat (p :: q :: ps)) with (p ++ concat (q :: ps)).
    destruct (decide (concat (q :: ps) = [])) as [Hz|Hz].
    + rewrite Hz, app_nil_r. destruct Hq as [Hq|Hq]; [done|].
      destruct (receive (Some p) link m) as [m' [[]|e]] eqn:E; [by destruct Hq|].
      exists []. left. exact E.
    + rewrite receive_split by done. unfold bytes in *.
      destruct (receive (Some p) link m) as [m1 [[]|e]].
      * apply IH; [done|]. exact Hcs.
      * exists (concat (q :: ps)). by right.
Qed.
End Framing.

(** A response to the second request, then one to the first, cut inside both headers. *)
Definition demo_stream : bytes :=
  response_frame 5 kXR_ok (b_ "second") ++ response_frame 4 kXR_oksofar (b_ "fi")
  ++ response_frame 4 kXR_ok (b_ "rst").
Definition demo_pieces : list bytes :=
  [take 3 demo_stream; take 14 (drop 3 demo_stream); drop 17 demo_stream].

(** The pieces of a real exchange are calm, and give what the whole gives. *)
Theorem feed_concat_witness :
  calm_feed demo_pid demo_text 0 demo_pieces demo_busy = true /\
  (receive_data demo_pid demo_text (Some (concat demo_pieces)) 0 demo_busy).2 = Ok tt /\
  match feed demo_pid demo_text 0 demo_pieces demo_busy with
  | (m', Ok _) =>
      receive_data demo_pid demo_text (Some (concat demo_pieces)) 0 demo_busy = (m', Ok tt)
      /\ length (events m') = (length (events demo_busy) + 3)%nat
  | _ => False
  end.
Proof.
  split; [vm_compute; reflexivity|]. split; [vm_compute; reflexivity|].
  assert (calm_feed demo_pid demo_text 0 demo_pieces demo_busy = true) as Hc
    by (vm_compute; reflexivity).
  assert (demo_pieces <> []) as Hp by discriminate.
  pose proof (feed_concat demo_pid demo_text 0 demo_pieces demo_busy Hc Hp) as H.
  assert ((feed demo_pid demo_text 0 demo_pieces demo_busy).2 = Ok tt) as Hs
    by (vm_compute; reflexivity).
  assert (length (events (feed demo_pid demo_text 0 demo_pieces demo_busy).1)
          = (length (events demo_busy) + 3)%nat) as Hl by (vm_compute; reflexivity).
  destruct (feed demo_pid demo_text 0 demo_pieces demo_busy) as [m' [[]|e]].
  - split; [exact H | exact Hl].
  - discriminate Hs.
Defined.
