(* ===== verification/MachineStreams.v ===== *)
(** * Streams: who is waiting for what

    The multiplexing half of [SessionMachine]: stream ids are never shared by
    two requests in flight, whatever the order of calls and responses; a
    request is answered on its own stream and no other. *)

From S2P Require Import Prelude PyStr Constants Errors Buffer Frames Requests Responses Sigver ConfigFile Machine.
Import MachineScenarios.
From Stdlib Require Import QArith.
Open Scope Z_scope.
Import SessionMachine.

Section Streams.
Context {C I : Type} `{CredentialOps C I}.
Variable hmac_sha256 : bytes -> bytes -> bytes.
Variable getpid : Z.
Variable describe_exn : exn -> str.

Notation machine := (@machine C I).
Notation M := (st exn machine).
Implicit Types (m : machine) (sid link : Z) (b : bytes).

(** ** The invariant *)

Definition sid_ok sid : Prop := _FIRST_SID <= sid <= 0xFFFF.

(** Streams in flight, ids to re-use and the next fresh id do not collide. *)
Record streams_ok (ps : dict Z Pending) (fr : list Z) (nx : Z) : Prop := {
  so_pending : NoDup (dict_keys ps);
  so_free : NoDup fr;
  so_disjoint : forall sid, sid ∈ fr -> dict_get sid ps = None;
  so_pending_range : forall sid, sid ∈ dict_keys ps -> sid_ok sid;
  so_free_range : forall sid, sid ∈ fr -> sid_ok sid;
  so_next : sid_ok nx
}.

Definition wf m : Prop := streams_ok (pending m) (free m) (next_sid m).

Lemma streams_ok_release sid ps fr nx p :
  dict_get sid ps = Some p -> streams_ok ps fr nx -> streams_ok (dict_pop sid ps) (fr ++ [sid]) nx.
Proof.
  intros Hp [Hd Hf Hj Hr Hfr Hn].
  assert (sid ∈ dict_keys ps) as Hk by (apply dict_get_keys; eauto).
  split; [by apply dict_pop_NoDup | | | | | done].
  - apply NoDup_app. split_and!; [done | | apply NoDup_singleton].
    intros s Hs ->%list_elem_of_singleton. apply Hj in Hs. congruence.
  - intros s [Hs| ->%list_elem_of_singleton]%elem_of_app; rewrite dict_get_pop; case_decide; auto.
    by subst.
  - intros s Hs. rewrite dict_keys_pop in Hs. apply list_elem_of_filter in Hs as [_ Hs]. auto.
  - intros s [Hs| ->%list_elem_of_singleton]%elem_of_app; auto.
Qed.

Lemma streams_ok_update sid p' ps fr nx :
  is_Some (dict_get sid ps) -> streams_ok ps fr nx -> streams_ok (dict_set sid p' ps) fr nx.
Proof.
  intros [p Hp] [Hd Hf Hj Hr Hfr Hn].
  split; try done; [by apply dict_set_NoDup | |].
  - intros s Hs. rewrite dict_get_set_ne; [auto|]. intros <-. apply Hj in Hs. congruence.
  - intros s Hs. rewrite dict_keys_set, Hp in Hs. auto.
Qed.

Lemma streams_ok_insert sid p' ps fr nx :
  sid_ok sid -> sid ∉ fr -> streams_ok ps fr nx -> streams_ok (dict_set sid p' ps) fr nx.
Proof.
  intros Hs Hnf [Hd Hf Hj Hr Hfr Hn].
  split; try done; [by apply dict_set_NoDup | |].
  - intros s Hin. rewrite dict_get_set_ne; [auto|]. congruence.
  - intros s Hin. rewrite dict_keys_set in Hin. destruct (dict_get sid ps); [auto|].
    apply elem_of_app in Hin as [Hin| ->%list_elem_of_singleton]; auto.
Qed.

Lemma release_wf sid m : wf m -> wf (release_ sid m).
Proof.
  intros Hw. unfold release_. destruct (dict_get sid (pending m)) as [p|] eqn:E; [|done].
  pose proof (streams_ok_release _ _ _ _ _ E Hw) as Hr.
  assert (sid_ok sid) as [Hs _] by (eapply so_pending_range; [exact Hw|]; apply dict_get_keys; eauto).
  unfold _FIRST_SID in *. destruct (Z.leb_spec 4 sid); [exact Hr | lia].
Qed.

Lemma set_pending_at_wf sid f m : wf m -> wf (set_pending_at sid f m).
Proof.
  intros Hw. unfold set_pending_at. destruct (dict_get sid (pending m)) eqn:E; [|done].
  apply (streams_ok_update sid); eauto.
Qed.

Lemma release_list_wf sids m : wf m -> wf (foldl (fun m sid => release_ sid m) m sids).
Proof. revert m. induction sids as [|s sids IH]; intros m Hw; simpl; [done|]. by apply IH, release_wf. Qed.

Lemma release_pres sid : preserves wf (release sid : M unit).
Proof. apply preserves_modify. intros. by apply release_wf. Qed.
Lemma set_pending_at_pres sid f : preserves wf (modify (set_pending_at sid f) : M unit).
Proof. apply preserves_modify. intros. by apply set_pending_at_wf. Qed.
Lemma begin_login_wf : preserves wf (_begin_login getpid : M unit).
Proof. unfold _begin_login. m_preserves ltac:(assumption). Qed.
Lemma become_ready_wf : preserves wf (_become_ready : M unit).
Proof. unfold _become_ready. m_preserves ltac:(assumption). Qed.
Hint Resolve release_pres set_pending_at_pres begin_login_wf become_ready_wf : xrd.
Lemma try_credentials_wf n : preserves wf (try_credentials describe_exn n : M unit).
Proof. induction n as [|n IH]; simpl; m_preserves ltac:(assumption). Qed.
Hint Resolve try_credentials_wf : xrd.
Lemma next_credential_wf sec : preserves wf (_next_credential describe_exn sec : M unit).
Proof. unfold _next_credential. m_preserves ltac:(assumption). Qed.
Hint Resolve next_credential_wf : xrd.
Lemma auth_step_wf c : preserves wf (_auth_step describe_exn c : M unit).
Proof. unfold _auth_step. m_preserves ltac:(assumption). Qed.
Lemma after_protocol_wf : preserves wf (_after_protocol getpid : M unit).
Proof. unfold _after_protocol. m_preserves ltac:(assumption). Qed.
Hint Resolve auth_step_wf after_protocol_wf : xrd.
Lemma bringup_wf h body : preserves wf (_bringup getpid describe_exn h body : M unit).
Proof. unfold _bringup. m_preserves ltac:(assumption). Qed.
Lemma on_status_data_wf sid data : preserves wf (_on_status_data sid data : M unit).
Proof. unfold _on_status_data. m_preserves ltac:(assumption). Qed.
Hint Resolve bringup_wf on_status_data_wf : xrd.
Lemma on_response_wf h body p link : preserves wf (_on_response h body p link : M unit).
Proof. unfold _on_response. m_preserves ltac:(assumption). Qed.
Hint Resolve on_response_wf : xrd.
Lemma dispatch_wf h body link : preserves wf (_dispatch getpid describe_exn h body link : M unit).
Proof. unfold _dispatch, _unwrap_attn, dispatch_to. m_preserves ltac:(assumption). Qed.
Hint Resolve dispatch_wf : xrd.
Lemma parse_step_wf link : preserves wf (parse_step getpid describe_exn link : M bool).
Proof. unfold parse_step. m_preserves ltac:(assumption). Qed.
Hint Resolve parse_step_wf : xrd.
Lemma parse_loop_wf n link : preserves wf (parse_loop getpid describe_exn n link : M unit).
Proof. induction n as [|n IH]; simpl; m_preserves ltac:(assumption). Qed.
Hint Resolve parse_loop_wf : xrd.

Lemma clear_pending_wf m : wf m -> wf (set_pending [] m).
Proof.
  intros [Hd Hf Hj Hr Hfr Hn]. split; try done; simpl.
  - constructor.
  - intros s Hs. by apply elem_of_nil in Hs.
Qed.
Lemma forget_path_wf p : preserves wf (forget_path p : M unit).
Proof.
  apply preserves_modify. intros m Hw.
  exact (release_list_wf (dict_keys (on_path p (pending m))) m Hw).
Qed.
Hint Resolve forget_path_wf : xrd.

Lemma receive_wf data link : preserves wf (receive_data getpid describe_exn data link : M unit).
Proof.
  unfold receive_data, _on_eof, _on_path_eof, _parse.
  m_preserves ltac:(assumption || by apply clear_pending_wf).
Qed.

(** ** Acquiring an id *)

(** An acquired id is in range, unused, and no longer up for re-use. *)
Lemma acquire_spec m m' r :
  wf m -> _acquire_sid m = (m', r) ->
  wf m' /\ pending m' = pending m /\
  match r with
  | Ok sid => sid_ok sid /\ dict_get sid (pending m) = None /\ sid ∉ free m'
  | Err e => e = ProtocolError /\ free m = [] /\ is_Some (dict_get (next_sid m) (pending m))
  end.
Proof.
  intros Hw. pose proof Hw as [Hd Hf Hj Hr Hfr Hn].
  unfold _acquire_sid. rewrite st_bind_eq. unfold get. cbv beta iota.
  destruct (last (free m)) as [sid|] eqn:El.
  - rewrite st_bind_eq. unfold modify. cbv beta iota. intros [= <- <-].
    apply last_Some in El as [fr El].
    assert (take (length (free m) - 1) (free m) = fr) as Et.
    { rewrite El, length_app. simpl. replace (length fr + 1 - 1)%nat with (length fr) by lia.
      apply take_app_length. }
    assert (sid ∈ free m) as Hin by (rewrite El; apply elem_of_app; right; by apply list_elem_of_singleton).
    rewrite El in Hf. apply NoDup_app in Hf as (Hf1 & Hf2 & _).
    assert (forall s, s ∈ fr -> s ∈ free m) as Hsub by (intros; rewrite El; apply elem_of_app; by left).
    split_and!; simpl; rewrite ?Et; auto.
    + split; simpl; rewrite ?Et; auto.
    + intros Hc. apply (Hf2 sid Hc). by apply list_elem_of_singleton.
  - apply last_None in El. rewrite st_bind_eq. unfold modify. cbv beta iota.
    assert (wf (set_next_sid (if 0xFFFF <? next_sid m + 1 then _FIRST_SID else next_sid m + 1) m)) as Hw'.
    { split; try done. simpl. unfold sid_ok, _FIRST_SID in *.
      destruct (Z.ltb_spec 0xFFFF (next_sid m + 1)); lia. }
    destruct (dict_mem (next_sid m) (pending m)) eqn:Em; intros [= <- <-].
    + apply dict_mem_true in Em. split_and!; auto.
    + split_and!; auto; simpl.
      * destruct (dict_get (next_sid m) (pending m)) eqn:Eg; [|done].
        assert (dict_mem (next_sid m) (pending m) = true) by (apply dict_mem_true; eauto). congruence.
      * rewrite El. apply not_elem_of_nil.
Qed.

(** ** Submitting *)

Lemma sign_frame_wf f m m' r :
  sign_frame hmac_sha256 f m = (m', r) ->
  (wf m -> wf m') /\ pending m' = pending m /\ free m' = free m /\ out m' = out m
  /\ out_path m' = out_path m.
Proof.
  unfold sign_frame. destruct (signer m) as [s|]; [|by intros [= <- <-]].
  destruct (Signer.sign hmac_sha256 s f) as [s' r']. by intros [= <- <-].
Qed.

Lemma send_path_wf p b : preserves wf (send_path p b : M unit).
Proof. apply preserves_modify. intros m Hm. exact Hm. Qed.
Hint Resolve send_path_wf : xrd.

Lemma set_new_pending_wf sid p m :
  sid_ok sid -> sid ∉ free m -> wf m -> wf (set_pending (dict_set sid p (pending m)) m).
Proof. intros. by apply streams_ok_insert. Qed.

Lemma send_wf req sid path arrive m :
  sid_ok sid -> sid ∉ free m -> wf m -> wf (_send hmac_sha256 req sid path arrive m).1.
Proof.
  intros Hs Hf Hw. unfold _send. rewrite st_bind_eq. unfold lift at 1. cbv beta iota.
  destruct (encode req sid) as [frame|]; [|done].
  rewrite st_bind_eq. destruct (sign_frame hmac_sha256 frame m) as [m1 r1] eqn:E1.
  apply sign_frame_wf in E1 as (Hw1 & _ & Hf1 & _).
  destruct r1 as [sg|]; [|by apply Hw1].
  assert (preserves (fun m => wf m /\ sid ∉ free m)
    (match sg with
     | Some (seqno, mac) =>
         pre ← lift (encode (Sigver_init (opcode req) seqno mac None false) sid); mret (pre ++ frame)
     | None => mret frame
     end : M bytes)) as Hp.
  { destruct sg as [[seqno mac]|]; m_preserves ltac:(assumption). }
  assert (wf m1 /\ sid ∉ free m1) as H1 by (rewrite Hf1; auto). specialize (Hp m1 H1).
  rewrite st_bind_eq. destruct (_ m1) as [m2 [f2|]]; simpl in Hp; [|tauto]. destruct Hp as [Hw2 Hf2].
  rewrite st_bind_eq. unfold modify at 1. cbv beta iota.
  pose proof (set_new_pending_wf sid (mkPending req f2 [] None path (pathid req) (path_data req))
                m2 Hs Hf2 Hw2) as Hw3.
  revert Hw3. generalize (set_pending (dict_set sid
    (mkPending req f2 [] None path (pathid req) (path_data req)) (pending m2)) m2). intros m3 Hw3.
  revert m3 Hw3. change (preserves wf (if arrive && negb (pathid req =? 0)
    then send_path (pathid req) (f2 ++ path_data req)
    else send_out f2 ≫= fun _ => match path_data req with
                                | [] => mret tt
                                | _ => send_path (pathid req) (path_data req)
                                end)).
  m_preserves ltac:(assumption).
Qed.

Lemma submit_wf req path arrive : preserves wf (submit hmac_sha256 req path arrive : M Z).
Proof.
  unfold submit. apply preserves_get. intros m Hw. case_goal; [done|].
  rewrite st_bind_eq. destruct (_acquire_sid m) as [m1 r] eqn:Ea.
  destruct (acquire_spec m m1 r Hw Ea) as (Hw1 & _ & Hr). destruct r as [sid|]; [|done].
  destruct Hr as (Hs & _ & Hf). rewrite st_bind_eq.
  pose proof (send_wf req sid path arrive m1 Hs Hf Hw1) as Hw2.
  destruct (_send hmac_sha256 req sid path arrive m1) as [m2 [[]|]]; exact Hw2.
Qed.

Lemma close_wf graceful : preserves wf (close graceful : M unit).
Proof.
  unfold close. apply preserves_get. intros m Hw. rewrite st_bind_eq.
  assert (preserves wf (_acquire_sid : M Z)) as Ha.
  { intros m0 H0. destruct (_acquire_sid m0) as [m1 r] eqn:E. by apply (acquire_spec m0 m1 r) in E as [? _]. }
  assert (preserves wf (if bool_decide (state m = READY) && graceful && negb (bool_decide (session_id m = []))
    then sid ← _acquire_sid; f ← lift (encode (EndSession (session_id m)) sid); send_out f
    else mret tt : M unit)) as Hp by (m_preserves ltac:(assumption)).
  specialize (Hp m Hw). destruct (_ m) as [m1 [[]|]]; [|exact Hp]. exact Hp.
Qed.

(** ** Every sequence of calls *)

(** One call of a public method, whether it returns or raises. *)
Inductive call : machine -> machine -> Prop :=
| call_start m : call m (start m).1
| call_data_to_send m : call m (data_to_send m).1
| call_path_data_to_send m p : call m (path_data_to_send p m).1
| call_submit m req path arrive : call m (submit hmac_sha256 req path arrive m).1
| call_resume m sid : call m (resume sid m).1
| call_release m sid : call m (release sid m).1
| call_close m graceful : call m (close graceful m).1
| call_tls_established m : call m (tls_established getpid m).1
| call_receive_data m data link : call m (receive_data getpid describe_exn data link m).1
| call_forget_path m p : call m (forget_path p m).1
| call_next_event m : call m (next_event m).1
| call_events m : call m (drain_events m).1.

Inductive reachable : machine -> Prop :=
| reachable_make host port config creds username want_tls bind_to :
    reachable (make host port config creds username want_tls bind_to)
| reachable_call m m' : reachable m -> call m m' -> reachable m'.

Lemma machine_make_wf host port config creds username want_tls bind_to :
  wf (make host port config creds username want_tls bind_to).
Proof.
  split; simpl; try apply NoDup_nil_2; try (intros ? Hs; by apply elem_of_nil in Hs).
  unfold sid_ok, _FIRST_SID. lia.
Qed.

Lemma call_wf m m' : call m m' -> wf m -> wf m'.
Proof.
  destruct 1; match goal with |- wf ?m -> wf (?c ?m).1 => revert m; change (preserves wf c) end.
  - unfold start. m_preserves ltac:(assumption).
  - unfold data_to_send. m_preserves ltac:(assumption).
  - unfold path_data_to_send. m_preserves ltac:(assumption).
  - apply submit_wf.
  - unfold resume. m_preserves ltac:(assumption).
  - apply release_pres.
  - apply close_wf.
  - unfold tls_established. m_preserves ltac:(assumption).
  - apply receive_wf.
  - apply forget_path_wf.
  - unfold next_event. m_preserves ltac:(assumption).
  - unfold drain_events. m_preserves ltac:(assumption).
Qed.

Lemma reachable_wf m : reachable m -> wf m.
Proof. induction 1; [apply machine_make_wf | by eapply call_wf]. Qed.

(** What [_send] leaves behind when it returns. *)
Lemma send_ok req sid path arrive m m' :
  _send hmac_sha256 req sid path arrive m = (m', Ok tt) ->
  exists f pre m1 sg,
    encode req sid = Ok f /\ sign_frame hmac_sha256 f m = (m1, Ok sg)
    /\ match sg with
       | None => pre = []
       | Some (seqno, mac) => encode (Sigver_init (opcode req) seqno mac None false) sid = Ok pre
       end
    /\ signer m' = signer m1
    /\ pending m' = dict_set sid (mkPending req (pre ++ f) [] None path (pathid req) (path_data req))
                      (pending m)
    /\ (if arrive && negb (pathid req =? 0)
        then out m' = out m
             /\ out_path m' = dict_set (pathid req)
                  (default [] (dict_get (pathid req) (out_path m)) ++ (pre ++ f) ++ path_data req)
                  (out_path m)
        else out m' = out m ++ pre ++ f
             /\ (path_data req = [] -> out_path m' = out_path m)).
Proof.
  unfold _send. intros Hs. apply st_bind_ok in Hs as (? & f & Hf & Hs).
  injection Hf as <- Hf. apply st_bind_ok in Hs as (m1 & sg & Hsg & Hs).
  pose proof Hsg as (_ & Hp1 & _ & Ho1 & Hop1)%sign_frame_wf.
  apply st_bind_ok in Hs as (m2 & f2 & Hf2 & Hs).
  assert (m2 = m1 /\ exists pre, f2 = pre ++ f /\
    match sg with None => pre = []
    | Some (seqno, mac) => encode (Sigver_init (opcode req) seqno mac None false) sid = Ok pre end)
    as (-> & pre & -> & Hpre).
  { destruct sg as [[seqno mac]|]; [|injection Hf2 as <- <-; split; [done|]; by exists []].
    apply st_bind_ok in Hf2 as (? & pre & Hpre & Hf2). injection Hpre as <- Hpre.
    injection Hf2 as <- <-. split; [done|]. by exists pre. }
  apply st_bind_ok in Hs as (m3 & [] & Hm3 & Hs). injection Hm3 as <-.
  exists f, pre, m1, sg. split; [done|]. split; [done|]. split; [done|].
  destruct (arrive && negb (pathid req =? 0)).
  - injection Hs as <-. simpl. rewrite Hp1, Hop1, Ho1. done.
  - apply st_bind_ok in Hs as (m4 & [] & Hm4 & Hs). injection Hm4 as <-.
    destruct (path_data req) as [|x d] eqn:Ed; injection Hs as <-; cbn -[path_data];
      rewrite Hp1, Ho1, ?Hop1; split_and!; try done; by rewrite <- Ed.
Qed.

Lemma acquire_fields m m' r :
  _acquire_sid m = (m', r) ->
  signer m' = signer m /\ out m' = out m /\ out_path m' = out_path m /\ pending m' = pending m.
Proof.
  unfold _acquire_sid. rewrite st_bind_eq. unfold get. cbv beta iota.
  destruct (last (free m)); [by intros [= <- _]|].
  rewrite st_bind_eq. unfold modify. cbv beta iota.
  destruct (dict_mem _ _); by intros [= <- _].
Qed.

(** A submit that returned is a fresh id and a [_send]. *)
Lemma submit_ok req path arrive m m' sid :
  submit hmac_sha256 req path arrive m = (m', Ok sid) ->
  state m = READY /\ exists m1, _acquire_sid m = (m1, Ok sid)
    /\ _send hmac_sha256 req sid path arrive m1 = (m', Ok tt).
Proof.
  unfold submit. rewrite st_bind_eq. unfold get. cbv beta iota.
  destruct (bool_decide (state m = READY)) eqn:Es; [|done].
  apply bool_decide_eq_true in Es. cbn [negb].
  intros (m1 & sid0 & Ha & (m2 & [] & Hsend & Hr)%st_bind_ok)%st_bind_ok.
  injection Hr as <- ->. split; [done|]. by exists m1.
Qed.

(** A [_send] that raised has registered nothing. *)
Lemma send_err req sid path arrive m m' e :
  _send hmac_sha256 req sid path arrive m = (m', Err e) -> pending m' = pending m.
Proof.
  unfold _send. rewrite st_bind_eq. unfold lift at 1. cbv beta iota.
  destruct (encode req sid) as [f|]; [|by intros [= <- _]].
  rewrite st_bind_eq. destruct (sign_frame hmac_sha256 f m) as [m1 r1] eqn:E1.
  apply sign_frame_wf in E1 as (_ & Hp1 & _). destruct r1 as [sg|]; [|by intros [= <- _]].
  rewrite st_bind_eq. destruct sg as [[seqno mac]|].
  - rewrite st_bind_eq. unfold lift at 1. cbv beta iota.
    destruct (encode _ sid) as [pre|]; [|by intros [= <- _]]. cbn [mret st_ret].
    rewrite st_bind_eq. unfold modify at 1. cbv beta iota.
    destruct (arrive && _); [done|]. destruct (path_data req); done.
  - cbn [mret st_ret]. rewrite st_bind_eq. unfold modify at 1. cbv beta iota.
    destruct (arrive && _); [done|]. destruct (path_data req); done.
Qed.

(** C4: in any state a run of calls can lead to - submits, responses,
    redirects, lost data paths, waits and closes, whether they returned or
    raised - a submit never takes a stream somebody is waiting on. When it
    returns, the id was not in flight, is a 16-bit id above the bring-up
    ones and is not up for re-use any more, and the request was added to
    those in flight with every one of them untouched; when it raises, those
    in flight are as before; and it does raise [ProtocolError] when no id is
    up for re-use and the next fresh one is still in flight. Ids up for
    re-use are never in flight, and each is there once. *)
Theorem streams_never_shared req path arrive m m' r :
  reachable m -> submit hmac_sha256 req path arrive m = (m', r) ->
  match r with
  | Ok sid =>
      4 <= sid <= 65535 /\ dict_get sid (pending m) = None /\ sid ∉ free m'
      /\ exists p, p_request p = req /\ pending m' = pending m ++ [(sid, p)]
  | Err _ => pending m' = pending m
  end
  /\ (state m = READY -> free m = [] -> is_Some (dict_get (next_sid m) (pending m)) ->
      r = Err ProtocolError)
  /\ NoDup (free m')
  /\ (forall sid, sid ∈ free m' -> dict_get sid (pending m') = None /\ 4 <= sid <= 65535)
  /\ (forall sid, sid ∈ dict_keys (pending m') -> 4 <= sid <= 65535).
Proof.
  intros Hw%reachable_wf Hs. pose proof (submit_wf req path arrive m Hw) as Hw'.
  rewrite Hs in Hw'. change (wf m') in Hw'. destruct Hw' as [_ Hf' Hj' Hr' Hfr' _].
  split_and!; [| |done|by split; [apply Hj'|apply Hfr']|exact Hr'].
  - destruct r as [sid|e].
    + apply submit_ok in Hs as (_ & m1 & Ha & Hsend).
      destruct (acquire_spec m m1 _ Hw Ha) as (_ & Hp1 & Hs0 & Hg & _).
      apply send_ok in Hsend as (f & pre & m3 & sg & _ & _ & _ & _ & Hp2 & _).
      rewrite Hp1, (dict_set_end sid) in Hp2 by (by apply dict_get_None_keys).
      split; [exact Hs0|]. split; [exact Hg|]. split; [|by (eexists; split; [|exact Hp2])].
      intros Hin%Hj'. rewrite Hp2, <- dict_set_end, dict_get_set_eq in Hin by (by apply dict_get_None_keys).
      done.
    + revert Hs. unfold submit. rewrite st_bind_eq. unfold get. cbv beta iota.
      case_goal; [by intros [= <- _]|]. rewrite st_bind_eq.
      destruct (_acquire_sid m) as [m1 [sid|e1]] eqn:Ha;
        destruct (acquire_spec m m1 _ Hw Ha) as (_ & Hp1 & _); [|by intros [= <- _]].
      rewrite st_bind_eq. destruct (_send _ _ _ _ _ m1) as [m2 [[]|e2]] eqn:Hsend; [done|].
      intros [= <- _]. by rewrite (send_err _ _ _ _ _ _ _ Hsend).
  - intros Hst Hfree Hnext. revert Hs. unfold submit. rewrite st_bind_eq. unfold get. cbv beta iota.
    rewrite Hst. rewrite bool_decide_true by done. cbn [negb]. cbv iota. rewrite st_bind_eq.
    destruct (_acquire_sid m) as [m1 [sid|e1]] eqn:Ha; cbv beta iota;
      revert Ha; unfold _acquire_sid; rewrite st_bind_eq; unfold get; cbv beta iota;
      rewrite Hfree; cbn [last]; rewrite st_bind_eq; unfold modify; cbv beta iota;
      apply dict_mem_true in Hnext; rewrite Hnext; intros [= <- <-]. by intros [= _ <-].
Qed.

(** The bytes of a signed request. *)
Lemma submit_signed_frames req path m m' sid s :
  signer m = Some s -> Signer.required s (opcode req) = true -> 0 <= Signer.seqno s < 2 ^ 64 - 1 ->
  submit hmac_sha256 req path false m = (m', Ok sid) ->
  exists f body sv p,
    encode req sid = Ok f /\ payload req = Ok body
    /\ encode (Sigver_init (opcode req) (Signer.seqno s + 1)
                (hmac_sha256 (Signer.key s) (be_enc 8 (Signer.seqno s + 1) ++ take 24 f ++ body))
                None false) sid = Ok sv
    /\ out m' = out m ++ sv ++ f
    /\ option_map Signer.seqno (signer m') = Some (Signer.seqno s + 1)
    /\ dict_get sid (pending m') = Some p /\ p_frame p = sv ++ f.
Proof.
  intros Hsig Hreq Hseq (_ & m1 & (Hs1 & Ho1 & _)%acquire_fields & Hsend)%submit_ok.
  apply send_ok in Hsend as (f & pre & m3 & sg & Hf & Hsf & Hpre & Hs2 & Hp & Ho).
  cbn [andb] in Ho. destruct Ho as [Ho _].
  pose proof Hf as (w & body & Hw & Hlw & Hb & Hop & Hd & Ef)%encode_ok.
  exists f, body. unfold sign_frame in Hsf. rewrite Hs1, Hsig in Hsf.
  destruct (Signer.sign hmac_sha256 s f) as [s' r'] eqn:Esign. injection Hsf as <- ->.
  rewrite (sign_encoded hmac_sha256 s req sid f body) in Esign
    by (done || apply path_data_or_trailer).
  injection Esign as <- <-. eexists pre, _. rewrite Ho, Ho1, Hs2, Hp, dict_get_set_eq. done.
Qed.

(** A submitted request goes out on a stream nobody is using: the id it
    is given was free, is in range, now belongs to that request, and no
    other stream in flight is touched. *)
Theorem submit_fresh req path arrive m m' sid :
  reachable m -> submit hmac_sha256 req path arrive m = (m', Ok sid) ->
  state m = READY
  /\ dict_get sid (pending m) = None /\ 4 <= sid <= 65535
  /\ (exists p, dict_get sid (pending m') = Some p /\ p_request p = req /\ p_buffer p = []
                 /\ p_pathid p = pathid req /\ exists f, encode req sid = Ok f /\ f `suffix_of` p_frame p)
  /\ (forall sid', sid' <> sid -> dict_get sid' (pending m') = dict_get sid' (pending m)).
Proof.
  intros Hw%reachable_wf (Es & m1 & Ha & Hsend)%submit_ok.
  destruct (acquire_spec m m1 _ Hw Ha) as (Hw1 & Hp1 & Hs0 & Hg & Hf).
  apply send_ok in Hsend as (f & pre & m3 & sg & Hf' & _ & _ & _ & Hp2 & _).
  rewrite Hp1 in Hp2. split_and!; try done; try apply Hs0.
  - eexists. rewrite Hp2, dict_get_set_eq. split; [done|]. simpl.
    repeat split. exists f. split; [done|]. by exists pre.
  - intros s Hne. rewrite Hp2. by apply dict_get_set_ne.
Qed.

(** A signed request travels behind its signature. On a session with a
    key, at a level that covers the request's opcode, [submit] queues a
    [kXR_sigver] frame on the same stream immediately before the request,
    carrying the HMAC of the next sequence number, the request's own
    24-byte header and its payload - and not the trailing data that [dlen]
    does not count - and the sequence number advances by one. *)
Theorem submit_signed req path m m' sid s :
  signer m = Some s -> Signer.required s (opcode req) = true -> 0 <= Signer.seqno s < 2 ^ 64 - 1 ->
  submit hmac_sha256 req path false m = (m', Ok sid) ->
  exists f body sv,
    encode req sid = Ok f /\ payload req = Ok body
    /\ encode (Sigver_init (opcode req) (Signer.seqno s + 1)
                (hmac_sha256 (Signer.key s) (be_enc 8 (Signer.seqno s + 1) ++ take 24 f ++ body))
                None false) sid = Ok sv
    /\ out m' = out m ++ sv ++ f
    /\ option_map Signer.seqno (signer m') = Some (Signer.seqno s + 1).
Proof.
  intros Hsig Hreq Hseq Hs.
  destruct (submit_signed_frames req path m m' sid s Hsig Hreq Hseq Hs)
    as (f & body & sv & p & Hf & Hb & Hsv & Ho & Hq & _). by exists f, body, sv.
Qed.
End Streams.

(** ** The demonstration session *)

Lemma demo_ready_reachable : reachable demo_hmac demo_pid demo_text demo_ready.
Proof.
  unfold demo_ready, demo_receive.
  do 3 (eapply reachable_call; [|apply call_receive_data]).
  eapply reachable_call; [|apply call_start]. apply reachable_make.
Qed.

Lemma demo_busy_reachable : reachable demo_hmac demo_pid demo_text demo_busy.
Proof.
  unfold demo_busy, demo_read.
  do 2 (eapply reachable_call; [|apply call_submit]). apply demo_ready_reachable.
Qed.

Lemma streams_never_shared_witness :
  exists m' p, submit demo_hmac Ping [] false demo_busy = (m', Ok 6)
    /\ dict_get 6 (pending demo_busy) = None /\ pending m' = pending demo_busy ++ [(6, p)].
Proof.
  assert ((submit demo_hmac Ping [] false demo_busy).2 = Ok 6) as Hr by (vm_compute; reflexivity).
  destruct (submit demo_hmac Ping [] false demo_busy) as [m' r] eqn:E. cbn [snd] in Hr. subst r.
  destruct (streams_never_shared demo_hmac demo_pid demo_text Ping [] false demo_busy m' (Ok 6)
              demo_busy_reachable E) as ((_ & Hn & _ & p & _ & Hp) & _).
  exists m', p. split; [reflexivity|]. split; [exact Hn | exact Hp].
Defined.

Lemma submit_fresh_witness :
  exists m', submit demo_hmac (Ping) [] false demo_busy = (m', Ok 6)
    /\ dict_get 6 (pending demo_busy) = None
    /\ dict_get 4 (pending m') = dict_get 4 (pending demo_busy).
Proof.
  assert ((submit demo_hmac Ping [] false demo_busy).2 = Ok 6) as Hr by (vm_compute; reflexivity).
  destruct (submit demo_hmac Ping [] false demo_busy) as [m' r] eqn:E. cbn [snd] in Hr. subst r.
  exists m'. split; [done|].
  destruct (submit_fresh demo_hmac demo_pid demo_text Ping [] false demo_busy m' 6 demo_busy_reachable E)
    as (_ & Hn & _ & _ & Ho).
  split; [exact Hn | by apply Ho].
Defined.

Lemma submit_signed_witness :
  exists m' sv f, submit demo_hmac (Rm (s_ "/a")) [] false demo_signed = (m', Ok 4)
    /\ out m' = out demo_signed ++ sv ++ f /\ zlen sv = 24 + 32 /\ zlen f = 24 + 2.
Proof.
  assert ((submit demo_hmac (Rm (s_ "/a")) [] false demo_signed).2 = Ok 4) as Hr
    by (vm_compute; reflexivity).
  destruct (submit demo_hmac (Rm (s_ "/a")) [] false demo_signed) as [m' r] eqn:E.
  cbn [snd] in Hr. subst r.
  assert (Signer.required demo_signer (opcode (Rm (s_ "/a"))) = true) as Hq by (vm_compute; reflexivity).
  assert (0 <= Signer.seqno demo_signer < 2 ^ 64 - 1) as Hn
    by (split; [vm_compute; discriminate | vm_compute; reflexivity]).
  destruct (submit_signed demo_hmac (Rm (s_ "/a")) [] demo_signed m' 4 demo_signer
              demo_signed_signer Hq Hn E) as (f & body & sv & Hf & Hb & Hsv & Ho & _).
  clear Hq Hn. exists m', sv, f. split; [reflexivity|]. split; [exact Ho|]. clear E.
  assert (zlen <$> encode (Rm (s_ "/a")) 4 = (Ok 26 : res Z)) as Hl by (vm_compute; reflexivity).
  rewrite Hf in Hl. injection Hl as Hl. split; [|exact Hl].
  apply encode_length in Hsv as (b' & Hb' & ->). injection Hb' as <-.
  unfold demo_hmac, zlen. rewrite length_take, !length_app, length_replicate. simpl trailer.
  simpl length. lia.
Defined.
