(* ===== verification/MachineDelivery.v ===== *)
(** * Delivery: what the bytes of a link become

    [SessionMachine.receive_data] from the point of view of the requests in
    flight: every complete frame is handed over, one response touches one
    stream, and every request that leaves the table does so with exactly one
    terminal event. *)

From S2P Require Import Prelude PyStr Constants Errors Buffer Frames Requests Responses Sigver ConfigFile Machine MachineFraming MachineStreams.
Import MachineScenarios.
From Stdlib Require Import QArith.
Open Scope Z_scope.
Import SessionMachine.

(** The stream an event says is over: answered, or failed for good. *)
Definition terminal (e : Event) : option Z :=
  match e with
  | Completed sid _ _ _ => Some sid
  | Failed (Some sid) _ _ => Some sid
  | _ => None
  end.

Section Delivery.
Context {C I : Type} `{CredentialOps C I}.
Variable getpid : Z.
Variable describe_exn : exn -> str.

Notation machine := (@machine C I).
Notation M := (st exn machine).
Notation dispatch := (_dispatch getpid describe_exn).
Notation step := (parse_step getpid describe_exn).
Notation parse := (_parse getpid describe_exn).
Notation receive := (receive_data getpid describe_exn).
Implicit Types (m : machine) (sid link : Z) (b : bytes).

(** ** Nothing complete is left behind *)

(** What the link holds is short of the frame or trailer it waits for. *)
Definition short (f : Framer) : Prop :=
  if f_need_trailer f =? 0 then
    match f_header f with
    | Some h => zlen (f_buffer f) < rh_dlen h
    | None => zlen (f_buffer f) < RESPONSE_HDRLEN
    end
  else zlen (f_buffer f) < f_need_trailer f.

Lemma take_body_false link h m m' :
  take_body getpid describe_exn link h m = (m', Ok false) ->
  m' = m /\ zlen (f_buffer (framer_of link m)) < rh_dlen h.
Proof.
  unfold take_body. cbv zeta. case_goal; zbool; [by intros [= <-]|].
  intros (? & ? & _ & Hr)%st_bind_ok. done.
Qed.

Lemma step_short link m m' : step link m = (m', Ok false) -> short (framer_of link m').
Proof.
  rewrite step_eq. cbv zeta. unfold short. set (f := framer_of link m).
  destruct (f_need_trailer f =? 0) eqn:En; simpl.
  - destruct (f_header f) as [h|] eqn:Eh.
    + intros [-> Hl]%take_body_false. fold f. by rewrite En, Eh.
    + case_goal; zbool; [intros [= <-]; fold f; rewrite Eh; by destruct (Z.eqb_spec (f_need_trailer f) 0)|].
      destruct (decode_header _) as [h|]; [|done].
      intros [-> Hl]%take_body_false. rewrite framer_of_set in *. simpl in *.
      by destruct (Z.eqb_spec (f_need_trailer f) 0).
  - case_goal; zbool.
    + intros [= <-]. fold f. by destruct (Z.eqb_spec (f_need_trailer f) 0).
    + destruct (f_trailer_for f) as [sid|]; [|done]. intros (? & ? & _ & Hr)%st_bind_ok. done.
Qed.

(** [_parse] terminates having handed over everything it could: when
    [receive_data] returns, the link holds strictly less than the header,
    the body or the trailer it is waiting for. *)
Theorem receive_drains link b m m' :
  b <> [] -> receive (Some b) link m = (m', Ok tt) -> short (framer_of link m').
Proof.
  intros Hb. rewrite receive_eq by done. generalize (grow link b m). clear m.
  intros m. remember (parse_measure (framer_of link m)) as n eqn:Hn. revert m Hn.
  induction n as [n IH] using lt_wf_ind. intros m ->. rewrite parse_unfold.
  destruct (step link m) as [m1 [[]|e]] eqn:E; [| |done].
  - apply (IH (parse_measure (framer_of link m1))); [by apply step_measure in E | done].
  - intros [= <-]. by apply step_short in E.
Qed.

(** ** One response, one stream *)

(** What handling a response for [sid] may do to the machine. *)
Inductive effect sid m m' : Prop :=
| effect_kept es :
    (pending m' = pending m \/ exists p', pending m' = dict_set sid p' (pending m)) ->
    free m' = free m -> events m' = events m ++ es -> (length es <= 1)%nat ->
    Forall (fun e => event_streamid e = Some sid /\ terminal e = None) es -> effect sid m m'
| effect_done e :
    pending m' = dict_pop sid (pending m) ->
    free m' = (if _FIRST_SID <=? sid then free m ++ [sid] else free m) ->
    events m' = events m ++ [e] -> event_streamid e = Some sid -> terminal e = Some sid ->
    effect sid m m'.

(** The fields no response touches once the session is up. *)
Definition same_session m m' : Prop :=
  state m' = state m /\ out m' = out m /\ out_path m' = out_path m /\ signer m' = signer m
  /\ next_sid m' = next_sid m /\ protocol_info m' = protocol_info m /\ tls_active m' = tls_active m
  /\ session_id m' = session_id m.

Lemma release_emit sid p e m :
  dict_get sid (pending m) = Some p -> event_streamid e = Some sid -> terminal e = Some sid ->
  let m' := ((release sid ≫= fun _ => emit e : M unit) m).1 in
  effect sid m m' /\ same_session m m' /\ framers m' = framers m.
Proof.
  intros Hp He Ht. unfold release, emit. rewrite st_bind_eq. unfold modify. cbv beta iota. simpl fst.
  unfold release_. rewrite Hp. cbv zeta.
  split; [apply (effect_done sid m _ e); [..|done|done]|]; repeat case_goal; done.
Qed.

Lemma pending_emit sid f e m :
  event_streamid e = Some sid -> terminal e = None ->
  let m' := ((modify (set_pending_at sid f) ≫= fun _ => emit e : M unit) m).1 in
  effect sid m m' /\ same_session m m' /\ framers m' = framers m.
Proof.
  intros He Ht. unfold emit. rewrite st_bind_eq. unfold modify. cbv beta iota. simpl fst.
  unfold set_pending_at. destruct (dict_get sid (pending m)) as [p|]; simpl.
  all: split; [|done].
  - apply (effect_kept sid m _ [e]); simpl; [right; eauto|done|done|lia|by repeat constructor].
  - apply (effect_kept sid m _ [e]); simpl; [by left|done|done|lia|by repeat constructor].
Qed.

Lemma emit_effect sid e m :
  event_streamid e = Some sid -> terminal e = None ->
  let m' := ((emit e : M unit) m).1 in effect sid m m' /\ same_session m m' /\ framers m' = framers m.
Proof.
  intros He Ht. split; [|done].
  apply (effect_kept sid m _ [e]); simpl; [by left|done|done|lia|by repeat constructor].
Qed.

Lemma effect_refl sid m : effect sid m m.
Proof. apply (effect_kept sid m m []); [by left|done|by rewrite app_nil_r|simpl; lia|done]. Qed.

Lemma effect_after sid f m m' :
  effect sid (set_pending_at sid f m) m' -> effect sid m m'.
Proof.
  unfold set_pending_at. destruct (dict_get sid (pending m)) as [p|]; [|done].
  destruct 1 as [es Hp Hf He Hl Ha | e Hp Hf He Hs Ht]; simpl in *.
  - apply (effect_kept sid m m' es); [|done..]. right.
    destruct Hp as [Hp|[p' Hp]]; [by eexists|]. exists p'. by rewrite Hp, dict_set_set.
  - apply (effect_done sid m m' e); [|done..]. by rewrite Hp, dict_pop_set.
Qed.

Lemma same_session_after sid f m m' :
  same_session (set_pending_at sid f m) m' -> same_session m m'.
Proof. unfold set_pending_at. by destruct (dict_get sid (pending m)). Qed.

Lemma on_status_data_effect sid data m :
  let m' := ((_on_status_data sid data : M unit) m).1 in effect sid m m' /\ same_session m m'.
Proof.
  unfold _on_status_data. rewrite st_bind_eq. unfold get. cbv beta iota zeta.
  destruct (dict_get sid (pending m)) as [p|] eqn:Ep; [|split; [apply effect_refl|done]].
  destruct (p_status p) as [info|]; [|split; [apply effect_refl|done]].
  destruct (is_final info).
  - destruct (release_emit sid p (Completed sid (p_request p) (p_buffer p ++ data) (Some info)) m)
      as (He & Hs & _); done.
  - destruct (pending_emit sid (pending_extend data) (Chunk sid (p_request p) data) m)
      as (He & Hs & _); done.
Qed.

Lemma lift_effect {A} sid (r : res A) (k : A -> M unit) m :
  (forall a, effect sid m (k a m).1 /\ same_session m (k a m).1) ->
  effect sid m ((lift r ≫= k) m).1 /\ same_session m ((lift r ≫= k) m).1.
Proof.
  intros Hk. rewrite st_bind_eq. unfold lift. destruct r as [a|e]; [apply Hk|].
  split; [apply effect_refl|done].
Qed.

Lemma status_effect sid link info m :
  let m' := ((modify (set_pending_at sid (pending_set_status info)) ≫= fun _ =>
    if negb (si_dlen info =? 0) then
      modify (fun m =>
        let f := framer_of link m in
        set_framer link (mkFramer (f_buffer f) (f_header f) (si_dlen info) (Some sid)) m)
    else _on_status_data sid [] : M unit) m).1 in
  effect sid m m' /\ same_session m m'.
Proof.
  rewrite st_bind_eq. unfold modify at 1. cbv beta iota zeta.
  set (m1 := set_pending_at sid (pending_set_status info) m).
  destruct (negb (si_dlen info =? 0)).
  - split; [apply (effect_after sid (pending_set_status info)), (effect_kept sid m1 _ []); simpl;
      [by left|done|by rewrite app_nil_r|lia|done]
      | by apply (same_session_after sid (pending_set_status info))].
  - destruct (on_status_data_effect sid [] m1) as [He Hs].
    split; [by eapply effect_after | by eapply same_session_after].
Qed.

Lemma on_response_effect h body p link m :
  dict_get (rh_streamid h) (pending m) = Some p ->
  let m' := ((_on_response h body p link : M unit) m).1 in
  effect (rh_streamid h) m m' /\ same_session m m'.
Proof.
  intros Hp. unfold _on_response. cbv zeta. repeat case_goal.
  - destruct (release_emit (rh_streamid h) p (Completed (rh_streamid h) (p_request p)
      (p_buffer p ++ body) (p_status p)) m) as (He & Hs & _); done.
  - destruct (pending_emit (rh_streamid h) (pending_extend body)
      (Chunk (rh_streamid h) (p_request p) body) m) as (He & Hs & _); done.
  - apply lift_effect. intros info.
    edestruct (release_emit (rh_streamid h) p (Failed (Some (rh_streamid h)) (Some (p_request p))
      (_server_error info (p_path p))) m) as (He & Hs & _); done.
  - apply lift_effect. intros t.
    destruct (emit_effect (rh_streamid h) (Redirected (rh_streamid h) (p_request p) t) m)
      as (He & Hs & _); done.
  - apply lift_effect. intros w. rewrite st_bind_eq. unfold get. cbv beta iota.
    edestruct (emit_effect (rh_streamid h) (Waiting (rh_streamid h) (p_request p)
      (qmin (inject_Z (wi_seconds w)) (c_wait_cap (config m))) (wi_message w) true) m)
      as (He & Hs & _); done.
  - apply lift_effect. intros w.
    edestruct (emit_effect (rh_streamid h) (Waiting (rh_streamid h) (p_request p)
      (inject_Z (wi_seconds w)) [] false) m) as (He & Hs & _); done.
  - apply lift_effect. intros info. apply status_effect.
  - destruct (release_emit (rh_streamid h) p (Failed (Some (rh_streamid h)) (Some (p_request p))
      ProtocolError) m) as (He & Hs & _); done.
Qed.

(** A response is for one stream. On a session that is up, handling a
    response - even one the client rejects - changes nothing of any other
    request in flight, emits at most one event, and that one for the
    stream of the response; and a response for a stream that is not in
    flight changes nothing at all. *)
Theorem response_isolated h body link m m' r :
  in_bringup (state m) = false ->
  dispatch_to getpid describe_exn h body link m = (m', r) ->
  (forall sid', sid' <> rh_streamid h -> dict_get sid' (pending m') = dict_get sid' (pending m))
  /\ (exists es, events m' = events m ++ es /\ (length es <= 1)%nat
                 /\ Forall (fun e => event_streamid e = Some (rh_streamid h)) es)
  /\ same_session m m'
  /\ (dict_get (rh_streamid h) (pending m) = None -> m' = m).
Proof.
  intros Hst. unfold dispatch_to. rewrite st_bind_eq. unfold get. cbv beta iota. rewrite Hst.
  destruct (dict_get (rh_streamid h) (pending m)) as [p|] eqn:Ep.
  - intros Hr. destruct (on_response_effect h body p link m Ep) as [He Hs].
    rewrite Hr in He, Hs. simpl in He, Hs. split_and!; [| |done|done].
    + intros sid' Hne. destruct He as [es [Hp|[p' Hp]] _ _ _ _ | e Hp _ _ _ _]; rewrite Hp; [done| |].
      * by rewrite dict_get_set_ne.
      * by rewrite dict_get_pop_ne.
    + destruct He as [es _ _ He Hl Ha | e _ _ He Hs' _].
      * exists es. split_and!; [done|done|]. eapply Forall_impl; [exact Ha|]. naive_solver.
      * exists [e]. split_and!; [done|simpl; lia|]. by repeat constructor.
  - intros [= <- <-]. split_and!; try done. exists []. rewrite app_nil_r. split_and!; [done|simpl; lia|done].
Qed.

(** ** No request is lost, none is answered twice *)

Definition conserved m m' : Prop :=
  exists es, events m' = events m ++ es
             /\ dict_keys (pending m) ≡ₚ dict_keys (pending m') ++ omap terminal es.

Lemma conserved_refl m : conserved m m.
Proof. exists []. by rewrite !app_nil_r. Qed.

Lemma conserved_trans m1 m2 m3 : conserved m1 m2 -> conserved m2 m3 -> conserved m1 m3.
Proof.
  intros (es & He & Hk) (es' & He' & Hk'). exists (es ++ es').
  rewrite He', He, omap_app. split; [by rewrite app_assoc|].
  rewrite Hk, Hk'. rewrite <- !app_assoc. f_equiv. apply Permutation_app_comm.
Qed.

Lemma omap_nonterminal es sid :
  Forall (fun e => event_streamid e = Some sid /\ terminal e = None) es -> omap terminal es = [].
Proof. induction 1 as [|e es [_ He] _ IH]; simpl; [done|]. by rewrite He. Qed.

Lemma effect_conserved sid m m' :
  NoDup (dict_keys (pending m)) -> is_Some (dict_get sid (pending m)) ->
  effect sid m m' -> conserved m m'.
Proof.
  intros Hd Hs [es Hp _ He _ Ha | e Hp _ He _ Ht].
  - exists es. split; [done|]. rewrite (omap_nonterminal es sid Ha), app_nil_r.
    destruct Hp as [Hp|[p' Hp]]; rewrite Hp; [done|]. rewrite dict_keys_set.
    destruct Hs as [p Hs]. by rewrite Hs.
  - exists [e]. split; [done|]. simpl. rewrite Ht, Hp. by apply dict_keys_pop_perm.
Qed.

(** Bring-up leaves the requests in flight alone. *)
Definition aside m0 m : Prop :=
  pending m = pending m0
  /\ exists es, events m = events m0 ++ es /\ Forall (fun e => event_streamid e = None) es.

Lemma no_stream_terminal es : Forall (fun e => event_streamid e = None) es -> omap terminal es = [].
Proof. induction 1 as [|e es He _ IH]; [done|]. by destruct e as [| | | | | | | |[]| |]; simpl in *. Qed.

Section Aside.
Context (m0 : machine).
Notation A := (aside m0).

Lemma emit_aside e : event_streamid e = None -> preserves A (emit e : M unit).
Proof.
  intros Ht m (Hp & es & He & Hz). split; [exact Hp|]. exists (es ++ [e]). simpl.
  rewrite He, app_assoc. split; [done|]. apply Forall_app. by repeat constructor.
Qed.
Ltac bring := m_preserves ltac:(first [assumption | by apply emit_aside]); try by apply emit_aside.

Lemma fail_aside e : preserves A (_fail e : M unit).
Proof. unfold _fail. apply preserves_bind; [by apply preserves_modify|]. intros. by apply emit_aside. Qed.
Lemma begin_login_aside : preserves A (_begin_login getpid : M unit).
Proof. unfold _begin_login. bring. Qed.
Lemma become_ready_aside : preserves A (_become_ready : M unit).
Proof. unfold _become_ready. bring. Qed.
Hint Resolve fail_aside begin_login_aside become_ready_aside : xrd.
Lemma try_credentials_aside n : preserves A (try_credentials describe_exn n : M unit).
Proof. induction n as [|n IH]; simpl; bring; auto with xrd. Qed.
Hint Resolve try_credentials_aside : xrd.
Lemma next_credential_aside sec : preserves A (_next_credential describe_exn sec : M unit).
Proof. unfold _next_credential. bring. Qed.
Hint Resolve next_credential_aside : xrd.
Lemma auth_step_aside c : preserves A (_auth_step describe_exn c : M unit).
Proof. unfold _auth_step. bring. Qed.
Lemma after_protocol_aside : preserves A (_after_protocol getpid : M unit).
Proof. unfold _after_protocol. bring. Qed.
Hint Resolve auth_step_aside after_protocol_aside : xrd.
Lemma bringup_aside h body : preserves A (_bringup getpid describe_exn h body : M unit).
Proof. unfold _bringup. bring. Qed.
Lemma unwrap_attn_aside body : preserves A (_unwrap_attn body : M (option (ResponseHeader * bytes))).
Proof. unfold _unwrap_attn. bring. Qed.
End Aside.

Section Conserved.
Context (m0 : machine).
Definition accounted m : Prop := wf m /\ conserved m0 m.

Lemma accounted_by {A} (c : M A) :
  preserves wf c -> (forall m, wf m -> conserved m (c m).1) -> preserves accounted c.
Proof. intros Hw Hc m [Hm Hk]. split; [by apply Hw | eapply conserved_trans; [exact Hk | by apply Hc]]. Qed.

Lemma accounted_aside {A} (c : M A) :
  preserves wf c -> (forall m, preserves (aside m) c) -> preserves accounted c.
Proof.
  intros Hw Ha. apply accounted_by; [done|]. intros m _.
  destruct (Ha m m) as (Hp & es & He & Hz).
  { split; [done|]. exists []. by rewrite app_nil_r. }
  exists es. by rewrite Hp, (no_stream_terminal es Hz), app_nil_r.
Qed.

Lemma on_status_data_accounted sid data : preserves accounted (_on_status_data sid data : M unit).
Proof.
  apply accounted_by; [apply on_status_data_wf|]. intros m Hw.
  destruct (dict_get sid (pending m)) as [p|] eqn:Ep.
  - eapply effect_conserved; [apply Hw | by eexists | apply on_status_data_effect].
  - unfold _on_status_data. rewrite st_bind_eq. unfold get. cbv beta iota. rewrite Ep.
    apply conserved_refl.
Qed.

Lemma dispatch_to_accounted h body link :
  preserves accounted (dispatch_to getpid describe_exn h body link : M unit).
Proof.
  unfold dispatch_to. apply preserves_get. intros m Ha. case_goal.
  - clear E. revert m Ha. apply accounted_aside; [apply bringup_wf | intros; apply bringup_aside].
  - destruct (dict_get (rh_streamid h) (pending m)) as [p|] eqn:Ep; [|done].
    destruct Ha as [Hw Hk]. split; [by apply on_response_wf|].
    eapply conserved_trans; [exact Hk|].
    eapply effect_conserved; [apply Hw | by eexists | by apply on_response_effect].
Qed.

Lemma unwrap_attn_accounted body :
  preserves accounted (_unwrap_attn body : M (option (ResponseHeader * bytes))).
Proof.
  apply accounted_aside; [|intros; apply unwrap_attn_aside].
  unfold _unwrap_attn. m_preserves ltac:(assumption).
Qed.
Hint Resolve on_status_data_accounted dispatch_to_accounted unwrap_attn_accounted : xrd.

Lemma dispatch_accounted h body link : preserves accounted (dispatch h body link : M unit).
Proof. unfold _dispatch. m_preserves ltac:(assumption). Qed.
Hint Resolve dispatch_accounted : xrd.

Lemma parse_accounted link : preserves accounted (parse link : M unit).
Proof.
  assert (preserves accounted (step link : M bool)) as Hs
    by (unfold parse_step; m_preserves ltac:(assumption)).
  unfold _parse. apply preserves_get_all. intros m1.
  generalize (S (parse_measure (framer_of link m1))). intros n.
  induction n as [|n IH]; simpl; [by intros m|].
  apply preserves_bind; [done|]. intros []; [done|]. apply preserves_ret.
Qed.
End Conserved.

(** Failing a table of requests names each of them once. *)
Lemma fail_all_terminal e (ps : dict Z Pending) : omap terminal (fail_all e ps) = dict_keys ps.
Proof. induction ps as [|[k p] ps IH]; simpl; [done|]. by f_equal. Qed.

Lemma on_path_keys_perm p (ps : dict Z Pending) :
  dict_keys ps ≡ₚ dict_keys (filter (fun kv => p_pathid kv.2 <> p) ps) ++ dict_keys (on_path p ps).
Proof.
  unfold on_path. induction ps as [|[k q] ps IH]; simpl; [done|].
  rewrite !filter_cons. simpl. destruct (decide (p_pathid q = p)) as [Heq|Hne].
  - rewrite (decide_False (P := p_pathid q <> p)) by tauto. simpl. rewrite IH.
    apply Permutation_middle.
  - rewrite (decide_True (P := p_pathid q <> p)) by done. simpl. by rewrite IH.
Qed.

Lemma release_pending sid m : pending (release_ sid m) = dict_pop sid (pending m).
Proof.
  unfold release_. destruct (dict_get sid (pending m)) as [p|] eqn:E; [by case_goal|].
  apply dict_get_None_keys in E. symmetry. apply filter_all.
  intros [k q] Hk Hks. simpl in Hks. subst k. apply E, list_elem_of_fmap. by exists (sid, q).
Qed.

Lemma release_list_pending sids m :
  pending (foldl (fun m sid => release_ sid m) m sids)
  = filter (fun kv => kv.1 ∉ sids) (pending m).
Proof.
  revert m. induction sids as [|sid sids IH]; intros m; simpl.
  - symmetry. apply filter_all. intros [k p] _. apply not_elem_of_nil.
  - rewrite IH, release_pending. unfold dict_pop. rewrite list_filter_filter.
    apply filter_Forall_iff. intros [k p] _. simpl. rewrite not_elem_of_cons. tauto.
Qed.

(** The streams a lost path leaves in flight. *)
Lemma off_path p (ps : dict Z Pending) :
  NoDup (dict_keys ps) ->
  filter (fun kv => kv.1 ∉ dict_keys (on_path p ps)) ps = filter (fun kv => p_pathid kv.2 <> p) ps.
Proof.
  intros Hd. apply filter_Forall_iff. intros [k q] Hk. simpl. unfold dict_keys, on_path.
  rewrite list_elem_of_fmap. split.
  - intros Hn Hq. apply Hn. exists (k, q). by rewrite list_elem_of_filter.
  - intros Hq ([k' q'] & Hkk & [Hq' Hin]%list_elem_of_filter). simpl in *. subst k'.
    apply dict_in_get in Hk, Hin; [|done..]. congruence.
Qed.

Lemma forget_path_fields p m :
  NoDup (dict_keys (pending m)) ->
  let m' := ((forget_path p : M unit) m).1 in
  pending m' = filter (fun kv => p_pathid kv.2 <> p) (pending m) /\ events m' = events m
  /\ out_path m' = dict_pop p (out_path m) /\ framers m' = dict_pop p (framers m)
  /\ state m' = state m /\ out m' = out m.
Proof.
  intros Hd. unfold forget_path, modify. cbv zeta. simpl fst.
  rewrite <- (off_path p (pending m) Hd), <- release_list_pending.
  split; [done|]. generalize (dict_keys (on_path p (pending m))). intros sids.
  cbn [events out_path framers state out set_out_path set_framers].
  assert (forall sid m, events (release_ sid m) = events m /\ out_path (release_ sid m) = out_path m
    /\ framers (release_ sid m) = framers m /\ state (release_ sid m) = state m
    /\ out (release_ sid m) = out m) as Hr.
  { intros sid m1. unfold release_. destruct (dict_get sid (pending m1)); [|done]. by case_goal. }
  clear Hd. revert m. induction sids as [|sid sids IH]; intros m; simpl; [done|].
  destruct (IH (release_ sid m)) as (-> & -> & -> & -> & ->).
  destruct (Hr sid m) as (-> & -> & -> & -> & ->). done.
Qed.

(** The machine after the [setdefault] that opens [receive_data]. *)
Definition with_framer link m : machine :=
  set_framers (dict_setdefault link Framer_new (framers m)) m.

Lemma path_eof_eq link (data : option bytes) m :
  link <> 0 -> default [] data = [] ->
  receive data link m = _on_path_eof link (with_framer link m).
Proof.
  intros Hl Hb. unfold receive_data. rewrite st_bind_eq. unfold modify at 1. cbv beta iota.
  destruct data as [[|x b]|]; [|done|]; destruct (Z.eqb_spec link 0); done.
Qed.

Lemma eof_eq (data : option bytes) m :
  default [] data = [] -> receive data 0 m = _on_eof (with_framer 0 m).
Proof.
  intros Hb. unfold receive_data. rewrite st_bind_eq. unfold modify at 1. cbv beta iota.
  by destruct data as [[|x b]|].
Qed.

Lemma path_eof_fields link m :
  NoDup (dict_keys (pending m)) ->
  exists m', _on_path_eof link m = (m', Ok tt)
    /\ events m' = events m ++ fail_all ConnectionError (on_path link (pending m))
        ++ [PathLost link ("data path " +:+ pretty link +:+ " closed by peer")]
    /\ pending m' = filter (fun kv => p_pathid kv.2 <> link) (pending m)
    /\ framers m' = dict_pop link (framers m) /\ out_path m' = dict_pop link (out_path m)
    /\ state m' = state m /\ out m' = out m.
Proof.
  intros Hd. unfold _on_path_eof. rewrite st_bind_eq. unfold modify at 1. cbv beta iota.
  set (m1 := set_events _ m). rewrite st_bind_eq.
  destruct (forget_path_fields link m1 Hd) as (Hp & He & Ho & Hf & Hs & Hout).
  destruct (forget_path link m1) as [m2 [[]|e]] eqn:E; [|done]. simpl in *.
  eexists. split; [done|]. simpl. rewrite He, Hp, Ho, Hf, Hs, Hout. unfold m1. simpl.
  by rewrite <- app_assoc.
Qed.

Lemma eof_fields m :
  state m <> CLOSED -> state m <> FAILED ->
  exists m', _on_eof m = (m', Ok tt)
    /\ events m' = events m ++ fail_all ConnectionError (pending m)
        ++ [Disconnected "connection closed by peer"]
    /\ pending m' = [] /\ state m' = CLOSED /\ framers m' = framers m.
Proof.
  intros Hc Hf. unfold _on_eof. rewrite st_bind_eq. unfold get. cbv beta iota.
  rewrite !bool_decide_eq_false_2 by done. simpl orb. cbv iota.
  eexists. split; [reflexivity|]. simpl. by rewrite <- app_assoc.
Qed.

Lemma eof_over m : state m = CLOSED \/ state m = FAILED -> _on_eof m = (m, Ok tt).
Proof.
  intros Hs. unfold _on_eof. rewrite st_bind_eq. unfold get. cbv beta iota.
  destruct Hs as [-> | ->]; done.
Qed.

Lemma with_framer_id link m : is_Some (dict_get link (framers m)) -> with_framer link m = m.
Proof.
  intros [f Hf]. unfold with_framer, dict_setdefault. rewrite Hf. by destruct m.
Qed.

(** Losing a data path fails what was riding on it and nothing else.
    Every request routed over that path gets exactly one [Failed], in the
    order they were queued, then one [PathLost]; the requests on other
    links stay in flight untouched, and the control link's state and
    queued output are as they were. *)
Theorem path_eof_local link (data : option bytes) m :
  NoDup (dict_keys (pending m)) -> link <> 0 -> default [] data = [] ->
  exists m', receive data link m = (m', Ok tt)
    /\ events m' = events m
        ++ map (fun kv => Failed (Some kv.1) (Some (p_request kv.2)) ConnectionError)
             (filter (fun kv => p_pathid kv.2 = link) (pending m))
        ++ [PathLost link ("data path " +:+ pretty link +:+ " closed by peer")]
    /\ pending m' = filter (fun kv => p_pathid kv.2 <> link) (pending m)
    /\ dict_get link (framers m') = None /\ dict_get link (out_path m') = None
    /\ state m' = state m /\ out m' = out m.
Proof.
  intros Hd Hl Hb. rewrite path_eof_eq by done.
  destruct (path_eof_fields link (with_framer link m) Hd) as (m' & Hr & He & Hp & Hf & Ho & Hs & Hout).
  exists m'. split; [done|]. rewrite Hf, Ho. split_and!; try done; apply dict_get_pop_eq.
Qed.

(** C10: when the control link ends while the machine is neither CLOSED nor
    FAILED, every request in flight is failed - each exactly once, in
    submission order - before the one [Disconnected]; the table is empty, and
    a further end of file adds nothing. (After [close] the machine is CLOSED
    and an end of file is not reported.) *)
Theorem eof_fails_everything (data : option bytes) m :
  default [] data = [] -> state m <> CLOSED -> state m <> FAILED ->
  exists m', receive data 0 m = (m', Ok tt)
    /\ events m' = events m
        ++ map (fun kv => Failed (Some kv.1) (Some (p_request kv.2)) ConnectionError) (pending m)
        ++ [Disconnected "connection closed by peer"]
    /\ pending m' = [] /\ state m' = CLOSED
    /\ receive None 0 m' = (m', Ok tt).
Proof.
  intros Hb Hc Hf. rewrite eof_eq by done.
  destruct (eof_fields (with_framer 0 m) Hc Hf) as (m' & Hr & He & Hp & Hs & Hfr).
  exists m'. split_and!; try done. rewrite eof_eq by done. rewrite with_framer_id.
  - apply eof_over. by left.
  - rewrite Hfr. unfold with_framer, dict_setdefault. simpl.
    destruct (dict_get 0 (framers m)) eqn:E; [by eexists|]. rewrite dict_get_set_eq. by eexists.
Qed.

(** C3: no request is lost and none is answered twice. Whatever arrives on
    whatever link - responses, garbage that makes the client raise, an end
    of file - the requests in flight before are, each once, those in flight
    after and those one [Completed] or [Failed] event was queued for. *)
Theorem receive_conserves (data : option bytes) link m m' r :
  wf m -> receive data link m = (m', r) ->
  exists es, events m' = events m ++ es
             /\ dict_keys (pending m) ≡ₚ dict_keys (pending m') ++ omap terminal es.
Proof.
  intros Hw Hr. change (conserved m m').
  destruct (default [] data) as [|x b] eqn:Ed.
  - destruct (decide (link = 0)) as [->|Hl].
    + rewrite eof_eq in Hr by done.
      destruct (decide (state m = CLOSED \/ state m = FAILED)) as [Hs|Hs].
      * rewrite eof_over in Hr by done. injection Hr as <- <-.
        destruct (conserved_refl m) as (es & ? & ?). by exists es.
      * destruct (eof_fields (with_framer 0 m)) as (m1 & Hr1 & He & Hp & _); [by intros ?; tauto..|].
        rewrite Hr in Hr1. injection Hr1 as <- ->. eexists. split; [exact He|].
        rewrite Hp, omap_app, fail_all_terminal. simpl. by rewrite app_nil_r.
    + rewrite path_eof_eq in Hr by done.
      destruct (path_eof_fields link (with_framer link m)) as (m1 & Hr1 & He & Hp & _); [apply Hw|].
      rewrite Hr in Hr1. injection Hr1 as <- ->. eexists. split; [exact He|].
      rewrite Hp, omap_app, fail_all_terminal. simpl. rewrite app_nil_r. apply on_path_keys_perm.
  - destruct data as [b'|]; [|done]. simpl in Ed. subst b'. rewrite receive_eq in Hr by done.
    assert (accounted m (grow link (x :: b) m)) as Ha by (split; [exact Hw | apply (conserved_refl m)]).
    apply (parse_accounted m link) in Ha as [_ Ha]. by rewrite Hr in Ha.
Qed.

(** ** Frames are handled whole and in order *)

(** A message as the server means it. *)
Record message := mkMessage { msg_stream : Z; msg_status : Z; msg_body : bytes }.

Definition msg_frame (g : message) : bytes :=
  response_frame (msg_stream g) (msg_status g) (msg_body g).

(** A header that fits, and a status nothing follows outside the frame. *)
Definition plain (g : message) : Prop :=
  0 <= msg_stream g < 65536 /\ 0 <= msg_status g < 65536 /\ zlen (msg_body g) <= MAX_RESPONSE_BODY
  /\ msg_status g <> kXR_status /\ msg_status g <> kXR_attn.

(** What a machine with no buffers would do: handle each message in turn. *)
Fixpoint deliver link (gs : list message) : M unit :=
  match gs with
  | [] => mret tt
  | g :: gs =>
      dispatch_to getpid describe_exn
        (Build_ResponseHeader (msg_stream g) (msg_status g) (zlen (msg_body g))) (msg_body g) link
      ≫= fun _ => deliver link gs
  end.

Definition idle link m : Prop := dict_get link (framers m) = Some Framer_new.

Lemma response_frame_length sid status body : zlen (response_frame sid status body) = 8 + zlen body.
Proof. unfold response_frame. rewrite !zlen_app, !be_enc_zlen. lia. Qed.

(** The loop, at the start of a frame that is all there. *)
Lemma step_frame link g rest m :
  plain g -> idle link m ->
  step link (grow link (msg_frame g ++ rest) m)
  = match dispatch_to getpid describe_exn
            (Build_ResponseHeader (msg_stream g) (msg_status g) (zlen (msg_body g)))
            (msg_body g) link m with
    | (m', Ok _) => (grow link rest m', Ok true)
    | (m', Err e) => (grow link rest m', Err e)
    end.
Proof.
  intros (Hs & Ht & Hl & Hns & Hna) Hi. set (h := Build_ResponseHeader _ _ _).
  assert (framer_of link m = Framer_new) as Hf by (unfold framer_of; by rewrite Hi).
  rewrite step_eq, framer_of_grow, Hf. cbv zeta. cbn [Framer_new f_need_trailer f_header f_buffer app].
  change (negb (0 =? 0)) with false. cbv iota.
  unfold msg_frame at 1. rewrite zlen_app, response_frame_length.
  pose proof (zlen_nonneg (msg_body g)). pose proof (zlen_nonneg rest).
  destruct (Z.ltb_spec (8 + zlen (msg_body g) + zlen rest) RESPONSE_HDRLEN) as [Hc|_];
    [unfold RESPONSE_HDRLEN in Hc; lia|].
  change (slice_to (msg_frame g ++ rest) RESPONSE_HDRLEN) with (take 8 (msg_frame g ++ rest)).
  unfold msg_frame at 1. rewrite decode_header_frame by done. fold h.
  assert (slice_from (msg_frame g ++ rest) RESPONSE_HDRLEN = msg_body g ++ rest) as ->.
  { unfold slice_from, RESPONSE_HDRLEN, msg_frame, response_frame. simpl Z.ltb. cbv iota.
    set (n := be_enc 4 _).
    replace ((be_enc 2 (msg_stream g) ++ be_enc 2 (msg_status g) ++ n ++ msg_body g) ++ rest)
      with ((be_enc 2 (msg_stream g) ++ be_enc 2 (msg_status g) ++ n) ++ msg_body g ++ rest)
      by (by rewrite <- !app_assoc).
    apply drop_app_length'. unfold n. rewrite !length_app, !be_enc_length. done. }
  unfold take_body. cbv zeta. rewrite framer_of_set.
  cbn [Framer_new f_buffer f_need_trailer f_trailer_for].
  change (rh_dlen h) with (zlen (msg_body g)). rewrite zlen_app.
  destruct (Z.ltb_spec (zlen (msg_body g) + zlen rest) (zlen (msg_body g))); [lia|].
  rewrite slice_to_app, slice_from_app, set_framer_set, set_framer_grow.
  assert (set_framer link (mkFramer rest None 0 None) m = grow link rest m) as ->
    by (unfold grow; by rewrite Hf).
  unfold _dispatch. change (rh_status h) with (msg_status g).
  destruct (Z.eqb_spec (msg_status g) kXR_attn); [done|].
  rewrite st_bind_eq, dispatch_to_grow.
  by destruct (dispatch_to getpid describe_exn h (msg_body g) link m) as [m' [[]|e]].
Qed.

Lemma parse_idle link m : idle link m -> parse link m = (m, Ok tt).
Proof.
  intros Hi. rewrite parse_unfold, step_eq. cbv zeta.
  assert (framer_of link m = Framer_new) as -> by (unfold framer_of; by rewrite Hi). done.
Qed.

Lemma grow_nil link m : idle link m -> grow link [] m = m.
Proof.
  intros Hi. unfold grow, set_framer, framer_of. rewrite Hi. simpl.
  fold Framer_new. rewrite dict_set_same by done. by destruct m.
Qed.

Lemma dispatch_idle link g m :
  plain g -> idle link m ->
  idle link (dispatch_to getpid describe_exn
    (Build_ResponseHeader (msg_stream g) (msg_status g) (zlen (msg_body g))) (msg_body g) link m).1.
Proof.
  intros Hp Hi. refine (dispatch_to_framers getpid describe_exn
    (fun fs => dict_get link fs = Some Framer_new) _ _ link _ m Hi). apply Hp.
Qed.

Lemma parse_deliver link gs m :
  Forall plain gs -> idle link m ->
  match deliver link gs m with
  | (m', Ok _) => parse link (grow link (concat (map msg_frame gs)) m) = (m', Ok tt)
  | (m', Err e) =>
      exists rest, parse link (grow link (concat (map msg_frame gs)) m) = (grow link rest m', Err e)
  end.
Proof.
  intros Hg. revert m. induction Hg as [|g gs Hp Hg IH]; intros m Hi; simpl deliver; cbn [map concat].
  - unfold mret, st_ret. rewrite grow_nil by done. by apply parse_idle.
  - rewrite st_bind_eq, parse_unfold, step_frame by done.
    pose proof (dispatch_idle link g m Hp Hi) as Hi'.
    destruct (dispatch_to _ _ _ _ _ m) as [m1 [[]|e]]; [by apply IH|]. by eexists.
Qed.

(** Framing is transparent. Bytes that are the frames of a list of
    messages, however they arrive, do to the machine exactly what handling
    those messages one after the other does - up to the first that makes
    it raise, which raises the same exception. *)
Theorem receive_deliver link gs m :
  Forall plain gs -> gs <> [] -> idle link m ->
  match deliver link gs m with
  | (m', Ok _) => receive (Some (concat (map msg_frame gs))) link m = (m', Ok tt)
  | (m', Err e) =>
      exists rest, receive (Some (concat (map msg_frame gs))) link m = (grow link rest m', Err e)
  end.
Proof.
  intros Hg Hne Hi. rewrite receive_eq; [by apply parse_deliver|].
  destruct gs as [|g gs]; [done|]. cbn [map concat]. intros Hn%(f_equal zlen).
  unfold msg_frame at 1 in Hn. rewrite zlen_app, response_frame_length, zlen_nil in Hn.
  pose proof (zlen_nonneg (msg_body g)). pose proof (zlen_nonneg (concat (map msg_frame gs))). lia.
Qed.

(** *** Reassembly *)

Lemma deliver_ok link g m p :
  in_bringup (state m) = false -> msg_status g = kXR_ok -> dict_get (msg_stream g) (pending m) = Some p ->
  exists m', deliver link [g] m = (m', Ok tt)
    /\ events m' = events m ++ [Completed (msg_stream g) (p_request p) (p_buffer p ++ msg_body g) (p_status p)]
    /\ pending m' = dict_pop (msg_stream g) (pending m).
Proof.
  intros Hst Hs Hp. simpl. unfold dispatch_to. rewrite st_bind_eq, st_bind_eq. unfold get. cbv beta iota.
  cbn [rh_streamid]. rewrite Hst, Hp. unfold _on_response. cbn [rh_streamid rh_status].
  rewrite Hs. change (kXR_ok =? kXR_ok) with true. cbv iota zeta.
  unfold release, emit. rewrite st_bind_eq. unfold modify, mret, st_ret. cbv beta iota.
  eexists. split; [reflexivity|]. rewrite <- release_pending. unfold release_. rewrite Hp. cbv zeta.
  by case_goal.
Qed.

Lemma deliver_sofar link g m p :
  in_bringup (state m) = false -> msg_status g = kXR_oksofar ->
  dict_get (msg_stream g) (pending m) = Some p ->
  exists m', deliver link [g] m = (m', Ok tt)
    /\ events m' = events m ++ [Chunk (msg_stream g) (p_request p) (msg_body g)]
    /\ pending m' = dict_set (msg_stream g) (pending_extend (msg_body g) p) (pending m)
    /\ state m' = state m.
Proof.
  intros Hst Hs Hp. simpl. unfold dispatch_to. rewrite st_bind_eq, st_bind_eq. unfold get. cbv beta iota.
  cbn [rh_streamid]. rewrite Hst, Hp. unfold _on_response. cbn [rh_streamid rh_status].
  rewrite Hs. change (kXR_oksofar =? kXR_ok) with false. change (kXR_oksofar =? kXR_oksofar) with true.
  cbv iota zeta. unfold emit. rewrite st_bind_eq. unfold modify, mret, st_ret. cbv beta iota.
  eexists. split; [reflexivity|]. unfold set_pending_at. by rewrite Hp.
Qed.

Lemma deliver_app link gs gs' m m' :
  deliver link gs m = (m', Ok tt) -> deliver link (gs ++ gs') m = deliver link gs' m'.
Proof.
  revert m. induction gs as [|g gs IH]; intros m; simpl; [by intros [= <-]|].
  rewrite !st_bind_eq. destruct (dispatch_to _ _ _ _ _ m) as [m1 [[]|e]]; [|done]. apply IH.
Qed.

Lemma deliver_parts link sid parts m p :
  in_bringup (state m) = false -> dict_get sid (pending m) = Some p ->
  exists m', deliver link (map (mkMessage sid kXR_oksofar) parts) m = (m', Ok tt)
    /\ events m' = events m ++ map (Chunk sid (p_request p)) parts
    /\ pending m' = (match parts with [] => pending m
                     | _ => dict_set sid (pending_extend (concat parts) p) (pending m) end)
    /\ state m' = state m.
Proof.
  revert m p. induction parts as [|b bs IH]; intros m p Hst Hp.
  - exists m. by rewrite app_nil_r.
  - destruct (deliver_sofar link (mkMessage sid kXR_oksofar b) m p Hst eq_refl Hp)
      as (m1 & Hd & He & Hpe & Hs1). cbn [msg_stream msg_body] in *.
    assert (dict_get sid (pending m1) = Some (pending_extend b p)) as Hp1
      by (by rewrite Hpe, dict_get_set_eq).
    destruct (IH m1 (pending_extend b p)) as (m2 & Hd2 & He2 & Hpe2 & Hs2); [by rewrite Hs1|done|].
    exists m2. cbn [map].
    change (mkMessage sid kXR_oksofar b :: map (mkMessage sid kXR_oksofar) bs)
      with ([mkMessage sid kXR_oksofar b] ++ map (mkMessage sid kXR_oksofar) bs).
    rewrite (deliver_app _ _ _ _ _ Hd), Hd2, He2, He, Hpe2, Hs2, Hs1.
    split_and!; [done|by rewrite <- app_assoc| |done].
    destruct bs as [|b' bs]; [by rewrite Hpe; cbn [concat]; rewrite app_nil_r|].
    rewrite Hpe, dict_set_set. f_equal. unfold pending_extend. simpl. by rewrite <- !app_assoc.
Qed.

(** A partial reply is put back together. A request answered in any
    number of [kXR_oksofar] pieces and a final [kXR_ok] completes once,
    with the pieces in order and nothing else, a [Chunk] having announced
    each piece on the way; its stream is then no longer in flight. *)
Theorem reassembly link sid parts final m p :
  idle link m -> in_bringup (state m) = false -> dict_get sid (pending m) = Some p ->
  0 <= sid < 65536 -> Forall (fun b => zlen b <= MAX_RESPONSE_BODY) (final :: parts) ->
  exists m',
    receive (Some (concat (map (response_frame sid kXR_oksofar) parts)
                   ++ response_frame sid kXR_ok final)) link m = (m', Ok tt)
    /\ events m' = events m ++ map (Chunk sid (p_request p)) parts
                   ++ [Completed sid (p_request p) (p_buffer p ++ concat parts ++ final) (p_status p)]
    /\ pending m' = dict_pop sid (pending m).
Proof.
  intros Hi Hst Hp Hsid [Hfin Hall]%Forall_cons.
  set (gs := map (mkMessage sid kXR_oksofar) parts). set (g := mkMessage sid kXR_ok final).
  assert (concat (map (response_frame sid kXR_oksofar) parts) ++ response_frame sid kXR_ok final
          = concat (map msg_frame (gs ++ [g]))) as ->.
  { rewrite map_app, concat_app. cbn [map concat]. rewrite app_nil_r. unfold gs. by rewrite map_map. }
  assert (Forall plain (gs ++ [g])) as Hplain.
  { assert (forall st b, st = kXR_ok \/ st = kXR_oksofar -> zlen b <= MAX_RESPONSE_BODY ->
              plain (mkMessage sid st b)) as Hpl
      by (intros st b [-> | ->] Hb; unfold plain; simpl; unfold kXR_ok, kXR_oksofar,
            kXR_status, kXR_attn; split_and!; lia || done).
    apply Forall_app. split; [|apply Forall_singleton, Hpl; auto].
    unfold gs. apply Forall_map. eapply Forall_impl; [exact Hall|]. intros b Hb. by apply Hpl; auto. }
  destruct (deliver_parts link sid parts m p Hst Hp) as (m1 & Hd1 & He1 & Hp1 & Hs1).
  assert (exists q, dict_get sid (pending m1) = Some q /\ p_request q = p_request p
    /\ p_status q = p_status p /\ p_buffer q = p_buffer p ++ concat parts) as (q & Hq & Hqr & Hqs & Hqb).
  { rewrite Hp1. destruct parts; [exists p; by rewrite app_nil_r|].
    eexists. by rewrite dict_get_set_eq. }
  destruct (deliver_ok link g m1 q) as (m2 & Hd2 & He2 & Hp2); [by rewrite Hs1|done|done|].
  assert (deliver link (gs ++ [g]) m = (m2, Ok tt)) as Hd by (by rewrite (deliver_app _ _ _ _ _ Hd1)).
  exists m2. rewrite receive_eq.
  - pose proof (parse_deliver link (gs ++ [g]) m Hplain Hi) as Hr. rewrite Hd in Hr.
    split; [exact Hr|]. rewrite He2, He1, Hqr, Hqs, Hqb, Hp2. simpl.
    rewrite <- !app_assoc. split; [done|]. rewrite Hp1. destruct parts; [done|]. apply dict_pop_set.
  - rewrite map_app, concat_app. cbn [map concat]. rewrite app_nil_r.
    intros [_ Hn]%app_nil. apply (f_equal zlen) in Hn. unfold msg_frame in Hn.
    rewrite response_frame_length, zlen_nil in Hn. pose proof (zlen_nonneg (msg_body g)). lia.
Qed.
End Delivery.

(** ** On the demonstration session *)

(** A third request, routed over data path 1. *)
Definition demo_paths : demo_machine := demo_read demo_busy 1 true.

Lemma demo_paths_wf : wf demo_paths.
Proof.
  eapply reachable_wf, reachable_call; [apply demo_busy_reachable | apply call_submit].
Qed.

Lemma receive_drains_witness :
  exists m', receive_data demo_pid demo_text (Some (take 11 demo_stream)) 0 demo_busy = (m', Ok tt)
    /\ short (framer_of 0 m').
Proof.
  assert ((receive_data demo_pid demo_text (Some (take 11 demo_stream)) 0 demo_busy).2 = Ok tt) as Hr
    by (vm_compute; reflexivity).
  assert (take 11 demo_stream <> []) as Hne by (vm_compute; discriminate).
  destruct (receive_data demo_pid demo_text (Some (take 11 demo_stream)) 0 demo_busy) as [m' r] eqn:E.
  cbn [snd] in Hr. subst r. exists m'. split; [reflexivity|].
  exact (receive_drains demo_pid demo_text 0 (take 11 demo_stream) demo_busy m' Hne E).
Defined.

Lemma response_isolated_witness :
  exists m' r, dispatch_to demo_pid demo_text (Build_ResponseHeader 4 kXR_ok 2) (b_ "ok") 0 demo_busy = (m', r)
    /\ dict_get 5 (pending m') = dict_get 5 (pending demo_busy) /\ out m' = out demo_busy.
Proof.
  assert (in_bringup (state demo_busy) = false) as Hs by (vm_compute; reflexivity).
  destruct (dispatch_to demo_pid demo_text (Build_ResponseHeader 4 kXR_ok 2) (b_ "ok") 0 demo_busy)
    as [m' r] eqn:E.
  exists m', r. split; [reflexivity|].
  destruct (response_isolated demo_pid demo_text _ _ _ _ _ _ Hs E) as (Ho & _ & Hss & _).
  split; [apply Ho; discriminate | exact (proj1 (proj2 Hss))].
Defined.

Lemma path_eof_local_witness :
  exists m', receive_data demo_pid demo_text None 1 demo_paths = (m', Ok tt)
    /\ dict_keys (pending m') = [4; 5].
Proof.
  destruct (path_eof_local demo_pid demo_text 1 None demo_paths (so_pending _ _ _ demo_paths_wf)
              ltac:(discriminate) eq_refl) as (m' & Hr & _ & Hp & _).
  exists m'. split; [exact Hr|]. rewrite Hp. vm_compute. reflexivity.
Defined.

Lemma eof_fails_everything_witness :
  exists m', receive_data demo_pid demo_text None 0 demo_paths = (m', Ok tt)
    /\ pending m' = [] /\ omap terminal (events m') = [4; 5; 6].
Proof.
  assert (state demo_paths = READY) as Hs by (vm_compute; reflexivity).
  destruct (eof_fails_everything demo_pid demo_text None demo_paths eq_refl
              ltac:(rewrite Hs; discriminate) ltac:(rewrite Hs; discriminate))
    as (m' & Hr & He & Hp & _).
  exists m'. split; [exact Hr|]. split; [exact Hp|]. rewrite He. vm_compute. reflexivity.
Defined.

Lemma receive_conserves_witness :
  exists m' es, receive_data demo_pid demo_text (Some demo_stream) 0 demo_paths = (m', Ok tt)
    /\ events m' = events demo_paths ++ es
    /\ [4; 5; 6] ≡ₚ dict_keys (pending m') ++ omap terminal es.
Proof.
  assert ((receive_data demo_pid demo_text (Some demo_stream) 0 demo_paths).2 = Ok tt) as Hr
    by (vm_compute; reflexivity).
  destruct (receive_data demo_pid demo_text (Some demo_stream) 0 demo_paths) as [m' r] eqn:E.
  cbn [snd] in Hr. subst r.
  destruct (receive_conserves demo_pid demo_text _ 0 demo_paths m' _ demo_paths_wf E) as (es & He & Hk).
  exists m', es. split; [reflexivity|]. split; [exact He|].
  assert (dict_keys (pending demo_paths) = [4; 5; 6]) as Hd by (vm_compute; reflexivity).
  rewrite Hd in Hk. exact Hk.
Defined.

Definition demo_messages : list message :=
  [mkMessage 5 kXR_ok (b_ "second"); mkMessage 4 kXR_oksofar (b_ "fi"); mkMessage 4 kXR_ok (b_ "rst")].

Lemma demo_busy_idle : idle 0 demo_busy.
Proof. vm_compute. reflexivity. Qed.

Lemma demo_messages_plain : Forall plain demo_messages.
Proof.
  repeat apply Forall_cons_2; [..|apply Forall_nil_2];
    split_and!; vm_compute; try reflexivity; discriminate.
Qed.

Lemma receive_deliver_witness :
  exists m', deliver demo_pid demo_text 0 demo_messages demo_busy = (m', Ok tt)
    /\ receive_data demo_pid demo_text (Some (concat (map msg_frame demo_messages))) 0 demo_busy = (m', Ok tt).
Proof.
  assert ((deliver demo_pid demo_text 0 demo_messages demo_busy).2 = Ok tt) as Hr
    by (vm_compute; reflexivity).
  pose proof (receive_deliver demo_pid demo_text 0 demo_messages demo_busy demo_messages_plain
                ltac:(discriminate) demo_busy_idle) as Ht.
  destruct (deliver demo_pid demo_text 0 demo_messages demo_busy) as [m' r].
  cbn [snd] in Hr. subst r. exists m'. split; [reflexivity | exact Ht].
Defined.

Lemma reassembly_witness :
  exists m' p, receive_data demo_pid demo_text (Some (concat (map (response_frame 4 kXR_oksofar) [b_ "a"; b_ "bc"])
                 ++ response_frame 4 kXR_ok (b_ "d"))) 0 demo_busy = (m', Ok tt)
    /\ last (events m') = Some (Completed 4 (p_request p) (b_ "abcd") None).
Proof.
  assert (in_bringup (state demo_busy) = false) as Hs by (vm_compute; reflexivity).
  assert (match dict_get 4 (pending demo_busy) with
          | Some p => p_buffer p = [] /\ p_status p = None | None => False end) as Hp
    by (vm_compute; split; reflexivity).
  destruct (dict_get 4 (pending demo_busy)) as [p|] eqn:E; [|destruct Hp]. destruct Hp as [Hb Hst].
  destruct (reassembly demo_pid demo_text 0 4 [b_ "a"; b_ "bc"] (b_ "d") demo_busy p demo_busy_idle Hs E)
    as (m' & Hr & He & _).
  - split; [discriminate | reflexivity].
  - repeat apply Forall_cons_2; [..|apply Forall_nil_2]; vm_compute; discriminate.
  - exists m', p. split; [exact Hr|]. rewrite He, Hb, Hst, app_assoc, last_snoc. reflexivity.
Defined.
