(* ===== verification/MachineBodies.v ===== *)
(** * The events of a stream

    What the machine reports about one request, in order: pieces of the body,
    waits and redirects, then at most one end; and how the pieces relate to
    the body a [Completed] carries. *)

From S2P Require Import Prelude PyStr Constants Errors Buffer Frames Requests Responses Sigver ConfigFile Machine MachineFraming MachineStreams MachineDelivery.
Import MachineScenarios.
From Stdlib Require Import QArith.
Open Scope Z_scope.
Import SessionMachine.

(** The events about one stream. *)
Definition of_stream (sid : Z) (es : list Event) : list Event :=
  filter (fun e => event_streamid e = Some sid) es.

(** [es] are events about the stream of [request], of which [buf] has been
    received before; [after] is its entry in the table afterwards. *)
Fixpoint follows (request : Request) (buf : bytes) (es : list Event) (after : option Pending) : Prop :=
  match es with
  | [] => match after with Some p => p_request p = request /\ p_buffer p = buf | None => True end
  | Chunk _ q d :: es => q = request /\ follows request (buf ++ d) es after
  | Waiting _ q _ _ _ :: es | Redirected _ q _ :: es => q = request /\ follows request buf es after
  | Completed _ q data _ :: es =>
      q = request /\ (exists tail, data = buf ++ tail) /\ es = [] /\ after = None
  | Failed _ _ _ :: es => es = [] /\ after = None
  | _ => False
  end.

(** And then, more of the same. *)
Definition follows_on (p : option Pending) (es : list Event) (after : option Pending) : Prop :=
  match p with
  | Some p => follows (p_request p) (p_buffer p) es after
  | None => es = [] /\ after = None
  end.

Lemma follows_app request buf es p es' after :
  follows request buf es p -> follows_on p es' after -> follows request buf (es ++ es') after.
Proof.
  revert buf. induction es as [|e es IH]; intros buf; simpl.
  - destruct p as [p|]; [by intros [<- <-]|]. by intros _ [-> ->].
  - destruct e; simpl; try done; try (intros [-> Hf] Ho; split; [done|]; by apply IH).
    + intros (-> & Ht & -> & ->) [-> ->]. done.
    + intros (-> & ->) [-> ->]. done.
Qed.

Lemma follows_on_app p es q es' after :
  follows_on p es q -> follows_on q es' after -> follows_on p (es ++ es') after.
Proof.
  destruct p as [p|]; [apply follows_app|]. intros [-> ->] [-> ->]. done.
Qed.

(** Abandoning the stream. *)
Lemma follows_forget request buf es after : follows request buf es after -> follows request buf es None.
Proof.
  revert buf. induction es as [|e es IH]; intros buf; simpl; [done|].
  destruct e; simpl; try done; intuition.
Qed.

Lemma of_stream_app sid es es' : of_stream sid (es ++ es') = of_stream sid es ++ of_stream sid es'.
Proof. apply filter_app. Qed.

Lemma of_stream_all sid es : Forall (fun e => event_streamid e = Some sid) es -> of_stream sid es = es.
Proof. intros H. apply filter_all. by apply Forall_forall. Qed.

Lemma of_stream_none sid es : Forall (fun e => event_streamid e <> Some sid) es -> of_stream sid es = [].
Proof. induction 1 as [|e es He _ IH]; [done|]. unfold of_stream. by rewrite filter_cons_False. Qed.

Section Bodies.
Context {C I : Type} `{CredentialOps C I}.
Variable getpid : Z.
Variable describe_exn : exn -> str.
Notation machine := (@machine C I).
Notation M := (st exn machine).
Notation dispatch := (_dispatch getpid describe_exn).
Notation step := (parse_step getpid describe_exn).
Notation parse := (_parse getpid describe_exn).
Notation receive := (receive_data getpid describe_exn).
Implicit Types (m : machine) (sid link : Z) (b : bytes).

Definition bodies m m' : Prop :=
  exists es, events m' = events m ++ es
    /\ forall sid, follows_on (dict_get sid (pending m)) (of_stream sid es) (dict_get sid (pending m')).

Lemma bodies_refl m : bodies m m.
Proof.
  exists []. rewrite app_nil_r. split; [done|]. intros sid. by destruct (dict_get sid (pending m)).
Qed.

Lemma bodies_trans m1 m2 m3 : bodies m1 m2 -> bodies m2 m3 -> bodies m1 m3.
Proof.
  intros (es & He & Hf) (es' & He' & Hf'). exists (es ++ es'). rewrite He', He, app_assoc. split; [done|].
  intros sid. rewrite of_stream_app. by eapply follows_on_app.
Qed.

(** One response's worth of events, for one stream in flight. *)
Lemma bodies_one sid p es m m' :
  dict_get sid (pending m) = Some p -> events m' = events m ++ es ->
  Forall (fun e => event_streamid e = Some sid) es ->
  follows (p_request p) (p_buffer p) es (dict_get sid (pending m')) ->
  (forall sid', sid' <> sid -> dict_get sid' (pending m') = dict_get sid' (pending m)) -> bodies m m'.
Proof.
  intros Hp He Ha Hf Ho. exists es. split; [done|]. intros sid'.
  destruct (decide (sid' = sid)) as [->|Hne].
  - rewrite Hp, of_stream_all by done. done.
  - rewrite Ho, of_stream_none; [by destruct (dict_get sid' (pending m)) | |done].
    eapply Forall_impl; [exact Ha|]. naive_solver.
Qed.

Lemma release_emit_bodies sid p e m :
  dict_get sid (pending m) = Some p -> event_streamid e = Some sid ->
  follows (p_request p) (p_buffer p) [e] None ->
  bodies m ((release sid ≫= fun _ => emit e : M unit) m).1.
Proof.
  intros Hp He Hf. change (((release sid ≫= fun _ => emit e : M unit) m).1)
    with (set_events (events (release_ sid m) ++ [e]) (release_ sid m)).
  assert (Hev : events (release_ sid m) = events m)
    by (unfold release_; rewrite Hp; by case_goal).
  apply (bodies_one sid p [e]); cbn [pending events set_events].
  - done.
  - by rewrite Hev.
  - by repeat constructor.
  - by rewrite release_pending, dict_get_pop_eq.
  - intros sid' Hne. by rewrite release_pending, dict_get_pop_ne.
Qed.

(** An update of the stream's entry, and perhaps a report of it. *)
Lemma pending_emit_bodies sid p f es m m' :
  dict_get sid (pending m) = Some p -> pending m' = pending (set_pending_at sid f m) ->
  events m' = events m ++ es -> Forall (fun e => event_streamid e = Some sid) es ->
  follows (p_request p) (p_buffer p) es (Some (f p)) -> bodies m m'.
Proof.
  intros Hp Hpm He Ha Hf. apply (bodies_one sid p es); try done; rewrite Hpm; unfold set_pending_at;
    rewrite Hp; cbn [pending set_pending].
  - by rewrite dict_get_set_eq.
  - intros sid' Hne. by rewrite dict_get_set_ne.
Qed.

Lemma extend_emit_bodies sid p d q m :
  dict_get sid (pending m) = Some p -> q = p_request p ->
  bodies m ((modify (set_pending_at sid (pending_extend d)) ≫= fun _ => emit (Chunk sid q d) : M unit) m).1.
Proof.
  intros Hp ->. eapply (pending_emit_bodies sid p (pending_extend d) [Chunk sid (p_request p) d]);
    [done|done| |by repeat constructor|done].
  change (events (set_pending_at sid (pending_extend d) m) ++ [Chunk sid (p_request p) d]
    = events m ++ [Chunk sid (p_request p) d]).
  unfold set_pending_at. by rewrite Hp.
Qed.

Lemma emit_bodies sid p e m :
  dict_get sid (pending m) = Some p -> event_streamid e = Some sid ->
  follows (p_request p) (p_buffer p) [e] (Some p) -> bodies m ((emit e : M unit) m).1.
Proof.
  intros Hp He Hf. apply (bodies_one sid p [e]); try done; cbn; [by repeat constructor | by rewrite Hp].
Qed.

Lemma lift_bodies {A} (r : res A) (k : A -> M unit) m :
  (forall a, bodies m (k a m).1) -> bodies m ((lift r ≫= k) m).1.
Proof. intros Hk. rewrite st_bind_eq. unfold lift. destruct r; [apply Hk | apply bodies_refl]. Qed.

Lemma on_status_data_bodies sid data m : bodies m ((_on_status_data sid data : M unit) m).1.
Proof.
  unfold _on_status_data. rewrite st_bind_eq. unfold get. cbv beta iota zeta.
  destruct (dict_get sid (pending m)) as [p|] eqn:Ep; [|apply bodies_refl].
  destruct (p_status p) as [info|]; [|apply bodies_refl]. destruct (is_final info).
  - eapply release_emit_bodies; [done|done|]. simpl. split_and!; eauto.
  - by eapply extend_emit_bodies.
Qed.

Lemma on_response_bodies h body p link m :
  dict_get (rh_streamid h) (pending m) = Some p -> bodies m ((_on_response h body p link : M unit) m).1.
Proof.
  intros Hp. unfold _on_response. cbv zeta. repeat case_goal.
  - eapply release_emit_bodies; [done|done|]. simpl. split_and!; eauto.
  - by eapply extend_emit_bodies.
  - apply lift_bodies. intros info. by eapply release_emit_bodies.
  - apply lift_bodies. intros t. by eapply emit_bodies.
  - apply lift_bodies. intros w. rewrite st_bind_eq. unfold get. cbv beta iota. by eapply emit_bodies.
  - apply lift_bodies. intros w. by eapply emit_bodies.
  - apply lift_bodies. intros info. rewrite st_bind_eq. unfold modify at 1. cbv beta iota.
    set (m1 := set_pending_at (rh_streamid h) (pending_set_status info) m).
    assert (Hm1 : bodies m m1).
    { eapply (pending_emit_bodies _ p (pending_set_status info) []); try done.
      unfold m1, set_pending_at. rewrite Hp. cbn. by rewrite app_nil_r. }
    eapply bodies_trans; [exact Hm1|]. destruct (negb _); [|apply on_status_data_bodies].
    exists []. cbn. rewrite app_nil_r. split; [done|]. intros sid. by destruct (dict_get sid (pending m1)).
  - by eapply release_emit_bodies.
Qed.

(** ** Everything that arrives *)

Lemma aside_bodies m m' : aside m m' -> bodies m m'.
Proof.
  intros (Hp & es & He & Hz). exists es. split; [done|]. intros sid.
  rewrite Hp, of_stream_none; [by destruct (dict_get sid (pending m))|].
  eapply Forall_impl; [exact Hz|]. cbn. congruence.
Qed.

Section Tracked.
Context (m0 : machine).

Lemma bodies_aside {A} (c : M A) : (forall m, preserves (aside m) c) -> preserves (bodies m0) c.
Proof.
  intros Ha m Hb. eapply bodies_trans; [exact Hb|]. apply aside_bodies, Ha. split; [done|]. exists [].
  by rewrite app_nil_r.
Qed.

Lemma bodies_by {A} (c : M A) : (forall m, bodies m (c m).1) -> preserves (bodies m0) c.
Proof. intros Hc m Hb. eapply bodies_trans; [exact Hb | apply Hc]. Qed.

Lemma on_status_data_tracked sid data : preserves (bodies m0) (_on_status_data sid data : M unit).
Proof. apply bodies_by. intros. apply on_status_data_bodies. Qed.

Lemma dispatch_to_tracked h body link :
  preserves (bodies m0) (dispatch_to getpid describe_exn h body link : M unit).
Proof.
  unfold dispatch_to. apply preserves_get. intros m Hb. case_goal.
  - clear E. revert m Hb. apply bodies_aside. intros. apply bringup_aside.
  - destruct (dict_get (rh_streamid h) (pending m)) as [p|] eqn:Ep; [|done].
    eapply bodies_trans; [exact Hb|]. by apply on_response_bodies.
Qed.

Lemma unwrap_attn_tracked body :
  preserves (bodies m0) (_unwrap_attn body : M (option (ResponseHeader * bytes))).
Proof. apply bodies_aside. intros. apply unwrap_attn_aside. Qed.
Hint Resolve on_status_data_tracked dispatch_to_tracked unwrap_attn_tracked : xrd.

Lemma dispatch_tracked h body link : preserves (bodies m0) (dispatch h body link : M unit).
Proof. unfold _dispatch. m_preserves ltac:(assumption). Qed.
Hint Resolve dispatch_tracked : xrd.

Lemma parse_tracked link : preserves (bodies m0) (parse link : M unit).
Proof.
  assert (preserves (bodies m0) (step link : M bool)) as Hs
    by (unfold parse_step; m_preserves ltac:(assumption)).
  unfold _parse. apply preserves_get_all. intros m1.
  generalize (S (parse_measure (framer_of link m1))). intros n.
  induction n as [|n IH]; simpl; [by intros m|].
  apply preserves_bind; [done|]. intros []; [done|]. apply preserves_ret.
Qed.
End Tracked.

(** The ends of a table of streams: one for each that was in it. *)
Lemma of_stream_fail_all sid e (ps : dict Z Pending) :
  NoDup (dict_keys ps) ->
  of_stream sid (fail_all e ps)
  = match dict_get sid ps with Some p => [Failed (Some sid) (Some (p_request p)) e] | None => [] end.
Proof.
  unfold of_stream, fail_all, dict_keys. induction ps as [|[k p] ps IH]; [done|]. cbn [fmap list_fmap fst].
  intros [Hk Hn]%NoDup_cons. cbn [map dict_get fst snd]. rewrite filter_cons. cbn [event_streamid].
  destruct (decide (sid = k)) as [->|Hne].
  - rewrite decide_True by done. rewrite IH by done. by rewrite (proj2 (dict_get_None_keys k ps) Hk).
  - rewrite decide_False by congruence. by apply IH.
Qed.

Lemma dict_get_on_path link sid (ps : dict Z Pending) :
  NoDup (dict_keys ps) ->
  dict_get sid (on_path link ps)
  = match dict_get sid ps with Some p => if decide (p_pathid p = link) then Some p else None | None => None end
  /\ dict_get sid (filter (fun kv => p_pathid kv.2 <> link) ps)
  = match dict_get sid ps with Some p => if decide (p_pathid p = link) then None else Some p | None => None end.
Proof.
  unfold on_path, dict_keys. induction ps as [|[k p] ps IH]; [done|]. cbn [fmap list_fmap fst].
  intros [Hk Hn]%NoDup_cons. destruct (IH Hn) as [IH1 IH2]. rewrite !filter_cons. cbn [snd dict_get].
  assert (Hnone : sid = k -> dict_get sid ps = None) by (intros ->; by apply dict_get_None_keys).
  destruct (decide (p_pathid p = link)) as [Hp|Hp].
  - rewrite (decide_False (P := p_pathid p <> link)) by tauto. cbn [dict_get].
    destruct (decide (sid = k)) as [He|He]; [|done].
    split; [by repeat case_decide|]. rewrite IH2, Hnone by done. by repeat case_decide.
  - rewrite (decide_True (P := p_pathid p <> link)) by done. cbn [dict_get].
    destruct (decide (sid = k)) as [He|He]; [|done].
    split; [|by repeat case_decide]. rewrite IH1, Hnone by done. by repeat case_decide.
Qed.

Lemma path_eof_bodies link m :
  wf m -> bodies m (_on_path_eof link m : machine * res unit).1.
Proof.
  intros Hw. assert (Hn : NoDup (dict_keys (pending m))) by apply Hw.
  destruct (path_eof_fields link m Hn) as (m' & -> & He & Hp & _). eexists. split; [exact He|].
  intros sid. cbn [fst]. destruct (dict_get_on_path link sid (pending m) Hn) as [H1 H2].
  rewrite of_stream_app, of_stream_fail_all, H1, Hp, H2.
  - destruct (dict_get sid (pending m)) as [p|]; [|done]. by case_decide.
  - unfold dict_keys, on_path. eapply sublist_NoDup; [exact Hn | apply fmap_sublist, sublist_filter].
Qed.

Lemma eof_bodies m : wf m -> bodies m (_on_eof m : machine * res unit).1.
Proof.
  intros Hw. destruct (decide (state m = CLOSED \/ state m = FAILED)) as [Hs|Hs].
  - unfold _on_eof. rewrite st_bind_eq. unfold get. cbv beta iota.
    replace (bool_decide (state m = CLOSED) || bool_decide (state m = FAILED)) with true; [apply bodies_refl|].
    symmetry. apply orb_true_iff. rewrite !bool_decide_eq_true. done.
  - destruct (eof_fields m) as (m' & -> & He & Hp & _); [by intros ?; tauto..|]. eexists. split; [exact He|].
    intros sid. cbn [fst]. rewrite Hp, of_stream_app, of_stream_fail_all by apply Hw.
    by destruct (dict_get sid (pending m)).
Qed.

Lemma receive_follows (data : option bytes) link m : wf m -> bodies m (receive data link m).1.
Proof.
  intros Hw. destruct (default [] data) as [|x b] eqn:Ed.
  - destruct (decide (link = 0)) as [->|Hl].
    + rewrite eof_eq by done. apply (eof_bodies (with_framer 0 m)), Hw.
    + rewrite path_eof_eq by done. apply (path_eof_bodies link (with_framer link m)), Hw.
  - destruct data as [b'|]; [|done]. simpl in Ed. subst b'. rewrite receive_eq by done.
    apply (parse_tracked m link), (bodies_refl m).
Qed.

(** C2: what the machine tells of a request is a story with one end. Whatever
    arrives on whatever link, the events queued about a request in flight
    name that request, and are any number of pieces, waits and redirects
    followed by at most one [Completed] or [Failed], after which the stream
    is out of the table and nothing more is said of it; the pieces are what
    its buffer has grown by, and a [Completed] body begins with everything
    received before it. Of a stream not in flight nothing is said. *)
Theorem receive_bodies (data : option bytes) link m m' r :
  wf m -> receive data link m = (m', r) ->
  exists es, events m' = events m ++ es
    /\ forall sid, match dict_get sid (pending m) with
       | Some p => follows (p_request p) (p_buffer p) (of_stream sid es) (dict_get sid (pending m'))
       | None => of_stream sid es = [] /\ dict_get sid (pending m') = None
       end.
Proof. intros Hw Hr. pose proof (receive_follows data link m Hw) as Hb. by rewrite Hr in Hb. Qed.
End Bodies.

(** A piece and the end of one stream, in one read. *)
Lemma receive_bodies_witness :
  exists es, events (demo_receive (response_frame 4 kXR_oksofar (b_ "ab") ++ response_frame 4 kXR_ok (b_ "c"))
                       demo_busy) = events demo_busy ++ es
    /\ of_stream 5 es = [].
Proof.
  pose (data := response_frame 4 kXR_oksofar (b_ "ab") ++ response_frame 4 kXR_ok (b_ "c")).
  destruct (receive_bodies demo_pid demo_text (Some data) 0 demo_busy (demo_receive data demo_busy)
    (receive_data demo_pid demo_text (Some data) 0 demo_busy).2
    (reachable_wf demo_hmac demo_pid demo_text _ demo_busy_reachable)
    (surjective_pairing _)) as (es & He & Hf).
  exists es. split; [exact He|].
  assert (E : events (demo_receive data demo_busy)
    = events demo_busy ++ [Chunk 4 (Read (be_enc 4 1) 0 100 0) (b_ "ab");
                           Completed 4 (Read (be_enc 4 1) 0 100 0) (b_ "abc") None])
    by (vm_compute; reflexivity).
  rewrite E in He. apply app_inv_head in He. rewrite <- He. reflexivity.
Defined.
