(* ===== verification/MachineSecurity.v ===== *)
(** * The authentication ladder

    [SessionMachine._next_credential] walks the credentials an installation
    can offer. Under the law that each one it yields leaves one fewer, the
    walk ends by itself, and it ends with a decision. *)

From S2P Require Import Prelude PyStr Constants Errors Buffer Frames Requests Responses Sigver ConfigFile Machine MachineFraming MachineStreams MachineDelivery.
Import MachineScenarios.
From Stdlib Require Import QArith.
Open Scope Z_scope.
Import SessionMachine.

Section Ladder.
Context {C I : Type} `{CredentialLaws C I}.
Variable describe_exn : exn -> str.
Notation machine := (@machine C I).
Implicit Types (m : machine).

(** An [Auth] frame went out for the mechanism now in use. *)
Definition offered_one m m' : Prop :=
  state m' = state m /\ events m' = events m
  /\ exists c blob a f, credential m' = Some c /\ Auth_init (mechanism m') blob = Ok a
     /\ encode a _SID_AUTH = Ok f /\ out m' = out m ++ f.

(** Nothing is left to offer. *)
Definition gave_none m m' : Prop :=
  state m' = FAILED /\ out m' = out m
  /\ events m' = events m ++ [Failed None None (NoMechanismError (offered m') (auth_rejected m'))].

(** More fuel than credentials changes nothing. *)
Lemma try_credentials_fuel n n' m it :
  credentials m = Some it -> (cred_bound it < n)%nat -> (cred_bound it < n')%nat ->
  try_credentials describe_exn n m = try_credentials describe_exn n' m.
Proof.
  revert n' m it. induction n as [|n IH]; intros [|n'] m it Hc Hn Hn'; [lia..|].
  cbn [try_credentials]. rewrite !st_bind_eq. unfold get. cbv beta iota. rewrite Hc.
  destruct (cred_next it (auth_rejected m)) as [[it' d'] [[c|]|e]] eqn:E; [|done|done].
  apply cred_next_bound in E. cbv beta iota delta [mbind st_bind modify lift].
  destruct (cred_initial c) as [c' [b|e]]; [done|]. eapply IH; [done|lia|lia].
Qed.

Lemma send_auth_ok name blob m m' :
  send_auth name blob m = (m', Ok tt) ->
  exists a f, Auth_init name blob = Ok a /\ encode a _SID_AUTH = Ok f /\ m' = set_out (out m ++ f) m.
Proof.
  unfold send_auth. intros (m1 & a & Ha & Hr)%st_bind_ok. injection Ha as <- Ha.
  apply st_bind_ok in Hr as (m2 & f & Hf & Hr). injection Hf as <- Hf. injection Hr as <-. eauto.
Qed.

Lemma try_credentials_ends n m m' it :
  credentials m = Some it -> (cred_bound it < n)%nat -> try_credentials describe_exn n m = (m', Ok tt) ->
  offered_one m m' \/ gave_none m m'.
Proof.
  revert m it. induction n as [|n IH]; intros m it Hc Hn; [lia|].
  cbn [try_credentials]. rewrite st_bind_eq. unfold get at 1. cbv beta iota. rewrite Hc.
  destruct (cred_next it (auth_rejected m)) as [[it' d'] r] eqn:E.
  rewrite st_bind_eq. unfold modify at 1. cbv beta iota.
  set (m1 := set_auth_rejected d' (set_credentials (Some it') m)).
  rewrite st_bind_eq. unfold lift at 1. cbv beta iota. destruct r as [[c|]|e]; [| |done].
  - apply cred_next_bound in E. destruct (cred_initial c) as [c' [b|e]].
    + rewrite !st_bind_eq. unfold modify. cbv beta iota. rewrite st_bind_eq. cbv beta iota.
      intros (a & f & Ha & Hf & ->)%send_auth_ok. left. split_and!; [done|done|]. by exists c', b, a, f.
    + rewrite st_bind_eq. unfold modify. cbv beta iota. intros Hr.
      apply (IH _ it') in Hr as [Ho|Hg]; [by left | by right | done | lia].
  - rewrite st_bind_eq. unfold get. cbv beta iota. intros [= <-]. right. done.
Qed.

(** The ladder comes to a decision. Given credentials each of which
    leaves one fewer, [_next_credential] is never cut short - any larger
    bound gives the same run - and when it does not raise it has either
    queued exactly one [kXR_auth] frame, for the mechanism now in use, or
    failed the session with everything that was offered and tried, sending
    nothing. *)
Theorem ladder_decides sec m m' :
  _next_credential describe_exn sec m = (m', Ok tt) ->
  (forall it n, credentials m = Some it -> (cred_bound it < n)%nat ->
     try_credentials describe_exn n (set_credentials (Some it) m) = (m', Ok tt))
  /\ ((state m' = state m /\ events m' = events m
       /\ exists c blob a f, credential m' = Some c /\ Auth_init (mechanism m') blob = Ok a
          /\ encode a _SID_AUTH = Ok f /\ out m' = out m ++ f)
      \/ (state m' = FAILED /\ out m' = out m
          /\ events m' = events m ++ [Failed None None (NoMechanismError (offered m') (auth_rejected m'))])).
Proof.
  unfold _next_credential. rewrite st_bind_eq. unfold get. cbv beta iota zeta. rewrite st_bind_eq.
  unfold modify. cbv beta iota. intros Hr. split.
  - intros it n Hc Hn. rewrite Hc in Hr. rewrite <- Hr.
    apply (try_credentials_fuel _ _ _ it); [done|done|lia].
  - eapply try_credentials_ends in Hr as [Ho|Hg]; [by left | by right | done | apply Nat.lt_succ_diag_r].
Qed.
End Ladder.

(** ** A ladder of two rungs *)

(** The first mechanism has no credential; the second is [host]. *)
#[local] Instance TwoRungs : CredentialOps str (list str) := {
  cred_name c := c;
  cred_initial c := (c, if decide (c = s_ "sss") then Err CredentialError else Ok (b_ "me"));
  cred_step c _ := (c, Ok None);
  cred_session_key _ := None;
  cred_select _ _ _ _ := [s_ "sss"; s_ "host"];
  cred_next i d := match i with [] => ([], d, Ok None) | c :: i => (i, d, Ok (Some c)) end;
  cred_bound i := length i
}.

#[local] Instance TwoRungs_laws : CredentialLaws str (list str).
Proof. split. intros [|c i] d i' d' c' E; simplify_eq/=. lia. Qed.

Definition two_rungs : @machine str (list str) := make (s_ "h") 1094 demo_config None [] false [].

Lemma ladder_decides_witness :
  exists m', _next_credential demo_text (s_ "&P=sss&P=host") two_rungs = (m', Ok tt) /\ mechanism m' = s_ "host"
    /\ events m' = events two_rungs.
Proof.
  assert (Hr : exists m', _next_credential demo_text (s_ "&P=sss&P=host") two_rungs = (m', Ok tt)
    /\ mechanism m' = s_ "host" /\ state m' <> FAILED)
    by (vm_compute; eexists; split_and!; [reflexivity | reflexivity | discriminate]).
  destruct Hr as (m' & Hr & Hm & Hs). exists m'. split; [exact Hr|]. split; [exact Hm|].
  destruct (ladder_decides demo_text (s_ "&P=sss&P=host") two_rungs m' Hr) as [_ [(_ & He & _)|[Hf _]]];
    [exact He | destruct (Hs Hf)].
Defined.

(** ** Encryption policy

    [SessionMachine] never gets ahead of TLS: when the client's policy or
    the server's capability flags ask for an encrypted channel, nothing but
    the opening handshake is queued until the driver reports the channel is
    up. *)

Open Scope Z_scope.
Import SessionMachine.

Section Security.
Context {C I : Type} `{CredentialOps C I}.
Variable hmac_sha256 : bytes -> bytes -> bytes.
Variable getpid : Z.
Variable describe_exn : exn -> str.

Notation machine := (@machine C I).
Notation M := (st exn machine).
Notation reachable := (reachable hmac_sha256 getpid describe_exn).
Implicit Types (m : machine).

(** The bytes [start] queues. *)
Definition hello (tls : bool) : bytes :=
  HANDSHAKE ++ match encode (Protocol_init (Some (Z.lor (Z.lor kXR_secreqs kXR_ableTLS)
                               (if tls then kXR_wantTLS else 0)))) _SID_PROTOCOL with
               | Ok f => f
               | Err _ => []
               end.

(** Somebody asked for encryption: the client, or the server's flags. *)
Definition need_tls m : bool := want_tls m || tls_demanded (pi_flags (protocol_info m)).
Definition exposed m : bool := need_tls m && negb (tls_active m).

(** Before the client identifies itself, and after. *)
Definition early (s : State) : bool :=
  match s with NEW | HANDSHAKE_ | PROTOCOL | TLS => true | _ => false end.
Definition late (s : State) : bool :=
  match s with LOGIN | AUTH | BIND | READY => true | _ => false end.

(** Nothing has been queued but the opening handshake. *)
Definition silent m : Prop :=
  pending m = [] /\ out_path m = [] /\ (out m = [] \/ out m = hello (want_tls m)).

Record tls_ok m : Prop := {
  to_new : state m = NEW -> out m = [];
  to_silent : early (state m) || exposed m = true -> silent m;
  to_late : exposed m = true -> late (state m) = false
}.

Lemma hello_encode (tls : bool) :
  exists f, encode (Protocol_init (Some (Z.lor (Z.lor kXR_secreqs kXR_ableTLS)
                     (if tls then kXR_wantTLS else 0)))) _SID_PROTOCOL = Ok f
            /\ hello tls = HANDSHAKE ++ f.
Proof. unfold hello. destruct tls; vm_compute; eexists; split; reflexivity. Qed.

(** Once past the handshake with nothing outstanding on encryption, the
    policy has nothing more to say. *)
Definition open_ m : Prop := exposed m = false /\ early (state m) = false.

Lemma open_ok m : open_ m -> tls_ok m.
Proof.
  intros [He Hs]. split; [by intros E; rewrite E in Hs | by rewrite He, Hs | by rewrite He].
Qed.

Lemma late_open m : tls_ok m -> late (state m) = true -> open_ m.
Proof.
  intros Hm Hl. destruct (exposed m) eqn:E; [by rewrite (to_late m Hm E) in Hl|].
  split; [done|]. by destruct (state m).
Qed.

(** *** Handlers that run with the policy satisfied *)

Lemma release_open sid : preserves open_ (release sid : M unit).
Proof.
  apply preserves_modify. intros m Hm. unfold release_.
  destruct (dict_get sid (pending m)); [|done]. by case_goal.
Qed.
Lemma set_pending_at_open sid f : preserves open_ (modify (set_pending_at sid f) : M unit).
Proof.
  apply preserves_modify. intros m Hm. unfold set_pending_at.
  by destruct (dict_get sid (pending m)).
Qed.
Lemma sign_frame_open f : preserves open_ (sign_frame hmac_sha256 f : M _).
Proof.
  intros m Hm. unfold sign_frame. destruct (signer m); [|done].
  by destruct (Signer.sign hmac_sha256 t f).
Qed.
Lemma set_state_open s : early s = false -> preserves open_ (modify (set_state s) : M unit).
Proof. intros Hs. by apply preserves_modify; intros m [He _]. Qed.
Lemma fail_open e : preserves open_ (_fail e : M unit).
Proof. unfold _fail. apply preserves_bind; [by apply set_state_open|]. intros. by apply preserves_modify. Qed.
Hint Resolve release_open set_pending_at_open sign_frame_open fail_open : xrd.
Ltac open_tac :=
  m_preserves ltac:(first [assumption | by apply set_state_open]); try by apply set_state_open.

(** Read the rest of a method as a computation that keeps [open_]. *)
Ltac rest_open :=
  match goal with Ho : open_ ?m |- open_ (?c ?m).1 => refine ((_ : preserves open_ c) m Ho) end;
  open_tac.

Lemma begin_login_open m : exposed m = false -> open_ ((_begin_login getpid : M unit) m).1.
Proof.
  intros He. unfold _begin_login. rewrite st_bind_eq. unfold get. cbv beta iota.
  destruct (bind_to m) eqn:Eb; rewrite st_bind_eq; unfold modify at 1; cbv beta iota;
    rewrite st_bind_eq; unfold lift; destruct (encode _ _); done.
Qed.
Lemma become_ready_open : preserves open_ (_become_ready : M unit).
Proof. unfold _become_ready. open_tac. Qed.
Hint Resolve become_ready_open : xrd.
Lemma try_credentials_open n : preserves open_ (try_credentials describe_exn n : M unit).
Proof. induction n as [|n IH]; simpl; open_tac; auto with xrd. Qed.
Hint Resolve try_credentials_open : xrd.
Lemma next_credential_open sec : preserves open_ (_next_credential describe_exn sec : M unit).
Proof. unfold _next_credential. open_tac. Qed.
Hint Resolve next_credential_open : xrd.
Lemma auth_step_open c : preserves open_ (_auth_step describe_exn c : M unit).
Proof. unfold _auth_step. open_tac. Qed.
Hint Resolve auth_step_open : xrd.

Lemma on_status_data_open sid data : preserves open_ (_on_status_data sid data : M unit).
Proof. unfold _on_status_data. open_tac; auto with xrd. Qed.
Hint Resolve on_status_data_open : xrd.
Lemma on_response_open h body p link : preserves open_ (_on_response h body p link : M unit).
Proof. unfold _on_response. open_tac; auto with xrd. Qed.

(** *** Every handler respects the policy *)

(** Either the policy is met, or nothing is in flight. *)
Lemma tls_cases m : tls_ok m -> open_ m \/ pending m = [].
Proof.
  intros Hm. destruct (early (state m) || exposed m) eqn:E.
  - right. by apply (to_silent m Hm).
  - left. apply orb_false_iff in E as [? ?]. done.
Qed.

Lemma fail_tls e : preserves tls_ok (_fail e : M unit).
Proof.
  intros m Hm. split; simpl; [done| |done]. intros He.
  refine (to_silent m Hm _). unfold exposed, need_tls in *. simpl in He. rewrite He. apply orb_true_r.
Qed.
Hint Resolve fail_tls : xrd.

Lemma protocol_tls info m :
  tls_ok m -> state m = PROTOCOL ->
  tls_ok ((_after_protocol getpid : M unit)
            (set_events (events m ++ [Negotiated info]) (set_protocol_info info m))).1.
Proof.
  intros Hm Hs. assert (silent m) as (Hp & Hop & Ho) by (apply (to_silent m Hm); by rewrite Hs).
  unfold _after_protocol. rewrite st_bind_eq. unfold get. cbv beta iota zeta. simpl.
  destruct (want_tls m || tls_demanded (pi_flags info)) eqn:Ew.
  - destruct (Z.land (pi_flags info) kXR_haveTLS =? 0); split; simpl; done.
  - apply open_ok, begin_login_open. unfold exposed, need_tls. simpl. by rewrite Ew.
Qed.

Lemma bringup_tls h body m :
  tls_ok m -> in_bringup (state m) = true ->
  tls_ok ((_bringup getpid describe_exn h body : M unit) m).1.
Proof.
  intros Hm Hb. unfold _bringup. cbv zeta. case_goal.
  { rewrite st_bind_eq. unfold lift. destruct (parse_error body); [by apply fail_tls | done]. }
  case_goal; [by apply fail_tls|]. rewrite st_bind_eq. unfold get. cbv beta iota.
  assert (forall c : M unit, preserves open_ c -> late (state m) = true -> tls_ok (c m).1) as Hop.
  { intros c Hc Hl. by apply open_ok, Hc, late_open. }
  destruct (state m) eqn:Es; try done.
  - split; [done| |done]. intros _. apply (to_silent m Hm). by rewrite Es.
  - rewrite st_bind_eq. unfold lift. destruct (parse_protocol body) as [info|]; [|done].
    exact (protocol_tls info m Hm Es).
  - apply Hop; [|done]. open_tac.
  - apply Hop; [|done]. open_tac.
  - apply Hop; [|done]. open_tac.
Qed.

Lemma on_status_data_tls sid data : preserves tls_ok (_on_status_data sid data : M unit).
Proof.
  intros m Hm. destruct (tls_cases m Hm) as [Ho|Hp]; [by apply open_ok, on_status_data_open|].
  unfold _on_status_data. rewrite st_bind_eq. unfold get. cbv beta iota. by rewrite Hp.
Qed.
Lemma dispatch_to_tls h body link :
  preserves tls_ok (dispatch_to getpid describe_exn h body link : M unit).
Proof.
  unfold dispatch_to. apply preserves_get. intros m Hm. case_goal; [by apply bringup_tls|].
  destruct (tls_cases m Hm) as [Ho|Hp]; [|by rewrite Hp].
  destruct (dict_get _ _); [by apply open_ok, on_response_open | done].
Qed.
Lemma unwrap_attn_tls body : preserves tls_ok (_unwrap_attn body : M (option (ResponseHeader * bytes))).
Proof. unfold _unwrap_attn. m_preserves ltac:(by destruct select (tls_ok _)). Qed.
Hint Resolve on_status_data_tls dispatch_to_tls unwrap_attn_tls : xrd.
Lemma dispatch_tls h body link : preserves tls_ok (_dispatch getpid describe_exn h body link : M unit).
Proof. unfold _dispatch. m_preserves ltac:(by destruct select (tls_ok _)). Qed.
Hint Resolve dispatch_tls : xrd.
Lemma parse_step_tls link : preserves tls_ok (parse_step getpid describe_exn link : M bool).
Proof. unfold parse_step. m_preserves ltac:(by destruct select (tls_ok _)). Qed.
Hint Resolve parse_step_tls : xrd.
Lemma parse_loop_tls n link : preserves tls_ok (parse_loop getpid describe_exn n link : M unit).
Proof.
  induction n as [|n IH]; simpl; [by intros m|].
  apply preserves_bind; [apply parse_step_tls|]. intros []; [done | apply preserves_ret].
Qed.
Lemma forget_path_tls p : preserves tls_ok (forget_path p : M unit).
Proof.
  apply preserves_modify. intros m Hm. destruct (tls_cases m Hm) as [Ho|Hp].
  - apply open_ok. assert (forall sids m, open_ m -> open_ (foldl (fun m sid => release_ sid m) m sids)) as Hf.
    { induction sids as [|sid sids IH]; intros m1 H1; simpl; [done|]. by apply IH, (release_open sid m1). }
    exact (Hf (dict_keys (on_path p (pending m))) m Ho).
  - rewrite Hp. simpl. destruct Hm as [Hn Hs Hl]. split; simpl; [done| |done].
    intros He. destruct (Hs He) as (H1 & H2 & H3). split_and!; [done| |done]. by rewrite H2.
Qed.
Hint Resolve parse_loop_tls forget_path_tls : xrd.

Lemma closed_tls m : tls_ok m -> tls_ok (set_state CLOSED m).
Proof.
  intros [Hn Hs Hl]. split; [done| |done]. intros He. refine (Hs _).
  simpl in He. unfold exposed, need_tls in *. simpl in He. rewrite He. apply orb_true_r.
Qed.

Lemma receive_tls data link : preserves tls_ok (receive_data getpid describe_exn data link : M unit).
Proof.
  assert (forall m, tls_ok m -> tls_ok (set_pending [] m)) as Hp.
  { intros m [Hn Hs Hl]. split; [done| |done]. intros He. by destruct (Hs He) as (_ & ? & ?). }
  unfold receive_data, _on_eof, _on_path_eof, _parse.
  m_preserves ltac:(first [by apply closed_tls | by apply Hp | by destruct select (tls_ok _)]).
Qed.
Lemma start_tls : preserves tls_ok (start : M unit).
Proof.
  unfold start. apply preserves_get. intros m Hm. case_goal; [done|].
  apply negb_false_iff, bool_decide_eq_true in E.
  destruct (hello_encode (want_tls m)) as (f & Hf & Hh). cbv zeta.
  rewrite st_bind_eq. unfold send_out at 1, modify at 1. cbv beta iota.
  rewrite st_bind_eq. unfold lift. rewrite Hf. unfold send_out, modify. rewrite st_bind_eq. cbv beta iota.
  assert (silent m) as (Hp & Hop & _) by (apply (to_silent m Hm); by rewrite E).
  rewrite (to_new m Hm E). split; simpl; [done| |done].
  intros _. split_and!; [done|done|]. right. cbn [want_tls]. symmetry. exact Hh.
Qed.

Lemma tls_established_tls : preserves tls_ok (tls_established getpid : M unit).
Proof.
  unfold tls_established. apply preserves_get. intros m Hm. case_goal; [done|].
  rewrite st_bind_eq. unfold modify at 1. cbv beta iota. apply open_ok, begin_login_open.
  unfold exposed. simpl. apply andb_false_r.
Qed.

Lemma acquire_open : preserves open_ (_acquire_sid : M Z).
Proof. unfold _acquire_sid. open_tac. Qed.
Hint Resolve acquire_open : xrd.

Lemma submit_tls req path arrive : preserves tls_ok (submit hmac_sha256 req path arrive : M Z).
Proof.
  unfold submit, _send. apply preserves_get. intros m Hm. case_goal; [done|].
  apply negb_false_iff, bool_decide_eq_true in E.
  assert (open_ m) as Ho by (apply late_open; [done | by rewrite E]).
  apply open_ok. cbv zeta. unfold send_path. rest_open.
Qed.

Lemma close_tls graceful : preserves tls_ok (close graceful : M unit).
Proof.
  unfold close. apply preserves_get. intros m Hm. destruct (bool_decide (state m = READY)) eqn:E.
  - apply bool_decide_eq_true in E.
    assert (open_ m) as Ho by (apply late_open; [done | by rewrite E]).
    apply open_ok. rest_open.
  - simpl. by destruct (closed_tls m Hm).
Qed.

Lemma resume_tls sid : preserves tls_ok (resume sid : M unit).
Proof.
  unfold resume. apply preserves_get. intros m Hm.
  destruct (tls_cases m Hm) as [Ho|Hp]; [|by rewrite Hp].
  apply open_ok. destruct (dict_get sid (pending m)) as [p|]; [|done].
  unfold send_path. rest_open.
Qed.

Lemma release_tls sid : preserves tls_ok (release sid : M unit).
Proof.
  intros m Hm. destruct (tls_cases m Hm) as [Ho|Hp]; [by apply open_ok, release_open|].
  unfold release, modify, release_. simpl. by rewrite Hp.
Qed.

Lemma drain_tls m : tls_ok m -> tls_ok (set_out [] m).
Proof. intros [Hn Hs Hl]. split; [done| |done]. intros He. destruct (Hs He) as (? & ? & _). by repeat split; try left. Qed.

Lemma drain_path_tls p m : tls_ok m -> tls_ok (set_out_path (dict_pop p (out_path m)) m).
Proof.
  intros [Hn Hs Hl]. split; [done| |done]. intros He. destruct (Hs He) as (H1 & H2 & H3).
  split_and!; [done| |done]. simpl. by rewrite H2.
Qed.

Lemma call_tls m m' : call hmac_sha256 getpid describe_exn m m' -> tls_ok m -> tls_ok m'.
Proof.
  destruct 1; match goal with |- tls_ok ?m -> tls_ok (?c ?m).1 => revert m; change (preserves tls_ok c) end.
  - apply start_tls.
  - intros m Hm. by apply drain_tls.
  - intros m Hm. by apply drain_path_tls.
  - apply submit_tls.
  - apply resume_tls.
  - apply release_tls.
  - apply close_tls.
  - apply tls_established_tls.
  - apply receive_tls.
  - apply forget_path_tls.
  - unfold next_event. m_preserves ltac:(by destruct select (tls_ok _)).
  - unfold drain_events. m_preserves ltac:(by destruct select (tls_ok _)).
Qed.

Lemma reachable_tls m : reachable m -> tls_ok m.
Proof.
  induction 1; [|by eapply call_tls]. split; simpl; [done| |by rewrite andb_false_r || done].
  intros _. split_and!; [done|done|by left].
Qed.

(** C5: nothing leaves in clear that policy wants encrypted. However the
    machine is driven, and whatever the server sends: as long as the client
    or the server has asked for TLS and the channel is not up, the client
    has not logged in, has no request in flight, and the only bytes queued
    to go out are those of the opening handshake. *)
Theorem tls_before_anything m :
  reachable m -> want_tls m || tls_demanded (pi_flags (protocol_info m)) = true ->
  tls_active m = false ->
  state m <> LOGIN /\ state m <> AUTH /\ state m <> BIND /\ state m <> READY
  /\ pending m = [] /\ out_path m = [] /\ (out m = [] \/ out m = hello (want_tls m)).
Proof.
  intros Hm%reachable_tls Hn Ha. assert (exposed m = true) as He by (unfold exposed, need_tls; by rewrite Hn, Ha).
  pose proof (to_late m Hm He) as Hl.
  destruct (to_silent m Hm ltac:(by rewrite He, orb_true_r)) as (? & ? & ?).
  split_and!; try done; intros E; by rewrite E in Hl.
Qed.
End Security.

(** A server that demands TLS, and the client having heard it say so. *)
Definition demo_tls : demo_machine :=
  demo_receive (response_frame 1 kXR_ok (be_enc 4 0x520 ++ be_enc 4 (Z.lor kXR_haveTLS kXR_gotoTLS)))
    (demo_receive demo_handshake (start demo_new).1).

Lemma tls_before_anything_witness :
  state demo_tls = TLS /\ pending demo_tls = [] /\ (out demo_tls = [] \/ out demo_tls = hello false).
Proof.
  split; [vm_compute; reflexivity|].
  assert (reachable demo_hmac demo_pid demo_text demo_tls) as Hr.
  { unfold demo_tls, demo_receive. do 2 (eapply reachable_call; [|apply call_receive_data]).
    eapply reachable_call; [|apply call_start]. apply reachable_make. }
  destruct (tls_before_anything demo_hmac demo_pid demo_text demo_tls Hr
              ltac:(vm_compute; reflexivity) ltac:(vm_compute; reflexivity))
    as (_ & _ & _ & _ & Hp & _ & Ho).
  split; [exact Hp|]. exact Ho.
Defined.
