(* ===== verification/MachineFindings.v ===== *)
(** * Where the session machine and its documentation part

    Four behaviours of src/xrd/proto/machine.py that its comments or its
    neighbours do not lead one to expect, each as a theorem about the model
    that also models everything else. *)

From S2P Require Import Prelude PyStr Constants Errors Buffer Frames Requests Responses Sigver ConfigFile Machine MachineFraming MachineStreams MachineDelivery.
Import MachineScenarios.
From Stdlib Require Import QArith.
Open Scope Z_scope.
Import SessionMachine.

(** A [kXR_status] for a stream, whose body announces [dlen] bytes to follow. *)
Definition status_frame (sid resptype dlen : Z) : bytes :=
  response_frame sid kXR_status
    (be_enc 4 0 ++ be_enc 2 sid ++ [z2b 13] ++ [z2b resptype] ++ be_enc 4 0 ++ be_enc 4 dlen ++ be_enc 8 0).

(** The payload the request on a stream was completed with. *)
Definition completed_with (sid : Z) (es : list Event) : option bytes :=
  match omap (fun e => match e with
                       | Completed s _ d _ => if s =? sid then Some d else None
                       | _ => None end) es with
  | d :: _ => Some d
  | [] => None
  end.

Definition demo_negative : list bytes := [status_frame 4 kXR_FinalResult (-4); b_ "0123456789"].

(** The sign of a [kXR_status] length is not checked, and framing then
      depends on how the transport cut the stream: the same bytes complete
      the same request with a different payload when they arrive at once
      (part of what follows is taken) and when they arrive in two reads. *)
Theorem negative_trailer :
  exists m1 m2,
    feed demo_pid demo_text 0 demo_negative demo_busy = (m1, Ok tt)
    /\ receive_data demo_pid demo_text (Some (concat demo_negative)) 0 demo_busy = (m2, Ok tt)
    /\ completed_with 4 (events m1) = Some []
    /\ completed_with 4 (events m2) = Some (b_ "012345").
Proof.
  assert ((feed demo_pid demo_text 0 demo_negative demo_busy).2 = Ok tt) as H1 by (vm_compute; reflexivity).
  assert (completed_with 4 (events (feed demo_pid demo_text 0 demo_negative demo_busy).1) = Some []) as C1
    by (vm_compute; reflexivity).
  assert ((receive_data demo_pid demo_text (Some (concat demo_negative)) 0 demo_busy).2 = Ok tt) as H2
    by (vm_compute; reflexivity).
  assert (completed_with 4 (events (receive_data demo_pid demo_text (Some (concat demo_negative)) 0 demo_busy).1)
          = Some (b_ "012345")) as C2 by (vm_compute; reflexivity).
  destruct (feed _ _ _ _ _) as [m1 r1]. destruct (receive_data _ _ _ _ _) as [m2 r2].
  cbn [fst snd] in *. subst r1 r2. exists m1, m2. split_and!; reflexivity || assumption.
Qed.

(** The ceiling on buffered bodies covers what a frame declares and not
    what a [kXR_status] announces beyond it: a length above
    [MAX_RESPONSE_BODY] is accepted and then waited for. *)
Theorem trailer_above_ceiling :
  exists m', receive_data demo_pid demo_text (Some (status_frame 4 kXR_FinalResult 0x7FFFFFFF)) 0 demo_busy
             = (m', Ok tt)
    /\ MAX_RESPONSE_BODY < f_need_trailer (framer_of 0 m') /\ state m' = READY.
Proof.
  assert ((receive_data demo_pid demo_text (Some (status_frame 4 kXR_FinalResult 0x7FFFFFFF)) 0 demo_busy).2
          = Ok tt) as H1 by (vm_compute; reflexivity).
  assert (f_need_trailer (framer_of 0
            (receive_data demo_pid demo_text (Some (status_frame 4 kXR_FinalResult 0x7FFFFFFF)) 0 demo_busy).1)
          = 0x7FFFFFFF) as C1 by (vm_compute; reflexivity).
  assert (state (receive_data demo_pid demo_text
            (Some (status_frame 4 kXR_FinalResult 0x7FFFFFFF)) 0 demo_busy).1 = READY) as C2
    by (vm_compute; reflexivity).
  destruct (receive_data _ _ _ _ _) as [m' r]. cbn [fst snd] in *. subst r.
  exists m'. rewrite C1. split_and!; [reflexivity | vm_compute; reflexivity | assumption].
Qed.

Section Resume.
Context {C I : Type} `{CredentialOps C I}.
Variable hmac_sha256 : bytes -> bytes -> bytes.
Notation machine := (@machine C I).
Implicit Types (m : machine).

(** A request routed down a data socket is re-sent on the control
    link. [submit] with [arrive_on_path] queues nothing on the control
    link; when the server then answers [kXR_wait] and the request is
    resumed, its whole frame goes out on the control link instead. *)
Theorem resume_on_control_link req path m m1 m2 sid :
  submit hmac_sha256 req path true m = (m1, Ok sid) -> pathid req <> 0 ->
  resume sid m1 = (m2, Ok tt) ->
  out m1 = out m
  /\ exists p, dict_get sid (pending m1) = Some p /\ p_frame p <> []
               /\ out m2 = out m ++ p_frame p
               /\ (path_data req = [] -> out_path m2 = out_path m1).
Proof.
  intros (_ & ma & (_ & Ho & _)%acquire_fields & Hs)%submit_ok Hp Hres.
  apply send_ok in Hs as (f & pre & m3 & sg & Hf & _ & _ & _ & Hpend & Hout).
  destruct (Z.eqb_spec (pathid req) 0); [done|]. cbn [andb negb] in Hout. destruct Hout as [Ho1 Hop].
  split; [congruence|]. eexists. rewrite Hpend, dict_get_set_eq. split; [done|]. cbn [p_frame].
  apply encode_length in Hf as (body & _ & Hl).
  unfold resume in Hres. rewrite st_bind_eq in Hres. unfold get in Hres. cbv beta iota in Hres.
  rewrite Hpend, dict_get_set_eq in Hres. cbn [p_frame p_path_bytes p_pathid] in Hres.
  rewrite st_bind_eq in Hres. unfold send_out, modify in Hres. cbv beta iota in Hres.
  split_and!.
  - intros [_ ->]%app_nil. rewrite zlen_nil in Hl.
    pose proof (zlen_nonneg body). pose proof (zlen_nonneg (trailer req)). lia.
  - destruct (path_data req); injection Hres as <-; simpl; congruence.
  - intros Hd. rewrite Hd in Hres. by injection Hres as <-.
Qed.

(** A resumed request carries its old signature. The sequence number
    [Signer] promises never to repeat goes out twice: a signed request that
    was told to wait is re-sent with the [kXR_sigver] it was first sent
    with, and the signer does not move. *)
Theorem resume_replays_signature req path m m1 m2 sid s :
  signer m = Some s -> Signer.required s (opcode req) = true -> 0 <= Signer.seqno s < 2 ^ 64 - 1 ->
  submit hmac_sha256 req path false m = (m1, Ok sid) -> resume sid m1 = (m2, Ok tt) ->
  exists mac sv f,
    encode (Sigver_init (opcode req) (Signer.seqno s + 1) mac None false) sid = Ok sv
    /\ encode req sid = Ok f
    /\ out m2 = out m ++ (sv ++ f) ++ (sv ++ f)
    /\ signer m2 = signer m1.
Proof.
  intros Hs Hreq Hn Hsub Hres.
  destruct (submit_signed_frames hmac_sha256 req path m m1 sid s Hs Hreq Hn Hsub)
    as (f & body & sv & p & Hf & _ & Hsv & Ho & _ & Hp & Hpf).
  eexists _, sv, f. split; [exact Hsv|]. split; [done|].
  unfold resume in Hres. rewrite st_bind_eq in Hres. unfold get in Hres. cbv beta iota in Hres.
  rewrite Hp, st_bind_eq in Hres. unfold send_out, modify in Hres. cbv beta iota in Hres.
  assert (out m2 = out m1 ++ p_frame p /\ signer m2 = signer m1) as [-> ->]
    by (destruct (p_path_bytes p); by injection Hres as <-).
  by rewrite Ho, Hpf, <- !app_assoc.
Qed.
End Resume.

Lemma resume_on_control_link_witness :
  exists m1 m2, submit demo_hmac (Read (be_enc 4 1) 0 100 1) [] true demo_ready = (m1, Ok 4)
    /\ resume 4 m1 = (m2, Ok tt) /\ out m1 = out demo_ready /\ out m2 <> out demo_ready.
Proof.
  assert ((submit demo_hmac (Read (be_enc 4 1) 0 100 1) [] true demo_ready).2 = Ok 4) as Hr
    by (vm_compute; reflexivity).
  assert ((resume 4 (submit demo_hmac (Read (be_enc 4 1) 0 100 1) [] true demo_ready).1).2 = Ok tt) as Hr2
    by (vm_compute; reflexivity).
  destruct (submit demo_hmac (Read (be_enc 4 1) 0 100 1) [] true demo_ready) as [m1 r] eqn:E.
  cbn [fst snd] in Hr, Hr2. subst r.
  destruct (resume 4 m1) as [m2 r2] eqn:E2. cbn [snd] in Hr2. subst r2.
  destruct (resume_on_control_link demo_hmac _ _ demo_ready m1 m2 4 E ltac:(discriminate) E2)
    as (Ho & p & _ & Hne & Ho2 & _).
  exists m1, m2. split; [reflexivity|]. split; [exact E2|]. split; [exact Ho|].
  rewrite Ho2. intros Hc. apply Hne. rewrite <- (app_nil_r (out demo_ready)) in Hc at 2.
  exact (app_inv_head _ _ _ Hc).
Defined.

Lemma resume_replays_signature_witness :
  exists m1 m2 x, submit demo_hmac (Rm (s_ "/a")) [] false demo_signed = (m1, Ok 4)
    /\ resume 4 m1 = (m2, Ok tt) /\ out m2 = out demo_signed ++ x ++ x.
Proof.
  assert ((submit demo_hmac (Rm (s_ "/a")) [] false demo_signed).2 = Ok 4) as Hr
    by (vm_compute; reflexivity).
  assert ((resume 4 (submit demo_hmac (Rm (s_ "/a")) [] false demo_signed).1).2 = Ok tt) as Hr2
    by (vm_compute; reflexivity).
  assert (Signer.required demo_signer (opcode (Rm (s_ "/a"))) = true) as Hq by (vm_compute; reflexivity).
  assert (0 <= Signer.seqno demo_signer < 2 ^ 64 - 1) as Hn
    by (split; [vm_compute; discriminate | vm_compute; reflexivity]).
  destruct (submit demo_hmac (Rm (s_ "/a")) [] false demo_signed) as [m1 r] eqn:E.
  cbn [fst snd] in Hr, Hr2. subst r.
  destruct (resume 4 m1) as [m2 r2] eqn:E2. cbn [snd] in Hr2. subst r2.
  destruct (resume_replays_signature demo_hmac _ _ demo_signed m1 m2 4 demo_signer
              demo_signed_signer Hq Hn E E2) as (mac & sv & f & _ & _ & Ho & _).
  exists m1, m2, (sv ++ f). split; [reflexivity|]. split; [exact E2 | exact Ho].
Defined.
