(* ===== verification/Words.v ===== *)
(** * Lists of small integers

    What the ciphers and the compressed formats share: Python lists and
    bytearrays of integers indexed by position, bounded integers, exclusive
    or, and facts about all 256 byte values decided by running them. *)

From S2P Require Import Prelude PyStr.
Open Scope Z_scope.

(** [l[i]] for [0 <= i < len(l)]; the operations that use it keep the index in
    range, and the lemmas about them say so. *)
Definition zget (l : list Z) (i : Z) : Z := nth (Z.to_nat i) l 0.

(** [l[i] = v], again for an index in range. *)
Definition zset (l : list Z) (i v : Z) : list Z := <[Z.to_nat i := v]> l.

(** [range(a, b)]. *)
Definition range (a b : Z) : list Z := seqZ a (b - a).

(** [list(data)] of a bytes object, and [bytes(l)] of integers below 256. *)
Definition ints (b : bytes) : list Z := b2z <$> b.
Definition to_bytes (l : list Z) : bytes := z2b <$> l.

(** An integer of [w] bits. *)
Definition in_width (w z : Z) : Prop := 0 <= z < 2 ^ w.
Notation is_byte := (in_width 8).

(** For values too large to let a tactic look inside. *)
Lemma Ok_inj {E A} (a b : A) : Ok (E:=E) a = Ok b -> a = b.
Proof. congruence. Qed.

(** ** Integers of a width *)

Lemma in_width_0 w : 0 <= w -> in_width w 0.
Proof. split; [lia|]. by apply Z.pow_pos_nonneg. Qed.

Lemma in_width_testbit w z n : 0 <= w -> in_width w z -> w <= n -> Z.testbit z n = false.
Proof.
  intros Hw [H0 Hz] Hn. destruct (Z.eq_dec z 0) as [->|]; [apply Z.bits_0|].
  apply Z.bits_above_log2; [lia|]. apply Z.log2_lt_pow2; [lia|].
  eapply Z.lt_le_trans; [exact Hz|]. apply Z.pow_le_mono_r; lia.
Qed.

Lemma testbit_in_width w z :
  0 <= w -> 0 <= z -> (forall n, w <= n -> Z.testbit z n = false) -> in_width w z.
Proof.
  intros Hw H0 Hb. split; [done|].
  destruct (Z.eq_dec z 0) as [->|]; [by apply Z.pow_pos_nonneg|].
  apply Z.log2_lt_pow2; [lia|]. destruct (Z.lt_ge_cases (Z.log2 z) w) as [|Hge]; [done|].
  apply Hb in Hge. rewrite Z.bit_log2 in Hge by lia. done.
Qed.

Lemma lxor_in_width w x y : 0 <= w -> in_width w x -> in_width w y -> in_width w (Z.lxor x y).
Proof.
  intros Hw Hx Hy. apply testbit_in_width; [done|destruct Hx, Hy; apply Z.lxor_nonneg; lia|].
  intros n Hn. by rewrite Z.lxor_spec, !(in_width_testbit w) by done.
Qed.

Lemma land_mask w x : 0 <= w -> Z.land x (2 ^ w - 1) = x mod 2 ^ w.
Proof. intros Hw. rewrite <- Z.land_ones by done. by rewrite Z.ones_equiv. Qed.

Lemma land_mask_in_width w x : 0 <= w -> in_width w (Z.land x (2 ^ w - 1)).
Proof. intros Hw. rewrite land_mask by done. apply Z.mod_pos_bound. by apply Z.pow_pos_nonneg. Qed.

Lemma land_mask_id w x : 0 <= w -> in_width w x -> Z.land x (2 ^ w - 1) = x.
Proof. intros Hw Hx. rewrite land_mask by done. by apply Z.mod_small. Qed.

Lemma lxor_cancel_r x y : Z.lxor (Z.lxor x y) y = x.
Proof. by rewrite Z.lxor_assoc, Z.lxor_nilpotent, Z.lxor_0_r. Qed.

Lemma lxor_cancel_l x y : Z.lxor x (Z.lxor x y) = y.
Proof. by rewrite <- Z.lxor_assoc, Z.lxor_nilpotent, Z.lxor_0_l. Qed.

(** Low bits put under shifted ones are added to them. *)
Lemma lor_shiftl hi lo k : 0 <= k -> in_width k lo -> Z.lor (Z.shiftl hi k) lo = hi * 2 ^ k + lo.
Proof.
  intros Hk Hlo. assert (Z.land (Z.shiftl hi k) lo = 0) as Hd.
  { apply Z.bits_inj'. intros n Hn. rewrite Z.land_spec, Z.bits_0. destruct (Z.lt_ge_cases n k).
    - by rewrite Z.shiftl_spec_low by lia.
    - by rewrite (in_width_testbit k lo n), andb_false_r. }
  rewrite <- Z.lxor_lor, <- Z.add_nocarry_lxor by done. by rewrite Z.shiftl_mul_pow2.
Qed.

#[export] Hint Resolve lxor_in_width in_width_0 : xrd.

(** An equation between exclusive ors, bit by bit. *)
Ltac lxor_solve :=
  apply Z.bits_inj'; intros ? ?; rewrite ?Z.lxor_spec;
  repeat match goal with |- context [Z.testbit ?x ?n] => destruct (Z.testbit x n) end; reflexivity.

(** ** All bytes *)

(** What holds of each of the 256 values when it is run on them. *)
Lemma all_bytes (P : Z -> bool) z :
  forallb P (seqZ 0 256) = true -> is_byte z -> P z = true.
Proof.
  intros H Hz. rewrite forallb_forall in H. apply H, list_elem_of_In, elem_of_seqZ.
  destruct Hz as [? Hz]. change (2 ^ 8) with 256 in Hz. lia.
Qed.

Lemma b2z_is_byte b : is_byte (b2z b).
Proof. apply b2z_range. Qed.

Lemma b2z_z2b_byte z : is_byte z -> b2z (z2b z) = z.
Proof. apply b2z_z2b. Qed.

#[export] Hint Resolve b2z_is_byte : xrd.

Lemma ints_bytes b : Forall is_byte (ints b).
Proof. apply Forall_fmap, Forall_true. auto with xrd. Qed.

Lemma ints_length b : length (ints b) = length b.
Proof. apply length_fmap. Qed.

Lemma to_bytes_length l : length (to_bytes l) = length l.
Proof. apply length_fmap. Qed.

Lemma to_bytes_ints b : to_bytes (ints b) = b.
Proof.
  unfold to_bytes, ints. rewrite <- list_fmap_compose.
  rewrite <- (list_fmap_id b) at 2. apply list_fmap_ext. intros i x _. apply z2b_b2z.
Qed.

Lemma ints_to_bytes l : Forall is_byte l -> ints (to_bytes l) = l.
Proof.
  induction 1 as [|x l Hx _ IH]; [done|]. simpl. by rewrite (b2z_z2b_byte x Hx), IH.
Qed.

#[export] Hint Resolve ints_bytes : xrd.

(** ** Positions *)

Lemma zget_Forall (P : Z -> Prop) l i : Forall P l -> 0 <= i < zlen l -> P (zget l i).
Proof.
  unfold zlen, zget. intros Hl Hi. rewrite Forall_forall in Hl. apply Hl, list_elem_of_In, nth_In. lia.
Qed.

Lemma zset_Forall (P : Z -> Prop) l i v : Forall P l -> P v -> Forall P (zset l i v).
Proof. intros Hl Hv. by apply Forall_insert. Qed.

Lemma zset_length l i v : length (zset l i v) = length l.
Proof. apply length_insert. Qed.

Lemma zget_zset_eq l i v : 0 <= i < zlen l -> zget (zset l i v) i = v.
Proof.
  unfold zlen, zget, zset. intros Hi. apply nth_lookup_Some, list_lookup_insert_eq. lia.
Qed.

Lemma zget_zset_ne l i j v : 0 <= i -> 0 <= j -> i <> j -> zget (zset l i v) j = zget l j.
Proof.
  unfold zget, zset. intros. rewrite !nth_lookup, list_lookup_insert_ne; [done|lia].
Qed.

Lemma range_empty a b : b <= a -> range a b = [].
Proof. intros. unfold range. apply seqZ_nil. lia. Qed.

Lemma range_cons a b : a < b -> range a b = a :: range (a + 1) b.
Proof. intros. unfold range. rewrite seqZ_cons by lia. do 2 f_equal; lia. Qed.

Lemma range_snoc a b : a < b -> range a b = range a (b - 1) ++ [b - 1].
Proof.
  intros. unfold range. replace (b - a) with ((b - 1 - a) + 1) by lia.
  rewrite seqZ_app by lia. f_equal. replace (a + (b - 1 - a)) with (b - 1) by lia. done.
Qed.

Lemma elem_of_range a b x : x ∈ range a b <-> a <= x < b.
Proof. unfold range. rewrite elem_of_seqZ. lia. Qed.

(** ** Chunks *)

(** [data[start : start + n] for start in range(0, len(data), n)]. *)
Definition chunks (n : Z) (data : bytes) : list bytes :=
  (fun i => slice data (i * n) (i * n + n)) <$> range 0 ((zlen data + n - 1) / n).

Lemma chunks_nil n : 0 < n -> chunks n [] = [].
Proof. intros. unfold chunks. by rewrite range_empty by (rewrite zlen_nil, Z.div_small; lia). Qed.

Lemma chunks_cons n b rest : 0 < n -> zlen b = n -> chunks n (b ++ rest) = b :: chunks n rest.
Proof.
  intros Hn Hb. unfold chunks. rewrite zlen_app, Hb.
  replace (n + zlen rest + n - 1) with (zlen rest + n - 1 + 1 * n) by lia.
  pose proof (zlen_nonneg rest). assert (0 <= (zlen rest + n - 1) / n) by (apply Z.div_pos; lia).
  rewrite Z.div_add, range_cons by lia. rewrite fmap_cons. f_equal.
  - rewrite slice_pos by lia. change (Z.to_nat (0 * n)) with 0%nat. rewrite drop_0.
    replace (Z.to_nat (0 * n + n - 0 * n)) with (length b) by (unfold zlen in Hb; lia).
    apply take_app_length.
  - unfold range. set (m := (zlen rest + n - 1) / n) in *. replace (m + 1 - (0 + 1)) with (m - 0) by lia.
    rewrite <- (fmap_add_seqZ 1 0), <- list_fmap_compose. apply list_fmap_ext. intros i x Hx. simpl.
    apply lookup_seqZ in Hx as [-> _]. rewrite !slice_pos by lia.
    replace (Z.to_nat ((1 + (0 + Z.of_nat i)) * n)) with (length b + Z.to_nat ((0 + Z.of_nat i) * n))%nat by (unfold zlen in Hb; lia).
    rewrite <- drop_drop, drop_app_length. f_equal. lia.
Qed.

(** A whole number of chunks, taken one by one. *)
Lemma chunks_ind n (P : bytes -> list bytes -> Prop) data :
  0 < n -> zlen data mod n = 0 ->
  P [] [] ->
  (forall b rest, zlen b = n -> zlen rest mod n = 0 -> P rest (chunks n rest) -> P (b ++ rest) (b :: chunks n rest)) ->
  P data (chunks n data).
Proof.
  intros Hn Hm Hnil Hcons. remember (length data) as k eqn:Hk. revert data Hm Hk.
  induction k as [k IH] using lt_wf_ind. intros data Hm ->.
  destruct data as [|x data']; [by rewrite chunks_nil|]. set (data := x :: data') in *.
  assert (n <= zlen data).
  { destruct (Z.le_gt_cases n (zlen data)) as [|Hlt]; [done|]. rewrite Z.mod_small in Hm by (pose proof (zlen_nonneg data); lia).
    unfold data in Hm. rewrite zlen_cons in Hm. pose proof (zlen_nonneg data'). lia. }
  rewrite <- (take_drop (Z.to_nat n) data).
  assert (zlen (take (Z.to_nat n) data) = n) as Ht.
  { unfold zlen in *. rewrite length_take. lia. }
  assert (zlen (drop (Z.to_nat n) data) = zlen data - n) as Hd.
  { unfold zlen in *. rewrite length_drop. lia. }
  assert (zlen (drop (Z.to_nat n) data) mod n = 0) as Hmd.
  { rewrite Hd, <- (Z.mod_add _ 1) by lia. by replace (zlen data - n + 1 * n) with (zlen data) by lia. }
  rewrite chunks_cons by done. apply Hcons; [done..|].
  apply (IH (length (drop (Z.to_nat n) data))); [unfold zlen in *; lia | done | done].
Qed.

Lemma chunks_small n data : 0 < zlen data <= n -> chunks n data = [data].
Proof.
  intros Hd. unfold chunks.
  replace ((zlen data + n - 1) / n) with 1 by (apply (Z.div_unique _ _ _ (zlen data - 1)); lia).
  rewrite range_cons, range_empty by lia. rewrite fmap_cons, fmap_nil. f_equal.
  rewrite slice_pos by lia. change (Z.to_nat (0 * n)) with 0%nat. rewrite drop_0. apply take_ge.
  unfold zlen in Hd. lia.
Qed.

(** Any number of bytes: full chunks, and a last one that may be short. *)
Lemma chunks_rect_all n (P : bytes -> list bytes -> Prop) data :
  0 < n -> P [] [] -> (forall b, 0 < zlen b < n -> P b [b]) ->
  (forall b rest, zlen b = n -> P rest (chunks n rest) -> P (b ++ rest) (b :: chunks n rest)) ->
  P data (chunks n data).
Proof.
  intros Hn Hnil Hlast Hcons. remember (length data) as k eqn:Hk. revert data Hk.
  induction k as [k IH] using lt_wf_ind. intros data ->.
  destruct (decide (data = [])) as [->|Hne]; [by rewrite chunks_nil|].
  assert (0 < zlen data) by (destruct data; [done|]; rewrite zlen_cons; pose proof (zlen_nonneg data); lia).
  destruct (Z.lt_ge_cases (zlen data) n) as [|Hge]; [rewrite chunks_small by lia; apply Hlast; lia|].
  rewrite <- (take_drop (Z.to_nat n) data).
  assert (zlen (take (Z.to_nat n) data) = n) as Ht.
  { unfold zlen in *. rewrite length_take. lia. }
  rewrite chunks_cons by done. apply Hcons; [done|]. eapply IH; [|done]. rewrite length_drop. unfold zlen in *. lia.
Qed.

(** Nothing to strip. *)
Lemma strip_none {A} (p : A -> bool) l : Forall (fun x => p x = false) l -> strip_by p l = l.
Proof.
  assert (forall k, Forall (fun x => p x = false) k -> lstrip_by p k = k) as Hl.
  { intros k Hk. destruct Hk as [|x k Hx _]; [done|]. simpl. by rewrite Hx. }
  intros H. unfold strip_by, rstrip_by. rewrite (Hl l H), Hl by (by apply Forall_reverse). apply reverse_involutive.
Qed.
