(* ===== verification/Crc.v ===== *)
(** * Cyclic redundancy checks

    src/xrd/crypto/crc32c.py (the slice-by-eight CRC-32C and the paged-I/O
    framing built on it) and src/xrd/crypto/crc64.py (the two 64-bit CRCs),
    against one bit-at-a-time reference. *)

From S2P Require Import Prelude PyStr.
Open Scope Z_scope.

(** ** The reference: one bit at a time *)

Section Bitwise.
(** The reflected polynomial. *)
Variable poly : Z.

(** [(crc >> 1) ^ POLY if crc & 1 else crc >> 1]. *)
Definition bit_step (c : Z) : Z :=
  if Z.land c 1 =? 0 then Z.shiftr c 1 else Z.lxor (Z.shiftr c 1) poly.

Definition bits (n : nat) (c : Z) : Z := Nat.iter n bit_step c.

(** Feed a message to the register, low bit first. *)
Definition feed_bytes (c : Z) (data : bytes) : Z :=
  foldl (fun c b => bits 8 (Z.lxor c (b2z b))) c data.

(** *** Linearity *)

Lemma land1_lxor x y : Z.land (Z.lxor x y) 1 = Z.lxor (Z.land x 1) (Z.land y 1).
Proof.
  apply Z.bits_inj'. intros n _. rewrite !Z.land_spec, !Z.lxor_spec, !Z.land_spec.
  by destruct (Z.testbit x n), (Z.testbit y n), (Z.testbit 1 n).
Qed.

Lemma land1_cases x : Z.land x 1 = 0 \/ Z.land x 1 = 1.
Proof.
  pose proof (Z.land_ones x 1 ltac:(lia)) as E. change (Z.ones 1) with 1 in E. change (2 ^ 1) with 2 in E.
  pose proof (Z.mod_pos_bound x 2 ltac:(lia)). lia.
Qed.

Lemma bit_step_lxor x y : bit_step (Z.lxor x y) = Z.lxor (bit_step x) (bit_step y).
Proof.
  unfold bit_step. rewrite land1_lxor, Z.shiftr_lxor.
  set (a := Z.shiftr x 1). set (b := Z.shiftr y 1).
  destruct (land1_cases x) as [-> | ->], (land1_cases y) as [-> | ->]; simpl.
  - done.
  - by rewrite <- Z.lxor_assoc.
  - rewrite !Z.lxor_assoc. f_equal. apply Z.lxor_comm.
  - rewrite Z.lxor_assoc, (Z.lxor_comm poly), !Z.lxor_assoc, Z.lxor_nilpotent. by rewrite Z.lxor_0_r.
Qed.

Lemma bits_S n c : bits (S n) c = bits n (bit_step c).
Proof. unfold bits. by rewrite Nat.iter_succ_r. Qed.

Lemma bits_add n m c : bits (n + m) c = bits m (bits n c).
Proof. revert c. induction n as [|n IH]; intros c; [done|]. simpl Nat.add. by rewrite !bits_S, IH. Qed.

Lemma bits_lxor n x y : bits n (Z.lxor x y) = Z.lxor (bits n x) (bits n y).
Proof. revert x y. induction n as [|n IH]; intros x y; [done|]. by rewrite !bits_S, bit_step_lxor, IH. Qed.

Lemma bit_step_double x : bit_step (Z.shiftl x 1) = x.
Proof.
  unfold bit_step. replace (Z.land (Z.shiftl x 1) 1) with 0.
  - simpl. rewrite Z.shiftr_shiftl_l by lia. apply Z.shiftl_0_r.
  - symmetry. change 1 with (Z.ones 1) at 2. rewrite Z.land_ones, Z.shiftl_mul_pow2 by lia. apply Z.mod_mul. lia.
Qed.

(** Zero low bits are shifted out unchanged. *)
Lemma bits_shiftl n x : bits n (Z.shiftl x (Z.of_nat n)) = x.
Proof.
  revert x. induction n as [|n IH]; intros x; [apply Z.shiftl_0_r|].
  rewrite bits_S. replace (Z.of_nat (S n)) with (Z.of_nat n + 1) by lia.
  rewrite <- Z.shiftl_shiftl by lia. rewrite bit_step_double. apply IH.
Qed.

(** Move a later byte in front of the shifts already made. *)
Lemma bits_lxor_shiftl n x b : Z.lxor (bits n x) b = bits n (Z.lxor x (Z.shiftl b (Z.of_nat n))).
Proof. by rewrite bits_lxor, bits_shiftl. Qed.

(** Eight shifts are a table look-up on the low byte and a shift of the rest. *)
Lemma bits8_split c : bits 8 c = Z.lxor (bits 8 (Z.land c 0xFF)) (Z.shiftr c 8).
Proof.
  assert (c = Z.lxor (Z.land c 0xFF) (Z.shiftl (Z.shiftr c 8) (Z.of_nat 8))) as E.
  { apply Z.bits_inj'. intros n Hn. rewrite Z.lxor_spec, Z.land_spec.
    change 0xFF with (Z.ones 8). rewrite Z.testbit_ones by lia.
    destruct (Z.ltb_spec n 8).
    - rewrite (Z.shiftl_spec_low _ (Z.of_nat 8)) by lia.
      destruct (Z.leb_spec 0 n); [|lia]. simpl. by rewrite andb_true_r, xorb_false_r.
    - rewrite Z.shiftl_spec_high, Z.shiftr_spec by lia.
      replace (n - Z.of_nat 8 + 8) with n by lia. rewrite !andb_false_r. by destruct (Z.testbit c n). }
  rewrite E at 1. by rewrite bits_lxor, bits_shiftl.
Qed.
End Bitwise.
Arguments bits : simpl never.

(** *** Range and injectivity: the register is a permutation

    For a polynomial of [w] bits with its top bit set. *)

Lemma lxor_range n x y : 0 <= n -> 0 <= x < 2 ^ n -> 0 <= y < 2 ^ n -> 0 <= Z.lxor x y < 2 ^ n.
Proof.
  intros Hn Hx Hy. assert (0 <= Z.lxor x y) by (apply Z.lxor_nonneg; lia). split; [done|].
  destruct (decide (Z.lxor x y = 0)) as [->|Hne]; [apply Z.pow_pos_nonneg; lia|].
  apply Z.log2_lt_pow2; [lia|]. eapply Z.le_lt_trans; [apply Z.log2_lxor; lia|].
  assert (forall z, 0 <= z < 2 ^ n -> 0 < n -> Z.log2 z < n) as Hl.
  { intros z Hz Hn0. destruct (decide (z = 0)) as [->|]; [done|]. apply Z.log2_lt_pow2; lia. }
  destruct (decide (n = 0)) as [->|].
  - exfalso. apply Hne. change (2 ^ 0) with 1 in *. assert (x = 0) as -> by lia.
    assert (y = 0) as -> by lia. done.
  - apply Z.max_lub_lt; apply Hl; lia.
Qed.

Section Permutation.
Variables (poly w : Z).
Hypothesis Hw : 8 <= w.
Hypothesis Hpoly : 2 ^ (w - 1) <= poly < 2 ^ w.

Definition in_reg (c : Z) : Prop := 0 <= c < 2 ^ w.

Lemma pow_w : 2 ^ w = 2 * 2 ^ (w - 1).
Proof. rewrite <- Z.pow_succ_r by lia. f_equal. lia. Qed.

Lemma shiftr1_range c : in_reg c -> 0 <= Z.shiftr c 1 < 2 ^ (w - 1).
Proof.
  unfold in_reg. intros Hc. rewrite Z.shiftr_div_pow2 by lia. change (2 ^ 1) with 2. pose proof pow_w.
  split; [apply Z.div_pos; lia | apply Z.div_lt_upper_bound; lia].
Qed.

Lemma bit_step_range c : in_reg c -> in_reg (bit_step poly c).
Proof.
  intros Hc. pose proof (shiftr1_range c Hc). pose proof pow_w. unfold bit_step.
  destruct (_ =? _); [unfold in_reg; lia|]. apply lxor_range; lia.
Qed.

(** The bit shifted out can be read off the top of the result. *)
Lemma bit_step_top c : in_reg c -> Z.testbit (bit_step poly c) (w - 1) = Z.odd c.
Proof.
  intros Hc. pose proof (shiftr1_range c Hc) as Hs.
  assert (forall x, 0 <= x < 2 ^ (w - 1) -> Z.testbit x (w - 1) = false) as Hlow.
  { intros x Hx. destruct (decide (x = 0)) as [->|]; [apply Z.testbit_0_l|].
    apply Z.bits_above_log2; [lia|]. apply Z.log2_lt_pow2; lia. }
  assert (Z.testbit poly (w - 1) = true) as Hp.
  { rewrite Z.testbit_true by lia. pose proof pow_w.
    replace (poly / 2 ^ (w - 1)) with 1; [done|].
    apply (Z.div_unique poly (2 ^ (w - 1)) 1 (poly - 2 ^ (w - 1))); lia. }
  rewrite <- Z.bit0_odd. unfold bit_step.
  assert (Z.testbit c 0 = negb (Z.land c 1 =? 0)) as ->.
  { destruct (land1_cases c) as [E|E]; rewrite E; simpl.
    - assert (Z.testbit (Z.land c 1) 0 = false) as H0 by (rewrite E; done).
      by rewrite Z.land_spec, andb_true_r in H0.
    - assert (Z.testbit (Z.land c 1) 0 = true) as H0 by (rewrite E; done).
      by rewrite Z.land_spec, andb_true_r in H0. }
  destruct (_ =? _); simpl; [by apply Hlow|]. by rewrite Z.lxor_spec, Hp, Hlow.
Qed.

Lemma bit_step_inj x y : in_reg x -> in_reg y -> bit_step poly x = bit_step poly y -> x = y.
Proof.
  intros Hx Hy E. assert (Z.odd x = Z.odd y) as Ho by (by rewrite <- !bit_step_top, E).
  assert (Z.shiftr x 1 = Z.shiftr y 1) as Hs.
  { assert (Z.land x 1 = Z.land y 1) as Hl.
    { pose proof (Z.land_ones x 1 ltac:(lia)) as Ex. pose proof (Z.land_ones y 1 ltac:(lia)) as Ey.
      change (Z.ones 1) with 1 in *. change (2 ^ 1) with 2 in *. rewrite Ex, Ey.
      rewrite (Zmod_odd x), (Zmod_odd y). by rewrite Ho. }
    unfold bit_step in E. rewrite Hl in E. destruct (_ =? _); [done|].
    apply (f_equal (fun z => Z.lxor z poly)) in E.
    by rewrite !Z.lxor_assoc, Z.lxor_nilpotent, !Z.lxor_0_r in E. }
  rewrite !Z.shiftr_div_pow2 in Hs by lia. change (2 ^ 1) with 2 in Hs.
  rewrite (Z.div_mod x 2), (Z.div_mod y 2), Hs by lia. f_equal.
  rewrite (Zmod_odd x), (Zmod_odd y). by rewrite Ho.
Qed.

Lemma bits_range n c : in_reg c -> in_reg (bits poly n c).
Proof. revert c. induction n as [|n IH]; intros c Hc; [done|]. rewrite bits_S. by apply IH, bit_step_range. Qed.

Lemma bits_inj n x y : in_reg x -> in_reg y -> bits poly n x = bits poly n y -> x = y.
Proof.
  revert x y. induction n as [|n IH]; intros x y Hx Hy; [done|]. rewrite !bits_S. intros E.
  apply IH in E; [|by apply bit_step_range..]. by apply bit_step_inj.
Qed.

Lemma byte_in_reg b : in_reg (b2z b).
Proof.
  pose proof (b2z_range b). unfold in_reg.
  assert (2 ^ 8 <= 2 ^ w) by (apply Z.pow_le_mono_r; lia). lia.
Qed.

Lemma feed_range data c : in_reg c -> in_reg (feed_bytes poly c data).
Proof.
  revert c. induction data as [|b data IH]; intros c Hc; [done|]. simpl. apply IH, bits_range.
  apply lxor_range; [lia | done | apply byte_in_reg].
Qed.

(** Two registers that differ go on differing. *)
Lemma feed_inj data x y :
  in_reg x -> in_reg y -> feed_bytes poly x data = feed_bytes poly y data -> x = y.
Proof.
  revert x y. induction data as [|b data IH]; intros x y Hx Hy; [done|]. simpl. intros E.
  assert (forall c, in_reg c -> in_reg (Z.lxor c (b2z b))) as Hr
    by (intros c Hc; apply lxor_range; [lia | done | apply byte_in_reg]).
  apply IH in E; [|by apply bits_range, Hr..]. apply bits_inj in E; [|by apply Hr..].
  apply (f_equal (fun z => Z.lxor z (b2z b))) in E.
  by rewrite !Z.lxor_assoc, Z.lxor_nilpotent, !Z.lxor_0_r in E.
Qed.
End Permutation.

(** *** A block of bytes at a time *)

Section Blocks.
Variable poly : Z.

Lemma le_dec_cons b l : le_dec (b :: l) = Z.lxor (b2z b) (Z.shiftl (le_dec l) 8).
Proof.
  simpl. pose proof (b2z_range b). rewrite <- Z.add_nocarry_lxor.
  - rewrite Z.shiftl_mul_pow2 by lia. change (2 ^ 8) with 256. lia.
  - apply Z.bits_inj'. intros n Hn. rewrite Z.land_spec, Z.bits_0.
    destruct (Z.ltb_spec n 8); [by rewrite Z.shiftl_spec_low, andb_false_r by lia|].
    replace (Z.testbit (b2z b) n) with false; [done|]. symmetry.
    destruct (decide (b2z b = 0)) as [->|]; [apply Z.testbit_0_l|].
    apply Z.bits_above_log2; [lia|]. eapply Z.lt_le_trans; [|done].
    apply Z.log2_lt_pow2; [lia|]. change (2 ^ 8) with 256. lia.
Qed.

Lemma le_dec_app l k : le_dec (l ++ k) = Z.lxor (le_dec l) (Z.shiftl (le_dec k) (8 * zlen l)).
Proof.
  induction l as [|b l IH].
  - change (8 * zlen []) with 0. by rewrite Z.shiftl_0_r, Z.lxor_0_l.
  - rewrite <- app_comm_cons, !le_dec_cons, IH, Z.shiftl_lxor, Z.shiftl_shiftl, Z.lxor_assoc
      by (pose proof (zlen_nonneg l); lia).
    do 3 f_equal. rewrite zlen_cons. lia.
Qed.

(** Feeding a block is one exclusive or with its little-endian value, and
    then shifting it through. *)
Lemma feed_block c data : feed_bytes poly c data = bits poly (8 * length data) (Z.lxor c (le_dec data)).
Proof.
  revert c. induction data as [|b data IH]; intros c; [symmetry; apply Z.lxor_0_r|].
  change (feed_bytes poly c (b :: data)) with (feed_bytes poly (bits poly 8 (Z.lxor c (b2z b))) data).
  rewrite IH, bits_lxor_shiftl, <- bits_add, le_dec_cons, Z.lxor_assoc.
  f_equal. simpl length. lia.
Qed.

Lemma bits_shiftl_le n k x : (k <= n)%nat -> bits poly n (Z.shiftl x (Z.of_nat k)) = bits poly (n - k) x.
Proof. intros Hk. replace n with (k + (n - k))%nat at 1 by lia. by rewrite bits_add, bits_shiftl. Qed.

(** A 32-bit word is its four bytes. *)
Lemma word_bytes x :
  0 <= x < 2 ^ 32 ->
  x = Z.lxor (Z.land x 0xFF)
        (Z.lxor (Z.shiftl (Z.land (Z.shiftr x 8) 0xFF) 8)
          (Z.lxor (Z.shiftl (Z.land (Z.shiftr x 16) 0xFF) 16) (Z.shiftl (Z.shiftr x 24) 24))).
Proof.
  intros Hx. apply Z.bits_inj'. intros n Hn. rewrite !Z.lxor_spec, !Z.shiftl_spec, !Z.land_spec by lia.
  change 0xFF with (Z.ones 8). rewrite !Z.testbit_ones by lia.
  assert (forall k, 0 <= k -> Z.testbit (Z.shiftr x k) (n - k) = if n <? k then false else Z.testbit x n) as Hs.
  { intros k Hk. destruct (Z.ltb_spec n k); [by apply Z.testbit_neg_r; lia|].
    rewrite Z.shiftr_spec by lia. f_equal. lia. }
  rewrite !Hs by lia.
  destruct (Z.testbit x n);
    repeat match goal with |- context [?a <=? ?b] => destruct (Z.leb_spec a b) end;
    repeat match goal with |- context [?a <? ?b] => destruct (Z.ltb_spec a b) end; simpl; lia || done.
Qed.
End Blocks.

(** ** CRC-32C *)

Module Crc32c.
Definition _POLY : Z := 0x82F63B78.
Definition _MASK : Z := 0xFFFFFFFF.

(** [table[i]]: [None] is the [IndexError]. *)
Definition at_ (table : list Z) (i : Z) : option Z :=
  if i <? 0 then None else table !! Z.to_nat i.

(** The first table, and each of the others from the one before. *)
Definition _build_tables : option (list (list Z)) :=
  let first := map (fun n => bits _POLY 8 (Z.of_nat n)) (seq 0 256) in
  foldl (fun tables k =>
           ts ← tables; prev ← ts !! (k - 1)%nat;
           next ← mapM (fun v => x ← at_ first (Z.land v 0xFF); Some (Z.lxor (Z.shiftr v 8) x)) prev;
           Some (ts ++ [next]))
        (Some [first]) (seq 1 7).

Definition _T : list (list Z) := default [] _build_tables.
Definition look (k : nat) (i : Z) : option Z := t ← _T !! k; at_ t i.

(** One turn of the slice-by-eight loop. *)
Definition word_step (c : Z) (b0 b1 b2 b3 b4 b5 b6 b7 : byte) : option Z :=
  let c := Z.lxor c (le_dec [b0; b1; b2; b3]) in
  t7 ← look 7 (Z.land c 0xFF);
  t6 ← look 6 (Z.land (Z.shiftr c 8) 0xFF);
  t5 ← look 5 (Z.land (Z.shiftr c 16) 0xFF);
  t4 ← look 4 (Z.shiftr c 24);
  t3 ← look 3 (b2z b4);
  t2 ← look 2 (b2z b5);
  t1 ← look 1 (b2z b6);
  t0 ← look 0 (b2z b7);
  Some (Z.lxor (Z.lxor (Z.lxor (Z.lxor (Z.lxor (Z.lxor (Z.lxor t7 t6) t5) t4) t3) t2) t1) t0).

(** The loop over the last [n % 8] bytes. *)
Fixpoint byte_loop (c : Z) (data : bytes) : option Z :=
  match data with
  | [] => Some c
  | b :: data =>
      t ← look 0 (Z.land (Z.lxor c (b2z b)) 0xFF); byte_loop (Z.lxor t (Z.shiftr c 8)) data
  end.

Fixpoint word_loop (c : Z) (data : bytes) : option Z :=
  match data with
  | b0 :: b1 :: b2 :: b3 :: b4 :: b5 :: b6 :: b7 :: data' =>
      c ← word_step c b0 b1 b2 b3 b4 b5 b6 b7; word_loop c data'
  | _ => byte_loop c data
  end.

Definition _crc32c_py (data : bytes) (crc : Z) : option Z :=
  c ← word_loop (Z.land (Z.lxor crc _MASK) _MASK) data; Some (Z.lxor c _MASK).

(** The reference value. *)
Definition crc32c_ref (data : bytes) (crc : Z) : Z :=
  Z.lxor (feed_bytes _POLY (Z.land (Z.lxor crc _MASK) _MASK) data) _MASK.

Lemma tables_computed :
  forallb (fun k => forallb (fun n => bool_decide (look k (Z.of_nat n) = Some (bits _POLY (8 * S k) (Z.of_nat n))))
                      (seq 0 256)) (seq 0 8) = true.
Proof. vm_compute. reflexivity. Qed.

Lemma look_spec k i : (k < 8)%nat -> 0 <= i < 256 -> look k i = Some (bits _POLY (8 * S k) i).
Proof.
  intros Hk Hi. pose proof tables_computed as Ht. rewrite forallb_forall in Ht.
  specialize (Ht k ltac:(apply in_seq; lia)). rewrite forallb_forall in Ht.
  specialize (Ht (Z.to_nat i) ltac:(apply in_seq; lia)). apply bool_decide_eq_true in Ht.
  by rewrite Z2Nat.id in Ht by lia.
Qed.

Lemma land_byte x : 0 <= Z.land x 0xFF < 256.
Proof. change 0xFF with (Z.ones 8). rewrite Z.land_ones by lia. apply Z.mod_pos_bound. done. Qed.

Lemma byte_shifted_out b : Z.shiftr (b2z b) 8 = 0.
Proof.
  pose proof (b2z_range b). apply Z.shiftr_eq_0; [lia|].
  destruct (decide (b2z b = 0)) as [->|]; [done|]. apply Z.log2_lt_pow2; [lia|]. simpl. lia.
Qed.

Lemma byte_loop_spec c data : byte_loop c data = Some (feed_bytes _POLY c data).
Proof.
  revert c. induction data as [|b data IH]; intros c; [done|]. cbn [byte_loop].
  rewrite look_spec by (lia || apply land_byte). cbn [mbind option_bind].
  change (8 * 1)%nat with 8%nat. rewrite IH. simpl feed_bytes. do 2 f_equal.
  rewrite (bits8_split _POLY (Z.lxor c (b2z b))). f_equal. rewrite Z.shiftr_lxor.
  by rewrite byte_shifted_out, Z.lxor_0_r.
Qed.

Notation reg := (in_reg 32).
Lemma poly_ok : 2 ^ (32 - 1) <= _POLY < 2 ^ 32.
Proof. vm_compute. split; [discriminate | reflexivity]. Qed.

Lemma word_step_spec c b0 b1 b2 b3 b4 b5 b6 b7 :
  reg c ->
  word_step c b0 b1 b2 b3 b4 b5 b6 b7
  = Some (feed_bytes _POLY c [b0; b1; b2; b3; b4; b5; b6; b7]).
Proof.
  intros Hc. unfold word_step. cbv zeta. set (lo := le_dec [b0; b1; b2; b3]).
  set (x := Z.lxor c lo).
  assert (0 <= lo < 2 ^ 32) as Hlo by exact (le_dec_range [b0; b1; b2; b3]).
  assert (0 <= x < 2 ^ 32) as Hx by (apply lxor_range; [lia | exact Hc | done]).
  assert (0 <= Z.shiftr x 24 < 256) as H24.
  { rewrite Z.shiftr_div_pow2 by lia. split; [apply Z.div_pos; lia|].
    apply Z.div_lt_upper_bound; [lia|]. change (2 ^ 24 * 256) with (2 ^ 32). lia. }
  rewrite !look_spec by (lia || apply land_byte || apply b2z_range). cbn [mbind option_bind]. f_equal.
  rewrite feed_block. change (8 * length [b0; b1; b2; b3; b4; b5; b6; b7])%nat with 64%nat.
  change [b0; b1; b2; b3; b4; b5; b6; b7] with ([b0; b1; b2; b3] ++ [b4; b5; b6; b7]).
  rewrite le_dec_app, <- Z.lxor_assoc. fold lo x.
  change (8 * zlen [b0; b1; b2; b3]) with (Z.of_nat 32).
  rewrite bits_lxor, (bits_shiftl_le _ 64 32) by lia. rewrite (word_bytes x Hx) at 5.
  rewrite !bits_lxor.
  rewrite (bits_shiftl_le _ 64 8 (Z.land (Z.shiftr x 8) 0xFF)) by lia.
  rewrite (bits_shiftl_le _ 64 16 (Z.land (Z.shiftr x 16) 0xFF)) by lia.
  rewrite (bits_shiftl_le _ 64 24 (Z.shiftr x 24)) by lia.
  assert (bits _POLY (64 - 32) (le_dec [b4; b5; b6; b7])
          = Z.lxor (bits _POLY 32 (b2z b4)) (Z.lxor (bits _POLY 24 (b2z b5))
              (Z.lxor (bits _POLY 16 (b2z b6)) (bits _POLY 8 (b2z b7))))) as ->.
  { rewrite !le_dec_cons. change (le_dec []) with 0. rewrite Z.shiftl_0_l, Z.lxor_0_r.
    rewrite !Z.shiftl_lxor, !Z.shiftl_shiftl by lia. change (64 - 32)%nat with 32%nat.
    rewrite !bits_lxor.
    rewrite (bits_shiftl_le _ 32 8 (b2z b5)), (bits_shiftl_le _ 32 16 (b2z b6)),
      (bits_shiftl_le _ 32 24 (b2z b7)) by lia. done. }
  rewrite !Z.lxor_assoc. reflexivity.
Qed.

Lemma word_loop_spec c data : reg c -> word_loop c data = Some (feed_bytes _POLY c data).
Proof.
  remember (length data) as n eqn:Hn. revert c data Hn.
  induction n as [n IH] using lt_wf_ind. intros c data -> Hc.
  do 8 (destruct data as [|? data]; [apply byte_loop_spec|]).
  cbn [word_loop]. rewrite word_step_spec by done. cbn [mbind option_bind].
  rewrite (IH (length data)); [|simpl; lia|done|].
  - f_equal.
  - apply (feed_range _POLY 32); [lia | apply poly_ok | done].
Qed.

Lemma mask_range x : reg (Z.land x _MASK).
Proof. change _MASK with (Z.ones 32). rewrite Z.land_ones by lia. apply Z.mod_pos_bound. done. Qed.

Lemma mask_id x : reg x -> Z.land x _MASK = x.
Proof. intros Hx. change _MASK with (Z.ones 32). rewrite Z.land_ones by lia. apply Z.mod_small. exact Hx. Qed.

Lemma flip_range x : reg x -> reg (Z.lxor x _MASK).
Proof. intros Hx. apply lxor_range; [lia | done | by vm_compute]. Qed.

Lemma flip_flip x : Z.lxor (Z.lxor x _MASK) _MASK = x.
Proof. by rewrite Z.lxor_assoc, Z.lxor_nilpotent, Z.lxor_0_r. Qed.

Lemma crc32c_py_ref data crc : _crc32c_py data crc = Some (crc32c_ref data crc).
Proof. unfold _crc32c_py. rewrite word_loop_spec by apply mask_range. done. Qed.

Lemma crc32c_ref_range data crc : reg (crc32c_ref data crc).
Proof. apply flip_range, (feed_range _POLY 32); [lia | apply poly_ok | apply mask_range]. Qed.

Lemma ref_chains a b crc : crc32c_ref b (crc32c_ref a crc) = crc32c_ref (a ++ b) crc.
Proof.
  unfold crc32c_ref. rewrite flip_flip. unfold feed_bytes. rewrite foldl_app. fold (feed_bytes _POLY).
  rewrite mask_id; [done|]. apply (feed_range _POLY 32); [lia | apply poly_ok | apply mask_range].
Qed.

(** C39: the slice-by-eight CRC-32C computes the textbook CRC. For every
    message and every seed the eight-tables loop - no index of which is
    ever out of range - returns what the bit-at-a-time division by the
    reflected Castagnoli polynomial returns, and the value fits 32 bits. *)
Theorem crc32c_correct data crc :
  _crc32c_py data crc
  = Some (Z.lxor (feed_bytes _POLY (Z.land (Z.lxor crc _MASK) _MASK) data) _MASK)
  /\ 0 <= crc32c_ref data crc < 2 ^ 32.
Proof. split; [apply crc32c_py_ref | apply crc32c_ref_range]. Qed.

(** Checksumming a stream chunk by chunk is checksumming it whole. *)
Theorem crc32c_chains a b crc x :
  _crc32c_py a crc = Some x -> _crc32c_py b x = _crc32c_py (a ++ b) crc.
Proof.
  rewrite !crc32c_py_ref. intros [= <-]. f_equal. apply ref_chains.
Qed.

Lemma crc32c_chains_witness :
  exists x, _crc32c_py (b_ "12345") 0 = Some x /\ _crc32c_py (b_ "6789") x = Some 0xE3069283.
Proof.
  eexists. split; [vm_compute; reflexivity|].
  rewrite (crc32c_chains (b_ "12345") (b_ "6789") 0); [|vm_compute; reflexivity].
  vm_compute. reflexivity.
Defined.

(** Little-endian values tell blocks of the same size apart. *)
Lemma le_dec_inj l k : length l = length k -> le_dec l = le_dec k -> l = k.
Proof.
  revert k. induction l as [|a l IH]; intros [|b k] Hl E; try done. simpl in Hl, E.
  pose proof (b2z_range a). pose proof (b2z_range b).
  assert (b2z a = b2z b /\ le_dec l = le_dec k) as [Ha Hk] by lia.
  apply b2z_inj in Ha as ->. by rewrite (IH k) by lia.
Qed.

(** Corruption confined to four consecutive bytes never goes
    unnoticed: two messages that differ only there have different
    CRC-32Cs, whatever surrounds the damage and whatever the seed. *)
Theorem crc32c_detects_burst before x y after crc :
  length x = length y -> (length x <= 4)%nat ->
  _crc32c_py (before ++ x ++ after) crc = _crc32c_py (before ++ y ++ after) crc -> x = y.
Proof.
  intros Hl H4. rewrite !crc32c_py_ref. intros E. injection E as E.
  apply (f_equal (fun z => Z.lxor z _MASK)) in E. unfold crc32c_ref in E. rewrite !flip_flip in E.
  set (c := Z.land (Z.lxor crc _MASK) _MASK) in E.
  assert (forall u v w, feed_bytes _POLY u (v ++ w) = feed_bytes _POLY (feed_bytes _POLY u v) w) as Happ
    by (intros; unfold feed_bytes; apply foldl_app).
  rewrite !Happ in E. set (s := feed_bytes _POLY c before) in E.
  assert (reg s) as Hs by (apply (feed_range _POLY 32); [lia | apply poly_ok | apply mask_range]).
  apply (feed_inj _POLY 32) in E; [|lia|apply poly_ok| |]; cycle 1.
  1,2: apply (feed_range _POLY 32); [lia | apply poly_ok | done].
  rewrite !feed_block, Hl in E.
  assert (forall l : bytes, (length l <= 4)%nat -> reg (Z.lxor s (le_dec l))) as Hr.
  { intros l Hll. apply lxor_range; [lia | exact Hs|]. pose proof (le_dec_range l) as Hd.
    assert (256 ^ zlen l <= 256 ^ 4) by (apply Z.pow_le_mono_r; unfold zlen; lia).
    change (2 ^ 32) with (256 ^ 4). lia. }
  apply (bits_inj _POLY 32) in E; [|lia|apply poly_ok|apply Hr; lia|apply Hr; lia].
  apply le_dec_inj; [done|].
  apply (f_equal (Z.lxor s)) in E. by rewrite <- !Z.lxor_assoc, Z.lxor_nilpotent, !Z.lxor_0_l in E.
Qed.

Lemma crc32c_detects_burst_witness :
  _crc32c_py (b_ "paged" ++ b_ "I/O!" ++ b_ "data") 0 <> _crc32c_py (b_ "paged" ++ b_ "IOIO" ++ b_ "data") 0.
Proof.
  intros E. assert (b_ "I/O!" = b_ "IOIO") as H
    by (apply (crc32c_detects_burst (b_ "paged") (b_ "I/O!") (b_ "IOIO") (b_ "data") 0);
        [reflexivity | vm_compute; lia | exact E]).
  vm_compute in H. discriminate H.
Defined.
End Crc32c.

(** ** Paged I/O: a CRC before each page *)

Module Pages.
Import Crc32c.

Definition PAGE_SIZE : Z := 4096.

(** [crc32c(page)], on the pure-Python path. *)
Definition crc32c (page : bytes) : option Z := _crc32c_py page 0.

(** The size of the first page: short when [offset] is inside one. *)
Definition first_page (offset : Z) : Z :=
  if negb (offset mod PAGE_SIZE =? 0) then PAGE_SIZE - offset mod PAGE_SIZE else PAGE_SIZE.

(** [while pos < len(view)], on what is left of the view. *)
Fixpoint pack_loop (fuel : nat) (head : Z) (view : bytes) : option bytes :=
  match fuel with
  | O => Some []
  | S fuel =>
      match view with
      | [] => Some []
      | _ =>
          let page := slice_to view head in
          crc ← crc32c page;
          rest ← pack_loop fuel PAGE_SIZE (slice_from view head);
          Some (be_enc 4 crc ++ page ++ rest)
      end
  end.

(** Every turn takes at least a byte off the view. *)
Definition pack_pages (data : bytes) (offset : Z) : option bytes :=
  pack_loop (length data) (first_page offset) data.

Fixpoint unpack_loop (fuel : nat) (head at_ : Z) (view : bytes) : option (bytes * list Z) :=
  match fuel with
  | O => Some ([], [])
  | S fuel =>
      match view with
      | [] => Some ([], [])
      | _ =>
          let want := be_dec (slice_to view 4) in
          let page := slice view 4 (4 + head) in
          crc ← crc32c page;
          '(out, corrupt) ← unpack_loop fuel PAGE_SIZE (at_ + zlen page) (slice_from view (4 + zlen page));
          Some (page ++ out, if crc =? want then corrupt else at_ :: corrupt)
      end
  end.

Definition unpack_pages (data : bytes) (offset : Z) : option (bytes * list Z) :=
  unpack_loop (length data) (first_page offset) offset data.

(** *** What a paged payload is *)

(** Pages with the checksum each carries. *)
Definition paged (ps : list (Z * bytes)) : bytes := concat (map (fun p => be_enc 4 p.1 ++ p.2) ps).

(** Cut where the client cuts: [head] bytes first, then pages; every page
    full but the last, and none empty. *)
Fixpoint well_cut (head : Z) (pages : list bytes) : Prop :=
  match pages with
  | [] => True
  | [p] => 0 < zlen p <= head
  | p :: ps => zlen p = head /\ well_cut PAGE_SIZE ps
  end.

(** The offsets of the pages whose checksum is not the one they carry. *)
Fixpoint mismatches (at_ : Z) (ps : list (Z * bytes)) : list Z :=
  match ps with
  | [] => []
  | (want, p) :: ps =>
      (if crc32c_ref p 0 =? want then [] else [at_]) ++ mismatches (at_ + zlen p) ps
  end.

Lemma first_page_range offset : 0 < first_page offset <= PAGE_SIZE.
Proof.
  unfold first_page, PAGE_SIZE. pose proof (Z.mod_pos_bound offset 4096 ltac:(lia)).
  destruct (Z.eqb_spec (offset mod 4096) 0); simpl; lia.
Qed.

Lemma crc32c_total page : crc32c page = Some (crc32c_ref page 0).
Proof. apply crc32c_py_ref. Qed.

Lemma well_cut_cons head p ps :
  well_cut head (p :: ps) -> 0 < head ->
  0 < zlen p <= head /\ (ps <> [] -> zlen p = head) /\ well_cut PAGE_SIZE ps.
Proof. destruct ps as [|q ps]; simpl; [done|]. intros [? ?] ?. split_and!; done || lia. Qed.

Lemma unpack_paged fuel head at_ ps :
  0 < head -> well_cut head (map snd ps) -> Forall (fun p => 0 <= p.1 < 2 ^ 32) ps ->
  (length (paged ps) <= fuel)%nat ->
  unpack_loop fuel head at_ (paged ps) = Some (concat (map snd ps), mismatches at_ ps).
Proof.
  revert fuel head at_. induction ps as [|[want p] ps IH]; intros fuel head at_ Hh Hc Hr Hf.
  - by destruct fuel.
  - apply Forall_cons in Hr as [Hw Hr]. cbn [map snd] in Hc. cbn [fst] in Hw.
    apply well_cut_cons in Hc as (Hp & Hfull & Hc); [|done].
    assert (paged ((want, p) :: ps) = be_enc 4 want ++ p ++ paged ps) as E
      by (unfold paged; cbn [map concat fst snd]; by rewrite <- app_assoc).
    rewrite E in *. clear E. rewrite !length_app, be_enc_length in Hf.
    destruct fuel as [|fuel]; [lia|]. cbn [unpack_loop].
    destruct (be_enc 4 want ++ p ++ paged ps) as [|x l] eqn:Ev.
    { apply (f_equal length) in Ev. rewrite length_app, be_enc_length in Ev. simpl in Ev. lia. }
    rewrite <- Ev. clear Ev x l.
    assert (slice_to (be_enc 4 want ++ p ++ paged ps) 4 = be_enc 4 want) as ->
      by exact (slice_to_app (be_enc 4 want) (p ++ paged ps)).
    rewrite be_dec_enc_small by exact Hw.
    assert (slice (be_enc 4 want ++ p ++ paged ps) 4 (4 + head) = p) as ->.
    { rewrite slice_pos by lia. rewrite (drop_app_length' (be_enc 4 want)) by (by rewrite be_enc_length).
      replace (4 + head - 4) with head by lia. destruct (decide (ps = [])) as [->|Hne].
      - unfold paged. simpl. rewrite app_nil_r. apply take_ge. unfold zlen in Hp. lia.
      - apply take_app_length'. rewrite <- (Hfull ltac:(by destruct ps)). unfold zlen. lia. }
    rewrite crc32c_total. cbn [mbind option_bind].
    assert (slice_from (be_enc 4 want ++ p ++ paged ps) (4 + zlen p) = paged ps) as ->.
    { rewrite app_assoc. replace (4 + zlen p) with (zlen (be_enc 4 want ++ p))
        by (rewrite zlen_app, be_enc_zlen; lia). apply slice_from_app. }
    rewrite IH; [|unfold PAGE_SIZE; lia|done|done|unfold zlen in Hp; lia].
    cbn [mbind option_bind map concat snd mismatches]. by case_goal.
Qed.

Lemma mismatches_own at_ (pages : list bytes) :
  mismatches at_ (map (fun p => (crc32c_ref p 0, p)) pages) = [].
Proof.
  revert at_. induction pages as [|p ps IH]; intros at_; [done|]. cbn [map mismatches].
  by rewrite Z.eqb_refl, IH.
Qed.

(** What packing produces: the pages, each with its own checksum. *)
Lemma pack_paged fuel head view :
  0 < head -> (length view <= fuel)%nat ->
  exists pages, pack_loop fuel head view = Some (paged (map (fun p => (crc32c_ref p 0, p)) pages))
    /\ concat pages = view /\ well_cut head pages.
Proof.
  revert head view. induction fuel as [|fuel IH]; intros head view Hh Hf.
  - destruct view; [|simpl in Hf; lia]. by exists [].
  - destruct view as [|x l]; [by exists []|]. cbn [pack_loop].
    assert (0 < zlen (x :: l)) by (rewrite zlen_cons; pose proof (zlen_nonneg l); lia).
    set (view := x :: l) in *. rewrite crc32c_total. cbn [mbind option_bind].
    assert (slice_to view head = take (Z.to_nat head) view /\ slice_from view head = drop (Z.to_nat head) view)
      as [-> ->] by (unfold slice_to, slice_from; destruct (Z.ltb_spec head 0); [lia|done]).
    destruct (IH PAGE_SIZE (drop (Z.to_nat head) view)) as (ps & -> & Hcat & Hcut);
      [unfold PAGE_SIZE; lia|rewrite length_drop; unfold zlen in *; lia|].
    exists (take (Z.to_nat head) view :: ps). cbn [mbind option_bind map].
    split; [unfold paged; cbn [map concat fst snd]; by rewrite <- app_assoc|].
    split; [cbn [concat]; rewrite Hcat; apply take_drop|].
    destruct ps as [|q ps].
    + simpl. unfold zlen in *. rewrite length_take. lia.
    + split; [|done]. unfold zlen. rewrite length_take.
      assert (drop (Z.to_nat head) view <> []) as Hne.
      { rewrite <- Hcat. destruct q; [|done]. apply well_cut_cons in Hcut as [[Hq _] _];
          [by unfold zlen in Hq | unfold PAGE_SIZE; lia]. }
      assert (length (drop (Z.to_nat head) view) <> 0%nat) by (by destruct (drop (Z.to_nat head) view)).
      rewrite length_drop in *. lia.
Qed.

Lemma own_range pages : Forall (fun p => 0 <= p.1 < 2 ^ 32) (map (fun p => (crc32c_ref p 0, p)) pages).
Proof. apply Forall_map, Forall_true. intros p. apply crc32c_ref_range. Qed.

(** Paged data comes back. Whatever the data and the file offset it
    starts at, [pack_pages] succeeds, and [unpack_pages] of the result at
    the same offset returns that data with no page reported corrupt. *)
Theorem unpack_pack_pages data offset :
  exists b, pack_pages data offset = Some b /\ unpack_pages b offset = Some (data, []).
Proof.
  pose proof (first_page_range offset) as [Hh _].
  destruct (pack_paged (length data) (first_page offset) data Hh ltac:(lia)) as (ps & Hp & Hcat & Hcut).
  eexists. split; [exact Hp|]. unfold unpack_pages.
  assert (map snd (map (fun p => (crc32c_ref p 0, p)) ps) = ps) as Hs by (by rewrite map_map, map_id).
  rewrite unpack_paged; [|done|by rewrite Hs|apply own_range|done].
  by rewrite Hs, mismatches_own, Hcat.
Qed.

(** The pages reported corrupt are exactly the corrupt ones. For a
    well-cut paged payload with any checksums on it, [unpack_pages] returns
    all the page data in order and lists the file offset of each page whose
    CRC-32C is not the one it carries, and of no other. *)
Theorem unpack_reports_corrupt ps offset :
  well_cut (first_page offset) (map snd ps) -> Forall (fun p => 0 <= p.1 < 2 ^ 32) ps ->
  unpack_pages (paged ps) offset = Some (concat (map snd ps), mismatches offset ps).
Proof. intros Hc Hr. apply unpack_paged; [apply first_page_range | done | done | done]. Qed.

Definition demo_pages : list (Z * bytes) := [(0, b_ "ab"); (crc32c_ref (b_ "tail") 0, b_ "tail")].

Lemma unpack_reports_corrupt_witness :
  unpack_pages (paged demo_pages) 4094 = Some (b_ "abtail", [4094]).
Proof.
  rewrite (unpack_reports_corrupt demo_pages 4094).
  - vm_compute. reflexivity.
  - vm_compute. split; [reflexivity|]. split; [reflexivity | discriminate].
  - repeat apply Forall_cons_2; [..|apply Forall_nil_2]; vm_compute; split; discriminate || reflexivity.
Defined.
End Pages.

(** ** CRC-64 *)

Module Crc64.
Definition _MASK : Z := 2 ^ 64 - 1.

Definition _table (reflected_poly : Z) : list Z :=
  map (fun n => bits reflected_poly 8 (Z.of_nat n)) (seq 0 256).

Definition XZ_POLY : Z := 0xC96C5795D7870F42.
Definition NVME_POLY : Z := 0x9A6C9329AC4BC9B5.
Definition _XZ : list Z := _table XZ_POLY.
Definition _NVME : list Z := _table NVME_POLY.

(** The byte loop of [_fold]. *)
Fixpoint fold_loop (table : list Z) (c : Z) (data : bytes) : option Z :=
  match data with
  | [] => Some c
  | b :: data =>
      t ← Crc32c.at_ table (Z.land (Z.lxor c (b2z b)) 0xFF);
      fold_loop table (Z.lxor t (Z.shiftr c 8)) data
  end.

(** [~x & _MASK]. *)
Definition inverted (x : Z) : Z := Z.land (Z.lnot x) _MASK.

Definition _fold (table : list Z) (data : bytes) (crc : Z) : option Z :=
  c ← fold_loop table (inverted crc) data; Some (inverted c).

Definition crc64 (data : bytes) (crc : Z) : option Z := _fold _XZ data crc.
Definition crc64nvme (data : bytes) (crc : Z) : option Z := _fold _NVME data crc.

Definition crc64_ref (poly : Z) (data : bytes) (crc : Z) : Z :=
  inverted (feed_bytes poly (inverted crc) data).

Lemma at_table poly i : 0 <= i < 256 -> Crc32c.at_ (_table poly) i = Some (bits poly 8 i).
Proof.
  intros Hi. unfold Crc32c.at_, _table. destruct (Z.ltb_spec i 0); [lia|].
  change (map ?f ?l) with (f <$> l). rewrite list_lookup_fmap, lookup_seq_lt by lia. simpl. by rewrite Z2Nat.id by lia.
Qed.

Lemma fold_loop_spec poly c data : fold_loop (_table poly) c data = Some (feed_bytes poly c data).
Proof.
  revert c. induction data as [|b data IH]; intros c; [done|]. cbn [fold_loop].
  rewrite at_table by apply Crc32c.land_byte. cbn [mbind option_bind].
  rewrite IH. simpl feed_bytes. do 2 f_equal.
  rewrite (bits8_split poly (Z.lxor c (b2z b))). f_equal. rewrite Z.shiftr_lxor.
  by rewrite Crc32c.byte_shifted_out, Z.lxor_0_r.
Qed.

Lemma fold_ref poly data crc : _fold (_table poly) data crc = Some (crc64_ref poly data crc).
Proof. unfold _fold. by rewrite fold_loop_spec. Qed.

Lemma inverted_range x : in_reg 64 (inverted x).
Proof.
  unfold inverted. change _MASK with (Z.ones 64). rewrite Z.land_ones by lia.
  apply Z.mod_pos_bound. done.
Qed.

Lemma inverted_inverted x : in_reg 64 x -> inverted (inverted x) = x.
Proof.
  intros Hx. apply Z.bits_inj'. intros n Hn. unfold inverted. change _MASK with (Z.ones 64).
  rewrite !Z.land_spec, !Z.lnot_spec, Z.land_spec, Z.lnot_spec, !Z.testbit_ones by lia.
  destruct (Z.leb_spec 0 n); [|lia]. destruct (Z.ltb_spec n 64); simpl.
  - by destruct (Z.testbit x n).
  - rewrite andb_false_r. symmetry. unfold in_reg in Hx.
    destruct (decide (x = 0)) as [->|]; [apply Z.testbit_0_l|].
    apply Z.bits_above_log2; [lia|]. eapply Z.lt_le_trans; [|done]. apply Z.log2_lt_pow2; lia.
Qed.

Lemma xz_ok : 2 ^ (64 - 1) <= XZ_POLY < 2 ^ 64.
Proof. vm_compute. split; [discriminate | reflexivity]. Qed.
Lemma nvme_ok : 2 ^ (64 - 1) <= NVME_POLY < 2 ^ 64.
Proof. vm_compute. split; [discriminate | reflexivity]. Qed.

Lemma ref64_chains poly a b crc :
  2 ^ (64 - 1) <= poly < 2 ^ 64 -> crc64_ref poly b (crc64_ref poly a crc) = crc64_ref poly (a ++ b) crc.
Proof.
  intros Hp. unfold crc64_ref. rewrite inverted_inverted.
  - unfold feed_bytes. by rewrite foldl_app.
  - apply (feed_range poly 64); [lia | done | apply inverted_range].
Qed.

(** Both 64-bit CRCs are total, are the bit-at-a-time CRC of their
    polynomial, fit 64 bits, and chain: the CRC of a chunk seeded with the
    CRC of what came before is the CRC of the whole. *)
Theorem crc64_correct a b crc :
  crc64 (a ++ b) crc = Some (crc64_ref XZ_POLY (a ++ b) crc)
  /\ crc64nvme (a ++ b) crc = Some (crc64_ref NVME_POLY (a ++ b) crc)
  /\ 0 <= crc64_ref XZ_POLY (a ++ b) crc < 2 ^ 64
  /\ (x ← crc64 a crc; crc64 b x) = crc64 (a ++ b) crc
  /\ (x ← crc64nvme a crc; crc64nvme b x) = crc64nvme (a ++ b) crc.
Proof.
  unfold crc64, crc64nvme, _XZ, _NVME. rewrite !fold_ref. cbn [mbind option_bind].
  rewrite !fold_ref, !ref64_chains by (apply xz_ok || apply nvme_ok).
  split_and!; try done; apply inverted_range.
Qed.

(** The published check values of the two algorithms. *)
Example crc64_check :
  crc64 (b_ "123456789") 0 = Some 0x995DC9BBDF1939FA
  /\ crc64nvme (b_ "123456789") 0 = Some 0xAE8B14860A799888.
Proof. vm_compute. split; reflexivity. Qed.
End Crc64.
