(* ===== verification/Checksum.v ===== *)
(** * Checksums by name

    src/xrd/crypto/checksum.py: the incremental digests a copy streams
    through, and the one-shot helpers. [zlib]'s two functions are written
    out; the [hashlib] digests and [str.lower] are parameters. *)

From S2P Require Import Prelude PyStr Errors Crc.
Open Scope Z_scope.

(** ** [zlib] *)

(** [zlib.adler32(data, value)]: two sums modulo 65521, packed. *)
Definition adler32 (data : bytes) (value : Z) : option Z :=
  let a := Z.land value 0xFFFF in
  let b := Z.land (Z.shiftr value 16) 0xFFFF in
  let '(a, b) := foldl (fun '(a, b) c => let a := (a + b2z c) mod 65521 in (a, (b + a) mod 65521)) (a, b) data in
  Some (b * 65536 + a).

(** [zlib.crc32(data, value)]. *)
Definition crc32 (data : bytes) (value : Z) : option Z :=
  Some (Z.lxor (feed_bytes 0xEDB88320 (Z.land (Z.lxor value 0xFFFFFFFF) 0xFFFFFFFF) data) 0xFFFFFFFF).

(** ** Digests *)

(** [_HashlibChecksum] keeps what it was fed; the digest is a function of it. *)
Inductive digest :=
| Checksum (name : str) (step : bytes -> Z -> option Z) (value : Z) (width : nat)
| HashlibChecksum (name : str) (fed : bytes).

(** Lowercase hexadecimal, at least one digit. *)
Definition hex_digit (d : Z) : Z := if d <? 10 then 48 + d else 87 + d.
Fixpoint hex_digits (fuel : nat) (v : Z) (acc : str) : str :=
  match fuel with
  | O => acc
  | S fuel =>
      let acc := hex_digit (v mod 16) :: acc in
      if v / 16 =? 0 then acc else hex_digits fuel (v / 16) acc
  end.
Definition to_hex (v : Z) : str := hex_digits (S (Z.to_nat (Z.log2 v))) v [].

(** [f"{v:0{width}x}"]. *)
Definition format_hex (width : nat) (v : Z) : str :=
  replicate (width - length (to_hex v)) 48 ++ to_hex v.

(** [bytes.hex()]. *)
Definition bytes_hex (b : bytes) : str :=
  b ≫= fun x => [hex_digit (b2z x / 16); hex_digit (b2z x mod 16)].

Section Checksums.
(** [hashlib.new(name, data).digest()] and [str.lower]. *)
Variable hashlib : str -> bytes -> bytes.
Variable lower : str -> str.

(** [update]; [None] when the step raised. *)
Definition update (d : digest) (data : bytes) : option digest :=
  match d with
  | Checksum name step value width => v ← step data value; Some (Checksum name step v width)
  | HashlibChecksum name fed => Some (HashlibChecksum name (fed ++ data))
  end.

Definition hexdigest (d : digest) : str :=
  match d with
  | Checksum _ _ value width => format_hex width value
  | HashlibChecksum name fed => bytes_hex (hashlib name fed)
  end.

Definition _NATIVE : dict str ((bytes -> Z -> option Z) * Z * nat) :=
  [(s_ "adler32", (adler32, 1, 8%nat)); (s_ "crc32", (crc32, 0, 8%nat));
   (s_ "crc32c", (Crc32c._crc32c_py, 0, 8%nat)); (s_ "crc64", (Crc64.crc64, 0, 16%nat));
   (s_ "crc64nvme", (Crc64.crc64nvme, 0, 16%nat))].
Definition _ALIASES : dict str str := [(s_ "crc64xz", s_ "crc64")].
Definition _HASHLIB : list str :=
  [s_ "md5"; s_ "sha1"; s_ "sha224"; s_ "sha256"; s_ "sha384"; s_ "sha512"].

(** [new(name)]: case and dashes do not matter. *)
Definition new (name : str) : res digest :=
  let key := filter (fun c => c <> 0x2D) (lower name) in
  let key := default key (dict_get key _ALIASES) in
  match dict_get key _NATIVE with
  | Some (step, seed, width) => Ok (Checksum key step seed width)
  | None => if bool_decide (key ∈ _HASHLIB) then Ok (HashlibChecksum key []) else Err ValueError
  end.

(** [for chunk in chunks: h.update(chunk)]. *)
Fixpoint update_all (d : digest) (chunks : list bytes) : option digest :=
  match chunks with
  | [] => Some d
  | c :: cs => d ← update d c; update_all d cs
  end.

Definition checksum_bytes (name : str) (data : bytes) : res (option str) :=
  h ← new name; Ok (hexdigest <$> update h data).

Definition checksum_file (name : str) (chunks : list bytes) : res (option str) :=
  h ← new name; Ok (hexdigest <$> update_all h chunks).

(** ** A step that chains *)

Definition chains (step : bytes -> Z -> option Z) (ok : Z -> Prop) : Prop :=
  (forall v, ok v -> step [] v = Some v)
  /\ forall a b v, ok v -> exists x, step a v = Some x /\ ok x /\ step b x = step (a ++ b) v.

Lemma adler_sums data a b :
  let '(a', b') := foldl (fun '(a, b) c => let a := (a + b2z c) mod 65521 in (a, (b + a) mod 65521))
                     (a, b) data in
  0 <= a < 65521 -> 0 <= b < 65521 -> 0 <= a' < 65521 /\ 0 <= b' < 65521.
Proof.
  revert a b. induction data as [|c data IH]; intros a b; [simpl; tauto|]. cbn [foldl].
  pose proof (IH ((a + b2z c) mod 65521) ((b + (a + b2z c) mod 65521) mod 65521)) as H.
  destruct (foldl _ _ data). intros _ _. apply H; apply Z.mod_pos_bound; lia.
Qed.

Definition adler_ok (v : Z) : Prop := exists a b, v = b * 65536 + a /\ 0 <= a < 65521 /\ 0 <= b < 65521.

Lemma adler_unpack a b :
  0 <= a < 65521 -> 0 <= b < 65521 ->
  Z.land (b * 65536 + a) 0xFFFF = a /\ Z.land (Z.shiftr (b * 65536 + a) 16) 0xFFFF = b.
Proof.
  intros Ha Hb. change 0xFFFF with (Z.ones 16). rewrite !Z.land_ones, Z.shiftr_div_pow2 by lia.
  change (2 ^ 16) with 65536. rewrite Z.div_add_l, (Z.div_small a) by lia.
  rewrite Z.add_comm, Z.mod_add, Z.add_0_r, !Z.mod_small by lia. done.
Qed.

Lemma adler_chains : chains adler32 adler_ok.
Proof.
  split.
  - intros v (a & b & -> & Ha & Hb). unfold adler32. destruct (adler_unpack a b Ha Hb) as [-> ->]. done.
  - intros x y v (a & b & -> & Ha & Hb). unfold adler32. destruct (adler_unpack a b Ha Hb) as [-> ->].
    rewrite foldl_app. pose proof (adler_sums x a b) as Hx. destruct (foldl _ _ x) as [a' b'].
    destruct (Hx Ha Hb) as [Ha' Hb']. eexists. split; [done|]. split; [by exists a', b'|].
    destruct (adler_unpack a' b' Ha' Hb') as [-> ->]. done.
Qed.

Lemma crc32_chains : chains crc32 (in_reg 32).
Proof.
  assert (forall data v, in_reg 32 (feed_bytes 0xEDB88320 (Z.land v 0xFFFFFFFF) data)) as Hr.
  { intros data v. apply (feed_range 0xEDB88320 32); [lia | by vm_compute | apply (Crc32c.mask_range v)]. }
  split.
  - intros v Hv. unfold crc32. change 0xFFFFFFFF with Crc32c._MASK. simpl feed_bytes. f_equal.
    rewrite (Crc32c.mask_id (Z.lxor v Crc32c._MASK)) by (by apply Crc32c.flip_range).
    apply Crc32c.flip_flip.
  - intros a b v Hv. eexists. split; [done|]. split; [apply Crc32c.flip_range, Hr|].
    unfold crc32. change 0xFFFFFFFF with Crc32c._MASK. f_equal. f_equal. rewrite (Crc32c.flip_flip (feed_bytes _ _ a)).
    rewrite (Crc32c.mask_id (feed_bytes _ _ a)) by apply Hr. unfold feed_bytes. by rewrite foldl_app.
Qed.

Lemma crc32c_step_chains : chains Crc32c._crc32c_py (in_reg 32).
Proof.
  split.
  - intros v Hv. rewrite Crc32c.crc32c_py_ref. f_equal. unfold Crc32c.crc32c_ref. simpl feed_bytes.
    rewrite Crc32c.mask_id by (by apply Crc32c.flip_range). apply Crc32c.flip_flip.
  - intros a b v Hv. eexists. split; [apply Crc32c.crc32c_py_ref|]. split; [apply Crc32c.crc32c_ref_range|].
    rewrite !Crc32c.crc32c_py_ref. f_equal. apply Crc32c.ref_chains.
Qed.

Lemma crc64_chains poly :
  2 ^ (64 - 1) <= poly < 2 ^ 64 -> chains (Crc64._fold (Crc64._table poly)) (in_reg 64).
Proof.
  intros Hp. split.
  - intros v Hv. rewrite Crc64.fold_ref. f_equal. by apply Crc64.inverted_inverted.
  - intros a b v Hv. eexists. split; [apply Crc64.fold_ref|]. split; [apply Crc64.inverted_range|].
    rewrite !Crc64.fold_ref. f_equal. by apply Crc64.ref64_chains.
Qed.

Lemma native_chains key step seed width :
  dict_get key _NATIVE = Some (step, seed, width) -> exists ok, chains step ok /\ ok seed.
Proof.
  unfold _NATIVE. cbn [dict_get]. repeat case_decide; intros E; try done; injection E as <- <- <-.
  - exists adler_ok. split; [apply adler_chains|]. exists 1, 0. done.
  - exists (in_reg 32). split; [apply crc32_chains | done].
  - exists (in_reg 32). split; [apply crc32c_step_chains | done].
  - exists (in_reg 64). split; [apply crc64_chains, Crc64.xz_ok | done].
  - exists (in_reg 64). split; [apply crc64_chains, Crc64.nvme_ok | done].
Qed.

Lemma update_all_concat step ok name value width chunks :
  chains step ok -> ok value ->
  update_all (Checksum name step value width) chunks
  = update (Checksum name step value width) (concat chunks)
  /\ is_Some (update (Checksum name step value width) (concat chunks)).
Proof.
  intros [Hnil Happ]. revert value. induction chunks as [|c cs IH]; intros v Hv.
  - simpl. rewrite (Hnil v Hv). split; [done | by eexists].
  - cbn [update_all concat update]. destruct (Happ c (concat cs) v Hv) as (x & Hx & Hok & Hcat).
    rewrite Hx. cbn [mbind option_bind]. destruct (IH x Hok) as [-> Hs].
    cbn [update] in *. by rewrite Hcat in *.
Qed.

Lemma update_all_hashlib name fed chunks :
  update_all (HashlibChecksum name fed) chunks = Some (HashlibChecksum name (fed ++ concat chunks)).
Proof.
  revert fed. induction chunks as [|c cs IH]; intros fed; cbn [update_all concat];
    [by rewrite app_nil_r|]. cbn [update mbind option_bind]. by rewrite IH, <- app_assoc.
Qed.

(** Streaming does not change a checksum. For every algorithm the
    client knows and every way of cutting the data into chunks, the digest
    of the stream is the digest of the whole, and computing it never
    raises; for a name it does not know, both raise [ValueError]. *)
Theorem checksum_file_bytes name chunks :
  checksum_file name chunks = checksum_bytes name (concat chunks)
  /\ match checksum_bytes name (concat chunks) with
     | Ok d => is_Some d
     | Err e => e = ValueError
     end.
Proof.
  unfold checksum_file, checksum_bytes, new. cbv zeta. set (key := default _ _).
  destruct (dict_get key _NATIVE) as [[[step seed] width]|] eqn:E.
  - apply native_chains in E as (ok & Hc & Hs). cbn [mbind result_bind].
    destruct (update_all_concat step ok key seed width chunks Hc Hs) as [-> [d Hd]].
    split; [done|]. rewrite Hd. by eexists.
  - destruct (bool_decide (key ∈ _HASHLIB)); [|done]. cbn [mbind result_bind].
    rewrite update_all_hashlib. split; [done|]. by eexists.
Qed.

(** A digest that does not mind how its input is cut. *)
Definition additive (d0 : digest) : Prop :=
  update d0 [] = Some d0
  /\ forall out d piece, update d0 out = Some d -> update d piece = update d0 (out ++ piece) /\ is_Some (update d piece).

Lemma new_additive name d0 : new name = Ok d0 -> additive d0.
Proof.
  unfold new. cbv zeta. set (key := default _ _).
  destruct (dict_get key _NATIVE) as [[[step seed] width]|] eqn:E.
  - apply native_chains in E as (ok & [Hnil Happ] & Hs). intros [= <-]. split; [cbn; by rewrite Hnil|].
    intros out d piece. cbn [update]. destruct (Happ out piece seed Hs) as (x & -> & Hx & Hc).
    cbn [mbind option_bind]. intros [= <-]. destruct (Happ piece [] x Hx) as (y & Hy & _). cbn. by rewrite <- Hc, Hy.
  - destruct (bool_decide (key ∈ _HASHLIB)); [|done]. intros [= <-]. split; [done|].
    intros out d piece [= <-]. split; [done | by eexists].
Qed.
End Checksums.

(** ** The printed form *)

(** The value a hexadecimal string stands for. *)
Definition hex_val (c : Z) : Z := if c <? 58 then c - 48 else c - 87.
Definition hex_value (s : str) : Z := foldl (fun acc c => acc * 16 + hex_val c) 0 s.

Lemma hex_val_digit d : 0 <= d < 16 -> hex_val (hex_digit d) = d.
Proof.
  intros Hd. unfold hex_digit, hex_val. destruct (Z.ltb_spec d 10).
  - destruct (Z.ltb_spec (48 + d) 58); lia.
  - destruct (Z.ltb_spec (87 + d) 58); lia.
Qed.

Lemma hex_value_app s t : hex_value (s ++ t) = hex_value s * 16 ^ zlen t + hex_value t.
Proof.
  induction t as [|c t IH] using rev_ind.
  - rewrite app_nil_r. change (zlen []) with 0. unfold hex_value at 3. simpl. lia.
  - unfold hex_value in *. rewrite app_assoc, foldl_app. cbn [foldl]. rewrite IH, foldl_app. cbn [foldl].
    rewrite zlen_app. change (zlen [c]) with 1. rewrite Z.pow_add_r by (pose proof (zlen_nonneg t); lia). lia.
Qed.

Lemma hex_digits_app fuel v acc : hex_digits fuel v acc = hex_digits fuel v [] ++ acc.
Proof.
  revert v acc. induction fuel as [|fuel IH]; intros v acc; [done|]. cbn [hex_digits].
  case_goal; [done|]. rewrite IH, (IH _ [_]), <- app_assoc. done.
Qed.

Lemma hex_digits_value fuel v :
  0 <= v -> (v < 16 ^ Z.of_nat fuel) -> (0 < fuel)%nat ->
  hex_value (hex_digits fuel v []) = v
  /\ (forall n, v < 16 ^ Z.of_nat n -> (0 < n)%nat -> (length (hex_digits fuel v []) <= n)%nat).
Proof.
  revert v. induction fuel as [|fuel IH]; intros v Hv Hf Hpos; [lia|]. cbn [hex_digits].
  pose proof (Z.mod_pos_bound v 16 ltac:(lia)) as Hm. pose proof (Z.div_mod v 16 ltac:(lia)) as Hdm.
  destruct (Z.eqb_spec (v / 16) 0) as [Hz|Hz].
  - split; [unfold hex_value; simpl; rewrite hex_val_digit by done; lia|]. intros; simpl; lia.
  - assert (0 < v / 16) by (pose proof (Z.div_pos v 16 Hv ltac:(lia)); lia).
    assert (forall k, v < 16 ^ Z.of_nat (S k) -> v / 16 < 16 ^ Z.of_nat k) as Hdiv.
    { intros k Hk. apply Z.div_lt_upper_bound; [lia|]. rewrite Nat2Z.inj_succ, Z.pow_succ_r in Hk by lia. lia. }
    assert (fuel <> 0%nat) by (intros ->; specialize (Hdiv 0%nat Hf); simpl in Hdiv; lia).
    destruct (IH (v / 16)) as [Hval Hlen]; [lia | by apply Hdiv | lia|].
    rewrite hex_digits_app, hex_value_app, Hval. change (zlen [hex_digit (v mod 16)]) with 1.
    unfold hex_value. cbn [foldl]. rewrite hex_val_digit by done. split; [lia|].
    intros n Hn Hnp. rewrite length_app. simpl. destruct n as [|[|n]]; [lia| |].
    + specialize (Hdiv 0%nat Hn). simpl in Hdiv. lia.
    + specialize (Hlen (S n) (Hdiv _ Hn) ltac:(lia)). lia.
Qed.

Lemma log2_fuel v : 0 <= v -> v < 16 ^ Z.of_nat (S (Z.to_nat (Z.log2 v))).
Proof.
  intros Hv. rewrite Nat2Z.inj_succ, Z2Nat.id by apply Z.log2_nonneg.
  destruct (decide (v = 0)) as [->|]; [done|].
  apply Z.lt_le_trans with (2 ^ Z.succ (Z.log2 v)); [apply Z.log2_spec; lia|].
  apply Z.pow_le_mono_l. lia.
Qed.

(** The printed digest is faithful. A native digest prints as exactly
    [width] lowercase hexadecimal digits, and reading them back gives the
    value, for every value that fits. *)
Theorem hexdigest_faithful hashlib name step value width :
  0 <= value < 16 ^ Z.of_nat width -> (0 < width)%nat ->
  let s := hexdigest hashlib (Checksum name step value width) in
  length s = width /\ hex_value s = value.
Proof.
  intros Hv Hw. cbv zeta. unfold hexdigest, format_hex, to_hex.
  destruct (hex_digits_value (S (Z.to_nat (Z.log2 value))) value) as [Hval Hlen];
    [lia | apply log2_fuel; lia | lia|].
  specialize (Hlen width (proj2 Hv) Hw).
  assert (forall n, hex_value (replicate n 48) = 0) as Hz.
  { induction n as [|n IH]; [done|]. change (replicate (S n) 48) with ([48] ++ replicate n 48).
    rewrite hex_value_app, IH. done. }
  rewrite length_app, length_replicate, hex_value_app, Hval, Hz. split; [lia|]. lia.
Qed.

Lemma hexdigest_faithful_witness :
  hexdigest (fun _ b => b) (Checksum (s_ "adler32") adler32 0x062c0215 8) = s_ "062c0215"
  /\ hex_value (s_ "062c0215") = 0x062c0215.
Proof.
  destruct (hexdigest_faithful (fun _ b => b) (s_ "adler32") adler32 0x062c0215 8
              ltac:(split; [discriminate | reflexivity]) ltac:(lia)) as [_ H].
  split; [vm_compute; reflexivity | exact H].
Defined.
