(* ===== verification/Aes.v ===== *)
(** * AES and CBC

    src/xrd/crypto/aes.py: the tables built from the field, the key schedule,
    the cipher and its inverse on one block, PKCS#7 padding and the CBC mode
    the GSI session cipher uses. A block's [state] is the list of its sixteen
    integers, updated in place as the source does. *)

From S2P Require Import Prelude PyStr Errors Words.
Open Scope Z_scope.

Definition BLOCK_SIZE : Z := 16.

(** ** The S-box, from the field *)

(** One turn of the walk: [p] times three, [q] divided by three. *)
Definition walk_p (p : Z) : Z :=
  Z.lxor (Z.lxor p (Z.land (Z.shiftl p 1) 0xFF)) (if Z.land p 0x80 =? 0 then 0 else 0x1B).
Definition walk_q (q : Z) : Z :=
  let q := Z.lxor q (Z.shiftl q 1) in
  let q := Z.lxor q (Z.shiftl q 2) in
  let q := Z.lxor q (Z.shiftl q 4) in
  let q := Z.land q 0xFF in
  if Z.land q 0x80 =? 0 then q else Z.lxor q 0x09.

(** The affine map of the S-box. *)
Definition affine (q : Z) : Z :=
  let rot k := Z.lor (Z.shiftl q k) (Z.shiftr q (8 - k)) in
  let value := Z.lxor (Z.lxor q (rot 1)) (rot 2) in
  let value := Z.lxor value (Z.lxor (rot 3) (rot 4)) in
  Z.land (Z.lxor value 0x63) 0xFF.

(** [while True], until [p] is back at one. *)
Fixpoint walk (fuel : nat) (p q : Z) (sbox : list Z) : option (list Z) :=
  match fuel with
  | O => None
  | S fuel =>
      let p := walk_p p in
      let q := walk_q q in
      let sbox := zset sbox p (affine q) in
      if p =? 1 then Some sbox else walk fuel p q sbox
  end.

(** The S-box and its inverse. *)
Definition _build_tables : option (list Z * list Z) :=
  sbox ← walk 255 1 1 (replicate 256 0);
  let sbox := zset sbox 0 0x63 in
  let inverse := foldl (fun inv index => zset inv (zget sbox index) index)
                   (replicate 256 0) (range 0 256) in
  Some (sbox, inverse).

Definition SBOX : list Z := Eval vm_compute in (default ([], []) _build_tables).1.
Definition INV_SBOX : list Z := Eval vm_compute in (default ([], []) _build_tables).2.
Definition RCON : list Z :=
  [0x01; 0x02; 0x04; 0x08; 0x10; 0x20; 0x40; 0x80; 0x1B; 0x36; 0x6C; 0xD8; 0xAB; 0x4D].

Definition _xtime (a : Z) : Z :=
  let a := Z.shiftl a 1 in
  if Z.land a 0x100 =? 0 then a else Z.land (Z.lxor a 0x1B) 0xFF.

(** [while b], one turn per bit of [b]. *)
Fixpoint mul_loop (fuel : nat) (out a b : Z) : Z :=
  match fuel with
  | O => out
  | S fuel =>
      if b =? 0 then out
      else mul_loop fuel (if Z.land b 1 =? 0 then out else Z.lxor out a) (_xtime a) (Z.shiftr b 1)
  end.
Definition _mul (a b : Z) : Z := mul_loop (S (Z.to_nat (Z.log2 b))) 0 a b.

(** ** One key *)

Record AES := mkAES {
  _round_keys : list (list Z);
  _rounds : Z;
  key_size : Z
}.

(** [[a ^ b for a, b in zip_strict(x, y)]]. *)
Definition xor_lists (x y : list Z) : list Z := zip_with Z.lxor x y.

Definition sub_bytes (box state : list Z) : list Z := zget box <$> state.

(** One word of the key schedule. *)
Definition expand_step (nk : Z) (words : list (list Z)) (index : Z) : list (list Z) :=
  let temp := nth (Z.to_nat (index - 1)) words [] in
  let temp :=
    if index mod nk =? 0 then
      let temp := drop 1 temp ++ take 1 temp in
      let temp := sub_bytes SBOX temp in
      zset temp 0 (Z.lxor (zget temp 0) (zget RCON (index / nk - 1)))
    else if (6 <? nk) && (index mod nk =? 4) then sub_bytes SBOX temp
    else temp in
  words ++ [xor_lists (nth (Z.to_nat (index - nk)) words []) temp].

Definition _expand (rounds : Z) (key : bytes) : list (list Z) :=
  let words := (fun i => slice (ints key) (4 * i) (4 * i + 4)) <$> range 0 (zlen key / 4) in
  let nk := zlen words in
  let total := 4 * (rounds + 1) in
  let words := foldl (expand_step nk) words (range nk total) in
  (fun r => concat (slice words (r * 4) (r * 4 + 4))) <$> range 0 (rounds + 1).

(** [AES(key)]. *)
Definition AES_init (key : bytes) : res AES :=
  let make rounds := Ok (mkAES (_expand rounds key) rounds (zlen key)) in
  if zlen key =? 16 then make 10
  else if zlen key =? 24 then make 12
  else if zlen key =? 32 then make 14
  else Err ValueError.

(** ** One block *)

Definition _add_round_key (state key : list Z) : list Z :=
  foldl (fun s i => zset s i (Z.lxor (zget s i) (zget key i))) state (range 0 16).

Definition row_of (state : list Z) (row : Z) : list Z :=
  (fun c => zget state (row + 4 * c)) <$> range 0 4.
Definition set_row (state : list Z) (row : Z) (column : list Z) : list Z :=
  foldl (fun s c => zset s (row + 4 * c) (zget column c)) state (range 0 4).

Definition _shift_rows (state : list Z) : list Z :=
  foldl (fun s row =>
    let column := row_of s row in
    set_row s row (slice_from column row ++ slice_to column row)) state (range 1 4).

Definition _inv_shift_rows (state : list Z) : list Z :=
  foldl (fun s row =>
    let column := row_of s row in
    set_row s row (slice_from column (- row) ++ slice_to column (- row))) state (range 1 4).

Definition mix_column (s : list Z) (c : Z) : list Z :=
  let a := slice s (4 * c) (4 * c + 4) in
  let t := Z.lxor (Z.lxor (Z.lxor (zget a 0) (zget a 1)) (zget a 2)) (zget a 3) in
  foldl (fun s i => zset s (4 * c + i)
    (Z.lxor (Z.lxor (zget a i) t) (_xtime (Z.lxor (zget a i) (zget a ((i + 1) mod 4))))))
    s (range 0 4).
Definition _mix_columns (state : list Z) : list Z := foldl mix_column state (range 0 4).

Definition inv_mix_column (s : list Z) (c : Z) : list Z :=
  let a := slice s (4 * c) (4 * c + 4) in
  foldl (fun s i => zset s (4 * c + i)
    (Z.lxor (Z.lxor (Z.lxor (_mul (zget a i) 14) (_mul (zget a ((i + 1) mod 4)) 11))
       (_mul (zget a ((i + 2) mod 4)) 13)) (_mul (zget a ((i + 3) mod 4)) 9)))
    s (range 0 4).
Definition _inv_mix_columns (state : list Z) : list Z := foldl inv_mix_column state (range 0 4).

Definition round_key (k : AES) (rnd : Z) : list Z := nth (Z.to_nat rnd) (_round_keys k) [].

Definition enc_round (k : AES) (state : list Z) (rnd : Z) : list Z :=
  _add_round_key (_mix_columns (_shift_rows (sub_bytes SBOX state))) (round_key k rnd).

Definition encrypt_block (k : AES) (block : bytes) : res bytes :=
  if negb (zlen block =? BLOCK_SIZE) then Err ValueError else
  let state := ints block in
  let state := _add_round_key state (round_key k 0) in
  let state := foldl (enc_round k) state (range 1 (_rounds k)) in
  let state := sub_bytes SBOX state in
  let state := _shift_rows state in
  let state := _add_round_key state (round_key k (_rounds k)) in
  Ok (to_bytes state).

Definition dec_round (k : AES) (state : list Z) (rnd : Z) : list Z :=
  _inv_mix_columns (_add_round_key (sub_bytes INV_SBOX (_inv_shift_rows state)) (round_key k rnd)).

Definition decrypt_block (k : AES) (block : bytes) : res bytes :=
  if negb (zlen block =? BLOCK_SIZE) then Err ValueError else
  let state := ints block in
  let state := _add_round_key state (round_key k (_rounds k)) in
  let state := foldl (dec_round k) state (reverse (range 1 (_rounds k))) in
  let state := _inv_shift_rows state in
  let state := sub_bytes INV_SBOX state in
  let state := _add_round_key state (round_key k 0) in
  Ok (to_bytes state).

(** ** Padding and chaining *)

Definition pkcs7_pad (data : bytes) (block_size : Z) : bytes :=
  let pad := block_size - zlen data mod block_size in
  data ++ replicate (Z.to_nat pad) (z2b pad).

Definition pkcs7_unpad (data : bytes) (block_size : Z) : res bytes :=
  if bool_decide (data = []) || negb (zlen data mod block_size =? 0) then Err ValueError else
  let pad := b2z (List.last data x00) in
  if negb ((1 <=? pad) && (pad <=? block_size))
     || negb (bool_decide (slice_from data (- pad) = replicate (Z.to_nat pad) (z2b pad)))
  then Err ValueError
  else Ok (slice_to data (- pad)).

Definition xor_bytes (x y : bytes) : bytes := to_bytes (xor_lists (ints x) (ints y)).

Fixpoint cbc_enc_loop (k : AES) (previous : bytes) (blocks : list bytes) : res bytes :=
  match blocks with
  | [] => Ok []
  | block :: blocks =>
      previous ← encrypt_block k (xor_bytes block previous);
      out ← cbc_enc_loop k previous blocks;
      Ok (previous ++ out)
  end.

Definition cbc_encrypt (key data iv : bytes) (pad : bool) : res bytes :=
  if negb (zlen iv =? BLOCK_SIZE) then Err ValueError else
  let plain := if pad then pkcs7_pad data BLOCK_SIZE else data in
  if negb (zlen plain mod BLOCK_SIZE =? 0) then Err ValueError else
  cipher ← AES_init key;
  cbc_enc_loop cipher iv (chunks BLOCK_SIZE plain).

Fixpoint cbc_dec_loop (k : AES) (previous : bytes) (blocks : list bytes) : res bytes :=
  match blocks with
  | [] => Ok []
  | block :: blocks =>
      plain ← decrypt_block k block;
      out ← cbc_dec_loop k block blocks;
      Ok (xor_bytes plain previous ++ out)
  end.

Definition cbc_decrypt (key data iv : bytes) (pad : bool) : res bytes :=
  if negb (zlen iv =? BLOCK_SIZE) then Err ValueError else
  if bool_decide (data = []) || negb (zlen data mod BLOCK_SIZE =? 0) then Err ValueError else
  cipher ← AES_init key;
  out ← cbc_dec_loop cipher iv (chunks BLOCK_SIZE data);
  if pad then pkcs7_unpad out BLOCK_SIZE else Ok out.

Lemma tables_built : _build_tables = Some (SBOX, INV_SBOX).
Proof. vm_compute. reflexivity. Qed.
