(* ===== verification/AesProps.v ===== *)
(** * AES is invertible

    The tables of src/xrd/crypto/aes.py are the S-box of FIPS-197, every step
    of the cipher is undone by its inverse, and so are a block, the padding
    and a whole CBC message, for keys of every size. *)

From S2P Require Import Prelude PyStr Errors Words Aes.
From Stdlib Require Import Btauto.
Open Scope Z_scope.

(** A block's sixteen integers, each a byte. *)
Definition is_block (s : list Z) : Prop := length s = 16%nat /\ Forall is_byte s.

Ltac split_block s :=
  let Hs := fresh "Hs" in let Hl := fresh "Hl" in
  intros [Hl Hs];
  do 16 (destruct s as [|? s]; [discriminate|]); destruct s; [clear Hl|discriminate];
  rewrite ?Forall_cons in Hs; destruct_all.

(** ** The S-box *)

Lemma sbox_inverse b : is_byte b -> zget INV_SBOX (zget SBOX b) = b.
Proof.
  intros Hb. apply Z.eqb_eq.
  apply (all_bytes (fun b => zget INV_SBOX (zget SBOX b) =? b)); [by vm_compute|done].
Qed.

Lemma box_byte box b :
  forallb (fun b => (0 <=? zget box b) && (zget box b <? 256)) (seqZ 0 256) = true ->
  is_byte b -> is_byte (zget box b).
Proof.
  intros H Hb. apply (all_bytes _ b H) in Hb. zbool. split; [done|].
  change (2 ^ 8) with 256. lia.
Qed.

Lemma sbox_byte b : is_byte b -> is_byte (zget SBOX b).
Proof. apply box_byte. by vm_compute. Qed.

Lemma inv_sbox_byte b : is_byte b -> is_byte (zget INV_SBOX b).
Proof. apply box_byte. by vm_compute. Qed.

Lemma sub_bytes_inv s : is_block s -> sub_bytes INV_SBOX (sub_bytes SBOX s) = s.
Proof.
  intros [_ Hs]. unfold sub_bytes. induction Hs as [|x s Hx _ IH]; [done|].
  rewrite !fmap_cons. by rewrite sbox_inverse, IH.
Qed.

Lemma sub_bytes_block s : is_block s -> is_block (sub_bytes SBOX s).
Proof.
  intros [Hl Hs]. split; [by unfold sub_bytes; rewrite length_fmap|].
  apply Forall_fmap. eapply Forall_impl; [exact Hs|]. apply sbox_byte.
Qed.

(** ** Rows and round keys *)

Lemma shift_rows_inv s : is_block s -> _inv_shift_rows (_shift_rows s) = s.
Proof. split_block s. by vm_compute. Qed.

Lemma shift_rows_block s : is_block s -> is_block (_shift_rows s).
Proof. split_block s. split; [by vm_compute|]. vm_compute _shift_rows. rewrite !Forall_cons. tauto. Qed.

Lemma add_round_key_eq s k : length s = 16%nat -> length k = 16%nat -> _add_round_key s k = xor_lists s k.
Proof.
  intros Hs Hk.
  do 16 (destruct s as [|? s]; [discriminate|]); destruct s; [|discriminate].
  do 16 (destruct k as [|? k]; [discriminate|]); destruct k; [|discriminate].
  by cbv -[Z.lxor].
Qed.

Lemma xor_lists_inv s k : length s = length k -> xor_lists (xor_lists s k) k = s.
Proof.
  revert k. induction s as [|x s IH]; intros [|y k]; try done. intros [= Hl]. unfold xor_lists in *. simpl.
  by rewrite lxor_cancel_r, IH.
Qed.

Lemma xor_lists_length x y : length x = length y -> length (xor_lists x y) = length x.
Proof. intros. unfold xor_lists. rewrite length_zip_with. lia. Qed.

Lemma xor_lists_byte x y : Forall is_byte x -> Forall is_byte y -> Forall is_byte (xor_lists x y).
Proof.
  intros Hx. revert y. induction Hx as [|a x Ha Hx IH]; intros y Hy; [constructor|].
  destruct Hy as [|b y Hb Hy]; [constructor|]. unfold xor_lists in *. simpl.
  constructor; [apply lxor_in_width; [lia|done..] | auto].
Qed.

Lemma add_round_key_block s k : is_block s -> is_block k -> is_block (_add_round_key s k).
Proof.
  intros [Hs Hsb] [Hk Hkb]. rewrite add_round_key_eq by done.
  split; [rewrite xor_lists_length; congruence | by apply xor_lists_byte].
Qed.

Lemma add_round_key_inv s k : is_block s -> is_block k -> _add_round_key (_add_round_key s k) k = s.
Proof.
  intros Hs Hk. destruct (add_round_key_block s k Hs Hk) as [Hl _].
  rewrite (add_round_key_eq _ k) by (done || apply Hk). destruct Hs, Hk.
  rewrite add_round_key_eq by done. apply xor_lists_inv. congruence.
Qed.

(** ** Columns: multiplication is linear *)

Lemma xtime_byte a : is_byte a -> is_byte (_xtime a).
Proof.
  intros Ha. assert ((0 <=? _xtime a) && (_xtime a <? 256) = true) as H.
  { apply (all_bytes (fun a => (0 <=? _xtime a) && (_xtime a <? 256))); [by vm_compute|done]. }
  zbool. split; [done|]. change (2 ^ 8) with 256. lia.
Qed.

Ltac bytes_tac := repeat first [assumption | apply xtime_byte | apply lxor_in_width; [lia| |]].

(** The overflow of a doubling is bit seven, and what is folded back for it. *)
Lemma xtime_eq a : is_byte a ->
  _xtime a = Z.lxor (Z.land (Z.shiftl a 1) 0xFF) (if Z.testbit a 7 then 0x1B else 0).
Proof.
  intros Ha. apply Z.eqb_eq.
  apply (all_bytes (fun a => _xtime a =? Z.lxor (Z.land (Z.shiftl a 1) 0xFF) (if Z.testbit a 7 then 0x1B else 0)));
    [by vm_compute|done].
Qed.

Lemma xtime_lxor a b : is_byte a -> is_byte b -> _xtime (Z.lxor a b) = Z.lxor (_xtime a) (_xtime b).
Proof.
  intros Ha Hb. rewrite !xtime_eq by bytes_tac.
  rewrite Z.shiftl_lxor, Z.lxor_spec.
  apply Z.bits_inj'. intros n _. rewrite !Z.lxor_spec, !Z.land_spec, !Z.lxor_spec.
  destruct (Z.testbit a 7), (Z.testbit b 7), (Z.testbit (Z.shiftl a 1) n), (Z.testbit (Z.shiftl b 1) n),
    (Z.testbit 0xFF n); simpl; rewrite ?Z.bits_0; try done;
    by destruct (Z.testbit 0x1B n).
Qed.

(** The four constants of the inverse, by doublings. *)
Lemma mul_eq a :
  _mul a 14 = Z.lxor (Z.lxor (_xtime a) (_xtime (_xtime a))) (_xtime (_xtime (_xtime a)))
  /\ _mul a 11 = Z.lxor (Z.lxor a (_xtime a)) (_xtime (_xtime (_xtime a)))
  /\ _mul a 13 = Z.lxor (Z.lxor a (_xtime (_xtime a))) (_xtime (_xtime (_xtime a)))
  /\ _mul a 9 = Z.lxor a (_xtime (_xtime (_xtime a))).
Proof. by repeat split; cbv -[Z.lxor _xtime]. Qed.

(** Push doublings through exclusive ors, then compare bit by bit. *)
Ltac linear :=
  repeat match goal with
  | |- context [_xtime (Z.lxor ?a ?b)] => rewrite (xtime_lxor a b) by bytes_tac
  end;
  apply Z.bits_inj'; intros ? _; rewrite ?Z.lxor_spec; btauto.

Lemma mix_column_inv a0 a1 a2 a3 :
  is_byte a0 -> is_byte a1 -> is_byte a2 -> is_byte a3 ->
  let t := Z.lxor (Z.lxor (Z.lxor a0 a1) a2) a3 in
  let b0 := Z.lxor (Z.lxor a0 t) (_xtime (Z.lxor a0 a1)) in
  let b1 := Z.lxor (Z.lxor a1 t) (_xtime (Z.lxor a1 a2)) in
  let b2 := Z.lxor (Z.lxor a2 t) (_xtime (Z.lxor a2 a3)) in
  let b3 := Z.lxor (Z.lxor a3 t) (_xtime (Z.lxor a3 a0)) in
  Z.lxor (Z.lxor (Z.lxor (_mul b0 14) (_mul b1 11)) (_mul b2 13)) (_mul b3 9) = a0.
Proof.
  intros Ha0 Ha1 Ha2 Ha3 t b0 b1 b2 b3.
  destruct (mul_eq b0) as (-> & _). destruct (mul_eq b1) as (_ & -> & _).
  destruct (mul_eq b2) as (_ & _ & -> & _). destruct (mul_eq b3) as (_ & _ & _ & ->).
  subst t b0 b1 b2 b3. linear.
Qed.

Lemma mix_columns_inv s : is_block s -> _inv_mix_columns (_mix_columns s) = s.
Proof.
  split_block s. cbv -[Z.lxor _xtime _mul].
  repeat match goal with |- _ :: _ = _ :: _ => f_equal end;
    match goal with
    | |- Z.lxor (Z.lxor (Z.lxor (_mul (Z.lxor (Z.lxor ?a0 (Z.lxor (Z.lxor (Z.lxor ?p ?q) ?r) ?s)) (_xtime (Z.lxor ?a0 ?a1))) 14) _)
           (_mul (Z.lxor _ (_xtime (Z.lxor ?a2 ?a3))) 13)) _ = _ =>
        transitivity a0; [|done]; etransitivity; [|apply (mix_column_inv a0 a1 a2 a3); assumption]; cbv zeta;
        replace (Z.lxor (Z.lxor (Z.lxor p q) r) s) with (Z.lxor (Z.lxor (Z.lxor a0 a1) a2) a3)
          by (apply Z.bits_inj'; intros ? _; rewrite ?Z.lxor_spec; btauto); reflexivity
    end.
Qed.

Lemma mix_columns_block s : is_block s -> is_block (_mix_columns s).
Proof.
  split_block s. cbv -[Z.lxor _xtime in_width]. split; [done|].
  repeat match goal with |- Forall _ (_ :: _) => apply Forall_cons_2 end; [bytes_tac..|constructor].
Qed.

(** ** Rounds *)

(** A key whose schedule has a block for every round. *)
Definition is_key (k : AES) : Prop :=
  0 < _rounds k /\ forall r, 0 <= r <= _rounds k -> is_block (round_key k r).

Lemma enc_round_block k s r : is_key k -> 0 <= r <= _rounds k -> is_block s -> is_block (enc_round k s r).
Proof.
  intros [_ Hk] Hr Hs. unfold enc_round. auto using add_round_key_block, mix_columns_block, shift_rows_block, sub_bytes_block.
Qed.

Lemma enc_rounds_block k l s :
  is_key k -> Forall (fun r => 0 <= r <= _rounds k) l -> is_block s -> is_block (foldl (enc_round k) s l).
Proof.
  intros Hk Hl. revert s. induction Hl as [|r l Hr _ IH]; intros s Hs; [done|]. simpl. apply IH. by apply enc_round_block.
Qed.

(** What the decryption loop keeps: the block as the last substitution and
    row shift left it. *)
Definition half (s : list Z) : list Z := _shift_rows (sub_bytes SBOX s).

Lemma dec_enc_round k s r :
  is_key k -> 0 <= r <= _rounds k -> is_block s -> dec_round k (half (enc_round k s r)) r = half s.
Proof.
  intros Hk Hr Hs. pose proof (enc_round_block k s r Hk Hr Hs) as He. destruct Hk as [_ Hk].
  unfold dec_round, half. rewrite shift_rows_inv, sub_bytes_inv by auto using sub_bytes_block.
  unfold enc_round. rewrite add_round_key_inv by auto using mix_columns_block, shift_rows_block, sub_bytes_block.
  by rewrite mix_columns_inv by auto using shift_rows_block, sub_bytes_block.
Qed.

Lemma dec_enc_rounds k l s :
  is_key k -> Forall (fun r => 0 <= r <= _rounds k) l -> is_block s ->
  foldl (dec_round k) (half (foldl (enc_round k) s l)) (reverse l) = half s.
Proof.
  intros Hk Hl Hs. induction l as [|r l IH] using rev_ind; [done|].
  apply Forall_app in Hl as [Hl Hr]. inversion_clear Hr as [|? ? Hr0 _].
  rewrite reverse_snoc, foldl_snoc. cbn [foldl].
  rewrite dec_enc_round by auto using enc_rounds_block. by apply IH.
Qed.

Lemma rounds_range k : Forall (fun r => 0 <= r <= _rounds k) (range 1 (_rounds k)).
Proof. apply Forall_forall. intros r Hr%elem_of_range. lia. Qed.

(** A block of bytes, as integers. *)
Lemma ints_block b : zlen b = BLOCK_SIZE -> is_block (ints b).
Proof.
  unfold zlen, BLOCK_SIZE. intros Hb. split; [rewrite ints_length; lia | apply ints_bytes].
Qed.

Lemma to_bytes_block s : is_block s -> zlen (to_bytes s) = BLOCK_SIZE.
Proof. intros [Hl _]. unfold zlen. by rewrite to_bytes_length, Hl. Qed.

Lemma encrypt_block_ok k b :
  is_key k -> zlen b = BLOCK_SIZE -> exists c, encrypt_block k b = Ok c /\ zlen c = BLOCK_SIZE /\ decrypt_block k c = Ok b.
Proof.
  intros Hk Hb. unfold encrypt_block. rewrite Hb, Z.eqb_refl. cbn [negb]. eexists. split; [done|].
  pose proof (ints_block b Hb) as Hi. pose proof Hk as [Hr Hrk].
  set (s0 := _add_round_key (ints b) (round_key k 0)).
  assert (is_block s0) as Hs0 by (apply add_round_key_block; [done|apply Hrk; lia]).
  set (s1 := foldl (enc_round k) s0 (range 1 (_rounds k))).
  assert (is_block s1) as Hs1 by (apply enc_rounds_block; auto using rounds_range).
  change (_shift_rows (sub_bytes SBOX s1)) with (half s1).
  assert (is_block (half s1)) as Hh by (apply shift_rows_block, sub_bytes_block, Hs1).
  assert (is_block (round_key k (_rounds k))) as Hlast by (apply Hrk; lia).
  pose proof (add_round_key_block _ _ Hh Hlast) as Hout. split; [by apply to_bytes_block|].
  unfold decrypt_block. rewrite to_bytes_block, Z.eqb_refl by done. cbn [negb]. f_equal.
  rewrite ints_to_bytes by apply Hout. rewrite add_round_key_inv by done.
  unfold s1. rewrite dec_enc_rounds by (done || apply rounds_range).
  unfold half. rewrite shift_rows_inv, sub_bytes_inv by auto using sub_bytes_block.
  unfold s0. rewrite add_round_key_inv by (done || (apply Hrk; lia)). apply to_bytes_ints.
Qed.

(** ** The key schedule *)

Definition is_word (w : list Z) : Prop := length w = 4%nat /\ Forall is_byte w.

Lemma sub_word w : is_word w -> is_word (sub_bytes SBOX w).
Proof.
  intros [Hl Hs]. split; [by unfold sub_bytes; rewrite length_fmap|].
  apply Forall_fmap. eapply Forall_impl; [exact Hs|]. apply sbox_byte.
Qed.

Lemma xor_word x y : is_word x -> is_word y -> is_word (xor_lists x y).
Proof. intros [? ?] [? ?]. split; [rewrite xor_lists_length; congruence | by apply xor_lists_byte]. Qed.

Lemma nth_word ws i : Forall is_word ws -> 0 <= i < zlen ws -> is_word (nth (Z.to_nat i) ws []).
Proof.
  unfold zlen. intros Hw Hi. rewrite Forall_forall in Hw. apply Hw, list_elem_of_In, nth_In. lia.
Qed.

Lemma rcon_byte i : 0 <= i < 14 -> is_byte (zget RCON i).
Proof.
  intros Hi. apply (zget_Forall is_byte RCON); [|done]. unfold RCON.
  repeat match goal with |- Forall _ (_ :: _) => apply Forall_cons_2 end; [by vm_compute..|constructor].
Qed.

Lemma expand_step_word nk ws index :
  0 < nk <= index -> index / nk <= 14 -> zlen ws = index -> Forall is_word ws ->
  zlen (expand_step nk ws index) = index + 1 /\ Forall is_word (expand_step nk ws index).
Proof.
  intros Hi Hq Hl Hw. unfold expand_step. split; [rewrite zlen_app, Hl; done|].
  apply Forall_app. split; [done|]. apply Forall_singleton.
  apply xor_word; [apply nth_word; [done|lia]|].
  assert (is_word (nth (Z.to_nat (index - 1)) ws [])) as Ht by (apply nth_word; [done|lia]).
  set (temp := nth _ _ _) in *. clearbody temp.
  destruct (index mod nk =? 0) eqn:E; [|destruct (_ && _); auto using sub_word].
  assert (is_word (drop 1 temp ++ take 1 temp)) as Hrot.
  { destruct Ht as [Htl Htb]. split; [rewrite length_app, length_drop, length_take; lia|].
    apply Forall_app. split; [by apply Forall_drop | by apply Forall_take]. }
  apply sub_word in Hrot. set (t := sub_bytes _ _) in *. clearbody t. destruct Hrot as [Hrl Hrb].
  zbool. assert (1 <= index / nk) by (apply Z.div_le_lower_bound; lia).
  split; [by rewrite zset_length|]. apply zset_Forall; [done|]. apply lxor_in_width; [lia| |].
  - apply (zget_Forall is_byte); [done|]. unfold zlen. lia.
  - apply rcon_byte. lia.
Qed.

Lemma expand_words nk ws total :
  0 < nk -> nk <= total -> (total - 1) / nk <= 14 -> zlen ws = nk -> Forall is_word ws ->
  zlen (foldl (expand_step nk) ws (range nk total)) = total
  /\ Forall is_word (foldl (expand_step nk) ws (range nk total)).
Proof.
  intros Hnk Hle Hq Hl Hw.
  assert (forall m, nk <= m <= total ->
    zlen (foldl (expand_step nk) ws (range nk m)) = m /\ Forall is_word (foldl (expand_step nk) ws (range nk m))) as H;
    [|apply H; lia].
  intros m Hm. pose proof (Z.le_exists_sub nk m (proj1 Hm)) as (d & -> & Hd). revert Hm. pattern d.
  apply natlike_ind; [| |exact Hd].
  - intros _. rewrite range_empty by lia. cbn [foldl]. split; [lia|done].
  - intros e He IH Hm. rewrite range_snoc by lia. replace (Z.succ e + nk - 1) with (e + nk) by lia.
    rewrite foldl_snoc. destruct IH as [IHl IHw]; [lia|].
    replace (Z.succ e + nk) with (e + nk + 1) by lia. apply expand_step_word; [lia| |done|done].
    transitivity ((total - 1) / nk); [apply Z.div_le_mono; lia|done].
Qed.

(** The words of the key itself. *)
Lemma key_words key nk :
  zlen key = 4 * nk -> 0 <= nk ->
  let ws := (fun i => slice (ints key) (4 * i) (4 * i + 4)) <$> range 0 (zlen key / 4) in
  zlen ws = nk /\ Forall is_word ws.
Proof.
  intros Hk Hnk ws. unfold ws. rewrite Hk, Z.mul_comm, Z.div_mul by lia. split.
  - unfold zlen, range. rewrite length_fmap, length_seqZ. lia.
  - apply Forall_fmap, Forall_forall. intros i Hi%elem_of_range. unfold compose.
    rewrite slice_pos by lia. replace (Z.to_nat (4 * i + 4 - 4 * i)) with 4%nat by lia.
    split; [|apply Forall_take, Forall_drop, ints_bytes].
    rewrite length_take, length_drop, ints_length. unfold zlen in Hk. lia.
Qed.

(** Four words side by side are a block. *)
Lemma concat_block ws r :
  Forall is_word ws -> 0 <= r -> 4 * (r + 1) <= zlen ws ->
  is_block (concat (slice ws (r * 4) (r * 4 + 4))).
Proof.
  intros Hw Hr Hl. rewrite slice_pos by lia. replace (Z.to_nat (r * 4 + 4 - r * 4)) with 4%nat by lia.
  assert (length (take 4 (drop (Z.to_nat (r * 4)) ws)) = 4%nat) as Ht.
  { rewrite length_take, length_drop. unfold zlen in Hl. lia. }
  assert (Forall is_word (take 4 (drop (Z.to_nat (r * 4)) ws))) as Hws by (by apply Forall_take, Forall_drop).
  destruct (take _ _) as [|a [|b [|c [|d [|]]]]]; try discriminate.
  rewrite !Forall_cons in Hws. destruct Hws as ([Ha Hab] & [Hb Hbb] & [Hc Hcb] & [Hd Hdb] & _). simpl.
  split; [rewrite !length_app, Ha, Hb, Hc, Hd; done|].
  by rewrite !Forall_app.
Qed.

Lemma expand_key rounds key nk :
  0 < rounds -> 0 < nk -> nk <= 4 * (rounds + 1) -> (4 * (rounds + 1) - 1) / nk <= 14 -> zlen key = 4 * nk ->
  is_key (mkAES (_expand rounds key) rounds (zlen key)).
Proof.
  intros Hr Hnk Hle Hq Hk. split; [done|]. simpl. intros r Hrr. unfold round_key, _round_keys, _expand.
  destruct (key_words key nk Hk ltac:(lia)) as [Hl Hw]. cbv zeta in Hl, Hw |- *. rewrite Hl.
  destruct (expand_words nk _ (4 * (rounds + 1)) Hnk Hle Hq Hl Hw) as [Hxl Hxw].
  set (ws := foldl _ _ _) in *. clearbody ws.
  rewrite (nth_lookup_Some _ _ _ (concat (slice ws (r * 4) (r * 4 + 4)))); [apply concat_block; [done|lia..]|].
  rewrite list_lookup_fmap. unfold range. rewrite lookup_seqZ_lt by lia. simpl. do 3 f_equal; lia.
Qed.

Lemma aes_init_key key k : AES_init key = Ok k -> is_key k.
Proof.
  unfold AES_init. cbv zeta. intros H.
  destruct (zlen key =? 16) eqn:E1; zbool; [injection H as <-; by apply (expand_key 10 key 4)|].
  destruct (zlen key =? 24) eqn:E2; zbool; [injection H as <-; by apply (expand_key 12 key 6)|].
  destruct (zlen key =? 32) eqn:E3; zbool; [injection H as <-; by apply (expand_key 14 key 8)|]. done.
Qed.

Lemma aes_init_sizes key : zlen key ∈ [16; 24; 32] <-> exists k, AES_init key = Ok k.
Proof.
  unfold AES_init. rewrite !elem_of_cons. cbv zeta. split.
  - intros [-> | [-> | [-> | Hn]]]; [by eexists..|inversion Hn].
  - intros [k H]. destruct (_ =? 16) eqn:E1; zbool; [by left|]. destruct (_ =? 24) eqn:E2; zbool; [by right; left|].
    destruct (_ =? 32) eqn:E3; zbool; [by right; right; left | done].
Qed.

(** ** Padding *)

Lemma pkcs7_pad_len data n : 0 < n -> zlen (pkcs7_pad data n) mod n = 0.
Proof.
  intros Hn. unfold pkcs7_pad. rewrite zlen_app. unfold zlen at 2. rewrite length_replicate.
  pose proof (Z.mod_pos_bound (zlen data) n Hn). rewrite Z2Nat.id by lia.
  rewrite (Z.div_mod (zlen data) n) at 1 by lia.
  replace (n * (zlen data / n) + zlen data mod n + (n - zlen data mod n)) with ((zlen data / n + 1) * n) by lia.
  apply Z.mod_mul. lia.
Qed.

Lemma pkcs7_unpad_pad data n : 0 < n < 256 -> pkcs7_unpad (pkcs7_pad data n) n = Ok data.
Proof.
  intros Hn. unfold pkcs7_unpad. rewrite pkcs7_pad_len by lia. unfold pkcs7_pad.
  pose proof (Z.mod_pos_bound (zlen data) n ltac:(lia)). set (pad := n - zlen data mod n).
  assert (1 <= pad <= n) as Hp by (unfold pad; lia). clearbody pad.
  destruct (Z.to_nat pad) as [|m] eqn:Em; [lia|]. rewrite replicate_S_end.
  rewrite app_assoc. rewrite bool_decide_eq_false_2 by (by destruct (data ++ replicate m (z2b pad))).
  rewrite List.last_last, b2z_z2b by lia. rewrite <- app_assoc, <- replicate_S_end, <- Em.
  rewrite (proj2 (Z.leb_le _ _)), (proj2 (Z.leb_le _ _)) by lia. cbn [negb orb andb].
  assert (forall A (l k : list A), zlen k = pad -> slice_from (l ++ k) (- pad) = k /\ slice_to (l ++ k) (- pad) = l) as Hs.
  { intros A l k Hk. unfold slice_from, slice_to. rewrite (proj2 (Z.ltb_lt _ _)) by lia. rewrite zlen_app, Hk.
    replace (Z.to_nat (zlen l + pad + - pad)) with (length l) by (unfold zlen; lia).
    by rewrite drop_app_length, take_app_length. }
  assert (zlen (replicate (Z.to_nat pad) (z2b pad)) = pad) as Hz.
  { unfold zlen. rewrite length_replicate. lia. }
  destruct (Hs _ data _ Hz) as [-> ->]. by rewrite bool_decide_eq_true_2.
Qed.

(** ** A chain of blocks *)

Lemma xor_bytes_len x y : zlen x = zlen y -> zlen (xor_bytes x y) = zlen x.
Proof.
  unfold zlen, xor_bytes. intros. rewrite to_bytes_length, xor_lists_length; rewrite !ints_length; lia.
Qed.

Lemma xor_bytes_inv x y : zlen x = zlen y -> xor_bytes (xor_bytes x y) y = x.
Proof.
  unfold zlen, xor_bytes. intros. rewrite ints_to_bytes by (apply xor_lists_byte; apply ints_bytes).
  rewrite xor_lists_inv by (rewrite !ints_length; lia). apply to_bytes_ints.
Qed.

Lemma cbc_loop_inv k plain iv :
  is_key k -> zlen iv = BLOCK_SIZE -> zlen plain mod BLOCK_SIZE = 0 ->
  exists c, cbc_enc_loop k iv (chunks BLOCK_SIZE plain) = Ok c
    /\ zlen c = zlen plain /\ cbc_dec_loop k iv (chunks BLOCK_SIZE c) = Ok plain.
Proof.
  intros Hk Hiv Hm. revert iv Hiv.
  apply (chunks_ind BLOCK_SIZE (fun plain blocks => forall iv, zlen iv = BLOCK_SIZE ->
    exists c, cbc_enc_loop k iv blocks = Ok c /\ zlen c = zlen plain
      /\ cbc_dec_loop k iv (chunks BLOCK_SIZE c) = Ok plain)); [done|done| |].
  - intros iv _. exists []. by rewrite chunks_nil.
  - intros b rest Hb _ IH iv Hiv.
    destruct (encrypt_block_ok k (xor_bytes b iv) Hk) as (c & Hc & Hcl & Hd); [by rewrite xor_bytes_len; congruence|].
    destruct (IH c Hcl) as (cs & Hcs & Hl & Hds). exists (c ++ cs). cbn [cbc_enc_loop]. rewrite Hc. cbn.
    rewrite Hcs. split; [done|]. rewrite !zlen_app, Hl, Hcl, Hb. split; [done|].
    rewrite chunks_cons by done. cbn [cbc_dec_loop]. rewrite Hd. cbn. rewrite Hds. cbn.
    by rewrite xor_bytes_inv by congruence.
Qed.

Lemma cbc_inv key data iv :
  zlen key ∈ [16; 24; 32] -> zlen iv = BLOCK_SIZE ->
  exists c, cbc_encrypt key data iv true = Ok c
    /\ zlen c mod BLOCK_SIZE = 0 /\ zlen data < zlen c <= zlen data + BLOCK_SIZE
    /\ cbc_decrypt key c iv true = Ok data.
Proof.
  intros Hkey Hiv. apply aes_init_sizes in Hkey as [k Hinit]. pose proof (aes_init_key _ _ Hinit) as Hk.
  pose proof (pkcs7_pad_len data BLOCK_SIZE ltac:(done)) as Hm.
  destruct (cbc_loop_inv k (pkcs7_pad data BLOCK_SIZE) iv Hk Hiv Hm) as (c & Hc & Hl & Hd).
  assert (zlen data < zlen c <= zlen data + BLOCK_SIZE) as Hlt.
  { rewrite Hl. unfold pkcs7_pad. rewrite zlen_app. pose proof (Z.mod_pos_bound (zlen data) BLOCK_SIZE ltac:(done)).
    assert (zlen (replicate (Z.to_nat (BLOCK_SIZE - zlen data mod BLOCK_SIZE)) (z2b (BLOCK_SIZE - zlen data mod BLOCK_SIZE)))
      = BLOCK_SIZE - zlen data mod BLOCK_SIZE) as -> by (unfold zlen at 1; rewrite length_replicate; lia). lia. }
  exists c. unfold cbc_encrypt, cbc_decrypt. rewrite Hiv, Z.eqb_refl, Hm, Hl, Hm, Hinit. cbn. rewrite Hc.
  split; [done|]. split; [done|]. split; [rewrite <- Hl; exact Hlt|].
  rewrite bool_decide_eq_false_2; [cbn; rewrite Hd; cbn; by apply pkcs7_unpad_pad|].
  intros ->. rewrite zlen_nil in Hlt. pose proof (zlen_nonneg data). lia.
Qed.

(** C30: [cbc_decrypt] undoes [cbc_encrypt]: with an AES key of any of the three
    sizes and any IV of one block, every message of any length encrypts, to a
    whole number of blocks longer than the message by at most one, and
    decrypts to itself. *)
Theorem cbc_roundtrip key data iv :
  zlen key ∈ [16; 24; 32] -> zlen iv = BLOCK_SIZE ->
  exists c, cbc_encrypt key data iv true = Ok c
    /\ zlen c mod BLOCK_SIZE = 0 /\ zlen data < zlen c <= zlen data + BLOCK_SIZE
    /\ cbc_decrypt key c iv true = Ok data.
Proof. apply cbc_inv. Qed.

Lemma cbc_roundtrip_witness :
  exists c, cbc_encrypt (replicate 16 x01) (b_ "proof of possession") (replicate 16 x00) true = Ok c
    /\ zlen c mod BLOCK_SIZE = 0
    /\ zlen (b_ "proof of possession") < zlen c <= zlen (b_ "proof of possession") + BLOCK_SIZE
    /\ cbc_decrypt (replicate 16 x01) c (replicate 16 x00) true = Ok (b_ "proof of possession").
Proof. apply (cbc_roundtrip (replicate 16 x01)); [left | reflexivity]. Defined.

(** ** The S-box of FIPS-197 *)

(** The multiplicative inverse in the field, [b ^ 254]. *)
Definition finv (b : Z) : Z :=
  let sq x := _mul x x in
  let b2 := sq b in let b4 := sq b2 in let b8 := sq b4 in let b16 := sq b8 in
  let b32 := sq b16 in let b64 := sq b32 in let b128 := sq b64 in
  _mul (_mul (_mul (_mul (_mul (_mul b2 b4) b8) b16) b32) b64) b128.

(** The table the walk over the generator fills is the standard's: the affine
    image of the field inverse, and the second table inverts it. *)
Lemma sbox_fips197 b : is_byte b ->
  (b <> 0 -> _mul b (finv b) = 1) /\ zget SBOX b = affine (finv b) /\ zget INV_SBOX (zget SBOX b) = b.
Proof.
  intros Hb.
  assert (((b =? 0) || (_mul b (finv b) =? 1)) && (zget SBOX b =? affine (finv b)) = true) as H.
  { apply (all_bytes (fun b => ((b =? 0) || (_mul b (finv b) =? 1)) && (zget SBOX b =? affine (finv b))));
      [by vm_compute|done]. }
  apply andb_true_iff in H as [H1 H2]. zbool. split; [|split; [done | by apply sbox_inverse]].
  intros Hn. apply orb_true_iff in H1 as [H1|H1]; zbool; [done|done].
Qed.

(** The vector of FIPS-197, appendix C.1. *)
Example fips197_c1 :
  (k ← AES_init (to_bytes (range 0 16)); encrypt_block k (to_bytes ((fun i => 17 * i) <$> range 0 16)))
  = Ok (to_bytes [0x69; 0xc4; 0xe0; 0xd8; 0x6a; 0x7b; 0x04; 0x30; 0xd8; 0xcd; 0xb7; 0x80; 0x70; 0xb4; 0xc5; 0x5a]).
Proof. vm_compute. reflexivity. Qed.
