(* ===== verification/Blowfish.v ===== *)
(** * Blowfish

    src/xrd/crypto/blowfish.py: the boxes derived from pi, the key schedule,
    the Feistel network both ways, and the ECB and CFB64 modes. *)

From S2P Require Import Prelude PyStr Errors Words.
Open Scope Z_scope.

Module Blowfish.

Definition _MASK : Z := 0xFFFFFFFF.
Definition _NWORDS : Z := 18 + 4 * 256.

(** ** The digits of pi *)

(** [while term], adding the alternating terms of the series. *)
Fixpoint atan_loop (fuel : nat) (x2 term total k : Z) : Z :=
  match fuel with
  | O => total
  | S fuel =>
      if term =? 0 then total else
      let term := term / x2 in
      let k := k + 2 in
      let total := total + (if (k / 2) mod 2 =? 0 then term / k else - (term / k)) in
      atan_loop fuel x2 term total k
  end.

Definition atan_inv (one x : Z) : Z :=
  let term := one / x in
  atan_loop (S (S (Z.to_nat (Z.log2 term)))) (x * x) term term 1.

Definition _pi_fraction_words (count : Z) : list Z :=
  let bits := count * 32 + 64 in
  let one := Z.shiftl 1 bits in
  let frac := 16 * atan_inv one 5 - 4 * atan_inv one 239 - 3 * one in
  (fun i => Z.land (Z.shiftr frac (bits - 32 * (i + 1))) _MASK) <$> range 0 count.

(** The series has ended when the fuel has: more of it changes nothing. *)
Lemma atan_fuel n m x2 term total k :
  2 <= x2 -> 0 <= term < 2 ^ Z.of_nat n ->
  atan_loop (S n + m) x2 term total k = atan_loop (S n) x2 term total k.
Proof.
  intros Hx. revert term total k. induction n as [|n IH]; intros term total k Ht.
  - change (2 ^ Z.of_nat 0) with 1 in Ht. replace term with 0 by lia. done.
  - cbn [Nat.add] in *. change (atan_loop (S (S n + m)) x2 term total k = atan_loop (S (S n)) x2 term total k).
    cbn [atan_loop]. destruct (term =? 0); [done|]. apply IH.
    rewrite Nat2Z.inj_succ, Z.pow_succ_r in Ht by lia.
    split; [apply Z.div_pos; lia|]. apply Z.div_lt_upper_bound; [lia|]. nia.
Qed.

Lemma atan_inv_exact one x m :
  2 <= x -> 0 < one ->
  atan_inv one x = atan_loop (S (S (Z.to_nat (Z.log2 (one / x)))) + m) (x * x) (one / x) (one / x) 1.
Proof.
  intros Hx Ho. unfold atan_inv. symmetry. apply atan_fuel; [nia|].
  assert (0 <= one / x) by (apply Z.div_pos; lia). split; [done|].
  destruct (Z.eq_dec (one / x) 0) as [->|]; [done|].
  rewrite Nat2Z.inj_succ, Z2Nat.id by apply Z.log2_nonneg. apply Z.log2_spec. lia.
Qed.

(** The unkeyed P-array and S-boxes. *)
Definition _initial_boxes : list Z * list (list Z) :=
  let pi := _pi_fraction_words _NWORDS in
  (slice_to pi 18, (fun i => slice pi (18 + 256 * i) (274 + 256 * i)) <$> range 0 4).

(** The first words, as published. *)
Example pi_digits : take 2 (_pi_fraction_words 4) = [0x243F6A88; 0x85A308D3].
Proof. vm_compute. reflexivity. Qed.

(** ** The network *)

Record t := mk { _p : list Z; _s : list (list Z) }.

Definition box (c : t) (i : nat) : list Z := nth i (_s c) [].

Definition _f (c : t) (x : Z) : Z :=
  Z.land
    (Z.lxor (Z.land (zget (box c 0) (Z.shiftr x 24) + zget (box c 1) (Z.land (Z.shiftr x 16) 0xFF)) _MASK)
       (zget (box c 2) (Z.land (Z.shiftr x 8) 0xFF))
     + zget (box c 3) (Z.land x 0xFF))
    _MASK.

(** One turn of either loop: mix in [p[i]], then swap. *)
Definition turn (c : t) (lr : Z * Z) (i : Z) : Z * Z :=
  let '(l, r) := lr in
  let l := Z.lxor l (zget (_p c) i) in
  let r := Z.lxor r (_f c l) in
  (r, l).

Definition encrypt_block (c : t) (l r : Z) : Z * Z :=
  let '(l, r) := foldl (turn c) (l, r) (range 0 16) in
  let '(l, r) := (r, l) in
  (Z.land (Z.lxor l (zget (_p c) 17)) _MASK, Z.land (Z.lxor r (zget (_p c) 16)) _MASK).

Definition decrypt_block (c : t) (l r : Z) : Z * Z :=
  let '(l, r) := foldl (turn c) (l, r) (reverse (range 2 18)) in
  let '(l, r) := (r, l) in
  (Z.land (Z.lxor l (zget (_p c) 0)) _MASK, Z.land (Z.lxor r (zget (_p c) 1)) _MASK).

(** ** The key schedule *)

(** [k] after four bytes of the key, read round and round. *)
Definition key_word (key : bytes) (j : Z) : Z :=
  foldl (fun k j => Z.land (Z.lor (Z.shiftl k 8) (zget (ints key) (j mod zlen key))) _MASK) 0 (range j (j + 4)).

(** Encrypt the running pair and put it at [i] and [i + 1] of the P-array. *)
Definition schedule_p (clr : t * (Z * Z)) (i : Z) : t * (Z * Z) :=
  let '(c, (l, r)) := clr in
  let '(l, r) := encrypt_block c l r in
  (mk (zset (zset (_p c) i l) (i + 1) r) (_s c), (l, r)).

(** The same for S-box [b], which the next encryption already uses. *)
Definition schedule_s (b : nat) (clr : t * (Z * Z)) (i : Z) : t * (Z * Z) :=
  let '(c, (l, r)) := clr in
  let '(l, r) := encrypt_block c l r in
  (mk (_p c) (<[b := zset (zset (box c b) i l) (i + 1) r]> (_s c)), (l, r)).

(** [range(0, n, 2)]. *)
Definition evens (n : Z) : list Z := (fun i => 2 * i) <$> range 0 (n / 2).

(** The boxes, mixed with the key and then with themselves. *)
Definition schedule (key : bytes) (p0 : list Z) (s0 : list (list Z)) : t :=
  let p := foldl (fun p i => zset p i (Z.lxor (zget p i) (key_word key (4 * i)))) p0 (range 0 18) in
  let clr := foldl schedule_p (mk p s0, (0, 0)) (evens 18) in
  let clr := foldl (fun clr b => foldl (schedule_s b) clr (evens 256)) clr (seq 0 4) in
  clr.1.

Definition init (key : bytes) : res t :=
  if bool_decide (key = []) then Err ValueError
  else if 56 <? zlen key then Err ValueError
  else let '(p0, s0) := _initial_boxes in Ok (schedule key p0 s0).

(** ** Byte-oriented modes *)

Definition on_bytes (f : Z -> Z -> Z * Z) (b : bytes) : bytes :=
  let '(l, r) := f (be_dec (slice b 0 4)) (be_dec (slice b 4 8)) in
  be_enc 4 l ++ be_enc 4 r.

Definition encrypt_ecb (c : t) (data : bytes) : res bytes :=
  if negb (zlen data mod 8 =? 0) then Err ValueError
  else Ok (concat (on_bytes (encrypt_block c) <$> chunks 8 data)).

Definition decrypt_ecb (c : t) (data : bytes) : res bytes :=
  if negb (zlen data mod 8 =? 0) then Err ValueError
  else Ok (concat (on_bytes (decrypt_block c) <$> chunks 8 data)).

(** The inner loop of [_cfb64], from position [k] of the feedback register. *)
Fixpoint cfb_bytes (decrypt : bool) (fb : list Z) (k : Z) (piece : list Z) : list Z * list Z :=
  match piece with
  | [] => ([], fb)
  | src :: piece =>
      let o := Z.lxor src (zget fb k) in
      let fb := zset fb k (if decrypt then src else o) in
      let '(out, fb) := cfb_bytes decrypt fb (k + 1) piece in
      (o :: out, fb)
  end.

(** The outer loop: a fresh keystream block, then at most eight bytes. *)
Fixpoint cfb_loop (c : t) (decrypt : bool) (fb : bytes) (pieces : list bytes) : bytes :=
  match pieces with
  | [] => []
  | piece :: pieces =>
      let fb := on_bytes (encrypt_block c) fb in
      let '(out, fb) := cfb_bytes decrypt (ints fb) 0 (ints piece) in
      to_bytes out ++ cfb_loop c decrypt (to_bytes fb) pieces
  end.

Definition _cfb64 (c : t) (iv data : bytes) (decrypt : bool) : res bytes :=
  if negb (zlen iv =? 8) then Err ValueError else Ok (cfb_loop c decrypt iv (chunks 8 data)).

Definition encrypt_cfb64 (c : t) (iv data : bytes) : res bytes := _cfb64 c iv data false.
Definition decrypt_cfb64 (c : t) (iv data : bytes) : res bytes := _cfb64 c iv data true.

(** ** What a key is *)

Notation is_word := (in_width 32).

(** Eighteen words and four boxes of 256. *)
Definition ok (c : t) : Prop :=
  length (_p c) = 18%nat /\ Forall is_word (_p c)
  /\ length (_s c) = 4%nat /\ Forall (fun b => length b = 256%nat /\ Forall is_word b) (_s c).

Lemma mask_word x : is_word (Z.land x _MASK).
Proof. apply (land_mask_in_width 32). lia. Qed.

Lemma word_mask x : is_word x -> Z.land x _MASK = x.
Proof. apply (land_mask_id 32). lia. Qed.

Lemma lxor_word x y : is_word x -> is_word y -> is_word (Z.lxor x y).
Proof. apply lxor_in_width. lia. Qed.

Lemma f_word c x : is_word (_f c x).
Proof. apply mask_word. Qed.

Lemma p_word c i : ok c -> 0 <= i < 18 -> is_word (zget (_p c) i).
Proof. intros (Hl & Hp & _) Hi. apply (zget_Forall is_word); [done|]. unfold zlen. lia. Qed.

#[local] Hint Resolve f_word p_word lxor_word mask_word : core.

(** ** The network is undone *)

Definition pair_word (lr : Z * Z) : Prop := is_word lr.1 /\ is_word lr.2.

Lemma turn_word c lr i : ok c -> 0 <= i < 18 -> pair_word lr -> pair_word (turn c lr i).
Proof. destruct lr as [l r]. intros Hc Hi [Hl Hr]. split; simpl in *; auto 6. Qed.

Lemma turns_word c l lr : ok c -> Forall (fun i => 0 <= i < 18) l -> pair_word lr -> pair_word (foldl (turn c) lr l).
Proof. intros Hc Hl. revert lr. induction Hl as [|i l Hi _ IH]; intros lr Hlr; [done|]. simpl. auto using turn_word. Qed.

(** What decryption holds after undoing round [k] and all later ones: the pair
    before round [k], with [k]'s own mixing already in place. *)
Definition pre (c : t) (lr : Z * Z) (k : Z) : Z * Z :=
  (Z.lxor (Z.lxor lr.1 (zget (_p c) k)) (_f c lr.2), lr.2).

Lemma pre_step c lr k : turn c (pre c (turn c lr (k - 1)) k) k = pre c lr (k - 1).
Proof.
  destruct lr as [l r]. unfold turn, pre. simpl.
  set (l' := Z.lxor l (zget (_p c) (k - 1))).
  assert (Z.lxor (Z.lxor (Z.lxor (Z.lxor r (_f c l')) (zget (_p c) k)) (_f c l')) (zget (_p c) k) = r) as ->.
  { apply Z.bits_inj'. intros n _. rewrite !Z.lxor_spec.
    by destruct (Z.testbit r n), (Z.testbit (_f c l') n), (Z.testbit (zget (_p c) k) n). }
  done.
Qed.

Lemma undo_turns c lr n : 1 <= n ->
  foldl (turn c) (pre c (foldl (turn c) lr (range 0 n)) n) (reverse (range 2 (n + 1)))
  = pre c (foldl (turn c) lr (range 0 1)) 1.
Proof.
  intros Hn. pose proof (Z.le_exists_sub 1 n Hn) as (d & -> & Hd). clear Hn. revert d Hd.
  apply natlike_ind; [done|]. intros d Hd IH.
  rewrite (range_snoc 2), reverse_snoc by lia. cbn [foldl].
  rewrite (range_snoc 0), foldl_snoc by lia.
  replace (Z.succ d + 1 + 1 - 1) with (Z.succ d + 1) by lia.
  rewrite pre_step. replace (Z.succ d + 1 - 1) with (d + 1) by lia.
  by replace (Z.succ d + 1) with (d + 1 + 1) by lia.
Qed.

Lemma decrypt_encrypt c l r :
  ok c -> is_word l -> is_word r ->
  let '(l', r') := encrypt_block c l r in is_word l' /\ is_word r' /\ decrypt_block c l' r' = (l, r).
Proof.
  intros Hc Hl Hr. unfold encrypt_block.
  assert (pair_word (foldl (turn c) (l, r) (range 0 16))) as Hw.
  { apply turns_word; [done| |done]. apply Forall_forall. intros i Hi%elem_of_range. lia. }
  pose proof (undo_turns c (l, r) 16 ltac:(lia)) as Hu.
  destruct (foldl (turn c) (l, r) (range 0 16)) as [L R]. destruct Hw as [HL HR]. simpl in HL, HR.
  pose proof (p_word c 17 Hc ltac:(lia)) as H17. pose proof (p_word c 16 Hc ltac:(lia)) as H16.
  rewrite !word_mask by auto. split; [auto|]. split; [auto|].
  unfold decrypt_block. rewrite (range_snoc 2 18), reverse_snoc by lia. cbn [foldl].
  assert (turn c (Z.lxor R (zget (_p c) 17), Z.lxor L (zget (_p c) 16)) (18 - 1) = pre c (L, R) 16) as ->.
  { unfold turn, pre. simpl. by rewrite lxor_cancel_r. }
  change (18 - 1) with (16 + 1). rewrite Hu. rewrite range_cons, range_empty by lia. cbn [foldl]. unfold turn, pre. simpl.
  set (l' := Z.lxor l (zget (_p c) 0)).
  assert (Z.lxor (Z.lxor (Z.lxor r (_f c l')) (zget (_p c) 1)) (_f c l') = Z.lxor r (zget (_p c) 1)) as ->.
  { apply Z.bits_inj'. intros n _. rewrite !Z.lxor_spec.
    by destruct (Z.testbit r n), (Z.testbit (_f c l') n), (Z.testbit (zget (_p c) 1) n). }
  unfold l'. by rewrite !lxor_cancel_r, !word_mask.
Qed.

Lemma encrypt_word c l r : is_word (encrypt_block c l r).1 /\ is_word (encrypt_block c l r).2.
Proof. unfold encrypt_block. destruct (foldl _ _ _). split; apply mask_word. Qed.

(** ** Every key schedule is one *)

Lemma pi_words count : 0 <= count ->
  zlen (_pi_fraction_words count) = count /\ Forall is_word (_pi_fraction_words count).
Proof.
  intros Hc. unfold _pi_fraction_words. split.
  - unfold zlen, range. rewrite length_fmap, length_seqZ. lia.
  - apply Forall_fmap, Forall_true. intros i. apply mask_word.
Qed.

Lemma initial_boxes_ok : ok (mk _initial_boxes.1 _initial_boxes.2).
Proof.
  destruct (pi_words _NWORDS ltac:(done)) as [Hl Hw]. unfold _initial_boxes.
  set (pi := _pi_fraction_words _NWORDS) in *. clearbody pi. change _NWORDS with 1042 in Hl. unfold zlen in Hl.
  unfold ok. cbn [fst snd _p _s]. split_and!.
  - unfold slice_to. cbn [Z.ltb Z.compare]. rewrite length_take. lia.
  - by apply Forall_take.
  - done.
  - apply Forall_fmap, Forall_forall. intros i Hi%elem_of_range. unfold compose. rewrite slice_pos by lia.
    split; [rewrite length_take, length_drop; lia | by apply Forall_take, Forall_drop].
Qed.

Definition state_ok (clr : t * (Z * Z)) : Prop := ok clr.1.

Lemma schedule_p_ok clr i : state_ok clr -> state_ok (schedule_p clr i).
Proof.
  destruct clr as [c [l r]]. unfold state_ok, schedule_p. intros (Hl & Hp & Hs). cbn [fst] in *.
  pose proof (encrypt_word c l r) as [? ?]. destruct (encrypt_block c l r) as [l' r']. unfold ok. cbn [fst _p _s].
  rewrite !zset_length. split; [done|]. split; [|done]. apply zset_Forall; [|done]. by apply zset_Forall.
Qed.

Lemma schedule_s_ok b clr i : (b < 4)%nat -> state_ok clr -> state_ok (schedule_s b clr i).
Proof.
  intros Hb. destruct clr as [c [l r]]. unfold state_ok, schedule_s. intros (Hl & Hp & Hsl & Hs). cbn [fst] in *.
  pose proof (encrypt_word c l r) as [? ?]. destruct (encrypt_block c l r) as [l' r']. unfold ok. cbn [fst _p _s].
  rewrite length_insert. split_and!; [done..|]. apply Forall_insert; [done|].
  rewrite Forall_forall in Hs. destruct (Hs (box c b)) as [Hbl Hbw].
  { apply list_elem_of_In, nth_In. lia. }
  rewrite !zset_length. split; [done|]. apply zset_Forall; [|done]. by apply zset_Forall.
Qed.

Lemma foldl_inv {A B} (P : A -> Prop) (f : A -> B -> A) l a :
  (forall a b, b ∈ l -> P a -> P (f a b)) -> P a -> P (foldl f a l).
Proof.
  revert a. induction l as [|b l IH]; intros a Hf Ha; [done|]. simpl. apply IH.
  - intros a' b' Hb'. apply Hf. by right.
  - apply Hf; [left|done].
Qed.

Lemma schedule_ok key p0 s0 : ok (mk p0 s0) -> ok (schedule key p0 s0).
Proof.
  intros H0. unfold schedule. cbv zeta.
  apply (foldl_inv state_ok).
  - intros clr b Hb%elem_of_seq Hclr. apply (foldl_inv state_ok); [|done].
    intros. apply schedule_s_ok; [lia|done].
  - apply (foldl_inv state_ok); [intros; by apply schedule_p_ok|]. unfold state_ok. cbn [fst].
    destruct H0 as (Hl & Hp & Hs). cbn [_p _s] in *.
    assert (length (foldl (fun p i => zset p i (Z.lxor (zget p i) (key_word key (4 * i)))) p0 (range 0 18)) = 18%nat
      /\ Forall is_word (foldl (fun p i => zset p i (Z.lxor (zget p i) (key_word key (4 * i)))) p0 (range 0 18))) as [? ?];
      [|done].
    apply (foldl_inv (fun p => length p = 18%nat /\ Forall is_word p)); [|done].
    intros p i Hi%elem_of_range [Hpl Hpw]. rewrite zset_length. split; [done|]. apply zset_Forall; [done|].
    apply lxor_word; [apply (zget_Forall is_word); [done|unfold zlen; lia]|].
    unfold key_word. rewrite range_snoc, foldl_snoc by lia. apply mask_word.
Qed.

Lemma init_ok key c : init key = Ok c -> ok c.
Proof.
  unfold init. case_goal; [done|]. case_goal; [done|]. pose proof initial_boxes_ok as H0.
  destruct _initial_boxes as [p0 s0]. cbn [fst snd] in H0. intros Hc%Ok_inj. rewrite <- Hc. by apply schedule_ok.
Qed.

Lemma init_total key : key <> [] -> zlen key <= 56 -> exists c, init key = Ok c.
Proof.
  intros Hk Hl. unfold init. rewrite bool_decide_eq_false_2 by done.
  rewrite (proj2 (Z.ltb_ge _ _)) by done. destruct _initial_boxes. by eexists.
Qed.

(** ** Modes *)

Lemma on_bytes_len f b : zlen (on_bytes f b) = 8.
Proof. unfold on_bytes. destruct (f _ _). by rewrite zlen_app, !be_enc_zlen. Qed.

Lemma on_bytes_inv c b :
  ok c -> zlen b = 8 -> on_bytes (decrypt_block c) (on_bytes (encrypt_block c) b) = b.
Proof.
  intros Hc Hb. unfold on_bytes at 2.
  assert (forall a e, zlen (slice b a e) <= 4 -> is_word (be_dec (slice b a e))) as Hd.
  { intros a e Hle. pose proof (be_dec_range (slice b a e)) as [? Hlt]. split; [done|].
    eapply Z.lt_le_trans; [exact Hlt|]. change (2 ^ 32) with (256 ^ 4). apply Z.pow_le_mono_r; lia. }
  assert (zlen (slice b 0 4) = 4 /\ zlen (slice b 4 8) = 4) as [H1 H2].
  { unfold zlen in *. rewrite !slice_pos by lia. rewrite !length_take, !length_drop. lia. }
  pose proof (decrypt_encrypt c _ _ Hc (Hd 0 4 ltac:(lia)) (Hd 4 8 ltac:(lia))) as He.
  destruct (encrypt_block c _ _) as [l r]. destruct He as (Hl & Hr & He).
  unfold on_bytes.
  assert (forall x y : bytes, length x = 4%nat -> length y = 4%nat -> slice (x ++ y) 0 4 = x /\ slice (x ++ y) 4 8 = y) as Hsl.
  { intros x y Hx Hy. rewrite !slice_pos by lia. split.
    - change (take 4 (x ++ y) = x). by rewrite take_app_length'.
    - change (take 4 (drop 4 (x ++ y)) = y). rewrite drop_app_length' by done. by rewrite take_ge by lia. }
  destruct (Hsl (be_enc 4 l) (be_enc 4 r) (be_enc_length _ _) (be_enc_length _ _)) as [-> ->].
  rewrite !be_dec_enc_small by assumption. rewrite He.
  replace 4%nat with (length (slice b 0 4)) at 1 by (unfold zlen in H1; lia).
  replace 4%nat with (length (slice b 4 8)) at 1 by (unfold zlen in H2; lia).
  rewrite !be_enc_dec. rewrite !slice_pos by lia. change (take 4 (drop 0 b) ++ take 4 (drop 4 b) = b).
  rewrite drop_0. rewrite (take_ge (drop 4 b)) by (rewrite length_drop; unfold zlen in Hb; lia). apply take_drop.
Qed.

Lemma ecb_roundtrip c data :
  ok c -> zlen data mod 8 = 0 ->
  exists e, encrypt_ecb c data = Ok e /\ decrypt_ecb c e = Ok data.
Proof.
  intros Hc Hm. unfold encrypt_ecb, decrypt_ecb. rewrite Hm. cbn [Z.eqb negb]. eexists. split; [done|].
  set (e := concat (on_bytes (encrypt_block c) <$> chunks 8 data)).
  assert (zlen e = zlen data /\ concat (on_bytes (decrypt_block c) <$> chunks 8 e) = data) as [Hl Hd].
  { unfold e. apply (chunks_ind 8 (fun data bs => zlen (concat (on_bytes (encrypt_block c) <$> bs)) = zlen data
      /\ concat (on_bytes (decrypt_block c) <$> chunks 8 (concat (on_bytes (encrypt_block c) <$> bs))) = data));
      [done|done|by rewrite chunks_nil|].
    intros b rest Hb _ [IHl IHd]. rewrite fmap_cons, List.concat_cons, !zlen_app, on_bytes_len, IHl, Hb.
    split; [done|]. rewrite chunks_cons by (done || apply on_bytes_len). rewrite fmap_cons, List.concat_cons.
    by rewrite IHd, on_bytes_inv. }
  rewrite Hl, Hm. cbn [Z.eqb negb]. by rewrite Hd.
Qed.

(** The feedback register takes the ciphertext byte both ways. *)
Lemma cfb_bytes_inv fb k piece :
  let '(out, fb') := cfb_bytes false fb k piece in
  length out = length piece /\ length fb' = length fb /\ cfb_bytes true fb k out = (piece, fb').
Proof.
  revert fb k. induction piece as [|x piece IH]; intros fb k; [done|]. cbn [cfb_bytes].
  set (o := Z.lxor x (zget fb k)). specialize (IH (zset fb k o) (k + 1)).
  destruct (cfb_bytes false (zset fb k o) (k + 1) piece) as [out fb']. destruct IH as (H1 & H2 & H3).
  rewrite zset_length in H2. split; [simpl; lia|]. split; [done|]. cbn [cfb_bytes]. rewrite H3.
  unfold o. by rewrite lxor_cancel_r.
Qed.

Lemma cfb_bytes_byte d fb k piece :
  Forall is_byte fb -> Forall is_byte piece -> 0 <= k -> k + zlen piece <= zlen fb ->
  Forall is_byte (cfb_bytes d fb k piece).1 /\ Forall is_byte (cfb_bytes d fb k piece).2.
Proof.
  intros Hfb Hp. revert fb k Hfb. induction Hp as [|x piece Hx Hp IH]; intros fb k Hfb Hk Hl; [done|].
  cbn [cfb_bytes]. rewrite zlen_cons in Hl. pose proof (zlen_nonneg piece).
  assert (is_byte (Z.lxor x (zget fb k))).
  { apply lxor_in_width; [lia|done|]. apply (zget_Forall is_byte); [done|lia]. }
  destruct (IH (zset fb k (if d then x else Z.lxor x (zget fb k))) (k + 1)) as [H1 H2].
  - apply zset_Forall; [done|]. by destruct d.
  - lia.
  - unfold zlen in *. rewrite zset_length. lia.
  - destruct (cfb_bytes _ _ _ _). simpl in *. auto.
Qed.

Lemma cfb_loop_inv c data : forall fb,
  zlen (cfb_loop c false fb (chunks 8 data)) = zlen data
  /\ cfb_loop c true fb (chunks 8 (cfb_loop c false fb (chunks 8 data))) = data.
Proof.
  assert (forall piece fb, zlen piece <= 8 ->
    let '(out, fb') := cfb_bytes false (ints (on_bytes (encrypt_block c) fb)) 0 (ints piece) in
    zlen (to_bytes out) = zlen piece
    /\ cfb_bytes true (ints (on_bytes (encrypt_block c) fb)) 0 (ints (to_bytes out)) = (ints piece, fb')) as Hpiece.
  { intros piece fb Hle. set (ks := ints (on_bytes (encrypt_block c) fb)).
    pose proof (cfb_bytes_inv ks 0 (ints piece)) as H.
    destruct (cfb_bytes_byte false ks 0 (ints piece)) as [Hb _]; [apply ints_bytes..|lia| |].
    { unfold ks, zlen in *. rewrite !ints_length. pose proof (on_bytes_len (encrypt_block c) fb). unfold zlen in *. lia. }
    destruct (cfb_bytes false ks 0 (ints piece)) as [out fb']. destruct H as (H1 & H2 & H3). simpl in Hb.
    unfold zlen. rewrite to_bytes_length, H1, ints_length. split; [done|]. by rewrite ints_to_bytes. }
  apply (chunks_rect_all 8 (fun data pieces => forall fb,
    zlen (cfb_loop c false fb pieces) = zlen data
    /\ cfb_loop c true fb (chunks 8 (cfb_loop c false fb pieces)) = data)); [done| | |].
  - intros fb. cbn [cfb_loop]. by rewrite chunks_nil.
  - intros b Hb fb. specialize (Hpiece b fb ltac:(lia)). cbn [cfb_loop].
    destruct (cfb_bytes false _ 0 (ints b)) as [out fb'] eqn:E. destruct Hpiece as [Hl Hd].
    rewrite app_nil_r, Hl. split; [done|]. rewrite chunks_small by lia. cbn [cfb_loop]. rewrite Hd.
    by rewrite app_nil_r, to_bytes_ints.
  - intros b rest Hb IH fb. specialize (Hpiece b fb ltac:(lia)). cbn [cfb_loop].
    destruct (cfb_bytes false _ 0 (ints b)) as [out fb'] eqn:E. destruct Hpiece as [Hl Hd].
    destruct (IH (to_bytes fb')) as [IHl IHd]. rewrite !zlen_app, Hl, IHl, Hb. split; [done|].
    rewrite chunks_cons by (done || lia). cbn [cfb_loop]. rewrite Hd. by rewrite to_bytes_ints, IHd.
Qed.

Lemma cfb_roundtrip c iv data :
  zlen iv = 8 -> exists e, encrypt_cfb64 c iv data = Ok e /\ zlen e = zlen data /\ decrypt_cfb64 c iv e = Ok data.
Proof.
  intros Hiv. unfold encrypt_cfb64, decrypt_cfb64, _cfb64. rewrite Hiv. cbn [Z.eqb negb Pos.eqb].
  destruct (cfb_loop_inv c data iv) as [Hl Hd]. eexists. split; [done|]. split; [done|]. by rewrite Hd.
Qed.

(** Blowfish in CFB64, the mode an SSS credential is sealed with: every key
    of one to 56 bytes is accepted; under it every message encrypts to as many
    bytes and [decrypt_cfb64] gives it back, whatever its length; and on whole
    blocks the ECB modes, and the Feistel network itself, invert as well. *)
Theorem blowfish_roundtrip key iv data :
  key <> [] -> zlen key <= 56 -> zlen iv = 8 ->
  exists c, init key = Ok c
  /\ (exists e, encrypt_cfb64 c iv data = Ok e /\ zlen e = zlen data /\ decrypt_cfb64 c iv e = Ok data)
  /\ (zlen data mod 8 = 0 -> exists e, encrypt_ecb c data = Ok e /\ decrypt_ecb c e = Ok data)
  /\ (forall l r, is_word l -> is_word r ->
        decrypt_block c (encrypt_block c l r).1 (encrypt_block c l r).2 = (l, r)).
Proof.
  intros Hk Hkl Hiv. destruct (init_total key Hk Hkl) as [c Hi]. exists c. pose proof (init_ok _ _ Hi) as Hc.
  split_and!; [done|..].
  - destruct (cfb_roundtrip c iv data Hiv) as (e & ? & ? & ?). eauto.
  - intros Hm. by apply ecb_roundtrip.
  - intros l r Hl Hr. pose proof (decrypt_encrypt c l r Hc Hl Hr) as H.
    destruct (encrypt_block c l r). tauto.
Qed.

Lemma blowfish_roundtrip_witness :
  exists c, init (b_ "shared secret") = Ok c
  /\ (exists e, encrypt_cfb64 c (replicate 8 x00) (b_ "odd length!") = Ok e /\ zlen e = zlen (b_ "odd length!")
        /\ decrypt_cfb64 c (replicate 8 x00) e = Ok (b_ "odd length!"))
  /\ (zlen (b_ "odd length!") mod 8 = 0 -> exists e, encrypt_ecb c (b_ "odd length!") = Ok e
        /\ decrypt_ecb c e = Ok (b_ "odd length!"))
  /\ (forall l r, is_word l -> is_word r ->
        decrypt_block c (encrypt_block c l r).1 (encrypt_block c l r).2 = (l, r)).
Proof.
  apply (blowfish_roundtrip (b_ "shared secret") (replicate 8 x00) (b_ "odd length!")); [discriminate | discriminate | reflexivity].
Defined.

End Blowfish.
