(* ===== verification/Sss.v ===== *)
(** * The shared-secret mechanism

    src/xrd/auth/sss.py: reading a keytab and minting the credential blob, a
    cleartext header and a Blowfish-CFB64 seal over who and when. The clock,
    the random nonce and the keytab's mode and lines are arguments. *)

From S2P Require Import Prelude PyStr Errors Buffer Words Crc Checksum Blowfish.
From Stdlib Require Import QArith.
Open Scope Z_scope.

Module Sss.

Definition HDR_LEN : Z := 16.
Definition DATA_HDR_LEN : Z := 40.
Definition BASE_TIME : Z := 1222183880.
Definition ENC_BF32 : byte := "0"%byte.
Definition OPT_USEDATA : byte := x00.
Definition TYPE_NAME : byte := x01.
Definition NONCE_LEN : Z := 32.

(** One keytab entry. *)
Record SSSKey := mkKey {
  id : Z; secret : bytes; name : str; user : str; group : str; expires : Z
}.

Definition expired (now : Q) (k : SSSKey) : bool :=
  negb (expires k =? 0) && Qle_bool (inject_Z (expires k)) now.

(** ** The keytab *)

Definition hex_value (c : Z) : option Z :=
  if (48 <=? c) && (c <=? 57) then Some (c - 48)
  else if (97 <=? c) && (c <=? 102) then Some (c - 87)
  else if (65 <=? c) && (c <=? 70) then Some (c - 55)
  else None.

(** [bytes.fromhex] of a word without white space. *)
Fixpoint fromhex (s : str) : res bytes :=
  match s with
  | [] => Ok []
  | [_] => Err ValueError
  | a :: b :: s =>
      match hex_value a, hex_value b with
      | Some x, Some y => t ← fromhex s; Ok (z2b (16 * x + y) :: t)
      | _, _ => Err ValueError
      end
  end.

(** [int(...)] of an attribute, or its default. *)
Definition int_attr (attrs : dict Z str) (k default : Z) : res Z :=
  match dict_get k attrs with
  | None => Ok default
  | Some s => match py_int s with Some v => Ok v | None => Err ValueError end
  end.

(** The [c:value] fields, up to a comment; the last of a letter counts. *)
Fixpoint keytab_attrs (fields : list str) (attrs : dict Z str) : dict Z str :=
  match fields with
  | [] => attrs
  | field :: fields =>
      if startswith (s_ "#") field then attrs
      else match field with
           | c :: 0x3A :: v => keytab_attrs fields (dict_set c v attrs)
           | _ => keytab_attrs fields attrs
           end
  end.

(** One line: a key, or nothing worth keeping. *)
Definition keytab_line (now : Q) (include_expired : bool) (raw : str) : res (option SSSKey) :=
  let line := strip raw in
  if bool_decide (line = []) || startswith (s_ "#") line then Ok None else
  match words line with
  | [] => Ok None
  | version :: fields =>
      if negb (bool_decide (version ∈ [s_ "0"; s_ "1"])) then Ok None else
      let attrs := keytab_attrs fields [] in
      secret ← match dict_get (0x6B) attrs with Some k => fromhex k | None => Ok [] end;
      if bool_decide (secret = []) then Ok None else
      id ← int_attr attrs 0x4E (-1);
      expires ← int_attr attrs 0x65 0;
      let key := mkKey id secret (default [] (dict_get 0x6E attrs)) (default [] (dict_get 0x75 attrs))
                   (default [] (dict_get 0x67 attrs)) expires in
      if expired now key && negb include_expired then Ok None else Ok (Some key)
  end.

(** [mode] is [st_mode & 0o777]; [0x3F] is [0o077]. *)
Definition read_keytab (now : Q) (mode : Z) (lines : list str) (include_expired require_private : bool)
  : res (list SSSKey) :=
  if require_private && negb (Z.land mode 0x3F =? 0) then Err PermissionError else
  keys ← mapM_res (keytab_line now include_expired) lines;
  Ok (list_omap _ _ (fun k => k) (keys : list (option SSSKey))).

(** ** The credential *)

Definition data_header (nonce : bytes) (gen_time : Z) : bytes :=
  nonce ++ be_enc 4 (Z.land gen_time 0xFFFFFFFF) ++ replicate 3 x00 ++ [OPT_USEDATA].

(** The NAME element: at most 63 bytes of user and a NUL, which is counted. *)
Definition name_tlv (user : bytes) : bytes :=
  let ulen := Z.min (zlen user + 1) 64 in
  [TYPE_NAME; x00; z2b ulen] ++ slice_to user (ulen - 1) ++ [x00].

Definition build_credential (key : SSSKey) (username : str) (nonce : bytes) (gen_time : Z) : res bytes :=
  if negb (zlen nonce =? NONCE_LEN) then Err ValueError else
  user ← Writer.encode_str (match username with [] => s_ "xrd" | _ => username end);
  let body := data_header nonce gen_time ++ name_tlv user in
  let plain := body ++ be_enc 4 (Z.land (default 0 (crc32 body 0)) 0xFFFFFFFF) in
  bf ← Blowfish.init (secret key);
  cipher ← Blowfish.encrypt_cfb64 bf (replicate 8 x00) plain;
  kid ← pack_i 8 (id key);
  Ok (b_ "sss" ++ [x00; x01; x00; x00; ENC_BF32] ++ kid ++ cipher).

(** [SSSCredential.initial], with what it draws from the system. *)
Definition sss_initial (now : Q) (nonce : bytes) (gen_time : Z) (key : SSSKey) (username : str) : res bytes :=
  if expired now key then Err CredentialError else build_credential key username nonce gen_time.

(** ** What a server finds in it

    The far end's reading of the format: the header names the key, the seal
    opens under that key's secret, its checksum is right, and the claims are
    at their offsets. *)

Record claims := mkClaims { c_id : Z; c_nonce : bytes; c_time : Z; c_user : bytes }.

Definition sss_open (secret blob : bytes) : option claims :=
  if negb (bool_decide (take 8 blob = b_ "sss" ++ [x00; x01; x00; x00; ENC_BF32])) then None else
  match Blowfish.init secret with
  | Err _ => None
  | Ok bf =>
      match Blowfish.decrypt_cfb64 bf (replicate 8 x00) (drop 16 blob) with
      | Err _ => None
      | Ok plain =>
          let n := (length plain - 4)%nat in
          let body := take n plain in
          if negb (bool_decide (crc32 body 0 = Some (be_dec (drop n plain)))) then None else
          let tlv := drop 40 body in
          let ulen := be_dec (slice tlv 1 3) in
          if negb (bool_decide (take 1 tlv = [TYPE_NAME])) || negb (zlen tlv =? 3 + ulen) then None else
          Some (mkClaims (unpack_i (slice blob 8 16)) (take 32 body) (be_dec (slice body 32 36))
                  (slice tlv 3 (3 + ulen - 1)))
      end
  end.

Lemma crc32_small body : exists v, crc32 body 0 = Some v /\ 0 <= v < 256 ^ 4.
Proof.
  destruct crc32_chains as [_ H]. destruct (H body [] 0) as (v & Hv & Hr & _); [done|]. exists v. split; [done|].
  apply Hr.
Qed.

(** The blob a well-formed key mints. *)
Lemma build_credential_ok key username user nonce gen_time :
  secret key <> [] -> zlen (secret key) <= 56 -> zlen nonce = NONCE_LEN ->
  - 2 ^ 63 <= id key < 2 ^ 63 ->
  utf8_encode (match username with [] => s_ "xrd" | _ => username end) = Some user ->
  let body := data_header nonce gen_time ++ name_tlv user in
  exists v bf cipher,
    crc32 body 0 = Some v /\ 0 <= v < 256 ^ 4 /\ Blowfish.init (secret key) = Ok bf
    /\ Blowfish.decrypt_cfb64 bf (replicate 8 x00) cipher = Ok (body ++ be_enc 4 v)
    /\ build_credential key username nonce gen_time
       = Ok (b_ "sss" ++ [x00; x01; x00; x00; ENC_BF32] ++ be_enc 8 (id key) ++ cipher).
Proof.
  intros Hs Hsl Hn Hid Hu body. destruct (crc32_small body) as (v & Hv & Hvr).
  destruct (Blowfish.init_total (secret key) Hs Hsl) as [bf Hbf].
  destruct (Blowfish.cfb_roundtrip bf (replicate 8 x00) (body ++ be_enc 4 v) eq_refl) as (cipher & He & _ & Hd).
  exists v, bf, cipher. split_and!; [done|lia|lia|done|done|].
  unfold build_credential. rewrite Hn. cbn [Z.eqb negb NONCE_LEN Pos.eqb]. unfold Writer.encode_str. rewrite Hu.
  cbn [mbind result_bind]. fold body. rewrite Hv. change (default 0 (Some v)) with v. change 0xFFFFFFFF with (2 ^ 32 - 1).
  rewrite (land_mask_id 32 v) by (lia || done).
  rewrite Hbf. cbn [mbind result_bind]. rewrite He. cbn [mbind result_bind]. unfold pack_i.
  change (8 * Z.of_nat 8 - 1) with 63. cbv zeta.
  rewrite (proj2 (Z.leb_le _ _)), (proj2 (Z.ltb_lt _ _)) by lia. done.
Qed.

Lemma name_tlv_spec user :
  let u := take 63 user in
  name_tlv user = TYPE_NAME :: be_enc 2 (zlen u + 1) ++ u ++ [x00] /\ 0 <= zlen u + 1 < 256 ^ 2.
Proof.
  intros u. assert (zlen u = Z.min (zlen user) 63) as Hu by (unfold u, zlen; rewrite length_take; lia).
  pose proof (zlen_nonneg user). change (256 ^ 2) with 65536. split; [|lia]. unfold name_tlv.
  replace (Z.min (zlen user + 1) 64) with (zlen u + 1) by lia.
  assert (slice_to user (zlen u + 1 - 1) = u) as ->.
  { unfold slice_to. rewrite (proj2 (Z.ltb_ge _ _)) by lia. rewrite Hu. unfold u.
    destruct (Z.le_gt_cases (zlen user) 63); [rewrite !take_ge; [done|unfold zlen in *; lia..]|]. f_equal. lia. }
  assert (be_enc 2 (zlen u + 1) = [x00; z2b (zlen u + 1)]) as ->; [|done].
  change (be_enc 2 ?x) with ([z2b (x / 256)] ++ [z2b x]). rewrite Z.div_small by lia. done.
Qed.

(** C29: What a server reads out of an SSS credential is what went into it. For
    a key with a usable secret, the blob [build_credential] mints opens under
    that secret, passes its checksum, and claims the key's id, the nonce, the
    time modulo 2^32, and the user's name cut to 63 bytes - the user ["xrd"]
    when none was given. *)
Theorem credential_opens key username user nonce gen_time :
  secret key <> [] -> zlen (secret key) <= 56 -> zlen nonce = NONCE_LEN ->
  - 2 ^ 63 <= id key < 2 ^ 63 ->
  utf8_encode (match username with [] => s_ "xrd" | _ => username end) = Some user ->
  exists blob, build_credential key username nonce gen_time = Ok blob
    /\ sss_open (secret key) blob
       = Some (mkClaims (id key) nonce (gen_time mod 2 ^ 32) (take 63 user)).
Proof.
  intros Hs Hsl Hn Hid Hu.
  destruct (build_credential_ok key username user nonce gen_time Hs Hsl Hn Hid Hu)
    as (v & bf & cipher & Hv & Hvr & Hbf & Hd & Hb). eexists. split; [exact Hb|].
  destruct (name_tlv_spec user) as [Ht Htr]. set (u := take 63 user) in *. rewrite Ht in *. clear Ht.
  set (hdr := data_header nonce gen_time) in *.
  assert (length hdr = 40%nat) as Hh.
  { unfold hdr, data_header. rewrite !length_app, be_enc_length. unfold zlen, NONCE_LEN in Hn. simpl. lia. }
  set (tlv := TYPE_NAME :: be_enc 2 (zlen u + 1) ++ u ++ [x00]) in *. set (body := hdr ++ tlv) in *.
  unfold sss_open. change (b_ "sss" ++ [x00; x01; x00; x00; ENC_BF32] ++ be_enc 8 (id key) ++ cipher)
    with ((b_ "sss" ++ [x00; x01; x00; x00; ENC_BF32]) ++ be_enc 8 (id key) ++ cipher).
  set (pre := b_ "sss" ++ [x00; x01; x00; x00; ENC_BF32]). assert (length pre = 8%nat) as Hp by reflexivity.
  clearbody pre. rewrite take_app_length' by done. rewrite bool_decide_eq_true_2 by done. cbn [negb]. rewrite Hbf.
  assert (drop 16 (pre ++ be_enc 8 (id key) ++ cipher) = cipher) as ->.
  { rewrite app_assoc. apply drop_app_length'. by rewrite length_app, be_enc_length, Hp. }
  rewrite Hd. cbv zeta.
  replace (length (body ++ be_enc 4 v) - 4)%nat with (length body) by (rewrite length_app, be_enc_length; lia).
  rewrite take_app_length, drop_app_length. rewrite Hv, be_dec_enc_small by done. rewrite bool_decide_eq_true_2 by done.
  assert (drop 40 body = tlv) as -> by (by apply drop_app_length'). cbn [negb].
  assert (slice tlv 1 3 = be_enc 2 (zlen u + 1)) as Hsl2.
  { unfold tlv. rewrite slice_pos by lia. change (Z.to_nat 1) with 1%nat. cbn [drop]. apply take_app_length'.
    by rewrite be_enc_length. }
  rewrite Hsl2, be_dec_enc_small by done.
  assert (zlen tlv = 3 + (zlen u + 1)) as Htl.
  { unfold tlv. rewrite zlen_cons, !zlen_app, be_enc_zlen. change (zlen [x00]) with 1. lia. }
  rewrite Htl, Z.eqb_refl. rewrite bool_decide_eq_true_2 by done. cbn [negb orb]. f_equal. f_equal.
  - rewrite slice_pos by lia. change (Z.to_nat 8) with 8%nat. rewrite drop_app_length' by done.
    rewrite take_app_length' by (by rewrite be_enc_length).
    unfold unpack_i. rewrite be_enc_zlen, be_dec_enc, pow256_pow2. apply to_signed_mod; [lia|]. exact Hid.
  - unfold body, hdr, data_header. rewrite <- !app_assoc. apply take_app_length'. unfold zlen, NONCE_LEN in Hn. lia.
  - unfold body, hdr, data_header. rewrite <- !app_assoc. rewrite slice_pos by lia.
    rewrite drop_app_length' by (unfold zlen, NONCE_LEN in Hn; lia). rewrite take_app_length' by (by rewrite be_enc_length).
    change 0xFFFFFFFF with (2 ^ 32 - 1). rewrite land_mask by lia. rewrite be_dec_enc.
    change (256 ^ Z.of_nat 4) with (2 ^ 32). by rewrite Z.mod_mod by lia.
  - unfold tlv. rewrite slice_pos by lia. change (Z.to_nat 3) with 3%nat. cbn [drop].
    rewrite drop_app_length' by (by rewrite be_enc_length). apply take_app_length'. unfold zlen. lia.
Qed.

Definition demo_key : SSSKey := mkKey 7 (b_ "not so secret") (s_ "k") (s_ "u") (s_ "g") 0.

Lemma credential_opens_witness :
  exists blob, build_credential demo_key (s_ "alice") (replicate 32 x01) 5000000000 = Ok blob
    /\ sss_open (secret demo_key) blob = Some (mkClaims 7 (replicate 32 x01) 705032704 (b_ "alice")).
Proof.
  apply (credential_opens demo_key (s_ "alice") (b_ "alice") (replicate 32 x01) 5000000000);
    [discriminate | discriminate | reflexivity | split; [discriminate|reflexivity] | reflexivity].
Defined.

(** ** Keytabs *)

Lemma keytab_line_usable now incl raw k :
  keytab_line now incl raw = Ok (Some k) -> secret k <> [] /\ (incl = false -> expired now k = false).
Proof.
  unfold keytab_line. cbv zeta. case_goal; [done|]. destruct (words _) as [|v fields]; [done|].
  case_goal; [done|]. intros (sec & _ & H)%bind_ok_inv. destruct (bool_decide (sec = [])) eqn:Es; [done|].
  apply bind_ok_inv in H as (i & _ & H). apply bind_ok_inv in H as (e & _ & H).
  destruct (_ && _) eqn:Ee in H; [done|]. injection H as <-. simpl. split; [by apply bool_decide_eq_false in Es|].
  intros ->. by rewrite andb_true_r in Ee.
Qed.

(** Every key read has a secret and, unless asked otherwise, is in date; a
    keytab others can read yields none at all. *)
Lemma read_keytab_usable now mode lines incl priv keys :
  read_keytab now mode lines incl priv = Ok keys ->
  (priv = true -> Z.land mode 0x3F = 0)
  /\ Forall (fun k => secret k <> [] /\ (incl = false -> expired now k = false)) keys.
Proof.
  unfold read_keytab. intros H. destruct (priv && negb (Z.land mode 0x3F =? 0)) eqn:E; [done|].
  split. { intros ->. simpl in E. zbool. done. }
  apply bind_ok_inv in H as (ks & Hks & [= <-]). clear E. revert ks Hks.
  induction lines as [|l lines IH]; intros ks Hks; simpl in Hks; [injection Hks as <-; constructor|].
  apply bind_ok_inv in Hks as (k & Hk & Hks). apply bind_ok_inv in Hks as (ks' & Hks' & [= <-]).
  specialize (IH _ Hks'). destruct k as [k|]; [|exact IH]. simpl. constructor; [|exact IH].
  by apply keytab_line_usable in Hk.
Qed.

Example keytab_demo :
  read_keytab 100 0x180 [s_ "# comment"; s_ "0 u:anon g:usr n:mykey N:12 e:0 k:0aFf # trailing"; s_ "0 N:13 e:99 k:01"] false true
  = Ok [mkKey 12 [x0a; xff] (s_ "mykey") (s_ "anon") (s_ "usr") 0].
Proof. vm_compute. reflexivity. Qed.

End Sss.
