(* ===== verification/Krb5.v ===== *)
(** * Kerberos credential caches

    src/xrd/auth/krb5.py: the cursor, the principal and FILE-cache readers,
    and which tickets are live. The cursor is the bytes in front of it. The
    file's content and the clock are arguments; the GSSAPI exchange is driven
    by the ladder ([Auth]). *)

From S2P Require Import Prelude PyStr Errors Buffer.
From Stdlib Require Import QArith.
Open Scope Z_scope.

Module Krb5.

Definition CCACHE_VERSION_4 : Z := 0x0504.
Definition CCACHE_VERSION_3 : Z := 0x0503.

Record Principal := mkPrincipal { components : list str; realm : str; name_type : Z }.

Record Ticket := mkTicket {
  client : Principal; server : Principal; enctype : Z; auth_time : Z; start_time : Z;
  end_time : Z; renew_till : Z; flags : Z; ticket_der : bytes
}.

Definition principal_str (p : Principal) : str :=
  join 0x2F (components p) ++ (match realm p with [] => [] | r => 0x40 :: r end).

Definition ticket_expired (now : Q) (t : Ticket) : bool :=
  negb (end_time t =? 0) && Qle_bool (inject_Z (end_time t)) now.

Definition is_tgt (t : Ticket) : bool :=
  match components (server t) with c :: _ => bool_decide (c = s_ "krbtgt") | [] => false end.

(** ** The cursor *)

Definition parser (A : Type) := bytes -> res (A * bytes).

Definition take_ (count : Z) : parser bytes := fun d =>
  if (count <? 0) || (zlen d <? count) then Err ValueError
  else Ok (take (Z.to_nat count) d, drop (Z.to_nat count) d).

Definition u16 : parser Z := fun d => '(b, d) ← take_ 2 d; Ok (unpack_u b, d).
Definition u32 : parser Z := fun d => '(b, d) ← take_ 4 d; Ok (unpack_u b, d).
Definition blob : parser bytes := fun d => '(n, d) ← u32 d; take_ n d.

(** [for _ in range(count): item]: an item takes four bytes at least, so
    there are never more of them than bytes left. *)
Fixpoint repeated {A} (fuel : nat) (item : parser A) (count : Z) : parser (list A) := fun d =>
  if count <=? 0 then Ok ([], d) else
  match fuel with
  | O => Err AssertionError
  | S fuel => '(x, d) ← item d; '(xs, d) ← repeated fuel item (count - 1) d; Ok (x :: xs, d)
  end.

Definition times {A} (item : parser A) (count : Z) : parser (list A) := fun d =>
  repeated (S (length d)) item count d.

(** ** Principals and tickets *)

Definition text_blob : parser str := fun d => '(b, d) ← blob d; Ok (utf8_decode b, d).

Definition _read_principal : parser Principal := fun d =>
  '(name_type, d) ← u32 d;
  '(count, d) ← u32 d;
  '(realm, d) ← text_blob d;
  '(components, d) ← times text_blob count d;
  Ok (mkPrincipal components realm name_type, d).

(** An address or an authorization datum: a type and a blob. *)
Definition tagged_blob : parser unit := fun d => '(_, d) ← u16 d; '(_, d) ← blob d; Ok (tt, d).

(** Version 3 wrote the enctype twice. *)
Definition enctype_again (version : Z) : parser unit := fun d =>
  if version =? CCACHE_VERSION_3 then '(_, d) ← u16 d; Ok (tt, d) else Ok (tt, d).

Definition read_ticket (version : Z) : parser Ticket := fun d =>
  '(client, d) ← _read_principal d;
  '(server, d) ← _read_principal d;
  '(enctype, d) ← u16 d;
  '(_, d) ← enctype_again version d;
  '(_, d) ← blob d;
  '(auth_time, d) ← u32 d;
  '(start_time, d) ← u32 d;
  '(end_time, d) ← u32 d;
  '(renew_till, d) ← u32 d;
  '(_, d) ← take_ 1 d;
  '(flags, d) ← u32 d;
  '(n, d) ← u32 d;
  '(_, d) ← times tagged_blob n d;
  '(n, d) ← u32 d;
  '(_, d) ← times tagged_blob n d;
  '(der, d) ← blob d;
  '(_, d) ← blob d;
  Ok (mkTicket client server enctype auth_time start_time end_time renew_till flags der, d).

(** [while not reader.exhausted]; an entry that will not parse ends it. *)
Fixpoint ticket_loop (fuel : nat) (version : Z) (d : bytes) : res (list Ticket) :=
  match d with
  | [] => Ok []
  | _ =>
      match fuel with
      | O => Err AssertionError
      | S fuel =>
          match read_ticket version d with
          | Ok (t, d) => ts ← ticket_loop fuel version d; Ok (t :: ts)
          | Err StructError => Ok []
          | Err e => if is_value_error e then Ok [] else Err e
          end
      end
  end.

Definition read_ccache (data : bytes) : res (Principal * list Ticket) :=
  '(version, d) ← u16 data;
  if negb ((version =? CCACHE_VERSION_3) || (version =? CCACHE_VERSION_4)) then Err ValueError else
  d ← (if version =? CCACHE_VERSION_4 then '(n, d) ← u16 d; '(_, d) ← take_ n d; Ok d else Ok d);
  '(default, d) ← _read_principal d;
  ts ← ticket_loop (S (length d)) version d;
  Ok (default, ts).

(** [tickets(path)], with what reading the file gave. *)
Definition tickets (now : Q) (content : res bytes) : res (list Ticket) :=
  match (data ← content; read_ccache data) with
  | Ok (_, found) => Ok (filter (fun t => ticket_expired now t = false) found)
  | Err e => if is_os_error e || is_value_error e then Ok [] else Err e
  end.

(** ** What a cache holds

    The writer's side of the format: how MIT and Heimdal lay an entry out. *)

Definition enc_blob (b : bytes) : bytes := be_enc 4 (zlen b) ++ b.
Definition enc_text (s : str) : bytes := enc_blob (default [] (utf8_encode s)).

Definition enc_principal (p : Principal) : bytes :=
  be_enc 4 (name_type p) ++ be_enc 4 (zlen (components p)) ++ enc_text (realm p)
  ++ concat (enc_text <$> components p).

Definition enc_tagged (x : Z * bytes) : bytes := be_enc 2 x.1 ++ enc_blob x.2.

(** An entry: the ticket, and what a reader skips. *)
Record entry := mkEntry {
  e_ticket : Ticket; e_key : bytes; e_skey : byte; e_addresses : list (Z * bytes);
  e_authdata : list (Z * bytes); e_second : bytes
}.

Definition enc_entry (version : Z) (e : entry) : bytes :=
  let t := e_ticket e in
  enc_principal (client t) ++ enc_principal (server t) ++ be_enc 2 (enctype t)
  ++ (if version =? CCACHE_VERSION_3 then be_enc 2 (enctype t) else [])
  ++ enc_blob (e_key e) ++ be_enc 4 (auth_time t) ++ be_enc 4 (start_time t) ++ be_enc 4 (end_time t)
  ++ be_enc 4 (renew_till t) ++ [e_skey e] ++ be_enc 4 (flags t)
  ++ be_enc 4 (zlen (e_addresses e)) ++ concat (enc_tagged <$> e_addresses e)
  ++ be_enc 4 (zlen (e_authdata e)) ++ concat (enc_tagged <$> e_authdata e)
  ++ enc_blob (ticket_der t) ++ enc_blob (e_second e).

Definition enc_cache (version : Z) (tags : bytes) (p : Principal) (es : list entry) : bytes :=
  be_enc 2 version ++ (if version =? CCACHE_VERSION_4 then be_enc 2 (zlen tags) ++ tags else [])
  ++ enc_principal p ++ concat (enc_entry version <$> es).

Definition fits (n : nat) (z : Z) : Prop := 0 <= z < 256 ^ Z.of_nat n.

Definition text_fits (s : str) : Prop := exists b, utf8_encode s = Some b /\ fits 4 (zlen b).
Definition principal_fits (p : Principal) : Prop :=
  fits 4 (name_type p) /\ fits 4 (zlen (components p)) /\ text_fits (realm p) /\ Forall text_fits (components p).
Definition tagged_fits (x : Z * bytes) : Prop := fits 2 x.1 /\ fits 4 (zlen x.2).
Definition entry_fits (e : entry) : Prop :=
  let t := e_ticket e in
  principal_fits (client t) /\ principal_fits (server t) /\ fits 2 (enctype t) /\ fits 4 (zlen (e_key e))
  /\ fits 4 (auth_time t) /\ fits 4 (start_time t) /\ fits 4 (end_time t) /\ fits 4 (renew_till t)
  /\ fits 4 (flags t) /\ fits 4 (zlen (e_addresses e)) /\ Forall tagged_fits (e_addresses e)
  /\ fits 4 (zlen (e_authdata e)) /\ Forall tagged_fits (e_authdata e)
  /\ fits 4 (zlen (ticket_der t)) /\ fits 4 (zlen (e_second e)).

(** [p] reads exactly [b] as [v], and refuses anything shorter. *)
Definition reads {A} (p : parser A) (b : bytes) (v : A) : Prop :=
  (forall k, p (b ++ k) = Ok (v, k)) /\ (forall g s, s <> [] -> g ++ s = b -> p g = Err ValueError).

Lemma cache_reads_take b : reads (take_ (zlen b)) b b.
Proof.
  split.
  - intros k. unfold take_. rewrite zlen_app. pose proof (zlen_nonneg b). pose proof (zlen_nonneg k).
    destruct (Z.ltb_spec (zlen b) 0); [lia|]. destruct (Z.ltb_spec (zlen b + zlen k) (zlen b)); [lia|].
    cbn. unfold zlen. rewrite Nat2Z.id, take_app_length, drop_app_length. done.
  - intros g s Hs <-. unfold take_. rewrite zlen_app. pose proof (zlen_nonneg g).
    assert (0 < zlen s) by (destruct s; [done|]; rewrite zlen_cons; pose proof (zlen_nonneg s); lia).
    destruct (Z.ltb_spec (zlen g + zlen s) 0); [lia|].
    destruct (Z.ltb_spec (zlen g) (zlen g + zlen s)); [done | lia].
Qed.

(** Where a strict prefix of a concatenation ends. *)
Lemma strict_prefix_app (g s b c : bytes) :
  s <> [] -> g ++ s = b ++ c ->
  (exists s', s' <> [] /\ g ++ s' = b) \/ (exists g', g = b ++ g' /\ g' ++ s = c).
Proof.
  intros Hs E. apply app_eq_app in E as [l [[-> ->] | [-> ->]]]; [right; by exists l|].
  destruct l as [|x l]; [right; exists []; by rewrite !app_nil_r | left; by exists (x :: l)].
Qed.

Lemma cache_reads_bind {A B} (p : parser A) (q : A -> parser B) b c v w :
  reads p b v -> reads (q v) c w -> reads (fun d => '(x, d) ← p d; q x d) (b ++ c) w.
Proof.
  intros [Hp1 Hp2] [Hq1 Hq2]. split.
  - intros k. rewrite <- app_assoc, Hp1. cbn. apply Hq1.
  - intros g s Hs E. destruct (strict_prefix_app _ _ _ _ Hs E) as [(s' & Hs' & E') | (g' & -> & E')].
    + by rewrite (Hp2 _ _ Hs' E').
    + rewrite Hp1. cbn. eauto.
Qed.

Lemma cache_reads_ret {A} (v : A) : reads (fun d => Ok (v, d)) [] v.
Proof. split; [done|]. intros g s Hs [-> ->]%app_eq_nil. done. Qed.

(** The last read of a sequence. *)
Lemma reads_map {A B} (p : parser A) (f : A -> B) b v :
  reads p b v -> reads (fun d => '(x, d) ← p d; Ok (f x, d)) b (f v).
Proof. intros H. rewrite <- (app_nil_r b). eapply cache_reads_bind; [done | apply cache_reads_ret]. Qed.

Lemma reads_uint n z : fits n z -> reads (fun d => '(b, d) ← take_ (Z.of_nat n) d; Ok (unpack_u b, d)) (be_enc n z) z.
Proof.
  intros H. rewrite <- (be_dec_enc_small n z H) at 2. rewrite <- (be_enc_zlen n z).
  apply (reads_map (take_ (zlen (be_enc n z))) unpack_u), cache_reads_take.
Qed.

Lemma cache_reads_u16 z : fits 2 z -> reads u16 (be_enc 2 z) z. Proof. apply (reads_uint 2). Qed.
Lemma cache_reads_u32 z : fits 4 z -> reads u32 (be_enc 4 z) z. Proof. apply (reads_uint 4). Qed.

Lemma reads_blob b : fits 4 (zlen b) -> reads blob (enc_blob b) b.
Proof. intros H. eapply cache_reads_bind; [by apply cache_reads_u32 | apply cache_reads_take]. Qed.

Lemma reads_text s : text_fits s -> reads text_blob (enc_text s) s.
Proof.
  intros (b & E & H). unfold enc_text. rewrite E, <- (utf8_decode_encode s b E).
  apply (reads_map blob utf8_decode (enc_blob b)). by apply reads_blob.
Qed.

Lemma reads_tagged x : tagged_fits x -> reads tagged_blob (enc_tagged x) tt.
Proof.
  intros [H1 H2]. eapply cache_reads_bind; [by apply cache_reads_u16|].
  apply (reads_map blob (fun _ => tt) _ x.2). by apply reads_blob.
Qed.

(** Repeated items, while there is fuel for the bytes in front. *)
Lemma repeated_reads {A B} (item : parser A) (enc : B -> bytes) (val : B -> A) l :
  Forall (fun x => reads item (enc x) (val x) /\ enc x <> []) l ->
  (forall fuel k, (length (concat (enc <$> l) ++ k) < fuel)%nat ->
     repeated fuel item (zlen l) (concat (enc <$> l) ++ k) = Ok (val <$> l, k))
  /\ (forall fuel g s, s <> [] -> g ++ s = concat (enc <$> l) -> (length g < fuel)%nat ->
     repeated fuel item (zlen l) g = Err ValueError).
Proof.
  induction 1 as [|x l [Hx Hne] _ [IH1 IH2]]; cbn [fmap list_fmap concat].
  - split; [by intros [|fuel] k ?; [lia|] | by intros fuel g s Hs [-> ->]%app_eq_nil].
  - assert (Hlen : (0 < length (enc x))%nat) by (destruct (enc x); [done | cbn; lia]).
    assert (Hz : zlen (x :: l) <=? 0 = false) by (rewrite zlen_cons; pose proof (zlen_nonneg l); apply Z.leb_gt; lia).
    assert (Hm : zlen (x :: l) - 1 = zlen l) by (rewrite zlen_cons; lia).
    split.
    + intros [|fuel] k Hf; [lia|]. cbn [repeated]. rewrite Hz, Hm, <- app_assoc, (proj1 Hx). cbn.
      rewrite !length_app in Hf. rewrite IH1 by (rewrite length_app; lia). done.
    + intros [|fuel] g s Hs E Hf; [lia|]. cbn [repeated]. rewrite Hz, Hm.
      destruct (strict_prefix_app _ _ _ _ Hs E) as [(s' & Hs' & E') | (g' & -> & E')].
      * by rewrite (proj2 Hx _ _ Hs' E').
      * rewrite (proj1 Hx). cbn. rewrite length_app in Hf. by rewrite (IH2 fuel g' s Hs E') by lia.
Qed.

Lemma cache_reads_times {A B} (item : parser A) (enc : B -> bytes) (val : B -> A) l :
  Forall (fun x => reads item (enc x) (val x) /\ enc x <> []) l ->
  reads (times item (zlen l)) (concat (enc <$> l)) (val <$> l).
Proof.
  intros H. destruct (repeated_reads item enc val l H) as [H1 H2].
  split; [intros k; apply H1; lia | intros g s Hs E; apply (H2 _ g s Hs E); lia].
Qed.

Lemma enc_blob_ne b : enc_blob b <> [].
Proof. unfold enc_blob. intros [E%(f_equal length) _]%app_eq_nil. by rewrite be_enc_length in E. Qed.

Lemma reads_principal p : principal_fits p -> reads _read_principal (enc_principal p) p.
Proof.
  intros (H1 & H2 & H3 & H4). destruct p as [cs r nt]; cbn [components realm name_type] in *.
  unfold _read_principal, enc_principal. cbn [components realm name_type].
  eapply cache_reads_bind; [by apply cache_reads_u32|]. eapply cache_reads_bind; [by apply cache_reads_u32|].
  eapply cache_reads_bind; [by apply reads_text|].
  apply (reads_map (times text_blob (zlen cs)) (fun cs => mkPrincipal cs r nt)).
  rewrite <- (list_fmap_id cs) at 3. apply (cache_reads_times text_blob enc_text id).
  eapply Forall_impl; [exact H4|]. intros s Hs. split; [by apply reads_text | apply enc_blob_ne].
Qed.

Lemma reads_tagged_list l :
  Forall tagged_fits l -> reads (times tagged_blob (zlen l)) (concat (enc_tagged <$> l)) ((fun _ => tt) <$> l).
Proof.
  intros H. apply (cache_reads_times tagged_blob enc_tagged (fun _ => tt)).
  eapply Forall_impl; [exact H|]. intros x Hx. split; [by apply reads_tagged|].
  unfold enc_tagged. intros [_ E]%app_eq_nil. by apply enc_blob_ne in E.
Qed.

Lemma reads_again version z :
  fits 2 z -> reads (enctype_again version) (if version =? CCACHE_VERSION_3 then be_enc 2 z else []) tt.
Proof.
  intros H. unfold enctype_again. destruct (version =? _); [|apply cache_reads_ret].
  apply (reads_map u16 (fun _ => tt) _ z). by apply cache_reads_u16.
Qed.

Lemma reads_ticket version e : entry_fits e -> reads (read_ticket version) (enc_entry version e) (e_ticket e).
Proof.
  destruct e as [[cl sv et a st en rn fl der] key skey addrs auths second]. unfold entry_fits.
  cbn [e_ticket e_key e_addresses e_authdata e_second client server enctype auth_time start_time end_time
       renew_till flags ticket_der]. intros H. destruct_all.
  unfold read_ticket, enc_entry.
  cbn [e_ticket e_key e_skey e_addresses e_authdata e_second client server enctype auth_time start_time end_time
       renew_till flags ticket_der].
  eapply cache_reads_bind; [by apply reads_principal|]. eapply cache_reads_bind; [by apply reads_principal|].
  eapply cache_reads_bind; [by apply cache_reads_u16|].
  eapply cache_reads_bind; [by apply reads_again|].
  eapply cache_reads_bind; [by apply reads_blob|].
  do 4 (eapply cache_reads_bind; [by apply cache_reads_u32|]).
  eapply cache_reads_bind; [apply (cache_reads_take [skey])|].
  eapply cache_reads_bind; [by apply cache_reads_u32|].
  eapply cache_reads_bind; [by apply cache_reads_u32|]. eapply cache_reads_bind; [by apply reads_tagged_list|].
  eapply cache_reads_bind; [by apply cache_reads_u32|]. eapply cache_reads_bind; [by apply reads_tagged_list|].
  eapply cache_reads_bind; [by apply reads_blob|].
  eapply (reads_map blob (fun _ => mkTicket cl sv et a st en rn fl der)). by apply reads_blob.
Qed.

(** *** Any file at all

    [p] never raises but [ValueError], and moves on by [n] bytes or more. *)
Definition moves {A} (n : nat) (p : parser A) : Prop :=
  forall d, match p d with Ok (_, d') => (length d' + n <= length d)%nat | Err e => e = ValueError end.

Lemma moves_take n : moves (Z.to_nat n) (take_ n).
Proof.
  intros d. unfold take_. destruct (Z.ltb_spec n 0); [done|]. destruct (Z.ltb_spec (zlen d) n); [done|].
  cbn. unfold zlen in *. rewrite length_drop. lia.
Qed.

Lemma moves_bind {A B} n m (p : parser A) (q : A -> parser B) :
  moves n p -> (forall v, moves m (q v)) -> moves (n + m) (fun d => '(x, d) ← p d; q x d).
Proof.
  intros Hp Hq d. specialize (Hp d). destruct (p d) as [[v d']|e]; cbn; [|done].
  specialize (Hq v d'). destruct (q v d') as [[w d'']|e]; [lia | done].
Qed.

Lemma moves_ret {A} (v : A) : moves 0 (fun d => Ok (v, d)).
Proof. intros d. lia. Qed.

Lemma moves_weaken {A} n m (p : parser A) : moves n p -> (m <= n)%nat -> moves m p.
Proof. intros H Hm d. specialize (H d). destruct (p d) as [[v d']|e]; [lia | done]. Qed.

Lemma moves_u16 : moves 2 u16.
Proof. apply (moves_bind 2 0 _ _ (moves_take 2)). intros. apply moves_ret. Qed.
Lemma moves_u32 : moves 4 u32.
Proof. apply (moves_bind 4 0 _ _ (moves_take 4)). intros. apply moves_ret. Qed.
Lemma moves_blob : moves 4 blob.
Proof.
  apply (moves_bind 4 0 _ _ moves_u32). intros n. eapply moves_weaken; [apply moves_take | lia].
Qed.

Lemma moves_times {A} (item : parser A) n : moves 1 item -> moves 0 (times item n).
Proof.
  intros Hi d. unfold times. enough (H : forall fuel n d, (length d < fuel)%nat ->
    match repeated fuel item n d with Ok (_, d') => (length d' + 0 <= length d)%nat | Err e => e = ValueError end)
    by (apply H; lia).
  clear n d. intros fuel. induction fuel as [|fuel IH]; intros n d Hf; [lia|]. cbn [repeated].
  destruct (n <=? 0); [lia|]. specialize (Hi d). destruct (item d) as [[v d']|e]; cbn; [|done].
  specialize (IH (n - 1) d' ltac:(lia)). destruct (repeated fuel item (n - 1) d') as [[vs d'']|e]; cbn; [lia | done].
Qed.

Lemma moves_text : moves 4 text_blob.
Proof. apply (moves_bind 4 0 _ _ moves_blob). intros. apply moves_ret. Qed.
Lemma moves_tagged : moves 6 tagged_blob.
Proof.
  apply (moves_bind 2 4 _ _ moves_u16). intros _. apply (moves_bind 4 0 _ _ moves_blob). intros. apply moves_ret.
Qed.

Lemma moves_principal : moves 12 _read_principal.
Proof.
  apply (moves_bind 4 8 _ _ moves_u32). intros nt. apply (moves_bind 4 4 _ _ moves_u32). intros count.
  apply (moves_bind 4 0 _ _ moves_text). intros r. apply (moves_bind 0 0).
  - apply moves_times. eapply moves_weaken; [apply moves_text | lia].
  - intros. apply moves_ret.
Qed.

Lemma moves_again version : moves 0 (enctype_again version).
Proof.
  unfold enctype_again. destruct (version =? _); [|apply moves_ret].
  apply (moves_weaken 2); [|lia]. apply (moves_bind 2 0 _ _ moves_u16). intros. apply moves_ret.
Qed.

Lemma moves_tagged_list n : moves 0 (times tagged_blob n).
Proof. apply moves_times. eapply moves_weaken; [apply moves_tagged | lia]. Qed.

(** One read after the other, none going back. *)
Lemma moves_then {A B} n (p : parser A) (q : A -> parser B) :
  moves n p -> (forall v, moves 0 (q v)) -> moves 0 (fun d => '(x, d) ← p d; q x d).
Proof. intros Hp Hq. apply (moves_weaken (n + 0)); [by apply moves_bind | lia]. Qed.

#[local] Hint Resolve moves_u16 moves_u32 moves_blob moves_take moves_principal moves_again moves_tagged_list moves_ret : moves.

Lemma moves_ticket version : moves 1 (read_ticket version).
Proof.
  unfold read_ticket. apply (moves_weaken (12 + 0)); [|lia]. apply moves_bind; [apply moves_principal|]. intros cl.
  repeat (first [apply moves_ret | eapply moves_then; [solve [eauto with moves] | intros ?]]).
Qed.

Lemma ticket_loop_total version fuel d :
  (length d < fuel)%nat -> exists ts, ticket_loop fuel version d = Ok ts.
Proof.
  revert d. induction fuel as [|fuel IH]; intros d Hf; [lia|]. cbn [ticket_loop].
  destruct d as [|b d]; [by exists []|]. pose proof (moves_ticket version (b :: d)) as Hm.
  destruct (read_ticket version (b :: d)) as [[t d']|e]; [|subst e; by exists []].
  destruct (IH d' ltac:(lia)) as [ts ->]. by exists (t :: ts).
Qed.

(** Reading a cache never fails but with [ValueError]. *)
Lemma read_ccache_total data : match read_ccache data with Ok _ => True | Err e => e = ValueError end.
Proof.
  unfold read_ccache. pose proof (moves_u16 data) as H. destruct (u16 data) as [[version d]|]; cbn; [|done].
  destruct (negb _); [done|].
  assert (Hd : match (if version =? CCACHE_VERSION_4 then '(n, d) ← u16 d; '(_, d) ← take_ n d; Ok d else Ok d)
               with Ok _ => True | Err e => e = ValueError end).
  { destruct (version =? _); [|done]. pose proof (moves_u16 d) as H1. destruct (u16 d) as [[n d']|]; cbn; [|done].
    pose proof (moves_take n d') as H2. destruct (take_ n d') as [[? ?]|]; done. }
  destruct (if version =? CCACHE_VERSION_4 then _ else _) as [d'|]; cbn; [|done].
  pose proof (moves_principal d') as H3. destruct (_read_principal d') as [[p d'']|]; cbn; [|done].
  destruct (ticket_loop_total version (S (length d'')) d'') as [ts E]; [lia|]. cbn in E. by rewrite E.
Qed.

(** *** A cache as it was written *)

Lemma ticket_loop_reads version es g s e fuel :
  Forall entry_fits es -> entry_fits e -> s <> [] -> g ++ s = enc_entry version e ->
  (length (concat (enc_entry version <$> es) ++ g) < fuel)%nat ->
  ticket_loop fuel version (concat (enc_entry version <$> es) ++ g) = Ok (e_ticket <$> es).
Proof.
  intros Hes He Hs Hg. revert fuel. induction Hes as [|x es Hx Hes IH]; intros fuel Hf; cbn [fmap list_fmap concat].
  - destruct fuel as [|fuel]; [lia|]. destruct g as [|b g]; [done|]. cbn [ticket_loop app].
    rewrite (proj2 (reads_ticket version e He) (b :: g) s Hs Hg). done.
  - destruct fuel as [|fuel]; [lia|]. cbn [fmap list_fmap concat] in Hf. rewrite <- app_assoc in *.
    pose proof (proj1 (reads_ticket version x Hx) (concat (enc_entry version <$> es) ++ g)) as E.
    pose proof (moves_ticket version (enc_entry version x ++ concat (enc_entry version <$> es) ++ g)) as Hm.
    rewrite E in Hm.
    destruct (enc_entry version x ++ concat (enc_entry version <$> es) ++ g) as [|b d] eqn:Ed; [cbn in Hm; lia|].
    cbn [ticket_loop]. rewrite E. rewrite IH by (cbn in *; lia). done.
Qed.

(** C31: a credential cache reads back as it was written, in both versions of
    the format, with its default principal and every ticket in order; and one
    cut off anywhere inside an entry - the file is being rewritten - costs
    that entry and nothing else. *)
Theorem ccache_survives version tags p es e g s :
  version = CCACHE_VERSION_3 \/ version = CCACHE_VERSION_4 ->
  fits 2 (zlen tags) -> principal_fits p -> Forall entry_fits es ->
  entry_fits e -> s <> [] -> g ++ s = enc_entry version e ->
  read_ccache (enc_cache version tags p es ++ g) = Ok (p, e_ticket <$> es).
Proof.
  intros Hv Ht Hp Hes He Hs Hg.
  assert (Hfit : fits 2 version) by (unfold fits; destruct Hv; subst; vm_compute; split; congruence).
  unfold read_ccache, enc_cache. rewrite <- !app_assoc, (proj1 (cache_reads_u16 version Hfit)). cbn [mbind result_bind].
  assert (Hok : negb ((version =? CCACHE_VERSION_3) || (version =? CCACHE_VERSION_4)) = false)
    by (destruct Hv; subst; reflexivity).
  rewrite Hok.
  assert (Hd : forall k, (if version =? CCACHE_VERSION_4 then '(n, d) ← u16
      ((if version =? CCACHE_VERSION_4 then be_enc 2 (zlen tags) ++ tags else []) ++ k);
      '(_, d) ← take_ n d; Ok d
      else Ok ((if version =? CCACHE_VERSION_4 then be_enc 2 (zlen tags) ++ tags else []) ++ k)) = Ok k).
  { intros k. destruct (version =? CCACHE_VERSION_4); [|done].
    rewrite <- app_assoc, (proj1 (cache_reads_u16 _ Ht)). cbn [mbind result_bind]. by rewrite (proj1 (cache_reads_take tags)). }
  rewrite Hd. cbn [mbind result_bind]. rewrite (proj1 (reads_principal p Hp)). cbn [mbind result_bind].
  rewrite (ticket_loop_reads version es g s e) by (done || lia). done.
Qed.

Definition demo_alice : Principal := mkPrincipal [s_ "alice"] (s_ "CERN.CH") 1.
Definition demo_tgt : Principal := mkPrincipal [s_ "krbtgt"; s_ "CERN.CH"] (s_ "CERN.CH") 2.
Definition demo_entry : entry :=
  mkEntry (mkTicket demo_alice demo_tgt 18 1000 1000 37000 90000 0x40 (b_ "ticket")) (b_ "key") x00
    [(2, b_ "addr")] [] [].

Lemma text_fits_ascii s b : utf8_encode s = Some b -> (zlen b <? 256) = true -> text_fits s.
Proof.
  intros H E. exists b. split; [done|]. apply Z.ltb_lt in E. pose proof (zlen_nonneg b).
  unfold fits. change (256 ^ Z.of_nat 4) with 4294967296. lia.
Qed.

(** A closed number of a field's width. *)
Ltac fits_tac := unfold fits; refine (conj _ _); vm_compute; congruence.
Ltac text_tac := eapply text_fits_ascii; [vm_compute; reflexivity | reflexivity].

Lemma demo_principal_fits : principal_fits demo_alice /\ principal_fits demo_tgt.
Proof.
  unfold principal_fits. split_and!; first [fits_tac | text_tac | repeat (constructor; [text_tac|]); constructor].
Qed.

Lemma demo_entry_fits : entry_fits demo_entry.
Proof.
  unfold entry_fits, tagged_fits. destruct demo_principal_fits.
  split_and!; first [assumption | fits_tac | repeat (constructor; [split; fits_tac|]); constructor].
Qed.

(** Two tickets, the second torn in the middle. *)
Lemma ccache_survives_witness :
  read_ccache (enc_cache CCACHE_VERSION_4 (b_ "tags") demo_alice [demo_entry]
               ++ take 40 (enc_entry CCACHE_VERSION_4 demo_entry))
  = Ok (demo_alice, [e_ticket demo_entry]).
Proof.
  apply (ccache_survives CCACHE_VERSION_4 (b_ "tags") demo_alice [demo_entry] demo_entry _
           (drop 40 (enc_entry CCACHE_VERSION_4 demo_entry))).
  - by right.
  - fits_tac.
  - apply demo_principal_fits.
  - constructor; [apply demo_entry_fits | constructor].
  - apply demo_entry_fits.
  - vm_compute. discriminate.
  - apply take_drop.
Defined.

End Krb5.
