(* ===== verification/Der.v ===== *)
(** * DER

    src/xrd/crypto/der.py: tag, length and value, nested; integers and object
    identifiers. The reader is proved against an encoder written from the
    standard's rules, and never to look outside the bytes it was given. *)

From S2P Require Import Prelude PyStr Errors Buffer Words.
Open Scope Z_scope.

Definition TAG_INTEGER : Z := 0x02.
Definition TAG_BIT_STRING : Z := 0x03.
Definition TAG_OCTET_STRING : Z := 0x04.
Definition TAG_OID : Z := 0x06.

Record Element := mkElement { tag : Z; value : bytes }.

#[export] Instance Element_eq_dec : EqDecision Element.
Proof. solve_decision. Defined.

(** ** Reading *)

(** [data[pos]], below the end. *)
Definition byte_at (data : bytes) (pos : Z) : Z := b2z (nth (Z.to_nat pos) data x00).

Definition _read_length (data : bytes) (pos : Z) : res (Z * Z) :=
  if zlen data <=? pos then Err DERError else
  let first := byte_at data pos in
  let pos := pos + 1 in
  if first <? 0x80 then Ok (first, pos) else
  let count := Z.land first 0x7F in
  if count =? 0 then Err DERError
  else if 4 <? count then Err DERError
  else if zlen data <? pos + count then Err DERError
  else Ok (be_dec (slice data pos (pos + count)), pos + count).

Definition parse (data : bytes) (pos : Z) : res (Element * Z) :=
  if zlen data <=? pos then Err DERError else
  let tag := byte_at data pos in
  if Z.land tag 0x1F =? 0x1F then Err DERError else
  '(length, pos) ← _read_length data (pos + 1);
  let end_ := pos + length in
  if zlen data <? end_ then Err DERError
  else Ok (mkElement tag (slice data pos end_), end_).

(** [while pos < len(data)]; every turn consumes at least two bytes, so the
    fuel of one turn per byte is never used up ([parse_loop_fuel]). *)
Fixpoint parse_loop (fuel : nat) (data : bytes) (pos : Z) : res (list Element) :=
  match fuel with
  | O => Ok []
  | S fuel =>
      if pos <? zlen data then
        '(element, pos) ← parse data pos;
        rest ← parse_loop fuel data pos;
        Ok (element :: rest)
      else Ok []
  end.

Definition parse_all (data : bytes) : res (list Element) := parse_loop (length data) data 0.

Definition constructed (e : Element) : bool := negb (Z.land (tag e) 0x20 =? 0).

Definition children (e : Element) : res (list Element) :=
  if negb (constructed e) then Err DERError else parse_all (value e).

Definition read_integer (e : Element) : res Z :=
  if negb (tag e =? TAG_INTEGER) then Err DERError
  else if bool_decide (value e = []) then Err DERError
  else Ok (unpack_i (value e)).

(** The arcs after the first byte, [acc] being the one under way. *)
Fixpoint oid_arcs (data : bytes) (acc : Z) : res (list Z) :=
  match data with
  | [] => Ok []
  | b :: data =>
      let v := Z.lor (Z.shiftl acc 7) (Z.land (b2z b) 0x7F) in
      if Z.land (b2z b) 0x80 =? 0 then rest ← oid_arcs data 0; Ok (v :: rest)
      else match data with
           | [] => Err DERError
           | _ => oid_arcs data v
           end
  end.

(** The numbers of an identifier, which [oid_string] joins with dots. *)
Definition oid_numbers (e : Element) : res (list Z) :=
  if negb (tag e =? TAG_OID) then Err DERError else
  match value e with
  | [] => Err DERError
  | b :: data =>
      let first := b2z b in
      let top := Z.min (first / 40) 2 in
      rest ← oid_arcs data 0;
      Ok (top :: first - 40 * top :: rest)
  end.

Definition oid_string (e : Element) : res str :=
  ns ← oid_numbers e; Ok (join 0x2E ((fun n => s_ (pretty n)) <$> (ns : list Z))).

(** ** Writing, as the standard has it *)

(** The fewest bytes that hold a length. *)
Definition der_length (n : Z) : bytes :=
  if n <? 0x80 then [z2b n]
  else if n <? 256 then z2b 0x81 :: be_enc 1 n
  else if n <? 256 ^ 2 then z2b 0x82 :: be_enc 2 n
  else if n <? 256 ^ 3 then z2b 0x83 :: be_enc 3 n
  else z2b 0x84 :: be_enc 4 n.

Definition der_encode (e : Element) : bytes := z2b (tag e) :: der_length (zlen (value e)) ++ value e.

(** A single-byte tag and a length that fits the four bytes the reader takes. *)
Definition encodable (e : Element) : Prop :=
  is_byte (tag e) /\ Z.land (tag e) 0x1F <> 0x1F /\ zlen (value e) < 256 ^ 4.

(** ** Facts *)

Lemma byte_at_app pre b rest pos : pos = zlen pre -> byte_at (pre ++ b :: rest) pos = b2z b.
Proof.
  intros ->. unfold byte_at, zlen. rewrite Nat2Z.id, nth_lookup, lookup_app_r, Nat.sub_diag by lia. done.
Qed.

Lemma slice_app_mid {A} (pre mid rest : list A) a b :
  a = zlen pre -> b = zlen pre + zlen mid -> slice (pre ++ mid ++ rest) a b = mid.
Proof.
  intros -> ->. pose proof (zlen_nonneg pre). pose proof (zlen_nonneg mid). rewrite slice_pos by lia.
  unfold zlen. rewrite Nat2Z.id, drop_app_length. apply take_app_length'. lia.
Qed.

(** The reader finds the length the writer wrote. *)
Lemma read_der_length pre n rest :
  0 <= n < 256 ^ 4 ->
  _read_length (pre ++ der_length n ++ rest) (zlen pre) = Ok (n, zlen pre + zlen (der_length n)).
Proof.
  intros Hn. pose proof (zlen_nonneg pre). pose proof (zlen_nonneg rest).
  assert (forall k : nat, (0 < k <= 4)%nat -> 0 <= n < 256 ^ Z.of_nat k ->
    _read_length (pre ++ (z2b (0x80 + Z.of_nat k) :: be_enc k n) ++ rest) (zlen pre)
    = Ok (n, zlen pre + zlen (z2b (0x80 + Z.of_nat k) :: be_enc k n))) as Hlong.
  { intros k Hk Hnk. unfold _read_length. rewrite !zlen_app, zlen_cons, be_enc_zlen.
    rewrite (proj2 (Z.leb_gt _ _)) by lia. cbn [app]. rewrite byte_at_app by done. rewrite b2z_z2b by lia. cbv zeta.
    rewrite (proj2 (Z.ltb_ge _ _)) by lia.
    assert (Z.land (128 + Z.of_nat k) 0x7F = Z.of_nat k) as ->.
    { change 0x7F with (2 ^ 7 - 1). rewrite land_mask by lia. change (2 ^ 7) with 128.
      rewrite Z.add_comm, <- (Z.mul_1_l 128) at 1. rewrite Z.mod_add by lia. apply Z.mod_small. lia. }
    rewrite (proj2 (Z.eqb_neq _ _)), !(proj2 (Z.ltb_ge _ _)) by lia. do 2 f_equal; [|lia].
    replace (pre ++ z2b (128 + Z.of_nat k) :: be_enc k n ++ rest)
      with ((pre ++ [z2b (128 + Z.of_nat k)]) ++ be_enc k n ++ rest) by (by rewrite <- app_assoc).
    rewrite slice_app_mid; [by apply be_dec_enc_small| |]; rewrite zlen_app, ?be_enc_zlen; change (zlen [_]) with 1; lia. }
  unfold der_length. destruct (Z.ltb_spec n 0x80).
  { unfold _read_length. rewrite !zlen_app. change (zlen [_]) with 1. rewrite (proj2 (Z.leb_gt _ _)) by lia.
    cbn [app]. rewrite byte_at_app, b2z_z2b by (done || lia). cbv zeta. by rewrite (proj2 (Z.ltb_lt _ _)) by lia. }
  destruct (Z.ltb_spec n 256) as [Hlt1|]; [apply (Hlong 1%nat); [lia|split; [lia|exact Hlt1]]|].
  destruct (Z.ltb_spec n (256 ^ 2)) as [Hlt2|]; [apply (Hlong 2%nat); [lia|split; [lia|exact Hlt2]]|].
  destruct (Z.ltb_spec n (256 ^ 3)) as [Hlt3|]; [apply (Hlong 3%nat); [lia|split; [lia|exact Hlt3]]|].
  apply (Hlong 4%nat); [lia|exact Hn].
Qed.

Lemma parse_der_encode pre e rest :
  encodable e -> parse (pre ++ der_encode e ++ rest) (zlen pre) = Ok (e, zlen pre + zlen (der_encode e)).
Proof.
  destruct e as [t v]. intros (Ht & Htag & Hv). unfold parse, der_encode. simpl in *.
  pose proof (zlen_nonneg pre). pose proof (zlen_nonneg rest). pose proof (zlen_nonneg v).
  pose proof (zlen_nonneg (der_length (zlen v))).
  rewrite !zlen_app, !zlen_cons, !zlen_app. rewrite (proj2 (Z.leb_gt _ _)) by lia.
  rewrite byte_at_app by done. rewrite b2z_z2b_byte by done. cbv zeta. rewrite (proj2 (Z.eqb_neq _ _)) by done.
  replace (pre ++ z2b t :: (der_length (zlen v) ++ v) ++ rest)
    with ((pre ++ [z2b t]) ++ der_length (zlen v) ++ v ++ rest) by (rewrite <- !app_assoc; done).
  replace (zlen pre + 1) with (zlen (pre ++ [z2b t])) by (by rewrite zlen_app).
  rewrite read_der_length by lia. cbn [mbind result_bind]. rewrite !zlen_app. change (zlen [_]) with 1.
  rewrite (proj2 (Z.ltb_ge _ _)) by lia. do 2 f_equal; [|lia]. f_equal.
  replace ((pre ++ [z2b t]) ++ der_length (zlen v) ++ v ++ rest)
    with (((pre ++ [z2b t]) ++ der_length (zlen v)) ++ v ++ rest) by (by rewrite <- !app_assoc).
  apply slice_app_mid; rewrite !zlen_app; done.
Qed.

(** A successful parse stays inside the bytes and moves forward. *)
Lemma read_length_bounds data pos n pos' :
  0 <= pos -> _read_length data pos = Ok (n, pos') -> pos < pos' <= zlen data /\ 0 <= n.
Proof.
  intros Hp. unfold _read_length. case_goal; [done|]. cbv zeta. zbool.
  pose proof (b2z_range (nth (Z.to_nat pos) data x00)).
  case_goal. { intros [= <- <-]. zbool. unfold byte_at in *. lia. }
  repeat (case_goal; [done|]). intros [= <- <-]. zbool.
  pose proof (be_dec_range (slice data (pos + 1) (pos + 1 + Z.land (byte_at data pos) 127))).
  assert (0 <= Z.land (byte_at data pos) 127) by (apply Z.land_nonneg; lia). lia.
Qed.

Lemma parse_bounds data pos e end_ :
  0 <= pos -> parse data pos = Ok (e, end_) ->
  pos + 2 <= end_ <= zlen data /\ value e = slice data (end_ - zlen (value e)) end_.
Proof.
  intros Hp. unfold parse. case_goal; [done|]. cbv zeta. case_goal; [done|].
  intros ([n pos'] & Hl & H)%bind_ok_inv. apply read_length_bounds in Hl as [Hb Hn]; [|lia].
  destruct (zlen data <? pos' + n) eqn:E1; [done|]. injection H as <- <-. zbool. simpl.
  assert (zlen (slice data pos' (pos' + n)) = n) as Hz.
  { rewrite slice_pos by lia. unfold zlen in *. rewrite length_take, length_drop. lia. }
  rewrite Hz. split; [lia|]. f_equal. lia.
Qed.

Lemma parse_loop_fuel data n m pos :
  0 <= pos -> zlen data <= pos + Z.of_nat n -> parse_loop (n + m) data pos = parse_loop n data pos.
Proof.
  revert pos. induction n as [|n IH]; intros pos Hp Hl.
  - destruct m; [done|]. simpl. by rewrite (proj2 (Z.ltb_ge _ _)) by lia.
  - simpl. case_goal; [|done]. destruct (parse data pos) as [[e pos']|] eqn:Ep; [|done]. cbn [mbind result_bind].
    apply parse_bounds in Ep as [Hb _]; [|done]. rewrite IH by lia. done.
Qed.

Lemma der_encode_pos e : 0 < zlen (der_encode e).
Proof. unfold der_encode. rewrite zlen_cons. pose proof (zlen_nonneg (der_length (zlen (value e)) ++ value e)). lia. Qed.

Lemma parse_loop_encoded es : forall fuel pre,
  Forall encodable es -> (length es <= fuel)%nat ->
  parse_loop fuel (pre ++ concat (der_encode <$> es)) (zlen pre) = Ok es.
Proof.
  induction es as [|e es IH]; intros fuel pre Hes Hf.
  - simpl. rewrite app_nil_r. destruct fuel; [done|]. simpl. by rewrite Z.ltb_irrefl.
  - apply Forall_cons in Hes as [He Hes]. destruct fuel as [|fuel]; [simpl in Hf; lia|]. rewrite fmap_cons, List.concat_cons.
    cbn [parse_loop]. rewrite (proj2 (Z.ltb_lt _ _)).
    2:{ rewrite !zlen_app. pose proof (der_encode_pos e).
        pose proof (zlen_nonneg (concat (der_encode <$> es))). lia. }
    rewrite parse_der_encode by done. cbn [mbind result_bind]. rewrite <- zlen_app, app_assoc.
    simpl in Hf. rewrite (IH fuel) by (done || lia). done.
Qed.

(** The DER reader undoes the standard's encoder: any sequence of elements
    with one-byte tags, each shorter than 4 GiB, is read back by [parse_all]
    exactly as it was, using every byte. *)
Theorem der_roundtrip es :
  Forall encodable es -> parse_all (concat (der_encode <$> es)) = Ok es.
Proof.
  intros Hes. unfold parse_all. apply (parse_loop_encoded es _ []); [done|].
  induction Hes as [|e es He Hes IH]; [done|]. rewrite fmap_cons, List.concat_cons, length_app. cbn [length].
  pose proof (der_encode_pos e). unfold zlen in *. lia.
Qed.

Definition demo_elements : list Element :=
  [mkElement TAG_INTEGER [x01; x00]; mkElement 0x30 (replicate 200 x05); mkElement TAG_OCTET_STRING []].

Lemma der_roundtrip_witness :
  Forall encodable demo_elements /\ parse_all (concat (der_encode <$> demo_elements)) = Ok demo_elements.
Proof.
  assert (Forall encodable demo_elements) as H.
  { repeat constructor; discriminate. }
  split; [exact H | apply (der_roundtrip demo_elements H)].
Defined.

(** ** Integers and identifiers *)

(** An INTEGER of [n] bytes of two's complement reads back. *)
Lemma integer_roundtrip n v :
  (0 < n)%nat -> - 2 ^ (8 * Z.of_nat n - 1) <= v < 2 ^ (8 * Z.of_nat n - 1) ->
  read_integer (mkElement TAG_INTEGER (be_enc n v)) = Ok v.
Proof.
  intros Hn Hv. unfold read_integer. simpl. rewrite bool_decide_eq_false_2.
  - f_equal. unfold unpack_i. rewrite be_enc_zlen, be_dec_enc, pow256_pow2. apply to_signed_mod; lia.
  - intros H. apply (f_equal length) in H. rewrite be_enc_length in H. simpl in H. lia.
Qed.

Example oid_rsa :
  oid_string (mkElement TAG_OID (z2b <$> [0x2a; 0x86; 0x48; 0x86; 0xf7; 0x0d; 0x01; 0x01; 0x01]))
  = Ok (s_ "1.2.840.113549.1.1.1").
Proof. vm_compute. reflexivity. Qed.
