(* ===== verification/Rsa.v ===== *)
(** * Number theory

    What RSA and Diffie-Hellman rest on: exponents modulo a prime, the Chinese
    remainder of two of them, and Proth's criterion, which shows concrete
    primes to be prime. *)

From Stdlib Require Import Zpow_facts Zcong.
From S2P Require Import Prelude PyStr Errors Buffer Words Der.
From Stdlib Require Import ZArith Zpow_facts Zmod Zdivisibility Zcong.
Open Scope Z_scope.

Lemma pow_mod_l a n m : (a mod m) ^ n mod m = a ^ n mod m.
Proof. apply Z.mod_pow_l. Qed.

(** Two publics raised to each other's secret agree. *)
Lemma dh_agree g a b p : 0 <= a -> 0 <= b -> (g ^ a mod p) ^ b mod p = (g ^ b mod p) ^ a mod p.
Proof. intros. rewrite !pow_mod_l, <- !Z.pow_mul_r, (Z.mul_comm a b) by done. done. Qed.

(** Modulo a prime an exponent that is one more than a multiple of [p - 1] does nothing. *)
Lemma fermat_exponent p v k : Z.prime p -> 0 <= k -> v ^ (1 + k * (p - 1)) mod p = v mod p.
Proof.
  intros Hp Hk. pose proof (Z.prime_ge_2 _ Hp). rewrite Z.pow_add_r, Z.pow_1_r by nia.
  destruct (Z.eq_dec (v mod p) 0) as [H0|H0].
  - rewrite <- Z.mul_mod_idemp_l, H0 by lia. done.
  - rewrite (Z.mul_comm k), Z.pow_mul_r by lia. rewrite <- Z.mul_mod_idemp_r, <- pow_mod_l by lia.
    rewrite (Z.fermat_nz p v Hp H0), Z.pow_1_l, Z.mod_1_l, Z.mul_1_r by lia. done.
Qed.

(** Reducing an exponent modulo [p - 1], when it does not reduce to nothing. *)
Lemma pow_mod_exponent p v d :
  Z.prime p -> 0 <= d -> d mod (p - 1) <> 0 -> v ^ (d mod (p - 1)) mod p = v ^ d mod p.
Proof.
  intros Hp Hd Hn. pose proof (Z.prime_ge_2 _ Hp).
  assert (p <> 2) by (intros ->; apply Hn, Z.mod_1_r).
  pose proof (Z.mod_pos_bound d (p - 1) ltac:(lia)). assert (0 <= d / (p - 1)) by (apply Z.div_pos; lia).
  rewrite (Z.div_mod d (p - 1)) at 2 by lia. set (r := d mod (p - 1)) in *. set (k := d / (p - 1)) in *.
  replace ((p - 1) * k + r) with ((r - 1) + (1 + k * (p - 1))) by lia.
  rewrite Z.pow_add_r by nia. rewrite <- Z.mul_mod_idemp_r, fermat_exponent, Z.mul_mod_idemp_r by (done || lia).
  f_equal. rewrite <- (Z.pow_1_r v) at 3. rewrite <- Z.pow_add_r by lia. f_equal. lia.
Qed.

Lemma primes_coprime p q : Z.prime p -> Z.prime q -> p <> q -> Z.gcd p q = 1.
Proof.
  intros Hp Hq Hne. pose proof (Z.prime_ge_2 _ Hp). pose proof (Z.prime_ge_2 _ Hq).
  pose proof (Z.gcd_nonneg p q). pose proof (Z.gcd_divide_l p q) as Hl. pose proof (Z.gcd_divide_r p q) as Hr.
  assert (Z.gcd p q <> 0) by (intros Hz; apply Z.gcd_eq_0 in Hz; lia).
  destruct (Z.eq_dec (Z.gcd p q) 1) as [|Hg]; [done|]. exfalso. apply Hne.
  assert (forall x, Z.prime x -> (Z.gcd p q | x) -> Z.gcd p q = x) as Hx.
  { intros x Hx Hd. pose proof (Z.prime_ge_2 _ Hx). apply Z.divide_pos_le in Hd as Hle; [|lia].
    destruct (Z.eq_dec (Z.gcd p q) x) as [|Hnx]; [done|]. destruct Hx as [_ Hx].
    exfalso. apply (Hx (Z.gcd p q)); [lia|done]. }
  rewrite <- (Hx p Hp Hl) at 1. by apply Hx.
Qed.

(** Congruent modulo both primes is congruent modulo their product. *)
Lemma crt_unique p q x y :
  Z.prime p -> Z.prime q -> p <> q -> x mod p = y mod p -> x mod q = y mod q -> x mod (p * q) = y mod (p * q).
Proof.
  intros Hp Hq Hne Hxp Hxq. pose proof (Z.prime_ge_2 _ Hp). pose proof (Z.prime_ge_2 _ Hq).
  assert (forall m, m <> 0 -> x mod m = y mod m -> (m | x - y)) as Hd.
  { intros m Hm He. apply Z.mod_divide; [done|]. rewrite Zminus_mod, He, Z.sub_diag. apply Z.mod_0_l. done. }
  destruct (Hd p ltac:(lia) Hxp) as [k Hk]. pose proof (Hd q ltac:(lia) Hxq) as Hdq. rewrite Hk in Hdq.
  rewrite Z.mul_comm in Hdq. apply Z.gauss in Hdq as [j Hj]; [|by rewrite Z.gcd_comm; apply primes_coprime].
  replace x with (y + j * (p * q)) by (rewrite Hj in Hk; lia). apply Z.mod_add. nia.
Qed.

(** ** Proth's criterion *)

Lemma odd_part n : 0 < n -> exists j t, 0 <= j /\ 0 <= t /\ n = 2 ^ j * (2 * t + 1).
Proof.
  intros Hn. assert (0 <= n) as H0 by lia. revert n H0 Hn.
  apply (Z_lt_induction (fun n => 0 < n -> exists j t, 0 <= j /\ 0 <= t /\ n = 2 ^ j * (2 * t + 1))).
  intros n IH Hn. destruct (Z.Even_or_Odd n) as [[k Hk]|[k Hk]].
  - destruct (IH k) as (j & t & Hj & Ht & He); [lia..|]. exists (j + 1), t.
    split; [lia|]. split; [done|]. rewrite Z.pow_add_r by lia. rewrite Hk, He. change (2 ^ 1) with 2. ring.
  - exists 0, k. change (2 ^ 0) with 1. split; [lia|]. split; lia.
Qed.

Lemma prime_factor n : 1 < n -> exists r, Z.prime r /\ (r | n).
Proof.
  intros Hn. assert (0 <= n) as H0 by lia. revert n H0 Hn.
  apply (Z_lt_induction (fun n => 1 < n -> exists r, Z.prime r /\ (r | n))). intros n IH Hn.
  destruct (Znumtheory.prime_dec n) as [Hp|Hp]; [exists n; split; [by apply Znumtheory.prime_alt | done]|].
  assert (exists d, 1 < d < n /\ (d | n)) as (d & Hd & Hdn).
  { by apply Znumtheory.not_prime_divide. }
  destruct (IH d) as (r & Hr & Hrd); [lia..|]. exists r. split; [done|]. by transitivity d.
Qed.

(** A prime [r] where [b ^ (2 ^ (m - 1))] is minus one is one modulo [2 ^ m]. *)
Lemma proth_factor b m r :
  1 <= m -> Z.prime r -> r <> 2 -> b ^ (2 ^ (m - 1)) mod r = (-1) mod r -> (2 ^ m | r - 1).
Proof.
  intros Hm Hr Hr2 Hb. pose proof (Z.prime_ge_2 _ Hr).
  destruct (odd_part (r - 1)) as (j & t & Hj & Ht & He); [lia|].
  destruct (Z.le_gt_cases m j) as [Hle|Hlt].
  { exists (2 ^ (j - m) * (2 * t + 1)). rewrite He. replace j with (j - m + m) at 1 by lia.
    rewrite Z.pow_add_r by lia. ring. }
  exfalso. assert (0 < 2 ^ (m - 1)) by (apply Z.pow_pos_nonneg; lia).
  assert (b mod r <> 0) as Hb0.
  { intros Hz. rewrite <- pow_mod_l, Hz, Z.pow_0_l, Z.mod_0_l in Hb by lia.
    rewrite <- (Z.mod_add (-1) 1), Z.mul_1_l, Z.mod_small in Hb by lia. lia. }
  pose proof (Z.fermat_nz r b Hr Hb0) as Hf.
  assert ((b ^ (2 ^ (m - 1))) ^ (2 * t + 1) mod r = 1 mod r) as H1.
  { rewrite <- Z.pow_mul_r by lia.
    replace (2 ^ (m - 1) * (2 * t + 1)) with ((r - 1) * 2 ^ (m - 1 - j)).
    - assert (0 < 2 ^ (m - 1 - j)) by (apply Z.pow_pos_nonneg; lia).
      rewrite Z.pow_mul_r by lia. rewrite <- pow_mod_l, Hf, Z.pow_1_l by lia. done.
    - rewrite He. replace (m - 1) with (j + (m - 1 - j)) at 2 by lia. rewrite Z.pow_add_r by lia. ring. }
  rewrite <- pow_mod_l, Hb, pow_mod_l in H1.
  replace ((-1) ^ (2 * t + 1)) with (-1) in H1.
  2:{ rewrite Z.pow_add_r, Z.pow_mul_r by lia. change ((-1) ^ 2) with 1. rewrite Z.pow_1_l by lia. done. }
  rewrite <- (Z.mod_add (-1) 1), Z.mul_1_l, !Z.mod_small in H1 by lia. lia.
Qed.

(** [k * 2 ^ m + 1] with [k < 2 ^ m] is prime if some [a] to the half of its
    predecessor is minus one. *)
Lemma proth k m a :
  1 <= m -> 0 < k < 2 ^ m -> Zpow_mod a (k * 2 ^ (m - 1)) (k * 2 ^ m + 1) = k * 2 ^ m ->
  Z.prime (k * 2 ^ m + 1).
Proof.
  intros Hm Hk Ha. set (p := k * 2 ^ m + 1) in *. assert (1 < p) by (unfold p; nia).
  rewrite Zpow_mod_correct in Ha by lia.
  assert (2 ^ m = 2 * 2 ^ (m - 1)) as H2 by (rewrite <- Z.pow_succ_r by lia; f_equal; lia).
  assert (forall r, Z.prime r -> (r | p) -> p < r * r) as Hbig.
  { intros r Hr [c Hc]. pose proof (Z.prime_ge_2 _ Hr).
    assert (r <> 2) by (intros ->; unfold p in Hc; lia).
    assert ((a ^ k) ^ (2 ^ (m - 1)) mod r = (-1) mod r) as Hb.
    { rewrite <- Z.pow_mul_r by lia. set (x := a ^ (k * 2 ^ (m - 1))) in *.
      rewrite (Z.div_mod x p) by lia. rewrite Ha, Hc.
      replace (c * r * (x / (c * r)) + k * 2 ^ m) with (-1 + (c * (x / (c * r)) + c) * r)
        by (assert (k * 2 ^ m = c * r - 1) by (unfold p in Hc; lia); lia).
      apply Z.mod_add. lia. }
    apply (proth_factor _ m r Hm Hr) in Hb as [d Hd]; [|done].
    assert (0 < d) by nia. assert (2 ^ m < r) by nia. unfold p. nia. }
  split; [done|]. intros n Hn Hnp.
  assert (exists d, 1 < d /\ d * d <= p /\ (d | p)) as (d & Hd1 & Hd2 & Hdp).
  { destruct Hnp as [c Hc]. destruct (Z.le_gt_cases (n * n) p).
    - exists n. split_and!; [lia|done|]. by exists c.
    - exists c. assert (1 < c) by nia. split_and!; [done|nia|]. exists n. lia. }
  destruct (prime_factor d Hd1) as (r & Hr & Hrd). pose proof (Z.prime_ge_2 _ Hr).
  assert (r <= d) by (apply Z.divide_pos_le; [lia|done]).
  specialize (Hbig r Hr ltac:(by transitivity d)). nia.
Qed.

(** ** RSA and PEM

    src/xrd/crypto/rsa.py: splitting PEM, loading keys, and the PKCS#1 v1.5
    signature by the Chinese remainder theorem. [hashlib] and [str.lower] are
    parameters; [base64] and modular [pow] are written out as Python does
    them, and the random bases of the primality test are an argument. *)

Open Scope Z_scope.

(** ** Python's arithmetic *)

(** [a % m]. *)
Definition py_mod (a m : Z) : res Z := if m =? 0 then Err ZeroDivisionError else Ok (a mod m).

(** [pow(b, e, m)]; a negative exponent asks for the inverse. *)
Definition py_pow (b e m : Z) : res Z :=
  if m =? 0 then Err ValueError
  else if e <? 0 then
    if Z.gcd b m =? 1 then Ok (Zpow_mod (Z.invmod b m) (- e) m) else Err ValueError
  else Ok (Zpow_mod b e m).

(** [n.bit_length()], and the bytes it takes. *)
Definition bit_length (n : Z) : Z := if n =? 0 then 0 else Z.log2 (Z.abs n) + 1.
Definition byte_length (n : Z) : Z := (bit_length n + 7) / 8.

(** [v.to_bytes(n, "big")]. *)
Definition int_to_bytes (v n : Z) : res bytes :=
  if (0 <=? v) && (v <? 256 ^ n) then Ok (be_enc (Z.to_nat n) v) else Err OverflowError.

(** ** PEM *)

(** [str.splitlines()]. *)
Definition is_line_break (c : Z) : bool :=
  bool_decide (c ∈ [0x0A; 0x0B; 0x0C; 0x0D; 0x1C; 0x1D; 0x1E; 0x85; 0x2028; 0x2029]).
Fixpoint splitlines (cur : str) (s : str) : list str :=
  match s with
  | [] => match cur with [] => [] | _ => [reverse cur] end
  | c :: s =>
      if is_line_break c then
        reverse cur :: splitlines [] (match s with
                                      | d :: s' => if (c =? 0x0D) && (d =? 0x0A) then s' else s
                                      | [] => s
                                      end)
      else splitlines (c :: cur) s
  end.

(** [data.decode("ascii", "replace")]. *)
Definition ascii_decode (b : bytes) : str := (fun x => if b2z x <? 0x80 then b2z x else 0xFFFD) <$> b.

(** A base-64 digit. *)
Definition b64_value (c : Z) : option Z :=
  if (65 <=? c) && (c <=? 90) then Some (c - 65)
  else if (97 <=? c) && (c <=? 122) then Some (c - 71)
  else if (48 <=? c) && (c <=? 57) then Some (c + 4)
  else if c =? 43 then Some 62
  else if c =? 47 then Some 63
  else None.

(** [binascii.a2b_base64]: [quad] digits of the group read, [left] their bits
    not yet written, [pads] the padding seen in a row. Anything that is not a
    digit is skipped. *)
Fixpoint a2b_base64 (s : str) (quad left_ pads : Z) : res bytes :=
  match s with
  | [] => if quad =? 0 then Ok [] else Err ValueError
  | c :: s =>
      if c =? 61 then
        if 2 <=? quad then
          if 4 <=? quad + (pads + 1) then Ok [] else a2b_base64 s quad left_ (pads + 1)
        else a2b_base64 s quad left_ pads
      else
        match b64_value c with
        | None => a2b_base64 s quad left_ pads
        | Some v =>
            if quad =? 0 then a2b_base64 s 1 v 0
            else if quad =? 1 then
              t ← a2b_base64 s 2 (Z.land v 0x0F) 0; Ok (z2b (Z.lor (Z.shiftl left_ 2) (Z.shiftr v 4)) :: t)
            else if quad =? 2 then
              t ← a2b_base64 s 3 (Z.land v 0x03) 0; Ok (z2b (Z.lor (Z.shiftl left_ 4) (Z.shiftr v 2)) :: t)
            else
              t ← a2b_base64 s 0 0 0; Ok (z2b (Z.lor (Z.shiftl left_ 6) v) :: t)
        end
  end.

(** [base64.b64decode(s)]. *)
Definition b64decode (s : str) : res bytes :=
  if forallb (fun c => c <? 0x80) s then a2b_base64 s 0 0 0 else Err ValueError.

Definition DASHES : str := s_ "-----".

(** [line[n:-5].strip()]. *)
Definition pem_label (n : nat) (line : str) : str := strip (slice line (Z.of_nat n) (-5)).

(** The loop over the lines: [label] of the open block, and its lines. *)
Fixpoint pem_lines (lines : list str) (label : option str) (body : list str) : list (str * bytes) :=
  match lines with
  | [] => []
  | line :: lines =>
      let line := strip line in
      if startswith (s_ "-----BEGIN ") line && endswith DASHES line then
        pem_lines lines (Some (pem_label 11 line)) []
      else if startswith (s_ "-----END ") line && endswith DASHES line then
        let rest := pem_lines lines None [] in
        match label with
        | Some l =>
            if bool_decide (pem_label 9 line = l) then
              match b64decode (concat body) with Ok der => (l, der) :: rest | Err _ => rest end
            else rest
        | None => rest
        end
      else
        match label with
        | Some _ => pem_lines lines label (body ++ [line])
        | None => pem_lines lines label body
        end
  end.

Definition pem_blocks (data : bytes) : list (str * bytes) :=
  pem_lines (splitlines [] (ascii_decode data)) None [].

(** ** Keys *)

Record RSAPublicKey := mkPublic { pub_n : Z; pub_e : Z }.
Record RSAPrivateKey := mkPrivate { rsa_n : Z; rsa_e : Z; rsa_d : Z; rsa_p : Z; rsa_q : Z }.

Definition public (k : RSAPrivateKey) : RSAPublicKey := mkPublic (rsa_n k) (rsa_e k).

Definition RSA_OID : str := s_ "1.2.840.113549.1.1.1".

Section Rsa.
(** [hashlib.new(name, data).digest()] and [str.lower]. *)
Variable hashlib : str -> bytes -> bytes.
Variable lower : str -> str.

Definition from_hex (l : list Z) : bytes := to_bytes l.

Definition _DIGEST_PREFIXES : dict str bytes :=
  [(s_ "sha1", from_hex [0x30;0x21;0x30;0x09;0x06;0x05;0x2b;0x0e;0x03;0x02;0x1a;0x05;0x00;0x04;0x14]);
   (s_ "sha256", from_hex [0x30;0x31;0x30;0x0d;0x06;0x09;0x60;0x86;0x48;0x01;0x65;0x03;0x04;0x02;0x01;0x05;0x00;0x04;0x20]);
   (s_ "sha384", from_hex [0x30;0x41;0x30;0x0d;0x06;0x09;0x60;0x86;0x48;0x01;0x65;0x03;0x04;0x02;0x02;0x05;0x00;0x04;0x30]);
   (s_ "sha512", from_hex [0x30;0x51;0x30;0x0d;0x06;0x09;0x60;0x86;0x48;0x01;0x65;0x03;0x04;0x02;0x03;0x05;0x00;0x04;0x40])].

(** What is signed: the message, or a DigestInfo over it. *)
Definition digest_info (message : bytes) (digest : option str) : res bytes :=
  match digest with
  | None => Ok message
  | Some d =>
      let name := filter (fun c => c <> 0x2D) (lower d) in
      match dict_get name _DIGEST_PREFIXES with
      | None => Err ValueError
      | Some prefix => Ok (prefix ++ hashlib name message)
      end
  end.

Definition _pkcs1_v15_pad (message : bytes) (size : Z) (digest : option str) : res bytes :=
  message ← digest_info message digest;
  if size <? zlen message + 11 then Err ValueError
  else Ok ([x00; x01] ++ replicate (Z.to_nat (size - zlen message - 3)) xff ++ [x00] ++ message).

Definition verify (k : RSAPublicKey) (message signature : bytes) (digest : option str) : res bool :=
  let size := byte_length (pub_n k) in
  if negb (zlen signature =? size) then Ok false else
  recovered ← py_pow (be_dec signature) (pub_e k) (pub_n k);
  expected ← _pkcs1_v15_pad message size digest;
  block ← int_to_bytes recovered size;
  Ok (bool_decide (block = expected)).

(** [value ** d mod n], by CRT when the primes are known. *)
Definition _power (k : RSAPrivateKey) (value : Z) : res Z :=
  let '(p, q, d) := (rsa_p k, rsa_q k, rsa_d k) in
  if negb (p =? 0) && negb (q =? 0) then
    vp ← py_mod value p; dp ← py_mod d (p - 1); mp ← py_pow vp dp p;
    vq ← py_mod value q; dq ← py_mod d (q - 1); mq ← py_pow vq dq q;
    coefficient ← py_pow q (-1) p;
    h ← py_mod (coefficient * (mp - mq)) p;
    py_mod (mq + q * h) (rsa_n k)
  else py_pow value d (rsa_n k).

Definition sign (k : RSAPrivateKey) (message : bytes) (digest : option str) : res bytes :=
  let size := byte_length (rsa_n k) in
  block ← _pkcs1_v15_pad message size digest;
  v ← _power k (be_dec block);
  int_to_bytes v size.

(** ** Miller-Rabin *)

Definition _SMALL_PRIMES : list Z :=
  [2; 3; 5; 7; 11; 13; 17; 19; 23; 29; 31; 37; 41; 43; 47; 53; 59; 61; 67; 71; 73; 79; 83; 89; 97].

(** The first small prime that settles it. *)
Fixpoint small_divisor (n : Z) (primes : list Z) : option bool :=
  match primes with
  | [] => None
  | small :: primes =>
      if n =? small then Some true
      else if n mod small =? 0 then Some false
      else small_divisor n primes
  end.

(** [while not d & 1]: the odd part and how often two was taken out. *)
Fixpoint halve (fuel : nat) (d : Z) (r : nat) : Z * nat :=
  match fuel with
  | O => (d, r)
  | S fuel => if Z.land d 1 =? 0 then halve fuel (Z.shiftr d 1) (S r) else (d, r)
  end.

(** [for _ in range(k)], squaring, until minus one comes up. *)
Fixpoint squarings (k : nat) (n x : Z) : bool :=
  match k with
  | O => false
  | S k => let x := x * x mod n in if x =? n - 1 then true else squarings k n x
  end.

(** One round with base [a]. *)
Definition strong_base (n d : Z) (r : nat) (a : Z) : bool :=
  let x := Zpow_mod a d n in
  (x =? 1) || (x =? n - 1) || squarings (r - 1) n x.

(** [bases] are what [secrets.randbelow(n - 3) + 2] drew, one per round. *)
Definition _probably_prime (n : Z) (bases : list Z) : bool :=
  if n <? 2 then false else
  match small_divisor n _SMALL_PRIMES with
  | Some b => b
  | None =>
      let '(d, r) := halve (Z.to_nat (Z.log2 n)) (n - 1) 0 in
      forallb (strong_base n d r) bases
  end.

(** ** Loading *)

Definition _private_from_pkcs1 (e : Element) : res RSAPrivateKey :=
  fields ← children e;
  if zlen (fields : list Element) <? 6 then Err DERError else
  values ← mapM_res read_integer (take 6 fields);
  match (values : list Z) with
  | [v; n; e; d; p; q] => if v =? 0 then Ok (mkPrivate n e d p q) else Err DERError
  | _ => Err DERError
  end.

(** [l[0]]. *)
Definition first {A} (l : list A) : res A := match l with x :: _ => Ok x | [] => Err IndexError end.

Definition _private_from_der (der : bytes) : res RSAPrivateKey :=
  '(element, _) ← parse der 0;
  fields ← children element;
  match (fields : list Element) with
  | f0 :: rest =>
      if tag f0 =? TAG_OCTET_STRING then Err DERError else
      match rest with
      | f1 :: f2 :: _ =>
          if (tag f1 =? 0x30) && (tag f2 =? TAG_OCTET_STRING) then
            inner ← children f1;
            head ← first inner;
            algorithm ← oid_string head;
            if negb (bool_decide (algorithm = RSA_OID)) then Err DERError else
            '(inner, _) ← parse (value f2) 0;
            _private_from_pkcs1 inner
          else _private_from_pkcs1 element
      | _ => _private_from_pkcs1 element
      end
  | [] => _private_from_pkcs1 element
  end.

(** The loop over the blocks of a PEM file. *)
Fixpoint key_in_blocks (blocks : list (str * bytes)) (label : option str) : res RSAPrivateKey :=
  match blocks with
  | [] => Err DERError
  | (name, der) :: blocks =>
      if match label with Some l => negb (bool_decide (name = l)) | None => false end
      then key_in_blocks blocks label
      else if bool_decide (name = s_ "ENCRYPTED PRIVATE KEY") then Err DERError
      else if bool_decide (name ∈ [s_ "RSA PRIVATE KEY"; s_ "PRIVATE KEY"]) then _private_from_der der
      else key_in_blocks blocks label
  end.

Definition load_private_key (data : bytes) (label : option str) : res RSAPrivateKey :=
  match pem_blocks data with
  | [] => _private_from_der data
  | blocks => key_in_blocks blocks label
  end.

Definition public_key_from_bitstring (e : Element) : res RSAPublicKey :=
  if negb (tag e =? TAG_BIT_STRING) then Err DERError else
  match value e with
  | [] => Err DERError
  | unused :: body =>
      if negb (b2z unused =? 0) then Err DERError else
      '(inner, _) ← parse body 0;
      fields ← children inner;
      match (fields : list Element) with
      | [f0; f1] => n ← read_integer f0; e ← read_integer f1; Ok (mkPublic n e)
      | _ => Err DERError
      end
  end.

Definition load_public_key (data : bytes) : res RSAPublicKey :=
  let der := match pem_blocks data with (_, der) :: _ => der | [] => data end in
  '(element, _) ← parse der 0;
  fields ← children element;
  match (fields : list Element) with
  | [f0; f1] =>
      if tag f1 =? TAG_BIT_STRING then
        inner ← children f0;
        head ← first inner;
        algorithm ← oid_string head;
        if negb (bool_decide (algorithm = RSA_OID)) then Err DERError
        else public_key_from_bitstring f1
      else n ← read_integer f0; e ← read_integer f1; Ok (mkPublic n e)
  | _ => Err DERError
  end.
End Rsa.
