(* ===== verification/RsaProps.v ===== *)
(** * RSA signatures verify

    The Chinese-remainder power of src/xrd/crypto/rsa.py is the plain one, a
    signature verifies under the public half of its key, and the primality
    test never turns down a prime. *)

From S2P Require Import Prelude PyStr Errors Buffer Words Der Rsa.
From Stdlib Require Import Zpow_facts Zcong Zmod.
Open Scope Z_scope.

(** A key as RFC 8017 has it, with its primes or without. *)
Definition valid_key (k : RSAPrivateKey) : Prop :=
  exists p q, Z.prime p /\ Z.prime q /\ p <> q /\ 2 < p /\ 2 < q
    /\ rsa_n k = p * q /\ 0 <= rsa_e k /\ 0 <= rsa_d k
    /\ (rsa_e k * rsa_d k) mod ((p - 1) * (q - 1)) = 1
    /\ ((rsa_p k = p /\ rsa_q k = q) \/ rsa_p k = 0 \/ rsa_q k = 0).

Lemma py_pow_ok b e m : 0 <= e -> m <> 0 -> py_pow b e m = Ok (b ^ e mod m).
Proof.
  intros He Hm. unfold py_pow. rewrite (proj2 (Z.eqb_neq _ _)), (proj2 (Z.ltb_ge _ _)) by done.
  by rewrite Zpow_mod_correct.
Qed.

Lemma py_mod_ok a m : m <> 0 -> py_mod a m = Ok (a mod m).
Proof. intros Hm. unfold py_mod. by rewrite (proj2 (Z.eqb_neq _ _)). Qed.

(** The private exponent modulo one prime's predecessor is not zero. *)
Lemma exponent_nonzero e d p r :
  2 < p -> 0 < r -> (e * d) mod ((p - 1) * r) = 1 -> d mod (p - 1) <> 0.
Proof.
  intros Hp Hr He H0. apply Z.mod_divide in H0 as [c Hc]; [|lia].
  pose proof (Z.div_mod (e * d) ((p - 1) * r) ltac:(nia)) as Hd. rewrite He in Hd.
  set (x := e * d / ((p - 1) * r)) in Hd. clearbody x. rewrite Hc in Hd.
  assert ((p - 1) * (e * c - r * x) = 1) as H1 by lia. set (y := e * c - r * x) in H1. clearbody y.
  destruct (Z.le_gt_cases y 0); nia.
Qed.

Lemma crt_half v d p r :
  Z.prime p -> 2 < p -> 0 <= d -> d mod (p - 1) <> 0 -> r = v ^ d mod p ->
  (vp ← py_mod v p; dp ← py_mod d (p - 1); py_pow vp dp p) = Ok r.
Proof.
  intros Hp Hp2 Hd Hn ->. rewrite !py_mod_ok by lia. cbn [mbind result_bind].
  pose proof (Z.mod_pos_bound d (p - 1) ltac:(lia)). rewrite py_pow_ok by lia.
  by rewrite pow_mod_l, pow_mod_exponent.
Qed.

(** The remainders modulo both primes, recombined. *)
Lemma crt_combine p q x c :
  Z.prime p -> Z.prime q -> p <> q -> (c * q) mod p = 1 ->
  (x mod q + q * ((c * (x mod p - x mod q)) mod p)) mod (p * q) = x mod (p * q).
Proof.
  intros Hp Hq Hne Hc. pose proof (Z.prime_ge_2 _ Hp). pose proof (Z.prime_ge_2 _ Hq).
  apply crt_unique; [done..| |].
  - rewrite <- Z.add_mod_idemp_r, <- (Z.mul_mod_idemp_r q), Z.mod_mod, Z.mul_mod_idemp_r by lia.
    replace (q * (c * (x mod p - x mod q))) with ((c * q) * (x mod p - x mod q)) by ring.
    rewrite <- Z.mul_mod_idemp_l, Hc, Z.mul_1_l, Z.add_mod_idemp_r by lia.
    replace (x mod q + (x mod p - x mod q)) with (x mod p) by ring. apply Z.mod_mod. lia.
  - rewrite (Z.mul_comm q), Z.mod_add by lia. apply Z.mod_mod. lia.
Qed.

(** [_power] is the plain power, whichever way it goes. *)
Lemma power_plain k v : valid_key k -> _power k v = Ok (v ^ rsa_d k mod rsa_n k).
Proof.
  intros (p & q & Hp & Hq & Hne & Hp2 & Hq2 & Hn & He & Hd & Hed & Hcrt). unfold _power. cbv zeta beta iota.
  assert (rsa_n k <> 0) as Hn0 by (rewrite Hn; nia).
  destruct (negb (rsa_p k =? 0) && negb (rsa_q k =? 0)) eqn:E.
  2:{ by apply py_pow_ok. }
  apply andb_true_iff in E as [E1 E2]. zbool. destruct Hcrt as [[-> ->]|[?|?]]; [|done|done].
  pose proof (exponent_nonzero _ _ p (q - 1) Hp2 ltac:(lia) Hed) as Hdp.
  rewrite (Z.mul_comm (p - 1)) in Hed. pose proof (exponent_nonzero _ _ q (p - 1) Hq2 ltac:(lia) Hed) as Hdq.
  pose proof (crt_half v (rsa_d k) p _ Hp Hp2 Hd Hdp eq_refl) as Hmp.
  pose proof (crt_half v (rsa_d k) q _ Hq Hq2 Hd Hdq eq_refl) as Hmq.
  rewrite !py_mod_ok in Hmp, Hmq by lia. cbn [mbind result_bind] in Hmp, Hmq.
  rewrite !(py_mod_ok v), !(py_mod_ok (rsa_d k)) by lia. cbn [mbind result_bind]. rewrite Hmp. cbn [mbind result_bind].
  rewrite Hmq. cbn [mbind result_bind].
  assert (py_pow q (-1) p = Ok (Z.invmod q p mod p)) as ->.
  { unfold py_pow. rewrite (proj2 (Z.eqb_neq p 0)) by lia. rewrite (proj2 (Z.ltb_lt (-1) 0)) by lia.
    rewrite (primes_coprime q p) by congruence. cbn [Z.eqb Pos.eqb]. rewrite Zpow_mod_correct by lia.
    change (- -1) with 1. by rewrite Z.pow_1_r. }
  cbn [mbind result_bind]. rewrite !py_mod_ok by (done || lia). cbn [mbind result_bind].
  rewrite py_mod_ok by done. rewrite Hn. f_equal.
  apply crt_combine; [done..|]. rewrite Z.mul_mod_idemp_l by lia. apply Z.invmod_coprime; [lia|].
  apply primes_coprime; congruence.
Qed.

(** Signing and then raising to the public exponent is the identity. *)
Lemma rsa_inverse k v :
  valid_key k -> (v ^ rsa_d k mod rsa_n k) ^ rsa_e k mod rsa_n k = v mod rsa_n k.
Proof.
  intros (p & q & Hp & Hq & Hne & Hp2 & Hq2 & Hn & He & Hd & Hed & _). rewrite pow_mod_l, <- Z.pow_mul_r by done.
  pose proof (Z.div_mod (rsa_e k * rsa_d k) ((p - 1) * (q - 1)) ltac:(nia)) as Hk. rewrite Hed in Hk.
  set (c := rsa_e k * rsa_d k / ((p - 1) * (q - 1))) in *.
  assert (0 <= c) by (apply Z.div_pos; nia).
  rewrite Hn, (Z.mul_comm (rsa_d k)), Hk. apply crt_unique; [done..| |].
  - replace ((p - 1) * (q - 1) * c + 1) with (1 + ((q - 1) * c) * (p - 1)) by ring.
    apply fermat_exponent; [done|nia].
  - replace ((p - 1) * (q - 1) * c + 1) with (1 + ((p - 1) * c) * (q - 1)) by ring.
    apply fermat_exponent; [done|nia].
Qed.

(** ** The padded block *)

Lemma byte_length_bounds n : 0 < n -> 256 ^ (byte_length n - 1) <= n < 256 ^ byte_length n /\ 0 < byte_length n.
Proof.
  intros Hn. unfold byte_length, bit_length. rewrite (proj2 (Z.eqb_neq n 0)), Z.abs_eq by lia.
  pose proof (Z.log2_spec n Hn) as [Hl Hu]. pose proof (Z.log2_nonneg n).
  set (b := Z.log2 n) in *. replace (b + 1 + 7) with (b + 1 * 8) by lia. rewrite Z.div_add by lia.
  pose proof (Z.div_mod b 8 ltac:(lia)). pose proof (Z.mod_pos_bound b 8 ltac:(lia)).
  assert (0 <= b / 8) by (apply Z.div_pos; lia).
  change 256 with (2 ^ 8). rewrite <- !Z.pow_mul_r by lia. split; [|lia]. split.
  - etransitivity; [|exact Hl]. apply Z.pow_le_mono_r; lia.
  - eapply Z.lt_le_trans; [exact Hu|]. apply Z.pow_le_mono_r; lia.
Qed.

Section Rsa.
Variable hashlib : str -> bytes -> bytes.
Variable lower : str -> str.
Notation pad := (_pkcs1_v15_pad hashlib lower).

Lemma pad_spec message size digest block :
  pad message size digest = Ok block -> zlen block = size /\ 0 <= be_dec block < 256 ^ (size - 1) /\ 11 <= size.
Proof.
  unfold _pkcs1_v15_pad. intros (m & _ & H)%bind_ok_inv. destruct (Z.ltb_spec size (zlen m + 11)); [done|].
  injection H as <-. pose proof (zlen_nonneg m). set (k := Z.to_nat _).
  assert (Z.of_nat k = size - zlen m - 3) as Hk by (unfold k; lia). clearbody k.
  set (tail := replicate k xff ++ [x00] ++ m).
  change (zlen (x00 :: x01 :: tail) = size /\ 0 <= be_dec (x00 :: x01 :: tail) < 256 ^ (size - 1) /\ 11 <= size).
  assert (zlen tail = size - 2) as Ht.
  { unfold tail. rewrite !zlen_app. unfold zlen at 1. rewrite length_replicate. change (zlen [x00]) with 1. lia. }
  rewrite !zlen_cons, Ht. split; [lia|]. split; [|lia].
  pose proof (be_dec_range (x01 :: tail)) as Hr. rewrite zlen_cons, Ht in Hr.
  assert (be_dec (x00 :: x01 :: tail) = be_dec (x01 :: tail)) as ->.
  { change (x00 :: x01 :: tail) with ([x00] ++ x01 :: tail). unfold be_dec. rewrite foldl_app. done. }
  replace (size - 1) with (1 + (size - 2)) by lia. done.
Qed.

Lemma sign_ok k message digest block :
  valid_key k -> pad message (byte_length (rsa_n k)) digest = Ok block ->
  exists s, sign hashlib lower k message digest = Ok s
    /\ zlen s = byte_length (rsa_n k)
    /\ verify hashlib lower (public k) message s digest = Ok true.
Proof.
  intros Hk Hpad. set (size := byte_length (rsa_n k)) in *.
  assert (0 < rsa_n k) as Hn by (destruct Hk as (p & q & _ & _ & _ & ? & ? & -> & _); nia).
  destruct (byte_length_bounds (rsa_n k) Hn) as [[Hlo Hhi] Hpos]. fold size in Hlo, Hhi, Hpos.
  destruct (pad_spec _ _ _ _ Hpad) as (Hl & Hb & Hs).
  set (v := be_dec block) in *. set (s := v ^ rsa_d k mod rsa_n k).
  assert (0 <= s < rsa_n k) as Hsr by (apply Z.mod_pos_bound; lia).
  assert (forall x, 0 <= x < 256 ^ size -> int_to_bytes x size = Ok (be_enc (Z.to_nat size) x)) as Hib.
  { intros x Hx. unfold int_to_bytes. by rewrite (proj2 (Z.leb_le _ _)), (proj2 (Z.ltb_lt _ _)) by lia. }
  exists (be_enc (Z.to_nat size) s). unfold sign. fold size. rewrite Hpad. cbn [mbind result_bind].
  fold v. rewrite power_plain by done. cbn [mbind result_bind]. fold s.
  rewrite Hib by lia. split; [done|]. rewrite be_enc_zlen, Z2Nat.id by lia. split; [done|].
  unfold verify. cbn [public pub_n pub_e]. fold size. rewrite be_enc_zlen, Z2Nat.id, Z.eqb_refl by lia. cbn [negb].
  rewrite be_dec_enc_small by (rewrite Z2Nat.id; lia).
  assert (0 <= rsa_e k) as He by (destruct Hk as (? & ? & _ & _ & _ & _ & _ & _ & ? & _); done).
  rewrite py_pow_ok by lia. cbn [mbind result_bind]. rewrite Hpad. cbn [mbind result_bind].
  unfold s. rewrite rsa_inverse by done. rewrite Z.mod_small by lia. rewrite Hib by lia. cbn [mbind result_bind].
  replace (Z.to_nat size) with (length block) by (unfold zlen in Hl; lia). unfold v. rewrite be_enc_dec.
  by rewrite bool_decide_eq_true_2.
Qed.

(** A signature verifies. With any valid RSA key - its primes given, so
    that the power goes by the Chinese remainder theorem, or not - a message
    that fits the key is signed, in as many bytes as the modulus, and [verify]
    accepts the signature under the public half, with or without a digest. *)
Theorem sign_verifies k message digest block :
  valid_key k -> pad message (byte_length (rsa_n k)) digest = Ok block ->
  exists s, sign hashlib lower k message digest = Ok s
    /\ zlen s = byte_length (rsa_n k)
    /\ verify hashlib lower (public k) message s digest = Ok true.
Proof. apply sign_ok. Qed.
End Rsa.

(** ** A concrete key

    Two primes of Proth's form, and the exponent inverse to 65537. *)

Definition demo_p : Z := 3 * 2 ^ 189 + 1.
Definition demo_q : Z := 3 * 2 ^ 201 + 1.
Definition demo_d : Z := Eval vm_compute in Z.invmod 65537 ((demo_p - 1) * (demo_q - 1)).
Definition demo_rsa : RSAPrivateKey := mkPrivate (demo_p * demo_q) 65537 demo_d demo_p demo_q.

Lemma demo_p_prime : Z.prime demo_p.
Proof. apply (proth 3 189 11); [lia| |]; vm_compute; done. Qed.

Lemma demo_q_prime : Z.prime demo_q.
Proof. apply (proth 3 201 11); [lia| |]; vm_compute; done. Qed.

Lemma demo_valid : valid_key demo_rsa.
Proof.
  exists demo_p, demo_q. split_and!; [apply demo_p_prime | apply demo_q_prime | ..|by left]; by vm_compute.
Qed.

Lemma sign_verifies_witness :
  exists s, sign (fun _ b => b) (fun s => s) demo_rsa (b_ "8byte tg") None = Ok s
    /\ zlen s = byte_length (rsa_n demo_rsa)
    /\ verify (fun _ b => b) (fun s => s) (public demo_rsa) (b_ "8byte tg") s None = Ok true.
Proof.
  eapply (sign_verifies (fun _ b => b) (fun s => s) demo_rsa (b_ "8byte tg") None); [exact demo_valid | vm_compute; reflexivity].
Defined.

(** ** The primality test *)

Lemma small_divisor_prime n ps :
  Z.prime n -> Forall (fun p => 1 < p) ps -> small_divisor n ps <> Some false.
Proof.
  intros Hn. induction 1 as [|p ps Hp _ IH]; [done|]. simpl. case_goal; [done|]. zbool. case_goal; [|done]. zbool.
  intros _. pose proof (Z.prime_ge_2 _ Hn). apply Z.mod_divide in E0 as Hd; [|lia].
  pose proof (Z.divide_pos_le p n ltac:(lia) Hd). destruct Hn as [_ Hn]. apply (Hn p); [lia|done].
Qed.

Lemma halve_spec fuel : forall d r,
  0 < d -> let '(d', r') := halve fuel d r in
  0 < d' /\ (r <= r')%nat /\ d = d' * 2 ^ Z.of_nat (r' - r).
Proof.
  induction fuel as [|fuel IH]; intros d r Hd; simpl; [rewrite Nat.sub_diag; lia|].
  case_goal; [|rewrite Nat.sub_diag; lia]. zbool.
  change 1 with (2 ^ 1 - 1) in E. rewrite land_mask in E by lia. change (2 ^ 1) with 2 in E.
  rewrite Z.shiftr_div_pow2 by lia. change (2 ^ 1) with 2.
  pose proof (Z.div_mod d 2 ltac:(lia)). specialize (IH (d / 2) (S r) ltac:(lia)).
  destruct (halve fuel (d / 2) (S r)) as [d' r']. destruct IH as (H1 & H2 & H3). split; [done|]. split; [lia|].
  replace (r' - r)%nat with (S (r' - S r)) by lia. rewrite Nat2Z.inj_succ, Z.pow_succ_r by lia. lia.
Qed.

(** Modulo a prime only one and minus one square to one. *)
Lemma square_roots n x :
  Z.prime n -> 0 <= x < n -> x * x mod n = 1 -> x = 1 \/ x = n - 1.
Proof.
  intros Hn Hx Hs. pose proof (Z.prime_ge_2 _ Hn).
  assert ((n | (x - 1) * (x + 1))) as Hd.
  { apply Z.mod_divide; [lia|]. replace ((x - 1) * (x + 1)) with (x * x - 1) by ring.
    rewrite Zminus_mod, Hs, (Z.mod_small 1), Z.sub_diag by lia. apply Z.mod_0_l. lia. }
  apply Znumtheory.prime_mult in Hd as [[c Hc]|[c Hc]]; [| |by apply Znumtheory.prime_alt].
  - left. assert (c = 0) by nia. lia.
  - right. assert (c = 1) by nia. lia.
Qed.

Lemma squarings_prime n k x :
  Z.prime n -> 0 <= x < n -> x <> 1 -> x <> n - 1 -> x ^ (2 ^ Z.of_nat (S k)) mod n = 1 -> squarings k n x = true.
Proof.
  intros Hn. pose proof (Z.prime_ge_2 _ Hn). revert x. induction k as [|k IH]; intros x Hx H1 H2 Hp.
  - change (2 ^ Z.of_nat 1) with 2 in Hp. rewrite Z.pow_2_r in Hp. apply square_roots in Hp; [lia|done|done].
  - cbn [squarings]. cbv zeta. case_goal; [done|]. zbool. apply IH; [apply Z.mod_pos_bound; lia| |done|].
    + intros Hs. apply square_roots in Hs; [lia|done|done].
    + rewrite pow_mod_l. rewrite <- Z.pow_2_r, <- Z.pow_mul_r, <- Z.pow_succ_r by lia. rewrite <- Nat2Z.inj_succ. done.
Qed.

(** Miller-Rabin never turns down a prime, whatever the bases drawn. *)
Lemma miller_rabin_prime n bases :
  Z.prime n -> Forall (fun a => 2 <= a <= n - 2) bases -> _probably_prime n bases = true.
Proof.
  intros Hn Hb. pose proof (Z.prime_ge_2 _ Hn). unfold _probably_prime. rewrite (proj2 (Z.ltb_ge _ _)) by done.
  assert (Forall (fun p => 1 < p) _SMALL_PRIMES) as Hps by (apply Forall_forall; intros p Hp; repeat (apply elem_of_cons in Hp as [->|Hp]; [lia|]); inversion Hp).
  pose proof (small_divisor_prime n _SMALL_PRIMES Hn Hps) as Hsd.
  destruct (small_divisor n _SMALL_PRIMES) as [[]|] eqn:Es; [done|done|].
  pose proof (halve_spec (Z.to_nat (Z.log2 n)) (n - 1) 0 ltac:(lia)) as Hh.
  destruct (halve _ (n - 1) 0) as [d r]. destruct Hh as (Hd & _ & He). rewrite Nat.sub_0_r in He.
  apply forallb_forall. intros a Ha%list_elem_of_In. rewrite Forall_forall in Hb. specialize (Hb a Ha).
  unfold strong_base. rewrite Zpow_mod_correct by lia. set (x := a ^ d mod n).
  assert (0 <= x < n) as Hx by (apply Z.mod_pos_bound; lia).
  destruct (Z.eqb_spec x 1); [done|]. destruct (Z.eqb_spec x (n - 1)); [done|]. simpl.
  assert (x ^ (2 ^ Z.of_nat r) mod n = 1) as Hf.
  { unfold x. rewrite pow_mod_l, <- Z.pow_mul_r by (try apply Z.pow_nonneg; lia). rewrite <- He.
    apply Z.fermat_nz; [done|]. rewrite Z.mod_small by lia. lia. }
  destruct r as [|r].
  - change (2 ^ Z.of_nat 0) with 1 in Hf. rewrite Z.pow_1_r, Z.mod_small in Hf by done. done.
  - replace (S r - 1)%nat with r by lia. by apply squarings_prime.
Qed.
