(* ===== verification/Gsi.v ===== *)
(** * The GSI mechanism

    src/xrd/auth/gsi.py: the bucket messages, Diffie-Hellman over the server's
    group, and the two client rounds of the unsigned handshake. What is drawn
    from [os.urandom] is an argument; the X.509 proxy is the pair of its PEM
    chain and its key. *)

From S2P Require Import Prelude PyStr Errors Buffer Words Aes Der Rsa Sss.
Open Scope Z_scope.

Module Gsi.

Definition STEP_SERVER_CERT : Z := 2001.
Definition STEP_SERVER_PXYREQ : Z := 2002.
Definition STEP_CLIENT_CERTREQ : Z := 1000.
Definition STEP_CLIENT_CERT : Z := 1001.

Definition BUCKET_NONE : Z := 0.
Definition BUCKET_CRYPTOMOD : Z := 3000.
Definition BUCKET_MAIN : Z := 3001.
Definition BUCKET_PUK : Z := 3004.
Definition BUCKET_CIPHER : Z := 3005.
Definition BUCKET_RTAG : Z := 3006.
Definition BUCKET_SIGNED_RTAG : Z := 3007.
Definition BUCKET_VERSION : Z := 3014.
Definition BUCKET_CLNT_OPTS : Z := 3019.
Definition BUCKET_X509 : Z := 3022.
Definition BUCKET_ISSUER_HASH : Z := 3023.
Definition BUCKET_CIPHER_ALG : Z := 3025.
Definition BUCKET_MD_ALG : Z := 3026.

Definition VERSION_UNSIGNED_DH : Z := 10300.
Definition CLIENT_OPTS_DEFAULT : Z := 0x80.
Definition SESSION_KEY_LEN : Z := 16.
Definition RTAG_LEN : Z := 8.

Definition _NAME : bytes := b_ "gsi" ++ [x00].
Definition _BPUB : bytes := b_ "---BPUB---".
Definition _EPUB : bytes := b_ "---EPUB--".

(** ** Messages *)

Record Bucket := mkBucket { b_type : Z; b_data : bytes }.

Definition encode_bucket (b : Bucket) : res bytes :=
  t ← pack_u 4 (b_type b); l ← pack_u 4 (zlen (b_data b)); Ok (t ++ l ++ b_data b).

Definition encode_message (step : Z) (buckets : list Bucket) : res bytes :=
  s ← pack_u 4 step;
  bs ← mapM_res encode_bucket buckets;
  t ← pack_u 4 BUCKET_NONE;
  Ok (_NAME ++ s ++ concat bs ++ t).

(** The loop over the buckets, on what is left from [pos]; each turn takes
    eight bytes at least. *)
Fixpoint decode_buckets (fuel : nat) (rest : bytes) : res (list Bucket) :=
  match fuel with
  | O => Ok []
  | S fuel =>
      if zlen rest <? 4 then Ok [] else
      let kind := be_dec (take 4 rest) in
      let rest := drop 4 rest in
      if kind =? BUCKET_NONE then Ok []
      else if zlen rest <? 4 then Err CredentialError
      else
        let length := be_dec (take 4 rest) in
        let rest := drop 4 rest in
        if zlen rest <? length then Err CredentialError
        else
          bs ← decode_buckets fuel (slice_from rest length);
          Ok (mkBucket kind (slice_to rest length) :: bs)
  end.

Definition decode_message (data : bytes) : res (Z * list Bucket) :=
  let '(_, found, after) := partition x00 data in
  if negb found then Err CredentialError
  else if zlen after <? 4 then Err CredentialError
  else
    bs ← decode_buckets (length data) (drop 4 after);
    Ok (be_dec (take 4 after), bs).

Definition bucket_of (kind : Z) (bs : list Bucket) : option bytes :=
  b_data <$> head (filter (fun b => b_type b = kind) bs).

Definition find_bucket (data : bytes) (kind : Z) : option bytes :=
  match decode_message data with
  | Ok (_, bs) => bucket_of kind bs
  | Err _ => None
  end.

(** ** Diffie-Hellman *)

Record PeerPublic := mkPeer { params_pem : bytes; dh_p : Z; dh_g : Z; dh_public : Z }.

(** [l.find(sub)], [None] for -1. *)
Fixpoint find_sub (sub l : bytes) : option nat :=
  if startswith sub l then Some O
  else match l with [] => None | _ :: l => S <$> find_sub sub l end.

(** [bytes.strip()]. *)
Definition byte_space (b : byte) : bool := bool_decide (b ∈ [x09; x0a; x0b; x0c; x0d; x20]).
Definition strip_bytes (b : bytes) : bytes := strip_by byte_space b.

(** Hexadecimal digits with single underscores between them. *)
Fixpoint int16_digits (s : str) (acc : Z) (after_digit : bool) : option Z :=
  match s with
  | [] => if after_digit then Some acc else None
  | c :: s =>
      match Sss.hex_value c with
      | Some d => int16_digits s (acc * 16 + d) true
      | None => if (c =? 0x5F) && after_digit then int16_digits s acc false else None
      end
  end.

(** [int(b, 16)]. *)
Definition int16 (b : bytes) : option Z :=
  let t := ints (strip_bytes b) in
  let '(neg, t) :=
    match t with
    | c :: t' => if c =? 0x2D then (true, t') else if c =? 0x2B then (false, t') else (false, t)
    | [] => (false, t)
    end in
  let t :=
    match t with
    | z :: x :: t' =>
        if (z =? 0x30) && ((x =? 0x78) || (x =? 0x58)) then
          match t' with u :: t'' => if u =? 0x5F then t'' else t' | [] => t' end
        else t
    | _ => t
    end in
  (fun v : Z => if neg then - v else v) <$> int16_digits t 0 false.

Definition parse_dh_parameters (pem : bytes) : res (Z * Z) :=
  match filter (fun lb => endswith (s_ "PARAMETERS") lb.1 = true) (pem_blocks pem) with
  | [] => Err CredentialError
  | (_, der) :: _ =>
      let r :=
        '(element, _) ← parse der 0;
        fields ← children element;
        match (fields : list Element) with
        | f0 :: f1 :: _ => p ← read_integer f0; g ← read_integer f1; Ok (p, g)
        | _ => Err DERError
        end in
      match r with Err DERError => Err CredentialError | _ => r end
  end.

Definition parse_peer_blob (blob : bytes) : res PeerPublic :=
  match find_sub _BPUB blob with
  | None => Err CredentialError
  | Some start =>
      let rest := drop (start + 10) blob in
      match find_sub _EPUB rest with
      | None | Some O => Err CredentialError
      | Some n =>
          match int16 (take n rest) with
          | None => Err CredentialError
          | Some public =>
              '(prime, generator) ← parse_dh_parameters (take start blob);
              Ok (mkPeer (take start blob) prime generator public)
          end
      end
  end.

Definition hex_upper (d : Z) : Z := if d <? 10 then 48 + d else 55 + d.

(** [binascii.hexlify(b).upper()]. *)
Definition hexlify_upper (b : bytes) : bytes :=
  b ≫= fun x => [z2b (hex_upper (b2z x / 16)); z2b (hex_upper (b2z x mod 16))].

Definition encode_public_blob (params_pem : bytes) (public : Z) : res bytes :=
  raw ← int_to_bytes public (byte_length public);
  Ok (params_pem ++ _BPUB ++ hexlify_upper raw ++ b_ "---EPUB---").

Definition session_key (peer : PeerPublic) (private length : Z) : res bytes :=
  secret ← py_pow (dh_public peer) private (dh_p peer);
  raw ← int_to_bytes secret (byte_length secret);
  if zlen raw <? length then Err CredentialError else Ok (slice_to raw length).

(** ** The client's rounds *)

(** [s.encode("ascii")]. *)
Definition ascii_encode (s : str) : res bytes :=
  if forallb (fun c => (0 <=? c) && (c <? 0x80)) s then Ok (to_bytes s) else Err UnicodeEncodeError.

Definition build_certreq (cryptomod : str) (version : Z) (issuer_hash : str) (options : Z) (rtag : bytes)
  : res bytes :=
  inner ← encode_message STEP_CLIENT_CERTREQ [mkBucket BUCKET_RTAG rtag];
  cm ← ascii_encode (match cryptomod with [] => s_ "ssl" | _ => cryptomod end);
  v ← pack_u 4 version;
  ih ← ascii_encode issuer_hash;
  o ← pack_u 4 options;
  encode_message STEP_CLIENT_CERTREQ
    [mkBucket BUCKET_CRYPTOMOD cm; mkBucket BUCKET_VERSION v; mkBucket BUCKET_ISSUER_HASH ih;
     mkBucket BUCKET_CLNT_OPTS o; mkBucket BUCKET_MAIN inner].

Section Client.
Variable hashlib : str -> bytes -> bytes.
Variable lower : str -> str.
(** [os.urandom(n)]. *)
Variable urandom : Z -> bytes.

(** A private exponent in [2, p-2]. *)
Definition draw_private (p : Z) : res Z :=
  r ← py_mod (be_dec (urandom (byte_length p))) (p - 3); Ok (2 + r).

Definition build_cert_response (challenge chain_pem : bytes) (key : RSAPrivateKey)
    (private : option Z) (rtag : option bytes) : res bytes :=
  match find_bucket challenge BUCKET_PUK with
  | None => Err CredentialError
  | Some blob =>
      peer ← parse_peer_blob blob;
      private ← match private with Some x => Ok x | None => draw_private (dh_p peer) end;
      secret ← session_key peer private SESSION_KEY_LEN;
      let server_tag := main ← find_bucket challenge BUCKET_MAIN; find_bucket main BUCKET_RTAG in
      signed ← match server_tag with
               | None | Some [] => Ok []
               | Some tag => s ← sign hashlib lower key tag None; Ok [mkBucket BUCKET_SIGNED_RTAG s]
               end;
      let inner := [mkBucket BUCKET_X509 chain_pem] ++ signed
                   ++ [mkBucket BUCKET_RTAG (default (urandom RTAG_LEN) rtag)] in
      plain ← encode_message STEP_CLIENT_CERT inner;
      encrypted ← cbc_encrypt secret plain (replicate 16 x00) true;
      public ← py_pow (dh_g peer) private (dh_p peer);
      puk ← encode_public_blob (params_pem peer) public;
      encode_message STEP_CLIENT_CERT
        [mkBucket BUCKET_CRYPTOMOD (b_ "ssl"); mkBucket BUCKET_PUK puk;
         mkBucket BUCKET_CIPHER_ALG (b_ "aes-128-cbc"); mkBucket BUCKET_MD_ALG (b_ "sha256");
         mkBucket BUCKET_MAIN encrypted]
  end.

(** [GSICredential.step], with the proxy's chain and key. *)
Definition gsi_step (chain_pem : bytes) (key : RSAPrivateKey) (challenge : bytes) : res (option bytes) :=
  '(step, _) ← decode_message challenge;
  if step =? STEP_SERVER_CERT then
    r ← build_cert_response challenge chain_pem key None None; Ok (Some r)
  else Err CredentialError.
End Client.

End Gsi.
