(* ===== verification/GsiProps.v ===== *)
(** * The GSI handshake completes

    Messages read back as written; the blob with the client's public value
    reads back; and a server that follows the protocol opens the client's
    answer with its own secret and finds the chain, the proof of possession
    and the tag. *)

From S2P Require Import Prelude PyStr Errors Buffer Words Aes AesProps Der Rsa RsaProps Sss Gsi.
From Stdlib Require Import Zpow_facts.
Open Scope Z_scope.

Import Gsi.

(** ** Messages *)

(** A bucket whose type and length fit their fields, and does not end the list. *)
Definition fits (b : Bucket) : Prop := 0 < b_type b < 256 ^ 4 /\ zlen (b_data b) < 256 ^ 4.

Definition bucket_bytes (b : Bucket) : bytes := be_enc 4 (b_type b) ++ be_enc 4 (zlen (b_data b)) ++ b_data b.

Lemma encode_bucket_ok b : fits b -> encode_bucket b = Ok (bucket_bytes b).
Proof.
  intros [Ht Hl]. unfold encode_bucket. pose proof (zlen_nonneg (b_data b)).
  rewrite !pack_u_small by (change (Z.of_nat 4) with 4; lia). done.
Qed.

Lemma encode_message_ok step bs :
  0 <= step < 256 ^ 4 -> Forall fits bs ->
  encode_message step bs = Ok (_NAME ++ be_enc 4 step ++ concat (bucket_bytes <$> bs) ++ be_enc 4 0).
Proof.
  intros Hs Hb. unfold encode_message. rewrite !pack_u_small by (change (Z.of_nat 4) with 4; lia || done).
  cbn [mbind result_bind].
  assert (mapM_res encode_bucket bs = Ok (bucket_bytes <$> bs)) as ->; [|done].
  induction Hb as [|b bs Hb _ IH]; [done|]. cbn [mapM_res]. rewrite (encode_bucket_ok b Hb). cbn [mbind result_bind].
  by rewrite IH.
Qed.

Lemma take4 v (rest : bytes) : take 4 (be_enc 4 v ++ rest) = be_enc 4 v /\ drop 4 (be_enc 4 v ++ rest) = rest.
Proof. split; [apply take_app_length' | apply drop_app_length']; by rewrite be_enc_length. Qed.

Lemma decode_buckets_ok bs : forall fuel tail,
  Forall fits bs -> (length bs < fuel)%nat ->
  decode_buckets fuel (concat (bucket_bytes <$> bs) ++ be_enc 4 0 ++ tail) = Ok bs.
Proof.
  induction bs as [|b bs IH]; intros fuel tail Hb Hf; (destruct fuel as [|fuel]; [simpl in Hf; lia|]); cbn [decode_buckets].
  - cbn [fmap list_fmap concat]. rewrite app_nil_l, zlen_app, be_enc_zlen. pose proof (zlen_nonneg tail).
    rewrite (proj2 (Z.ltb_ge _ _)) by lia. destruct (take4 0 tail) as [-> ->]. rewrite be_dec_enc_small by done. done.
  - apply Forall_cons in Hb as [[Ht Hl] Hb]. pose proof (zlen_nonneg (b_data b)).
    rewrite fmap_cons, List.concat_cons. rewrite (eq_refl : bucket_bytes b = be_enc 4 (b_type b) ++ be_enc 4 (zlen (b_data b)) ++ b_data b).
    rewrite <- !app_assoc.
    set (rest := concat (bucket_bytes <$> bs) ++ be_enc 4 0 ++ tail).
    rewrite zlen_app, be_enc_zlen. pose proof (zlen_nonneg (be_enc 4 (zlen (b_data b)) ++ b_data b ++ rest)).
    rewrite (proj2 (Z.ltb_ge _ 4)) by lia. destruct (take4 (b_type b) (be_enc 4 (zlen (b_data b)) ++ b_data b ++ rest)) as [-> ->].
    rewrite be_dec_enc_small by (change (Z.of_nat 4) with 4; lia). unfold BUCKET_NONE.
    rewrite (proj2 (Z.eqb_neq _ _)) by lia. rewrite zlen_app, be_enc_zlen.
    pose proof (zlen_nonneg (b_data b ++ rest)). rewrite (proj2 (Z.ltb_ge _ 4)) by lia.
    destruct (take4 (zlen (b_data b)) (b_data b ++ rest)) as [-> ->].
    rewrite be_dec_enc_small by (change (Z.of_nat 4) with 4; lia). rewrite zlen_app. pose proof (zlen_nonneg rest).
    rewrite (proj2 (Z.ltb_ge _ _)) by lia. rewrite slice_from_app, slice_to_app. unfold rest.
    rewrite IH by (done || (simpl in Hf; lia)). by destruct b.
Qed.

Lemma concat_bytes_length bs : (length bs <= length (concat (bucket_bytes <$> bs)))%nat.
Proof.
  induction bs as [|b bs IH]; [done|]. rewrite fmap_cons, List.concat_cons, length_app.
  assert (0 < length (bucket_bytes b))%nat by (unfold bucket_bytes; rewrite length_app, be_enc_length; lia). simpl. lia.
Qed.

Lemma message_ok step bs tail :
  0 <= step < 256 ^ 4 -> Forall fits bs ->
  exists m, encode_message step bs = Ok m /\ decode_message (m ++ tail) = Ok (step, bs).
Proof.
  intros Hs Hb. eexists. split; [by apply encode_message_ok|]. unfold decode_message.
  change (_NAME ++ ?x) with (b_ "gsi" ++ x00 :: x). rewrite <- app_assoc. cbn [app].
  rewrite partition_app by (intros Hin; repeat (apply elem_of_cons in Hin as [Hin|Hin]; [discriminate|]); inversion Hin).
  cbn [negb]. rewrite <- !app_assoc. rewrite zlen_app, be_enc_zlen.
  pose proof (zlen_nonneg (concat (bucket_bytes <$> bs) ++ be_enc 4 0 ++ tail)).
  rewrite (proj2 (Z.ltb_ge _ 4)) by lia.
  destruct (take4 step (concat (bucket_bytes <$> bs) ++ be_enc 4 0 ++ tail)) as [-> ->].
  rewrite decode_buckets_ok; [|done|].
  - cbn [mbind result_bind]. by rewrite be_dec_enc_small.
  - rewrite length_app. simpl. rewrite !length_app. pose proof (concat_bytes_length bs). lia.
Qed.

(** GSI messages read back as written: any step code and buckets that fit
    their fields encode, and [decode_message] returns exactly them, also when
    more bytes follow the terminator. *)
Theorem message_roundtrip step bs tail :
  0 <= step < 256 ^ 4 -> Forall fits bs ->
  exists m, encode_message step bs = Ok m /\ decode_message (m ++ tail) = Ok (step, bs).
Proof. apply message_ok. Qed.

Lemma message_roundtrip_witness :
  exists m, encode_message 1001 [mkBucket BUCKET_RTAG (b_ "12345678"); mkBucket BUCKET_X509 []] = Ok m
    /\ decode_message (m ++ b_ "junk") = Ok (1001, [mkBucket BUCKET_RTAG (b_ "12345678"); mkBucket BUCKET_X509 []]).
Proof.
  apply (message_roundtrip 1001 [mkBucket BUCKET_RTAG (b_ "12345678"); mkBucket BUCKET_X509 []]);
    [split; [discriminate|reflexivity] | repeat constructor; discriminate].
Defined.

Lemma message_find step bs kind :
  0 <= step < 256 ^ 4 -> Forall fits bs ->
  exists m, encode_message step bs = Ok m /\ decode_message m = Ok (step, bs)
    /\ zlen m = 12 + zlen (concat (bucket_bytes <$> bs)) /\ find_bucket m kind = bucket_of kind bs.
Proof.
  intros Hs Hb. destruct (message_ok step bs [] Hs Hb) as (m & Hm & Hd). rewrite app_nil_r in Hd.
  exists m. split_and!; [done|done| |].
  - rewrite encode_message_ok in Hm by done. apply Ok_inj in Hm as <-.
    rewrite !zlen_app, !be_enc_zlen. change (zlen _NAME) with 4. lia.
  - unfold find_bucket. by rewrite Hd.
Qed.

(** ** Public values *)

(** The characters [hexlify] writes. *)
Definition hex_byte (c : Z) : Prop := 48 <= c <= 57 \/ 65 <= c <= 70.

Lemma hex_upper_spec d : 0 <= d < 16 -> hex_byte (hex_upper d) /\ Sss.hex_value (hex_upper d) = Some d.
Proof.
  intros Hd. unfold hex_upper, hex_byte. destruct (Z.ltb_spec d 10); unfold Sss.hex_value; (split; [lia|]);
    repeat (case_goal; zbool; try lia); f_equal; try lia; try (apply andb_false_iff in E as []; zbool; lia).
Qed.

Lemma hexlify_chars b : Forall (fun c => hex_byte (b2z c)) (hexlify_upper b).
Proof.
  induction b as [|x b IH]; [constructor|]. unfold hexlify_upper in *. cbn [mbind list_bind].
  pose proof (b2z_range x).
  destruct (hex_upper_spec (b2z x / 16)) as [H1 _]; [split; [apply Z.div_pos; lia | apply Z.div_lt_upper_bound; lia]|].
  destruct (hex_upper_spec (b2z x mod 16)) as [H2 _]; [apply Z.mod_pos_bound; lia|].
  cbn [app]. apply Forall_cons_2; [|apply Forall_cons_2; [|exact IH]]; unfold hex_byte in *; rewrite b2z_z2b; lia.
Qed.

Lemma hexlify_length b : length (hexlify_upper b) = (2 * length b)%nat.
Proof. unfold hexlify_upper. induction b as [|x b IH]; [done|]. cbn [mbind list_bind]. simpl in *. lia. Qed.

Lemma be_dec_acc b acc : foldl (fun acc x => acc * 256 + b2z x) acc b = acc * 256 ^ zlen b + be_dec b.
Proof.
  revert acc. induction b as [|x b IH]; intros acc; [change (acc = acc * 1 + 0); lia|]. cbn [foldl]. rewrite IH.
  change (be_dec (x :: b)) with (foldl (fun acc x => acc * 256 + b2z x) (0 * 256 + b2z x) b).
  rewrite (IH (0 * 256 + b2z x)), zlen_cons. pose proof (zlen_nonneg b).
  rewrite Z.pow_add_r by lia. ring.
Qed.

Lemma int16_hexlify b acc ad :
  b <> [] \/ ad = true ->
  int16_digits (ints (hexlify_upper b)) acc ad = Some (acc * 256 ^ zlen b + be_dec b).
Proof.
  revert acc ad. induction b as [|x b IH]; intros acc ad Had.
  - destruct Had as [? | ->]; [done|]. change (Some acc = Some (acc * 1 + 0)). f_equal. lia.
  - unfold hexlify_upper in *. cbn [mbind list_bind]. pose proof (b2z_range x).
    destruct (hex_upper_spec (b2z x / 16)) as [H1 V1]; [split; [apply Z.div_pos; lia | apply Z.div_lt_upper_bound; lia]|].
    destruct (hex_upper_spec (b2z x mod 16)) as [H2 V2]; [apply Z.mod_pos_bound; lia|].
    unfold ints in *. cbn [app]. rewrite !fmap_cons. cbn [int16_digits].
    rewrite !b2z_z2b by (unfold hex_byte in *; lia). rewrite V1, V2. rewrite IH by (by right). f_equal.
    replace ((acc * 16 + b2z x / 16) * 16 + b2z x mod 16) with (acc * 256 + b2z x)
      by (pose proof (Z.div_mod (b2z x) 16 ltac:(lia)); lia).
    by rewrite <- !be_dec_acc.
Qed.

Lemma int16_hex b : b <> [] -> int16 (hexlify_upper b) = Some (be_dec b).
Proof.
  intros Hb. unfold int16, strip_bytes. pose proof (hexlify_chars b) as Hc.
  rewrite strip_none.
  2:{ eapply Forall_impl; [exact Hc|]. intros c Hh. unfold byte_space. apply bool_decide_eq_false. intros Hin.
      unfold hex_byte in Hh. repeat (apply elem_of_cons in Hin as [Hin|Hin];
        [apply (f_equal b2z) in Hin; match type of Hin with _ = ?r => let v := eval vm_compute in r in change r with v in Hin end; lia|]).
      inversion Hin. }
  assert (exists z x t, ints (hexlify_upper b) = z :: x :: t /\ hex_byte z /\ hex_byte x) as (z & x & t & E & Hz & Hx).
  { destruct b as [|y b]; [done|]. pose proof (hexlify_length (y :: b)) as Hl.
    destruct (hexlify_upper (y :: b)) as [|z [|x t]]; [done|simpl in Hl; lia|].
    apply Forall_cons in Hc as [? Hc]. apply Forall_cons in Hc as [? Hc]. by exists (b2z z), (b2z x), (ints t). }
  rewrite E. unfold hex_byte in Hz, Hx.
  rewrite (proj2 (Z.eqb_neq z 0x2D)), (proj2 (Z.eqb_neq z 0x2B)) by lia. cbv zeta.
  rewrite (proj2 (Z.eqb_neq x 0x78)), (proj2 (Z.eqb_neq x 0x58)) by lia. rewrite andb_false_r, <- E.
  rewrite int16_hexlify by (by left). done.
Qed.

Lemma find_sub_here sub tail : find_sub sub (sub ++ tail) = Some O.
Proof.
  assert (startswith sub (sub ++ tail) = true) as H.
  { induction sub as [|c sub IH]; [done|]. simpl. by rewrite bool_decide_eq_true_2, IH. }
  destruct (sub ++ tail); simpl; by rewrite H.
Qed.

Lemma find_sub_skip c sub pre tail :
  c ∉ pre -> find_sub (c :: sub) (pre ++ (c :: sub) ++ tail) = Some (length pre).
Proof.
  induction pre as [|x pre IH]; intros Hc; [apply (find_sub_here (c :: sub) tail)|].
  apply not_elem_of_cons in Hc as [Hx Hc]. simpl. rewrite bool_decide_eq_false_2 by done. simpl.
  cbn [app] in IH. by rewrite IH.
Qed.

Lemma startswith_app_long (sub l tail : bytes) :
  (length sub <= length l)%nat -> startswith sub (l ++ tail) = startswith sub l.
Proof.
  revert l. induction sub as [|c sub IH]; intros [|x l] Hl; simpl in *; try done; [lia|].
  rewrite IH by lia. done.
Qed.

(** A first occurrence stays the first when more follows. *)
Lemma find_sub_tail sub pre tail :
  find_sub sub (pre ++ sub) = Some (length pre) -> find_sub sub (pre ++ sub ++ tail) = Some (length pre).
Proof.
  induction pre as [|x pre IH]; intros H; [apply (find_sub_here sub tail)|]. cbn [app find_sub] in *.
  change (x :: pre ++ sub ++ tail) with ((x :: pre) ++ sub ++ tail). rewrite app_assoc.
  rewrite startswith_app_long by (simpl; rewrite length_app; lia). cbn [app].
  destruct (startswith sub (x :: pre ++ sub)); [done|].
  destruct (find_sub sub (pre ++ sub)) as [n|] eqn:E; [|done]. simpl in H. injection H as H.
  rewrite IH by (by rewrite H). done.
Qed.

Lemma byte_length_nonneg v : 0 <= byte_length v.
Proof. unfold byte_length, bit_length. pose proof (Z.log2_nonneg (Z.abs v)). apply Z.div_pos; [case_goal; lia|lia]. Qed.

(** The minimal big-endian form, and what it takes. *)
Lemma minimal_bytes v : 0 < v ->
  exists raw, int_to_bytes v (byte_length v) = Ok raw /\ be_dec raw = v /\ raw <> [] /\ zlen raw = byte_length v.
Proof.
  intros Hv. destruct (byte_length_bounds v Hv) as [[_ Hhi] Hpos].
  unfold int_to_bytes. rewrite (proj2 (Z.leb_le _ _)), (proj2 (Z.ltb_lt _ _)) by lia. eexists. split; [done|].
  split; [apply be_dec_enc_small; rewrite Z2Nat.id; lia|]. rewrite be_enc_zlen, Z2Nat.id by lia. split; [|done].
  intros H. apply (f_equal length) in H. rewrite be_enc_length in H. simpl in H. lia.
Qed.

(** The blob one side writes is the blob the other side reads. *)
Lemma public_blob_roundtrip params p g v :
  parse_dh_parameters params = Ok (p, g) -> find_sub _BPUB (params ++ _BPUB) = Some (length params) -> 0 < v ->
  exists blob, encode_public_blob params v = Ok blob /\ zlen blob = zlen params + 20 + 2 * byte_length v
    /\ parse_peer_blob blob = Ok (mkPeer params p g v).
Proof.
  intros Hp Hf Hv. destruct (minimal_bytes v Hv) as (raw & Hr & Hd & Hne & Hl).
  unfold encode_public_blob. rewrite Hr. cbn [mbind result_bind]. eexists. split; [done|]. split.
  { rewrite !zlen_app. unfold zlen at 3. rewrite hexlify_length. change (zlen _BPUB) with 10.
    change (zlen (b_ "---EPUB---")) with 10. unfold zlen in *. lia. }
  unfold parse_peer_blob. rewrite find_sub_tail by done. rewrite take_app_length.
  rewrite app_assoc, drop_app_length' by (by rewrite length_app).
  change (b_ "---EPUB---") with ((x2d :: tail _EPUB) ++ [x2d]).
  assert (_EPUB = x2d :: tail _EPUB) as He by reflexivity. rewrite He at 1.
  rewrite find_sub_skip.
  2:{ intros Hin. pose proof (hexlify_chars raw) as Hc. rewrite Forall_forall in Hc. apply Hc in Hin.
      unfold hex_byte in Hin. change (b2z x2d) with 45 in Hin. lia. }
  destruct (length (hexlify_upper raw)) as [|n] eqn:En.
  { rewrite hexlify_length in En. destruct raw; [done|simpl in En; lia]. }
  rewrite <- En, take_app_length, int16_hex by done. rewrite Hp. cbn [mbind result_bind]. by rewrite Hd.
Qed.

(** ** The handshake *)

(** The server's side of the unsigned exchange: its challenge, and how it opens
    the answer with its own secret exponent. *)
Definition server_challenge (params : bytes) (public : Z) (tag : bytes) : res bytes :=
  inner ← encode_message STEP_SERVER_CERT [mkBucket BUCKET_RTAG tag];
  puk ← encode_public_blob params public;
  encode_message STEP_SERVER_CERT
    [mkBucket BUCKET_CRYPTOMOD (b_ "ssl"); mkBucket BUCKET_PUK puk; mkBucket BUCKET_MAIN inner].

Definition server_open (secret : Z) (response : bytes) : res (list Bucket) :=
  match find_bucket response BUCKET_PUK, find_bucket response BUCKET_MAIN with
  | Some puk, Some main =>
      peer ← parse_peer_blob puk;
      key ← session_key peer secret SESSION_KEY_LEN;
      plain ← cbc_decrypt key main (replicate 16 x00) true;
      '(_, bs) ← decode_message plain;
      Ok bs
  | _, _ => Err CredentialError
  end.

(** A group both sides agree on, written as the server writes it. *)
Definition group (params : bytes) (p g : Z) : Prop :=
  parse_dh_parameters params = Ok (p, g) /\ find_sub _BPUB (params ++ _BPUB) = Some (length params)
  /\ 0 < p /\ zlen params + 2 * byte_length p < 2 ^ 31.

Lemma byte_length_mono v p : 0 <= v -> v < p -> byte_length v <= byte_length p.
Proof.
  intros H0 Hv. unfold byte_length, bit_length. apply Z.div_le_mono; [lia|].
  destruct (Z.eqb_spec v 0); [destruct (Z.eqb_spec p 0); [lia|]; pose proof (Z.log2_nonneg (Z.abs p)); lia|].
  rewrite (proj2 (Z.eqb_neq p 0)) by lia. rewrite !Z.abs_eq by lia. pose proof (Z.log2_le_mono v p ltac:(lia)). lia.
Qed.

(** Both exponents give the one key, when the shared secret is long enough. *)
Lemma session_key_agree params p g a b :
  0 < p -> 0 <= a -> 0 <= b -> 16 <= byte_length (g ^ (a * b) mod p) ->
  exists k, zlen k = 16
    /\ session_key (mkPeer params p g (g ^ b mod p)) a 16 = Ok k
    /\ session_key (mkPeer params p g (g ^ a mod p)) b 16 = Ok k.
Proof.
  intros Hp Ha Hb Hl. set (s := g ^ (a * b) mod p) in *.
  assert (0 < s) as Hs.
  { pose proof (Z.mod_pos_bound (g ^ (a * b)) p Hp). destruct (Z.eq_dec s 0) as [E|]; [|unfold s in *; lia].
    rewrite E in Hl. vm_compute in Hl. done. }
  destruct (minimal_bytes s Hs) as (raw & Hr & _ & _ & Hrl).
  exists (slice_to raw 16). unfold session_key. cbn [dh_public dh_p].
  rewrite !py_pow_ok by lia. rewrite !pow_mod_l, <- !Z.pow_mul_r by done. cbn [mbind result_bind].
  rewrite (Z.mul_comm b a). fold s. rewrite Hr. cbn [mbind result_bind]. rewrite (proj2 (Z.ltb_ge _ _)) by lia.
  split; [|done]. unfold slice_to. cbn [Z.ltb Z.compare]. unfold zlen in *. rewrite length_take. lia.
Qed.

(** Neither public value is zero then. *)
Lemma dh_public_pos p g a b :
  0 < p -> 0 <= a -> 0 < b -> 16 <= byte_length (g ^ (a * b) mod p) -> 0 < g ^ a mod p.
Proof.
  intros Hp Ha Hb Hl. pose proof (Z.mod_pos_bound (g ^ a) p Hp).
  destruct (Z.eq_dec (g ^ a mod p) 0) as [E|]; [|lia].
  rewrite Z.pow_mul_r, <- pow_mod_l, E, Z.pow_0_l, Z.mod_0_l in Hl by lia. vm_compute in Hl. done.
Qed.

Section Handshake.
Variable hashlib : str -> bytes -> bytes.
Variable lower : str -> str.
Variable urandom : Z -> bytes.

(** The answer to a well-formed challenge, bucket by bucket. *)
Lemma cert_response_ok params p g a b chain key tag sig rtag :
  group params p g -> 0 < a -> 0 < b -> 16 <= byte_length (g ^ (a * b) mod p) ->
  tag <> [] -> zlen tag < 2 ^ 31 -> sign hashlib lower key tag None = Ok sig ->
  zlen chain + zlen sig + zlen rtag < 2 ^ 31 ->
  exists challenge k main puk response,
    server_challenge params (g ^ b mod p) tag = Ok challenge
    /\ build_cert_response hashlib lower urandom challenge chain key (Some a) (Some rtag) = Ok response
    /\ parse_peer_blob puk = Ok (mkPeer params p g (g ^ a mod p))
    /\ session_key (mkPeer params p g (g ^ a mod p)) b 16 = Ok k
    /\ cbc_decrypt k main (replicate 16 x00) true
       = encode_message STEP_CLIENT_CERT
           [mkBucket BUCKET_X509 chain; mkBucket BUCKET_SIGNED_RTAG sig; mkBucket BUCKET_RTAG rtag]
    /\ find_bucket response BUCKET_PUK = Some puk /\ find_bucket response BUCKET_MAIN = Some main.
Proof.
  intros (Hp & Hf & Hp0 & Hpl) Ha Hb Hl Htag Htl Hsig Hcl.
  assert (0 < g ^ a mod p) as Hpa by (apply (dh_public_pos p g a b); lia || done).
  assert (0 < g ^ b mod p) as Hpb by (apply (dh_public_pos p g b a); rewrite ?(Z.mul_comm b a); lia || done).
  pose proof (Z.mod_pos_bound (g ^ a) p Hp0). pose proof (Z.mod_pos_bound (g ^ b) p Hp0).
  pose proof (byte_length_mono (g ^ a mod p) p ltac:(lia) ltac:(lia)).
  pose proof (byte_length_mono (g ^ b mod p) p ltac:(lia) ltac:(lia)).
  pose proof (byte_length_nonneg p). pose proof (zlen_nonneg params). pose proof (zlen_nonneg tag).
  pose proof (zlen_nonneg chain). pose proof (zlen_nonneg sig). pose proof (zlen_nonneg rtag).
  change (2 ^ 31) with 2147483648 in *.
  assert (forall t d, 0 < t < 5000 -> zlen d < 4294967296 -> fits (mkBucket t d)) as Hfits.
  { intros t d Ht Hd. split; cbn [b_type b_data]; change (256 ^ 4) with 4294967296; lia. }
  destruct (public_blob_roundtrip params p g _ Hp Hf Hpb) as (pb & Epb & Lpb & Ppb).
  destruct (public_blob_roundtrip params p g _ Hp Hf Hpa) as (pa & Epa & Lpa & Ppa).
  destruct (session_key_agree params p g a b Hp0 ltac:(lia) ltac:(lia) Hl) as (k & Lk & Ka & Kb).
  destruct (message_find STEP_SERVER_CERT [mkBucket BUCKET_RTAG tag] BUCKET_RTAG) as (inner & Ei & _ & Li & Fi);
    [done|constructor; [apply Hfits; [done|lia]|constructor]|].
  cbn [fmap list_fmap concat] in Li. rewrite app_nil_r in Li. unfold bucket_bytes in Li.
  rewrite !zlen_app, !be_enc_zlen in Li. cbn [b_data] in Li.
  set (cb := [mkBucket BUCKET_CRYPTOMOD (b_ "ssl"); mkBucket BUCKET_PUK pb; mkBucket BUCKET_MAIN inner]).
  assert (Forall fits cb) as Hcb by (repeat apply Forall_cons_2; [apply Hfits; [done|]; first [done | lia]..|constructor]).
  destruct (message_find STEP_SERVER_CERT cb BUCKET_PUK) as (ch & Ec & _ & _ & Fp); [done|done|].
  destruct (message_find STEP_SERVER_CERT cb BUCKET_MAIN) as (ch' & Ec' & _ & _ & Fm); [done|done|].
  rewrite Ec in Ec'. apply Ok_inj in Ec' as <-. change (bucket_of BUCKET_PUK cb) with (Some pb) in Fp.
  change (bucket_of BUCKET_MAIN cb) with (Some inner) in Fm.
  set (ib := [mkBucket BUCKET_X509 chain; mkBucket BUCKET_SIGNED_RTAG sig; mkBucket BUCKET_RTAG rtag]).
  destruct (message_find STEP_CLIENT_CERT ib BUCKET_X509) as (plain & El & _ & Ll & _);
    [done|repeat apply Forall_cons_2; [apply Hfits; [done|lia]..|constructor]|].
  cbn [ib fmap list_fmap concat] in Ll. rewrite app_nil_r in Ll. unfold bucket_bytes in Ll.
  rewrite !zlen_app, !be_enc_zlen in Ll. cbn [b_data] in Ll.
  destruct (cbc_inv k plain (replicate 16 x00)) as (main & Em & _ & Lm & Dm); [rewrite Lk; left|done|].
  unfold BLOCK_SIZE in Lm.
  set (rb := [mkBucket BUCKET_CRYPTOMOD (b_ "ssl"); mkBucket BUCKET_PUK pa; mkBucket BUCKET_CIPHER_ALG (b_ "aes-128-cbc");
              mkBucket BUCKET_MD_ALG (b_ "sha256"); mkBucket BUCKET_MAIN main]).
  assert (Forall fits rb) as Hrb by (repeat apply Forall_cons_2; [apply Hfits; [done|]; first [done | lia]..|constructor]).
  destruct (message_find STEP_CLIENT_CERT rb BUCKET_PUK) as (rs & Er & _ & _ & Rp); [done|done|].
  destruct (message_find STEP_CLIENT_CERT rb BUCKET_MAIN) as (rs' & Er' & _ & _ & Rm); [done|done|].
  rewrite Er in Er'. apply Ok_inj in Er' as <-.
  exists ch, k, main, pa, rs. split_and!; [|..]; try done.
  - unfold server_challenge. rewrite Ei. cbn [mbind result_bind]. rewrite Epb. cbn [mbind result_bind]. exact Ec.
  - unfold build_cert_response. rewrite Fp, Ppb. cbn [mbind result_bind]. unfold SESSION_KEY_LEN. rewrite Ka. cbn [mbind result_bind].
    rewrite Fm. cbn [mbind option_bind]. rewrite Fi. change (bucket_of BUCKET_RTAG [mkBucket BUCKET_RTAG tag]) with (Some tag).
    destruct tag as [|t0 tag]; [done|]. rewrite Hsig. cbn [mbind result_bind].
    change ([mkBucket BUCKET_X509 chain] ++ [mkBucket BUCKET_SIGNED_RTAG sig] ++ [mkBucket BUCKET_RTAG (default (urandom RTAG_LEN) (Some rtag))])
      with ib. rewrite El. cbn [mbind result_bind]. rewrite Em. cbn [mbind result_bind dh_g dh_p params_pem].
    rewrite py_pow_ok by lia. cbn [mbind result_bind]. rewrite Epa. cbn [mbind result_bind]. exact Er.
  - rewrite Dm. by rewrite <- El.
Qed.

(** C28: The GSI handshake completes. A server challenges with its parameters,
    its Diffie-Hellman public value and a tag; the client answers with a valid
    RSA key. Opening that answer with its own secret exponent, the server
    derives the same session key, decrypts, and finds the proxy chain exactly
    as sent, the client's tag, and a signature over the server's tag that
    verifies under the client's public key. *)
Theorem gsi_handshake params p g a b chain key tag rtag block :
  group params p g -> 0 < a -> 0 < b -> 16 <= byte_length (g ^ (a * b) mod p) ->
  valid_key key -> _pkcs1_v15_pad hashlib lower tag (byte_length (rsa_n key)) None = Ok block ->
  tag <> [] -> zlen chain + byte_length (rsa_n key) + zlen rtag < 2 ^ 31 ->
  exists challenge response sig,
    server_challenge params (g ^ b mod p) tag = Ok challenge
    /\ build_cert_response hashlib lower urandom challenge chain key (Some a) (Some rtag) = Ok response
    /\ server_open b response
       = Ok [mkBucket BUCKET_X509 chain; mkBucket BUCKET_SIGNED_RTAG sig; mkBucket BUCKET_RTAG rtag]
    /\ verify hashlib lower (public key) tag sig None = Ok true.
Proof.
  intros Hg Ha Hb Hl Hk Hpad Htag Hsz. destruct (sign_ok hashlib lower key tag None block Hk Hpad) as (sig & Hs & Lsig & Hv).
  pose proof (zlen_nonneg chain). pose proof (zlen_nonneg rtag).
  assert (zlen tag < 2 ^ 31) as Htl.
  { unfold _pkcs1_v15_pad in Hpad. apply bind_ok_inv in Hpad as (m & Hm & Hpad). injection Hm as <-.
    destruct (Z.ltb_spec (byte_length (rsa_n key)) (zlen tag + 11)); [done|]. lia. }
  destruct (cert_response_ok params p g a b chain key tag sig rtag Hg Ha Hb Hl Htag Htl Hs ltac:(lia))
    as (ch & k & main & puk & rs & Ech & Ers & Ppuk & Kb & Hdec & Fpuk & Fmain).
  exists ch, rs, sig. split_and!; [done|done| |done]. unfold server_open. rewrite Fpuk, Fmain, Ppuk. cbn [mbind result_bind].
  unfold SESSION_KEY_LEN. rewrite Kb. cbn [mbind result_bind]. rewrite Hdec.
  set (ib := [mkBucket BUCKET_X509 chain; mkBucket BUCKET_SIGNED_RTAG sig; mkBucket BUCKET_RTAG rtag]).
  pose proof (zlen_nonneg sig). change (2 ^ 31) with 2147483648 in *.
  destruct (message_find STEP_CLIENT_CERT ib BUCKET_X509) as (plain & El & Dl & _ & _); [done| |].
  { repeat apply Forall_cons_2; [split; cbn [b_type b_data]; [done|change (256 ^ 4) with 4294967296; lia]..|constructor]. }
  rewrite El. cbn [mbind result_bind]. rewrite Dl. done.
Qed.
End Handshake.

Definition demo_params : bytes :=
  b_ "-----BEGIN DH PARAMETERS-----" ++ [x0a] ++ b_ "MB0CGGAAAAAAAAAAAAAAAAAAAAAAAAAAAAAAAQIBBQ==" ++ [x0a]
  ++ b_ "-----END DH PARAMETERS-----" ++ [x0a].

Lemma demo_group : group demo_params demo_p 5.
Proof. split_and!; vm_compute; done. Qed.

Lemma gsi_handshake_witness :
  exists challenge response sig,
    server_challenge demo_params (5 ^ 11 mod demo_p) (b_ "8 bytes.") = Ok challenge
    /\ build_cert_response (fun _ b => b) (fun s => s) (fun _ => []) challenge (b_ "chain") demo_rsa (Some 7) (Some (b_ "my tag"))
       = Ok response
    /\ server_open 11 response
       = Ok [mkBucket BUCKET_X509 (b_ "chain"); mkBucket BUCKET_SIGNED_RTAG sig; mkBucket BUCKET_RTAG (b_ "my tag")]
    /\ verify (fun _ b => b) (fun s => s) (public demo_rsa) (b_ "8 bytes.") sig None = Ok true.
Proof.
  eapply (gsi_handshake (fun _ b => b) (fun s => s) (fun _ => []) demo_params demo_p 5 7 11 (b_ "chain") demo_rsa
           (b_ "8 bytes.") (b_ "my tag"));
    [exact demo_group | reflexivity | reflexivity | vm_compute; discriminate | exact demo_valid
    | vm_compute; reflexivity | discriminate | vm_compute; reflexivity].
Defined.
