(* ===== verification/X509.v ===== *)
(** * X.509 certificates and proxies

    src/xrd/crypto/x509.py: reading the certificates a proxy file carries,
    when they expire, and the PEM the handshake sends. The clock is an
    argument, and so are the file's bytes; names are shown by [Name.__str__]
    and never compared, except to recognise a proxy. *)

From S2P Require Import Prelude PyStr Errors Buffer Words Der Rsa.
From Stdlib Require Import QArith.
Open Scope Z_scope.

Module X509.

Definition _ATTRIBUTE_NAMES : dict str str :=
  [(s_ "2.5.4.3", s_ "CN"); (s_ "2.5.4.6", s_ "C"); (s_ "2.5.4.7", s_ "L"); (s_ "2.5.4.8", s_ "ST");
   (s_ "2.5.4.10", s_ "O"); (s_ "2.5.4.11", s_ "OU"); (s_ "2.5.4.5", s_ "serialNumber");
   (s_ "1.2.840.113549.1.9.1", s_ "emailAddress"); (s_ "0.9.2342.19200300.100.1.25", s_ "DC");
   (s_ "0.9.2342.19200300.100.1.1", s_ "UID")].

Definition PROXY_CERT_INFO_OID : str := s_ "1.3.6.1.5.5.7.1.14".
Definition LEGACY_PROXY_OID : str := s_ "1.3.6.1.4.1.3536.1.222".
Definition TAG_UTC_TIME : Z := 0x17.
Definition TAG_GENERALIZED_TIME : Z := 0x18.

(** ** Names *)

Definition Name := list (str * str).

(** [value.decode("utf-16-be", "replace")]. *)
Fixpoint utf16_decode (l : bytes) : str :=
  match l with
  | [] => []
  | [_] => [0xFFFD]
  | h :: lo :: l1 =>
      let u := 256 * b2z h + b2z lo in
      if (0xD800 <=? u) && (u <? 0xDC00) then
        match l1 with
        | h2 :: lo2 :: l2 =>
            let u2 := 256 * b2z h2 + b2z lo2 in
            if (0xDC00 <=? u2) && (u2 <? 0xE000)
            then 0x10000 + (u - 0xD800) * 1024 + (u2 - 0xDC00) :: utf16_decode l2
            else 0xFFFD :: utf16_decode l1
        | _ => [0xFFFD]
        end
      else if (0xDC00 <=? u) && (u <? 0xE000) then 0xFFFD :: utf16_decode l1
      else u :: utf16_decode l1
  end.

Definition _decode_string (e : Element) : str :=
  if tag e =? 0x1E then utf16_decode (value e) else utf8_decode (value e).

(** One attribute of a relative name; what is not a pair is passed over. *)
Definition decode_attribute (attribute : Element) : res (list (str * str)) :=
  parts ← children attribute;
  match (parts : list Element) with
  | [oid; v] =>
      key ← oid_string oid;
      Ok [(default key (dict_get key _ATTRIBUTE_NAMES), _decode_string v)]
  | _ => Ok []
  end.

Definition _decode_name (e : Element) : res Name :=
  rdns ← children e;
  pairs ← mapM_res (fun rdn => attributes ← children rdn; ps ← mapM_res decode_attribute attributes; Ok (concat ps)) rdns;
  Ok (concat pairs).

Definition name_str (n : Name) : str := concat ((fun kv => s_ "/" ++ kv.1 ++ s_ "=" ++ kv.2) <$> n).

(** ** Times *)

Definition digit (c : Z) : option Z := if (48 <=? c) && (c <=? 57) then Some (c - 48) else None.

(** The ways a field of a time matches, most preferred first: two digits
    within bounds, or one digit not below [lo]. *)
Definition field (lo hi : Z) (s : str) : list (Z * str) :=
  (match s with
   | a :: b :: r => match digit a, digit b with
                    | Some x, Some y => let v := 10 * x + y in if (lo <=? v) && (v <=? hi) then [(v, r)] else []
                    | _, _ => []
                    end
   | _ => []
   end) ++
  (match s with
   | a :: r => match digit a with Some x => if lo <=? x then [(x, r)] else [] | None => [] end
   | [] => []
   end).

(** The day of the month may also be a blank and a digit. *)
Definition day_field (s : str) : list (Z * str) :=
  field 1 31 s ++
  match s with
  | 0x20 :: a :: r => match digit a with Some x => if 1 <=? x then [(x, r)] else [] | None => [] end
  | _ => []
  end.

Definition year_field (s : str) : list (Z * str) :=
  match s with
  | a :: b :: c :: d :: r =>
      match digit a, digit b, digit c, digit d with
      | Some w, Some x, Some y, Some z => [(1000 * w + 100 * x + 10 * y + z, r)]
      | _, _, _, _ => []
      end
  | _ => []
  end.

Definition leap (y : Z) : bool := (y mod 4 =? 0) && (negb (y mod 100 =? 0) || (y mod 400 =? 0)).
Definition month_days (y m : Z) : Z :=
  if m =? 2 then (if leap y then 29 else 28)
  else if bool_decide (m ∈ [4; 6; 9; 11]) then 30 else 31.

(** Days from the epoch to the first of a month. *)
Definition days_before (y m : Z) : Z :=
  let y1 := y - 1 in
  365 * y1 + y1 / 4 - y1 / 100 + y1 / 400
  + foldl (fun acc k => acc + month_days y k) 0 (range 1 m) - 719162.

(** [time.strptime(text, "%Y%m%d%H%M%S")] and [calendar.timegm]. *)
Definition strptime_utc (text : str) : res Z :=
  let matches :=
    '(y, s) ← year_field text; '(mo, s) ← field 1 12 s; '(d, s) ← day_field s;
    '(h, s) ← field 0 23 s; '(mi, s) ← field 0 59 s; '(sec, s) ← field 0 61 s;
    [(y, mo, d, h, mi, sec, s)] in
  match (matches : list _) with
  | (y, mo, d, h, mi, sec, []) :: _ =>
      if (y =? 0) || (month_days y mo <? d) then Err ValueError
      else Ok ((((days_before y mo + d - 1) * 24 + h) * 60 + mi) * 60 + sec)
  | _ => Err ValueError
  end.

Definition _decode_time (e : Element) : res Z :=
  let text := strip (ascii_decode (value e)) in
  let text := if endswith (s_ "Z") text then slice_to text (-1) else text in
  text ←
    (if tag e =? TAG_UTC_TIME then
       if zlen text <? 10 then Err DERError else
       match py_int (slice_to text 2) with
       | None => Err ValueError
       | Some year => Ok (s_ (pretty (if year <? 50 then 2000 + year else 1900 + year)) ++ slice_from text 2)
       end
     else if negb (tag e =? TAG_GENERALIZED_TIME) then Err DERError
     else Ok text);
  strptime_utc (slice_to (text ++ s_ "000000") 14).

(** ** Certificates *)

Record Certificate := mkCert {
  subject : Name; issuer : Name; serial : Z; not_before : Z; not_after : Z;
  public_key : option RSAPublicKey; extensions : list str; der : bytes
}.

(** [fields[i]]. *)
Definition at_index (l : list Element) (i : nat) : res Element :=
  match l !! i with Some x => Ok x | None => Err IndexError end.

(** The identifiers of the extensions, where there are any. *)
Definition extension_ids (extra : Element) : res (list str) :=
  if negb (tag extra =? 0xA3) then Ok [] else
  es ← children extra;
  e ← first es;
  exts ← children e;
  ids ← mapM_res (fun ext => parts ← children ext;
                  match (parts : list Element) with
                  | oid :: _ => s ← oid_string oid; Ok [s]
                  | [] => Ok []
                  end) exts;
  Ok (concat ids).

Definition _parse_certificate (der : bytes) : res Certificate :=
  '(certificate, _) ← parse der 0;
  cs ← children certificate;
  tbs ← first cs;
  fields ← children tbs;
  let index := match (fields : list Element) with f :: _ => if tag f =? 0xA0 then 1%nat else 0%nat | [] => 0%nat end in
  if (length fields <? index + 6)%nat then Err DERError else
  f0 ← at_index fields index;
  serial ← (if tag f0 =? TAG_INTEGER then read_integer f0 else Ok 0);
  f2 ← at_index fields (index + 2);
  issuer ← _decode_name f2;
  f3 ← at_index fields (index + 3);
  validity ← children f3;
  match (validity : list Element) with
  | [from; until_] =>
      f4 ← at_index fields (index + 4);
      subject ← _decode_name f4;
      f5 ← at_index fields (index + 5);
      spki ← children f5;
      key ← match (spki : list Element) with
            | [_; bits] =>
                if tag bits =? TAG_BIT_STRING then
                  match public_key_from_bitstring bits with
                  | Ok k => Ok (Some k)
                  | Err DERError => Ok None
                  | Err e => Err e
                  end
                else Ok None
            | _ => Ok None
            end;
      exts ← mapM_res extension_ids (drop (index + 6) fields);
      nb ← _decode_time from;
      na ← _decode_time until_;
      Ok (mkCert subject issuer serial nb na key (concat exts) der)
  | _ => Err DERError
  end.

Definition is_proxy (c : Certificate) : bool :=
  bool_decide (PROXY_CERT_INFO_OID ∈ extensions c) || bool_decide (LEGACY_PROXY_OID ∈ extensions c)
  || (negb (bool_decide (subject c = [])) && bool_decide (slice_to (subject c) (-1) = issuer c)).

Definition cert_expired (now : Q) (c : Certificate) : bool := Qle_bool (inject_Z (not_after c)) now.

(** ** PEM *)

Definition b64_digit (v : Z) : Z :=
  if v <? 26 then v + 65 else if v <? 52 then v + 71 else if v <? 62 then v - 4 else if v =? 62 then 43 else 47.

(** [base64.b64encode(b).decode("ascii")]. *)
Fixpoint b64encode (b : bytes) : str :=
  match b with
  | [] => []
  | [x] => [b64_digit (b2z x / 4); b64_digit (b2z x mod 4 * 16); 61; 61]
  | [x; y] => [b64_digit (b2z x / 4); b64_digit (b2z x mod 4 * 16 + b2z y / 16); b64_digit (b2z y mod 16 * 4); 61]
  | x :: y :: z :: b =>
      b64_digit (b2z x / 4) :: b64_digit (b2z x mod 4 * 16 + b2z y / 16)
      :: b64_digit (b2z y mod 16 * 4 + b2z z / 64) :: b64_digit (b2z z mod 64) :: b64encode b
  end.

(** [textwrap.wrap(s, 64)] of a text without blanks or dashes; [fuel] is the
    length of the text. *)
Fixpoint wrap64 (fuel : nat) (s : str) : list str :=
  match fuel, s with
  | O, _ | _, [] => []
  | S fuel, _ => take 64 s :: wrap64 fuel (drop 64 s)
  end.

Definition cert_pem_text (der : bytes) : str :=
  let b64 := b64encode der in
  s_ "-----BEGIN CERTIFICATE-----" ++ [0x0A] ++ join 0x0A (wrap64 (length b64) b64) ++ [0x0A]
  ++ s_ "-----END CERTIFICATE-----" ++ [0x0A].

Definition cert_pem (c : Certificate) : bytes := to_bytes (cert_pem_text (der c)).

(** ** Proxies *)

(** The blocks that are certificates, skipping the ones that will not parse. *)
Fixpoint certificates_of (blocks : list (str * bytes)) : res (list Certificate) :=
  match blocks with
  | [] => Ok []
  | (label, der) :: blocks =>
      if negb (bool_decide (label = s_ "CERTIFICATE")) then certificates_of blocks else
      match _parse_certificate der with
      | Ok c => cs ← certificates_of blocks; Ok (c :: cs)
      | Err e => if is_value_error e then certificates_of blocks else Err e
      end
  end.

Definition load_certificates (data : bytes) : res (list Certificate) := certificates_of (pem_blocks data).

Record ProxyCredential := mkProxy { chain : list Certificate; proxy_key : RSAPrivateKey }.

Definition proxy_expired (now : Q) (p : ProxyCredential) : bool := existsb (cert_expired now) (chain p).

Definition proxy_pem (p : ProxyCredential) : bytes := concat (cert_pem <$> chain p).

Definition load_proxy (data : bytes) : res ProxyCredential :=
  chain ← load_certificates data;
  match (chain : list Certificate) with
  | [] => Err DERError
  | _ => key ← load_private_key data None; Ok (mkProxy chain key)
  end.

End X509.
