(* ===== verification/X509Props.v ===== *)
(** * What the handshake sends is what was read

    Base-64 and PEM read back as written, so the chain of a proxy reaches the
    server as the certificates that were loaded; and the one certificate
    block that is not skipped when it should be. *)

From S2P Require Import Prelude PyStr Errors Buffer Words Der Rsa X509.
Open Scope Z_scope.

Import X509.

(** ** Base 64 *)

Definition b64_ok (v : Z) : bool :=
  match b64_value (b64_digit v) with Some w => w =? v | None => false end
  && negb (b64_digit v =? 61) && (33 <=? b64_digit v) && (b64_digit v <? 0x80) && negb (b64_digit v =? 45).

Lemma b64_digit_ok v : 0 <= v < 64 -> b64_ok v = true.
Proof.
  intros Hv. assert (forallb b64_ok (seqZ 0 64) = true) as H by (by vm_compute).
  rewrite forallb_forall in H. apply H, list_elem_of_In, elem_of_seqZ. lia.
Qed.

(** A character of base-64 text. *)
Definition b64_char (c : Z) : Prop := 33 <= c < 0x80 /\ c <> 45.

Lemma b64_digit_spec v : 0 <= v < 64 ->
  b64_value (b64_digit v) = Some v /\ b64_digit v <> 61 /\ b64_char (b64_digit v).
Proof.
  intros Hv. pose proof (b64_digit_ok v Hv) as H. unfold b64_ok in H.
  destruct (b64_value (b64_digit v)) as [w|]; [|done]. zbool. subst. unfold b64_char. split_and!; done || lia.
Qed.

(** Three bytes as four digits, and back. *)
Lemma quad_split x y z : is_byte x -> is_byte y -> is_byte z ->
  let a := x / 4 in let b := x mod 4 * 16 + y / 16 in let c := y mod 16 * 4 + z / 64 in let d := z mod 64 in
  (0 <= a < 64 /\ 0 <= b < 64 /\ 0 <= c < 64 /\ 0 <= d < 64)
  /\ Z.lor (Z.shiftl a 2) (Z.shiftr b 4) = x
  /\ Z.lor (Z.shiftl (Z.land b 0x0F) 4) (Z.shiftr c 2) = y
  /\ Z.lor (Z.shiftl (Z.land c 0x03) 6) d = z.
Proof.
  intros [Hx0 Hx] [Hy0 Hy] [Hz0 Hz]. change (2 ^ 8) with 256 in *. cbv zeta.
  pose proof (Z.div_mod x 4 ltac:(lia)). pose proof (Z.mod_pos_bound x 4 ltac:(lia)).
  pose proof (Z.div_mod y 16 ltac:(lia)). pose proof (Z.mod_pos_bound y 16 ltac:(lia)).
  pose proof (Z.div_mod z 64 ltac:(lia)). pose proof (Z.mod_pos_bound z 64 ltac:(lia)).
  set (xq := x / 4) in *. set (xr := x mod 4) in *. set (yq := y / 16) in *. set (yr := y mod 16) in *.
  set (zq := z / 64) in *. set (zr := z mod 64) in *.
  assert (0 <= xq < 64 /\ 0 <= yq < 16 /\ 0 <= zq < 4) as (? & ? & ?) by lia.
  change 0x0F with (2 ^ 4 - 1). change 0x03 with (2 ^ 2 - 1). rewrite !land_mask, !Z.shiftr_div_pow2 by lia.
  change (2 ^ 4) with 16. change (2 ^ 2) with 4.
  assert ((xr * 16 + yq) / 16 = xr) as -> by (rewrite Z.div_add_l, Z.div_small by lia; lia).
  assert ((xr * 16 + yq) mod 16 = yq) as -> by (rewrite Z.add_comm, Z.mod_add, Z.mod_small by lia; lia).
  assert ((yr * 4 + zq) / 4 = yr) as -> by (rewrite Z.div_add_l, Z.div_small by lia; lia).
  assert ((yr * 4 + zq) mod 4 = zq) as -> by (rewrite Z.add_comm, Z.mod_add, Z.mod_small by lia; lia).
  rewrite !lor_shiftl by (first [lia | unfold in_width; change (2 ^ 2) with 4; change (2 ^ 4) with 16; change (2 ^ 6) with 64; lia]).
  change (2 ^ 2) with 4. change (2 ^ 4) with 16. change (2 ^ 6) with 64. lia.
Qed.

Lemma a2b_digit v quad left_ pads s : 0 <= v < 64 ->
  a2b_base64 (b64_digit v :: s) quad left_ pads =
    if quad =? 0 then a2b_base64 s 1 v 0
    else if quad =? 1 then
      t ← a2b_base64 s 2 (Z.land v 0x0F) 0; Ok (z2b (Z.lor (Z.shiftl left_ 2) (Z.shiftr v 4)) :: t)
    else if quad =? 2 then
      t ← a2b_base64 s 3 (Z.land v 0x03) 0; Ok (z2b (Z.lor (Z.shiftl left_ 4) (Z.shiftr v 2)) :: t)
    else t ← a2b_base64 s 0 0 0; Ok (z2b (Z.lor (Z.shiftl left_ 6) v) :: t).
Proof.
  intros Hv. destruct (b64_digit_spec v Hv) as (Hval & Hne & _). cbn [a2b_base64].
  rewrite (proj2 (Z.eqb_neq _ 61)) by done. by rewrite Hval.
Qed.

(** Induction by groups of three. *)
Lemma bytes_ind3 (P : bytes -> Prop) :
  P [] -> (forall x, P [x]) -> (forall x y, P [x; y]) -> (forall x y z b, P b -> P (x :: y :: z :: b)) -> forall b, P b.
Proof.
  intros H0 H1 H2 H3. assert (forall n b, (length b < n)%nat -> P b) as H; [|intros b; by apply (H (S (length b))); lia].
  induction n as [|n IH]; [lia|]. intros [|x [|y [|z b]]] Hl; [done|done|done|].
  apply H3, IH. simpl in Hl. lia.
Qed.

Lemma b64_roundtrip b : a2b_base64 (b64encode b) 0 0 0 = Ok b.
Proof.
  induction b as [|x|x y|x y z b IH] using bytes_ind3; [done|..].
  - destruct (quad_split (b2z x) 0 0) as ((Ha & Hb & _) & E1 & _); [apply b2z_is_byte|done..|].
    cbn [b64encode]. replace (b2z x mod 4 * 16) with (b2z x mod 4 * 16 + 0 / 16) by (change (0 / 16) with 0; lia).
    rewrite a2b_digit by done. cbn [Z.eqb]. rewrite a2b_digit by done. cbn [Z.eqb Pos.eqb a2b_base64 Z.leb Z.compare Pos.compare].
    rewrite E1. cbn. by rewrite z2b_b2z.
  - destruct (quad_split (b2z x) (b2z y) 0) as ((Ha & Hb & Hc & _) & E1 & E2 & _); [apply b2z_is_byte..|done|].
    cbn [b64encode]. replace (b2z y mod 16 * 4) with (b2z y mod 16 * 4 + 0 / 64) by (change (0 / 64) with 0; lia).
    rewrite a2b_digit by done. cbn [Z.eqb]. rewrite a2b_digit by done. cbn [Z.eqb Pos.eqb]. rewrite a2b_digit by done.
    cbn [Z.eqb Pos.eqb a2b_base64]. rewrite E1, E2. cbn. by rewrite !z2b_b2z.
  - destruct (quad_split (b2z x) (b2z y) (b2z z)) as ((Ha & Hb & Hc & Hd) & E1 & E2 & E3); [apply b2z_is_byte..|].
    cbn [b64encode]. rewrite a2b_digit by done. cbn [Z.eqb]. rewrite a2b_digit by done. cbn [Z.eqb Pos.eqb].
    rewrite a2b_digit by done. cbn [Z.eqb Pos.eqb]. rewrite a2b_digit by done. cbn [Z.eqb Pos.eqb].
    rewrite IH, E1, E2, E3. cbn. by rewrite !z2b_b2z.
Qed.

Lemma b64encode_chars b : Forall b64_char (b64encode b).
Proof.
  assert (b64_char 61) by (unfold b64_char; lia).
  induction b as [|x|x y|x y z b IH] using bytes_ind3; [constructor|..]; cbn [b64encode].
  - destruct (quad_split (b2z x) 0 0) as ((Ha & Hb & _) & _); [apply b2z_is_byte|done..|].
    replace (b2z x mod 4 * 16) with (b2z x mod 4 * 16 + 0 / 16) by (change (0 / 16) with 0; lia).
    repeat apply Forall_cons_2; try done; by apply b64_digit_spec.
  - destruct (quad_split (b2z x) (b2z y) 0) as ((Ha & Hb & Hc & _) & _); [apply b2z_is_byte..|done|].
    replace (b2z y mod 16 * 4) with (b2z y mod 16 * 4 + 0 / 64) by (change (0 / 64) with 0; lia).
    repeat apply Forall_cons_2; try done; by apply b64_digit_spec.
  - destruct (quad_split (b2z x) (b2z y) (b2z z)) as ((Ha & Hb & Hc & Hd) & _); [apply b2z_is_byte..|].
    repeat apply Forall_cons_2; try done; by apply b64_digit_spec.
Qed.

Lemma b64decode_encode b : b64decode (b64encode b) = Ok b.
Proof.
  unfold b64decode. rewrite (proj2 (forallb_forall _ _)); [apply b64_roundtrip|].
  intros c Hc%list_elem_of_In. pose proof (b64encode_chars b) as H. rewrite Forall_forall in H. apply H in Hc as [? _].
  apply Z.ltb_lt. lia.
Qed.

(** ** Lines *)

Lemma wrap64_concat fuel s : (length s <= fuel)%nat -> concat (wrap64 fuel s) = s.
Proof.
  revert s. induction fuel as [|fuel IH]; intros s Hf; [by destruct s; simpl in *; [|lia]|].
  destruct s as [|c s]; [done|]. cbn [wrap64]. rewrite List.concat_cons, IH; [apply take_drop|].
  rewrite length_drop. simpl in *. lia.
Qed.

Lemma wrap64_Forall (P : Z -> Prop) fuel s : Forall P s -> Forall (Forall P) (wrap64 fuel s).
Proof.
  revert s. induction fuel as [|fuel IH]; intros s Hs; [constructor|].
  destruct s as [|c s]; [constructor|]. cbn [wrap64]. constructor; [by apply Forall_take | by apply IH, Forall_drop].
Qed.

Lemma wrap64_nonempty fuel s : Forall (fun l => l <> []) (wrap64 fuel s).
Proof. revert s. induction fuel as [|fuel IH]; intros [|c s]; constructor; [done|apply IH]. Qed.

(** A line without breaks, up to its newline. *)
Lemma splitlines_line cur line rest :
  Forall (fun c => is_line_break c = false) line -> splitlines cur (line ++ 0x0A :: rest) = (reverse cur ++ line) :: splitlines [] rest.
Proof.
  intros H. revert cur. induction H as [|c line Hc _ IH]; intros cur.
  - rewrite app_nil_r. cbn [app splitlines]. change (is_line_break 0x0A) with true. cbn iota. f_equal. by destruct rest.
  - cbn [app splitlines]. rewrite Hc, IH, reverse_cons, <- app_assoc. done.
Qed.

Lemma splitlines_lines lines rest :
  Forall (Forall (fun c => is_line_break c = false)) lines ->
  splitlines [] (concat ((fun l => l ++ [0x0A]) <$> lines) ++ rest) = lines ++ splitlines [] rest.
Proof.
  induction 1 as [|l lines Hl _ IH]; [done|]. rewrite fmap_cons, List.concat_cons, <- !app_assoc. cbn [app].
  rewrite splitlines_line by done. cbn [reverse rev_append app]. by rewrite IH.
Qed.

(** The lines of one certificate's PEM. *)
Definition pem_begin : str := s_ "-----BEGIN CERTIFICATE-----".
Definition pem_end : str := s_ "-----END CERTIFICATE-----".
Definition body_lines (der : bytes) : list str :=
  match wrap64 (length (b64encode der)) (b64encode der) with [] => [[]] | ls => ls end.

Lemma join_lines ls : ls <> [] -> join 0x0A ls ++ [0x0A] = concat ((fun l => l ++ [0x0A]) <$> ls).
Proof.
  induction ls as [|l ls IH]; [done|]. intros _. destruct ls as [|l' ls]; [cbn; by rewrite app_nil_r|].
  change (join 0x0A (l :: l' :: ls)) with (l ++ 0x0A :: join 0x0A (l' :: ls)).
  rewrite <- app_assoc. cbn [app]. rewrite IH by done. rewrite !fmap_cons, !List.concat_cons, <- !app_assoc. done.
Qed.

Lemma cert_pem_lines der :
  cert_pem_text der = concat ((fun l => l ++ [0x0A]) <$> (pem_begin :: body_lines der ++ [pem_end])).
Proof.
  rewrite fmap_cons, fmap_app, List.concat_cons, List.concat_app. cbn [fmap list_fmap concat]. rewrite app_nil_r.
  unfold cert_pem_text. cbv zeta. fold pem_begin pem_end. rewrite <- !app_assoc. do 2 f_equal. rewrite !app_assoc. do 2 f_equal.
  unfold body_lines. destruct (wrap64 _ _) as [|l ls]; [done|]. by apply join_lines.
Qed.

Lemma body_chars der : Forall (Forall b64_char) (body_lines der) /\ concat (body_lines der) = b64encode der.
Proof.
  unfold body_lines. pose proof (wrap64_Forall b64_char (length (b64encode der)) _ (b64encode_chars der)) as Hw.
  pose proof (wrap64_concat (length (b64encode der)) (b64encode der) (le_n _)) as Hc.
  destruct (wrap64 _ _); [split; [repeat constructor | done] | done].
Qed.

Lemma b64_char_plain c : b64_char c -> is_space c = false /\ is_line_break c = false.
Proof.
  intros [Hc _]. split.
  - unfold is_space. repeat match goal with |- context [?a <=? ?b] => destruct (Z.leb_spec a b); try lia
      | |- context [?a =? ?b] => destruct (Z.eqb_spec a b); try lia end; done.
  - unfold is_line_break. apply bool_decide_eq_false. intros Hin.
    repeat (apply elem_of_cons in Hin as [Hin|Hin]; [lia|]). inversion Hin.
Qed.

Lemma pem_body ls rest l body :
  Forall (Forall b64_char) ls -> pem_lines (ls ++ rest) (Some l) body = pem_lines rest (Some l) (body ++ ls).
Proof.
  intros H. revert body. induction H as [|line ls Hl _ IH]; intros body; [by rewrite app_nil_r|].
  cbn [app pem_lines].
  assert (strip line = line) as ->.
  { apply strip_none. eapply Forall_impl; [exact Hl|]. intros c Hc. by apply b64_char_plain. }
  assert (forall c pre, c = 45 -> startswith (c :: pre) line = false) as Hs.
  { intros c pre ->. destruct Hl as [|x line [_ Hx] _]; [done|]. simpl. by rewrite bool_decide_eq_false_2. }
  change (s_ "-----BEGIN ") with (45 :: tail (s_ "-----BEGIN ")). change (s_ "-----END ") with (45 :: tail (s_ "-----END ")).
  rewrite !Hs by done. cbn [andb]. rewrite IH, <- app_assoc. done.
Qed.

Lemma pem_one der rest :
  pem_lines (pem_begin :: body_lines der ++ pem_end :: rest) None [] = (s_ "CERTIFICATE", der) :: pem_lines rest None [].
Proof.
  cbn [pem_lines]. change (strip pem_begin) with pem_begin.
  change (startswith (s_ "-----BEGIN ") pem_begin && endswith DASHES pem_begin) with true. cbn iota.
  change (pem_label 11 pem_begin) with (s_ "CERTIFICATE"). destruct (body_chars der) as [Hb Hc].
  rewrite pem_body by done. cbn [pem_lines app]. change (strip pem_end) with pem_end.
  change (startswith (s_ "-----BEGIN ") pem_end && endswith DASHES pem_end) with false.
  change (startswith (s_ "-----END ") pem_end && endswith DASHES pem_end) with true. cbn iota.
  change (pem_label 9 pem_end) with (s_ "CERTIFICATE"). rewrite bool_decide_eq_true_2 by done.
  by rewrite Hc, b64decode_encode.
Qed.

(** Text of seven-bit characters survives being made bytes and decoded. *)
Lemma ascii_roundtrip s : Forall (fun c => 0 <= c < 0x80) s -> ascii_decode (to_bytes s) = s.
Proof.
  induction 1 as [|c s Hc _ IH]; [done|]. unfold ascii_decode, to_bytes in *. rewrite !fmap_cons, IH, b2z_z2b by lia.
  by rewrite (proj2 (Z.ltb_lt _ _)) by lia.
Qed.

Definition cert_lines (der : bytes) : list str := pem_begin :: body_lines der ++ [pem_end].

Lemma closed_ascii (s : str) : forallb (fun c => (0 <=? c) && (c <? 0x80) && negb (is_line_break c)) s = true ->
  Forall (fun c => 0 <= c < 0x80) s /\ Forall (fun c => is_line_break c = false) s.
Proof.
  rewrite forallb_forall. intros H. split; apply Forall_forall; intros c Hc%list_elem_of_In; apply H in Hc; zbool; done || lia.
Qed.

Lemma cert_lines_ok der :
  Forall (Forall (fun c => 0 <= c < 0x80)) (cert_lines der) /\ Forall (Forall (fun c => is_line_break c = false)) (cert_lines der).
Proof.
  destruct (closed_ascii pem_begin ltac:(by vm_compute)) as [? ?]. destruct (closed_ascii pem_end ltac:(by vm_compute)) as [? ?].
  destruct (body_chars der) as [Hb _]. unfold cert_lines. split; (apply Forall_cons_2; [done|]); apply Forall_app; (split; [|by repeat constructor]).
  - eapply Forall_impl; [exact Hb|]. intros l Hl. eapply Forall_impl; [exact Hl|]. intros c [? _]. lia.
  - eapply Forall_impl; [exact Hb|]. intros l Hl. eapply Forall_impl; [exact Hl|]. intros c Hc. by apply b64_char_plain.
Qed.

Lemma pem_text_blocks ders :
  pem_lines (splitlines [] (concat (cert_pem_text <$> ders))) None [] = (fun d => (s_ "CERTIFICATE", d)) <$> ders.
Proof.
  induction ders as [|d ders IH]; [done|]. rewrite !fmap_cons, List.concat_cons, cert_pem_lines.
  rewrite splitlines_lines by apply cert_lines_ok. cbn [app]. rewrite <- app_assoc. cbn [app]. rewrite pem_one. by rewrite IH.
Qed.

(** The PEM of any list of certificates splits into exactly their DER, in order. *)
Lemma chain_blocks cs : pem_blocks (concat (cert_pem <$> cs)) = (fun c => (s_ "CERTIFICATE", der c)) <$> cs.
Proof.
  unfold pem_blocks.
  assert (concat (cert_pem <$> cs) = to_bytes (concat (cert_pem_text <$> (der <$> cs)))) as ->.
  { unfold to_bytes, cert_pem, to_bytes. induction cs as [|c cs IH]; [done|].
    rewrite !fmap_cons, !List.concat_cons, fmap_app, IH. done. }
  rewrite ascii_roundtrip.
  - rewrite pem_text_blocks. clear. induction cs as [|c cs IH]; [done|]. rewrite !fmap_cons. by rewrite IH.
  - induction (der <$> cs) as [|d ds IH]; [constructor|]. rewrite fmap_cons, List.concat_cons. apply Forall_app. split; [|exact IH].
    rewrite cert_pem_lines. destruct (cert_lines_ok d) as [H _]. fold (cert_lines d).
    clear -H. induction H as [|l ls Hl _ IH]; [constructor|]. rewrite fmap_cons, List.concat_cons.
    apply Forall_app. split; [|exact IH]. apply Forall_app. split; [done|]. repeat constructor; lia.
Qed.

(** A certificate keeps the bytes it was read from. *)
Lemma parse_certificate_der d c : _parse_certificate d = Ok c -> der c = d.
Proof.
  unfold _parse_certificate. intros ([e n] & _ & H)%bind_ok_inv. cbv beta iota in H.
  do 3 apply bind_ok_inv in H as (? & _ & H). cbv zeta in H. case_match; [done|].
  do 5 apply bind_ok_inv in H as (? & _ & H). apply bind_ok_inv in H as (v & _ & H).
  destruct v as [|from [|until_ [|]]]; try done.
  do 8 apply bind_ok_inv in H as (? & _ & H). by injection H as <-.
Qed.

Lemma certificates_of_read bs cs :
  certificates_of bs = Ok cs -> Forall (fun c => _parse_certificate (der c) = Ok c) cs.
Proof.
  revert cs. induction bs as [|[l d] bs IH]; intros cs H; cbn [certificates_of] in H; [injection H as <-; constructor|].
  case_match; [by apply IH|]. destruct (_parse_certificate d) as [c|e] eqn:E.
  - apply bind_ok_inv in H as (cs' & H & [= <-]). constructor; [|by apply IH].
    rewrite (parse_certificate_der d c E). exact E.
  - case_match; [by apply IH | done].
Qed.

(** What the GSI handshake puts on the wire is what was read from the proxy
    file: the certificates [load_certificates] found, written out again by
    [pem], load back as exactly the same list - wrapped base-64, line ends and
    labels included - however the original file was laid out. *)
Theorem chain_survives data cs :
  load_certificates data = Ok cs -> load_certificates (concat (cert_pem <$> cs)) = Ok cs.
Proof.
  unfold load_certificates. intros H%certificates_of_read. rewrite chain_blocks.
  induction H as [|c cs Hc _ IH]; [done|]. rewrite fmap_cons. cbn [certificates_of].
  rewrite bool_decide_eq_true_2 by done. cbn [negb]. rewrite Hc, IH. done.
Qed.

(** A small certificate, in a file with other text and carriage returns. *)
Definition tlv (t : Z) (v : bytes) : bytes := der_encode (mkElement t v).
Definition demo_der : bytes :=
  tlv 0x30 (tlv 0x30 (tlv 0x02 [x05] ++ tlv 0x30 [] ++ tlv 0x30 []
    ++ tlv 0x30 (tlv 0x17 (b_ "240101000000Z") ++ tlv 0x18 (b_ "20260102030405Z"))
    ++ tlv 0x30 (tlv 0x31 (tlv 0x30 (tlv 0x06 [x55; x04; x03] ++ tlv 0x0C (b_ "proxy")))) ++ tlv 0x30 [])).
Definition demo_file : bytes :=
  b_ "subject" ++ [x0d; x0a] ++ b_ "  -----BEGIN CERTIFICATE-----" ++ [x0d; x0a]
  ++ to_bytes (take 10 (b64encode demo_der)) ++ [x0a] ++ to_bytes (drop 10 (b64encode demo_der)) ++ [x0a]
  ++ b_ "-----END CERTIFICATE-----".
Definition demo_cert : Certificate :=
  mkCert [(s_ "CN", s_ "proxy")] [] 5 1704067200 1767323045 None [] demo_der.

Lemma chain_survives_witness :
  load_certificates demo_file = Ok [demo_cert] /\ load_certificates (concat (cert_pem <$> [demo_cert])) = Ok [demo_cert].
Proof.
  assert (load_certificates demo_file = Ok [demo_cert]) as H by (vm_compute; reflexivity).
  split; [exact H | apply (chain_survives demo_file [demo_cert] H)].
Defined.

(** A block that is an empty SEQUENCE is not skipped like the other unreadable
    ones: it raises [IndexError], and the certificates before it are lost. *)
Lemma empty_sequence_fatal cs :
  Forall (fun c => _parse_certificate (der c) = Ok c) cs ->
  load_certificates (concat (cert_pem <$> (cs ++ [mkCert [] [] 0 0 0 None [] [x30; x00]]))) = Err IndexError.
Proof.
  intros H. unfold load_certificates. rewrite chain_blocks. induction H as [|c cs Hc _ IH]; [done|].
  cbn [app]. rewrite fmap_cons. cbn [certificates_of]. rewrite bool_decide_eq_true_2 by done. cbn [negb]. by rewrite Hc, IH.
Qed.
