(* ===== verification/Compression.v ===== *)
(** * ROOT block compression

    src/xrd/root/compression.py: the LZ4 decoder and encoder, XXH64, and the
    framing of compressed objects. zlib, lzma and zstd are parameters. *)

From S2P Require Import Prelude PyStr Errors Words Rsa.
Open Scope Z_scope.

Module Compression.

Definition HEADER : Z := 9.
Definition BLOCK : Z := 0xFFFFFF.

(** ** The LZ4 decoder

    The input is what is in front of [pos]; reading past its end is the
    [IndexError] that becomes a [FormatError]. *)

(** The 255-a-byte continuation of a length. *)
Fixpoint read_more (src : bytes) (n : Z) : option (Z * bytes) :=
  match src with
  | [] => None
  | b :: src => if b2z b =? 255 then read_more src (n + 255) else Some (n + b2z b, src)
  end.

Definition read_length (nibble : Z) (src : bytes) : option (Z * bytes) :=
  if nibble =? 15 then read_more src 15 else Some (nibble, src).

(** [for index in range(start, start + match): out.append(out[index])]. *)
Fixpoint copy_bytes (count : nat) (index : Z) (out : list byte) : option bytes :=
  match count with
  | O => Some out
  | S count => b ← out !! Z.to_nat index; copy_bytes count (index + 1) (out ++ [b])
  end.

(** What a match appends, [start] bytes into the output. *)
Definition copy_match (offset len : Z) (out : bytes) : res bytes :=
  let start := zlen out - offset in
  if start <? 0 then Err FormatError
  else if len <=? offset then Ok (out ++ slice out start (start + len))
  else match copy_bytes (Z.to_nat len) start out with Some out => Ok out | None => Err FormatError end.

Fixpoint lz4_loop (fuel : nat) (src out : bytes) : res bytes :=
  match src with
  | [] => Ok out
  | token :: src =>
      match fuel with
      | O => Err AssertionError
      | S fuel =>
          match read_length (Z.shiftr (b2z token) 4) src with
          | None => Err FormatError
          | Some (literals, src) =>
              let out := out ++ take (Z.to_nat literals) src in
              match drop (Z.to_nat literals) src with
              | [] => Ok out
              | [_] => Err FormatError
              | lo :: hi :: src =>
                  let offset := Z.lor (b2z lo) (Z.shiftl (b2z hi) 8) in
                  match read_length (Z.land (b2z token) 0xF) src with
                  | None => Err FormatError
                  | Some (n, src) => out ← copy_match offset (n + 4) out; lz4_loop fuel src out
                  end
              end
          end
      end
  end.

Definition _lz4 (src : bytes) (size : Z) : res bytes :=
  out ← lz4_loop (length src) src [];
  if zlen out =? size then Ok out else Err FormatError.

(** ** The LZ4 encoder *)

Fixpoint extend_loop (fuel : nat) (value : Z) : bytes :=
  match fuel with
  | O => []
  | S fuel => if 255 <=? value then xff :: extend_loop fuel (value - 255) else [z2b value]
  end.

(** [_extend(out, value)]: what is appended. *)
Definition _extend (value : Z) : bytes := extend_loop (S (Z.to_nat (value - 15))) (value - 15).

(** [while pos + length < n - 5 and src[found + length] == src[pos + length]]. *)
Fixpoint match_length (fuel : nat) (src : list byte) (found pos len : Z) : Z :=
  match fuel with
  | O => len
  | S fuel =>
      if (pos + len <? zlen src - 5)
         && bool_decide (src !! Z.to_nat (found + len) = src !! Z.to_nat (pos + len))
      then match_length fuel src found pos (len + 1) else len
  end.

(** One sequence: a token, literals, a distance and a length. *)
Definition sequence (literals : bytes) (offset len : Z) : bytes :=
  let l := zlen literals in
  [z2b (Z.lor (Z.shiftl (Z.min l 15) 4) (Z.min (len - 4) 15))]
  ++ (if 15 <=? l then _extend l else []) ++ literals
  ++ [z2b offset; z2b (Z.shiftr offset 8)]
  ++ (if 15 <=? len - 4 then _extend (len - 4) else []).

(** The last one: literals only. *)
Definition last_sequence (literals : bytes) : bytes :=
  let l := zlen literals in
  [z2b (Z.shiftl (Z.min l 15) 4)] ++ (if 15 <=? l then _extend l else []) ++ literals.

Fixpoint pack_loop (fuel : nat) (src : bytes) (recent : dict bytes Z) (anchor pos : Z) : bytes :=
  match fuel with
  | O => last_sequence (slice_from src anchor)
  | S fuel =>
      if pos <? zlen src - 12 then
        let seq := slice src pos (pos + 4) in
        let recent' := dict_set seq pos recent in
        match dict_get seq recent with
        | Some found =>
            if 0xFFFF <? pos - found then pack_loop fuel src recent' anchor (pos + 1) else
            let len := match_length (length src) src found pos 4 in
            sequence (slice src anchor pos) (pos - found) len
            ++ pack_loop fuel src recent' (pos + len) (pos + len)
        | None => pack_loop fuel src recent' anchor (pos + 1)
        end
      else last_sequence (slice_from src anchor)
  end.

Definition _lz4_pack (src : bytes) : bytes := pack_loop (length src) src [] 0 0.

(** ** XXH64 *)

Definition _P1 : Z := 0x9E3779B185EBCA87.
Definition _P2 : Z := 0xC2B2AE3D27D4EB4F.
Definition _P3 : Z := 0x165667B19E3779F9.
Definition _P4 : Z := 0x85EBCA77C2B2AE63.
Definition _P5 : Z := 0x27D4EB2F165667C5.
Definition _M64 : Z := Z.shiftl 1 64 - 1.
Definition m64 (z : Z) : Z := Z.land z _M64.

Definition _rot (x r : Z) : Z := m64 (Z.lor (Z.shiftl x r) (Z.shiftr x (64 - r))).

Definition lane_round (v lane : Z) : Z := m64 (_rot (m64 (v + lane * _P2)) 31 * _P1).

(** One stripe of 32 bytes, folded into the four accumulators. *)
Definition stripe (v : Z * Z * Z * Z) (data : bytes) : Z * Z * Z * Z :=
  let lanes := le_dec data in
  let '(v1, v2, v3, v4) := v in
  (lane_round v1 (m64 lanes), lane_round v2 (m64 (Z.shiftr lanes 64)),
   lane_round v3 (m64 (Z.shiftr lanes 128)), lane_round v4 (Z.shiftr lanes 192)).

Definition merge_round (acc v : Z) : Z :=
  m64 (Z.lxor acc (_rot (m64 (v * _P2)) 31 * _P1) * _P1 + _P4).

Definition eight_bytes (acc lane : Z) : Z :=
  m64 (_rot (Z.lxor acc (m64 (_rot (m64 (lane * _P2)) 31 * _P1))) 27 * _P1 + _P4).
Definition four_bytes (acc lane : Z) : Z := m64 (_rot (Z.lxor acc (m64 (lane * _P1))) 23 * _P2 + _P3).
Definition one_byte (acc lane : Z) : Z := m64 (_rot (Z.lxor acc (m64 (lane * _P5))) 11 * _P1).

Definition avalanche (acc : Z) : Z :=
  let acc := Z.lxor acc (Z.shiftr acc 33) in
  let acc := m64 (acc * _P2) in
  let acc := Z.lxor acc (Z.shiftr acc 29) in
  let acc := m64 (acc * _P3) in
  Z.lxor acc (Z.shiftr acc 32).

(** The loop over the last bytes, eight at a time, then four, then one. *)
Definition finish (acc : Z) (data : bytes) : Z :=
  let n := (zlen data / 8 * 8)%Z in
  let acc := foldl (fun acc b => eight_bytes acc (le_dec b)) acc (chunks 8 (slice_to data n)) in
  let rest := slice_from data n in
  let '(acc, rest) := if 4 <=? zlen rest then (four_bytes acc (le_dec (slice_to rest 4)), slice_from rest 4)
                      else (acc, rest) in
  foldl (fun acc b => one_byte acc (b2z b)) acc rest.

Definition _xxh64 (data : bytes) : Z :=
  let length := zlen data in
  if 32 <=? length then
    let n := length / 32 * 32 in
    let '(v1, v2, v3, v4) := foldl stripe (m64 (_P1 + _P2), _P2, 0, m64 (- _P1)) (chunks 32 (slice_to data n)) in
    let acc := m64 (_rot v1 1 + _rot v2 7 + _rot v3 12 + _rot v4 18) in
    let acc := foldl merge_round acc [v1; v2; v3; v4] in
    avalanche (finish (m64 (acc + length)) (slice_from data n))
  else avalanche (finish (m64 (_P5 + length)) data).

Example xxh64_empty : _xxh64 [] = 0xEF46DB3751D8E999.
Proof. vm_compute. reflexivity. Qed.
Example xxh64_abc : _xxh64 (b_ "abc") = 0x44BC2CF5AD770999.
Proof. vm_compute. reflexivity. Qed.
Example xxh64_long :
  _xxh64 (b_ "Nobody inspects the spammish repetition") = 0xFBCEA83C8A378BF1.
Proof. vm_compute. reflexivity. Qed.

(** ** Framing *)

Definition TAGS : dict str bytes :=
  [(s_ "zlib", b_ "ZL"); (s_ "lzma", b_ "XZ"); (s_ "lz4", b_ "L4"); (s_ "zstd", b_ "ZS")].
Definition METHODS : dict str Z := [(s_ "zlib", 8); (s_ "lzma", 0); (s_ "lz4", 1); (s_ "zstd", 1)].
Definition LEVELS : dict str Z := [(s_ "zlib", 6); (s_ "lzma", 6); (s_ "lz4", 1); (s_ "zstd", 3)].
Definition CODES : dict str Z := [(s_ "zlib", 1); (s_ "lzma", 2); (s_ "lz4", 4); (s_ "zstd", 5)].
Definition NAMES : dict bytes str :=
  [(b_ "ZL", s_ "zlib"); (b_ "XZ", s_ "lzma"); (b_ "L4", s_ "lz4"); (b_ "ZS", s_ "zstd");
   (b_ "CS", s_ "the pre-2005 ROOT algorithm")].

Definition algorithm (data : bytes) : str := default (s_ "an unknown algorithm") (dict_get (slice_to data 2) NAMES).

Fixpoint le_enc (n : nat) (z : Z) : bytes :=
  match n with O => [] | S n => z2b z :: le_enc n (z / 256) end.

(** [v.to_bytes(n, "little")]. *)
Definition to_bytes_le (v n : Z) : res bytes :=
  if (0 <=? v) && (v <? 256 ^ n) then Ok (le_enc (Z.to_nat n) v) else Err OverflowError.

(** What zlib, lzma and zstd do. *)
Record Codecs := {
  zlib_compress : bytes -> Z -> res bytes; zlib_decompress : bytes -> res bytes;
  raw_inflate : bytes -> res bytes;
  lzma_compress : bytes -> Z -> res bytes; lzma_decompress : bytes -> res bytes;
  _zstd_pack : bytes -> Z -> res bytes; _zstd : bytes -> Z -> res bytes
}.

Section Framing.
Variable codecs : Codecs.

Definition pack_chunk (algorithm : str) (level : Z) (chunk : bytes) : res bytes :=
  if decide (algorithm = s_ "zlib") then zlib_compress codecs chunk level
  else if decide (algorithm = s_ "lzma") then lzma_compress codecs chunk level
  else if decide (algorithm = s_ "lz4") then
    let body := _lz4_pack chunk in
    sum ← int_to_bytes (_xxh64 body) 8; Ok (sum ++ body)
  else _zstd_pack codecs chunk level.

Definition compress_block (algorithm : str) (tag : bytes) (level : Z) (chunk : bytes) : res bytes :=
  packed ← pack_chunk algorithm level chunk;
  a ← to_bytes_le (zlen packed) 3;
  b ← to_bytes_le (zlen chunk) 3;
  Ok (tag ++ [z2b (default 0 (dict_get algorithm METHODS))] ++ a ++ b ++ packed).

(** [range(0, len(data), BLOCK) or (0,)]. *)
Definition blocks_of (data : bytes) : list bytes :=
  match chunks BLOCK data with [] => [[]] | cs => cs end.

Definition compress (data : bytes) (algorithm : str) (level : option Z) : res bytes :=
  match dict_get algorithm TAGS with
  | None => Err ValueError
  | Some tag =>
      let level := default (default 0 (dict_get algorithm LEVELS)) level in
      out ← mapM_res (compress_block algorithm tag level) (blocks_of data);
      Ok (concat out)
  end.

Definition _old (block : bytes) (size : Z) : res bytes :=
  match raw_inflate codecs block with
  | Err _ => Err FormatError
  | Ok out => if zlen out =? size then Ok out else Err FormatError
  end.

Definition unpack_block (tag block : bytes) (unpacked : Z) : res bytes :=
  if decide (tag = b_ "ZL") then zlib_decompress codecs block
  else if decide (tag = b_ "CS") then _old block unpacked
  else if decide (tag = b_ "XZ") then lzma_decompress codecs block
  else if decide (tag = b_ "L4") then _lz4 (slice_from block 8) unpacked
  else if decide (tag = b_ "ZS") then _zstd codecs block unpacked
  else Err UnsupportedFeatureError.

(** [data] is what is in front of [pos]; every block takes nine bytes of it
    at least. *)
Fixpoint decompress_loop (fuel : nat) (data out : bytes) (size : Z) : res bytes :=
  if zlen out <? size then
    match fuel with
    | O => Err AssertionError
    | S fuel =>
        if zlen data <? HEADER then Err FormatError else
        let tag := slice data 0 2 in
        let packed := le_dec (slice data 3 6) in
        let unpacked := le_dec (slice data 6 9) in
        let block := slice data HEADER (HEADER + packed) in
        if negb (zlen block =? packed) then Err FormatError else
        more ← unpack_block tag block unpacked;
        decompress_loop fuel (slice_from data (HEADER + packed)) (out ++ more) size
    end
  else if zlen out =? size then Ok out else Err FormatError.

Definition decompress (data : bytes) (size : Z) : res bytes := decompress_loop (S (length data)) data [] size.
End Framing.
End Compression.
