(* ===== verification/CompressionProps.v ===== *)
(** * Compression round trips

    The LZ4 decoder undoes the LZ4 encoder, the framing reads back what it
    wrote, and the loops of both have the fuel they need. *)

From S2P Require Import Prelude PyStr Errors Words Rsa Compression.
Open Scope Z_scope.
Import Compression.Compression.

(** ** Lengths *)

Lemma read_more_extend fuel x acc t :
  0 <= x -> (Z.to_nat x < fuel)%nat -> read_more (extend_loop fuel x ++ t) acc = Some (acc + x, t).
Proof.
  revert x acc. induction fuel as [|fuel IH]; intros x acc Hx Hf; [lia|]. cbn [extend_loop].
  destruct (Z.leb_spec 255 x).
  - cbn [app read_more]. change (b2z xff =? 255) with true. cbv iota. rewrite IH by lia. do 2 f_equal. lia.
  - cbn [app read_more]. rewrite b2z_z2b by lia. by destruct (Z.eqb_spec x 255); [lia|].
Qed.

Lemma read_length_extend v t :
  0 <= v -> read_length (Z.min v 15) ((if 15 <=? v then _extend v else []) ++ t) = Some (v, t).
Proof.
  intros Hv. unfold read_length. destruct (Z.leb_spec 15 v).
  - replace (Z.min v 15) with 15 by lia. cbn [Z.eqb Pos.eqb]. unfold _extend.
    rewrite read_more_extend by lia. do 2 f_equal. lia.
  - destruct (Z.eqb_spec (Z.min v 15) 15); [lia|]. cbn. do 2 f_equal. lia.
Qed.

Lemma nibbles a b :
  0 <= a <= 15 -> 0 <= b <= 15 ->
  Z.shiftr (b2z (z2b (Z.lor (Z.shiftl a 4) b))) 4 = a /\ Z.land (b2z (z2b (Z.lor (Z.shiftl a 4) b))) 0xF = b.
Proof.
  intros Ha Hb. rewrite lor_shiftl by (unfold in_width; lia). rewrite b2z_z2b by lia.
  change 0xF with (2 ^ 4 - 1). rewrite land_mask, Z.shiftr_div_pow2 by lia. change (2 ^ 4) with 16. split.
  - rewrite Z.div_add_l by lia. rewrite Z.div_small by lia. lia.
  - rewrite Z.add_comm, Z.mod_add by lia. apply Z.mod_small. lia.
Qed.

Lemma offset_bytes off :
  0 <= off <= 0xFFFF ->
  Z.lor (b2z (z2b off)) (Z.shiftl (b2z (z2b (Z.shiftr off 8))) 8) = off.
Proof.
  intros H. rewrite Z.shiftr_div_pow2 by lia. change (2 ^ 8) with 256.
  rewrite (b2z_z2b (off / 256)) by (split; [apply Z.div_pos; lia | apply Z.div_lt_upper_bound; lia]).
  rewrite b2z_z2b_mod, Z.lor_comm, lor_shiftl by (try (unfold in_width; apply Z.mod_pos_bound); lia).
  change (2 ^ 8) with 256. rewrite Z.mul_comm. symmetry. apply Z.div_mod. lia.
Qed.

(** ** Matches *)

Lemma copy_bytes_repeats (src : list byte) n : forall f p,
  (f < p)%nat -> (p + n <= length src)%nat ->
  (forall i, (i < n)%nat -> src !! (f + i)%nat = src !! (p + i)%nat) ->
  copy_bytes n (Z.of_nat f) (take p src) = Some (take (p + n) src).
Proof.
  induction n as [|n IH]; intros f p Hf Hn Heq; cbn [copy_bytes]; [by rewrite Nat.add_0_r|].
  rewrite Nat2Z.id, lookup_take_lt by lia.
  specialize (Heq 0%nat ltac:(lia)) as H0. rewrite !Nat.add_0_r in H0. rewrite H0.
  destruct (lookup_lt_is_Some_2 src p ltac:(lia)) as [b Hb]. rewrite Hb. cbn [mbind option_bind].
  rewrite <- (take_S_r src p b Hb). replace (Z.of_nat f + 1) with (Z.of_nat (S f)) by lia.
  rewrite IH by (try lia; intros i Hi; rewrite !Nat.add_succ_comm; apply Heq; lia). do 2 f_equal. lia.
Qed.

Lemma copy_match_repeats (src : list byte) f p n :
  (f < p)%nat -> (p + n <= length src)%nat ->
  (forall i, (i < n)%nat -> src !! (f + i)%nat = src !! (p + i)%nat) ->
  copy_match (Z.of_nat p - Z.of_nat f) (Z.of_nat n) (take p src) = Ok (take (p + n) src).
Proof.
  intros Hf Hn Heq. unfold copy_match.
  assert (Hl : zlen (take p src) = Z.of_nat p) by (unfold zlen; rewrite length_take; lia).
  rewrite Hl. replace (Z.of_nat p - (Z.of_nat p - Z.of_nat f)) with (Z.of_nat f) by lia.
  destruct (Z.ltb_spec (Z.of_nat f) 0); [lia|]. destruct (Z.leb_spec (Z.of_nat n) (Z.of_nat p - Z.of_nat f)).
  - f_equal. rewrite slice_pos, <- take_take_drop by lia. f_equal.
    replace (Z.to_nat (Z.of_nat f + Z.of_nat n - Z.of_nat f)) with n by lia. rewrite Nat2Z.id.
    apply list_eq. intros i. destruct (decide (i < n)%nat).
    + rewrite !lookup_take_lt, !lookup_drop, lookup_take_lt by lia. by apply Heq.
    + rewrite !lookup_take_ge by lia. done.
  - rewrite Nat2Z.id, copy_bytes_repeats by done. done.
Qed.

(** ** Sequences *)

Lemma decode_sequence fuel lits off len t out :
  0 <= off <= 0xFFFF -> 4 <= len ->
  lz4_loop (S fuel) (sequence lits off len ++ t) out
  = (out ← copy_match off len (out ++ lits); lz4_loop fuel t out).
Proof.
  intros Ho Hl. unfold sequence. cbn [app lz4_loop].
  destruct (nibbles (Z.min (zlen lits) 15) (Z.min (len - 4) 15)) as [-> ->]; [pose proof (zlen_nonneg lits); lia | lia|].
  rewrite <- !app_assoc, read_length_extend by apply zlen_nonneg.
  replace (Z.to_nat (zlen lits)) with (length lits) by (unfold zlen; lia).
  rewrite take_app_length, drop_app_length. cbn [app].
  rewrite offset_bytes by done. rewrite read_length_extend by lia.
  by replace (len - 4 + 4) with len by lia.
Qed.

Lemma decode_last fuel lits out : lz4_loop (S fuel) (last_sequence lits) out = Ok (out ++ lits).
Proof.
  unfold last_sequence. cbn [app lz4_loop]. pose proof (zlen_nonneg lits).
  destruct (nibbles (Z.min (zlen lits) 15) 0) as [E _]; [lia | lia|]. rewrite Z.lor_0_r in E. rewrite E.
  pose proof (read_length_extend (zlen lits) lits ltac:(lia)) as ->.
  replace (Z.to_nat (zlen lits)) with (length lits) by (unfold zlen; lia).
  rewrite firstn_all, skipn_all. done.
Qed.

Lemma match_length_spec (src : list byte) found pos : forall fuel len,
  0 <= found -> 0 <= pos -> 0 <= len -> pos + len <= zlen src ->
  (forall i, 0 <= i < len -> src !! Z.to_nat (found + i) = src !! Z.to_nat (pos + i)) ->
  let n := match_length fuel src found pos len in
  len <= n /\ pos + n <= zlen src
  /\ (forall i, 0 <= i < n -> src !! Z.to_nat (found + i) = src !! Z.to_nat (pos + i)).
Proof.
  induction fuel as [|fuel IH]; intros len Hf Hp Hl Hn Heq; cbn [match_length]; [by split_and!|].
  destruct (Z.ltb_spec (pos + len) (zlen src - 5)); cbn [andb]; [|by split_and!].
  case_bool_decide as E; [|by split_and!].
  destruct (IH (len + 1)) as (H1 & H2 & H3); [lia.. | | split_and!; [lia | exact H2 | exact H3]].
  intros i Hi. destruct (decide (i = len)) as [->|]; [done | apply Heq; lia].
Qed.

(** What the encoder knows: where it last saw each four bytes. *)
Definition recent_ok (src : list byte) (recent : dict bytes Z) (pos : Z) : Prop :=
  forall seq p, dict_get seq recent = Some p -> 0 <= p < pos /\ slice src p (p + 4) = seq.

Lemma recent_ok_set src recent pos pos' :
  0 <= pos < pos' -> recent_ok src recent pos -> recent_ok src (dict_set (slice src pos (pos + 4)) pos recent) pos'.
Proof.
  intros Hp H seq p. rewrite dict_get_set. case_decide as E; [intros [= <-]; split; [lia | done]|].
  intros Hd. destruct (H _ _ Hd). split; [lia | done].
Qed.

Lemma slice_lookup (src : list byte) p i :
  0 <= p -> 0 <= i < 4 -> slice src p (p + 4) !! Z.to_nat i = src !! Z.to_nat (p + i).
Proof.
  intros Hp Hi. rewrite slice_pos by lia. rewrite lookup_take_lt, lookup_drop by lia. f_equal. lia.
Qed.

(** The match the encoder finds is one the decoder can repeat. *)
Lemma found_match (src : list byte) recent pos found fuel :
  recent_ok src recent pos -> 0 <= pos -> pos < zlen src - 12 ->
  dict_get (slice src pos (pos + 4)) recent = Some found ->
  let len := match_length fuel src found pos 4 in
  0 <= found < pos /\ 4 <= len /\ pos + len <= zlen src
  /\ copy_match (pos - found) len (take (Z.to_nat pos) src) = Ok (take (Z.to_nat (pos + len)) src).
Proof.
  intros Hr Hp Hn Hd. destruct (Hr _ _ Hd) as [Hf Hs].
  destruct (match_length_spec src found pos fuel 4) as (H1 & H2 & H3); [lia..| |].
  { intros i Hi. rewrite <- !slice_lookup by lia. by rewrite Hs. }
  set (len := match_length fuel src found pos 4) in *. cbv zeta. split_and!; [lia.. |].
  pose proof (copy_match_repeats src (Z.to_nat found) (Z.to_nat pos) (Z.to_nat len)) as H.
  rewrite !Z2Nat.id in H by lia. rewrite H by
    (try (unfold zlen in *; lia); intros i Hi; specialize (H3 (Z.of_nat i) ltac:(lia));
     rewrite !Z2Nat.inj_add, Nat2Z.id in H3 by lia; exact H3).
  by rewrite Z2Nat.inj_add by lia.
Qed.

Lemma take_slice (src : list byte) a b :
  0 <= a <= b -> take (Z.to_nat a) src ++ slice src a b = take (Z.to_nat b) src.
Proof. intros H. rewrite slice_pos, take_take_drop by lia. f_equal. lia. Qed.

Lemma pack_loop_decodes src : forall fuel recent anchor pos fuel',
  recent_ok src recent pos -> 0 <= anchor <= pos -> pos <= zlen src ->
  (length (pack_loop fuel src recent anchor pos) <= fuel')%nat ->
  lz4_loop fuel' (pack_loop fuel src recent anchor pos) (take (Z.to_nat anchor) src) = Ok src.
Proof.
  assert (Hlast : forall anchor fuel', 0 <= anchor -> (length (last_sequence (slice_from src anchor)) <= fuel')%nat ->
    lz4_loop fuel' (last_sequence (slice_from src anchor)) (take (Z.to_nat anchor) src) = Ok src).
  { intros anchor [|fuel'] Ha Hf; [cbn in Hf; lia|]. rewrite decode_last. unfold slice_from.
    destruct (Z.ltb_spec anchor 0); [lia|]. by rewrite take_drop. }
  induction fuel as [|fuel IH]; intros recent anchor pos fuel' Hr Ha Hp; cbn [pack_loop]; [intros; apply Hlast; [lia | done]|].
  destruct (Z.ltb_spec pos (zlen src - 12)) as [Hlt|]; [|intros; apply Hlast; [lia | done]].
  assert (Hskip : forall fuel', (length (pack_loop fuel src (dict_set (slice src pos (pos + 4)) pos recent) anchor (pos + 1)) <= fuel')%nat ->
    lz4_loop fuel' (pack_loop fuel src (dict_set (slice src pos (pos + 4)) pos recent) anchor (pos + 1))
      (take (Z.to_nat anchor) src) = Ok src)
    by (intros; apply IH; [apply recent_ok_set; [lia | done] | lia | lia | done]).
  destruct (dict_get (slice src pos (pos + 4)) recent) as [found|] eqn:Ed; [|apply Hskip].
  destruct (Z.ltb_spec 0xFFFF (pos - found)) as [|Hw]; [apply Hskip|].
  destruct (found_match src recent pos found (length src) Hr ltac:(lia) Hlt Ed) as (Hf & Hl & Hn & Hc).
  set (len := match_length (length src) src found pos 4) in *. intros Hlen.
  rewrite length_app in Hlen. destruct fuel' as [|fuel']; [unfold sequence in Hlen; cbn in Hlen; lia|].
  rewrite decode_sequence by lia. rewrite take_slice, Hc by lia. cbn [mbind result_bind].
  apply IH; [|lia|lia|unfold sequence in Hlen; cbn in Hlen; lia].
  apply recent_ok_set; [lia | done].
Qed.

Lemma lz4_roundtrip src : _lz4 (_lz4_pack src) (zlen src) = Ok src.
Proof.
  unfold _lz4, _lz4_pack.
  rewrite (pack_loop_decodes src (length src) [] 0 0 _) by (try (apply zlen_nonneg); done || lia).
  cbn [mbind result_bind]. by rewrite Z.eqb_refl.
Qed.

(** ** Fuel *)

Lemma match_length_S fuel (src : list byte) found pos len :
  match_length (S fuel) src found pos len
  = if (pos + len <? zlen src - 5) && bool_decide (src !! Z.to_nat (found + len) = src !! Z.to_nat (pos + len))
    then match_length fuel src found pos (len + 1) else len.
Proof. done. Qed.

Lemma match_length_fuel (src : list byte) found pos : forall fuel len,
  0 <= pos + len -> zlen src - (pos + len) <= Z.of_nat fuel ->
  match_length (S fuel) src found pos len = match_length fuel src found pos len.
Proof.
  induction fuel as [|fuel IH]; intros len Hp Hf.
  - rewrite match_length_S. destruct (Z.ltb_spec (pos + len) (zlen src - 5)); [lia | done].
  - rewrite (match_length_S (S fuel)), (match_length_S fuel src found pos len). destruct (_ && _); [|done]. apply IH; lia.
Qed.

Lemma pack_loop_S fuel src recent anchor pos :
  pack_loop (S fuel) src recent anchor pos
  = if pos <? zlen src - 12 then
         match dict_get (slice src pos (pos + 4)) recent with
         | Some found =>
             if 0xFFFF <? pos - found
             then pack_loop fuel src (dict_set (slice src pos (pos + 4)) pos recent) anchor (pos + 1) else
             sequence (slice src anchor pos) (pos - found) (match_length (length src) src found pos 4)
             ++ pack_loop fuel src (dict_set (slice src pos (pos + 4)) pos recent)
                  (pos + match_length (length src) src found pos 4) (pos + match_length (length src) src found pos 4)
         | None => pack_loop fuel src (dict_set (slice src pos (pos + 4)) pos recent) anchor (pos + 1)
         end
       else last_sequence (slice_from src anchor).
Proof. done. Qed.

(** One more turn than there are bytes changes nothing: the encoder has
    always finished. *)
Lemma pack_loop_fuel src : forall fuel recent anchor pos,
  recent_ok src recent pos -> 0 <= pos -> zlen src - pos <= Z.of_nat fuel ->
  pack_loop (S fuel) src recent anchor pos = pack_loop fuel src recent anchor pos.
Proof.
  induction fuel as [|fuel IH]; intros recent anchor pos Hr Hp Hf.
  - rewrite pack_loop_S. destruct (Z.ltb_spec pos (zlen src - 12)); [lia | done].
  - rewrite (pack_loop_S (S fuel)), (pack_loop_S fuel src recent anchor pos). destruct (Z.ltb_spec pos (zlen src - 12)) as [Hlt|]; [|done].
    destruct (dict_get (slice src pos (pos + 4)) recent) as [found|] eqn:Ed.
    + destruct (_ <? _); [apply IH; [apply recent_ok_set; [lia | done] | lia | lia]|].
      destruct (found_match src recent pos found (length src) Hr Hp Hlt Ed) as (_ & Hl & _).
      f_equal. apply IH; [apply recent_ok_set; [lia | done] | lia | lia].
    + apply IH; [apply recent_ok_set; [lia | done] | lia | lia].
Qed.

(** The decoder never runs out: each turn takes a token. *)
Lemma read_more_shrinks src : forall n v rest, read_more src n = Some (v, rest) -> (length rest < length src)%nat.
Proof.
  induction src as [|b src IH]; intros n v rest; cbn [read_more length]; [done|].
  destruct (b2z b =? 255); [intros H%IH; lia | intros [= <- <-]; lia].
Qed.

Lemma read_length_shrinks n src v rest : read_length n src = Some (v, rest) -> (length rest <= length src)%nat.
Proof.
  unfold read_length. destruct (n =? 15); [intros H%read_more_shrinks; lia | intros [= <- <-]; lia].
Qed.

Lemma lz4_loop_errors : forall fuel src out e,
  (length src <= fuel)%nat -> lz4_loop fuel src out = Err e -> e = FormatError.
Proof.
  induction fuel as [|fuel IH]; intros [|token src] out e Hf; cbn [lz4_loop length] in *; try done; [lia|].
  destruct (read_length _ src) as [[lits src1]|] eqn:E1; [|congruence]. apply read_length_shrinks in E1.
  pose proof (length_drop src1 (Z.to_nat lits)) as Hd.
  destruct (drop (Z.to_nat lits) src1) as [|lo [|hi src2]]; [done | congruence|]. cbn [length] in Hd.
  destruct (read_length _ src2) as [[n src3]|] eqn:E2; [|congruence]. apply read_length_shrinks in E2.
  unfold copy_match at 1. repeat case_goal; cbn [mbind result_bind]; try congruence; apply IH; lia.
Qed.

(** ** Framing *)

Lemma le_dec_enc n z : le_dec (le_enc n z) = z mod 256 ^ Z.of_nat n.
Proof.
  revert z. induction n as [|n IH]; intros z; cbn [le_enc le_dec]; [by rewrite Z.mod_1_r|].
  rewrite IH, b2z_z2b_mod, Nat2Z.inj_succ, Z.pow_succ_r by lia.
  rewrite Z.rem_mul_r by (try apply Z.pow_nonzero; lia). lia.
Qed.

Lemma to_bytes_le_inv v n b : to_bytes_le v n = Ok b -> b = le_enc (Z.to_nat n) v /\ 0 <= v < 256 ^ n.
Proof. unfold to_bytes_le. case_goal; zbool; [|done]. intros [= <-]. done. Qed.

Lemma m64_width z : in_width 64 (m64 z).
Proof. apply (land_mask_in_width 64). lia. Qed.

Lemma xxh64_width data : in_width 64 (_xxh64 data).
Proof.
  assert (H : forall acc, in_width 64 (avalanche acc)).
  { intros acc. unfold avalanche. set (x := m64 (_ * _P3)). assert (Hx : in_width 64 x) by apply m64_width.
    apply lxor_in_width; [lia | done|]. unfold in_width in *. rewrite Z.shiftr_div_pow2 by lia.
    split; [apply Z.div_pos; lia|]. apply Z.div_lt_upper_bound; lia. }
  unfold _xxh64. destruct (32 <=? zlen data); [|apply H]. by destruct (foldl stripe _ _) as [[[v1 v2] v3] v4].
Qed.

(** What is asked of the standard library's codecs: each undoes itself. *)
Record CodecLaws (c : Codecs) : Prop := {
  zlib_undoes : forall d l p, zlib_compress c d l = Ok p -> zlib_decompress c p = Ok d;
  lzma_undoes : forall d l p, lzma_compress c d l = Ok p -> lzma_decompress c p = Ok d;
  zstd_undoes : forall d l p, _zstd_pack c d l = Ok p -> _zstd c p (zlen d) = Ok d
}.

(** The fields of a block, at their offsets. *)
Lemma block_fields t0 t1 m (a u packed rest : bytes) :
  length a = 3%nat -> length u = 3%nat ->
  let d := [t0; t1] ++ [m] ++ a ++ u ++ packed ++ rest in
  slice d 0 2 = [t0; t1] /\ slice d 3 6 = a /\ slice d 6 9 = u
  /\ slice d 9 (9 + zlen packed) = packed /\ slice_from d (9 + zlen packed) = rest /\ 9 <= zlen d.
Proof.
  intros Ha Hu. destruct a as [|a0 [|a1 [|a2 [|]]]]; try done. destruct u as [|u0 [|u1 [|u2 [|]]]]; try done.
  cbn [app]. pose proof (zlen_nonneg packed). rewrite !slice_pos by lia.
  change (Z.to_nat (2 - 0)) with 2%nat. change (Z.to_nat 0) with 0%nat. change (Z.to_nat (6 - 3)) with 3%nat.
  change (Z.to_nat 3) with 3%nat. change (Z.to_nat (9 - 6)) with 3%nat. change (Z.to_nat 6) with 6%nat.
  change (Z.to_nat 9) with 9%nat. cbn [take drop]. split_and!; try done.
  - replace (Z.to_nat (9 + zlen packed - 9)) with (length packed) by (unfold zlen; lia). apply take_app_length.
  - unfold slice_from. destruct (Z.ltb_spec (9 + zlen packed) 0); [lia|].
    replace (Z.to_nat (9 + zlen packed)) with (9 + length packed)%nat by (unfold zlen; lia).
    cbn [drop Nat.add]. apply drop_app_length.
  - rewrite !zlen_cons. pose proof (zlen_nonneg (packed ++ rest)). lia.
Qed.

Lemma chunks_whole n data :
  0 < n -> concat (chunks n data) = data /\ Forall (fun c => c <> []) (chunks n data).
Proof.
  intros Hn. apply (chunks_rect_all n (fun data cs => concat cs = data /\ Forall (fun c => c <> []) cs)); [done | done| |].
  - intros b Hb. cbn. rewrite app_nil_r. split; [done|]. constructor; [|constructor]. intros ->. unfold zlen in Hb. cbn in Hb. lia.
  - intros b rest Hb [Hc Hf]. cbn. rewrite Hc. split; [done|]. constructor; [|done]. intros ->. unfold zlen in Hb. cbn in Hb. lia.
Qed.

Section Framing.
Variable codecs : Codecs.
Hypothesis laws : CodecLaws codecs.

Lemma unpack_pack algorithm tag level chunk packed :
  dict_get algorithm TAGS = Some tag -> pack_chunk codecs algorithm level chunk = Ok packed ->
  unpack_block codecs tag packed (zlen chunk) = Ok chunk.
Proof.
  unfold TAGS. cbn [dict_get].
  repeat (case_decide; [subst algorithm; intros [= <-]|]); [..|intros; discriminate];
    unfold pack_chunk, unpack_block;
    repeat match goal with
    | |- context [decide (?a = ?b)] => destruct (decide (a = b)) as [?Ed | ?Ed]; [|try by destruct Ed]; try by vm_compute in Ed
    end.
  - apply (zlib_undoes _ laws).
  - apply (lzma_undoes _ laws).
  - unfold int_to_bytes. pose proof (xxh64_width (_lz4_pack chunk)) as Hw. unfold in_width in Hw.
    change (256 ^ 8) with (2 ^ 64). destruct (Z.leb_spec 0 (_xxh64 (_lz4_pack chunk))); [|lia].
    destruct (Z.ltb_spec (_xxh64 (_lz4_pack chunk)) (2 ^ 64)); [|lia]. cbn [andb mbind result_bind].
    intros Hp%Ok_inj. subst packed.
    replace 8 with (zlen (be_enc (Z.to_nat 8) (_xxh64 (_lz4_pack chunk)))) by (by rewrite be_enc_zlen).
    rewrite slice_from_app. apply lz4_roundtrip.
  - apply (zstd_undoes _ laws).
Qed.

(** One block, in front of anything. *)
Lemma decompress_block algorithm tag level chunk b rest fuel out size :
  dict_get algorithm TAGS = Some tag -> compress_block codecs algorithm tag level chunk = Ok b -> zlen out < size ->
  decompress_loop codecs (S fuel) (b ++ rest) out size = decompress_loop codecs fuel rest (out ++ chunk) size.
Proof.
  intros Ht Hb Hs. unfold compress_block in Hb. apply bind_ok_inv in Hb as (packed & Hp & Hb).
  apply bind_ok_inv in Hb as (a & Ha & Hb). apply bind_ok_inv in Hb as (u & Hu & Hb). apply Ok_inj in Hb.
  apply to_bytes_le_inv in Ha as [-> Ha], Hu as [-> Hu].
  pose proof (unpack_pack _ _ _ _ _ Ht Hp) as Hun.
  assert (exists t0 t1, tag = [t0; t1]) as (t0 & t1 & ->).
  { clear - Ht. unfold TAGS in Ht. cbn [dict_get] in Ht.
    repeat (case_decide; [injection Ht as <-; by eexists _, _|]). done. }
  pose proof (le_dec_enc 3 (zlen packed)) as Ea. pose proof (le_dec_enc 3 (zlen chunk)) as Eu.
  rewrite Z.mod_small in Ea, Eu by (cbn; lia). change (Z.to_nat 3) with 3%nat in *. subst b.
  destruct (block_fields t0 t1 (z2b (default 0 (dict_get algorithm METHODS))) (le_enc 3 (zlen packed))
    (le_enc 3 (zlen chunk)) packed rest eq_refl eq_refl) as (E0 & E1 & E2 & E3 & E4 & E5).
  rewrite <- !app_assoc. cbn [app]. cbn [app] in E0, E1, E2, E3, E4, E5. cbn [decompress_loop].
  destruct (Z.ltb_spec (zlen out) size); [|lia].
  match goal with |- context [zlen ?d <? HEADER] => set (data := d) in * end.
  destruct (Z.ltb_spec (zlen data) HEADER); [unfold HEADER in *; lia|].
  rewrite E0, E1, E2, Ea, Eu. unfold HEADER. rewrite E3, E4, Z.eqb_refl. cbn [negb]. by rewrite Hun.
Qed.

Lemma decompress_blocks algorithm tag level cs : forall bs out fuel,
  dict_get algorithm TAGS = Some tag -> mapM_res (compress_block codecs algorithm tag level) cs = Ok bs ->
  Forall (fun c => c <> []) cs -> (length cs <= fuel)%nat ->
  decompress_loop codecs fuel (concat bs) out (zlen out + zlen (concat cs)) = Ok (out ++ concat cs).
Proof.
  induction cs as [|c cs IH]; intros bs out fuel Ht Hb Hne Hf.
  - cbn. rewrite zlen_nil, Z.add_0_r, app_nil_r. destruct fuel; cbn; rewrite Z.ltb_irrefl, Z.eqb_refl; done.
  - cbn [mapM_res] in Hb. apply bind_ok_inv in Hb as (b & Hb & Hb'). apply bind_ok_inv in Hb' as (bs' & Hbs & Hb').
    apply Ok_inj in Hb' as <-. apply Forall_cons in Hne as [Hc Hne]. cbn [length] in Hf.
    destruct fuel as [|fuel]; [lia|]. cbn [concat]. rewrite zlen_app, Z.add_assoc, <- zlen_app.
    rewrite (decompress_block _ _ _ _ _ _ _ _ _ Ht Hb).
    + rewrite (IH bs' (out ++ c) fuel Ht Hbs Hne) by lia. by rewrite app_assoc.
    + rewrite zlen_app. pose proof (zlen_nonneg (concat cs)).
      assert (0 < zlen c) by (destruct c; [done|]; rewrite zlen_cons; pose proof (zlen_nonneg c); lia). lia.
Qed.

Lemma compress_block_length algorithm tag level c b :
  compress_block codecs algorithm tag level c = Ok b -> (1 <= length b)%nat.
Proof.
  intros Hb. unfold compress_block in Hb. apply bind_ok_inv in Hb as (p & _ & Hb).
  apply bind_ok_inv in Hb as (a & _ & Hb). apply bind_ok_inv in Hb as (u & _ & Hb). apply Ok_inj in Hb as <-.
  rewrite length_app. cbn. lia.
Qed.

Lemma blocks_length algorithm tag level cs : forall bs,
  mapM_res (compress_block codecs algorithm tag level) cs = Ok bs -> (length cs <= length (concat bs))%nat.
Proof.
  induction cs as [|c cs IH]; intros bs Hb; cbn [length]; [lia|].
  cbn [mapM_res] in Hb. apply bind_ok_inv in Hb as (b & Hb & Hb'). apply bind_ok_inv in Hb' as (bs' & Hbs & Hb').
  apply Ok_inj in Hb' as <-. cbn [concat]. rewrite length_app. apply IH in Hbs.
  apply compress_block_length in Hb. lia.
Qed.

Lemma compress_undone data algorithm level c :
  compress codecs data algorithm level = Ok c -> decompress codecs c (zlen data) = Ok data.
Proof.
  unfold compress, decompress. destruct (dict_get algorithm TAGS) as [tag|] eqn:Ht; [|done].
  intros Hc. apply bind_ok_inv in Hc as (bs & Hb & Hc). apply Ok_inj in Hc as <-.
  destruct (chunks_whole BLOCK data) as [Hd Hne]; [done|].
  destruct data as [|x data']; [done|]. set (data := x :: data') in *.
  assert (Hbl : blocks_of data = chunks BLOCK data) by (unfold blocks_of; by destruct (chunks BLOCK data)).
  rewrite Hbl in Hb. pose proof (blocks_length _ _ _ _ _ Hb) as Hl.
  pose proof (decompress_blocks algorithm tag _ _ bs [] (S (length (concat bs))) Ht Hb Hne ltac:(lia)) as H.
  rewrite Hd, zlen_nil, Z.add_0_l in H. exact H.
Qed.

(** C32: what [compress] frames, [decompress] gives back, for data of any length
    and every algorithm; with LZ4, whose encoder and decoder are this
    program's own, nothing but the code itself is relied on. *)
Theorem compress_roundtrip data algorithm level c :
  compress codecs data algorithm level = Ok c -> decompress codecs c (zlen data) = Ok data.
Proof. apply compress_undone. Qed.
End Framing.

(** Codecs that store, and the laws they keep. *)
Definition stored : Codecs :=
  {| zlib_compress d _ := Ok d; zlib_decompress := Ok; raw_inflate := Ok; lzma_compress d _ := Ok d;
     lzma_decompress := Ok; _zstd_pack d _ := Ok d; _zstd d _ := Ok d |}.

Lemma stored_laws : CodecLaws stored.
Proof. split; by intros d l p [= <-]. Qed.

Lemma compress_roundtrip_witness :
  exists c, compress stored (b_ "abcdabcdabcdabcdabcdabcd, and again abcd") (s_ "lz4") None = Ok c
    /\ (length c < 57)%nat
    /\ decompress stored c (zlen (b_ "abcdabcdabcdabcdabcdabcd, and again abcd"))
       = Ok (b_ "abcdabcdabcdabcdabcdabcd, and again abcd").
Proof.
  eexists. split; [vm_compute; reflexivity|]. split; [vm_compute; lia|].
  apply (compress_roundtrip stored stored_laws (b_ "abcdabcdabcdabcdabcdabcd, and again abcd") (s_ "lz4") None).
  vm_compute. reflexivity.
Defined.

(** A chunk that does not shrink below sixteen megabytes cannot be framed:
    its length does not fit the three-byte field and [compress] raises
    [OverflowError], where a writer comparing lengths would have stored it. *)
Theorem incompressible_overflows codecs data p :
  zlen data = BLOCK -> zlib_compress codecs data 6 = Ok p -> BLOCK < zlen p ->
  compress codecs data (s_ "zlib") None = Err OverflowError.
Proof.
  intros Hd Hp Hl. unfold compress. change (dict_get (s_ "zlib") TAGS) with (Some (b_ "ZL")). cbv iota.
  change (default (default 0 (dict_get (s_ "zlib") LEVELS)) None) with 6.
  unfold blocks_of. rewrite chunks_small by (rewrite Hd; done). cbn [mapM_res].
  unfold compress_block, pack_chunk. change (decide (s_ "zlib" = s_ "zlib")) with (@left (s_ "zlib" = s_ "zlib") (s_ "zlib" <> s_ "zlib") eq_refl).
  rewrite Hp. cbn [mbind result_bind]. unfold to_bytes_le. replace (zlen p <? 256 ^ 3) with false.
  - by rewrite andb_false_r.
  - symmetry. apply Z.ltb_ge. unfold BLOCK in Hl. cbn. lia.
Qed.

(** Sixteen megabytes that double when packed. *)
Definition doubling : Codecs :=
  {| zlib_compress d _ := Ok (d ++ d); zlib_decompress := Ok; raw_inflate := Ok; lzma_compress d _ := Ok d;
     lzma_decompress := Ok; _zstd_pack d _ := Ok d; _zstd d _ := Ok d |}.

Lemma incompressible_overflows_witness :
  compress doubling (replicate (Z.to_nat BLOCK) x00) (s_ "zlib") None = Err OverflowError.
Proof.
  assert (Hl : zlen (replicate (Z.to_nat BLOCK) x00) = BLOCK) by
    (unfold zlen; rewrite length_replicate, Z2Nat.id; [reflexivity | discriminate]).
  refine (incompressible_overflows doubling (replicate (Z.to_nat BLOCK) x00)
    (replicate (Z.to_nat BLOCK) x00 ++ replicate (Z.to_nat BLOCK) x00) Hl eq_refl _).
  rewrite zlen_app, Hl. reflexivity.
Defined.
