(* ===== verification/Url.v ===== *)
(** * URLs

    src/xrd/url.py: the parsed URL, its normalised path, parsing and
    formatting. What the file uses of [posixpath] and [urllib.parse] is
    written out; [str.lower] and the process's working directory are
    parameters. *)

From S2P Require Import Prelude PyStr Errors.
Open Scope Z_scope.

Definition DEFAULT_PORT : Z := 1094.
Definition ROOT_SCHEMES : list str := [s_ "root"; s_ "roots"; s_ "xroot"; s_ "xroots"; s_ "xrootd"].
Definition HTTP_SCHEMES : list str := [s_ "http"; s_ "https"; s_ "dav"; s_ "davs"; s_ "webdav"].
Definition S3_SCHEMES : list str := [s_ "s3"].
Definition _TLS_SCHEMES : list str := [s_ "roots"; s_ "xroots"; s_ "https"; s_ "davs"; s_ "s3"].

Record XRootDURL := mkURL {
  u_scheme : str; u_host : str; u_port : Z; u_path : str; u_username : str; u_password : str;
  u_query : dict str str
}.

(** ** Classification *)

Definition is_root (u : XRootDURL) : bool := bool_decide (u_scheme u ∈ ROOT_SCHEMES).
Definition is_http (u : XRootDURL) : bool := bool_decide (u_scheme u ∈ HTTP_SCHEMES).
Definition is_s3 (u : XRootDURL) : bool := bool_decide (u_scheme u ∈ S3_SCHEMES).
Definition is_local (u : XRootDURL) : bool := bool_decide (u_scheme u = s_ "file").
Definition use_tls (u : XRootDURL) : bool := bool_decide (u_scheme u ∈ _TLS_SCHEMES).

(** ** [posixpath] *)

Definition is_slash (c : Z) : bool := c =? 0x2F.
Definition DOT : str := s_ ".".
Definition DOTDOT : str := s_ "..".

(** One component of [normpath]; the components kept so far are in reverse. *)
Definition norm_step (rooted : bool) (acc : list str) (comp : str) : list str :=
  if bool_decide (comp = []) || bool_decide (comp = DOT) then acc
  else if bool_decide (comp <> DOTDOT) || (negb rooted && bool_decide (acc = []))
          || bool_decide (head acc = Some DOTDOT) then comp :: acc
  else tail acc.

(** How many slashes a path keeps in front: two only when it has just two. *)
Definition initial_slashes (path : str) : nat :=
  if startswith [0x2F] path then
    if startswith [0x2F; 0x2F] path && negb (startswith [0x2F; 0x2F; 0x2F] path) then 2 else 1
  else 0.

Definition normpath (path : str) : str :=
  match path with
  | [] => DOT
  | _ =>
      let n := initial_slashes path in
      let comps := reverse (foldl (norm_step (negb (n =? 0)%nat)) [] (split_all 0x2F path)) in
      match replicate n 0x2F ++ join 0x2F comps with
      | [] => DOT
      | p => p
      end
  end.

(** [posixpath.basename] and [posixpath.dirname]. *)
Definition basename (p : str) : str :=
  match rpartition 0x2F p with (_, true, t) => t | _ => p end.
Definition dirname (p : str) : str :=
  match rpartition 0x2F p with
  | (h, true, _) =>
      let hd := h ++ [0x2F] in
      match lstrip_by is_slash hd with
      | [] => hd
      | _ => rstrip_by is_slash hd
      end
  | _ => []
  end.

(** [posixpath.join(a, *parts)]. *)
Definition path_join (a : str) (parts : list str) : str :=
  foldl (fun path b =>
           if startswith [0x2F] b then b
           else if bool_decide (path = []) || endswith [0x2F] path then path ++ b
           else path ++ 0x2F :: b) a parts.

(** A single leading slash, trailing one preserved. *)
Definition _normalize (path : str) : str :=
  match path with
  | [] => [0x2F]
  | _ =>
      let trailing := endswith [0x2F] path && (1 <? zlen path) in
      let norm := normpath (0x2F :: lstrip_by is_slash path) in
      if trailing && negb (endswith [0x2F] norm) then norm ++ [0x2F] else norm
  end.

(** ** Derivation *)

Section Derive.
(** [str.lower]. *)
Variable lower : str -> str.

(** [XRootDURL(...)] with its [__post_init__]. *)
Definition make_url (scheme host : str) (port : Z) (path username password : str)
    (query : dict str str) : XRootDURL :=
  mkURL (lower scheme) (lower host) port path username password query.

(** The keywords of [evolve]; those not given are [None]. *)
Record Changes := mkChanges {
  ch_scheme : option str; ch_host : option str; ch_port : option Z; ch_path : option str;
  ch_username : option str; ch_password : option str; ch_query : option (dict str str)
}.

(** [replace(self, **changes)]: [__post_init__] runs again, nothing else is
    made of the new values. *)
Definition evolve (u : XRootDURL) (c : Changes) : XRootDURL :=
  make_url (default (u_scheme u) (ch_scheme c)) (default (u_host u) (ch_host c))
    (default (u_port u) (ch_port c)) (default (u_path u) (ch_path c))
    (default (u_username u) (ch_username c)) (default (u_password u) (ch_password c))
    (default (u_query u) (ch_query c)).

Definition with_path (u : XRootDURL) (path : str) : XRootDURL :=
  make_url (u_scheme u) (u_host u) (u_port u) (_normalize path) (u_username u) (u_password u)
    (u_query u).
Definition url_join (u : XRootDURL) (parts : list str) : XRootDURL :=
  with_path u (path_join (u_path u) parts).
Definition parent (u : XRootDURL) : XRootDURL :=
  with_path u (match dirname (rstrip_by is_slash (u_path u)) with [] => [0x2F] | d => d end).
Definition url_name (u : XRootDURL) : str := basename (rstrip_by is_slash (u_path u)).
End Derive.

(** ** Normal paths *)

(** A component [normpath] keeps of a rooted path. *)
Definition plain_component (c : str) : Prop := c <> [] /\ c <> DOT /\ c <> DOTDOT /\ 0x2F ∉ c.

Lemma norm_step_plain acc comp :
  0x2F ∉ comp -> Forall plain_component acc -> Forall plain_component (norm_step true acc comp).
Proof.
  intros Hc Ha. unfold norm_step. destruct (bool_decide (comp = [])) eqn:E1; simpl; [done|].
  destruct (bool_decide (comp = DOT)) eqn:E2; simpl; [done|].
  apply bool_decide_eq_false in E1, E2.
  destruct (bool_decide (comp <> DOTDOT)) eqn:E3; simpl.
  - apply bool_decide_eq_true in E3. by constructor.
  - assert (bool_decide (head acc = Some DOTDOT) = false) as ->.
    { apply bool_decide_eq_false. intros Hh. destruct acc as [|a acc]; [done|]. injection Hh as ->.
      apply Forall_cons in Ha as [(_ & _ & Hn & _) _]. done. }
    destruct acc; [done|]. by apply Forall_cons in Ha as [_ Ha].
Qed.

Lemma norm_fold_plain comps acc :
  Forall (fun c => 0x2F ∉ c) comps -> Forall plain_component acc ->
  Forall plain_component (foldl (norm_step true) acc comps).
Proof.
  revert acc. induction comps as [|c cs IH]; intros acc Hc Ha; [done|].
  apply Forall_cons in Hc as [Hc Hcs]. simpl. apply IH; [done|]. by apply norm_step_plain.
Qed.

(** The components of a normalised path. *)
Definition rooted (comps : list str) : str := 0x2F :: join 0x2F comps.

Lemma lstrip_head (p : Z -> bool) (l : str) x : head (lstrip_by p l) = Some x -> p x = false.
Proof.
  induction l as [|y l IH]; simpl; [done|]. destruct (p y) eqn:E; [done|]. by intros [= ->].
Qed.

Lemma normpath_rooted path :
  let norm := normpath (0x2F :: lstrip_by is_slash path) in
  exists comps, norm = rooted comps /\ Forall plain_component comps.
Proof.
  cbv zeta. unfold normpath. set (p := lstrip_by is_slash path).
  assert (initial_slashes (0x2F :: p) = 1%nat) as ->.
  { unfold initial_slashes. cbn [startswith]. rewrite !bool_decide_eq_true_2 by done. cbn [andb].
    destruct p as [|x l] eqn:E; [done|]. assert (is_slash x = false) as Hx
      by (apply (lstrip_head is_slash path); fold p; by rewrite E).
    unfold is_slash in Hx. zbool. by rewrite bool_decide_eq_false_2 by congruence. }
  simpl negb. eexists. split; [reflexivity|]. apply Forall_reverse.
  apply norm_fold_plain; [apply split_all_pieces | done].
Qed.

Lemma normalize_shape path :
  exists comps, Forall plain_component comps
    /\ (_normalize path = rooted comps \/ comps <> [] /\ _normalize path = rooted comps ++ [0x2F]).
Proof.
  unfold _normalize. destruct path as [|x l]; [exists []; by split; [|left]|].
  set (path := x :: l). cbv zeta. destruct (normpath_rooted path) as (comps & -> & Hc).
  exists comps. split; [done|]. destruct (_ && _) eqn:E; [right | by left].
  split; [|done]. intros ->. apply andb_true_iff in E as [_ E]. done.
Qed.

Lemma norm_fold_id comps acc :
  Forall plain_component comps -> foldl (norm_step true) acc comps = reverse comps ++ acc.
Proof.
  revert acc. induction comps as [|c cs IH]; intros acc Hc; [done|].
  apply Forall_cons in Hc as [(H1 & H2 & H3 & _) Hcs]. simpl. rewrite IH by done.
  unfold norm_step. rewrite !bool_decide_eq_false_2, bool_decide_eq_true_2 by done. simpl.
  by rewrite reverse_cons, <- app_assoc.
Qed.

Lemma join_cons (c : str) cs : join 0x2F (c :: cs) = match cs with [] => c | _ => c ++ 0x2F :: join 0x2F cs end.
Proof. by destruct cs. Qed.

Lemma join_head comps :
  Forall plain_component comps -> lstrip_by is_slash (join 0x2F comps) = join 0x2F comps.
Proof.
  destruct comps as [|c cs]; [done|]. intros [(Hn & _ & _ & Hs) _]%Forall_cons.
  destruct c as [|x c]; [done|]. rewrite not_elem_of_cons in Hs. rewrite join_cons.
  assert (forall t : str, lstrip_by is_slash (x :: t) = x :: t) as Hl.
  { intros t. simpl. unfold is_slash. destruct (Z.eqb_spec x 0x2F); [by destruct Hs|done]. }
  destruct cs; [apply Hl|]. rewrite <- app_comm_cons. apply Hl.
Qed.

Lemma endswith_snoc (l : str) x y : endswith [y] (l ++ [x]) = bool_decide (y = x).
Proof. unfold endswith. rewrite reverse_snoc. cbn. by rewrite andb_true_r. Qed.

Lemma rooted_ends comps :
  Forall plain_component comps -> comps <> [] -> endswith [0x2F] (rooted comps) = false.
Proof.
  intros Hc Hne. destruct comps as [|c cs _] using rev_ind; [done|]. clear Hne.
  apply Forall_app in Hc as [_ [(Hn & _ & _ & Hs) _]%Forall_cons].
  destruct c as [|x c' _] using rev_ind; [done|]. clear Hn.
  rewrite not_elem_of_app, list_elem_of_singleton in Hs. unfold str in *.
  assert (exists l, rooted (cs ++ [c' ++ [x]]) = l ++ [x]) as [l ->].
  { clear. unfold rooted. assert (exists l, join 0x2F (cs ++ [c' ++ [x]]) = l ++ [x]) as [l ->].
    { induction cs as [|d cs [l IH]]; [by exists c'|]. rewrite <- app_comm_cons, join_cons.
      destruct (cs ++ [c' ++ [x]]) eqn:E; [by destruct cs|]. rewrite IH.
      exists (d ++ 0x2F :: l). by rewrite <- app_assoc. }
    exists (0x2F :: l). done. }
  rewrite endswith_snoc. apply bool_decide_eq_false. tauto.
Qed.

Lemma split_rooted comps :
  Forall plain_component comps ->
  split_all 0x2F (rooted comps) = [] :: match comps with [] => [[]] | _ => comps end.
Proof.
  intros Hc. unfold rooted. simpl. f_equal. destruct comps as [|c cs]; [done|].
  apply split_join; [done|]. eapply Forall_impl; [exact Hc|]. by intros ? (_ & _ & _ & ?).
Qed.

Lemma split_rooted_slash comps :
  Forall plain_component comps -> comps <> [] ->
  split_all 0x2F (rooted comps ++ [0x2F]) = [] :: comps ++ [[]].
Proof.
  intros Hc Hne. unfold rooted. rewrite <- app_comm_cons. simpl. f_equal.
  assert (join 0x2F comps ++ [0x2F] = join 0x2F (comps ++ [[]])) as ->.
  { clear Hc. induction comps as [|c cs IH]; [done|]. destruct cs as [|d cs]; [done|].
    rewrite (join_cons c), <- app_assoc. change ((c :: d :: cs) ++ [[]]) with (c :: (d :: cs) ++ [[]]).
    rewrite (join_cons c). simpl ((d :: cs) ++ [[]]). cbv iota. rewrite <- app_comm_cons, IH by done. done. }
  apply split_join; [by destruct comps|]. apply Forall_app. split.
  - eapply Forall_impl; [exact Hc|]. by intros ? (_ & _ & _ & ?).
  - repeat constructor. apply not_elem_of_nil.
Qed.

Lemma normpath_of path comps :
  initial_slashes path = 1%nat -> Forall plain_component comps ->
  foldl (norm_step true) [] (split_all 0x2F path) = reverse comps -> normpath path = rooted comps.
Proof.
  intros Hi Hc Hf. unfold normpath. destruct path as [|x l]; [done|]. rewrite Hi. cbn [Nat.eqb negb].
  by rewrite Hf, reverse_involutive.
Qed.

Lemma initial_slashes_rooted l : lstrip_by is_slash l = l -> initial_slashes (0x2F :: l) = 1%nat.
Proof.
  intros Hl. unfold initial_slashes. cbn [startswith]. rewrite !bool_decide_eq_true_2 by done. cbn [andb].
  destruct l as [|x l]; [done|]. assert (is_slash x = false) as Hx
    by (apply (lstrip_head is_slash (x :: l)); by rewrite Hl).
  unfold is_slash in Hx. zbool. by rewrite bool_decide_eq_false_2 by congruence.
Qed.

Lemma normpath_id comps : Forall plain_component comps -> normpath (rooted comps) = rooted comps.
Proof.
  intros Hc. apply normpath_of; [by apply initial_slashes_rooted, join_head | done|].
  rewrite split_rooted by done. destruct comps; [done|]. cbn [foldl].
  change (norm_step true [] []) with (@nil str). change (norm_step true (norm_step true [] []) s) with (norm_step true [] s).
  pose proof (norm_fold_id (s :: comps) [] Hc) as Hf. cbn [foldl] in Hf. by rewrite Hf, app_nil_r.
Qed.

Lemma normalize_rooted comps : Forall plain_component comps -> _normalize (rooted comps) = rooted comps.
Proof.
  intros Hc. unfold _normalize. unfold rooted at 1. cbv iota. cbv zeta. fold (rooted comps).
  assert (lstrip_by is_slash (rooted comps) = join 0x2F comps) as -> by exact (join_head comps Hc).
  fold (rooted comps).
  rewrite normpath_id by done. destruct comps as [|c cs]; [done|]. by rewrite rooted_ends.
Qed.

Lemma normalize_rooted_slash comps :
  Forall plain_component comps -> comps <> [] ->
  _normalize (rooted comps ++ [0x2F]) = rooted comps ++ [0x2F].
Proof.
  intros Hc Hne. unfold _normalize. unfold rooted at 1. rewrite <- app_comm_cons. cbv iota zeta.
  change (0x2F :: join 0x2F comps ++ [0x2F]) with (rooted comps ++ [0x2F]).
  assert (join 0x2F comps <> []) as Hj.
  { destruct comps as [|c cs]; [done|]. apply Forall_cons in Hc as [(Hn & _) _]. rewrite join_cons.
    destruct cs; [done|]. by destruct c. }
  assert (lstrip_by is_slash (rooted comps ++ [0x2F]) = join 0x2F comps ++ [0x2F]) as ->.
  { unfold rooted. rewrite <- app_comm_cons. simpl lstrip_by.
    pose proof (join_head comps Hc) as Hl. destruct (join 0x2F comps) as [|x l]; [done|].
    cbn [app lstrip_by]. assert (is_slash x = false) as -> by (apply (lstrip_head is_slash (x :: l)); by rewrite Hl).
    done. }
  assert (normpath (0x2F :: join 0x2F comps ++ [0x2F]) = rooted comps) as ->.
  { apply normpath_of; [|done|].
    - apply initial_slashes_rooted. pose proof (join_head comps Hc) as Hl.
      destruct (join 0x2F comps) as [|x l]; [done|]. cbn [app lstrip_by].
      assert (is_slash x = false) as -> by (apply (lstrip_head is_slash (x :: l)); by rewrite Hl). done.
    - change (0x2F :: join 0x2F comps ++ [0x2F]) with (rooted comps ++ [0x2F]).
      rewrite split_rooted_slash by done. cbn [foldl]. rewrite foldl_app.
      change (norm_step true [] []) with (@nil str).
      rewrite (norm_fold_id comps [] Hc), app_nil_r. done. }
  rewrite endswith_snoc, bool_decide_eq_true_2, rooted_ends by done. cbn [negb andb].
  rewrite zlen_app. unfold rooted at 1. rewrite zlen_cons. change (zlen [0x2F]) with 1.
  pose proof (zlen_nonneg (join 0x2F comps)).
  destruct (Z.ltb_spec 1 (1 + zlen (join 0x2F comps) + 1)); [done | lia].
Qed.

(** A normalised path is confined and stable. Whatever it was given,
    [_normalize] returns an absolute path whose components are none of them
    empty, [.] or [..] - so no path the client joins climbs above the root -
    and normalising it again changes nothing. *)
Theorem normalize_confined path :
  (exists comps,
     Forall (fun c => c <> [] /\ c <> s_ "." /\ c <> s_ ".." /\ 0x2F ∉ c) comps
     /\ (_normalize path = 0x2F :: join 0x2F comps
         \/ comps <> [] /\ _normalize path = (0x2F :: join 0x2F comps) ++ [0x2F]))
  /\ _normalize (_normalize path) = _normalize path.
Proof.
  destruct (normalize_shape path) as (comps & Hc & Hn). split; [by exists comps|].
  destruct Hn as [-> | [Hne ->]]; [by apply normalize_rooted | by apply normalize_rooted_slash].
Qed.
