(* ===== verification/UrlText.v ===== *)
(** * URLs as text

    The parsing and formatting half of src/xrd/url.py, with what it uses of
    [urllib.parse]: percent-encoding, form encoding, and their inverses. *)

From S2P Require Import Prelude PyStr Errors Buffer Url.
Open Scope Z_scope.

(** ** Percent-encoding *)

(** The bytes [quote] never escapes. *)
Definition unreserved (z : Z) : bool :=
  ((0x41 <=? z) && (z <=? 0x5A)) || ((0x61 <=? z) && (z <=? 0x7A)) || ((0x30 <=? z) && (z <=? 0x39))
  || (z =? 0x5F) || (z =? 0x2E) || (z =? 0x2D) || (z =? 0x7E).

Definition HEX (d : Z) : Z := if d <? 10 then 0x30 + d else 0x37 + d.
Definition escape (z : Z) : str := [0x25; HEX (z / 16); HEX (z mod 16)].

Definition quote_byte (b : byte) : str := if unreserved (b2z b) then [b2z b] else escape (b2z b).
Definition plus_byte (b : byte) : str := if b2z b =? 0x20 then [0x2B] else quote_byte b.

(** [quote(s, safe="")] and [quote_plus(s)]. *)
Definition quote (s : str) : res str := b ← Writer.encode_str s; Ok (b ≫= quote_byte).
Definition quote_plus (s : str) : res str := b ← Writer.encode_str s; Ok (b ≫= plus_byte).

Definition unhex (c : Z) : option Z :=
  if (0x30 <=? c) && (c <=? 0x39) then Some (c - 0x30)
  else if (0x41 <=? c) && (c <=? 0x46) then Some (c - 0x37)
  else if (0x61 <=? c) && (c <=? 0x66) then Some (c - 0x57)
  else None.

(** [unquote_to_bytes] of an ASCII string. *)
Fixpoint unquote_to_bytes (s : str) : bytes :=
  match s with
  | [] => []
  | c :: t =>
      match t with
      | a :: b :: r =>
          match (if c =? 0x25 then unhex a else None), unhex b with
          | Some x, Some y => z2b (16 * x + y) :: unquote_to_bytes r
          | _, _ => z2b c :: unquote_to_bytes t
          end
      | _ => z2b c :: unquote_to_bytes t
      end
  end.

(** [unquote(s)]: each maximal ASCII run is unescaped and decoded. *)
Fixpoint unquote_runs (run : str) (s : str) : str :=
  match s with
  | [] => utf8_decode (unquote_to_bytes (reverse run))
  | c :: s =>
      if (0 <=? c) && (c <? 0x80) then unquote_runs (c :: run) s
      else utf8_decode (unquote_to_bytes (reverse run)) ++ c :: unquote_runs [] s
  end.
Definition unquote (s : str) : str := if contains 0x25 s then unquote_runs [] s else s.

(** ** Form encoding *)

Definition form_field (kv : str * str) : res str :=
  k ← quote_plus kv.1; v ← quote_plus kv.2; Ok (k ++ 0x3D :: v).

(** [urlencode(query)]. *)
Definition urlencode (q : dict str str) : res str := fs ← mapM_res form_field q; Ok (join 0x26 fs).

Definition plus_to_space (s : str) : str := map (fun c => if c =? 0x2B then 0x20 else c) s.

(** [parse_qsl(cgi, keep_blank_values=True)]. *)
Definition parse_qsl (cgi : str) : list (str * str) :=
  omap (fun f => match f with
                 | [] => None
                 | _ => let '(k, _, v) := partition 0x3D f in
                        Some (unquote (plus_to_space k), unquote (plus_to_space v))
                 end) (split_all 0x26 cgi).

(** [dict(pairs)]. *)
Definition dict_of (l : list (str * str)) : dict str str :=
  foldl (fun d kv => dict_set kv.1 kv.2 d) [] l.

(** ** Decimal *)

Fixpoint dec_digits (fuel : nat) (v : Z) (acc : str) : str :=
  match fuel with
  | O => acc
  | S fuel =>
      let acc := (0x30 + v mod 10) :: acc in
      if v / 10 =? 0 then acc else dec_digits fuel (v / 10) acc
  end.

(** [str(n)]. *)
Definition to_dec (n : Z) : str :=
  if n <? 0 then 0x2D :: dec_digits (S (Z.to_nat (Z.log2 (- n)))) (- n) []
  else dec_digits (S (Z.to_nat (Z.log2 n))) n [].

(** ** Formatting *)

Definition netloc (u : XRootDURL) : str :=
  let host := if contains 0x3A (u_host u) then 0x5B :: u_host u ++ [0x5D] else u_host u in
  host ++ 0x3A :: to_dec (u_port u).

Definition path_with_cgi (u : XRootDURL) : res str :=
  match u_query u with
  | [] => Ok (u_path u)
  | q => e ← urlencode q; Ok (u_path u ++ 0x3F :: e)
  end.

(** The [user:password@] in front of the host. *)
Definition auth_str (u : XRootDURL) : res str :=
  match u_username u with
  | [] => Ok []
  | _ =>
      n ← quote (u_username u);
      match u_password u with
      | [] => Ok (n ++ [0x40])
      | p => q ← quote p; Ok (n ++ 0x3A :: q ++ [0x40])
      end
  end.

(** [XRootDURL.__str__]. *)
Definition url_str (u : XRootDURL) : res str :=
  if is_local u then Ok (s_ "file://" ++ u_path u)
  else
    auth ← auth_str u;
    let sep := if is_root u then [0x2F; 0x2F] else [0x2F] in
    let where_ := if is_s3 u then u_host u else netloc u in
    let base := u_scheme u ++ s_ "://" ++ auth ++ where_ ++ sep ++ lstrip_by is_slash (u_path u) in
    match u_query u with
    | [] => Ok base
    | q => e ← urlencode q; Ok (base ++ 0x3F :: e)
    end.

(** [XRootDURL.http_url]. *)
Definition http_url (u : XRootDURL) : res str :=
  let scheme := default (u_scheme u)
    (dict_get (u_scheme u) [(s_ "dav", s_ "http"); (s_ "davs", s_ "https"); (s_ "webdav", s_ "https")]) in
  let base := scheme ++ s_ "://" ++ netloc u ++ u_path u in
  match u_query u with
  | [] => Ok base
  | q => e ← urlencode q; Ok (base ++ 0x3F :: e)
  end.

(** ** Parsing *)

(** [text.split("://", 1)]; [None] when there is no [://]. *)
Fixpoint split_scheme (text : str) : option (str * str) :=
  match text with
  | [] => None
  | c :: t =>
      if startswith (s_ "://") text then Some ([], drop 2 t)
      else '(s, r) ← split_scheme t; Some (c :: s, r)
  end.

Definition default_port (scheme : str) : Z :=
  if bool_decide (scheme ∈ [s_ "https"; s_ "davs"; s_ "webdav"; s_ "s3"]) then 443
  else if bool_decide (scheme ∈ [s_ "http"; s_ "dav"]) then 80
  else DEFAULT_PORT.

Section Parse.
(** [str.lower] and [os.path.abspath]. *)
Variable lower : str -> str.
Variable abspath : str -> str.

Definition split_user (userinfo : str) : str * str :=
  match userinfo with
  | [] => ([], [])
  | _ => let '(u, _, p) := partition 0x3A userinfo in (unquote u, unquote p)
  end.

Definition split_host (hostport : str) : str * str :=
  if startswith [0x5B] hostport then
    let '(host, _, port_s) := partition 0x5D (drop 1 hostport) in
    (host, lstrip_by (fun c => c =? 0x3A) port_s)
  else let '(host, _, port_s) := partition 0x3A hostport in (host, port_s).

Definition parse (text : str) : res XRootDURL :=
  match split_scheme text with
  | None => Ok (make_url lower (s_ "file") [] 0 (abspath text) [] [] [])
  | Some (scheme, rest) =>
      let scheme := lower scheme in
      if bool_decide (scheme = s_ "file") then
        Ok (make_url lower (s_ "file") [] 0 (match rest with [] => [0x2F] | _ => rest end) [] [] [])
      else
        let '(authority, sep, tail) := partition 0x2F rest in
        let '(userinfo, _, hostport) := rpartition 0x40 authority in
        let '(username, password) := split_user userinfo in
        let '(host, port_s) := split_host hostport in
        port ← match port_s with
               | [] => Ok (default_port scheme)
               | _ => match py_int port_s with Some p => Ok p | None => Err ValueError end
               end;
        let path_and_cgi := if (sep : bool) then 0x2F :: tail else [0x2F] in
        let '(path_s, _, cgi) := partition 0x3F path_and_cgi in
        let query := match cgi with [] => [] | _ => dict_of (parse_qsl cgi) end in
        Ok (make_url lower scheme host port (_normalize path_s) username password query)
  end.
End Parse.

(** ** Unescaping undoes escaping *)

Definition ascii (c : Z) : Prop := 0 <= c < 0x80.

Lemma unquote_literal c t : c <> 0x25 -> unquote_to_bytes (c :: t) = z2b c :: unquote_to_bytes t.
Proof.
  intros Hc. simpl. destruct (Z.eqb_spec c 0x25); [done|]. by destruct t as [|a [|b r]].
Qed.

Lemma unhex_HEX d : 0 <= d < 16 -> unhex (HEX d) = Some d.
Proof.
  intros Hd. assert (exists n : nat, d = Z.of_nat n /\ (n < 16)%nat) as (n & -> & Hn)
    by (exists (Z.to_nat d); lia).
  do 16 (destruct n as [|n]; [reflexivity|]). lia.
Qed.

Lemma unreserved_spec z : unreserved z = true -> ascii z /\ z <> 0x25 /\ z <> 0x2B /\ z <> 0x26 /\ z <> 0x3D
  /\ z <> 0x40 /\ z <> 0x3A /\ z <> 0x2F /\ z <> 0x3F.
Proof.
  unfold unreserved, ascii. rewrite !orb_true_iff, !andb_true_iff, !Z.leb_le, !Z.eqb_eq. lia.
Qed.

(** The characters an escaped text is made of. *)
Definition tame (c : Z) : Prop :=
  ascii c /\ c <> 0x26 /\ c <> 0x3D /\ c <> 0x40 /\ c <> 0x3A /\ c <> 0x2F /\ c <> 0x3F.

Lemma HEX_range d : 0 <= d < 16 -> 0x30 <= HEX d <= 0x39 \/ 0x41 <= HEX d <= 0x46.
Proof. intros Hd. unfold HEX. destruct (Z.ltb_spec d 10); lia. Qed.

Lemma byte_halves b : 0 <= b2z b / 16 < 16 /\ 0 <= b2z b mod 16 < 16.
Proof.
  pose proof (b2z_range b). split; [|apply Z.mod_pos_bound; lia].
  split; [apply Z.div_pos; lia | apply Z.div_lt_upper_bound; lia].
Qed.

Lemma quote_byte_tame b : Forall (fun c => tame c /\ c <> 0x2B) (quote_byte b).
Proof.
  unfold quote_byte. destruct (unreserved (b2z b)) eqn:E.
  - apply unreserved_spec in E. unfold tame, ascii in *. repeat constructor; lia.
  - destruct (byte_halves b) as [H1 H2]. apply HEX_range in H1, H2. unfold escape, tame, ascii.
    repeat constructor; lia.
Qed.

Lemma plus_byte_tame b : Forall tame (plus_byte b).
Proof.
  unfold plus_byte. destruct (Z.eqb_spec (b2z b) 0x20).
  - unfold tame, ascii. repeat constructor; lia.
  - eapply Forall_impl; [apply quote_byte_tame|]. by intros c [? _].
Qed.

Lemma unquote_quote_byte b t : unquote_to_bytes (quote_byte b ++ t) = b :: unquote_to_bytes t.
Proof.
  unfold quote_byte. destruct (unreserved (b2z b)) eqn:E.
  - apply unreserved_spec in E as (_ & Hn & _). cbn [app]. by rewrite unquote_literal, z2b_b2z by done.
  - destruct (byte_halves b) as [H1 H2]. unfold escape. cbn [app]. cbn [unquote_to_bytes].
    change (0x25 =? 0x25) with true. cbv iota. rewrite !unhex_HEX by done.
    f_equal. rewrite <- (z2b_b2z b) at 3. f_equal. symmetry. apply Z.div_mod. lia.
Qed.

Lemma unquote_quote_bytes (b : bytes) : unquote_to_bytes (b ≫= quote_byte) = b.
Proof.
  induction b as [|x b IH]; [done|]. cbn [mbind list_bind]. by rewrite unquote_quote_byte, IH.
Qed.

Lemma plus_to_space_quoted l : Forall (fun c => tame c /\ c <> 0x2B) l -> plus_to_space l = l.
Proof.
  induction 1 as [|c l [_ Hc] _ IH]; [done|]. simpl. rewrite IH. by destruct (Z.eqb_spec c 0x2B).
Qed.

Lemma unquote_plus_bytes (b : bytes) : unquote_to_bytes (plus_to_space (b ≫= plus_byte)) = b.
Proof.
  induction b as [|x b IH]; [done|]. cbn [mbind list_bind]. unfold plus_to_space at 1. rewrite map_app.
  fold (plus_to_space (b ≫= plus_byte)). fold (plus_to_space (plus_byte x)).
  unfold plus_byte at 1. destruct (Z.eqb_spec (b2z x) 0x20) as [E|E].
  - change (plus_to_space [0x2B]) with [0x20]. cbn [app]. rewrite unquote_literal, IH by done.
    by rewrite <- E, z2b_b2z.
  - rewrite plus_to_space_quoted by apply quote_byte_tame. by rewrite unquote_quote_byte, IH.
Qed.

Lemma ascii_encode s : Forall ascii s -> utf8_encode s = Some (map z2b s).
Proof.
  induction 1 as [|c s Hc _ IH]; [done|]. simpl. rewrite IH. unfold ascii in Hc.
  unfold utf8_char. destruct (Z.ltb_spec c 0); [lia|]. destruct (Z.leb_spec 0x110000 c); [lia|].
  destruct (Z.ltb_spec c 0x80); [done|lia].
Qed.

Lemma unquote_runs_ascii run s :
  Forall ascii s -> unquote_runs run s = utf8_decode (unquote_to_bytes (reverse run ++ s)).
Proof.
  intros Hs. revert run. induction Hs as [|c s Hc _ IH]; intros run; [by rewrite app_nil_r|].
  simpl. unfold ascii in Hc. destruct (Z.leb_spec 0 c); [|lia]. destruct (Z.ltb_spec c 0x80); [|lia].
  simpl. rewrite IH, reverse_cons, <- app_assoc. done.
Qed.

Lemma unquote_ascii s : Forall ascii s -> unquote s = utf8_decode (unquote_to_bytes s).
Proof.
  intros Hs. unfold unquote, contains. destruct (bool_decide (0x25 ∈ s)) eqn:E.
  - by rewrite unquote_runs_ascii.
  - apply bool_decide_eq_false in E. assert (unquote_to_bytes s = map z2b s) as ->.
    { clear Hs. induction s as [|c s IH]; [done|]. rewrite not_elem_of_cons in E. destruct E as [Hc E].
      rewrite unquote_literal by congruence. cbn [map]. by rewrite IH. }
    symmetry. apply utf8_decode_encode. by apply ascii_encode.
Qed.

Lemma tame_ascii l : Forall tame l -> Forall ascii l.
Proof. intros H. eapply Forall_impl; [exact H|]. by intros c [? _]. Qed.

Lemma quote_spec s q : quote s = Ok q -> Forall tame q /\ unquote q = s.
Proof.
  unfold quote, Writer.encode_str. destruct (utf8_encode s) as [b|] eqn:E; [|done].
  cbn [mbind result_bind]. intros [= <-].
  assert (Forall tame (b ≫= quote_byte)) as Ht.
  { apply Forall_bind, Forall_true. intros x. eapply Forall_impl; [apply quote_byte_tame|]. by intros c [? _]. }
  split; [done|]. rewrite unquote_ascii by (by apply tame_ascii).
  rewrite unquote_quote_bytes. by apply utf8_decode_encode.
Qed.

Lemma quote_plus_spec s q : quote_plus s = Ok q -> Forall tame q /\ unquote (plus_to_space q) = s.
Proof.
  unfold quote_plus, Writer.encode_str. destruct (utf8_encode s) as [b|] eqn:E; [|done].
  cbn [mbind result_bind]. intros [= <-].
  assert (Forall tame (b ≫= plus_byte)) as Ht by (apply Forall_bind, Forall_true, plus_byte_tame).
  split; [done|]. rewrite unquote_ascii.
  - rewrite unquote_plus_bytes. by apply utf8_decode_encode.
  - apply Forall_map. eapply Forall_impl; [exact Ht|]. intros c [Hc _].
    destruct (c =? 0x2B); [by vm_compute | done].
Qed.

(** ** Reading a number back *)

Lemma digit_value_dec d : 0 <= d < 10 -> digit_value (0x30 + d) = Some d.
Proof.
  intros Hd. assert (exists n : nat, d = Z.of_nat n /\ (n < 10)%nat) as (n & -> & Hn)
    by (exists (Z.to_nat d); lia).
  do 10 (destruct n as [|n]; [reflexivity|]). lia.
Qed.

Lemma int_digits_dec fuel v acc :
  0 <= v < 10 ^ Z.of_nat fuel -> (0 < fuel)%nat ->
  exists k, 1 <= k <= Z.of_nat fuel /\
    forall a n b, int_digits (dec_digits fuel v acc) a n b = int_digits acc (a * 10 ^ k + v) (n + k) true.
Proof.
  revert v acc. induction fuel as [|fuel IH]; intros v acc Hv Hf; [lia|]. cbn [dec_digits].
  pose proof (Z.mod_pos_bound v 10 ltac:(lia)) as Hm. pose proof (Z.div_mod v 10 ltac:(lia)) as Hdm.
  rewrite Nat2Z.inj_succ, Z.pow_succ_r in Hv by lia.
  destruct (Z.eqb_spec (v / 10) 0) as [Hz|Hz].
  - exists 1. split; [lia|]. intros a n b. cbn [int_digits]. rewrite digit_value_dec by lia.
    f_equal; lia.
  - assert (0 <= v / 10 < 10 ^ Z.of_nat fuel) as Hd
      by (split; [apply Z.div_pos; lia | apply Z.div_lt_upper_bound; lia]).
    assert (fuel <> 0%nat) by (intros ->; simpl in Hd; lia).
    destruct (IH (v / 10) ((0x30 + v mod 10) :: acc) Hd ltac:(lia)) as (k & Hk & Hi).
    exists (k + 1). split; [lia|]. intros a n b. rewrite Hi. cbn [int_digits].
    rewrite digit_value_dec by lia. rewrite Z.pow_add_r by lia. f_equal; lia.
Qed.

Definition is_digit (c : Z) : Prop := 0x30 <= c <= 0x39.

Lemma dec_digits_chars fuel v acc : Forall is_digit acc -> Forall is_digit (dec_digits fuel v acc).
Proof.
  revert v acc. induction fuel as [|fuel IH]; intros v acc Ha; [done|]. cbn [dec_digits].
  assert (Forall is_digit ((0x30 + v mod 10) :: acc)).
  { constructor; [|done]. unfold is_digit. pose proof (Z.mod_pos_bound v 10 ltac:(lia)). lia. }
  case_goal; auto.
Qed.

Lemma strip_by_none (p : Z -> bool) (l : str) : Forall (fun c => p c = false) l -> strip_by p l = l.
Proof.
  intros Hl. assert (forall k : str, Forall (fun c => p c = false) k -> lstrip_by p k = k) as H.
  { intros k Hk. destruct Hk as [|c k Hc _]; [done|]. simpl. by rewrite Hc. }
  unfold strip_by, rstrip_by. rewrite (H l Hl), H by (by apply Forall_reverse). apply reverse_involutive.
Qed.

Lemma log2_dec_fuel v : 0 <= v -> v < 10 ^ Z.of_nat (S (Z.to_nat (Z.log2 v))).
Proof.
  intros Hv. rewrite Nat2Z.inj_succ, Z2Nat.id by apply Z.log2_nonneg.
  destruct (decide (v = 0)) as [->|]; [done|].
  apply Z.lt_le_trans with (2 ^ Z.succ (Z.log2 v)); [apply Z.log2_spec; lia|]. apply Z.pow_le_mono_l. lia.
Qed.

Lemma to_dec_spec p :
  0 <= p < 65536 -> py_int (to_dec p) = Some p /\ to_dec p <> [] /\ Forall is_digit (to_dec p).
Proof.
  intros Hp. unfold to_dec. destruct (Z.ltb_spec p 0); [lia|].
  set (l := dec_digits _ p []).
  assert (Forall is_digit l) as Hd by (apply dec_digits_chars; constructor).
  destruct (int_digits_dec (S (Z.to_nat (Z.log2 p))) p []) as (k & Hk & Hi);
    [split; [lia | apply log2_dec_fuel; lia] | lia|]. fold l in Hi.
  assert (Z.log2 p <= 16) by (destruct (decide (p = 0)) as [->|]; [done|];
    apply Z.log2_le_mono with (b := 65536); lia).
  assert (l <> []) as Hne by (intros E; specialize (Hi 0 0 false); rewrite E in Hi; done).
  split_and!; [|done|done]. unfold py_int. rewrite strip_by_none.
  - destruct l as [|c l'] eqn:El; [done|]. apply Forall_cons in Hd as [Hc _]. unfold is_digit in Hc.
    destruct (Z.eqb_spec c 0x2D); [lia|]. destruct (Z.eqb_spec c 0x2B); [lia|].
    rewrite Hi. cbn [int_digits]. unfold max_str_digits.
    destruct (Z.ltb_spec 4300 (0 + k)); [pose proof (Z.log2_nonneg p); lia|]. f_equal.
  - eapply Forall_impl; [exact Hd|]. unfold is_digit. intros c Hc. unfold int_space, is_space.
    repeat match goal with |- context [?a <=? ?b] => destruct (Z.leb_spec a b); try lia end;
    repeat match goal with |- context [?a =? ?b] => destruct (Z.eqb_spec a b); try lia end; done.
Qed.

(** ** Parsing what was printed *)

Lemma split_scheme_app s r : 0x3A ∉ s -> split_scheme (s ++ s_ "://" ++ r) = Some (s, r).
Proof.
  induction s as [|c s IH]; [done|]. rewrite not_elem_of_cons. intros [Hc Hs].
  rewrite <- app_comm_cons. cbn [split_scheme]. rewrite IH by done.
  assert (startswith (s_ "://") (c :: s ++ s_ "://" ++ r) = false) as ->; [|done].
  change (s_ "://") with [0x3A; 0x2F; 0x2F]. cbn [startswith]. by rewrite bool_decide_eq_false_2.
Qed.

Lemma rpartition_none {A} `{!EqDecision A} (sep : A) l : sep ∉ l -> rpartition sep l = ([], false, l).
Proof. intros Hl. unfold rpartition. by rewrite partition_none by (by rewrite elem_of_reverse). Qed.

Lemma tame_not_in q (c : Z) : Forall tame q -> ~ tame c -> c ∉ q.
Proof. intros Hq Hc Hin. rewrite Forall_forall in Hq. by apply Hc, Hq. Qed.

Lemma form_field_spec kv f :
  form_field kv = Ok f ->
  f <> [] /\ 0x26 ∉ f
  /\ (let '(k, _, v) := partition 0x3D f in (unquote (plus_to_space k), unquote (plus_to_space v))) = kv.
Proof.
  unfold form_field. intros H. destruct kv as [key val]. cbn [fst snd] in H.
  destruct (quote_plus key) as [k|] eqn:Ek; [|done]. cbn [mbind result_bind] in H.
  destruct (quote_plus val) as [v|] eqn:Ev; [|done]. cbn [mbind result_bind] in H. injection H as <-.
  apply quote_plus_spec in Ek as [Hk <-], Ev as [Hv <-].
  split; [by destruct k|]. split.
  - rewrite not_elem_of_app, not_elem_of_cons. split_and!; [|done|];
      (apply tame_not_in; [done | unfold tame; lia]).
  - by rewrite partition_app by (apply tame_not_in; [done | unfold tame; lia]).
Qed.

Lemma parse_qsl_urlencode q e : urlencode q = Ok e -> q <> [] -> e <> [] /\ parse_qsl e = q.
Proof.
  unfold urlencode. destruct (mapM_res form_field q) as [fs|] eqn:E; [|done].
  cbn [mbind result_bind]. intros [= <-] Hq.
  assert (length fs = length q /\ Forall (fun f => f <> [] /\ 0x26 ∉ f) fs /\
    omap (fun f => match f with [] => None | _ => let '(k, _, v) := partition 0x3D f in
            Some (unquote (plus_to_space k), unquote (plus_to_space v)) end) fs = q) as (Hl & Hf & Ho).
  { clear Hq. revert fs E. induction q as [|kv q IH]; intros fs E; cbn [mapM_res] in E.
    - injection E as <-. done.
    - destruct (form_field kv) as [f|] eqn:Ef; [|done]. cbn [mbind result_bind] in E.
      destruct (mapM_res form_field q) as [fs'|]; [|done]. injection E as <-.
      destruct (IH fs' eq_refl) as (Hl & Hf & Ho). apply form_field_spec in Ef as (Hne & Hns & Hkv).
      split_and!; [by simpl; rewrite Hl | by constructor|].
      destruct f as [|c f]; [done|]. cbn [omap list_omap]. rewrite <- Hkv.
      destruct (partition 0x3D (c :: f)) as [[k b] v]. by rewrite Ho. }
  assert (fs <> []) by (by destruct fs, q). split.
  - destruct fs as [|f fs]; [done|]. apply Forall_cons in Hf as [[Hne _] _]. destruct fs; [done|].
    simpl. by destruct f.
  - unfold parse_qsl. rewrite split_join; [done|done|]. eapply Forall_impl; [exact Hf|]. by intros ? [_ ?].
Qed.

Lemma dict_of_nodup q : NoDup (dict_keys q) -> dict_of q = q.
Proof.
  unfold dict_of. intros Hn.
  enough (forall d, NoDup (dict_keys (d ++ q)) ->
    foldl (fun d kv => dict_set kv.1 kv.2 d) d q = d ++ q) as H by exact (H [] Hn).
  clear Hn. induction q as [|[k v] q IH]; intros d Hd; [by rewrite app_nil_r|]. cbn [foldl fst snd].
  assert (d ++ (k, v) :: q = (d ++ [(k, v)]) ++ q) as E by (by rewrite <- app_assoc).
  rewrite dict_set_end.
  - rewrite IH; [by rewrite E | by rewrite <- E].
  - unfold dict_keys in *. rewrite fmap_app in Hd. apply NoDup_app in Hd as (_ & Hd & _).
    intros Hin. apply (Hd k Hin). left.
Qed.

(** A URL of the [root] family whose text form says all there is to say. *)
Record printable (lower : str -> str) (u : XRootDURL) : Prop := {
  pr_scheme : u_scheme u ∈ ROOT_SCHEMES;
  pr_lower : lower (u_scheme u) = u_scheme u /\ lower (u_host u) = u_host u;
  pr_host : Forall (fun c => c <> 0x2F /\ c <> 0x40 /\ c <> 0x5B /\ c <> 0x5D) (u_host u);
  pr_port : 0 <= u_port u < 65536;
  pr_path : _normalize (u_path u) = u_path u /\ 0x3F ∉ u_path u;
  pr_user : u_password u <> [] -> u_username u <> [];
  pr_query : NoDup (dict_keys (u_query u))
}.

Lemma root_scheme_shape s : s ∈ ROOT_SCHEMES -> 0x3A ∉ s /\ s <> s_ "file" /\ s ∉ S3_SCHEMES.
Proof.
  unfold ROOT_SCHEMES, S3_SCHEMES. rewrite !elem_of_cons, elem_of_nil.
  intros [->|[->|[->|[->|[->|[]]]]]]; (split_and!; [decided | done | decided]).
Qed.

Lemma auth_str_spec u auth :
  auth_str u = Ok auth -> (u_password u <> [] -> u_username u <> []) ->
  (auth = [] /\ u_username u = [] /\ u_password u = [])
  \/ exists ui, auth = ui ++ [0x40] /\ 0x2F ∉ ui /\ split_user ui = (u_username u, u_password u).
Proof.
  unfold auth_str. intros H Hup. destruct (u_username u) as [|x n'] eqn:Eu.
  - injection H as <-. left. destruct (u_password u); [done|]. by destruct (Hup ltac:(done)).
  - right. rewrite <- Eu in *. destruct (quote (u_username u)) as [n|] eqn:En; [|done].
    cbn [mbind result_bind] in H. apply quote_spec in En as [Hn Hu].
    assert (n <> []) as Hne by (intros ->; rewrite Eu in Hu; done).
    assert (0x2F ∉ n /\ 0x3A ∉ n) as [Hs Hc]
      by (split; (apply tame_not_in; [done | unfold tame; lia])).
    destruct (u_password u) as [|y p'] eqn:Ep.
    + injection H as <-. exists n. split_and!; [done|done|]. destruct n as [|c n]; [done|].
      unfold split_user. rewrite partition_none by done. by rewrite Hu.
    + rewrite <- Ep in *. destruct (quote (u_password u)) as [q|] eqn:Eq; [|done].
      cbn [mbind result_bind] in H. injection H as <-. apply quote_spec in Eq as [Hq Hp].
      exists (n ++ 0x3A :: q). split; [by rewrite <- app_assoc|]. split.
      * rewrite not_elem_of_app, not_elem_of_cons. split_and!; [done|done|].
        apply tame_not_in; [done | unfold tame; lia].
      * destruct n as [|c n]; [done|]. unfold split_user. rewrite <- app_comm_cons.
        change (c :: n ++ 0x3A :: q) with ((c :: n) ++ 0x3A :: q). rewrite partition_app by done.
        by rewrite Hu, Hp.
Qed.

Lemma not_in_host (P : Z -> Prop) (host : str) c : Forall P host -> ~ P c -> c ∉ host.
Proof. intros Hh Hc Hin. rewrite Forall_forall in Hh. by apply Hc, Hh. Qed.

Lemma netloc_spec lower u :
  printable lower u ->
  0x2F ∉ netloc u /\ 0x40 ∉ netloc u
  /\ exists ds, split_host (netloc u) = (u_host u, ds) /\ ds <> [] /\ py_int ds = Some (u_port u).
Proof.
  intros Hp. pose proof (pr_host _ _ Hp) as Hh.
  destruct (to_dec_spec (u_port u) (pr_port _ _ Hp)) as (Hi & Hne & Hd).
  assert (forall c, ~ is_digit c -> c ∉ to_dec (u_port u)) as Hnd
    by (intros c Hc; by apply (not_in_host is_digit)).
  assert (0x2F ∉ u_host u /\ 0x40 ∉ u_host u /\ 0x5B ∉ u_host u /\ 0x5D ∉ u_host u) as (H1 & H2 & H3 & H4)
    by (split_and!; (eapply not_in_host; [exact Hh | tauto])).
  unfold netloc. cbv zeta. set (ds := to_dec (u_port u)) in *.
  assert (0x2F ∉ ds /\ 0x40 ∉ ds) as [Hs Ha] by (split; apply Hnd; unfold is_digit; lia).
  destruct (contains 0x3A (u_host u)) eqn:E.
  - split_and!.
    + rewrite !not_elem_of_app, !not_elem_of_cons, not_elem_of_app, not_elem_of_cons.
      split_and!; try done. apply not_elem_of_nil.
    + rewrite !not_elem_of_app, !not_elem_of_cons, not_elem_of_app, not_elem_of_cons.
      split_and!; try done. apply not_elem_of_nil.
    + exists ds. split_and!; [|done|done]. unfold split_host. rewrite <- app_comm_cons. cbn [startswith].
      rewrite bool_decide_eq_true_2 by done. cbn [andb drop]. rewrite <- app_assoc. cbn [app].
      rewrite drop_0, partition_app by done. f_equal. simpl. destruct ds as [|c ds'] eqn:Eds; [done|].
      apply Forall_cons in Hd as [Hc _]. unfold is_digit in Hc. cbn. destruct (Z.eqb_spec c 0x3A); [lia | done].
  - unfold contains in E. apply bool_decide_eq_false in E. split_and!.
    + rewrite not_elem_of_app, not_elem_of_cons. by split_and!.
    + rewrite not_elem_of_app, not_elem_of_cons. by split_and!.
    + exists ds. split_and!; [|done|done]. unfold split_host.
      assert (startswith [0x5B] (u_host u ++ 0x3A :: ds) = false) as ->.
      { destruct (u_host u) as [|c h]; [done|]. cbn. rewrite not_elem_of_cons in H3.
        by rewrite bool_decide_eq_false_2 by tauto. }
      by rewrite partition_app.
Qed.

(** The wire form of a path, normalised, is the path. *)
Lemma normalize_wire p : _normalize p = p -> _normalize (0x2F :: 0x2F :: lstrip_by is_slash p) = p.
Proof.
  intros Hp. destruct (normalize_shape p) as (comps & Hc & Hs). rewrite Hp in Hs.
  assert (forall l, lstrip_by is_slash l = l -> l <> [] ->
    _normalize (0x2F :: 0x2F :: l) = _normalize (0x2F :: l)) as Hn.
  { intros l Hl Hne. unfold _normalize. simpl (lstrip_by _ _). rewrite Hl.
    assert (endswith [0x2F] (0x2F :: 0x2F :: l) = endswith [0x2F] (0x2F :: l)) as ->.
    { destruct l as [|x l _] using rev_ind; [done|]. rewrite !app_comm_cons, !endswith_snoc. done. }
    assert (1 <? zlen (0x2F :: 0x2F :: l) = true) as ->
      by (rewrite !zlen_cons; apply Z.ltb_lt; pose proof (zlen_nonneg l); lia).
    assert (1 <? zlen (0x2F :: l) = true) as ->; [|done].
    destruct l as [|x l]; [done|]. rewrite !zlen_cons. apply Z.ltb_lt. pose proof (zlen_nonneg l). lia. }
  pose proof (join_head comps Hc) as Hj. destruct Hs as [-> | [Hne ->]].
  - destruct (join 0x2F comps) as [|x l] eqn:E.
    + unfold rooted. rewrite E. done.
    + unfold rooted. rewrite E. change (lstrip_by is_slash (0x2F :: x :: l)) with (lstrip_by is_slash (x :: l)).
      rewrite Hj, Hn by done. rewrite <- E. by apply normalize_rooted.
  - assert (join 0x2F comps <> []) as Hjn.
    { destruct comps as [|c cs]; [done|]. apply Forall_cons in Hc as [(Hnil & _) _]. rewrite join_cons.
      destruct cs; [done|]. by destruct c. }
    assert (lstrip_by is_slash (join 0x2F comps ++ [0x2F]) = join 0x2F comps ++ [0x2F]) as Hl.
    { destruct (join 0x2F comps) as [|x l]; [done|]. cbn [app lstrip_by].
      assert (is_slash x = false) as -> by (apply (lstrip_head is_slash (x :: l)); by rewrite Hj). done. }
    unfold rooted. rewrite <- app_comm_cons.
    change (lstrip_by is_slash (0x2F :: join 0x2F comps ++ [0x2F]))
      with (lstrip_by is_slash (join 0x2F comps ++ [0x2F])).
    rewrite Hl, Hn; [|done|by destruct (join 0x2F comps)]. by apply normalize_rooted_slash.
Qed.

Lemma lstrip_subset (p : Z -> bool) (l : str) c : c ∈ lstrip_by p l -> c ∈ l.
Proof. induction l as [|x l IH]; [done|]. simpl. destruct (p x); [|done]. intros. right. auto. Qed.

(** What [str(url)] is made of: the scheme, the authority, the path behind
    its double slash, and the query. *)
Lemma url_str_shape lower u t :
  printable lower u -> url_str u = Ok t ->
  let wire := lstrip_by is_slash (u_path u) in
  exists auth cgi, auth_str u = Ok auth
    /\ t = u_scheme u ++ s_ "://" ++ (auth ++ netloc u) ++ 0x2F :: (0x2F :: wire ++ cgi)
    /\ (let '(p, _, c) := partition 0x3F (0x2F :: 0x2F :: wire ++ cgi) in
        p = 0x2F :: 0x2F :: wire /\ match c with [] => [] | _ => dict_of (parse_qsl c) end = u_query u).
Proof.
  intros Hp Ht. destruct (root_scheme_shape _ (pr_scheme _ _ Hp)) as (_ & Hnf & Hs3).
  pose proof (pr_path _ _ Hp) as [_ Hq]. unfold url_str, is_local, is_s3, is_root in Ht.
  rewrite (bool_decide_eq_false_2 _ Hnf), (bool_decide_eq_false_2 _ Hs3),
    (bool_decide_eq_true_2 _ (pr_scheme _ _ Hp)) in Ht.
  destruct (auth_str u) as [auth|] eqn:Ea; [|done]. cbn [mbind result_bind] in Ht. cbv zeta in Ht |- *.
  set (wire := lstrip_by is_slash (u_path u)) in *. exists auth.
  assert (0x3F ∉ 0x2F :: 0x2F :: wire) as Hwq.
  { rewrite !not_elem_of_cons. split_and!; [done|done|]. intros Hin. by apply Hq, (lstrip_subset is_slash). }
  destruct (u_query u) as [|kv q] eqn:Eq.
  - injection Ht as <-. exists []. split_and!; [done | by rewrite <- !app_assoc, app_nil_r |].
    rewrite app_nil_r, partition_none by done. done.
  - destruct (urlencode (kv :: q)) as [e|] eqn:Ee; [|done]. cbn [mbind result_bind] in Ht.
    assert (t = (u_scheme u ++ s_ "://" ++ auth ++ netloc u ++ [0x2F; 0x2F] ++ wire) ++ 0x3F :: e) as ->
      by congruence.
    exists (0x3F :: e). split_and!; [done | by rewrite <- !app_assoc |].
    change (0x2F :: 0x2F :: wire ++ 0x3F :: e) with ((0x2F :: 0x2F :: wire) ++ 0x3F :: e).
    rewrite partition_app by done. split; [done|].
    apply parse_qsl_urlencode in Ee as [Hne ->]; [|done].
    destruct e; [done|]. apply dict_of_nodup. rewrite <- Eq. apply (pr_query _ _ Hp).
Qed.

(** C40: a printed URL reads back as itself. For every [root]-family URL whose
    scheme and host are in lower case, whose host is free of the delimiters
    of an authority (an IPv6 literal included), whose port fits 16 bits,
    whose path is normal and holds no question mark, that has no password
    without a user name and no query key twice: if [str(url)] succeeds then
    [parse] of it returns the same URL - scheme, host, port, path, user,
    password and every query parameter, whatever characters the last three
    hold. (A path with a question mark, as [FileSystem._url_for] makes them,
    reads back as path and query.) *)
Theorem parse_url_str lower abspath u t :
  printable lower u -> url_str u = Ok t -> parse lower abspath t = Ok u.
Proof.
  intros Hp Ht. destruct (root_scheme_shape _ (pr_scheme _ _ Hp)) as (Hcol & Hnf & Hs3).
  pose proof (pr_lower _ _ Hp) as [Hls Hlh]. pose proof (pr_path _ _ Hp) as [Hpath Hq].
  destruct (netloc_spec lower u Hp) as (Hnl1 & Hnl2 & ds & Hhost & Hds & Hport).
  destruct (url_str_shape lower u t Hp Ht) as (auth & cgi & Ea & -> & Hcgi).
  apply auth_str_spec in Ea; [|apply (pr_user _ _ Hp)].
  unfold parse. rewrite split_scheme_app by done. cbv zeta. rewrite Hls.
  rewrite (bool_decide_eq_false_2 _ Hnf).
  assert (0x2F ∉ auth ++ netloc u) as Hslash.
  { rewrite not_elem_of_app. split; [|done]. destruct Ea as [(-> & _)|(ui & -> & Hui & _)];
      [apply not_elem_of_nil|]. rewrite not_elem_of_app, not_elem_of_cons. split_and!; [done|done|apply not_elem_of_nil]. }
  rewrite partition_app by done.
  assert (exists b ui, rpartition 0x40 (auth ++ netloc u) = (ui, b, netloc u)
    /\ split_user ui = (u_username u, u_password u)) as (b & ui & -> & ->).
  { destruct Ea as [(-> & Hu & Hpw)|(ui & -> & _ & Hui)].
    - exists false, []. cbn [app]. rewrite rpartition_none by done. by rewrite Hu, Hpw.
    - exists true, ui. rewrite <- app_assoc. cbn [app]. by rewrite rpartition_app. }
  rewrite Hhost. destruct ds as [|d ds]; [done|]. rewrite Hport. cbn [mbind result_bind]. cbv iota.
  destruct (partition 0x3F (0x2F :: 0x2F :: lstrip_by is_slash (u_path u) ++ cgi)) as [[p f] c]. destruct Hcgi as [-> ->].
  unfold make_url. rewrite Hls, Hlh. rewrite normalize_wire by done. by destruct u.
Qed.

Definition demo_url : XRootDURL :=
  mkURL (s_ "roots") (s_ "::1") 1094 (s_ "/store/a b/f.root") (s_ "me@cern") (s_ "p:w")
    [(s_ "authz", s_ "Bearer a+b/c"); (s_ "x", [])].

Lemma demo_url_printable : printable id demo_url.
Proof.
  split; try done.
  - decided.
  - decided.
  - split; [vm_compute; reflexivity|]. decided.
  - decided.
Qed.

Lemma parse_url_str_witness :
  exists t, url_str demo_url = Ok t /\ parse id id t = Ok demo_url.
Proof.
  destruct (url_str demo_url) as [t|] eqn:E; [|vm_compute in E; discriminate E].
  exists t. split; [reflexivity|].
  exact (parse_url_str id id demo_url t demo_url_printable E).
Defined.

(** ** Well-formed URLs

    The query editors, the redacted form and the file-system path of
    src/xrd/url.py, and what every derived URL keeps. *)

Open Scope Z_scope.

Definition endpoint (u : XRootDURL) : str * str * Z := (u_scheme u, u_host u, u_port u).

Section Edit.
Variable lower : str -> str.

(** [replace(self, query=...)]. *)
Definition set_query (u : XRootDURL) (q : dict str str) : XRootDURL :=
  make_url lower (u_scheme u) (u_host u) (u_port u) (u_path u) (u_username u) (u_password u) q.

(** [with_query]: a keyword given as [None] is left alone. *)
Definition with_query (u : XRootDURL) (params : dict str (option str)) : XRootDURL :=
  set_query u (foldl (fun q '(k, v) => match v with Some v => dict_set k v q | None => q end) (u_query u) params).

Definition without_query (u : XRootDURL) : XRootDURL := set_query u [].

Definition hidden : str := s_ "<redacted>".

(** What [__repr__] prints: the password and the token masked. *)
Definition redacted (u : XRootDURL) : XRootDURL :=
  if bool_decide (u_password u <> []) || bool_decide (is_Some (dict_get (s_ "authz") (u_query u))) then
    let q := (fun '(k, v) => (k, if bool_decide (k = s_ "authz") then hidden else v)) <$> u_query u in
    make_url lower (u_scheme u) (u_host u) (u_port u) (u_path u) (u_username u)
      (match u_password u with [] => [] | _ => hidden end) q
  else u.
End Edit.

(** [os.fspath(url)]. *)
Definition fspath (u : XRootDURL) : res str := if is_local u then Ok (u_path u) else Err TypeError.

(** ** Secrets *)

Lemma masked_set k v (q : dict str str) : is_Some (dict_get k q) ->
  (fun '(k', w) => (k', if bool_decide (k' = k) then hidden else w)) <$> dict_set k v q
  = (fun '(k', w) => (k', if bool_decide (k' = k) then hidden else w)) <$> q.
Proof.
  induction q as [|[k' w] q IH]; [by intros []|]. cbn [dict_get dict_set]. case_decide as E.
  - subst. intros _. cbn. by rewrite bool_decide_eq_true_2.
  - intros H. rewrite !fmap_cons, IH by done. done.
Qed.

(** What is printed of a URL says nothing of its password or token. *)
Lemma redacted_hides lower u password token :
  u_password u <> [] -> password <> [] -> is_Some (dict_get (s_ "authz") (u_query u)) ->
  redacted lower (mkURL (u_scheme u) (u_host u) (u_port u) (u_path u) (u_username u) password
                    (dict_set (s_ "authz") token (u_query u)))
  = redacted lower u.
Proof.
  intros Hu Hp Ha. unfold redacted. cbn [u_password u_query u_scheme u_host u_port u_path u_username].
  rewrite !(bool_decide_eq_true_2 (_ <> _)) by done. cbn [orb]. rewrite masked_set by done.
  by destruct password, (u_password u).
Qed.

(** ** The type of a URL *)

(** A rooted path of plain components, with or without a trailing slash. *)
Definition normal_path (p : str) : Prop :=
  exists comps, Forall plain_component comps
    /\ (p = rooted comps \/ comps <> [] /\ p = rooted comps ++ [0x2F]).

(** Everything [url.py] makes of a URL. [evolve] takes any keywords; it does
    not normalise a path it is given, so that one has to be normal. *)
Inductive derived (lower : str -> str) (u : XRootDURL) : XRootDURL -> Prop :=
  | derived_itself : derived lower u u
  | derived_path v path : derived lower u v -> derived lower u (with_path lower v path)
  | derived_join v parts : derived lower u v -> derived lower u (url_join lower v parts)
  | derived_parent v : derived lower u v -> derived lower u (parent lower v)
  | derived_evolve v changes : derived lower u v -> (forall p, ch_path changes = Some p -> normal_path p) ->
      derived lower u (evolve lower v changes)
  | derived_with_query v params : derived lower u v -> derived lower u (with_query lower v params)
  | derived_without_query v : derived lower u v -> derived lower u (without_query lower v)
  | derived_redacted v : derived lower u v -> derived lower u (redacted lower v).

Section Typed.
Variable lower : str -> str.
Variable abspath : str -> str.
Hypothesis lower_idem : forall s, lower (lower s) = lower s.
Hypothesis lower_file : lower (s_ "file") = s_ "file".

Definition url_ok (u : XRootDURL) : Prop :=
  lower (u_scheme u) = u_scheme u /\ lower (u_host u) = u_host u /\ normal_path (u_path u).

Lemma make_url_ok scheme host port path username password q :
  normal_path path -> url_ok (make_url lower scheme host port path username password q).
Proof. intros Hp. unfold url_ok, make_url. cbn. by rewrite !lower_idem. Qed.

Lemma normalize_normal path : normal_path (_normalize path).
Proof. apply normalize_shape. Qed.

Lemma local_path path u : Ok (make_url lower (s_ "file") [] 0 path [] [] []) = (Ok u : res XRootDURL) -> is_local u = true.
Proof.
  intros H. assert (E : u_scheme u = lower (s_ "file")).
  { assert (Hu : make_url lower (s_ "file") [] 0 path [] [] [] = u) by congruence. by rewrite <- Hu. }
  unfold is_local. rewrite E, lower_file. by apply bool_decide_eq_true_2.
Qed.

Lemma parse_ok text u : parse lower abspath text = Ok u -> is_local u = false -> url_ok u.
Proof.
  unfold parse. intros H Hl.
  destruct (split_scheme text) as [[scheme rest]|].
  - destruct (bool_decide (lower scheme = s_ "file")) eqn:Ef.
    + apply local_path in H. congruence.
    + destruct (partition 0x2F rest) as [[authority sep] tail].
      destruct (rpartition 0x40 authority) as [[userinfo ?] hostport].
      destruct (split_user userinfo) as [username password]. destruct (split_host hostport) as [host port_s].
      destruct (match port_s with [] => _ | _ => _ end) as [port|] eqn:?; [|done]. cbn [mbind result_bind] in H.
      destruct (partition 0x3F _) as [[path_s ?] cgi]. injection H as <-.
      apply make_url_ok, normalize_normal.
  - apply local_path in H. congruence.
Qed.

(** C33: every URL that parses to one which is not a local path, and every URL
    derived from it by [with_path], [join], [parent], the query editors, by
    redacting it, or by [evolve] with any keywords but a path that is not
    normal itself, has a lower-case scheme and host and an absolute path
    without empty, [.] or [..] components. [str.lower] is idempotent and keeps
    the word file. *)
Theorem url_typed text u v :
  parse lower abspath text = Ok u -> is_local u = false -> derived lower u v -> url_ok v.
Proof.
  intros Hp Hl Hd. pose proof (parse_ok _ _ Hp Hl) as Hu.
  induction Hd as [|v path _ _|v parts _ _|v _ _|v changes _ (_ & _ & IH) Hc|v params _ (_ & _ & IH)|v _ (_ & _ & IH)|v _ IH];
    [done | apply make_url_ok, normalize_normal.. | | by apply make_url_ok | by apply make_url_ok|].
  - apply make_url_ok. destruct (ch_path changes) as [p|]; [by apply Hc | exact IH].
  - unfold redacted. destruct (_ || _); [|done]. apply make_url_ok, IH.
Qed.
End Typed.

Lemma url_typed_witness :
  exists u, parse id id (s_ "roots://me:pw@h:1094//store/../a//b?authz=x") = Ok u
    /\ u_path (redacted id (url_join id u [s_ ".."; s_ "c"])) = s_ "/a/c"
    /\ url_ok id (redacted id (url_join id u [s_ ".."; s_ "c"])).
Proof.
  eexists. split; [vm_compute; reflexivity|]. split; [vm_compute; reflexivity|].
  eapply (url_typed id id (fun _ => eq_refl) eq_refl (s_ "roots://me:pw@h:1094//store/../a//b?authz=x"));
    [vm_compute; reflexivity | vm_compute; reflexivity|].
  apply derived_redacted, derived_join, derived_itself.
Defined.
