(* ===== verification/Glob.v ===== *)
(** * Glob patterns

    [_glob_regex] and [_literal_prefix] of src/xrd/client/filesystem.py. The
    program writes a regular expression as text and hands it to [re]; what is
    modelled of [re] is the syntax that text can have - literals, [.], sets
    and the one group - and [fullmatch]. *)

From S2P Require Import Prelude PyStr Errors Url.
Open Scope Z_scope.

Module Glob.

Definition _MAGIC : str := s_ "*?[".

(** The characters [re.escape] puts a backslash before. *)
Definition re_special : str := s_ "()[]{}?*+-|^$\.&~# " ++ [9; 10; 13; 11; 12].
Definition re_escape (c : Z) : str := if bool_decide (c ∈ re_special) then [0x5C; c] else [c].

(** [body.replace("\\", "\\\\")]. *)
Definition double_backslash (body : str) : str :=
  concat ((fun c => if c =? 0x5C then [0x5C; 0x5C] else [c]) <$> body).

Definition any_dirs : str := s_ "(?:[^/]+/)*".
Definition class_text (body : str) : str :=
  let body := double_backslash body in
  [0x5B] ++ (if startswith [0x21] body then 0x5E :: drop 1 body else body) ++ [0x5D].

(** [while i < len(pattern)]: every turn moves on, so the pattern's length is
    fuel enough. *)
Fixpoint glob_loop (fuel : nat) (pattern : str) : str :=
  match fuel, pattern with
  | O, _ | _, [] => []
  | S fuel, c :: rest =>
      if startswith (s_ "**/") pattern then any_dirs ++ glob_loop fuel (drop 3 pattern)
      else if startswith (s_ "**") pattern then s_ ".*" ++ glob_loop fuel (drop 2 pattern)
      else if c =? 0x2A then s_ "[^/]*" ++ glob_loop fuel rest
      else if c =? 0x3F then s_ "[^/]" ++ glob_loop fuel rest
      else if c =? 0x5B then
        match partition 0x5D rest with
        | (body, true, after) => class_text body ++ glob_loop fuel after
        | _ => re_escape c ++ glob_loop fuel rest
        end
      else re_escape c ++ glob_loop fuel rest
  end.

(** The text given to [re.compile]. *)
Definition _glob_regex (pattern : str) : str := glob_loop (length pattern) pattern.

(** The deepest directory of a pattern that contains no wildcard. *)
Definition magic (part : str) : bool := existsb (fun c => bool_decide (c ∈ _MAGIC)) part.

Fixpoint keep_literal (parts : list str) : list str :=
  match parts with
  | [] => []
  | part :: parts => if magic part then [] else part :: keep_literal parts
  end.

Definition _literal_prefix (pattern : str) : str :=
  match join 0x2F (keep_literal (removelast (split_all 0x2F pattern))) with [] => [0x2F] | p => p end.

(** ** [re] *)

Inductive atom := Dot | Set_ (negated : bool) (ranges : list (Z * Z)).
Definition Lit (c : Z) : atom := Set_ false [(c, c)].

(** [(?:[^/]+/)*] is the only group the program writes. *)
Inductive item := One (a : atom) | Star (a : atom) | Plus (a : atom) | Dirs.

(** One character of a set, escaped or not. *)
Definition set_char (t : str) : res (Z * str) :=
  match t with
  | [] => Err ReError
  | c :: t => if c =? 0x5C then match t with [] => Err ReError | c :: t => Ok (c, t) end else Ok (c, t)
  end.

(** The inside of a set up to its bracket, which is literal when first. *)
Fixpoint set_items (fuel : nat) (t : str) (ranges : list (Z * Z)) : res (list (Z * Z) * str) :=
  match fuel with
  | O => Err ReError
  | S fuel =>
      if startswith [0x5D] t && negb (bool_decide (ranges = [])) then Ok (ranges, drop 1 t) else
      '(lo, t) ← set_char t;
      if startswith [0x2D; 0x5D] t then Ok (ranges ++ [(lo, lo); (0x2D, 0x2D)], drop 2 t)
      else if startswith [0x2D] t then
        '(hi, t) ← set_char (drop 1 t);
        if hi <? lo then Err ReError else set_items fuel t (ranges ++ [(lo, hi)])
      else set_items fuel t (ranges ++ [(lo, lo)])
  end.

Definition parse_set (t : str) : res (atom * str) :=
  let negated := startswith [0x5E] t in
  let t := if negated then drop 1 t else t in
  '(ranges, t) ← set_items (length t) t [];
  Ok (Set_ negated ranges, t).

Definition parse_atom (t : str) : res (atom * str) :=
  match t with
  | [] => Err ReError
  | c :: t =>
      if c =? 0x2E then Ok (Dot, t)
      else if c =? 0x5B then parse_set t
      else if c =? 0x5C then match t with [] => Err ReError | c :: t => Ok (Lit c, t) end
      else if bool_decide (c ∈ re_special) then Err ReError else Ok (Lit c, t)
  end.

(** An atom and what repeats it. *)
Definition parse_item (t : str) : res (item * str) :=
  if startswith any_dirs t then Ok (Dirs, drop (length any_dirs) t) else
  '(a, t) ← parse_atom t;
  if startswith [0x2A] t then Ok (Star a, drop 1 t)
  else if startswith [0x2B] t then Ok (Plus a, drop 1 t)
  else Ok (One a, t).

Fixpoint parse_items (fuel : nat) (t : str) : res (list item) :=
  match fuel with
  | O => Err ReError
  | S fuel =>
      match t with
      | [] => Ok []
      | _ => '(i, t) ← parse_item t; l ← parse_items fuel t; Ok (i :: l)
      end
  end.

Definition re_compile (t : str) : res (list item) := parse_items (S (length t)) t.

Definition atom_matches (a : atom) (c : Z) : bool :=
  match a with
  | Dot => negb (c =? 10)
  | Set_ negated ranges => xorb negated (existsb (fun '(lo, hi) => (lo <=? c) && (c <=? hi)) ranges)
  end.

(** What may be left of a string after an item has taken its part. *)
Definition after_one (a : atom) (s : str) : list str :=
  match s with c :: s => if atom_matches a c then [s] else [] | [] => [] end.
Fixpoint after_star (a : atom) (s : str) : list str :=
  s :: match s with c :: s => if atom_matches a c then after_star a s else [] | [] => [] end.
Definition after_plus (a : atom) (s : str) : list str := after_one a s ≫= after_star a.
Fixpoint after_dirs (begun : bool) (s : str) : list str :=
  match s with
  | [] => []
  | c :: s => if c =? 0x2F then if begun then s :: after_dirs false s else [] else after_dirs true s
  end.

Definition after (i : item) (s : str) : list str :=
  match i with
  | One a => after_one a s
  | Star a => after_star a s
  | Plus a => after_plus a s
  | Dirs => s :: after_dirs false s
  end.

Fixpoint fullmatch (l : list item) (s : str) : bool :=
  match l with
  | [] => bool_decide (s = [])
  | i :: l => existsb (fullmatch l) (after i s)
  end.

(** [_glob_regex(pattern).fullmatch(s)]. *)
Definition glob_matches (pattern s : str) : res bool :=
  l ← re_compile (_glob_regex pattern); Ok (fullmatch l s).

Example glob_examples :
  glob_matches (s_ "/store/**/*.root") (s_ "/store/a/b/c.root") = Ok true
  /\ glob_matches (s_ "/store/**/*.root") (s_ "/store/c.root") = Ok true
  /\ glob_matches (s_ "/store/*.root") (s_ "/store/a/c.root") = Ok false
  /\ glob_matches (s_ "/store/r[0-9]?") (s_ "/store/r7x") = Ok true
  /\ glob_matches (s_ "/store/[") (s_ "/store/[") = Ok true
  /\ glob_matches (s_ "/d/a[]b") (s_ "/d/a[]b") = Err ReError
  /\ glob_matches (s_ "/d/*/a[!x]b") (s_ "/d/q/a/b") = Ok true.
Proof. by vm_compute. Qed.
End Glob.

(** ** What glob patterns match *)

Open Scope Z_scope.
Import Glob.Glob.

(** ** Literals *)

(** What follows is not a repetition of what came before. *)
Definition unrepeated (t : str) : Prop := startswith [0x2A] t = false /\ startswith [0x2B] t = false.

Lemma startswith_head (x : Z) pre c t : c <> x -> startswith (x :: pre) (c :: t) = false.
Proof. intros H. cbn. by rewrite bool_decide_eq_false_2. Qed.

Lemma escape_unrepeated c t : unrepeated (re_escape c ++ t).
Proof.
  unfold re_escape. case_bool_decide as Hc; [by split; apply startswith_head|].
  split; apply startswith_head; intros ->; apply Hc; apply (bool_decide_unpack _); by vm_compute.
Qed.

Lemma parse_item_escape c t : unrepeated t -> parse_item (re_escape c ++ t) = Ok (One (Lit c), t).
Proof.
  intros [H1 H2]. unfold re_escape, parse_item. case_bool_decide as Hc; cbn [app].
  - change any_dirs with (0x28 :: drop 1 any_dirs). rewrite startswith_head by done.
    change (parse_atom (0x5C :: c :: t)) with (Ok (Lit c, t) : res (atom * str)). cbn [mbind result_bind]. by rewrite H1, H2.
  - assert (Hne : forall x, x ∈ re_special -> c <> x) by (by intros x Hx ->).
    change any_dirs with (0x28 :: drop 1 any_dirs).
    rewrite startswith_head by (apply Hne, (bool_decide_unpack _); by vm_compute).
    assert (parse_atom (c :: t) = Ok (Lit c, t)) as ->.
    { unfold parse_atom. rewrite bool_decide_eq_false_2 by done.
      rewrite !(proj2 (Z.eqb_neq c _)) by (apply Hne, (bool_decide_unpack _); by vm_compute). done. }
    cbn [mbind result_bind]. by rewrite H1, H2.
Qed.

Lemma loop_unrepeated fuel p : unrepeated (glob_loop fuel p).
Proof.
  destruct fuel as [|fuel]; [done|]. destruct p as [|c p]; [done|]. cbn [glob_loop].
  destruct (startswith (s_ "**/") _); [done|]. destruct (startswith (s_ "**") _); [done|].
  destruct (c =? 0x2A); [done|]. destruct (c =? 0x3F); [done|].
  destruct (c =? 0x5B); [|apply escape_unrepeated].
  destruct (partition 0x5D p) as [[body []] after]; [done | apply escape_unrepeated].
Qed.

(** ** Patterns without sets *)

(** Any character but the separator. *)
Definition inside : atom := Set_ true [(0x2F, 0x2F)].

(** What a pattern means, as [pathlib] reads it. *)
Fixpoint meaning_loop (fuel : nat) (pattern : str) : list item :=
  match fuel, pattern with
  | O, _ | _, [] => []
  | S fuel, c :: rest =>
      if startswith (s_ "**/") pattern then Dirs :: meaning_loop fuel (drop 3 pattern)
      else if startswith (s_ "**") pattern then Star Dot :: meaning_loop fuel (drop 2 pattern)
      else if c =? 0x2A then Star inside :: meaning_loop fuel rest
      else if c =? 0x3F then One inside :: meaning_loop fuel rest
      else One (Lit c) :: meaning_loop fuel rest
  end.
Definition meaning (pattern : str) : list item := meaning_loop (length pattern) pattern.

Lemma parse_items_cons n i piece t l :
  piece <> [] -> parse_item (piece ++ t) = Ok (i, t) -> parse_items n t = Ok l ->
  parse_items (S n) (piece ++ t) = Ok (i :: l).
Proof.
  intros Hp Hi Hl. cbn [parse_items]. destruct piece as [|x piece]; [done|]. cbn [app] in *.
  rewrite Hi. cbn [mbind result_bind]. by rewrite Hl.
Qed.

Lemma parse_item_inside t : unrepeated t -> parse_item (s_ "[^/]" ++ t) = Ok (One inside, t).
Proof.
  intros [H1 H2]. change (parse_item (s_ "[^/]" ++ t)) with
    (if startswith [0x2A] t then Ok (Star inside, drop 1 t)
     else if startswith [0x2B] t then Ok (Plus inside, drop 1 t) else Ok (One inside, t) : res (item * str)).
  by rewrite H1, H2.
Qed.

Lemma shorter (piece t : str) n : piece <> [] -> (length (piece ++ t) < S n)%nat -> (length t < n)%nat.
Proof. destruct piece; [done|]. rewrite length_app. cbn. lia. Qed.

Lemma parse_loop_meaning fuel : forall p n,
  0x5B ∉ p -> (length (glob_loop fuel p) < n)%nat -> parse_items n (glob_loop fuel p) = Ok (meaning_loop fuel p).
Proof.
  induction fuel as [|fuel IH]; intros p n Hp Hn; (destruct n as [|n]; [cbn in Hn; lia|]); [done|].
  destruct p as [|c p]; [done|]. cbn [glob_loop meaning_loop] in *. apply not_elem_of_cons in Hp as [Hc Hp].
  assert (Hd : forall k, 0x5B ∉ drop k (c :: p)).
  { intros k Hin. apply (subseteq_drop k (c :: p)) in Hin. apply elem_of_cons in Hin as [Hin|Hin]; [by apply Hc | by apply Hp]. }
  destruct (startswith (s_ "**/") _).
  { apply parse_items_cons; [done | done|]. apply IH; [done|]. by apply shorter in Hn. }
  destruct (startswith (s_ "**") _).
  { apply parse_items_cons; [done | done|]. apply IH; [done|]. by apply shorter in Hn. }
  destruct (c =? 0x2A).
  { apply parse_items_cons; [done | done|]. apply IH; [done|]. by apply shorter in Hn. }
  destruct (c =? 0x3F).
  { apply parse_items_cons; [done | apply parse_item_inside, loop_unrepeated|].
    apply IH; [done|]. by apply shorter in Hn. }
  destruct (Z.eqb_spec c 0x5B); [done|].
  assert (re_escape c <> []) by (unfold re_escape; by case_bool_decide).
  apply parse_items_cons; [done | apply parse_item_escape, loop_unrepeated|].
  apply IH; [done|]. by apply shorter in Hn.
Qed.

(** A pattern without sets compiles, to exactly what it means: [**/] to any
    number of whole directories, [**] to anything, [*] and [?] to characters
    of one component, and every other character, however special to [re], to
    itself. *)
Theorem glob_compiles pattern : 0x5B ∉ pattern -> re_compile (_glob_regex pattern) = Ok (meaning pattern).
Proof. intros H. unfold re_compile, _glob_regex, meaning. apply parse_loop_meaning; [done | lia]. Qed.

Lemma glob_compiles_witness :
  re_compile (_glob_regex (s_ "/a+(b)/**/?.*")) = Ok (meaning (s_ "/a+(b)/**/?.*"))
  /\ fullmatch (meaning (s_ "/a+(b)/**/?.*")) (s_ "/a+(b)/x/y/z.root") = true.
Proof.
  split; [|by vm_compute]. apply (glob_compiles (s_ "/a+(b)/**/?.*")). apply (bool_decide_unpack _). by vm_compute.
Defined.

(** ** Where matches are *)

Lemma existsb_elem {A} (f : A -> bool) l : existsb f l = true -> exists x, x ∈ l /\ f x = true.
Proof. rewrite existsb_exists. intros (x & Hx & E). exists x. by rewrite list_elem_of_In. Qed.

Lemma lit_matches c x : atom_matches (Lit c) x = true -> x = c.
Proof. cbn. rewrite orb_false_r. intros [E1 E2]%andb_true_iff. lia. Qed.

(** What is left after an item that takes one character. *)
Lemma after_one_spec a s t : t ∈ after_one a s -> exists c, s = c :: t /\ atom_matches a c = true.
Proof.
  destruct s as [|c s]; cbn [after_one]; [by intros ?%elem_of_nil|].
  destruct (atom_matches a c) eqn:E; [|by intros ?%elem_of_nil]. intros ->%list_elem_of_singleton. by exists c.
Qed.

Lemma fullmatch_lits p l s : fullmatch ((One ∘ Lit <$> p) ++ l) s = true -> exists t, s = p ++ t /\ fullmatch l t = true.
Proof.
  revert s. induction p as [|c p IH]; intros s Hm; [by exists s|].
  cbn [fmap list_fmap app fullmatch] in Hm. apply existsb_elem in Hm as (t & Ht & Hm).
  apply after_one_spec in Ht as (x & -> & ->%lit_matches). destruct (IH _ Hm) as (r & -> & Hl). by exists r.
Qed.

Lemma loop_literal p q fuel : magic p = false ->
  glob_loop (length p + fuel) (p ++ q) = concat (re_escape <$> p) ++ glob_loop fuel q.
Proof.
  induction p as [|c p IH]; intros Hp; [done|]. cbn [magic existsb] in Hp.
  apply orb_false_iff in Hp as [Hc Hp]. apply bool_decide_eq_false in Hc.
  assert (Hne : c <> 0x2A /\ c <> 0x3F /\ c <> 0x5B).
  { split_and!; intros ->; apply Hc, (bool_decide_unpack _); by vm_compute. }
  destruct Hne as (H1 & H2 & H3). cbn [length Nat.add app glob_loop fmap list_fmap concat].
  change (s_ "**/") with (0x2A :: drop 1 (s_ "**/")). change (s_ "**") with (0x2A :: drop 1 (s_ "**")).
  rewrite !startswith_head by done. rewrite !(proj2 (Z.eqb_neq c _)) by done.
  rewrite IH by done. by rewrite app_assoc.
Qed.

Lemma parse_literal p : forall t n l, unrepeated t ->
  parse_items n (concat (re_escape <$> p) ++ t) = Ok l -> exists l', l = (One ∘ Lit <$> p) ++ l'.
Proof.
  induction p as [|c p IH]; intros t n l Ht Hl; [by exists l|].
  cbn [fmap list_fmap concat] in Hl. rewrite <- app_assoc in Hl. destruct n as [|n]; [done|]. cbn [parse_items] in Hl.
  destruct (re_escape c ++ concat (re_escape <$> p) ++ t) as [|x r] eqn:E.
  { unfold re_escape in E. case_bool_decide; discriminate. }
  rewrite <- E, parse_item_escape in Hl.
  2:{ destruct p as [|c' p]; [exact Ht|]. cbn [fmap list_fmap concat]. rewrite <- app_assoc. apply escape_unrepeated. }
  cbn [mbind result_bind] in Hl.
  destruct (parse_items n (concat (re_escape <$> p) ++ t)) as [l0|] eqn:E0; [|done]. injection Hl as <-.
  destruct (IH _ _ _ Ht E0) as (l' & ->). by exists l'.
Qed.

(** A pattern that begins literally matches only what begins the same. *)
Lemma glob_begins p q s : magic p = false -> glob_matches (p ++ q) s = Ok true -> exists t, s = p ++ t.
Proof.
  intros Hp. unfold glob_matches, re_compile, _glob_regex. rewrite length_app, loop_literal by done.
  destruct (parse_items _ _) as [l|] eqn:E; [|done]. cbn [mbind result_bind]. intros [= Hm].
  apply parse_literal in E as (l' & ->); [|apply loop_unrepeated].
  apply fullmatch_lits in Hm as (t & -> & _). by exists t.
Qed.

Lemma keep_literal_prefix parts : exists rest, parts = keep_literal parts ++ rest.
Proof.
  induction parts as [|p parts (rest & IH)]; [by exists []|]. cbn [keep_literal].
  destruct (magic p); [by eexists|]. exists rest. cbn [app]. by f_equal.
Qed.

Lemma magic_app p q : magic (p ++ q) = magic p || magic q.
Proof. apply existsb_app. Qed.

Lemma keep_literal_plain parts : magic (join 0x2F (keep_literal parts)) = false.
Proof.
  induction parts as [|p parts IH]; [done|]. cbn [keep_literal]. destruct (magic p) eqn:E; [done|].
  rewrite join_cons. destruct (keep_literal parts) as [|x l]; [done|].
  change (0x2F :: join 0x2F (x :: l)) with ([0x2F] ++ join 0x2F (x :: l)). by rewrite !magic_app, E, IH.
Qed.

Lemma join_app (a b : list str) : a <> [] -> b <> [] -> join 0x2F (a ++ b) = join 0x2F a ++ 0x2F :: join 0x2F b.
Proof.
  induction a as [|x a IH]; intros Ha Hb; [done|]. cbn [app]. rewrite !join_cons.
  destruct a as [|y a]; [by destruct b|]. cbn [app]. change (y :: a ++ b) with ((y :: a) ++ b).
  rewrite IH by done. by rewrite <- app_assoc.
Qed.

Lemma join_split (p : str) : join 0x2F (split_all 0x2F p) = p.
Proof.
  induction p as [|c p IH]; [done|]. cbn [split_all]. destruct (decide (c = 0x2F)) as [->|Hc].
  - pose proof (split_all_not_nil 0x2F p). rewrite join_cons. destruct (split_all 0x2F p); [done|]. by rewrite IH.
  - destruct (split_all 0x2F p) as [|q qs] eqn:E; [by apply split_all_not_nil in E|].
    rewrite join_cons in *. destruct qs; cbn [app]; by rewrite IH.
Qed.

(** A pattern begins with the directory listed for it. *)
Lemma literal_prefix_spec t : exists k rest,
  0x2F :: t = (k ++ [0x2F]) ++ rest /\ magic k = false
  /\ _literal_prefix (0x2F :: t) = match k with [] => [0x2F] | _ => k end.
Proof.
  unfold _literal_prefix. cbn [split_all]. destruct (decide (0x2F = 0x2F)) as [_|]; [|done].
  pose proof (split_all_not_nil 0x2F t) as Hne. destruct (exists_last Hne) as (init & last & E).
  assert (Er : removelast ([] :: split_all 0x2F t) = [] :: init).
  { rewrite E. change ([] :: init ++ [last]) with (([] :: init) ++ [last]). apply removelast_last. }
  rewrite Er. destruct (keep_literal_prefix ([] :: init)) as (rest & Ek).
  exists (join 0x2F (keep_literal ([] :: init))), (join 0x2F (rest ++ [last])).
  split; [|split; [apply keep_literal_plain | by destruct (join _ _)]].
  rewrite <- app_assoc. cbn [app]. rewrite <- join_app; [|discriminate | by destruct rest].
  rewrite app_assoc, <- Ek. change (([] :: init) ++ [last]) with ([] :: (init ++ [last])).
  rewrite <- E, join_cons. pose proof (join_split t) as Ej. destruct (split_all 0x2F t); [done|]. by rewrite Ej.
Qed.

Definition below (dir s : str) : Prop :=
  exists rest, s = (if decide (dir = [0x2F]) then [0x2F] else dir ++ [0x2F]) ++ rest.

(** Nothing outside the directory [glob] starts from can match: whatever an
    absolute pattern matches lies below its literal prefix, so listing that
    directory alone misses nothing. *)
Theorem glob_prefix t s : glob_matches (0x2F :: t) s = Ok true -> below (_literal_prefix (0x2F :: t)) s.
Proof.
  intros Hm. destruct (literal_prefix_spec t) as (k & rest & E & Hk & ->). rewrite E in Hm.
  apply glob_begins in Hm as (r & ->); [|by rewrite magic_app, Hk].
  unfold below. destruct k as [|x k]; [by exists r|]. case_decide as Hx; [|by exists r].
  rewrite Hx. by exists (0x2F :: r).
Qed.

Lemma glob_prefix_witness : below (s_ "/store/mc") (s_ "/store/mc/a/b.root").
Proof. apply (glob_prefix (s_ "store/mc/*/[a-c].root") (s_ "/store/mc/a/b.root")). by vm_compute. Defined.

(** ** Components *)

Definition slashes (s : list Z) : nat := length (filter (fun c => c = 0x2F) s).

Lemma slashes_cons c s : slashes (c :: s) = ((if decide (c = 0x2F%Z) then 1 else 0) + slashes s)%nat.
Proof. unfold slashes. rewrite filter_cons. by case_decide. Qed.

Lemma inside_plain c : atom_matches inside c = true -> c <> 0x2F.
Proof. intros H ->. done. Qed.

Lemma after_star_slashes s t : t ∈ after_star inside s -> slashes t = slashes s.
Proof.
  induction s as [|c s IH]; cbn [after_star]; rewrite elem_of_cons; (intros [->|Ht]; [done|]);
    [by apply elem_of_nil in Ht|].
  destruct (atom_matches inside c) eqn:E; [|by apply elem_of_nil in Ht].
  rewrite IH by done. rewrite slashes_cons, decide_False by (by apply inside_plain). done.
Qed.

(** No [**] begins in the pattern. *)
Definition shallow (p : str) : Prop := forall k, startswith (s_ "**") (drop k p) = false.

Lemma startswith_deep p : startswith (s_ "**") p = false -> startswith (s_ "**/") p = false.
Proof. destruct p as [|a [|b p]]; cbn; [done | by destruct (bool_decide _)|]. do 2 destruct (bool_decide _); done. Qed.

Lemma meaning_slashes fuel : forall p s, (length p <= fuel)%nat -> shallow p ->
  fullmatch (meaning_loop fuel p) s = true -> slashes s = slashes p.
Proof.
  induction fuel as [|fuel IH]; intros p s Hl Hs Hm.
  { destruct p; [|cbn in Hl; lia]. cbn in Hm. by apply bool_decide_eq_true in Hm as ->. }
  destruct p as [|c p]; [cbn in Hm; by apply bool_decide_eq_true in Hm as ->|].
  cbn [meaning_loop] in Hm. pose proof (Hs 0%nat) as H0. rewrite drop_0 in H0.
  rewrite H0, (startswith_deep _ H0) in Hm.
  assert (Hs' : shallow p) by (intros k; exact (Hs (S k))). assert (Hl' : (length p <= fuel)%nat) by (cbn in Hl; lia).
  destruct (Z.eqb_spec c 0x2A) as [->|_]; [|destruct (Z.eqb_spec c 0x3F) as [->|_]];
    cbn [fullmatch] in Hm; apply existsb_elem in Hm as (t & Ht & Hm); apply IH in Hm; try done;
    rewrite slashes_cons, <- Hm.
  - cbn [after] in Ht. by rewrite (after_star_slashes s t Ht).
  - apply after_one_spec in Ht as (x & -> & Hx%inside_plain). by rewrite slashes_cons, decide_False.
  - apply after_one_spec in Ht as (x & -> & ->%lit_matches). by rewrite slashes_cons.
Qed.

(** [*] and [?] never cross a directory: what a pattern with neither sets
    nor [**] matches has exactly as many separators as the pattern. *)
Theorem glob_depth pattern s :
  0x5B ∉ pattern -> shallow pattern -> glob_matches pattern s = Ok true -> slashes s = slashes pattern.
Proof.
  intros Hb Hs. unfold glob_matches, re_compile, _glob_regex.
  rewrite parse_loop_meaning by (done || lia). cbn [mbind result_bind]. intros [= Hm].
  by apply (meaning_slashes (length pattern)) in Hm.
Qed.

Lemma glob_depth_witness : slashes (s_ "/d/run7/f1.root") = slashes (s_ "/d/*/f?.root").
Proof.
  apply (glob_depth (s_ "/d/*/f?.root") (s_ "/d/run7/f1.root")); [apply (bool_decide_unpack _) | | ]; try by vm_compute.
  intros k. do 13 (destruct k as [|k]; [by vm_compute|]). by rewrite drop_ge by (cbn; lia).
Defined.

(** A set does cross one: [[!x]] means any character but [x], and that
    includes the separator. *)
Lemma glob_set_crosses :
  glob_matches (s_ "/d/*/a[!x]b") (s_ "/d/q/a/b") = Ok true
  /\ slashes (s_ "/d/q/a/b") <> slashes (s_ "/d/*/a[!x]b")
  /\ glob_matches (s_ "/d/a[]") (s_ "/d/a[]") = Err ReError.
Proof. split_and!; [by vm_compute | by vm_compute | by vm_compute]. Qed.

(** ** Shell patterns

    [fnmatch.fnmatch] of the standard library, which the copy engine selects
    files with: a pattern becomes a list of atoms, as [fnmatch.translate]
    reads it, and a name is matched whole. On a POSIX system [normcase] leaves
    names alone, and a [*] crosses slashes. *)

Module Fnmatch.

(** [Never] is the empty class, which no character is in. *)
Inductive atom := Star | Any | Never | Class_ (negated : bool) (ranges : list (Z * Z)).
#[export] Instance atom_eq_dec : EqDecision atom.
Proof. solve_decision. Defined.
Definition Char (c : Z) : atom := Class_ false [(c, c)].

(** ** Character classes *)

(** [pat.find(']', ...)] from where a class may end: what is before the
    bracket and what is behind it. The first bracket counts as a member. *)
Definition class_end (t : str) : option (str * str) :=
  let close t := match partition 0x5D t with (h, true, r) => Some (h, r) | _ => None end in
  let first t := match t with
                 | c :: t' => if c =? 0x5D then (fun hr => (c :: hr.1, hr.2)) <$> close t' else close t
                 | [] => None
                 end in
  match t with
  | c :: t' => if c =? 0x21 then (fun hr => (c :: hr.1, hr.2)) <$> first t' else first t
  | [] => None
  end.

(** The pieces of a class between the hyphens of its ranges: a hyphen does not
    count within [skip] characters of the last one. *)
Fixpoint chunks_loop (skip : nat) (cur : str) (t : str) : list str :=
  match t with
  | [] => [reverse cur]
  | c :: t =>
      match skip with
      | O => if c =? 0x2D then reverse cur :: chunks_loop 2 [] t else chunks_loop O (c :: cur) t
      | S skip => chunks_loop skip (c :: cur) t
      end
  end.

(** A hyphen at the end stands for itself. *)
Fixpoint last_hyphen (l : list str) : list str :=
  match l with
  | [a; []] => [a ++ [0x2D]]
  | a :: l => a :: last_hyphen l
  | [] => []
  end.

Definition chunks_of (stuff : str) : list str :=
  if bool_decide (0x2D ∈ stuff)
  then last_hyphen (chunks_loop (match stuff with c :: _ => if (c =? 0x21)%Z then 2 else 1 | [] => 1 end)%nat [] stuff)
  else [stuff].

(** Ranges the wrong way round are taken out, the last one first. *)
Fixpoint drop_empty (l : list str) : list str :=
  match l with
  | a :: l =>
      match drop_empty l with
      | b :: r =>
          match last a, head b with
          | Some x, Some y => if y <? x then (removelast a ++ tail b) :: r else a :: b :: r
          | _, _ => a :: b :: r
          end
      | [] => [a]
      end
  | [] => []
  end.

(** What a class made of these chunks accepts: the characters of the chunks
    and what lies between two neighbours. *)
Fixpoint ranges_of (l : list str) : list (Z * Z) :=
  match l with
  | a :: l =>
      ((fun c => (c, c)) <$> a)
      ++ match l with
         | b :: _ => match last a, head b with Some x, Some y => [(x, y)] | _, _ => [(0x2D, 0x2D)] end
         | [] => []
         end
      ++ ranges_of l
  | [] => []
  end.

Definition class_of (stuff : str) : atom :=
  match drop_empty (chunks_of stuff) with
  | [] | [[]] => Never
  | (c :: a) :: l =>
      if c =? 0x21 then match a, l with [], [] => Any | _, _ => Class_ true (ranges_of (a :: l)) end
      else Class_ false (ranges_of ((c :: a) :: l))
  | l => Class_ false (ranges_of l)
  end.

(** ** Patterns *)

(** [*]s that follow each other count once. *)
Definition add_star (l : list atom) : list atom := match l with Star :: _ => l | _ => Star :: l end.

Fixpoint translate (fuel : nat) (pat : str) : list atom :=
  match fuel with
  | O => []
  | S fuel =>
      match pat with
      | [] => []
      | c :: t =>
          if c =? 0x2A then add_star (translate fuel t)
          else if c =? 0x3F then Any :: translate fuel t
          else if c =? 0x5B then
            match class_end t with
            | Some (stuff, rest) => class_of stuff :: translate fuel rest
            | None => Char c :: translate fuel t
            end
          else Char c :: translate fuel t
      end
  end.

Definition accepts (a : atom) (c : Z) : bool :=
  match a with
  | Star | Never => false
  | Any => true
  | Class_ negated ranges => xorb negated (existsb (fun r => (r.1 <=? c) && (c <=? r.2)) ranges)
  end.

Fixpoint matches (p : list atom) : str -> bool :=
  match p with
  | [] => fun s => match s with [] => true | _ => false end
  | Star :: p =>
      fix star s := matches p s || match s with [] => false | _ :: s => star s end
  | a :: p => fun s => match s with [] => false | c :: s => accepts a c && matches p s end
  end.

Definition fnmatch (name pat : str) : bool := matches (translate (length pat) pat) name.

(** ** What a pattern means *)

Inductive Matches : list atom -> str -> Prop :=
  | M_end : Matches [] []
  | M_star p s t : Matches p t -> Matches (Star :: p) (s ++ t)
  | M_one a p c s : accepts a c = true -> Matches p s -> Matches (a :: p) (c :: s).

Lemma Matches_star p s : Matches (Star :: p) s <-> exists u v, s = u ++ v /\ Matches p v.
Proof.
  split; [|intros (u & v & -> & Hv); by constructor].
  inversion 1 as [|? u v Hv|? ? ? ? Hc]; [by exists u, v | done].
Qed.

Lemma Matches_one a p s :
  a <> Star -> Matches (a :: p) s <-> match s with [] => False | c :: s => accepts a c = true /\ Matches p s end.
Proof. intros Ha. split; [by inversion 1 | destruct s; [done | intros [? ?]; by constructor]]. Qed.

Lemma matches_spec p s : matches p s = true <-> Matches p s.
Proof.
  revert s. induction p as [|a p IH]; intros s.
  - cbn. destruct s; split; try done; [intros _; constructor | by inversion 1].
  - destruct (decide (a = Star)) as [->|Ha].
    + rewrite Matches_star. cbn [matches]. induction s as [|c s IHs]; rewrite orb_true_iff, IH.
      * split; [by intros [?|?]; [exists [], []|] | intros (u & v & E & Hv); left]. by destruct u, v.
      * rewrite IHs. split.
        -- intros [Hm|(u & v & -> & Hv)]; [by exists [], (c :: s) | by exists (c :: u), v].
        -- intros ([|d u] & v & E & Hv); [left; by rewrite E | right]. injection E as -> ->. by exists u, v.
    + rewrite Matches_one by done. destruct a; [done|..]; cbn [matches]; destruct s; rewrite ?andb_true_iff, ?IH; done.
Qed.

Definition plain (s : str) : Prop := Forall (fun c => c <> 0x2A /\ c <> 0x3F /\ c <> 0x5B) s.

Lemma translate_plain fuel s t :
  plain s -> translate (length s + fuel) (s ++ t) = (Char <$> s) ++ translate fuel t.
Proof.
  induction 1 as [|c s (H1 & H2 & H3) Hs IH]; [done|]. cbn.
  do 3 (rewrite (proj2 (Z.eqb_neq _ _)) by done). by rewrite IH.
Qed.

Lemma Matches_literal s p u : Matches ((Char <$> s) ++ p) u <-> exists v, u = s ++ v /\ Matches p v.
Proof.
  revert u. induction s as [|c s IH]; intros u; cbn; [naive_solver|]. split.
  - inversion 1 as [|?|? ? d ? Hc Hm]; simplify_eq. cbn in Hc. rewrite orb_false_r in Hc. zbool.
    apply IH in Hm as (v & -> & Hv). exists v. split; [f_equal; lia | done].
  - intros (v & -> & Hv). constructor; [cbn; rewrite orb_false_r; lia|]. apply IH. eauto.
Qed.

(** A pattern of plain characters names one file; with a star behind it,
    everything that begins with it, at any depth. *)
Lemma fnmatch_plain s name : plain s -> fnmatch name s = bool_decide (name = s).
Proof.
  intros Hs. unfold fnmatch. pose proof (translate_plain 0 s [] Hs) as E. rewrite Nat.add_0_r, app_nil_r in E. rewrite E.
  apply Bool.eq_true_iff_eq. rewrite matches_spec, Matches_literal, bool_decide_eq_true. split.
  - intros (v & -> & Hv). inversion Hv. by rewrite app_nil_r.
  - intros ->. exists []. rewrite app_nil_r. split; [done | constructor].
Qed.

Lemma fnmatch_prefix s name : plain s -> fnmatch name (s ++ [0x2A]) = startswith s name.
Proof.
  intros Hs. unfold fnmatch. pose proof (translate_plain 1 s [0x2A] Hs) as E.
  replace (length (s ++ [0x2A])) with (length s + 1)%nat by (by rewrite length_app). rewrite E.
  apply Bool.eq_true_iff_eq. rewrite matches_spec, Matches_literal. clear Hs E. revert name.
  induction s as [|c s IH]; intros name.
  - split; [by destruct name|]. intros _. exists name. split; [done|]. cbn. rewrite <- (app_nil_r name). apply M_star, M_end.
  - destruct name as [|d name]; cbn [startswith]; [by split; [intros (v & ? & _)|]|]. rewrite andb_true_iff, bool_decide_eq_true, <- IH.
    split.
    + intros (v & [= -> ->] & Hv). split; [done|]. by exists v.
    + intros [-> (v & -> & Hv)]. by exists v.
Qed.

Example classes :
  (fnmatch (s_ "b1.root") (s_ "[!a]?.r*t"), fnmatch (s_ "a1.root") (s_ "[!a]?.r*t"), fnmatch (s_ "x]") (s_ "x[]]"),
   fnmatch (s_ "m") (s_ "[k-n]"), fnmatch (s_ "-") (s_ "[a-]"), fnmatch (s_ "b") (s_ "[c-a]"), fnmatch (s_ "[x") (s_ "[x"))
  = (true, false, true, true, true, false, true).
Proof. reflexivity. Qed.
End Fnmatch.
