(* ===== verification/Auth.v ===== *)
(** * Authentication: the mechanisms and the ladder

    src/xrd/auth/: the offers of a security trailer (base.py), the mechanisms
    (simple.py, ztn.py, and the credential classes of sss.py, gsi.py and
    krb5.py over the files [Sss], [Gsi], [X509], [Krb5]), the questions put to
    a person (prompt.py), and [select], which the session machine drives
    through [CredentialOps].

    The machine's surroundings - environment variables, files, clock, random
    bytes, JSON, the optional GSSAPI module, the person at the terminal - are
    the fields of [Env]. *)

From S2P Require Import Prelude PyStr Errors Buffer ConfigFile Machine Words Sss Der Rsa Gsi X509 Krb5 Url.
From Stdlib Require Import QArith Qround Qabs.
Open Scope Z_scope.

(** What [gssapi.SecurityContext] does. *)
Record GssOps (G : Type) := {
  gss_context : str -> res G;
  gss_step : G -> option bytes -> G * res (option bytes);
  gss_complete : G -> bool
}.
Arguments gss_context {G}.
Arguments gss_step {G}.
Arguments gss_complete {G}.

(** A decoded JSON value, as far as a claim is looked at. *)
Inductive Json := JInt (n : Z) | JFloat (q : Q) | JStr (s : str) | JOther.

Record Env (G : Type) := {
  getenv : str -> option str;
  uid : Z;
  euid : Z;
  isfile : str -> bool;
  path_exists : str -> bool;
  read_text : str -> res str;
  read_bytes : str -> res bytes;
  stat_mode : str -> res Z;
  read_lines : str -> res (list str);
  expanduser : str -> str;
  now : Q;
  urandom : Z -> bytes;
  json_loads : bytes -> res (dict str Json);
  gssapi : option (GssOps G);
  on_terminal : bool
}.
Arguments getenv {G}. Arguments uid {G}. Arguments euid {G}. Arguments isfile {G}. Arguments path_exists {G}.
Arguments read_text {G}. Arguments read_bytes {G}. Arguments stat_mode {G}. Arguments read_lines {G}.
Arguments expanduser {G}. Arguments now {G}. Arguments urandom {G}. Arguments json_loads {G}.
Arguments gssapi {G}. Arguments on_terminal {G}.

Module Auth.

(** ** Offers *)

Record Offer := mkOffer { o_name : str; o_params : str }.

Definition options (o : Offer) : dict str str :=
  foldl (fun out part =>
           match partition 0x3A part with
           | (key, true, value) => dict_set (strip key) (strip value) out
           | _ => out
           end) [] (split_all 0x2C (o_params o)).

(** [re.findall("&P=([^&]+)", sec)]. *)
Definition clauses (sec : str) : list str :=
  omap (fun piece => match piece with
                     | 0x50 :: 0x3D :: (_ :: _) as clause => Some (drop 2 piece)
                     | _ => None
                     end) (tail (split_all 0x26 sec)).

Definition parse_security_trailer (sec : str) : list Offer :=
  (fun clause => match partition 0x2C clause with
                 | (name, _, params) => mkOffer (strip name) (strip params)
                 end) <$> clauses sec.

(** ** Questions *)

Record Ask := mkAsk {
  a_mechanism : str; a_what : str; a_reason : str; a_hint : str; a_prompt : str; a_host : str; a_secret : bool
}.

Definition ask_key (a : Ask) : str * str := (a_mechanism a, a_host a).

Definition explain (a : Ask) : str :=
  let offered := a_mechanism a ++ s_ " is offered" in
  let where_ := match a_host a with [] => offered | h => h ++ s_ " accepts " ++ a_mechanism a end in
  s_ "xrd: " ++ where_ ++ s_ ", but " ++ a_what a ++ s_ " is missing" ++ [10]
  ++ s_ "     why: " ++ a_reason a ++ [10] ++ s_ "     fix: " ++ a_hint a ++ [10].

Definition question (a : Ask) : str :=
  s_ "     " ++ a_prompt a ++ s_ " (Enter to skip" ++ (if a_secret a then s_ ", not echoed" else []) ++ s_ "): ".

Definition int_str (z : Z) : str := s_ (pretty z).

Definition humanise (seconds : Q) : str :=
  let whole := Qfloor (Qabs seconds) in
  if whole <? 60 then int_str whole ++ s_ "s"
  else if whole <? 3600 then int_str (whole / 60) ++ s_ "m"
  else if whole <? 86400 then int_str (whole / 3600) ++ s_ "h " ++ int_str (whole mod 3600 / 60) ++ s_ "m"
  else int_str (whole / 86400) ++ s_ "d " ++ int_str (whole mod 86400 / 3600) ++ s_ "h".

(** ** Credentials *)

(** The registry's classes. *)
Inductive Mech := Unix | Host | SSS | Ztn | GSI | Krb.

Definition mech_name (m : Mech) : str :=
  match m with
  | Unix => s_ "unix" | Host => s_ "host" | SSS => s_ "sss" | Ztn => s_ "ztn" | GSI => s_ "gsi" | Krb => s_ "krb5"
  end.

Definition _REGISTRY : dict str Mech :=
  (fun m => (mech_name m, m)) <$> [Unix; Host; SSS; Ztn; GSI; Krb].

Inductive Cred (G : Type) :=
| UnixCredential (username : str)
| HostCredential
| SSSCredential (key : Sss.SSSKey) (username : str)
| TokenCredential (token : str) (expires_at : option Q)
| GSICredential (proxy : X509.ProxyCredential) (cryptomod issuer_hash : str) (rtag : bytes)
| KerberosCredential (principal : str) (context : option G) (established : bool).
Arguments UnixCredential {G}. Arguments HostCredential {G}. Arguments SSSCredential {G}.
Arguments TokenCredential {G}. Arguments GSICredential {G}. Arguments KerberosCredential {G}.

Definition mech_of {G} (c : Cred G) : Mech :=
  match c with
  | UnixCredential _ => Unix | HostCredential => Host | SSSCredential _ _ => SSS
  | TokenCredential _ _ => Ztn | GSICredential _ _ _ _ => GSI | KerberosCredential _ _ _ => Krb
  end.

Definition or_else (s t : str) : str := match s with [] => t | _ => s end.

Section Mechanisms.
Context {G : Type}.
Variable env : Env G.
Variable hashlib : str -> bytes -> bytes.
Variable lower : str -> str.
(** [str(exc)] and [repr] of a string. *)
Variable exn_text : exn -> str.
Variable repr_str : str -> str.
(** [f"{type(exc).__name__}: {exc}"]. *)
Variable describe_exn : exn -> str.

Notation Cred := (Cred G).

(** *** ztn *)

Definition bt_name : str := s_ "bt_u" ++ int_str (uid env).

(** A setting or a variable that is set and not empty. *)
Definition truthy (o : option str) : option str := match o with Some [] => None | o => o end.

Definition _token_paths (config : Config) : list str :=
  (match truthy (c_token_file config) with Some p => [p] | None => [] end)
  ++ (match truthy (getenv env (s_ "XDG_RUNTIME_DIR")) with Some d => [path_join d [bt_name]] | None => [] end)
  ++ [s_ "/tmp/" ++ bt_name].

Fixpoint token_in (paths : list str) : res (option str) :=
  match paths with
  | [] => Ok None
  | path :: paths =>
      match read_text env path with
      | Err e => if is_os_error e then token_in paths else Err e
      | Ok content => match strip content with [] => token_in paths | token => Ok (Some token) end
      end
  end.

Definition discover_token (config : Config) : res (option str) :=
  match truthy (c_token config) with
  | Some token => Ok (Some (strip token))
  | None =>
      match truthy (strip <$> getenv env (s_ "BEARER_TOKEN")) with
      | Some token => Ok (Some token)
      | None => token_in (_token_paths config)
      end
  end.

(** [base64.urlsafe_b64decode]. *)
Definition urlsafe_b64decode (s : str) : res bytes :=
  b64decode ((fun c => if c =? 45 then 43 else if c =? 95 then 47 else c) <$> s).

Definition token_claims (token : str) : res (dict str Json) :=
  match split_all 0x2E token with
  | _ :: payload :: _ =>
      let payload := payload ++ replicate (Z.to_nat ((- zlen payload) mod 4)) 61 in
      match (data ← urlsafe_b64decode payload; json_loads env data) with
      | Ok claims => Ok claims
      | Err TypeError => Ok []
      | Err e => if is_value_error e then Ok [] else Err e
      end
  | _ => Ok []
  end.

(** Code points that are digits and not decimal ones. *)
Definition other_digits : list (Z * Z) :=
  [(0xb2, 0xb3); (0xb9, 0xb9); (0x1369, 0x1371); (0x19da, 0x19da); (0x2070, 0x2070); (0x2074, 0x2079);
   (0x2080, 0x2089); (0x2460, 0x2468); (0x2474, 0x247c); (0x2488, 0x2490); (0x24ea, 0x24ea);
   (0x24f5, 0x24fd); (0x24ff, 0x24ff); (0x2776, 0x277e); (0x2780, 0x2788); (0x278a, 0x2792);
   (0x10a40, 0x10a43); (0x10e60, 0x10e68); (0x11052, 0x1105a); (0x1f100, 0x1f10a)].

(** [s.isdigit()]. *)
Definition isdigit (s : str) : bool :=
  negb (bool_decide (s = []))
  && forallb (fun c => bool_decide (is_Some (digit_value c))
                       || existsb (fun '(a, b) => (a <=? c) && (c <=? b)) other_digits) s.

(** [float(s)] of a string of digits; the digits that are not decimal have no
    value there. *)
Definition digits_float (s : str) : res Q :=
  match mapM digit_value s with
  | Some ds => Ok (inject_Z (foldl (fun acc d => acc * 10 + d) 0 ds))
  | None => Err ValueError
  end.

(** The integers [float] cannot hold start here. *)
Definition FLOAT_LIMIT : Z := 2 ^ 1024 - 2 ^ 970.

(** The text of a JSON float always has a point, an exponent or a letter, and
    is never all digits. *)
Definition token_expiry (token : str) : res (option Q) :=
  claims ← token_claims token;
  match dict_get (s_ "exp") (claims : dict str Json) with
  | Some (JInt n) =>
      if n <? 0 then Ok None
      else if FLOAT_LIMIT <=? n then Err OverflowError else Ok (Some (inject_Z n))
  | Some (JStr s) => if isdigit s then q ← digits_float s; Ok (Some q) else Ok None
  | Some (JFloat _) | Some JOther | None => Ok None
  end.

Definition ztn_ask (reason host : str) : Ask :=
  mkAsk (s_ "ztn") (s_ "a bearer token") reason
    (s_ "oidc-token <issuer> > /tmp/" ++ bt_name ++ s_ ", or set $BEARER_TOKEN")
    (s_ "the token itself, or a path to one") host true.

(** [", ".join(parts)]. *)
Definition comma_join (parts : list str) : str :=
  match parts with [] => [] | p :: ps => p ++ concat ((fun q => s_ ", " ++ q) <$> ps) end.

(** *** sss *)

Definition default_keytab_path (config : Config) : str :=
  match truthy (c_keytab config), truthy (getenv env (s_ "XrdSecSSSKT")), truthy (getenv env (s_ "XrdSecsssKT")) with
  | Some p, _, _ | None, Some p, _ | None, None, Some p => p
  | None, None, None => path_join (expanduser env (s_ "~")) [s_ ".xrd"; s_ "sss.keytab"]
  end.

Definition keytab_at (path : str) : res (list Sss.SSSKey) :=
  mode ← stat_mode env path;
  if negb (Z.land mode 0x3F =? 0) then Err PermissionError else
  lines ← read_lines env path;
  Sss.read_keytab (now env) mode lines false true.

Definition wanted_key (offer : Offer) (key : Sss.SSSKey) : bool :=
  match dict_get (s_ "n") (options offer) with None => true | Some n => bool_decide (Sss.name key = n) end.

(** *** gsi *)

Definition default_proxy_path (config : Config) : str :=
  match truthy (c_proxy config), truthy (getenv env (s_ "X509_USER_PROXY")) with
  | Some p, _ | None, Some p => p
  | None, None => s_ "/tmp/x509up_u" ++ int_str (euid env)
  end.

Definition proxy_at (path : str) : res X509.ProxyCredential :=
  data ← read_bytes env path; X509.load_proxy data.

Definition proxy_remaining (p : X509.ProxyCredential) : Q :=
  match (fun c => (inject_Z (X509.not_after c) - now env)%Q) <$> X509.chain p with
  | [] => 0%Q
  | q :: qs => foldl qmin q qs
  end.

(** *** krb5 *)

Definition default_ccache_path : str :=
  let name := default [] (getenv env (s_ "KRB5CCNAME")) in
  if startswith (s_ "FILE:") name then drop 5 name
  else if negb (bool_decide (name = [])) && negb (contains 0x3A name) then name
  else s_ "/tmp/krb5cc_" ++ int_str (euid env).

Definition service_principal (offer : Offer) (host : str) : str :=
  let named := strip (until 0x2C (o_params offer)) in
  let named := if bool_decide (named = []) || contains 0x3A named
               then match host with [] => s_ "xrootd" | _ => s_ "xrootd/" ++ host end else named in
  until 0x40 named.

Definition _advance (principal : str) (context : option G) (token : option bytes)
  : option G * bool * res bytes :=
  match gssapi env with
  | None => (context, false, Err CredentialError)
  | Some gss =>
      match match context with Some g => Ok g | None => gss_context gss principal end with
      | Err e => (None, false, Err e)
      | Ok g =>
          match gss_step gss g token with
          | (g, Err _) => (Some g, false, Err CredentialError)
          | (g, Ok out) =>
              let out := default [] out in
              if bool_decide (out = []) && negb (gss_complete gss g)
              then (Some g, false, Err CredentialError)
              else (Some g, gss_complete gss g, Ok out)
          end
      end
  end.

(** ** The classes' methods *)

(** [cls.available(offer, config, username=..., host=...)]. *)
Definition sss_available (offer : Offer) (config : Config) (username : str) : res (option Cred) :=
  let path := default_keytab_path config in
  if negb (isfile env path) then Ok None else
  match keytab_at path with
  | Err e => if is_os_error e || is_value_error e then Ok None else Err e
  | Ok keys =>
      match filter (fun k => wanted_key offer k = true) keys with
      | key :: _ => Ok (Some (SSSCredential key (or_else username (c_username config))))
      | [] => Ok None
      end
  end.

Definition ztn_available (config : Config) : res (option Cred) :=
  token ← discover_token config;
  match truthy token with
  | Some token => e ← token_expiry token; Ok (Some (TokenCredential token e))
  | None => Ok None
  end.

Definition gsi_available (offer : Offer) (config : Config) : res (option Cred) :=
  let path := default_proxy_path config in
  if negb (isfile env path) then Ok None else
  match proxy_at path with
  | Err e => if is_os_error e || is_value_error e then Ok None else Err e
  | Ok proxy =>
      if X509.proxy_expired (now env) proxy then Ok None else
      let o := options offer in
      Ok (Some (GSICredential proxy (or_else (default (s_ "ssl") (dict_get (s_ "c") o)) (s_ "ssl"))
                  (default [] (dict_get (s_ "ca") o)) []))
  end.

Definition krb_available (offer : Offer) (host : str) : res (option Cred) :=
  let path := default_ccache_path in
  live ← Krb5.tickets (now env) (read_bytes env path);
  let none := match (live : list Krb5.Ticket) with [] => true | _ => false end in
  if path_exists env path && none then Ok None else
  match gssapi env with
  | None => if none then Ok None else Err CredentialError
  | Some _ => Ok (Some (KerberosCredential (service_principal offer host) None false))
  end.

Definition available (m : Mech) (offer : Offer) (config : Config) (username host : str) : res (option Cred) :=
  match m with
  | Unix => Ok (Some (UnixCredential (or_else username (c_username config))))
  | Host => Ok (Some HostCredential)
  | SSS => sss_available offer config username
  | Ztn => ztn_available config
  | GSI => gsi_available offer config
  | Krb => krb_available offer host
  end.

(** [cls.missing(...)]. *)
Definition sss_missing (offer : Offer) (config : Config) (host : str) : res (option Ask) :=
  let path := default_keytab_path config in
  let ask reason := Some (mkAsk (s_ "sss") (s_ "a shared-secret keytab") reason
    (s_ "xrdsssadmin -k <name> add <keytab>, kept mode 0600 and off shared storage")
    (s_ "path to a keytab file") host false) in
  if negb (isfile env path) then Ok (ask (s_ "there is no keytab at " ++ path)) else
  match keytab_at path with
  | Err PermissionError => Ok (ask (exn_text PermissionError))
  | Err e => if is_os_error e || is_value_error e
             then Ok (ask (path ++ s_ " could not be read as a keytab: " ++ exn_text e)) else Err e
  | Ok [] => Ok (ask (path ++ s_ " holds no unexpired key"))
  | Ok keys =>
      match dict_get (s_ "n") (options offer) with
      | Some wanted =>
          if existsb (fun k => bool_decide (Sss.name k = wanted)) keys then Ok None
          else Ok (ask (path ++ s_ " holds no key named " ++ repr_str wanted ++ s_ ", which is the one asked for"))
      | None => Ok None
      end
  end.

Definition ztn_missing (config : Config) (host : str) : res (option Ask) :=
  token ← discover_token config;
  match (token : option str) with
  | Some _ => Ok None
  | None => Ok (Some (ztn_ask (s_ "nothing in " ++ comma_join (s_ "$BEARER_TOKEN" :: _token_paths config)) host))
  end.

Definition gsi_missing (config : Config) (host : str) : res (option Ask) :=
  let path := default_proxy_path config in
  let ask reason := Some (mkAsk (s_ "gsi") (s_ "an X.509 proxy") reason
    (s_ "voms-proxy-init -voms <your VO>, or point $X509_USER_PROXY at one")
    (s_ "path to a proxy file") host false) in
  if negb (isfile env path) then Ok (ask (s_ "there is no file at " ++ path)) else
  match proxy_at path with
  | Err e => if is_os_error e || is_value_error e
             then Ok (ask (path ++ s_ " could not be read as a proxy: " ++ exn_text e)) else Err e
  | Ok proxy =>
      if X509.proxy_expired (now env) proxy
      then Ok (ask (s_ "the proxy in " ++ path ++ s_ " expired " ++ humanise (proxy_remaining proxy) ++ s_ " ago"))
      else Ok None
  end.

Definition missing (m : Mech) (offer : Offer) (config : Config) (host : str) : res (option Ask) :=
  match m with
  | SSS => sss_missing offer config host
  | Ztn => ztn_missing config host
  | GSI => gsi_missing config host
  | Unix | Host | Krb => Ok None
  end.

(** [config.evolve(...)] of the fields a person can supply. *)
Definition evolve (token token_file keytab proxy : option str) (c : Config) : Config :=
  let c := c <| c_token := token |> in
  let c := c <| c_token_file := token_file |> in
  let c := c <| c_keytab := keytab |> in
  c <| c_proxy := proxy |>.

(** [cls.using(answer, config)]; the classes nothing is asked for raise. *)
Definition using_ (m : Mech) (answer : str) (c : Config) : res Config :=
  let path := expanduser env answer in
  match m with
  | SSS => Ok (evolve (c_token c) (c_token_file c) (Some path) (c_proxy c) c)
  | GSI => Ok (evolve (c_token c) (c_token_file c) (c_keytab c) (Some path) c)
  | Ztn => Ok (if isfile env path then evolve None (Some path) (c_keytab c) (c_proxy c) c
               else evolve (Some answer) (c_token_file c) (c_keytab c) (c_proxy c) c)
  | Unix | Host | Krb => Err NotImplementedError
  end.

Definition initial (c : Cred) : Cred * res bytes :=
  match c with
  | UnixCredential username => (c, u ← Writer.encode_str username; Ok (b_ "unix" ++ [x00] ++ u))
  | HostCredential => (c, Ok (b_ "host" ++ [x00]))
  | SSSCredential key username =>
      (c, Sss.sss_initial (now env) (urandom env Sss.NONCE_LEN) (Qfloor (now env) - Sss.BASE_TIME) key username)
  | TokenCredential token e =>
      (c, match e with
          | Some t => if Qle_bool t (now env) then Err TokenExpiredError
                      else a ← Gsi.ascii_encode token; Ok (b_ "ztn" ++ [x00] ++ a)
          | None => a ← Gsi.ascii_encode token; Ok (b_ "ztn" ++ [x00] ++ a)
          end)
  | GSICredential proxy cryptomod issuer_hash _ =>
      if X509.proxy_expired (now env) proxy then (c, Err CredentialError) else
      let rtag := urandom env Gsi.RTAG_LEN in
      (GSICredential proxy cryptomod issuer_hash rtag,
       Gsi.build_certreq cryptomod Gsi.VERSION_UNSIGNED_DH issuer_hash Gsi.CLIENT_OPTS_DEFAULT rtag)
  | KerberosCredential principal context established =>
      match _advance principal context None with
      | (context, done_, r) =>
          (KerberosCredential principal context done_, t ← r; Ok (b_ "krb5" ++ [x00] ++ t))
      end
  end.

Definition step (c : Cred) (challenge : bytes) : Cred * res (option bytes) :=
  match c with
  | GSICredential proxy _ _ _ =>
      (c, Gsi.gsi_step hashlib lower (urandom env) (X509.proxy_pem proxy) (X509.proxy_key proxy) challenge)
  | KerberosCredential principal context true => (c, Ok None)
  | KerberosCredential principal context false =>
      match _advance principal context (Some challenge) with
      | (context, done_, r) =>
          (KerberosCredential principal context done_,
           t ← r; Ok (match (t : bytes) with [] => None | _ => Some (b_ "krb5" ++ [x00] ++ t) end))
      end
  | _ => (c, Ok None)
  end.

(** ** The ladder *)

Definition _why_not (m : Mech) (offer : Offer) (config : Config) (host : str) : str :=
  match missing m offer config host with
  | Err e => s_ "no credential material found (" ++ describe_exn e ++ s_ ")"
  | Ok (Some ask) => a_reason ask ++ s_ "; try: " ++ a_hint ask
  | Ok None => s_ "no credential material found"
  end.

Definition _build (m : Mech) (offer : Offer) (config : Config) (username host : str) (why : dict str str)
  : option Cred * dict str str :=
  match available m offer config username host with
  | Err e => (None, dict_set (mech_name m) (describe_exn e) why)
  | Ok None => (None, dict_set (mech_name m) (_why_not m offer config host) why)
  | Ok (Some cred) => (Some cred, dict_pop (mech_name m) why)
  end.

Definition interactive (config : Config) : bool := default (on_terminal env) (c_prompt config).
End Mechanisms.
End Auth.
