(* ===== verification/Ladder.v ===== *)
(** * The ladder of mechanisms

    src/xrd/auth/__init__.py and the remembered answers of prompt.py.
    [select] is a generator: its suspended frame is a [ladder], and [next_]
    runs it to the next [yield]. The process-wide answers and the person
    typing are part of that state. The ladder implements [CredentialOps], so
    the session machine's theorems hold for it. *)

From Stdlib Require Import QArith.
From S2P Require Import Prelude PyStr Errors ConfigFile Machine Auth Words Rsa.
Open Scope Z_scope.

Module Ladder.
Import Auth.Auth.

Notation answers := (dict (str * str) (option str)).

(** Where the generator is: at the rungs still to try, or past its end. *)
Inductive phase := Trying (rest : list str) (found : bool) | Finished.

Record ladder (P : Type) := mkLadder {
  l_order : list str; l_by_name : dict str Offer; l_config : Config; l_username : str; l_host : str;
  l_phase : phase; l_answers : answers; l_person : P
}.
Arguments mkLadder {P}. Arguments l_order {P}. Arguments l_by_name {P}. Arguments l_config {P}.
Arguments l_username {P}. Arguments l_host {P}. Arguments l_phase {P}. Arguments l_answers {P}.
Arguments l_person {P}.

(** What [_ask] works on: the answers, the person, the reasons. *)
Record world (P : Type) := mkWorld { w_answers : answers; w_person : P; w_why : dict str str }.
Arguments mkWorld {P}. Arguments w_answers {P}. Arguments w_person {P}. Arguments w_why {P}.

Section Ladder.
Context {G P : Type}.
Variable env : Env G.
Variable hashlib : str -> bytes -> bytes.
Variable lower : str -> str.
Variable exn_text : exn -> str.
Variable repr_str : str -> str.
Variable describe_exn : exn -> str.
(** [config.prompter or ask_on_terminal]: what the person types. *)
Variable prompter : Ask -> P -> P * res (option str).
(** The answers and the person as [select] finds them. *)
Variable answers0 : answers.
Variable person0 : P.

Notation Cred := (Cred G).
Notation ask_st := (st exn (world P)).
Notation available := (available env).
Notation missing := (missing env exn_text repr_str).
Notation build := (_build env exn_text repr_str describe_exn).

(** ** Remembered answers *)

Definition remember (ask : Ask) (answer : option str) : ask_st unit :=
  modify (fun w => mkWorld (dict_set (ask_key ask) answer (w_answers w)) (w_person w) (w_why w)).

Definition forget_answer (ask : Ask) : ask_st unit :=
  modify (fun w => mkWorld (dict_pop (ask_key ask) (w_answers w)) (w_person w) (w_why w)).

Definition answer_for (ask : Ask) : ask_st (option str) := fun w =>
  match dict_get (ask_key ask) (w_answers w) with
  | Some answer => (w, Ok answer)
  | None =>
      match prompter ask (w_person w) with
      | (p, Err e) => (mkWorld (w_answers w) p (w_why w), Err e)
      | (p, Ok answer) => (mkWorld (dict_set (ask_key ask) answer (w_answers w)) p (w_why w), Ok answer)
      end
  end.

(** ** Asking *)

Definition _ATTEMPTS : nat := 2.

(** [_build] with the reasons in the world. *)
Definition build_ (m : Mech) (offer : Offer) (config : Config) (username host : str) : ask_st (option Cred) :=
  fun w => match build m offer config username host (w_why w) with
           | (cred, why) => (mkWorld (w_answers w) (w_person w) why, Ok cred)
           end.

(** Asked twice and still nothing. *)
Definition stop_asking (ask : Ask) : ask_st (option Cred) := remember ask None ≫= fun _ => mret None.

Fixpoint ask_loop (attempts : nat) (m : Mech) (offer : Offer) (config : Config) (username host : str) (ask : Ask)
  : ask_st (option Cred) :=
  match attempts with
  | O => stop_asking ask
  | S more =>
      answer_for ask ≫= fun answer =>
      match truthy answer with
      | None => mret None
      | Some answer =>
          lift (using_ env m answer config) ≫= fun trial =>
          build_ m offer trial username host ≫= fun cred =>
          match cred with
          | Some cred => mret (Some cred)
          | None =>
              forget_answer ask ≫= fun _ =>
              match more with
              | O => stop_asking ask
              | S _ =>
                  lift (missing m offer trial host) ≫= fun again =>
                  match again with
                  | None => stop_asking ask
                  | Some again => ask_loop more m offer config username host again
                  end
              end
          end
      end
  end.

Definition _ask (m : Mech) (offer : Offer) (config : Config) (username host : str) : ask_st (option Cred) :=
  match missing m offer config host with
  | Err _ | Ok None => mret None
  | Ok (Some ask) => ask_loop _ATTEMPTS m offer config username host ask
  end.

Definition offer_of (by_name : dict str Offer) (name : str) : Offer := default (mkOffer name []) (dict_get name by_name).

Fixpoint ask_rungs (rest : list str) (l : ladder P) : ask_st (option Cred) :=
  match rest with
  | [] => mret None
  | name :: rest =>
      match dict_get name _REGISTRY with
      | None => ask_rungs rest l
      | Some m =>
          _ask m (offer_of (l_by_name l) name) (l_config l) (l_username l) (l_host l) ≫= fun cred =>
          match cred with Some c => mret (Some c) | None => ask_rungs rest l end
      end
  end.

(** ** The generator *)

Definition select (sec : str) (config : Config) (username host : str) : ladder P :=
  let offers := parse_security_trailer sec in
  let by_name := foldl (fun d o => dict_set (o_name o) o d) [] offers in
  let order := filter (fun n => dict_mem n by_name = true) (c_auth_order config) in
  let order := order ++ filter (fun n => n ∉ order) (o_name <$> offers) in
  mkLadder order by_name config username host (Trying order false) answers0 person0.

Definition at_phase (ph : phase) (l : ladder P) : ladder P :=
  mkLadder (l_order l) (l_by_name l) (l_config l) (l_username l) (l_host l) ph (l_answers l) (l_person l).

(** The rungs, up to one that can be built. *)
Fixpoint try_rungs (rest : list str) (l : ladder P) (why : dict str str) : option (Cred * list str) * dict str str :=
  match rest with
  | [] => (None, why)
  | name :: rest =>
      match dict_get name _REGISTRY with
      | None => try_rungs rest l (dict_set name (s_ "not supported by this client") why)
      | Some m =>
          match build m (offer_of (l_by_name l) name) (l_config l) (l_username l) (l_host l) why with
          | (Some cred, why) => (Some (cred, rest), why)
          | (None, why) => try_rungs rest l why
          end
      end
  end.

(** Past the last rung: a question, if nothing was found and somebody is
    there. *)
Definition ask_phase (found : bool) (l : ladder P) (why : dict str str)
  : ladder P * dict str str * res (option Cred) :=
  if found || negb (interactive env (l_config l)) then (at_phase Finished l, why, Ok None) else
  match ask_rungs (l_order l) l (mkWorld (l_answers l) (l_person l) why) with
  | (w, r) =>
      (mkLadder (l_order l) (l_by_name l) (l_config l) (l_username l) (l_host l) Finished
         (w_answers w) (w_person w), w_why w, r)
  end.

(** [next(generator)]; [Ok None] is [StopIteration]. *)
Definition next_ (l : ladder P) (why : dict str str) : ladder P * dict str str * res (option Cred) :=
  match l_phase l with
  | Finished => (l, why, Ok None)
  | Trying rest found =>
      match try_rungs rest l why with
      | (Some (cred, rest), why) => (at_phase (Trying rest true) l, why, Ok (Some cred))
      | (None, why) => ask_phase found l why
      end
  end.

Definition bound (l : ladder P) : nat :=
  match l_phase l with Trying rest _ => S (length rest) | Finished => O end.

#[export] Instance ladder_ops : CredentialOps Cred (ladder P) := {
  cred_name c := mech_name (mech_of c);
  cred_initial := initial env;
  cred_step := step env hashlib lower;
  cred_session_key _ := None;
  cred_select := select;
  cred_next := next_;
  cred_bound := bound
}.

(** [list(generator)], with what the consumer finally holds. *)
Fixpoint drain (fuel : nat) (l : ladder P) (why : dict str str) : ladder P * dict str str * res (list Cred) :=
  match next_ l why with
  | (l, why, Err e) => (l, why, Err e)
  | (l, why, Ok None) => (l, why, Ok [])
  | (l, why, Ok (Some c)) =>
      match fuel with
      | O => (l, why, Err AssertionError)
      | S fuel => match drain fuel l why with (l, why, cs) => (l, why, (fun cs => c :: cs) <$> cs) end
      end
  end.

Definition require (sec : str) (config : Config) (username host : str) : ladder P * res (list Cred) :=
  let l := select sec config username host in
  match drain (bound l) l [] with
  | (l, why, Ok []) => (l, Err (NoMechanismError (o_name <$> parse_security_trailer sec) why))
  | (l, _, r) => (l, r)
  end.

(** [supply(name, config, host=...)], on the answers and the person. *)
Definition supply (name : str) (config : Config) (host : str) : ask_st (option Config) :=
  match dict_get name _REGISTRY with
  | None => mret None
  | Some m =>
      if negb (interactive env config) then mret None else
      match missing m (mkOffer name []) config host with
      | Err _ | Ok None => mret None
      | Ok (Some ask) =>
          answer_for ask ≫= fun answer =>
          match truthy answer with
          | None => mret None
          | Some answer => lift (using_ env m answer config) ≫= fun c => mret (Some c)
          end
      end
  end.
End Ladder.
End Ladder.

(** ** What the ladder promises

    It ends, it yields exactly the usable mechanisms of the server's offer in
    order of preference, it interrupts nobody while anything is usable, and
    it says why when nothing is. *)

Open Scope Z_scope.
Import Auth.Auth Ladder.Ladder.

Lemma registry_name name m : dict_get name _REGISTRY = Some m -> mech_name m = name.
Proof.
  unfold _REGISTRY. cbn [fmap list_fmap dict_get].
  repeat (case_decide; [intros [= <-]; done|]). done.
Qed.

Lemma omap_cons_none {A B} (f : A -> option B) x l : f x = None -> omap f (x :: l) = omap f l.
Proof. intros E. cbn. by rewrite E. Qed.

Lemma omap_cons_some {A B} (f : A -> option B) x y l : f x = Some y -> omap f (x :: l) = y :: omap f l.
Proof. intros E. cbn. by rewrite E. Qed.

Section Props.
Context {G P : Type}.
Variable env : Env G.
Variable exn_text : exn -> str.
Variable repr_str : str -> str.
Variable describe_exn : exn -> str.
Variable prompter : Ask -> P -> P * res (option str).
Variable answers0 : answers.
Variable person0 : P.

Notation select := (select answers0 person0).
Notation build := (_build env exn_text repr_str describe_exn).
Notation missing := (missing env exn_text repr_str).
Notation next_ := (next_ env exn_text repr_str describe_exn prompter).
Notation drain := (drain env exn_text repr_str describe_exn prompter).
Notation try_rungs := (try_rungs env exn_text repr_str describe_exn).
Notation _ask := (_ask env exn_text repr_str describe_exn prompter).
Notation ask_loop := (ask_loop env exn_text repr_str describe_exn prompter).
Notation ask_rungs := (ask_rungs env exn_text repr_str describe_exn prompter).
Notation require := (require env exn_text repr_str describe_exn prompter answers0 person0).

(** ** What one rung gives *)

Definition rung (l : ladder P) (name : str) : option (Cred G) :=
  m ← dict_get name _REGISTRY;
  match available env m (offer_of (l_by_name l) name) (l_config l) (l_username l) (l_host l) with
  | Ok (Some c) => Some c
  | _ => None
  end.

Definition usable (l : ladder P) : list (Cred G) := omap (rung l) (l_order l).

Lemma available_mech m o c u h cred : available env m o c u h = Ok (Some cred) -> mech_of cred = m.
Proof.
  destruct m; cbn [available]; try (by intros [= <-]).
  - unfold sss_available. repeat case_goal; intros E'; inversion E'; done.
  - unfold ztn_available. destruct (discover_token env c) as [t|]; cbn; [|done].
    destruct (truthy t) as [t'|]; [|done]. destruct (token_expiry env t') as [e|]; cbn; [|done]. by intros [= <-].
  - unfold gsi_available. repeat case_goal; intros E'; inversion E'; done.
  - unfold krb_available. destruct (Krb5.Krb5.tickets _ _) as [live|]; cbn; [|done].
    repeat case_goal; intros E'; inversion E'; done.
Qed.

Lemma build_rung l name m why :
  dict_get name _REGISTRY = Some m ->
  (build m (offer_of (l_by_name l) name) (l_config l) (l_username l) (l_host l) why).1 = rung l name.
Proof.
  intros E. unfold rung, _build. rewrite E. cbn.
  by destruct (available env m _ _ _ _) as [[c|]|e].
Qed.

Lemma rung_name l name c : rung l name = Some c -> mech_name (mech_of c) = name.
Proof.
  unfold rung. destruct (dict_get name _REGISTRY) as [m|] eqn:E; cbn; [|done].
  destruct (available env m _ _ _ _) as [[c'|]|e] eqn:Ea; [|done..]. intros [= <-].
  rewrite (available_mech _ _ _ _ _ _ Ea). by apply registry_name.
Qed.

(** The rungs tried are those that cannot be built, and the next that can. *)
Lemma try_rungs_spec l rest why :
  match (try_rungs rest l why).1 with
  | Some (c, rest') => exists pre name, rest = pre ++ name :: rest' /\ omap (rung l) pre = [] /\ rung l name = Some c
  | None => omap (rung l) rest = []
  end.
Proof.
  revert why. induction rest as [|name rest IH]; intros why; cbn [Ladder.try_rungs]; [done|].
  destruct (dict_get name _REGISTRY) as [m|] eqn:E.
  - pose proof (build_rung l name m why E) as Hb.
    destruct (build m _ _ _ _ why) as [[c|] why'] eqn:Eb; cbn in Hb.
    + cbn. by exists [], name.
    + specialize (IH why'). destruct (try_rungs rest l why').1 as [[c r]|].
      * destruct IH as (pre & n & -> & Hp & Hn). exists (name :: pre), n. by rewrite omap_cons_none.
      * by rewrite omap_cons_none.
  - assert (Hr : rung l name = None) by (unfold rung; by rewrite E).
    specialize (IH (dict_set name (s_ "not supported by this client") why)).
    destruct (try_rungs rest l _).1 as [[c r]|].
    + destruct IH as (pre & n & -> & Hp & Hn). exists (name :: pre), n. by rewrite omap_cons_none.
    + by rewrite omap_cons_none.
Qed.

Lemma next_bound l why l' why' c : next_ l why = (l', why', Ok (Some c)) -> (bound l' < bound l)%nat.
Proof.
  unfold Ladder.next_, bound at 2. destruct (l_phase l) as [rest found|]; [|done].
  pose proof (try_rungs_spec l rest why) as H. destruct (try_rungs rest l why) as [[[c' r]|] w]; cbn in H.
  - intros [= <- <- <-]. destruct H as (pre & n & -> & _). cbn. rewrite length_app. cbn. lia.
  - unfold ask_phase. destruct (found || _); [done|].
    destruct (ask_rungs _ l _) as [w' r]. intros [= <- _ _]. cbn. lia.
Qed.

(** *** All of them *)

Lemma drain_spec fuel : forall rest found l why,
  l_phase l = Trying rest found -> (length rest <= fuel)%nat ->
  found = true \/ omap (rung l) rest <> [] \/ interactive env (l_config l) = false ->
  exists l' why', drain fuel l why = (l', why', Ok (omap (rung l) rest))
    /\ l_person l' = l_person l /\ l_answers l' = l_answers l.
Proof.
  induction fuel as [|fuel IH]; intros rest found l why Hp Hf Hq;
    pose proof (try_rungs_spec l rest why) as H; cbn [Ladder.drain]; unfold Ladder.next_; rewrite Hp;
    destruct (try_rungs rest l why) as [[[c r]|] w]; cbn [fst] in H.
  - destruct H as (pre & n & -> & _). rewrite length_app in Hf. cbn in Hf. lia.
  - unfold ask_phase. replace (found || negb (interactive env (l_config l))) with true.
    2: { destruct Hq as [-> | [Hq | ->]]; [done | done | by rewrite orb_true_r]. }
    rewrite H. by eexists _, _.
  - destruct H as (pre & n & -> & Hpre & Hn). rewrite length_app in Hf. cbn in Hf.
    destruct (IH r true (at_phase (Trying r true) l) w eq_refl ltac:(lia) ltac:(by left)) as (l' & why' & E & E1 & E2).
    rewrite E. exists l', why'. split; [|done]. cbn [fmap result_fmap].
    rewrite omap_app, Hpre, (omap_cons_some _ _ _ _ Hn). done.
  - unfold ask_phase. replace (found || negb (interactive env (l_config l))) with true.
    2: { destruct Hq as [-> | [Hq | ->]]; [done | done | by rewrite orb_true_r]. }
    rewrite H. by eexists _, _.
Qed.

(** The rungs are the offered mechanisms, each of them. *)
Lemma by_name_keys offers d n :
  n ∈ dict_keys (foldl (fun d o => dict_set (o_name o) o d) d offers)
  <-> n ∈ dict_keys d \/ n ∈ o_name <$> offers.
Proof.
  revert d. induction offers as [|o offers IH]; intros d; cbn [foldl fmap list_fmap].
  - rewrite elem_of_nil. tauto.
  - rewrite IH, elem_of_cons, !dict_get_keys, dict_get_set. case_decide; subst.
    + split; [auto|]. intros _. left. by eexists.
    + intuition congruence.
Qed.

Lemma order_offered sec config username host n :
  n ∈ l_order (select sec config username host) <-> n ∈ o_name <$> parse_security_trailer sec.
Proof.
  cbn [l_order Ladder.select]. rewrite elem_of_app, !list_elem_of_filter.
  rewrite !dict_mem_true, <- !dict_get_keys, !by_name_keys. cbn [dict_keys fmap list_fmap].
  rewrite !elem_of_nil. split; [tauto|]. intros H.
  destruct (decide (n ∈ c_auth_order config)); tauto.
Qed.

Lemma usable_offered sec config username host :
  Forall (fun c => mech_name (mech_of c) ∈ o_name <$> parse_security_trailer sec)
    (usable (select sec config username host)).
Proof.
  apply Forall_forall. intros c Hc%list_elem_of_omap. destruct Hc as (n & Hn & Hr).
  apply rung_name in Hr. rewrite Hr. by apply order_offered in Hn.
Qed.

(** *** The offer and the preferences alone *)

(** The offered names as they are to be tried: those of the preferences
    first, in the order preferred, then the others as the server named them. *)
Definition ranking (preferred offered : list str) : list str :=
  filter (fun n => n ∈ offered) preferred ++ filter (fun n => n ∉ preferred) offered.

(** What a mechanism can present, given what the server last said of it. *)
Definition obtainable (sec : str) (config : Config) (username host name : str) : option (Cred G) :=
  o ← last (filter (fun o => o_name o = name) (parse_security_trailer sec));
  m ← dict_get name _REGISTRY;
  match available env m o config username host with Ok (Some c) => Some c | _ => None end.

Definition acceptable (sec : str) (config : Config) (username host : str) : list (Cred G) :=
  omap (obtainable sec config username host)
    (ranking (c_auth_order config) (o_name <$> parse_security_trailer sec)).

Lemma by_name_get offers d n :
  dict_get n (foldl (fun d o => dict_set (o_name o) o d) d offers)
  = match last (filter (fun o => o_name o = n) offers) with Some o => Some o | None => dict_get n d end.
Proof.
  revert d. induction offers as [|o offers IH]; intros d; cbn [foldl]; [done|].
  rewrite IH, filter_cons, dict_get_set. case_decide; [|done]. rewrite last_cons. by destruct (last _).
Qed.

Lemma order_ranking sec config username host :
  l_order (select sec config username host)
  = ranking (c_auth_order config) (o_name <$> parse_security_trailer sec).
Proof.
  cbn [l_order Ladder.select]. unfold ranking.
  assert (forall n, dict_mem n (foldl (fun d o => dict_set (o_name o) o d) [] (parse_security_trailer sec)) = true
                    <-> n ∈ o_name <$> parse_security_trailer sec) as Hm.
  { intros n. rewrite dict_mem_true, <- dict_get_keys, by_name_keys. cbn. rewrite elem_of_nil. tauto. }
  f_equal; [by apply list_filter_iff|].
  assert (forall l, Forall (fun n => n ∈ o_name <$> parse_security_trailer sec) l ->
    filter (fun n => n ∉ filter (fun n => dict_mem n (foldl (fun d o => dict_set (o_name o) o d) []
                       (parse_security_trailer sec)) = true) (c_auth_order config)) l
    = filter (fun n => n ∉ c_auth_order config) l) as Hf.
  { induction 1 as [|n l Hn _ IH]; [done|]. rewrite !filter_cons, IH.
    pose proof (list_elem_of_filter (fun n => dict_mem n (foldl (fun d o => dict_set (o_name o) o d) []
      (parse_security_trailer sec)) = true) (c_auth_order config) n) as Hin. rewrite Hm in Hin.
    repeat case_decide; tauto. }
  apply Hf, Forall_forall. done.
Qed.

Lemma usable_acceptable sec config username host :
  usable (select sec config username host) = acceptable sec config username host.
Proof.
  unfold usable, acceptable.
  assert (Forall (fun n => n ∈ o_name <$> parse_security_trailer sec)
            (l_order (select sec config username host))) as Ho
    by (apply Forall_forall; intros n; apply order_offered).
  rewrite <- (order_ranking sec config username host). induction Ho as [|n ns Hn _ IH]; [done|].
  assert (rung (select sec config username host) n = obtainable sec config username host n) as En.
  { unfold rung, obtainable, offer_of. cbn [Ladder.select l_by_name l_config l_username l_host].
    rewrite by_name_get. apply list_elem_of_fmap in Hn as (o & -> & Ho).
    destruct (last (filter _ _)) as [o'|] eqn:El; [done|]. apply last_None in El.
    by apply (filter_nil_not_elem_of _ _ _ El) in Ho. }
  cbn. rewrite <- En. by rewrite IH.
Qed.

(** C27: while any mechanism the server offered can be used, the credentials
    [select] yields are exactly those the offered mechanisms can present,
    the ones of [config.auth_order] first and in that order, the others
    behind them in the order of the server's offer; and nobody is asked
    anything. *)
Theorem select_usable sec config username host why :
  let l := select sec config username host in
  acceptable sec config username host <> [] ->
  exists l' why', drain (bound l) l why = (l', why', Ok (acceptable sec config username host))
    /\ l_person l' = person0 /\ l_answers l' = answers0
    /\ Forall (fun c => mech_name (mech_of c) ∈ o_name <$> parse_security_trailer sec)
         (acceptable sec config username host).
Proof.
  rewrite <- usable_acceptable. intros l Hu.
  destruct (drain_spec (bound l) (l_order l) false l why eq_refl) as (l' & why' & E & E1 & E2).
  - cbn. lia.
  - by right; left.
  - exists l', why'. split_and!; [exact E | exact E1 | exact E2 | apply usable_offered].
Qed.

(** *** Nothing usable *)

Lemma build_why l name m why n :
  dict_get name _REGISTRY = Some m -> rung l name = None ->
  is_Some (dict_get n (build m (offer_of (l_by_name l) name) (l_config l) (l_username l) (l_host l) why).2)
  <-> n = name \/ is_Some (dict_get n why).
Proof.
  intros E. unfold rung, _build. rewrite E. cbn. pose proof (registry_name _ _ E) as Hn.
  destruct (available env m _ _ _ _) as [[c|]|e]; [done| |]; intros _; cbn; rewrite dict_get_set;
    case_decide; subst; split; auto; try (intros _; by eexists); intuition congruence.
Qed.

(** Every rung that gives nothing leaves a reason. *)
Lemma try_rungs_why l rest why :
  omap (rung l) rest = [] ->
  forall n, n ∈ rest \/ is_Some (dict_get n why) -> is_Some (dict_get n (try_rungs rest l why).2).
Proof.
  revert why. induction rest as [|name rest IH]; intros why Hr n Hn; cbn [Ladder.try_rungs].
  - destruct Hn as [Hn | Hn]; [by apply elem_of_nil in Hn | done].
  - assert (Hname : rung l name = None) by (destruct (rung l name) eqn:E; [|done]; by rewrite (omap_cons_some _ _ _ _ E) in Hr).
    rewrite (omap_cons_none _ _ _ Hname) in Hr. rewrite elem_of_cons in Hn.
    destruct (dict_get name _REGISTRY) as [m|] eqn:E.
    + pose proof (build_why l name m why n E Hname) as Hw. pose proof (build_rung l name m why E) as Hb.
      rewrite Hname in Hb. destruct (build m _ _ _ _ why) as [[c|] why']; [done|]. cbn in Hw.
      apply IH; [done|]. rewrite Hw. tauto.
    + apply IH; [done|]. rewrite dict_get_set. case_decide; subst; [right; by eexists | intuition congruence].
Qed.

(** When nothing is usable and there is nobody to ask, [require] raises
    [NoMechanismError] with a reason for every mechanism the server offered. *)
Theorem require_explains sec config username host :
  usable (select sec config username host) = [] -> interactive env config = false ->
  exists tried, (require sec config username host).2
      = Err (NoMechanismError (o_name <$> parse_security_trailer sec) tried)
    /\ (forall n, n ∈ o_name <$> parse_security_trailer sec -> is_Some (dict_get n tried)).
Proof.
  intros Hu Hi. set (l := select sec config username host) in *.
  pose proof (try_rungs_spec l (l_order l) []) as Hs. pose proof (try_rungs_why l (l_order l) [] Hu) as Hw.
  assert (Hl : bound l = S (length (l_order l))) by done.
  unfold Ladder.require. fold l. rewrite Hl. cbn [Ladder.drain]. unfold Ladder.next_.
  change (l_phase l) with (Trying (l_order l) false). cbv iota.
  destruct (try_rungs (l_order l) l []) as [[[c r]|] tried]; cbn [fst snd] in Hs, Hw.
  - destruct Hs as (pre & n & E & _ & Hn). unfold usable in Hu. rewrite E, omap_app, (omap_cons_some _ _ _ _ Hn) in Hu.
    by apply app_eq_nil in Hu as [_ ?].
  - unfold ask_phase. change (l_config l) with config. rewrite Hi. cbn. exists tried. split; [done|].
    intros n Hn. apply Hw. left. by apply order_offered.
Qed.

(** *** Asking *)

(** An answer is settled when it is remembered and is none. *)
Definition settled (l : ladder P) (name : str) (a : answers) : Prop :=
  match dict_get name _REGISTRY with
  | None => True
  | Some m =>
      match missing m (offer_of (l_by_name l) name) (l_config l) (l_host l) with
      | Ok (Some ask) => exists v, dict_get (ask_key ask) a = Some v /\ truthy v = None
      | _ => True
      end
  end.

Lemma missing_key m o c h ask : missing m o c h = Ok (Some ask) -> ask_key ask = (mech_name m, h).
Proof.
  destruct m; cbn [Auth.missing]; try done.
  - unfold sss_missing. repeat case_goal; intros E'; inversion E'; done.
  - unfold ztn_missing. destruct (discover_token env c) as [[t|]|]; cbn; try done. by intros [= <-].
  - unfold gsi_missing. repeat case_goal; intros E'; inversion E'; done.
Qed.

(** From [w] to [w']: the answer about [m] is settled, no other is touched. *)
Definition settles (m : Mech) (h : str) (w w' : world P) : Prop :=
  (exists v, dict_get (mech_name m, h) (w_answers w') = Some v /\ truthy v = None)
  /\ (forall k, k <> (mech_name m, h) -> dict_get k (w_answers w') = dict_get k (w_answers w)).

Definition same_others (m : Mech) (h : str) (w w' : world P) : Prop :=
  forall k, k <> (mech_name m, h) -> dict_get k (w_answers w') = dict_get k (w_answers w).

Lemma stop_settles m h ask w w0 w' :
  ask_key ask = (mech_name m, h) -> same_others m h w w0 ->
  stop_asking ask w0 = (w', Ok (None : option (Cred G))) -> settles m h w w'.
Proof.
  intros Hk H0. cbn. intros [= <-]. rewrite Hk. split; cbn; [exists None; by rewrite dict_get_set_eq|].
  intros k Hne. rewrite dict_get_set_ne by congruence. by apply H0.
Qed.

Lemma answer_for_stored m h ask w w' v :
  ask_key ask = (mech_name m, h) -> answer_for prompter ask w = (w', Ok v) ->
  dict_get (mech_name m, h) (w_answers w') = Some v /\ same_others m h w w'.
Proof.
  unfold answer_for. intros ->. destruct (dict_get _ _) as [v'|] eqn:E; [by intros [= <- <-]|].
  destruct (prompter ask (w_person w)) as [p [v'|e]]; [|done]. intros [= <- <-]. cbn.
  split; [by rewrite dict_get_set_eq|]. intros k Hne. cbn. by rewrite dict_get_set_ne.
Qed.

(** Asking about one mechanism and getting nowhere settles it. *)
Lemma ask_loop_settles n m o c u h ask w w' :
  ask_key ask = (mech_name m, h) -> ask_loop n m o c u h ask w = (w', Ok None) -> settles m h w w'.
Proof.
  revert ask w. induction n as [|n IH]; intros ask w Hk; cbn [Ladder.ask_loop]; [by apply stop_settles|].
  rewrite st_bind_eq. destruct (answer_for prompter ask w) as [w0 [v|e]] eqn:Ea; [|done].
  destruct (answer_for_stored _ _ _ _ _ _ Hk Ea) as [Hv H0].
  destruct (truthy v) as [answer|] eqn:Ev; [|intros [= <-]; split; eauto].
  rewrite st_bind_eq. unfold lift at 1. destruct (using_ env m answer c) as [trial|e]; [|done].
  rewrite st_bind_eq. unfold build_. destruct (build m o trial u h (w_why w0)) as [[cred|] why]; [done|].
  rewrite st_bind_eq. cbn [forget_answer modify]. set (w1 := mkWorld _ _ _).
  assert (Hp : same_others m h w w1)
    by (intros k Hne; unfold w1; cbn [w_answers]; rewrite Hk, dict_get_pop_ne by congruence; by apply H0).
  destruct n as [|n]; [by apply stop_settles|].
  rewrite st_bind_eq. unfold lift.
  destruct (missing m o trial h) as [[again|]|e] eqn:Em; [|by apply stop_settles|done].
  intros E. apply IH in E as [E1 E2]; [|by eapply missing_key]. split; [exact E1|].
  intros k Hne. rewrite E2 by done. by apply Hp.
Qed.

Lemma ask_settles l name m w w' :
  dict_get name _REGISTRY = Some m ->
  _ask m (offer_of (l_by_name l) name) (l_config l) (l_username l) (l_host l) w = (w', Ok None) ->
  settled l name (w_answers w') /\ same_others m (l_host l) w w'.
Proof.
  intros E. unfold Ladder._ask, settled. rewrite E.
  destruct (missing m _ _ _) as [[ask|]|e] eqn:Em; [|by intros [= <-]..].
  pose proof (missing_key _ _ _ _ _ Em) as Hk. intros Ha%ask_loop_settles; [|done].
  rewrite Hk. exact Ha.
Qed.

Lemma ask_when_settled l name m w :
  dict_get name _REGISTRY = Some m -> settled l name (w_answers w) ->
  _ask m (offer_of (l_by_name l) name) (l_config l) (l_username l) (l_host l) w = (w, Ok None).
Proof.
  intros E. unfold settled, Ladder._ask. rewrite E.
  destruct (missing m _ _ _) as [[ask|]|e]; [|done..]. intros (v & Hv & Ht).
  unfold _ATTEMPTS. cbn [Ladder.ask_loop]. rewrite st_bind_eq. unfold answer_for. by rewrite Hv, Ht.
Qed.

(** A settled answer stays settled while other mechanisms are asked about. *)
Lemma settled_same_others l name name' m w w' :
  dict_get name' _REGISTRY = Some m -> name <> name' -> same_others m (l_host l) w w' ->
  settled l name (w_answers w) -> settled l name (w_answers w').
Proof.
  intros E Hne Hs. unfold settled. destruct (dict_get name _REGISTRY) as [m'|] eqn:E'; [|done].
  destruct (missing m' _ _ _) as [[ask|]|e] eqn:Em; [|done..].
  rewrite (missing_key _ _ _ _ _ Em), Hs; [done|]. intros [= Heq].
  apply registry_name in E, E'. congruence.
Qed.

Lemma ask_rungs_settle l rest done_ w w' :
  (forall n, n ∈ done_ -> settled l n (w_answers w)) ->
  ask_rungs rest l w = (w', Ok None) -> forall n, n ∈ done_ ++ rest -> settled l n (w_answers w').
Proof.
  revert done_ w. induction rest as [|name rest IH]; intros done_ w Hd; cbn [Ladder.ask_rungs].
  - intros [= <-]. by rewrite app_nil_r.
  - rewrite cons_middle, app_assoc. destruct (dict_get name _REGISTRY) as [m|] eqn:E.
    + rewrite st_bind_eq. destruct (_ask m _ _ _ _ w) as [w0 [[c|]|e]] eqn:Ea; [done| |done].
      destruct (ask_settles _ _ _ _ _ E Ea) as [Hs Ho]. apply IH.
      intros n [Hn | ->%list_elem_of_singleton]%elem_of_app; [|exact Hs].
      destruct (decide (n = name)) as [->|]; [exact Hs|]. eapply settled_same_others; eauto.
    + apply IH. intros n [Hn | ->%list_elem_of_singleton]%elem_of_app; [by apply Hd|].
      unfold settled. by rewrite E.
Qed.

Lemma ask_rungs_settled l rest w :
  (forall n, n ∈ rest -> settled l n (w_answers w)) -> ask_rungs rest l w = (w, Ok None).
Proof.
  induction rest as [|name rest IH]; intros Hs; cbn [Ladder.ask_rungs]; [done|].
  destruct (dict_get name _REGISTRY) as [m|] eqn:E.
  - rewrite st_bind_eq, (ask_when_settled l name m w E) by (apply Hs; by left). apply IH. intros n Hn. apply Hs. by right.
  - apply IH. intros n Hn. apply Hs. by right.
Qed.

(** Nobody is asked twice for what they could not give: once the questions
    of a negotiation have produced no credential, the next one to the same
    host asks nothing - the person's state is untouched - and yields nothing. *)
Theorem refusals_remembered l w w1 person why :
  ask_rungs (l_order l) l w = (w1, Ok None) ->
  ask_rungs (l_order l) l (mkWorld (w_answers w1) person why) = (mkWorld (w_answers w1) person why, Ok None).
Proof.
  intros H. apply ask_rungs_settled. intros n Hn. cbn [w_answers].
  apply (ask_rungs_settle l (l_order l) [] w w1 ltac:(by intros ? ?%elem_of_nil) H n Hn).
Qed.
End Props.

(** The ladder meets the contract the session machine relies on. *)
#[export] Instance ladder_laws {G P} env hashlib lower exn_text repr_str describe_exn prompter answers0 person0 :
  @CredentialLaws (Cred G) (ladder P)
    (ladder_ops env hashlib lower exn_text repr_str describe_exn prompter answers0 person0).
Proof. split. intros i d i' d' c. apply next_bound. Qed.

(** ** Concrete ladders *)

(** An account with nothing but a token, or nothing at all, and a person who
    types the paths of a list. *)
Definition demo_env (token : option str) (tty : bool) (file : option bytes) : Env unit :=
  {| getenv v := if decide (v = s_ "BEARER_TOKEN") then token else None;
     uid := 1000; euid := 1000;
     isfile p := match file with Some _ => bool_decide (p = s_ "/p") | None => false end;
     path_exists _ := false;
     read_text _ := Err OSError;
     read_bytes p := match file with
                     | Some b => if decide (p = s_ "/p") then Ok b else Err OSError
                     | None => Err OSError
                     end;
     stat_mode _ := Err OSError; read_lines _ := Err OSError; expanduser p := p;
     now := 1000 # 1; urandom n := replicate (Z.to_nat n) x00; json_loads _ := Err ValueError;
     gssapi := None; on_terminal := tty |}.

Definition demo_typist (a : Ask) (typed : list str) : list str * res (option str) :=
  match typed with [] => ([], Ok None) | t :: typed => (typed, Ok (Some t)) end.

Definition demo_config : Config :=
  Eval vm_compute in let c := factory (s_ "alice") in
  let c := c <| c_wait_cap := 60%Q |> in
  let c := c <| c_pool_size := 2 |> in
  let c := c <| c_pool_idle_ttl := 30%Q |> in
  c.

Notation demo_text := (fun _ : exn => s_ "failed").

(** The server offers unix first; the token is preferred. *)
Lemma select_usable_witness :
  exists l' why',
    Ladder.drain (demo_env (Some (s_ "a.b.c")) true None) demo_text id demo_text demo_typist 4
      (Ladder.select [] [s_ "x"] (s_ "&P=unix&P=gsi,v:1&P=ztn") demo_config [] (s_ "h")) []
    = (l', why', Ok [TokenCredential (s_ "a.b.c") None; UnixCredential (s_ "alice")])
    /\ l_person l' = [s_ "x"].
Proof.
  destruct (select_usable (demo_env (Some (s_ "a.b.c")) true None) demo_text id demo_text demo_typist []
    [s_ "x"] (s_ "&P=unix&P=gsi,v:1&P=ztn") demo_config [] (s_ "h") [] ltac:(vm_compute; discriminate))
    as (l' & why' & E & Hp & _).
  exists l', why'. split; [exact E | exact Hp].
Defined.

Lemma require_explains_witness :
  exists tried,
    (Ladder.require (demo_env None false None) demo_text id demo_text demo_typist [] []
       (s_ "&P=gsi,v:1&P=pwd") demo_config [] (s_ "h")).2
    = Err (NoMechanismError [s_ "gsi"; s_ "pwd"] tried) /\ is_Some (dict_get (s_ "pwd") tried).
Proof.
  destruct (require_explains (demo_env None false None) demo_text id demo_text demo_typist [] []
    (s_ "&P=gsi,v:1&P=pwd") demo_config [] (s_ "h") ltac:(vm_compute; reflexivity) eq_refl) as (tried & E & H).
  exists tried. split; [exact E|]. apply H. vm_compute. by right; left.
Defined.

(** Two wrong paths, and a third that is never read. *)
Lemma refusals_remembered_witness :
  let env := demo_env None true None in
  let l := Ladder.select [] [s_ "/a"; s_ "/b"; s_ "/c"] (s_ "&P=gsi") demo_config [] (s_ "h") in
  let w := (Ladder.ask_rungs env demo_text id demo_text demo_typist (l_order l) l
              (mkWorld [] [s_ "/a"; s_ "/b"; s_ "/c"] [])).1 in
  w_person w = [s_ "/c"]
  /\ Ladder.ask_rungs env demo_text id demo_text demo_typist (l_order l) l (mkWorld (w_answers w) (w_person w) [])
     = (mkWorld (w_answers w) (w_person w) [], Ok None).
Proof.
  intros env l w. split; [vm_compute; reflexivity|].
  apply (refusals_remembered env demo_text id demo_text demo_typist l
    (mkWorld [] [s_ "/a"; s_ "/b"; s_ "/c"] []) w). vm_compute. reflexivity.
Defined.

(** ** Where the ladder breaks

    A proxy whose certificate is an empty sequence makes [GSICredential.missing]
    raise [IndexError]; the second diagnosis of [_ask] is not guarded, so the
    exception leaves [select]. *)
Definition broken_proxy : bytes :=
  b_ "-----BEGIN CERTIFICATE-----" ++ [x0a] ++ b_ "MAA=" ++ [x0a] ++ b_ "-----END CERTIFICATE-----" ++ [x0a].

Lemma diagnosis_escapes :
  (Ladder.next_ (demo_env None true (Some broken_proxy)) demo_text id demo_text demo_typist
     (Ladder.select [] [s_ "/p"] (s_ "&P=gsi") demo_config [] (s_ "h")) []).2 = Err IndexError.
Proof. vm_compute. reflexivity. Qed.
