(* ===== verification/FileClient.v ===== *)
(** * An open remote file

    src/xrd/client/file.py: the low-level handle. Every method is a protocol
    operation on a router; routers are an interface, [RouterEnv]. The state is
    the handle object and everything outside it; a method that raises keeps
    the changes it made before.

    [read] and [write] loop until their bytes have gone, which they never do
    when [chunk_size] is not positive: they take one turn of fuel per byte and
    return [None] when it runs out. *)

From S2P Require Import Prelude PyStr Constants Errors Buffer Frames Requests Responses Flags ConfigFile Crc Words Url UrlText.
Open Scope Z_scope.

(** What a handle uses of routers: [R] are references to them, [W] the state
    of everything outside the handle. An operation that returns a [Result]
    gives its data, which is all that is read of it. *)
Class RouterEnv (R W : Type) := {
  rt_new : XRootDURL -> Config -> W -> R * W;
  rt_execute : R -> Request -> str -> W -> W * res bytes;
  rt_arrives : R -> W -> W * res (option bool);
  rt_on_path : R -> Request -> str -> W -> W * res bytes;
  rt_bind_data_path : R -> W -> W * res Z;
  rt_pin : R -> bool -> W -> R * W;
  rt_close : R -> W -> W;
  rt_discard : R -> W -> W;
  rt_same_session : R -> R -> W -> W * res bool
}.

Module FileClient.

Definition READV_MAX_CHUNKS : Z := 1024.
Definition READV_MAX_BYTES : Z := Z.shiftl 2 20.
Definition CLONE_MAX_RANGES : Z := 1024.

Record ReadRange := mkRange { rr_offset : Z; rr_length : Z }.
Record WriteChunk := mkChunk { wc_offset : Z; wc_data : bytes }.
Record CloneRange := mkClone { cl_offset : Z; cl_length : Z; cl_target : option Z }.
Definition destination (c : CloneRange) : Z := default (cl_offset c) (cl_target c).
Record PageResult := mkPages { pg_data : bytes; pg_offset : Z; pg_corrupt : list Z }.

Record File (R : Type) := mkFile {
  f_url : XRootDURL; f_config : Config; f_router : R; f_owns_router : bool; f_handle : option bytes;
  f_stat : option StatInfo; f_compression : Z * str; f_size_hint : Z; f_flags : Z; f_mode : Z;
  f_checkpoint : bool; f_pathid : Z; f_data_paths : list Z; f_rr : Z; f_multistream : bool;
  f_recoveries : Z
}.
Arguments mkFile {R}.
Arguments f_url {R}.
Arguments f_config {R}.
Arguments f_router {R}.
Arguments f_owns_router {R}.
Arguments f_handle {R}.
Arguments f_stat {R}.
Arguments f_compression {R}.
Arguments f_size_hint {R}.
Arguments f_flags {R}.
Arguments f_mode {R}.
Arguments f_checkpoint {R}.
Arguments f_pathid {R}.
Arguments f_data_paths {R}.
Arguments f_rr {R}.
Arguments f_multistream {R}.
Arguments f_recoveries {R}.

(** ** Batches *)

(** Split vector reads to respect the server's per-request ceilings. *)
Fixpoint batches_loop {A} (size : A -> Z) (items : list A) (batch : list A) (total : Z) : list (list A) :=
  match items with
  | [] => match batch with [] => [] | _ => [batch] end
  | x :: items =>
      if negb (match batch with [] => true | _ => false end)
         && ((READV_MAX_CHUNKS <=? zlen batch) || (READV_MAX_BYTES <? total + size x))
      then batch :: batches_loop size items [x] (size x)
      else batches_loop size items (batch ++ [x]) (total + size x)
  end.

(** The generator raises when it meets a range too large; the batches before
    it have been yielded, and sent, by then. *)
Definition _batches (ranges : list ReadRange) : list (list ReadRange) * option exn :=
  let large r := READV_MAX_BYTES <? rr_length r in
  match list_find (fun r => large r = true) ranges with
  | None => (batches_loop rr_length ranges [] 0, None)
  | Some (i, _) => (removelast (batches_loop rr_length (take i ranges) [] 0), Some ProtocolError)
  end.

Definition _write_batches (chunks : list WriteChunk) : list (list WriteChunk) :=
  batches_loop (fun c => zlen (wc_data c)) chunks [] 0.

(** How long a [kXR_pgread] reply of [size] bytes may be, checksums included. *)
Definition _packed_length (size offset : Z) : Z :=
  if size <=? 0 then 0 else
  let page := kXR_pgPageSZ in
  let head := page - offset mod page in
  let rest := Z.max (size - head) 0 in
  size + 4 * (1 + - (- rest / page)).

(** One vector-read segment, and the answers left at its offset. *)
Definition _segment_for (wanted : ReadRange) (answers : option (list bytes)) : res (bytes * list bytes) :=
  match answers with
  | None | Some [] => Err ProtocolError
  | Some (data :: more) =>
      let left_ := match more with [] => [data] | _ => more end in
      if rr_length wanted <? zlen data then Err ProtocolError else Ok (data, left_)
  end.

Definition _range (offset length : Z) (target : option Z) : res CloneRange :=
  let span := mkClone offset length target in
  if (offset <? 0) || (length <? 0) || (destination span <? 0) then Err ValueError else Ok span.

(** The table lookups of the page checksums, which never miss. *)
Definition indexed {A} (o : option A) : res A := match o with Some a => Ok a | None => Err IndexError end.

(** The message of an error the client makes itself is left out. *)
Definition unsupported : exn := ServerExn UnsupportedError kXR_Unsupported [] None.

Section File.
Context {R W : Type} `{RouterEnv R W}.
(** [str.upper], [str.lower] and [str.isdigit]. *)
Variable upper lower : str -> str.
Variable isdigit : str -> bool.

Record fstate := mkF { fs_file : File R; fs_world : W }.
Notation F := (st exn fstate).

Definition set_f_router (v : R) (f : File R) : File R := mkFile (f_url f) (f_config f) v (f_owns_router f)
  (f_handle f) (f_stat f) (f_compression f) (f_size_hint f) (f_flags f) (f_mode f) (f_checkpoint f)
  (f_pathid f) (f_data_paths f) (f_rr f) (f_multistream f) (f_recoveries f).
Definition set_f_owns_router (v : bool) (f : File R) : File R := mkFile (f_url f) (f_config f) (f_router f)
  v (f_handle f) (f_stat f) (f_compression f) (f_size_hint f) (f_flags f) (f_mode f) (f_checkpoint f)
  (f_pathid f) (f_data_paths f) (f_rr f) (f_multistream f) (f_recoveries f).
Definition set_f_handle (v : option bytes) (f : File R) : File R := mkFile (f_url f) (f_config f) (f_router
  f) (f_owns_router f) v (f_stat f) (f_compression f) (f_size_hint f) (f_flags f) (f_mode f) (f_checkpoint
  f) (f_pathid f) (f_data_paths f) (f_rr f) (f_multistream f) (f_recoveries f).
Definition set_f_stat (v : option StatInfo) (f : File R) : File R := mkFile (f_url f) (f_config f) (f_router
  f) (f_owns_router f) (f_handle f) v (f_compression f) (f_size_hint f) (f_flags f) (f_mode f) (f_checkpoint
  f) (f_pathid f) (f_data_paths f) (f_rr f) (f_multistream f) (f_recoveries f).
Definition set_f_compression (v : Z * str) (f : File R) : File R := mkFile (f_url f) (f_config f) (f_router
  f) (f_owns_router f) (f_handle f) (f_stat f) v (f_size_hint f) (f_flags f) (f_mode f) (f_checkpoint f)
  (f_pathid f) (f_data_paths f) (f_rr f) (f_multistream f) (f_recoveries f).
Definition set_f_size_hint (v : Z) (f : File R) : File R := mkFile (f_url f) (f_config f) (f_router f)
  (f_owns_router f) (f_handle f) (f_stat f) (f_compression f) v (f_flags f) (f_mode f) (f_checkpoint f)
  (f_pathid f) (f_data_paths f) (f_rr f) (f_multistream f) (f_recoveries f).
Definition set_f_flags (v : Z) (f : File R) : File R := mkFile (f_url f) (f_config f) (f_router f)
  (f_owns_router f) (f_handle f) (f_stat f) (f_compression f) (f_size_hint f) v (f_mode f) (f_checkpoint f)
  (f_pathid f) (f_data_paths f) (f_rr f) (f_multistream f) (f_recoveries f).
Definition set_f_mode (v : Z) (f : File R) : File R := mkFile (f_url f) (f_config f) (f_router f)
  (f_owns_router f) (f_handle f) (f_stat f) (f_compression f) (f_size_hint f) (f_flags f) v (f_checkpoint f)
  (f_pathid f) (f_data_paths f) (f_rr f) (f_multistream f) (f_recoveries f).
Definition set_f_checkpoint (v : bool) (f : File R) : File R := mkFile (f_url f) (f_config f) (f_router f)
  (f_owns_router f) (f_handle f) (f_stat f) (f_compression f) (f_size_hint f) (f_flags f) (f_mode f) v
  (f_pathid f) (f_data_paths f) (f_rr f) (f_multistream f) (f_recoveries f).
Definition set_f_pathid (v : Z) (f : File R) : File R := mkFile (f_url f) (f_config f) (f_router f)
  (f_owns_router f) (f_handle f) (f_stat f) (f_compression f) (f_size_hint f) (f_flags f) (f_mode f)
  (f_checkpoint f) v (f_data_paths f) (f_rr f) (f_multistream f) (f_recoveries f).
Definition set_f_data_paths (v : list Z) (f : File R) : File R := mkFile (f_url f) (f_config f) (f_router f)
  (f_owns_router f) (f_handle f) (f_stat f) (f_compression f) (f_size_hint f) (f_flags f) (f_mode f)
  (f_checkpoint f) (f_pathid f) v (f_rr f) (f_multistream f) (f_recoveries f).
Definition set_f_rr (v : Z) (f : File R) : File R := mkFile (f_url f) (f_config f) (f_router f)
  (f_owns_router f) (f_handle f) (f_stat f) (f_compression f) (f_size_hint f) (f_flags f) (f_mode f)
  (f_checkpoint f) (f_pathid f) (f_data_paths f) v (f_multistream f) (f_recoveries f).
Definition set_f_multistream (v : bool) (f : File R) : File R := mkFile (f_url f) (f_config f) (f_router f)
  (f_owns_router f) (f_handle f) (f_stat f) (f_compression f) (f_size_hint f) (f_flags f) (f_mode f)
  (f_checkpoint f) (f_pathid f) (f_data_paths f) (f_rr f) v (f_recoveries f).
Definition set_f_recoveries (v : Z) (f : File R) : File R := mkFile (f_url f) (f_config f) (f_router f)
  (f_owns_router f) (f_handle f) (f_stat f) (f_compression f) (f_size_hint f) (f_flags f) (f_mode f)
  (f_checkpoint f) (f_pathid f) (f_data_paths f) (f_rr f) (f_multistream f) v.

Definition upd (g : File R -> File R) : F unit := modify (fun s => mkF (g (fs_file s)) (fs_world s)).
Definition the {A} (g : File R -> A) : F A := fun s => (s, Ok (g (fs_file s))).
Definition on_router {A} (c : R -> W -> W * res A) : F A := fun s =>
  let '(w, r) := c (f_router (fs_file s)) (fs_world s) in (mkF (fs_file s) w, r).
Definition on_router_ (c : R -> W -> W) : F unit := fun s =>
  (mkF (fs_file s) (c (f_router (fs_file s)) (fs_world s)), Ok tt).

(** [try: c except ...: h(exc)]; the handler re-raises what it does not take. *)
Definition catch {A} (c : F A) (h : exn -> F A) : F A := fun s =>
  match c s with
  | (s, Ok a) => (s, Ok a)
  | (s, Err e) => h e s
  end.

(** ** Lifecycle *)

Definition File_init (url : XRootDURL) (config : Config) (router : option R) (w : W) : fstate :=
  let '(r, w) := match router with Some r => (r, w) | None => rt_new url config w end in
  mkF (mkFile url config r (match router with Some _ => false | None => true end) None None (0, []) 0 0 0
         false 0 [] 0 true 0) w.

Definition is_open (f : File R) : bool := match f_handle f with Some _ => true | None => false end.

Definition handle : F bytes :=
  h ← the f_handle; match h with Some h => mret h | None => raise ValueError end.

Definition bind_data_path : F Z :=
  p ← the f_pathid;
  if p =? 0 then p ← on_router rt_bind_data_path; upd (set_f_pathid p) ≫= fun _ => mret p else mret p.

(** [for _ in range(...)], until one is refused. *)
Fixpoint bind_loop (n : nat) : F unit :=
  match n with
  | O => mret tt
  | S n =>
      catch (p ← on_router rt_bind_data_path; mret (Some p)) (fun _ => mret None) ≫= fun p =>
      match p with
      | None => mret tt
      | Some p =>
          if p =? 0 then mret tt
          else upd (fun f => set_f_data_paths (f_data_paths f ++ [p]) f) ≫= fun _ => bind_loop n
      end
  end.

Definition _bind_data_streams : F unit :=
  n ← the (fun f => c_data_streams (f_config f) - zlen (f_data_paths f)); bind_loop (Z.to_nat n).

Definition _next_path : F Z := fun s =>
  let f := fs_file s in
  match f_multistream f, f_data_paths f with
  | false, _ | _, [] => (s, Ok 0)
  | true, ps => (mkF (set_f_rr (f_rr f + 1) f) (fs_world s), Ok (nth (Z.to_nat (f_rr f mod zlen ps)) ps 0))
  end.

(** Issue the [kXR_open] and adopt the handle it returns. *)
Definition _do_open : F bytes :=
  f ← the id;
  cgi ← lift (path_with_cgi (f_url f));
  data ← on_router (fun r => rt_execute r (Open cgi (Z.lor (f_flags f) kXR_retstat) (f_mode f)) (u_path (f_url f)));
  (fun s => let '(r, w) := rt_pin (f_router (fs_file s)) (f_owns_router (fs_file s)) (fs_world s) in
            (mkF (set_f_router r (fs_file s)) w, Ok tt)) ≫= fun _ =>
  '(h, stat, compression) ← lift (parse_open data (u_path (f_url f)));
  upd (fun f => set_f_compression compression (set_f_stat stat (set_f_handle (Some h) f))) ≫= fun _ =>
  match (stat : option StatInfo) with
  | Some i => upd (set_f_size_hint (st_size i))
  | None => mret tt
  end ≫= fun _ => handle.

Definition open (flags mode : Flags.spelled) : F (option StatInfo) :=
  h ← the f_handle;
  match h with
  | Some _ => raise ValueError
  | None =>
      fl ← lift (Flags.open_flags upper flags);
      upd (set_f_flags fl) ≫= fun _ =>
      md ← lift (Flags.permissions upper isdigit mode);
      upd (set_f_mode md) ≫= fun _ =>
      catch (_do_open ≫= fun _ => _bind_data_streams)
        (fun e => owns ← the f_owns_router;
                  (if (owns : bool) then on_router_ rt_close else mret tt) ≫= fun _ => raise e) ≫= fun _ =>
      the f_stat
  end.

Definition recoverable (f : File R) : bool :=
  c_recover_handles (f_config f) && (Z.land (f_flags f) Flags._WRITING =? 0).

(** Get the handle back on a fresh connection, from the original URL. *)
Definition _reopen : F bytes :=
  upd (fun f => set_f_multistream true (set_f_rr 0 (set_f_data_paths []
         (set_f_pathid 0 (set_f_stat None (set_f_handle None f)))))) ≫= fun _ =>
  owns ← the f_owns_router;
  (if (owns : bool) then on_router_ rt_discard else mret tt) ≫= fun _ =>
  (fun s => let '(r, w) := rt_new (f_url (fs_file s)) (f_config (fs_file s)) (fs_world s) in
            (mkF (set_f_owns_router true (set_f_router r (fs_file s))) w, Ok tt)) ≫= fun _ =>
  upd (fun f => set_f_recoveries (f_recoveries f + 1) f) ≫= fun _ =>
  h ← _do_open;
  _bind_data_streams ≫= fun _ => mret h.

(** Run a handle-bearing request, re-opening once if the server is lost. The
    request is built from the file as it is then, and the handle. *)
Definition _execute (build : File R -> bytes -> res Request) : F bytes :=
  path ← the (fun f => u_path (f_url f));
  let run h := f ← the id; q ← lift (build f h); on_router (fun r => rt_execute r q path) in
  catch (h ← handle; run h)
    (fun e => f ← the id;
              if is_transient e && recoverable f then h ← _reopen; run h else raise e).

(** [except (XRootDError, ValueError)]. *)
Definition bulk_error (e : exn) : bool := is_xrootd_error e || is_value_error e.

(** [list.remove]. *)
Fixpoint remove_first (x : Z) (l : list Z) : list Z :=
  match l with [] => [] | y :: l => if x =? y then l else y :: remove_first x l end.

(** The standard split, and the control link if that is declined too. *)
Definition bulk_split (build : bytes -> Z -> Request) (pathid : Z) : F bytes :=
  catch (_execute (fun _ h => Ok (build h pathid)))
    (fun e => open_ ← the is_open;
              if bulk_error e && (open_ : bool) then
                upd (set_f_multistream false) ≫= fun _ => _execute (fun _ h => Ok (build h 0))
              else raise e).

(** Run one bulk read or write, over a data path when there is one. *)
Definition _bulk (build : bytes -> Z -> Request) : F bytes :=
  pathid ← _next_path;
  f ← the id;
  if (pathid =? 0) || f_checkpoint f then _execute (fun f h => Ok (build h (f_pathid f))) else
  arrives ← on_router rt_arrives;
  match arrives with
  | Some false => bulk_split build pathid
  | _ =>
      catch (h ← handle;
             data ← on_router (fun r => rt_on_path r (build h pathid) (u_path (f_url f)));
             mret (Some data))
        (fun e => if bulk_error e then mret None else raise e) ≫= fun direct =>
      match direct with
      | Some data => mret data
      | None =>
          upd (fun f => set_f_data_paths (remove_first pathid (f_data_paths f)) f) ≫= fun _ =>
          _bind_data_streams ≫= fun _ =>
          pathid ← _next_path;
          if pathid =? 0 then _execute (fun _ h => Ok (build h 0)) else bulk_split build pathid
      end
  end.

Definition close : F unit :=
  h ← the f_handle;
  upd (set_f_handle None) ≫= fun _ =>
  let finally := owns ← the f_owns_router; if (owns : bool) then on_router_ rt_close else mret tt in
  catch (match h with
         | Some h => on_router (fun r => rt_execute r (Close h) []) ≫= fun _ => mret tt
         | None => mret tt
         end)
    (fun e => if is_transient e then mret tt else finally ≫= fun _ => raise e) ≫= fun _ => finally.

(** ** Metadata *)

Definition stat (refresh : bool) : F StatInfo :=
  f ← the id;
  match f_stat f, refresh with
  | Some i, false => mret i
  | _, _ =>
      data ← _execute (fun _ h => Ok (Stat [] 0 h));
      i ← lift (parse_stat data (u_path (f_url f)));
      upd (fun f => set_f_size_hint (st_size i) (set_f_stat (Some i) f)) ≫= fun _ => mret i
  end.

Definition size : F Z :=
  f ← the id;
  match f_stat f with Some _ => mret (f_size_hint f) | None => i ← stat false; mret (st_size i) end.

Definition checksum (algorithm : str) : F ChecksumInfo :=
  f ← the id;
  path ← lift (path_with_cgi (f_url f));
  let path := match algorithm with
              | [] => path
              | _ => path ++ (if contains 0x3F path then 0x26 else 0x3F) :: s_ "cks.type=" ++ algorithm
              end in
  data ← on_router (fun r => rt_execute r (Query kXR_Qcksum (Text path) NULL_FHANDLE) (u_path (f_url f)));
  lift (parse_checksum lower data).

Definition visa : F bytes := _execute (fun _ h => Ok (Query kXR_Qvisa (Text []) h)).

(** ** Reading *)

Definition _read_one (offset length : Z) : F bytes :=
  data ← _bulk (fun h pid => Read h offset length pid);
  if length <? zlen data then raise ProtocolError else mret data.

(** [while remaining]. *)
Fixpoint read_loop (fuel : nat) (limit remaining at_ : Z) (parts : bytes) : F (option bytes) :=
  if remaining =? 0 then mret (Some parts) else
  match fuel with
  | O => mret None
  | S fuel =>
      let n := Z.min remaining limit in
      chunk ← _read_one at_ n;
      if zlen chunk <? n then mret (Some (parts ++ chunk))
      else read_loop fuel limit (remaining - n) (at_ + n) (parts ++ chunk)
  end.

Definition read_sized (size offset : Z) : F (option bytes) :=
  limit ← the (fun f => c_chunk_size (f_config f));
  if size =? 0 then mret (Some [])
  else if size <=? limit then d ← _read_one offset size; mret (Some d)
  else read_loop (Z.to_nat size) limit size offset [].

Definition read (size_ offset : Z) : F (option bytes) :=
  if size_ <? 0 then
    total ← size;
    f ← the id;
    let n := Z.max (total - offset) 0 in
    if refuses_whole_read (f_config f) n
    then raise (TooLargeError n (c_max_read_size (f_config f)) (Some (u_path (f_url f))))
    else read_sized n offset
  else read_sized size_ offset.

(** [kXR_readv]: the answers of every batch, by the offset they are at. *)
Fixpoint readv_batches (batches : list (list ReadRange)) (out : dict Z (list bytes)) : F (dict Z (list bytes)) :=
  match batches with
  | [] => mret out
  | batch :: batches =>
      data ← _execute (fun f h => Ok (ReadV ((fun r => (h, rr_offset r, rr_length r)) <$> batch) (f_pathid f)));
      segments ← lift (parse_readv data);
      readv_batches batches
        (foldl (fun out s => dict_set (rv_offset s) (default [] (dict_get (rv_offset s) out) ++ [rv_data s]) out)
           out segments)
  end.

Fixpoint segments_for (wanted : list ReadRange) (out : dict Z (list bytes)) : res (list bytes) :=
  match wanted with
  | [] => Ok []
  | r :: wanted =>
      '(data, left_) ← _segment_for r (dict_get (rr_offset r) out);
      rest ← segments_for wanted (dict_set (rr_offset r) left_ out);
      Ok (data :: rest)
  end.

Definition readv (wanted : list ReadRange) : F (list bytes) :=
  match wanted with
  | [] => mret []
  | _ =>
      out ← readv_batches (_batches wanted).1 [];
      match (_batches wanted).2 with Some e => raise e | None => lift (segments_for wanted out) end
  end.

Definition pgread (size offset : Z) (verify : bool) : F PageResult :=
  data ← _execute (fun f h => Ok (PgRead_init h offset size false (f_pathid f)));
  if _packed_length size offset <? zlen data then raise ProtocolError else
  '(out, corrupt) ← lift (indexed (Pages.unpack_pages data offset));
  mret (mkPages out offset (if verify then corrupt else [])).

(** ** Writing *)

Definition _submit (request : Request) : F bytes :=
  f ← the id;
  q ← (if f_checkpoint f then h ← handle; lift (ChkPoint_execute h request) else mret request);
  on_router (fun r => rt_execute r q (u_path (f_url f))).

Definition _invalidate (high_water : Z) (exact : bool) : F unit :=
  upd (fun f => set_f_stat None
         (set_f_size_hint (if exact then high_water else Z.max (f_size_hint f) high_water) f)).

(** [while written < len(view)]. *)
Fixpoint write_loop (fuel : nat) (limit : Z) (data : bytes) (offset written : Z) : F (option Z) :=
  if written <? zlen data then
    match fuel with
    | O => mret None
    | S fuel =>
        let piece := slice data written (written + limit) in
        let at_ := offset + written in
        f ← the id;
        (if f_checkpoint f then h ← handle; _submit (Write h at_ piece (f_pathid f))
         else _bulk (fun h pid => Write h at_ piece pid)) ≫= fun _ =>
        write_loop fuel limit data offset (written + zlen piece)
    end
  else mret (Some written).

Definition write (data : bytes) (offset : Z) : F (option Z) :=
  limit ← the (fun f => c_chunk_size (f_config f));
  written ← write_loop (length data) limit data offset 0;
  match written with
  | None => mret None
  | Some n => _invalidate (offset + n) false ≫= fun _ => mret (Some n)
  end.

Fixpoint writev_batches (batches : list (list WriteChunk)) (sync : bool) (total high : Z) : F (Z * Z) :=
  match batches with
  | [] => mret (total, high)
  | batch :: batches =>
      h ← handle;
      f ← the id;
      on_router (fun r => rt_execute r (WriteV_init ((fun c => (h, wc_offset c, wc_data c)) <$> batch) sync)
                            (u_path (f_url f))) ≫= fun _ =>
      writev_batches batches sync
        (foldl (fun t c => t + zlen (wc_data c)) total batch)
        (foldl (fun m c => Z.max m (wc_offset c + zlen (wc_data c))) high batch)
  end.

Definition writev (items : list WriteChunk) (sync : bool) : F Z :=
  match items with
  | [] => mret 0
  | _ =>
      f ← the id;
      if f_checkpoint f then raise unsupported else
      '(total, high) ← writev_batches (_write_batches items) sync 0 0;
      _invalidate high false ≫= fun _ => mret total
  end.

Fixpoint clone_batches (fuel : nat) (target : bytes) (items : list (bytes * Z * Z * Z)) (total high : Z) : F (Z * Z) :=
  match items, fuel with
  | [], _ | _, O => mret (total, high)
  | _, S fuel =>
      let batch := take 1024 items in
      f ← the id;
      catch (on_router (fun r => rt_execute r (Clone target batch) (u_path (f_url f))))
        (fun e => match e with
                  | ServerExn _ code _ _ => if code =? kXR_InvalidRequest then raise unsupported else raise e
                  | _ => raise e
                  end) ≫= fun _ =>
      clone_batches fuel target (drop 1024 items)
        (foldl (fun t (i : bytes * Z * Z * Z) => t + i.1.2) total batch)
        (foldl (fun m (i : bytes * Z * Z * Z) => Z.max m (i.2 + i.1.2)) high batch)
  end.

(** [source] is another open handle: its handle, its router and its size. *)
Definition clone (origin : bytes) (source : R) (source_size : Z) (ranges : option (list (Z * Z * option Z))) : F Z :=
  target ← handle;
  same ← on_router (fun r => rt_same_session source r);
  if negb (same : bool) then raise ValueError else
  f ← the id;
  if f_checkpoint f then raise unsupported else
  wanted ← lift (match ranges with
                 | None => Ok [mkClone 0 source_size None]
                 | Some l => mapM_res (fun '(o, n, t) => _range o n t) l
                 end);
  let items := (fun c => (origin, cl_offset c, cl_length c, destination c))
                 <$> filter (fun c => cl_length c <> 0) (wanted : list CloneRange) in
  '(total, high) ← clone_batches (length items) target items 0 0;
  (if (total : Z) =? 0 then mret tt else _invalidate high false) ≫= fun _ => mret total.

Definition pgwrite (data : bytes) (offset : Z) : F Z :=
  match data with
  | [] => mret 0
  | _ =>
      payload ← lift (indexed (Pages.pack_pages data offset));
      h ← handle;
      p ← the f_pathid;
      _submit (PgWrite_init h offset payload false p) ≫= fun _ =>
      _invalidate (offset + zlen data) false ≫= fun _ => mret (zlen data)
  end.

Definition truncate (size : Z) : F Z :=
  h ← handle;
  _submit (Truncate [] size h) ≫= fun _ => _invalidate size true ≫= fun _ => mret size.

Definition sync : F unit :=
  h ← handle;
  f ← the id;
  on_router (fun r => rt_execute r (Sync h) (u_path (f_url f))) ≫= fun _ => mret tt.

(** ** Extended attributes on the handle *)

Definition getxattr (name : str) : F bytes :=
  data ← _execute (fun _ h => Fattr_get [] name h);
  r ← lift (parse_fattr data true);
  match list_find (fun i => fi_code i = 0 /\ is_Some (fi_value i)) (fr_items r) with
  | Some (_, i) => mret (default [] (fi_value i))
  | None => raise KeyError
  end.

Definition setxattr (name : str) (value : bytes) : F unit :=
  h ← handle;
  q ← lift (Fattr_set [] name value false h);
  f ← the id;
  on_router (fun r => rt_execute r q (u_path (f_url f))) ≫= fun _ => mret tt.

Definition listxattr : F (list str) :=
  data ← _execute (fun _ h => Fattr_list [] false h false);
  r ← lift (parse_fattr data false); mret (fi_name <$> fr_items r).

Definition removexattr (name : str) : F unit :=
  h ← handle;
  q ← lift (Fattr_delete [] name h);
  f ← the id;
  on_router (fun r => rt_execute r q (u_path (f_url f))) ≫= fun _ => mret tt.

(** ** Checkpoints *)

(** [with fh.checkpoint(): body]. *)
Definition checkpoint {A} (body : F A) : F A :=
  f ← the id;
  if f_checkpoint f then raise unsupported else
  let control code := h ← handle; on_router (fun r => rt_execute r (ChkPoint h code [] []) []) in
  control kXR_ckpBegin ≫= fun _ =>
  upd (set_f_checkpoint true) ≫= fun _ =>
  catch (a ← body; mret (Ok a))
    (fun e => upd (set_f_checkpoint false) ≫= fun _ =>
              control kXR_ckpRollback ≫= fun _ => upd (set_f_stat None) ≫= fun _ => mret (Err e)) ≫= fun r =>
  match r with
  | Err e => raise e
  | Ok a => upd (set_f_checkpoint false) ≫= fun _ => control kXR_ckpCommit ≫= fun _ => mret a
  end.

Definition checkpoint_query : F CheckpointInfo :=
  h ← handle;
  f ← the id;
  data ← on_router (fun r => rt_execute r (ChkPoint h kXR_ckpQuery [] []) (u_path (f_url f)));
  lift (parse_checkpoint data).

(** ** Verification *)

Definition verify (expected algorithm : str) : F unit :=
  actual ← checksum algorithm;
  if decide (lower (ck_value actual) = lower expected) then mret tt
  else raise (ChecksumMismatchError algorithm (lower expected) (lower (ck_value actual))).
End File.
End FileClient.
