(* ===== verification/FileTransfer.v ===== *)
(** * Reading and writing through a handle

    [File._bulk] tries a data path two ways before it falls back to the
    control link, and may re-open the file in between. Whatever becomes of the
    attempts, reading gives the bytes of the file and writing leaves it as one
    write would: what is asked of the server is stated once, in [Contract]. *)

From S2P Require Import Prelude PyStr Constants Errors Buffer Frames Requests Responses Flags ConfigFile Words Url UrlText FileClient.
From Stdlib Require Import QArith.
Open Scope Z_scope.
Import FileClient.FileClient.

Section Transfer.
Context {R W : Type} `{RouterEnv R W}.

(** [live r h w]: router [r] and handle [h] were given for the file in world
    [w]; their server may have been lost since. [steady r h w]: it was not,
    and answers the next request. [rec]: whether losing the server is
    survivable; [ck]: whether a checkpoint is open; [chunk]: the chunk size. *)
Variable live steady : R -> bytes -> W -> Prop.
Variable rec ck : bool.
Variable chunk : Z.

Notation fstate := (@fstate R W).
Notation F := (st exn fstate).

(** An open handle with no data path bound by hand. *)
Definition ok (s : fstate) : Prop :=
  (recoverable (fs_file s) = rec /\ f_checkpoint (fs_file s) = ck /\ c_chunk_size (f_config (fs_file s)) = chunk)
  /\ f_pathid (fs_file s) = 0
  /\ (exists cgi, path_with_cgi (f_url (fs_file s)) = Ok cgi)
  /\ exists h, f_handle (fs_file s) = Some h /\ live (f_router (fs_file s)) h (fs_world s).

(** What the server does with one request, before it has taken effect ([I])
    and once it has ([Post]): the control link answers, or - where that is
    survivable - turns out to be lost before the request took effect; a data
    path answers or raises, and what it raises leaves the request to be done
    again; a lost file can be opened again, and a fresh handle is good for one
    request. *)
Record Contract (build : bytes -> Z -> Request) (I : W -> Prop) (Post : W -> bytes -> Prop) : Prop := {
  on_control : forall r h path w, live r h w -> I w ->
    exists w' out, rt_execute r (build h 0) path w = (w', out) /\ live r h w'
      /\ match out with Ok d => Post w' d | Err e => I w' /\ is_transient e = true /\ rec = true end;
  on_steady : forall r h path w, steady r h w -> I w ->
    exists w' d, rt_execute r (build h 0) path w = (w', Ok d) /\ live r h w' /\ Post w' d;
  steady_live : forall r h w, steady r h w -> live r h w;
  on_split : forall r h p path w, live r h w -> I w ->
    exists w' out, rt_execute r (build h p) path w = (w', out) /\ live r h w'
      /\ match out with Ok d => Post w' d | Err e => I w' /\ bulk_error e = true end;
  on_data_path : forall r h p path w, live r h w -> I w ->
    exists w' out, rt_on_path r (build h p) path w = (w', out) /\ live r h w'
      /\ match out with Ok d => Post w' d | Err e => I w' /\ bulk_error e = true end;
  on_arrives : forall r h w, live r h w -> I w ->
    exists w' b, rt_arrives r w = (w', Ok b) /\ live r h w' /\ I w';
  on_bind : forall r h w, live r h w -> I w ->
    live r h (rt_bind_data_path r w).1 /\ I (rt_bind_data_path r w).1
    /\ (steady r h w -> steady r h (rt_bind_data_path r w).1);
  on_reopen : rec = true -> forall r h w url config cgi flags mode path (owns : bool), live r h w -> I w ->
    let '(r1, w1) := rt_new url config (if owns then rt_discard r w else w) in
    exists w2 data h' stat comp,
      rt_execute r1 (Open cgi flags mode) path w1 = (w2, Ok data)
      /\ parse_open data path = Ok (h', stat, comp)
      /\ let '(r2, w3) := rt_pin r1 true w2 in steady r2 h' w3 /\ I w3
}.

Section Bulk.
Variable build : bytes -> Z -> Request.
Variable I : W -> Prop.
Variable Post : W -> bytes -> Prop.
Hypothesis contract : Contract build I Post.

Notation pre s := (ok s /\ I (fs_world s)).

(** Changes to the file object that touch neither handle, router, path nor
    what decides recovery. *)
Definition harmless (g : File R -> File R) : Prop := forall f,
  f_handle (g f) = f_handle f /\ f_router (g f) = f_router f /\ f_pathid (g f) = f_pathid f
  /\ f_url (g f) = f_url f /\ recoverable (g f) = recoverable f /\ f_checkpoint (g f) = f_checkpoint f
  /\ f_config (g f) = f_config f.

Lemma ok_harmless g s : harmless g -> ok s -> ok (mkF (g (fs_file s)) (fs_world s)).
Proof.
  intros Hg (H1 & H2 & H3 & h & H4 & H5). destruct (Hg (fs_file s)) as (E1 & E2 & E3 & E4 & E5 & E6 & E7).
  split_and!; cbn; [destruct H1 as (? & ? & ?); congruence.. | rewrite E4; done|]. exists h. rewrite E1, E2. done.
Qed.

(** The world moved, the file object did not. *)
Lemma ok_world f h w w' : ok (mkF f w) -> f_handle f = Some h -> live (f_router f) h w' -> ok (mkF f w').
Proof. intros (H1 & H2 & H3 & _) Hh Hl. refine (conj H1 (conj H2 (conj H3 _))). by exists h. Qed.

Lemma ok_live f w : ok (mkF f w) -> exists h, f_handle f = Some h /\ live (f_router f) h w.
Proof. by intros (_ & _ & _ & H1). Qed.

(** The handle in use is good for the next request. *)
Definition fresh (s : fstate) : Prop :=
  exists h, f_handle (fs_file s) = Some h /\ steady (f_router (fs_file s)) h (fs_world s).

Lemma bind_loop_pre n s :
  pre s -> exists s', bind_loop n s = (s', Ok tt) /\ pre s' /\ f_handle (fs_file s') = f_handle (fs_file s)
    /\ (fresh s -> fresh s').
Proof.
  revert s. induction n as [|n IH]; intros [f w] [Hok HI]; [by eexists|].
  cbn [bind_loop]. rewrite st_bind_eq. unfold catch at 1. rewrite st_bind_eq. unfold on_router at 1. cbn [fs_file fs_world].
  assert (Hp : pre (mkF f (rt_bind_data_path (f_router f) w).1)
               /\ (fresh (mkF f w) -> fresh (mkF f (rt_bind_data_path (f_router f) w).1))).
  { destruct Hok as (H1 & H2 & H3 & h & H4 & H5). destruct (on_bind _ _ _ contract _ _ _ H5 HI) as (Hl & Hi & Hst).
    cbn [fs_file fs_world] in *. split.
    - split; [|done]. refine (conj H1 (conj H2 (conj H3 _))). by exists h.
    - intros (h' & Hh' & Hs'). exists h'. cbn [fs_file fs_world] in *. replace h' with h in * by congruence. auto. }
  destruct (rt_bind_data_path (f_router f) w) as [w' [p|e]]; cbn [fst] in Hp; destruct Hp as [Hp Hst]; [|by eexists].
  cbv beta iota delta [mret st_ret]. destruct (p =? 0); [by eexists|].
  rewrite st_bind_eq. destruct (IH (mkF (set_f_data_paths (f_data_paths f ++ [p]) f) w')) as (s' & E & Hp' & Hk & Hf).
  - split; [|apply Hp].
    apply (ok_harmless (fun f => set_f_data_paths (f_data_paths f ++ [p]) f) (mkF f w')); [done | apply Hp].
  - exists s'. split; [exact E|]. split; [exact Hp'|]. split; [exact Hk|]. auto.
Qed.

Lemma bind_streams_keeps s :
  pre s -> exists s', _bind_data_streams s = (s', Ok tt) /\ pre s' /\ f_handle (fs_file s') = f_handle (fs_file s)
    /\ (fresh s -> fresh s').
Proof. apply bind_loop_pre. Qed.

Lemma next_path_pre s : pre s -> exists s' p, _next_path s = (s', Ok p) /\ pre s'.
Proof.
  intros [Hok HI]. unfold _next_path. destruct (f_multistream (fs_file s)); [|by eexists _, _].
  destruct (f_data_paths (fs_file s)); [by eexists _, _|]. eexists _, _. split; [done|].
  split; [|done]. by apply (ok_harmless (set_f_rr (f_rr (fs_file s) + 1))).
Qed.

(** What decides recovery, and where the file is. *)
Definition same_file (f f' : File R) : Prop :=
  f_url f' = f_url f /\ f_config f' = f_config f /\ f_flags f' = f_flags f /\ f_pathid f' = f_pathid f
  /\ f_checkpoint f' = f_checkpoint f.

Lemma same_file_recoverable f f' : same_file f f' -> recoverable f' = recoverable f.
Proof. intros (_ & E1 & E2 & _ & _). unfold recoverable. by rewrite E1, E2. Qed.

Lemma do_open_spec f w cgi w2 data h stat comp r2 w3 :
  path_with_cgi (f_url f) = Ok cgi ->
  rt_execute (f_router f) (Open cgi (Z.lor (f_flags f) kXR_retstat) (f_mode f)) (u_path (f_url f)) w = (w2, Ok data) ->
  parse_open data (u_path (f_url f)) = Ok (h, stat, comp) -> rt_pin (f_router f) (f_owns_router f) w2 = (r2, w3) ->
  exists f', _do_open (mkF f w) = (mkF f' w3, Ok h) /\ f_handle f' = Some h /\ f_router f' = r2 /\ same_file f f'.
Proof.
  intros E1 E2 E3 E4. unfold _do_open, the, lift, upd, handle, on_router, modify.
  rewrite !st_bind_eq. cbn [fs_file fs_world id]. rewrite E1. cbv beta iota.
  rewrite !st_bind_eq. cbn [fs_file fs_world]. rewrite E2. cbv beta iota.
  rewrite !st_bind_eq. cbn [fs_file fs_world]. rewrite E4. cbv beta iota.
  rewrite !st_bind_eq, E3. cbv beta iota. rewrite !st_bind_eq. cbn [fs_file fs_world].
  destruct stat as [i|]; cbn; eexists; (split; [reflexivity|]); done.
Qed.

(** Re-opening gives a fresh handle. *)
Lemma reopen_pre s :
  rec = true -> pre s -> exists s' h, _reopen s = (s', Ok h) /\ pre s' /\ f_handle (fs_file s') = Some h
    /\ fresh s'.
Proof.
  intros Hrec [Hok HI]. destruct s as [f w]. destruct Hok as (H1 & H2 & (cgi & H3) & h & H4 & H5). cbn [fs_file fs_world] in *.
  pose proof (on_reopen _ _ _ contract Hrec (f_router f) h w (f_url f) (f_config f) cgi
    (Z.lor (f_flags f) kXR_retstat) (f_mode f) (u_path (f_url f)) (f_owns_router f) H5 HI) as Hr.
  unfold _reopen, upd, the, modify, on_router_. rewrite !st_bind_eq. cbn [fs_file fs_world].
  destruct (rt_new (f_url f) (f_config f) (if f_owns_router f then rt_discard (f_router f) w else w)) as [r1 w1] eqn:En.
  destruct Hr as (w2 & data & h' & stat & comp & E2 & E3 & Hpin).
  destruct (rt_pin r1 true w2) as [r2 w3] eqn:E4. destruct Hpin as [Hl HI3].
  set (f1 := set_f_multistream true _). change (f_owns_router f1) with (f_owns_router f).
  assert (Ed : forall b : bool, (if b then (fun s : fstate => (mkF (fs_file s) (rt_discard (f_router (fs_file s)) (fs_world s)), Ok tt))
    else mret tt : F unit) (mkF f1 w) = (mkF f1 (if b then rt_discard (f_router f) w else w), Ok tt)) by (by intros []).
  rewrite Ed. cbv beta iota. rewrite !st_bind_eq. cbn [fs_file fs_world]. 
  change (f_url f1) with (f_url f). change (f_config f1) with (f_config f). rewrite En. cbv beta iota.
  rewrite !st_bind_eq. cbn [fs_file fs_world]. set (f2 := set_f_recoveries _ _).
  destruct (do_open_spec f2 w1 cgi w2 data h' stat comp r2 w3 H3 E2 E3 E4) as (f' & Eo & Eh & Er & Hs).
  rewrite ?st_bind_eq, Eo. cbv beta iota. rewrite st_bind_eq.
  assert (Hp : pre (mkF f' w3)).
  { split; [|done]. unfold ok. cbn [fs_file fs_world]. rewrite (same_file_recoverable _ _ Hs).
    destruct Hs as (S1 & S2 & _ & S4 & S5). rewrite S1, S2, S4, S5, Er.
    split_and!; [apply H1 | apply H1 | apply H1 | done | by exists cgi |].
    exists h'. split; [done | by eapply steady_live]. }
  destruct (bind_streams_keeps _ Hp) as (s' & Eb & Hp' & Hk & Hf). rewrite Eb. exists s', h'.
  split_and!; [done | apply Hp' | apply Hp' | by rewrite Hk|].
  apply Hf. exists h'. cbn [fs_file fs_world]. by rewrite Er.
Qed.

(** What an attempt may come to: done, or still to be done. *)
Definition maybe (r : fstate * res bytes) : Prop :=
  match r with (s, Ok d) => ok s /\ Post (fs_world s) d | (s, Err e) => pre s /\ bulk_error e = true end.

(** And what the control link makes of it. *)
Definition settled (r : fstate * res bytes) : Prop :=
  match r with (s, Ok d) => ok s /\ Post (fs_world s) d | (s, Err _) => False end.

(** One attempt with the handle in hand. *)
Definition run (bld : File R -> bytes -> res Request) (path : str) (h : bytes) : F bytes :=
  f ← the id; q ← lift (bld f h); on_router (fun r => rt_execute r q path).

Lemma run_maybe p path h s :
  pre s -> f_handle (fs_file s) = Some h -> maybe (run (fun _ h => Ok (build h p)) path h s).
Proof.
  intros [Hok HI] Hh. destruct s as [f w]. destruct (ok_live _ _ Hok) as (h0 & Hh0 & Hl). cbn [fs_file fs_world] in *.
  replace h0 with h in * by congruence. unfold run, the, lift, on_router. rewrite !st_bind_eq. cbn [fs_file fs_world id].
  destruct (on_split _ _ _ contract _ _ p path _ Hl HI) as (w' & out & E & Hl' & Ho). rewrite E.
  assert (Hok' : ok (mkF f w')) by (by eapply ok_world). destruct out as [d|e]; cbn; [done|]. destruct Ho. done.
Qed.

Lemma execute_eq bld s :
  _execute bld s
  = let path := u_path (f_url (fs_file s)) in
    catch (h ← handle; run bld path h)
      (fun e => f ← the id; if is_transient e && recoverable f then h ← _reopen; run bld path h else raise e) s.
Proof. done. Qed.

(** The first attempt, and then the handler. *)
Lemma execute_first bld f w h :
  f_handle f = Some h ->
  _execute bld (mkF f w)
  = match run bld (u_path (f_url f)) h (mkF f w) with
    | (s, Ok d) => (s, Ok d)
    | (s, Err e) =>
        (f' ← the id; if is_transient e && recoverable f' then h ← _reopen; run bld (u_path (f_url f)) h else raise e) s
    end.
Proof.
  intros Hh. rewrite execute_eq. cbv zeta. unfold catch at 1. rewrite st_bind_eq. unfold handle, the.
  rewrite st_bind_eq. cbn [fs_file]. rewrite Hh. done.
Qed.

Lemma execute_maybe p s : pre s -> maybe (_execute (fun _ h => Ok (build h p)) s).
Proof.
  intros Hs. destruct s as [f w]. destruct (ok_live _ _ (proj1 Hs)) as (h & Hh & _).
  rewrite (execute_first _ _ _ _ Hh). pose proof (run_maybe p (u_path (f_url f)) h _ Hs Hh) as Hr.
  destruct (run _ _ h (mkF f w)) as [s1 [d|e]]; [done|]. destruct Hr as [Hs1 He].
  unfold the at 1. rewrite st_bind_eq. cbn [id]. destruct (is_transient e && recoverable (fs_file s1)) eqn:Et; [|done].
  apply andb_true_iff in Et as [_ Er]. assert (Hrec : rec = true) by (destruct Hs1 as [([H1 _] & _) _]; congruence).
  destruct (reopen_pre s1 Hrec Hs1) as (s2 & h2 & Eo & Hs2 & Hh2 & _). rewrite st_bind_eq, Eo.
  by apply run_maybe.
Qed.

(** On the control link the first attempt does it, or the second, behind a
    fresh handle. *)
Lemma execute_control bld s :
  pre s -> (forall f h, f_pathid f = 0 -> bld f h = Ok (build h 0)) -> settled (_execute bld s).
Proof.
  intros [Hok HI] Hb. destruct s as [f w]. destruct (ok_live _ _ Hok) as (h & Hh & Hl). cbn [fs_file fs_world] in *.
  rewrite (execute_first _ _ _ _ Hh). unfold run at 1, the at 1, lift at 1, on_router at 1.
  destruct (on_control _ _ _ contract _ _ (u_path (f_url f)) _ Hl HI) as (w' & out & E & Hl' & Hp).
  rewrite !st_bind_eq. cbn [fs_file fs_world id]. rewrite Hb by apply Hok. rewrite E.
  assert (Hok' : ok (mkF f w')) by (by eapply ok_world).
  destruct out as [d|e]; [by split|]. destruct Hp as (HI' & He & Hrec).
  unfold the at 1. rewrite st_bind_eq. cbn [id fs_file]. destruct Hok as ([Hr _] & _). cbn [fs_file] in Hr.
  rewrite He, Hr, Hrec. cbn [andb].
  destruct (reopen_pre (mkF f w') Hrec (conj Hok' HI')) as ([f2 w2] & h2 & Eo & [Hok2 HI2] & Hh2 & h3 & Hh3 & Hst).
  rewrite st_bind_eq, Eo. cbn [fs_file fs_world] in *. replace h3 with h2 in * by congruence.
  unfold run, the, lift, on_router. rewrite !st_bind_eq. cbn [fs_file fs_world id]. rewrite Hb by apply Hok2.
  destruct (on_steady _ _ _ contract _ _ (u_path (f_url f)) _ Hst HI2) as (w3 & d & -> & Hl3 & Hp3).
  cbn. split; [by eapply ok_world | done].
Qed.

Lemma bulk_split_settled p s : pre s -> settled (bulk_split build p s).
Proof.
  intros Hs. unfold bulk_split, catch. pose proof (execute_maybe p s Hs) as He.
  destruct (_execute _ s) as [s1 [d|e]]; [done|]. destruct He as [Hs1 He]. unfold the, upd, modify.
  rewrite st_bind_eq. destruct s1 as [f1 w1]. destruct (ok_live _ _ (proj1 Hs1)) as (h1 & Hh1 & _). cbn [fs_file].
  unfold is_open. rewrite Hh1, He. cbn [andb]. rewrite st_bind_eq. cbn [fs_file fs_world].
  apply execute_control; [|done]. split; [|apply Hs1].
  by apply (ok_harmless (set_f_multistream false) (mkF f1 w1)); [|apply Hs1].
Qed.

(** However many ways it has to be tried, a bulk request is done. *)
Lemma bulk_settled s : pre s -> settled (_bulk build s).
Proof.
  intros Hs. unfold _bulk. rewrite st_bind_eq. destruct (next_path_pre s Hs) as (s1 & p & -> & Hs1).
  unfold the. rewrite st_bind_eq. cbn [id]. destruct ((p =? 0) || f_checkpoint (fs_file s1)).
  { apply execute_control; [done|]. by intros f h ->. }
  rewrite st_bind_eq. unfold on_router at 1. destruct s1 as [f1 w1]. cbn [fs_file fs_world].
  destruct (ok_live _ _ (proj1 Hs1)) as (h & Hh & Hl).
  destruct (on_arrives _ _ _ contract _ _ _ Hl (proj2 Hs1)) as (w2 & b & -> & Hl2 & HI2).
  assert (Hs2 : pre (mkF f1 w2)) by (split; [by eapply ok_world; [apply Hs1|..] | done]).
  cbv beta iota. assert (Hd : settled ((catch (h ← handle;
             data ← on_router (fun r => rt_on_path r (build h p) (u_path (f_url f1)));
             mret (Some data))
        (fun e => if bulk_error e then mret None else raise e) ≫= fun direct =>
      match direct with
      | Some data => mret data
      | None =>
          upd (fun f => set_f_data_paths (remove_first p (f_data_paths f)) f) ≫= fun _ =>
          _bind_data_streams ≫= fun _ =>
          pathid ← _next_path;
          if pathid =? 0 then _execute (fun _ h => Ok (build h 0)) else bulk_split build pathid
      end) (mkF f1 w2))); [|by destruct b as [[]|]; [apply Hd | apply bulk_split_settled | apply Hd]].
  rewrite st_bind_eq. unfold catch, handle, the, on_router. rewrite !st_bind_eq. cbn [fs_file]. rewrite Hh.
  cbv beta iota delta [mret st_ret]. rewrite st_bind_eq. cbn [fs_file fs_world].
  destruct (on_data_path _ _ _ contract _ _ p (u_path (f_url f1)) _ Hl2 HI2) as (w3 & out & -> & Hl3 & Ho).
  assert (Hok3 : ok (mkF f1 w3)) by (by eapply ok_world; [apply Hs2|..]).
  destruct out as [d|e]; [done|]. destruct Ho as [HI3 He]. cbv beta iota. rewrite He.
  cbv beta iota delta [mret st_ret upd modify]. rewrite st_bind_eq. cbn [fs_file fs_world]. rewrite st_bind_eq.
  destruct (bind_streams_keeps (mkF (set_f_data_paths (remove_first p (f_data_paths f1)) f1) w3)) as (s4 & -> & Hs4 & _ & _).
  { split; [|done]. by apply (ok_harmless (fun f => set_f_data_paths (remove_first p (f_data_paths f)) f) (mkF f1 w3)). }
  rewrite st_bind_eq. destruct (next_path_pre s4 Hs4) as (s5 & q & -> & Hs5).
  destruct (q =? 0); [by apply execute_control | by apply bulk_split_settled].
Qed.
End Bulk.

(** ** Reading *)

Section Read.
Variable content : list byte.

(** The bytes of the file from [off], [len] of them or as many as there are. *)
Definition answer (off len : Z) : bytes := take (Z.to_nat len) (drop (Z.to_nat off) content).

(** While [Inv] lasts the server holds [content], and reading makes it last. *)
Variable Inv : W -> Prop.
Definition Holds : Prop := forall off len, 0 <= off -> 0 <= len ->
  Contract (fun h p => Read h off len p) Inv (fun w d => Inv w /\ d = answer off len).
Definition good (s : fstate) : Prop := ok s /\ Inv (fs_world s).

Hypothesis holds : Holds.

Lemma answer_length off len : 0 <= len -> zlen (answer off len) <= len.
Proof. intros Hl. unfold answer, zlen. rewrite length_take. lia. Qed.

Lemma read_one_exact off len s :
  0 <= off -> 0 <= len -> good s -> exists s', _read_one off len s = (s', Ok (answer off len)) /\ good s'.
Proof.
  intros Ho Hl Hs. unfold _read_one. rewrite st_bind_eq.
  pose proof (bulk_settled _ _ _ (holds off len Ho Hl) s Hs) as Hb.
  destruct (_bulk _ s) as [s' [d|e]]; [|done]. destruct Hb as [Hok [Hi ->]]. exists s'.
  pose proof (answer_length off len Hl). destruct (Z.ltb_spec len (zlen (answer off len))); [lia | done].
Qed.

Lemma answer_split off n m : 0 <= off -> 0 <= n -> 0 <= m -> answer off n ++ answer (off + n) m = answer off (n + m).
Proof.
  intros Ho Hn Hm. unfold answer. rewrite !Z2Nat.inj_add, <- drop_drop by lia. apply take_take_drop.
Qed.

(** A short answer is the end of the file. *)
Lemma answer_short off n m : 0 <= n <= m -> zlen (answer off n) < n -> answer off m = answer off n.
Proof.
  intros Hn Hs. unfold answer, zlen in *. rewrite length_take in Hs. rewrite !take_ge by lia. done.
Qed.

Lemma read_loop_exact limit fuel : forall remaining at_ parts s,
  0 < limit -> 0 <= at_ -> 0 <= remaining -> (Z.to_nat remaining <= fuel)%nat -> good s ->
  exists s', read_loop fuel limit remaining at_ parts s = (s', Ok (Some (parts ++ answer at_ remaining))) /\ good s'.
Proof.
  induction fuel as [|fuel IH]; intros remaining at_ parts s Hl Ha Hr Hf Hs; cbn [read_loop];
    destruct (Z.eqb_spec remaining 0) as [->|Hne].
  - exists s. unfold answer. cbn. by rewrite app_nil_r.
  - lia.
  - exists s. unfold answer. cbn. by rewrite app_nil_r.
  - rewrite st_bind_eq. destruct (read_one_exact at_ (Z.min remaining limit) s) as (s1 & -> & Hs1); [lia | lia | done|].
    set (n := Z.min remaining limit) in *. destruct (Z.ltb_spec (zlen (answer at_ n)) n).
    + exists s1. rewrite <- (answer_short at_ n remaining) by lia. done.
    + destruct (IH (remaining - n) (at_ + n) (parts ++ answer at_ n) s1) as (s2 & -> & Hs2); [lia.. | done|].
      exists s2. rewrite <- app_assoc, answer_split by lia. by replace (n + (remaining - n)) with remaining by lia.
Qed.

Lemma ok_chunk s : ok s -> c_chunk_size (f_config (fs_file s)) = chunk.
Proof. by intros ((_ & _ & ?) & _). Qed.

Lemma read_gives size offset s :
  0 < chunk -> 0 <= size -> 0 <= offset -> good s ->
  exists s', read size offset s = (s', Ok (Some (answer offset size))) /\ good s'.
Proof.
  intros Hl Hs Ho Hok. unfold read, read_sized. destruct (Z.ltb_spec size 0); [lia|].
  unfold the. rewrite st_bind_eq, ok_chunk by apply Hok. destruct (Z.eqb_spec size 0) as [->|]; [by exists s|].
  destruct (Z.leb_spec size chunk).
  - rewrite st_bind_eq. destruct (read_one_exact offset size s Ho Hs Hok) as (s' & -> & Hs'). by exists s'.
  - apply (read_loop_exact _ _ size offset []); [done | done | done | lia | done].
Qed.


(** With a chunk size of zero the loop of [read] never ends: after any
    number of turns it still asks for nothing from the same place. *)
Theorem zero_chunk_never_reads fuel size offset parts s :
  0 < size -> 0 <= offset -> good s ->
  exists s', read_loop fuel 0 size offset parts s = (s', Ok None) /\ good s'.
Proof.
  revert parts s. induction fuel as [|fuel IH]; intros parts s Hs Ho Hok; cbn [read_loop];
    destruct (Z.eqb_spec size 0); [lia | by exists s | lia|].
  rewrite Z.min_r, st_bind_eq by lia. destruct (read_one_exact offset 0 s Ho ltac:(lia) Hok) as (s1 & -> & Hs1).
  change (zlen (answer offset 0) <? 0) with false. cbv iota. rewrite Z.sub_0_r, Z.add_0_r. by apply IH.
Qed.
End Read.

(** ** Writing *)

Section Write.
(** The bytes of the file. *)
Variable file : W -> list byte.

(** [f] with [d] written at [off], and zeros in between when [off] is past
    its end. *)
Definition patch (f : list byte) (off : Z) (d : bytes) : list byte :=
  let o := Z.to_nat off in take o (f ++ replicate (o - length f) x00) ++ d ++ drop (o + length d) f.

Lemma patch_patch f off d e : 0 <= off -> patch (patch f off d) (off + zlen d) e = patch f off (d ++ e).
Proof.
  intros Ho. unfold patch. set (o := Z.to_nat off).
  replace (Z.to_nat (off + zlen d)) with (o + length d)%nat by (unfold zlen; lia).
  set (P := take o (f ++ replicate (o - length f) x00)).
  assert (HP : length P = o) by (unfold P; rewrite length_take, length_app, length_replicate; lia).
  set (T := drop (o + length d) f).
  assert (Hl : (o + length d <= length (P ++ d ++ T))%nat) by (rewrite !length_app; lia).
  replace (o + length d - length (P ++ d ++ T))%nat with 0%nat by lia. cbn [replicate]. rewrite app_nil_r.
  assert (Ht : take (o + length d) (P ++ d ++ T) = P ++ d).
  { rewrite app_assoc. apply take_app_length'. rewrite length_app. lia. }
  assert (Hd : drop (o + length d + length e) (P ++ d ++ T) = drop (o + length (d ++ e)) f).
  { rewrite <- drop_drop, app_assoc, drop_app_length' by (rewrite length_app; lia).
    unfold T. rewrite drop_drop, length_app. f_equal. lia. }
  rewrite Ht, Hd, <- !app_assoc. done.
Qed.

(** The server stores what it is given. An attempt on a data path that raises
    may have written some of it. *)
Definition Stores : Prop := forall off piece target, 0 <= off ->
  Contract (fun h p => Write h off piece p) (fun w => patch (file w) off piece = target) (fun w _ => file w = target).

Hypothesis stores : Stores.

Lemma bulk_write off piece s :
  0 <= off -> ok s ->
  exists s' d, _bulk (fun h p => Write h off piece p) s = (s', Ok d)
    /\ ok s' /\ file (fs_world s') = patch (file (fs_world s)) off piece.
Proof.
  intros Ho Hs.
  pose proof (bulk_settled _ _ _ (stores off piece _ Ho) s (conj Hs eq_refl)) as Hb.
  destruct (_bulk _ s) as [s' [d|e]]; [|done]. destruct Hb as [Hok Hf]. by exists s', d.
Qed.

Lemma write_loop_exact limit data offset target fuel : forall written s,
  ck = false -> 0 < limit -> 0 <= offset -> 0 <= written < zlen data ->
  (length data - Z.to_nat written <= fuel)%nat -> ok s ->
  patch (file (fs_world s)) (offset + written) (drop (Z.to_nat written) data) = target ->
  exists s', write_loop fuel limit data offset written s = (s', Ok (Some (zlen data)))
    /\ ok s' /\ file (fs_world s') = target.
Proof.
  induction fuel as [|fuel IH]; intros written s Hck Hl Ho Hw Hf Hs Ht; cbn [write_loop];
    destruct (Z.ltb_spec written (zlen data)); try lia; [unfold zlen in *; lia|].
  unfold the. rewrite st_bind_eq. cbn [id].
  assert (Hc : f_checkpoint (fs_file s) = false) by (destruct Hs as ([_ [? _]] & _); congruence). rewrite Hc.
  set (piece := slice data written (written + limit)).
  assert (Hp : piece = take (Z.to_nat limit) (drop (Z.to_nat written) data)).
  { unfold piece. rewrite slice_pos by lia. do 2 f_equal. lia. }
  assert (Hlen : zlen piece = Z.min limit (zlen data - written)).
  { rewrite Hp. unfold zlen in *. rewrite length_take, length_drop. lia. }
  rewrite st_bind_eq. destruct (bulk_write (offset + written) piece s) as (s1 & d & -> & Hs1 & Hf1); [lia | done|].
  assert (Hcat : piece ++ drop (Z.to_nat (written + zlen piece)) data = drop (Z.to_nat written) data).
  { rewrite Hp at 1. rewrite <- (take_drop (Z.to_nat limit) (drop (Z.to_nat written) data)) at 2. f_equal.
    rewrite drop_drop, Hlen. unfold zlen in *. destruct (Z.le_gt_cases limit (Z.of_nat (length data) - written)).
    - f_equal. lia.
    - rewrite !drop_ge by lia. done. }
  destruct (Z.eq_dec (written + zlen piece) (zlen data)) as [Hend|Hmore].
  - exists s1. destruct fuel; cbn [write_loop]; destruct (Z.ltb_spec (written + zlen piece) (zlen data)); try lia;
      rewrite Hend; (split; [done|]); (split; [done|]); rewrite Hf1, <- Ht, <- Hcat;
      replace (Z.to_nat (written + zlen piece)) with (length data) by (unfold zlen in *; lia);
      rewrite drop_ge, app_nil_r by lia; done.
  - apply IH; [done | done | done | lia | unfold zlen in *; lia | done|].
    rewrite Hf1, Z.add_assoc, patch_patch, Hcat by lia. exact Ht.
Qed.

Lemma write_gives data offset s :
  ck = false -> 0 < chunk -> 0 <= offset -> data <> [] -> ok s ->
  exists s', write data offset s = (s', Ok (Some (zlen data))) /\ ok s'
    /\ file (fs_world s') = patch (file (fs_world s)) offset data.
Proof.
  intros Hck Hl Ho Hne Hs. unfold write, the. rewrite st_bind_eq, st_bind_eq, ok_chunk by done.
  assert (0 < zlen data) by (destruct data; [done|]; rewrite zlen_cons; pose proof (zlen_nonneg data); lia).
  destruct (write_loop_exact chunk data offset
    (patch (file (fs_world s)) offset data) (length data) 0 s) as (s1 & -> & Hs1 & Hf1);
    [done | done | done | lia | lia | done | by rewrite Z.add_0_r|].
  unfold _invalidate, upd, modify. rewrite st_bind_eq. eexists. split; [reflexivity|]. split; [|exact Hf1].
  by apply (ok_harmless (fun f => set_f_stat None (set_f_size_hint (if false then offset + zlen data else Z.max (f_size_hint f) (offset + zlen data)) f)) s1).
Qed.

(** C23: through an open handle with no checkpoint open, no data path bound by
    hand and a positive chunk size, writing data that is not empty puts
    exactly the data at its offset, in however many pieces and over whichever
    data paths they went, repeated or not, and accounts for all of it. The
    control link answers. *)
Theorem write_exact data offset s :
  ck = false -> 0 < c_chunk_size (f_config (fs_file s)) -> 0 <= offset -> data <> [] -> ok s ->
  exists s', write data offset s = (s', Ok (Some (zlen data)))
    /\ file (fs_world s') = patch (file (fs_world s)) offset data.
Proof.
  intros Hck Hl Ho Hne Hs. destruct (write_gives data offset s) as (s' & E & _ & Hf); [done | | done..|by exists s'].
  by rewrite <- (ok_chunk s Hs).
Qed.
End Write.
End Transfer.

(** ** A server whose data paths do not work

    Control requests are served, a request split over a data path is refused,
    one that arrives on it times out. *)

Definition patch_file := patch.

#[export] Instance flaky : RouterEnv unit (list byte) := {
  rt_new _ _ w := (tt, w);
  rt_execute _ q _ w :=
    match q with
    | Read _ off len 0 => (w, Ok (take (Z.to_nat len) (drop (Z.to_nat off) w)))
    | Write _ off d 0 => (patch_file w off d, Ok [])
    | Read _ _ _ _ | Write _ _ _ _ => (w, Err ProtocolError)
    | _ => (w, Ok [x00; x00; x00; x01])
    end;
  rt_arrives _ w := (w, Ok None);
  rt_on_path _ _ _ w := (w, Err (TimeoutError 1 0));
  rt_bind_data_path _ w := (w, Ok 1);
  rt_pin _ _ w := (tt, w);
  rt_close _ w := w;
  rt_discard _ w := w;
  rt_same_session _ _ w := (w, Ok true)
}.

Notation always := (fun (_ : unit) (_ : bytes) (_ : list byte) => True).

Lemma flaky_holds content rec : Holds always always rec content (fun w => w = content).
Proof.
  intros off len Ho Hl. split.
  - intros r h path w _ ->. by eexists _, _.
  - intros r h path w _ ->. by eexists _, _.
  - done.
  - intros r h p path w _ ->. destruct p; by eexists _, _.
  - intros r h p path w _ ->. by eexists _, _.
  - intros r h w _ ->. by eexists _, _.
  - by intros r h w _ ->.
  - intros _ r h w url config cgi flags mode path owns _ ->. exists content. by destruct owns; eexists _, _, _, _.
Qed.

Lemma flaky_stores rec : Stores always always rec id.
Proof.
  intros off piece target Ho. split.
  - intros r h path w _ <-. by eexists _, _.
  - intros r h path w _ <-. by eexists _, _.
  - done.
  - intros r h p path w _ <-. destruct p; by eexists _, _.
  - intros r h p path w _ <-. by eexists _, _.
  - intros r h w _ <-. by eexists _, _.
  - by intros r h w _ <-.
  - intros _ r h w url config cgi flags mode path owns _ <-. exists w. by destruct owns; eexists _, _, _, _.
Qed.

Definition small_chunks (chunk : Z) : Config :=
  let c := factory (s_ "me") in
  let c := c <| c_auth_order := @nil str |> in
  let c := c <| c_retry_backoff := 0%Q |> in
  let c := c <| c_chunk_size := chunk |> in
  c.

Definition demo_url : XRootDURL := mkURL (s_ "root") (s_ "h") 1094 (s_ "/f") [] [] [].

(** Open, with one data path bound. *)
Definition demo_file {W : Type} (chunk flags : Z) (w : W) : @fstate unit W :=
  mkF (mkFile demo_url (small_chunks chunk) tt true (Some [x00; x00; x00; x01]) None (0, []) 0 flags 0
         false 0 [1] 0 true 0) w.

Lemma demo_ok chunk w :
  good always true false chunk (fun w' => w' = w) (demo_file chunk Flags.READ w).
Proof. unfold good, ok. cbn. split_and!; [done | done | done | done | by eexists | by eexists | done]. Qed.

Lemma demo_writer_ok chunk w : ok always false false chunk (demo_file chunk Flags.UPDATE w).
Proof. unfold ok. cbn. split_and!; [done | done | done | done | by eexists | by eexists]. Qed.

(** *** A server that is lost after every request

    The world is the file and whether the connection is up: a read is served
    and takes the connection down, on one that is down every request raises,
    and opening the file brings it up again. Data paths do not work. *)
#[local] Instance losing : RouterEnv unit (bool * list byte) := {
  rt_new _ _ w := (tt, w);
  rt_execute _ q _ w :=
    match q with
    | Open _ _ _ => ((true, w.2), Ok [x00; x00; x00; x01])
    | Read _ off len 0 =>
        if w.1 then ((false, w.2), Ok (take (Z.to_nat len) (drop (Z.to_nat off) w.2)))
        else (w, Err (TransientError 1 0))
    | _ => (w, Err ProtocolError)
    end;
  rt_arrives _ w := (w, Ok None);
  rt_on_path _ _ _ w := (w, Err (TimeoutError 1 0));
  rt_bind_data_path _ w := (w, Ok 1);
  rt_pin _ _ w := (tt, w);
  rt_close _ w := w;
  rt_discard _ w := (false, w.2);
  rt_same_session _ _ w := (w, Ok true)
}.

Lemma losing_holds content :
  Holds (fun (_ : unit) _ _ => True) (fun _ _ w => w.1 = true) true content (fun w => w.2 = content).
Proof.
  intros off len Ho Hl. split.
  - intros r h path [up w] _ <-. destruct up; by eexists _, _.
  - intros r h path [up w] Hu <-. cbn in Hu. subst up. by eexists _, _.
  - done.
  - intros r h p path [up w] _ <-. destruct p, up; by eexists _, _.
  - intros r h p path [up w] _ <-. by eexists _, _.
  - intros r h [up w] _ <-. by eexists _, _.
  - by intros r h [up w] _ <-.
  - intros _ r h [up w] url config cgi flags mode path owns _ <-. exists (true, w). by destruct owns; eexists _, _, _, _.
Qed.

Lemma losing_ok chunk (up : bool) (w : list byte) :
  good (fun (_ : unit) _ _ => True) true false chunk (fun w' => w'.2 = w) (demo_file chunk Flags.READ (up, w)).
Proof. unfold good, ok. cbn. split_and!; [done | done | done | done | by eexists | by eexists | done]. Qed.


Lemma zero_chunk_never_reads_witness :
  exists s', read_loop 5 0 7 2 [] (demo_file 0 Flags.READ (b_ "hello, world")) = (s', Ok None).
Proof.
  destruct (zero_chunk_never_reads always always true false 0 (b_ "hello, world") (fun w => w = b_ "hello, world")
    (flaky_holds (b_ "hello, world") true) 5 7 2 [] (demo_file 0 Flags.READ (b_ "hello, world"))
    ltac:(lia) ltac:(lia) (demo_ok 0 _)) as (s' & E & _).
  exists s'. exact E.
Defined.

Lemma write_exact_witness :
  exists s', write (b_ "there") 7 (demo_file 2 Flags.UPDATE (b_ "hello, world")) = (s', Ok (Some 5))
    /\ fs_world s' = b_ "hello, there".
Proof.
  destruct (write_exact always always false false 2 id (flaky_stores false) (b_ "there") 7
    (demo_file 2 Flags.UPDATE (b_ "hello, world")) eq_refl ltac:(done) ltac:(lia) ltac:(done) (demo_writer_ok 2 _))
    as (s' & E & Hf).
  exists s'. split; [exact E|]. etransitivity; [exact Hf | vm_compute; reflexivity].
Defined.
