(* ===== verification/FileProps.v ===== *)
(** * What a file handle promises

    Vectored requests stay within the server's ceilings, reads and writes are
    byte-exact whatever the data paths do, a handle opened for writing is
    never silently re-opened, and a checkpointed block ends in a commit or a
    rollback. *)

From S2P Require Import Prelude PyStr Constants Errors Buffer Frames Requests Responses Flags ConfigFile Crc Words Url UrlText FileClient FileTransfer.
Open Scope Z_scope.
Import FileClient.FileClient.

(** ** Batches *)

Fixpoint total {A} (size : A -> Z) (l : list A) : Z :=
  match l with [] => 0 | x :: l => size x + total size l end.

Lemma total_app {A} (size : A -> Z) l k : total size (l ++ k) = total size l + total size k.
Proof. induction l as [|x l IH]; cbn; [done | rewrite IH; lia]. Qed.

(** A batch the server takes. *)
Definition batch_ok {A} (size : A -> Z) (b : list A) : Prop :=
  b <> [] /\ zlen b <= READV_MAX_CHUNKS /\ total size b <= READV_MAX_BYTES.

Lemma batches_loop_spec {A} (size : A -> Z) items : forall batch t,
  Forall (fun x => size x <= READV_MAX_BYTES) items -> t = total size batch ->
  batch = [] \/ batch_ok size batch ->
  concat (batches_loop size items batch t) = batch ++ items
  /\ Forall (batch_ok size) (batches_loop size items batch t).
Proof.
  induction items as [|x items IH]; intros batch t Hs Ht Hb; cbn [batches_loop].
  - destruct batch as [|y batch]; [done|]. cbn [concat]. split; [done|].
    destruct Hb as [|Hb]; [done|]. by constructor.
  - apply Forall_cons in Hs as [Hx Hs].
    assert (Hone : batch_ok size [x]) by (split_and!; [done | unfold zlen, READV_MAX_CHUNKS; cbn; lia | cbn; lia]).
    destruct batch as [|y batch]; cbn [negb andb].
    { destruct (IH [x] (t + size x)) as [E F]; [done | subst t; cbn; lia | by right | by split]. }
    destruct Hb as [|Hb]; [done|].
    destruct ((READV_MAX_CHUNKS <=? zlen (y :: batch)) || (READV_MAX_BYTES <? t + size x)) eqn:E.
    + destruct (IH [x] (size x)) as [E1 F1]; [done | cbn; lia | by right|].
      cbn [concat]. rewrite E1. split; [done | by constructor].
    + apply orb_false_iff in E as [E1 E2]. zbool.
      destruct (IH ((y :: batch) ++ [x]) (t + size x)) as [E' F']; [done | by rewrite total_app, Ht; cbn; lia| |].
      * right. split_and!; [done | rewrite zlen_app; unfold zlen at 2; cbn [length]; lia|].
        rewrite total_app, <- Ht. cbn [total]. lia.
      * rewrite E', <- app_assoc. by split.
Qed.

Lemma batches_split ranges :
  Forall (fun r => rr_length r <= READV_MAX_BYTES) ranges ->
  exists bs, _batches ranges = (bs, None) /\ concat bs = ranges.
Proof.
  intros Hs. unfold _batches. destruct (list_find _ ranges) as [[i r]|] eqn:E.
  - apply list_find_Some in E as (Hl & Hr & _). rewrite Forall_lookup in Hs. specialize (Hs _ _ Hl).
    apply Z.ltb_lt in Hr. lia.
  - eexists. split; [done|]. by apply (batches_loop_spec rr_length ranges [] 0); [| |left].
Qed.

Lemma removelast_batches {A} (bs : list (list A)) (Q : list A -> Prop) :
  Forall Q bs -> Forall Q (removelast bs) /\ concat (removelast bs) `prefix_of` concat bs.
Proof.
  induction 1 as [|b bs Hb Hbs [IH1 IH2]]; [by split|].
  destruct bs as [|b' bs]; [split; [by constructor | apply prefix_nil]|].
  change (removelast (b :: b' :: bs)) with (b :: removelast (b' :: bs)). split; [by constructor|].
  cbn [concat]. by apply prefix_app.
Qed.

(** C26: a vectored read is split into batches the server takes - none empty, at
    most 1024 elements and two megabytes each - that together are the ranges
    asked for, in order. It is refused exactly when one of the ranges alone
    is too large; the batches it has yielded by then, which have been sent,
    keep to the same limits and hold ranges from the start of the list, in
    order, none of them the refused one. *)
Theorem readv_batches_bounded ranges :
  match _batches ranges with
  | (bs, None) => concat bs = ranges /\ Forall (batch_ok rr_length) bs
                  /\ Forall (fun r => rr_length r <= READV_MAX_BYTES) ranges
  | (bs, Some e) => e = ProtocolError /\ Forall (batch_ok rr_length) bs
                    /\ exists before big after, ranges = before ++ big :: after
                       /\ Forall (fun r => rr_length r <= READV_MAX_BYTES) before
                       /\ READV_MAX_BYTES < rr_length big /\ concat bs `prefix_of` before
  end.
Proof.
  unfold _batches. destruct (list_find _ ranges) as [[i r]|] eqn:E.
  - apply list_find_Some in E as (Hl & Hr & Hb).
    assert (Hs : Forall (fun r => rr_length r <= READV_MAX_BYTES) (take i ranges)).
    { apply Forall_lookup. intros k y [Hy Hk]%lookup_take_Some.
      specialize (Hb k y Hy Hk). apply not_true_is_false, Z.ltb_ge in Hb. done. }
    destruct (batches_loop_spec rr_length (take i ranges) [] 0) as [E1 E2]; [done | done | by left |].
    destruct (removelast_batches _ _ E2) as [E3 E4]. rewrite E1 in E4.
    split; [done|]. split; [exact E3|]. exists (take i ranges), r, (drop (S i) ranges).
    split_and!; [by rewrite take_drop_middle | exact Hs | by apply Z.ltb_lt | exact E4].
  - assert (Hs : Forall (fun r => rr_length r <= READV_MAX_BYTES) ranges).
    { apply list_find_None in E. eapply Forall_impl; [exact E|]. cbn. intros r Hr.
      apply not_true_is_false, Z.ltb_ge in Hr. done. }
    destruct (batches_loop_spec rr_length ranges [] 0) as [E1 E2]; [done | done | by left | done].
Qed.

(** ** Paged replies *)

Lemma well_cut_count pages : forall head,
  0 < head -> pages <> [] -> Pages.well_cut head pages ->
  zlen pages = 1 + - (- Z.max (zlen (concat pages) - head) 0 / Pages.PAGE_SIZE).
Proof.
  unfold Pages.PAGE_SIZE. induction pages as [|p ps IH]; intros head Hh Hne Hc; [done|].
  apply Pages.well_cut_cons in Hc as (Hp & Hfull & Hc); [|done]. cbn [concat]. rewrite zlen_app, zlen_cons.
  destruct ps as [|q ps].
  - cbn [concat]. unfold zlen at 1 3. cbn [length Z.of_nat]. rewrite Z.max_r by (change (zlen []) with 0; lia). done.
  - specialize (Hfull ltac:(done)). unfold Pages.PAGE_SIZE in Hc.
    assert (Hq : 0 < zlen q).
    { apply Pages.well_cut_cons in Hc; [|done]. lia. }
    specialize (IH 4096 ltac:(lia) ltac:(done) Hc). cbn [concat] in *. rewrite zlen_app in *.
    pose proof (zlen_nonneg (concat ps)). rewrite IH.
    set (n := zlen q + zlen (concat ps)) in *. rewrite (Z.max_l (zlen p + n - head) 0) by lia.
    replace (zlen p + n - head) with n by lia.
    destruct (Z.le_gt_cases n 4096).
    + rewrite Z.max_r by lia. change (- 0 / 4096) with 0.
      replace (- n / 4096) with (-1); [lia|]. apply (Z.div_unique _ _ _ (4096 - n)); lia.
    + rewrite Z.max_l by lia. replace (- n) with (- (n - 4096) + -1 * 4096) by lia.
      rewrite Z.div_add by lia. lia.
Qed.

Lemma paged_length (pages : list bytes) f :
  zlen (Pages.paged (map (fun p => (f p, p)) pages)) = zlen (concat pages) + 4 * zlen pages.
Proof.
  unfold Pages.paged. induction pages as [|p ps IH]; [done|]. cbn [map concat fst snd].
  rewrite !zlen_app, IH, be_enc_zlen, zlen_cons. lia.
Qed.

(** The ceiling [pgread] puts on a reply is exact: the pages of [size]
    bytes from [offset], with their checksums, take [_packed_length size
    offset] bytes, no more and no fewer. *)
Theorem packed_length_exact data offset :
  exists p, Pages.pack_pages data offset = Some p /\ zlen p = _packed_length (zlen data) offset.
Proof.
  unfold Pages.pack_pages. pose proof (Pages.first_page_range offset) as Hf.
  destruct (Pages.pack_paged (length data) (Pages.first_page offset) data) as (pages & E & Hc & Hw); [lia | lia|].
  rewrite E. eexists. split; [done|]. rewrite paged_length, Hc. unfold _packed_length.
  destruct data as [|x data].
  - destruct pages as [|p pages]; [done|]. apply Pages.well_cut_cons in Hw as [Hp _]; [|lia].
    apply app_eq_nil in Hc as [-> _]. unfold zlen in Hp. cbn in Hp. lia.
  - assert (Hpos : 0 < zlen (x :: data)) by (rewrite zlen_cons; pose proof (zlen_nonneg data); lia).
    destruct (Z.leb_spec (zlen (x :: data)) 0); [lia|].
    rewrite (well_cut_count pages (Pages.first_page offset)); [|lia|by intros ->|done].
    rewrite Hc. unfold kXR_pgPageSZ, Pages.PAGE_SIZE, Pages.first_page, Pages.PAGE_SIZE.
    destruct (Z.eqb_spec (offset mod 4096) 0) as [->|]; cbn [negb]; [by rewrite Z.sub_0_r | done].
Qed.

(** ** Handles *)

Section Handles.
Context {R W : Type} `{RouterEnv R W}.
Notation fstate := (@fstate R W).
Notation F := (st exn fstate).

(** Build a request for the handle and send it, once. *)
Definition once (bld : File R -> bytes -> res Request) : F bytes :=
  path ← the (fun f => u_path (f_url f));
  h ← handle; f ← the id; q ← lift (bld f h); on_router (fun r => rt_execute r q path).

Lemma once_file bld s : fs_file (once bld s).1 = fs_file s.
Proof.
  cbv beta iota delta [once mbind st_bind mret st_ret the handle lift on_router raise id].
  destruct (f_handle (fs_file s)) as [h|]; [|done]. destruct (bld (fs_file s) h) as [q|e]; [|done].
  by destruct (rt_execute _ _ _ _).
Qed.

Lemma execute_unrecoverable bld s : recoverable (fs_file s) = false -> _execute bld s = once bld s.
Proof.
  intros Hr. pose proof (once_file bld s) as Hf. revert Hf.
  cbv beta iota zeta delta [_execute catch once mbind st_bind mret st_ret the handle lift on_router raise id].
  destruct (f_handle (fs_file s)) as [h|].
  - destruct (bld (fs_file s) h) as [q|e]; [|by rewrite Hr, andb_false_r].
    destruct (rt_execute _ q _ _) as [w [d|e]]; [done|]. cbn [fs_file fs_world]. by rewrite Hr, andb_false_r.
  - by rewrite Hr, andb_false_r.
Qed.

(** The handle, the router it is used on and what decides recovery are those
    of [f0]; nothing has been recovered since. *)
Definition held (f0 : File R) (s : fstate) : Prop :=
  f_handle (fs_file s) = f_handle f0 /\ f_router (fs_file s) = f_router f0
  /\ f_recoveries (fs_file s) = f_recoveries f0 /\ f_flags (fs_file s) = f_flags f0
  /\ f_config (fs_file s) = f_config f0.

Lemma held_the {A} f0 (g : File R -> A) : preserves (held f0) (the g : F A).
Proof. by intros s. Qed.
Lemma held_router {A} f0 (c : R -> W -> W * res A) : preserves (held f0) (on_router c : F A).
Proof. intros s Hs. unfold on_router. by destruct (c _ _). Qed.
Lemma held_upd f0 (g : File R -> File R) :
  (forall f, f_handle (g f) = f_handle f /\ f_router (g f) = f_router f /\ f_recoveries (g f) = f_recoveries f
             /\ f_flags (g f) = f_flags f /\ f_config (g f) = f_config f) ->
  preserves (held f0) (upd g : F unit).
Proof. intros Hg s (H1 & H2 & H3 & H4 & H5). destruct (Hg (fs_file s)) as (? & ? & ? & ? & ?). split_and!; cbn; congruence. Qed.
Lemma held_catch {A} f0 (c : F A) h :
  preserves (held f0) c -> (forall e, preserves (held f0) (h e)) -> preserves (held f0) (catch c h).
Proof.
  intros Hc Hh s Hs. specialize (Hc s Hs). unfold catch. destruct (c s) as [s' [a|e]]; [done | by apply Hh].
Qed.
Hint Resolve held_the held_router held_catch : xrd.

Ltac keeps := repeat match goal with
  | |- preserves _ (_ ≫= _) => apply preserves_bind; [|intros]
  | |- preserves _ (upd _) => apply held_upd; done
  | |- preserves _ (if ?b then _ else _) => destruct b
  | |- preserves _ (match ?b with _ => _ end) => destruct b
  | |- preserves _ (catch _ _) => apply held_catch; [|intros]
  | |- preserves _ _ => solve [auto with xrd]
  end.

Lemma held_bind f0 n : preserves (held f0) (bind_loop n : F unit).
Proof. induction n as [|n IH]; cbn [bind_loop]; keeps. Qed.
Hint Resolve held_bind : xrd.
Lemma held_streams f0 : preserves (held f0) (_bind_data_streams : F unit).
Proof. unfold _bind_data_streams. keeps. Qed.
Lemma held_next f0 : preserves (held f0) (_next_path : F Z).
Proof. intros s Hs. unfold _next_path. by destruct (f_multistream (fs_file s)), (f_data_paths (fs_file s)). Qed.
Lemma held_handle f0 : preserves (held f0) (handle : F bytes).
Proof. unfold handle. keeps. Qed.
Hint Resolve held_streams held_next held_handle : xrd.

Lemma held_execute f0 bld : recoverable f0 = false -> preserves (held f0) (_execute bld : F bytes).
Proof.
  intros Hr s Hs. rewrite execute_unrecoverable.
  - pose proof (once_file bld s) as Hf. unfold held. by rewrite Hf.
  - destruct Hs as (_ & _ & _ & H4 & H5). unfold recoverable in *. by rewrite H4, H5.
Qed.

Lemma held_bulk f0 build : recoverable f0 = false -> preserves (held f0) (_bulk build : F bytes).
Proof.
  intros Hr. assert (forall bld, preserves (held f0) (_execute bld : F bytes)) as He
    by (intros bld; by apply held_execute).
  assert (forall p, preserves (held f0) (bulk_split build p : F bytes)) as Hs by (intros p; unfold bulk_split; keeps; apply He).
  unfold _bulk. keeps; auto.
Qed.

(** C25: a handle opened with a mode that can change the file - anything but a
    plain [r] - is never silently re-opened. A request on it is sent once, to
    the server that issued the handle, and a lost connection surfaces; and
    while a bulk read or write may offer its request again - on the data path,
    split over it, on the control link - it is always with that handle, on that
    router, and nothing has been recovered in the end. *)
Theorem writer_never_reopened mode posc makepath base binary updating bld build s :
  Flags.parse_mode mode = Ok (base, binary, updating) ->
  Flags.flags_for_mode mode posc makepath = Ok (f_flags (fs_file s)) ->
  ~ (base = 0x72 /\ updating = false) ->
  _execute bld s = once bld s /\ held (fs_file s) (_bulk build s).1.
Proof.
  intros Hp Hf Hm. assert (recoverable (fs_file s) = false) as Hr.
  { unfold recoverable.
    destruct (Z.eqb_spec (Z.land (f_flags (fs_file s)) Flags._WRITING) 0) as [Hz|]; [|by rewrite andb_false_r].
    destruct Hm. by apply (Flags.flags_writing _ _ _ _ _ _ _ Hp Hf). }
  split; [by apply execute_unrecoverable|]. by apply held_bulk.
Qed.

(** *** Checkpoints *)

(** What every checkpoint request preserves, an operation preserves: it sends
    nothing else. *)
Section Journal.
Variable Inv : W -> Prop.
Hypothesis journal : forall r h code d t path w, Inv w -> Inv (rt_execute r (ChkPoint h code d t) path w).1.

Definition keeps {A} (c : F A) : Prop := forall s,
  Inv (fs_world s) /\ f_checkpoint (fs_file s) = true ->
  Inv (fs_world (c s).1) /\ f_checkpoint (fs_file (c s).1) = true.

Lemma keeps_bind {A B} (c : F A) (k : A -> F B) : keeps c -> (forall a, keeps (k a)) -> keeps (c ≫= k).
Proof.
  intros Hc Hk s Hs. rewrite st_bind_eq. specialize (Hc s Hs). destruct (c s) as [s' [a|e]]; [by apply Hk | exact Hc].
Qed.

Lemma keeps_pure {A} (c : F A) : (forall s, (c s).1 = s) -> keeps c.
Proof. intros Hc s Hs. by rewrite Hc. Qed.

Lemma handle_pure s : (handle (R:=R) (W:=W) s).1 = s.
Proof. unfold handle, the. rewrite st_bind_eq. by destruct (f_handle (fs_file s)). Qed.

Lemma submit_keeps q : keeps (_submit q).
Proof.
  intros s [HI Hc]. unfold _submit, the, on_router. rewrite st_bind_eq. cbn [id]. rewrite Hc, st_bind_eq, st_bind_eq.
  pose proof (handle_pure s) as Hp. destruct (handle s) as [s' [h|e]]; cbn [fst] in Hp; subst s'; [|done].
  unfold lift, ChkPoint_execute. destruct (negb _); [done|].
  destruct (encode q 0) as [frame|e]; cbn [mbind result_bind]; [|done]. cbv beta iota.
  set (q' := ChkPoint _ _ _ _). pose proof (journal (f_router (fs_file s)) h kXR_ckpXeq (slice_to frame REQUEST_HDRLEN)
    (slice_from frame REQUEST_HDRLEN) (u_path (f_url (fs_file s))) (fs_world s) HI) as Hj. fold q' in Hj.
  by destruct (rt_execute (f_router (fs_file s)) q' _ (fs_world s)) as [w' r].
Qed.

Lemma invalidate_keeps n b : keeps (_invalidate n b).
Proof. intros s Hs. exact Hs. Qed.

Lemma write_loop_keeps fuel limit data offset : forall written, keeps (write_loop fuel limit data offset written).
Proof.
  induction fuel as [|fuel IH]; intros written; cbn [write_loop]; destruct (written <? zlen data); try by apply keeps_pure.
  intros s Hs. unfold the. rewrite st_bind_eq. cbn [id]. rewrite (proj2 Hs).
  apply (keeps_bind (h ← handle; _submit _)); [|done|exact Hs].
  apply keeps_bind; [apply keeps_pure, handle_pure | intros h; apply submit_keeps].
Qed.

(** Inside a checkpoint every write, paged write and truncation goes to the
    server through the checkpoint, where a rollback can undo it, and a
    vectored write is refused before anything is sent. *)
Theorem checkpoint_journals data offset size items sync s :
  Inv (fs_world s) -> f_checkpoint (fs_file s) = true ->
  Inv (fs_world (write data offset s).1) /\ Inv (fs_world (pgwrite data offset s).1)
  /\ Inv (fs_world (truncate size s).1) /\ fs_world (writev items sync s).1 = fs_world s.
Proof.
  intros HI Hc. pose proof (conj HI Hc) as Hs. split_and!.
  - apply (keeps_bind (the _) _ ltac:(by apply keeps_pure)); [|exact Hs]. intros limit.
    apply keeps_bind; [apply write_loop_keeps|]. intros [n|]; [|by apply keeps_pure].
    apply keeps_bind; [apply invalidate_keeps | intros; by apply keeps_pure].
  - unfold pgwrite. destruct data as [|b data]; [done|]. apply keeps_bind; [by apply keeps_pure | intros payload | exact Hs].
    apply keeps_bind; [apply keeps_pure, handle_pure | intros h]. apply keeps_bind; [by apply keeps_pure | intros p].
    apply keeps_bind; [apply submit_keeps | intros _].
    apply keeps_bind; [apply invalidate_keeps | intros; by apply keeps_pure].
  - apply (keeps_bind handle); [apply keeps_pure, handle_pure | intros h | exact Hs].
    apply keeps_bind; [apply submit_keeps | intros _].
    apply keeps_bind; [apply invalidate_keeps | intros; by apply keeps_pure].
  - unfold writev. destruct items; [done|]. unfold the. rewrite st_bind_eq. cbn [id]. by rewrite Hc.
Qed.
End Journal.

(** *** Closed handles *)

Lemma closed_execute bld s : f_handle (fs_file s) = None -> _execute bld s = (s, Err ValueError).
Proof.
  intros Hh. cbv beta iota zeta delta [_execute catch mbind st_bind mret st_ret the handle raise id]. by rewrite Hh.
Qed.

Lemma closed_split build p s : f_handle (fs_file s) = None -> bulk_split build p s = (s, Err ValueError).
Proof.
  intros Hh. unfold bulk_split, catch. rewrite closed_execute by done. unfold the, is_open. rewrite st_bind_eq. by rewrite Hh.
Qed.

(** Reading a closed handle raises [ValueError], but only after a data path
    has been bound for it: [close] leaves the data paths of the lost
    connection behind, and [_bulk] asks the router for a session before it
    looks at the handle. *)
Theorem closed_read_binds s n offset p w1 q w2 :
  f_handle (fs_file s) = None -> f_data_paths (fs_file s) = [p] -> f_multistream (fs_file s) = true ->
  f_checkpoint (fs_file s) = false -> c_data_streams (f_config (fs_file s)) = 1 -> p <> 0 ->
  0 < n <= c_chunk_size (f_config (fs_file s)) ->
  rt_arrives (f_router (fs_file s)) (fs_world s) = (w1, Ok None) ->
  rt_bind_data_path (f_router (fs_file s)) w1 = (w2, Ok q) -> q <> 0 ->
  exists s', read n offset s = (s', Err ValueError) /\ fs_world s' = w2.
Proof.
  intros Hh Hd Hm Hc Hn Hp Hl Ha Hb Hq.
  unfold read, read_sized. destruct (Z.ltb_spec n 0); [lia|].
  unfold the at 1. rewrite st_bind_eq. destruct (Z.eqb_spec n 0); [lia|].
  destruct (Z.leb_spec n (c_chunk_size (f_config (fs_file s)))); [|lia].
  destruct s as [f w]. cbn [fs_file fs_world] in *.
  assert (Enext : forall (g : File R) (v : W) x, f_multistream g = true -> f_data_paths g = [x] ->
    _next_path (mkF g v) = (mkF (set_f_rr (f_rr g + 1) g) v, Ok x)).
  { intros g v x Hg1 Hg2. unfold _next_path. cbn [fs_file fs_world]. rewrite Hg1, Hg2.
    change (zlen [x]) with 1. by rewrite Z.mod_1_r. }
  unfold _read_one. rewrite !st_bind_eq. unfold _bulk. rewrite st_bind_eq, (Enext f w p Hm Hd). cbv beta iota.
  set (f1 := set_f_rr (f_rr f + 1) f). unfold the at 1. rewrite st_bind_eq. cbn [fs_file id].
  change (f_checkpoint f1) with (f_checkpoint f). rewrite Hc. destruct (Z.eqb_spec p 0); [done|]. cbn [orb].
  rewrite st_bind_eq. unfold on_router at 1. cbn [fs_file fs_world]. change (f_router f1) with (f_router f). rewrite Ha.
  cbv beta iota. rewrite st_bind_eq. unfold catch at 1. rewrite st_bind_eq.
  assert (E : handle (mkF f1 w1) = (mkF f1 w1, Err ValueError)) by (unfold handle, the; rewrite st_bind_eq; cbn [fs_file]; change (f_handle f1) with (f_handle f); by rewrite Hh).
  rewrite E. cbv beta iota delta [mret st_ret]. change (bulk_error ValueError) with true. cbv beta iota.
  unfold upd, modify. rewrite st_bind_eq. cbn [fs_file fs_world].
  set (f2 := set_f_data_paths _ f1). assert (Hf2 : f_data_paths f2 = []).
  { unfold f2. cbn. rewrite Hd. cbn. by rewrite Z.eqb_refl. }
  rewrite st_bind_eq. unfold _bind_data_streams, the at 1. rewrite st_bind_eq. cbn [fs_file].
  rewrite Hf2. change (f_config f2) with (f_config f). rewrite Hn. change (Z.to_nat (1 - zlen [])) with 1%nat.
  cbn [bind_loop]. rewrite st_bind_eq. unfold catch at 1. rewrite st_bind_eq. unfold on_router at 1. cbn [fs_file fs_world].
  change (f_router f2) with (f_router f). rewrite Hb. cbv beta iota delta [mret st_ret].
  destruct (Z.eqb_spec q 0); [done|]. unfold upd, modify. rewrite st_bind_eq. cbn [fs_file fs_world]. rewrite Hf2.
  set (f3 := set_f_data_paths _ f2). rewrite st_bind_eq, (Enext f3 w2 q) by done. cbv beta iota.
  destruct (Z.eqb_spec q 0); [done|]. rewrite closed_split by done. eexists. split; [reflexivity | done].
Qed.
End Handles.

(** A handle opened with [r+]. *)
Lemma writer_never_reopened_witness :
  let s := demo_file 3 Flags.UPDATE (b_ "data") in
  _execute (fun _ h => Ok (Sync h)) s = once (fun _ h => Ok (Sync h)) s
  /\ held (fs_file s) (_bulk (fun h p => Write h 0 (b_ "x") p) s).1.
Proof.
  apply (writer_never_reopened (s_ "r+b") false true 0x72 true true); [vm_compute; reflexivity.. | by intros [_ [=]]].
Defined.

(** The file itself is not touched while a checkpoint is open. *)
Lemma checkpoint_journals_witness :
  let s := mkF (set_f_checkpoint true (fs_file (demo_file 3 Flags.UPDATE (b_ "data")))) (b_ "data") in
  fs_world (write (b_ "other") 0 s).1 = b_ "data".
Proof.
  intros s.
  apply (checkpoint_journals (fun w => w = b_ "data") ltac:(by intros r h code d t path w ->)
    (b_ "other") 0 0 [] false s eq_refl eq_refl).
Defined.

(** Connections are counted. *)
#[local] Instance counting : RouterEnv unit Z := {
  rt_new _ _ w := (tt, w); rt_execute _ _ _ w := (w, Ok []); rt_arrives _ w := (w + 1, Ok None);
  rt_on_path _ _ _ w := (w, Ok []); rt_bind_data_path _ w := (w + 1, Ok 7); rt_pin _ _ w := (tt, w);
  rt_close _ w := w; rt_discard _ w := w; rt_same_session _ _ w := (w, Ok true)
}.

Lemma closed_read_binds_witness :
  exists s', read 10 0 (mkF (set_f_handle None (fs_file (demo_file 4096 Flags.READ tt))) 0) = (s', Err ValueError)
    /\ fs_world s' = 2.
Proof.
  exact (closed_read_binds (mkF (set_f_handle None (fs_file (demo_file 4096 Flags.READ tt))) 0) 10 0 1 1 7 2
    eq_refl eq_refl eq_refl eq_refl eq_refl ltac:(done) ltac:(cbn; lia) eq_refl eq_refl ltac:(done)).
Defined.
