(* ===== verification/FileReadv.v ===== *)
(** * Vectored reads

    Whatever order the server answers in, each range gets its own bytes. *)

From S2P Require Import Prelude PyStr Constants Errors Buffer Frames Requests Responses ResponseProps Flags ConfigFile Words Url UrlText FileClient FileTransfer FileProps.
Open Scope Z_scope.
Import FileClient.FileClient.

(** The answers gathered so far, with one reply's segments. *)
Definition gather (out : dict Z (list bytes)) (segments : list ReadVSegment) : dict Z (list bytes) :=
  foldl (fun out s => dict_set (rv_offset s) (default [] (dict_get (rv_offset s) out) ++ [rv_data s]) out) out segments.

Definition at_offset (o : Z) (out : dict Z (list bytes)) : list bytes := default [] (dict_get o out).

Lemma gather_at o segments : forall out,
  at_offset o (gather out segments)
  = at_offset o out ++ (rv_data <$> filter (fun s => rv_offset s = o) segments).
Proof.
  unfold gather, at_offset. induction segments as [|s segments IH]; intros out; cbn [foldl].
  - cbn. by rewrite app_nil_r.
  - rewrite IH, dict_get_set, filter_cons. destruct (decide (rv_offset s = o)) as [<-|Hne]; [|done].
    rewrite fmap_cons. cbn [default from_option id]. by rewrite <- app_assoc.
Qed.

(** The segment of a range, as a server that holds [content] cuts it. *)
Definition segment_of (content : list byte) (h : bytes) (r : ReadRange) : ReadVSegment :=
  {| rv_fhandle := h; rv_offset := rr_offset r; rv_data := answer content (rr_offset r) (rr_length r) |}.

Lemma segments_for_exact content wanted : forall out,
  Forall (fun r => 0 <= rr_length r) wanted -> NoDup (rr_offset <$> wanted) ->
  (forall r, r ∈ wanted -> at_offset (rr_offset r) out = [answer content (rr_offset r) (rr_length r)]) ->
  segments_for wanted out = Ok ((fun r => answer content (rr_offset r) (rr_length r)) <$> wanted).
Proof.
  induction wanted as [|r wanted IH]; intros out Hl Hn Ho; [done|]. cbn [segments_for fmap list_fmap].
  apply Forall_cons in Hl as [Hr Hl]. cbn [fmap list_fmap] in Hn. apply NoDup_cons in Hn as [Hnot Hn].
  pose proof (Ho r ltac:(by left)) as H0. unfold at_offset in H0.
  destruct (dict_get (rr_offset r) out) as [[|d [|]]|] eqn:E; cbn in H0; [discriminate| |discriminate|discriminate].
  injection H0 as ->. unfold _segment_for. pose proof (answer_length content (rr_offset r) (rr_length r) Hr).
  destruct (Z.ltb_spec (rr_length r) (zlen (answer content (rr_offset r) (rr_length r)))); [lia|].
  cbn [mbind result_bind]. rewrite IH; [done | done | done|].
  intros r' Hr'. rewrite <- (Ho r') by (by right). unfold at_offset. rewrite dict_get_set_ne; [done|].
  intros Heq. apply Hnot. rewrite Heq. by apply list_elem_of_fmap_2.
Qed.

(** Exactly one segment is at each offset, in whatever order they came. *)
Lemma filter_offset content h wanted segments r :
  NoDup (rr_offset <$> wanted) -> segments ≡ₚ (segment_of content h <$> wanted) -> r ∈ wanted ->
  (rv_data <$> filter (fun s => rv_offset s = rr_offset r) segments) = [answer content (rr_offset r) (rr_length r)].
Proof.
  intros Hn Hp Hr. apply Permutation_singleton_r. rewrite Hp. clear Hp.
  induction wanted as [|x wanted IH]; [by apply elem_of_nil in Hr|]. cbn [fmap list_fmap] in *.
  apply NoDup_cons in Hn as [Hnot Hn]. rewrite filter_cons. cbn [rv_offset segment_of].
  apply elem_of_cons in Hr as [->|Hr].
  - rewrite decide_True by done. cbn [fmap list_fmap rv_data segment_of].
    assert (E : filter (fun s => rv_offset s = rr_offset x) (segment_of content h <$> wanted) = []).
    { clear - Hnot. induction wanted as [|y wanted IH]; [done|]. cbn [fmap list_fmap] in *.
      apply not_elem_of_cons in Hnot as [Hne Hnot]. rewrite filter_cons. cbn [rv_offset segment_of].
      rewrite decide_False by congruence. by apply IH. }
    by rewrite E.
  - rewrite decide_False; [by apply IH|]. intros Heq. apply Hnot. rewrite Heq. by apply list_elem_of_fmap_2.
Qed.

(** A range a descriptor can carry. *)
Definition fits (r : ReadRange) : Prop :=
  0 <= rr_offset r < 2 ^ 63 /\ 0 <= rr_length r <= READV_MAX_BYTES.

Section Readv.
Context {R W : Type} `{RouterEnv R W}.
Notation fstate := (@fstate R W).
Variable live : R -> bytes -> W -> Prop.
Variable content : list byte.

(** A vectored read is answered with the segments asked for, in some order. *)
Definition AnswersV : Prop := forall r h w batch p path, live r h w -> Forall fits batch ->
  exists w' data segments,
    rt_execute r (ReadV ((fun x => (h, rr_offset x, rr_length x)) <$> batch) p) path w = (w', Ok data)
    /\ parse_readv data = Ok segments /\ segments ≡ₚ (segment_of content h <$> batch) /\ live r h w'.

Hypothesis answers : AnswersV.

Lemma execute_readv batch f w h :
  f_handle f = Some h -> live (f_router f) h w -> Forall fits batch ->
  exists w' data segments,
    _execute (fun f h => Ok (ReadV ((fun r => (h, rr_offset r, rr_length r)) <$> batch) (f_pathid f))) (mkF f w)
      = (mkF f w', Ok data)
    /\ parse_readv data = Ok segments /\ segments ≡ₚ (segment_of content h <$> batch) /\ live (f_router f) h w'.
Proof.
  intros Hh Hl Hb. destruct (answers (f_router f) h w batch (f_pathid f) (u_path (f_url f)) Hl Hb) as (w' & data & segs & E & Hp).
  exists w', data, segs. split; [|exact Hp].
  cbv beta iota zeta delta [_execute catch mbind st_bind mret st_ret the handle lift on_router raise id].
  cbn [fs_file fs_world]. rewrite Hh. cbn [fs_file fs_world]. by rewrite E.
Qed.

Lemma readv_batches_gather batches : forall out f w h,
  f_handle f = Some h -> live (f_router f) h w -> Forall fits (concat batches) ->
  exists w' segments, readv_batches batches out (mkF f w) = (mkF f w', Ok (gather out segments))
    /\ segments ≡ₚ (segment_of content h <$> concat batches) /\ live (f_router f) h w'.
Proof.
  induction batches as [|batch batches IH]; intros out f w h Hh Hl Hb; cbn [readv_batches concat] in *.
  - exists w, []. done.
  - apply Forall_app in Hb as [Hb Hbs]. destruct (execute_readv batch f w h Hh Hl Hb) as (w1 & data & segs & E1 & E2 & Hp & Hl1).
    rewrite st_bind_eq, E1. unfold lift. rewrite st_bind_eq, E2.
    destruct (IH (gather out segs) f w1 h Hh Hl1 Hbs) as (w2 & segs2 & E3 & Hp2 & Hl2).
    exists w2, (segs ++ segs2). split; [|split; [|done]].
    + fold (gather out segs). rewrite E3. unfold gather. by rewrite foldl_app.
    + by rewrite fmap_app, Hp, Hp2.
Qed.

(** C24: a vectored read of ranges at different offsets returns the bytes of each
    range, in the order asked for, however the server orders its segments and
    however many requests it took. *)
Theorem readv_exact wanted s h :
  f_handle (fs_file s) = Some h -> live (f_router (fs_file s)) h (fs_world s) ->
  Forall fits wanted -> NoDup (rr_offset <$> wanted) ->
  (readv wanted s).2 = Ok ((fun r => answer content (rr_offset r) (rr_length r)) <$> wanted).
Proof.
  intros Hh Hl Hr Hn. unfold readv. destruct wanted as [|x wanted]; [done|]. set (ws := x :: wanted) in *.
  destruct (batches_split ws) as (bs & Eb & Ec); [eapply Forall_impl; [exact Hr | unfold fits; cbn; lia]|].
  rewrite Eb. cbn [fst snd]. destruct s as [f w]. rewrite st_bind_eq.
  destruct (readv_batches_gather bs [] f w h Hh Hl ltac:(by rewrite Ec)) as (w' & segs & E & Hp & _). rewrite E. unfold lift. cbn [snd].
  rewrite Ec in Hp. apply segments_for_exact; [eapply Forall_impl; [exact Hr | unfold fits; cbn; lia] | done|].
  intros r Hin. rewrite gather_at. by apply (filter_offset content h ws).
Qed.
End Readv.

(** ** A server that answers backwards *)

Definition backwards (content : list byte) (asked : list (bytes * Z * Z)) : list ReadVSegment :=
  reverse ((fun '(h, off, len) => {| rv_fhandle := h; rv_offset := off; rv_data := answer content off len |}) <$> asked).

#[export] Instance scrambling : RouterEnv bool (list byte) := {
  rt_new _ _ w := (true, w);
  rt_execute _ q _ w :=
    match q with
    | ReadV asked _ => (w, Ok (readv_body (backwards w asked)))
    | _ => (w, Ok [])
    end;
  rt_arrives _ w := (w, Ok None);
  rt_on_path _ _ _ w := (w, Err ProtocolError);
  rt_bind_data_path _ w := (w, Ok 1);
  rt_pin r _ w := (r, w);
  rt_close _ w := w;
  rt_discard _ w := w;
  rt_same_session _ _ w := (w, Ok true)
}.

Lemma segment_of_ok content h r : zlen h = FHANDLE_LEN -> fits r -> segment_ok (segment_of content h r).
Proof.
  intros Hh [Ho Hl]. pose proof (answer_length content (rr_offset r) (rr_length r) ltac:(lia)) as Hlen.
  unfold segment_ok. cbn [rv_fhandle rv_data rv_offset segment_of]. change READV_MAX_BYTES with 2097152 in Hl.
  unfold FHANDLE_LEN in Hh. split_and!; lia.
Qed.

Lemma scrambling_answers content :
  AnswersV (fun (_ : bool) h w => zlen h = FHANDLE_LEN /\ w = content) content.
Proof.
  intros r h w batch p path [Hh ->] Hb. exists content, (readv_body (reverse (segment_of content h <$> batch))), (reverse (segment_of content h <$> batch)).
  cbn [rt_execute scrambling]. split_and!; [| | by rewrite reverse_Permutation | done | done].
  - unfold backwards. by rewrite <- list_fmap_compose.
  - unfold parse_readv. rewrite readv_loop_spec; [|apply Reader.make_wf | rewrite Reader.left_make; lia].
    rewrite Reader.left_make. split; [done|]. rewrite reverse_Permutation. apply Forall_fmap.
    eapply Forall_impl; [exact Hb|]. intros x Hx. by apply segment_of_ok.
Qed.

Definition scrambled_file (w : list byte) : fstate :=
  mkF (mkFile demo_url (small_chunks 3) true true (Some [x00; x00; x00; x01]) None (0, []) 0 Flags.READ 0
         false 0 [] 0 true 0) w.

Lemma readv_exact_witness :
  (readv [mkRange 7 5; mkRange 0 5; mkRange 10 9] (scrambled_file (b_ "hello, world"))).2
  = Ok [b_ "world"; b_ "hello"; b_ "ld"].
Proof.
  rewrite (readv_exact (fun _ h w => zlen h = FHANDLE_LEN /\ w = b_ "hello, world") (b_ "hello, world")
    (scrambling_answers (b_ "hello, world")) _ _ [x00; x00; x00; x01]);
    [vm_compute; reflexivity | done | done | repeat constructor; vm_compute; congruence | by apply (bool_decide_unpack _)].
Defined.
