(* ===== verification/RawIO.v ===== *)
(** * File objects

    src/xrd/io/raw.py: [XRootDRawIO], the unbuffered file object the [io]
    module stacks its buffers on. It keeps a position over a handle. A caller
    cannot tell it from a local file: any sequence of reads, writes and seeks
    gives what the same sequence gives on the bytes themselves. *)

From S2P Require Import Prelude PyStr Constants Errors Buffer Frames Requests Responses Flags ConfigFile Words Url UrlText FileClient FileTransfer.
Open Scope Z_scope.

Module RawIO.

Definition SEEK_SET : Z := 0.
Definition SEEK_CUR : Z := 1.
Definition SEEK_END : Z := 2.

Section Raw.
Context {R W : Type} `{RouterEnv R W}.
Variable upper : str -> str.
Variable isdigit : str -> bool.
Notation fstate := (@FileClient.fstate R W).
Notation F := (st exn fstate).

Record raw := mkRaw {
  rw_file : fstate; rw_base : Z; rw_readable : bool; rw_writable : bool; rw_pos : Z; rw_closed : bool
}.
Notation M := (st exn raw).

Definition set_file (f : fstate) (r : raw) : raw :=
  mkRaw f (rw_base r) (rw_readable r) (rw_writable r) (rw_pos r) (rw_closed r).
Definition set_pos (p : Z) (r : raw) : raw :=
  mkRaw (rw_file r) (rw_base r) (rw_readable r) (rw_writable r) p (rw_closed r).
Definition set_closed (r : raw) : raw :=
  mkRaw (rw_file r) (rw_base r) (rw_readable r) (rw_writable r) (rw_pos r) true.

(** A call on the handle. *)
Definition on_file {A} (c : F A) : M A := fun r =>
  let '(f, a) := c (rw_file r) in (set_file f r, a).

(** *** Opening *)

(** Open the file, creating it where the mode says to: no flags both create
    and append, so a missing file is created on the second attempt. *)
Definition _open (mode : str) (posc : bool) : F unit :=
  let access := Flags.Bits 0x1A0 in
  flags ← lift (Flags.flags_for_mode mode posc true);
  FileClient.catch (FileClient.open upper isdigit (Flags.Bits flags) access ≫= fun _ => mret tt)
    (fun e => match e with
              | ServerExn NotFoundError _ _ _ =>
                  if Z.land flags Flags.APPEND =? 0 then raise e
                  else FileClient.open upper isdigit (Flags.Bits (Z.lor flags Flags.NEW)) access ≫= fun _ => mret tt
              | _ => raise e
              end).

Definition raw_at (base : Z) (updating : bool) (pos : Z) : F raw := fun f =>
  (f, Ok (mkRaw f base ((base =? 0x72) || updating) (bool_decide (base ∈ s_ "wxa") || updating) pos false)).

(** [XRootDRawIO(file, mode, posc, opened)]. *)
Definition XRootDRawIO (mode : str) (posc opened : bool) : F raw :=
  '(base, _, updating) ← lift (Flags.parse_mode mode);
  (if opened then mret tt else _open mode posc) ≫= fun _ =>
  pos ← (if base =? 0x61 then FileClient.size else mret 0);
  raw_at base updating pos.

(** *** Checks *)

Definition _check_readable (r : raw) : res unit :=
  if rw_closed r then Err ValueError else if rw_readable r then Ok tt else Err UnsupportedOperation.
Definition _check_writable (r : raw) : res unit :=
  if rw_closed r then Err ValueError else if rw_writable r then Ok tt else Err UnsupportedOperation.

Definition checked {A} (check : raw -> res unit) (c : M A) : M A := fun r =>
  match check r with Ok _ => c r | Err e => (r, Err e) end.

Definition pos : M Z := fun r => (r, Ok (rw_pos r)).

(** *** Position *)

Definition tell : M Z := pos.

Definition seek (offset whence : Z) : M Z :=
  target ← (if whence =? SEEK_SET then mret offset
            else if whence =? SEEK_CUR then p ← pos; mret (p + offset)
            else if whence =? SEEK_END then n ← on_file FileClient.size; mret (n + offset)
            else raise ValueError);
  if target <? 0 then raise OSError else modify (set_pos target) ≫= fun _ => mret target.

(** *** Data *)

(** Move the position past what was transferred. *)
Definition advance (n : Z) : M unit := modify (fun r => set_pos (rw_pos r + n) r).

(** Into a buffer of [size] bytes: what was put at its start. *)
Definition readinto (size : Z) : M (option bytes) :=
  checked _check_readable
    (if size =? 0 then mret (Some [])
     else
       p ← pos;
       d ← on_file (FileClient.read size p);
       match (d : option bytes) with
       | None => mret None
       | Some d => if size <? zlen d then raise ValueError else advance (zlen d) ≫= fun _ => mret (Some d)
       end).

Definition readall : M (option bytes) :=
  checked _check_readable
    (p ← pos;
     d ← on_file (FileClient.read (-1) p);
     match (d : option bytes) with
     | None => mret None
     | Some d => advance (zlen d) ≫= fun _ => mret (Some d)
     end).

Definition write (data : bytes) : M (option Z) :=
  checked _check_writable
    (match data with
     | [] => mret (Some 0)
     | _ =>
         p ← pos;
         n ← on_file (FileClient.write data p);
         match (n : option Z) with
         | None => mret None
         | Some n => advance n ≫= fun _ => mret (Some n)
         end
     end).

Definition truncate (size : option Z) : M Z :=
  checked _check_writable
    (p ← pos;
     let target := default p size in
     on_file (FileClient.truncate target) ≫= fun _ => mret target).

Definition flush : M unit := fun r =>
  if rw_writable r && negb (rw_closed r) && FileClient.is_open (FileClient.fs_file (rw_file r))
  then on_file FileClient.sync r else (r, Ok tt).

(** [super().close()] flushes and then is closed, whatever the flush did. *)
Definition base_close : M unit := fun r => let '(r, a) := flush r in (set_closed r, a).

Definition close : M unit := fun r =>
  if rw_closed r then (r, Ok tt) else
  let '(r, a) := base_close r in
  match on_file FileClient.close r with
  | (r, Ok _) => (r, a)
  | (r, Err e) => (r, Err e)
  end.
End Raw.
End RawIO.
Import RawIO.

(** ** What a program does with a file *)

Inductive op := Reading (size : Z) | Writing (data : bytes) | Seeking (offset : Z) (relative : bool).
Inductive answered := Bytes (b : bytes) | Number (n : Z) | Refused.

(** On the bytes of the file, with a position. *)
Definition spec_step (o : op) (c : list byte * Z) : (list byte * Z) * answered :=
  let '(content, p) := c in
  match o with
  | Reading n => let d := answer content p n in ((content, p + zlen d), Bytes d)
  | Writing [] => (c, Number 0)
  | Writing d => ((patch content p d, p + zlen d), Number (zlen d))
  | Seeking off relative =>
      let target := if (relative : bool) then p + off else off in
      if target <? 0 then (c, Refused) else ((content, target), Number target)
  end.

Section Refines.
Context {R W : Type} `{RouterEnv R W}.
Notation raw := (@raw R W).
Variable live steady : R -> bytes -> W -> Prop.
Variable rec : bool.
Variable chunk : Z.
Variable file : W -> list byte.
Hypothesis chunk_pos : 0 < chunk.
Hypothesis holds : forall content, Holds live steady rec content (fun w => file w = content).
Hypothesis stores : Stores live steady rec file.

Definition impl_step (o : op) : st exn raw answered :=
  match o with
  | Reading n => d ← readinto n; mret (match (d : option bytes) with Some d => Bytes d | None => Refused end)
  | Writing d => n ← write d; mret (match (n : option Z) with Some n => Number n | None => Refused end)
  | Seeking off relative => n ← seek off (if relative then SEEK_CUR else SEEK_SET); mret (Number n)
  end.

(** An open file object over the bytes of [c], at its position. *)
Definition shows (c : list byte * Z) (r : raw) : Prop :=
  ok live rec false chunk (rw_file r) /\ file (FileClient.fs_world (rw_file r)) = c.1
  /\ rw_pos r = c.2 /\ rw_closed r = false /\ rw_readable r = true /\ rw_writable r = true.

Lemma step_refines o c r :
  0 <= c.2 -> (forall n, o = Reading n -> 0 <= n) -> shows c r ->
  exists r', shows (spec_step o c).1 r' /\ 0 <= ((spec_step o c).1).2
    /\ (impl_step o r = (r', Ok (spec_step o c).2) \/ impl_step o r = (r', Err OSError) /\ (spec_step o c).2 = Refused).
Proof.
  destruct c as [content p]. cbn [snd]. intros Hp Hn (Hok & Hf & Hpos & Hc & Hr & Hw). cbn [fst snd] in *. destruct o as [n|d|off relative].
  - assert (0 <= n) by (by apply Hn). cbn [spec_step impl_step]. cbv zeta. unfold readinto, checked, _check_readable.
    rewrite st_bind_eq, Hc, Hr. destruct (Z.eqb_spec n 0) as [->|Hne].
    { exists r. unfold answer. cbn. rewrite Z.add_0_r. split; [done|]. split; [done|]. by left. }
    unfold pos. rewrite st_bind_eq, Hpos. unfold on_file. rewrite st_bind_eq.
    destruct (read_gives live steady rec false chunk content _ (holds content) n p (rw_file r)) as (s' & -> & [Hok' Hi']); [done.. | by split|].
    pose proof (answer_length content p n ltac:(lia)). destruct (Z.ltb_spec n (zlen (answer content p n))); [lia|].
    unfold advance, modify. rewrite st_bind_eq. eexists. split; [|split; [|left; reflexivity]].
    + unfold shows. cbn. split_and!; try done. by rewrite Hpos.
    + cbn. pose proof (zlen_nonneg (answer content p n)). lia.
  - cbn [spec_step impl_step]. unfold write, checked, _check_writable. rewrite st_bind_eq, Hc, Hw. destruct d as [|x d].
    { exists r. split; [done|]. split; [done|]. by left. }
    unfold pos. rewrite st_bind_eq, Hpos. unfold on_file. rewrite st_bind_eq.
    destruct (write_gives live steady rec false chunk file stores (x :: d) p (rw_file r)) as (s' & -> & Hok' & Hf'); [done.. |].
    unfold advance, modify. rewrite st_bind_eq. eexists. split; [|split; [|left; reflexivity]].
    + unfold shows. cbn [rw_file set_file set_pos fst snd rw_pos rw_closed rw_readable rw_writable]. rewrite Hf', Hf, Hpos. done.
    + cbn [fst snd]. pose proof (zlen_nonneg (x :: d)). lia.
  - cbn [spec_step impl_step]. cbv zeta. set (target := if relative then p + off else off).
    assert (E : seek off (if relative then SEEK_CUR else SEEK_SET) r
      = (if target <? 0 then raise OSError else modify (set_pos target) ≫= fun _ => mret target) r).
    { unfold seek, target. rewrite st_bind_eq. destruct relative; [|done]. change (SEEK_CUR =? SEEK_SET) with false. change (SEEK_CUR =? SEEK_CUR) with true. cbv iota. unfold pos. by rewrite st_bind_eq, Hpos. }
    rewrite st_bind_eq, E. destruct (Z.ltb_spec target 0).
    + exists r. split; [done|]. split; [done|]. by right.
    + exists (set_pos target r). split; [done|]. split; [done|]. by left.
Qed.

(** Run a program, each step to its answer or its refusal. *)
Fixpoint spec_run (ops : list op) (c : list byte * Z) : (list byte * Z) * list answered :=
  match ops with
  | [] => (c, [])
  | o :: ops => let '(c, a) := spec_step o c in let '(c, l) := spec_run ops c in (c, a :: l)
  end.

Fixpoint impl_run (ops : list op) (r : raw) : raw * list answered :=
  match ops with
  | [] => (r, [])
  | o :: ops =>
      let '(r, a) := impl_step o r in
      let '(r, l) := impl_run ops r in
      (r, (match a with Ok a => a | Err _ => Refused end) :: l)
  end.

End Refines.

Definition demo_raw (w : list byte) : @raw unit (list byte) :=
  mkRaw (demo_file 2 Flags.UPDATE w) 0x72 true true 0 false.

