(* ===== verification/FileSystem.v ===== *)
(** * Namespace operations

    src/xrd/client/filesystem.py: [FileSystem], one protocol request per
    method over a router ([RouterEnv]). A file system object never changes, so
    a method is a function of the world. [walk] and [glob] are generators: the
    loop that consumes them is an argument, run at every [yield]; [walk] hands
    it the directory names it may prune. Both, and [deep_locate], go on as
    long as servers keep answering: they take fuel and say [None] when it is
    spent. The methods that open a file object of the [io] module ([open],
    [read_bytes] and the like) are left out. *)

From S2P Require Import Prelude PyStr Constants Errors Buffer Frames Requests Responses Flags ConfigFile Url UrlText Glob Auth FileClient.
From Stdlib Require Import QArith.
Open Scope Z_scope.

Module FileSystem.

(** ** What the types say of an answer (types.py) *)

Definition IS_DIR : Z := 2.
Definition OTHER : Z := 4.
Definition OFFLINE : Z := 8.

Definition stat_is_dir (i : StatInfo) : bool := negb (Z.land (st_flags i) IS_DIR =? 0).
Definition stat_is_file (i : StatInfo) : bool := Z.land (st_flags i) (Z.lor IS_DIR OTHER) =? 0.
Definition is_offline (i : StatInfo) : bool := negb (Z.land (st_flags i) OFFLINE =? 0).
Definition entry_is_dir (e : DirEntry) : bool := match de_stat e with Some i => stat_is_dir i | None => false end.
(** [DirEntry.path]. *)
Definition direntry_path (e : DirEntry) : str := entry_path (de_parent e) (de_name e).

Definition has_port (address : str) : bool :=
  let '(_, sep, port) := rpartition 0x3A address in sep && Auth.isdigit port.
Definition loc_host (l : LocationInfo) : str :=
  let host := if has_port (loc_address l) then (rpartition 0x3A (loc_address l)).1.1 else loc_address l in
  if startswith [0x5B] host && endswith [0x5D] host then slice host 1 (-1) else host.
Definition loc_port (l : LocationInfo) : res Z :=
  if has_port (loc_address l) then int_exn (rpartition 0x3A (loc_address l)).2 else Ok 1094.
Definition is_manager (l : LocationInfo) : bool := bool_decide (loc_type l ∈ s_ "Mm").

(** ** Staging reports *)

Record PrepareStatus := mkPrepared {
  ps_path : str; ps_exists : bool; ps_on_tape : bool; ps_online : bool; ps_requested : bool;
  ps_has_request_id : bool; ps_requested_at : str; ps_error : str; ps_state : str
}.

(** A JSON document. *)
Inductive json :=
  | JNull | JBool (b : bool) | JNumber (q : Q) | JString (s : str) | JList (l : list json)
  | JDict (d : list (str * json)).

(** [bool(value)]. *)
Definition truthy (j : json) : bool :=
  match j with
  | JNull => false
  | JBool b => b
  | JNumber q => negb (Qnum q =? 0)
  | JString s => negb (bool_decide (s = []))
  | JList l => match l with [] => false | _ => true end
  | JDict d => match d with [] => false | _ => true end
  end.

(** ** Opaque data *)

Definition _split_cgi (path : str) : str * str :=
  let '(base, sep, cgi) := partition 0x3F path in (base, if (sep : bool) then 0x3F :: cgi else []).

(** What was asked for, plus what was implied. *)
Definition _cgi (explicit : str) (inherited : dict str str) : res str :=
  let alone := match explicit with [] => [] | _ => 0x3F :: explicit end in
  match inherited with
  | [] => Ok alone
  | _ =>
      let named := (parse_qsl explicit).*1 in
      extra ← urlencode (filter (fun kv => kv.1 ∉ named) inherited);
      Ok (match extra with
          | [] => alone
          | _ => match explicit with [] => 0x3F :: extra | _ => 0x3F :: explicit ++ 0x26 :: extra end
          end)
  end.

(** [target += ("&" if "?" in target else "?") + f"cks.type={algorithm}"]. *)
Definition cks_type (target algorithm : str) : str :=
  target ++ (if contains 0x3F target then 0x26 else 0x3F) :: s_ "cks.type=" ++ algorithm.

(** [sorted] on strings. *)
Fixpoint str_leb (a b : str) : bool :=
  match a, b with
  | [], _ => true
  | _, [] => false
  | x :: a, y :: b => (x <? y) || ((x =? y) && str_leb a b)
  end.
Fixpoint insert_sorted (x : str) (l : list str) : list str :=
  match l with [] => [x] | y :: l' => if str_leb x y then x :: l else y :: insert_sorted x l' end.
Definition sorted (l : list str) : list str := foldr insert_sorted [] l.

Record FileSystem (R : Type) := mkFS { fs_url : XRootDURL; fs_config : Config; fs_router : R }.
Arguments mkFS {R}.
Arguments fs_url {R}.
Arguments fs_config {R}.
Arguments fs_router {R}.

(** Which class [FileSystem(url)] makes an instance of. *)
Inductive implementation := RootFileSystem | HTTPFileSystem | S3FileSystem.
Definition FileSystem_new (u : XRootDURL) : implementation :=
  if is_http u then HTTPFileSystem else if is_s3 u then S3FileSystem else RootFileSystem.

Section FileSystem.
Context {R W : Type} `{RouterEnv R W}.
(** [str.upper] and [str.lower]; [str] of a JSON value; [json.loads];
    [round(seconds * 10**9)]; the [protocol] of a router's session. *)
Variable upper lower : str -> str.
Variable json_str : json -> str.
Variable json_loads : str -> res json.
Variable round_ns : Q -> Z.
Variable session_protocol : R -> W -> W * res ProtocolInfo.

Notation FS := (FileSystem R).
Notation M := (st exn W).
Notation isdigit := Auth.isdigit.

Definition try_ {A} (c : M A) (h : exn -> M A) : M A := fun w =>
  match c w with (w, Ok a) => (w, Ok a) | (w, Err e) => h e w end.

Definition execute (fs : FS) (q : Request) (path : str) : M bytes := rt_execute (fs_router fs) q path.
Definition execute_ (fs : FS) (q : Request) (path : str) : M unit := execute fs q path ≫= fun _ => mret tt.

Definition FileSystem_init (url : XRootDURL) (config : Config) (w : W) : FS * W :=
  let '(r, w) := rt_new url config w in (mkFS url config r, w).

(** ** Plumbing *)

(** Resolve against the URL's path, carrying the opaque data. *)
Definition _abs (fs : FS) (path : str) : res str :=
  let '(base, sep, cgi) := partition 0x3F path in
  let base := if startswith [0x2F] base then base
              else path_join (match u_path (fs_url fs) with [] => [0x2F] | p => p end) [base] in
  suffix ← _cgi (if (sep : bool) then cgi else []) (u_query (fs_url fs));
  Ok (normpath base ++ suffix).

Definition _url_for (fs : FS) (path : str) : res XRootDURL :=
  p ← _abs fs path;
  Ok (evolve lower (fs_url fs) (mkChanges None None None (Some p) None None (Some []))).

Definition close (fs : FS) : M unit := fun w => (rt_close (fs_router fs) w, Ok tt).

(** ** Interrogation *)

Definition ping (fs : FS) : M unit := execute_ fs Ping [].
Definition protocol (fs : FS) : M ProtocolInfo := session_protocol (fs_router fs).

Definition stat (fs : FS) (path : str) (follow_symlinks : bool) : M StatInfo :=
  target ← lift (_abs fs path);
  data ← execute fs (Stat target (if follow_symlinks then 0 else kXR_statNoFollow) NULL_FHANDLE) target;
  lift (parse_stat data target).

Definition lstat (fs : FS) (path : str) : M StatInfo := stat fs path false.

Definition readlink (fs : FS) (path : str) : M str :=
  target ← lift (_abs fs path);
  data ← execute fs (Readlink target) target;
  lift (parse_readlink data).

Definition is_not_found (e : exn) : bool := match e with ServerExn NotFoundError _ _ _ => true | _ => false end.
Definition is_exists (e : exn) : bool := match e with ServerExn ExistsError _ _ _ => true | _ => false end.
Definition is_invalid (e : exn) : bool := match e with ServerExn InvalidArgumentError _ _ _ => true | _ => false end.

Definition is_symlink (fs : FS) (path : str) : M bool :=
  try_ (readlink fs path ≫= fun _ => mret true)
    (fun e => if is_not_found e || is_invalid e then mret false else raise e).

Definition statvfs (fs : FS) (path : str) : M VFSInfo :=
  target ← lift (_abs fs path);
  data ← execute fs (StatVFS target) target;
  lift (parse_statvfs data).

Definition statx (fs : FS) (paths : list str) : M (list StatInfo) :=
  targets ← lift (mapM_res (_abs fs) paths);
  data ← execute fs (Statx targets) [];
  let flags := parse_statx data in
  if negb (zlen flags =? zlen targets) then raise ProtocolError
  else mret (zip_with (fun f p => {| st_id := []; st_size := 0; st_flags := f; st_mtime := 0; st_ctime := 0;
                                     st_atime := 0; st_path := p |}) flags targets).

(** Whether [stat] of a path satisfies a test; a missing file does not. *)
Definition stat_says (fs : FS) (path : str) (test : StatInfo -> bool) : M bool :=
  try_ (i ← stat fs path true; mret (test i)) (fun e => if is_not_found e then mret false else raise e).

Definition exists_ (fs : FS) (path : str) : M bool := stat_says fs path (fun _ => true).
Definition isdir (fs : FS) (path : str) : M bool := stat_says fs path stat_is_dir.
Definition isfile (fs : FS) (path : str) : M bool := stat_says fs path stat_is_file.
Definition getsize (fs : FS) (path : str) : M Z := i ← stat fs path true; mret (st_size i).

(** ** Listing *)

Definition or_root (path : str) : str := match path with [] => [0x2F] | _ => path end.

Definition scandir (fs : FS) (path : str) (stat_ online : bool) (algorithm : str) (flags : option Flags.spelled)
    : M (list DirEntry) :=
  target ← lift (_abs fs (or_root path));
  options ← lift (Flags.dirlist_flags upper stat_ online algorithm flags);
  let target := match algorithm with [] => target | _ => cks_type target algorithm end in
  data ← execute fs (Dirlist target (Z.land options (Z.lnot 0x08))) target;
  lift (parse_dirlist lower data target (negb (Z.land options 0x02 =? 0))).

Definition listdir (fs : FS) (path : str) : M (list str) :=
  es ← scandir fs path false false [] None; mret (de_name <$> es).

(** The body of a loop over [walk]: it is given a directory, the names of its
    directories and of the rest, and leaves the directories to descend into. *)
Notation visitor := (str -> list str -> list str -> M (list str)).

(** Descend into each in turn, while there is fuel. *)
Fixpoint each {A} (go : A -> M (option unit)) (l : list A) : M (option unit) :=
  match l with
  | [] => mret (Some tt)
  | x :: l => r ← go x; match r with None => mret None | Some _ => each go l end
  end.

(** [for base, dirs, files in fs.walk(top, ...): visit(...)]. *)
Fixpoint walk (fuel : nat) (fs : FS) (topdown : bool) (onerror : option (exn -> M unit)) (visit : visitor) (top : str)
    : M (option unit) :=
  match fuel with
  | O => mret None
  | S fuel =>
      root ← lift (_abs fs (or_root top));
      listed ← try_ (es ← scandir fs root true false [] None; mret (Ok es))
                 (fun e => if is_os_error e then mret (Err e) else raise e);
      match listed with
      | Err e => (match onerror with Some f => f e | None => mret tt end) ≫= fun _ => mret (Some tt)
      | Ok entries =>
          let '(base, cgi) := _split_cgi root in
          let dirs := de_name <$> filter (fun e => entry_is_dir e = true) entries in
          let files := de_name <$> filter (fun e => entry_is_dir e = false) entries in
          dirs ← (if topdown then visit base dirs files else mret dirs);
          r ← each (walk fuel fs topdown onerror visit) ((fun name => path_join base [name] ++ cgi) <$> dirs);
          match r with
          | None => mret None
          | Some _ =>
              if topdown then mret (Some tt) else visit base dirs files ≫= fun _ => mret (Some tt)
          end
      end
  end.

(** [for x in l: body(x)]. *)
Fixpoint for_ {A} (body : A -> M unit) (l : list A) : M unit :=
  match l with [] => mret tt | x :: l => body x ≫= fun _ => for_ body l end.

(** [for path in fs.glob(pattern, root): found(path)]. *)
Definition glob (fuel : nat) (fs : FS) (pattern root : str) (found : str -> M unit) : M (option unit) :=
  top ← lift (_abs fs (or_root root));
  let '(base, cgi) := _split_cgi top in
  let target := if startswith [0x2F] pattern then pattern else path_join base [pattern] in
  items ← lift (Glob.re_compile (Glob._glob_regex target));
  let try_path full := if Glob.fullmatch items full then found full else mret tt in
  let start := Glob._literal_prefix target in
  let last := basename target in
  let deep := existsb (fun k => startswith (s_ "**") (drop k last)) (seq 0 (length last)) in
  if negb deep && bool_decide (start = dirname target) then
    es ← scandir fs (start ++ cgi) false false [] None;
    for_ (fun e => try_path (path_join start [de_name e])) es ≫= fun _ => mret (Some tt)
  else
    walk fuel fs true None
      (fun dirpath dirs files =>
         for_ (fun name => try_path (path_join dirpath [name])) (sorted (dirs ++ files)) ≫= fun _ => mret dirs)
      (start ++ cgi).

(** ** Mutation *)

Definition mkdir (fs : FS) (path : str) (mode : Flags.spelled) (parents exist_ok : bool) : M unit :=
  target ← lift (_abs fs path);
  try_ (m ← lift (Flags.permissions upper isdigit mode); execute_ fs (Mkdir target m parents) target)
    (fun e => if is_exists e && exist_ok then mret tt else raise e).

Definition makedirs (fs : FS) (path : str) (mode : Flags.spelled) (exist_ok : bool) : M unit :=
  mkdir fs path mode true exist_ok.

(** A request about one path. *)
Definition on_path (fs : FS) (path : str) (q : str -> Request) : M unit :=
  target ← lift (_abs fs path); execute_ fs (q target) target.

Definition rmdir (fs : FS) (path : str) : M unit := on_path fs path Rmdir.
Definition remove (fs : FS) (path : str) : M unit := on_path fs path Rm.

(** [except OSError: if not ignore_errors: raise]. *)
Definition ignoring (ignore_errors : bool) (c : M unit) : M unit :=
  try_ c (fun e => if is_os_error e && ignore_errors then mret tt else raise e).

Definition rmtree (fuel : nat) (fs : FS) (path : str) (ignore_errors : bool) : M (option unit) :=
  target ← lift (_abs fs path);
  let cgi := (_split_cgi target).2 in
  r ← walk fuel fs false None
        (fun dirpath dirs files =>
           for_ (fun name => ignoring ignore_errors (remove fs (path_join dirpath [name] ++ cgi))) files ≫= fun _ =>
           for_ (fun name => ignoring ignore_errors (rmdir fs (path_join dirpath [name] ++ cgi))) dirs ≫= fun _ =>
           mret dirs)
        target;
  match r with
  | None => mret None
  | Some _ => ignoring ignore_errors (rmdir fs target) ≫= fun _ => mret (Some tt)
  end.

(** A request about two paths, reported against one of them. *)
Definition on_paths (fs : FS) (a b : str) (q : str -> str -> Request) (second : bool) : M unit :=
  x ← lift (_abs fs a); y ← lift (_abs fs b); execute_ fs (q x y) (if second then y else x).

Definition rename (fs : FS) (src dst : str) : M unit := on_paths fs src dst Mv false.
Definition symlink (fs : FS) (target link : str) : M unit := on_paths fs target link Symlink true.
Definition link (fs : FS) (src dst : str) : M unit := on_paths fs src dst Link true.

Definition chmod (fs : FS) (path : str) (mode : Flags.spelled) : M unit :=
  target ← lift (_abs fs path);
  m ← lift (Flags.permissions upper isdigit mode);
  execute_ fs (Chmod target m) target.

(** [divmod(n, 10**9)]. *)
Definition seconds (n : Z) : Z * Z := (n / 10 ^ 9, n mod 10 ^ 9).

(** The access and modification times [utime] is asked for. *)
Definition utime_pair (times : option (list Q)) (ns : option (list Z)) : res ((Z * Z) * (Z * Z)) :=
  match times, ns with
  | Some _, Some _ => Err ValueError
  | None, None => Ok ((0, UTIME_NOW), (0, UTIME_NOW))
  | _, Some given => match given with [a; m] => Ok (seconds a, seconds m) | _ => Err TypeError end
  | Some given, None => match given with [a; m] => Ok (seconds (round_ns a), seconds (round_ns m)) | _ => Err TypeError end
  end.

Definition utime (fs : FS) (path : str) (times : option (list Q)) (ns : option (list Z)) : M unit :=
  '(a, m) ← lift (utime_pair times ns);
  on_path fs path (fun target => Setattr target kXR_sa_times a m (-1) (-1)).

Definition chown (fs : FS) (path : str) (uid gid : Z) : M unit :=
  on_path fs path (fun target => Setattr target kXR_sa_owner (0, 0) (0, 0) uid gid).

Definition truncate (fs : FS) (path : str) (size : Z) : M unit :=
  on_path fs path (fun target => Truncate target size NULL_FHANDLE).

(** Create an empty file if it is not there. *)
Definition touch_url (fs : FS) (exist_ok : bool) (u : XRootDURL) : M unit := fun w =>
    let fh := FileClient.File_init u (fs_config fs) (Some (fs_router fs)) w in
    let flags := Z.lor (Z.lor Flags.NEW Flags.UPDATE) Flags.MAKEPATH in
    match FileClient.open upper isdigit (Flags.Bits flags) (Flags.Bits 0x180) fh with
    | (fh, Err e) => (FileClient.fs_world fh, if is_exists e && exist_ok then Ok tt else Err e)
    | (fh, Ok _) => let '(fh, r) := FileClient.close fh in (FileClient.fs_world fh, r)
    end.

Definition touch (fs : FS) (path : str) (exist_ok : bool) : M unit :=
  u ← lift (_url_for fs path); touch_url fs exist_ok u.

(** ** Queries *)

(** [QueryCode(code)]. *)
Definition query_code (code : Flags.spelled) : res Z :=
  match code with
  | Flags.Bits n => if bool_decide (n ∈ snd <$> Flags.QueryCode) then Ok n else Err ValueError
  | Flags.Words_ s => Flags.from_words upper Flags.QueryCode false s
  end.

Definition ask (fs : FS) (code : Z) (args path : str) : M bytes := execute fs (Query code (Text args) NULL_FHANDLE) path.

Definition query (fs : FS) (code : Flags.spelled) (args : str) : M bytes :=
  n ← lift (query_code code); ask fs n args args.

Definition checksum (fs : FS) (path : str) (algorithm : option str) : M ChecksumInfo :=
  target ← lift (_abs fs path);
  let target := match algorithm with None | Some [] => target | Some a => cks_type target a end in
  data ← ask fs kXR_Qcksum target target;
  lift (parse_checksum lower data).

Definition query_config (fs : FS) (names : list str) : M (dict str str) :=
  let wanted := match names with [] => [s_ "version"] | _ => names end in
  data ← ask fs kXR_Qconfig (join 10 wanted) [];
  let values := split_all 10 (nul_text data) in
  mret (foldl (fun d '(name, value) => match value with [] => d | _ => dict_set name value d end) []
          (zip wanted values)).

Definition extensions (fs : FS) : M (list str) :=
  config ← query_config fs [s_ "xrdfs.ext"];
  let listed := default [] (dict_get (s_ "xrdfs.ext") config) in
  let names := strip <$> split_all 0x2C (rpartition 0x3D listed).2 in
  mret (remove_dups (filter (fun n => n <> [] /\ n <> s_ "xrdfs.ext") names)).

Definition checksum_cancel (fs : FS) (path : str) : M unit :=
  target ← lift (_abs fs path); ask fs kXR_Qckscan target target ≫= fun _ => mret tt.

Definition query_stats (fs : FS) (selectors : str) : M str :=
  data ← ask fs kXR_QStats selectors []; mret (strip (nul_text data)).

Definition query_space (fs : FS) (path : str) : M SpaceInfo :=
  target ← lift (_abs fs path); data ← ask fs kXR_Qspace target target; lift (parse_space data).

Definition set_property (fs : FS) (directive : str) : M unit := execute_ fs (Set_ directive) [].
Definition appid (fs : FS) (name : str) : M unit := set_property fs (s_ "appid " ++ name).

(** ** Where a file is *)

Definition locate (fs : FS) (path : str) (options : Z) : M (list LocationInfo) :=
  target ← lift (_abs fs path);
  data ← execute fs (Locate target options) target;
  mret (parse_locate data).

Definition locate_ (fs : FS) (path : str) (refresh no_wait add_peers prefer_name : bool) (flags : option Flags.spelled)
    : M (list LocationInfo) :=
  target ← lift (_abs fs path);
  options ← lift (Flags.locate_flags upper refresh no_wait add_peers prefer_name flags);
  data ← execute fs (Locate target options) target;
  mret (parse_locate data).

(** Ask a manager, on a connection of its own; one that fails knows nothing. *)
Definition ask_at (fs : FS) (path host : str) (port : Z) : M (list LocationInfo) := fun w =>
    let u := fs_url fs in
    let url := make_url lower (u_scheme u) host port (u_path u) (u_username u) (u_password u) (u_query u) in
    let '(child, w) := FileSystem_init url (fs_config fs) w in
    match locate child path 0 w with
    | (w, Ok found) => (rt_close (fs_router child) w, Ok found)
    | (w, Err e) => (rt_close (fs_router child) w, if is_os_error e then Ok [] else Err e)
    end.

Definition ask_manager (fs : FS) (path : str) (l : LocationInfo) : M (list LocationInfo) :=
  port ← lift (loc_port l); ask_at fs path (loc_host l) port.

(** [while pending]: the stack and what has been seen, by address. *)
Fixpoint deep_loop (fuel : nat) (fs : FS) (path : str) (pending : list LocationInfo) (seen : dict str LocationInfo)
    : M (option (dict str LocationInfo)) :=
  match fuel with
  | O => mret None
  | S fuel =>
      match last pending with
      | None => mret (Some seen)
      | Some l =>
          let pending := removelast pending in
          match dict_get (loc_address l) seen with
          | Some known =>
              deep_loop fuel fs path pending
                (if is_manager known && negb (is_manager l) then dict_set (loc_address l) l seen else seen)
          | None =>
              let seen := dict_set (loc_address l) l seen in
              if is_manager l then
                found ← ask_manager fs path l; deep_loop fuel fs path (pending ++ found) seen
              else deep_loop fuel fs path pending seen
          end
      end
  end.

Definition deep_locate (fuel : nat) (fs : FS) (path : str) : M (option (list LocationInfo)) :=
  pending ← locate fs path 0;
  seen ← deep_loop fuel fs path pending [];
  mret (option_map (fun d : dict str LocationInfo => filter (fun l => is_manager l = false) (d.*2)) seen).

(** ** Staging *)

Definition prepare (fs : FS) (paths : list str) (stage : option bool) (evict notify fresh : bool) (priority : Z)
    (flags : option Flags.spelled) : M str :=
  targets ← lift (mapM_res (_abs fs) paths);
  options ← lift (Flags.prepare_flags upper stage evict notify fresh flags);
  data ← execute fs (Prepare targets (Z.land options 0xFF) priority 0 (Z.shiftr options 8)) [];
  mret (strip (nul_text data)).

Definition evict (fs : FS) (paths : list str) : M str := prepare fs paths None true false false 0 None.

Definition archive_info (fs : FS) (paths : list str) : M (list PrepareStatus) :=
  infos ← statx fs paths;
  mret ((fun i =>
           let here := Z.land (st_flags i) OTHER =? 0 in
           let offline := is_offline i in
           mkPrepared (st_path i) here (here && offline) (here && negb offline) false false []
             (if here then [] else s_ "no such file")
             (if here then if offline then s_ "NEARLINE" else s_ "ONLINE" else [])) <$> infos).

Definition _truth (value : option json) : bool :=
  match value with
  | None => false
  | Some (JString s) => bool_decide (lower (strip s) ∈ [s_ "1"; s_ "true"; s_ "yes"])
  | Some j => truthy j
  end.

(** [str(entry.get(key, ""))]. *)
Definition field_text (entry : dict str json) (key : str) : str :=
  match dict_get key entry with None => [] | Some (JString s) => s | Some j => json_str j end.

Definition prepared (entry : dict str json) : PrepareStatus :=
  let get k := dict_get (s_ k) entry in
  mkPrepared (field_text entry (s_ "path")) (_truth (get "path_exists"%string)) (_truth (get "on_tape"%string))
    (_truth (get "online"%string)) (_truth (get "requested"%string)) (_truth (get "has_reqid"%string))
    (field_text entry (s_ "req_time")) (field_text entry (s_ "error_text")) (field_text entry (s_ "state")).

(** An entry without [get] raises, and so does what cannot be iterated. *)
Definition parse_prepare_status (data : bytes) : res (list PrepareStatus) :=
  let text := strip (nul_text data) in
  match json_loads (match text with [] => s_ "{}" | _ => text end) with
  | Err e => if is_value_error e then Err ProtocolError else Err e
  | Ok document =>
      let entries := match document with JDict d => default JNull (dict_get (s_ "responses") d) | j => j end in
      if negb (truthy entries) then Ok []
      else match entries with
           | JList l => mapM_res (fun j => match j with JDict d => Ok (prepared d) | _ => Err ProtocolError end) l
           | _ => Err ProtocolError
           end
  end.

Definition query_prepare (fs : FS) (handle : str) (paths : list str) : M (list PrepareStatus) :=
  targets ← lift (mapM_res (_abs fs) paths);
  data ← ask fs kXR_QPrep (join 10 (handle :: targets)) (default [] (head targets));
  lift (parse_prepare_status data).

Definition cancel_prepare (fs : FS) (handle : str) : M unit := execute_ fs (Prepare [handle] 1 0 0 0) [].

(** ** Extended attributes *)

Definition _attr_error (path : str) : exn := ServerExn AttrNotFoundError kXR_AttrNotFound [] (Some path).

Definition _ATTR_ERRNO : dict Z (server_class * Z) :=
  [(17, (ExistsError, kXR_ItExists)); (61, (AttrNotFoundError, kXR_AttrNotFound));
   (2, (NotFoundError, kXR_NotFound)); (13, (PermissionError_, kXR_NotAuthorized))].

(** Raise for the first attribute the server refused. *)
Definition _check_fattr (r : FattrResult) (path : str) : res unit :=
  match list_find (fun i => fi_code i <> 0) (fr_items r) with
  | None => Ok tt
  | Some (_, i) =>
      let '(kind, code) := default (IOError_, kXR_IOError) (dict_get (fi_code i) _ATTR_ERRNO) in
      Err (ServerExn kind code [] (Some path))
  end.

(** A request about attributes of one path. *)
Definition fattr (fs : FS) (path : str) (q : str -> res Request) : M (str * bytes) :=
  target ← lift (_abs fs path);
  q ← lift (q target);
  data ← execute fs q target;
  mret (target, data).

Definition getxattr (fs : FS) (path name : str) : M bytes :=
  '(target, data) ← fattr fs path (fun t => Fattr_get t name NULL_FHANDLE);
  r ← lift (parse_fattr data true);
  match list_find (fun i => fi_code i = 0 /\ is_Some (fi_value i)) (fr_items r) with
  | Some (_, i) => mret (default [] (fi_value i))
  | None => raise (_attr_error target)
  end.

Definition setxattr (fs : FS) (path name : str) (value : bytes) (create_only : bool) : M unit :=
  '(target, data) ← fattr fs path (fun t => Fattr_set t name value create_only NULL_FHANDLE);
  r ← lift (parse_fattr data false); lift (_check_fattr r target).

Definition removexattr (fs : FS) (path name : str) : M unit :=
  '(target, data) ← fattr fs path (fun t => Fattr_delete t name NULL_FHANDLE);
  r ← lift (parse_fattr data false); lift (_check_fattr r target).

Definition listxattr (fs : FS) (path : str) : M (list str) :=
  '(_, data) ← fattr fs path (fun t => Fattr_list t false NULL_FHANDLE false);
  r ← lift (parse_fattr data false); mret (fi_name <$> fr_items r).

Definition listxattr_tree (fs : FS) (path : str) : M (dict str (list str)) :=
  '(_, data) ← fattr fs path (fun t => Fattr_list t false NULL_FHANDLE true); mret (parse_fattr_tree data).

Definition xattrs (fs : FS) (path : str) : M (dict str bytes) :=
  '(_, data) ← fattr fs path (fun t => Fattr_list t true NULL_FHANDLE false);
  r ← lift (parse_fattr data true);
  mret (foldl (fun d i => match fi_value i with Some v => dict_set (fi_name i) v d | None => d end) [] (fr_items r)).
End FileSystem.
End FileSystem.
