(* ===== verification/FsLocate.v ===== *)
(** * Paths and opaque data

    What [FileSystem._abs] makes of a path: where it points, and which opaque
    data goes with it. *)

From S2P Require Import Prelude PyStr Constants Errors Buffer Frames Requests Responses ResponseProps Flags ConfigFile Url UrlText Glob FileClient FileSystem.
From Stdlib Require Import QArith.
Open Scope Z_scope.
Import FileSystem.FileSystem.

(** ** Queries put together *)

Lemma split_all_sep (a b : str) : split_all 0x26 (a ++ 0x26 :: b) = split_all 0x26 a ++ split_all 0x26 b.
Proof.
  induction a as [|x a IH]; [done|]. cbn [app split_all]. case_decide; [by rewrite IH|]. rewrite IH.
  destruct (split_all 0x26 a) as [|h t] eqn:E; [by apply split_all_not_nil in E | done].
Qed.

Lemma parse_qsl_sep a b : parse_qsl (a ++ 0x26 :: b) = parse_qsl a ++ parse_qsl b.
Proof. unfold parse_qsl. by rewrite split_all_sep, omap_app. Qed.

Lemma dict_of_app l1 l2 : dict_of (l1 ++ l2) = foldl (fun d kv => dict_set kv.1 kv.2 d) (dict_of l1) l2.
Proof. unfold dict_of. apply foldl_app. Qed.

Lemma dict_get_foldl k (l : dict str str) : forall d, NoDup (dict_keys l) ->
  dict_get k (foldl (fun d kv => dict_set kv.1 kv.2 d) d l)
  = match dict_get k l with Some v => Some v | None => dict_get k d end.
Proof.
  induction l as [|[k' v] l IH]; intros d Hn; [done|]. cbn [foldl fst snd dict_get dict_keys fmap list_fmap] in *.
  apply NoDup_cons in Hn as [Hnot Hn]. rewrite IH by done. rewrite dict_get_set.
  destruct (decide (k = k')) as [->|Hk]; [|by rewrite (decide_False (P := k' = k))].
  apply dict_get_None_keys in Hnot. by rewrite Hnot, decide_True.
Qed.

Lemma dict_get_filter_notin k (names : list str) (q : dict str str) :
  dict_get k (filter (fun kv => kv.1 ∉ names) q) = if decide (k ∈ names) then None else dict_get k q.
Proof.
  induction q as [|[k' v] q IH]; [by case_decide|]. rewrite filter_cons. cbn [fst].
  destruct (decide (k' ∉ names)) as [Hn|Hn]; cbn [dict_get]; rewrite IH.
  - destruct (decide (k = k')) as [->|]; [by rewrite decide_False | done].
  - destruct (decide (k = k')) as [->|]; [|done]. rewrite !decide_True; [done | | ]; by apply dec_stable.
Qed.

Lemma dict_of_names k (l : list (str * str)) : is_Some (dict_get k (dict_of l)) <-> k ∈ l.*1.
Proof.
  unfold dict_of. enough (H : forall d, is_Some (dict_get k (foldl (fun d kv => dict_set kv.1 kv.2 d) d l))
    <-> k ∈ l.*1 \/ is_Some (dict_get k d)).
  { rewrite H. cbn. split; [intros [|[? [=]]]; done | by left]. }
  induction l as [|[k' v] l IH]; intros d; cbn [foldl fst snd fmap list_fmap].
  - rewrite elem_of_nil. tauto.
  - rewrite IH, dict_get_set, elem_of_cons. case_decide; subst; [|intuition congruence].
    split; [auto|]. intros _. right. by eexists.
Qed.

(** The parameters of a suffix. *)
Definition params (suffix : str) : dict str str := dict_of (parse_qsl (drop 1 suffix)).

Lemma cgi_merges explicit inherited suffix k :
  NoDup (dict_keys inherited) -> _cgi explicit inherited = Ok suffix ->
  dict_get k (params suffix)
  = match dict_get k (dict_of (parse_qsl explicit)) with Some v => Some v | None => dict_get k inherited end.
Proof.
  intros Hn. unfold _cgi, params. set (alone := match explicit with [] => [] | _ => 0x3F :: explicit end).
  assert (Ha : drop 1 alone = explicit) by (by destruct explicit).
  destruct inherited as [|kv inh] eqn:Ei; [intros [= <-]; rewrite Ha; by case_match|].
  rewrite <- Ei in *. clear Ei kv inh. set (named := (parse_qsl explicit).*1).
  set (left_ := filter (fun kv => kv.1 ∉ named) inherited).
  assert (Hl : dict_get k left_ = if decide (k ∈ named) then None else dict_get k inherited)
    by apply dict_get_filter_notin.
  assert (Hln : NoDup (dict_keys left_)).
  { unfold dict_keys in *. eapply sublist_NoDup; [exact Hn|]. apply fmap_sublist, sublist_filter. }
  assert (Hs : forall d, d = dict_of (parse_qsl explicit) ->
    match dict_get k left_ with Some v => Some v | None => dict_get k d end
    = match dict_get k d with Some v => Some v | None => dict_get k inherited end).
  { intros d ->. rewrite Hl. pose proof (dict_of_names k (parse_qsl explicit)) as Hk. fold named in Hk.
    destruct (decide (k ∈ named)) as [Hin|Hin].
    - apply Hk in Hin as [v ->]. done.
    - destruct (dict_get k (dict_of (parse_qsl explicit))) eqn:E; [exfalso; by apply Hin, Hk|]. by case_match. }
  destruct (urlencode left_) as [extra|] eqn:Eu; [|done]. cbn [mbind result_bind]. intros [= <-].
  destruct left_ as [|kv l] eqn:El.
  { assert (extra = []) as -> by (by injection Eu as <-). rewrite Ha. rewrite <- (Hs _ eq_refl). done. }
  rewrite <- El in *. apply parse_qsl_urlencode in Eu as [Hne Hq]; [|by rewrite El].
  destruct extra as [|x extra]; [done|].
  destruct explicit as [|c explicit].
  - cbn [drop]. rewrite Hq. rewrite dict_of_nodup by done. rewrite <- (Hs _ eq_refl). by case_match.
  - change (drop 1 (0x3F :: (c :: explicit) ++ 0x26 :: x :: extra)) with ((c :: explicit) ++ 0x26 :: x :: extra).
    rewrite parse_qsl_sep, Hq, dict_of_app, dict_get_foldl by done. by apply Hs.
Qed.

(** ** Normal paths *)

Lemma join_elem (c : Z) (parts : list str) : c ∈ join 0x2F parts -> c = 0x2F \/ exists p, p ∈ parts /\ c ∈ p.
Proof.
  induction parts as [|p parts IH]; [by intros ?%elem_of_nil|]. rewrite join_cons. destruct parts as [|q parts].
  - intros Hc. right. exists p. split; [by left | done].
  - rewrite elem_of_app, elem_of_cons. intros [Hc|[->|Hc]]; [right; exists p; split; [by left | done] | by left|].
    destruct (IH Hc) as [->|(x & Hx & Hcx)]; [by left|]. right. exists x. split; [by right | done].
Qed.

Lemma split_all_elem (c : Z) (l p : str) : p ∈ split_all 0x2F l -> c ∈ p -> c ∈ l.
Proof.
  revert p. induction l as [|x l IH]; intros p; cbn [split_all].
  - by intros ->%list_elem_of_singleton.
  - case_decide.
    + rewrite elem_of_cons. intros [->|Hp] Hc; [by apply elem_of_nil in Hc|]. right. by eapply IH.
    + destruct (split_all 0x2F l) as [|h t] eqn:E; [by apply split_all_not_nil in E|].
      rewrite elem_of_cons. intros [->|Hp] Hc.
      * apply elem_of_cons in Hc as [->|Hc]; [by left|]. right. eapply IH; [by left | done].
      * right. eapply IH; [by right | done].
Qed.

Lemma norm_step_elem rooted acc comp p : p ∈ norm_step rooted acc comp -> p ∈ acc \/ p = comp.
Proof.
  unfold norm_step. destruct (_ || _); [by left|]. destruct (_ || _ || _).
  - rewrite elem_of_cons. tauto.
  - destruct acc; [by intros ?%elem_of_nil|]. intros Hp. left. by right.
Qed.

Lemma norm_fold_elem rooted comps : forall acc p, p ∈ foldl (norm_step rooted) acc comps -> p ∈ acc \/ p ∈ comps.
Proof.
  induction comps as [|c comps IH]; intros acc p; cbn [foldl]; [by left|]. intros [Hp|Hp]%IH; [|by right; right].
  apply norm_step_elem in Hp as [Hp| ->]; [by left | by right; left].
Qed.

(** [normpath] brings in nothing but separators and dots. *)
Lemma normpath_elem c path : c ∈ normpath path -> c ∈ path \/ c = 0x2F \/ c = 0x2E.
Proof.
  unfold normpath. destruct path as [|x l]; [change DOT with [0x2E]; intros ->%list_elem_of_singleton; auto|]. set (path := x :: l).
  set (comps := reverse _). intros Hc.
  assert (Hc' : c ∈ replicate (initial_slashes path) 0x2F ++ join 0x2F comps \/ c = 0x2E).
  { destruct (replicate _ _ ++ _); [right; change DOT with [0x2E] in Hc; by apply list_elem_of_singleton in Hc | by left]. }
  destruct Hc' as [Hc'| ->]; [|auto]. apply elem_of_app in Hc' as [Hr|Hj]; [by apply elem_of_replicate in Hr as [-> _]; auto|].
  apply join_elem in Hj as [->|(p & Hp & Hcp)]; [auto|]. left. unfold comps in Hp. rewrite elem_of_reverse in Hp.
  apply norm_fold_elem in Hp as [Hp|Hp]; [by apply elem_of_nil in Hp|]. by eapply split_all_elem.
Qed.

Lemma normpath_absolute path : startswith [0x2F] path = true -> startswith [0x2F] (normpath path) = true.
Proof.
  intros Hs. unfold normpath. destruct path as [|x l]; [done|].
  assert (exists n, initial_slashes (x :: l) = S n) as (n & ->).
  { unfold initial_slashes. rewrite Hs. destruct (_ && _); by eexists. }
  done.
Qed.

(** ** What [_abs] returns *)

Lemma cgi_shape explicit inherited suffix :
  _cgi explicit inherited = Ok suffix -> suffix = [] \/ exists c, suffix = 0x3F :: c.
Proof.
  unfold _cgi. destruct inherited.
  - intros [= <-]. destruct explicit; [by left | right; by eexists].
  - destruct (urlencode _) as [e|]; [|done]. cbn [mbind result_bind]. intros [= <-].
    destruct e, explicit; try (right; by eexists). by left.
Qed.

Lemma split_cgi_app base suffix :
  0x3F ∉ base -> (suffix = [] \/ exists c, suffix = 0x3F :: c) -> _split_cgi (base ++ suffix) = (base, suffix).
Proof.
  intros Hb [->|(c & ->)]; unfold _split_cgi; [|by rewrite partition_app].
  by rewrite app_nil_r, partition_none.
Qed.

(** Where a path points, before it is normalised. *)
Definition resolved (url_path path : str) : str :=
  let base := until 0x3F path in
  if startswith [0x2F] base then base else path_join (match url_path with [] => [0x2F] | p => p end) [base].

Lemma startswith_app (a b : str) : startswith [0x2F] a = true -> startswith [0x2F] (a ++ b) = true.
Proof. by destruct a. Qed.

Lemma path_join_one a b :
  path_join a [b] = (if startswith [0x2F] b then b
                     else if bool_decide (a = []) || endswith [0x2F] a then a ++ b else a ++ 0x2F :: b).
Proof. done. Qed.

Lemma resolved_plain url_path path : 0x3F ∉ url_path -> 0x3F ∉ resolved url_path path.
Proof.
  intros Hu. unfold resolved. pose proof (until_not_in 0x3F path) as Hb.
  destruct (startswith _ (until _ _)); [done|]. rewrite path_join_one.
  assert (0x3F ∉ match url_path with [] => [0x2F] | p => p end) as Hp.
  { destruct url_path; [|done]. rewrite list_elem_of_singleton. lia. }
  destruct (startswith _ (until _ _)); [done|]. destruct (_ || _); rewrite elem_of_app, ?elem_of_cons; intuition lia.
Qed.

Lemma resolved_absolute url_path path :
  startswith [0x2F] url_path = true \/ url_path = [] -> startswith [0x2F] (resolved url_path path) = true.
Proof.
  intros Hu. unfold resolved. destruct (startswith _ (until 0x3F path)) eqn:E; [done|]. rewrite path_join_one, E.
  assert (startswith [0x2F] (match url_path with [] => [0x2F] | p => p end) = true) by (by destruct Hu as [Hu| ->]; [destruct url_path|]).
  destruct (_ || _); by apply startswith_app.
Qed.

Section Abs.
Context {R : Type}.
Implicit Types fs : FileSystem R.

Lemma abs_eq fs path :
  _abs fs path = (suffix ← _cgi (partition 0x3F path).2 (u_query (fs_url fs));
                  Ok (normpath (resolved (u_path (fs_url fs)) path) ++ suffix)).
Proof.
  unfold _abs, resolved, until. destruct (partition 0x3F path) as [[base sep] cgi] eqn:E.
  apply partition_spec in E. cbn [fst snd]. destruct sep; [|destruct E as (_ & _ & ->)]; by destruct (u_path (fs_url fs)).
Qed.

(** Resolving a path never loses a parameter: [_abs] gives an absolute path
    - the one named, or the file system's own joined with it - followed by its
    opaque data, in which every parameter the caller spelled out has the
    caller's value and every other one of the file system's URL has its own. *)
Theorem abs_resolves fs path t :
  startswith [0x2F] (u_path (fs_url fs)) = true \/ u_path (fs_url fs) = [] ->
  0x3F ∉ u_path (fs_url fs) -> NoDup (dict_keys (u_query (fs_url fs))) ->
  _abs fs path = Ok t ->
  exists base suffix,
    t = base ++ suffix /\ _split_cgi t = (base, suffix)
    /\ base = normpath (resolved (u_path (fs_url fs)) path) /\ startswith [0x2F] base = true
    /\ forall k, dict_get k (params suffix)
         = match dict_get k (dict_of (parse_qsl (partition 0x3F path).2)) with
           | Some v => Some v
           | None => dict_get k (u_query (fs_url fs))
           end.
Proof.
  intros Ha Hp Hn. rewrite abs_eq. destruct (_cgi _ _) as [suffix|] eqn:E; [|done]. cbn [mbind result_bind]. intros [= <-].
  eexists _, suffix. split; [done|]. split; [|split; [done|split]].
  - apply split_cgi_app; [|by eapply cgi_shape]. intros [Hc|[|]]%normpath_elem; [|lia..]. by apply resolved_plain in Hc.
  - by apply normpath_absolute, resolved_absolute.
  - intros k. by apply cgi_merges.
Qed.
End Abs.

Definition demo_fs : FileSystem unit :=
  mkFS (mkURL (s_ "root") (s_ "h") 1094 (s_ "/store/user") [] [] [(s_ "authz", s_ "tok"); (s_ "x", s_ "1")])
    (let c := factory (s_ "me") in let c := c <| c_chunk_size := 3 |> in c <| c_max_read_size := 9 |>) tt.

Lemma abs_resolves_witness :
  exists t, _abs demo_fs (s_ "../b//c?x=2") = Ok t /\ t = s_ "/store/b/c?x=2&authz=tok"
    /\ exists base suffix, _split_cgi t = (base, suffix) /\ dict_get (s_ "x") (params suffix) = Some (s_ "2").
Proof.
  eexists. split; [vm_compute; reflexivity|]. split; [vm_compute; reflexivity|].
  destruct (abs_resolves demo_fs (s_ "../b//c?x=2") (s_ "/store/b/c?x=2&authz=tok")) as (base & suffix & _ & E & _ & _ & Hk);
    [left; vm_compute; reflexivity | apply (bool_decide_unpack _); by vm_compute | apply (bool_decide_unpack _); by vm_compute
    | vm_compute; reflexivity|].
  exists base, suffix. split; [exact E|]. rewrite Hk. vm_compute. reflexivity.
Defined.

(** ** Looking for a file

    [deep_locate] asks managers for the servers below them, and managers may
    name each other; listings carry the path they were asked for. *)

Open Scope Z_scope.
Import FileSystem.FileSystem.

Lemma filter_shrinks {A} (P Q : A -> Prop) `{!forall x, Decision (P x), !forall x, Decision (Q x)} l a :
  (forall x, Q x -> P x) -> a ∈ l -> P a -> ~ Q a -> (length (filter Q l) < length (filter P l))%nat.
Proof.
  intros Hqp Ha Hp Hq. assert (Hle : forall k, (length (filter Q k) <= length (filter P k))%nat).
  { induction k as [|x k IH]; [done|]. rewrite !filter_cons. repeat case_decide; cbn; try lia. exfalso. auto. }
  induction l as [|x l IH]; [by apply elem_of_nil in Ha|]. rewrite !filter_cons. apply elem_of_cons in Ha as [<-|Ha].
  - rewrite (decide_True (P := P a)), (decide_False (P := Q a)) by done. cbn. pose proof (Hle l). lia.
  - apply IH in Ha. repeat case_decide; cbn; try lia. exfalso. auto.
Qed.

Section Locate.
Context {R W : Type} `{RouterEnv R W}.
Variable lower : str -> str.
Implicit Types fs : FileSystem R.

(** Every server answers with addresses of [known], at most [most] at a time. *)
Variable known : list str.
Variable most : nat.
Definition Answers : Prop := forall r target options path w w' data,
  rt_execute r (Locate target options) path w = (w', Ok data) ->
  Forall (fun l => loc_address l ∈ known) (parse_locate data) /\ (length (parse_locate data) <= most)%nat.
Hypothesis answers : Answers.

Definition listed (l : list LocationInfo) : Prop := Forall (fun l => loc_address l ∈ known) l /\ (length l <= most)%nat.

Lemma locate_listed fs path options w w' l : locate fs path options w = (w', Ok l) -> listed l.
Proof.
  unfold locate, execute. intros E. rewrite st_bind_eq in E. unfold lift in E.
  destruct (_abs fs path) as [t|]; [|done]. rewrite st_bind_eq in E.
  destruct (rt_execute _ _ _ _) as [w1 [data|e]] eqn:Er; [|done]. cbn in E. injection E as _ <-.
  by apply answers in Er.
Qed.

Lemma ask_manager_listed fs path l w w' found : ask_manager lower fs path l w = (w', Ok found) -> listed found.
Proof.
  unfold ask_manager. intros E. rewrite st_bind_eq in E. unfold lift in E.
  destruct (loc_port l) as [port|]; [|done]. unfold ask_at in E.
  destruct (FileSystem_init _ _ _) as [child w1]. destruct (locate child path 0 w1) as [w2 [f|e]] eqn:El.
  - injection E as _ <-. by eapply locate_listed.
  - destruct (is_os_error e); [|done]. injection E as _ <-. split; [by constructor | cbn; lia].
Qed.

(** The addresses not yet seen. *)
Definition unseen (seen : dict str LocationInfo) : nat := length (filter (fun a => dict_get a seen = None) known).

Lemma unseen_set a l seen : a ∈ known -> dict_get a seen = None -> (unseen (dict_set a l seen) < unseen seen)%nat.
Proof.
  intros Ha Hs. eapply filter_shrinks; [|exact Ha|exact Hs|].
  - intros x. rewrite dict_get_set. by case_decide.
  - by rewrite dict_get_set_eq.
Qed.

Lemma unseen_replace a l seen : is_Some (dict_get a seen) -> unseen (dict_set a l seen) = unseen seen.
Proof.
  intros Hs. unfold unseen. f_equal. apply list_filter_iff. intros x. rewrite dict_get_set.
  case_decide; [subst; destruct Hs as [v ->] | done]. split; discriminate.
Qed.

(** What has been seen is filed under its address, once. *)
Definition filed (seen : dict str LocationInfo) : Prop :=
  NoDup (dict_keys seen) /\ Forall (fun kv => loc_address kv.2 = kv.1) seen.

Lemma filed_set l seen : filed seen -> filed (dict_set (loc_address l) l seen).
Proof.
  intros [Hn Hf]. split.
  - by apply dict_set_NoDup.
  - induction seen as [|[k v] seen IH]; cbn [dict_set]; [by repeat constructor|].
    apply Forall_cons in Hf as [Hk Hf]. cbn [dict_keys fmap list_fmap] in Hn. apply NoDup_cons in Hn as [_ Hn].
    case_decide; constructor; auto.
Qed.

Lemma deep_loop_ends fuel fs path : forall pending seen w,
  (length pending + most * unseen seen < fuel)%nat -> Forall (fun l => loc_address l ∈ known) pending -> filed seen ->
  match (deep_loop lower fuel fs path pending seen w).2 with
  | Ok None => False
  | Ok (Some seen') => filed seen'
  | Err _ => True
  end.
Proof.
  induction fuel as [|fuel IH]; intros pending seen w Hf Hp Hs; [lia|]. cbn [deep_loop].
  destruct pending as [|l pending _] using rev_ind; [exact Hs|]. rewrite last_snoc, removelast_last.
  apply Forall_app in Hp as [Hp [Hl _]%Forall_cons]. rewrite length_app in Hf. cbn [length] in Hf.
  destruct (dict_get (loc_address l) seen) as [old|] eqn:Eg.
  - apply IH; [|done|by case_match; [apply filed_set|]].
    destruct (_ && _); [rewrite unseen_replace by (by eexists)|]; lia.
  - pose proof (unseen_set _ l seen Hl Eg) as Hu. destruct (is_manager l).
    + rewrite st_bind_eq. destruct (ask_manager _ _ _ _ _) as [w1 [found|e]] eqn:Ea; [|done].
      apply ask_manager_listed in Ea as [Hk Hm]. apply IH; [|by apply Forall_app|by apply filed_set].
      rewrite length_app. nia.
    + apply IH; [nia | done | by apply filed_set].
Qed.

(** C37: looking for a file ends, however the managers refer to each other: with
    finitely many addresses and answers of bounded length, [deep_locate]
    returns or raises within the fuel; and what it returns are servers, each
    of them once. *)
Theorem deep_locate_ends fuel fs path w :
  (most * (1 + length known) < fuel)%nat ->
  match (deep_locate lower fuel fs path w).2 with
  | Ok None => False
  | Ok (Some found) => Forall (fun l => is_manager l = false) found /\ NoDup (loc_address <$> found)
  | Err _ => True
  end.
Proof.
  intros Hf. unfold deep_locate. rewrite st_bind_eq. destruct (locate _ _ _ _) as [w1 [l|e]] eqn:El; [|done].
  apply locate_listed in El as [Hk Hm]. rewrite st_bind_eq.
  assert (Hu : (unseen [] <= length known)%nat) by apply length_filter.
  pose proof (deep_loop_ends fuel fs path l [] w1 ltac:(nia) Hk ltac:(by repeat constructor)) as Hd.
  destruct (deep_loop _ _ _ _ _ _ _) as [w2 [[seen|]|e]]; [|done|done]. cbn in *. destruct Hd as [Hn Ha].
  split; [by apply Forall_filter_2 || apply Forall_forall; intros x Hx%list_elem_of_filter; tauto|].
  eapply sublist_NoDup; [|apply fmap_sublist, sublist_filter].
  assert (loc_address <$> seen.*2 = dict_keys seen) as ->; [|done].
  clear Hn. unfold dict_keys. induction Ha as [|[k v] seen Hkv _ IH]; [done|]. cbn in *. by rewrite IH, Hkv.
Qed.
End Locate.

(** Two managers that name each other, and a server. *)
#[export] Instance circular : RouterEnv str unit := {
  rt_new u _ w := (u_host u, w);
  rt_execute _ _ _ w := (w, Ok (b_ "Mra:1094 Mrb:1094 Srs:1094"));
  rt_arrives _ w := (w, Ok None);
  rt_on_path _ _ _ w := (w, Err ProtocolError);
  rt_bind_data_path _ w := (w, Ok 0);
  rt_pin r _ w := (r, w);
  rt_close _ w := w;
  rt_discard _ w := w;
  rt_same_session _ _ w := (w, Ok true)
}.

Definition circular_fs : FileSystem str := mkFS (fs_url demo_fs) (fs_config demo_fs) (s_ "a").

Lemma circular_answers : Answers [s_ "a:1094"; s_ "b:1094"; s_ "s:1094"] 3.
Proof.
  intros r target options path w w' data E.
  assert (data = b_ "Mra:1094 Mrb:1094 Srs:1094") as -> by (cbn [rt_execute circular] in E; congruence).
  split; [apply (bool_decide_unpack _); by vm_compute | apply Nat.leb_le; by vm_compute].
Qed.

Lemma deep_locate_ends_witness :
  match (deep_locate id 13 circular_fs (s_ "/f") tt).2 with
  | Ok (Some found) => (loc_address <$> found) = [s_ "s:1094"] /\ NoDup (loc_address <$> found)
  | _ => False
  end.
Proof.
  pose proof (deep_locate_ends id _ _ circular_answers 13%nat circular_fs (s_ "/f") tt
    ltac:(apply Nat.ltb_lt; reflexivity)) as H13.
  destruct (deep_locate _ _ _ _ _) as [w [[found|]|e]] eqn:E; [|done|vm_compute in E; discriminate E].
  split; [|apply H13]. vm_compute in E. injection E as _ <-. vm_compute. reflexivity.
Defined.

(** ** Listings and their paths *)

Lemma cgi_nonempty explicit inherited suffix :
  inherited <> [] -> _cgi explicit inherited = Ok suffix -> exists c, suffix = 0x3F :: c.
Proof.
  intros Hi E. destruct (cgi_shape _ _ _ E) as [->|Hc]; [exfalso|done]. unfold _cgi in E.
  destruct inherited as [|kv inh]; [done|]. set (left_ := filter _ _) in E.
  destruct (urlencode left_) as [extra|] eqn:Eu; [|done]. cbn [mbind result_bind] in E.
  destruct extra as [|x extra]; [|by destruct explicit]. destruct explicit as [|c explicit]; [|done].
  assert (left_ <> []) as Hl.
  { unfold left_. rewrite filter_cons. cbn. rewrite decide_True; [done | apply not_elem_of_nil]. }
  by apply parse_qsl_urlencode in Eu as [? _].
Qed.

Lemma rstrip_elem (p : Z -> bool) c (l : str) : c ∈ l -> p c = false -> c ∈ rstrip_by p l.
Proof.
  intros Hc Hp. unfold rstrip_by. rewrite elem_of_reverse. apply elem_of_reverse in Hc. revert Hc.
  generalize (reverse l). intros k. induction k as [|x k IH]; [done|]. intros [->|Hk]%elem_of_cons; cbn [lstrip_by].
  - rewrite Hp. by left.
  - destruct (p x); [by apply IH | by right].
Qed.

Section Listing.
Context {R W : Type} `{RouterEnv R W}.
Variable upper lower : str -> str.
Implicit Types fs : FileSystem R.

(** The path of a listing entry is not where the entry is, once the listing
    was asked for with opaque data - a token on the URL, a checksum algorithm:
    the query stays in the middle of every [DirEntry.path]. *)
Theorem scandir_path_broken fs path stat_ online algorithm flags w w' es :
  algorithm <> [] \/ u_query (fs_url fs) <> [] ->
  scandir upper lower fs path stat_ online algorithm flags w = (w', Ok es) ->
  Forall (fun e => exists dir, direntry_path e = dir ++ 0x2F :: de_name e /\ 0x3F ∈ dir) es.
Proof.
  intros Hq E. unfold scandir, execute, lift in E. rewrite st_bind_eq in E.
  destruct (_abs fs (or_root path)) as [t|] eqn:Ea; [|done]. rewrite st_bind_eq in E.
  destruct (Flags.dirlist_flags _ _ _ _ _) as [options|]; [|done]. cbv zeta in E.
  set (target := match algorithm with [] => t | _ => _ end) in E.
  assert (Ht : 0x3F ∈ target).
  { unfold target. destruct Hq as [Ha|Hq].
    - destruct algorithm as [|a algorithm]; [done|]. unfold cks_type, contains. rewrite elem_of_app, elem_of_cons.
      case_bool_decide; auto.
    - rewrite abs_eq in Ea. destruct (_cgi _ _) as [suffix|] eqn:Ec; [|done]. injection Ea as <-.
      apply cgi_nonempty in Ec as (c & ->); [|done].
      destruct algorithm; unfold cks_type; rewrite !elem_of_app, !elem_of_cons; auto. }
  rewrite st_bind_eq in E. destruct (rt_execute _ _ _ _) as [w1 [data|e]]; [|done]. injection E as _ E.
  apply dirlist_confined in E. eapply Forall_impl; [exact E|]. intros e (_ & _ & ->%eq_sym).
  unfold direntry_path, entry_path. destruct (de_parent e) as [|x l] eqn:Ep; [by apply elem_of_nil in Ht|].
  eexists. split; [done|]. by apply rstrip_elem.
Qed.
End Listing.

(** A directory with one file. *)
#[export] Instance one_file : RouterEnv unit unit := {
  rt_new _ _ w := (tt, w);
  rt_execute _ _ _ w := (w, Ok (b_ "f.root"));
  rt_arrives _ w := (w, Ok None);
  rt_on_path _ _ _ w := (w, Err ProtocolError);
  rt_bind_data_path _ w := (w, Ok 0);
  rt_pin r _ w := (r, w);
  rt_close _ w := w;
  rt_discard _ w := w;
  rt_same_session _ _ w := (w, Ok true)
}.

Definition plain_fs : FileSystem unit :=
  mkFS (mkURL (s_ "root") (s_ "h") 1094 (s_ "/") [] [] []) (fs_config demo_fs) tt.

Lemma scandir_path_broken_witness :
  exists es, (scandir id id plain_fs (s_ "/store") true false (s_ "adler32") None tt).2 = Ok es
    /\ (direntry_path <$> es) = [s_ "/store?cks.type=adler32/f.root"]
    /\ Forall (fun e => exists dir, direntry_path e = dir ++ 0x2F :: de_name e /\ 0x3F ∈ dir) es.
Proof.
  eexists. split; [vm_compute; reflexivity|]. split; [vm_compute; reflexivity|].
  eapply (scandir_path_broken id id plain_fs (s_ "/store") true false (s_ "adler32") None tt tt);
    [left; discriminate | vm_compute; reflexivity].
Defined.
