(* ===== verification/FsTree.v ===== *)
(** * Removing a directory tree

    [FileSystem.rmtree] against a server that keeps a tree of names: what
    [walk] lists, and the order in which things are removed, leave nothing of
    the tree and everything else. *)

From S2P Require Import Prelude PyStr Constants Errors Buffer Frames Requests Responses ResponseProps Flags ConfigFile Url UrlText Glob FileClient FileSystem FsLocate.
Open Scope Z_scope.
Import FileSystem.FileSystem.

(** ** Opaque data is carried once *)

Lemma filter_none {A} (P : A -> Prop) `{!forall x, Decision (P x)} l : (forall x, x ∈ l -> ~ P x) -> filter P l = [].
Proof.
  induction l as [|x l IH]; intros Hl; [done|]. rewrite filter_cons, decide_False by (apply Hl; by left).
  apply IH. intros y Hy. apply Hl. by right.
Qed.

Lemma cgi_stable explicit inherited suffix :
  NoDup (dict_keys inherited) -> _cgi explicit inherited = Ok suffix -> _cgi (drop 1 suffix) inherited = Ok suffix.
Proof.
  intros Hn E. pose proof (fun k => cgi_merges _ _ _ k Hn E) as Hm.
  destruct inherited as [|kv inh].
  { unfold _cgi in *. injection E as <-. by destruct explicit. }
  destruct (cgi_nonempty explicit (kv :: inh) suffix ltac:(done) E) as (c & ->).
  assert (Hall : forall k, k ∈ dict_keys (kv :: inh) -> k ∈ (parse_qsl c).*1).
  { intros k Hk%dict_get_keys. apply dict_of_names. change (dict_of (parse_qsl c)) with (params (0x3F :: c)).
    rewrite Hm. by case_match. }
  assert (Hc : c <> []).
  { intros ->. pose proof (Hall kv.1 ltac:(by left)) as Hk. by apply elem_of_nil in Hk. }
  cbn [drop]. unfold _cgi. rewrite (filter_none _ (kv :: inh)); [by destruct c|].
  intros x Hx Hnot. apply Hnot, Hall. by apply list_elem_of_fmap_2.
Qed.

(** ** Paths *)

(** A name the paths of a namespace are made of. *)
Definition name_ok (n : str) : Prop := plain_component n /\ 0x3F ∉ n.

Lemma rooted_plain p : Forall name_ok p -> 0x3F ∉ rooted p.
Proof.
  intros Hp. unfold rooted. rewrite elem_of_cons. intros [|Hc]; [lia|].
  apply join_elem in Hc as [|(x & Hx & Hc)]; [lia|]. rewrite Forall_forall in Hp. by apply Hp in Hx as [_ ?].
Qed.

Lemma names_plain p : Forall name_ok p -> Forall plain_component p.
Proof. intros H. eapply Forall_impl; [exact H|]. by intros ? [? _]. Qed.

Lemma rooted_snoc d n : Forall name_ok d -> name_ok n -> path_join (rooted d) [n] = rooted (d ++ [n]).
Proof.
  intros Hd [(Hn & _ & _ & Hs) _]. rewrite path_join_one.
  assert (startswith [0x2F] n = false) as ->.
  { destruct n as [|x n]; [done|]. cbn. rewrite bool_decide_eq_false_2; [done|]. intros <-. apply Hs. by left. }
  destruct d as [|x d]; [done|]. rewrite rooted_ends by (done || by apply names_plain). cbn [orb bool_decide].
  rewrite bool_decide_eq_false_2 by done. cbn [orb]. unfold rooted. cbn [app].
  change (x :: d ++ [n]) with ((x :: d) ++ [n]). f_equal. clear. revert x. induction d as [|y d IH]; intros x; [done|].
  cbn [app]. rewrite !(join_cons x). change (y :: d ++ [n]) with ((y :: d) ++ [n]). rewrite <- IH. cbn [app].
  by rewrite <- app_assoc.
Qed.

Section Abs.
Context {R : Type}.
Implicit Types fs : FileSystem R.

(** A path [_abs] gave is one it leaves alone. *)
Lemma abs_rooted fs path p cgi :
  NoDup (dict_keys (u_query (fs_url fs))) ->
  _cgi (partition 0x3F path).2 (u_query (fs_url fs)) = Ok cgi ->
  Forall name_ok p -> _abs fs (rooted p ++ cgi) = Ok (rooted p ++ cgi).
Proof.
  intros Hn Hc Hp. pose proof (rooted_plain p Hp) as Hq. rewrite abs_eq.
  assert (partition 0x3F (rooted p ++ cgi) = (rooted p, match cgi with [] => false | _ => true end, drop 1 cgi)) as E.
  { destruct (cgi_shape _ _ _ Hc) as [->|(c & ->)]; [by rewrite app_nil_r, partition_none | by rewrite partition_app]. }
  unfold resolved, until. rewrite E. cbn [fst snd]. rewrite (cgi_stable _ _ _ Hn Hc). cbn [mbind result_bind].
  change (startswith [0x2F] (rooted p)) with true. cbv iota. by rewrite normpath_id by (by apply names_plain).
Qed.
End Abs.

(** ** A server that keeps a tree *)

Section Tree.
Context {R W : Type} `{RouterEnv R W}.
Variable upper lower : str -> str.
Variable fs : FileSystem R.
Variable cgi : str.

(** [ns w p]: what is at [p] - a directory, a file or nothing. *)
Variable ns : W -> list str -> option bool.
Definition at_ (p : list str) : str := rooted p ++ cgi.

(** The requests a removal makes, and what they do to the tree: a directory
    lists its children, a file can be removed, and so can an empty directory. *)
Record Namespace : Prop := {
  ns_names : forall w p b, ns w p = Some b -> Forall name_ok p;
  ns_tree : forall w p n b, ns w (p ++ [n]) = Some b -> ns w p = Some true;
  ns_list : forall w d, ns w d = Some true ->
    exists w' data es,
      rt_execute (fs_router fs) (Dirlist (at_ d) 2) (at_ d) w = (w', Ok data)
      /\ parse_dirlist lower data (at_ d) true = Ok es
      /\ (forall q, ns w' q = ns w q)
      /\ NoDup (de_name <$> es)
      /\ forall n b, ns w (d ++ [n]) = Some b <-> exists e, e ∈ es /\ de_name e = n /\ entry_is_dir e = b;
  ns_remove : forall w p, ns w p = Some false ->
    exists w' data, rt_execute (fs_router fs) (Rm (at_ p)) (at_ p) w = (w', Ok data)
      /\ forall q, ns w' q = if decide (q = p) then None else ns w q;
  ns_rmdir : forall w p, ns w p = Some true -> (forall n, ns w (p ++ [n]) = None) ->
    exists w' data, rt_execute (fs_router fs) (Rmdir (at_ p)) (at_ p) w = (w', Ok data)
      /\ forall q, ns w' q = if decide (q = p) then None else ns w q
}.
Hypothesis server : Namespace.
Hypothesis stable : forall p, Forall name_ok p -> _abs fs (at_ p) = Ok (at_ p).

(** [w'] is [w] without what [P] holds of. *)
Definition pruned (P : list str -> Prop) (w w' : W) : Prop :=
  forall q, (P q -> ns w' q = None) /\ (~ P q -> ns w' q = ns w q).

Lemma pruned_sub P w w' q b : pruned P w w' -> ns w' q = Some b -> ns w q = Some b.
Proof.
  intros Hp E. destruct (Hp q) as [H1 H2]. rewrite <- H2; [done|]. intros HP. by rewrite H1 in E.
Qed.

Lemma pruned_trans P Q w w1 w2 : pruned P w w1 -> pruned Q w1 w2 -> pruned (fun q => P q \/ Q q) w w2.
Proof.
  intros H1 H2 q. destruct (H1 q) as [A1 A2], (H2 q) as [B1 B2]. split.
  - intros [HP|HQ]; [|auto]. destruct (ns w2 q) eqn:E; [|done]. apply (pruned_sub _ _ _ _ _ H2) in E.
    by rewrite A1 in E.
  - intros Hn. rewrite B2, A2 by tauto. done.
Qed.

Lemma pruned_iff P Q w w' : (forall q, P q <-> Q q) -> pruned P w w' -> pruned Q w w'.
Proof. intros Hpq Hp q. destruct (Hp q) as [H1 H2]. rewrite <- Hpq. by split. Qed.

(** Below a directory, and not the directory itself. *)
Definition beneath (d q : list str) : Prop := exists n r, q = d ++ n :: r.

Lemma ancestors w d n r b : ns w (d ++ n :: r) = Some b -> exists b', ns w (d ++ [n]) = Some b' /\ (r <> [] -> b' = true).
Proof.
  revert b. induction r as [|x r IH] using rev_ind; intros b E; [by exists b|].
  change (n :: r ++ [x]) with ((n :: r) ++ [x]) in E. rewrite app_assoc in E. apply (ns_tree server) in E.
  destruct (IH _ E) as (b' & Hb & Hr). exists b'. split; [done|]. intros _. destruct r; [congruence|]. by apply Hr.
Qed.

(** One removal, by its path under [d]. *)
Lemma on_path_at d n (q : str -> Request) w w' data :
  Forall name_ok d -> name_ok n -> rt_execute (fs_router fs) (q (at_ (d ++ [n]))) (at_ (d ++ [n])) w = (w', Ok data) ->
  on_path fs (path_join (rooted d) [n] ++ cgi) q w = (w', Ok tt).
Proof.
  intros Hd Hn E. unfold on_path, execute_, execute. rewrite rooted_snoc by done. change (rooted (d ++ [n]) ++ cgi) with (at_ (d ++ [n])).
  rewrite stable by (apply Forall_app; auto). unfold lift. rewrite !st_bind_eq. by rewrite E.
Qed.

Lemma ignoring_ok ig (c : st exn W unit) w w' : c w = (w', Ok tt) -> ignoring ig c w = (w', Ok tt).
Proof. intros E. unfold ignoring, try_. by rewrite E. Qed.

Lemma one_iff d n ns_ q : (q = d ++ [n] \/ exists m, m ∈ ns_ /\ q = d ++ [m]) <-> exists m : str, m ∈ n :: ns_ /\ q = d ++ [m].
Proof.
  split.
  - intros [->|(m & Hm & ->)]; [exists n; split; [by left | done] | exists m; split; [by right | done]].
  - intros (m & [->|Hm]%elem_of_cons & ->); [by left | right; by exists m].
Qed.

Lemma decide_pruned w w' p : (forall q, ns w' q = if decide (q = p) then None else ns w q) -> pruned (fun q => q = p) w w'.
Proof. intros Hw q. rewrite Hw. split; intros; [by rewrite decide_True | by rewrite decide_False]. Qed.

(** A loop of removals, each of what is there and can go. *)
Lemma for_removes d ig (c : str -> Request) (can : W -> list str -> Prop) :
  (forall w p, can w p -> exists w' data, rt_execute (fs_router fs) (c (at_ p)) (at_ p) w = (w', Ok data)
     /\ forall q, ns w' q = if decide (q = p) then None else ns w q) ->
  (forall w w' n n', n <> n' -> can w (d ++ [n]) -> pruned (fun q => q = d ++ [n']) w w' -> can w' (d ++ [n])) ->
  Forall name_ok d -> forall names w,
  NoDup names -> Forall name_ok names -> (forall n, n ∈ names -> can w (d ++ [n])) ->
  exists w', for_ (fun n => ignoring ig (on_path fs (path_join (rooted d) [n] ++ cgi) c)) names w = (w', Ok tt)
    /\ pruned (fun q => exists n, n ∈ names /\ q = d ++ [n]) w w'.
Proof.
  intros Hdo Hkeep Hd. induction names as [|n names IH]; intros w Hn Hok Hcan.
  { exists w. split; [done|]. intros q. split; [|done]. by intros (n & ?%elem_of_nil & _). }
  apply NoDup_cons in Hn as [Hnot Hn]. apply Forall_cons in Hok as [Hok1 Hok].
  destruct (Hdo w (d ++ [n])) as (w1 & data & E & Hw1%decide_pruned); [apply Hcan; by left|].
  destruct (IH w1 Hn Hok) as (w2 & E2 & Hw2).
  { intros m Hm. eapply Hkeep; [|apply Hcan; by right | exact Hw1]. by intros ->. }
  exists w2. split; [|eapply pruned_iff; [apply one_iff | by eapply pruned_trans]].
  cbn [for_]. rewrite st_bind_eq. erewrite ignoring_ok; [exact E2|]. by eapply on_path_at.
Qed.

Definition empty_dir (w : W) (p : list str) : Prop := ns w p = Some true /\ forall n, ns w (p ++ [n]) = None.

Lemma snoc_ne (d : list str) n n' : n <> n' -> d ++ [n] <> d ++ [n'].
Proof. intros Hn E. apply Hn. by apply app_inj_tail in E as [_ ?]. Qed.

(** The body of [rmtree]'s loop, once everything under the directories has gone. *)
Lemma visit_clears d ig dirs files w :
  Forall name_ok d -> NoDup files -> NoDup dirs -> Forall name_ok files -> Forall name_ok dirs ->
  (forall n, n ∈ files -> ns w (d ++ [n]) = Some false) -> (forall n, n ∈ dirs -> empty_dir w (d ++ [n])) ->
  exists w', (for_ (fun n => ignoring ig (remove fs (path_join (rooted d) [n] ++ cgi))) files ≫= fun _ =>
              for_ (fun n => ignoring ig (rmdir fs (path_join (rooted d) [n] ++ cgi))) dirs ≫= fun _ => mret dirs) w
             = (w', Ok dirs)
    /\ pruned (fun q => exists n, n ∈ files ++ dirs /\ q = d ++ [n]) w w'.
Proof.
  intros Hd Hnf Hnd Hof Hod Hf Hdir.
  destruct (for_removes d ig Rm (fun w p => ns w p = Some false) (ns_remove server)) with (names := files) (w := w)
    as (w1 & E1 & Hw1); try done.
  { intros w0 w' n n' Hne Hs Hp. rewrite (proj2 (Hp _)); [done|]. by apply snoc_ne. }
  assert (Hdir1 : forall n, n ∈ dirs -> empty_dir w1 (d ++ [n])).
  { intros n Hn. destruct (Hdir n Hn) as [H1 H2]. split.
    - rewrite (proj2 (Hw1 _)); [done|]. intros (m & Hm & E). apply app_inj_tail in E as [_ ->]. rewrite Hf in H1 by done. done.
    - intros m. destruct (ns w1 _) as [b|] eqn:E; [|done]. apply (pruned_sub _ _ _ _ _ Hw1) in E. by rewrite H2 in E. }
  destruct (for_removes d ig Rmdir empty_dir) with (names := dirs) (w := w1) as (w2 & E2 & Hw2); try done.
  { intros w0 p [H1 H2]. by apply (ns_rmdir server). }
  { intros w0 w' n n' Hne [H1 H2] Hp. split; [rewrite (proj2 (Hp _)); [done | by apply snoc_ne]|].
    intros m. destruct (ns w' _) as [b|] eqn:E; [|done]. apply (pruned_sub _ _ _ _ _ Hp) in E. by rewrite H2 in E. }
  exists w2. split.
  - rewrite st_bind_eq. unfold remove. rewrite E1. rewrite st_bind_eq. unfold rmdir. by rewrite E2.
  - eapply pruned_iff; [|by eapply pruned_trans]. intros q. split.
    + intros [(n & Hn & ->)|(n & Hn & ->)]; exists n; rewrite elem_of_app; auto.
    + intros (n & [Hn|Hn]%elem_of_app & ->); [left | right]; by exists n.
Qed.

(** *** The walk *)

Notation visit ig := (fun dirpath dirs files =>
  for_ (fun name => ignoring ig (remove fs (path_join dirpath [name] ++ cgi))) files ≫= fun _ =>
  for_ (fun name => ignoring ig (rmdir fs (path_join dirpath [name] ++ cgi))) dirs ≫= fun _ => mret dirs).

Definition height (w : W) (d : list str) (fuel : nat) : Prop := forall q b, ns w (d ++ q) = Some b -> (length q < fuel)%nat.

(** Listing a directory of the tree. *)
Lemma scandir_at w d : ns w d = Some true ->
  exists w' es, scandir upper lower fs (at_ d) true false [] None w = (w', Ok es)
    /\ (forall q, ns w' q = ns w q) /\ NoDup (de_name <$> es)
    /\ forall n b, ns w (d ++ [n]) = Some b <-> exists e, e ∈ es /\ de_name e = n /\ entry_is_dir e = b.
Proof.
  intros Hd. pose proof (ns_names server _ _ _ Hd) as Hok. destruct (ns_list server w d Hd) as (w' & data & es & E & Ep & Hw & Hn & Hc).
  exists w', es. split; [|done]. unfold scandir, execute, lift. rewrite st_bind_eq.
  change (or_root (at_ d)) with (at_ d). rewrite stable by done. rewrite st_bind_eq.
  change (Flags.dirlist_flags upper true false [] None) with (Ok 2 : res Z). cbv iota beta zeta.
  rewrite st_bind_eq. change (Z.land 2 (Z.lnot 8)) with 2. rewrite E. change (negb (Z.land 2 2 =? 0)) with true. by rewrite Ep.
Qed.

Lemma split_at d : Forall name_ok d -> (cgi = [] \/ exists c, cgi = 0x3F :: c) -> _split_cgi (at_ d) = (rooted d, cgi).
Proof. intros Hd Hc. apply split_cgi_app; [by apply rooted_plain | done]. Qed.
Hypothesis cgi_ok : cgi = [] \/ exists c, cgi = 0x3F :: c.

(** Each directory in turn, by a walk that clears what is beneath it. *)
Lemma each_clears (go : str -> st exn W (option unit)) d fuel :
  (forall p w, ns w p = Some true -> height w p fuel ->
     exists w', go (at_ p) w = (w', Ok (Some tt)) /\ pruned (beneath p) w w') ->
  Forall name_ok d -> forall dirs w,
  Forall name_ok dirs -> (forall n, n ∈ dirs -> ns w (d ++ [n]) = Some true) -> height w d (S fuel) ->
  exists w', each go ((fun n => path_join (rooted d) [n] ++ cgi) <$> dirs) w = (w', Ok (Some tt))
    /\ pruned (fun q => exists n, n ∈ dirs /\ beneath (d ++ [n]) q) w w'.
Proof.
  intros Hgo Hd. induction dirs as [|n dirs IH]; intros w Hok Hdirs Hh.
  { exists w. split; [done|]. intros q. split; [|done]. by intros (n & ?%elem_of_nil & _). }
  apply Forall_cons in Hok as [Hok1 Hok].
  destruct (Hgo (d ++ [n]) w) as (w1 & E1 & Hw1); [apply Hdirs; by left | |].
  { intros q b Hq. rewrite <- app_assoc in Hq. apply Hh in Hq. cbn in Hq. lia. }
  destruct (IH w1 Hok) as (w2 & E2 & Hw2).
  { intros m Hm. rewrite (proj2 (Hw1 _)); [apply Hdirs; by right|]. intros (x & r & E).
    apply (f_equal length) in E. rewrite !length_app in E. cbn in E. lia. }
  { intros q b Hq. apply (pruned_sub _ _ _ _ _ Hw1) in Hq. by apply Hh in Hq. }
  exists w2. split.
  - cbn [fmap list_fmap each]. rewrite st_bind_eq, rooted_snoc by done. change (rooted (d ++ [n]) ++ cgi) with (at_ (d ++ [n])).
    by rewrite E1.
  - eapply pruned_iff; [|by eapply pruned_trans]. intros q. split.
    + intros [Hb|(m & Hm & Hb)]; [exists n; split; [by left | done] | exists m; split; [by right | done]].
    + intros (m & [->|Hm]%elem_of_cons & Hb); [by left | right; by exists m].
Qed.

Lemma sub_names {P : DirEntry -> Prop} `{!forall x, Decision (P x)} es :
  NoDup (de_name <$> es) -> NoDup (de_name <$> filter P es).
Proof. intros Hn. eapply sublist_NoDup; [exact Hn | apply fmap_sublist, sublist_filter]. Qed.

(** Clearing beneath the directories and then removing the children clears
    beneath [d]: everything there has a child of [d] above it, or is one. *)
Lemma clears_beneath w w1 w2 w3 d dirs files :
  (forall n, n ∈ dirs <-> ns w (d ++ [n]) = Some true) -> (forall n, n ∈ files <-> ns w (d ++ [n]) = Some false) ->
  (forall q, ns w1 q = ns w q) ->
  pruned (fun q => exists n, n ∈ dirs /\ beneath (d ++ [n]) q) w1 w2 ->
  pruned (fun q => exists n, n ∈ files ++ dirs /\ q = d ++ [n]) w2 w3 -> pruned (beneath d) w w3.
Proof.
  intros Hdirs Hfiles Hw1 Hw2 Hw3 q. split.
  - intros (n & r & ->). destruct (ns w3 (d ++ n :: r)) as [b|] eqn:E3; [exfalso|done].
    pose proof (pruned_sub _ _ _ _ _ Hw3 E3) as E2. pose proof (pruned_sub _ _ _ _ _ Hw2 E2) as E1. rewrite Hw1 in E1.
    destruct (ancestors _ _ _ _ _ E1) as (b' & Eb & Hr). destruct r as [|x r].
    + rewrite (proj1 (Hw3 _)) in E3; [done|]. exists n. split; [|done]. rewrite elem_of_app, Hdirs, Hfiles, Eb.
      destruct b'; auto.
    + rewrite (proj1 (Hw2 _)) in E2; [done|]. exists n. split; [rewrite Hdirs, Eb, Hr; done|].
      exists x, r. by rewrite <- app_assoc.
  - intros Hq. rewrite (proj2 (Hw3 q)), (proj2 (Hw2 q)); [done | |].
    + intros (n & _ & x & r & ->). apply Hq. exists n, (x :: r). by rewrite <- app_assoc.
    + intros (n & _ & ->). apply Hq. by exists n, [].
Qed.

Lemma walk_clears ig fuel : forall d w,
  ns w d = Some true -> height w d fuel ->
  exists w', walk upper lower fuel fs false None (visit ig) (at_ d) w = (w', Ok (Some tt)) /\ pruned (beneath d) w w'.
Proof.
  induction fuel as [|fuel IH]; intros d w Hd Hh.
  { specialize (Hh [] true). rewrite app_nil_r in Hh. apply Hh in Hd. cbn in Hd. lia. }
  pose proof (ns_names server _ _ _ Hd) as Hok.
  destruct (scandir_at w d Hd) as (w1 & es & Es & Hw1 & Hn & Hc).
  set (dirs := de_name <$> filter (fun e => entry_is_dir e = true) es).
  set (files := de_name <$> filter (fun e => entry_is_dir e = false) es).
  assert (Hdirs : forall n, n ∈ dirs <-> ns w (d ++ [n]) = Some true).
  { intros n. rewrite Hc. unfold dirs. rewrite list_elem_of_fmap. setoid_rewrite list_elem_of_filter. split.
    - intros (e & -> & ? & ?). by exists e.
    - intros (e & ? & <- & ?). by exists e. }
  assert (Hfiles : forall n, n ∈ files <-> ns w (d ++ [n]) = Some false).
  { intros n. rewrite Hc. unfold files. rewrite list_elem_of_fmap. setoid_rewrite list_elem_of_filter. split.
    - intros (e & -> & ? & ?). by exists e.
    - intros (e & ? & <- & ?). by exists e. }
  assert (Hnames : forall n b, ns w (d ++ [n]) = Some b -> name_ok n).
  { intros n b E. apply (ns_names server) in E. apply Forall_app in E as [_ [? _]%Forall_cons]. done. }
  assert (Hod : Forall name_ok dirs) by (apply Forall_forall; intros n ?%Hdirs; by eapply Hnames).
  assert (Hof : Forall name_ok files) by (apply Forall_forall; intros n ?%Hfiles; by eapply Hnames).
  destruct (each_clears (walk upper lower fuel fs false None (visit ig)) d fuel) with (dirs := dirs) (w := w1)
    as (w2 & E2 & Hw2); [exact IH | done | done | | |].
  { intros n. by rewrite Hw1, <- Hdirs. }
  { intros q b. rewrite Hw1. apply Hh. }
  assert (Hsame : forall n, ns w2 (d ++ [n]) = ns w1 (d ++ [n])).
  { intros n. apply (proj2 (Hw2 _)). intros (m & _ & x & r & E). apply (f_equal length) in E.
    rewrite !length_app in E. cbn in E. lia. }
  destruct (visit_clears d ig dirs files w2) as (w3 & E3 & Hw3); try done; [by apply sub_names | by apply sub_names | | |].
  { intros n Hn'%Hfiles. by rewrite Hsame, Hw1. }
  { intros n Hn'. split; [by rewrite Hsame, Hw1; apply Hdirs|]. intros m. apply (proj1 (Hw2 _)). exists n. split; [done|].
    by exists m, []. }
  exists w3. split.
  - cbn [walk]. unfold lift. rewrite st_bind_eq. change (or_root (at_ d)) with (at_ d). rewrite stable by done.
    rewrite st_bind_eq. unfold try_ at 1. rewrite st_bind_eq, Es. unfold mret at 1, st_ret at 1. cbv iota beta. rewrite split_at by done.
    cbv iota beta zeta. fold dirs files. rewrite st_bind_eq. unfold mret at 1, st_ret at 1. cbv iota beta.
    rewrite st_bind_eq, E2. cbv iota. rewrite st_bind_eq, E3. done.
  - by apply (clears_beneath w w1 w2 w3 d dirs files).
Qed.

(** What is at or below a path. *)
Definition within (p q : list str) : Prop := q = p \/ beneath p q.

Lemma rmtree_at fuel path p ig w :
  _abs fs path = Ok (at_ p) -> ns w p = Some true -> height w p fuel ->
  exists w', rmtree upper lower fuel fs path ig w = (w', Ok (Some tt)) /\ pruned (within p) w w'.
Proof.
  intros Ha Hp Hh. pose proof (ns_names server _ _ _ Hp) as Hok. destruct (walk_clears ig fuel p w Hp Hh) as (w1 & E1 & Hw1).
  destruct (ns_rmdir server w1 p) as (w2 & data & E2 & Hw2%decide_pruned).
  { rewrite (proj2 (Hw1 p)); [done|]. intros (n & r & E). apply (f_equal length) in E. rewrite length_app in E. cbn in E. lia. }
  { intros n. apply (proj1 (Hw1 _)). by exists n, []. }
  exists w2. split.
  - unfold rmtree, lift. rewrite st_bind_eq, Ha. cbv zeta. rewrite split_at by done. cbn [snd]. rewrite st_bind_eq, E1.
    cbv iota. rewrite st_bind_eq. erewrite ignoring_ok; [done|]. unfold rmdir, on_path, execute_, execute, lift.
    rewrite st_bind_eq, stable by done. rewrite st_bind_eq. by rewrite E2.
  - eapply pruned_iff; [|by eapply pruned_trans]. intros q. unfold within. tauto.
Qed.
End Tree.

(** C35: [rmtree] removes a directory and everything below it, and nothing else,
    whatever opaque data the file system carries; it asks for each removal
    only when the server will grant it, so nothing is ever ignored or raised. *)
Theorem rmtree_removes {R W : Type} `{RouterEnv R W} (upper lower : str -> str) (fs : FileSystem R) (cgi : str)
    (ns : W -> list str -> option bool) fuel path p ig w :
  Namespace lower fs cgi ns -> NoDup (dict_keys (u_query (fs_url fs))) ->
  _cgi (partition 0x3F path).2 (u_query (fs_url fs)) = Ok cgi ->
  normpath (resolved (u_path (fs_url fs)) path) = rooted p ->
  ns w p = Some true -> (forall q b, ns w (p ++ q) = Some b -> (length q < fuel)%nat) ->
  exists w', rmtree upper lower fuel fs path ig w = (w', Ok (Some tt))
    /\ (forall q, ns w' (p ++ q) = None)
    /\ (forall q, (forall r, q <> p ++ r) -> ns w' q = ns w q).
Proof.
  intros Hs Hn Hc Hp Hd Hh.
  destruct (rmtree_at upper lower fs cgi ns Hs (fun p => abs_rooted fs path p cgi Hn Hc) (cgi_shape _ _ _ Hc) fuel path p ig w)
    as (w' & E & Hw); [|done|done|].
  { rewrite abs_eq, Hc. cbn [mbind result_bind]. by rewrite Hp. }
  exists w'. split_and!; [done | |].
  - intros q. apply (proj1 (Hw _)). destruct q as [|n r]; [left; by rewrite app_nil_r | right; by exists n, r].
  - intros q Hq. apply (proj2 (Hw _)). intros [->|(n & r & ->)]; [by apply (Hq []); rewrite app_nil_r | by apply (Hq (n :: r))].
Qed.

(** ** A small server *)

(** [/d/s/g] and [/k]; a world says how much of the first is left, and whether
    the second is. *)
Inductive level := Whole | NoG | NoS | NoD | Nothing.

Definition nodes (w : level * bool) : dict (list str) bool :=
  let chain := [([], true); ([s_ "d"], true); ([s_ "d"; s_ "s"], true); ([s_ "d"; s_ "s"; s_ "g"], false)] in
  match w with
  | (Nothing, _) => []
  | (l, k) => take (match l with Whole => 4 | NoG => 3 | NoS => 2 | _ => 1 end) chain
              ++ (if (k : bool) then [([s_ "k"], false)] else [])
  end.

Definition small_ns (w : level * bool) (p : list str) : option bool := dict_get p (nodes w).

Definition parts_of (path : str) : list str := filter (fun c => c <> []) (split_all 0x2F (until 0x3F path)).

(** The listing of a directory, each name with its stat line. *)
Definition listing (w : level * bool) (d : list str) : bytes :=
  b_ "." ++ [z2b 10] ++ b_ "0 0 2 0" ++
  concat ((fun '(p, b) => match last p with
                          | Some n => if decide (p = d ++ [n]) then [z2b 10] ++ (z2b <$> n) ++ [z2b 10]
                                        ++ (if (b : bool) then b_ "0 0 2 0" else b_ "0 0 0 0")
                                      else []
                          | None => []
                          end) <$> nodes w).

Definition gone (w : level * bool) (p : list str) : level * bool :=
  if decide (p = [s_ "k"]) then (w.1, false)
  else (match p with [] => Nothing | [_] => NoD | [_; _] => NoS | _ => NoG end, w.2).

#[export] Instance small_server : RouterEnv Z (level * bool) := {
  rt_new _ _ w := (0, w);
  rt_execute _ q _ w :=
    match q with
    | Dirlist path _ => (w, Ok (listing w (parts_of path)))
    | Rm path | Rmdir path => (gone w (parts_of path), Ok [])
    | _ => (w, Err ProtocolError)
    end;
  rt_arrives _ w := (w, Ok None);
  rt_on_path _ _ _ w := (w, Err ProtocolError);
  rt_bind_data_path _ w := (w, Ok 0);
  rt_pin r _ w := (r, w);
  rt_close _ w := w;
  rt_discard _ w := w;
  rt_same_session _ _ w := (w, Ok true)
}.

Definition token_fs : FileSystem Z :=
  mkFS (mkURL (s_ "root") (s_ "h") 1094 (s_ "/") [] [] [(s_ "authz", s_ "tok")]) (fs_config demo_fs) 0.

Definition token : str := s_ "?authz=tok".

(** What is checked of a node. *)
Definition list_ok (w : level * bool) (d : list str) : bool :=
  match parse_dirlist id (listing w d) (at_ token d) true with
  | Ok es =>
      bool_decide (NoDup (de_name <$> es))
      && forallb (fun e => bool_decide (small_ns w (d ++ [de_name e]) = Some (entry_is_dir e))) es
      && forallb (fun x => existsb (fun e => bool_decide (d ++ [de_name e] = x.1 /\ entry_is_dir e = x.2)) es
                           || bool_decide (removelast x.1 <> d \/ x.1 = [])) (nodes w)
  | Err _ => false
  end.

Definition node_ok (w : level * bool) (x : list str * bool) : bool :=
  let '(p, b) := x in
  bool_decide (Forall (fun n => (n <> [] /\ n <> DOT /\ n <> DOTDOT /\ 0x2F ∉ n) /\ 0x3F ∉ n) p)
  && bool_decide (parts_of (at_ token p) = p)
  && bool_decide (p = [] \/ small_ns w (removelast p) = Some true)
  && (if b then list_ok w p else true)
  && (bool_decide (nodes (gone w p) = dict_pop p (nodes w))
      || (b && existsb (fun y => bool_decide (removelast y.1 = p /\ y.1 <> [])) (nodes w))).

Lemma node_checked w p b : small_ns w p = Some b -> node_ok w (p, b) = true.
Proof.
  intros E%dict_get_Some_in. assert (Ha : forallb (node_ok w) (nodes w) = true) by (by destruct w as [[] []]; vm_compute).
  rewrite forallb_forall in Ha. by apply Ha, list_elem_of_In.
Qed.

Lemma snoc_of (x : list str) : x <> [] -> exists n, x = removelast x ++ [n].
Proof. intros Hx. destruct (exists_last Hx) as (i & n & ->). exists n. by rewrite removelast_last. Qed.

Lemma small_lists w d : small_ns w d = Some true -> exists es,
  parse_dirlist id (listing w d) (at_ token d) true = Ok es /\ NoDup (de_name <$> es)
  /\ forall n b, small_ns w (d ++ [n]) = Some b <-> exists e, e ∈ es /\ de_name e = n /\ entry_is_dir e = b.
Proof.
  intros E%node_checked. unfold node_ok in E. rewrite !andb_true_iff in E. destruct E as (((_ & _) & E) & _).
  unfold list_ok in E. destruct (parse_dirlist _ _ _ _) as [es|]; [|done]. exists es. split; [done|].
  rewrite !andb_true_iff in E. destruct E as ((Hn%bool_decide_eq_true & H1) & H2). split; [done|].
  rewrite forallb_forall in H1, H2. intros n b. split.
  - intros Hs. apply dict_get_Some_in, list_elem_of_In, H2 in Hs. cbn [fst snd] in Hs.
    apply orb_true_iff in Hs as [Hs|Hs]; apply bool_decide_eq_true in Hs || idtac.
    + apply existsb_exists in Hs as (e & He & [Hp Hb]%bool_decide_eq_true). exists e.
      apply app_inj_tail in Hp as [_ Hp]. by rewrite list_elem_of_In.
    + exfalso. rewrite removelast_last in Hs. destruct Hs as [Hs|Hs]; [done|]. by destruct d.
  - intros (e & He & <- & <-). apply list_elem_of_In, H1, bool_decide_eq_true in He. done.
Qed.

Lemma small_gone w p b : small_ns w p = Some b -> (b = true -> forall n, small_ns w (p ++ [n]) = None) ->
  forall q, small_ns (gone w p) q = if decide (q = p) then None else small_ns w q.
Proof.
  intros E%node_checked Hc q. unfold node_ok in E. rewrite !andb_true_iff in E. destruct E as (_ & E).
  apply orb_true_iff in E as [E%bool_decide_eq_true|E].
  - unfold small_ns. rewrite E, dict_get_pop. by repeat case_decide.
  - exfalso. apply andb_true_iff in E as [-> E]. apply existsb_exists in E as (y & Hy & [Hr Hne]%bool_decide_eq_true).
    destruct (snoc_of y.1 Hne) as (n & Hn). rewrite Hr in Hn. specialize (Hc eq_refl n).
    apply dict_get_None_keys in Hc. apply Hc. rewrite <- Hn. apply list_elem_of_fmap_2. by apply list_elem_of_In.
Qed.

Lemma small_parts w p b : small_ns w p = Some b -> parts_of (at_ token p) = p.
Proof. intros E%node_checked. unfold node_ok in E. rewrite !andb_true_iff in E. by destruct E as ((((_ & E%bool_decide_eq_true) & _) & _) & _). Qed.

Lemma small_namespace : Namespace id token_fs token small_ns.
Proof.
  split.
  - intros w p b E%node_checked. unfold node_ok in E. rewrite !andb_true_iff in E.
    by destruct E as ((((E%bool_decide_eq_true & _) & _) & _) & _).
  - intros w p n b E%node_checked. unfold node_ok in E. rewrite !andb_true_iff, removelast_last in E.
    destruct E as (((_ & E%bool_decide_eq_true) & _) & _). destruct E as [E|E]; [by destruct p | done].
  - intros w d E. destruct (small_lists w d E) as (es & Hp & Hn & Hc). exists w, (listing w d), es.
    split_and!; try done. cbn [rt_execute small_server]. by rewrite (small_parts w d true E).
  - intros w p E. exists (gone w p), []. cbn [rt_execute small_server]. rewrite (small_parts w p false E).
    split; [done|]. by apply (small_gone w p false).
  - intros w p E Hc. exists (gone w p), []. cbn [rt_execute small_server]. rewrite (small_parts w p true E).
    split; [done|]. by apply (small_gone w p true).
Qed.

Lemma rmtree_removes_witness :
  exists w', rmtree id id 3 token_fs (s_ "d") false (Whole, true) = (w', Ok (Some tt))
    /\ small_ns w' [s_ "d"; s_ "s"; s_ "g"] = None /\ small_ns w' [s_ "k"] = Some false.
Proof.
  destruct (rmtree_removes id id token_fs token small_ns 3 (s_ "d") [s_ "d"] false (Whole, true) small_namespace)
    as (w' & E & H1 & H2); [apply (bool_decide_unpack _); by vm_compute | vm_compute; reflexivity.. | |].
  { intros q b Hq%dict_get_Some_in. vm_compute in Hq.
    repeat (apply elem_of_cons in Hq as [Hq|Hq]; [apply (f_equal (length ∘ fst)) in Hq; destruct q as [|? [|? [|]]]; cbn in *; lia|]).
    by apply elem_of_nil in Hq. }
  exists w'. split; [exact E|]. split; [apply (H1 [s_ "s"; s_ "g"])|]. rewrite H2; [vm_compute; reflexivity|].
  intros r Hr. discriminate Hr.
Defined.
