(* ===== verification/Copy.v ===== *)
(** * The copy engine

    src/xrd/copy/engine.py, one file at a time: the adapters that make a
    binary stream of either end, the pump, a transfer spread over several
    connections, resumption, verification and [copy] itself.

    What lies outside - the binary streams, the operating system, the file
    system classes of each protocol, the clock, the progress callback - is the
    interface [CopyEnv]. Two parts of the engine run in threads: the
    read-ahead window [_Ahead], whose reader runs beside the loop that writes,
    and [_in_parallel], with one worker per span. Both are step machines, a
    step being one call of the code, run by an explicit schedule; a schedule
    that ends before the threads do gives [None]. *)

From S2P Require Import Prelude PyStr Errors Responses ConfigFile Url UrlText Checksum FileClient.
From Stdlib Require Import QArith.
Open Scope Z_scope.

(** [H] are open binary streams, [F] file systems of whatever protocol. *)
Class CopyEnv (H F W : Type) := {
  (* streams *)
  h_read : H -> Z -> W -> W * res bytes;
  (* [getattr(h, "readinto", None)]; applied to a buffer of [n] bytes, what
     was put at its start, or [None] *)
  h_readinto : H -> option (Z -> W -> W * res (option bytes));
  h_write : H -> bytes -> W -> W * res Z;
  h_seek : H -> Z -> W -> W * res unit;
  h_close : H -> W -> W * res unit;
  h_size : H -> W -> W * res Z;
  h_repr : H -> str;
  (* the operating system *)
  os_open : str -> str -> W -> W * res H;
  os_getsize : str -> W -> W * res Z;
  os_stat : str -> W -> W * res (Z * Z);
  os_remove : str -> W -> W * res unit;
  (* the protocols *)
  open_url : XRootDURL -> str -> Config -> W -> W * res H;
  open_http : XRootDURL -> str -> Config -> W -> W * res H;
  open_s3 : XRootDURL -> str -> Config -> W -> W * res H;
  http_digest : XRootDURL -> str -> Config -> W -> W * res ChecksumInfo;
  fs_enter : XRootDURL -> Config -> W -> W * res F;
  fs_stat : F -> str -> W -> W * res (Z * Z);
  fs_remove : F -> str -> W -> W * res unit;
  fs_checksum : F -> str -> str -> W -> W * res ChecksumInfo;
  fs_exit : F -> W -> W * res unit;
  (* the clock, and the caller's callback *)
  monotonic : W -> W * Q;
  progress : Z -> option Z -> W -> W * res unit
}.

Module Copy.

Record CopyResult := mkResult {
  cr_source : str; cr_target : str; cr_size : Z; cr_seconds : Q;
  cr_checksum : option ChecksumInfo; cr_resumed_at : Z
}.

(** A dry run and a copy too quick for the clock have no rate. *)
Definition rate (r : CopyResult) : option Q :=
  if Qle_bool (cr_seconds r) 0 then None else Some (Qdiv (inject_Z (cr_size r)) (cr_seconds r)).
Definition resumed (r : CopyResult) : bool := 0 <? cr_resumed_at r.
Definition verified (r : CopyResult) : bool := match cr_checksum r with Some _ => true | None => false end.

Record _Resume := mkResume { rs_source : XRootDURL; rs_target : XRootDURL; rs_offset : Z }.
Record _Spread := mkSpread { sp_source : XRootDURL; sp_target : XRootDURL; sp_workers : Z; sp_size : Z }.

(** The target is written at an offset and the source read at one. *)
Definition _divisible (source target : XRootDURL) : bool :=
  (is_local target || is_root target) && (is_local source || is_root source || is_http source).

(** [range(0, size, step)] for a positive step. *)
Fixpoint range_by (fuel : nat) (at_ size step : Z) : list Z :=
  match fuel with
  | O => []
  | S fuel => if at_ <? size then at_ :: range_by fuel (at_ + step) size step else []
  end.

(** [size] divided into [workers] contiguous pieces. *)
Definition _spans (size workers : Z) : list (Z * Z) :=
  let step := - (- size / workers) in
  (fun offset => (offset, Z.min step (size - offset))) <$> range_by (Z.to_nat size) 0 size step.

Section Copy.
Context {H F W : Type} `{CopyEnv H F W}.
(** [str.lower], [os.path.abspath], [hashlib]. *)
Variable lower : str -> str.
Variable abspath : str -> str.
Variable hashlib : str -> bytes -> bytes.

Notation M := (st exn W).

(** ** With statements *)

(** Inside [with ExitStack() as stack]: the streams entered, last one first. *)
Notation S_ := (st exn (list H * W)).
Definition io {A} (c : M A) : S_ A := fun s => let '(w, r) := c s.2 in ((s.1, w), r).
Definition enter (h : H) : S_ H := fun s => ((h :: s.1, s.2), Ok h).

(** Leaving it: every stream is closed, and a failure to close replaces
    whatever was going on. *)
Fixpoint close_all {A} (hs : list H) (r : res A) (w : W) : W * res A :=
  match hs with
  | [] => (w, r)
  | h :: hs => let '(w, c) := h_close h w in close_all hs (match c with Ok _ => r | Err e => Err e end) w
  end.
Definition with_stack {A} (c : S_ A) : M A := fun w =>
  let '((hs, w), r) := c ([], w) in close_all hs r w.

(** [with FileSystem(url.with_path("/"), config) as fs: body]. *)
Definition with_fs {A} (url : XRootDURL) (config : Config) (body : F -> M A) : M A := fun w =>
  match fs_enter (with_path lower url [0x2F]) config w with
  | (w, Err e) => (w, Err e)
  | (w, Ok fs) =>
      let '(w, r) := body fs w in
      let '(w, c) := fs_exit fs w in
      (w, match c with Ok _ => r | Err e => Err e end)
  end.

(** [except OSError: return None]. *)
Definition or_none {A} (c : M A) : M (option A) := fun w =>
  match c w with
  | (w, Ok a) => (w, Ok (Some a))
  | (w, Err e) => (w, if is_os_error e then Ok None else Err e)
  end.

(** ** Endpoints *)

(** Something already open, a name, or a URL. *)
Inductive endpoint := Open (h : H) | Text (s : str) | Url (u : XRootDURL).

Definition _target_url (e : endpoint) : res (option XRootDURL) :=
  match e with
  | Open _ => Ok None
  | Text s => u ← UrlText.parse lower abspath s; Ok (Some u)
  | Url u => Ok (Some u)
  end.

Definition UNSUPPORTED : exn := FileClient.unsupported.

(** A binary reader, and its size when the endpoint knows it. *)
Definition _reader (url : XRootDURL) (config : Config) : S_ (H * option Z) :=
  if is_local url then
    h ← io (os_open (u_path url) (s_ "rb")); enter h ≫= fun _ =>
    n ← io (os_getsize (u_path url)); mret (h, Some n)
  else if is_root url then
    h ← io (open_url url (s_ "rb") config); enter h ≫= fun _ =>
    n ← io (h_size h); mret (h, Some n)
  else if is_http url then h ← io (open_http url (s_ "rb") config); enter h ≫= fun _ => mret (h, None)
  else if is_s3 url then h ← io (open_s3 url (s_ "rb") config); enter h ≫= fun _ => mret (h, None)
  else raise UNSUPPORTED.

Definition _writer (url : XRootDURL) (config : Config) (overwrite : bool) : S_ H :=
  let mode := if overwrite then s_ "wb" else s_ "xb" in
  if is_local url then h ← io (os_open (u_path url) mode); enter h
  else if is_root url then h ← io (open_url url mode config); enter h
  else if is_http url then h ← io (open_http url mode config); enter h
  else if is_s3 url then h ← io (open_s3 url mode config); enter h
  else raise UNSUPPORTED.

(** A writer positioned at [offset], keeping what is there. *)
Definition _resumer (url : XRootDURL) (config : Config) (offset : Z) : S_ H :=
  if is_local url then
    h ← io (os_open (u_path url) (s_ "r+b")); enter h ≫= fun _ => io (h_seek h offset) ≫= fun _ => mret h
  else if is_root url then
    h ← io (open_url url (s_ "r+b") config); enter h ≫= fun _ => io (h_seek h offset) ≫= fun _ => mret h
  else raise UNSUPPORTED.

(** [(size, mtime)], or [None] when there is nothing there. *)
Definition _probe (url : XRootDURL) (config : Config) : M (option (Z * Z)) :=
  if is_local url then or_none (os_stat (u_path url))
  else with_fs url config (fun fs => or_none (fs_stat fs (u_path url))).

Definition _remove (url : XRootDURL) (config : Config) : M unit :=
  if is_local url then os_remove (u_path url)
  else with_fs url config (fun fs => fs_remove fs (u_path url)).

Definition _server_checksum (url : XRootDURL) (config : Config) (algorithm : str) : M ChecksumInfo :=
  if is_http url then http_digest url algorithm config
  else with_fs url config (fun fs => fs_checksum fs (u_path url) algorithm).

(** ** Plans *)

Definition _continue_from (source target : option XRootDURL) (config : Config) (overwrite : bool) : M (option _Resume) :=
  if negb overwrite then raise ValueError else
  match source, target with
  | Some source, Some target =>
      there ← _probe target config;
      match there with
      | None => mret None
      | Some (n, _) =>
          if n =? 0 then mret None else
          here ← _probe source config;
          match here with
          | Some (m, _) => if m <? n then raise ValueError else mret (Some (mkResume source target n))
          | None => mret (Some (mkResume source target n))
          end
      end
  | _, _ => raise ValueError
  end.

(** How to split the transfer across connections, if it is worth it. *)
Definition _spread (source target : option XRootDURL) (config : Config) (chunk : Z) : M (option _Spread) :=
  match source, target with
  | Some source, Some target =>
      if negb (_divisible source target) then mret None else
      known ← _probe source config;
      match known with
      | None => mret None
      | Some (size, _) =>
          if chunk =? 0 then raise ZeroDivisionError else
          let workers := Z.min (c_parallel_chunks config) (size / chunk) in
          mret (if 1 <? workers then Some (mkSpread source target workers size) else None)
      end
  | _, _ => mret None
  end.

(** ** The pump *)

(** One chunk of the source into a buffer of [n] bytes: what arrived. A stream
    that only has [read] may return more than was asked for; the buffer then
    has to grow, which it cannot while a view of it is [exported]. *)
Definition _fill (exported : bool) (reader : H) (n : Z) : M bytes :=
  match h_readinto reader with
  | Some readinto => d ← readinto n; mret (default [] d)
  | None =>
      d ← h_read reader n;
      if exported && (n <? zlen d) then raise BufferError else mret d
  end.

(** What the loop keeps: the digest, if one is taken, and the bytes done. *)
Definition tally : Type := option digest * Z.

(** [digest.update(piece)]; the table lookups of a checksum never miss. *)
Definition digesting (piece : bytes) (t : tally) : res tally :=
  match t.1 with
  | None => Ok (None, t.2 + zlen piece)
  | Some d =>
      match update d piece with
      | Some d => Ok (Some d, t.2 + zlen piece)
      | None => Err IndexError
      end
  end.

(** [progress(done, total)], when there is a callback; a resumed transfer
    reports where in the file it is. *)
Definition reporting (report : option Z) (done : Z) (total : option Z) : M unit :=
  match report with None => mret tt | Some shift => progress (done + shift) total end.

(** The loop over [_chunks], one chunk after the other. *)
Fixpoint pump_loop (fuel : nat) (reader writer : H) (total : option Z) (chunk_size : Z) (report : option Z) (t : tally)
    : M (option tally) :=
  match fuel with
  | O => mret None
  | S fuel =>
      piece ← _fill true reader chunk_size;
      match piece with
      | [] => mret (Some t)
      | _ =>
          h_write writer piece ≫= fun _ =>
          t ← lift (digesting piece t);
          reporting report t.2 total ≫= fun _ =>
          pump_loop fuel reader writer total chunk_size report t
      end
  end.

(** ** Reading ahead *)

(** What the queue carries: a chunk, the exception reading raised, the end. *)
Inductive item := Piece (b : bytes) | Raised (e : exn) | End_.

(** Where the reader thread is: in [_fill]; in [_offer], about to look at the
    stop event or in the middle of a [put] that may time out; or gone. *)
Inductive reader_at := Filling | Checking (i : item) | Putting (i : item) | Exited.

(** Where the loop is: in [get]; in the body of the loop, writing a piece or
    reporting it; in [__exit__], about to set the stop event or waiting for
    the thread; or past the [with]. *)
Inductive loop_at :=
  | Getting | Writing (b : bytes) | Reporting | Stopping (r : res unit) | Joining (r : res unit) | Left_ (r : res unit).

Record ahead := mkAhead {
  ah_world : W; ah_queue : list item; ah_stop : bool; ah_reader : reader_at; ah_loop : loop_at; ah_tally : tally
}.

Section Ahead.
Variable reader writer : H.
Variable total : option Z.
Variable chunk_size depth : Z.
Variable report : option Z.

(** [_read] after [_offer] returned: go on, or to the [except] and [finally]
    clauses. *)
Definition after_offer (i : item) (offered : bool) : reader_at :=
  match i with
  | Piece _ => if offered then Filling else Checking End_
  | Raised _ => Checking End_
  | End_ => Exited
  end.

Definition reader_step (s : ahead) : option ahead :=
  match ah_reader s with
  | Filling =>
      let '(w, r) := if chunk_size <? 0 then (ah_world s, Err ValueError) else _fill false reader chunk_size (ah_world s) in
      Some (mkAhead w (ah_queue s) (ah_stop s)
              (Checking (match r with Ok [] => End_ | Ok b => Piece b | Err e => Raised e end)) (ah_loop s) (ah_tally s))
  | Checking i =>
      Some (mkAhead (ah_world s) (ah_queue s) (ah_stop s)
              (if ah_stop s then after_offer i false else Putting i) (ah_loop s) (ah_tally s))
  | Putting i =>
      Some (if zlen (ah_queue s) <? depth
            then mkAhead (ah_world s) (ah_queue s ++ [i]) (ah_stop s) (after_offer i true) (ah_loop s) (ah_tally s)
            else mkAhead (ah_world s) (ah_queue s) (ah_stop s) (Checking i) (ah_loop s) (ah_tally s))
  | Exited => None
  end.

Definition at_loop (s : ahead) (w : W) (q : list item) (l : loop_at) : ahead :=
  mkAhead w q (ah_stop s) (ah_reader s) l (ah_tally s).

Definition loop_step (s : ahead) : option ahead :=
  match ah_loop s with
  | Getting =>
      match ah_queue s with
      | [] => None
      | i :: q =>
          Some (at_loop s (ah_world s) q
                  (match i with Piece b => Writing b | Raised e => Stopping (Err e) | End_ => Stopping (Ok tt) end))
      end
  | Writing b =>
      match h_write writer b (ah_world s) with
      | (w, Err e) => Some (at_loop s w (ah_queue s) (Stopping (Err e)))
      | (w, Ok _) =>
          match digesting b (ah_tally s) with
          | Err e => Some (at_loop s w (ah_queue s) (Stopping (Err e)))
          | Ok t => Some (mkAhead w (ah_queue s) (ah_stop s) (ah_reader s) Reporting t)
          end
      end
  | Reporting =>
      let '(w, r) := reporting report (ah_tally s).2 total (ah_world s) in
      Some (at_loop s w (ah_queue s) (match r with Ok _ => Getting | Err e => Stopping (Err e) end))
  | Stopping r => Some (mkAhead (ah_world s) (ah_queue s) true (ah_reader s) (Joining r) (ah_tally s))
  | Joining r =>
      match ah_reader s with
      | Exited => Some (at_loop s (ah_world s) (ah_queue s) (Left_ r))
      | _ => Some (at_loop s (ah_world s) (tail (ah_queue s)) (Joining r))
      end
  | Left_ _ => None
  end.

(** A thread that cannot step waits. *)
Inductive actor := Reader | Loop.
Definition step (a : actor) (s : ahead) : ahead :=
  default s (match a with Reader => reader_step s | Loop => loop_step s end).
Definition run (sched : list actor) (s : ahead) : ahead := foldl (fun s a => step a s) s sched.

(** [__enter__] starts the thread. *)
Definition ahead_start (t : tally) (w : W) : ahead := mkAhead w [] false Filling Getting t.

Definition pump_ahead (sched : list actor) (t : tally) : M (option tally) := fun w =>
  let s := run sched (ahead_start t w) in
  match ah_loop s with
  | Left_ (Ok _) => (ah_world s, Ok (Some (ah_tally s)))
  | Left_ (Err e) => (ah_world s, Err e)
  | _ => (ah_world s, Ok None)
  end.
End Ahead.

(** Move every byte, digesting and reporting as it goes. *)
Definition _pump (fuel : nat) (sched : list actor) (reader writer : H) (total : option Z) (chunk_size : Z) (report : option Z)
    (d : option digest) (depth : Z) : M (option tally) :=
  if 1 <? depth then pump_ahead reader writer total chunk_size depth report sched (d, 0)
  else if chunk_size <? 0 then raise ValueError
  else pump_loop fuel reader writer total chunk_size report (d, 0).

(** ** One worker per span *)

(** Where a worker is in [move]: not started, opening and positioning its
    streams, at the head of its loop, about to write or to report, leaving
    its [with], or done; [Cancelled] when another failed before it started. *)
Inductive worker_at :=
  | Waiting
  | Seeking (r : H)
  | Resuming (r : H)
  | Looping (r w : H)
  | Storing (r w : H) (data : bytes)
  | Telling (r w : H) (n : Z)
  | Closing (out : res unit)
  | Done (out : res Z)
  | Cancelled.

Record worker := mkWorker { wk_offset : Z; wk_length : Z; wk_moved : Z; wk_stack : list H; wk_at : worker_at }.
Definition worker_new (span : Z * Z) : worker := mkWorker span.1 span.2 0 [] Waiting.

Record team := mkTeam { tm_world : W; tm_reported : Z; tm_workers : list worker }.

Section Parallel.
Variable plan : _Spread.
Variable config : Config.
Variable chunk : Z.
Variable report : bool.

Definition stopped (k : worker) (hs : list H) (out : res unit) : worker :=
  mkWorker (wk_offset k) (wk_length k) (wk_moved k) hs (Closing out).
Definition moves_to (k : worker) (hs : list H) (at_ : worker_at) : worker :=
  mkWorker (wk_offset k) (wk_length k) (wk_moved k) hs at_.

(** One call of [move]: the new worker, the world and the count reported. *)
Definition worker_step (k : worker) (reported : Z) (w : W) : option (worker * Z * W) :=
  let go k w := Some (k, reported, w) in
  match wk_at k with
  | Waiting =>
      let '((hs, w), r) := _reader (sp_source plan) config (wk_stack k, w) in
      go (match r with Ok (h, _) => moves_to k hs (Seeking h) | Err e => stopped k hs (Err e) end) w
  | Seeking r =>
      let '(w, o) := h_seek r (wk_offset k) w in
      go (match o with Ok _ => moves_to k (wk_stack k) (Resuming r) | Err e => stopped k (wk_stack k) (Err e) end) w
  | Resuming r =>
      let '((hs, w), o) := _resumer (sp_target plan) config (wk_offset k) (wk_stack k, w) in
      go (match o with Ok h => moves_to k hs (Looping r h) | Err e => stopped k hs (Err e) end) w
  | Looping r h =>
      if wk_length k <=? wk_moved k then go (stopped k (wk_stack k) (Ok tt)) w else
      let '(w, o) := h_read r (Z.min chunk (wk_length k - wk_moved k)) w in
      go (match o with
          | Ok [] => stopped k (wk_stack k) (Ok tt)
          | Ok data => moves_to k (wk_stack k) (Storing r h data)
          | Err e => stopped k (wk_stack k) (Err e)
          end) w
  | Storing r h data =>
      let '(w, o) := h_write h data w in
      go (match o with
          | Ok _ => mkWorker (wk_offset k) (wk_length k) (wk_moved k + zlen data) (wk_stack k)
                      (if report then Telling r h (zlen data) else Looping r h)
          | Err e => stopped k (wk_stack k) (Err e)
          end) w
  | Telling r h n =>
      let reported := reported + n in
      let '(w, o) := progress reported (Some (sp_size plan)) w in
      Some (match o with Ok _ => moves_to k (wk_stack k) (Looping r h) | Err e => stopped k (wk_stack k) (Err e) end,
            reported, w)
  | Closing out =>
      let '(w, o) := close_all (wk_stack k) out w in
      go (moves_to k [] (Done (match o with Ok _ => Ok (wk_moved k) | Err e => Err e end))) w
  | Done _ | Cancelled => None
  end.

(** [sum(pool.map(move, spans))]: what the workers that are done returned, or
    the first of their failures, or [None] while one before it is at work. *)
Fixpoint outcome (acc : Z) (ks : list worker) : option (res Z) :=
  match ks with
  | [] => Some (Ok acc)
  | k :: ks =>
      match wk_at k with
      | Done (Ok n) => outcome (acc + n) ks
      | Done (Err e) => Some (Err e)
      | _ => None
      end
  end.

Definition finished (k : worker) : bool := match wk_at k with Done _ | Cancelled => true | _ => false end.

(** A worker steps, or is cancelled because a failure has been seen before it
    started. *)
Inductive turn := Work (i : nat) | Cancel (i : nat).
Definition team_step (t : team) (a : turn) : team :=
  match a with
  | Work i =>
      match tm_workers t !! i ≫= fun k => worker_step k (tm_reported t) (tm_world t) with
      | Some (k, n, w) => mkTeam w n (<[i := k]> (tm_workers t))
      | None => t
      end
  | Cancel i =>
      match tm_workers t !! i, outcome 0 (tm_workers t) with
      | Some k, Some (Err _) =>
          match wk_at k with
          | Waiting => mkTeam (tm_world t) (tm_reported t) (<[i := moves_to k [] Cancelled]> (tm_workers t))
          | _ => t
          end
      | _, _ => t
      end
  end.
Definition team_run (sched : list turn) (t : team) : team := foldl team_step t sched.

(** Create the target, then fill it in; the pool waits for every worker. *)
Definition _in_parallel (sched : list turn) (overwrite : bool) : M (option Z) :=
  let fill : M (option Z) := fun w =>
    let t := team_run sched (mkTeam w 0 (worker_new <$> _spans (sp_size plan) (sp_workers plan))) in
    (tm_world t,
     if forallb finished (tm_workers t) then
       match outcome 0 (tm_workers t) with Some (Ok n) => Ok (Some n) | Some (Err e) => Err e | None => Ok None end
     else Ok None) in
  with_stack (_writer (sp_target plan) config overwrite) ≫= fun _ => fill.
End Parallel.

(** ** Verification *)

(** [while chunk := handle.read(1 << 20): digest.update(chunk)]. *)
Fixpoint digest_loop (fuel : nat) (h : H) (d : digest) : M (option digest) :=
  match fuel with
  | O => mret None
  | S fuel =>
      c ← h_read h (Z.shiftl 1 20);
      match c with
      | [] => mret (Some d)
      | _ => match update d c with Some d => digest_loop fuel h d | None => raise IndexError end
      end
  end.

(** The server's answer, or ours if the file is local. *)
Definition _digest_of (fuel : nat) (url : XRootDURL) (config : Config) (algorithm : str) : M (option str) :=
  if negb (is_local url) then c ← _server_checksum url config algorithm; mret (Some (lower (ck_value c))) else
  d ← lift (new lower algorithm);
  with_stack (h ← io (os_open (u_path url) (s_ "rb")); enter h ≫= fun _ =>
              d ← io (digest_loop fuel h d); mret ((fun d => lower (hexdigest hashlib d)) <$> d)).

(** Our streaming digest against the server's. *)
Definition _compare (url : XRootDURL) (config : Config) (algorithm ours : str) (strict : bool) : M (option ChecksumInfo) := fun w =>
  match _server_checksum url config algorithm w with
  | (w, Err e) => (w, if is_os_error e && negb strict then Ok None else Err e)
  | (w, Ok theirs) =>
      (w, if bool_decide (lower (ck_value theirs) = lower ours) then Ok (Some theirs)
          else Err (ChecksumMismatchError algorithm (ck_value theirs) ours))
  end.

(** The two files, after a transfer nobody read in order. *)
Definition _compare_ends (fuel : nat) (source target : XRootDURL) (config : Config) (algorithm : str) (strict : bool)
    : M (option (option ChecksumInfo)) := fun w =>
  match (ours ← _digest_of fuel source config algorithm;
         match ours with
         | None => mret None
         | Some ours => theirs ← _digest_of fuel target config algorithm; mret ((fun t => (ours, t)) <$> theirs)
         end) w with
  | (w, Err e) => (w, if is_os_error e && negb strict then Ok (Some None) else Err e)
  | (w, Ok None) => (w, Ok None)
  | (w, Ok (Some (ours, theirs))) =>
      (w, if bool_decide (ours = theirs) then Ok (Some (Some {| ck_algorithm := algorithm; ck_value := theirs |}))
          else Err (ChecksumMismatchError algorithm theirs ours))
  end.

(** ** [copy] *)

Record options := mkOptions {
  op_chunk_size : option Z; op_verify : option bool; op_algorithm : option str; op_overwrite : bool;
  op_progress : bool; op_dry_run : bool; op_remove_source : bool; op_resume : bool
}.

(** How the threads are run, and how long the loops may be. *)
Record schedule := mkSchedule { sc_fuel : nat; sc_ahead : list actor; sc_team : list turn }.

(** [c ≫= k] where [c] may have run out of schedule. *)
Definition bind_opt {A B} (c : M (option A)) (k : A -> M (option B)) : M (option B) :=
  c ≫= fun o => match o with Some a => k a | None => mret None end.

(** [a or b] of a number and of a string. *)
Definition or_num (a : option Z) (b : Z) : Z := match a with None => b | Some a => if a =? 0 then b else a end.
Definition or_str (a : option str) (b : str) : str := match a with None | Some [] => b | Some a => a end.

(** [str(url) if url else repr(obj)]. *)
Definition shown (e : endpoint) (u : option XRootDURL) : res str :=
  match u, e with
  | Some u, _ => url_str u
  | None, Open h => Ok (h_repr h)
  | None, _ => Ok []
  end.

(** The endpoint a server can be asked about, the target first. *)
Definition checkable (src dst : option XRootDURL) : option XRootDURL :=
  let remote o := match o with Some u => if is_local u then None else Some u | None => None end in
  match remote dst with Some u => Some u | None => remote src end.

(** The two streams of a transfer, positioned when it resumes. *)
Definition open_ends (source target : endpoint) (src dst : option XRootDURL) (cfg : Config) (resuming : option _Resume)
    (overwrite : bool) : S_ ((H * option Z) * H) :=
  rd ← match src, source with
       | Some u, _ => _reader u cfg
       | None, Open h => mret (h, None)
       | None, _ => raise TypeError
       end;
  wr ← match resuming with
       | Some r => io (h_seek rd.1 (rs_offset r)) ≫= fun _ => _resumer (rs_target r) cfg (rs_offset r)
       | None =>
           match dst, target with
           | Some u, _ => _writer u cfg overwrite
           | None, Open h => mret h
           | None, _ => raise TypeError
           end
       end;
  mret (rd, wr).

Definition offset_of (resuming : option _Resume) : Z := match resuming with Some r => rs_offset r | None => 0 end.

(** Moving the bytes in one stream: how many, and the digest taken. *)
Definition in_one (sc : schedule) (source target : endpoint) (src dst : option XRootDURL) (cfg : Config) (chunk : Z)
    (resuming : option _Resume) (overwrite report : bool) (d : option digest) : M (option tally) :=
  with_stack
    (e ← open_ends source target src dst cfg resuming overwrite;
     io (_pump (sc_fuel sc) (sc_ahead sc) e.1.1 e.2 e.1.2 chunk
           (if report then Some (offset_of resuming) else None) d (c_in_flight cfg))).

(** The plan: what [copy] knows before the first byte moves. *)
Record job := mkJob {
  jb_src : option XRootDURL; jb_dst : option XRootDURL; jb_chunk : Z; jb_algo : str;
  jb_resuming : option _Resume; jb_spread : option _Spread; jb_wanted : bool
}.

Definition plan_of (source target : endpoint) (o : options) (cfg : Config) : M job :=
  let chunk := or_num (op_chunk_size o) (c_chunk_size cfg) in
  let algo := or_str (op_algorithm o) (c_preferred_checksum cfg) in
  src ← lift (_target_url source);
  dst ← lift (_target_url target);
  resuming ← (if op_resume o then _continue_from src dst cfg (op_overwrite o) else mret None);
  spread ← match resuming with Some _ => mret None | None => _spread src dst cfg chunk end;
  mret (mkJob src dst chunk algo resuming spread (default (c_verify_checksums cfg) (op_verify o))).

(** The two files a transfer that cannot digest its stream must compare. *)
Definition ends_of (j : job) : option (XRootDURL * XRootDURL) :=
  match jb_resuming j, jb_spread j with
  | Some r, _ => Some (rs_source r, rs_target r)
  | None, Some p => Some (sp_source p, sp_target p)
  | None, None => None
  end.

(** The digest to take on the way, if some server can be asked about it. *)
Definition digest_for (j : job) : res (option digest) :=
  match checkable (jb_src j) (jb_dst j), ends_of j with
  | Some _, None => if jb_wanted j then d ← new lower (jb_algo j); Ok (Some d) else Ok None
  | _, _ => Ok None
  end.

(** The transfer itself. *)
Definition transfer (sc : schedule) (source target : endpoint) (o : options) (cfg : Config) (j : job) (d : option digest)
    : M (option tally) :=
  match jb_spread j with
  | Some p =>
      bind_opt (_in_parallel p cfg (jb_chunk j) (op_progress o) (sc_team sc) (op_overwrite o))
        (fun n => mret (Some (None, n)))
  | None =>
      in_one sc source target (jb_src j) (jb_dst j) cfg (jb_chunk j) (jb_resuming j) (op_overwrite o) (op_progress o) d
  end.

(** What the check after the transfer found. *)
Definition verification (sc : schedule) (o : options) (cfg : Config) (j : job) (d : option digest)
    : M (option (option ChecksumInfo)) :=
  let strict := bool_decide (op_verify o = Some true) in
  match ends_of j with
  | Some (s, t) => if jb_wanted j then _compare_ends (sc_fuel sc) s t cfg (jb_algo j) strict else mret (Some None)
  | None =>
      match d, checkable (jb_src j) (jb_dst j) with
      | Some d, Some u => c ← _compare u cfg (jb_algo j) (hexdigest hashlib d) strict; mret (Some c)
      | _, _ => mret (Some None)
      end
  end.

(** The transfer, timed, then verified. *)
Definition moved_and_checked (sc : schedule) (source target : endpoint) (o : options) (cfg : Config) (j : job)
    : M (option (Z * Q * option ChecksumInfo)) :=
  d ← lift (digest_for j);
  started ← (fun w => let '(w, t) := monotonic w in (w, Ok t)) : M Q;
  bind_opt (transfer sc source target o cfg j d) (fun t =>
  ended ← (fun w => let '(w, t) := monotonic w in (w, Ok t)) : M Q;
  bind_opt (verification sc o cfg j t.1) (fun c =>
  mret (Some (t.2, Qminus ended started, c)))).

Definition copy (sc : schedule) (source target : endpoint) (o : options) (cfg : Config) : M (option CopyResult) :=
  if op_dry_run o then
    src ← lift (_target_url source);
    dst ← lift (_target_url target);
    known ← match src with Some u => _probe u cfg | None => mret None end;
    s ← lift (shown source src);
    t ← lift (shown target dst);
    mret (Some (mkResult s t (match known with Some (n, _) => n | None => 0 end) 0 None 0))
  else
    j ← plan_of source target o cfg;
    bind_opt (moved_and_checked sc source target o cfg j) (fun '(size, seconds, checksum) =>
    match jb_src j with
    | Some u => if op_remove_source o then _remove u cfg else mret tt
    | None => mret tt
    end ≫= fun _ =>
    s ← lift (shown source (jb_src j));
    t ← lift (shown target (jb_dst j));
    mret (Some (mkResult s t size seconds checksum (offset_of (jb_resuming j))))).
End Copy.
End Copy.

(** ** The pump moves every byte

    One invariant of a transfer - what is left of the source, what has been
    written - serves both forms of the pump: the plain loop, and the one that
    reads ahead in a thread of its own, under every schedule. *)

Open Scope Z_scope.

Import Copy.

(** Closing the streams keeps an exception an exception, and a value the
    value it is unless closing raises. *)
Lemma close_all_err {H F W A} `{CopyEnv H F W} (hs : list H) e (w : W) : exists w' e', close_all hs (Err e : res A) w = (w', Err e').
Proof.
  revert e w. induction hs as [|h hs IH]; intros e w; cbn; [by eexists _, _|].
  destruct (h_close h w) as [w' [u|e']]; apply IH.
Qed.

Lemma close_all_ok {H F W A} `{CopyEnv H F W} (a : A) (hs : list H) (w : W) :
  match close_all hs (Ok a) w with (_, Ok b) => b = a | _ => True end.
Proof.
  revert w. induction hs as [|h hs IH]; intros w; cbn; [done|]. destruct (h_close h w) as [w' [u|e]]; [apply IH|].
  by destruct (close_all_err (A := A) hs e w') as (w2 & e2 & ->).
Qed.

Section Pump.
Context {H F W : Type} `{CopyEnv H F W}.
Variable reader writer : H.

(** What two binary streams promise: reading gives the bytes in order and
    nothing only at the end, writing appends, and neither nor the progress
    callback disturbs the other; [fails] is what an exception means. *)
Class Moving (fails : Prop) (Inv : bytes -> bytes -> W -> Prop) := {
  moving_readinto readinto n left out w :
    h_readinto reader = Some readinto -> 0 < n -> Inv left out w ->
    match readinto n w with
    | (w', Ok d) => exists rest, left = default [] d ++ rest /\ (default [] d = [] -> left = []) /\ Inv rest out w'
    | (_, Err _) => fails
    end;
  moving_read n left out w :
    h_readinto reader = None -> 0 < n -> Inv left out w ->
    match h_read reader n w with
    | (w', Ok d) => exists rest, left = d ++ rest /\ zlen d <= n /\ (d = [] -> left = []) /\ Inv rest out w'
    | (_, Err _) => fails
    end;
  moving_write d left out w :
    Inv left out w ->
    match h_write writer d w with (w', Ok _) => Inv left (out ++ d) w' | (_, Err _) => fails end;
  moving_progress n total left out w :
    Inv left out w ->
    match progress n total w with (w', Ok _) => Inv left out w' | (_, Err _) => fails end
}.

Context {fails : Prop} {Inv : bytes -> bytes -> W -> Prop} `{!Moving fails Inv}.

Lemma fill_moves exported n left out w :
  0 < n -> Inv left out w ->
  match _fill exported reader n w with
  | (w', Ok d) => exists rest, left = d ++ rest /\ (d = [] -> left = []) /\ Inv rest out w'
  | (_, Err _) => fails
  end.
Proof.
  intros Hn Hi. unfold _fill. destruct (h_readinto reader) as [readinto|] eqn:E.
  - pose proof (moving_readinto readinto n left out w E Hn Hi) as Hm. rewrite st_bind_eq.
    by destruct (readinto n w) as [w' [d|e]].
  - pose proof (moving_read n left out w E Hn Hi) as Hm. rewrite st_bind_eq.
    destruct (h_read reader n w) as [w' [d|e]]; [|done]. destruct Hm as (rest & ? & Hl & ? & ?).
    destruct (Z.ltb_spec n (zlen d)); [lia|]. rewrite andb_false_r. by exists rest.
Qed.

Lemma reporting_moves report n total left out w :
  Inv left out w ->
  match reporting report n total w with (w', Ok _) => Inv left out w' | (_, Err _) => fails end.
Proof. intros Hi. unfold reporting. destruct report; [by apply moving_progress | done]. Qed.

(** ** The tally *)

Variable d0 : option digest.
Hypothesis d0_additive : forall d, d0 = Some d -> additive d.

(** The count and the digest are those of what has been written. *)
Definition tallied (t : tally) (out : bytes) : Prop :=
  t.2 = zlen out
  /\ match d0, t.1 with Some d0, Some d => update d0 out = Some d | None, None => True | _, _ => False end.

Lemma tallied_start : tallied (d0, 0) [].
Proof. split; [done|]. cbn. destruct d0 as [d|]; [|done]. by apply (proj1 (d0_additive d eq_refl)). Qed.

Lemma digesting_tallied piece t out :
  tallied t out -> exists t', digesting piece t = Ok t' /\ tallied t' (out ++ piece).
Proof.
  intros [Hn Hd]. unfold digesting, tallied. destruct d0 as [e|] eqn:E, (t.1) as [d|]; try done.
  - destruct (proj2 (d0_additive e eq_refl) out d piece Hd) as [Eu [d' Hd']]. rewrite Hd'.
    eexists. split; [done|]. cbn. rewrite zlen_app, Hn, <- Hd', Eu. done.
  - eexists. split; [done|]. cbn. by rewrite zlen_app, Hn.
Qed.

(** ** The plain loop *)

Lemma pump_loop_moves total chunk report fuel left out t w :
  0 < chunk -> Inv left out w -> tallied t out -> (length left < fuel)%nat ->
  match pump_loop fuel reader writer total chunk report t w with
  | (w', Ok (Some t')) => Inv [] (out ++ left) w' /\ tallied t' (out ++ left)
  | (_, Ok None) => False
  | (_, Err _) => fails
  end.
Proof.
  intros Hc. revert left out t w. induction fuel as [|fuel IH]; intros left out t w Hi Ht Hf; [lia|].
  cbn [pump_loop]. rewrite st_bind_eq. pose proof (fill_moves true chunk left out w Hc Hi) as Hr.
  destruct (_fill true reader chunk w) as [w1 [piece|e]]; [|done]. destruct Hr as (rest & -> & Hend & Hi1).
  destruct piece as [|b piece].
  { specialize (Hend eq_refl). cbn in Hend. subst rest. cbn. by rewrite app_nil_r. }
  set (p := b :: piece) in *. rewrite st_bind_eq. pose proof (moving_write p rest out w1 Hi1) as Hw.
  destruct (h_write writer p w1) as [w2 [n|e]]; [|done]. destruct (digesting_tallied p t out Ht) as (t' & Et & Ht').
  rewrite st_bind_eq. unfold lift. rewrite Et. rewrite st_bind_eq.
  pose proof (reporting_moves report (t'.2) total rest (out ++ p) w2 Hw) as Hp.
  destruct (reporting report (t'.2) total w2) as [w3 [[]|e]]; [|done].
  rewrite app_assoc. apply IH; [done | done |]. subst p. rewrite length_app in Hf. cbn in Hf. lia.
Qed.
End Pump.
