(* ===== verification/CopyAhead.v ===== *)
(** * Reading ahead

    The reader thread of [_Ahead] and the loop that drains it, under every
    schedule: the queue never outgrows its depth, chunks are written in the
    order they were read and none is lost or repeated, an exception of the
    reader reaches the caller after the chunks before it, and as long as
    neither thread is starved both end. *)

From S2P Require Import Prelude PyStr Errors Responses ConfigFile Url UrlText Checksum FileClient Copy.
Open Scope Z_scope.

Import Copy.

Section Ahead.
Context {H F W : Type} `{CopyEnv H F W}.
Variable reader writer : H.
Context {fails : Prop} {Inv : bytes -> bytes -> W -> Prop} `{!Moving reader writer fails Inv}.
Variable d0 : option digest.
Hypothesis d0_additive : forall d, d0 = Some d -> additive d.
Variable total : option Z.
Variable chunk_size depth : Z.
Variable report : option Z.
Hypothesis chunk_positive : 0 < chunk_size.
Hypothesis depth_positive : 0 < depth.
Variable source : bytes.

Notation ahead := (@ahead W).
Notation step := (step reader writer total chunk_size depth report).
Notation run := (run reader writer total chunk_size depth report).
Notation reader_step := (reader_step reader chunk_size depth).
Notation loop_step := (loop_step writer total report).

(** ** The pipe *)

(** What the reader holds, and everything between it and the loop. *)
Definition hand (r : reader_at) : list item :=
  match r with Checking i | Putting i => [i] | Filling | Exited => [] end.
Definition pipe (s : ahead) : list item := ah_queue s ++ hand (ah_reader s).

(** Chunks are on their way, with more to read behind them. *)
Definition going (r : reader_at) : Prop :=
  match r with Filling | Checking (Piece _) | Putting (Piece _) => True | _ => False end.
(** The end of the stream has been seen. *)
Definition ending (r : reader_at) : Prop :=
  match r with Exited | Checking End_ | Putting End_ => True | _ => False end.
(** An exception has, and it is in the hand or already in the queue. *)
Definition raising (r : reader_at) : Prop :=
  match r with Checking (Raised _) | Putting (Raised _) => True | _ => False end.

Inductive flow (s : ahead) (current : bytes) : Prop :=
  | Flowing left out bs :
      Inv left out (ah_world s) -> source = out ++ current ++ concat bs ++ left -> tallied d0 (ah_tally s) out ->
      pipe s = Piece <$> bs -> going (ah_reader s) -> flow s current
  | Ended out bs :
      Inv [] out (ah_world s) -> source = out ++ current ++ concat bs -> tallied d0 (ah_tally s) out ->
      pipe s = (Piece <$> bs) ++ [End_] -> ending (ah_reader s) -> flow s current
  | Broken bs e tl :
      fails -> pipe s = (Piece <$> bs) ++ Raised e :: tl ->
      (tl = [] /\ raising (ah_reader s) \/ tl = [End_] /\ ending (ah_reader s)) -> flow s current.

(** What holds of the transfer wherever the loop is. *)
Definition J (s : ahead) : Prop :=
  match ah_loop s with
  | Getting | Reporting => ah_stop s = false /\ flow s []
  | Writing b => ah_stop s = false /\ flow s b
  | Stopping (Ok _) | Joining (Ok _) | Left_ (Ok _) =>
      ah_reader s = Exited /\ Inv [] source (ah_world s) /\ tallied d0 (ah_tally s) source
  | Stopping (Err _) | Joining (Err _) | Left_ (Err _) => fails
  end.

Lemma J_start w : Inv source [] w -> J (ahead_start (d0, 0) w).
Proof.
  intros Hi. split; [done|]. apply (Flowing _ _ source [] []); cbn; [done | done | by apply tallied_start | done | done].
Qed.

(** ** The reader *)

(** A step of the reader only adds to the end of the pipe. *)
Lemma reader_flow s s' current :
  ah_stop s = false -> reader_step s = Some s' -> flow s current -> flow s' current.
Proof.
  intros Hs E Hf. unfold Copy.reader_step in E. destruct (ah_reader s) as [|i|i|] eqn:Er; [| | |done].
  - destruct (Z.ltb_spec chunk_size 0); [lia|]. destruct Hf as [left out bs Hi Hsrc Ht Hp Hg|out bs _ _ _ _ Hg|bs e tl Hfail _ Hg];
      [|by rewrite Er in Hg | rewrite Er in Hg; cbn in Hg; tauto].
    pose proof (fill_moves reader writer false chunk_size left out (ah_world s) chunk_positive Hi) as Hr.
    destruct (_fill false reader chunk_size (ah_world s)) as [w' [d|e]]; injection E as <-; unfold pipe in Hp; rewrite Er in Hp;
      cbn in Hp; rewrite app_nil_r in Hp.
    + destruct Hr as (rest & -> & Hend & Hi'). destruct d as [|b d].
      * apply (Ended _ _ out bs); unfold pipe; cbn; rewrite ?Hp; try done; specialize (Hend eq_refl); cbn in Hend; subst rest;
          [done | by rewrite !app_nil_r in Hsrc].
      * apply (Flowing _ _ rest out (bs ++ [b :: d])); unfold pipe; cbn; rewrite ?Hp, ?fmap_app; try done.
        rewrite Hsrc, concat_app. cbn. by rewrite app_nil_r, <- !app_assoc.
    + apply (Broken _ _ bs e []); [done | unfold pipe; cbn; by rewrite Hp | by left].
  - rewrite Hs in E. injection E as <-.
    destruct Hf as [left out bs Hi Hsrc Ht Hp Hg|out bs Hi Hsrc Ht Hp Hg|bs e tl Hfail Hp Hg]; unfold pipe in Hp; rewrite Er in *.
    + by apply (Flowing _ _ left out bs).
    + by apply (Ended _ _ out bs).
    + by apply (Broken _ _ bs e tl).
  - destruct (zlen (ah_queue s) <? depth); injection E as <-;
    destruct Hf as [left out bs Hi Hsrc Ht Hp Hg|out bs Hi Hsrc Ht Hp Hg|bs e tl Hfail Hp Hg]; unfold pipe in Hp; rewrite Er in *.
    + apply (Flowing _ _ left out bs); unfold pipe; cbn; try done; destruct i; try done. by rewrite app_nil_r.
    + apply (Ended _ _ out bs); unfold pipe; cbn; try done; destruct i; try done. by rewrite app_nil_r.
    + destruct i; cbn in *; [tauto | |].
      * destruct Hg as [[-> _]|[_ []]]. apply (Broken _ _ bs e [End_]); [done | unfold pipe; cbn; by rewrite Hp, <- app_assoc | by right].
      * destruct Hg as [[_ []]|[-> _]]. apply (Broken _ _ bs e [End_]); [done | unfold pipe; cbn; by rewrite app_nil_r | by right].
    + by apply (Flowing _ _ left out bs).
    + by apply (Ended _ _ out bs).
    + by apply (Broken _ _ bs e tl).
Qed.

Lemma reader_keeps s s' : reader_step s = Some s' -> ah_loop s' = ah_loop s /\ ah_stop s' = ah_stop s.
Proof.
  unfold Copy.reader_step. destruct (ah_reader s); [|by intros [= <-] | destruct (_ <? _); by intros [= <-] | done].
  destruct (if chunk_size <? 0 then _ else _) as [w r]. by intros [= <-].
Qed.

Lemma reader_J s s' : reader_step s = Some s' -> J s -> J s'.
Proof.
  intros E Hj. pose proof (reader_keeps s s' E) as [El Es]. unfold J in *. rewrite El, Es.
  destruct (ah_loop s) as [|b| |[[]|]|[[]|]|[[]|]]; try done;
    try (destruct Hj as [Hr _]; unfold Copy.reader_step in E; by rewrite Hr in E);
    destruct_all; split_and!; try done; by eapply reader_flow.
Qed.

(** ** The loop *)

(** Taking the next item off the queue. *)
Lemma getting_flow s i q :
  ah_queue s = i :: q -> ah_stop s = false -> flow s [] ->
  J (at_loop s (ah_world s) q
       (match i with Piece b => Writing b | Raised e => Stopping (Err e) | End_ => Stopping (Ok tt) end)).
Proof.
  intros Eq Hs [left out bs Hi Hsrc Ht Hp Hg|out bs Hi Hsrc Ht Hp Hg|bs e tl Hf Hp Hg]; unfold pipe in Hp; rewrite Eq in Hp.
  - destruct bs as [|b bs]; [done|]. injection Hp as -> Hp. split; [done|]. cbn in Hsrc. rewrite <- app_assoc in Hsrc. by apply (Flowing _ _ left out bs).
  - destruct bs as [|b bs]; injection Hp as -> Hp.
    + apply app_eq_nil in Hp as [-> Hh]. cbn in Hsrc. rewrite !app_nil_r in Hsrc.
      cbn. rewrite Hsrc. split; [|done]. by destruct (ah_reader s).
    + split; [done|]. by apply (Ended _ _ out bs).
  - destruct bs as [|b bs]; injection Hp as -> Hp; [done|]. split; [done|]. by apply (Broken _ _ bs e tl).
Qed.

(** A write, its digest and the report of it move the current piece out. *)
Lemma writing_flow s b s' :
  ah_loop s = Writing b -> loop_step s = Some s' -> ah_stop s = false -> flow s b -> J s'.
Proof.
  intros El E Hs Hf. unfold Copy.loop_step in E. rewrite El in E.
  destruct Hf as [left out bs Hi Hsrc Ht Hp Hg|out bs Hi Hsrc Ht Hp Hg|bs e tl Hf Hp Hg].
  1: pose proof (moving_write reader writer b left out _ Hi) as Hw. 2: pose proof (moving_write reader writer b [] out _ Hi) as Hw.
  1,2: destruct (digesting_tallied d0 d0_additive b _ out Ht) as (t & Et & Ht'); rewrite Et in E;
    destruct (h_write writer b (ah_world s)) as [w [n|e]]; injection E as <-; [|done]; split; [done|].
  - apply (Flowing _ _ left (out ++ b) bs); try done. by rewrite <- app_assoc.
  - apply (Ended _ _ (out ++ b) bs); try done. by rewrite <- app_assoc.
  - destruct (h_write writer b (ah_world s)) as [w [n|e']]; [|by injection E as <-].
    destruct (digesting b (ah_tally s)) as [t|]; injection E as <-; [|done]. split; [done|]. by apply (Broken _ _ bs e tl).
Qed.

Lemma reporting_flow s s' :
  ah_loop s = Reporting -> loop_step s = Some s' -> ah_stop s = false -> flow s [] -> J s'.
Proof.
  intros El E Hs Hf. unfold Copy.loop_step in E. rewrite El in E.
  destruct Hf as [left out bs Hi Hsrc Ht Hp Hg|out bs Hi Hsrc Ht Hp Hg|bs e tl Hf Hp Hg].
  1: pose proof (reporting_moves reader writer report (ah_tally s).2 total left out _ Hi) as Hw.
  2: pose proof (reporting_moves reader writer report (ah_tally s).2 total [] out _ Hi) as Hw.
  all: destruct (reporting report _ _ _) as [w [[]|e']]; injection E as <-; [|done]; split; [done|].
  - by apply (Flowing _ _ left out bs).
  - by apply (Ended _ _ out bs).
  - by apply (Broken _ _ bs e tl).
Qed.

Lemma loop_J s s' : loop_step s = Some s' -> J s -> J s'.
Proof.
  intros E Hj. unfold J in Hj. destruct (ah_loop s) as [|b| |r|r|r] eqn:El.
  - destruct Hj as [Hs Hf]. unfold Copy.loop_step in E. rewrite El in E. destruct (ah_queue s) as [|i q] eqn:Eq; [done|].
    injection E as <-. by apply getting_flow.
  - destruct Hj. by eapply writing_flow.
  - destruct Hj. by eapply reporting_flow.
  - unfold Copy.loop_step in E. rewrite El in E. injection E as <-. by destruct r as [[]|].
  - unfold Copy.loop_step in E. rewrite El in E. destruct r as [[]|].
    + destruct Hj as [Hr Hj]. rewrite Hr in E. injection E as <-. by split.
    + destruct (ah_reader s); injection E as <-; done.
  - unfold Copy.loop_step in E. by rewrite El in E.
Qed.

Lemma step_J a s : J s -> J (step a s).
Proof.
  intros Hj. unfold Copy.step. destruct a.
  - destruct (reader_step s) eqn:E; [by eapply reader_J | done].
  - destruct (loop_step s) eqn:E; [by eapply loop_J | done].
Qed.

Lemma run_J sched s : J s -> J (run sched s).
Proof. revert s. induction sched as [|a sched IH]; intros s Hj; [done|]. apply IH, step_J, Hj. Qed.

(** ** The depth of the queue *)

Definition bounded (s : ahead) : Prop := zlen (ah_queue s) <= depth.

Lemma step_bounded a s : bounded s -> bounded (step a s).
Proof.
  unfold bounded. intros Hb. unfold Copy.step. destruct a.
  - unfold Copy.reader_step. destruct (ah_reader s) as [|i|i|]; cbn; [|done| |done].
    + destruct (if chunk_size <? 0 then _ else _) as [w r]. done.
    + destruct (Z.ltb_spec (zlen (ah_queue s)) depth); cbn; [rewrite zlen_app, zlen_cons, zlen_nil; lia | done].
  - unfold Copy.loop_step. destruct (ah_loop s) as [|b| |r|r|r]; cbn; [| | |done| |done].
    + destruct (ah_queue s) as [|i q] eqn:E; cbn; [by rewrite E | rewrite zlen_cons in Hb; lia].
    + destruct (h_write writer b (ah_world s)) as [w [n|e]]; [|done]. by destruct (digesting b (ah_tally s)).
    + by destruct (reporting _ _ _ _) as [w r].
    + assert (zlen (tail (ah_queue s)) <= zlen (ah_queue s)) by (destruct (ah_queue s); cbn; rewrite ?zlen_cons; lia).
      destruct (ah_reader s); cbn; lia.
Qed.

Lemma run_bounded sched s : bounded s -> bounded (run sched s).
Proof. revert s. induction sched as [|a sched IH]; intros s Hj; [done|]. apply IH, step_bounded, Hj. Qed.

(** ** Both threads end *)

Local Open Scope nat_scope.

(** How much a reader still has to do: with [k] bytes left to read, and once
    it has been told to stop. *)
Definition weight (k : nat) (r : reader_at) : nat :=
  match r with
  | Filling => 10 * (k + 2)
  | Checking (Piece _) | Putting (Piece _) => 10 * (k + 2) + 5
  | Checking (Raised _) | Putting (Raised _) => 12
  | Checking End_ | Putting End_ => 5
  | Exited => 0
  end.
Definition weight_stopped (r : reader_at) : nat :=
  match r with Putting _ => 40 | Filling => 30 | Checking End_ => 5 | Checking _ => 20 | Exited => 0 end.

Definition room : nat := 4 * Z.to_nat depth.

Definition flowing (s : ahead) (extra n : nat) : Prop :=
  exists left out, (going (ah_reader s) -> Inv left out (ah_world s))
    /\ n = 100 + room + extra + 4 * length (ah_queue s) + weight (length left) (ah_reader s).

(** [n] bounds the steps that matter from [s] on. *)
Definition potential (s : ahead) (n : nat) : Prop :=
  match ah_loop s with
  | Getting => flowing s 0 n
  | Writing _ => flowing s 3 n
  | Reporting => flowing s 2 n
  | Stopping _ => n = 90 + room
  | Joining _ => ah_stop s = true /\ n = 2 + 4 * length (ah_queue s) + weight_stopped (ah_reader s)
  | Left_ _ => n = 0
  end.

(** A step that brings nothing nearer: a thread waiting for the other. *)
Definition neutral (a : actor) (s s' : ahead) : Prop :=
  match a with
  | Loop =>
      s' = s /\ match ah_loop s with
                | Left_ _ => True
                | Getting => ah_queue s = []
                | Joining _ => ah_queue s = [] /\ ah_reader s <> Exited
                | _ => False
                end
  | Reader =>
      ah_loop s' = ah_loop s
      /\ ((exists r, ah_loop s = Stopping r \/ ah_loop s = Left_ r)
          \/ ah_queue s' = ah_queue s
             /\ match ah_reader s with
                | Filling => False
                | Checking i => ah_reader s' = Putting i
                | Putting _ => (depth <= zlen (ah_queue s))%Z
                | Exited => s' = s
                end)
  end.

(** A step of the reader while the loop still wants its chunks. *)
Lemma reader_flowing s extra n :
  ah_stop s = false -> flowing s extra n ->
  exists n', flowing (step Reader s) extra n'
    /\ (n' < n \/ n' = n /\ ah_queue (step Reader s) = ah_queue s
        /\ match ah_reader s with
           | Filling => False
           | Checking i => ah_reader (step Reader s) = Putting i
           | Putting _ => (depth <= zlen (ah_queue s))%Z
           | Exited => step Reader s = s
           end).
Proof.
  intros Hs (left & out & Hi & ->). unfold Copy.step, Copy.reader_step. destruct (ah_reader s) as [|i|i|] eqn:Er.
  - destruct (Z.ltb_spec chunk_size 0); [lia|]. pose proof (Hi I) as Hi'.
    pose proof (fill_moves reader writer false chunk_size left out (ah_world s) chunk_positive Hi') as Hr.
    destruct (_fill false reader chunk_size (ah_world s)) as [w' [[|b d]|e]]; cbn [default].
    + eexists. split; [exists left, out; split; [done | reflexivity]|]. cbn. lia.
    + destruct Hr as (rest & -> & _ & Hi2). eexists. split; [exists rest, out; split; [done | reflexivity]|].
      cbn. rewrite length_app. lia.
    + eexists. split; [exists left, out; split; [done | reflexivity]|]. cbn. lia.
  - rewrite Hs. eexists. split; [exists left, out; split; [exact Hi | reflexivity]|]. right. cbn. by destruct i.
  - destruct (Z.ltb_spec (zlen (ah_queue s)) depth) as [Hq|Hq]; cbn [default].
    + eexists. split; [exists left, out; split; [|reflexivity]|].
      * by destruct i.
      * left. cbn. rewrite length_app. destruct i; cbn; lia.
    + eexists. split; [exists left, out; split; [exact Hi | reflexivity]|]. right. cbn. by destruct i.
  - cbn. eexists. split; [exists left, out; split; [|reflexivity]; by rewrite Er|]. right. rewrite Er. done.
Qed.

(** The count of a state whose loop has gone on. *)
Lemma flowing_loop s w q l t extra n k :
  flowing s extra n -> (forall left out, Inv left out (ah_world s) -> exists out', Inv left out' w) ->
  4 * length q + k < 4 * length (ah_queue s) + extra ->
  exists n', flowing (mkAhead w q (ah_stop s) (ah_reader s) l t) k n' /\ n' < n.
Proof.
  intros (left & out & Hi & ->) Hw Hq. destruct (ah_reader s) as [|i|i|] eqn:Er.
  1: destruct (Hw left out (Hi I)) as [out' Hi']. 2,3: destruct i as [b|e|].
  2,5: destruct (Hw left out (Hi I)) as [out' Hi'].
  all: eexists; split; [first [exists left, out'; split; [done | reflexivity] | exists left, out; split; [by intros [] | reflexivity]]
    | cbn; lia].
Qed.

(** A step of the reader once it is not wanted any more. *)
Lemma reader_stopped s :
  ah_stop s = true -> ah_reader s <> Exited ->
  4 * length (ah_queue (step Reader s)) + weight_stopped (ah_reader (step Reader s))
  < 4 * length (ah_queue s) + weight_stopped (ah_reader s).
Proof.
  intros Hs Hr. unfold Copy.step, Copy.reader_step. destruct (ah_reader s) as [|i|i|]; [| | |done].
  - destruct (if (chunk_size <? 0)%Z then _ else _) as [w [[|b d]|e]]; cbn; lia.
  - rewrite Hs. destruct i; cbn; lia.
  - destruct (zlen (ah_queue s) <? depth)%Z; cbn; [rewrite length_app|]; destruct i; cbn; lia.
Qed.

Lemma reader_step_keeps s : ah_loop (step Reader s) = ah_loop s /\ ah_stop (step Reader s) = ah_stop s.
Proof. unfold Copy.step. destruct (reader_step s) eqn:E; [by apply reader_keeps | done]. Qed.

Lemma reader_potential s n :
  J s -> potential s n ->
  exists n', potential (step Reader s) n' /\ (n' < n \/ n' = n /\ neutral Reader s (step Reader s)).
Proof.
  intros Hj Hp. destruct (reader_step_keeps s) as [El Es]. unfold J in Hj. unfold potential, neutral in *. rewrite El.
  destruct (ah_loop s) as [|b| |r|r|r].
  1-3: destruct Hj as [Hs _]; destruct (reader_flowing s _ n Hs Hp) as (n' & Hn & Hl); exists n'; split; [done|]; tauto.
  - exists n. split; [done|]. right. split_and!; [done..|]. left. exists r. by left.
  - destruct Hp as [Hs ->]. destruct (ah_reader s) eqn:Er.
    4: { assert (step Reader s = s) as Ee by (unfold Copy.step, Copy.reader_step; by rewrite Er).
         rewrite Ee. eexists. rewrite Er. split; [by split|]. right. split_and!; try done. right. done. }
    all: pose proof (reader_stopped s Hs ltac:(by rewrite Er)) as Hl; rewrite Er in Hl; rewrite Es;
      eexists; split; [split; [done | reflexivity]|]; left; lia.
  - exists 0. subst n. split; [done|]. right. split_and!; [done..|]. left. exists r. by right.
Qed.

(** Every way out of the loop body is below every way on. *)
Lemma flowing_above s extra n : flowing s extra n -> 90 + room < n.
Proof. intros (left & out & _ & ->). lia. Qed.

Lemma queue_room s : bounded s -> 4 * length (ah_queue s) <= room.
Proof. unfold bounded, room, zlen. lia. Qed.

Lemma weight_stopped_le r : weight_stopped r <= 40.
Proof. destruct r as [|[]|[]|]; cbn; lia. Qed.

Lemma loop_potential s n :
  J s -> bounded s -> potential s n ->
  exists n', potential (step Loop s) n' /\ (n' < n \/ n' = n /\ neutral Loop s (step Loop s)).
Proof.
  intros Hj Hb Hp. unfold potential, neutral in *. unfold Copy.step, Copy.loop_step. destruct (ah_loop s) as [|b| |r|r|r] eqn:El.
  - destruct (ah_queue s) as [|i q] eqn:Eq; cbn [default].
    { rewrite El. exists n. split; [done|]. by right. }
    destruct i as [b|e|]; cbn; [|exists (90 + room); split; [done|]; left; by eapply flowing_above..].
    destruct (flowing_loop s (ah_world s) q (Writing b) (ah_tally s) 0 n 3 Hp) as (n' & Hn & Hl);
      [eauto | rewrite Eq; cbn; lia|]. exists n'. split; [exact Hn | by left].
  - destruct (h_write writer b (ah_world s)) as [w [m|e]] eqn:Ew; [|exists (90 + room); split; [done|]; left; by eapply flowing_above].
    destruct (digesting b (ah_tally s)) as [t|e]; cbn; [|exists (90 + room); split; [done|]; left; by eapply flowing_above].
    destruct (flowing_loop s w (ah_queue s) Reporting t 3 n 2 Hp) as (n' & Hn & Hl); [|lia | exists n'; split; [exact Hn | by left]].
    intros left out Hi. pose proof (moving_write reader writer b left out _ Hi) as Hw. rewrite Ew in Hw. eauto.
  - destruct (reporting report _ _ _) as [w [u|e]] eqn:Ew; cbn; [|exists (90 + room); split; [done|]; left; by eapply flowing_above].
    destruct (flowing_loop s w (ah_queue s) Getting (ah_tally s) 2 n 0 Hp) as (n' & Hn & Hl); [|lia | exists n'; split; [exact Hn | by left]].
    intros left out Hi. pose proof (reporting_moves reader writer report (ah_tally s).2 total left out _ Hi) as Hw.
    rewrite Ew in Hw. eauto.
  - cbn. eexists. split; [split; [done | reflexivity]|]. left. pose proof (queue_room s Hb). pose proof (weight_stopped_le (ah_reader s)). lia.
  - destruct Hp as [Hs ->]. destruct (ah_reader s) eqn:Er; cbn [default].
    4: { exists 0. cbn. split; [done|]. left. lia. }
    all: destruct (ah_queue s) as [|i0 q] eqn:Eq; cbn; rewrite Er; (eexists; split; [split; [done | reflexivity]|]); [right | left; cbn; lia];
      split_and!; try done; destruct s; cbn in *; by subst.
  - cbn. rewrite El. exists n. split; [done|]. by right.
Qed.

Lemma step_potential a s n :
  J s -> bounded s -> potential s n ->
  exists n', potential (step a s) n' /\ (n' < n \/ n' = n /\ neutral a s (step a s)).
Proof. destruct a; [intros ? _; by apply reader_potential | apply loop_potential]. Qed.

(** A stretch of a schedule in which nothing came nearer. *)
Fixpoint calm (sched : list actor) (s : ahead) : Prop :=
  match sched with [] => True | a :: sched => neutral a s (step a s) /\ calm sched (step a s) end.

Lemma run_potential sched s n :
  J s -> bounded s -> potential s n ->
  exists n', potential (run sched s) n' /\ (n' < n \/ n' = n /\ calm sched s).
Proof.
  revert s n. induction sched as [|a sched IH]; intros s n Hj Hb Hp; [exists n; split; [done|]; by right|].
  destruct (step_potential a s n Hj Hb Hp) as (m & Hm & Hl).
  destruct (IH (step a s) m (step_J a s Hj) (step_bounded a s Hb) Hm) as (n' & Hn & Hl').
  exists n'. split; [exact Hn|]. destruct Hl as [|[-> Hna]], Hl' as [|[-> Hc]]; [left; lia.. | right; by split].
Qed.

#[local] Instance actor_eq_dec : EqDecision actor.
Proof. solve_decision. Defined.

Definition readers (sched : list actor) : nat := length (filter (fun a => a = Reader) sched).

(** In such a stretch the loop waits for an empty queue, or is gone. *)
Lemma calm_waits sched s :
  calm sched s -> Loop ∈ sched ->
  (exists r, ah_loop s = Left_ r) \/ ah_queue s = [] /\ (ah_loop s = Getting \/ exists r, ah_loop s = Joining r).
Proof.
  revert s. induction sched as [|[] sched IH]; intros s Hc Hl; [by apply elem_of_nil in Hl | |].
  - apply elem_of_cons in Hl as [|Hl]; [done|]. destruct Hc as [[El Hn] Hc]. destruct (IH _ Hc Hl) as [Hd|[Hq Hd]]; rewrite El in *.
    + by left.
    + right. split; [|done]. destruct Hn as [(r & Hr)|[<- _]]; [|done].
      destruct Hd as [Hd|[r' Hd]], Hr as [Hr|Hr]; congruence.
  - destruct Hc as [[_ Hn] _]. destruct (ah_loop s); try done; [by right; auto | right; split; [tauto|] | left]; eauto.
Qed.

(** With an empty queue a reader cannot step twice and be calm. *)
Lemma calm_putting sched s i :
  calm sched s -> ah_queue s = [] -> ah_loop s = Getting \/ (exists r, ah_loop s = Joining r) ->
  ah_reader s = Putting i -> readers sched = 0.
Proof.
  revert s. induction sched as [|a sched IH]; intros s Hc Hq Hl Hr; [done|]. destruct Hc as [Hn Hc], a.
  - destruct Hn as [_ [(r & Hd)|[_ Hp]]].
    + destruct Hl as [Hl|[r' Hl]], Hd as [Hd|Hd]; congruence.
    + rewrite Hr, Hq in Hp. unfold zlen in Hp. cbn in Hp. lia.
  - destruct Hn as [Hs _]. rewrite Hs in Hc. by apply (IH s).
Qed.

Lemma calm_readers sched s :
  calm sched s -> ah_queue s = [] -> ah_loop s = Getting \/ (exists r, ah_loop s = Joining r) ->
  ah_reader s = Exited \/ readers sched <= 1.
Proof.
  revert s. induction sched as [|a sched IH]; intros s Hc Hq Hl; [right; cbn; lia|]. destruct Hc as [Hn Hc], a.
  - destruct Hn as [El [(r & Hd)|[Eq Hp]]].
    { destruct Hl as [Hl|[r' Hl]], Hd as [Hd|Hd]; congruence. }
    destruct (ah_reader s) as [|i|i|] eqn:Er; [done | | |by left].
    + right. assert (readers sched = 0) as E; [|change (readers (Reader :: sched)) with (S (readers sched)); lia].
      apply (calm_putting sched _ i Hc); [by rewrite Eq | by rewrite El | done].
    + rewrite Hq in Hp. unfold zlen in Hp. cbn in Hp. lia.
  - destruct Hn as [Hs _]. rewrite Hs in Hc. by apply (IH s).
Qed.

(** Nobody waits for a reader that is gone. *)
Lemma calm_exited sched s :
  J s -> calm sched s -> Loop ∈ sched -> ah_queue s = [] -> ah_reader s = Exited ->
  ~ (ah_loop s = Getting \/ exists r, ah_loop s = Joining r).
Proof.
  intros Hj Hc Hl Hq Hr [Hg|[r Hg]].
  - unfold J in Hj. rewrite Hg in Hj. destruct Hj as [_ [left out bs _ _ _ Hp Hd|out bs _ _ _ Hp _|bs e tl _ Hp _]].
    + by rewrite Hr in Hd.
    + unfold pipe in Hp. rewrite Hq, Hr in Hp. by destruct bs.
    + unfold pipe in Hp. rewrite Hq, Hr in Hp. by destruct bs.
  - clear Hj. induction sched as [|[] sched IH]; [by apply elem_of_nil in Hl | |]; destruct Hc as [Hn Hc].
    + apply elem_of_cons in Hl as [|Hl]; [done|]. apply IH; [|done]. destruct Hn as [_ [(r' & [Hd|Hd])|[_ Hp]]]; [congruence..|].
      rewrite Hr in Hp. by rewrite Hp in Hc.
    + destruct Hn as [_ Hn]. rewrite Hg in Hn. tauto.
Qed.

Definition gone (s : ahead) : Prop := exists r, ah_loop s = Left_ r.

(** A stretch fair to both threads: the reader may find the queue full, so it
    is given two steps. *)
Definition fair (seg : list actor) : Prop := 2 <= readers seg /\ Loop ∈ seg.

Lemma fair_progress seg s n :
  J s -> bounded s -> potential s n -> fair seg -> gone s \/ exists n', potential (run seg s) n' /\ n' < n.
Proof.
  intros Hj Hb Hp [Hr Hl]. destruct (run_potential seg s n Hj Hb Hp) as (n' & Hn & [Hlt|[-> Hc]]); [right; by exists n'|].
  left. destruct (calm_waits seg s Hc Hl) as [Hd|[Hq Hd]]; [done|].
  destruct (calm_readers seg s Hc Hq Hd) as [He|He]; [|lia]. by destruct (calm_exited seg s Hj Hc Hl Hq He).
Qed.

Lemma gone_step a s : gone s -> gone (step a s).
Proof.
  intros [r Hr]. exists r. destruct a; [by rewrite (proj1 (reader_step_keeps s))|].
  unfold Copy.step, Copy.loop_step. by rewrite Hr.
Qed.
Lemma gone_run sched s : gone s -> gone (run sched s).
Proof. revert s. induction sched as [|a sched IH]; intros s Hg; [done|]. apply IH, gone_step, Hg. Qed.

Lemma run_app a b s : run (a ++ b) s = run b (run a s).
Proof. unfold Copy.run. apply foldl_app. Qed.

Lemma fair_ends segs s n :
  J s -> bounded s -> potential s n -> Forall fair segs -> n < length segs -> gone (run (concat segs) s).
Proof.
  revert s n. induction segs as [|seg segs IH]; intros s n Hj Hb Hp Hf Hn; [cbn in Hn; lia|].
  apply Forall_cons in Hf as [Hs Hf]. cbn [concat]. rewrite run_app.
  destruct (fair_progress seg s n Hj Hb Hp Hs) as [Hg|(m & Hm & Hlt)]; [by apply gone_run, gone_run|].
  apply (IH (run seg s) m); [by apply run_J | by apply run_bounded | done | done | cbn in Hn; lia].
Qed.

(** C14: however the two threads are interleaved, and wherever they are, the
    queue keeps within its depth, and as long as no stream and no callback has
    raised the target holds a prefix of the source in order, counted and
    digested as far as it goes; once the loop has left without an exception,
    and so in every transfer that returns, it holds all of it; and an
    exception in the queue or out of the loop is one a stream or the callback
    raised. *)
Theorem ahead_in_order sched w :
  Inv source [] w ->
  let s := run sched (ahead_start (d0, 0%Z) w) in
  (zlen (ah_queue s) <= depth)%Z
  /\ match ah_loop s with
     | Getting | Writing _ | Reporting =>
         (exists left out, Inv left out (ah_world s) /\ out `prefix_of` source /\ tallied d0 (ah_tally s) out)
         \/ fails /\ exists e, Raised e ∈ pipe s
     | Stopping (Ok _) | Joining (Ok _) | Left_ (Ok _) => Inv [] source (ah_world s) /\ tallied d0 (ah_tally s) source
     | Stopping (Err _) | Joining (Err _) | Left_ (Err _) => fails
     end
  /\ match pump_ahead reader writer total chunk_size depth report sched (d0, 0%Z) w with
     | (w', Ok (Some t)) => Inv [] source w' /\ tallied d0 t source
     | (w', Ok None) => w' = ah_world s
     | (_, Err _) => fails
     end.
Proof.
  intros Hi s. split; [apply run_bounded; unfold bounded; cbn; unfold zlen; cbn; lia|].
  pose proof (run_J sched _ (J_start w Hi)) as Hj. fold s in Hj. unfold pump_ahead. fold s. unfold J in Hj.
  assert (Hf : forall current, flow s current ->
    (exists left out, Inv left out (ah_world s) /\ out `prefix_of` source /\ tallied d0 (ah_tally s) out)
    \/ fails /\ exists e, Raised e ∈ pipe s).
  { intros current [left out bs H1 H2 H3 _ _|out bs H1 H2 H3 _ _|bs e tl H1 H2 _].
    - left. exists left, out. split_and!; [done | rewrite H2; by apply prefix_app_r | done].
    - left. exists [], out. split_and!; [done | rewrite H2; by apply prefix_app_r | done].
    - right. split; [done|]. exists e. rewrite H2. apply elem_of_app. right. left. }
  destruct (ah_loop s) as [|b| |[[]|]|[[]|]|[[]|]]; destruct_all; split; try done; by eapply Hf.
Qed.

Lemma ahead_ends segs w :
  Inv source [] w -> Forall fair segs -> 120 + room + 10 * length source < length segs ->
  (pump_ahead reader writer total chunk_size depth report (concat segs) (d0, 0%Z) w).2 <> Ok None.
Proof.
  intros Hi Hf Hn. destruct (fair_ends segs (ahead_start (d0, 0%Z) w) (120 + room + 10 * length source)) as [r Hr].
  - by apply J_start.
  - unfold bounded. cbn. unfold zlen. cbn. lia.
  - exists source, []. split; [done|]. cbn. lia.
  - done.
  - done.
  - unfold pump_ahead. rewrite Hr. by destruct r as [[]|].
Qed.
End Ahead.

(** The two bare facts the rest of the engine uses. *)
Lemma ahead_result {H F W} `{CopyEnv H F W} reader writer fails Inv `{!Moving reader writer fails Inv}
    d0 total chunk_size depth report source segs w :
  (forall d, d0 = Some d -> additive d) -> 0 < chunk_size -> 0 < depth -> Inv source [] w ->
  Forall fair segs -> (120 + room depth + 10 * length source < length segs)%nat ->
  match pump_ahead reader writer total chunk_size depth report (concat segs) (d0, 0) w with
  | (w', Ok (Some t)) => Inv [] source w' /\ tallied d0 t source
  | (_, Ok None) => False
  | (_, Err _) => fails
  end.
Proof.
  intros Hd Hc Hp Hi Hf Hn.
  pose proof (run_J reader writer d0 Hd total chunk_size depth report Hc source (concat segs) _ (J_start d0 Hd source w Hi)) as Hj.
  pose proof (ahead_ends reader writer d0 Hd total chunk_size depth report Hc Hp source segs w Hi Hf Hn) as He.
  unfold pump_ahead, J in *. destruct (ah_loop _) as [|b| |r|r|[[]|e]]; try done. by destruct Hj.
Qed.

(** [_pump] moves every byte, whichever way it reads: given time it ends, and
    unless a stream or the callback raised, the target has exactly the source,
    the count is its length and the digest is its digest. *)
Lemma pump_result {H F W} `{CopyEnv H F W} reader writer fails Inv `{!Moving reader writer fails Inv}
    d0 total chunk_size depth report source fuel segs w :
  (forall d, d0 = Some d -> additive d) -> 0 < chunk_size -> Inv source [] w ->
  (length source < fuel)%nat -> Forall fair segs -> (120 + room depth + 10 * length source < length segs)%nat ->
  match _pump fuel (concat segs) reader writer total chunk_size report d0 depth w with
  | (w', Ok (Some t)) => Inv [] source w' /\ tallied d0 t source
  | (_, Ok None) => False
  | (_, Err _) => fails
  end.
Proof.
  intros Hd Hc Hi Hf Hs Hn. unfold _pump. destruct (Z.ltb_spec 1 depth).
  - by apply ahead_result; try done; lia.
  - destruct (Z.ltb_spec chunk_size 0); [lia|].
    apply (pump_loop_moves reader writer d0 Hd total chunk_size report fuel source [] (d0, 0) w Hc Hi); [by apply tallied_start | done].
Qed.
