(* ===== verification/CopySpans.v ===== *)
(** * A transfer spread over connections

    [_spans] tiles the file, and [_in_parallel] moves the tiles with one worker
    each: whatever the order of their reads and writes, the target ends up
    equal to the source. *)

From S2P Require Import Prelude PyStr Errors Responses ConfigFile Url UrlText Checksum FileClient FileTransfer Copy.
Open Scope Z_scope.

Import Copy.

(** ** Tiles *)

(** Pieces that follow on from [at_] and end at [size], none of them empty. *)
Fixpoint tiles (at_ size : Z) (spans : list (Z * Z)) : Prop :=
  match spans with
  | [] => at_ = size
  | (o, l) :: spans => o = at_ /\ 0 < l /\ tiles (at_ + l) size spans
  end.

Lemma range_tiles fuel at_ size step :
  0 < step -> 0 <= at_ <= size -> size - at_ <= Z.of_nat fuel ->
  tiles at_ size ((fun o => (o, Z.min step (size - o))) <$> range_by fuel at_ size step)
  /\ (at_ < size -> (Z.of_nat (length (range_by fuel at_ size step)) - 1) * step < size - at_).
Proof.
  intros Hs. revert at_. induction fuel as [|fuel IH]; intros at_ Ha Hf; cbn [range_by].
  { cbn. split; [lia | lia]. }
  destruct (Z.ltb_spec at_ size) as [Hlt|]; [|cbn; split; [lia | lia]].
  destruct (decide (at_ + step <= size)) as [Hle|Hgt].
  - destruct (IH (at_ + step)) as [Ht Hl]; [lia.. |]. cbn [fmap list_fmap tiles length]. split.
    + split; [done|]. split; [lia|]. by replace (at_ + Z.min step (size - at_)) with (at_ + step) by lia.
    + intros _. destruct (decide (at_ + step < size)) as [H1|H1]; [specialize (Hl H1); lia|].
      assert (range_by fuel (at_ + step) size step = []) as ->; [|cbn; lia].
      destruct fuel; [done|]. cbn [range_by]. destruct (Z.ltb_spec (at_ + step) size); [lia | done].
  - assert (range_by fuel (at_ + step) size step = []) as ->.
    { destruct fuel; [done|]. cbn [range_by]. destruct (Z.ltb_spec (at_ + step) size); [lia | done]. }
    cbn. split; [|lia]. split; [done|]. split; lia.
Qed.

(** [_spans] divides the file into at most [workers] contiguous pieces. *)
Lemma spans_tile size workers :
  0 < workers -> 0 <= size -> tiles 0 size (_spans size workers) /\ zlen (_spans size workers) <= workers.
Proof.
  intros Hw Hs. unfold _spans, zlen. rewrite length_fmap.
  destruct (decide (size = 0)) as [->|Hne]; [split; [done|]; change (0 <= workers); lia|].
  set (step := - (- size / workers)).
  assert (Hd : workers * (- size / workers) <= - size < workers * (- size / workers) + workers).
  { pose proof (Z.div_mod (- size) workers ltac:(lia)). pose proof (Z.mod_pos_bound (- size) workers Hw). lia. }
  assert (Hp : 0 < step) by (unfold step; nia).
  destruct (range_tiles (Z.to_nat size) 0 size step Hp) as [Ht Hl]; [lia.. |]. split; [done|].
  specialize (Hl ltac:(lia)). set (n := Z.of_nat (length _)) in *. unfold step in *. nia.
Qed.

Lemma tiles_sum at_ size spans : tiles at_ size spans -> at_ + foldr Z.add 0 spans.*2 = size.
Proof.
  revert at_. induction spans as [|[o l] spans IH]; intros at_; cbn; [lia|]. intros (_ & _ & Ht%IH). cbn in *. lia.
Qed.

Lemma tiles_cover at_ size spans x :
  tiles at_ size spans -> at_ <= x < size -> exists i o l, spans !! i = Some (o, l) /\ o <= x < o + l.
Proof.
  revert at_. induction spans as [|[o l] spans IH]; intros at_; cbn; [lia|]. intros (-> & Hl & Ht) Hx.
  destruct (decide (x < at_ + l)); [exists 0%nat, at_, l; split; [done | lia]|].
  destruct (IH _ Ht ltac:(lia)) as (i & o & l' & Hi & Ho). by exists (S i), o, l'.
Qed.

Lemma tiles_nonneg at_ size spans : tiles at_ size spans -> at_ <= size.
Proof.
  revert at_. induction spans as [|[o l] spans IH]; intros at_; cbn; [lia|]. intros (_ & ? & Ht%IH). lia.
Qed.

Lemma tiles_range at_ size spans i o l :
  tiles at_ size spans -> spans !! i = Some (o, l) -> at_ <= o /\ 0 < l /\ o + l <= size.
Proof.
  revert at_ i. induction spans as [|[o' l'] spans IH]; intros at_ i; cbn; [done|]. intros (-> & Hl & Ht).
  destruct i as [|i]; cbn.
  - intros [= <- <-]. apply tiles_nonneg in Ht. lia.
  - intros Hi. destruct (IH _ _ Ht Hi). lia.
Qed.

(** ** Writing somewhere in a file *)

Lemma patch_inside f off d x :
  0 <= off -> (Z.to_nat off <= x < Z.to_nat off + length d)%nat -> patch f off d !! x = d !! (x - Z.to_nat off)%nat.
Proof.
  intros Ho Hx. unfold patch. set (o := Z.to_nat off) in *. set (P := take o _).
  assert (HP : length P = o) by (unfold P; rewrite length_take, length_app, length_replicate; lia).
  rewrite lookup_app_r by lia. rewrite lookup_app_l by lia. by rewrite HP.
Qed.

Lemma patch_outside f off d x b :
  0 <= off -> f !! x = Some b -> ~ (Z.to_nat off <= x < Z.to_nat off + length d)%nat -> patch f off d !! x = Some b.
Proof.
  intros Ho Hf Hx. unfold patch. set (o := Z.to_nat off) in *. set (P := take o _).
  assert (HP : length P = o) by (unfold P; rewrite length_take, length_app, length_replicate; lia).
  pose proof (lookup_lt_Some _ _ _ Hf). destruct (decide (x < o)%nat).
  - rewrite lookup_app_l by lia. unfold P. rewrite lookup_take_lt by lia. by rewrite lookup_app_l.
  - rewrite !lookup_app_r by lia. rewrite lookup_drop, HP. rewrite <- Hf. f_equal. lia.
Qed.

Lemma patch_length f off d : 0 <= off -> zlen (patch f off d) = Z.max (zlen f) (off + zlen d).
Proof.
  intros Ho. unfold patch, zlen. set (o := Z.to_nat off).
  rewrite !length_app, length_take, length_app, length_replicate, length_drop. lia.
Qed.

(** ** The workers *)

Section Parallel.
Context {H F W : Type} `{CopyEnv H F W}.
Variable plan : _Spread.
Variable config : Config.
Variable chunk : Z.
Variable report : bool.
Variable src : list byte.

(** Where the streams of one worker are: none open, a reader, or a reader and
    a writer. *)
Inductive seat :=
  | Away
  | Reads (hs : list H) (r : H) (p : Z)
  | Moves (hs : list H) (r : H) (p : Z) (k : H) (q : Z).
Definition stack_of (x : seat) : list H := match x with Away => [] | Reads hs _ _ | Moves hs _ _ _ _ => hs end.

(** What the source and the target promise to streams opened side by side:
    each has a position of its own, reads give the bytes of the source there
    and writes change the target there; [fails] is what an exception means. *)
Class Spreading (fails : Prop) (St : bytes -> list seat -> W -> Prop) := {
  spread_reader i tgt ws w :
    ws !! i = Some Away -> St tgt ws w ->
    match _reader (sp_source plan) config ([], w) with
    | ((hs, w'), Ok (h, _)) => St tgt (<[i := Reads hs h 0]> ws) w'
    | (_, Err _) => fails
    end;
  spread_seek i tgt ws w hs h p off :
    ws !! i = Some (Reads hs h p) -> 0 <= off -> St tgt ws w ->
    match h_seek h off w with (w', Ok _) => St tgt (<[i := Reads hs h off]> ws) w' | (_, Err _) => fails end;
  spread_resumer i tgt ws w hs h p off :
    ws !! i = Some (Reads hs h p) -> 0 <= off -> St tgt ws w ->
    match _resumer (sp_target plan) config off (hs, w) with
    | ((hs', w'), Ok k) => St tgt (<[i := Moves hs' h p k off]> ws) w'
    | (_, Err _) => fails
    end;
  spread_read i tgt ws w hs r p k q n :
    ws !! i = Some (Moves hs r p k q) -> 0 < n -> 0 <= p -> St tgt ws w ->
    match h_read r n w with
    | (w', Ok d) =>
        (exists rest, drop (Z.to_nat p) src = d ++ rest) /\ zlen d <= n /\ (d = [] -> zlen src <= p)
        /\ St tgt (<[i := Moves hs r (p + zlen d) k q]> ws) w'
    | (_, Err _) => fails
    end;
  spread_write i tgt ws w hs r p k q d :
    ws !! i = Some (Moves hs r p k q) -> 0 <= q -> St tgt ws w ->
    match h_write k d w with
    | (w', Ok _) => St (patch tgt q d) (<[i := Moves hs r p k (q + zlen d)]> ws) w'
    | (_, Err _) => fails
    end;
  spread_progress n total tgt ws w :
    St tgt ws w -> match progress n total w with (w', Ok _) => St tgt ws w' | (_, Err _) => fails end;
  spread_close i tgt ws w x :
    ws !! i = Some x -> St tgt ws w ->
    match close_all (stack_of x) (Ok tt) w with (w', Ok _) => St tgt (<[i := Away]> ws) w' | (_, Err _) => fails end
}.

Context {fails : Prop} {St : bytes -> list seat -> W -> Prop} `{!Spreading fails St}.
Hypothesis size_known : sp_size plan = zlen src.
Hypothesis chunk_positive : 0 < chunk.

Notation worker := (@worker H).
Notation team := (@team H W).
Notation worker_step := (worker_step plan config chunk report).
Notation team_step := (team_step plan config chunk report).
Notation team_run := (team_run plan config chunk report).

(** A worker and its streams agree. *)
Definition agrees (k : worker) (x : seat) : Prop :=
  let at_ := wk_offset k + wk_moved k in
  0 <= wk_offset k /\ 0 <= wk_moved k <= wk_length k /\ wk_offset k + wk_length k <= zlen src
  /\ match wk_at k with
     | Waiting => x = Away /\ wk_stack k = [] /\ wk_moved k = 0
     | Seeking r => exists p, x = Reads (wk_stack k) r p /\ wk_moved k = 0
     | Resuming r => x = Reads (wk_stack k) r at_ /\ wk_moved k = 0
     | Looping r h | Telling r h _ => x = Moves (wk_stack k) r at_ h at_
     | Storing r h d =>
         x = Moves (wk_stack k) r (at_ + zlen d) h at_ /\ d <> [] /\ wk_moved k + zlen d <= wk_length k
         /\ exists rest, drop (Z.to_nat at_) src = d ++ rest
     | Closing (Ok _) => stack_of x = wk_stack k /\ wk_moved k = wk_length k
     | Done (Ok n) => x = Away /\ n = wk_length k /\ wk_moved k = wk_length k
     | _ => False
     end.

Definition erred (k : worker) : Prop :=
  match wk_at k with Closing (Err _) | Done (Err _) => True | _ => False end.

(** What a step did: failed, or kept to the plan and wrote nothing or the
    bytes that belong there. *)
Definition kept (i : nat) (tgt : bytes) (ws : list seat) (k k' : worker) (w' : W) : Prop :=
  wk_offset k' = wk_offset k /\ wk_length k' = wk_length k
  /\ (fails /\ erred k'
      \/ exists tgt' x', St tgt' (<[i := x']> ws) w' /\ agrees k' x'
           /\ (tgt' = tgt /\ wk_moved k' = wk_moved k
               \/ exists d rest, tgt' = patch tgt (wk_offset k + wk_moved k) d /\ wk_moved k' = wk_moved k + zlen d
                    /\ drop (Z.to_nat (wk_offset k + wk_moved k)) src = d ++ rest)).

(** A step that leaves the target alone. *)
Lemma kept_same i tgt ws k k' w' x' :
  wk_offset k' = wk_offset k -> wk_length k' = wk_length k -> wk_moved k' = wk_moved k ->
  St tgt (<[i := x']> ws) w' -> agrees k' x' -> kept i tgt ws k k' w'.
Proof. intros ? ? ? Hs Ha. split_and!; [done..|]. right. exists tgt, x'. split_and!; [done..|]. by left. Qed.

Lemma kept_failed i tgt ws k k' w' :
  wk_offset k' = wk_offset k -> wk_length k' = wk_length k -> fails -> erred k' -> kept i tgt ws k k' w'.
Proof. intros ? ? Hf He. split_and!; [done..|]. by left. Qed.

(** The parts of [agrees], each closed or arithmetic. *)
Ltac agree := split_and!; cbn; first [done | lia | split_and!; first [done | lia]].

Lemma worker_kept i k n w tgt ws x :
  ws !! i = Some x -> St tgt ws w -> agrees k x ->
  match worker_step k n w with Some (k', _, w') => kept i tgt ws k k' w' | None => True end.
Proof.
  intros Hx Hs (Ho & Hm & Hl & Ha). unfold Copy.worker_step. destruct (wk_at k) as [|r|r|r h|r h d|r h m|[u|e]|out|] eqn:Ek; try done.
  - destruct Ha as (-> & -> & Hz). pose proof (spread_reader i tgt ws w Hx Hs) as Hr.
    destruct (_reader _ _ _) as [[hs w'] [[h t]|e]]; [|by apply kept_failed].
    apply (kept_same _ _ _ _ _ _ (Reads hs h 0)); try done. split_and!; try done; cbn; try lia. by exists 0.
  - destruct Ha as (p & -> & Hz). pose proof (spread_seek i tgt ws w _ _ _ (wk_offset k) Hx Ho Hs) as Hr.
    destruct (h_seek _ _ _) as [w' [u|e]]; [|by apply kept_failed].
    apply (kept_same _ _ _ _ _ _ (Reads (wk_stack k) r (wk_offset k))); try done. split_and!; cbn; try done; try lia.
    by rewrite Hz, Z.add_0_r.
  - destruct Ha as (-> & Hz). pose proof (spread_resumer i tgt ws w _ _ _ (wk_offset k) Hx Ho Hs) as Hr.
    destruct (_resumer _ _ _ _) as [[hs w'] [h|e]]; [|by apply kept_failed]. rewrite Hz, Z.add_0_r in *.
    apply (kept_same _ _ _ _ _ _ (Moves hs r (wk_offset k) h (wk_offset k))); try done.
    split_and!; cbn; try done; try lia. by rewrite Hz, Z.add_0_r.
  - subst x. destruct (Z.leb_spec (wk_length k) (wk_moved k)).
    { eapply kept_same; [done..|by rewrite list_insert_id|]. agree. }
    pose proof (spread_read i tgt ws w _ _ _ _ _ (Z.min chunk (wk_length k - wk_moved k)) Hx ltac:(lia) ltac:(lia) Hs) as Hr.
    destruct (h_read _ _ _) as [w' [d|e]]; [|by apply kept_failed]. destruct Hr as ((rest & Hd) & Hn & Hend & Hs').
    destruct d as [|b d]; [specialize (Hend eq_refl); lia|].
    eapply kept_same; [done..|exact Hs'|]. split_and!; cbn; try done; try lia.
    split_and!; try done; try lia. by exists rest.
  - destruct Ha as (-> & Hd & Hlen & rest & Hrest).
    pose proof (spread_write i tgt ws w _ _ _ _ _ d Hx ltac:(lia) Hs) as Hr.
    destruct (h_write _ _ _) as [w' [m|e]]; [|by apply kept_failed].
    split_and!; [done..|]. right. eexists _, _. split_and!; [exact Hr | |right; by exists d, rest].
    pose proof (zlen_nonneg d). split_and!; cbn; try done; try lia. by destruct report; rewrite Z.add_assoc.
  - subst x. pose proof (spread_progress (n + m) (Some (sp_size plan)) tgt ws w Hs) as Hr.
    destruct (progress _ _ _) as [w' [u|e]]; [|by apply kept_failed].
    eapply kept_same; [done..|by rewrite list_insert_id|]. agree.
  - destruct Ha as [Hst Hfull]. pose proof (spread_close i tgt ws w x Hx Hs) as Hr. rewrite Hst in Hr. destruct u.
    destruct (close_all _ _ _) as [w' [u|e]]; [|by apply kept_failed].
    eapply kept_same; [done..|exact Hr|]. agree.
Qed.

(** ** The team *)

(** What has been moved is where it belongs. *)
Definition right_bytes (tgt : list byte) (ks : list worker) : Prop :=
  zlen tgt <= zlen src
  /\ forall i k, ks !! i = Some k ->
       forall x, (Z.to_nat (wk_offset k) <= x < Z.to_nat (wk_offset k + wk_moved k))%nat -> tgt !! x = src !! x.

Definition spans_of (ks : list worker) : list (Z * Z) := (fun k => (wk_offset k, wk_length k)) <$> ks.

Definition good_team (t : team) : Prop :=
  exists tgt ws, St tgt ws (tm_world t) /\ Forall2 agrees (tm_workers t) ws /\ right_bytes tgt (tm_workers t).

Definition bad_team (t : team) : Prop := fails /\ exists i k, tm_workers t !! i = Some k /\ erred k.

Lemma erred_step k n w k' n' w' : erred k -> worker_step k n w = Some (k', n', w') -> erred k'.
Proof.
  unfold erred, Copy.worker_step. destruct (wk_at k) as [|r|r|r h|r h d|r h m|[u|e]|out|]; try done. intros _.
  destruct (close_all_err (A := unit) (wk_stack k) e w) as (w1 & e' & ->). by intros [= <- _ _].
Qed.

Lemma right_bytes_patch tgt ks i k k' d rest :
  right_bytes tgt ks -> (forall j kj, ks !! j = Some kj -> wk_offset kj + wk_moved kj <= zlen src) ->
  ks !! i = Some k -> 0 <= wk_offset k -> 0 <= wk_moved k ->
  wk_offset k' = wk_offset k -> wk_moved k' = wk_moved k + zlen d -> wk_offset k' + wk_moved k' <= zlen src ->
  drop (Z.to_nat (wk_offset k + wk_moved k)) src = d ++ rest ->
  right_bytes (patch tgt (wk_offset k + wk_moved k) d) (<[i := k']> ks).
Proof.
  intros [Hlen Hr] Hb Hi Ho Hm Eo Em Hb' Hd. set (at_ := wk_offset k + wk_moved k) in *. pose proof (zlen_nonneg d).
  assert (Hin : forall x, (Z.to_nat at_ <= x < Z.to_nat at_ + length d)%nat -> patch tgt at_ d !! x = src !! x).
  { intros x Hx. rewrite patch_inside by lia.
    rewrite <- (lookup_app_l d rest) by lia. rewrite <- Hd, lookup_drop. f_equal. lia. }
  assert (Hout : forall x, (x < length src)%nat -> tgt !! x = src !! x -> patch tgt at_ d !! x = src !! x).
  { intros x [b Hb2]%lookup_lt_is_Some_2 Hx. destruct (decide (Z.to_nat at_ <= x < Z.to_nat at_ + length d)%nat) as [|Hn]; [by apply Hin|].
    rewrite Hb2 in Hx |- *. apply patch_outside; [lia | done | done]. }
  split; [rewrite patch_length by lia; lia|].
  intros j kj Hj x Hx. destruct (decide (i = j)) as [<-|Hne].
  - rewrite list_lookup_insert_eq in Hj by (by eapply lookup_lt_Some). injection Hj as <-. rewrite Eo, Em in Hx.
    destruct (decide (Z.to_nat at_ <= x)%nat); [apply Hin; unfold zlen in *; lia|].
    apply Hout; [unfold zlen in *; lia|]. apply (Hr i k Hi). lia.
  - rewrite list_lookup_insert_ne in Hj by done. specialize (Hb j kj Hj). apply Hout; [unfold zlen in *; lia | by apply (Hr j kj Hj)].
Qed.

Lemma right_bytes_same tgt ks i k k' :
  right_bytes tgt ks -> ks !! i = Some k -> wk_offset k' = wk_offset k -> wk_moved k' = wk_moved k ->
  right_bytes tgt (<[i := k']> ks).
Proof.
  intros [Hlen Hr] Hi Eo Em. split; [done|]. intros j kj Hj x Hx. destruct (decide (i = j)) as [<-|Hne].
  - rewrite list_lookup_insert_eq in Hj by (by eapply lookup_lt_Some). injection Hj as <-. rewrite Eo, Em in Hx. by apply (Hr i k Hi).
  - rewrite list_lookup_insert_ne in Hj by done. by apply (Hr j kj Hj).
Qed.

(** Nobody has failed, so there is nothing to cancel for. *)
Lemma good_outcome acc ks ws e : Forall2 agrees ks ws -> outcome acc ks <> Some (Err e).
Proof.
  intros Hf. revert acc. induction Hf as [|k x ks ws (_ & _ & _ & Ha) Hf IH]; intros acc; cbn; [done|].
  destruct (wk_at k) as [| | | | | |[]|[]|]; try done.
Qed.

Lemma team_step_ok t a : good_team t \/ bad_team t -> good_team (team_step t a) \/ bad_team (team_step t a).
Proof.
  intros [(tgt & ws & Hs & Hf & Hr)|[Hfail (j & kj & Hj & He)]]; destruct a as [i|i]; cbn [Copy.team_step].
  - destruct (tm_workers t !! i) as [k|] eqn:Ei; cbn; [|left; by exists tgt, ws].
    destruct (Forall2_lookup_l _ _ _ _ _ Hf Ei) as (x & Hx & Ha).
    pose proof (worker_kept i k (tm_reported t) (tm_world t) tgt ws x Hx Hs Ha) as Hk.
    destruct (worker_step _ _ _) as [[[k' n] w']|]; [|left; by exists tgt, ws]. destruct Hk as (Eo & El & [[Hfail He]|Hk]).
    { right. split; [done|]. exists i, k'. split; [|done]. cbn. rewrite list_lookup_insert_eq; [done | by eapply lookup_lt_Some]. }
    destruct Hk as (tgt' & x' & Hs' & Ha' & Hd). left. exists tgt', (<[i := x']> ws). split_and!; [done | by apply Forall2_insert|].
    cbn. destruct Hd as [[-> Em]|(d & rest & -> & Em & Hd)]; [by eapply right_bytes_same|].
    destruct Ha as (Ho & Hm & _), Ha' as (_ & Hm' & Hl' & _).
    apply (right_bytes_patch tgt _ i k k' d rest); try done; try lia.
    intros j kj Hj. destruct (Forall2_lookup_l _ _ _ _ _ Hf Hj) as (y & _ & Hy). destruct Hy as (? & ? & ? & _). lia.
  - destruct (tm_workers t !! i) as [k|] eqn:Ei; [|left; by exists tgt, ws].
    destruct (outcome 0 (tm_workers t)) as [[n|e]|] eqn:Eo; try (left; by exists tgt, ws). by eapply good_outcome in Eo.
  - right. split; [done|]. destruct (tm_workers t !! i) as [k|] eqn:Ei; cbn; [|by exists j, kj].
    destruct (worker_step _ _ _) as [[[k' n] w']|] eqn:Ew; [|by exists j, kj]. cbn.
    destruct (decide (i = j)) as [<-|Hne].
    + exists i, k'. rewrite list_lookup_insert_eq by (by eapply lookup_lt_Some). split; [done|].
      rewrite Hj in Ei. injection Ei as <-. by eapply erred_step.
    + exists j, kj. by rewrite list_lookup_insert_ne.
  - right. split; [done|]. destruct (tm_workers t !! i) as [k|] eqn:Ei; [|by exists j, kj].
    destruct (outcome 0 (tm_workers t)) as [[n|e]|]; try (by exists j, kj).
    destruct (wk_at k) eqn:Ek; try (by exists j, kj). cbn. exists j, kj. split; [|done].
    rewrite list_lookup_insert_ne; [done|]. intros <-. rewrite Hj in Ei. injection Ei as <-. unfold erred in He. by rewrite Ek in He.
Qed.

Lemma team_run_ok sched t : good_team t \/ bad_team t -> good_team (team_run sched t) \/ bad_team (team_run sched t).
Proof. revert t. induction sched as [|a sched IH]; intros t Ht; [done|]. apply IH, team_step_ok, Ht. Qed.

(** *** What never changes *)

Lemma worker_span k n w k' n' w' :
  worker_step k n w = Some (k', n', w') -> wk_offset k' = wk_offset k /\ wk_length k' = wk_length k.
Proof.
  unfold Copy.worker_step. intros E. destruct (wk_at k); repeat case_match; simplify_eq; done.
Qed.

Lemma worker_unfinished k n w k' n' w' : worker_step k n w = Some (k', n', w') -> finished k = false.
Proof. unfold Copy.worker_step, finished. by destruct (wk_at k). Qed.

Lemma spans_of_insert i k k' ks :
  ks !! i = Some k -> wk_offset k' = wk_offset k -> wk_length k' = wk_length k -> spans_of (<[i := k']> ks) = spans_of ks.
Proof.
  intros Hi Eo El. unfold spans_of. rewrite list_fmap_insert, Eo, El. apply list_insert_id. by rewrite list_lookup_fmap, Hi.
Qed.

Lemma outcome_insert acc (ks : list worker) i k k' e :
  outcome acc ks = Some (Err e) -> ks !! i = Some k -> finished k = false -> outcome acc (<[i := k']> ks) = Some (Err e).
Proof.
  revert acc i. induction ks as [|k0 ks IH]; intros acc i E Hi Hf; [done|]. destruct i as [|i]; cbn in *.
  - injection Hi as ->. unfold finished in Hf. by destruct (wk_at k).
  - destruct (wk_at k0) as [| | | | | | |[n|e']|]; try done. by apply (IH (acc + n)).
Qed.

(** A worker is cancelled only behind a failure. *)
Definition settled (t : team) : Prop :=
  forall i k, tm_workers t !! i = Some k -> wk_at k = Cancelled -> exists e, outcome 0 (tm_workers t) = Some (Err e).

Lemma worker_not_cancelled k n w k' n' w' : worker_step k n w = Some (k', n', w') -> wk_at k' <> Cancelled.
Proof. unfold Copy.worker_step. intros E. destruct (wk_at k); repeat case_match; simplify_eq; done. Qed.

Lemma team_step_settled t a : settled t -> settled (team_step t a).
Proof.
  intros Hs. destruct a as [i|i]; cbn [Copy.team_step].
  - destruct (tm_workers t !! i) as [k|] eqn:Ei; cbn; [|done]. destruct (worker_step _ _ _) as [[[k' n] w']|] eqn:Ew; [|done].
    intros j kj Hj Hc. cbn in Hj |- *. destruct (decide (i = j)) as [<-|Hne].
    + rewrite list_lookup_insert_eq in Hj by (by eapply lookup_lt_Some). injection Hj as <-. by apply worker_not_cancelled in Ew.
    + rewrite list_lookup_insert_ne in Hj by done. destruct (Hs j kj Hj Hc) as [e He]. exists e.
      eapply outcome_insert; [done | done | by eapply worker_unfinished].
  - destruct (tm_workers t !! i) as [k|] eqn:Ei; [|done]. destruct (outcome 0 (tm_workers t)) as [[n|e]|] eqn:Eo; [done| |done].
    destruct (wk_at k) eqn:Ek; try done. intros j kj _ _. exists e. cbn. eapply outcome_insert; [done | done | by unfold finished; rewrite Ek].
Qed.

Lemma team_step_spans t a : spans_of (tm_workers (team_step t a)) = spans_of (tm_workers t).
Proof.
  destruct a as [i|i]; cbn [Copy.team_step]; destruct (tm_workers t !! i) as [k|] eqn:Ei; cbn; try done.
  - destruct (worker_step _ _ _) as [[[k' n] w']|] eqn:Ew; [|done]. apply worker_span in Ew as [? ?]. by eapply spans_of_insert.
  - destruct (outcome 0 (tm_workers t)) as [[n|e]|]; try done. destruct (wk_at k); try done. by eapply spans_of_insert.
Qed.

Lemma team_run_keeps sched t :
  settled t -> settled (team_run sched t) /\ spans_of (tm_workers (team_run sched t)) = spans_of (tm_workers t).
Proof.
  revert t. induction sched as [|a sched IH]; intros t Hs; [done|].
  destruct (IH (team_step t a) (team_step_settled t a Hs)) as [H1 H2]. split; [exact H1|]. rewrite <- (team_step_spans t a). exact H2.
Qed.

(** *** Every worker ends *)

Local Open Scope nat_scope.

(** The steps a worker has left at most. *)
Definition work_left (k : worker) : nat :=
  let rem := Z.to_nat (wk_length k - wk_moved k) in
  match wk_at k with
  | Waiting => 3 * rem + 6
  | Seeking _ => 3 * rem + 5
  | Resuming _ => 3 * rem + 4
  | Looping _ _ => 3 * rem + 3
  | Storing _ _ _ => 3 * rem + 2
  | Telling _ _ _ => 3 * rem + 4
  | Closing _ => 1
  | Done _ | Cancelled => 0
  end.

(** A worker stores only what it still owes. *)
Definition busy (k : worker) : Prop :=
  match wk_at k with Storing _ _ d => d <> [] /\ (wk_moved k < wk_length k)%Z | _ => True end.

Lemma worker_progress k n w k' n' w' :
  busy k -> worker_step k n w = Some (k', n', w') -> busy k' /\ work_left k' < work_left k.
Proof.
  unfold busy, Copy.worker_step, work_left. intros Hb E. destruct (wk_at k) as [|r|r|r h|r h d|r h m|out|out|]; [..|done|done].
  - destruct (_reader _ _ _) as [[hs w1] [[h t]|e]]; injection E as <- _ _; cbn; split; try done; lia.
  - destruct (h_seek _ _ _) as [w1 [u|e]]; injection E as <- _ _; cbn; split; try done; lia.
  - destruct (_resumer _ _ _ _) as [[hs w1] [h|e]]; injection E as <- _ _; cbn; split; try done; lia.
  - destruct (Z.leb_spec (wk_length k) (wk_moved k)); [injection E as <- _ _; cbn; split; try done; lia|].
    destruct (h_read _ _ _) as [w1 [[|b d]|e]]; injection E as <- _ _; cbn; split; try done; lia.
  - destruct Hb as [Hd Hm]. destruct (h_write _ _ _) as [w1 [m|e]]; injection E as <- _ _; cbn; [|split; try done; lia].
    assert (1 <= zlen d)%Z by (destruct d; [done | rewrite zlen_cons; pose proof (zlen_nonneg d); lia]).
    destruct report; split; try done; lia.
  - destruct (progress _ _ _) as [w1 [u|e]]; injection E as <- _ _; cbn; split; try done; lia.
  - destruct (close_all _ _ _) as [w1 [u|e]]; injection E as <- _ _; cbn; split; try done; lia.
Qed.

Lemma worker_waits k n w : worker_step k n w = None -> finished k = true.
Proof. unfold Copy.worker_step, finished. destruct (wk_at k); repeat case_match; done. Qed.

(** How often a schedule lets a worker step. *)
Fixpoint turns (i : nat) (sched : list turn) : nat :=
  match sched with
  | [] => 0
  | Work j :: sched => (if decide (j = i) then 1 else 0) + turns i sched
  | Cancel _ :: sched => turns i sched
  end.

Definition all_busy (t : team) : Prop := Forall busy (tm_workers t).

Lemma team_step_busy t a : all_busy t -> all_busy (team_step t a).
Proof.
  unfold all_busy. intros Hb. destruct a as [i|i]; cbn [Copy.team_step]; destruct (tm_workers t !! i) as [k|] eqn:Ei; cbn; try done.
  - destruct (worker_step _ _ _) as [[[k' n] w']|] eqn:Ew; [|done]. cbn. apply Forall_insert; [done|].
    eapply worker_progress; [|done]. by eapply Forall_lookup_1.
  - destruct (outcome 0 (tm_workers t)) as [[n|e]|]; try done. destruct (wk_at k); try done. cbn. by apply Forall_insert.
Qed.

(** What one step of the team does to one worker. *)
Lemma team_step_left t a i k :
  all_busy t -> tm_workers t !! i = Some k ->
  exists k', tm_workers (team_step t a) !! i = Some k'
    /\ (finished k' = true \/ work_left k' + turns i [a] <= work_left k) /\ (finished k = true -> finished k' = true).
Proof.
  intros Hb Hi. destruct a as [j|j]; cbn [Copy.team_step turns].
  - destruct (decide (j = i)) as [->|Hne].
    + rewrite Hi. cbn. destruct (worker_step _ _ _) as [[[k' n] w']|] eqn:Ew.
      * pose proof (worker_unfinished _ _ _ _ _ _ Ew) as Hu. apply worker_progress in Ew as [_ Hl]; [|by eapply Forall_lookup_1].
        exists k'. cbn. rewrite list_lookup_insert_eq by (by eapply lookup_lt_Some). split; [done|]. split; [right; lia | by rewrite Hu].
      * apply worker_waits in Ew. exists k. split; [done|]. split; [by left | done].
    + exists k. destruct (tm_workers t !! j ≫= _) as [[[k' n] w']|]; cbn; [rewrite list_lookup_insert_ne by done|];
        (split; [done|]; split; [right; lia | done]).
  - destruct (tm_workers t !! j) as [k0|] eqn:Ej; [|exists k; split; [done|]; split; [right; lia | done]].
    destruct (outcome 0 (tm_workers t)) as [[n|e]|]; try (exists k; split; [done|]; split; [right; lia | done]).
    destruct (wk_at k0) eqn:Ek; try (exists k; split; [done|]; split; [right; lia | done]). cbn.
    destruct (decide (j = i)) as [->|Hne].
    + exists (moves_to k0 [] Cancelled). rewrite list_lookup_insert_eq by (by eapply lookup_lt_Some). split; [done|]. split; [by left | done].
    + exists k. rewrite list_lookup_insert_ne by done. split; [done|]. split; [right; lia | done].
Qed.

Lemma team_run_left sched t i k :
  all_busy t -> tm_workers t !! i = Some k ->
  exists k', tm_workers (team_run sched t) !! i = Some k'
    /\ (finished k' = true \/ work_left k' + turns i sched <= work_left k) /\ (finished k = true -> finished k' = true).
Proof.
  revert t k. induction sched as [|a sched IH]; intros t k Hb Hi; [exists k; split; [done|]; split; [right; cbn; lia | done]|].
  destruct (team_step_left t a i k Hb Hi) as (k1 & H1 & Hl & Hf).
  destruct (IH (team_step t a) k1 (team_step_busy t a Hb) H1) as (k' & H2 & Hl2 & Hf2). exists k'. split; [exact H2|].
  split; [|auto]. destruct Hl as [Hd|Hl]; [left; auto|]. destruct Hl2 as [|Hl2]; [by left|]. right.
  destruct a; cbn in *; lia.
Qed.

(** A worker given enough turns is finished. *)
Lemma team_finishes sched t :
  all_busy t -> (forall i k, tm_workers t !! i = Some k -> work_left k < turns i sched) ->
  forallb finished (tm_workers (team_run sched t)) = true.
Proof.
  intros Hb Hn. apply forallb_forall. intros k' [i Hi]%list_elem_of_In%list_elem_of_lookup.
  destruct (tm_workers t !! i) as [k|] eqn:Ek.
  - destruct (team_run_left sched t i k Hb Ek) as (k1 & H1 & Hl & _). rewrite Hi in H1. injection H1 as <-.
    specialize (Hn i k Ek). destruct Hl; [done | lia].
  - exfalso. apply lookup_lt_Some in Hi. apply lookup_ge_None in Ek.
    assert (length (tm_workers (team_run sched t)) = length (tm_workers t)) as El; [|lia]. clear -t.
    revert t. induction sched as [|a sched IH]; intros t; [done|]. cbn. etransitivity; [apply IH|].
    pose proof (f_equal length (team_step_spans t a)) as E. unfold spans_of in E. by rewrite !length_fmap in E.
Qed.

Local Close Scope nat_scope.

(** *** The end *)

Lemma good_finished acc ks ws :
  Forall2 agrees ks ws -> forallb finished ks = true ->
  outcome acc ks = Some (Ok (acc + foldr Z.add 0 (spans_of ks).*2)) /\ Forall (fun k => wk_moved k = wk_length k) ks.
Proof.
  intros Hf. revert acc. induction Hf as [|k x ks ws (_ & _ & _ & Ha) Hf IH]; intros acc; cbn; [intros _; by rewrite Z.add_0_r|].
  intros [Hk Hks]%andb_true_iff. unfold finished in Hk. destruct (wk_at k) as [| | | | | |[]|[n|]|]; try done.
  destruct Ha as (_ & -> & Hm). destruct (IH (acc + wk_length k) Hks) as [-> Hall]. split; [|by constructor]. do 2 f_equal. unfold spans_of. lia.
Qed.

Lemma finished_outcome acc (ks : list worker) :
  forallb finished ks = true -> outcome acc ks = None -> exists i k, ks !! i = Some k /\ wk_at k = Cancelled.
Proof.
  revert acc. induction ks as [|k ks IH]; intros acc; cbn; [done|]. intros [Hk Hks]%andb_true_iff. unfold finished in Hk.
  destruct (wk_at k) as [| | | | | | |[n|]|] eqn:Ek; try done.
  - intros Ho. destruct (IH _ Hks Ho) as (i & k' & Hi). by exists (S i), k'.
  - intros _. by exists 0%nat, k.
Qed.

Lemma bad_outcome acc (ks : list worker) i k n : ks !! i = Some k -> erred k -> outcome acc ks <> Some (Ok n).
Proof.
  revert acc i. induction ks as [|k0 ks IH]; intros acc i Hi He; [done|]. destruct i as [|i]; cbn in *.
  - injection Hi as ->. unfold erred in He. destruct (wk_at k) as [| | | | | |[]|[]|]; done.
  - destruct (wk_at k0) as [| | | | | | |[m|]|]; try done. by eapply IH.
Qed.

Lemma right_bytes_all tgt ks :
  right_bytes tgt ks -> Forall (fun k => wk_moved k = wk_length k) ks -> tiles 0 (zlen src) (spans_of ks) -> tgt = src.
Proof.
  intros [Hlen Hr] Hm Ht. apply list_eq. intros x. destruct (decide (x < length src)%nat) as [Hx|Hx].
  - destruct (tiles_cover 0 (zlen src) _ (Z.of_nat x) Ht) as (i & o & l & Hi & Ho); [unfold zlen; lia|].
    unfold spans_of in Hi. rewrite list_lookup_fmap in Hi. destruct (ks !! i) as [k|] eqn:Ek; [|done]. injection Hi as <- <-.
    apply (Hr i k Ek). rewrite Forall_lookup in Hm. rewrite (Hm i k Ek). lia.
  - unfold zlen in Hlen. rewrite !lookup_ge_None_2 by lia. done.
Qed.

(** The target before the transfer, and that creating it leaves an empty file
    nobody has open. *)
Variable Ready : W -> Prop.
Variable overwrite : bool.
Hypothesis target_created : forall w,
  Ready w ->
  match with_stack (_writer (sp_target plan) config overwrite) w with
  | (w', Ok _) => St [] (replicate (length (_spans (sp_size plan) (sp_workers plan))) Away) w'
  | (_, Err _) => fails
  end.
Hypothesis workers_positive : 0 < sp_workers plan.

Definition new_team (w : W) : team := mkTeam w 0 (worker_new <$> _spans (sp_size plan) (sp_workers plan)).

Lemma new_team_good w :
  St [] (replicate (length (_spans (sp_size plan) (sp_workers plan))) Away) w ->
  good_team (new_team w) /\ settled (new_team w) /\ all_busy (new_team w)
  /\ spans_of (tm_workers (new_team w)) = _spans (sp_size plan) (sp_workers plan).
Proof.
  intros Hs. destruct (spans_tile (sp_size plan) (sp_workers plan) workers_positive) as [Ht _];
    [rewrite size_known; apply zlen_nonneg|]. split_and!.
  - exists [], (replicate (length (_spans (sp_size plan) (sp_workers plan))) Away). split_and!; [done | |].
    + cbn. apply Forall2_fmap_l. rewrite size_known in *. apply Forall2_same_length_lookup_2; [by rewrite length_replicate|].
      intros i [o l] x Hi Hx. apply lookup_replicate in Hx as [-> _]. destruct (tiles_range _ _ _ i o l Ht Hi) as (? & ? & ?).
      split_and!; cbn; try done; lia.
    + split; [apply zlen_nonneg|]. intros i k Hi x Hx. cbn in Hi. rewrite list_lookup_fmap in Hi.
      destruct (_ !! i); [|done]. injection Hi as <-. cbn in Hx. rewrite Z.add_0_r in Hx. lia.
  - intros i k Hi. cbn in Hi. rewrite list_lookup_fmap in Hi. destruct (_ !! i); [|done]. by injection Hi as <-.
  - apply Forall_fmap, Forall_true. done.
  - cbn. unfold spans_of. rewrite <- list_fmap_compose. etransitivity; [|apply list_fmap_id]. apply list_fmap_ext. by intros i [].
Qed.

(** C13: whatever the order in which the workers read, write and report, a transfer
    spread over several connections ends with the target equal to the source
    and every byte counted once - or with an exception some stream raised. *)
Theorem parallel_exact sched w :
  Ready w -> (forall i, (Z.to_nat (3 * zlen src + 6) < turns i sched \/ length (_spans (sp_size plan) (sp_workers plan)) <= i)%nat) ->
  match _in_parallel plan config chunk report sched overwrite w with
  | (w', Ok (Some n)) => n = zlen src /\ exists ws, St src ws w'
  | (_, Ok None) => False
  | (_, Err _) => fails
  end.
Proof.
  intros Hw Hn. unfold _in_parallel. cbv zeta. rewrite st_bind_eq. pose proof (target_created w Hw) as Hc.
  destruct (with_stack _ w) as [w1 [h|e]]; [|done]. destruct (new_team_good w1 Hc) as (Hg & Hs & Hb & Hsp).
  fold (new_team w1). destruct (spans_tile (sp_size plan) (sp_workers plan) workers_positive) as [Ht _];
    [rewrite size_known; apply zlen_nonneg|].
  assert (Hfin : forallb finished (tm_workers (team_run sched (new_team w1))) = true).
  { apply team_finishes; [done|]. intros i k Hi. cbn in Hi. rewrite list_lookup_fmap in Hi.
    destruct (_ !! i) as [[o l]|] eqn:Ei; [|done]. injection Hi as <-. cbn.
    rewrite size_known in *. destruct (tiles_range _ _ _ i o l Ht Ei) as (? & ? & ?). apply lookup_lt_Some in Ei.
    destruct (Hn i); lia. }
  rewrite Hfin. destruct (team_run_keeps sched (new_team w1) Hs) as [Hs' Hsp']. rewrite Hsp in Hsp'.
  destruct (team_run_ok sched (new_team w1) (or_introl Hg)) as [(tgt & ws & HS & Hf & Hr)|[Hfail (i & k & Hi & He)]].
  - destruct (good_finished 0 _ _ Hf Hfin) as [-> Hm]. rewrite Hsp' in *. pose proof (tiles_sum _ _ _ Ht) as Hsum.
    split; [rewrite <- size_known; lia|]. exists ws. rewrite <- (right_bytes_all tgt _ Hr Hm); [done|].
    by rewrite Hsp', <- size_known.
  - destruct (outcome 0 _) as [[n|e]|] eqn:Eo; [by eapply bad_outcome in Eo | done|].
    destruct (finished_outcome 0 _ Hfin Eo) as (j & kj & Hj & Hcj). destruct (Hs' j kj Hj Hcj) as [e He']. congruence.
Qed.
End Parallel.
