(* ===== verification/CopyProps.v ===== *)
(** * What [copy] does to a file

    From what streams, the operating system and the protocols promise one call
    at a time ([Storage]): the target ends up equal to the source, whole or
    resumed, and a result that carries a checksum has been verified. What the
    engine needs of its two ends in between is [Endpoints], which is derived
    here from that contract. *)

From S2P Require Import Prelude PyStr Errors Responses ConfigFile Url UrlText Checksum FileClient FileTransfer Copy CopyAhead.
From Stdlib Require Import QArith.
Open Scope Z_scope.

Import Copy.

Section Exact.
Context {H F W : Type} `{CopyEnv H F W}.
Variable lower abspath : str -> str.
Variable hashlib : str -> bytes -> bytes.
Variable source target : @endpoint H.
Variable o : options.
Variable cfg : Config.
Variable sc : schedule.
(** The bytes of the source, and how many of them the target already has. *)
Variable content : bytes.
Variable off : Z.

Notation _probe := (_probe lower).
Notation _digest_of := (_digest_of lower hashlib).
Notation copy := (copy lower abspath hashlib).

(** Nothing to resume, or what the target already has. *)
Definition resumes (r : option _Resume) : Prop :=
  r = None \/ exists r', r = Some r' /\ rs_offset r' = off /\ off <> 0 /\ _target_url lower abspath target = Ok (Some (rs_target r'))
    /\ _target_url lower abspath source = Ok (Some (rs_source r')).

(** What the engine needs of its ends: asking about them changes nothing; opened,
    they are two streams at the right places; closed, the target has what was
    written to it. *)
Class Endpoints (Ready Finished : W -> Prop) := {
  ep_probe u : preserves Ready (_probe u cfg);
  ep_there u w w' n m :
    op_resume o = true -> Ready w -> _target_url lower abspath target = Ok (Some u) -> _probe u cfg w = (w', Ok (Some (n, m))) -> n = off;
  ep_here u w w' n m :
    Ready w -> _target_url lower abspath source = Ok (Some u) -> _probe u cfg w = (w', Ok (Some (n, m))) -> n = zlen content;
  ep_clock w : (Ready w -> Ready (monotonic w).1) /\ (Finished w -> Finished (monotonic w).1);
  ep_open src dst resuming w :
    Ready w -> _target_url lower abspath source = Ok src -> _target_url lower abspath target = Ok dst -> resumes resuming ->
    match open_ends source target src dst cfg resuming (op_overwrite o) ([], w) with
    | ((hs, w'), Ok (rd, wr)) =>
        let rest := drop (Z.to_nat (offset_of resuming)) content in
        exists Inv, Moving rd.1 wr True Inv /\ Inv rest [] w'
        /\ forall w2, Inv [] rest w2 ->
           forall t : option tally, match close_all hs (Ok t) w2 with (w3, Ok _) => Finished w3 | _ => True end
    | _ => True
    end;
  ep_checksum u a w : Finished w -> Finished (_server_checksum lower u cfg a w).1;
  ep_digest u a w :
    _target_url lower abspath source = Ok (Some u) \/ _target_url lower abspath target = Ok (Some u) ->
    Finished w -> Finished (_digest_of (sc_fuel sc) u cfg a w).1 /\ (_digest_of (sc_fuel sc) u cfg a w).2 <> Ok None
}.

Context {Ready Finished : W -> Prop} `{!Endpoints Ready Finished}.

Hypothesis one_stream : Z.min (c_parallel_chunks cfg) (zlen content / or_num (op_chunk_size o) (c_chunk_size cfg)) <= 1.
Hypothesis chunk_positive : 0 < or_num (op_chunk_size o) (c_chunk_size cfg).
Hypothesis off_range : 0 <= off <= zlen content.
(** Time enough for every thread. *)
Hypothesis fuel_enough : (length content < sc_fuel sc)%nat.
Hypothesis schedule_fair : exists segs, sc_ahead sc = concat segs /\ Forall fair segs
  /\ (120 + room (c_in_flight cfg) + 10 * length content < length segs)%nat.

(** ** The plan *)

Lemma continue_from_ready w :
  op_resume o = true -> Ready w ->
  forall src dst, _target_url lower abspath source = Ok src -> _target_url lower abspath target = Ok dst ->
  match _continue_from lower src dst cfg (op_overwrite o) w with
  | (w', Ok r) => Ready w' /\ resumes r
  | _ => True
  end.
Proof.
  intros Hres Hr src dst Hsrc Hd. unfold _continue_from. destruct (op_overwrite o); [|done]. cbn [negb].
  destruct src as [s|]; [|done]. destruct dst as [d|]; [|done]. rewrite st_bind_eq.
  pose proof (ep_probe d w Hr) as Hp. destruct (_probe d cfg w) as [w1 [[[n m]|]|e]] eqn:E; cbn [fst] in Hp; [|by split; [|left]|done].
  apply (ep_there d w w1 n m Hres Hr Hd) in E as ->. destruct (Z.eqb_spec off 0); [by split; [|left]|]. rewrite st_bind_eq.
  pose proof (ep_probe s w1 Hp) as Hp2. destruct (_probe s cfg w1) as [w2 [[[n2 m2]|]|e]]; cbn [fst] in Hp2; [| |done].
  - destruct (n2 <? off); [done|]. split; [done|]. right. by eexists.
  - split; [done|]. right. by eexists.
Qed.

Lemma spread_ready src dst w :
  Ready w -> _target_url lower abspath source = Ok src ->
  match _spread lower src dst cfg (or_num (op_chunk_size o) (c_chunk_size cfg)) w with (w', Ok r) => Ready w' /\ r = None | _ => True end.
Proof.
  intros Hr Hsrc. unfold _spread. destruct src as [s|]; [|done]. destruct dst as [d|]; [|done].
  destruct (_divisible s d); [|done]. cbn [negb]. rewrite st_bind_eq. pose proof (ep_probe s w Hr) as Hp.
  destruct (_probe s cfg w) as [w1 [[[n m]|]|e]] eqn:E; [|done|done]. apply (ep_here s w w1 n m Hr Hsrc) in E as ->.
  destruct (Z.eqb_spec (or_num (op_chunk_size o) (c_chunk_size cfg)) 0); [lia|]. destruct (Z.ltb_spec 1 (Z.min (c_parallel_chunks cfg) (zlen content / or_num (op_chunk_size o) (c_chunk_size cfg)))); [lia | done].
Qed.

Lemma plan_ready w :
  Ready w ->
  match plan_of lower abspath source target o cfg w with
  | (w', Ok j) =>
      Ready w' /\ jb_spread j = None /\ resumes (jb_resuming j)
      /\ jb_chunk j = or_num (op_chunk_size o) (c_chunk_size cfg)
      /\ jb_algo j = or_str (op_algorithm o) (c_preferred_checksum cfg)
      /\ _target_url lower abspath source = Ok (jb_src j) /\ _target_url lower abspath target = Ok (jb_dst j)
  | _ => True
  end.
Proof.
  intros Hr. unfold plan_of, lift. rewrite st_bind_eq. destruct (_target_url lower abspath source) as [src|] eqn:Es; [|done].
  rewrite st_bind_eq. destruct (_target_url lower abspath target) as [dst|] eqn:Ed; [|done]. rewrite st_bind_eq.
  match goal with |- context [(if op_resume o then ?a else ?b) w] => set (c := if op_resume o then a else b) end.
  assert (Hc : match c w with
               | (w', Ok r) => Ready w' /\ resumes r
               | _ => True
               end).
  { unfold c. destruct (op_resume o) eqn:Eres; [by apply continue_from_ready|]. by split; [|left]. }
  destruct (c w) as [w1 [resuming|e]]; [|done]. destruct Hc as [Hr1 Hoff].
  rewrite st_bind_eq. destruct resuming as [r|].
  - cbn. split_and!; done.
  - pose proof (spread_ready src dst w1 Hr1 Es) as Hs.
    destruct (_spread lower src dst cfg _ w1) as [w2 [spread|e]]; [|done]. destruct Hs as [Hr2 ->].
    by split_and!.
Qed.

(** ** The bytes *)

Lemma digest_for_additive j d : digest_for lower j = Ok d -> forall e, d = Some e -> additive e.
Proof.
  unfold digest_for. destruct (checkable _ _); [|by intros [= <-]]. destruct (ends_of j); [by intros [= <-]|].
  destruct (jb_wanted j); [|by intros [= <-]]. destruct (new lower (jb_algo j)) as [e|] eqn:E; [|done].
  intros [= <-] e' [= <-]. by apply new_additive in E.
Qed.

(** One stream moves what is left of the source. *)
Lemma in_one_exact src dst resuming report d w :
  (forall e, d = Some e -> additive e) -> Ready w -> _target_url lower abspath source = Ok src -> _target_url lower abspath target = Ok dst ->
  resumes resuming ->
  match in_one sc source target src dst cfg (or_num (op_chunk_size o) (c_chunk_size cfg)) resuming (op_overwrite o) report d w with
  | (w', Ok (Some t)) => Finished w' /\ tallied d t (drop (Z.to_nat (offset_of resuming)) content)
  | (_, Ok None) => False
  | _ => True
  end.
Proof.
  intros Hd Hr Es Et Hoff. unfold in_one, with_stack. rewrite st_bind_eq. pose proof (ep_open src dst resuming w Hr Es Et Hoff) as Ho.
  destruct (open_ends _ _ _ _ _ _ _ _) as [[hs w1] [[[rd total] wr]|e]].
  2: { destruct (close_all_err (A := option tally) hs e w1) as (w2 & e' & ->). done. }
  destruct Ho as (Inv & Hm & Hi & Hclose). cbn [fst snd] in *. set (rest := drop _ content) in *. destruct schedule_fair as (segs & -> & Hf & Hn).
  assert (Hrest : (length rest <= length content)%nat) by (unfold rest; rewrite length_drop; lia).
  unfold io. cbn [fst snd].
  pose proof (pump_result rd wr True Inv d total (or_num (op_chunk_size o) (c_chunk_size cfg)) (c_in_flight cfg)
    (if report then Some (offset_of resuming) else None) rest (sc_fuel sc) segs w1 Hd chunk_positive Hi ltac:(lia) Hf ltac:(lia)) as Hp.
  destruct (_pump _ _ _ _ _ _ _ _ _ _) as [w2 [[t|]|e]].
  - destruct Hp as [Hi2 Ht]. specialize (Hclose w2 Hi2 (Some t)).
    pose proof (close_all_ok (Some t) hs w2) as Hk. destruct (close_all hs _ w2) as [w3 [u|e]]; [|done]. by subst u.
  - done.
  - destruct (close_all_err (A := option tally) hs e w2) as (w3 & e' & ->). done.
Qed.

(** ** The check *)

Lemma compare_checked u a ours strict w :
  Finished w ->
  match _compare lower u cfg a ours strict w with
  | (w', Ok c) => Finished w' /\ forall c', c = Some c' -> lower (ck_value c') = lower ours
  | _ => True
  end.
Proof.
  intros Hf. unfold _compare. pose proof (ep_checksum u a w Hf) as Hc. destruct (_server_checksum lower u cfg a w) as [w' [c|e]]; cbn in Hc.
  - case_bool_decide; [|done]. split; [done|]. by intros c' [= <-].
  - destruct (is_os_error e && negb strict); [|done]. by split.
Qed.

Lemma compare_ends_checked s t a strict w :
  _target_url lower abspath source = Ok (Some s) -> _target_url lower abspath target = Ok (Some t) -> Finished w ->
  match _compare_ends lower hashlib (sc_fuel sc) s t cfg a strict w with
  | (w', Ok (Some _)) => Finished w'
  | (_, Ok None) => False
  | _ => True
  end.
Proof.
  intros Eus Eut Hf. unfold _compare_ends. rewrite st_bind_eq. destruct (ep_digest s a w (or_introl Eus) Hf) as [Hs Hn].
  destruct (_digest_of (sc_fuel sc) s cfg a w) as [w1 [[ours|]|e]]; [|done|by destruct (_ && _)].
  rewrite st_bind_eq. destruct (ep_digest t a w1 (or_intror Eut) Hs) as [Ht Hn'].
  destruct (_digest_of (sc_fuel sc) t cfg a w1) as [w2 [[theirs|]|e]]; [|done|by destruct (_ && _)]. cbn. by case_bool_decide.
Qed.

(** The checksum of a result, where it was taken on the way. *)
Definition checked_by (algorithm : str) (c : option ChecksumInfo) : Prop :=
  forall c', c = Some c' -> exists d0 d, new lower algorithm = Ok d0 /\ update d0 content = Some d
    /\ lower (ck_value c') = lower (hexdigest hashlib d).

Lemma verification_checked j d d0 n w :
  Finished w -> jb_spread j = None -> resumes (jb_resuming j) -> digest_for lower j = Ok d0 ->
  tallied d0 (d, n) (drop (Z.to_nat (offset_of (jb_resuming j))) content) ->
  match verification lower hashlib sc o cfg j d w with
  | (w', Ok (Some c)) => Finished w' /\ (jb_resuming j = None -> checked_by (jb_algo j) c)
  | (_, Ok None) => False
  | _ => True
  end.
Proof.
  intros Hf Hs Hoff Hd0 [_ Ht]. unfold verification, ends_of in *. rewrite Hs. destruct (jb_resuming j) as [r|] eqn:Er.
  - destruct (jb_wanted j); [|done]. destruct Hoff as [|(r' & [= <-] & _ & _ & Eut & Eus)]; [done|].
    pose proof (compare_ends_checked (rs_source r) (rs_target r) (jb_algo j)
      (bool_decide (op_verify o = Some true)) w Eus Eut Hf) as Hc.
    by destruct (_compare_ends _ _ _ _ _ _ _ _ _) as [w' [[c|]|e]].
  - destruct d as [d|]; [|done]. destruct (checkable (jb_src j) (jb_dst j)) as [u|] eqn:Ec; [|done]. rewrite st_bind_eq.
    pose proof (compare_checked u (jb_algo j) (hexdigest hashlib d) (bool_decide (op_verify o = Some true)) w Hf) as Hc.
    destruct (_compare lower u cfg _ _ _ w) as [w' [c|e]]; [|done]. destruct Hc as [Hf' Hc]. split; [done|]. intros _ c' Hc'.
    unfold digest_for in Hd0. rewrite Ec in Hd0. unfold ends_of in Hd0. rewrite Er, Hs in Hd0. cbn in Ht.
    destruct (jb_wanted j); [|injection Hd0 as <-; done]. destruct (new lower (jb_algo j)) as [e|] eqn:En; [|done].
    injection Hd0 as <-. exists e, d. auto.
Qed.

Lemma moved_and_checked_exact j w :
  Ready w -> jb_spread j = None -> resumes (jb_resuming j) ->
  _target_url lower abspath source = Ok (jb_src j) -> _target_url lower abspath target = Ok (jb_dst j) ->
  jb_chunk j = or_num (op_chunk_size o) (c_chunk_size cfg) ->
  match moved_and_checked lower hashlib sc source target o cfg j w with
  | (w', Ok (Some (n, _, c))) =>
      Finished w' /\ n = zlen (drop (Z.to_nat (offset_of (jb_resuming j))) content)
      /\ (jb_resuming j = None -> checked_by (jb_algo j) c)
  | (_, Ok None) => False
  | _ => True
  end.
Proof.
  intros Hr Hs Hoff Es Et Hc. unfold moved_and_checked, lift. rewrite st_bind_eq. destruct (digest_for lower j) as [d0|] eqn:Ed; [|done].
  rewrite st_bind_eq. pose proof (proj1 (ep_clock w) Hr) as Hr1. destruct (monotonic w) as [w1 started]. cbn [fst] in Hr1.
  unfold bind_opt. rewrite st_bind_eq. unfold transfer. rewrite Hs, Hc.
  pose proof (in_one_exact (jb_src j) (jb_dst j) (jb_resuming j) (op_progress o) d0 w1 (digest_for_additive j d0 Ed) Hr1 Es Et Hoff) as Ht.
  destruct (in_one _ _ _ _ _ _ _ _ _ _ _ _) as [w2 [[[d n]|]|e]]; [|done|done]. destruct Ht as [Hf Ht].
  rewrite st_bind_eq. pose proof (proj2 (ep_clock w2) Hf) as Hf1. destruct (monotonic w2) as [w3 ended]. cbn [fst] in Hf1.
  rewrite st_bind_eq. pose proof (verification_checked j d d0 n w3 Hf1 Hs Hoff Ed Ht) as Hv. cbn [fst].
  destruct (verification _ _ _ _ _ _ _ _) as [w4 [[c|]|e]]; [|done|done]. destruct Hv as [Hf2 Hv]. destruct Ht as [Hn _].
  by split_and!.
Qed.

(** A copy between ends that keep their promises. *)
Lemma copy_moves w :
  Ready w -> op_dry_run o = false -> op_remove_source o = false ->
  match copy sc source target o cfg w with
  | (w', Ok (Some r)) =>
      Finished w' /\ cr_resumed_at r + cr_size r = zlen content
      /\ (cr_resumed_at r = 0 -> checked_by (or_str (op_algorithm o) (c_preferred_checksum cfg)) (cr_checksum r))
  | (_, Ok None) => False
  | _ => True
  end.
Proof.
  intros Hr Hdry Hrm. unfold Copy.copy. rewrite Hdry, Hrm, st_bind_eq. pose proof (plan_ready w Hr) as Hp.
  destruct (plan_of _ _ _ _ _ _ _) as [w1 [j|e]]; [|done]. destruct Hp as (Hr1 & Hs & Hoff & Hc & Ha & Es & Et).
  unfold bind_opt. rewrite st_bind_eq. pose proof (moved_and_checked_exact j w1 Hr1 Hs Hoff Es Et Hc) as Hm.
  destruct (moved_and_checked _ _ _ _ _ _ _ _ _) as [w2 [[[[n q] c]|]|e]]; [|done|done]. destruct Hm as (Hf & -> & Hck).
  rewrite st_bind_eq.
  match goal with |- context [match jb_src j with Some _ => ?a | None => _ end w2] =>
    assert ((match jb_src j with Some _ => a | None => a end) w2 = (w2, Ok tt)) as -> by (by destruct (jb_src j)) end.
  unfold lift. rewrite st_bind_eq. destruct (shown source _) as [s|]; [|done]. rewrite st_bind_eq.
  destruct (shown target _) as [t|]; [|done]. cbn. split_and!; [done | |].
  - destruct Hoff as [->|(r & -> & Eo & _)]; cbn; [by rewrite drop_0|]. rewrite Eo. unfold zlen in *. rewrite length_drop. lia.
  - rewrite <- Ha. intros Hz. apply Hck. destruct Hoff as [|(r & E & Eo & Hne)]; [done|]. rewrite E in Hz. cbn in Hz. lia.
Qed.
End Exact.

(** Writing at the end appends. *)
Lemma patch_end (f d : list byte) : patch f (zlen f) d = f ++ d.
Proof.
  unfold patch, zlen. rewrite Nat2Z.id, Nat.sub_diag, app_nil_r, take_ge, drop_ge by lia. by rewrite app_nil_r.
Qed.

(** ** What is asked of the store

    A store holds files under keys; a stream reads a file from a position, or
    is writing one: [writing h k d p] says that closing [h] leaves [d] as the
    file [k], and that the next write goes to [p] of it. *)

Record View (H W K : Type) := mkView {
  file : K -> W -> option bytes;
  reading : H -> K -> Z -> W -> Prop;
  writing : H -> K -> bytes -> Z -> W -> Prop
}.
Arguments file {H W K}. Arguments reading {H W K}. Arguments writing {H W K}.

Section View.
Context {H W K : Type}.
Variable v : View H W K.

(** Nothing has changed. *)
Definition same (w w' : W) : Prop :=
  (forall k, file v k w' = file v k w)
  /\ (forall g k p, reading v g k p w -> reading v g k p w')
  /\ (forall g k d p, writing v g k d p w -> writing v g k d p w').

(** Nothing but the stream [h] and the files that are not [steady]. *)
Definition kept (h : H) (steady : K -> Prop) (w w' : W) : Prop :=
  (forall k, steady k -> file v k w' = file v k w)
  /\ (forall g k p, reading v g k p w -> g <> h -> reading v g k p w')
  /\ (forall g k d p, writing v g k d p w -> g <> h -> steady k -> writing v g k d p w').

(** No open stream is [h]. *)
Definition unused (h : H) (w : W) : Prop :=
  (forall g k p, reading v g k p w -> g <> h) /\ (forall g k d p, writing v g k d p w -> g <> h).

Definition every (_ : K) : Prop := True.

(** [open_] opens the file [k] in the modes the engine uses. *)
Record opens (k : K) (open_ : str -> W -> W * res H) : Prop := {
  opens_rb w : match open_ (s_ "rb") w with
    | (w', Ok h) => is_Some (file v k w) /\ reading v h k 0 w' /\ unused h w /\ kept h every w w'
    | (w', Err _) => same w w'
    end;
  opens_new mode w : mode = s_ "wb" \/ mode = s_ "xb" -> match open_ mode w with
    | (w', Ok h) => writing v h k [] 0 w' /\ unused h w /\ kept h (fun k' => k' <> k) w w'
    | (_, Err _) => True
    end;
  opens_kept w : match open_ (s_ "r+b") w with
    | (w', Ok h) => exists d, file v k w = Some d /\ writing v h k d 0 w' /\ unused h w /\ kept h (fun k' => k' <> k) w w'
    | (_, Err _) => True
    end
}.

(** What reading one chunk may come to. *)
Definition gives (h : H) (k : K) (p n : Z) (c : bytes) (w w' : W) (d : bytes) : Prop :=
  (exists rest, drop (Z.to_nat p) c = d ++ rest) /\ zlen d <= n /\ (d = [] -> drop (Z.to_nat p) c = [])
  /\ reading v h k (p + zlen d) w' /\ kept h every w w'.
(** A reader that raised is still one. *)
Definition stays (h : H) (k : K) (w w' : W) : Prop := (exists p, reading v h k p w') /\ kept h every w w'.
End View.

(** Each call on its own. A call that raises may have left a file it was
    writing in any state; asking, reading and closing a reader leave the files
    alone whatever comes of it. *)
Class Storage {H F W : Type} `{CopyEnv H F W} (lower : str -> str) {K : Type} (key : XRootDURL -> K) (v : View H W K) := {
  st_read h k p n c w : reading v h k p w -> 0 <= p -> 0 < n -> file v k w = Some c ->
    match h_read h n w with (w', Ok d) => gives v h k p n c w w' d | (w', Err _) => stays v h k w w' end;
  st_readinto readinto h k p n c w : h_readinto h = Some readinto -> reading v h k p w -> 0 <= p -> 0 < n -> file v k w = Some c ->
    match readinto n w with (w', Ok d) => gives v h k p n c w w' (default [] d) | (w', Err _) => stays v h k w w' end;
  st_write h k d p b w : writing v h k d p w -> 0 <= p ->
    match h_write h b w with
    | (w', Ok _) => writing v h k (patch d p b) (p + zlen b) w' /\ kept v h (fun k' => k' <> k) w w'
    | _ => True
    end;
  st_seek_reader h k p off w : reading v h k p w ->
    match h_seek h off w with (w', Ok _) => reading v h k off w' /\ kept v h every w w' | _ => True end;
  st_seek_writer h k d p off w : writing v h k d p w ->
    match h_seek h off w with (w', Ok _) => writing v h k d off w' /\ kept v h every w w' | _ => True end;
  st_close_reader h k p w : reading v h k p w -> kept v h every w (h_close h w).1;
  st_close_writer h k d p w : writing v h k d p w ->
    match h_close h w with (w', Ok _) => file v k w' = Some d /\ kept v h (fun k' => k' <> k) w w' | _ => True end;
  st_size h w : same v w (h_size h w).1;
  st_getsize path w : same v w (os_getsize path w).1;
  st_os u : is_local u = true -> opens v (key u) (os_open (u_path u));
  st_root u config : is_local u = false -> opens v (key u) (fun mode => open_url u mode config);
  st_http u config : is_local u = false -> opens v (key u) (fun mode => open_http u mode config);
  st_s3 u config : is_local u = false -> opens v (key u) (fun mode => open_s3 u mode config);
  st_os_stat u w : is_local u = true ->
    match os_stat (u_path u) w with
    | (w', r) => same v w w' /\ forall n m, r = Ok (n, m) -> exists c, file v (key u) w = Some c /\ n = zlen c
    end;
  st_enter u config w : same v w (fs_enter u config w).1;
  st_fs_stat u config fs w w' : is_local u = false -> fs_enter (with_path lower u [0x2F]) config w = (w', Ok fs) ->
    match fs_stat fs (u_path u) w' with
    | (w2, r) => same v w' w2 /\ forall n m, r = Ok (n, m) -> exists c, file v (key u) w' = Some c /\ n = zlen c
    end;
  st_exit fs w : same v w (fs_exit fs w).1;
  st_checksum fs path algorithm w : same v w (fs_checksum fs path algorithm w).1;
  st_http_digest u algorithm config w : same v w (http_digest u algorithm config w).1;
  st_clock w : same v w (monotonic w).1;
  st_progress n total w : same v w (progress n total w).1
}.

Section Stores.
Context {H F W : Type} `{CopyEnv H F W}.
Variable lower abspath : str -> str.
Variable hashlib : str -> bytes -> bytes.
Context {K : Type} {key : XRootDURL -> K} {v : View H W K} `{!Storage lower key v}.
Variable source target : @endpoint H.
Variable o : options.
Variable cfg : Config.
Variable sc : schedule.
Variable su du : XRootDURL.
Hypothesis source_url : _target_url lower abspath source = Ok (Some su).
Hypothesis target_url : _target_url lower abspath target = Ok (Some du).
(** The source is not the target. *)
Hypothesis files_apart : key su <> key du.
(** The store before, and the bytes to copy. *)
Variable w0 : W.
Variable content : bytes.
Hypothesis source_there : file v (key su) w0 = Some content.
(** A transfer is resumed on what an earlier one left. *)
Hypothesis resumable : op_resume o = true -> forall d, file v (key du) w0 = Some d -> d `prefix_of` content.

Notation same := (same v).
Notation kept := (kept v).
Notation off := (if op_resume o then match file v (key du) w0 with Some d => zlen d | None => 0 end else 0).

(** Nothing has happened yet; the copy is made, and nothing else. *)
Definition untouched (w : W) : Prop := forall k, file v k w = file v k w0.
Definition made (w : W) : Prop := file v (key du) w = Some content /\ forall k, k <> key du -> file v k w = file v k w0.

Lemma unchanged_trans w1 w2 w3 : same w1 w2 -> same w2 w3 -> same w1 w3.
Proof. intros (F1 & R1 & W1) (F2 & R2 & W2). split_and!; [intros k; by rewrite F2 | auto | auto]. Qed.

Lemma kept_trans h w1 w2 w3 : kept h every w1 w2 -> kept h every w2 w3 -> kept h every w1 w3.
Proof. intros (F1 & R1 & W1) (F2 & R2 & W2). split_and!; [intros k Hk; by rewrite F2, F1 | auto | auto]. Qed.
Lemma made_kept h w w' : kept h every w w' -> made w -> made w'.
Proof. intros (F1 & _) [H1 H2]. split; [by rewrite F1|]. intros k Hk. rewrite F1 by done. by apply H2. Qed.
Lemma made_same w w' : same w w' -> made w -> made w'.
Proof. intros (F1 & _) [H1 H2]. split; [by rewrite F1|]. intros k Hk. rewrite F1. by apply H2. Qed.

(** *** Asking *)

Lemma with_fs_same {A} u (body : F -> st exn W A) w :
  (forall fs w1, fs_enter (with_path lower u [0x2F]) cfg w = (w1, Ok fs) -> same w1 (body fs w1).1) ->
  same w (with_fs lower u cfg body w).1.
Proof.
  intros Hb. unfold with_fs. pose proof (st_enter (with_path lower u [0x2F]) cfg w) as He.
  destruct (fs_enter _ _ w) as [w1 [fs|e]]; [|exact He]. cbn [fst] in He. specialize (Hb fs w1 eq_refl).
  destruct (body fs w1) as [w2 r]. cbn [fst] in Hb. pose proof (st_exit fs w2) as Hx.
  destruct (fs_exit fs w2) as [w3 c]. cbn [fst] in *. eapply unchanged_trans; [exact He|]. by eapply unchanged_trans.
Qed.

Lemma probe_same u w : same w (_probe lower u cfg w).1.
Proof.
  unfold _probe. destruct (is_local u) eqn:El.
  - pose proof (st_os_stat u w El) as Hs. unfold or_none. destruct (os_stat _ w) as [w' [[n m]|e]]; [apply Hs|].
    destruct (is_os_error e); apply Hs.
  - apply with_fs_same. intros fs w1 E. pose proof (st_fs_stat u cfg fs w w1 El E) as Hs. unfold or_none.
    destruct (fs_stat _ _ w1) as [w2 [[n m]|e]]; [apply Hs|]. destruct (is_os_error e); apply Hs.
Qed.

Lemma probe_size u w w' n m : _probe lower u cfg w = (w', Ok (Some (n, m))) -> exists c, file v (key u) w = Some c /\ n = zlen c.
Proof.
  unfold _probe. destruct (is_local u) eqn:El.
  - pose proof (st_os_stat u w El) as Hs. unfold or_none. destruct (os_stat _ w) as [w1 [[n1 m1]|e]].
    + intros [= _ <- <-]. by apply (proj2 Hs n1 m1).
    + destruct (is_os_error e); done.
  - unfold with_fs. pose proof (st_enter (with_path lower u [0x2F]) cfg w) as He.
    destruct (fs_enter _ _ w) as [w1 [fs|e]] eqn:E; [|done]. cbn [fst] in He.
    pose proof (st_fs_stat u cfg fs w w1 El E) as Hs. unfold or_none. destruct (fs_stat _ _ w1) as [w2 [[n1 m1]|e]].
    + destruct (fs_exit fs w2) as [w3 [c|e]]; [|done]. intros [= _ <- <-].
      destruct (proj2 Hs n1 m1 eq_refl) as (c' & Hc & ->). exists c'. split; [|done]. rewrite <- Hc. symmetry. apply He.
    + destruct (fs_exit fs w2) as [w3 [c|e']]; destruct (is_os_error e); done.
Qed.

Lemma checksum_same u a w : same w (_server_checksum lower u cfg a w).1.
Proof.
  unfold _server_checksum. destruct (is_http u); [apply st_http_digest|]. apply with_fs_same. intros. apply st_checksum.
Qed.

(** *** Reading a file through *)

Lemma digest_loop_kept fuel h k p c d w :
  reading v h k p w -> 0 <= p -> file v k w = Some c -> (length (drop (Z.to_nat p) c) < fuel)%nat ->
  stays v h k w (digest_loop fuel h d w).1 /\ (digest_loop fuel h d w).2 <> Ok None.
Proof.
  revert d p w. induction fuel as [|fuel IH]; intros d p w Hr Hp Hf Hl; [lia|]. cbn [digest_loop]. rewrite st_bind_eq.
  pose proof (st_read h k p (Z.shiftl 1 20) c w Hr Hp ltac:(rewrite Z.shiftl_mul_pow2; lia) Hf) as Hg.
  destruct (h_read h (Z.shiftl 1 20) w) as [w1 [b|e]]; cbn [fst snd]; [|by split].
  destruct Hg as ((rest & Hrest) & _ & Hend & Hr1 & Hk).
  assert (Hst : stays v h k w w1) by (split; [by eexists | done]).
  destruct b as [|x b]; [by split|]. destruct (update d (x :: b)) as [d'|]; [|by split].
  destruct (IH d' (p + zlen (x :: b)) w1 Hr1) as [H1 H2].
  - pose proof (zlen_nonneg (x :: b)). lia.
  - rewrite <- Hf. by apply Hk.
  - replace (Z.to_nat (p + zlen (x :: b))) with (Z.to_nat p + length (x :: b))%nat by (unfold zlen; lia).
    rewrite <- drop_drop, Hrest, drop_app_length. rewrite Hrest, length_app in Hl. cbn in Hl. lia.
  - split; [|done]. destruct H1 as [Hp1 Hk1]. split; [done|]. by eapply kept_trans.
Qed.

Lemma digest_same fuel u c a w :
  file v (key u) w = Some c -> (length c < fuel)%nat ->
  match _digest_of lower hashlib fuel u cfg a w with (w', r) => (forall k, file v k w' = file v k w) /\ r <> Ok None end.
Proof.
  intros Hfile Hl. unfold _digest_of. destruct (is_local u) eqn:El; cbn [negb].
  - rewrite st_bind_eq. unfold lift. destruct (new lower a) as [d|e]; [|done]. unfold with_stack. rewrite st_bind_eq. unfold io at 1.
    cbn [fst snd]. pose proof (opens_rb _ _ _ (st_os u El) w) as Ho.
    destruct (os_open (u_path u) (s_ "rb") w) as [w1 [h|e]]; [|by split; [apply Ho|]].
    destruct Ho as (_ & Hr & _ & Hk). rewrite st_bind_eq. unfold enter. cbn [fst snd]. rewrite st_bind_eq. unfold io. cbn [fst snd].
    destruct (digest_loop_kept fuel h (key u) 0 c d w1 Hr ltac:(lia)) as [Hs Hn].
    + rewrite <- Hfile. by apply Hk.
    + by rewrite drop_0.
    + destruct (digest_loop _ _ _ w1) as [w2 r]. cbn [fst snd] in Hs, Hn. destruct Hs as [[p' Hp'] Hk2].
      pose proof (st_close_reader h (key u) p' w2 Hp') as Hk3.
      assert (Hm : forall k, file v k (h_close h w2).1 = file v k w).
      { intros k. destruct Hk as [Hk _], Hk2 as [Hk2 _], Hk3 as [Hk3 _]. by rewrite Hk3, Hk2, Hk. }
      destruct r as [[d'|]|e]; [|done|]; cbn; destruct (h_close h w2) as [w3 [[]|e']]; done.
  - rewrite st_bind_eq. pose proof (checksum_same u a w) as Hs. destruct (_server_checksum _ _ _ _ w) as [w1 [c'|e]]; cbn [fst] in *;
      (split; [apply Hs | done]).
Qed.

Lemma digest_made u a w :
  u = su \/ u = du -> (length content < sc_fuel sc)%nat -> made w ->
  match _digest_of lower hashlib (sc_fuel sc) u cfg a w with (w', r) => made w' /\ r <> Ok None end.
Proof.
  intros Hu Hl Hm. assert (Hfile : file v (key u) w = Some content).
  { destruct Hm as [Ht Ho]. destruct Hu as [-> | ->]; [by rewrite Ho | done]. }
  pose proof (digest_same (sc_fuel sc) u content a w Hfile Hl) as Hd. destruct (_digest_of _ _ _ _ _ _ w) as [w' r].
  destruct Hd as [Hd Hn]. split; [|done]. destruct Hm as [Ht Ho]. split; [by rewrite Hd|]. intros k Hk. rewrite Hd. by apply Ho.
Qed.

(** *** The two streams *)

Section Streams.
Variable rd wr : H.
(** What the target holds before the first write. *)
Variable pre : bytes.
Hypothesis streams_apart : rd <> wr.

Definition between (left out : bytes) (w : W) : Prop :=
  exists p, 0 <= p /\ reading v rd (key su) p w /\ drop (Z.to_nat p) content = left
    /\ writing v wr (key du) (pre ++ out) (zlen (pre ++ out)) w /\ forall k, k <> key du -> file v k w = file v k w0.

Lemma between_gives left out n p w w' d :
  0 <= p -> drop (Z.to_nat p) content = left -> writing v wr (key du) (pre ++ out) (zlen (pre ++ out)) w ->
  (forall k, k <> key du -> file v k w = file v k w0) -> gives v rd (key su) p n content w w' d ->
  exists rest, left = d ++ rest /\ zlen d <= n /\ (d = [] -> left = []) /\ between rest out w'.
Proof.
  intros Hp <- Hw Hf ((rest & Hrest) & Hn & Hend & Hr & Hk). exists rest. split_and!; [done | done | done|].
  exists (p + zlen d). pose proof (zlen_nonneg d). split_and!; [lia | done | | |].
  - replace (Z.to_nat (p + zlen d)) with (Z.to_nat p + length d)%nat by (unfold zlen; lia).
    by rewrite <- drop_drop, Hrest, drop_app_length.
  - by apply Hk; [|congruence|].
  - intros k Hne. rewrite <- Hf by done. by apply Hk.
Qed.

Lemma streams_move : Moving rd wr True between.
Proof.
  split.
  - intros readinto n left out w E Hn (p & Hp & Hr & Hl & Hw & Hf).
    assert (Hc : file v (key su) w = Some content) by (by rewrite Hf).
    pose proof (st_readinto readinto rd (key su) p n content w E Hr Hp Hn Hc) as Hg.
    destruct (readinto n w) as [w' [d|e]]; [|done].
    destruct (between_gives left out n p w w' (default [] d) Hp Hl Hw Hf Hg) as (rest & H1 & _ & H3 & H4). by exists rest.
  - intros n left out w _ Hn (p & Hp & Hr & Hl & Hw & Hf).
    assert (Hc : file v (key su) w = Some content) by (by rewrite Hf).
    pose proof (st_read rd (key su) p n content w Hr Hp Hn Hc) as Hg.
    destruct (h_read rd n w) as [w' [d|e]]; [|done]. by eapply between_gives.
  - intros d left out w (p & Hp & Hr & Hl & Hw & Hf). pose proof (st_write wr (key du) (pre ++ out) (zlen (pre ++ out)) d w Hw (zlen_nonneg _)) as Hs.
    destruct (h_write wr d w) as [w' [n|e]]; [|done]. destruct Hs as [Hw' Hk]. rewrite patch_end, <- zlen_app, <- app_assoc in Hw'.
    exists p. split_and!; [done | by apply Hk | done | done|]. intros k Hne. rewrite <- Hf by done. by apply Hk.
  - intros n total left out w (p & Hp & Hr & Hl & Hw & Hf). pose proof (st_progress n total w) as Hs.
    destruct (progress n total w) as [w' [[]|e]]; [|done]. destruct Hs as (F1 & R1 & W1). exists p.
    split_and!; [done | by apply R1 | done | by apply W1|]. intros k Hne. cbn [fst] in F1. by rewrite F1, Hf.
Qed.

(** Closing both ends leaves the copy. *)
Lemma close_between rest w : pre ++ rest = content -> between [] rest w -> forall t : option tally,
  match close_all [wr; rd] (Ok t) w with (w', Ok _) => made w' | _ => True end.
Proof.
  intros E (p & Hp & Hr & Hl & Hw & Hf) t. cbn [close_all]. rewrite E in Hw.
  pose proof (st_close_writer wr (key du) content _ w Hw) as Hc. destruct (h_close wr w) as [w1 [[]|e]].
  - destruct Hc as [Ht Hk]. assert (Hr1 : reading v rd (key su) p w1) by (by apply Hk).
    pose proof (st_close_reader rd (key su) p w1 Hr1) as Hk2. destruct (h_close rd w1) as [w2 [[]|e]]; [|done]. cbn [fst] in Hk2.
    eapply made_kept; [exact Hk2|]. split; [done|]. intros k Hne. rewrite <- Hf by done. by apply Hk.
  - by destruct (h_close rd w1) as [w2 [[]|e']].
Qed.
End Streams.

(** *** Opening them *)

Lemma reader_opens hs w :
  untouched w ->
  match _reader su cfg (hs, w) with
  | ((hs', w'), Ok (rd, _)) => hs' = rd :: hs /\ reading v rd (key su) 0 w' /\ untouched w'
  | _ => True
  end.
Proof.
  intros Hu. assert (Hopen : forall f w1 h, opens v (key su) f -> f (s_ "rb") w = (w1, Ok h) -> reading v h (key su) 0 w1 /\ untouched w1).
  { intros f w1 h Hf E. pose proof (opens_rb _ _ _ Hf w) as Ho. rewrite E in Ho. destruct Ho as (_ & Hr & _ & Hk). split; [done|].
    intros k. rewrite <- Hu. by apply Hk. }
  assert (Hsame : forall h w1 w2, reading v h (key su) 0 w1 /\ untouched w1 -> same w1 w2 -> reading v h (key su) 0 w2 /\ untouched w2).
  { intros h w1 w2 [Hr Hw] (F1 & R1 & _). split; [by apply R1|]. intros k. by rewrite F1. }
  unfold _reader. destruct (is_local su) eqn:El; [|destruct (is_root su); [|destruct (is_http su); [|destruct (is_s3 su); [|done]]]];
    rewrite st_bind_eq; unfold io at 1; cbn [fst snd].
  - destruct (os_open _ _ w) as [w1 [h|e]] eqn:E; [|done]. specialize (Hopen _ w1 h (st_os su El) E). rewrite st_bind_eq.
    unfold enter. cbn [fst snd]. rewrite st_bind_eq. unfold io. cbn [fst snd]. pose proof (st_getsize (u_path su) w1) as Hs.
    destruct (os_getsize _ w1) as [w2 [n|e]]; [|done]. cbn. split; [done|]. by eapply Hsame.
  - destruct (open_url _ _ _ w) as [w1 [h|e]] eqn:E; [|done]. specialize (Hopen _ w1 h (st_root su cfg El) E). rewrite st_bind_eq.
    unfold enter. cbn [fst snd]. rewrite st_bind_eq. unfold io. cbn [fst snd]. pose proof (st_size h w1) as Hs.
    destruct (h_size h w1) as [w2 [n|e]]; [|done]. cbn. split; [done|]. by eapply Hsame.
  - destruct (open_http _ _ _ w) as [w1 [h|e]] eqn:E; [|done]. by specialize (Hopen _ w1 h (st_http su cfg El) E).
  - destruct (open_s3 _ _ _ w) as [w1 [h|e]] eqn:E; [|done]. by specialize (Hopen _ w1 h (st_s3 su cfg El) E).
Qed.

(** The target emptied or made, the reader where it was. *)
Lemma writer_opens rd p overwrite hs w :
  0 <= p -> reading v rd (key su) p w -> untouched w ->
  match _writer du cfg overwrite (hs, w) with
  | ((hs', w'), Ok wr) => hs' = wr :: hs /\ rd <> wr /\ between rd wr [] (drop (Z.to_nat p) content) [] w'
  | _ => True
  end.
Proof.
  intros Hp Hr Hu. set (mode := if overwrite then s_ "wb" else s_ "xb").
  assert (Hm : mode = s_ "wb" \/ mode = s_ "xb") by (unfold mode; destruct overwrite; auto).
  assert (Hopen : forall f w1 h, opens v (key du) f -> f mode w = (w1, Ok h) ->
            rd <> h /\ between rd h [] (drop (Z.to_nat p) content) [] w1).
  { intros f w1 h Hf E. pose proof (opens_new _ _ _ Hf mode w Hm) as Ho. rewrite E in Ho. destruct Ho as (Hw & [Hn _] & Hk).
    pose proof (Hn rd _ _ Hr) as Hne. split; [done|]. exists p. split_and!; [done | by apply Hk | done | done|].
    intros k Hkd. rewrite <- Hu. by apply Hk. }
  unfold _writer. fold mode. destruct (is_local du) eqn:El; [|destruct (is_root du); [|destruct (is_http du); [|destruct (is_s3 du); [|done]]]];
    rewrite st_bind_eq; unfold io at 1; cbn [fst snd].
  - destruct (os_open _ _ w) as [w1 [h|e]] eqn:E; [|done]. by specialize (Hopen _ w1 h (st_os du El) E).
  - destruct (open_url _ _ _ w) as [w1 [h|e]] eqn:E; [|done]. by specialize (Hopen _ w1 h (st_root du cfg El) E).
  - destruct (open_http _ _ _ w) as [w1 [h|e]] eqn:E; [|done]. by specialize (Hopen _ w1 h (st_http du cfg El) E).
  - destruct (open_s3 _ _ _ w) as [w1 [h|e]] eqn:E; [|done]. by specialize (Hopen _ w1 h (st_s3 du cfg El) E).
Qed.

(** The target kept, and both at the end of it. *)
Lemma resumer_opens rd d hs w :
  reading v rd (key su) (zlen d) w -> untouched w -> file v (key du) w0 = Some d ->
  match _resumer du cfg (zlen d) (hs, w) with
  | ((hs', w'), Ok wr) => hs' = wr :: hs /\ rd <> wr /\ between rd wr d (drop (Z.to_nat (zlen d)) content) [] w'
  | _ => True
  end.
Proof.
  intros Hr Hu Hd. assert (Hopen : forall f w1 h, opens v (key du) f -> f (s_ "r+b") w = (w1, Ok h) ->
    match h_seek h (zlen d) w1 with
    | (w2, Ok _) => rd <> h /\ between rd h d (drop (Z.to_nat (zlen d)) content) [] w2
    | _ => True
    end).
  { intros f w1 h Hf E. pose proof (opens_kept _ _ _ Hf w) as Ho. rewrite E in Ho. destruct Ho as (d' & Hd' & Hw & [Hn _] & Hk).
    pose proof (Hn rd _ _ Hr) as Hne. rewrite Hu, Hd in Hd'. injection Hd' as <-.
    pose proof (st_seek_writer h (key du) d 0 (zlen d) w1 Hw) as Hs. destruct (h_seek h (zlen d) w1) as [w2 [u|e]]; [|done].
    destruct Hs as [Hw2 Hk2]. split; [done|]. exists (zlen d). rewrite app_nil_r. split_and!.
    - apply zlen_nonneg.
    - apply Hk2; [by apply Hk | done].
    - done.
    - done.
    - intros k Hkd. rewrite <- Hu. destruct Hk as [Hk _]. rewrite <- (Hk k Hkd). by apply Hk2. }
  unfold _resumer. destruct (is_local du) eqn:El; [|destruct (is_root du); [|done]]; rewrite st_bind_eq; unfold io at 1; cbn [fst snd].
  - destruct (os_open _ _ w) as [w1 [h|e]] eqn:E; [|done]. specialize (Hopen _ w1 h (st_os du El) E). rewrite st_bind_eq.
    unfold enter. cbn [fst snd]. rewrite st_bind_eq. unfold io. cbn [fst snd]. by destruct (h_seek h (zlen d) w1) as [w2 [u|e]].
  - destruct (open_url _ _ _ w) as [w1 [h|e]] eqn:E; [|done]. specialize (Hopen _ w1 h (st_root du cfg El) E). rewrite st_bind_eq.
    unfold enter. cbn [fst snd]. rewrite st_bind_eq. unfold io. cbn [fst snd]. by destruct (h_seek h (zlen d) w1) as [w2 [u|e]].
Qed.

Lemma ends_open resuming w :
  untouched w -> resumes lower abspath source target off resuming ->
  match open_ends source target (Some su) (Some du) cfg resuming (op_overwrite o) ([], w) with
  | ((hs, w'), Ok (rd, wr)) =>
      let rest := drop (Z.to_nat (offset_of resuming)) content in
      exists pre, hs = [wr; rd.1] /\ rd.1 <> wr /\ pre ++ rest = content /\ between rd.1 wr pre rest [] w'
  | _ => True
  end.
Proof.
  intros Hu Hres. unfold open_ends. rewrite st_bind_eq. pose proof (reader_opens [] w Hu) as Hr.
  destruct (_reader su cfg ([], w)) as [[hs1 w1] [[rd n]|e]]; [|done]. destruct Hr as (-> & Hr & Hu1). rewrite st_bind_eq.
  destruct Hres as [->|(r & -> & Hoff & Hne & Htgt & _)]; cbn [fst snd offset_of].
  - pose proof (writer_opens rd 0 (op_overwrite o) [rd] w1 ltac:(lia) Hr Hu1) as Hw. cbn [fst].
    destruct (_writer du cfg _ _) as [[hs2 w2] [wr|e]]; [|done]. destruct Hw as (-> & Hd & Hb). exists []. by rewrite drop_0 in *.
  - assert (rs_target r = du) as -> by congruence. destruct (op_resume o) eqn:Eres; [|done].
    destruct (file v (key du) w0) as [d|] eqn:Ed; [|done]. rewrite Hoff. rewrite st_bind_eq. unfold io at 1. cbn [fst snd].
    pose proof (st_seek_reader rd (key su) 0 (zlen d) w1 Hr) as Hs. destruct (h_seek rd (zlen d) w1) as [w2 [u|e]]; [|done].
    destruct Hs as [Hr2 Hk2]. assert (Hu2 : untouched w2) by (intros k; rewrite <- Hu1; by apply Hk2).
    pose proof (resumer_opens rd d [rd] w2 Hr2 Hu2 Ed) as Hw. destruct (_resumer du cfg _ _) as [[hs3 w3] [wr|e]]; [|done].
    destruct Hw as (-> & Hd & Hb). exists d. split_and!; [done | done | | done].
    destruct (resumable eq_refl d eq_refl) as [rest ->]. unfold zlen. by rewrite Nat2Z.id, drop_app_length.
Qed.

(** The ends of the copy are what the engine needs. *)
Lemma storage_endpoints :
  (length content < sc_fuel sc)%nat -> Endpoints lower abspath hashlib source target o cfg sc content off untouched made.
Proof.
  intros Hfuel. split.
  - intros u w Hu k. rewrite <- Hu. apply probe_same.
  - intros u w w' n m Hres Hu Ht E. assert (u = du) as -> by congruence. apply probe_size in E as (c & Hc & ->).
    rewrite Hu in Hc. by rewrite Hres, Hc.
  - intros u w w' n m Hu Hs E. assert (u = su) as -> by congruence. apply probe_size in E as (c & Hc & ->).
    rewrite Hu in Hc. congruence.
  - intros w. pose proof (st_clock w) as Hs. split; [intros Hu k; rewrite <- Hu; apply Hs | by apply made_same].
  - intros src dst resuming w Hu Es Et Hres. assert (src = Some su) as -> by congruence. assert (dst = Some du) as -> by congruence.
    pose proof (ends_open resuming w Hu Hres) as Ho. destruct (open_ends _ _ _ _ _ _ _ _) as [[hs w1] [[rd wr]|e]]; [|done].
    destruct Ho as (pre & -> & Hne & Hpre & Hb). exists (between rd.1 wr pre). split; [by apply streams_move|]. split; [done|].
    intros w2. by apply close_between.
  - intros u a w. apply made_same, checksum_same.
  - intros u a w Hu Hm. assert (Hu' : u = su \/ u = du) by (destruct Hu; [left | right]; congruence).
    pose proof (digest_made u a w Hu' Hfuel Hm) as Hd. by destruct (_digest_of _ _ _ _ _ _ w) as [w' r].
Qed.

Lemma off_within : 0 <= off <= zlen content.
Proof.
  pose proof (zlen_nonneg content). destruct (op_resume o) eqn:E; [|lia]. destruct (file v (key du) w0) as [d|] eqn:Ed; [|lia].
  destruct (resumable eq_refl d eq_refl) as [rest ->]. rewrite zlen_app. pose proof (zlen_nonneg d). pose proof (zlen_nonneg rest). lia.
Qed.

(** The copy of one file, as a call of its own and as a part of [copy_tree]. *)
Lemma copy_between :
  op_dry_run o = false -> op_remove_source o = false -> 0 < or_num (op_chunk_size o) (c_chunk_size cfg) ->
  Z.min (c_parallel_chunks cfg) (zlen content / or_num (op_chunk_size o) (c_chunk_size cfg)) <= 1 ->
  (length content < sc_fuel sc)%nat ->
  (exists segs, sc_ahead sc = concat segs /\ Forall fair segs
     /\ (120 + room (c_in_flight cfg) + 10 * length content < length segs)%nat) ->
  match copy lower abspath hashlib sc source target o cfg w0 with
  | (w', Ok (Some r)) =>
      file v (key du) w' = Some content /\ (forall k, k <> key du -> file v k w' = file v k w0)
      /\ cr_resumed_at r + cr_size r = zlen content
      /\ (cr_resumed_at r = 0 ->
          checked_by lower hashlib content (or_str (op_algorithm o) (c_preferred_checksum cfg)) (cr_checksum r))
  | (_, Ok None) => False
  | (_, Err _) => True
  end.
Proof.
  intros Hdry Hrm Hchunk Hone Hfuel Hfair. pose proof (storage_endpoints Hfuel) as He.
  pose proof (copy_moves lower abspath hashlib source target o cfg sc content off Hone Hchunk off_within Hfuel Hfair
    w0 (fun _ => eq_refl) Hdry Hrm) as Hc.
  destruct (Copy.copy _ _ _ _ _ _ _ _ _) as [w' [[r|]|e]]; [|done|done]. destruct Hc as ([Ht Ho] & Hn & Hck). by split_and!.
Qed.

End Stores.
