(* ===== verification/CopyMemory.v ===== *)
(** * Files in memory

    A store of named files that implements what the copy engine asks of its
    endpoints: the streams it opens keep positions of their own, so the
    contracts of the engine - [Moving], [Spreading], [Storage] - hold of it.
    The engine is run on it. *)

From S2P Require Import Prelude PyStr Errors Responses ConfigFile Url UrlText Checksum FileClient FileTransfer Copy CopyAhead CopySpans CopyProps.
From Stdlib Require Import QArith.
Open Scope Z_scope.

Import Copy.

Record mem := mkMem { mm_files : dict str (list byte); mm_open : list (str * Z); mm_reports : list Z }.

(** A file of the machine under its path, one of a server under host and path. *)
Definition key_of (u : XRootDURL) : str := if is_local u then u_path u else u_host u ++ u_path u.

Definition mem_open (key mode : str) (w : mem) : mem * res nat :=
  let push files := (mkMem files (mm_open w ++ [(key, 0)]) (mm_reports w), Ok (length (mm_open w))) in
  match dict_get key (mm_files w) with
  | Some _ =>
      if bool_decide (mode = s_ "xb") then (w, Err (ServerExn ExistsError 3018 [] None))
      else if bool_decide (mode = s_ "wb") then push (dict_set key [] (mm_files w))
      else push (mm_files w)
  | None =>
      if bool_decide (mode = s_ "rb" \/ mode = s_ "r+b") then (w, Err FileNotFoundError)
      else push (dict_set key [] (mm_files w))
  end.

Definition content (key : str) (w : mem) : list byte := default [] (dict_get key (mm_files w)).

Definition at_pos (h : nat) (key : str) (p : Z) (w : mem) : mem :=
  mkMem (mm_files w) (<[h := (key, p)]> (mm_open w)) (mm_reports w).

Definition mem_read (h : nat) (n : Z) (w : mem) : mem * res (list byte) :=
  match mm_open w !! h with
  | None => (w, Err ValueError)
  | Some (key, p) =>
      let d := take (Z.to_nat n) (drop (Z.to_nat p) (content key w)) in (at_pos h key (p + zlen d) w, Ok d)
  end.

Definition mem_write (h : nat) (d : list byte) (w : mem) : mem * res Z :=
  match mm_open w !! h with
  | None => (w, Err ValueError)
  | Some (key, p) =>
      (mkMem (dict_set key (patch (content key w) p d) (mm_files w)) (<[h := (key, p + zlen d)]> (mm_open w)) (mm_reports w),
       Ok (zlen d))
  end.

Definition mem_stat (key : str) (w : mem) : mem * res (Z * Z) :=
  (w, match dict_get key (mm_files w) with Some c => Ok (zlen c, 0) | None => Err FileNotFoundError end).

(** The checksum a server answers with, in the letters it likes. *)
Definition mem_checksum (key algorithm : str) (w : mem) : mem * res ChecksumInfo :=
  (w, match dict_get key (mm_files w), checksum_bytes (fun _ b => b) id algorithm (content key w) with
      | Some _, Ok (Some v) => Ok {| ck_algorithm := algorithm; ck_value := v |}
      | _, _ => Err FileNotFoundError
      end).

#[export] Instance memory : CopyEnv nat str mem := {
  h_read := mem_read;
  h_readinto h := Some (fun n w => let '(w, r) := mem_read h n w in (w, Some <$> r));
  h_write := mem_write;
  h_seek h p w := match mm_open w !! h with Some (key, _) => (at_pos h key p w, Ok tt) | None => (w, Err ValueError) end;
  h_close _ w := (w, Ok tt);
  h_size h w := match mm_open w !! h with Some (key, _) => (w, Ok (zlen (content key w))) | None => (w, Err ValueError) end;
  h_repr _ := s_ "<stream>";
  os_open := mem_open;
  os_getsize path w := (w, match dict_get path (mm_files w) with Some c => Ok (zlen c) | None => Err FileNotFoundError end);
  os_stat := mem_stat;
  os_remove path w := (mkMem (dict_pop path (mm_files w)) (mm_open w) (mm_reports w), Ok tt);
  open_url u mode _ := mem_open (key_of u) mode;
  open_http u mode _ := mem_open (key_of u) mode;
  open_s3 u mode _ := mem_open (key_of u) mode;
  http_digest u algorithm _ := mem_checksum (key_of u) algorithm;
  fs_enter u _ w := (w, Ok (u_host u));
  fs_stat host path := mem_stat (host ++ path);
  fs_remove host path w := (mkMem (dict_pop (host ++ path) (mm_files w)) (mm_open w) (mm_reports w), Ok tt);
  fs_checksum host path algorithm := mem_checksum (host ++ path) algorithm;
  fs_exit _ w := (w, Ok tt);
  monotonic w := (w, 0%Q);
  progress n _ w := (mkMem (mm_files w) (mm_open w) (mm_reports w ++ [n]), Ok tt)
}.

Lemma content_set_eq key c w o r : content key (mkMem (dict_set key c (mm_files w)) o r) = c.
Proof. unfold content. cbn. by rewrite dict_get_set_eq. Qed.
Lemma content_set_ne key key' c w o r : key <> key' -> content key' (mkMem (dict_set key c (mm_files w)) o r) = content key' w.
Proof. intros Hne. unfold content. cbn. by rewrite dict_get_set_ne. Qed.

(** ** The contract of the pump *)

Section Moving.
Variable r k : nat.
Variable kr kw : str.
(** What the target has before the first write. *)
Variable pre : list byte.
Hypothesis handles_differ : r <> k.
Hypothesis files_differ : kr <> kw.

Definition mem_inv (left out : bytes) (w : mem) : Prop :=
  exists p, 0 <= p /\ mm_open w !! r = Some (kr, p) /\ mm_open w !! k = Some (kw, zlen (pre ++ out))
    /\ drop (Z.to_nat p) (content kr w) = left /\ content kw w = pre ++ out.

Lemma mem_inv_read n left out w :
  0 < n -> mem_inv left out w ->
  match mem_read r n w with
  | (w', Ok d) => exists rest, left = d ++ rest /\ zlen d <= n /\ (d = [] -> left = []) /\ mem_inv rest out w'
  | (_, Err _) => False
  end.
Proof.
  intros Hn (p & Hp & Hr & Hk & Hl & Ho). unfold mem_read. rewrite Hr. rewrite Hl. set (d := take (Z.to_nat n) left).
  assert (Hd : drop (length d) left = drop (Z.to_nat n) left).
  { unfold d. rewrite length_take. destruct (decide (Z.to_nat n <= length left)%nat); [by rewrite Nat.min_l|].
    rewrite Nat.min_r by lia. by rewrite !drop_ge by lia. }
  exists (drop (length d) left). split_and!.
  - rewrite Hd. symmetry. apply take_drop.
  - unfold zlen, d. rewrite length_take. lia.
  - unfold d. destruct left; [done|]. destruct (Z.to_nat n) eqn:E; [lia | done].
  - exists (p + zlen d). pose proof (zlen_nonneg d). split_and!; [lia | | | |done].
    + cbn. by rewrite list_lookup_insert_eq by (by eapply lookup_lt_Some).
    + cbn. by rewrite list_lookup_insert_ne.
    + change (content kr (at_pos r kr (p + zlen d) w)) with (content kr w). rewrite <- Hl, drop_drop. f_equal. unfold zlen. lia.
Qed.

#[export] Instance mem_moving : Moving r k False mem_inv.
Proof.
  split.
  - intros readinto n left out w [= <-] Hn Hi. pose proof (mem_inv_read n left out w Hn Hi) as Hm.
    destruct (mem_read r n w) as [w' [d|e]]; [|done]. destruct Hm as (rest & ? & _ & ? & ?). by exists rest.
  - done.
  - intros d left out w (p & Hp & Hr & Hk & Hl & Ho). cbn. unfold mem_write. rewrite Hk. exists p. split_and!; [done | | | |].
    + cbn. by rewrite list_lookup_insert_ne.
    + cbn. rewrite list_lookup_insert_eq by (by eapply lookup_lt_Some). by rewrite (app_assoc pre), (zlen_app (pre ++ out)).
    + by rewrite content_set_ne.
    + rewrite content_set_eq, Ho, patch_end. by rewrite app_assoc.
  - intros n total left out w (p & Hi). cbn. by exists p.
Qed.
End Moving.

(** ** The contract of a spread transfer *)

Section Spreading.
Variable plan : _Spread.
Variable config : Config.
Variable src : list byte.
Hypothesis source_remote : is_local (sp_source plan) = false /\ is_root (sp_source plan) = true.
Hypothesis target_local : is_local (sp_target plan) = true.
Notation ks := (key_of (sp_source plan)).
Notation kt := (key_of (sp_target plan)).
Hypothesis files_apart : ks <> kt.

Definition handles (x : @seat nat) : list nat :=
  match x with Away => [] | Reads _ r _ => [r] | Moves _ r _ k _ => [r; k] end.

Definition seated (w : mem) (x : @seat nat) : Prop :=
  match x with
  | Away => True
  | Reads _ r p => mm_open w !! r = Some (ks, p)
  | Moves _ r p k q => mm_open w !! r = Some (ks, p) /\ mm_open w !! k = Some (kt, q)
  end.

Definition mem_seats (tgt : list byte) (ws : list (@seat nat)) (w : mem) : Prop :=
  dict_get ks (mm_files w) = Some src /\ dict_get kt (mm_files w) = Some tgt
  /\ (forall i x, ws !! i = Some x -> seated w x)
  /\ (forall i j x y h, ws !! i = Some x -> ws !! j = Some y -> h ∈ handles x -> h ∈ handles y -> i = j).

Lemma seated_open w x h : seated w x -> h ∈ handles x -> (h < length (mm_open w))%nat.
Proof.
  destruct x as [|hs r p|hs r p k q]; cbn [seated handles].
  - by intros _ ?%elem_of_nil.
  - intros Hs ->%list_elem_of_singleton. by eapply lookup_lt_Some.
  - intros [H1 H2] [->| ->%list_elem_of_singleton]%elem_of_cons; by eapply lookup_lt_Some.
Qed.

(** Another seat does not notice a stream opened, moved or written elsewhere. *)
Lemma seated_other w w' x h :
  (forall j, j <> h -> (j < length (mm_open w))%nat -> mm_open w' !! j = mm_open w !! j) ->
  h ∉ handles x -> seated w x -> seated w' x.
Proof.
  intros Hw Hh Hs. assert (Hd : forall j, j ∈ handles x -> mm_open w' !! j = mm_open w !! j).
  { intros j Hj. apply Hw; [by intros -> | by eapply seated_open]. }
  destruct x as [|hs r p|hs r p k q]; cbn [seated handles] in *; [done | |].
  - rewrite Hd; [done | left].
  - rewrite !Hd; [done | right; left | left].
Qed.

(** Changing one seat, and one stream of it. *)
Lemma mem_seats_move i x x' h tgt tgt' ws w w' :
  mem_seats tgt ws w -> ws !! i = Some x ->
  dict_get ks (mm_files w') = Some src -> dict_get kt (mm_files w') = Some tgt' ->
  (forall j, j <> h -> (j < length (mm_open w))%nat -> mm_open w' !! j = mm_open w !! j) ->
  (h ∈ handles x \/ h = length (mm_open w)) ->
  (forall j, j ∈ handles x' -> j ∈ handles x \/ j = length (mm_open w)) -> seated w' x' ->
  mem_seats tgt' (<[i := x']> ws) w'.
Proof.
  intros (_ & _ & Hs & Hu) Hi H1 H2 Hw Hh Hx Hx'.
  assert (Hnew : forall j y, j <> i -> ws !! j = Some y -> forall n, n ∈ handles y -> n ∈ handles x \/ n = length (mm_open w) -> False).
  { intros j y Hne Hj n Hn [Hd|Hd]; [by apply Hne; eapply (Hu j i)|]. pose proof (seated_open w y n (Hs j y Hj) Hn). lia. }
  split_and!; [done | done | |].
  - intros j y Hj. destruct (decide (i = j)) as [<-|Hne].
    + rewrite list_lookup_insert_eq in Hj by (by eapply lookup_lt_Some). by injection Hj as <-.
    + rewrite list_lookup_insert_ne in Hj by done. eapply (seated_other w w' y h); [done | | by eapply Hs].
      intros Hin. by eapply (Hnew j y).
  - intros a b y z n Ha Hb Hy Hz. destruct (decide (i = a)) as [<-|Hna], (decide (i = b)) as [<-|Hnb]; [done| | |];
      repeat match goal with
      | H : <[?j := _]> ws !! ?j = Some _ |- _ => rewrite list_lookup_insert_eq in H by (by eapply lookup_lt_Some); injection H as <-
      | H : <[_ := _]> ws !! _ = Some _ |- _ => rewrite list_lookup_insert_ne in H by done
      end.
    + exfalso. by eapply (Hnew b z); [| |exact Hz | apply Hx].
    + exfalso. by eapply (Hnew a y); [| |exact Hy | apply Hx].
    + by eapply Hu.
Qed.

Lemma at_lookup (w : mem) e (j h : nat) files reports :
  j <> h -> mm_open (mkMem files (<[h := e]> (mm_open w)) reports) !! j = mm_open w !! j.
Proof. intros Hj. cbn. by apply list_lookup_insert_ne. Qed.

Definition pushed (key : str) (w : mem) : mem := mkMem (mm_files w) (mm_open w ++ [(key, 0)]) (mm_reports w).

Lemma mem_open_existing key mode w c :
  dict_get key (mm_files w) = Some c -> mode = s_ "rb" \/ mode = s_ "r+b" ->
  mem_open key mode w = (pushed key w, Ok (length (mm_open w))).
Proof. intros E Hm. unfold mem_open. rewrite E. by destruct Hm as [-> | ->]. Qed.

Lemma pushed_last key w : mm_open (pushed key w) !! length (mm_open w) = Some (key, 0).
Proof. cbn. rewrite lookup_app_r by lia. by rewrite Nat.sub_diag. Qed.

Lemma mem_reader hs w :
  dict_get ks (mm_files w) = Some src ->
  _reader (sp_source plan) config (hs, w)
  = ((length (mm_open w) :: hs, pushed ks w), Ok (length (mm_open w), Some (zlen src))).
Proof.
  intros E. destruct source_remote as [Hl Hr]. unfold _reader. rewrite Hl, Hr, st_bind_eq. unfold io at 1. cbn [snd fst].
  change (open_url (sp_source plan) (s_ "rb") config w) with (mem_open ks (s_ "rb") w).
  rewrite (mem_open_existing ks _ w src) by auto. rewrite st_bind_eq. unfold enter. cbv iota beta zeta. cbn [fst snd].
  rewrite st_bind_eq. unfold io. cbn [fst snd]. unfold h_size. cbn -[pushed mm_open].
  rewrite pushed_last. unfold content. cbn. by rewrite E.
Qed.

Lemma mem_resumer hs w tgt off :
  dict_get kt (mm_files w) = Some tgt ->
  _resumer (sp_target plan) config off (hs, w)
  = ((length (mm_open w) :: hs, at_pos (length (mm_open w)) kt off (pushed kt w)), Ok (length (mm_open w))).
Proof.
  intros E. unfold _resumer. rewrite target_local, st_bind_eq. unfold io at 1. cbn [snd fst].
  assert (kt = u_path (sp_target plan)) as Ek by (unfold key_of; by rewrite target_local).
  change (os_open (u_path (sp_target plan)) (s_ "r+b") w) with (mem_open (u_path (sp_target plan)) (s_ "r+b") w).
  rewrite Ek in *. rewrite (mem_open_existing _ _ w tgt) by auto. rewrite st_bind_eq. unfold enter. cbv iota beta zeta. cbn [fst snd].
  rewrite st_bind_eq. unfold io. cbn [fst snd]. unfold h_seek. cbn -[pushed mm_open at_pos]. by rewrite pushed_last.
Qed.

Lemma pushed_keeps key w j : j <> length (mm_open w) -> (j < length (mm_open w))%nat -> mm_open (pushed key w) !! j = mm_open w !! j.
Proof. intros _ Hj. cbn. by apply lookup_app_l. Qed.

(** A worker that is done leaves the others as they are. *)
Lemma mem_seats_leave i x tgt ws w : ws !! i = Some x -> mem_seats tgt ws w -> mem_seats tgt (<[i := Away]> ws) w.
Proof.
  intros Hi (H1 & H2 & H3 & H4). split_and!; [done | done | |].
  - intros j y Hj. destruct (decide (i = j)) as [<-|Hne].
    + rewrite list_lookup_insert_eq in Hj by (by eapply lookup_lt_Some). by injection Hj as <-.
    + rewrite list_lookup_insert_ne in Hj by done. by apply (H3 j).
  - intros a b y z h Ha Hb Hy Hz. destruct (decide (i = a)) as [<-|Hna], (decide (i = b)) as [<-|Hnb]; [done| | |];
      repeat match goal with
      | H : <[?j := _]> ws !! ?j = Some _ |- _ => rewrite list_lookup_insert_eq in H by (by eapply lookup_lt_Some); injection H as <-
      | H : <[_ := _]> ws !! _ = Some _ |- _ => rewrite list_lookup_insert_ne in H by done
      end; try (by apply elem_of_nil in Hy); try (by apply elem_of_nil in Hz). by eapply H4.
Qed.

#[export] Instance mem_spreading : Spreading plan config src False mem_seats.
Proof.
  split.
  - intros i tgt ws w Hi Hs. pose proof Hs as (H1 & H2 & _). rewrite (mem_reader [] w H1).
    eapply (mem_seats_move i Away _ (length (mm_open w))); try done.
    + apply pushed_keeps.
    + by right.
    + intros j ->%list_elem_of_singleton. by right.
    + apply pushed_last.
  - intros i tgt ws w hs h p off Hi Ho Hs. pose proof Hs as (H1 & H2 & H3 & _). pose proof (H3 i _ Hi) as Hp. cbn in Hp |- *.
    rewrite Hp. eapply (mem_seats_move i _ _ h); try done.
    + intros j Hj _. by apply at_lookup.
    + left. left.
    + intros j Hj. by left.
    + cbn. by rewrite list_lookup_insert_eq by (by eapply lookup_lt_Some).
  - intros i tgt ws w hs h p off Hi Ho Hs. pose proof Hs as (H1 & H2 & H3 & _). rewrite (mem_resumer hs w tgt off H2).
    pose proof (H3 i _ Hi) as Hp. cbn in Hp. pose proof (lookup_lt_Some _ _ _ Hp) as Hlt.
    eapply (mem_seats_move i _ _ (length (mm_open w))); try done.
    + intros j Hj Hl. cbn. rewrite list_lookup_insert_ne by done. by apply lookup_app_l.
    + by right.
    + intros j [-> | ->%list_elem_of_singleton]%elem_of_cons; [left; left | by right].
    + split; cbn.
      * rewrite list_lookup_insert_ne by lia. by rewrite lookup_app_l.
      * rewrite list_lookup_insert_eq; [done|]. rewrite length_app. cbn. lia.
  - intros i tgt ws w hs r p k q n Hi Hn Hp Hs. pose proof Hs as (H1 & H2 & H3 & _). destruct (H3 i _ Hi) as [Hr Hk].
    cbn [h_read memory]. unfold mem_read. rewrite Hr. unfold content. rewrite H1. cbn [default].
    set (d := take (Z.to_nat n) (drop (Z.to_nat p) src)). split_and!.
    + exists (drop (Z.to_nat n) (drop (Z.to_nat p) src)). symmetry. apply take_drop.
    + unfold d, zlen. rewrite length_take. lia.
    + intros Hd. apply (f_equal length) in Hd. unfold d in Hd. rewrite length_take, length_drop in Hd. cbn in Hd. unfold zlen. lia.
    + eapply (mem_seats_move i _ _ r); try done.
      * intros j Hj _. by apply at_lookup.
      * left. left.
      * intros j Hj. by left.
      * split; cbn.
        -- by rewrite list_lookup_insert_eq by (by eapply lookup_lt_Some).
        -- rewrite list_lookup_insert_ne; [done|]. intros ->. rewrite Hr in Hk. injection Hk as ? _. done.
  - intros i tgt ws w hs r p k q d Hi Hq Hs. pose proof Hs as (H1 & H2 & H3 & _). destruct (H3 i _ Hi) as [Hr Hk].
    cbn [h_write memory]. unfold mem_write. rewrite Hk. unfold content. rewrite H2. cbn [default].
    eapply (mem_seats_move i _ _ k); try done.
    + cbn. rewrite dict_get_set_ne; [done | by intros E; apply files_apart].
    + cbn. by rewrite dict_get_set_eq.
    + intros j Hj _. by apply at_lookup.
    + left. right. left.
    + intros j Hj. by left.
    + split; cbn.
      * rewrite list_lookup_insert_ne; [done|]. intros ->. rewrite Hr in Hk. injection Hk as ? _. done.
      * by rewrite list_lookup_insert_eq by (by eapply lookup_lt_Some).
  - intros n total tgt ws w Hs. exact Hs.
  - intros i tgt ws w x Hi Hs. assert (forall hs (o : res unit), close_all hs o w = (w, o)) as E; [|rewrite E; by eapply mem_seats_leave].
    induction hs as [|h hs IH]; intros o; [done|]. cbn. apply IH.
Qed.
End Spreading.

(** ** A file on a server, copied to this machine *)

Definition far (path : str) : XRootDURL := mkURL (s_ "root") (s_ "h") 1094 path [] [] [].
Definition near (path : str) : XRootDURL := mkURL (s_ "file") [] 0 path [] [] [].
Definition hello : list byte := b_ "hello, world".
Definition store : mem := mkMem [(s_ "h/f", hello)] [] [].
Definition demo_plan : _Spread := mkSpread (far (s_ "/f")) (near (s_ "/g")) 3 12.
Definition demo_config : Config := Eval vm_compute in
  let c := factory (s_ "me") in let c := c <| c_chunk_size := 2 |> in c.
Definition rounds (n : nat) : list turn := concat (replicate n [Work 2; Work 0; Work 1]).

Lemma demo_created w :
  w = store ->
  match with_stack (_writer (sp_target demo_plan) demo_config true) w with
  | (w', Ok _) => mem_seats demo_plan hello [] (replicate (length (_spans (sp_size demo_plan) (sp_workers demo_plan))) Away) w'
  | (_, Err _) => False
  end.
Proof.
  intros ->. vm_compute. split_and!; [done | done | by intros [|[|[|]]] x [= <-]|].
  by intros [|[|[|]]] ? ? ? ? [= <-] ? ?%elem_of_nil.
Qed.

Lemma demo_turns i :
  (Z.to_nat (3 * zlen hello + 6) < turns i (rounds 43)
   \/ length (_spans (sp_size demo_plan) (sp_workers demo_plan)) <= i)%nat.
Proof. destruct i as [|[|[|i]]]; [left; vm_compute; lia.. | right; vm_compute; lia]. Qed.

Lemma parallel_exact_witness :
  let out := _in_parallel demo_plan demo_config 2 true (rounds 43) true store in
  out.2 = Ok (Some 12) /\ content (s_ "/g") out.1 = hello.
Proof.
  pose proof (parallel_exact demo_plan demo_config 2 true hello (St := mem_seats demo_plan hello)
    (Spreading0 := mem_spreading demo_plan demo_config hello (conj eq_refl eq_refl) eq_refl ltac:(by vm_compute))
    eq_refl ltac:(lia) (fun w => w = store) true demo_created ltac:(done) (rounds 43) store eq_refl demo_turns) as Hp.
  cbv zeta. destruct (_in_parallel _ _ _ _ _ _ _) as [w [[n|]|e]]; cbn [fst snd].
  - destruct Hp as [-> (ws & _ & Hg & _)]. split; [done|]. unfold content.
    change (key_of (sp_target demo_plan)) with (s_ "/g") in Hg. by rewrite Hg.
  - destruct Hp.
  - destruct Hp.
Defined.

(** ** The same in one stream, reading ahead *)

Definition opened : mem := mkMem [(s_ "h/f", hello); (s_ "/g", [])] [(s_ "h/f", 0); (s_ "/g", 0)] [].

Lemma opened_inv : mem_inv 0 1 (s_ "h/f") (s_ "/g") [] hello [] opened.
Proof. exists 0. by vm_compute. Qed.

Definition adler : digest := Checksum (s_ "adler32") adler32 1 8.

Lemma adler_new : new id (s_ "adler32") = Ok adler.
Proof. reflexivity. Qed.

Definition ahead_turns : list actor := concat (replicate 40 [Reader; Reader; Loop; Reader; Loop]).
Local Notation ahead_demo := (pump_ahead 0%nat 1%nat None 5 2 (Some 0) ahead_turns (Some adler, 0) opened).

Lemma ahead_demo_ends : match ahead_demo.2 with Ok (Some _) => mm_reports ahead_demo.1 = [5; 10; 12] | _ => False end.
Proof. by vm_compute. Qed.

Lemma adler_additive d : Some adler = Some d -> additive d.
Proof. intros [= <-]. by apply (new_additive id (s_ "adler32")). Qed.

Lemma ahead_in_order_witness :
  exists w t, ahead_demo = (w, Ok (Some t)) /\ mm_reports w = [5; 10; 12]
    /\ content (s_ "/g") w = hello /\ tallied (Some adler) t hello.
Proof.
  destruct (ahead_in_order 0%nat 1%nat (fails := False) (Inv := mem_inv 0 1 (s_ "h/f") (s_ "/g") [])
    (Moving0 := mem_moving 0 1 (s_ "h/f") (s_ "/g") [] ltac:(done) ltac:(done)) (Some adler) adler_additive
    None 5 2 (Some 0) ltac:(lia) ltac:(lia) hello ahead_turns opened opened_inv) as (_ & _ & Hp).
  pose proof ahead_demo_ends as He. revert Hp He. generalize ahead_demo. intros out Hp He.
  destruct out as [w [[t|]|e]]; [|destruct He..]. destruct Hp as [(p & _ & _ & _ & _ & Hc) Ht]. by exists w, t.
Defined.

(** ** An interrupted copy, continued *)

Definition half : mem := mkMem [(s_ "h/f", hello); (s_ "/g", b_ "hello")] [] [].
Definition from_far : @endpoint nat := Url (far (s_ "/f")).
Definition to_near : @endpoint nat := Url (near (s_ "/g")).
Definition resuming : options := mkOptions (Some 3) None None true true false false true.
Definition one_stream : Config := Eval vm_compute in let c := demo_config in c <| c_parallel_chunks := 1 |>.
Definition demo_schedule : schedule :=
  mkSchedule 14 (concat (replicate 300 [Reader; Reader; Loop])) [].

(** *** What the store keeps of its promises *)

Definition view : View nat mem str := {|
  file k w := dict_get k (mm_files w);
  reading h k p w := mm_open w !! h = Some (k, p);
  writing h k d p w := mm_open w !! h = Some (k, p) /\ dict_get k (mm_files w) = Some d
|}.

Lemma kept_at h k p w : kept view h every w (at_pos h k p w).
Proof. split_and!; [done | |]; cbn; intros; by rewrite list_lookup_insert_ne. Qed.

Lemma pushed_at k w g e : mm_open w !! g = Some e -> mm_open (pushed k w) !! g = Some e.
Proof. intros E. cbn. rewrite lookup_app_l; [done | by eapply lookup_lt_Some]. Qed.

Lemma unused_next w : unused view (length (mm_open w)) w.
Proof.
  split; cbn; [intros g k p E | intros g k d p [E _]]; intros ->; apply lookup_lt_Some in E; lia.
Qed.

(** A stream on the file [key], which holds [c] now. *)
Definition made_open (key : str) (c : list byte) (w : mem) : mem :=
  mkMem (dict_set key c (mm_files w)) (mm_open w ++ [(key, 0)]) (mm_reports w).

Lemma kept_made key c w : kept view (length (mm_open w)) (fun k => k <> key) w (made_open key c w).
Proof.
  split_and!; cbn.
  - intros k Hk. by rewrite dict_get_set_ne.
  - intros g k p E _. by apply (pushed_at key).
  - intros g k d p [E Ed] _ Hk. rewrite dict_get_set_ne by done. split; [by apply (pushed_at key) | done].
Qed.

Lemma kept_pushed steady key w : kept view (length (mm_open w)) steady w (pushed key w).
Proof.
  split_and!; [done | |]; cbn.
  - intros g k p E _. by apply (pushed_at key).
  - intros g k d p [E Ed] _ _. split; [by apply (pushed_at key) | done].
Qed.

Lemma mem_open_new key mode w :
  mode = s_ "wb" \/ mode = s_ "xb" ->
  mem_open key mode w = (made_open key [] w, Ok (length (mm_open w))) \/ exists e, mem_open key mode w = (w, Err e).
Proof.
  intros Hm. unfold mem_open. destruct (dict_get key (mm_files w)) as [c|].
  - destruct Hm as [-> | ->]; [left | right; eexists]; reflexivity.
  - left. by destruct Hm as [-> | ->].
Qed.

Lemma mem_opens key : opens view key (mem_open key).
Proof.
  split.
  - intros w. destruct (dict_get key (mm_files w)) as [c|] eqn:E.
    + rewrite (mem_open_existing key _ w c) by auto. cbn [file view]. rewrite E.
      split_and!; [done | apply (pushed_last key) | apply unused_next | apply (kept_pushed every key)].
    + unfold mem_open. rewrite E. case_bool_decide as Hm; [done | by destruct Hm; left].
  - intros mode w Hm. destruct (mem_open_new key mode w Hm) as [-> | [e ->]]; [|done].
    split; [|split; [apply unused_next | apply (kept_made key)]]. split; [apply (pushed_last key)|]. cbn. by rewrite dict_get_set_eq.
  - intros w. destruct (dict_get key (mm_files w)) as [c|] eqn:E.
    + rewrite (mem_open_existing key _ w c) by auto. exists c.
      split_and!; [done | by split; [apply (pushed_last key)|] | apply unused_next | apply (kept_pushed _ key)].
    + unfold mem_open. rewrite E. case_bool_decide as Hm; [done | by destruct Hm; right].
Qed.

Lemma mem_gives h k p n c w :
  mm_open w !! h = Some (k, p) -> 0 <= p -> 0 < n -> dict_get k (mm_files w) = Some c ->
  match mem_read h n w with (w', Ok d) => gives view h k p n c w w' d | _ => False end.
Proof.
  intros Ho Hp Hn Hf. unfold mem_read. rewrite Ho. unfold content. rewrite Hf. cbn [default].
  set (rest := drop (Z.to_nat p) c). set (d := take (Z.to_nat n) rest). split_and!.
  - exists (drop (Z.to_nat n) rest). symmetry. apply take_drop.
  - unfold zlen, d. rewrite length_take. lia.
  - intros Hd%(f_equal length). unfold d in Hd. rewrite length_take in Hd. change (length (@nil byte)) with 0%nat in Hd. fold rest. apply nil_length_inv. unfold rest. change (id c) with c in Hd. lia.
  - cbn. by rewrite list_lookup_insert_eq by (by eapply lookup_lt_Some).
  - apply kept_at.
Qed.

Lemma mem_stat_says key w : match mem_stat key w with
  | (w', r) => w' = w /\ forall n m, r = Ok (n, m) -> exists c, dict_get key (mm_files w) = Some c /\ n = zlen c
  end.
Proof.
  unfold mem_stat. split; [done|]. destruct (dict_get key (mm_files w)) as [c|]; [|done]. intros n m [= <- <-]. by exists c.
Qed.

Lemma key_local u : is_local u = true -> key_of u = u_path u.
Proof. unfold key_of. by intros ->. Qed.
Lemma key_remote u : is_local u = false -> key_of u = u_host u ++ u_path u.
Proof. unfold key_of. by intros ->. Qed.

#[export] Instance mem_storage : Storage id key_of view.
Proof.
  split.
  - intros h k p n c w Hr Hp Hn Hf. pose proof (mem_gives h k p n c w Hr Hp Hn Hf) as Hg. cbn [h_read memory].
    by destruct (mem_read h n w) as [w' [d|e]].
  - intros readinto h k p n c w [= <-] Hr Hp Hn Hf. pose proof (mem_gives h k p n c w Hr Hp Hn Hf) as Hg.
    by destruct (mem_read h n w) as [w' [d|e]].
  - intros h k d p b w [Ho Hd] Hp. cbn [h_write memory]. unfold mem_write. rewrite Ho. unfold content. rewrite Hd. cbn [default].
    split; [split|]; cbn.
    + by rewrite list_lookup_insert_eq by (by eapply lookup_lt_Some).
    + by rewrite dict_get_set_eq.
    + split_and!; cbn.
      * intros k' Hk. by rewrite dict_get_set_ne.
      * intros g k' q E Hg. by rewrite list_lookup_insert_ne.
      * intros g k' d' q [E Ed] Hg Hk. rewrite list_lookup_insert_ne, dict_get_set_ne by done. done.
  - intros h k p off w Ho. cbn in Ho. cbn [h_seek memory]. rewrite Ho. split; [|apply kept_at].
    cbn. by rewrite list_lookup_insert_eq by (by eapply lookup_lt_Some).
  - intros h k d p off w [Ho Hd]. cbn [h_seek memory]. rewrite Ho. split; [|apply kept_at]. split; [|done].
    cbn. by rewrite list_lookup_insert_eq by (by eapply lookup_lt_Some).
  - by intros h k p w Ho.
  - intros h k d p w [Ho Hd]. cbn. split; [done|]. by split_and!.
  - intros h w. cbn. by destruct (mm_open w !! h) as [[]|].
  - by intros path w.
  - intros u Hl. rewrite key_local by done. apply mem_opens.
  - intros u config _. apply mem_opens.
  - intros u config _. apply mem_opens.
  - intros u config _. apply mem_opens.
  - intros u w Hl. rewrite key_local by done. cbn [os_stat memory]. pose proof (mem_stat_says (u_path u) w) as Hs.
    destruct (mem_stat (u_path u) w) as [w' r]. by destruct Hs as [-> Hs].
  - by intros u config w.
  - intros u config fs w w' Hl [= <- <-]. rewrite key_remote by done. cbn [fs_stat memory].
    pose proof (mem_stat_says (u_host u ++ u_path u) w) as Hs. change (u_host (with_path id u [0x2F])) with (u_host u).
    destruct (mem_stat _ w) as [w' r]. by destruct Hs as [-> Hs].
  - by intros fs w.
  - by intros fs path algorithm w.
  - by intros u algorithm config w.
  - by intros w.
  - by intros n total w.
Qed.

Lemma fair_round : fair [Reader; Reader; Loop].
Proof. split; [done | right; right; left]. Qed.

Local Notation copy_demo := (copy id id (fun _ b => b) demo_schedule from_far to_near resuming one_stream half).

Lemma copy_demo_ends : match copy_demo.2 with Ok (Some r) => cr_resumed_at r = 5 /\ mm_reports copy_demo.1 = [8; 11; 12] | _ => False end.
Proof. by vm_compute. Qed.

Lemma demo_fair : exists segs, sc_ahead demo_schedule = concat segs /\ Forall fair segs
  /\ (120 + room (c_in_flight one_stream) + 10 * length hello < length segs)%nat.
Proof.
  exists (replicate 300 [Reader; Reader; Loop]). split; [done|]. split; [apply Forall_replicate, fair_round | vm_compute; lia].
Qed.

Lemma half_prefix : op_resume resuming = true -> forall d, file view (key_of (near (s_ "/g"))) half = Some d -> d `prefix_of` hello.
Proof. intros _ d [= <-]. by exists (b_ ", world"). Qed.

