(* ===== verification/CopyTree.v ===== *)
(** * Recursive copies

    The second half of src/xrd/copy/engine.py: which files of a tree are
    wanted, which are already there, [copy_tree] over several workers, and the
    removal of what the selection does not describe.

    The pool of [_in_order] is a step machine over tasks that themselves go in
    steps, so that what is proved of it holds of every interleaving. The task
    of a file makes one call on the outside - one read, one write, one request
    of a server, one report - in a step: it is [move_file] run on the answers
    its calls have had so far, up to the next one, which is then put to the
    world all the tasks share. *)

From S2P Require Import Prelude PyStr Errors Responses ConfigFile Url UrlText Checksum FileClient Glob Copy.
From Stdlib Require Import QArith.
Open Scope Z_scope.

Import Copy.

(** [G] are generators over directories: [os.walk] and [FileSystem.walk], of
    which the path of a directory and the names of its files are used. *)
Class TreeEnv (F G W : Type) := {
  os_walk : str -> G;
  fs_walk : F -> str -> G;
  walk_next : G -> W -> W * res (option ((str * list str) * G));
  os_makedirs : str -> W -> W * res unit
}.

Module CopyTree.

(** ** Selection *)

(** An include list is a whitelist, and an exclusion wins. *)
Definition _selected (rel : str) (include exclude : list str) : bool :=
  match include with
  | [] => true
  | _ => existsb (Fnmatch.fnmatch rel) include
  end && negb (existsb (Fnmatch.fnmatch rel) exclude).

(** The longest common beginning of two lists. *)
Fixpoint common (a b : list str) : nat :=
  match a, b with
  | x :: a, y :: b => if decide (x = y) then S (common a b) else O
  | _, _ => O
  end.

Inductive SyncMode := BySize | ByMtime | ByChecksum.

(** ** The pool *)

Section InOrder.
Context {W T A : Type}.
(** A step of a task: it goes on, returns, or raises. *)
Variable task_step : T -> st exn W (T + A).

Inductive future := Pending (t : T) | Running (t : T) | Returned (r : res A) | Cancelled.
Record pool := mkPool { po_world : W; po_futures : list future }.

Definition running (f : future) : bool := match f with Running _ => true | _ => false end.
Definition over (f : future) : bool := match f with Returned _ | Cancelled => true | _ => false end.

(** [[future.result() for future in pending]]: all of them in order, the first
    exception, or [None] while one before it is at work. *)
Fixpoint results (fs : list future) : option (res (list A)) :=
  match fs with
  | [] => Some (Ok [])
  | Returned (Ok a) :: fs =>
      match results fs with Some (Ok l) => Some (Ok (a :: l)) | r => r end
  | Returned (Err e) :: _ => Some (Err e)
  | _ => None
  end.

(** The first task still waiting, which is the next to be started. *)
Fixpoint start_next (fs : list future) : list future :=
  match fs with
  | [] => []
  | Pending t :: fs => Running t :: fs
  | f :: fs => f :: start_next fs
  end.

(** A worker takes the next task; a task makes a step; a task that has not
    started is cancelled, once a failure has been seen. *)
Inductive move := Take | Go (i : nat) | Drop (i : nat).

Definition pool_step (workers : Z) (p : pool) (m : move) : pool :=
  match m with
  | Take =>
      if zlen (filter (fun f => running f = true) (po_futures p)) <? workers
      then mkPool (po_world p) (start_next (po_futures p)) else p
  | Go i =>
      match po_futures p !! i with
      | Some (Running t) =>
          let '(w, r) := task_step t (po_world p) in
          mkPool w (<[i := match r with Ok (inl t) => Running t | Ok (inr a) => Returned (Ok a) | Err e => Returned (Err e) end]>
                      (po_futures p))
      | _ => p
      end
  | Drop i =>
      match po_futures p !! i, results (po_futures p) with
      | Some (Pending _), Some (Err _) => mkPool (po_world p) (<[i := Cancelled]> (po_futures p))
      | _, _ => p
      end
  end.
Definition pool_run (workers : Z) (sched : list move) (p : pool) : pool := foldl (pool_step workers) p sched.

(** The pool is left when every task has ended one way or the other. A pool of
    no workers cannot be made. *)
Definition _in_order (workers : Z) (sched : list move) (tasks : list T) : st exn W (option (list A)) := fun w =>
  if workers <=? 0 then (w, Err ValueError) else
  let p := pool_run workers sched (mkPool w (Pending <$> tasks)) in
  (po_world p,
   if forallb over (po_futures p) then
     match results (po_futures p) with Some (Ok l) => Ok (Some l) | Some (Err e) => Err e | None => Ok None end
   else Ok None).
End InOrder.
Arguments future : clear implicits.
Arguments pool : clear implicits.

(** ** A task between two calls *)

(** What the tasks share: the world, and the bytes [_Total] has counted. *)
Record counted W := mkCounted { ct_world : W; ct_done : Z }.
Arguments mkCounted {W}.
Arguments ct_world {W}.
Arguments ct_done {W}.

(** What a call came to. *)
Inductive answer {H F : Type} :=
  | A_read (r : res bytes) | A_into (r : res (option bytes)) | A_number (r : res Z) | A_done (r : res unit)
  | A_stream (r : res H) | A_stat (r : res (Z * Z)) | A_sum (r : res ChecksumInfo) | A_system (r : res F) | A_time (t : Q).

Section Calls.
Context {H F W : Type} `{CopyEnv H F W}.

(** A task run again from its start: the answers there still are, what the
    callback of its file has [seen], and the first call without an answer. *)
Record replay := mkReplay {
  rp_answers : list (@answer H F); rp_seen : Z; rp_asked : option (counted W -> counted W * @answer H F)
}.

(** A call is answered from the record. The first one that is not stops the
    run, and what the code would do with the value it then gets is not looked
    at. *)
Definition call {A} (wrap : A -> @answer H F) (unwrap : @answer H F -> option A) (idle : A) (c : counted W -> counted W * A)
    : replay -> replay * A := fun x =>
  match rp_asked x, rp_answers x with
  | Some _, _ => (x, idle)
  | None, [] => (mkReplay [] (rp_seen x) (Some (fun s => let '(s, a) := c s in (s, wrap a))), idle)
  | None, a :: l => (mkReplay l (rp_seen x) None, default idle (unwrap a))
  end.

Definition nowhere {A} : res A := Err ValueError.
Definition under {A} (c : W -> W * A) (s : counted W) : counted W * A :=
  let '(w, a) := c (ct_world s) in (mkCounted w (ct_done s), a).

Definition call_read c := call A_read (fun a => match a with A_read r => Some r | _ => None end) nowhere (under c).
Definition call_into c := call A_into (fun a => match a with A_into r => Some r | _ => None end) nowhere (under c).
Definition call_number c := call A_number (fun a => match a with A_number r => Some r | _ => None end) nowhere (under c).
Definition call_unit c := call A_done (fun a => match a with A_done r => Some r | _ => None end) nowhere c.
Definition call_done c := call_unit (under c).
Definition call_stream c := call A_stream (fun a => match a with A_stream r => Some r | _ => None end) nowhere (under c).
Definition call_stat c := call A_stat (fun a => match a with A_stat r => Some r | _ => None end) nowhere (under c).
Definition call_sum c := call A_sum (fun a => match a with A_sum r => Some r | _ => None end) nowhere (under c).
Definition call_system c := call A_system (fun a => match a with A_system r => Some r | _ => None end) nowhere (under c).
Definition call_time c := call A_time (fun a => match a with A_time t => Some t | _ => None end) 0%Q (under c).

(** [report] of a worker: what is new of this file, added to the whole; the
    lock is held over the callback. *)
Definition report (done seen : Z) (s : counted W) : counted W * res unit :=
  let total := ct_done s + (done - seen) in
  let '(w, r) := progress total None (ct_world s) in (mkCounted w total, r).

(** The endpoints as a task has them. *)
Definition replayed : CopyEnv H F replay := {|
  h_read h n := call_read (h_read h n);
  h_readinto h := (fun f n => call_into (f n)) <$> h_readinto h;
  h_write h b := call_number (h_write h b);
  h_seek h n := call_done (h_seek h n);
  h_close h := call_done (h_close h);
  h_size h := call_number (h_size h);
  h_repr := h_repr;
  os_open p m := call_stream (os_open p m);
  os_getsize p := call_number (os_getsize p);
  os_stat p := call_stat (os_stat p);
  os_remove p := call_done (os_remove p);
  open_url u m c := call_stream (open_url u m c);
  open_http u m c := call_stream (open_http u m c);
  open_s3 u m c := call_stream (open_s3 u m c);
  http_digest u a c := call_sum (http_digest u a c);
  fs_enter u c := call_system (fs_enter u c);
  fs_stat f p := call_stat (fs_stat f p);
  fs_remove f p := call_done (fs_remove f p);
  fs_checksum f p a := call_sum (fs_checksum f p a);
  fs_exit f := call_done (fs_exit f);
  monotonic := call_time monotonic;
  progress done _ x := let '(x, r) := call_unit (report done (rp_seen x)) x in (mkReplay (rp_answers x) done (rp_asked x), r)
|}.

(** The step of a task: its next call is put to the world, or it is over. *)
Definition resume_task {A} (run : replay -> replay * res A) (told : list (@answer H F)) (s : counted W)
    : counted W * res (list (@answer H F) + A) :=
  let '(x, r) := run (mkReplay told 0 None) in
  match rp_asked x, r with
  | Some ask, _ => let '(s, a) := ask s in (s, Ok (inl (told ++ [a])))
  | None, Ok a => (s, Ok (inr a))
  | None, Err e => (s, Err e)
  end.
End Calls.
Arguments replay : clear implicits.

(** ** The tree *)

(** How the walk ended: with what the body made of it, or in the body. *)
Inductive walked A := Through (a : A) | BodyRaised (e : exn).
Arguments Through {A}.
Arguments BodyRaised {A}.

Record tree_options := mkTree {
  to_include : list str; to_exclude : list str; to_sync : option SyncMode; to_delete : bool; to_workers : option Z;
  to_copy : options
}.

Section Comparing.
Context {H F W : Type} `{CopyEnv H F W}.
Variable lower : str -> str.
Variable hashlib : str -> bytes -> bytes.
Notation M := (st exn W).

(** Is the target already the copy the mode asks for? *)
Definition _up_to_date (fuel : nat) (source target : XRootDURL) (config : Config) (mode : SyncMode) (algorithm : str)
    : M (option bool) :=
  theirs ← _probe lower target config;
  ours ← _probe lower source config;
  match theirs, ours with
  | Some (n, t), Some (m, o) =>
      if negb (n =? m) then mret (Some false) else
      match mode with
      | BySize => mret (Some true)
      | ByMtime => mret (Some (o <=? t))
      | ByChecksum =>
          bind_opt (_digest_of lower hashlib fuel source config algorithm) (fun a =>
          bind_opt (_digest_of lower hashlib fuel target config algorithm) (fun b =>
          mret (Some (bool_decide (a = b)))))
      end
  | _, _ => mret (Some false)
  end.

End Comparing.

Section Tree.
Context {H F G W : Type} `{CopyEnv H F W} `{TreeEnv F G W}.
Variable lower : str -> str.
Variable abspath : str -> str.
Variable hashlib : str -> bytes -> bytes.

Notation M := (st exn W).

(** [os.path.relpath]. *)
Definition relpath (path start : str) : res str :=
  match path with
  | [] => Err ValueError
  | _ =>
      let parts p := filter (fun x => x <> []) (split_all 0x2F (abspath p)) in
      let start_list := parts (match start with [] => s_ "." | s => s end) in
      let path_list := parts path in
      let i := common start_list path_list in
      Ok (match replicate (length start_list - i) (s_ "..") ++ drop i path_list with
          | [] => s_ "."
          | a :: l => path_join a l
          end)
  end.

(** The names [_walk] makes of the files of one directory. *)
Definition named (url : XRootDURL) (root : str) : res (str -> str) :=
  if is_local url then
    rel ← relpath root (u_path url);
    Ok (fun name => if decide (rel = s_ ".") then name else path_join rel [name])
  else
    let base := rstrip_by is_slash (u_path url) in
    let rel := strip_by is_slash (drop (length base) root) in
    Ok (fun name => match rel with [] => name | _ => rel ++ 0x2F :: name end).

(** [for rel in ...: body], one directory at a time. *)
Fixpoint each_name {A} (body : str -> A -> M A) (acc : A) (names : list str) : M (walked A) :=
  match names with
  | [] => mret (Through acc)
  | n :: names => fun w =>
      match body n acc w with
      | (w, Ok acc) => each_name body acc names w
      | (w, Err e) => (w, Ok (BodyRaised e))
      end
  end.
Fixpoint walk_loop {A} (fuel : nat) (url : XRootDURL) (g : G) (body : str -> A -> M A) (acc : A) : M (option (walked A)) :=
  match fuel with
  | O => mret None
  | S fuel =>
      d ← walk_next g;
      match d with
      | None => mret (Some (Through acc))
      | Some ((root, names), g) =>
          f ← lift (named url root);
          r ← each_name body acc (f <$> names);
          match r with
          | Through acc => walk_loop fuel url g body acc
          | BodyRaised e => mret (Some (BodyRaised e))
          end
      end
  end.

(** [for rel in _walk(url, config): body]. A body that raises leaves the
    generator to be closed, where a second exception has nowhere to go. *)
Definition _walk {A} (fuel : nat) (url : XRootDURL) (config : Config) (body : str -> A -> M A) (acc : A) : M (option A) :=
  let out r := match r with
               | Some (Through a) => mret (Some a)
               | Some (BodyRaised e) => raise e
               | None => mret None
               end in
  if is_local url then r ← walk_loop fuel url (os_walk (u_path url)) body acc; out r
  else fun w =>
    match fs_enter (with_path lower url [0x2F]) config w with
    | (w, Err e) => (w, Err e)
    | (w, Ok fs) =>
        let '(w, r) := walk_loop fuel url (fs_walk fs (u_path url)) body acc w in
        let '(w, c) := fs_exit fs w in
        match r, c with
        | Ok (Some (BodyRaised e)), _ => (w, Err e)
        | _, Err e => (w, Err e)
        | Ok r, Ok _ => out r w
        | Err e, Ok _ => (w, Err e)
        end
    end.

(** Remove everything under [target] that [keep] does not name. *)
Definition prune_one (target : XRootDURL) (config : Config) (keep : list str) (dry_run : bool) (rel : str) (removed : list str)
    : M (list str) :=
  if bool_decide (rel ∈ keep) then mret removed else
  (if dry_run then mret tt else _remove lower (url_join lower target [rel]) config) ≫= fun _ =>
  mret (removed ++ [rel]).
Definition _prune (fuel : nat) (target : XRootDURL) (config : Config) (keep : list str) (dry_run : bool) : M (option (list str)) :=
  _walk fuel target config (prune_one target config keep dry_run) [].

Section Copying.
Variable fuel : nat.
(** How the threads of each file's copy are run. *)
Variable sc : str -> schedule.
Variable src dst : XRootDURL.
Variable cfg : Config.
Variable o : tree_options.

Definition tree_algo : str := or_str (op_algorithm (to_copy o)) (c_preferred_checksum cfg).

(** The files of the source the selection describes. *)
Definition wanted_files : M (option (list str)) :=
  _walk fuel src cfg (fun rel l => mret (if _selected rel (to_include o) (to_exclude o) then l ++ [rel] else l)) [].

(** [move], which the caller runs or a task does: on the endpoints as the one
    or the other has them, where [progress] is the caller's or [_Total]'s. *)
Section Move.
Context {X : Type} {env : CopyEnv H F X}.
Variable makedirs : str -> X -> X * res unit.

(** Is the file already there, when that is asked for? *)
Definition skips (rel : str) : st exn X (option bool) :=
  match to_sync o with
  | Some mode => _up_to_date lower hashlib fuel (url_join lower src [rel]) (url_join lower dst [rel]) cfg mode tree_algo
  | None => mret (Some false)
  end.

(** The directory of a local target. *)
Definition make_parent (destination : XRootDURL) : st exn X unit :=
  if is_local destination && negb (op_dry_run (to_copy o)) then makedirs (dirname (u_path destination)) else mret tt.

(** The outer [None] is a schedule that ended too early, the inner one a file
    skipped. *)
Definition move_file (rel : str) : st exn X (option (option CopyResult)) :=
  skip ← skips rel;
  match skip with
  | None => mret None
  | Some true => mret (Some None)
  | Some false =>
      make_parent (url_join lower dst [rel]) ≫= fun _ =>
      r ← copy lower abspath hashlib (sc rel) (Url (url_join lower src [rel])) (Url (url_join lower dst [rel])) (to_copy o) cfg;
      mret (Some <$> r)
  end.
End Move.

(** One after another: the results of the files that were copied. *)
Fixpoint one_by_one (wanted : list str) : M (option (list CopyResult)) :=
  match wanted with
  | [] => mret (Some [])
  | rel :: wanted =>
      r ← move_file os_makedirs rel;
      match r with
      | None => mret None
      | Some done =>
          l ← one_by_one wanted;
          mret ((fun l => match done with Some d => d :: l | None => l end) <$> l)
      end
  end.

(** Several at a time: a task is a file and what its calls have come to. *)
Definition file_task (t : str * list (@answer H F)) : st exn (counted W) ((str * list (@answer H F)) + option (option CopyResult)) :=
  fun s =>
    let '(s, r) := resume_task (@move_file (replay H F W) replayed (fun p => call_done (os_makedirs p)) t.1) t.2 s in
    (s, match r with Ok (inl told) => Ok (inl (t.1, told)) | Ok (inr a) => Ok (inr a) | Err e => Err e end).

(** What the pool returned, with the files that were skipped left out. *)
Definition copied_of (l : list (option (option CopyResult))) : option (list CopyResult) :=
  (fun l => omap id l) <$> mapM id l.
Definition in_parallel (count : Z) (sched : list move) (wanted : list str) : M (option (list CopyResult)) := fun w =>
  let '(s, r) := _in_order file_task count sched ((fun rel => (rel, [])) <$> wanted) (mkCounted w 0) in
  (ct_world s, match r with Ok l => Ok (l ≫= copied_of) | Err e => Err e end).
End Copying.

(** [parse], which an open stream is refused by. *)
Definition parse_end (e : @endpoint H) : res XRootDURL :=
  u ← _target_url lower abspath e; match u with Some u => Ok u | None => Err TypeError end.

(** The callback is [_Total]'s where several files are in flight, the caller's
    own otherwise. *)
Definition copy_tree (fuel : nat) (sc : str -> schedule) (sched : list move) (source target : @endpoint H) (cfg : Config)
    (o : tree_options) : M (option (list CopyResult)) :=
  src ← lift (parse_end source);
  dst ← lift (parse_end target);
  bind_opt (wanted_files fuel src cfg o) (fun wanted =>
  let count := default (c_parallel_files cfg) (to_workers o) in
  bind_opt (if 1 <? count then in_parallel fuel sc src dst cfg o count sched wanted
            else one_by_one fuel sc src dst cfg o wanted) (fun results =>
  if to_delete o
  then bind_opt (_prune fuel dst cfg wanted (op_dry_run (to_copy o))) (fun _ => mret (Some results))
  else mret (Some results))).
End Tree.
End CopyTree.
