(* ===== verification/CopyTreeProps.v ===== *)
(** * What [copy_tree] does to a tree

    Files land below the target; the pool of [_in_order], whatever its tasks;
    walks; and, from what the store ([Storage]) and its directories
    ([Library]) promise one call at a time, the tree one worker copies: every
    selected file at the target, and a deletion that removes what the
    selection does not describe and nothing else. *)

From S2P Require Import Prelude PyStr Errors Responses ConfigFile Url UrlText Checksum FileClient Glob FileTransfer Copy CopyAhead CopyProps CopyTree.
From Stdlib Require Import QArith.
Open Scope Z_scope.

Import Copy CopyTree.

(** ** Where a file goes *)

Definition ups (n : nat) : list str := replicate n DOTDOT.

(** A component that is not empty and has no slash, [..] among them. *)
Definition solid (c : str) : Prop := c <> [] /\ 0x2F ∉ c.

Lemma plain_solid c : plain_component c -> solid c.
Proof. by intros (? & _ & _ & ?). Qed.
Lemma ups_solid n : Forall solid (ups n).
Proof. apply Forall_replicate. split; [done|]. decided. Qed.

Lemma solid_head cs : Forall solid cs -> lstrip_by is_slash (join 0x2F cs) = join 0x2F cs.
Proof.
  destruct 1 as [|c cs [Hn Hs] _]; [done|]. destruct c as [|x c]; [done|]. apply not_elem_of_cons in Hs as [Hx _]. rewrite join_cons.
  assert (E : is_slash x = false) by (apply Z.eqb_neq; congruence). destruct cs; cbn; by rewrite E.
Qed.

Lemma join_snoc_last (cs : list (list Z)) (c : list Z) x : exists l, join 0x2F (cs ++ [c ++ [x]]) = l ++ [x].
Proof.
  induction cs as [|d cs [l IH]]; [by exists c|]. rewrite <- app_comm_cons, join_cons.
  destruct (cs ++ [c ++ [x]]) eqn:E; [by destruct cs|]. rewrite IH. exists (d ++ 0x2F :: l). by rewrite <- app_assoc.
Qed.

Lemma solid_last cs : Forall solid cs -> cs <> [] -> endswith [0x2F] (0x2F :: join 0x2F cs) = false.
Proof.
  intros Hc Hne. destruct cs as [|c cs _] using rev_ind; [done|]. apply Forall_app in Hc as [_ [[Hn Hs] _]%Forall_cons].
  destruct c as [|x c _] using rev_ind; [done|]. unfold str in *. destruct (join_snoc_last cs c x) as [l ->].
  rewrite app_comm_cons, endswith_snoc. apply bool_decide_eq_false. intros <-. apply Hs. apply elem_of_app. right. left.
Qed.

Lemma join_app_rooted comps (cs : list str) :
  comps <> [] -> cs <> [] -> rooted comps ++ 0x2F :: join 0x2F cs = 0x2F :: join 0x2F (comps ++ cs).
Proof.
  intros Hc Hne. unfold rooted. rewrite <- app_comm_cons. f_equal. induction comps as [|c comps IH]; [done|].
  rewrite <- app_comm_cons, !join_cons. destruct comps as [|d comps]; [by destruct cs|]. rewrite <- app_assoc, <- app_comm_cons.
  rewrite IH by done. by destruct ((d :: comps) ++ cs) eqn:E.
Qed.

(** Going up takes the last components away. *)
Lemma norm_ups n comps :
  Forall plain_component comps -> foldl (norm_step true) (reverse comps) (ups n) = reverse (take (length comps - n) comps).
Proof.
  revert comps. induction n as [|n IH]; intros comps Hc; [by rewrite Nat.sub_0_r, firstn_all|]. cbn [ups replicate foldl].
  assert (norm_step true (reverse comps) DOTDOT = reverse (take (length comps - 1) comps)) as ->.
  { destruct comps as [|c comps _] using rev_ind; [done|]. apply Forall_app in Hc as [_ [(_ & _ & Hd & _) _]%Forall_cons].
    rewrite reverse_snoc, length_app. replace (length comps + length [c] - 1)%nat with (length comps) by (cbn; lia).
    rewrite take_app_length. unfold norm_step. rewrite bool_decide_eq_false_2, (bool_decide_eq_false_2 (DOTDOT = DOT)) by done.
    rewrite (bool_decide_eq_false_2 (DOTDOT <> DOTDOT)) by tauto. cbn [orb negb andb].
    rewrite bool_decide_eq_false_2 by (intros [= ->]; done). done. }
  rewrite IH by (by apply Forall_take). rewrite take_take, length_take. do 2 f_equal. lia.
Qed.

(** Joining a name to the target, with some [..] in front. *)
Lemma destination_path lower u comps n rels :
  Forall plain_component comps -> comps <> [] -> Forall plain_component rels -> rels <> [] -> u_path u = rooted comps ->
  u_path (url_join lower u [join 0x2F (ups n ++ rels)]) = rooted (take (length comps - n) comps ++ rels).
Proof.
  intros Hc Hne Hr Hrn Eu. unfold url_join, with_path, make_url. cbn [u_path]. rewrite Eu.
  assert (Hs : Forall solid (ups n ++ rels)) by (apply Forall_app; split; [apply ups_solid | eapply Forall_impl; [exact Hr | apply plain_solid]]).
  assert (Hsn : ups n ++ rels <> []) by (by destruct (ups n), rels).
  assert (Hall : Forall solid (comps ++ ups n ++ rels)) by (apply Forall_app; split; [eapply Forall_impl; [exact Hc | apply plain_solid] | done]).
  assert (Hend : Forall plain_component (take (length comps - n) comps ++ rels)) by (apply Forall_app; split; [by apply Forall_take | done]).
  unfold path_join. cbn [foldl].
  assert (startswith [0x2F] (join 0x2F (ups n ++ rels)) = false) as ->.
  { pose proof (solid_head _ Hs) as Hl. destruct (join 0x2F (ups n ++ rels)) as [|x l] eqn:E; [done|]. cbn.
    assert (is_slash x = false) by (apply (lstrip_head is_slash (x :: l)); by rewrite Hl). unfold is_slash in *. zbool.
    rewrite bool_decide_eq_false_2 by congruence. done. }
  rewrite bool_decide_eq_false_2, rooted_ends by done. cbn [orb]. rewrite join_app_rooted by done.
  unfold _normalize. rewrite solid_last by (try done; by destruct comps). cbn [andb negb].
  change (lstrip_by is_slash (0x2F :: join 0x2F (comps ++ ups n ++ rels))) with (lstrip_by is_slash (join 0x2F (comps ++ ups n ++ rels))).
  rewrite solid_head by done. apply normpath_of; [by apply initial_slashes_rooted, solid_head | done|].
  change (split_all 0x2F (0x2F :: join 0x2F (comps ++ ups n ++ rels))) with ([] :: split_all 0x2F (join 0x2F (comps ++ ups n ++ rels))).
  rewrite split_join; [|by destruct comps|]. 2: { eapply Forall_impl; [exact Hall|]. by intros ? [_ ?]. }
  cbn [foldl]. change (norm_step true [] []) with (@nil str). rewrite !foldl_app, (norm_fold_id comps []), app_nil_r, norm_ups, norm_fold_id by done.
  by rewrite reverse_app.
Qed.

(** A file lands under the target: whatever names a server puts into its
    listings, those the listing parser lets through - single components, none
    of them [..] - take the copy of a tree to the same names below the target.
    Without that check a name climbs as far as it likes. *)
Theorem destination_inside lower u comps names :
  Forall plain_component comps -> comps <> [] -> u_path u = rooted comps ->
  Forall (fun n => _checked n = Ok n /\ n <> [] /\ n <> s_ ".") names -> names <> [] ->
  u_path (url_join lower u [join 0x2F names]) = rooted (comps ++ names)
  /\ forall n, u_path (url_join lower u [join 0x2F (ups n ++ names)]) = rooted (take (length comps - n) comps ++ names).
Proof.
  intros Hc Hne Eu Hn Hnn. assert (Hp : Forall plain_component names).
  { eapply Forall_impl; [exact Hn|]. intros c (Hk & H1 & H2). unfold _checked in Hk.
    destruct (contains 0x2F c || bool_decide (c = s_ "..")) eqn:E; [done|]. apply orb_false_iff in E as [E1 E2].
    apply bool_decide_eq_false in E1, E2. by split_and!. }
  split; [|by intros n; apply destination_path].
  pose proof (destination_path lower u comps 0 names Hc Hne Hp Hnn Eu) as H0. rewrite Nat.sub_0_r, firstn_all in H0. exact H0.
Qed.

Lemma destination_inside_witness :
  let data := mkURL (s_ "file") [] 0 (s_ "/home/me/data") [] [] [] in
  u_path (url_join id data [s_ "run/hits"]) = s_ "/home/me/data/run/hits"
  /\ u_path (url_join id data [s_ "../run/hits"]) = s_ "/home/me/run/hits".
Proof.
  destruct (destination_inside id (mkURL (s_ "file") [] 0 (s_ "/home/me/data") [] [] []) [s_ "home"; s_ "me"; s_ "data"] [s_ "run"; s_ "hits"]
    ltac:(decided) ltac:(done) eq_refl ltac:(repeat constructor; done) ltac:(done)) as [H1 H2].
  split; [exact H1 | exact (H2 1%nat)].
Defined.

(** ** The pool *)

Section Pool.
Context {W T A : Type}.
Variable task_step : T -> st exn W (T + A).
Notation pool_step := (pool_step task_step).
Notation pool_run := (pool_run task_step).

(** Nothing is started out of turn: a task that waits has only tasks that wait
    or were cancelled behind it. *)
Lemma start_next_lookup (fs : list (future T A)) i :
  start_next fs !! i = fs !! i \/ exists t, fs !! i = Some (Pending t) /\ start_next fs !! i = Some (Running t).
Proof.
  revert i. induction fs as [|f fs IH]; intros i; [by left|]. destruct f as [t|t|r|]; destruct i as [|i]; cbn; auto.
  right. by exists t.
Qed.

Lemma length_start_next (fs : list (future T A)) : length (start_next fs) = length fs.
Proof. induction fs as [|f fs IH]; [done|]. destruct f; cbn; by rewrite ?IH. Qed.

Definition live (p : pool W T A) : nat := length (filter (fun f => running f = true) (po_futures p)).
Lemma insert_cons {B} (f g : B) i (fs : list B) : <[S i := f]> (g :: fs) = g :: <[i := f]> fs.
Proof. done. Qed.

Lemma live_start_next (fs : list (future T A)) :
  (length (filter (fun f => running f = true) (start_next fs)) <= S (length (filter (fun f => running f = true) fs)))%nat.
Proof.
  induction fs as [|f fs IH]; [cbn; lia|]. destruct f as [t|t|r|]; cbn [start_next]; rewrite !filter_cons; repeat case_decide; cbn; try done; lia.
Qed.

Lemma live_insert (fs : list (future T A)) i t f :
  fs !! i = Some (Running t) ->
  (length (filter (fun f => running f = true) (<[i := f]> fs)) <= length (filter (fun f => running f = true) fs))%nat.
Proof.
  revert i. induction fs as [|g fs IH]; intros [|i] Hi; [done..| |].
  - injection Hi as ->. change (<[0%nat := f]> (Running t :: fs)) with (f :: fs). rewrite !filter_cons. repeat case_decide; cbn; try done; lia.
  - specialize (IH i Hi). rewrite insert_cons, !filter_cons. repeat case_decide; cbn; lia.
Qed.

Lemma live_insert_waiting (fs : list (future T A)) i t :
  fs !! i = Some (Pending t) ->
  length (filter (fun f => running f = true) (<[i := Cancelled]> fs)) = length (filter (fun f => running f = true) fs).
Proof.
  revert i. induction fs as [|g fs IH]; intros [|i] Hi; [done..| |].
  - injection Hi as ->. change (<[0%nat := Cancelled]> (Pending t :: fs)) with (Cancelled :: fs). by rewrite !filter_cons.
  - specialize (IH i Hi). rewrite insert_cons, !filter_cons. repeat case_decide; cbn; lia.
Qed.

(** Never more tasks under way than there are workers. *)
Lemma pool_step_bounded workers p m : Z.of_nat (live p) <= workers -> Z.of_nat (live (pool_step workers p m)) <= workers.
Proof.
  unfold live. intros Hb. destruct m as [|i|i]; cbn.
  - destruct (Z.ltb_spec (zlen (filter (fun f => running f = true) (po_futures p))) workers) as [Hlt|]; [|done]. cbn.
    pose proof (live_start_next (po_futures p)). unfold zlen in Hlt. lia.
  - destruct (po_futures p !! i) as [[|t| |]|] eqn:E; try done. destruct (task_step t (po_world p)) as [w r]. cbn.
    pose proof (live_insert (po_futures p) i t
      match r with Ok (inl t) => Running t | Ok (inr a) => Returned (Ok a) | Err e => Returned (Err e) end E). lia.
  - destruct (po_futures p !! i) as [[t| | |]|] eqn:E; try done. destruct (results _) as [[|e]|]; try done. cbn.
    by rewrite (live_insert_waiting _ _ _ E).
Qed.

Lemma pool_run_bounded workers sched p : Z.of_nat (live p) <= workers -> Z.of_nat (live (pool_run workers sched p)) <= workers.
Proof. revert p. induction sched as [|m sched IH]; intros p Hp; [done|]. by apply IH, pool_step_bounded. Qed.

Lemma pool_run_app workers a b p : pool_run workers (a ++ b) p = pool_run workers b (pool_run workers a p).
Proof. apply foldl_app. Qed.

(** *** It comes to an end

    Given that every task does: each step changes nothing or leaves less. *)

Variable size : T -> nat.
Hypothesis task_ends : forall t w w' t', task_step t w = (w', Ok (inl t')) -> (size t' < size t)%nat.

Definition cost (f : future T A) : nat := match f with Pending t => 2 + size t | Running t => 1 + size t | _ => 0 end.
Fixpoint left_to_do (fs : list (future T A)) : nat := match fs with [] => 0 | f :: fs => cost f + left_to_do fs end.

Lemma left_insert (fs : list (future T A)) i f g :
  fs !! i = Some f -> (left_to_do (<[i := g]> fs) + cost f = left_to_do fs + cost g)%nat.
Proof.
  revert i. induction fs as [|h fs IH]; intros [|i] Hi; [done..| |].
  - injection Hi as ->. change (<[0%nat := g]> (f :: fs)) with (g :: fs). cbn [left_to_do]. lia.
  - specialize (IH i Hi). rewrite insert_cons. cbn [left_to_do]. lia.
Qed.

Lemma left_start_next (fs : list (future T A)) : start_next fs = fs \/ (left_to_do (start_next fs) < left_to_do fs)%nat.
Proof.
  induction fs as [|f fs IH]; [by left|]. destruct f as [t|t|r|]; cbn; [right; lia|..]; (destruct IH as [->|IH]; [by left | right; lia]).
Qed.

Lemma pool_step_left workers p m :
  pool_step workers p m = p \/ (left_to_do (po_futures (pool_step workers p m)) < left_to_do (po_futures p))%nat.
Proof.
  destruct p as [w fs]. destruct m as [|i|i]; cbn.
  - destruct (_ <? workers); [|by left]. destruct (left_start_next fs) as [->|]; auto.
  - destruct (fs !! i) as [[|t| |]|] eqn:E; try by left. right. destruct (task_step t w) as [w' r] eqn:Es. cbn.
    set (g := match r with Ok (inl t) => _ | _ => _ end). pose proof (left_insert fs i (Running t) g E) as Hl. cbn in Hl.
    assert (cost g < 1 + size t)%nat by (destruct r as [[t'|a]|e]; cbn; [apply task_ends in Es|..]; lia). lia.
  - destruct (fs !! i) as [[t| | |]|] eqn:E; try by left. destruct (results fs) as [[|e]|]; try by left. right. cbn.
    pose proof (left_insert fs i (Pending t) Cancelled E) as Hl. cbn in Hl. lia.
Qed.

Lemma pool_run_left workers sched p :
  (pool_run workers sched p = p /\ forall m, m ∈ sched -> pool_step workers p m = p)
  \/ (left_to_do (po_futures (pool_run workers sched p)) < left_to_do (po_futures p))%nat.
Proof.
  revert p. induction sched as [|m sched IH]; intros p; [left; split; [done|]; intros m Hm; by apply elem_of_nil in Hm|].
  change (pool_run workers (m :: sched) p) with (pool_run workers sched (pool_step workers p m)).
  destruct (pool_step_left workers p m) as [E|E]; destruct (IH (pool_step workers p m)) as [[Hr Hs]|Hr]; [left|right; by rewrite E in *|right..].
  - rewrite Hr. split; [done|]. intros m' [->|Hm]%elem_of_cons; [done|]. specialize (Hs m' Hm). by rewrite E in Hs.
  - by rewrite Hr.
  - lia.
Qed.

(** A round of a fair schedule: a worker looks for a task, and then every task
    under way gets its turn. *)
Definition fair_round (n : nat) (seg : list move) : Prop :=
  exists a b, seg = a ++ Take :: b /\ forall i, (i < n)%nat -> Go i ∈ b.

Lemma start_next_same (fs : list (future T A)) : start_next fs = fs -> Forall (fun f => match f with Pending _ => False | _ => True end) fs.
Proof. induction fs as [|f fs IH]; [done|]. destruct f; cbn; intros [= E]; constructor; auto. Qed.

Lemma fair_round_left workers n seg p :
  0 < workers -> length (po_futures p) = n -> fair_round n seg ->
  forallb over (po_futures p) = true
  \/ (left_to_do (po_futures (pool_run workers seg p)) < left_to_do (po_futures p))%nat.
Proof.
  intros Hw Hn (a & b & -> & Hb). destruct (pool_run_left workers (a ++ Take :: b) p) as [[_ Hs]|]; [left | by right].
  assert (Hnone : Forall (fun f => running f = false) (po_futures p)).
  { apply Forall_lookup. intros i f Hi. destruct f as [|t| |]; try done. exfalso.
    assert (Hg : pool_step workers p (Go i) = p).
    { apply Hs. apply elem_of_app. right. right. apply Hb. apply lookup_lt_Some in Hi. lia. }
    cbn in Hg. rewrite Hi in Hg. destruct (task_step t (po_world p)) as [w r] eqn:Et.
    apply (f_equal po_futures) in Hg. cbn in Hg. assert (Hl : po_futures p !! i = Some (Running t)) by done.
    rewrite <- Hg, list_lookup_insert_eq in Hl by (by eapply lookup_lt_Some).
    destruct r as [[t'|x]|e]; try done. apply task_ends in Et. injection Hl as ->. lia. }
  assert (Ht : pool_step workers p Take = p) by (apply Hs; apply elem_of_app; right; left).
  cbn in Ht. assert (E : filter (fun f => running f = true) (po_futures p) = []).
  { clear -Hnone. induction Hnone as [|f fs Hf _ IH]; [done|]. by rewrite filter_cons, decide_False by congruence. }
  rewrite E in Ht. change (zlen []) with 0 in Ht. destruct (Z.ltb_spec 0 workers); [|lia].
  apply (f_equal po_futures) in Ht. cbn in Ht. apply start_next_same in Ht. clear -Ht Hnone.
  induction Ht as [|f fs Hf _ IH]; [done|]. apply Forall_cons in Hnone as [Hr Hnone]. cbn. rewrite IH by done. by destruct f.
Qed.

Lemma pool_step_length workers p m : length (po_futures (pool_step workers p m)) = length (po_futures p).
Proof.
  destruct m as [|i|i]; cbn.
  - destruct (_ <? workers); [|done]. apply length_start_next.
  - destruct (po_futures p !! i) as [[|t| |]|]; try done. destruct (task_step t (po_world p)). apply length_insert.
  - destruct (po_futures p !! i) as [[t| | |]|]; try done. destruct (results _) as [[|e]|]; try done. apply length_insert.
Qed.

Lemma pool_run_length workers sched p : length (po_futures (pool_run workers sched p)) = length (po_futures p).
Proof. revert p. induction sched as [|m sched IH]; intros p; [done|]. etransitivity; [apply IH | apply pool_step_length]. Qed.

Lemma over_left (fs : list (future T A)) : forallb over fs = true <-> left_to_do fs = 0%nat.
Proof.
  induction fs as [|f fs IH]; [done|]. cbn. rewrite andb_true_iff, IH.
  destruct f; cbn; (split; [intros [? ?] | intros ?]); try done; try lia.
Qed.

Lemma fair_rounds_end workers segs p :
  0 < workers -> Forall (fair_round (length (po_futures p))) segs -> (left_to_do (po_futures p) <= length segs)%nat ->
  forallb over (po_futures (pool_run workers (concat segs) p)) = true.
Proof.
  intros Hw. revert p. induction segs as [|seg segs IH]; intros p Hf Hl; [apply over_left; cbn in *; lia|].
  apply Forall_cons in Hf as [Hs Hf]. cbn [concat]. rewrite pool_run_app. apply IH.
  - by rewrite pool_run_length.
  - destruct (fair_round_left workers _ seg p Hw eq_refl Hs) as [Ho|Hlt]; [|cbn in Hl |- *; lia].
    apply over_left in Ho. destruct (pool_run_left workers seg p) as [[E _]|E]; [rewrite E|]; lia.
Qed.

(** *** Nothing is cancelled but behind a failure *)

Lemma results_insert (fs : list (future T A)) i f g e :
  results fs = Some (Err e) -> fs !! i = Some f -> over f = false -> results (<[i := g]> fs) = Some (Err e).
Proof.
  revert i. induction fs as [|h fs IH]; intros [|i] Hr Hi Ho; [done..| |].
  - injection Hi as ->. by destruct f.
  - rewrite insert_cons. cbn in Hr |- *. destruct h as [| |[a|e']|]; try done.
    destruct (results fs) as [[l|e']|] eqn:E; try done. by rewrite (IH i Hr Hi Ho).
Qed.

Lemma results_start_next (fs : list (future T A)) e : results fs = Some (Err e) -> results (start_next fs) = Some (Err e).
Proof.
  induction fs as [|h fs IH]; [done|]. destruct h as [| |[a|e']|]; cbn; try done.
  destruct (results fs) as [[l|e']|] eqn:E; try done. intros Hr. by rewrite (IH Hr).
Qed.

Definition settled (p : pool W T A) : Prop :=
  Cancelled ∈ po_futures p -> exists e, results (po_futures p) = Some (Err e).

Lemma settled_new w tasks : settled (mkPool w (Pending <$> tasks)).
Proof. intros Hc. cbn in Hc. apply list_elem_of_fmap in Hc as (t & ? & _). done. Qed.

Lemma cancelled_insert (fs : list (future T A)) i g : g <> Cancelled -> Cancelled ∈ <[i := g]> fs -> Cancelled ∈ fs.
Proof.
  intros Hg [j Hj]%list_elem_of_lookup. destruct (decide (i = j)) as [->|Hne].
  - destruct (decide (j < length fs)%nat); [rewrite list_lookup_insert_eq in Hj by done; congruence|].
    rewrite list_insert_ge in Hj by lia. by eapply list_elem_of_lookup_2.
  - rewrite list_lookup_insert_ne in Hj by done. by eapply list_elem_of_lookup_2.
Qed.

Lemma settled_step workers p m : settled p -> settled (pool_step workers p m).
Proof.
  unfold settled. intros Hp. destruct m as [|i|i]; cbn.
  - destruct (_ <? workers); [|done]. cbn. intros [j Hj]%list_elem_of_lookup.
    destruct (start_next_lookup (po_futures p) j) as [E|(u & _ & E)]; rewrite E in Hj; [|done].
    destruct (Hp (list_elem_of_lookup_2 _ _ _ Hj)) as [e He]. exists e. by apply results_start_next.
  - destruct (po_futures p !! i) as [[|u| |]|] eqn:E; try done. destruct (task_step u (po_world p)) as [w' r]. cbn.
    intros Hc%cancelled_insert; [|by destruct r as [[]|]]. destruct (Hp Hc) as [e He]. exists e. by eapply results_insert.
  - destruct (po_futures p !! i) as [[u| | |]|] eqn:E; try done. destruct (results (po_futures p)) as [[l|e]|] eqn:Er; [by rewrite Er| |by rewrite Er].
    cbn. intros _. exists e. by eapply results_insert.
Qed.

Lemma settled_run workers sched p : settled p -> settled (pool_run workers sched p).
Proof. revert p. induction sched as [|m sched IH]; intros p Hp; [done|]. by apply IH, settled_step. Qed.

(** When every task is over, so is the waiting for their results. *)
Lemma results_over p : forallb over (po_futures p) = true -> settled p -> exists r, results (po_futures p) = Some r.
Proof.
  unfold settled. generalize (po_futures p). intros fs. induction fs as [|f fs IH]; intros Ho Hs; [by eexists|].
  cbn in Ho, Hs |- *. destruct f as [| |[a|e]|]; try done; [|by eexists|].
  - destruct IH as [[l|e] E]; [done| |by rewrite E; eexists..]. intros Hc. destruct (Hs ltac:(by right)) as [e He].
    exists e. by destruct (results fs) as [[]|].
  - by destruct (Hs ltac:(left)) as [e He].
Qed.

(** *** Tasks that share nothing

    Each task works on a part of the world of its own, found by [item]; run
    alone on that part it is [local_step]. *)

Section Alone.
Context {I V : Type}.
Variable item : T -> I.
Variable own : I -> W -> V.
Variable local_step : T -> V -> V * res (T + A).
Hypothesis task_local : forall t w w' r,
  task_step t w = (w', r) ->
  local_step t (own (item t) w) = (own (item t) w', r)
  /\ (forall j, j <> item t -> own j w' = own j w) /\ (forall t', r = Ok (inl t') -> item t' = item t).

(** How a task ends when nothing else is going on. *)
Inductive alone : T -> V -> V -> res A -> Prop :=
  | alone_ends t v v' a : local_step t v = (v', Ok (inr a)) -> alone t v v' (Ok a)
  | alone_fails t v v' e : local_step t v = (v', Err e) -> alone t v v' (Err e)
  | alone_goes_on t t' v v' v'' r : local_step t v = (v', Ok (inl t')) -> alone t' v' v'' r -> alone t v v'' r.

(** Where a task is, on its own part of the world. *)
Definition on_its_own (w0 w : W) (t : T) (f : future T A) : Prop :=
  match f with
  | Pending t' => t' = t /\ own (item t) w = own (item t) w0
  | Running t' => item t' = item t /\ forall v r, alone t' (own (item t) w) v r -> alone t (own (item t) w0) v r
  | Returned r => alone t (own (item t) w0) (own (item t) w) r
  | Cancelled => own (item t) w = own (item t) w0
  end.

Lemma on_its_own_frame w0 w w' t f : own (item t) w' = own (item t) w -> on_its_own w0 w t f -> on_its_own w0 w' t f.
Proof. intros E. destruct f; cbn; by rewrite ?E. Qed.

Lemma task_on_its_own w0 w t u w' r :
  on_its_own w0 w t (Running u) -> task_step u w = (w', r) ->
  on_its_own w0 w' t (match r with Ok (inl t) => Running t | Ok (inr a) => Returned (Ok a) | Err e => Returned (Err e) end).
Proof.
  intros [Ei Hr] Es. destruct (task_local _ _ _ _ Es) as (Hl & _ & Hi). rewrite Ei in Hl. destruct r as [[t'|a]|e]; cbn.
  - split; [by rewrite (Hi t' eq_refl)|]. intros v r Ha. apply Hr. by eapply alone_goes_on.
  - apply Hr. by constructor.
  - apply Hr. by constructor.
Qed.

Definition all_on_their_own (tasks : list T) (w0 : W) (p : pool W T A) : Prop :=
  Forall2 (on_its_own w0 (po_world p)) tasks (po_futures p).

Lemma Forall2_update {X Y} (P Q : X -> Y -> Prop) l k i y :
  Forall2 P l k -> (forall j x z, l !! j = Some x -> k !! j = Some z -> P x z -> if decide (j = i) then Q x y else Q x z) ->
  Forall2 Q l (<[i := y]> k).
Proof.
  intros Hp Hq. apply Forall2_same_length_lookup. split; [by rewrite length_insert, (Forall2_length _ _ _ Hp)|].
  intros j x z Hx Hz. destruct (decide (j = i)) as [->|Hne].
  - destruct (Forall2_lookup_l _ _ _ _ _ Hp Hx) as (z' & Hz' & HP). specialize (Hq i x z' Hx Hz' HP). rewrite decide_True in Hq by done.
    rewrite list_lookup_insert_eq in Hz by (by eapply lookup_lt_Some). by injection Hz as <-.
  - rewrite list_lookup_insert_ne in Hz by done. specialize (Hq j x z Hx Hz (Forall2_lookup_lr _ _ _ _ _ _ Hp Hx Hz)).
    by rewrite decide_False in Hq.
Qed.

Lemma pool_step_alone workers tasks w0 p m :
  NoDup (item <$> tasks) -> all_on_their_own tasks w0 p -> all_on_their_own tasks w0 (pool_step workers p m).
Proof.
  unfold all_on_their_own. intros Hnd Hp. destruct m as [|i|i]; cbn.
  - destruct (_ <? workers); [|done]. cbn. apply Forall2_same_length_lookup.
    split; [by rewrite length_start_next, (Forall2_length _ _ _ Hp)|]. intros j t f Ht Hf.
    destruct (start_next_lookup (po_futures p) j) as [E|(u & Eu & E)]; rewrite E in Hf.
    + by eapply Forall2_lookup_lr.
    + injection Hf as <-. pose proof (Forall2_lookup_lr _ _ _ _ _ _ Hp Ht Eu) as [-> Ho]. cbn. split; [done|]. by rewrite Ho.
  - destruct (po_futures p !! i) as [[|u| |]|] eqn:E; try done. destruct (task_step u (po_world p)) as [w' r] eqn:Es. cbn.
    apply (Forall2_update _ _ _ _ i _ Hp). intros j t f Ht Hf Ho. case_decide as Hj; [subst j|].
    + rewrite E in Hf. injection Hf as <-. by eapply task_on_its_own.
    + apply (on_its_own_frame _ (po_world p)); [|done]. apply (task_local _ _ _ _ Es).
      destruct (Forall2_lookup_r _ _ _ _ _ Hp E) as (ti & Hti & [-> _]). intros Heq. apply Hj.
      apply (NoDup_lookup (item <$> tasks) j i (item t)); [done| |]; rewrite list_lookup_fmap; [by rewrite Ht | by rewrite Hti, Heq].
  - destruct (po_futures p !! i) as [[u| | |]|] eqn:E; try done. destruct (results _) as [[|e]|]; try done. cbn.
    apply (Forall2_update _ _ _ _ i _ Hp). intros j t f Ht Hf Ho. case_decide as Hj; [subst j|done].
    rewrite E in Hf. injection Hf as <-. by destruct Ho.
Qed.

Lemma pool_run_alone workers sched tasks w0 p :
  NoDup (item <$> tasks) -> all_on_their_own tasks w0 p -> all_on_their_own tasks w0 (pool_run workers sched p).
Proof. intros Hnd. revert p. induction sched as [|m sched IH]; intros p Hp; [done|]. by apply IH, pool_step_alone. Qed.

Lemma results_ok (P : T -> future T A -> Prop) tasks fs l :
  Forall2 P tasks fs -> results fs = Some (Ok l) -> Forall2 (fun t a => P t (Returned (Ok a))) tasks l.
Proof.
  intros Hp. revert l. induction Hp as [|t f tasks fs Hf _ IH]; intros l; cbn; [by intros [= <-]|].
  destruct f as [| |[a|e]|]; try done. destruct (results fs) as [[l'|]|]; try done. intros [= <-]. constructor; auto.
Qed.

Lemma results_err (P : T -> future T A -> Prop) tasks fs e :
  Forall2 P tasks fs -> results fs = Some (Err e) ->
  exists i t, tasks !! i = Some t /\ P t (Returned (Err e))
    /\ forall j t', (j < i)%nat -> tasks !! j = Some t' -> exists a, P t' (Returned (Ok a)).
Proof.
  induction 1 as [|t f tasks fs Hf _ IH]; cbn; [done|]. destruct f as [| |[a|e']|]; try done.
  - intros Hr. destruct IH as (i & u & Hi & Hu & Hb); [by destruct (results fs) as [[]|]; simplify_eq|].
    exists (S i), u. split; [done|]. split; [done|]. intros [|j] t' Hj Ht; [injection Ht as <-; by exists a | apply (Hb j); [lia | done]].
  - intros [= ->]. exists 0%nat, t. split; [done|]. split; [done|]. lia.
Qed.

(** C18: *** The outcome *)

Theorem in_order_alone workers segs tasks w :
  0 < workers -> NoDup (item <$> tasks) -> Forall (fair_round (length tasks)) segs ->
  (left_to_do (Pending <$> tasks) <= length segs)%nat ->
  let '(w', r) := _in_order task_step workers (concat segs) tasks w in
  let ended t r := alone t (own (item t) w) (own (item t) w') r in
  match r with
  | Ok (Some l) => Forall2 (fun t a => ended t (Ok a)) tasks l
  | Ok None => False
  | Err e =>
      (exists i t, tasks !! i = Some t /\ ended t (Err e)
         /\ forall j t', (j < i)%nat -> tasks !! j = Some t' -> exists a, ended t' (Ok a))
      /\ forall t, t ∈ tasks -> (exists r, ended t r) \/ own (item t) w' = own (item t) w
  end.
Proof.
  intros Hw Hnd Hf Hl. unfold _in_order. destruct (Z.leb_spec workers 0); [lia|].
  set (p0 := mkPool w (Pending <$> tasks)). assert (Hp : all_on_their_own tasks w (pool_run workers (concat segs) p0)).
  { apply pool_run_alone; [done|]. unfold all_on_their_own. cbn. apply Forall2_fmap_r, Forall_Forall2_diag, Forall_true. by intros t. }
  assert (Ho : forallb over (po_futures (pool_run workers (concat segs) p0)) = true).
  { apply fair_rounds_end; [done | unfold p0; cbn [po_futures]; by rewrite length_fmap | done]. }
  rewrite Ho. destruct (results_over _ Ho (settled_run workers (concat segs) p0 (settled_new w tasks))) as [[l|e] E]; rewrite E.
  - by apply (results_ok _ _ _ _ Hp).
  - split; [by apply (results_err _ _ _ _ Hp)|]. intros t Ht. apply list_elem_of_lookup in Ht as [i Hi].
    destruct (Forall2_lookup_l _ _ _ _ _ Hp Hi) as (f & Hfi & Hon).
    destruct f as [u|u|r|]; cbn in Hon; [right; tauto | | left; eauto | by right].
    exfalso. rewrite forallb_forall in Ho. specialize (Ho (Running u)). discriminate Ho. by apply list_elem_of_In, (list_elem_of_lookup_2 _ i).
Qed.
End Alone.
End Pool.

(** ** Walks *)

Section Walks.
Context {H F G W : Type} `{CopyEnv H F W} `{TreeEnv F G W}.
Variable lower abspath : str -> str.
Variable fuel : nat.
Variable cfg : Config.

Notation named := (named abspath).
Notation walk_loop := (walk_loop abspath).
Notation _walk := (_walk lower abspath).

(** A generator that has [l] to give in [n] directories, asked in a world
    where [At] holds; inside the loop, [R l] holds while [l] is left. *)
Inductive Walks (url : XRootDURL) (R : list str -> W -> Prop) : nat -> G -> (W -> Prop) -> list str -> Prop :=
  | walks_end g (At : W -> Prop) :
      (forall w, At w -> match walk_next g w with (w', Ok None) => R [] w' | (_, Ok (Some _)) => False | _ => True end) ->
      Walks url R 0 g At []
  | walks_dir n g g' root names f (At At' : W -> Prop) l :
      named url root = Ok f ->
      (forall w, At w ->
         match walk_next g w with
         | (w', Ok d) => d = Some ((root, names), g') /\ R ((f <$> names) ++ l) w'
         | _ => True
         end) ->
      (forall w, R l w -> At' w) ->
      Walks url R n g' At' l -> Walks url R (S n) g At ((f <$> names) ++ l).

(** The walk over [url] gives [names]. *)
Definition Enumerates (url : XRootDURL) (At : W -> Prop) (R : list str -> W -> Prop) (names : list str) : Prop :=
  if is_local url then exists n, (n < fuel)%nat /\ Walks url R n (os_walk (u_path url)) At names
  else
    (forall w, At w ->
       match fs_enter (with_path lower url [0x2F]) cfg w with
       | (w', Ok fs) => exists n At', (n < fuel)%nat /\ At' w' /\ Walks url R n (fs_walk fs (u_path url)) At' names
       | _ => True
       end)
    /\ forall fs w, R [] w -> R [] (fs_exit fs w).1.

(** What else holds throughout, if the directories can be read without harm. *)
Definition quiet (K : W -> Prop) : Prop :=
  (forall g, preserves K (walk_next g)) /\ (forall u, preserves K (fs_enter u cfg)) /\ (forall fs, preserves K (fs_exit fs)).

Lemma walks_and url R K n g At l :
  (forall l, quiet (K l)) -> Walks url R n g At l ->
  Walks url (fun l w => R l w /\ K l w) n g (fun w => At w /\ K l w) l.
Proof.
  intros Hq. induction 1 as [g At Hn|n g g' root names f At At' l Hf Hn Ha _ IH].
  - constructor. intros w [Hr Hk]. specialize (Hn w Hr). pose proof (proj1 (Hq []) g w Hk) as Hk'. by destruct (walk_next g w) as [w' [[|]|]].
  - apply (walks_dir _ _ n g g' root names f _ (fun w => At' w /\ K l w) l Hf); [|by intros w [? ?]; auto|exact IH].
    intros w [Hr Hk]. specialize (Hn w Hr). pose proof (proj1 (Hq _) g w Hk) as Hk'. destruct (walk_next g w) as [w' [d|]]; [|done].
    by destruct Hn as [-> ?].
Qed.

Lemma enumerates_and url At R K names :
  (forall l, quiet (K l)) -> Enumerates url At R names ->
  Enumerates url (fun w => At w /\ K names w) (fun l w => R l w /\ K l w) names.
Proof.
  unfold Enumerates. intros Hq. destruct (is_local url); [intros (n & Hn & Hw); eauto using walks_and|]. intros [He Hx]. split.
  - intros w [Hr Hk]. specialize (He w Hr). pose proof (proj1 (proj2 (Hq names)) (with_path lower url [0x2F]) w Hk) as Hk'.
    destruct (fs_enter _ cfg w) as [w' [fs|]]; [|done]. destruct He as (n & At' & Hn & Ha & Hw).
    exists n, (fun w => At' w /\ K names w). split; [done|]. split; [done | by apply walks_and].
  - intros fs w [Hr Hk]. split; [by apply Hx | by apply (proj2 (proj2 (Hq [])))].
Qed.

Section Body.
Context {A : Type}.
Variable url : XRootDURL.
Variable P : list str -> W -> Prop.
Variable body : str -> A -> st exn W A.
Variable upd : A -> str -> A.
Hypothesis body_ok : forall n l acc w,
  P (n :: l) w -> match body n acc w with (w', Ok acc') => P l w' /\ acc' = upd acc n | _ => True end.

Lemma each_name_exact names l acc w :
  P (names ++ l) w ->
  match each_name body acc names w with
  | (w', Ok (Through acc')) => P l w' /\ acc' = foldl upd acc names
  | (_, Ok (BodyRaised _)) => True
  | (_, Err _) => False
  end.
Proof.
  revert acc w. induction names as [|n names IH]; intros acc w Hp; [done|]. cbn [each_name].
  pose proof (body_ok n (names ++ l) acc w Hp) as Hb. destruct (body n acc w) as [w' [acc'|e]]; [|done].
  destruct Hb as [Hp' ->]. by apply IH.
Qed.

Lemma walk_loop_exact n fl g At l acc w :
  Walks url P n g At l -> (n < fl)%nat -> At w ->
  match walk_loop fl url g body acc w with
  | (w', Ok (Some (Through acc'))) => P [] w' /\ acc' = foldl upd acc l
  | (_, Ok None) => False
  | _ => True
  end.
Proof.
  intros Hw. revert fl acc w.
  induction Hw as [g At Hn|n g g' root names f At At' l Hf Hn Ha Hw IH]; intros fl acc w Hl Hp; (destruct fl as [|fl]; [lia|]);
    cbn [CopyTree.walk_loop]; rewrite st_bind_eq; specialize (Hn w Hp).
  - destruct (walk_next g w) as [w' [[d|]|]]; done.
  - destruct (walk_next g w) as [w' [d|]]; [|done]. destruct Hn as [-> Hp']. unfold lift. rewrite st_bind_eq, Hf, st_bind_eq.
    pose proof (each_name_exact (f <$> names) l acc w' Hp') as He. destruct (each_name _ _ _ _) as [w2 [[acc'|e]|]]; [|done..].
    destruct He as [Hp2 ->]. rewrite foldl_app. apply IH; [lia | by apply Ha].
Qed.

Lemma walk_exact At names acc w :
  Enumerates url At P names -> At w ->
  match _walk fuel url cfg body acc w with
  | (w', Ok (Some acc')) => P [] w' /\ acc' = foldl upd acc names
  | (_, Ok None) => False
  | _ => True
  end.
Proof.
  unfold Enumerates, CopyTree._walk. intros He Hp. destruct (is_local url).
  - destruct He as (n & Hn & Hw). rewrite st_bind_eq. pose proof (walk_loop_exact n fuel _ _ _ acc w Hw Hn Hp) as Hl.
    by destruct (walk_loop _ _ _ _ _ _) as [w' [[[]|]|]].
  - destruct He as [He Hx]. specialize (He w Hp). destruct (fs_enter _ _ w) as [w' [fs|]]; [|done]. destruct He as (n & At' & Hn & Ha & Hw).
    pose proof (walk_loop_exact n fuel _ _ _ acc w' Hw Hn Ha) as Hl. destruct (walk_loop _ _ _ _ _ _) as [w2 [[[acc'|e]|]|]]; [| |done|].
    + destruct Hl as [Hp2 ->]. specialize (Hx fs w2 Hp2). by destruct (fs_exit fs w2) as [w3 [|]].
    + by destruct (fs_exit fs w2) as [w3 [|]].
    + by destruct (fs_exit fs w2) as [w3 [|]].
Qed.
End Body.
End Walks.

(** ** The whole tree *)

Section Complete.
Context {H F G W : Type} `{CopyEnv H F W} `{TreeEnv F G W}.
Variable lower abspath : str -> str.
Variable hashlib : str -> bytes -> bytes.
Variable fuel : nat.
Variable sc : str -> schedule.
Variable src dst : XRootDURL.
Variable cfg : Config.
Variable o : tree_options.
Context {K : Type} {key : XRootDURL -> K} {v : View H W K} `{!Storage lower key v}.
(** The files of a directory, and the names a walk gives them. *)
Variable below : XRootDURL -> K -> Prop.
Variable plain : str -> Prop.

Notation at_ url rel := (key (url_join lower url [rel])).

(** A walk that began in [w0] has [l] still to give: these files are as they
    were. *)
Definition awaiting (url : XRootDURL) (w0 : W) (l : list str) (w : W) : Prop :=
  forall rel, rel ∈ l -> file v (at_ url rel) w = file v (at_ url rel) w0.

(** A walk over [url] gives [names]: each file under it once. Removing a file
    it has given does not disturb it. *)
Definition listing (url : XRootDURL) (names : list str) (w0 : W) : Prop :=
  NoDup names /\ Forall plain names /\ Enumerates lower abspath fuel cfg url (eq w0) (awaiting url w0) names
  /\ (forall rel, rel ∈ names -> is_Some (file v (at_ url rel) w0))
  /\ (forall k, below url k -> is_Some (file v k w0) -> exists rel, rel ∈ names /\ k = at_ url rel).

Definition removed (u : XRootDURL) (w w' : W) : Prop := file v (key u) w' = None /\ forall k, k <> key u -> file v k w' = file v k w.

(** What directories promise, one call at a time. *)
Class Library := {
  lb_next g w : same v w (walk_next g w).1;
  lb_makedirs path w : same v w (os_makedirs path w).1;
  lb_os_remove u w : is_local u = true -> match os_remove (u_path u) w with (w', Ok _) => removed u w w' | _ => True end;
  lb_fs_remove u config fs w w' : is_local u = false -> fs_enter (with_path lower u [0x2F]) config w = (w', Ok fs) ->
    match fs_remove fs (u_path u) w' with (w2, Ok _) => removed u w' w2 | _ => True end;
  lb_below rel : plain rel -> below dst (at_ dst rel);
  lb_apart rel rel' : plain rel -> plain rel' -> at_ dst rel = at_ dst rel' -> rel = rel'
}.
Context `{!Library}.

(** The tree before, and the files of the source in it. *)
Variable w0 : W.
Variable names : list str.
Hypothesis source_listing : listing src names w0.

Definition selected : list str := filter (fun rel => _selected rel (to_include o) (to_exclude o) = true) names.

Lemma selected_once : NoDup selected.
Proof. destruct source_listing as [Hn _]. by apply NoDup_filter. Qed.
Lemma selected_plain rel : rel ∈ selected -> plain rel.
Proof. destruct source_listing as (_ & Hp & _). rewrite Forall_forall in Hp. intros [_ Hr]%list_elem_of_filter. by apply Hp. Qed.
Lemma selected_there rel : rel ∈ selected -> exists c, file v (at_ src rel) w0 = Some c.
Proof. destruct source_listing as (_ & _ & _ & Ht & _). intros [_ Hr]%list_elem_of_filter. by apply Ht. Qed.

(** The source is not in the target; each of its files is copied in one
    stream, by threads that get time enough. *)
Hypothesis source_outside : forall rel, rel ∈ selected -> ~ below dst (at_ src rel).
Hypothesis resumable : op_resume (to_copy o) = true -> forall rel c d,
  rel ∈ selected -> file v (at_ src rel) w0 = Some c -> file v (at_ dst rel) w0 = Some d -> d `prefix_of` c.
Hypothesis for_real : op_dry_run (to_copy o) = false /\ op_remove_source (to_copy o) = false.
Hypothesis chunk_positive : 0 < or_num (op_chunk_size (to_copy o)) (c_chunk_size cfg).
Hypothesis time_enough : forall rel c, rel ∈ selected -> file v (at_ src rel) w0 = Some c ->
  Z.min (c_parallel_chunks cfg) (zlen c / or_num (op_chunk_size (to_copy o)) (c_chunk_size cfg)) <= 1
  /\ (length c < fuel)%nat /\ (length c < sc_fuel (sc rel))%nat
  /\ exists segs, sc_ahead (sc rel) = concat segs /\ Forall fair segs
       /\ (120 + room (c_in_flight cfg) + 10 * length c < length segs)%nat.

(** *** One file *)

(** A file is at the target: as it is at the source, or, where files that are
    there already are skipped, as it was and of the same length. *)
Definition arrived (rel : str) (w : W) : Prop :=
  file v (at_ dst rel) w = file v (at_ src rel) w0
  \/ is_Some (to_sync o) /\ file v (at_ dst rel) w = file v (at_ dst rel) w0
     /\ exists c d, file v (at_ src rel) w0 = Some c /\ file v (at_ dst rel) w0 = Some d /\ zlen d = zlen c.

(** The files of [l] have been moved, and nothing else has changed. *)
Definition moved (l : list str) (w : W) : Prop :=
  (forall rel, rel ∈ l -> arrived rel w)
  /\ forall k, (forall rel, rel ∈ l -> k <> at_ dst rel) -> file v k w = file v k w0.

Lemma moved_files l w w' : (forall k, file v k w' = file v k w) -> moved l w -> moved l w'.
Proof.
  intros Hs [Ha Hk]. split; [|intros k Hl; rewrite Hs; by apply Hk]. intros rel Hr. unfold arrived. rewrite Hs. by apply Ha.
Qed.

Lemma moved_source l rel w : (forall rel', rel' ∈ l -> rel' ∈ selected) -> rel ∈ selected -> moved l w -> file v (at_ src rel) w = file v (at_ src rel) w0.
Proof.
  intros Hl Hs [_ Hk]. apply Hk. intros rel' Hr' E. apply (source_outside rel Hs). rewrite E. by apply lb_below, selected_plain, Hl.
Qed.
Lemma moved_target l rel w : (forall rel', rel' ∈ l -> rel' ∈ selected) -> rel ∈ selected -> rel ∉ l -> moved l w -> file v (at_ dst rel) w = file v (at_ dst rel) w0.
Proof.
  intros Hl Hs Hn [_ Hk]. apply Hk. intros rel' Hr' E. apply Hn.
  rewrite (lb_apart rel rel' (selected_plain rel Hs) (selected_plain rel' (Hl rel' Hr')) E). done.
Qed.

(** The file [rel] comes to what it should, and the others stay. *)
Lemma moved_more l rel w w' :
  (forall rel', rel' ∈ l -> rel' ∈ selected) -> rel ∈ selected -> rel ∉ l ->
  moved l w -> arrived rel w' -> (forall k, k <> at_ dst rel -> file v k w' = file v k w) -> moved (rel :: l) w'.
Proof.
  intros Hl Hs Hn [Ha Hk] Harr Ho. split.
  - intros rel' [->|Hr']%elem_of_cons; [done|]. unfold arrived. rewrite Ho; [by apply Ha|]. intros E. apply Hn.
    by rewrite <- (lb_apart rel' rel (selected_plain rel' (Hl rel' Hr')) (selected_plain rel Hs) E).
  - intros k Hkl. rewrite Ho by (apply Hkl; left). apply Hk. intros rel' Hr'. apply Hkl. by right.
Qed.

Lemma up_to_date_says su du mode a c w :
  file v (key su) w = Some c -> (length c < fuel)%nat ->
  match _up_to_date lower hashlib fuel su du cfg mode a w with
  | (w', r) => (forall k, file v k w' = file v k w) /\ r <> Ok None
      /\ (r = Ok (Some true) -> exists d, file v (key du) w = Some d /\ zlen d = zlen c)
  end.
Proof.
  intros Hc Hl. unfold _up_to_date. rewrite st_bind_eq. pose proof (probe_same lower cfg du w) as Hw1.
  destruct (_probe lower du cfg w) as [w1 [theirs|e]] eqn:E1; [|split_and!; [apply Hw1 | done | done]]. rewrite st_bind_eq.
  pose proof (probe_same lower cfg su w1) as Hw2. destruct (_probe lower su cfg w1) as [w2 [ours|e]] eqn:E2; cbn [fst] in *.
  2: { split_and!; [|done|done]. intros k. by rewrite (proj1 Hw2), (proj1 Hw1). }
  assert (Hf : forall k, file v k w2 = file v k w) by (intros k; by rewrite (proj1 Hw2), (proj1 Hw1)).
  destruct theirs as [[n t]|]; [|by split_and!]. destruct ours as [[m u]|]; [|by split_and!].
  apply (probe_size lower (v := v) (key := key)) in E1 as (d & Hd & ->). apply (probe_size lower (v := v) (key := key)) in E2 as (c' & Hc' & ->).
  rewrite (proj1 Hw1), Hc in Hc'. injection Hc' as <-. destruct (Z.eqb_spec (zlen d) (zlen c)) as [Hz|]; [|by split_and!]. cbn [negb].
  destruct mode; [by split_and!; eauto | by split_and!; eauto|]. unfold bind_opt. rewrite st_bind_eq.
  pose proof (digest_same lower hashlib cfg fuel su c a w2 ltac:(by rewrite Hf) Hl) as Hw3.
  destruct (_digest_of _ _ _ su _ _ w2) as [w3 [[x|]|e]]; destruct Hw3 as [Hw3 N3]; [|done|by split_and!; [intros k; by rewrite Hw3, Hf|..]].
  rewrite st_bind_eq. pose proof (digest_same lower hashlib cfg fuel du d a w3 ltac:(by rewrite Hw3, Hf) ltac:(unfold zlen in Hz; lia)) as Hw4.
  destruct (_digest_of _ _ _ du _ _ w3) as [w4 [[y|]|e]]; destruct Hw4 as [Hw4 N4]; [|done|];
    (split_and!; [intros k; by rewrite Hw4, Hw3, Hf | done | by eauto]).
Qed.

Notation move_file := (move_file lower abspath hashlib fuel sc src dst cfg o os_makedirs).

Lemma move_file_ok l rel w :
  (forall rel', rel' ∈ l -> rel' ∈ selected) -> rel ∈ selected -> rel ∉ l -> moved l w ->
  match move_file rel w with
  | (w', Ok (Some d)) => moved (rel :: l) w' /\ (to_sync o = None -> is_Some d)
  | (_, Ok None) => False
  | _ => True
  end.
Proof.
  intros Hl Hs Hn Hm. destruct (selected_there rel Hs) as [c Hc]. destruct (time_enough rel c Hs Hc) as (Hone & Hfuel & Hfuel' & Hfair).
  unfold CopyTree.move_file. rewrite st_bind_eq.
  assert (Hskip : match skips lower hashlib fuel src dst cfg o rel w with
    | (w', r) => (forall k, file v k w' = file v k w) /\ r <> Ok None
        /\ (r = Ok (Some true) -> is_Some (to_sync o) /\ exists d, file v (at_ dst rel) w0 = Some d /\ zlen d = zlen c) end).
  { unfold skips. destruct (to_sync o) as [mode|]; [|by split_and!].
    pose proof (up_to_date_says (url_join lower src [rel]) (url_join lower dst [rel]) mode (tree_algo cfg o) c w
      ltac:(by rewrite (moved_source l)) Hfuel) as Hu.
    destruct (_up_to_date _ _ _ _ _ _ _ _ w) as [w' r]. destruct Hu as (Hu1 & Hu2 & Hu3). split_and!; [done | done|].
    rewrite (moved_target l rel w) in Hu3 by done. by eauto. }
  destruct (skips _ _ _ _ _ _ _ _ w) as [w1 [[[]|]|e]]; destruct Hskip as (Hf1 & Hn1 & Ht1); [| |done|done].
  { destruct (Ht1 eq_refl) as (Hsync & d & Hd & Hz). cbn. split; [|by intros E; rewrite E in Hsync; destruct Hsync].
    apply (moved_more l rel w); [done..| |]; [|by intros k _; apply Hf1]. right. split; [done|]. rewrite Hf1.
    split; [by apply (moved_target l) | by exists c, d]. }
  rewrite st_bind_eq.
  assert (Hmk : forall k, file v k (make_parent o os_makedirs (url_join lower dst [rel]) w1).1 = file v k w).
  { intros k. unfold make_parent. destruct (_ && _); [|by apply Hf1]. rewrite (proj1 (lb_makedirs _ _)). by apply Hf1. }
  destruct (make_parent _ _ _ w1) as [w2 [[]|e]]; [|done]. cbn [fst] in Hmk. rewrite st_bind_eq.
  apply (moved_files _ _ _ Hmk) in Hm. destruct for_real as [Hdry Hrm].
  pose proof (copy_between lower abspath hashlib (Url (url_join lower src [rel])) (Url (url_join lower dst [rel])) (to_copy o) cfg (sc rel)
    (url_join lower src [rel]) (url_join lower dst [rel]) eq_refl eq_refl
    ltac:(intros E; apply (source_outside rel Hs); rewrite E; by apply lb_below, selected_plain) w2 c
    ltac:(by rewrite (moved_source l)) ltac:(intros Hres d; rewrite (moved_target l rel w2) by done; by apply (resumable Hres rel))
    Hdry Hrm chunk_positive Hone Hfuel' Hfair) as Hcopy.
  destruct (Copy.copy _ _ _ _ _ _ _ _ w2) as [w3 [[r|]|e]]; [|done|done]. destruct Hcopy as (Ht & Ho & _).
  cbn. split; [|by intros _]. apply (moved_more l rel w2); [done..| |done]. left. by rewrite Ht.
Qed.

(** *** One after another *)

Lemma moved_perm l l' w : l ≡ₚ l' -> moved l w -> moved l' w.
Proof.
  intros Hp [Ha Hk]. split.
  - intros rel Hr. apply Ha. by rewrite Hp.
  - intros k Hl. apply Hk. intros rel Hr. apply Hl. by rewrite <- Hp.
Qed.

Lemma one_by_one_ok wanted l w :
  NoDup (wanted ++ l) -> (forall rel, rel ∈ wanted ++ l -> rel ∈ selected) -> moved l w ->
  match one_by_one lower abspath hashlib fuel sc src dst cfg o wanted w with
  | (w', Ok (Some rs)) => moved (wanted ++ l) w' /\ (to_sync o = None -> length rs = length wanted)
  | (_, Ok None) => False
  | _ => True
  end.
Proof.
  revert l w. induction wanted as [|rel wanted IH]; intros l w Hnd Hs Hm; [done|]. cbn [one_by_one]. rewrite st_bind_eq.
  assert (Hperm : rel :: wanted ++ l ≡ₚ wanted ++ rel :: l) by (by rewrite Permutation_middle).
  pose proof (move_file_ok l rel w) as Hf. cbn in Hnd. apply NoDup_cons in Hnd as [Hni Hnd]. apply not_elem_of_app in Hni as [Hn1 Hn2].
  assert (Hl : forall rel', rel' ∈ l -> rel' ∈ selected) by (intros rel' Hr; apply Hs; right; apply elem_of_app; by right).
  specialize (Hf Hl (Hs rel ltac:(left)) Hn2 Hm). destruct (move_file rel w) as [w1 [[d|]|e]]; [|done|done].
  destruct Hf as [Hm1 Hd]. rewrite st_bind_eq.
  specialize (IH (rel :: l) w1). rewrite <- Hperm in IH. specialize (IH ltac:(apply NoDup_cons; split; [by apply not_elem_of_app | done])).
  specialize (IH ltac:(intros rel'; rewrite <- Hperm; apply Hs) Hm1).
  destruct (one_by_one _ _ _ _ _ _ _ _ _ wanted w1) as [w2 [[rs|]|e]]; [|done|done]. destruct IH as [Hm2 Hlen]. cbn. split.
  - by apply (moved_perm (wanted ++ rel :: l)).
  - intros Hsync. destruct (Hd Hsync) as [r ->]. cbn. by rewrite Hlen.
Qed.

(** *** Deleting *)

Lemma remove_ok u w : match _remove lower u cfg w with (w', Ok _) => removed u w w' | _ => True end.
Proof.
  unfold _remove. destruct (is_local u) eqn:El; [by apply lb_os_remove|]. unfold with_fs.
  pose proof (st_enter (lower := lower) (v := v) (with_path lower u [0x2F]) cfg w) as He.
  destruct (fs_enter _ _ w) as [w1 [fs|e]] eqn:E; [|done]. cbn [fst] in He. pose proof (lb_fs_remove u cfg fs w w1 El E) as Hr.
  destruct (fs_remove _ _ w1) as [w2 [[]|e]]; [|by destruct (fs_exit fs w2) as [? [|]]].
  pose proof (st_exit (lower := lower) (v := v) fs w2) as Hx. destruct (fs_exit fs w2) as [w3 [[]|e]]; [|done]. cbn [fst] in Hx.
  destruct Hr as [Hn Ho]. split; [by rewrite (proj1 Hx)|]. intros k Hk. by rewrite (proj1 Hx), (Ho k Hk), (proj1 He).
Qed.

(** Reading directories leaves what is said of files alone. *)
Lemma quiet_files (P : W -> Prop) : (forall w w', (forall k, file v k w' = file v k w) -> P w -> P w') -> quiet cfg P.
Proof.
  intros Hp. split_and!; [intros g w | intros u w | intros fs w]; apply Hp; intros k.
  - apply (lb_next g w).
  - apply (st_enter (lower := lower) u cfg w).
  - apply (st_exit (lower := lower) fs w).
Qed.

Section Prune.
(** The tree when the walk over the target begins. *)
Variable w1 : W.

(** Half way through the target: what is wanted is there, and what is there
    is wanted or still to come. *)
Definition pruned (l : list str) (w : W) : Prop :=
  NoDup l /\ Forall plain l
  /\ (forall k, ~ below dst k -> file v k w = file v k w1)
  /\ (forall rel, rel ∈ selected -> file v (at_ dst rel) w = file v (at_ dst rel) w1)
  /\ (forall k, below dst k -> is_Some (file v k w) -> exists rel, (rel ∈ selected \/ rel ∈ l) /\ k = at_ dst rel).

Lemma pruned_files l w w' : (forall k, file v k w' = file v k w) -> pruned l w -> pruned l w'.
Proof.
  intros Hs (Hn & Hp & Ho & Hk & Hi). split_and!; [done | done | | |].
  - intros k. rewrite Hs. apply Ho.
  - intros rel. rewrite Hs. apply Hk.
  - intros k. rewrite Hs. apply Hi.
Qed.

Lemma prune_one_ok rel l acc w :
  awaiting dst w1 (rel :: l) w /\ pruned (rel :: l) w ->
  match prune_one lower dst cfg selected false rel acc w with
  | (w', Ok acc') => (awaiting dst w1 l w' /\ pruned l w') /\ acc' = (if bool_decide (rel ∈ selected) then acc else acc ++ [rel])
  | _ => True
  end.
Proof.
  intros [Haw (Hn & Hp & Ho & Hk & Hi)]. apply NoDup_cons in Hn as [Hnl Hn]. apply Forall_cons in Hp as [Hpr Hp].
  unfold prune_one. case_bool_decide as Hin.
  { cbn. split; [|done]. split; [by intros rel' Hr'; apply Haw; right|]. split_and!; [done..|].
    intros k Hb Hf. destruct (Hi k Hb Hf) as (rel' & [Hr'|[->|Hr']%elem_of_cons] & ->); eauto. }
  rewrite st_bind_eq. pose proof (remove_ok (url_join lower dst [rel]) w) as Hr. destruct (_remove _ _ _ w) as [w' [[]|e]]; [|done].
  destruct Hr as [Hgone Hr]. cbn. split; [|done].
  assert (Hl : forall rel', plain rel' -> rel' <> rel -> at_ dst rel' <> at_ dst rel) by (intros rel' Hp' Hne E; by apply Hne, lb_apart).
  rewrite Forall_forall in Hp. split; [|split_and!; [done | by apply Forall_forall | | |]].
  - intros rel' Hr'. rewrite Hr; [by apply Haw; right|]. apply Hl; [by apply Hp | by intros ->].
  - intros k Hb. rewrite Hr; [by apply Ho|]. intros ->. by apply Hb, lb_below.
  - intros rel' Hs. rewrite Hr; [by apply Hk|]. apply Hl; [by apply selected_plain | by intros ->].
  - intros k Hb Hf. assert (Hne : k <> at_ dst rel) by (intros ->; rewrite Hgone in Hf; by destruct Hf).
    rewrite Hr in Hf by done. destruct (Hi k Hb Hf) as (rel' & [Hr'|[->|Hr']%elem_of_cons] & ->); [by eauto | done | by eauto].
Qed.

Lemma prune_ok there :
  listing dst there w1 ->
  match _prune lower abspath fuel dst cfg selected false w1 with
  | (w', Ok (Some _)) => pruned [] w'
  | (_, Ok None) => False
  | _ => True
  end.
Proof.
  intros (Hnd & Hpl & He & Hthere & Hall). unfold _prune.
  apply (enumerates_and lower abspath fuel cfg dst _ _ pruned _ (fun l => quiet_files _ (pruned_files l))) in He.
  pose proof (walk_exact lower abspath fuel cfg dst _ _ (fun acc rel => if bool_decide (rel ∈ selected) then acc else acc ++ [rel])
    prune_one_ok _ there [] w1 He) as Hw.
  assert (Hstart : pruned there w1).
  { split_and!; [done..|]. intros k Hb Hf. destruct (Hall k Hb Hf) as (rel & Hr & ->). eauto. }
  specialize (Hw (conj eq_refl Hstart)). destruct (CopyTree._walk _ _ _ _ _ _ _ _) as [w' [[l|]|e]]; [|done|done].
  by destruct Hw as [[_ Hpr] _].
Qed.
End Prune.

(** *** All of it *)

Definition chosen (l : list str) (rel : str) : list str := if _selected rel (to_include o) (to_exclude o) then l ++ [rel] else l.

Lemma chosen_all (acc l : list str) :
  foldl chosen acc l = acc ++ filter (fun rel => _selected rel (to_include o) (to_exclude o) = true) l.
Proof.
  revert acc. induction l as [|rel l IH]; intros acc; [by rewrite app_nil_r|]. cbn [foldl]. rewrite IH, filter_cons. unfold chosen.
  destruct (_selected _ _ _); [|done]. cbn. by rewrite <- app_assoc.
Qed.

Lemma wanted_files_ok :
  match wanted_files lower abspath fuel src cfg o w0 with
  | (w', Ok (Some l)) => (forall k, file v k w' = file v k w0) /\ l = selected
  | (_, Ok None) => False
  | _ => True
  end.
Proof.
  destruct source_listing as (_ & _ & He & _). unfold wanted_files.
  apply (enumerates_and lower abspath fuel cfg src _ _ (fun _ w => forall k, file v k w = file v k w0)) in He.
  2: { intros _. apply quiet_files. intros w w' Hs Hw k. by rewrite Hs. }
  pose proof (walk_exact lower abspath fuel cfg src (fun l w => awaiting src w0 l w /\ forall k, file v k w = file v k w0)
    (fun rel l => mret (if _selected rel (to_include o) (to_exclude o) then l ++ [rel] else l)) chosen) as Hw.
  specialize (Hw ltac:(intros n l acc w [Ha Hs]; split; [split; [intros r Hr; apply Ha; by right | done] | done]) _ names [] w0 He).
  specialize (Hw (conj eq_refl (fun _ => eq_refl))). destruct (CopyTree._walk _ _ _ _ _ _ _ _) as [w' [[l|]|e]]; [|done|done].
  destruct Hw as [[_ Hs] ->]. split; [done|]. by rewrite chosen_all.
Qed.

End Complete.
