(* ===== verification/CopyTreeMemory.v ===== *)
(** * A small tree in memory

    A source directory of three files and a target that may hold a few, in the
    store of [CopyMemory]: the contract the tree copy is proved against holds
    of it, and the copy is run on it, one file after another and several at a
    time. *)

From S2P Require Import Prelude PyStr Errors Responses ConfigFile Url UrlText Checksum FileClient Glob Copy CopyAhead CopyProps CopyTree CopyMemory CopyTreeProps.
From Stdlib Require Import QArith.
Open Scope Z_scope.

Import Copy CopyTree.

Definition tree_src : XRootDURL := near (s_ "/s").
Definition tree_dst : XRootDURL := near (s_ "/t").
Definition tree_names : list str := [s_ "a.root"; s_ "b.tmp"; s_ "d/c.root"].
(** The names there may be in a directory, and where they are. *)
Definition tree_plain : list str := tree_names ++ [s_ "old"].
Definition tree_key (url : XRootDURL) (rel : str) : str := key_of (url_join id url [rel]).
Definition tree_below (url : XRootDURL) (k : str) : Prop := k ∈ tree_key url <$> tree_plain.
Definition target_names (w : mem) : list str := filter (fun rel => is_Some (dict_get (tree_key tree_dst rel) (mm_files w))) tree_plain.

(** The directories a walk has still to visit. *)
Inductive tree_gen := Dirs (l : list (str * list str)) | AtTarget.
#[export] Instance mem_tree : TreeEnv str tree_gen mem := {
  os_walk path :=
    if bool_decide (path = s_ "/s") then Dirs [(s_ "/s", [s_ "a.root"; s_ "b.tmp"]); (s_ "/s/d", [s_ "c.root"])] else AtTarget;
  fs_walk _ _ := Dirs [];
  walk_next g w :=
    (w, Ok (match g with
            | Dirs [] => None
            | Dirs (d :: l) => Some (d, Dirs l)
            | AtTarget => Some ((s_ "/t", target_names w), Dirs [])
            end));
  os_makedirs _ w := (w, Ok tt)
}.

Definition tree_demo : tree_options :=
  mkTree [] [s_ "*.tmp"] None true None (mkOptions (Some 5) None None true true false false false).
Definition tree_schedule (_ : str) : schedule := mkSchedule 14 (concat (replicate 300 [Reader; Reader; Loop])) [].
Definition cluttered : mem := mkMem
  [(s_ "/s/a.root", hello); (s_ "/s/b.tmp", b_ "x"); (s_ "/s/d/c.root", b_ "leaf"); (s_ "/t/old", b_ "x"); (s_ "/t/a.root", b_ "stale")] [] [].

Lemma tree_selected : selected tree_demo tree_names = [s_ "a.root"; s_ "d/c.root"].
Proof. by vm_compute. Qed.

#[export] Instance mem_library : Library id tree_dst (key := key_of) (v := view) tree_below (fun rel => rel ∈ tree_plain).
Proof.
  split.
  - by intros g w.
  - by intros path w.
  - intros u w Hl. cbn. rewrite <- (key_local u Hl). split; cbn; [by rewrite dict_get_pop_eq|]. intros k Hk. by rewrite dict_get_pop_ne.
  - intros u config fs w w' Hl [= <- <-]. cbn. rewrite <- (key_remote u Hl).
    split; cbn; [by rewrite dict_get_pop_eq|]. intros k Hk. by rewrite dict_get_pop_ne.
  - intros rel Hr. by apply (list_elem_of_fmap_2 (tree_key tree_dst)).
  - intros rel rel' H1 H2. repeat (apply elem_of_cons in H1 as [->|H1]); [..|by apply elem_of_nil in H1];
      repeat (apply elem_of_cons in H2 as [->|H2]); try (by apply elem_of_nil in H2); by vm_compute.
Qed.

(** What the walk makes of a name in a directory. *)
Definition under_dir (rel name : str) : str := if decide (rel = s_ ".") then name else path_join rel [name].

Notation tree_awaiting := (awaiting id (key := key_of) (v := view)).

Lemma awaiting_later url w0 n l w : tree_awaiting url w0 (n ++ l) w -> tree_awaiting url w0 l w.
Proof. intros Ha rel Hr. apply Ha. apply elem_of_app. by right. Qed.

Lemma tree_walk :
  Walks id tree_src (tree_awaiting tree_src cluttered) 2 (os_walk (s_ "/s")) (eq cluttered) tree_names.
Proof.
  change (os_walk (s_ "/s")) with (Dirs [(s_ "/s", [s_ "a.root"; s_ "b.tmp"]); (s_ "/s/d", [s_ "c.root"])]).
  change tree_names with ((under_dir (s_ ".") <$> [s_ "a.root"; s_ "b.tmp"]) ++ (under_dir (s_ "d") <$> [s_ "c.root"]) ++ []).
  eapply walks_dir with (root := s_ "/s"); [reflexivity | by intros ? <- | intros w Hw; exact Hw|].
  eapply walks_dir with (root := s_ "/s/d"); [reflexivity | by intros w Hw | intros w Hw; exact Hw|].
  by constructor.
Qed.

Lemma target_walk w0 :
  Walks id tree_dst (tree_awaiting tree_dst w0) 1 (os_walk (s_ "/t")) (eq w0) (target_names w0).
Proof.
  replace (target_names w0) with ((under_dir (s_ ".") <$> target_names w0) ++ []) by (rewrite app_nil_r; apply list_fmap_id).
  change (os_walk (s_ "/t")) with AtTarget.
  eapply walks_dir with (root := s_ "/t"); [reflexivity | | intros w Hw; exact Hw|]; [by intros ? <- | by constructor].
Qed.

Notation tree_listing := (listing id id 20 one_stream (key := key_of) (v := view) tree_below (fun rel => rel ∈ tree_plain)).

Lemma tree_names_plain : Forall (fun rel => rel ∈ tree_plain) tree_names.
Proof. decided. Qed.

Lemma source_listed : tree_listing tree_src tree_names cluttered.
Proof.
  split_and!; [decided | apply tree_names_plain | exists 2%nat; split; [lia | apply tree_walk] | |].
  - intros rel Hr. repeat (apply elem_of_cons in Hr as [->|Hr]); [by eexists..|by apply elem_of_nil in Hr].
  - intros k (rel & -> & Hr)%list_elem_of_fmap Hf. repeat (apply elem_of_cons in Hr as [->|Hr]); [..|by apply elem_of_nil in Hr].
    + exists (s_ "a.root"). split; [left | done].
    + exists (s_ "b.tmp"). split; [right; left | done].
    + exists (s_ "d/c.root"). split; [do 2 right; left | done].
    + by destruct Hf.
Qed.

Lemma target_listed w : tree_listing tree_dst (target_names w) w.
Proof.
  split_and!.
  - apply NoDup_filter. decided.
  - apply Forall_forall. by intros rel [_ Hr]%list_elem_of_filter.
  - exists 1%nat. split; [lia | apply target_walk].
  - by intros rel [Hr _]%list_elem_of_filter.
  - intros k (rel & -> & Hr)%list_elem_of_fmap Hf. exists rel. split; [|done]. by apply list_elem_of_filter.
Qed.

Lemma tree_outside rel : rel ∈ selected tree_demo tree_names -> ~ tree_below tree_dst (tree_key tree_src rel).
Proof.
  rewrite tree_selected. intros Hr. repeat (apply elem_of_cons in Hr as [->|Hr]); [..|by apply elem_of_nil in Hr];
    intros (rel' & E & Hr')%list_elem_of_fmap; repeat (apply elem_of_cons in Hr' as [->|Hr']); try (by apply elem_of_nil in Hr'); by vm_compute in E.
Qed.

Lemma tree_time rel c :
  rel ∈ selected tree_demo tree_names -> dict_get (tree_key tree_src rel) (mm_files cluttered) = Some c ->
  Z.min (c_parallel_chunks one_stream) (zlen c / 5) <= 1 /\ (length c < 20)%nat /\ (length c < sc_fuel (tree_schedule rel))%nat
  /\ exists segs, sc_ahead (tree_schedule rel) = concat segs /\ Forall fair segs
       /\ (120 + room (c_in_flight one_stream) + 10 * length c < length segs)%nat.
Proof.
  rewrite tree_selected. intros Hr Hc. assert (Hl : (length c <= 12)%nat).
  { repeat (apply elem_of_cons in Hr as [->|Hr]); [..|by apply elem_of_nil in Hr]; injection Hc as <-; vm_compute; lia. }
  split_and!; [cbn [c_parallel_chunks one_stream]; lia | lia | cbn [sc_fuel tree_schedule]; lia|].
  exists (replicate 300 [Reader; Reader; Loop]). split_and!; [done | apply Forall_replicate, CopyMemory.fair_round|].
  rewrite length_replicate. assert (room (c_in_flight one_stream) <= 30)%nat by (vm_compute; lia). lia.
Qed.

Local Notation tree_run :=
  (copy_tree id id (fun _ b => b) 20 tree_schedule [] (Url tree_src) (Url tree_dst) one_stream tree_demo cluttered).

Lemma tree_run_ends : match tree_run.2 with Ok (Some rs) => length rs = 2%nat | _ => False end.
Proof. by vm_compute. Qed.


(** The same with two workers, whose reads and writes alternate: the callback
    hears of the tree. *)
Definition two_workers : tree_options :=
  mkTree [] [s_ "*.tmp"] None true (Some 2) (to_copy tree_demo).
Lemma tree_interleaved :
  match copy_tree id id (fun _ b => b) 20 tree_schedule (concat (replicate 60 [Take; Go 1; Go 0]))
          (Url tree_src) (Url tree_dst) one_stream two_workers cluttered with
  | (w, Ok (Some rs)) =>
      length rs = 2%nat /\ mm_reports w = [4; 9; 14; 16] /\ dict_get (s_ "/t/a.root") (mm_files w) = Some hello
      /\ dict_get (s_ "/t/d/c.root") (mm_files w) = Some (b_ "leaf")
      /\ mm_open w = [(s_ "/s/a.root", 12); (s_ "/s/d/c.root", 4); (s_ "/t/a.root", 12); (s_ "/t/d/c.root", 4)]
  | _ => False
  end.
Proof. by vm_compute. Qed.

(** ** Tasks of several steps

    Counters, each with a register of its own; the second one gives up. *)

Definition counter_step (t : nat * nat) : st exn (list Z) ((nat * nat) + Z) := fun w =>
  match w !! t.1, t.2 with
  | None, _ => (w, Err IndexError)
  | Some v, O => (w, if v =? 0 then Err ValueError else Ok (inr v))
  | Some v, S n => (<[t.1 := v + v]> w, Ok (inl (t.1, n)))
  end.
Definition counter_own (i : nat) (w : list Z) : option Z := w !! i.
Definition counter_local (t : nat * nat) (v : option Z) : option Z * res ((nat * nat) + Z) :=
  match v, t.2 with
  | None, _ => (v, Err IndexError)
  | Some x, O => (v, if x =? 0 then Err ValueError else Ok (inr x))
  | Some x, S n => (Some (x + x), Ok (inl (t.1, n)))
  end.

Lemma counter_ends t w w' t' : counter_step t w = (w', Ok (inl t')) -> (t'.2 < t.2)%nat.
Proof.
  unfold counter_step. destruct t as [i [|n]]; cbn; destruct (w !! i) as [v|]; try done; [by destruct (v =? 0)|].
  intros [= _ <-]. cbn. lia.
Qed.

Lemma counter_alone t w w' r :
  counter_step t w = (w', r) ->
  counter_local t (counter_own t.1 w) = (counter_own t.1 w', r)
  /\ (forall j, j <> t.1 -> counter_own j w' = counter_own j w) /\ (forall t', r = Ok (inl t') -> t'.1 = t.1).
Proof.
  unfold counter_step, counter_local, counter_own. destruct t as [i n]. cbn. destruct (w !! i) as [v|] eqn:E; destruct n as [|n].
  - intros [= <- <-]. rewrite E. split_and!; [done..|]. by destruct (v =? 0).
  - intros [= <- <-]. rewrite list_lookup_insert_eq by (by eapply lookup_lt_Some). split_and!; [done| |by intros ? [= <-]].
    intros j Hj. by rewrite list_lookup_insert_ne.
  - intros [= <- <-]. by rewrite E.
  - intros [= <- <-]. by rewrite E.
Qed.

Definition counters : list (nat * nat) := [(0, 2); (1, 1); (2, 1)]%nat.
Lemma counter_round : fair_round (length counters) [Go 0; Take; Go 2; Go 1; Go 0].
Proof. exists [Go 0], [Go 2; Go 1; Go 0]. split; [done|]. intros [|[|[|i]]] Hi; [right; right; left | right; left | left | cbn in Hi; lia]. Qed.

Local Notation counting_run := (_in_order counter_step 2 (concat (replicate 10 [Go 0; Take; Go 2; Go 1; Go 0])) counters).

Lemma counting_ends : counting_run [5; 7; 9] = ([20; 14; 18], Ok (Some [20; 14; 18])).
Proof. by vm_compute. Qed.
Lemma counting_fails : counting_run [5; 0; 9] = ([20; 0; 18], Err ValueError).
Proof. by vm_compute. Qed.

Lemma in_order_alone_witness :
  Forall2 (fun t a => alone counter_local t ([5; 7; 9] !! t.1) ([20; 14; 18] !! t.1) (Ok a)) counters [20; 14; 18]
  /\ exists i t, counters !! i = Some t /\ alone counter_local t ([5; 0; 9] !! t.1) ([20; 0; 18] !! t.1) (Err ValueError).
Proof.
  assert (Hf : Forall (fair_round (length counters)) (replicate 10 [Go 0; Take; Go 2; Go 1; Go 0])) by apply Forall_replicate, counter_round.
  pose proof (fun w => in_order_alone counter_step snd counter_ends fst counter_own counter_local counter_alone 2
    (replicate 10 [Go 0; Take; Go 2; Go 1; Go 0]) counters w ltac:(lia) ltac:(decided) Hf ltac:(cbn; lia)) as Hi.
  split.
  - specialize (Hi [5; 7; 9]). rewrite counting_ends in Hi. exact Hi.
  - specialize (Hi [5; 0; 9]). rewrite counting_fails in Hi. destruct Hi as [(i & t & Ht & Ha & _) _]. by exists i, t.
Defined.
