(* ===== verification/Path.v ===== *)
(** * Remote paths

    src/xrd/path.py: [XRootDPath], the [pathlib] face of the file system
    client. A path is its URL, its configuration and the file system it talks
    through, which is made on first use and handed to every path derived from
    it. A method is a function of the path and the world behind the router; a
    generator is the list it yields, or takes the body of the loop over it.
    Comparison, hashing, [repr] and the whole-file conveniences are left out.

    Two theorems: the parents of a path are its prefixes, shortest last; and
    whatever is done with a path, everything derived from it talks over the
    one router it came to have. *)

From S2P Require Import Prelude PyStr Errors Responses ConfigFile Url UrlText Flags FileClient Glob FileSystem Copy CopyTree.
Open Scope Z_scope.

Module Path.

Record XRootDPath (R : Type) := mkPath { p_url : XRootDURL; p_config : Config; p_fs : option (FileSystem.FileSystem R) }.
Arguments mkPath {R}.
Arguments p_url {R}.
Arguments p_config {R}.
Arguments p_fs {R}.

(** [posixpath.splitext]: the last dot of the last component begins the
    suffix, unless only dots come before it. *)
Definition splitext (p : str) : str * str :=
  match rpartition 0x2E p with
  | (h, true, t) =>
      if negb (contains 0x2F t) && existsb (fun c => negb (c =? 0x2E)) (basename h) then (h, 0x2E :: t) else (p, [])
  | _ => (p, [])
  end.

Section Path.
Context {R W : Type} `{RouterEnv R W}.
(** [str.upper], [str.lower], [os.path.abspath]; what [Config()] makes. *)
Variable upper lower : str -> str.
Variable abspath : str -> str.
Variable new_config : Config.

Notation P := (XRootDPath R).
Notation FS := (FileSystem.FileSystem R).
Notation M := (st exn (P * W)).

Definition path (p : P) : str := u_path (p_url p).

(** ** The file system behind a path *)

(** [self.fs]. *)
Definition fs : M FS := fun '(p, w) =>
  match p_fs p with
  | Some f => ((p, w), Ok f)
  | None =>
      let '(f, w) := FileSystem.FileSystem_init (with_path lower (p_url p) [0x2F]) (p_config p) w in
      ((mkPath (p_url p) (p_config p) (Some f), w), Ok f)
  end.

(** A call on it. *)
Definition call {A} (c : FS -> st exn W A) : M A :=
  f ← fs; fun '(p, w) => let '(w, r) := c f w in ((p, w), r).

(** [XRootDPath(url, config)] of a text, a URL, and another path. *)
Definition from_url (u : XRootDURL) (config : option Config) : P := mkPath u (default new_config config) None.
Definition from_text (text : str) (config : option Config) : res P := u ← parse lower abspath text; Ok (from_url u config).
Definition from_path (config : option Config) (same : bool) : M P :=
  s ← get;
  let p := s.1 in
  match config with
  | None => f ← fs; mret (mkPath (p_url p) (p_config p) (Some f))
  | Some c => if same then f ← fs; mret (mkPath (p_url p) c (Some f)) else mret (mkPath (p_url p) c None)
  end.

(** Another path on the same endpoint, sharing this one's connection. *)
Definition _derive (to : str) : M P :=
  s ← get; f ← fs; mret (mkPath (with_path lower (p_url s.1) to) (p_config s.1) (Some f)).

(** ** Pure paths *)

Definition name (p : P) : str := basename (rstrip_by is_slash (path p)).
Definition stem (p : P) : str := (splitext (name p)).1.
Definition suffix (p : P) : str := (splitext (name p)).2.
Definition suffixes (p : P) : list str := cons 0x2E <$> tail (split_all 0x2E (lstrip_by (fun c => c =? 0x2E) (name p))).
Definition parts (p : P) : list str := filter (fun c => c <> []) (split_all 0x2F (path p)).

Definition parent_path (p : P) : str := match dirname (rstrip_by is_slash (path p)) with [] => [0x2F] | d => d end.
Definition parent : M P := s ← get; _derive (parent_path s.1).

(** What a method does to the path it is called on, from another. *)
Definition on {A} (c : M A) (p : P) : st exn W (A * P) := fun w =>
  match c (p, w) with ((p, w), Ok a) => (w, Ok (a, p)) | ((_, w), Err e) => (w, Err e) end.

Definition at_top (p : P) : bool := bool_decide (path p ∈ [[0x2F]; []]).

(** [while node._url.path not in ("/", "")]: one turn per component. *)
Fixpoint parents_loop (fuel : nat) (node : P) : st exn W (option (list P)) :=
  if at_top node then mret (Some []) else
  match fuel with
  | O => mret None
  | S fuel =>
      '(up, _) ← on parent node;
      above ← parents_loop fuel up;
      mret (cons up <$> above)
  end.
Definition parents : M (option (list P)) := fun '(p, w) =>
  if at_top p then ((p, w), Ok (Some [])) else
  match parent (p, w) with
  | ((p, w), Ok up) =>
      match parents_loop (length (path p)) up w with
      | (w, Ok above) => ((p, w), Ok (cons up <$> above))
      | (w, Err e) => ((p, w), Err e)
      end
  | (s, Err e) => (s, Err e)
  end.

Definition anchor (p : P) : res str := url_str (with_path lower (p_url p) [0x2F]).
Definition is_absolute (p : P) : bool := startswith [0x2F] (path p).

Definition with_name (new : str) : M P := s ← get; _derive (path_join (dirname (rstrip_by is_slash (path s.1))) [new]).
Definition with_suffix (new : str) : M P := s ← get; with_name (stem s.1 ++ new).
Definition with_stem (new : str) : M P := s ← get; with_name (new ++ suffix s.1).
Definition joinpath (ps : list str) : M P := s ← get; _derive (path_join (path s.1) ps).
Definition truediv (other : str) : M P := joinpath [other].
Definition rtruediv (other : str) (p : P) : st exn W P :=
  r ← on (truediv (lstrip_by is_slash (path p))) (from_url (with_path lower (p_url p) other) (Some (p_config p))); mret r.1.
(** The other path by its own path, or a text. *)
Definition relative_to (other : str) (p : P) : res str := CopyTree.relpath abspath (path p) other.

(** ** On the server *)

Definition here {A} (c : FS -> str -> st exn W A) : M A := s ← get; call (fun f => c f (path s.1)).

Definition stat (follow_symlinks : bool) : M StatInfo := here (fun f p => FileSystem.stat f p follow_symlinks).
Definition lstat : M StatInfo := here FileSystem.lstat.
Definition is_symlink : M bool := here FileSystem.is_symlink.
Definition exists_ : M bool := here FileSystem.exists_.
Definition is_dir : M bool := here FileSystem.isdir.
Definition is_file : M bool := here FileSystem.isfile.

(** [for x in l: yield f(x)]. *)
Fixpoint yields {A} (f : A -> M P) (l : list A) : M (list P) :=
  match l with [] => mret [] | a :: l => p ← f a; ps ← yields f l; mret (p :: ps) end.

Definition iterdir : M (list P) :=
  es ← here (fun f p => FileSystem.scandir upper lower f p true false [] None); yields (fun e => truediv (de_name e)) es.

(** A path on the same endpoint, when the connection is already there. *)
Definition derived (p : P) (f : FS) (to : str) : P := mkPath (with_path lower (p_url p) to) (p_config p) (Some f).

Definition glob (fuel : nat) (pattern : str) (body : P -> st exn W unit) : M (option unit) :=
  s ← get; call (fun f => FileSystem.glob upper lower fuel f pattern (path s.1) (fun found => body (derived s.1 f found))).
Definition rglob (fuel : nat) (pattern : str) (body : P -> st exn W unit) : M (option unit) := glob fuel (s_ "**/" ++ pattern) body.
Definition walk (fuel : nat) (top_down : bool) (body : P -> list str -> list str -> st exn W (list str)) : M (option unit) :=
  s ← get; call (fun f => FileSystem.walk upper lower fuel f top_down None (fun root => body (derived s.1 f root)) (path s.1)).

Definition mkdir (mode : Flags.spelled) (parents exist_ok : bool) : M unit := here (fun f p => FileSystem.mkdir upper f p mode parents exist_ok).
Definition rmdir : M unit := here FileSystem.rmdir.
Definition unlink (missing_ok : bool) : M unit :=
  here (fun f p => FileSystem.try_ (FileSystem.remove f p) (fun e => if FileSystem.is_not_found e && missing_ok then mret tt else raise e)).
(** Of the target, only the path counts. *)
Definition rename (destination : str) : M P := here (fun f p => FileSystem.rename f p destination) ≫= fun _ => _derive destination.
Definition chmod (mode : Flags.spelled) : M unit := here (fun f p => FileSystem.chmod upper f p mode).
(** The mode is not passed on. *)
Definition touch (exist_ok : bool) : M unit := here (fun f p => FileSystem.touch upper lower f p exist_ok).
Definition checksum (algorithm : option str) : M ChecksumInfo := here (fun f p => FileSystem.checksum lower f p algorithm).
Definition locate : M (list LocationInfo) := here (fun f p => FileSystem.locate_ upper f p false false false false None).

Definition close : M unit := fun '(p, w) =>
  match p_fs p with
  | None => ((p, w), Ok tt)
  | Some f => let '(w, r) := FileSystem.close f w in
              match r with Ok _ => ((mkPath (p_url p) (p_config p) None, w), Ok tt) | Err e => ((p, w), Err e) end
  end.
End Path.

(** ** Names *)

(** A name is its stem and its suffix. *)
Lemma stem_suffix {R} (p : XRootDPath R) : stem p ++ suffix p = name p.
Proof.
  unfold stem, suffix, splitext, rpartition. destruct (partition 0x2E (reverse (name p))) as [[t f] h] eqn:E.
  destruct f; [|by apply app_nil_r]. destruct (_ && _); [|by apply app_nil_r]. cbn [fst snd].
  apply partition_spec in E as [_ E]. apply (f_equal reverse) in E. rewrite reverse_involutive in E.
  rewrite E, reverse_app, reverse_cons, <- app_assoc. done.
Qed.

(** ** Parents *)

Lemma rooted_last cs c : cs <> [] -> rooted (cs ++ [c]) = rooted cs ++ 0x2F :: c.
Proof.
  intros Hcs. unfold rooted. rewrite <- app_comm_cons. f_equal. induction cs as [|d cs IH]; [done|]. destruct cs as [|e cs]; [done|].
  rewrite <- app_comm_cons, !join_cons. cbn [app] in *. rewrite IH by done. by rewrite <- app_assoc.
Qed.

Lemma rstrip_rooted comps : Forall plain_component comps -> comps <> [] -> rstrip_by is_slash (rooted comps) = rooted comps.
Proof.
  intros Hc Hn. pose proof (rooted_ends comps Hc Hn) as He. assert (Hr : rooted comps <> []) by done.
  destruct (exists_last Hr) as (l & x & E). rewrite E in *. rewrite endswith_snoc in He. apply bool_decide_eq_false in He.
  rewrite rstrip_snoc. unfold is_slash. destruct (Z.eqb_spec x 0x2F); [by subst | done].
Qed.

Lemma dirname_rooted cs c : Forall plain_component (cs ++ [c]) -> dirname (rooted (cs ++ [c])) = rooted cs.
Proof.
  intros Hc. apply Forall_app in Hc as [Hcs [(_ & _ & _ & Hs) _]%Forall_cons]. unfold dirname.
  destruct (decide (cs = [])) as [->|Hn].
  - change (rooted ([] ++ [c])) with ([] ++ 0x2F :: c). by rewrite rpartition_app.
  - rewrite rooted_last by done. rewrite rpartition_app by done. cbv zeta.
    assert (lstrip_by is_slash (rooted cs ++ [0x2F]) <> []) as Hl.
    { unfold rooted. cbn. destruct cs as [|d cs]; [done|]. apply Forall_cons in Hcs as [(Hd & _ & _ & Hds) _]. destruct d as [|x d]; [done|].
      rewrite not_elem_of_cons in Hds. rewrite join_cons. assert (is_slash x = false) as Hx by (unfold is_slash; apply Z.eqb_neq; naive_solver).
      destruct cs; cbn; by rewrite Hx. }
    destruct (lstrip_by is_slash (rooted cs ++ [0x2F])); [done|]. rewrite rstrip_snoc. by apply rstrip_rooted.
Qed.

(** The prefixes of a list of components, the longest first. *)
Definition prefixes (comps : list str) : list str := (fun n => rooted (take n comps)) <$> reverse (seq 0 (length comps)).

Lemma prefixes_snoc cs c : prefixes (cs ++ [c]) = rooted cs :: prefixes cs.
Proof.
  unfold prefixes. rewrite length_app. cbn [length]. rewrite Nat.add_1_r, seq_S, reverse_snoc. cbn [fmap list_fmap Nat.add]. rewrite take_app_length. f_equal.
  apply list_fmap_ext. intros i n Hn. f_equal. rewrite take_app_le; [done|]. apply list_elem_of_lookup_2 in Hn. rewrite elem_of_reverse, elem_of_seq in Hn. lia.
Qed.

Lemma rooted_length comps : Forall plain_component comps -> (length comps <= length (rooted comps))%nat.
Proof.
  intros Hc. unfold rooted. cbn [length]. induction Hc as [|c cs (Hn & _) _ IH]; [cbn; lia|]. rewrite join_cons.
  destruct c as [|x c]; [done|]. destruct cs as [|d cs]; [cbn; lia|]. rewrite length_app. cbn [length] in *. lia.
Qed.

Section Shared.
Context {R W : Type} `{RouterEnv R W} (upper lower : str -> str).
Notation P := (XRootDPath R).
Notation FS := (FileSystem.FileSystem R).

(** A path talks through [f]. *)
Definition through (f : FS) (p : P) : Prop := p_fs p = Some f.

Lemma derive_shared (p : P) w f to : through f p -> _derive lower to (p, w) = ((p, w), Ok (derived lower p f to)).
Proof. destruct p as [u c o]. unfold through. cbn. by intros ->. Qed.

Lemma rstrip_path (p : P) comps : Forall plain_component comps -> comps <> [] -> path p ∈ [rooted comps; rooted comps ++ [0x2F]] ->
  rstrip_by is_slash (path p) = rooted comps.
Proof.
  intros Hc Hn. rewrite !elem_of_cons. intros [->|[->|[]%not_elem_of_nil]]; [by apply rstrip_rooted|]. rewrite rstrip_snoc. by apply rstrip_rooted.
Qed.

(** The parent of a path below the root. *)
Lemma parent_of (p : P) w cs c f : Forall plain_component (cs ++ [c]) -> path p ∈ [rooted (cs ++ [c]); rooted (cs ++ [c]) ++ [0x2F]] -> through f p ->
  at_top p = false /\ exists up, parent lower (p, w) = ((p, w), Ok up) /\ path up = rooted cs /\ through f up.
Proof.
  intros Hc Hp Hf. pose proof (rstrip_path p _ Hc ltac:(by destruct cs) Hp) as Hr. split.
  - apply bool_decide_eq_false. rewrite !elem_of_cons. intros [E|[E|[]%not_elem_of_nil]]; rewrite E in Hr; [|done].
    change (rstrip_by is_slash [0x2F]) with (@nil Z) in Hr. done.
  - exists (derived lower p f (parent_path p)). split; [|split; [|done]].
    + unfold parent. rewrite st_bind_eq. cbn [get fst]. by apply derive_shared.
    + unfold derived, path, with_path, make_url. cbn [p_url u_path]. unfold parent_path. rewrite Hr, dirname_rooted by done.
      apply Forall_app in Hc as [Hc _]. by apply (normalize_rooted cs).
Qed.

(** The parents of a path are its prefixes, the root last, and they share the
    connection of the path they come from; the loop that finds them ends. *)
Theorem parents_prefixes (p : P) w comps f :
  Forall plain_component comps -> path p ∈ [rooted comps; rooted comps ++ [0x2F]] -> (comps = [] -> path p = [0x2F]) -> through f p ->
  exists ps, parents lower (p, w) = ((p, w), Ok (Some ps)) /\ path <$> ps = prefixes comps /\ Forall (through f) ps.
Proof.
  assert (L : forall comps fuel (p : P) w, Forall plain_component comps -> path p = rooted comps -> through f p -> (length comps <= fuel)%nat ->
    exists ps, parents_loop lower fuel p w = (w, Ok (Some ps)) /\ path <$> ps = prefixes comps /\ Forall (through f) ps).
  { clear p w comps. intros comps. induction comps as [|c cs IH] using rev_ind; intros fuel p w Hc Hp Hf Hl.
    - exists []. unfold parents_loop. destruct fuel; unfold at_top; rewrite Hp; by split_and!.
    - rewrite length_app in Hl. cbn [length] in Hl. destruct fuel as [|fuel]; [lia|].
      destruct (parent_of p w cs c f Hc) as (Ht & up & E & Hup & Hfu); [rewrite Hp; apply list_elem_of_here | done|].
      destruct (IH fuel up w) as (ps & El & Hps & Hfp); [by apply Forall_app in Hc as [? _] | done | done | lia|].
      exists (up :: ps). split_and!; [| | by constructor].
      + cbn [parents_loop]. rewrite Ht. unfold on. rewrite st_bind_eq, E, st_bind_eq, El. done.
      + by rewrite prefixes_snoc, <- Hps, <- Hup. }
  intros Hc Hp H0 Hf. destruct comps as [|c cs _] using rev_ind.
  - exists []. unfold parents, at_top. rewrite H0 by done. by split_and!.
  - destruct (parent_of p w cs c f Hc Hp Hf) as (Ht & up & E & Hup & Hfu). unfold parents. rewrite Ht, E.
    destruct (L cs (length (path p)) up w) as (ps & El & Hps & Hfp); [by apply Forall_app in Hc as [? _] | done | done | |].
    + pose proof (rooted_length (cs ++ [c]) Hc) as Hl. rewrite length_app in Hl. rewrite !elem_of_cons in Hp.
      destruct Hp as [->|[->|[]%not_elem_of_nil]]; rewrite ?length_app; lia.
    + exists (up :: ps). split_and!; [by rewrite El | by rewrite prefixes_snoc, <- Hps, <- Hup | by constructor].
Qed.

Lemma fs_through (p : P) w : exists f w', fs lower (p, w) = ((mkPath (p_url p) (p_config p) (Some f), w'), Ok f) /\ (through f p -> w' = w).
Proof.
  destruct p as [u c [f|]]; unfold fs; cbn [p_fs p_url p_config]; [by exists f, w|].
  destruct (FileSystem.FileSystem_init _ _ w) as [f w'] eqn:E. exists f, w'. done.
Qed.

Lemma call_eq {A} (c : FS -> st exn W A) (p p1 : P) w w1 f : fs lower (p, w) = ((p1, w1), Ok f) -> call lower c (p, w) = ((p1, (c f w1).1), (c f w1).2).
Proof. intros E. unfold call, mbind, st_bind. rewrite E. by destruct (c f w1). Qed.

Lemma yields_shared (p : P) w f (names : list DirEntry) : through f p ->
  yields (fun e => truediv lower (de_name e)) names (p, w) = ((p, w), Ok ((fun e => derived lower p f (path_join (path p) [de_name e])) <$> names)).
Proof.
  intros Hf. induction names as [|e names IH]; [done|]. cbn [yields fmap list_fmap]. rewrite st_bind_eq.
  assert (truediv lower (de_name e) (p, w) = ((p, w), Ok (derived lower p f (path_join (path p) [de_name e])))) as -> by (by apply derive_shared).
  by rewrite st_bind_eq, IH.
Qed.

(** Listing a directory asks for it once, over the connection of the path or
    the one made for it, and what comes out are the entries below it, in order,
    on that same connection. *)
Theorem iterdir_shares (p : P) w p' w' ps : iterdir upper lower (p, w) = ((p', w'), Ok ps) ->
  exists f w0 es, through f p' /\ (p_fs p = Some f -> w0 = w) /\ FileSystem.scandir upper lower f (path p) true false [] None w0 = (w', Ok es)
    /\ ps = (fun e => derived lower p f (path_join (path p) [de_name e])) <$> es.
Proof.
  unfold iterdir, here. rewrite st_bind_eq, st_bind_eq. cbn [get fst].
  destruct (fs_through p w) as (f & w0 & Ef & Hw). rewrite (call_eq _ _ _ _ _ _ Ef). destruct (FileSystem.scandir upper lower f (path p) true false [] None w0) as [w1 [es|e]] eqn:E; [|done].
  cbn [fst snd]. rewrite yields_shared with (f := f) by done. intros [= <- <- <-]. by exists f, w0, es.
Qed.
End Shared.
End Path.
