(* ===== verification/Tpc.v ===== *)
(** * Third-party copy

    src/xrd/copy/tpc.py: the client mints a key, tells the destination to pull
    from the source, and waits. Routers are the interface [RouterEnv] of the
    file client; the source side is the modelled [FileSystem]. *)

From S2P Require Import Prelude PyStr Constants Errors Requests Responses Flags ConfigFile Url UrlText FileClient FileSystem Copy CopyMemory.
From Stdlib Require Import QArith.
Open Scope Z_scope.

(** [secrets.token_hex(16)], the clock, [Router.endpoint], which names the
    server a router ended up at, and the HTTP dialect. *)
Class TpcEnv (R W : Type) := {
  token_hex : W -> W * str;
  tpc_clock : W -> W * Q;
  rt_endpoint : R -> W -> str;
  http_third_party : XRootDURL -> XRootDURL -> Config -> bool -> option Q -> W -> W * res Copy.CopyResult
}.

Module Tpc.
Import Copy.

(** Owner read and write, as [xrdcp] uses. *)
Definition _MODE : Z := Z.lor 0x100 0x080.

(** [f"{name}={value}"]. *)
Definition pair_of (name : string) (value : str) : str := s_ name ++ 0x3D :: value.

Definition mode_part (token_mode : str) : list str :=
  match token_mode with [] => [] | _ => [pair_of "tpc.token_mode" token_mode] end.

(** What tells the destination who to pull from. *)
Definition dst_parts (key : str) (src : XRootDURL) (src_endpoint : str) (size : Z) (token_mode : str) : list str :=
  [pair_of "tpc.key" key; pair_of "tpc.src" src_endpoint; pair_of "tpc.lfn" (u_path src);
   pair_of "tpc.dlg" (u_host src ++ 0x3A :: to_dec (u_port src));
   s_ "tpc.spr=root"; s_ "tpc.tpr=root"; s_ "tpc.dlgon=0"]
  ++ (if 0 <=? size then [pair_of "oss.asize" (to_dec size)] else [])
  ++ s_ "tpc.stage=copy" :: mode_part token_mode.
Definition _dst_opaque (key : str) (src : XRootDURL) (src_endpoint : str) (size : Z) (token_mode : str) : str :=
  join 0x26 (dst_parts key src src_endpoint size token_mode).

(** What authorises the pull the destination is about to make. *)
Definition src_parts (key dst_host token_mode : str) : list str :=
  [pair_of "tpc.key" key; pair_of "tpc.dst" dst_host; s_ "tpc.stage=copy"] ++ mode_part token_mode.
Definition _src_opaque (key dst_host token_mode : str) : str := join 0x26 (src_parts key dst_host token_mode).

Section Tpc.
Context {R W : Type} `{RouterEnv R W} `{TpcEnv R W}.
Variable lower abspath : str -> str.

Notation M := (st exn W).
Notation FS := (FileSystem.FileSystem R).

Definition finally {A} (c : M A) (k : M unit) : M A := fun w =>
  let '(w, r) := c w in
  match k w with
  | (w, Ok _) => (w, r)
  | (w, Err e) => (w, Err e)
  end.

Definition closing (r : R) : M unit := fun w => (rt_close r w, Ok tt).

(** Best-effort cleanup. *)
Definition _quietly (router : R) (request : Request) : M unit := fun w =>
  match rt_execute router request [] w with
  | (w, Ok _) => (w, Ok tt)
  | (w, Err e) => (w, if is_os_error e then Ok tt else Err e)
  end.

Section Pull.
Variable su du : XRootDURL.
Variable cfg : Config.
Variable overwrite posc : bool.
Variable token_mode key : str.

(** Arm the rendezvous, register the key at the source, trigger the pull and
    wait for it: the handle is open on [dst_router]. *)
Definition pull (src_fs : FS) (dst_router : R) (data : bytes) : M unit :=
  '(handle, _, _) ← lift (parse_open data (u_path du));
  rt_execute dst_router (Sync handle) [] ≫= fun _ =>
  src_router ← (fun w => let '(r, w) := rt_pin (FileSystem.fs_router src_fs) false w in (w, Ok r)) : M R;
  src_data ← rt_execute src_router (Requests.Open (u_path su ++ 0x3F :: _src_opaque key (u_host du) token_mode) Flags.READ 0) (u_path su);
  '(src_handle, _, _) ← lift (parse_open src_data (u_path su));
  finally (rt_execute dst_router (Sync handle) []) (_quietly src_router (Close src_handle)) ≫= fun _ =>
  rt_execute dst_router (Close handle) [] ≫= fun _ => mret tt.

Definition dst_flags : Z :=
  let flags := Z.lor Flags.UPDATE (if overwrite then Flags.DELETE else Flags.NEW) in
  if posc then Z.lor flags Flags.POSC else flags.

(** Open the destination; whichever router holds the connection is closed. *)
Definition rendezvous (src_fs : FS) (size : Z) (src_endpoint : str) : M unit := fun w =>
  let '(r, w) := rt_new (with_path lower du [0x2F]) cfg w in
  let opaque := _dst_opaque key su src_endpoint size token_mode in
  match rt_execute r (Requests.Open (u_path du ++ 0x3F :: opaque) (Z.lor dst_flags kXR_retstat) _MODE) (u_path du) w with
  | (w, Err e) => (rt_close r w, Err e)
  | (w, Ok data) =>
      let '(p, w) := rt_pin r true w in
      finally (pull src_fs p data) (closing p) w
  end.

(** With the source's file system: its size, and the server it ended up at. *)
Definition brokered : M Z := fun w =>
  let '(src_fs, w) := FileSystem.FileSystem_init (with_path lower su [0x2F]) cfg w in
  finally
    (i ← FileSystem.stat src_fs (u_path su) true;
     e ← (fun w => (w, Ok (rt_endpoint (FileSystem.fs_router src_fs) w))) : M str;
     rendezvous src_fs (st_size i) e ≫= fun _ => mret (st_size i))
    (FileSystem.close src_fs) w.
End Pull.

Definition third_party (source target : @endpoint R) (config : Config) (overwrite posc : bool) (token_mode : str)
    (timeout : option Q) : M CopyResult :=
  let parse e := u ← _target_url lower abspath e; match u with Some u => Ok u | None => Err TypeError end in
  su ← lift (parse source);
  du ← lift (parse target);
  if is_http su && is_http du then
    match token_mode with
    | [] => http_third_party su du config overwrite timeout
    | _ => raise ValueError
    end
  else if negb (is_root su) || negb (is_root du) then raise ValueError else
  let cfg := match timeout with Some t => config <| c_request_timeout := t |> | None => config end in
  key ← (fun w => let '(w, k) := token_hex w in (w, Ok k)) : M str;
  started ← (fun w => let '(w, t) := tpc_clock w in (w, Ok t)) : M Q;
  size ← brokered su du cfg overwrite posc token_mode key;
  s ← lift (url_str su);
  t ← lift (url_str du);
  ended ← (fun w => let '(w, t) := tpc_clock w in (w, Ok t)) : M Q;
  mret (mkResult s t size (Qminus ended started) None 0).
End Tpc.
End Tpc.

(** ** The rendezvous of a third-party copy, on the wire

    Against servers that may answer each request with anything: what was sent
    on which connection, and which connections are still held. *)

Open Scope Z_scope.

Import Copy Tpc.

Record wire := mkWire { wi_log : list (nat * Request); wi_next : nat; wi_held : list nat }.

Section Wire.
Variable reply : list (nat * Request) -> nat -> Request -> res bytes.
Variable where_ : nat -> list (nat * Request) -> str.
Variable secret : str.

#[local] Instance wire_router : RouterEnv nat wire := {
  rt_new _ _ w := (wi_next w, mkWire (wi_log w) (S (wi_next w)) (wi_next w :: wi_held w));
  rt_execute r q _ w := (mkWire (wi_log w ++ [(r, q)]) (wi_next w) (wi_held w), reply (wi_log w) r q);
  rt_arrives _ w := (w, Ok None);
  rt_on_path _ _ _ w := (w, Err ConnectionError);
  rt_bind_data_path _ w := (w, Err ConnectionError);
  (* a connection handed over changes its holder; one lent has the old one *)
  rt_pin r transfer w :=
    (wi_next w, mkWire (wi_log w) (S (wi_next w))
      (if transfer then wi_next w :: filter (fun x => x <> r) (wi_held w) else wi_held w));
  rt_close r w := mkWire (wi_log w) (wi_next w) (filter (fun x => x <> r) (wi_held w));
  rt_discard r w := mkWire (wi_log w) (wi_next w) (filter (fun x => x <> r) (wi_held w));
  rt_same_session _ _ w := (w, Ok false)
}.
#[local] Instance wire_tpc : TpcEnv nat wire := {
  token_hex w := (w, secret);
  tpc_clock w := (w, 0%Q);
  rt_endpoint r w := where_ r (wi_log w);
  http_third_party _ _ _ _ _ w := (w, Err UNSUPPORTED)
}.

Section Steps.
Variable lower : str -> str.
Variable su du : XRootDURL.
Variable overwrite posc : bool.
Variable token_mode : str.

(** The requests of a transfer: router 0 looks at the source, 1 opens the
    destination and hands its connection to 2, 3 borrows the source's. *)
Definition steps (target endpoint : str) (size : Z) (handle src_handle : bytes) : list (nat * Request) :=
  [(0%nat, Stat target 0 NULL_FHANDLE);
   (1%nat, Requests.Open (u_path du ++ 0x3F :: _dst_opaque secret su endpoint size token_mode)
             (Z.lor (dst_flags overwrite posc) kXR_retstat) _MODE);
   (2%nat, Sync handle);
   (3%nat, Requests.Open (u_path su ++ 0x3F :: _src_opaque secret (u_host du) token_mode) Flags.READ 0);
   (2%nat, Sync handle);
   (3%nat, Close src_handle);
   (2%nat, Close handle)].

(** From the destination's answer on: the handle's connection is 2, the
    source's file system is on 0. *)
Definition pulling (handle src_handle : bytes) : list (nat * Request) :=
  [(2%nat, Sync handle);
   (3%nat, Requests.Open (u_path su ++ 0x3F :: _src_opaque secret (u_host du) token_mode) Flags.READ 0);
   (2%nat, Sync handle); (3%nat, Close src_handle); (2%nat, Close handle)].

Lemma prefix_take {A} (k : nat) (l : list A) : take k l `prefix_of` l.
Proof. exists (drop k l). by rewrite take_drop. Qed.

(** What [r] raises. *)
Definition raised {A} (r : res A) : option exn := match r with Ok _ => None | Err e => Some e end.

(** How a run answers for its replies, from request [lo] of the log on. A
    refused request is the last one and its exception is the outcome; the
    [Sync] of the pull (number 4) is followed by the [Close] of the source
    (number 5) alone, which is best effort: an [OSError] of its own is
    passed over, anything else replaces the outcome. And an exception is
    that of a refusal, or of reading a reply (after requests 0, 1 and 3) or
    a URL (before the first and after the last). *)
Record answers_for (lo : nat) (log : list (nat * Request)) (out : option exn) : Prop := {
  af_refused : forall i x e, (lo <= i)%nat -> log !! i = Some x -> reply (take i log) x.1 x.2 = Err e ->
    match i with
    | 4 => length log = 6%nat
           /\ (out = Some e \/ exists y e', log !! 5%nat = Some y /\ reply (take 5 log) y.1 y.2 = Err e'
                                /\ is_os_error e' = false /\ out = Some e')
    | 5 => is_os_error e = true \/ length log = 6%nat /\ out = Some e
    | _ => length log = S i /\ out = Some e
    end%nat;
  af_cause : forall e, out = Some e ->
    length log ∈ [0; 1; 2; 4; 7]%nat
    \/ exists i x, log !! i = Some x /\ reply (take i log) x.1 x.2 = Err e
}.

Lemma answers_for_earlier lo log out x d :
  log !! lo = Some x -> reply (take lo log) x.1 x.2 = Ok d ->
  answers_for (S lo) log out -> answers_for lo log out.
Proof.
  intros Hx Hd [Hr Hc]. split; [|exact Hc]. intros i y e Hi Hy He.
  destruct (decide (i = lo)) as [->|Hne]; [simplify_eq; congruence|]. exact (Hr i y e ltac:(lia) Hy He).
Qed.

(** A run that came through answers for its replies whatever it makes of
    them afterwards. *)
Lemma answers_for_done log out :
  length log = 7%nat -> answers_for 0 log None -> answers_for 0 log out.
Proof.
  intros Hl [Hr _]. split; [|left; rewrite Hl; by repeat constructor]. intros i x e Hi Hx He.
  specialize (Hr i x e Hi Hx He).
  do 6 (destruct i as [|i]; [cbn in Hr; try (by destruct Hr); naive_solver|]). cbn in Hr. by destruct Hr.
Qed.

Ltac answer_each :=
  split;
  [ let i := fresh in let x := fresh in let e := fresh in let Hlo := fresh in let Hx := fresh in
    let He := fresh in intros i x e Hlo Hx He;
    do 7 (destruct i as [|i]; [cbn in Hx; try (exfalso; lia); simplify_eq; cbn in *; try congruence;
      try match goal with H1 : ?t = Err ?a, H2 : ?t = Err ?b |- _ => assert (b = a) by congruence; subst b end;
      eauto 12|]);
    done
  | let e := fresh in let He := fresh in intros e He; first [done | injection He as ->; first
      [ right; first [by eexists 0%nat, _ | by eexists 1%nat, _ | by eexists 2%nat, _ | by eexists 3%nat, _ | by eexists 4%nat, _ | by eexists 5%nat, _ | by eexists 6%nat, _]
      | left; cbn; by repeat constructor ]]].

Lemma pull_wire fs data a b held :
  FileSystem.fs_router fs = 0%nat ->
  let '(w, r) := pull su du token_mode secret fs 2%nat data (mkWire [a; b] 3 held) in
  wi_held w = held /\ answers_for 2 (wi_log w) (raised r) /\ exists handle src_handle n,
    wi_log w = [a; b] ++ take n (pulling handle src_handle) /\ n <> 3%nat /\ (r = Ok tt -> n = 5%nat).
Proof.
  intros Hfs. unfold pull, lift. rewrite st_bind_eq.
  destruct (parse_open data (u_path du)) as [[[h i] c]|e]; [|split_and!; [done|answer_each|by exists [], [], 0%nat]].
  rewrite st_bind_eq. cbn [rt_execute wire_router wi_log wi_next wi_held app].
  destruct (reply [a; b] 2%nat (Sync h)) as [d1|e] eqn:E1; [|split_and!; [done|answer_each|by exists h, [], 1%nat]].
  rewrite st_bind_eq, Hfs. cbn [rt_pin wire_router wi_log wi_next wi_held]. rewrite st_bind_eq.
  cbn [rt_execute wire_router wi_log wi_next wi_held app].
  destruct (reply _ 3%nat _) as [d2|e] eqn:E2; [|split_and!; [done|answer_each|by exists h, [], 2%nat]].
  rewrite st_bind_eq.
  destruct (parse_open d2 (u_path su)) as [[[sh i2] c2]|e]; [|split_and!; [done|answer_each|by exists h, [], 2%nat]].
  rewrite st_bind_eq. unfold finally, _quietly. cbn [rt_execute wire_router wi_log wi_next wi_held app].
  destruct (reply [_; _; _; _] 2%nat (Sync h)) as [d3|e3] eqn:E3;
    destruct (reply _ 3%nat (Close sh)) as [d4|e4] eqn:E4; try destruct (is_os_error e4) eqn:Eo.
  1, 2: rewrite st_bind_eq; cbn [rt_execute wire_router wi_log wi_next wi_held app];
        destruct (reply _ 2%nat (Close h)) as [d5|e5] eqn:E5; cbn [mret st_ret];
        (split_and!; [done | answer_each | by exists h, sh, 5%nat]).
  all: split_and!; [done | | by exists h, sh, 4%nat].
  all: answer_each.
Qed.

Lemma rendezvous_wire cfg fs size endpoint a :
  FileSystem.fs_router fs = 0%nat ->
  let '(w, r) := rendezvous lower su du cfg overwrite posc token_mode secret fs size endpoint (mkWire [a] 1 [0%nat]) in
  wi_held w = [0%nat] /\ answers_for 1 (wi_log w) (raised r) /\ exists handle src_handle n,
    wi_log w = a :: take n (drop 1 (steps [] endpoint size handle src_handle)) /\ n <> 4%nat /\ (r = Ok tt -> n = 6%nat).
Proof.
  intros Hfs. unfold rendezvous. cbn [rt_new wire_router wi_log wi_next wi_held].
  cbn [rt_execute wire_router wi_log wi_next wi_held app].
  destruct (reply [a] 1%nat _) as [data|e] eqn:E1.
  2: split_and!; [done | answer_each | by exists [], [], 1%nat].
  cbn [rt_pin wire_router wi_log wi_next wi_held]. unfold finally.
  match goal with |- context [pull _ _ _ _ _ _ _ (mkWire [?a; ?b] 3 ?hd)] => pose proof (pull_wire fs data a b hd Hfs) as Hp end.
  destruct (pull _ _ _ _ _ _ _ _) as [w r]. destruct Hp as (Hh & Ha & h & sh & n & Hlog & Hn & Hr). unfold closing.
  cbn [rt_close wire_router wi_log wi_next wi_held]. rewrite Hh. split; [done|]. split.
  - eapply answers_for_earlier; [by rewrite Hlog | by rewrite Hlog | exact Ha].
  - exists h, sh, (S n). rewrite Hlog. split; [done|]. split; [lia|]. intros E. by rewrite (Hr E).
Qed.

Lemma brokered_wire cfg :
  let '(w, r) := brokered lower su du cfg overwrite posc token_mode secret (mkWire [] 0 []) in
  wi_held w = [] /\ answers_for 0 (wi_log w) (raised r) /\ exists target endpoint size handle src_handle n,
    wi_log w = take n (steps target endpoint size handle src_handle) /\ n <> 5%nat
    /\ match r with Ok m => n = 7%nat /\ m = size | Err _ => True end.
Proof.
  unfold brokered. cbn [FileSystem.FileSystem_init rt_new wire_router wi_log wi_next wi_held].
  unfold finally, FileSystem.stat, lift. rewrite !st_bind_eq. set (fs := FileSystem.mkFS _ _ _).
  destruct (FileSystem._abs fs (u_path su)) as [target|e]; [|split_and!; [done|answer_each|by exists [], [], 0, [], [], 0%nat]].
  unfold FileSystem.execute. cbn [FileSystem.fs_router fs]. rewrite st_bind_eq. cbn [rt_execute wire_router wi_log wi_next wi_held app].
  destruct (reply [] 0%nat _) as [data|e] eqn:E0; [|split_and!; [done|answer_each|by exists target, [], 0, [], [], 1%nat]].
  destruct (parse_stat data target) as [i|e]; [|split_and!; [done|answer_each|by exists target, [], 0, [], [], 1%nat]].
  rewrite !st_bind_eq. cbn [rt_endpoint wire_tpc wi_log].
  pose proof (rendezvous_wire cfg fs (st_size i) (where_ 0%nat [(0%nat, Stat target 0 NULL_FHANDLE)]) (0%nat, Stat target 0 NULL_FHANDLE) eq_refl) as Hr.
  destruct (rendezvous _ _ _ _ _ _ _ _ _ _ _ _) as [w r]. destruct Hr as (Hh & Ha & h & sh & n & Hlog & Hn & Hok).
  eapply answers_for_earlier in Ha; [|by rewrite Hlog|by rewrite Hlog].
  destruct r as [[]|e]; cbn; rewrite Hh; (split; [done|]); (split; [exact Ha|]);
    exists target, (where_ 0%nat [(0%nat, Stat target 0 NULL_FHANDLE)]), (st_size i), h, sh, (S n); rewrite Hlog; (split; [done|]); (split; [lia|]); [|done].
  by rewrite (Hok eq_refl).
Qed.

Lemma root_not_http u : is_root u = true -> is_http u = false.
Proof.
  unfold is_root, is_http. generalize (u_scheme u). intros c Hr. apply bool_decide_eq_true in Hr.
  assert (Hall : Forall (fun c => bool_decide (c ∈ HTTP_SCHEMES) = false) ROOT_SCHEMES) by (repeat constructor).
  rewrite Forall_forall in Hall. by apply Hall.
Qed.

(** C19: the requests of a transfer between two [root] URLs are the seven of the
    rendezvous, in their order, and it stops at the first that is refused: that
    refusal is the exception raised - only the [Sync] that waits for the pull
    is followed by one more request, the [Close] of the source, whose own
    [OSError] is passed over; once the source has been opened for the pull it
    is closed again, whatever became of the pull; a result means that all
    seven were sent; and every connection has been given back in the end. *)
Theorem third_party_wire abspath cfg timeout :
  is_root su = true -> is_root du = true ->
  let '(w, r) := third_party lower abspath (Url su) (Url du) cfg overwrite posc token_mode timeout (mkWire [] 0 []) in
  wi_held w = [] /\ answers_for 0 (wi_log w) (raised r) /\ exists target endpoint size handle src_handle n,
    wi_log w = take n (steps target endpoint size handle src_handle) /\ n <> 5%nat
    /\ match r with Ok c => n = 7%nat /\ cr_size c = size /\ cr_checksum c = None | Err _ => True end.
Proof.
  intros Hs Hd. unfold third_party, lift. rewrite !st_bind_eq. cbn [_target_url mbind result_bind]. rewrite !st_bind_eq.
  rewrite (root_not_http su Hs), Hs, Hd. cbn [andb negb orb]. rewrite !st_bind_eq. cbn [token_hex wire_tpc]. rewrite !st_bind_eq. cbn [tpc_clock wire_tpc].
  rewrite !st_bind_eq. set (c := match timeout with Some _ => _ | None => _ end).
  pose proof (brokered_wire c) as Hb. destruct (brokered _ _ _ _ _ _ _ _ _) as [w [m|e]]; destruct Hb as (Hh & Ha & t & e' & n & h & sh & k & Hlog & Hk & Hr).
  - destruct Hr as [-> ->].
    assert (forall out, answers_for 0 (wi_log w) out) as Ha'
      by (intros out; apply answers_for_done; [by rewrite Hlog | exact Ha]).
    rewrite st_bind_eq. destruct (url_str su) as [s|e]; [rewrite st_bind_eq; destruct (url_str du) as [d|e]|].
    all: cbn; split; [done|]; split; [apply Ha'|]; exists t, e', n, h, sh, 7%nat; by split_and!.
  - split; [done|]. split; [exact Ha|]. exists t, e', n, h, sh, k. by split_and!.
Qed.
End Steps.
End Wire.

Definition answers (log : list (nat * Request)) (r : nat) (q : Request) : res bytes :=
  match q with
  | Stat _ _ _ => Ok (b_ "7 42 48 1700000000")
  | Requests.Open _ _ _ => Ok (b_ "hndl")
  | _ => Ok []
  end.

Lemma third_party_wire_witness :
  let far host := mkURL (s_ "root") (s_ host) 1094 (s_ "/f") [] [] [] in
  let '(w, r) := @third_party nat wire (wire_router answers) (wire_tpc (fun _ _ => s_ "a:1094") (s_ "k")) id id
    (Url (far "a")) (Url (far "b")) CopyMemory.demo_config true true [] None (mkWire [] 0 []) in
  wi_held w = [] /\ is_ok r = true /\ length (wi_log w) = 7%nat.
Proof.
  pose proof (third_party_wire answers (fun _ _ => s_ "a:1094") (s_ "k") id (mkURL (s_ "root") (s_ "a") 1094 (s_ "/f") [] [] [])
    (mkURL (s_ "root") (s_ "b") 1094 (s_ "/f") [] [] []) true true [] id CopyMemory.demo_config None eq_refl eq_refl) as Hw.
  cbv zeta. assert (Hok : is_ok (@third_party nat wire (wire_router answers) (wire_tpc (fun _ _ => s_ "a:1094") (s_ "k")) id id
    (Url (mkURL (s_ "root") (s_ "a") 1094 (s_ "/f") [] [] [])) (Url (mkURL (s_ "root") (s_ "b") 1094 (s_ "/f") [] [] []))
    CopyMemory.demo_config true true [] None (mkWire [] 0 [])).2 = true) by (by vm_compute).
  destruct (third_party _ _ _ _ _ _ _ _ _ _) as [w [c|e]]; [|done].
  destruct Hw as (Hh & _ & t & e & n & h & sh & k & Hlog & _ & Hk & _). by rewrite Hlog, Hk.
Defined.
