(* ===== verification/RootBuffer.v ===== *)
(** * The ROOT encoding, field by field

    src/xrd/root/buffer.py: [Buffer], a cursor over one record, and the
    objects and containers that refer to each other by position. Positions
    count from the start of the key. A floating point number is its bit
    pattern. What a class reads as is a parameter of the containers. *)

From S2P Require Import Prelude PyStr Errors Buffer.
Open Scope Z_scope.

(** ** Text with bytes that are not text *)

(** One code point with the [surrogateescape] handler: a byte that was not
    UTF-8 comes back as it was. *)
Definition escape_char (c : Z) : option bytes :=
  if (0xDC80 <=? c) && (c <=? 0xDCFF) then Some [z2b (c - 0xDC00)] else utf8_char c.
Fixpoint encode_escape (s : str) : res bytes :=
  match s with
  | [] => Ok []
  | c :: s => match escape_char c with
              | Some h => t ← encode_escape s; Ok (h ++ t)
              | None => Err UnicodeEncodeError
              end
  end.

(** The code point at the front, when there is a well-formed one. *)
Definition utf8_head (l : bytes) : option (Z * bytes) :=
  match l with
  | [] => None
  | b0 :: l1 =>
      let c0 := b2z b0 in
      if utf8_len c0 =? 1 then Some (c0, l1)
      else if utf8_len c0 =? 2 then
        match l1 with
        | b1 :: l2 => if utf8_cont b1 then Some ((c0 - 0xC0) * 64 + low6 b1, l2) else None
        | _ => None
        end
      else if utf8_len c0 =? 3 then
        match l1 with
        | b1 :: b2 :: l3 =>
            if utf8_second c0 b1 && utf8_cont b2 then Some ((c0 - 0xE0) * 4096 + low6 b1 * 64 + low6 b2, l3) else None
        | _ => None
        end
      else if utf8_len c0 =? 4 then
        match l1 with
        | b1 :: b2 :: b3 :: l4 =>
            if utf8_second c0 b1 && utf8_cont b2 && utf8_cont b3
            then Some ((c0 - 0xF0) * 262144 + low6 b1 * 4096 + low6 b2 * 64 + low6 b3, l4) else None
        | _ => None
        end
      else None
  end.

(** Decoding with [surrogateescape]: every byte of an ill-formed sequence is a
    surrogate of its own. *)
Fixpoint escape_loop (fuel : nat) (l : bytes) : str :=
  match fuel with
  | O => []
  | S fuel =>
      match utf8_head l with
      | Some (c, l) => c :: escape_loop fuel l
      | None => match l with [] => [] | b :: l => (0xDC00 + b2z b) :: escape_loop fuel l end
      end
  end.
Definition decode_escape (l : bytes) : str := escape_loop (length l) l.

Lemma utf8_head_shorter l c r : utf8_head l = Some (c, r) -> (length r < length l)%nat.
Proof.
  unfold utf8_head. destruct l as [|b0 l1]; [done|]. cbv zeta. intros E.
  repeat (case_hyp; try discriminate); injection E as <- <-; cbn; lia.
Qed.

Lemma escape_loop_enough fuel l : (length l <= fuel)%nat -> escape_loop fuel l = decode_escape l.
Proof.
  unfold decode_escape. revert l. induction fuel as [fuel IH] using lt_wf_ind. intros l Hl.
  destruct l as [|b l]; [by destruct fuel|]. destruct fuel as [|fuel]; [cbn in Hl; lia|]. cbn [escape_loop length].
  destruct (utf8_head (b :: l)) as [[c r]|] eqn:E.
  - apply utf8_head_shorter in E. cbn in E, Hl. f_equal. rewrite (IH fuel) by lia. symmetry. apply IH; lia.
  - f_equal. cbn in Hl. apply IH; lia.
Qed.

Lemma utf8_head_char c h t : utf8_char c = Some h -> utf8_head (h ++ t) = Some (c, t).
Proof.
  unfold utf8_char. intros H. repeat case_hyp; zbool; try discriminate; injection H as <-.
  all: rewrite ?orb_false_iff in *; zbool.
  - cbn [app utf8_head]. rewrite b2z_z2b by lia. unfold utf8_len. by decide_cmp.
  - cbn [app utf8_head]. rewrite b2z_z2b, utf8_cont_mod, low6_mod by div_mod_lia.
    unfold utf8_len. decide_cmp. do 2 f_equal. div_mod_lia.
  - cbn [app utf8_head]. rewrite b2z_z2b by div_mod_lia.
    rewrite utf8_len_3 by div_mod_lia. simpl.
    rewrite andb_false_iff, Z.leb_gt, Z.ltb_ge in *.
    erewrite utf8_second_ok; [|reflexivity|reflexivity|].
    2: { repeat case_goal; zbool; div_mod_lia. }
    rewrite utf8_cont_mod, !low6_mod. simpl. do 2 f_equal. div_mod_lia.
  - cbn [app utf8_head]. rewrite b2z_z2b by div_mod_lia.
    rewrite utf8_len_4 by div_mod_lia. simpl.
    erewrite utf8_second_ok; [|reflexivity|reflexivity|].
    2: { repeat case_goal; zbool; div_mod_lia. }
    rewrite !utf8_cont_mod, !low6_mod. simpl. do 2 f_equal. div_mod_lia.
Qed.

Lemma utf8_char_nonempty c h : utf8_char c = Some h -> h <> [].
Proof. unfold utf8_char. intros H ->. by repeat (case_hyp; try discriminate). Qed.

(** Text that UTF-8 can spell is spelled, and read back, as usual. *)
Lemma escape_text s b : utf8_encode s = Some b -> encode_escape s = Ok b /\ decode_escape b = s.
Proof.
  revert b. induction s as [|c s IH]; intros b; cbn; [by intros [= <-]|].
  destruct (utf8_char c) as [h|] eqn:Eh; [|done]. destruct (utf8_encode s) as [t|]; [|done]. cbn. intros [= <-].
  destruct (IH t eq_refl) as [He Hd].
  assert (escape_char c = Some h) as ->.
  { unfold escape_char. case_goal; [|done]. zbool. unfold utf8_char in Eh.
    repeat (case_hyp; zbool; try discriminate); lia. }
  rewrite He. split; [done|]. unfold decode_escape.
  destruct (h ++ t) as [|x l] eqn:El; [apply app_eq_nil in El as [-> _]; by apply utf8_char_nonempty in Eh|].
  cbn [length escape_loop]. rewrite <- El, (utf8_head_char c h t Eh).
  rewrite escape_loop_enough by (apply (f_equal length) in El; rewrite length_app in El; cbn in El; apply utf8_char_nonempty in Eh; destruct h; [done|]; cbn in El; lia).
  by rewrite Hd.
Qed.

(** ** The cursor *)

Module RootBuffer.

Definition BYTE_COUNT_MASK : Z := 0x40000000.
Definition NEW_CLASS_TAG : Z := 0xFFFFFFFF.
Definition CLASS_MASK : Z := 0x80000000.
Definition MAP_OFFSET : Z := 2.
Definition IS_REFERENCED : Z := Z.shiftl 1 4.
Definition BYPASS_STREAMER : Z := Z.shiftl 1 12.
Definition NO_MEMBER_WISE : Z := Z.shiftl 1 17.

Definition days_in (year month : Z) : Z :=
  if (month =? 2) then (if (year mod 4 =? 0) && (negb (year mod 100 =? 0) || (year mod 400 =? 0)) then 29 else 28)
  else if bool_decide (month ∈ [4; 6; 9; 11]) then 30 else 31.

(** [datetime.datetime(...)], which refuses a field out of range. *)
Definition as_datetime (packed : Z) : res (Z * Z * Z * (Z * Z * Z)) :=
  let year := Z.shiftr packed 26 + 1995 in
  let month := Z.land (Z.shiftr packed 22) 0xF in
  let day := Z.land (Z.shiftr packed 17) 0x1F in
  let hour := Z.land (Z.shiftr packed 12) 0x1F in
  let minute := Z.land (Z.shiftr packed 6) 0x3F in
  let second := Z.land packed 0x3F in
  if (1 <=? month) && (month <=? 12) && (1 <=? day) && (day <=? days_in year month) && (hour <=? 23)
     && (minute <=? 59) && (second <=? 59)
  then Ok (year, month, day, (hour, minute, second)) else Err ValueError.

(** What a position may be referred to as: a class, or an object. *)
Inductive ref (V : Type) := Named (name : str) | Object (v : V).
Arguments Named {V}.
Arguments Object {V}.

Record Buffer (V : Type) := mkBuffer { bf_data : bytes; bf_pos : Z; bf_offset : Z; bf_refs : dict Z (ref V) }.
Arguments mkBuffer {V}.
Arguments bf_data {V}.
Arguments bf_pos {V}.
Arguments bf_offset {V}.
Arguments bf_refs {V}.

(** [l[a:b]]: a negative index counts from the end. *)
Definition py_slice {A} (l : list A) (a b : Z) : list A :=
  let at_ x := if x <? 0 then Z.max 0 (x + zlen l) else x in
  take (Z.to_nat (at_ b - at_ a)) (drop (Z.to_nat (at_ a)) l).

(** [struct.unpack_from] of [size] bytes, whose offset may count from the end. *)
Definition unpack_from (data : bytes) (index : Z) (size : nat) : res bytes :=
  let index := if index <? 0 then index + zlen data else index in
  if (index <? 0) || (zlen data <? index + Z.of_nat size) then Err StructError
  else Ok (take size (drop (Z.to_nat index) data)).

Section Buffer.
Context {V : Type}.
(** [str(obj)] of an object. *)
Variable show : V -> str.

Notation M := (st exn (Buffer V)).

Definition Buffer_init (data : bytes) (offset : Z) : Buffer V := mkBuffer data offset offset [].
Definition at_pos (pos : Z) (b : Buffer V) : Buffer V := mkBuffer (bf_data b) pos (bf_offset b) (bf_refs b).
Definition remaining (b : Buffer V) : Z := zlen (bf_data b) - (bf_pos b - bf_offset b).

Definition pos : M Z := fun b => (b, Ok (bf_pos b)).
Definition seek_to (p : Z) : M unit := fun b => (at_pos p b, Ok tt).
Definition set_ref (p : Z) (r : ref V) : M unit :=
  fun b => (mkBuffer (bf_data b) (bf_pos b) (bf_offset b) (dict_set p r (bf_refs b)), Ok tt).

(** A field of [size] bytes. *)
Definition _take (size : nat) : M bytes := fun b =>
  let index := bf_pos b - bf_offset b in
  if zlen (bf_data b) <? index + Z.of_nat size then (b, Err FormatError)
  else let b := at_pos (bf_pos b + Z.of_nat size) b in (b, unpack_from (bf_data b) index size).

Definition u8 : M Z := d ← _take 1; mret (unpack_u d).
Definition i8 : M Z := d ← _take 1; mret (unpack_i d).
Definition u16 : M Z := d ← _take 2; mret (unpack_u d).
Definition i16 : M Z := d ← _take 2; mret (unpack_i d).
Definition u32 : M Z := d ← _take 4; mret (unpack_u d).
Definition i32 : M Z := d ← _take 4; mret (unpack_i d).
Definition i64 : M Z := d ← _take 8; mret (unpack_i d).
(** The bits of a double. *)
Definition f64 : M Z := d ← _take 8; mret (unpack_u d).
Definition bool_ : M bool := n ← u8; mret (negb (n =? 0)).

Definition take_ (count : Z) : M bytes := fun b =>
  let index := bf_pos b - bf_offset b in
  if zlen (bf_data b) <? index + count then (b, Err FormatError)
  else (at_pos (bf_pos b + count) b, Ok (py_slice (bf_data b) index (index + count))).

(** A [TString]: one length byte, or 255 and then four. *)
Definition string : M str :=
  n ← u8;
  n ← (if n =? 255 then i32 else mret n);
  d ← take_ n; mret (decode_escape d).

(** [data.find(b"\x00", index)]. *)
Definition find_nul (data : bytes) (index : Z) : option Z :=
  let start := if index <? 0 then Z.max 0 (index + zlen data) else index in
  match partition x00 (drop (Z.to_nat start) data) with
  | (h, true, _) => if zlen data <? start then None else Some (start + zlen h)
  | _ => None
  end.

(** A NUL-terminated name. *)
Definition cstring : M str := fun b =>
  let index := bf_pos b - bf_offset b in
  match find_nul (bf_data b) index with
  | None => (b, Err FormatError)
  | Some e => (at_pos (bf_pos b + (e - index + 1)) b, Ok (decode_escape (py_slice (bf_data b) index e)))
  end.

(** *** Records *)

(** The version of the record here, and where it ends, if it says. *)
Definition header : M (Z * option Z) :=
  start ← pos;
  count ← u32;
  p ← pos;
  (if Z.land count BYTE_COUNT_MASK =? 0 then seek_to start else mret tt) ≫= fun _ =>
  v ← u16;
  mret (v, if Z.land count BYTE_COUNT_MASK =? 0 then None else Some (p + Z.ldiff count BYTE_COUNT_MASK)).

Definition resume (e : option Z) : M unit := match e with Some e => seek_to e | None => mret tt end.

Definition skip_record : M Z :=
  '(v, e) ← header;
  match e with None => raise FormatError | Some e => seek_to e ≫= fun _ => mret v end.

Definition tobject : M (Z * Z) :=
  u16 ≫= fun _ =>
  unique ← u32;
  bits ← u32;
  (if Z.land bits IS_REFERENCED =? 0 then mret 0 else u16) ≫= fun _ =>
  mret (unique, bits).

Definition named : M (str * str) :=
  '(_, e) ← header;
  tobject ≫= fun _ =>
  name ← string;
  title ← string;
  resume e ≫= fun _ => mret (name, title).

(** *** Arrays *)

Definition _span (size : Z) : M Z := fun b =>
  let index := bf_pos b - bf_offset b in
  if zlen (bf_data b) <? index + size then (b, Err FormatError)
  else (at_pos (bf_pos b + size) b, Ok index).

Fixpoint cut_every (n : nat) (k : nat) (l : bytes) : list bytes :=
  match k with O => [] | S k => take n l :: cut_every n k (drop n l) end.

(** [count] numbers of [width] bytes; a negative count is no format. *)
Definition ints (width : nat) (count : Z) : M (list Z) :=
  index ← _span (count * Z.of_nat width);
  if count <? 0 then raise StructError else
  fun b => (b, d ← unpack_from (bf_data b) index (Z.to_nat count * width);
               Ok (unpack_i <$> cut_every width (Z.to_nat count) d)).
Definition i32s : Z -> M (list Z) := ints 4.
Definition i64s : Z -> M (list Z) := ints 8.

(** *** References *)

(** Whatever object comes next: nothing, something seen before, an object of a
    known class, or the name of one that was stepped over. *)
Definition any (classes : str -> option (M V)) : M (option (ref V)) :=
  start ← pos;
  count ← u32;
  after ← pos;
  '(tag, e) ← (if (Z.land count BYTE_COUNT_MASK =? 0) || (count =? NEW_CLASS_TAG) then mret (count, None)
               else tag ← u32; mret (tag, Some (start + 4 + Z.ldiff count BYTE_COUNT_MASK)));
  if Z.land tag CLASS_MASK =? 0 then
    if tag =? 0 then mret None else fun b => (b, Ok (dict_get tag (bf_refs b)))
  else
    name ← (if tag =? NEW_CLASS_TAG then
              n ← cstring; set_ref (after + MAP_OFFSET) (Named n) ≫= fun _ => mret n
            else fun b =>
              match dict_get (Z.ldiff tag CLASS_MASK) (bf_refs b) with
              | Some (Named []) | None => (b, Err FormatError)
              | Some (Named n) => (b, Ok n)
              | Some (Object v) => (b, match show v with [] => Err FormatError | n => Ok n end)
              end);
    match classes name with
    | None =>
        match e with
        | None => raise FormatError
        | Some e => seek_to e ≫= fun _ => mret (Some (Named name))
        end
    | Some reader =>
        v ← reader;
        set_ref (start + MAP_OFFSET) (Object v) ≫= fun _ => mret (Some (Object v))
    end.

(** [[f() for _ in range(n)]]. *)
Fixpoint times {A} (n : nat) (f : M A) : M (list A) :=
  match n with O => mret [] | S n => a ← f; l ← times n f; mret (a :: l) end.

(** A [TList]: each entry carries an option. *)
Definition tlist (classes : str -> option (M V)) : M (list (option (ref V))) :=
  '(v, e) ← header;
  if v <=? 3 then raise FormatError else
  tobject ≫= fun _ =>
  string ≫= fun _ =>
  n ← i32;
  items ← times (Z.to_nat n) (x ← any classes; string ≫= fun _ => mret x);
  resume e ≫= fun _ => mret items.

(** A [TObjArray]. *)
Definition objarray (classes : str -> option (M V)) : M (list (option (ref V))) :=
  '(_, e) ← header;
  tobject ≫= fun _ =>
  string ≫= fun _ =>
  size ← i32;
  i32 ≫= fun _ =>
  items ← times (Z.to_nat size) (any classes);
  resume e ≫= fun _ => mret items.

(** What a [TClonesArray] holds: objects or holes, or rows of members. *)
Inductive held := Clones (l : list (option V)) | Rows (l : list (dict str V)).

(** Every row's first member, then every row's second. *)
Fixpoint fill_rows (step : dict str V -> M V) (label : str) (rows : list (dict str V)) : M (list (dict str V)) :=
  match rows with
  | [] => mret []
  | r :: rows => v ← step r; l ← fill_rows step label rows; mret (dict_set label v r :: l)
  end.
Fixpoint fill_steps (steps : list (str * (dict str V -> M V))) (rows : list (dict str V)) : M (list (dict str V)) :=
  match steps with
  | [] => mret rows
  | (label, step) :: steps => rows ← fill_rows step label rows; fill_steps steps rows
  end.

Definition clones (classes : str -> M (option (M V))) (fields : option (str -> M (option (list (str * (dict str V -> M V)))))) : M held :=
  '(v, e) ← header;
  bits ← (if 2 <? v then '(_, b) ← tobject; mret b else mret 0);
  (if 1 <? v then string else mret []) ≫= fun _ =>
  text ← string;
  let held := until 0x3B text in
  count ← i32;
  i32 ≫= fun _ =>
  let count := Z.to_nat (Z.abs count) in
  if negb (Z.land bits BYPASS_STREAMER =? 0) && (Z.land bits NO_MEMBER_WISE =? 0) then
    steps ← match fields with Some f => f held | None => mret None end;
    match steps with
    | None => raise UnsupportedFeatureError
    | Some steps =>
        rows ← fill_steps steps (replicate count []);
        p ← pos;
        match e with
        | Some e => if negb (p =? e) then raise FormatError else seek_to e
        | None => mret tt
        end ≫= fun _ => mret (Rows rows)
    end
  else
    one ← classes held;
    match one with
    | None => raise UnsupportedFeatureError
    | Some one =>
        items ← times count (f ← u8; if f =? 0 then mret None else v ← one; mret (Some v));
        resume e ≫= fun _ => mret (Clones items)
    end.
End Buffer.
End RootBuffer.
