(* ===== verification/RootFile.v ===== *)
(** * The ROOT container

    src/xrd/root/file.py: a header, then records each introduced by a key, and
    directories, which are lists of keys; src/xrd/root/streamers.py: what a
    file says its own classes look like. File handles, the process id and the
    other ways a record can be read (trees, objects described by the file) are
    the interface [RootEnv]. *)

From S2P Require Import Prelude PyStr Errors Buffer UrlText Compression RootBuffer.
Open Scope Z_scope.

(** [H] are open binary files, [X] what objects and trees read as. *)
Class RootEnv (H X W : Type) := {
  rh_seek : H -> Z -> W -> W * res unit;
  rh_read : H -> Z -> W -> W * res bytes;
  rh_close : H -> W -> W * res unit;
  getpid : W -> Z;
  (* a [Reopener], by the text of its target *)
  rh_reopen : str -> W -> W * res H;
  (* [value[name]] of something that is not a directory *)
  rx_item : X -> str -> W -> W * res X
}.

Module RootFile.
Import RootBuffer.

Definition MAGIC : bytes := b_ "root".

(** ** Members of classes *)

Record Member := mkMember { mb_name : str; mb_title : str; mb_stype : Z; mb_typename : str; mb_length : Z; mb_count : str }.

(** What the streamer information reads as. *)
Inductive sval := VMember (m : Member) | VArray (l : list (option (ref sval))) | VInfo (name : str) (members : dict str Member).

Section Streamers.
(** [str(obj)]. *)
Variable show : sval -> str.
Notation M := (st exn (Buffer sval)).

Fixpoint headers (n : nat) : M unit := match n with O => mret tt | S n => header ≫= fun _ => headers n end.

(** A [TStreamerElement], [depth] records deep under whichever subclass. *)
Definition read_element (depth : nat) (counted : bool) : M sval :=
  '(_, e) ← header;
  headers (depth - 1) ≫= fun _ =>
  '(base, inner) ← header;
  '(name, title) ← named;
  stype ← i32;
  i32 ≫= fun _ =>
  length ← i32;
  i32 ≫= fun _ =>
  n ← (if base =? 1 then i32 else mret 5);
  i32s n ≫= fun _ =>
  typename ← string;
  resume inner ≫= fun _ =>
  count ← (if counted then i32 ≫= fun _ => string else mret []);
  resume e ≫= fun _ =>
  mret (VMember (mkMember name title stype typename length count)).

(** [{m.name: m for m in elements if isinstance(m, Member)}]. *)
Definition member_dict (l : list (option (ref sval))) : dict str Member :=
  foldl (fun d x => match x with Some (Object (VMember m)) => dict_set (mb_name m) m d | _ => d end) [] l.

(** A [TStreamerInfo]: one class and its members. Only a list of members can
    be gone through; text and pairs hold none. *)
Definition read_info (classes : str -> option (M sval)) : M sval :=
  '(_, e) ← header;
  '(name, _) ← named;
  u32 ≫= fun _ =>
  i32 ≫= fun _ =>
  elements ← any show classes;
  members ← match elements with
            | Some (Object (VArray l)) => mret (member_dict l)
            | Some (Object (VMember _)) => raise TypeError
            | _ => mret []
            end;
  resume e ≫= fun _ => mret (VInfo name members).

Definition ELEMENTS : list str :=
  [s_ "TStreamerElement"; s_ "TStreamerBase"; s_ "TStreamerBasicType"; s_ "TStreamerBasicPointer"; s_ "TStreamerLoop"; s_ "TStreamerObject";
   s_ "TStreamerObjectAny"; s_ "TStreamerObjectPointer"; s_ "TStreamerObjectAnyPointer"; s_ "TStreamerString"; s_ "TStreamerSTL";
   s_ "TStreamerArtificial"].
Definition read_counted : M sval := read_element 1 true.
Definition read_stl_string : M sval := read_element 2 false.
Definition read_objarray (classes : str -> option (M sval)) : M sval := l ← objarray show classes; mret (VArray l).

(** [CLASSES], as deep as the stack lets objects nest. *)
Fixpoint CLASSES (depth : nat) (name : str) : option (M sval) :=
  let inner := match depth with O => fun _ => Some (raise RecursionError) | S depth => CLASSES depth end in
  if bool_decide (name = s_ "TStreamerBasicPointer") || bool_decide (name = s_ "TStreamerLoop") then Some read_counted
  else if bool_decide (name = s_ "TStreamerSTLstring") then Some read_stl_string
  else if bool_decide (name = s_ "TStreamerInfo") then Some (read_info inner)
  else if bool_decide (name = s_ "TObjArray") then Some (read_objarray inner)
  else if bool_decide (name ∈ ELEMENTS) then Some (read_element 1 false)
  else None.
End Streamers.

(** ** Keys *)

Record Key := mkKey {
  k_nbytes : Z; k_version : Z; k_objlen : Z; k_datime : Z; k_keylen : Z; k_cycle : Z; k_seek_key : Z; k_seek_pdir : Z;
  k_classname : str; k_name : str; k_title : str
}.

(** [Key(buf)]. *)
Definition Key_init {V} : st exn (Buffer V) Key :=
  nbytes ← i32;
  version ← u16;
  objlen ← i32;
  datime ← u32;
  keylen ← i16;
  cycle ← i16;
  let seek : st exn (Buffer V) Z := if 1000 <? version then i64 else i32 in
  seek_key ← seek;
  seek_pdir ← seek;
  classname ← string;
  name ← string;
  title ← string;
  mret (mkKey nbytes version objlen datime keylen cycle seek_key seek_pdir classname name title).

Definition time (k : Key) : res (Z * Z * Z * (Z * Z * Z)) := as_datetime (k_datime k).
Definition compressed (k : Key) : bool := negb (k_objlen k =? k_nbytes k - k_keylen k).

(** ** Sources *)

Record Source (H : Type) := mkSource {
  so_handle : H; so_name : str; so_owned : bool; so_info : Z * Z; so_streamers : option (dict str (dict str Member));
  so_pid : Z; so_reopen : option str; so_inherited : option H
}.
Arguments mkSource {H}.
Arguments so_handle {H}.
Arguments so_name {H}.
Arguments so_owned {H}.
Arguments so_info {H}.
Arguments so_streamers {H}.
Arguments so_pid {H}.
Arguments so_reopen {H}.
Arguments so_inherited {H}.

(** A directory, or anything else a name may hold. *)
Record Directory := mkDirectory { dr_keys : list Key; dr_path : str }.
Inductive value (X : Type) := IsDirectory (d : Directory) | IsObject (x : X).
Arguments IsDirectory {X}.
Arguments IsObject {X}.

Section RootFile.
Context {H X W : Type} `{RootEnv H X W}.
Variable codecs : Compression.Codecs.
Variable show : sval -> str.

(** The source is shared by everything read out of the file. *)
Notation M := (st exn (Source H * W)).

Definition on_handle {A} (c : H -> W -> W * res A) : M A := fun s => let '(w, r) := c (so_handle s.1) s.2 in ((s.1, w), r).

(** Open the file again: this process is not the one that did. *)
Definition _adopt : M unit := fun s =>
  match so_reopen s.1 with
  | None => (s, Err UnsupportedFeatureError)
  | Some target =>
      let kept h := let '(mkSource hd n o i st p r inh) := s.1 in mkSource hd n o i st p r h in
      match rh_reopen target s.2 with
      | (w, Err e) => ((kept (Some (so_handle s.1)), w), Err e)
      | (w, Ok h) =>
          ((mkSource h (so_name s.1) (so_owned s.1) (so_info s.1) (so_streamers s.1) (getpid w) (so_reopen s.1) (Some (so_handle s.1)), w), Ok tt)
      end
  end.

Definition read (offset size : Z) : M bytes :=
  (fun s => if so_pid s.1 =? getpid s.2 then (s, Ok tt) else _adopt s) ≫= fun _ =>
  on_handle (fun h => rh_seek h offset) ≫= fun _ =>
  data ← on_handle (fun h => rh_read h size);
  if zlen data =? size then mret data else raise FormatError.

Definition close : M unit := fun s =>
  if so_owned s.1 then let '(w, r) := rh_close (so_handle s.1) s.2 in ((s.1, w), r) else (s, Ok tt).

(** [__getstate__] and [__setstate__]: what travels to another process, and
    the source that arrives there. *)
Definition getstate (so : Source H) : res (str * str * (Z * Z)) :=
  match so_reopen so with None => Err UnsupportedFeatureError | Some t => Ok (so_name so, t, so_info so) end.
Definition setstate (state : str * str * (Z * Z)) (w : W) : W * res (Source H) :=
  let '(name, target, info) := state in
  match rh_reopen target w with
  | (w, Err e) => (w, Err e)
  | (w, Ok h) => (w, Ok (mkSource h name true info None (getpid w) (Some target) None))
  end.

(** Run a reader over bytes. *)
Definition over {V A} (c : st exn (Buffer V) A) (data : bytes) (offset : Z) : res A := (c (Buffer_init data offset)).2.

(** The object a key introduces, decompressed if it needs to be. *)
Definition payload (k : Key) : M bytes :=
  raw ← read (k_seek_key k + k_keylen k) (k_nbytes k - k_keylen k);
  if compressed k then lift (Compression.decompress codecs raw (k_objlen k)) else mret raw.

(** *** Streamer information *)

Definition STREAMER_WINDOW : Z := 512.

(** [found.setdefault(info[0], info[1])] for the entries that are pairs. *)
Definition found_infos (l : list (option (ref sval))) : dict str (dict str Member) :=
  foldl (fun d x => match x with Some (Object (VInfo n ms)) => dict_setdefault n ms d | _ => d end) [] l.

Definition read_streamers (depth : nat) : M (dict str (dict str Member)) :=
  '(seek, nbytes) ← (fun s => (s, Ok (so_info s.1))) : M (Z * Z);
  if (seek <=? 0) || (nbytes <=? 0) then mret [] else
  head ← read seek (Z.min nbytes STREAMER_WINDOW);
  k ← lift (over (V := unit) Key_init head 0);
  data ← payload k;
  l ← lift (over (tlist show (CLASSES show depth)) data (k_keylen k));
  mret (found_infos l).

(** Read once and kept. *)
Definition streamers (depth : nat) : M (dict str (dict str Member)) := fun s =>
  match so_streamers s.1 with
  | Some d => (s, Ok d)
  | None =>
      match read_streamers depth s with
      | ((so, w), Ok d) =>
          ((mkSource (so_handle so) (so_name so) (so_owned so) (so_info so) (Some d) (so_pid so) (so_reopen so) (so_inherited so), w), Ok d)
      | r => r
      end
  end.

(** *** Directories *)

Definition read_keys (seek nbytes : Z) : M (list Key) :=
  data ← read seek nbytes;
  lift (over (V := unit) (Key_init ≫= fun _ => n ← i32; times (Z.to_nat n) Key_init) data 0).

(** The fixed part of a [TDirectory]: where its keys live. *)
Definition directory_fields {V} : st exn (Buffer V) (Z * Z) :=
  version ← u16;
  u32 ≫= fun _ => u32 ≫= fun _ =>
  nbytes_keys ← i32;
  i32 ≫= fun _ =>
  let seek : st exn (Buffer V) Z := if 1000 <? version then i64 else i32 in
  seek ≫= fun _ => seek ≫= fun _ =>
  seek_keys ← seek;
  if (seek_keys <=? 0) || (nbytes_keys <=? 0) then raise FormatError else mret (seek_keys, nbytes_keys).
Definition _directory_record (seek : Z) : M (Z * Z) :=
  data ← read seek 42;
  lift (over (V := unit) directory_fields data 0).

(** The key of a name: the cycle asked for, or the newest. *)
Fixpoint pick (wanted cycle : str) (found : option Key) (keys : list Key) : option Key :=
  match keys with
  | [] => found
  | k :: keys =>
      if bool_decide (k_name k <> wanted) then pick wanted cycle found keys
      else match cycle with
           | [] =>
               pick wanted cycle (match found with
                                  | Some f => if k_cycle f <? k_cycle k then Some k else found
                                  | None => Some k
                                  end) keys
           | _ => if bool_decide (to_dec (k_cycle k) = cycle) then Some k else pick wanted cycle found keys
           end
  end.
Definition _key (d : Directory) (name : str) : res Key :=
  let '(wanted, _, cycle) := partition 0x3B name in
  match pick wanted cycle None (dr_keys d) with Some k => Ok k | None => Err KeyError end.

(** Every name, in the order they were written. *)
Definition keys (d : Directory) : list str := dict_keys (foldl (fun seen k => dict_set (k_name k) tt seen) [] (dr_keys d)).
Definition classnames (d : Directory) : dict str str := foldl (fun m k => dict_set (k_name k) (k_classname k) m) [] (dr_keys d).
Definition contains (d : Directory) (name : str) : bool := is_ok (_key d name).

Definition _subdirectory (d : Directory) (k : Key) : M Directory :=
  '(seek, nbytes) ← _directory_record (k_seek_key k + k_keylen k);
  ks ← read_keys seek nbytes;
  mret (mkDirectory ks (lstrip_by (fun c => c =? 0x2F) (dr_path d ++ 0x2F :: k_name k))).

(** Trees and objects are read elsewhere, by their key. *)
Variable read_other : Key -> M X.

Definition _read (d : Directory) (k : Key) : M (value X) :=
  if bool_decide (k_classname k = s_ "TDirectory") || bool_decide (k_classname k = s_ "TDirectoryFile")
  then s ← _subdirectory d k; mret (IsDirectory s)
  else x ← read_other k; mret (IsObject x).

(** [self[name]], through the directories the name goes through. *)
Fixpoint getitem (fuel : nat) (d : Directory) (name : str) : M (value X) :=
  match fuel with
  | O => raise RecursionError
  | S fuel =>
      match partition 0x2F name with
      | (head, true, rest) =>
          v ← getitem fuel d head;
          match v with
          | IsDirectory s => getitem fuel s rest
          | IsObject x => fun s => let '(w, r) := rx_item x rest s.2 in ((s.1, w), IsObject <$> r)
          end
      | _ => k ← lift (_key d name); _read d k
      end
  end.

(** The names that are trees, and the named one or the only one. *)
Definition TREE_CLASSES : list str := [s_ "TTree"; s_ "TNtuple"; s_ "TNtupleD"].
Definition trees (d : Directory) : list str := k_name <$> filter (fun k => k_classname k ∈ TREE_CLASSES) (dr_keys d).
Definition tree (fuel : nat) (d : Directory) (name : option str) : M (value X) :=
  match name with
  | Some n => getitem fuel d n
  | None => match trees d with [n] => getitem fuel d n | _ => raise KeyError end
  end.

Definition get (fuel : nat) (d : Directory) (name : str) (default : value X) : M (value X) := fun s =>
  match getitem fuel d name s with
  | (s, Err KeyError) => (s, Ok default)
  | r => r
  end.

(** *** Opening *)

Record ROOTFile := mkROOT { rf_version : Z; rf_compression : Z; rf_directory : Directory }.

(** A [struct] format of signed integers of these widths, from [at_] on. *)
Fixpoint fields_at (widths : list nat) (at_ : nat) (data : bytes) : list Z :=
  match widths with
  | [] => []
  | n :: widths => unpack_i (take n (drop at_ data)) :: fields_at widths (at_ + n) data
  end.

Definition set_info (i : Z * Z) : M unit := fun s =>
  ((mkSource (so_handle s.1) (so_name s.1) (so_owned s.1) i (so_streamers s.1) (so_pid s.1) (so_reopen s.1) (so_inherited s.1), s.2), Ok tt).

Definition ROOTFile_init : M ROOTFile :=
  header ← read 0 100;
  if negb (startswith MAGIC header) then raise FormatError else
  match fields_at [4; 4]%nat 4 header with
  | [version; begin] =>
      let wide := 1000000 <=? version in
      match fields_at (if wide then [8; 8; 4; 4; 4; 1; 4; 8; 4] else [4; 4; 4; 4; 4; 1; 4; 4; 4])%nat 12 header with
      | [_; _; _; _; nbytes_name; _; compression; info; ninfo] =>
          set_info (info, ninfo) ≫= fun _ =>
          '(seek, nbytes) ← _directory_record (begin + nbytes_name);
          ks ← read_keys seek nbytes;
          mret (mkROOT (version mod 1000000) compression (mkDirectory ks []))
      | _ => raise StructError
      end
  | _ => raise StructError
  end.

(** [open_root] of a URL or path: the handle is closed if the file is no good. *)
Definition open_root (target : str) : st exn W (Source H * ROOTFile) := fun w =>
  match rh_reopen target w with
  | (w, Err e) => (w, Err e)
  | (w, Ok h) =>
      match ROOTFile_init (mkSource h target true (0, 0) None (getpid w) (Some target) None, w) with
      | ((so, w), Ok f) => (w, Ok (so, f))
      | ((so, w), Err e) => let '(w, c) := rh_close h w in (w, match c with Ok _ => Err e | Err e => Err e end)
      end
  end.
(** Of a file object, which is left open. *)
Definition open_root_handle (h : H) (name : str) : st exn W (Source H * ROOTFile) := fun w =>
  match ROOTFile_init (mkSource h name false (0, 0) None (getpid w) None None, w) with
  | ((so, w), Ok f) => (w, Ok (so, f))
  | ((so, w), Err e) => (w, Err e)
  end.
End RootFile.
End RootFile.
