(* ===== verification/Winfo.v ===== *)
(** * The classes the writer can describe

    src/xrd/root/winfo.py: the streamer information of every class that is
    written, as the donor files have it. *)

From S2P Require Import Prelude PyStr.
Open Scope Z_scope.

Module Winfo.

Definition WRITER_VERSION : Z := 60806.

Definition SUBVERSIONS : dict str Z :=
  [((s_ "TStreamerBase"), 3); ((s_ "TStreamerBasicType"), 2); ((s_ "TStreamerBasicPointer"), 2); ((s_ "TStreamerString"), 2); ((s_ "TStreamerObject"), 2); ((s_ "TStreamerObjectAny"), 2); ((s_ "TStreamerObjectPointer"), 2)].

(** What the subclass adds: the version of a base, or the counter of a
    counted pointer. *)
Inductive extra := XInt (n : Z) | XStr (s : str).

Record Element := mkElement {
  el_kind : str; el_name : str; el_title : str; el_stype : Z; el_size : Z; el_alen : Z; el_adim : Z; el_maxidx : list Z;
  el_typename : str; el_extras : list extra
}.
(** The checksum, the version and the elements of a class. *)
Definition Info : Type := Z * Z * list Element.

Definition info_TH1D : Info := (0xf03880de, 2, [
   mkElement (s_ "TStreamerBase") (s_ "TH1") (s_ "1-Dim histogram base class")
     0 0 0 0 [0; 1063172259; 0; 0; 0] (s_ "BASE") [XInt 7];
   mkElement (s_ "TStreamerBase") (s_ "TArrayD") (s_ "Array of doubles")
     0 0 0 0 [0; 1899622196; 0; 0; 0] (s_ "BASE") [XInt 1]]).
Definition info_TH1F : Info := (0xd91ac083, 2, [
   mkElement (s_ "TStreamerBase") (s_ "TH1") (s_ "1-Dim histogram base class")
     0 0 0 0 [0; 1063172259; 0; 0; 0] (s_ "BASE") [XInt 7];
   mkElement (s_ "TStreamerBase") (s_ "TArrayF") (s_ "Array of floats")
     0 0 0 0 [0; 1510733553; 0; 0; 0] (s_ "BASE") [XInt 1]]).
Definition info_TH2D : Info := (0xc9d05875, 3, [
   mkElement (s_ "TStreamerBase") (s_ "TH2") (s_ "2-Dim histogram base class")
     0 0 0 0 [0; (-1959965212); 0; 0; 0] (s_ "BASE") [XInt 4];
   mkElement (s_ "TStreamerBase") (s_ "TArrayD") (s_ "Array of doubles")
     0 0 0 0 [0; 1899622196; 0; 0; 0] (s_ "BASE") [XInt 1]]).
Definition info_TH2F : Info := (0xb2b2981a, 3, [
   mkElement (s_ "TStreamerBase") (s_ "TH2") (s_ "2-Dim histogram base class")
     0 0 0 0 [0; (-1959965212); 0; 0; 0] (s_ "BASE") [XInt 4];
   mkElement (s_ "TStreamerBase") (s_ "TArrayF") (s_ "Array of floats")
     0 0 0 0 [0; 1510733553; 0; 0; 0] (s_ "BASE") [XInt 1]]).
Definition info_TH2 : Info := (0x8b2d4de4, 4, [
   mkElement (s_ "TStreamerBase") (s_ "TH1") (s_ "1-Dim histogram base class")
     0 0 0 0 [0; 1063172259; 0; 0; 0] (s_ "BASE") [XInt 7];
   mkElement (s_ "TStreamerBasicType") (s_ "fScalefactor") (s_ "Scale factor")
     8 8 0 0 [0; 0; 0; 0; 0] (s_ "double") [];
   mkElement (s_ "TStreamerBasicType") (s_ "fTsumwy") (s_ "Total Sum of weight*Y")
     8 8 0 0 [0; 0; 0; 0; 0] (s_ "double") [];
   mkElement (s_ "TStreamerBasicType") (s_ "fTsumwy2") (s_ "Total Sum of weight*Y*Y")
     8 8 0 0 [0; 0; 0; 0; 0] (s_ "double") [];
   mkElement (s_ "TStreamerBasicType") (s_ "fTsumwxy") (s_ "Total Sum of weight*X*Y")
     8 8 0 0 [0; 0; 0; 0; 0] (s_ "double") []]).
Definition info_TH1 : Info := (0x3f5eb8a3, 7, [
   mkElement (s_ "TStreamerBase") (s_ "TNamed") (s_ "The basis for a named object (name, title)")
     67 0 0 0 [0; (-541636036); 0; 0; 0] (s_ "BASE") [XInt 1];
   mkElement (s_ "TStreamerBase") (s_ "TAttLine") (s_ "Line attributes")
     0 0 0 0 [0; (-1811462839); 0; 0; 0] (s_ "BASE") [XInt 2];
   mkElement (s_ "TStreamerBase") (s_ "TAttFill") (s_ "Fill area attributes")
     0 0 0 0 [0; (-2545006); 0; 0; 0] (s_ "BASE") [XInt 2];
   mkElement (s_ "TStreamerBase") (s_ "TAttMarker") (s_ "Marker attributes")
     0 0 0 0 [0; 689802220; 0; 0; 0] (s_ "BASE") [XInt 2];
   mkElement (s_ "TStreamerBasicType") (s_ "fNcells") (s_ "number of bins(1D), cells (2D) +U/Overflows")
     3 4 0 0 [0; 0; 0; 0; 0] (s_ "int") [];
   mkElement (s_ "TStreamerObject") (s_ "fXaxis") (s_ "X axis descriptor")
     61 216 0 0 [0; 0; 0; 0; 0] (s_ "TAxis") [];
   mkElement (s_ "TStreamerObject") (s_ "fYaxis") (s_ "Y axis descriptor")
     61 216 0 0 [0; 0; 0; 0; 0] (s_ "TAxis") [];
   mkElement (s_ "TStreamerObject") (s_ "fZaxis") (s_ "Z axis descriptor")
     61 216 0 0 [0; 0; 0; 0; 0] (s_ "TAxis") [];
   mkElement (s_ "TStreamerBasicType") (s_ "fBarOffset") (s_ "(1000*offset) for bar charts or legos")
     2 2 0 0 [0; 0; 0; 0; 0] (s_ "short") [];
   mkElement (s_ "TStreamerBasicType") (s_ "fBarWidth") (s_ "(1000*width) for bar charts or legos")
     2 2 0 0 [0; 0; 0; 0; 0] (s_ "short") [];
   mkElement (s_ "TStreamerBasicType") (s_ "fEntries") (s_ "Number of entries")
     8 8 0 0 [0; 0; 0; 0; 0] (s_ "double") [];
   mkElement (s_ "TStreamerBasicType") (s_ "fTsumw") (s_ "Total Sum of weights")
     8 8 0 0 [0; 0; 0; 0; 0] (s_ "double") [];
   mkElement (s_ "TStreamerBasicType") (s_ "fTsumw2") (s_ "Total Sum of squares of weights")
     8 8 0 0 [0; 0; 0; 0; 0] (s_ "double") [];
   mkElement (s_ "TStreamerBasicType") (s_ "fTsumwx") (s_ "Total Sum of weight*X")
     8 8 0 0 [0; 0; 0; 0; 0] (s_ "double") [];
   mkElement (s_ "TStreamerBasicType") (s_ "fTsumwx2") (s_ "Total Sum of weight*X*X")
     8 8 0 0 [0; 0; 0; 0; 0] (s_ "double") [];
   mkElement (s_ "TStreamerBasicType") (s_ "fMaximum") (s_ "Maximum value for plotting")
     8 8 0 0 [0; 0; 0; 0; 0] (s_ "double") [];
   mkElement (s_ "TStreamerBasicType") (s_ "fMinimum") (s_ "Minimum value for plotting")
     8 8 0 0 [0; 0; 0; 0; 0] (s_ "double") [];
   mkElement (s_ "TStreamerBasicType") (s_ "fNormFactor") (s_ "Normalization factor")
     8 8 0 0 [0; 0; 0; 0; 0] (s_ "double") [];
   mkElement (s_ "TStreamerObjectAny") (s_ "fContour") (s_ "Array to display contour levels")
     62 24 0 0 [0; 0; 0; 0; 0] (s_ "TArrayD") [];
   mkElement (s_ "TStreamerObjectAny") (s_ "fSumw2") (s_ "Array of sum of squares of weights")
     62 24 0 0 [0; 0; 0; 0; 0] (s_ "TArrayD") [];
   mkElement (s_ "TStreamerString") (s_ "fOption") (s_ "histogram options")
     65 24 0 0 [0; 0; 0; 0; 0] (s_ "TString") [];
   mkElement (s_ "TStreamerObjectPointer") (s_ "fFunctions") (s_ "->Pointer to list of functions (fits and user)")
     63 8 0 0 [0; 0; 0; 0; 0] (s_ "TList*") [];
   mkElement (s_ "TStreamerBasicType") (s_ "fBufferSize") (s_ "fBuffer size")
     6 4 0 0 [0; 0; 0; 0; 0] (s_ "int") [];
   mkElement (s_ "TStreamerBasicPointer") (s_ "fBuffer") (s_ "[fBufferSize] entry buffer")
     48 8 0 0 [0; 0; 0; 0; 0] (s_ "double*") [XInt 7; XStr (s_ "fBufferSize"); XStr (s_ "TH1")];
   mkElement (s_ "TStreamerBasicType") (s_ "fBinStatErrOpt") (s_ "option for bin statistical errors")
     3 4 0 0 [0; 0; 0; 0; 0] (s_ "TH1::EBinErrorOpt") []]).
Definition info_TGraph : Info := (0x5f7f465, 4, [
   mkElement (s_ "TStreamerBase") (s_ "TNamed") (s_ "The basis for a named object (name, title)")
     67 0 0 0 [0; (-541636036); 0; 0; 0] (s_ "BASE") [XInt 1];
   mkElement (s_ "TStreamerBase") (s_ "TAttLine") (s_ "Line attributes")
     0 0 0 0 [0; (-1811462839); 0; 0; 0] (s_ "BASE") [XInt 2];
   mkElement (s_ "TStreamerBase") (s_ "TAttFill") (s_ "Fill area attributes")
     0 0 0 0 [0; (-2545006); 0; 0; 0] (s_ "BASE") [XInt 2];
   mkElement (s_ "TStreamerBase") (s_ "TAttMarker") (s_ "Marker attributes")
     0 0 0 0 [0; 689802220; 0; 0; 0] (s_ "BASE") [XInt 2];
   mkElement (s_ "TStreamerBasicType") (s_ "fNpoints") (s_ "Number of points <= fMaxSize")
     6 4 0 0 [0; 0; 0; 0; 0] (s_ "int") [];
   mkElement (s_ "TStreamerBasicPointer") (s_ "fX") (s_ "[fNpoints] array of X points")
     48 8 0 0 [0; 0; 0; 0; 0] (s_ "double*") [XInt 4; XStr (s_ "fNpoints"); XStr (s_ "TGraph")];
   mkElement (s_ "TStreamerBasicPointer") (s_ "fY") (s_ "[fNpoints] array of Y points")
     48 8 0 0 [0; 0; 0; 0; 0] (s_ "double*") [XInt 4; XStr (s_ "fNpoints"); XStr (s_ "TGraph")];
   mkElement (s_ "TStreamerObjectPointer") (s_ "fFunctions") (s_ "Pointer to list of functions (fits and user)")
     64 8 0 0 [0; 0; 0; 0; 0] (s_ "TList*") [];
   mkElement (s_ "TStreamerObjectPointer") (s_ "fHistogram") (s_ "Pointer to histogram used for drawing axis")
     64 8 0 0 [0; 0; 0; 0; 0] (s_ "TH1F*") [];
   mkElement (s_ "TStreamerBasicType") (s_ "fMinimum") (s_ "Minimum value for plotting along y")
     8 8 0 0 [0; 0; 0; 0; 0] (s_ "double") [];
   mkElement (s_ "TStreamerBasicType") (s_ "fMaximum") (s_ "Maximum value for plotting along y")
     8 8 0 0 [0; 0; 0; 0; 0] (s_ "double") []]).
Definition info_TGraphErrors : Info := (0x2a7ce30f, 3, [
   mkElement (s_ "TStreamerBase") (s_ "TGraph") (s_ "Graph graphics class")
     0 0 0 0 [0; 100136037; 0; 0; 0] (s_ "BASE") [XInt 4];
   mkElement (s_ "TStreamerBasicPointer") (s_ "fEX") (s_ "[fNpoints] array of X errors")
     48 8 0 0 [0; 0; 0; 0; 0] (s_ "double*") [XInt 4; XStr (s_ "fNpoints"); XStr (s_ "TGraph")];
   mkElement (s_ "TStreamerBasicPointer") (s_ "fEY") (s_ "[fNpoints] array of Y errors")
     48 8 0 0 [0; 0; 0; 0; 0] (s_ "double*") [XInt 4; XStr (s_ "fNpoints"); XStr (s_ "TGraph")]]).
Definition info_TGraphAsymmErrors : Info := (0xcc46af3b, 3, [
   mkElement (s_ "TStreamerBase") (s_ "TGraph") (s_ "Graph graphics class")
     0 0 0 0 [0; 100136037; 0; 0; 0] (s_ "BASE") [XInt 4];
   mkElement (s_ "TStreamerBasicPointer") (s_ "fEXlow") (s_ "[fNpoints] array of X low errors")
     48 8 0 0 [0; 0; 0; 0; 0] (s_ "double*") [XInt 4; XStr (s_ "fNpoints"); XStr (s_ "TGraph")];
   mkElement (s_ "TStreamerBasicPointer") (s_ "fEXhigh") (s_ "[fNpoints] array of X high errors")
     48 8 0 0 [0; 0; 0; 0; 0] (s_ "double*") [XInt 4; XStr (s_ "fNpoints"); XStr (s_ "TGraph")];
   mkElement (s_ "TStreamerBasicPointer") (s_ "fEYlow") (s_ "[fNpoints] array of Y low errors")
     48 8 0 0 [0; 0; 0; 0; 0] (s_ "double*") [XInt 4; XStr (s_ "fNpoints"); XStr (s_ "TGraph")];
   mkElement (s_ "TStreamerBasicPointer") (s_ "fEYhigh") (s_ "[fNpoints] array of Y high errors")
     48 8 0 0 [0; 0; 0; 0; 0] (s_ "double*") [XInt 4; XStr (s_ "fNpoints"); XStr (s_ "TGraph")]]).
Definition info_TTree : Info := (0x58a396eb, 19, [
   mkElement (s_ "TStreamerBase") (s_ "TNamed") (s_ "The basis for a named object (name, title)")
     67 0 0 0 [0; (-541636036); 0; 0; 0] (s_ "BASE") [XInt 1];
   mkElement (s_ "TStreamerBase") (s_ "TAttLine") (s_ "Line attributes")
     0 0 0 0 [0; (-1811462839); 0; 0; 0] (s_ "BASE") [XInt 2];
   mkElement (s_ "TStreamerBase") (s_ "TAttFill") (s_ "Fill area attributes")
     0 0 0 0 [0; (-2545006); 0; 0; 0] (s_ "BASE") [XInt 2];
   mkElement (s_ "TStreamerBase") (s_ "TAttMarker") (s_ "Marker attributes")
     0 0 0 0 [0; 689802220; 0; 0; 0] (s_ "BASE") [XInt 2];
   mkElement (s_ "TStreamerBasicType") (s_ "fEntries") (s_ "Number of entries")
     16 8 0 0 [0; 0; 0; 0; 0] (s_ "Long64_t") [];
   mkElement (s_ "TStreamerBasicType") (s_ "fTotBytes") (s_ "Total number of bytes in all branches before compression")
     16 8 0 0 [0; 0; 0; 0; 0] (s_ "Long64_t") [];
   mkElement (s_ "TStreamerBasicType") (s_ "fZipBytes") (s_ "Total number of bytes in all branches after compression")
     16 8 0 0 [0; 0; 0; 0; 0] (s_ "Long64_t") [];
   mkElement (s_ "TStreamerBasicType") (s_ "fSavedBytes") (s_ "Number of autosaved bytes")
     16 8 0 0 [0; 0; 0; 0; 0] (s_ "Long64_t") [];
   mkElement (s_ "TStreamerBasicType") (s_ "fFlushedBytes") (s_ "Number of auto-flushed bytes")
     16 8 0 0 [0; 0; 0; 0; 0] (s_ "Long64_t") [];
   mkElement (s_ "TStreamerBasicType") (s_ "fWeight") (s_ "Tree weight (see TTree::SetWeight)")
     8 8 0 0 [0; 0; 0; 0; 0] (s_ "double") [];
   mkElement (s_ "TStreamerBasicType") (s_ "fTimerInterval") (s_ "Timer interval in milliseconds")
     3 4 0 0 [0; 0; 0; 0; 0] (s_ "int") [];
   mkElement (s_ "TStreamerBasicType") (s_ "fScanField") (s_ "Number of runs before prompting in Scan")
     3 4 0 0 [0; 0; 0; 0; 0] (s_ "int") [];
   mkElement (s_ "TStreamerBasicType") (s_ "fUpdate") (s_ "Update frequency for EntryLoop")
     3 4 0 0 [0; 0; 0; 0; 0] (s_ "int") [];
   mkElement (s_ "TStreamerBasicType") (s_ "fDefaultEntryOffsetLen") (s_ "Initial Length of fEntryOffset table in the basket buffers")
     3 4 0 0 [0; 0; 0; 0; 0] (s_ "int") [];
   mkElement (s_ "TStreamerBasicType") (s_ "fNClusterRange") (s_ "Number of Cluster range in addition to the one defined by 'AutoFlush'")
     6 4 0 0 [0; 0; 0; 0; 0] (s_ "int") [];
   mkElement (s_ "TStreamerBasicType") (s_ "fMaxEntries") (s_ "Maximum number of entries in case of circular buffers")
     16 8 0 0 [0; 0; 0; 0; 0] (s_ "Long64_t") [];
   mkElement (s_ "TStreamerBasicType") (s_ "fMaxEntryLoop") (s_ "Maximum number of entries to process")
     16 8 0 0 [0; 0; 0; 0; 0] (s_ "Long64_t") [];
   mkElement (s_ "TStreamerBasicType") (s_ "fMaxVirtualSize") (s_ "Maximum total size of buffers kept in memory")
     16 8 0 0 [0; 0; 0; 0; 0] (s_ "Long64_t") [];
   mkElement (s_ "TStreamerBasicType") (s_ "fAutoSave") (s_ "Autosave tree when fAutoSave entries written or -fAutoSave (compressed) bytes produced")
     16 8 0 0 [0; 0; 0; 0; 0] (s_ "Long64_t") [];
   mkElement (s_ "TStreamerBasicType") (s_ "fAutoFlush") (s_ "Auto-flush tree when fAutoFlush entries written or -fAutoFlush (compressed) bytes produced")
     16 8 0 0 [0; 0; 0; 0; 0] (s_ "Long64_t") [];
   mkElement (s_ "TStreamerBasicType") (s_ "fEstimate") (s_ "Number of entries to estimate histogram limits")
     16 8 0 0 [0; 0; 0; 0; 0] (s_ "Long64_t") [];
   mkElement (s_ "TStreamerBasicPointer") (s_ "fClusterRangeEnd") (s_ "[fNClusterRange] Last entry of a cluster range.")
     56 8 0 0 [0; 0; 0; 0; 0] (s_ "Long64_t*") [XInt 19; XStr (s_ "fNClusterRange"); XStr (s_ "TTree")];
   mkElement (s_ "TStreamerBasicPointer") (s_ "fClusterSize") (s_ "[fNClusterRange] Number of entries in each cluster for a given range.")
     56 8 0 0 [0; 0; 0; 0; 0] (s_ "Long64_t*") [XInt 19; XStr (s_ "fNClusterRange"); XStr (s_ "TTree")];
   mkElement (s_ "TStreamerObject") (s_ "fBranches") (s_ "List of Branches")
     61 64 0 0 [0; 0; 0; 0; 0] (s_ "TObjArray") [];
   mkElement (s_ "TStreamerObject") (s_ "fLeaves") (s_ "Direct pointers to individual branch leaves")
     61 64 0 0 [0; 0; 0; 0; 0] (s_ "TObjArray") [];
   mkElement (s_ "TStreamerObjectPointer") (s_ "fAliases") (s_ "List of aliases for expressions based on the tree branches.")
     64 8 0 0 [0; 0; 0; 0; 0] (s_ "TList*") [];
   mkElement (s_ "TStreamerObjectAny") (s_ "fIndexValues") (s_ "Sorted index values")
     62 24 0 0 [0; 0; 0; 0; 0] (s_ "TArrayD") [];
   mkElement (s_ "TStreamerObjectAny") (s_ "fIndex") (s_ "Index of sorted values")
     62 24 0 0 [0; 0; 0; 0; 0] (s_ "TArrayI") [];
   mkElement (s_ "TStreamerObjectPointer") (s_ "fTreeIndex") (s_ "Pointer to the tree Index (if any)")
     64 8 0 0 [0; 0; 0; 0; 0] (s_ "TVirtualIndex*") [];
   mkElement (s_ "TStreamerObjectPointer") (s_ "fFriends") (s_ "pointer to list of friend elements")
     64 8 0 0 [0; 0; 0; 0; 0] (s_ "TList*") [];
   mkElement (s_ "TStreamerObjectPointer") (s_ "fUserInfo") (s_ "pointer to a list of user objects associated to this Tree")
     64 8 0 0 [0; 0; 0; 0; 0] (s_ "TList*") [];
   mkElement (s_ "TStreamerObjectPointer") (s_ "fBranchRef") (s_ "Branch supporting the TRefTable (if any)")
     64 8 0 0 [0; 0; 0; 0; 0] (s_ "TBranchRef*") []]).
Definition info_TBranch : Info := (0x59108cb8, 12, [
   mkElement (s_ "TStreamerBase") (s_ "TNamed") (s_ "The basis for a named object (name, title)")
     67 0 0 0 [0; (-541636036); 0; 0; 0] (s_ "BASE") [XInt 1];
   mkElement (s_ "TStreamerBase") (s_ "TAttFill") (s_ "Fill area attributes")
     0 0 0 0 [0; (-2545006); 0; 0; 0] (s_ "BASE") [XInt 2];
   mkElement (s_ "TStreamerBasicType") (s_ "fCompress") (s_ "Compression level and algorithm")
     3 4 0 0 [0; 0; 0; 0; 0] (s_ "int") [];
   mkElement (s_ "TStreamerBasicType") (s_ "fBasketSize") (s_ "Initial Size of  Basket Buffer")
     3 4 0 0 [0; 0; 0; 0; 0] (s_ "int") [];
   mkElement (s_ "TStreamerBasicType") (s_ "fEntryOffsetLen") (s_ "Initial Length of fEntryOffset table in the basket buffers")
     3 4 0 0 [0; 0; 0; 0; 0] (s_ "int") [];
   mkElement (s_ "TStreamerBasicType") (s_ "fWriteBasket") (s_ "Last basket number written")
     3 4 0 0 [0; 0; 0; 0; 0] (s_ "int") [];
   mkElement (s_ "TStreamerBasicType") (s_ "fEntryNumber") (s_ "Current entry number (last one filled in this branch)")
     16 8 0 0 [0; 0; 0; 0; 0] (s_ "Long64_t") [];
   mkElement (s_ "TStreamerBasicType") (s_ "fOffset") (s_ "Offset of this branch")
     3 4 0 0 [0; 0; 0; 0; 0] (s_ "int") [];
   mkElement (s_ "TStreamerBasicType") (s_ "fMaxBaskets") (s_ "Maximum number of Baskets so far")
     6 4 0 0 [0; 0; 0; 0; 0] (s_ "int") [];
   mkElement (s_ "TStreamerBasicType") (s_ "fSplitLevel") (s_ "Branch split level")
     3 4 0 0 [0; 0; 0; 0; 0] (s_ "int") [];
   mkElement (s_ "TStreamerBasicType") (s_ "fEntries") (s_ "Number of entries")
     16 8 0 0 [0; 0; 0; 0; 0] (s_ "Long64_t") [];
   mkElement (s_ "TStreamerBasicType") (s_ "fFirstEntry") (s_ "Number of the first entry in this branch")
     16 8 0 0 [0; 0; 0; 0; 0] (s_ "Long64_t") [];
   mkElement (s_ "TStreamerBasicType") (s_ "fTotBytes") (s_ "Total number of bytes in all leaves before compression")
     16 8 0 0 [0; 0; 0; 0; 0] (s_ "Long64_t") [];
   mkElement (s_ "TStreamerBasicType") (s_ "fZipBytes") (s_ "Total number of bytes in all leaves after compression")
     16 8 0 0 [0; 0; 0; 0; 0] (s_ "Long64_t") [];
   mkElement (s_ "TStreamerObject") (s_ "fBranches") (s_ "-> List of Branches of this branch")
     61 64 0 0 [0; 0; 0; 0; 0] (s_ "TObjArray") [];
   mkElement (s_ "TStreamerObject") (s_ "fLeaves") (s_ "-> List of leaves of this branch")
     61 64 0 0 [0; 0; 0; 0; 0] (s_ "TObjArray") [];
   mkElement (s_ "TStreamerObject") (s_ "fBaskets") (s_ "-> List of baskets of this branch")
     61 64 0 0 [0; 0; 0; 0; 0] (s_ "TObjArray") [];
   mkElement (s_ "TStreamerBasicPointer") (s_ "fBasketBytes") (s_ "[fMaxBaskets] Length of baskets on file")
     43 4 0 0 [0; 0; 0; 0; 0] (s_ "int*") [XInt 12; XStr (s_ "fMaxBaskets"); XStr (s_ "TBranch")];
   mkElement (s_ "TStreamerBasicPointer") (s_ "fBasketEntry") (s_ "[fMaxBaskets] Table of first entry in each basket")
     56 8 0 0 [0; 0; 0; 0; 0] (s_ "Long64_t*") [XInt 12; XStr (s_ "fMaxBaskets"); XStr (s_ "TBranch")];
   mkElement (s_ "TStreamerBasicPointer") (s_ "fBasketSeek") (s_ "[fMaxBaskets] Addresses of baskets on file")
     56 8 0 0 [0; 0; 0; 0; 0] (s_ "Long64_t*") [XInt 12; XStr (s_ "fMaxBaskets"); XStr (s_ "TBranch")];
   mkElement (s_ "TStreamerString") (s_ "fFileName") (s_ "Name of file where buffers are stored (" ++ 0x22 :: s_ "" ++ 0x22 :: s_ " if in same file as Tree header)")
     65 24 0 0 [0; 0; 0; 0; 0] (s_ "TString") []]).
Definition info_TLeaf : Info := (0x6d1e8152, 2, [
   mkElement (s_ "TStreamerBase") (s_ "TNamed") (s_ "The basis for a named object (name, title)")
     67 0 0 0 [0; (-541636036); 0; 0; 0] (s_ "BASE") [XInt 1];
   mkElement (s_ "TStreamerBasicType") (s_ "fLen") (s_ "Number of fixed length elements")
     3 4 0 0 [0; 0; 0; 0; 0] (s_ "int") [];
   mkElement (s_ "TStreamerBasicType") (s_ "fLenType") (s_ "Number of bytes for this data type")
     3 4 0 0 [0; 0; 0; 0; 0] (s_ "int") [];
   mkElement (s_ "TStreamerBasicType") (s_ "fOffset") (s_ "Offset in ClonesArray object (if one)")
     3 4 0 0 [0; 0; 0; 0; 0] (s_ "int") [];
   mkElement (s_ "TStreamerBasicType") (s_ "fIsRange") (s_ "(=kTRUE if leaf has a range, kFALSE otherwise)")
     18 1 0 0 [0; 0; 0; 0; 0] (s_ "bool") [];
   mkElement (s_ "TStreamerBasicType") (s_ "fIsUnsigned") (s_ "(=kTRUE if unsigned, kFALSE otherwise)")
     18 1 0 0 [0; 0; 0; 0; 0] (s_ "bool") [];
   mkElement (s_ "TStreamerObjectPointer") (s_ "fLeafCount") (s_ "Pointer to Leaf count if variable length (we do not own the counter)")
     64 8 0 0 [0; 0; 0; 0; 0] (s_ "TLeaf*") []]).
Definition info_TLeafO : Info := (0x2ae48d3, 1, [
   mkElement (s_ "TStreamerBase") (s_ "TLeaf") (s_ "Leaf: description of a Branch data type")
     0 0 0 0 [0; 1830715730; 0; 0; 0] (s_ "BASE") [XInt 2];
   mkElement (s_ "TStreamerBasicType") (s_ "fMinimum") (s_ "Minimum value if leaf range is specified")
     18 1 0 0 [0; 0; 0; 0; 0] (s_ "bool") [];
   mkElement (s_ "TStreamerBasicType") (s_ "fMaximum") (s_ "Maximum value if leaf range is specified")
     18 1 0 0 [0; 0; 0; 0; 0] (s_ "bool") []]).
Definition info_TLeafB : Info := (0xf1e4b5e, 1, [
   mkElement (s_ "TStreamerBase") (s_ "TLeaf") (s_ "Leaf: description of a Branch data type")
     0 0 0 0 [0; 1830715730; 0; 0; 0] (s_ "BASE") [XInt 2];
   mkElement (s_ "TStreamerBasicType") (s_ "fMinimum") (s_ "Minimum value if leaf range is specified")
     1 1 0 0 [0; 0; 0; 0; 0] (s_ "char") [];
   mkElement (s_ "TStreamerBasicType") (s_ "fMaximum") (s_ "Maximum value if leaf range is specified")
     1 1 0 0 [0; 0; 0; 0; 0] (s_ "char") []]).
Definition info_TLeafS : Info := (0x150ceecf, 1, [
   mkElement (s_ "TStreamerBase") (s_ "TLeaf") (s_ "Leaf: description of a Branch data type")
     0 0 0 0 [0; 1830715730; 0; 0; 0] (s_ "BASE") [XInt 2];
   mkElement (s_ "TStreamerBasicType") (s_ "fMinimum") (s_ "Minimum value if leaf range is specified")
     2 2 0 0 [0; 0; 0; 0; 0] (s_ "short") [];
   mkElement (s_ "TStreamerBasicType") (s_ "fMaximum") (s_ "Maximum value if leaf range is specified")
     2 2 0 0 [0; 0; 0; 0; 0] (s_ "short") []]).
Definition info_TLeafI : Info := (0x7e6aae19, 1, [
   mkElement (s_ "TStreamerBase") (s_ "TLeaf") (s_ "Leaf: description of a Branch data type")
     0 0 0 0 [0; 1830715730; 0; 0; 0] (s_ "BASE") [XInt 2];
   mkElement (s_ "TStreamerBasicType") (s_ "fMinimum") (s_ "Minimum value if leaf range is specified")
     3 4 0 0 [0; 0; 0; 0; 0] (s_ "int") [];
   mkElement (s_ "TStreamerBasicType") (s_ "fMaximum") (s_ "Maximum value if leaf range is specified")
     3 4 0 0 [0; 0; 0; 0; 0] (s_ "int") []]).
Definition info_TLeafL : Info := (0xde320862, 1, [
   mkElement (s_ "TStreamerBase") (s_ "TLeaf") (s_ "Leaf: description of a Branch data type")
     0 0 0 0 [0; 1830715730; 0; 0; 0] (s_ "BASE") [XInt 2];
   mkElement (s_ "TStreamerBasicType") (s_ "fMinimum") (s_ "Minimum value if leaf range is specified")
     16 8 0 0 [0; 0; 0; 0; 0] (s_ "Long64_t") [];
   mkElement (s_ "TStreamerBasicType") (s_ "fMaximum") (s_ "Maximum value if leaf range is specified")
     16 8 0 0 [0; 0; 0; 0; 0] (s_ "Long64_t") []]).
Definition info_TLeafF : Info := (0x3add9d72, 1, [
   mkElement (s_ "TStreamerBase") (s_ "TLeaf") (s_ "Leaf: description of a Branch data type")
     0 0 0 0 [0; 1830715730; 0; 0; 0] (s_ "BASE") [XInt 2];
   mkElement (s_ "TStreamerBasicType") (s_ "fMinimum") (s_ "Minimum value if leaf range is specified")
     5 4 0 0 [0; 0; 0; 0; 0] (s_ "float") [];
   mkElement (s_ "TStreamerBasicType") (s_ "fMaximum") (s_ "Maximum value if leaf range is specified")
     5 4 0 0 [0; 0; 0; 0; 0] (s_ "float") []]).
Definition info_TLeafD : Info := (0x118e8776, 1, [
   mkElement (s_ "TStreamerBase") (s_ "TLeaf") (s_ "Leaf: description of a Branch data type")
     0 0 0 0 [0; 1830715730; 0; 0; 0] (s_ "BASE") [XInt 2];
   mkElement (s_ "TStreamerBasicType") (s_ "fMinimum") (s_ "Minimum value if leaf range is specified")
     8 8 0 0 [0; 0; 0; 0; 0] (s_ "double") [];
   mkElement (s_ "TStreamerBasicType") (s_ "fMaximum") (s_ "Maximum value if leaf range is specified")
     8 8 0 0 [0; 0; 0; 0; 0] (s_ "double") []]).
Definition info_TObjArray : Info := (0xa99e6552, 3, [
   mkElement (s_ "TStreamerBase") (s_ "TSeqCollection") (s_ "Sequenceable collection ABC")
     0 0 0 0 [0; (-60015674); 0; 0; 0] (s_ "BASE") [XInt 0];
   mkElement (s_ "TStreamerBasicType") (s_ "fLowerBound") (s_ "Lower bound of the array")
     3 4 0 0 [0; 0; 0; 0; 0] (s_ "int") [];
   mkElement (s_ "TStreamerBasicType") (s_ "fLast") (s_ "Last element in array containing an object")
     3 4 0 0 [0; 0; 0; 0; 0] (s_ "int") []]).
Definition info_TNamed : Info := (0xdfb74a3c, 1, [
   mkElement (s_ "TStreamerBase") (s_ "TObject") (s_ "Basic ROOT object")
     66 0 0 0 [0; (-1877229523); 0; 0; 0] (s_ "BASE") [XInt 1];
   mkElement (s_ "TStreamerString") (s_ "fName") (s_ "object identifier")
     65 24 0 0 [0; 0; 0; 0; 0] (s_ "TString") [];
   mkElement (s_ "TStreamerString") (s_ "fTitle") (s_ "object title")
     65 24 0 0 [0; 0; 0; 0; 0] (s_ "TString") []]).
Definition info_TObject : Info := (0x901bc02d, 1, [
   mkElement (s_ "TStreamerBasicType") (s_ "fUniqueID") (s_ "object unique identifier")
     13 4 0 0 [0; 0; 0; 0; 0] (s_ "unsigned int") [];
   mkElement (s_ "TStreamerBasicType") (s_ "fBits") (s_ "bit field status word")
     15 4 0 0 [0; 0; 0; 0; 0] (s_ "unsigned int") []]).
Definition info_TAttLine : Info := (0x94074549, 2, [
   mkElement (s_ "TStreamerBasicType") (s_ "fLineColor") (s_ "Line color")
     2 2 0 0 [0; 0; 0; 0; 0] (s_ "short") [];
   mkElement (s_ "TStreamerBasicType") (s_ "fLineStyle") (s_ "Line style")
     2 2 0 0 [0; 0; 0; 0; 0] (s_ "short") [];
   mkElement (s_ "TStreamerBasicType") (s_ "fLineWidth") (s_ "Line width")
     2 2 0 0 [0; 0; 0; 0; 0] (s_ "short") []]).
Definition info_TAttFill : Info := (0xffd92a92, 2, [
   mkElement (s_ "TStreamerBasicType") (s_ "fFillColor") (s_ "Fill area color")
     2 2 0 0 [0; 0; 0; 0; 0] (s_ "short") [];
   mkElement (s_ "TStreamerBasicType") (s_ "fFillStyle") (s_ "Fill area style")
     2 2 0 0 [0; 0; 0; 0; 0] (s_ "short") []]).
Definition info_TAttMarker : Info := (0x291d8bec, 2, [
   mkElement (s_ "TStreamerBasicType") (s_ "fMarkerColor") (s_ "Marker color")
     2 2 0 0 [0; 0; 0; 0; 0] (s_ "short") [];
   mkElement (s_ "TStreamerBasicType") (s_ "fMarkerStyle") (s_ "Marker style")
     2 2 0 0 [0; 0; 0; 0; 0] (s_ "short") [];
   mkElement (s_ "TStreamerBasicType") (s_ "fMarkerSize") (s_ "Marker size")
     5 4 0 0 [0; 0; 0; 0; 0] (s_ "float") []]).
Definition info_TAxis : Info := (0x5a496e70, 10, [
   mkElement (s_ "TStreamerBase") (s_ "TNamed") (s_ "The basis for a named object (name, title)")
     67 0 0 0 [0; (-541636036); 0; 0; 0] (s_ "BASE") [XInt 1];
   mkElement (s_ "TStreamerBase") (s_ "TAttAxis") (s_ "Axis attributes")
     0 0 0 0 [0; 1550843710; 0; 0; 0] (s_ "BASE") [XInt 4];
   mkElement (s_ "TStreamerBasicType") (s_ "fNbins") (s_ "Number of bins")
     3 4 0 0 [0; 0; 0; 0; 0] (s_ "int") [];
   mkElement (s_ "TStreamerBasicType") (s_ "fXmin") (s_ "low edge of first bin")
     8 8 0 0 [0; 0; 0; 0; 0] (s_ "double") [];
   mkElement (s_ "TStreamerBasicType") (s_ "fXmax") (s_ "upper edge of last bin")
     8 8 0 0 [0; 0; 0; 0; 0] (s_ "double") [];
   mkElement (s_ "TStreamerObjectAny") (s_ "fXbins") (s_ "Bin edges array in X")
     62 24 0 0 [0; 0; 0; 0; 0] (s_ "TArrayD") [];
   mkElement (s_ "TStreamerBasicType") (s_ "fFirst") (s_ "first bin to display")
     3 4 0 0 [0; 0; 0; 0; 0] (s_ "int") [];
   mkElement (s_ "TStreamerBasicType") (s_ "fLast") (s_ "last bin to display")
     3 4 0 0 [0; 0; 0; 0; 0] (s_ "int") [];
   mkElement (s_ "TStreamerBasicType") (s_ "fBits2") (s_ "second bit status word")
     12 2 0 0 [0; 0; 0; 0; 0] (s_ "unsigned short") [];
   mkElement (s_ "TStreamerBasicType") (s_ "fTimeDisplay") (s_ "on/off displaying time values instead of numerics")
     18 1 0 0 [0; 0; 0; 0; 0] (s_ "bool") [];
   mkElement (s_ "TStreamerString") (s_ "fTimeFormat") (s_ "Date&time format, ex: 09/12/99 12:34:00")
     65 24 0 0 [0; 0; 0; 0; 0] (s_ "TString") [];
   mkElement (s_ "TStreamerObjectPointer") (s_ "fLabels") (s_ "List of labels")
     64 8 0 0 [0; 0; 0; 0; 0] (s_ "THashList*") [];
   mkElement (s_ "TStreamerObjectPointer") (s_ "fModLabs") (s_ "List of modified labels")
     64 8 0 0 [0; 0; 0; 0; 0] (s_ "TList*") []]).
Definition info_TAttAxis : Info := (0x5c6fff3e, 4, [
   mkElement (s_ "TStreamerBasicType") (s_ "fNdivisions") (s_ "Number of divisions(10000*n3 + 100*n2 + n1)")
     3 4 0 0 [0; 0; 0; 0; 0] (s_ "int") [];
   mkElement (s_ "TStreamerBasicType") (s_ "fAxisColor") (s_ "Color of the line axis")
     2 2 0 0 [0; 0; 0; 0; 0] (s_ "short") [];
   mkElement (s_ "TStreamerBasicType") (s_ "fLabelColor") (s_ "Color of labels")
     2 2 0 0 [0; 0; 0; 0; 0] (s_ "short") [];
   mkElement (s_ "TStreamerBasicType") (s_ "fLabelFont") (s_ "Font for labels")
     2 2 0 0 [0; 0; 0; 0; 0] (s_ "short") [];
   mkElement (s_ "TStreamerBasicType") (s_ "fLabelOffset") (s_ "Offset of labels")
     5 4 0 0 [0; 0; 0; 0; 0] (s_ "float") [];
   mkElement (s_ "TStreamerBasicType") (s_ "fLabelSize") (s_ "Size of labels")
     5 4 0 0 [0; 0; 0; 0; 0] (s_ "float") [];
   mkElement (s_ "TStreamerBasicType") (s_ "fTickLength") (s_ "Length of tick marks")
     5 4 0 0 [0; 0; 0; 0; 0] (s_ "float") [];
   mkElement (s_ "TStreamerBasicType") (s_ "fTitleOffset") (s_ "Offset of axis title")
     5 4 0 0 [0; 0; 0; 0; 0] (s_ "float") [];
   mkElement (s_ "TStreamerBasicType") (s_ "fTitleSize") (s_ "Size of axis title")
     5 4 0 0 [0; 0; 0; 0; 0] (s_ "float") [];
   mkElement (s_ "TStreamerBasicType") (s_ "fTitleColor") (s_ "Color of axis title")
     2 2 0 0 [0; 0; 0; 0; 0] (s_ "short") [];
   mkElement (s_ "TStreamerBasicType") (s_ "fTitleFont") (s_ "Font for axis title")
     2 2 0 0 [0; 0; 0; 0; 0] (s_ "short") []]).
Definition info_THashList : Info := (0xcc7e49c1, 0, [
   mkElement (s_ "TStreamerBase") (s_ "TList") (s_ "Doubly linked list")
     0 0 0 0 [0; 1774568379; 0; 0; 0] (s_ "BASE") [XInt 5]]).
Definition info_TList : Info := (0x69c5c3bb, 5, [
   mkElement (s_ "TStreamerBase") (s_ "TSeqCollection") (s_ "Sequenceable collection ABC")
     0 0 0 0 [0; (-60015674); 0; 0; 0] (s_ "BASE") [XInt 0]]).
Definition info_TSeqCollection : Info := (0xfc6c3bc6, 0, [
   mkElement (s_ "TStreamerBase") (s_ "TCollection") (s_ "Collection abstract base class")
     0 0 0 0 [0; 1474546588; 0; 0; 0] (s_ "BASE") [XInt 3]]).
Definition info_TCollection : Info := (0x57e3cb9c, 3, [
   mkElement (s_ "TStreamerBase") (s_ "TObject") (s_ "Basic ROOT object")
     66 0 0 0 [0; (-1877229523); 0; 0; 0] (s_ "BASE") [XInt 1];
   mkElement (s_ "TStreamerString") (s_ "fName") (s_ "name of the collection")
     65 24 0 0 [0; 0; 0; 0; 0] (s_ "TString") [];
   mkElement (s_ "TStreamerBasicType") (s_ "fSize") (s_ "number of elements in collection")
     3 4 0 0 [0; 0; 0; 0; 0] (s_ "int") []]).
Definition info_TString : Info := (0x17419, 2, [
]).

Definition INFOS : dict str Info :=
  [((s_ "TH1D"), info_TH1D);
   ((s_ "TH1F"), info_TH1F);
   ((s_ "TH2D"), info_TH2D);
   ((s_ "TH2F"), info_TH2F);
   ((s_ "TH2"), info_TH2);
   ((s_ "TH1"), info_TH1);
   ((s_ "TGraph"), info_TGraph);
   ((s_ "TGraphErrors"), info_TGraphErrors);
   ((s_ "TGraphAsymmErrors"), info_TGraphAsymmErrors);
   ((s_ "TTree"), info_TTree);
   ((s_ "TBranch"), info_TBranch);
   ((s_ "TLeaf"), info_TLeaf);
   ((s_ "TLeafO"), info_TLeafO);
   ((s_ "TLeafB"), info_TLeafB);
   ((s_ "TLeafS"), info_TLeafS);
   ((s_ "TLeafI"), info_TLeafI);
   ((s_ "TLeafL"), info_TLeafL);
   ((s_ "TLeafF"), info_TLeafF);
   ((s_ "TLeafD"), info_TLeafD);
   ((s_ "TObjArray"), info_TObjArray);
   ((s_ "TNamed"), info_TNamed);
   ((s_ "TObject"), info_TObject);
   ((s_ "TAttLine"), info_TAttLine);
   ((s_ "TAttFill"), info_TAttFill);
   ((s_ "TAttMarker"), info_TAttMarker);
   ((s_ "TAxis"), info_TAxis);
   ((s_ "TAttAxis"), info_TAttAxis);
   ((s_ "THashList"), info_THashList);
   ((s_ "TList"), info_TList);
   ((s_ "TSeqCollection"), info_TSeqCollection);
   ((s_ "TCollection"), info_TCollection);
   ((s_ "TString"), info_TString)].
End Winfo.
