(* ===== verification/RootPack.v ===== *)
(** * Objects as ROOT bytes

    The first half of src/xrd/root/writer.py: [WBuffer], bytes being written
    with the record bookkeeping ROOT wraps them in, what an object writes as
    ([_record], [_element] and [_payload]), and the streamer information that
    describes it ([_closure], [_streamers]). A floating point number is its bit
    pattern; [struct] and its rounding are written out. *)

From S2P Require Import Prelude PyStr Errors Buffer UrlText RootBuffer Winfo.
Open Scope Z_scope.

Module RootPack.
Import Winfo.

(** ** Values *)

(** The types a column can be declared as, by name. *)
Inductive pytype := TBool | TInt | TFloat | TOther.

(** What a member, an object or an entry can be. A histogram or a graph has
    its class and its members; [len] of it, and what it is gone through as. *)
Inductive pyval :=
| PNone
| PBool (b : bool)
| PInt (n : Z)
| PFloat (bits : Z)
| PStr (s : str)
| PBytes (b : bytes)
| PArray (typecode : str) (itemsize : Z) (values : list pyval)
| PList (l : list pyval)
| PTuple (l : list pyval)
| PDict (d : list (str * pyval))
| PHist (classname : str) (members : list (str * pyval)) (len : Z)
| PGraph (classname : str) (members : list (str * pyval)) (points : list pyval)
| PType (t : pytype).

(** [if value:]. *)
Definition truthy (v : pyval) : bool :=
  match v with
  | PNone => false
  | PBool b => b
  | PInt n => negb (n =? 0)
  | PFloat bits => negb (bits mod 2 ^ 63 =? 0)
  | PStr s => negb (bool_decide (s = []))
  | PBytes b => negb (bool_decide (b = []))
  | PArray _ _ l | PList l | PTuple l | PGraph _ _ l => negb (zlen l =? 0)
  | PDict d => negb (zlen d =? 0)
  | PHist _ _ n => negb (n =? 0)
  | PType _ => true
  end.

(** [list(value)]. *)
Definition py_list (v : pyval) : res (list pyval) :=
  match v with
  | PArray _ _ l | PList l | PTuple l | PGraph _ _ l => Ok l
  | PStr s => Ok ((fun c => PStr [c]) <$> s)
  | PBytes b => Ok ((fun c => PInt (b2z c)) <$> b)
  | PDict d => Ok ((fun kv => PStr kv.1) <$> d)
  | PNone | PBool _ | PInt _ | PFloat _ | PHist _ _ _ | PType _ => Err TypeError
  end.

(** [value if value is not None else ()]. *)
Definition or_empty (v : pyval) : pyval := match v with PNone => PTuple [] | v => v end.

(** *** Numbers *)

Definition half_even (m k : Z) : Z :=
  let q := Z.shiftr m k in
  let r := m - Z.shiftl q k in
  let half := Z.shiftl 1 (k - 1) in
  if (half <? r) || ((r =? half) && Z.odd q) then q + 1 else q.

(** [float(n)]; none when it is too large. *)
Definition float_of_int (n : Z) : option Z :=
  if n =? 0 then Some 0 else
  let m := Z.abs n in
  let e := Z.log2 m in
  let f := if e <=? 52 then Z.shiftl m (52 - e) else half_even m (e - 52) in
  let bits := Z.shiftl (e + 1022) 52 + f in
  if bits <? 0x7FF0000000000000 then Some (bits + (if n <? 0 then 2 ^ 63 else 0)) else None.

(** The nearest [float32]; none when it is too large. *)
Definition float_narrow (bits : Z) : option Z :=
  let sign := Z.shiftl (Z.shiftr bits 63) 31 in
  let e := Z.land (Z.shiftr bits 52) 0x7FF in
  let f := Z.land bits (2 ^ 52 - 1) in
  if e =? 0x7FF then Some (sign + 0x7F800000 + (if f =? 0 then 0 else Z.lor 0x400000 (Z.shiftr f 29)))
  else if e =? 0 then Some sign
  else
    let m := 2 ^ 52 + f in
    let r := if 897 <=? e then Z.shiftl (e - 897) 23 + half_even m 29 else half_even m (926 - e) in
    if r <? 0x7F800000 then Some (sign + r) else None.

(** [int(x)] of a float: cut towards zero. *)
Definition float_trunc (bits : Z) : res Z :=
  let e := Z.land (Z.shiftr bits 52) 0x7FF in
  let f := Z.land bits (2 ^ 52 - 1) in
  if e =? 0x7FF then Err (if f =? 0 then OverflowError else ValueError)
  else
    let m := if e =? 0 then f else 2 ^ 52 + f in
    let v := Z.shiftl m (e - 1075) in
    Ok (if Z.testbit bits 63 then - v else v).

Definition py_int_of (v : pyval) : res Z :=
  match v with
  | PInt n => Ok n
  | PBool b => Ok (if b then 1 else 0)
  | PFloat bits => float_trunc bits
  | PStr s => match py_int s with Some n => Ok n | None => Err ValueError end
  | _ => Err TypeError
  end.

(** *** [struct] *)

(** One value of a format; [?] takes anything. *)
Definition pack_int (signed : bool) (n : nat) (v : pyval) : res bytes :=
  match v with
  | PInt i => if signed then pack_i n i else pack_u n i
  | PBool b => pack_u n (if b then 1 else 0)
  | _ => Err StructError
  end.
Definition pack_double (v : pyval) : res Z :=
  match v with
  | PFloat bits => Ok bits
  | PInt n => match float_of_int n with Some bits => Ok bits | None => Err StructError end
  | PBool b => Ok (if b then 0x3FF0000000000000 else 0)
  | _ => Err StructError
  end.
Definition pack_float (v : pyval) : res bytes :=
  bits ← pack_double v;
  match float_narrow bits with Some f => pack_u 4 f | None => Err OverflowError end.

Definition PACKS : dict str (pyval -> res bytes) :=
  [(s_ "?", fun v => Ok [if truthy v then x01 else x00]);
   (s_ "b", pack_int true 1); (s_ "h", pack_int true 2); (s_ "i", pack_int true 4); (s_ "q", pack_int true 8);
   (s_ "B", pack_int false 1); (s_ "H", pack_int false 2); (s_ "I", pack_int false 4); (s_ "Q", pack_int false 8);
   (s_ "f", pack_float); (s_ "d", fun v => bits ← pack_double v; pack_u 8 bits)].

(** [struct.pack(">" + code * len(values), *values)]. *)
Definition struct_pack (code : str) (values : list pyval) : res bytes :=
  match dict_get code PACKS with
  | None => Err StructError
  | Some f => bs ← mapM_res f values; Ok (concat bs)
  end.

(** ** Constants *)

Definition BITS : Z := 0x03000000.
Definition BEGIN : Z := 100.
Definition BIG : Z := 2000000000.
Definition KEY_VERSION : Z := 4.
Definition BASKET_BYTES : Z := 32000.
Definition FORMS : dict Z str :=
  [(1, s_ "b"); (2, s_ "h"); (3, s_ "i"); (4, s_ "q"); (5, s_ "f"); (6, s_ "i"); (8, s_ "d");
   (11, s_ "B"); (12, s_ "H"); (13, s_ "I"); (14, s_ "Q"); (15, s_ "I"); (16, s_ "q"); (17, s_ "Q"); (18, s_ "B")].
Definition ARRAY_CLASSES : dict str str :=
  [(s_ "b", s_ "TArrayC"); (s_ "h", s_ "TArrayS"); (s_ "i", s_ "TArrayI"); (s_ "q", s_ "TArrayL64");
   (s_ "f", s_ "TArrayF"); (s_ "d", s_ "TArrayD")].
Definition LISTS : list str := [s_ "TList"; s_ "THashList"].
(** The type code of each array class. *)
Definition ARRAYS : dict str str :=
  [(s_ "TArrayC", s_ "b"); (s_ "TArrayS", s_ "h"); (s_ "TArrayI", s_ "i"); (s_ "TArrayL", s_ "q"); (s_ "TArrayL64", s_ "q");
   (s_ "TArrayF", s_ "f"); (s_ "TArrayD", s_ "d")].
Definition OFFSET_L : Z := 20.
Definition OFFSET_P : Z := 40.

(** The moment, in the packed date word. *)
Definition packed_now (now : Z * Z * Z * (Z * Z * Z)) : Z :=
  let '(year, month, day, (hour, minute, second)) := now in
  Z.lor (Z.lor (Z.lor (Z.lor (Z.lor (Z.shiftl (year - 1995) 26) (Z.shiftl month 22)) (Z.shiftl day 17))
    (Z.shiftl hour 12)) (Z.shiftl minute 6)) second.

(** ** [WBuffer] *)

Notation wb := (st exn bytes).

Definition raw (chunk : bytes) : wb unit := modify (fun d => d ++ chunk).
Definition packs (r : res bytes) : wb unit := lift r ≫= raw.
Definition u8 (v : Z) : wb unit := packs (pack_u 1 v).
Definition u16 (v : Z) : wb unit := packs (pack_u 2 v).
Definition i16 (v : Z) : wb unit := packs (pack_i 2 v).
Definition u32 (v : Z) : wb unit := packs (pack_u 4 v).
Definition i32 (v : Z) : wb unit := packs (pack_i 4 v).
Definition i64 (v : Z) : wb unit := packs (pack_i 8 v).

(** A [TString]: one length byte, or 255 and then four. *)
Definition string (text : str) : wb unit :=
  b ← lift (encode_escape text);
  (if 255 <=? zlen b then u8 255 ≫= fun _ => i32 (zlen b) else u8 (zlen b)) ≫= fun _ => raw b.
Definition cstring (text : str) : wb unit := b ← lift (encode_escape text); raw (b ++ [x00]).

Definition here : wb nat := fun d => (d, Ok (length d)).
Definition hole : bytes := [x00; x00; x00; x00].

Definition start (version : Z) : wb nat :=
  index ← here; raw hole ≫= fun _ => u16 version ≫= fun _ => mret index.
Definition tag (classname : str) : wb nat :=
  index ← here; raw hole ≫= fun _ => u32 RootBuffer.NEW_CLASS_TAG ≫= fun _ => cstring classname ≫= fun _ => mret index.

(** [struct.pack_into] of bytes that fit. *)
Definition patch (index : nat) (b data : bytes) : bytes := take index data ++ b ++ drop (index + length b) data.

Definition end_ (index : nat) : wb unit := fun d =>
  match pack_u 4 (Z.lor (zlen d - Z.of_nat index - 4) RootBuffer.BYTE_COUNT_MASK) with
  | Ok b => (patch index b d, Ok tt)
  | Err e => (d, Err e)
  end.

(** What is written between [start] or [tag] and their [end]. *)
Definition record (version : Z) (body : wb unit) : wb unit := index ← start version; body ≫= fun _ => end_ index.
Definition tagged (classname : str) (body : wb unit) : wb unit := index ← tag classname; body ≫= fun _ => end_ index.

Definition tobject (bits unique : Z) : wb unit :=
  u16 1 ≫= fun _ => u32 unique ≫= fun _ => u32 (Z.ldiff bits RootBuffer.IS_REFERENCED).

Definition named (name title : str) : wb unit :=
  record 1 (tobject BITS 0 ≫= fun _ => string name ≫= fun _ => string title).

(** Run over a fresh buffer. *)
Definition built {A} (c : wb A) : res bytes := match c [] with (d, Ok _) => Ok d | (_, Err e) => Err e end.

(** ** What objects write as *)

(** A counter's value, wherever the class or one of its bases keeps it. *)
Fixpoint find_value (name : str) (v : pyval) : option pyval :=
  match v with
  | PDict row =>
      match dict_get name row with
      | Some x => Some x
      | None =>
          (fix go (d : list (str * pyval)) : option pyval :=
             match d with
             | [] => None
             | (_, w) :: d => match find_value name w with Some x => Some x | None => go d end
             end) row
      end
  | _ => None
  end.
Definition _find (row : dict str pyval) (name : str) : option pyval := find_value name (PDict row).

Definition _numbers (typecode : str) (values : list pyval) : wb unit := packs (struct_pack typecode values).

Definition _array (classname : str) (values : pyval) : wb unit :=
  values ← lift (py_list (or_empty values));
  i32 (zlen values) ≫= fun _ =>
  match dict_get classname ARRAYS with Some code => _numbers code values | None => raise KeyError end.

(** Only an empty list is written. A number is refused too, while spelling the
    refusal asks how long it is. *)
Definition has_len (v : pyval) : bool :=
  match v with PNone | PBool _ | PInt _ | PFloat _ | PType _ => false | _ => true end.
Definition _list (entries : pyval) : wb unit :=
  if truthy entries then raise (if has_len entries then UnsupportedFeatureError else TypeError) else
  record 5 (tobject BITS 0 ≫= fun _ => string [] ≫= fun _ => i32 0).

Section Objects.
(** [str(value)] of anything but text. *)
Variable show : pyval -> str.
Definition py_str (v : pyval) : str := match v with PStr s => s | v => show v end.

(** The buffer, and the classes written into it. *)
Notation wr := (st exn (bytes * dict str unit)).
Definition on_buf {A} (c : wb A) : wr A := fun s => let '(d, r) := c s.1 in ((d, s.2), r).

Definition row_get (row : dict str pyval) (name : str) : pyval := default PNone (dict_get name row).
(** [value if isinstance(value, dict) else {}]. *)
Definition dict_of (v : pyval) : dict str pyval := match v with PDict d => d | _ => [] end.
Definition strip_stars (typename : str) : str := rstrip_by (fun c => c =? 0x2A) typename.

(** Objects hold objects; [depth] is how far the stack lets them nest. *)
Fixpoint each_element (f : Element -> wr unit) (l : list Element) : wr unit :=
  match l with [] => mret tt | e :: l => f e ≫= fun _ => each_element f l end.

Section Element.
Variable _record : str -> pyval -> wr unit.

Definition _pointed (typename : str) (value : pyval) : wr unit :=
  let object classname value :=
    index ← on_buf (tag classname); _record classname value ≫= fun _ => on_buf (end_ index) in
  let classname := strip_stars typename in
  match value with
  | PNone | PList [] | PTuple [] => on_buf (u32 0)
  | PHist c ms _ | PGraph c ms _ => object c (PDict ms)
  | PList _ | PTuple _ => on_buf (_list value) ≫= fun _ => object classname value
  | _ => object classname value
  end.

Definition _element (e : Element) (row : dict str pyval) : wr unit :=
  let name := el_name e in
  let stype := el_stype e in
  let value := row_get row name in
  if stype =? 66 then
    let bits := dict_of value in
    b ← lift (py_int_of (default (PInt BITS) (dict_get (s_ "fBits") bits)));
    u ← lift (py_int_of (default (PInt 0) (dict_get (s_ "fUniqueID") bits)));
    on_buf (tobject b u)
  else if stype =? 67 then
    let nm := dict_of value in
    on_buf (named (py_str (default (PStr []) (dict_get (s_ "fName") nm))) (py_str (default (PStr []) (dict_get (s_ "fTitle") nm))))
  else if stype =? 0 then
    if dict_mem name ARRAYS then on_buf (_array name value)
    else _record name (match value with PNone => PDict [] | v => v end)
  else if stype =? 65 then on_buf (string (match value with PNone => [] | v => py_str v end))
  else if (stype =? 61) || (stype =? 62) then
    if dict_mem (el_typename e) ARRAYS then on_buf (_array (el_typename e) value)
    else _record (el_typename e) (match value with PNone => PDict [] | v => v end)
  else if (stype =? 63) || (stype =? 68) then
    _record (strip_stars (el_typename e)) (match value with PNone => PList [] | v => v end)
  else if (stype =? 64) || (stype =? 69) then _pointed (el_typename e) value
  else match dict_get stype FORMS with
  | Some code => on_buf (packs (struct_pack code [value]))
  | None =>
  match dict_get (stype - OFFSET_L) FORMS with
  | Some code =>
      values ← lift (py_list (or_empty value));
      if negb (zlen values =? el_alen e) then raise ValueError else on_buf (_numbers code values)
  | None =>
  match dict_get (stype - OFFSET_P) FORMS with
  | Some code =>
      counter ← match el_extras e !! 1%nat with
                | Some (XStr s) => mret s
                | Some (XInt n) => mret (to_dec n)
                | None => raise IndexError
                end;
      count ← match _find row counter with
              | None => raise ValueError
              | Some v => lift (py_int_of v)
              end;
      values ← lift (py_list (or_empty value));
      if zlen values <? count then raise ValueError else
      on_buf (u8 1) ≫= fun _ => on_buf (_numbers code (RootBuffer.py_slice values 0 count))
  | None => raise UnsupportedFeatureError
  end end end.
End Element.

Fixpoint _record (depth : nat) (classname : str) (row : pyval) : wr unit :=
  if bool_decide (classname ∈ LISTS) then on_buf (_list row) else
  match dict_get classname INFOS with
  | None => raise UnsupportedFeatureError
  | Some info =>
      match row, depth with
      | PDict row, S depth =>
          modify (fun s => (s.1, dict_set classname tt s.2)) ≫= fun _ =>
          index ← on_buf (start info.1.2);
          each_element (fun e => _element (_record depth) e row) info.2 ≫= fun _ => on_buf (end_ index)
      | PDict _, O => raise RecursionError
      | _, _ => raise UnsupportedFeatureError
      end
  end.

(** What one object writes as: its class, its bytes, the layouts it needs. *)
Definition _payload (depth : nat) (obj : pyval) : res (str * bytes * list str) :=
  match obj with
  | PStr s => b ← built (string s); Ok (s_ "string", b, [])
  | PArray typecode itemsize values =>
      let code := if bool_decide (typecode = s_ "l") then (if itemsize =? 8 then s_ "q" else s_ "i") else typecode in
      match dict_get code ARRAY_CLASSES with
      | None => Err UnsupportedFeatureError
      | Some classname =>
          b ← built (i32 (zlen values) ≫= fun _ => _numbers (default [] (dict_get classname ARRAYS)) values);
          Ok (classname, b, [])
      end
  | PHist classname members _ | PGraph classname members _ =>
      if negb (dict_mem classname INFOS) then Err UnsupportedFeatureError else
      match _record depth classname (PDict members) ([], []) with
      | ((d, used), Ok _) => Ok (classname, d, dict_keys used)
      | (_, Err e) => Err e
      end
  | _ => Err UnsupportedFeatureError
  end.
End Objects.

(** ** What the file says its classes look like *)

(** The class an element needs described. *)
Definition held_class (e : Element) : option str :=
  if bool_decide (el_kind e = s_ "TStreamerBase") then Some (el_name e)
  else if bool_decide (el_stype e ∈ [61; 62; 63; 64; 68; 69]) then Some (strip_stars (el_typename e))
  else if el_stype e =? 65 then Some (s_ "TString")
  else None.

(** One element: [(ordered, queue)] after it. *)
Definition meet (s : dict str unit * list str) (e : Element) : dict str unit * list str :=
  match held_class e with
  | Some held => if dict_mem held INFOS && negb (dict_mem held s.1) then (dict_set held tt s.1, s.2 ++ [held]) else s
  | None => s
  end.
(** Only classes with a layout are queued, and each of them once, so the seeds
    and the layouts bound the rounds. *)
Fixpoint closure_loop (fuel : nat) (ordered : dict str unit) (queue : list str) : list str :=
  match fuel, queue with
  | S fuel, q :: queue =>
      match dict_get q INFOS with
      | None => closure_loop fuel ordered queue
      | Some info => let '(ordered, queue) := foldl meet (ordered, queue) info.2 in closure_loop fuel ordered queue
      end
  | _, _ => dict_keys ordered
  end.
Definition _closure (seeds : list str) : list str :=
  let ordered := foldl (fun d s => dict_set s tt d) [] seeds in
  closure_loop (length ordered + length INFOS) ordered (dict_keys ordered).

Definition extra_int (x : option extra) : res Z :=
  match x with
  | Some (XInt n) => Ok n
  | Some (XStr s) => match py_int s with Some n => Ok n | None => Err ValueError end
  | None => Err IndexError
  end.
Definition extra_str (x : option extra) : res str :=
  match x with Some (XStr s) => Ok s | Some (XInt n) => Ok (to_dec n) | None => Err IndexError end.

Fixpoint each {A} (f : A -> wb unit) (l : list A) : wb unit :=
  match l with [] => mret tt | a :: l => f a ≫= fun _ => each f l end.

(** What the kind of an element adds after its base. *)
Definition info_extras (e : Element) : wb unit :=
  if bool_decide (el_kind e = s_ "TStreamerBase") then n ← lift (extra_int (el_extras e !! 0%nat)); i32 n
  else if bool_decide (el_kind e = s_ "TStreamerBasicPointer") then
    n ← lift (extra_int (el_extras e !! 0%nat)); i32 n ≫= fun _ =>
    a ← lift (extra_str (el_extras e !! 1%nat)); string a ≫= fun _ =>
    b ← lift (extra_str (el_extras e !! 2%nat)); string b
  else mret tt.

(** One [TStreamerElement]. *)
Definition _info_element (e : Element) : wb unit :=
  tagged (el_kind e) (
    version ← match dict_get (el_kind e) SUBVERSIONS with Some v => mret v | None => raise KeyError end;
    record version (
      record 4 (
        named (el_name e) (el_title e) ≫= fun _ =>
        each i32 [el_stype e; el_size e; el_alen e; el_adim e] ≫= fun _ =>
        each i32 (el_maxidx e) ≫= fun _ =>
        string (el_typename e)) ≫= fun _ =>
      info_extras e)).

(** One class of the list, with the option every entry carries. *)
Definition _info (name : str) : wb unit :=
  match dict_get name INFOS with
  | None => raise KeyError
  | Some (checksum, version, elements) =>
      tagged (s_ "TStreamerInfo") (
        record 9 (
          named name [] ≫= fun _ =>
          u32 checksum ≫= fun _ => i32 version ≫= fun _ =>
          tagged (s_ "TObjArray") (
            record 3 (
              tobject BITS 0 ≫= fun _ => string [] ≫= fun _ => each i32 [zlen elements; 0] ≫= fun _ =>
              each _info_element elements)))) ≫= fun _ => u8 0
  end.

Definition _streamers (used : list str) : res bytes :=
  let names := _closure used in
  built (record 5 (tobject BITS 0 ≫= fun _ => string [] ≫= fun _ => i32 (zlen names) ≫= fun _ => each _info names)).
End RootPack.
