(* ===== verification/RootWriter.v ===== *)
(** * Writing a ROOT file

    The second half of src/xrd/root/writer.py, [WritableFile] and [create], and
    src/xrd/root/wtree.py, [WritableTree]. A tree refers to its file and the
    file to its trees, so the trees are kept with the file and named by their
    place in its list. The handle, the clock and the identifiers are the
    interface [WriterEnv]. *)

From S2P Require Import Prelude PyStr Errors Buffer Url UrlText Compression RootBuffer Winfo RootPack.
Open Scope Z_scope.

(** [G] are open binary files. *)
Class WriterEnv (G W : Type) := {
  wh_write : G -> bytes -> W -> W * res unit;
  (* none for a file object without a [flush] *)
  wh_flush : G -> option (W -> W * res unit);
  wh_close : G -> W -> W * res unit;
  (* [open(path, "wb")] and [open_url(url, "wb")] *)
  wh_open : str -> W -> W * res G;
  wh_open_url : XRootDURL -> W -> W * res G;
  now : W -> Z * Z * Z * (Z * Z * Z);
  uuid4 : W -> W * bytes
}.

Module RootWriter.
Import RootPack.

(** ** Keys *)

Definition encoded_len (text : str) : res Z := b ← encode_escape text; Ok (zlen b).

Definition _keylen (classname name title : str) (extra : Z) : res Z :=
  a ← encoded_len classname;
  b ← encoded_len name;
  c ← encoded_len title;
  Ok (26 + extra + ((1 + a) + (1 + b) + (1 + c))).

Definition _checked (text : str) : res str :=
  n ← encoded_len text; if 254 <? n then Err ValueError else Ok text.

(** ** Columns *)

Definition TREE_VERSION : Z := 19.
Definition BRANCH_VERSION : Z := 12.
Definition LEAF_VERSION : Z := 2.
Definition SUBLEAF_VERSION : Z := 1.
Definition OBJARRAY_VERSION : Z := 3.
Definition BASKET_VERSION : Z := 3.
Definition ATTRIBUTE_VERSION : Z := 2.
Definition MAX_ENTRIES : Z := 1000000000000.
Definition AUTO_SAVE : Z := -300000000.
Definition AUTO_FLUSH : Z := -30000000.
Definition ESTIMATE : Z := 1000000.
Definition SCAN_FIELD : Z := 25.
Definition OFFSET_LEN : Z := 1000.
(** The bits of [1.0]. *)
Definition WEIGHT : Z := 0x3FF0000000000000.
Definition MIN_BASKETS : Z := 10.

(** The leaf class, the letter of the type, the width and the signedness. *)
Definition LEAVES : dict str (str * str * Z * bool) :=
  [(s_ "?", (s_ "TLeafO", s_ "O", 1, false)); (s_ "b", (s_ "TLeafB", s_ "B", 1, false)); (s_ "B", (s_ "TLeafB", s_ "b", 1, true));
   (s_ "h", (s_ "TLeafS", s_ "S", 2, false)); (s_ "H", (s_ "TLeafS", s_ "s", 2, true)); (s_ "i", (s_ "TLeafI", s_ "I", 4, false));
   (s_ "I", (s_ "TLeafI", s_ "i", 4, true)); (s_ "q", (s_ "TLeafL", s_ "L", 8, false)); (s_ "Q", (s_ "TLeafL", s_ "l", 8, true));
   (s_ "f", (s_ "TLeafF", s_ "F", 4, false)); (s_ "d", (s_ "TLeafD", s_ "D", 8, false))].
Definition PYTHON_TYPES (t : pytype) : option str :=
  match t with TBool => Some (s_ "?") | TInt => Some (s_ "q") | TFloat => Some (s_ "d") | TOther => None end.
(** [wide] when a C [long] is eight bytes. *)
Definition PLATFORM (wide : bool) : dict str str :=
  [(s_ "l", if wide then s_ "q" else s_ "i"); (s_ "L", if wide then s_ "Q" else s_ "I")].

Definition spec_code (wide : bool) (spec : pyval) : res str :=
  spec ← match spec with
         | PType t => match PYTHON_TYPES t with Some c => Ok c | None => Err ValueError end
         | PStr s => Ok s
         | _ => Err ValueError
         end;
  let spec := default spec (dict_get spec (PLATFORM wide)) in
  if dict_mem spec LEAVES then Ok spec else Err ValueError.
(** A type code, and the values per entry. *)
Definition _typecode (wide : bool) (spec : pyval) : res (str * Z) :=
  match spec with
  | PTuple l | PList l =>
      match l with
      | [spec; PInt n] => if n <? 1 then Err ValueError else c ← spec_code wide spec; Ok (c, n)
      | _ => Err ValueError
      end
  | _ => c ← spec_code wide spec; Ok (c, 1)
  end.

Record _Column := mkColumn {
  co_name : str; co_typecode : str; co_length : Z; co_classname : str; co_letter : str; co_itemsize : Z; co_unsigned : bool;
  co_size : Z; co_basket_size : Z; co_buffer : bytes; co_pending : Z; co_seeks : list Z; co_sizes : list Z; co_starts : list Z;
  co_tot_bytes : Z; co_zip_bytes : Z
}.
Definition Column_init (name typecode : str) (length basket_size : Z) : res _Column :=
  match dict_get typecode LEAVES with
  | None => Err KeyError
  | Some (classname, letter, itemsize, unsigned) =>
      Ok (mkColumn name typecode length classname letter itemsize unsigned (length * itemsize) basket_size [] 0 [] [] [0] 0 0)
  end.
Definition leaf_title (c : _Column) : str :=
  if co_length c =? 1 then co_name c else co_name c ++ 0x5B :: to_dec (co_length c) ++ [0x5D].
Definition title (c : _Column) : str := leaf_title c ++ 0x2F :: co_letter c.

(** One entry's bytes. A number too large for a [float32] is the one error of
    [struct] that goes through as it is. *)
Definition pack (c : _Column) (value : pyval) : res bytes :=
  let packed values :=
    match struct_pack (co_typecode c) values with
    | Err OverflowError => Err OverflowError
    | Err _ => Err ValueError
    | Ok b => Ok b
    end in
  if co_length c =? 1 then packed [value] else
  match bool_decide (co_typecode c = s_ "B"), value with
  | true, PBytes b => if zlen b =? co_length c then Ok b else Err ValueError
  | _, _ =>
      match py_list value with
      | Err _ => Err ValueError
      | Ok values => if zlen values =? co_length c then packed values else Err ValueError
      end
  end.

Definition with_packed (raw : bytes) (c : _Column) : _Column :=
  mkColumn (co_name c) (co_typecode c) (co_length c) (co_classname c) (co_letter c) (co_itemsize c) (co_unsigned c)
    (co_size c) (co_basket_size c) (co_buffer c ++ raw) (co_pending c + 1) (co_seeks c) (co_sizes c) (co_starts c)
    (co_tot_bytes c) (co_zip_bytes c).
Definition with_basket (seek nbytes keylen : Z) (c : _Column) : _Column :=
  mkColumn (co_name c) (co_typecode c) (co_length c) (co_classname c) (co_letter c) (co_itemsize c) (co_unsigned c)
    (co_size c) (co_basket_size c) [] 0 (co_seeks c ++ [seek]) (co_sizes c ++ [nbytes])
    (co_starts c ++ [List.last (co_starts c) 0 + co_pending c])
    (co_tot_bytes c + (keylen + zlen (co_buffer c))) (co_zip_bytes c + nbytes).

(** ** A tree's own record *)

(** What is written between opening a record and ending it. *)
Definition within {A} (open : wb nat) (body : wb A) : wb A := index ← open; a ← body; end_ index ≫= fun _ => mret a.

Definition _objarray (count : Z) : wb nat :=
  index ← start OBJARRAY_VERSION;
  tobject BITS 0 ≫= fun _ => string [] ≫= fun _ => i32 count ≫= fun _ => i32 0 ≫= fun _ => mret index.

Definition _attributes : wb unit :=
  record ATTRIBUTE_VERSION (each i16 [602; 1; 1]) ≫= fun _ =>
  record ATTRIBUTE_VERSION (each i16 [0; 1001]) ≫= fun _ =>
  record ATTRIBUTE_VERSION (each i16 [1; 1] ≫= fun _ => packs (struct_pack (s_ "f") [PFloat WEIGHT])).

(** Where the leaf landed comes back. *)
Definition _leaf (c : _Column) : wb nat :=
  at_ ← here;
  within (tag (co_classname c)) (
    within (start SUBLEAF_VERSION) (
      within (start LEAF_VERSION) (
        named (co_name c) (leaf_title c) ≫= fun _ =>
        i32 (co_length c) ≫= fun _ => i32 (co_itemsize c) ≫= fun _ => i32 0 ≫= fun _ =>
        u8 0 ≫= fun _ => u8 (if co_unsigned c then 1 else 0) ≫= fun _ => u32 0) ≫= fun _ =>
      raw (replicate (Z.to_nat (2 * co_itemsize c)) x00))) ≫= fun _ =>
  mret at_.

(** A marker, then a value per slot; there are as many slots as values or more. *)
Definition _table (values : list Z) (width : Z) (code : str) : wb unit :=
  u8 1 ≫= fun _ =>
  packs (if width <? zlen values then Err StructError
         else struct_pack code ((PInt <$> values) ++ replicate (Z.to_nat (width - zlen values)) (PInt 0))).

(** The fields of a branch before its arrays, and the tables after them. *)
Definition branch_fields (c : _Column) (entries compress written width : Z) : wb unit :=
  named (co_name c) (title c) ≫= fun _ =>
  record ATTRIBUTE_VERSION (each i16 [0; 0]) ≫= fun _ =>
  each i32 [compress; co_basket_size c; 0; written] ≫= fun _ =>
  i64 entries ≫= fun _ =>
  each i32 [0; width; 0] ≫= fun _ =>
  each i64 [entries; 0; co_tot_bytes c; co_zip_bytes c].
Definition branch_tables (c : _Column) (width : Z) : wb unit :=
  _table (co_sizes c) width (s_ "i") ≫= fun _ =>
  _table (co_starts c) width (s_ "q") ≫= fun _ =>
  _table (co_seeks c) width (s_ "q") ≫= fun _ =>
  string [].
Definition _branch (c : _Column) (entries compress : Z) : wb nat :=
  let written := zlen (co_seeks c) in
  let width := Z.max MIN_BASKETS (written + 1) in
  within (tag (s_ "TBranch")) (
    within (start BRANCH_VERSION) (
      branch_fields c entries compress written width ≫= fun _ =>
      within (_objarray 0) (mret tt) ≫= fun _ =>
      place ← within (_objarray 1) (_leaf c);
      within (_objarray (written + 1)) (raw (replicate (4 * Z.to_nat (written + 1)) x00)) ≫= fun _ =>
      branch_tables c width ≫= fun _ =>
      mret place)).

Record WritableTree := mkTree {
  wt_cycle : Z; wt_name : str; wt_title : str; wt_entries : Z; wt_columns : dict str _Column
}.

Fixpoint branches (l : list _Column) (entries compress : Z) : wb (list nat) :=
  match l with
  | [] => mret []
  | c :: l => p ← _branch c entries compress; ps ← branches l entries compress; mret (p :: ps)
  end.

Definition total (f : _Column -> Z) (l : list _Column) : Z := foldr (fun c n => f c + n) 0 l.

(** The fields of a tree before its branches. *)
Definition tree_fields (t : WritableTree) : wb unit :=
  let columns := (wt_columns t).*2 in
  named (wt_name t) (wt_title t) ≫= fun _ =>
  _attributes ≫= fun _ =>
  each i64 [wt_entries t; total co_tot_bytes columns; total co_zip_bytes columns; 0; 0] ≫= fun _ =>
  packs (struct_pack (s_ "d") [PFloat WEIGHT]) ≫= fun _ =>
  each i32 [0; SCAN_FIELD; 0; OFFSET_LEN; 0] ≫= fun _ =>
  each i64 [MAX_ENTRIES; MAX_ENTRIES; 0; AUTO_SAVE; AUTO_FLUSH; ESTIMATE] ≫= fun _ =>
  u8 0 ≫= fun _ => u8 0.
Definition tree_payload (t : WritableTree) (compress origin : Z) : res bytes :=
  let columns := (wt_columns t).*2 in
  built (
    within (start TREE_VERSION) (
      tree_fields t ≫= fun _ =>
      places ← within (_objarray (zlen columns)) (branches columns (wt_entries t) compress);
      within (_objarray (zlen columns)) (each (fun p : nat => u32 (origin + Z.of_nat p + RootBuffer.MAP_OFFSET)) places) ≫= fun _ =>
      each u32 [0] ≫= fun _ => each i32 [0; 0] ≫= fun _ => each u32 [0; 0; 0; 0])).

(** ** The file *)

Record WritableFile (G : Type) := mkWF {
  wf_handle : G; wf_owned : bool; wf_algorithm : option str; wf_level : option Z; wf_datime : Z; wf_uuid : bytes;
  wf_closed : bool; wf_name : str; wf_label : str; wf_nname : Z; wf_data : bytes; wf_keys : list bytes;
  wf_cycles : dict str Z; wf_used : dict str unit; wf_trees : list WritableTree
}.
Arguments mkWF {G}.
Arguments wf_handle {G}.
Arguments wf_owned {G}.
Arguments wf_algorithm {G}.
Arguments wf_level {G}.
Arguments wf_datime {G}.
Arguments wf_uuid {G}.
Arguments wf_closed {G}.
Arguments wf_name {G}.
Arguments wf_label {G}.
Arguments wf_nname {G}.
Arguments wf_data {G}.
Arguments wf_keys {G}.
Arguments wf_cycles {G}.
Arguments wf_used {G}.
Arguments wf_trees {G}.

Section File.
Context {G W : Type} `{WriterEnv G W}.
Variable codecs : Compression.Codecs.
Variable show : pyval -> str.
Variable wide : bool.
Notation F := (st exn (WritableFile G)).

(** [text.encode()], which no surrogate goes through. *)
Definition strict_len (text : str) : res Z := match utf8_encode text with Some b => Ok (zlen b) | None => Err UnicodeEncodeError end.

(** [name.rstrip("/").rpartition("/")[2] or name]. *)
Definition last_part (name : str) : str :=
  match (rpartition 0x2F (rstrip_by (fun c => c =? 0x2F) name)).2 with [] => name | l => l end.

Definition WritableFile_init (handle : G) (name : str) (owned : bool) (algorithm : option str) (level : option Z) (w : W)
    : W * res (WritableFile G) :=
  let level := match algorithm, level with
               | Some a, None => match dict_get a Compression.LEVELS with Some l => Ok (Some l) | None => Err KeyError end
               | _, _ => Ok level
               end in
  match level with
  | Err e => (w, Err e)
  | Ok level =>
      let datime := packed_now (now w) in
      let '(w, uuid) := uuid4 w in
      (w, label ← _checked (last_part name);
          n ← strict_len label;
          let nname := 34 + n + 2 + n in
          Ok (mkWF handle owned algorithm level datime uuid false name label nname
                (replicate (Z.to_nat (BEGIN + nname + 60)) x00) [] [] [] []))
  end.

Definition set_data (d : bytes) (f : WritableFile G) : WritableFile G :=
  mkWF (wf_handle f) (wf_owned f) (wf_algorithm f) (wf_level f) (wf_datime f) (wf_uuid f) (wf_closed f) (wf_name f)
    (wf_label f) (wf_nname f) d (wf_keys f) (wf_cycles f) (wf_used f) (wf_trees f).
Definition set_closed (f : WritableFile G) : WritableFile G :=
  mkWF (wf_handle f) (wf_owned f) (wf_algorithm f) (wf_level f) (wf_datime f) (wf_uuid f) true (wf_name f)
    (wf_label f) (wf_nname f) (wf_data f) (wf_keys f) (wf_cycles f) (wf_used f) (wf_trees f).
Definition add_key (k : bytes) (f : WritableFile G) : WritableFile G :=
  mkWF (wf_handle f) (wf_owned f) (wf_algorithm f) (wf_level f) (wf_datime f) (wf_uuid f) (wf_closed f) (wf_name f)
    (wf_label f) (wf_nname f) (wf_data f) (wf_keys f ++ [k]) (wf_cycles f) (wf_used f) (wf_trees f).
Definition set_cycle (name : str) (c : Z) (f : WritableFile G) : WritableFile G :=
  mkWF (wf_handle f) (wf_owned f) (wf_algorithm f) (wf_level f) (wf_datime f) (wf_uuid f) (wf_closed f) (wf_name f)
    (wf_label f) (wf_nname f) (wf_data f) (wf_keys f) (dict_set name c (wf_cycles f)) (wf_used f) (wf_trees f).
Definition use (names : list str) (f : WritableFile G) : WritableFile G :=
  mkWF (wf_handle f) (wf_owned f) (wf_algorithm f) (wf_level f) (wf_datime f) (wf_uuid f) (wf_closed f) (wf_name f)
    (wf_label f) (wf_nname f) (wf_data f) (wf_keys f) (wf_cycles f) (foldl (fun d n => dict_set n tt d) (wf_used f) names) (wf_trees f).
Definition set_trees (ts : list WritableTree) (f : WritableFile G) : WritableFile G :=
  mkWF (wf_handle f) (wf_owned f) (wf_algorithm f) (wf_level f) (wf_datime f) (wf_uuid f) (wf_closed f) (wf_name f)
    (wf_label f) (wf_nname f) (wf_data f) (wf_keys f) (wf_cycles f) (wf_used f) ts.

(** Whether a key could be written under this name, and read back by it. *)
Definition _check_name (name : str) : F unit := fun f =>
  (f, if wf_closed f then Err ValueError else
      _ ← _checked name;
      if bool_decide (name = []) || PyStr.contains 0x2F name || PyStr.contains 0x3B name then Err ValueError else Ok tt).

Definition _codes (f : WritableFile G) : Z :=
  match wf_algorithm f with
  | None => 0
  | Some a => default 0 (dict_get a Compression.CODES) * 100 + default 0 (wf_level f)
  end.

(** What a record holds: compressed when that is smaller. *)
Definition squeeze (f : WritableFile G) (packed : bool) (payload : bytes) : res bytes :=
  match wf_algorithm f with
  | Some a =>
      if packed then
        squeezed ← Compression.compress codecs payload a (wf_level f);
        Ok (if zlen squeezed <? zlen payload then squeezed else payload)
      else Ok payload
  | None => Ok payload
  end.

(** The key in front of a record. *)
Definition key_bytes (nbytes objlen datime keylen cycle seek pdir : Z) (classname name title : str) : wb unit :=
  i32 nbytes ≫= fun _ => u16 KEY_VERSION ≫= fun _ => i32 objlen ≫= fun _ => u32 datime ≫= fun _ =>
  i16 keylen ≫= fun _ => i16 cycle ≫= fun _ => i32 seek ≫= fun _ => i32 pdir ≫= fun _ =>
  string classname ≫= fun _ => string name ≫= fun _ => string title.

Definition _put (classname name title : str) (payload : bytes) (cycle : Z) (listed packed : bool) (extra : bytes) : F (Z * Z) := fun f =>
  let seek := zlen (wf_data f) in
  if BIG <? seek then (f, Err UnsupportedFeatureError) else
  match (body ← squeeze f packed payload;
         keylen ← _keylen classname name title (zlen extra);
         k ← built (key_bytes (keylen + zlen body) (zlen payload) (wf_datime f) keylen cycle seek BEGIN classname name title);
         Ok (body, keylen, k ++ extra)) with
  | Err e => (f, Err e)
  | Ok (body, keylen, header) =>
      let f := if listed then add_key header f else f in
      (set_data (wf_data f ++ header ++ body) f, Ok (seek, keylen + zlen body))
  end.

(** [obj.title]: the title of the part of the object that has the counter. *)
Fixpoint core_of (key : str) (v : pyval) : option (dict str pyval) :=
  match v with
  | PDict row =>
      if dict_mem key row then Some row else
      (fix go (d : list (str * pyval)) : option (dict str pyval) :=
         match d with
         | [] => None
         | (_, w) :: d => match core_of key w with Some x => Some x | None => go d end
         end) row
  | _ => None
  end.
Definition obj_title (obj : pyval) : res str :=
  let title_in key ms :=
    match core_of (s_ key) (PDict ms) with
    | None => Err TypeError
    | Some core =>
        match dict_get (s_ "TNamed") core with
        | None => Err KeyError
        | Some (PDict nm) => match dict_get (s_ "fTitle") nm with Some v => Ok (py_str show v) | None => Err KeyError end
        | Some _ => Err TypeError
        end
    end in
  match obj with
  | PHist _ ms _ => title_in "fNcells"%string ms
  | PGraph _ ms _ => title_in "fNpoints"%string ms
  | _ => Ok []
  end.

(** The next cycle of a name. *)
Definition next_cycle (name : str) : F Z :=
  cycle ← (fun f => (f, Ok (default 0 (dict_get name (wf_cycles f)) + 1)));
  modify (set_cycle name cycle) ≫= fun _ => mret cycle.

Definition write (depth : nat) (name : str) (obj : pyval) (title : option str) : F unit :=
  _check_name name ≫= fun _ =>
  '(classname, payload, used) ← lift (_payload show depth obj);
  title ← lift (match title with Some t => Ok t | None => obj_title obj end);
  lift (_checked title) ≫= fun _ =>
  modify (use used) ≫= fun _ =>
  cycle ← next_cycle name;
  _put classname name title payload cycle true true [] ≫= fun _ => mret tt.

(** *** Trees *)

Definition bad_column (name : str) : bool :=
  bool_decide (name = []) || existsb (fun c => PyStr.contains c name) (s_ "./;[] ").

Fixpoint init_columns (columns : list (str * pyval)) (basket_size : Z) (acc : dict str _Column) : res (dict str _Column) :=
  match columns with
  | [] => Ok acc
  | (name, spec) :: columns =>
      _ ← _checked name;
      if bad_column name then Err ValueError else
      '(code, n) ← _typecode wide spec;
      c ← Column_init name code n basket_size;
      init_columns columns basket_size (dict_set name c acc)
  end.
Definition WritableTree_init (name title : str) (columns : dict str pyval) (basket_size cycle : Z) : res WritableTree :=
  if zlen columns =? 0 then Err ValueError else
  if basket_size <? 1 then Err ValueError else
  cols ← init_columns columns basket_size [];
  Ok (mkTree cycle name title 0 cols).
Definition classes (t : WritableTree) : list str :=
  s_ "TTree" :: s_ "TBranch" :: dict_keys (foldl (fun d c => dict_set (co_classname c) tt d) [] (wt_columns t).*2).

(** A tree in this file, by its place among them. *)
Definition tree (name : str) (columns : dict str pyval) (title : option str) (basket_size : Z) : F nat :=
  _check_name name ≫= fun _ =>
  let title := default [] title in
  lift (_checked title) ≫= fun _ =>
  cycle ← next_cycle name;
  t ← lift (WritableTree_init name title columns basket_size cycle);
  at_ ← (fun f => (f, Ok (length (wf_trees f))));
  modify (fun f => set_trees (wf_trees f ++ [t]) f) ≫= fun _ =>
  modify (use (classes t)) ≫= fun _ => mret at_.

Definition set_column (t : nat) (name : str) (c : _Column) : F unit :=
  modify (fun f => set_trees (alter (fun tr => mkTree (wt_cycle tr) (wt_name tr) (wt_title tr) (wt_entries tr) (dict_set name c (wt_columns tr))) t (wf_trees f)) f).
Definition the_column (t : nat) (name : str) (f : WritableFile G) : option _Column := tr ← wf_trees f !! t; dict_get name (wt_columns tr).
Definition tree_name (t : nat) (f : WritableFile G) : str := default [] (wt_name <$> wf_trees f !! t).

(** Write what one column has gathered as a basket of its own. *)
Definition _flush (t : nat) (name : str) : F unit := fun f =>
  match the_column t name f with
  | None => (f, Err KeyError)
  | Some c =>
      if co_pending c =? 0 then (f, Ok tt) else
      (keylen ← lift (_keylen (s_ "TBasket") (co_name c) (tree_name t f) 19);
       extra ← lift (a ← pack_i 2 BASKET_VERSION; b ← pack_i 4 (co_basket_size c); n ← pack_i 4 (co_size c); p ← pack_i 4 (co_pending c);
                     l ← pack_i 4 (keylen + zlen (co_buffer c)); z ← pack_u 1 0; Ok (a ++ b ++ n ++ p ++ l ++ z));
       '(seek, nbytes) ← _put (s_ "TBasket") (co_name c) (tree_name t f) (co_buffer c) 0 false true extra;
       set_column t name (with_basket seek nbytes keylen c)) f
  end.

Fixpoint each_name (f : str -> F unit) (l : list str) : F unit :=
  match l with [] => mret tt | n :: l => f n ≫= fun _ => each_name f l end.

(** One entry: packed in full before any of it is kept. *)
Definition _row (t : nat) (row : dict str pyval) : F unit := fun f =>
  match wf_trees f !! t with
  | None => (f, Err KeyError)
  | Some tr =>
      if wf_closed f then (f, Err ValueError) else
      if existsb (fun n => negb (dict_mem n row)) (dict_keys (wt_columns tr))
         || existsb (fun n => negb (dict_mem n (wt_columns tr))) (dict_keys row) then (f, Err ValueError) else
      match mapM_res (fun nc => b ← pack nc.2 (row_get row nc.1); Ok (nc.1, with_packed b nc.2)) (wt_columns tr) with
      | Err e => (f, Err e)
      | Ok columns =>
          let f := set_trees (<[t := mkTree (wt_cycle tr) (wt_name tr) (wt_title tr) (wt_entries tr + 1) columns]> (wf_trees f)) f in
          each_name (fun n f => match the_column t n f with
                                | Some c => if co_basket_size c <=? zlen (co_buffer c) then _flush t n f else (f, Ok tt)
                                | None => (f, Ok tt)
                                end) (dict_keys columns) f
      end
  end.
Fixpoint extend (t : nat) (rows : list (dict str pyval)) : F unit :=
  match rows with [] => mret tt | r :: rows => _row t r ≫= fun _ => extend t rows end.

(** The record that ties the baskets together. *)
Definition put_tree (t : nat) : F unit := fun f =>
  match wf_trees f !! t with
  | None => (f, Err KeyError)
  | Some tr =>
      (keylen ← lift (_keylen (s_ "TTree") (wt_name tr) (wt_title tr) 0);
       payload ← lift (tree_payload tr (_codes f) keylen);
       _put (s_ "TTree") (wt_name tr) (wt_title tr) payload (wt_cycle tr) true true [] ≫= fun _ => mret tt) f
  end.
(** Flush what is left, then write that. *)
Definition _finish (t : nat) : F unit := fun f =>
  match wf_trees f !! t with
  | None => (f, Err KeyError)
  | Some tr => (each_name (_flush t) (dict_keys (wt_columns tr)) ≫= fun _ => put_tree t) f
  end.
Fixpoint finish_all (t n : nat) : F unit :=
  match n with O => mret tt | S n => _finish t ≫= fun _ => finish_all (S t) n end.

(** *** Closing *)

(** The block at [BEGIN]: the file is a key like any other, then a directory. *)
Definition head_bytes (f : WritableFile G) (keylen nbytes_keys seek_keys : Z) : wb unit :=
  key_bytes (wf_nname f + 60) (wf_nname f - keylen + 60) (wf_datime f) keylen 1 BEGIN 0 (s_ "TFile") (wf_label f) [] ≫= fun _ =>
  string (wf_label f) ≫= fun _ => string [] ≫= fun _ =>
  u16 5 ≫= fun _ => u32 (wf_datime f) ≫= fun _ => u32 (wf_datime f) ≫= fun _ =>
  i32 nbytes_keys ≫= fun _ => i32 (wf_nname f) ≫= fun _ => i32 BEGIN ≫= fun _ => i32 0 ≫= fun _ => i32 seek_keys ≫= fun _ =>
  u16 1 ≫= fun _ => raw (wf_uuid f) ≫= fun _ => raw (replicate 12 x00).

(** [struct.pack(">iiiiiBiii", ...)], and the identifier after it. *)
Definition header_bytes (f : WritableFile G) (end_at seek_free nfree seek_info nbytes_info : Z) : wb unit :=
  each i32 [end_at; seek_free; nfree; 1; wf_nname f] ≫= fun _ => u8 4 ≫= fun _ => each i32 [_codes f; seek_info; nbytes_info].
Definition sixteen (b : bytes) : bytes := take 16 (b ++ replicate 16 x00).

Definition patch_with (index : nat) (r : res bytes) : F unit := b ← lift r; modify (fun f => set_data (patch index b (wf_data f)) f).

(** Everything but the trees. *)
Definition assemble_rest : F unit := fun f =>
  (info ← lift (_streamers (dict_keys (wf_used f)));
   '(seek_info, nbytes_info) ← _put (s_ "TList") (s_ "StreamerInfo") (s_ "Doubly linked list") info 1 false true [];
   keylist ← lift (built (i32 (zlen (wf_keys f)) ≫= fun _ => each raw (wf_keys f)));
   '(seek_keys, nbytes_keys) ← _put (s_ "TFile") (wf_label f) [] keylist 1 false false [];
   seek_free ← ((fun f => (f, Ok (zlen (wf_data f)))) : F Z);
   label ← lift (strict_len (wf_label f));
   let keylen := 34 + label in
   let end_at := seek_free + keylen + 10 in
   free ← lift (built (u16 1 ≫= fun _ => i32 end_at ≫= fun _ => i32 BIG));
   _put (s_ "TFile") (wf_label f) [] free 1 false false [] ≫= fun _ =>
   patch_with (Z.to_nat BEGIN) (built (head_bytes f keylen nbytes_keys seek_keys)) ≫= fun _ =>
   patch_with 0 (built (raw (b_ "root") ≫= fun _ => i32 Winfo.WRITER_VERSION ≫= fun _ => i32 BEGIN)) ≫= fun _ =>
   patch_with 12 (built (header_bytes f end_at seek_free (keylen + 10) seek_info nbytes_info)) ≫= fun _ =>
   patch_with 45 (built (u16 1 ≫= fun _ => raw (sixteen (wf_uuid f))))) f.
Definition _assemble : F unit :=
  n ← ((fun f => (f, Ok (length (wf_trees f)))) : F nat);
  finish_all 0 n ≫= fun _ => assemble_rest.

Notation FW := (st exn (WritableFile G * W)).
Definition on_file {A} (c : F A) : FW A := fun s => let '(f, r) := c s.1 in ((f, s.2), r).
Definition on_world {A} (c : G -> W -> W * res A) : FW A := fun s => let '(w, r) := c (wf_handle s.1) s.2 in ((s.1, w), r).
(** What is raised while letting go is what the caller sees. *)
Definition let_go : FW unit := fun s => if wf_owned s.1 then on_world wh_close s else (s, Ok tt).

Definition write_out : FW unit := fun s => on_world (fun g => wh_write g (wf_data s.1)) s.
Definition flush_out : FW unit := fun s =>
  match wh_flush (wf_handle s.1) with
  | Some fl => let '(w, r) := fl s.2 in ((s.1, w), r)
  | None => (s, Ok tt)
  end.
Definition close : FW unit := fun s =>
  if wf_closed s.1 then (s, Ok tt) else
  let '(s, r) := (on_file (modify set_closed) ≫= fun _ => on_file _assemble ≫= fun _ => write_out ≫= fun _ => flush_out) s in
  let '(s, c) := let_go (set_data [] s.1, s.2) in
  (s, match c with Err e => Err e | Ok _ => r end).

(** [__exit__]: a block that raised writes nothing. *)
Definition exit_ (raised : bool) : FW unit :=
  if raised then on_file (modify set_closed) ≫= fun _ => let_go else close.

(** [create] of a path or a URL, and of an open file. *)
Definition create (lower abspath : str -> str) (target : str) (compression : option str) (level : option Z) (w : W) : W * res (WritableFile G) :=
  if match compression with Some c => negb (dict_mem c Compression.CODES) | None => false end then (w, Err ValueError) else
  match parse lower abspath target with
  | Err e => (w, Err e)
  | Ok url =>
      match (if is_local url then wh_open (u_path url) w else wh_open_url url w) with
      | (w, Err e) => (w, Err e)
      | (w, Ok g) => WritableFile_init g target true compression level w
      end
  end.
Definition create_handle (g : G) (name : str) (compression : option str) (level : option Z) (w : W) : W * res (WritableFile G) :=
  if match compression with Some c => negb (dict_mem c Compression.CODES) | None => false end then (w, Err ValueError) else
  WritableFile_init g name false compression level w.
End File.
End RootWriter.
