(* ===== verification/RootInterp.v ===== *)
(** * What ROOT bytes mean

    src/xrd/root/cxx.py: C++ type names; src/xrd/root/interp.py: how the
    bytes of a column, a member or a whole object become values, by the
    streamer information of the file. [described] is what [source.streamers()]
    gives where it has been read; a read that needs it before stops with
    [Unasked], for the caller to read it and start again. Floating point
    numbers are their bits, their arithmetic that of the IEEE specification
    of the standard library. The reason a type is refused for is left out. *)

From Stdlib Require Import Floats.SpecFloat.
From S2P Require Import Prelude PyStr Errors Buffer UrlText Auth ConfigFile RootBuffer RootFile RootPack.
Open Scope Z_scope.

Module RootInterp.
Module R := RootBuffer.

(** ** C++ type names *)

Inductive node :=
| Prim (typename typecode : str) (itemsize : Z)
| Str (record : bool)
| Seq (item : node)
| Mapping (key value : node)
| Pair (first second : node).

Definition _PRIMS : list (str * str * Z * list str) :=
  [(s_ "bool", s_ "b", 1, [s_ "bool"; s_ "Bool_t"]);
   (s_ "int8", s_ "b", 1, [s_ "char"; s_ "Char_t"; s_ "int8_t"; s_ "signed char"]);
   (s_ "uint8", s_ "B", 1, [s_ "unsigned char"; s_ "UChar_t"; s_ "uint8_t"; s_ "Byte_t"]);
   (s_ "int16", s_ "h", 2, [s_ "short"; s_ "short int"; s_ "Short_t"; s_ "int16_t"; s_ "Version_t"]);
   (s_ "uint16", s_ "H", 2, [s_ "unsigned short"; s_ "unsigned short int"; s_ "UShort_t"; s_ "uint16_t"]);
   (s_ "int32", s_ "i", 4, [s_ "int"; s_ "Int_t"; s_ "int32_t"]);
   (s_ "uint32", s_ "I", 4, [s_ "unsigned"; s_ "unsigned int"; s_ "UInt_t"; s_ "uint32_t"]);
   (s_ "int64", s_ "q", 8, [s_ "long"; s_ "long int"; s_ "long long"; s_ "long long int"; s_ "Long_t"; s_ "Long64_t"]);
   (s_ "uint64", s_ "Q", 8, [s_ "unsigned long"; s_ "unsigned long int"; s_ "unsigned long long"; s_ "unsigned long long int";
                             s_ "ULong_t"; s_ "ULong64_t"]);
   (s_ "float32", s_ "f", 4, [s_ "float"; s_ "Float_t"]);
   (s_ "float64", s_ "d", 8, [s_ "double"; s_ "Double_t"])].
Definition SEQUENCES : list str :=
  [s_ "vector"; s_ "list"; s_ "forward_list"; s_ "deque"; s_ "set"; s_ "multiset"; s_ "unordered_set"; s_ "RVec"].
Definition MAPPINGS : list str := [s_ "map"; s_ "unordered_map"].
Definition _BY_NAME : dict str node :=
  foldl (fun d '(typename, code, size, aliases) => foldl (fun d a => dict_set a (Prim typename code size) d) d aliases) [] _PRIMS.
Definition _STRINGS : dict str bool := [(s_ "string", true); (s_ "basic_string<char>", true); (s_ "TString", false)].

(** [text.replace(sub, "")] of a [sub] that is not empty. *)
Fixpoint remove_all (sub : str) (skip : nat) (text : str) : str :=
  match text with
  | [] => []
  | c :: rest =>
      match skip with
      | S skip => remove_all sub skip rest
      | O => if startswith sub text then remove_all sub (pred (length sub)) rest else c :: remove_all sub O rest
      end
  end.

(** The two halves, ignoring nested commas. *)
Fixpoint split_at (depth : Z) (text : str) : option (str * str) :=
  match text with
  | [] => None
  | c :: rest =>
      let depth := depth + (if c =? 0x3C then 1 else 0) - (if c =? 0x3E then 1 else 0) in
      if (c =? 0x2C) && (depth =? 0) then Some ([], rest)
      else '(a, b) ← split_at depth rest; Some (c :: a, b)
  end.
Definition _split (text : str) : option (str * str) := split_at 0 text.

Fixpoint parse_type (fuel : nat) (name : str) : option node :=
  match fuel with
  | O => None
  | S fuel =>
      let text := strip (rstrip_by (fun c => (c =? 0x2A) || (c =? 0x26)) (strip (remove_all (s_ "std::") 0 name))) in
      let text := remove_all (s_ "ROOT::VecOps::") 0 text in
      match dict_get text _STRINGS, dict_get text _BY_NAME with
      | Some r, _ => Some (Str r)
      | None, Some p => Some p
      | None, None =>
          let '(head, angle, rest) := partition 0x3C text in
          if negb angle || negb (endswith [0x3E] rest) then None else
          let inside := removelast rest in
          let halves := '(a, b) ← _split inside; x ← parse_type fuel a; y ← parse_type fuel b; Some (x, y) in
          if bool_decide (head ∈ SEQUENCES) then Seq <$> parse_type fuel inside
          else if bool_decide (head = s_ "bitset") && Auth.isdigit (strip inside) then Seq <$> dict_get (s_ "bool") _BY_NAME
          else if bool_decide (head ∈ MAPPINGS) then (fun xy => Mapping xy.1 xy.2) <$> halves
          else if bool_decide (head = s_ "pair") then (fun xy => Pair xy.1 xy.2) <$> halves
          else None
      end
  end.
(** What is inside a name is shorter than the name. *)
Definition parse (name : str) : option node := parse_type (S (length name)) name.

Fixpoint py_name (n : node) : str :=
  match n with
  | Prim typename _ _ => typename
  | Str _ => s_ "str"
  | Seq item => s_ "list[" ++ py_name item ++ s_ "]"
  | Pair a b => s_ "tuple[" ++ py_name a ++ s_ ", " ++ py_name b ++ s_ "]"
  | Mapping k v => s_ "dict[" ++ py_name k ++ s_ ", " ++ py_name v ++ s_ "]"
  end.

(** ** Floating point numbers *)

(** A double as a number, and back; every NaN is the one NaN. *)
Definition sf_of (bits : Z) : spec_float :=
  let sign := Z.testbit bits 63 in
  let e := Z.land (Z.shiftr bits 52) 0x7FF in
  let f := Z.land bits (2 ^ 52 - 1) in
  if e =? 0x7FF then (if f =? 0 then S754_infinity sign else S754_nan)
  else if e =? 0 then (if f =? 0 then S754_zero sign else S754_finite sign (Z.to_pos f) (-1074))
  else S754_finite sign (Z.to_pos (2 ^ 52 + f)) (e - 1075).
Definition sf_bits (x : spec_float) : Z :=
  let signed (s : bool) b := if s then 2 ^ 63 + b else b in
  match x with
  | S754_zero s => signed s 0
  | S754_infinity s => signed s 0x7FF0000000000000
  | S754_nan => 0x7FF8000000000000
  | S754_finite s m e => signed s (if Z.pos m <? 2 ^ 52 then Z.pos m else Z.shiftl (e + 1074) 52 + Z.pos m)
  end.
Definition fdiv (a b : Z) : Z := sf_bits (SFdiv 53 1024 (sf_of a) (sf_of b)).
Definition fadd (a b : Z) : Z := sf_bits (SFadd 53 1024 (sf_of a) (sf_of b)).
Definition fsub (a b : Z) : Z := sf_bits (SFsub 53 1024 (sf_of a) (sf_of b)).
Definition fle (a b : Z) : bool := SFleb (sf_of a) (sf_of b).
Definition fneg (a : Z) : Z := Z.lxor a (2 ^ 63).
(** [if x:]. *)
Definition ftrue (a : Z) : bool := negb (a mod 2 ^ 63 =? 0).
(** A [float32] as a double. *)
Definition float_widen (bits : Z) : Z :=
  let sign := Z.shiftl (Z.shiftr bits 31) 63 in
  let e := Z.land (Z.shiftr bits 23) 0xFF in
  let f := Z.land bits (2 ^ 23 - 1) in
  if e =? 0xFF then sign + 0x7FF0000000000000 + (if f =? 0 then 0 else Z.lor (2 ^ 51) (Z.shiftl f 29))
  else if e =? 0 then
    (if f =? 0 then sign else sign + Z.shiftl (Z.log2 f + 874) 52 + (Z.shiftl f (52 - Z.log2 f) - 2 ^ 52))
  else sign + Z.shiftl (e + 896) 52 + Z.shiftl f 29.
(** [float(n)] of an integer a double holds. *)
Definition float_int (n : Z) : Z := default 0 (RootPack.float_of_int n).

(** [float(text)] of text in lower case: the digits as a fraction, rounded
    once. Far outside the range of a double only the sign is left. *)
Fixpoint digits (s : str) : str * str :=
  match s with
  | c :: rest => match digit_value c with Some d => let '(a, b) := digits rest in (d :: a, b) | None => ([], s) end
  | [] => ([], [])
  end.
(** An underscore stands between two digits and is dropped. *)
Fixpoint no_underscores (after : bool) (s : str) : option str :=
  match s with
  | [] => Some []
  | c :: rest =>
      if c =? 0x5F then
        match after, rest with
        | true, d :: _ => if bool_decide (is_Some (digit_value d)) then no_underscores false rest else None
        | _, _ => None
        end
      else cons c <$> no_underscores (bool_decide (is_Some (digit_value c))) rest
  end.
Definition number_of (ds : list Z) : Z := foldl (fun acc d => acc * 10 + d) 0 ds.
Definition decimal (m e : Z) (count : Z) : spec_float :=
  if m =? 0 then S754_zero false
  else if 400 <? e + count then S754_infinity false
  else if e + count <? -400 then S754_zero false
  else if 0 <=? e then binary_normalize 53 1024 (m * 10 ^ e) 0 false
  else SFdiv 53 1024 (S754_finite false (Z.to_pos m) 0) (S754_finite false (Z.to_pos (10 ^ (- e))) 0).
Definition signed_text (s : str) : bool * str :=
  match s with
  | c :: rest => if c =? 0x2D then (true, rest) else if c =? 0x2B then (false, rest) else (false, s)
  | [] => (false, [])
  end.
Definition float_text (s : str) : option spec_float :=
  s ← no_underscores false s;
  let '(whole, rest) := digits s in
  let '(frac, rest) := match rest with c :: r => if c =? 0x2E then digits r else ([], rest) | [] => ([], []) end in
  if zlen whole + zlen frac =? 0 then None else
  e ← match rest with
      | [] => Some 0
      | c :: r =>
          if c =? 0x65 then
            let '(minus, r) := signed_text r in
            let '(ds, over) := digits r in
            match ds, over with
            | _ :: _, [] => Some (if minus : bool then - number_of ds else number_of ds)
            | _, _ => None
            end
          else None
      end;
  Some (decimal (number_of (whole ++ frac)) (e - zlen frac) (zlen whole + zlen frac)).
Definition py_float (text : str) : res Z :=
  let '(minus, s) := signed_text (strip text) in
  let signed x := Ok (if minus : bool then fneg x else x) in
  if bool_decide (s ∈ [s_ "inf"; s_ "infinity"]) then signed 0x7FF0000000000000
  else if bool_decide (s = s_ "nan") then signed 0x7FF8000000000000
  else match float_text s with Some x => signed (sf_bits x) | None => Err ValueError end.

(** ** Values *)

(** What a read gives: an array by its type code, with the bits of floating
    point numbers; [ODict] has members, [OMap] the keys of a C++ map. *)
Inductive obj :=
| ONone
| OInt (n : Z)
| OFloat (bits : Z)
| OStr (s : str)
| OArray (typecode : str) (values : list Z)
| OList (l : list obj)
| OPair (a b : obj)
| ODict (d : list (str * obj))
| OMap (d : list (obj * obj))
| ODate (d : Z * Z * Z * (Z * Z * Z))
| OHist (classname : str) (members : list (str * obj))
| OGraph (classname : str) (members : list (str * obj)).

Notation rd := (st exn (R.Buffer obj)).

(** The bytes a type code takes, and whether they are a signed number. *)
Definition CODES : dict str (nat * bool) :=
  [(s_ "b", (1%nat, true)); (s_ "B", (1%nat, false)); (s_ "h", (2%nat, true)); (s_ "H", (2%nat, false)); (s_ "i", (4%nat, true));
   (s_ "I", (4%nat, false)); (s_ "q", (8%nat, true)); (s_ "Q", (8%nat, false)); (s_ "f", (4%nat, false)); (s_ "d", (8%nat, false))].
(** [to_native(array.array(code, raw))]. *)
Definition native (code : str) (raw : bytes) : res (list Z) :=
  match dict_get code CODES with
  | None => Err ValueError
  | Some (n, signed) =>
      if (zlen raw) mod (Z.of_nat n) =? 0
      then Ok ((if signed then unpack_i else unpack_u) <$> R.cut_every n (Nat.div (length raw) n) raw) else Err ValueError
  end.
(** An element of an array. *)
Definition element (code : str) (v : Z) : obj :=
  if bool_decide (code = s_ "f") then OFloat (float_widen v) else if bool_decide (code = s_ "d") then OFloat v else OInt v.
(** What goes through an array or a list. *)
Definition elements (o : obj) : list obj := match o with OArray code l => element code <$> l | OList l => l | _ => [] end.

(** [a == b] of two keys. *)
Definition same_key (a b : obj) : bool :=
  match a, b with
  | OInt x, OInt y => x =? y
  | OStr x, OStr y => bool_decide (x = y)
  | OFloat x, OFloat y => SFeqb (sf_of x) (sf_of y)
  | _, _ => false
  end.
Fixpoint map_set (k v : obj) (d : list (obj * obj)) : list (obj * obj) :=
  match d with
  | [] => [(k, v)]
  | (k', v') :: d => if same_key k' k then (k', v) :: d else (k', v') :: map_set k v d
  end.
(** [dict(zip_strict(keys, values))]. *)
Definition zipped (a b : obj) : res (list (obj * obj)) :=
  if zlen (elements a) =? zlen (elements b) then Ok (zip_with pair (elements a) (elements b)) else Err ValueError.
Definition map_of (l : list (obj * obj)) : list (obj * obj) := foldl (fun d kv => map_set kv.1 kv.2 d) [] l.

(** *** Reading one value *)

Definition MEMBER_WISE : Z := 0x4000.
Definition RECORD : Z := 6.

Fixpoint _items (n : node) (count : Z) : rd obj :=
  match n with
  | Prim _ code size => raw ← R.take_ (count * size); vs ← lift (native code raw); mret (OArray code vs)
  | Str _ => l ← R.times (Z.to_nat count) R.string; mret (OList (OStr <$> l))
  | Seq item => l ← R.times (Z.to_nat count) (k ← R.u32; _items item k); mret (OList l)
  | Mapping _ _ | Pair _ _ => if count =? 0 then mret (OList []) else raise AttributeError
  end.
(** A block of a class is introduced by a record of its own. *)
Definition _block (n : node) (count : Z) : rd obj :=
  (if negb (count =? 0) && match n with Prim _ _ _ | Str false => false | _ => true end then R.header ≫= fun _ => mret tt else mret tt) ≫= fun _ =>
  _items n count.
Definition _string : rd obj := s ← R.string; mret (OStr s).
Definition _member_string : rd obj := R.header ≫= fun _ => _string.

(** All the firsts in a block, then all the seconds; a class without a version
    of its own says so with a checksum. *)
Definition blocks (a b : node) : rd (obj * obj) :=
  v ← R.i16;
  (if v <=? 0 then R.u32 ≫= fun _ => mret tt else mret tt) ≫= fun _ =>
  count ← R.u32;
  firsts ← _block a count;
  seconds ← _block b count;
  mret (firsts, seconds).
Definition _sequence (item : node) : rd obj :=
  '(version, e) ← R.header;
  match item with
  | Pair a b =>
      if Z.land version MEMBER_WISE =? 0 then raise UnsupportedFeatureError else
      '(firsts, seconds) ← blocks a b;
      p ← R.pos;
      if match e with Some e => negb (p =? e) | None => false end then raise FormatError else
      l ← lift (zipped firsts seconds);
      mret (OList ((fun kv => OPair kv.1 kv.2) <$> l))
  | _ =>
      if negb (Z.land version MEMBER_WISE =? 0) then raise UnsupportedFeatureError else
      n ← R.u32; _items item n
  end.
Definition _mapping (k v : node) : rd obj :=
  '(version, _) ← R.header;
  if Z.land version MEMBER_WISE =? 0 then raise UnsupportedFeatureError else
  '(keys, values) ← blocks k v;
  l ← lift (zipped keys values); mret (OMap (map_of l)).

(** Whether a type below the top of an entry, or a whole column, cannot be
    read. *)
Fixpoint _nested (n : node) : bool := match n with Mapping _ _ | Pair _ _ => true | Seq item => _nested item | _ => false end.
Definition simple (n : node) : bool := match n with Prim _ _ _ | Str _ => true | _ => false end.
Definition _unusable (n : node) : bool :=
  match n with
  | Pair _ _ => true
  | Mapping k v => negb (simple k) || _nested v
  | Seq (Pair a b) => negb (simple a) || negb (simple b)
  | _ => _nested n
  end.

(** *** Packed floating point numbers *)

(** How a column turns its bytes into doubles. *)
Notation Unpack := (bytes -> res (list Z)).

(** The spellings of pi, and the doubles they stand for. *)
Definition _PI : list (str * Z) :=
  [(s_ "2pi", 0x401921FB54442D18); (s_ "2*pi", 0x401921FB54442D18); (s_ "twopi", 0x401921FB54442D18);
   (s_ "pi/2", 0x3FF921FB54442D18); (s_ "pi/4", 0x3FE921FB54442D18); (s_ "pi", 0x400921FB54442D18)].
Definition _number (text : str) : res Z :=
  match List.find (fun '(spelling, _) => ConfigFile.has_sub spelling text) _PI with
  | Some (_, value) => Ok (if contains 0x2D text then fneg value else value)
  | None => py_float text
  end.

(** [text.rfind(c)]. *)
Fixpoint rfind (c : Z) (text : str) : Z :=
  match text with
  | [] => -1
  | x :: text => let r := rfind c text in if 0 <=? r then r + 1 else if x =? c then 0 else -1
  end.

(** The range a title asks for: its ends and the scale factor, all zero when
    it asks for nothing, none when it makes no sense. *)
Definition _range (lower : str -> str) (title : str) : option (Z * Z * Z) :=
  let nothing := Some (0, 0, 0) in
  let beg := rfind 0x5B title in
  let end_ := rfind 0x5D title in
  if (beg <? 0) || (end_ <? 0) then nothing else
  let slash := rfind 0x2F (take (Z.to_nat beg) title) in
  if (0 <? beg) && ((slash <? 0) || negb (slash + 2 =? beg)) then nothing else
  let parts := (fun p => lower (strip p)) <$> split_all 0x2C (R.py_slice title (beg + 1) end_) in
  match parts with
  | [_] => nothing
  | a :: b :: rest =>
      match rest with
      | _ :: _ :: _ => None
      | _ =>
          nbits ← match rest with c :: _ => py_int c | [] => Some 32 end;
          match _number a, _number b with
          | Ok xmin, Ok xmax =>
              if negb ((2 <=? nbits) && (nbits <=? 32)) then None
              else if fle xmax xmin then Some (if nbits <? 15 then fadd (float_int nbits) 0x3FB999999999999A else 0, xmax, 0)
              else Some (xmin, xmax, fdiv (float_int (if nbits <? 32 then Z.shiftl 1 nbits else 0xFFFFFFFF)) (fsub xmax xmin))
          | _, _ => None
          end
      end
  | [] => nothing
  end.

(** [struct.unpack] of a run of records of [n] bytes. *)
Definition cut_all (n : nat) (raw : bytes) : res (list bytes) :=
  if zlen raw mod Z.of_nat n =? 0 then Ok (R.cut_every n (Nat.div (length raw) n) raw) else Err StructError.
Definition _scaled (factor xmin : Z) : Unpack := fun raw =>
  l ← cut_all 4 raw; Ok (map (fun b => fadd (fdiv (float_int (unpack_u b)) factor) xmin) l).
(** A shift by a negative amount is refused. *)
Definition shifted (a n : Z) : res Z := if n <? 0 then Err ValueError else Ok (Z.shiftl a n).
Definition _truncated (nbits : Z) : res Unpack :=
  sign ← shifted 1 (nbits + 1);
  Ok (fun raw =>
    l ← cut_all 3 raw;
    mapM_res (fun b =>
      let exp := unpack_u (take 1 b) in
      let man := unpack_u (drop 1 b) in
      m ← shifted (Z.land man (sign - 1)) (23 - nbits);
      let value := float_widen (Z.land (Z.lor (Z.shiftl exp 23) m) 0xFFFFFFFF) in
      Ok (if Z.land man sign =? 0 then value else fneg value)) l).
Definition _widened : Unpack := fun raw => l ← native (s_ "f") raw; Ok (map float_widen l).

(** How wide a packed number is in the file, and how it comes back. *)
Definition _packing (lower : str -> str) (title : str) (double32 : bool) : res (option (Z * Unpack)) :=
  match _range lower title with
  | None => Ok None
  | Some (xmin, _, factor) =>
      if ftrue factor then Ok (Some (4, _scaled factor xmin)) else
      n ← RootPack.float_trunc xmin;
      if (n =? 0) && double32 then Ok (Some (4, _widened))
      else u ← _truncated (if n =? 0 then 12 else n); Ok (Some (3, u))
  end.

(** *** Histograms and graphs *)

Definition HISTOGRAMS : list str :=
  s_ "123" ≫= fun dimension => s_ "CSILFD" ≫= fun kind => [s_ "TH" ++ [dimension; kind]].
Definition GRAPHS : list str := [s_ "TGraph"; s_ "TGraphErrors"; s_ "TGraphAsymmErrors"; s_ "TGraphMultiErrors"].

(** The part of an object that has the counter, however far down. *)
Fixpoint core (key : str) (o : obj) : option (dict str obj) :=
  match o with
  | ODict row =>
      if dict_mem key row then Some row else
      (fix go (d : list (str * obj)) : option (dict str obj) :=
         match d with [] => None | (_, v) :: d => match core key v with Some x => Some x | None => go d end end) row
  | _ => None
  end.
(** [o[key]] and [len(o)]. *)
Definition item (o : obj) (key : str) : res obj :=
  match o with ODict d => match dict_get key d with Some v => Ok v | None => Err KeyError end | _ => Err TypeError end.
Definition olen (o : obj) : res Z :=
  match o with
  | OStr s => Ok (zlen s)
  | OArray _ l => Ok (zlen l)
  | OList l => Ok (zlen l)
  | OPair _ _ => Ok 2
  | ODict d => Ok (zlen d)
  | OMap d => Ok (zlen d)
  | _ => Err TypeError
  end.
Definition obj_int (o : obj) : res Z :=
  match o with
  | OInt n => Ok n
  | OFloat bits => RootPack.float_trunc bits
  | OStr s => match py_int s with Some n => Ok n | None => Err ValueError end
  | _ => Err TypeError
  end.

Definition _contents (row : dict str obj) : option (list Z) :=
  match List.find (fun '(name, v) => startswith (s_ "TArray") name && match v with OArray _ _ => true | _ => false end) row with
  | Some (_, OArray _ l) => Some l
  | _ => None
  end.
(** An axis, for how many bins it says it has. *)
Definition Axis_init (row : obj) : res obj :=
  named ← item row (s_ "TNamed");
  _ ← item named (s_ "fName"); _ ← item named (s_ "fTitle");
  nbins ← item row (s_ "fNbins");
  _ ← item row (s_ "fXmin"); _ ← item row (s_ "fXmax"); _ ← item row (s_ "fXbins");
  Ok nbins.
(** [len(axis)]. *)
Definition Axis_len (nbins : obj) : res Z :=
  match nbins with OInt n => if n <? 0 then Err ValueError else Ok n | _ => Err TypeError end.
Definition Histogram_init (classname : str) (members : dict str obj) : res obj :=
  match core (s_ "fNcells") (ODict members), _contents members with
  | Some row, Some bins =>
      let dimension := Z.to_nat (default 0 (digit_value (default 0x31 (classname !! 2%nat)))) in
      axes ← mapM_res (fun letter => a ← item (ODict row) (0x66 :: letter :: s_ "axis"); Axis_init a) (take dimension (s_ "XYZ"));
      lens ← mapM_res Axis_len axes;
      if zlen bins <? foldr Z.mul 1 (map (fun n => n + 2) lens) then Err FormatError else Ok (OHist classname members)
  | _, _ => Err FormatError
  end.
(** [array.array("d", o[:points])]. *)
Definition as_points (o : obj) (points : Z) : res unit :=
  match o with
  | OArray _ _ => Ok tt
  | OList l => if forallb (fun x => match x with OInt _ | OFloat _ => true | _ => false end) (R.py_slice l 0 points) then Ok tt else Err TypeError
  | _ => Err TypeError
  end.
Definition Graph_init (classname : str) (members : dict str obj) : res obj :=
  match core (s_ "fNpoints") (ODict members) with
  | Some row =>
      match dict_get (s_ "fX") row, dict_get (s_ "fY") row with
      | Some x, Some y =>
          points ← (n ← item (ODict row) (s_ "fNpoints"); obj_int n);
          nx ← olen x;
          short ← (if nx <? points then Ok true else ny ← olen y; Ok (ny <? points));
          if short : bool then Err FormatError else
          _ ← as_points x points; _ ← as_points y points; Ok (OGraph classname members)
      | _, _ => Err FormatError
      end
  | None => Err FormatError
  end.

(** ** A whole object *)

Definition OBJECTS : list Z := [0; 61; 62].
Definition OBJECTS_HELD : list Z := [63; 68].
Definition OBJECTS_POINTED : list Z := [64; 69].
Definition LISTS : list str := [s_ "TList"; s_ "THashList"; s_ "TSortedList"].
Definition OBJECT_ARRAYS : list str := [s_ "TObjArray"].
Definition CLONES : list str := [s_ "TClonesArray"].
(** The type code and the width of the values of an array. *)
Definition ARRAYS : dict str (str * str * Z) :=
  [(s_ "TArrayC", (s_ "int8", s_ "b", 1)); (s_ "TArrayS", (s_ "int16", s_ "h", 2)); (s_ "TArrayI", (s_ "int32", s_ "i", 4));
   (s_ "TArrayL", (s_ "int64", s_ "q", 8)); (s_ "TArrayL64", (s_ "int64", s_ "q", 8)); (s_ "TArrayF", (s_ "float32", s_ "f", 4));
   (s_ "TArrayD", (s_ "float64", s_ "d", 8))].
Definition SELF_STREAMING : list str := LISTS ++ OBJECT_ARRAYS ++ CLONES ++ dict_keys ARRAYS.
Definition TOBJECT : Z := 66.
Definition TNAMED : Z := 67.
Definition PACKED : dict Z bool := [(9, true); (19, false)].
Definition BASIC : dict Z (str * str * Z) :=
  [(1, (s_ "int8", s_ "b", 1)); (2, (s_ "int16", s_ "h", 2)); (3, (s_ "int32", s_ "i", 4)); (4, (s_ "int64", s_ "q", 8));
   (5, (s_ "float32", s_ "f", 4)); (6, (s_ "int32", s_ "i", 4)); (8, (s_ "float64", s_ "d", 8)); (11, (s_ "uint8", s_ "B", 1));
   (12, (s_ "uint16", s_ "H", 2)); (13, (s_ "uint32", s_ "I", 4)); (14, (s_ "uint64", s_ "Q", 8)); (15, (s_ "uint32", s_ "I", 4));
   (16, (s_ "int64", s_ "q", 8)); (17, (s_ "uint64", s_ "Q", 8)); (18, (s_ "bool", s_ "b", 1))].

(** How a member reads, from the members read before it. *)
Notation Step := (dict str obj -> rd obj).

(** [count] numbers, packed or plain. *)
Definition _numbers (code : str) (size : Z) (unpack : option Unpack) (count : Z) : rd obj :=
  raw ← R.take_ (count * size);
  match unpack with
  | Some u => vs ← lift (u raw); mret (OArray (s_ "d") vs)
  | None => vs ← lift (native code raw); mret (OArray code vs)
  end.
Definition _one (code : str) (size : Z) (unpack : option Unpack) : Step := fun _ =>
  o ← _numbers code size unpack 1;
  match elements o with v :: _ => mret v | [] => raise IndexError end.
Definition _run (code : str) (size : Z) (unpack : option Unpack) (length : Z) : Step := fun _ => _numbers code size unpack length.
(** A counted array, behind its marker; where its count is. *)
Definition _pointer (code : str) (size : Z) (unpack : option Unpack) (count : list str) : Step := fun row =>
  R.u8 ≫= fun _ =>
  n ← lift (o ← foldl (fun o key => o ← o; item o key) (Ok (ODict row)) count; obj_int o);
  _numbers code size unpack n.

Definition _plainly (read : rd obj) : Step := fun _ => read.
Definition _streamed (read : rd obj) : rd obj :=
  '(version, e) ← R.header;
  (if version =? 0 then R.u32 ≫= fun _ => mret tt else mret tt) ≫= fun _ =>
  row ← read;
  R.resume e ≫= fun _ => mret row.
Definition _named (name : str) (read : rd obj) : rd obj :=
  R.u8 ≫= fun _ =>
  written ← R.cstring;
  if bool_decide (written = name) then read else raise FormatError.
Definition _datime : rd obj := n ← R.u32; d ← lift (R.as_datetime n); mret (ODate d).
Definition _bookkeeping : rd obj :=
  '(unique, bits) ← R.tobject; mret (ODict [(s_ "fUniqueID", OInt unique); (s_ "fBits", OInt bits)]).
Definition _titled : rd obj := '(name, title) ← R.named; mret (ODict [(s_ "fName", OStr name); (s_ "fTitle", OStr title)]).

Definition _reader (n : node) : res (rd obj) :=
  match n with
  | Str record => Ok (if record then _member_string else _string)
  | _ =>
      if _unusable n then Err Unreadable else
      match n with Mapping k v => Ok (_mapping k v) | Seq item => Ok (_sequence item) | _ => Err AssertionError end
  end.

(** The class a container holds one of, and whether by pointer. *)
Definition _class_held (typename : str) : option (str * bool) :=
  let '(head, angle, rest) := partition 0x3C (strip (remove_all (s_ "std::") 0 typename)) in
  if negb angle || negb (endswith [0x3E] rest) || negb (bool_decide (head ∈ SEQUENCES)) then None else
  let inside := strip (removelast rest) in
  if contains 0x3C inside || bool_decide (inside = []) then None
  else Some (strip (rstrip_by (fun c => c =? 0x2A) inside), endswith [0x2A] inside).

(** Every object's first member, then every object's second. *)
Definition _field_by_field (e : option Z) (fields : list (str * Step)) : rd obj :=
  version ← R.i16;
  (if version <=? 0 then R.u32 ≫= fun _ => mret tt else mret tt) ≫= fun _ =>
  n ← R.i32;
  rows ← R.fill_steps fields (replicate (Z.to_nat n) []);
  p ← R.pos;
  if match e with Some e => negb (p =? e) | None => false end then raise FormatError else mret (OList (map ODict rows)).
Definition _objects (one : rd obj) (fields : option (list (str * Step))) : rd obj :=
  '(version, e) ← R.header;
  if Z.land version MEMBER_WISE =? 0 then n ← R.u32; l ← R.times (Z.to_nat n) one; mret (OList l) else
  match fields with None => raise UnsupportedFeatureError | Some fields => _field_by_field e fields end.

(** A class on its own: a graph or a histogram is dressed up as one. *)
Definition _shown (name : str) (read : rd obj) : rd obj :=
  let dressed (f : str -> dict str obj -> res obj) :=
    o ← read; match o with ODict d => lift (f name d) | _ => raise TypeError end in
  if bool_decide (name ∈ GRAPHS) then dressed Graph_init
  else if bool_decide (name ∈ HISTOGRAMS) then dressed Histogram_init
  else read.

(** What a pointer or an entry of a list reads as. *)
Definition pointed (r : option (R.ref obj)) : obj :=
  match r with None => ONone | Some (R.Named n) => OStr n | Some (R.Object o) => o end.

(** ** Columns *)

Inductive Column :=
| Flat (typename typecode : str) (itemsize : Z) (unpack : option Unpack) (length : Z)
| Rows (typename typecode : str) (itemsize : Z) (unpack : option Unpack) (header : Z) (counted : bool)
| Values (typename : str) (read : rd obj)
| Members
| Refused.

(** [Numeric.decode]. *)
Definition decode (typecode : str) (unpack : option Unpack) (raw : bytes) : res (list Z) :=
  match unpack with Some u => u raw | None => native typecode raw end.

Section Described.
(** What the file says of its classes, once that has been read. *)
Variable described : option (res (dict str (dict str RootFile.Member))).
(** [str.lower], and [str] of an object. *)
Variable lower : str -> str.
Variable show : obj -> str.

Definition ask : res (dict str (dict str RootFile.Member)) := default (Err Unasked) described.

Section Deeper.
(** The members of a class in order, and the reader of a whole object, for
    what is nested one deeper. *)
Variable steps : list str -> str -> res (list (str * Step)).
Variable embedded : list str -> str -> res (rd obj).

(** [_Described(source, seen)]: the reader of a class, none if it cannot be
    read, and the same as the classes of a buffer. *)
Definition _Described (seen : list str) (name : str) : res (option (rd obj)) :=
  match embedded seen name with Ok r => Ok (Some (_shown name r)) | Err Unreadable => Ok None | Err e => Err e end.
Definition classes (seen : list str) (name : str) : option (rd obj) :=
  match _Described seen name with Ok o => o | Err e => Some (raise e) end.
Definition _fields (seen : list str) (name : str) : res (option (list (str * Step))) :=
  if bool_decide (name ∈ SELF_STREAMING) then Ok None else
  match steps seen name with Ok l => Ok (Some l) | Err Unreadable => Ok None | Err e => Err e end.

(** A number, packed or plain, by its streamer type less [base]. *)
Definition numeric (m : RootFile.Member) (base : Z) : option (res (str * Z * option Unpack)) :=
  let kind := RootFile.mb_stype m - base in
  match dict_get kind BASIC, dict_get kind PACKED with
  | Some (_, code, size), _ => Some (Ok (code, size, None))
  | None, Some double32 =>
      Some (found ← _packing lower (RootFile.mb_title m) double32;
            match found with None => Err Unreadable | Some (size, u) => Ok (s_ "d", size, Some u) end)
  | None, None => None
  end.

(** How to read one member, or a refusal to read its class. *)
Definition _step (seen : list str) (before : dict str (list str)) (m : RootFile.Member) : res Step :=
  let stype := RootFile.mb_stype m in
  let typename := RootFile.mb_typename m in
  match numeric m 0, numeric m RootPack.OFFSET_L, numeric m RootPack.OFFSET_P with
  | Some r, _, _ => '(code, size, u) ← r; Ok (_one code size u)
  | None, Some r, _ => '(code, size, u) ← r; Ok (_run code size u (RootFile.mb_length m))
  | None, None, Some r =>
      '(code, size, u) ← r;
      match dict_get (RootFile.mb_count m) before with None => Err Unreadable | Some count => Ok (_pointer code size u count) end
  | None, None, None =>
      if bool_decide (typename = s_ "TDatime") then Ok (_plainly _datime)
      else if stype =? TOBJECT then Ok (_plainly _bookkeeping)
      else if stype =? TNAMED then Ok (_plainly _titled)
      else if bool_decide (stype - RootPack.OFFSET_L ∈ [61; 62]) then
        one ← embedded seen typename;
        Ok (_plainly (l ← R.times (Z.to_nat (RootFile.mb_length m)) one; mret (OList l)))
      else if bool_decide (stype ∈ OBJECTS) then
        r ← embedded seen (if stype =? 0 then RootFile.mb_name m else typename); Ok (_plainly r)
      else if bool_decide (stype ∈ OBJECTS_HELD) then r ← embedded seen (RootPack.strip_stars typename); Ok (_plainly r)
      else if bool_decide (stype ∈ OBJECTS_POINTED) then Ok (_plainly (o ← R.any show (classes seen); mret (pointed o)))
      else match parse typename with
           | Some n => r ← _reader n; Ok (_plainly r)
           | None =>
               match _class_held typename with
               | Some (_, true) => Ok (_plainly (_objects (o ← R.any show (classes seen); mret (pointed o)) None))
               | Some (name, false) => one ← embedded seen name; fields ← _fields seen name; Ok (_plainly (_objects one fields))
               | None => Err Unreadable
               end
           end
  end.

Fixpoint steps_loop (d : dict str (dict str RootFile.Member)) (seen : list str) (before : dict str (list str)) (ms : list RootFile.Member)
    : res (list (str * Step)) :=
  match ms with
  | [] => Ok []
  | m :: ms =>
      let name := RootFile.mb_name m in
      step ← _step seen before m;
      let before :=
        if RootFile.mb_stype m =? 0
        then foldl (fun b inner => dict_set inner [name; inner] b) before (dict_keys (default [] (dict_get name d))) else before in
      rest ← steps_loop d seen (dict_set name [name] before) ms;
      Ok ((name, step) :: rest)
  end.
Definition steps_of (seen : list str) (name : str) : res (list (str * Step)) :=
  if bool_decide (name ∈ seen) then Err Unreadable else
  d ← ask;
  match dict_get name d with
  | None => Err Unreadable
  | Some ms => steps_loop d (seen ++ [name]) [] ms.*2
  end.

Fixpoint read_members (l : list (str * Step)) (row : dict str obj) : rd obj :=
  match l with [] => mret (ODict row) | (label, step) :: l => v ← step row; read_members l (dict_set label v row) end.
Definition _members (seen : list str) (name : str) : res (rd obj) := l ← steps seen name; Ok (read_members l []).

(** A whole object written where it stands. *)
Definition embedded_of (seen : list str) (name : str) : res (rd obj) :=
  if bool_decide (name ∈ LISTS) then Ok (l ← R.tlist show (classes seen); mret (OList (map pointed l)))
  else if bool_decide (name ∈ OBJECT_ARRAYS) then Ok (l ← R.objarray show (classes seen); mret (OList (map pointed l)))
  else if bool_decide (name ∈ CLONES) then
    Ok (h ← R.clones (fun n => lift (_Described seen n)) (Some (fun n => lift (_fields seen n)));
        mret (OList match h with R.Clones l => map (default ONone) l | R.Rows l => map ODict l end))
  else match dict_get name ARRAYS with
       | Some (_, code, size) => Ok (n ← R.i32; _numbers code size None n)
       | None => r ← _members seen name; Ok (_streamed r)
       end.
End Deeper.

(** As deep as the stack lets classes nest. *)
Fixpoint walk (depth : nat) : (list str -> str -> res (list (str * Step))) * (list str -> str -> res (rd obj)) :=
  match depth with
  | O => (fun _ _ => Err RecursionError, fun _ _ => Err RecursionError)
  | S depth => let '(steps, embedded) := walk depth in (steps_of steps embedded, embedded_of steps embedded)
  end.
Definition _steps (depth : nat) : list str -> str -> res (list (str * Step)) := (walk depth).1.
Definition _embedded (depth : nat) : list str -> str -> res (rd obj) := (walk depth).2.

(** A class written into the entry, with the record and the name in front that
    go with how it was written. *)
Definition _whole (depth : nat) (name : str) (streamed named : bool) : res Column :=
  if bool_decide (name = s_ "TDatime") then Ok (Values (s_ "datetime") (if named then _named name _datime else _datime)) else
  d ← ask;
  match dict_get name d with
  | None => Ok Refused
  | Some _ =>
      match _members (_steps depth) [] name with
      | Err Unreadable => Ok Refused
      | Err e => Err e
      | Ok read =>
          let read := if streamed then _streamed read else read in
          Ok (Values (s_ "dict") (if named then _named name read else read))
      end
  end.

(** One object on its own, the way a key holds one. *)
Definition whole_object (depth : nat) (name : str) : res Column :=
  match parse name, dict_get name ARRAYS with
  | Some (Str _), _ => Ok (Values (s_ "str") _string)
  | _, arr =>
      if bool_decide (name = s_ "TDatime") then Ok (Values (s_ "datetime") _datime) else
      match arr with
      | Some (typename, _, _) => r ← _embedded depth [] name; Ok (Values typename r)
      | None =>
          if bool_decide (name ∈ LISTS ++ OBJECT_ARRAYS ++ CLONES) then r ← _embedded depth [] name; Ok (Values (s_ "list") r) else
          d ← ask;
          match dict_get name d with
          | None => Ok Refused
          | Some _ =>
              match _members (_steps depth) [] name with
              | Err Unreadable => Ok Refused
              | Err e => Err e
              | Ok read => Ok (Values (s_ "dict") (_streamed read))
              end
          end
      end
  end.
End Described.
End RootInterp.
