(* ===== verification/RootTree.v ===== *)
(** * Trees

    src/xrd/root/objects.py: the records a tree is made of; the part of
    src/xrd/root/interp.py that decides what a column is; src/xrd/root/tree.py:
    baskets, branches and the tree itself; and the objects a key may hold
    (the rest of [Directory._read] of src/xrd/root/file.py). A branch remembers
    its last basket, and a group is the branches of its tree by name, so
    reading works on the tree and the source together. *)

From S2P Require Import Prelude PyStr Errors Buffer UrlText Compression RootBuffer RootFile RootPack RootInterp.
Open Scope Z_scope.

Module RootTree.
Module R := RootBuffer.
Import RootFile RootInterp.

(** ** The records of a tree *)

Definition LEAF_TYPES : dict str (str * str * Z) :=
  [(s_ "TLeafO", (s_ "bool", s_ "b", 1)); (s_ "TLeafB", (s_ "int8", s_ "b", 1)); (s_ "TLeafS", (s_ "int16", s_ "h", 2));
   (s_ "TLeafI", (s_ "int32", s_ "i", 4)); (s_ "TLeafL", (s_ "int64", s_ "q", 8)); (s_ "TLeafG", (s_ "int64", s_ "q", 8));
   (s_ "TLeafF", (s_ "float32", s_ "f", 4)); (s_ "TLeafD", (s_ "float64", s_ "d", 8)); (s_ "TLeafC", (s_ "str", [], 0))].
Definition PACKED_LEAVES : list str := [s_ "TLeafF16"; s_ "TLeafD32"].
Definition LEAF_REASONS : list str := [s_ "TLeafElement"; s_ "TLeafObject"].
Definition UNSIGNED : dict str str := [(s_ "b", s_ "B"); (s_ "h", s_ "H"); (s_ "i", s_ "I"); (s_ "q", s_ "Q")].

Inductive LeafRecord := mkLeaf {
  lf_classname : str; lf_name : str; lf_title : str; lf_length : Z; lf_etype : Z; lf_offset : Z; lf_unsigned : bool;
  lf_count : option LeafRecord; lf_ltype : Z
}.
Definition LeafRecord_init (classname : str) : LeafRecord := mkLeaf classname [] [] 1 0 0 false None (-1).

Definition typename (l : LeafRecord) : option str :=
  '(name, _, _) ← dict_get (lf_classname l) LEAF_TYPES;
  Some (if lf_unsigned l && startswith (s_ "int") name then 0x75 :: name else name).
Definition typecode (l : LeafRecord) : res str :=
  match dict_get (lf_classname l) LEAF_TYPES with
  | None => Err KeyError
  | Some (_, code, _) => Ok (if lf_unsigned l then default code (dict_get code UNSIGNED) else code)
  end.
Definition itemsize (l : LeafRecord) : res Z :=
  match dict_get (lf_classname l) LEAF_TYPES with None => Err KeyError | Some (_, _, size) => Ok size end.

(** A block of entries, decompressed. *)
Record Basket := mkBasket { bk_keylen : Z; bk_nevsize : Z; bk_nevbuf : Z; bk_last : Z; bk_data : bytes; bk_offsets : list Z }.

Inductive BranchRecord := mkBranchRecord {
  br_name : str; br_title : str; br_classname : str; br_entry_offset_len : Z; br_entries : Z; br_first_entry : Z;
  br_basket_bytes : list Z; br_basket_entry : list Z; br_basket_seek : list Z; br_leaves : list LeafRecord;
  br_branches : list BranchRecord; br_baskets : list Basket; br_streamed : bool; br_whole : bool
}.

(** What the classes of a tree record read as. *)
Inductive part := PLeaf (l : LeafRecord) | PBranch (b : BranchRecord) | PBasket (b : option Basket).

(** [l[i]] of a place counted from the front. *)
Definition at_index {A} (l : list A) (i : Z) : res A := match l !! Z.to_nat i with Some a => Ok a | None => Err IndexError end.
(** [l[:n]]. *)
Definition first {A} (l : list A) (n : Z) : list A := R.py_slice l 0 n.

Section Records.
(** [str] of a part, and the classes nested in one. *)
Variable show : part -> str.
Variable classes : str -> option (st exn (R.Buffer part) part).
Notation M := (st exn (R.Buffer part)).

Definition read_leaf (classname : str) : M LeafRecord :=
  '(_, e) ← R.header;
  '(_, inner) ← R.header;
  '(name, title) ← R.named;
  length ← R.i32;
  etype ← R.i32;
  offset ← R.i32;
  R.bool_ ≫= fun _ =>
  unsigned ← R.bool_;
  count ← R.any show classes;
  R.resume inner ≫= fun _ =>
  ltype ← (if bool_decide (classname = s_ "TLeafElement") then R.i32 ≫= fun _ => R.i32 else mret (-1));
  R.resume e ≫= fun _ =>
  mret (mkLeaf classname name title (if length =? 0 then 1 else length) etype offset unsigned
          (match count with Some (R.Object (PLeaf l)) => Some l | _ => None end) ltype).

(** A basket written into the branch record; none if it kept no bytes. *)
Definition Basket_inline : M (option Basket) :=
  key ← Key_init;
  version ← R.i16;
  R.i32 ≫= fun _ =>
  nevsize ← R.i32;
  (if nevsize <? 0 then R.skip_record ≫= fun _ => mret tt else mret tt) ≫= fun _ =>
  nevbuf ← R.i32;
  last ← R.i32;
  flag ← R.u8;
  '(flag, offsets) ←
    (if 80 <=? flag then mret (flag - 80, [])
     else if (flag mod 10 =? 1) && negb (nevbuf =? 0) then
       n ← R.i32;
       offsets ← R.i32s n;
       let offsets := if (20 <? flag) && (flag <? 40) then map (fun a => Z.land a 0xFFFFFF) offsets else offsets in
       (if 40 <? flag then n ← R.i32; R.i32s n else mret []) ≫= fun _ => mret (flag, offsets)
     else mret (flag, []));
  if negb (flag =? 1) && (flag <=? 10) then mret None else
  size ← (if 1 <? version then mret last else R.i32);
  data ← R.take_ size;
  mret (Some (mkBasket (k_keylen key) (Z.abs nevsize) nevbuf last (R.py_slice data (k_keylen key) (zlen data)) offsets)).

(** The baskets a record carries, up to the first it does not. *)
Fixpoint _held (items : list (option (R.ref part))) : list Basket :=
  match items with Some (R.Object (PBasket (Some b))) :: items => b :: _held items | _ => [] end.
Definition branch_parts (items : list (option (R.ref part))) : list BranchRecord :=
  omap (fun x => match x with Some (R.Object (PBranch b)) => Some b | _ => None end) items.
Definition leaf_parts (items : list (option (R.ref part))) : list LeafRecord :=
  omap (fun x => match x with Some (R.Object (PLeaf l)) => Some l | _ => None end) items.

(** Where each of the baskets carried starts. *)
Fixpoint bounds_from (n : Z) (baskets : list Basket) : list Z :=
  n :: match baskets with [] => [] | b :: baskets => bounds_from (n + bk_nevbuf b) baskets end.

Definition read_branch : M BranchRecord :=
  '(version, e) ← R.header;
  if version <? 6 then raise UnsupportedFeatureError else
  let modern := 10 <=? version in
  '(name, title) ← R.named;
  (if 7 <? version then R.skip_record else mret 0) ≫= fun _ =>
  R.i32 ≫= fun _ => R.i32 ≫= fun _ =>
  entry_offset_len ← R.i32;
  write_basket ← R.i32;
  (if modern then R.i64 else R.i32) ≫= fun _ =>
  (if 13 <=? version then R.skip_record else mret 0) ≫= fun _ =>
  R.i32 ≫= fun _ =>
  max_baskets ← R.i32;
  (if 6 <? version then R.i32 else mret 0) ≫= fun _ =>
  '(entries, first_entry) ←
    (if modern then
       entries ← R.i64;
       first_entry ← (if 11 <=? version then R.i64 else mret 0);
       R.i64 ≫= fun _ => R.i64 ≫= fun _ => mret (entries, first_entry)
     else
       d ← R.f64; entries ← lift (RootPack.float_trunc d);
       R.f64 ≫= fun _ => R.f64 ≫= fun _ => mret (entries, 0));
  branches ← R.objarray show classes;
  leaves ← R.objarray show classes;
  baskets ← R.objarray show classes;
  let baskets := _held baskets in
  R.u8 ≫= fun _ =>
  basket_bytes ← R.i32s max_baskets;
  R.u8 ≫= fun _ =>
  '(basket_entry, basket_seek) ←
    (if modern then
       entry ← R.i64s max_baskets;
       R.u8 ≫= fun _ =>
       seek ← R.i64s max_baskets; mret (entry, seek)
     else
       entry ← R.i32s max_baskets;
       wide ← R.u8;
       seek ← (if wide =? 2 then R.i64s max_baskets else R.i32s max_baskets); mret (entry, seek));
  let basket_seek := first basket_seek write_basket in
  let basket_entry :=
    if negb (zlen baskets =? 0) && (zlen basket_seek =? 0) then bounds_from 0 baskets else first basket_entry (write_basket + 1) in
  R.resume e ≫= fun _ =>
  mret (mkBranchRecord name title [] entry_offset_len entries first_entry (first basket_bytes write_basket) basket_entry basket_seek
          (leaf_parts leaves) (branch_parts branches) baskets false false).

Definition with_class (b : BranchRecord) (classname : str) (streamed whole : bool) : BranchRecord :=
  mkBranchRecord (br_name b) (br_title b) classname (br_entry_offset_len b) (br_entries b) (br_first_entry b) (br_basket_bytes b)
    (br_basket_entry b) (br_basket_seek b) (br_leaves b) (br_branches b) (br_baskets b) streamed whole.

Definition read_branch_element : M BranchRecord :=
  '(version, e) ← R.header;
  b ← read_branch;
  classname ← R.string;
  (if 1 <? version then R.string ≫= fun _ => R.string ≫= fun _ => R.u32 else mret 0) ≫= fun _ =>
  (if 10 <=? version then R.u16 else R.u32) ≫= fun _ =>
  id ← R.i32;
  type ← R.i32;
  R.resume e ≫= fun _ => mret (with_class b classname (type <? 0) (id <? 0)).
Definition read_branch_object : M BranchRecord :=
  '(_, e) ← R.header;
  b ← read_branch;
  classname ← R.string;
  R.resume e ≫= fun _ => mret (with_class b classname true false).
Definition read_derived_branch : M BranchRecord :=
  '(_, e) ← R.header; b ← read_branch; R.resume e ≫= fun _ => mret b.
End Records.

(** [CLASSES], as deep as the stack lets records nest. *)
Fixpoint CLASSES (show : part -> str) (depth : nat) (name : str) : option (st exn (R.Buffer part) part) :=
  let inner := match depth with O => fun _ => Some (raise RecursionError) | S depth => CLASSES show depth end in
  if bool_decide (name ∈ dict_keys LEAF_TYPES ++ LEAF_REASONS ++ PACKED_LEAVES) then Some (l ← read_leaf show inner name; mret (PLeaf l))
  else if bool_decide (name = s_ "TBasket") then Some (b ← Basket_inline; mret (PBasket b))
  else if bool_decide (name = s_ "TBranch") then Some (b ← read_branch show inner; mret (PBranch b))
  else if bool_decide (name = s_ "TBranchElement") then Some (b ← read_branch_element show inner; mret (PBranch b))
  else if bool_decide (name = s_ "TBranchObject") then Some (b ← read_branch_object show inner; mret (PBranch b))
  else if bool_decide (name ∈ [s_ "TBranchClones"; s_ "TBranchSTL"]) then Some (b ← read_derived_branch show inner; mret (PBranch b))
  else None.

Fixpoint repeat {S} (n : nat) (c : st exn S Z) : st exn S unit := match n with O => mret tt | S n => c ≫= fun _ => repeat n c end.

(** A tree record: its title, its entries, its branches. *)
Definition read_tree (show : part -> str) (depth : nat) (classname : str) : st exn (R.Buffer part) (str * Z * list BranchRecord) :=
  (if bool_decide (classname = s_ "TTree") then mret tt else R.header ≫= fun _ => mret tt) ≫= fun _ =>
  '(version, e) ← R.header;
  if version <? 5 then raise UnsupportedFeatureError else
  let modern := 5 <? version in
  '(_, title) ← R.named;
  repeat 3 R.skip_record ≫= fun _ =>
  entries ← (if modern then R.i64 else d ← R.f64; lift (RootPack.float_trunc d));
  repeat 3 (if modern then R.i64 else R.f64) ≫= fun _ =>
  (if 18 <=? version then R.i64 else mret 0) ≫= fun _ =>
  (if 16 <=? version then R.f64 else mret 0) ≫= fun _ =>
  repeat 3 R.i32 ≫= fun _ =>
  (if 17 <=? version then R.i32 else mret 0) ≫= fun _ =>
  clusters ← (if 19 <=? version then R.i32 else mret 0);
  (if modern then R.i64 else mret 0) ≫= fun _ =>
  repeat 3 (if modern then R.i64 else R.i32) ≫= fun _ =>
  (if 18 <=? version then R.i64 else mret 0) ≫= fun _ =>
  (if modern then R.i64 else R.i32) ≫= fun _ =>
  (if 19 <=? version then R.u8 ≫= fun _ => R.i64s clusters ≫= fun _ => R.u8 ≫= fun _ => R.i64s clusters else mret []) ≫= fun _ =>
  (if 20 <=? version then R.skip_record else mret 0) ≫= fun _ =>
  branches ← R.objarray show (CLASSES show depth);
  R.resume e ≫= fun _ =>
  mret (title, entries, branch_parts branches).

(** ** What a column is *)

(** The streamer types not decoded as members, by number. *)
Definition KINDS : list Z := [0; 7; 10; 61; 62; 63; 64; 66; 67; 365; 500; 501].

Section Build.
Variable described : option (res (dict str (dict str Member))).
Variable lower : str -> str.
Variable show : obj -> str.
Variable depth : nat.

Definition _plain (l : LeafRecord) : res Column :=
  if bool_decide (lf_classname l = s_ "TLeafC") then Ok (Values (s_ "str") _string) else
  code ← typecode l;
  size ← itemsize l;
  let name := default [] (typename l) in
  Ok (match lf_count l with Some _ => Rows name code size None 0 false | None => Flat name code size None (lf_length l) end).

(** A packed number: its width and how it comes back, or a refusal. *)
Definition packed_column (l : LeafRecord) (title : str) (double32 : bool) (counted : option Z) : res Column :=
  found ← _packing lower title double32;
  Ok (match found with
      | None => Refused
      | Some (size, u) =>
          match counted with
          | Some header => Rows (s_ "float64") (s_ "d") size (Some u) header false
          | None => Flat (s_ "float64") (s_ "d") size (Some u) (lf_length l)
          end
      end).
Definition _packed (l : LeafRecord) : res Column :=
  packed_column l (lf_title l) (bool_decide (lf_classname l = s_ "TLeafD32")) (match lf_count l with Some _ => Some 0 | None => None end).

(** The member of a class that a leaf stands for. *)
Definition member_of (b : BranchRecord) (l : LeafRecord) : res (option Member) :=
  d ← ask described; Ok (dict_get (lf_name l) (default [] (dict_get (br_classname b) d))).
Definition _packed_member (b : BranchRecord) (l : LeafRecord) (double32 counted : bool) : res Column :=
  m ← member_of b l;
  match m with
  | None => Ok Refused
  | Some m => packed_column l (mb_title m) double32 (if counted then Some 1 else None)
  end.

(** A column whose type is a class name the file has to spell out. *)
Definition _declared (b : BranchRecord) (l : LeafRecord) : res Column :=
  named ← (if (lf_ltype l <? 0) || br_whole b then Ok (Some (br_classname b, false))
           else m ← member_of b l; Ok (option_map (fun m => (mb_typename m, true)) m));
  match named with
  | None => Ok Refused
  | Some (name, header) =>
      match parse name with
      | None => if header then Ok Refused else _whole described lower show depth name (br_streamed b) false
      | Some (Str record) => Ok (Values (s_ "str") (if header && record then _member_string else _string))
      | Some (Seq (Prim t code size)) => Ok (Rows t code size None (RECORD + 4) true)
      | Some n =>
          if _unusable n then Ok Refused else
          match n with
          | Mapping k v => Ok (Values (py_name n) (_mapping k v))
          | Seq item => Ok (Values (py_name n) (_sequence item))
          | _ => Err AssertionError
          end
      end
  end.

(** A number in a member, by its streamer type less [base]. *)
Definition basic_column (b : BranchRecord) (l : LeafRecord) (base : Z) : option (res Column) :=
  let kind := lf_ltype l - base in
  match dict_get kind BASIC, dict_get kind PACKED with
  | Some (t, code, size), _ =>
      Some (Ok (if base =? RootPack.OFFSET_P then Rows t code size None 1 false else Flat t code size None (lf_length l)))
  | None, Some double32 => Some (_packed_member b l double32 (base =? RootPack.OFFSET_P))
  | None, None => None
  end.

Definition build (b : BranchRecord) (l : LeafRecord) : res Column :=
  let cls := lf_classname l in
  if dict_mem cls LEAF_TYPES then _plain l
  else if bool_decide (cls ∈ PACKED_LEAVES) then _packed l
  else if bool_decide (cls = s_ "TLeafObject") && negb (bool_decide (br_classname b = [])) then
    _whole described lower show depth (br_classname b) true true
  else if negb (bool_decide (cls = s_ "TLeafElement")) then Ok Refused
  else if lf_ltype l =? 65 then Ok (Values (s_ "str") _string)
  else match basic_column b l 0, basic_column b l RootPack.OFFSET_L, basic_column b l RootPack.OFFSET_P with
       | Some c, _, _ | None, Some c, _ | None, None, Some c => c
       | None, None, None =>
           if bool_decide (lf_ltype l ∈ KINDS) && negb (br_whole b) then Ok Refused else _declared b l
       end.
End Build.

(** ** Rows of different lengths *)

Record Jagged := mkJagged { jg_typecode : str; jg_content : list Z; jg_offsets : list Z }.
Definition Jagged_len (j : Jagged) : Z := zlen (jg_offsets j) - 1.
Definition Jagged_row (j : Jagged) (index : Z) : res (list Z) :=
  a ← at_index (jg_offsets j) index; b ← at_index (jg_offsets j) (index + 1); Ok (R.py_slice (jg_content j) a b).
Definition Jagged_getitem (j : Jagged) (index : Z) : res (list Z) :=
  let index := if index <? 0 then index + Jagged_len j else index in
  if (0 <=? index) && (index <? Jagged_len j) then Jagged_row j index else Err IndexError.
Definition lengths (j : Jagged) : list Z := zip_with (fun a b => b - a) (jg_offsets j) (drop 1 (jg_offsets j)).
Definition tolist (j : Jagged) : list (list Z) := zip_with (R.py_slice (jg_content j)) (jg_offsets j) (drop 1 (jg_offsets j)).

(** [l[a:b] = new]. *)
Definition set_slice {A} (l : list A) (a b : Z) (new : list A) : list A :=
  let at_ x := Z.to_nat (if x <? 0 then Z.max 0 (x + zlen l) else x) in
  take (at_ a) l ++ new ++ drop (Nat.max (at_ a) (at_ b)) l.
(** Every row cut or filled to the same width; [fill] as the array keeps it. *)
Definition padded (j : Jagged) (width : option Z) (fill : Z) : list Z * Z :=
  let width := match width with Some w => w | None => foldr Z.max (match lengths j with [] => 0 | n :: _ => n end) (lengths j) end in
  let out := replicate (Z.to_nat (Jagged_len j * width)) fill in
  let filled := foldl (fun '(out, row) '(start, stop) =>
                         let stop := Z.min stop (start + width) in
                         (set_slice out (row * width) (row * width + (stop - start)) (R.py_slice (jg_content j) start stop), row + 1))
                      (out, 0) (zip (jg_offsets j) (drop 1 (jg_offsets j))) in
  (filled.1, width).

(** ** Baskets *)

(** Where an entry of a leaf begins, and where the one after it does. *)
Definition start_of (b : Basket) (entry offset : Z) : res Z :=
  match bk_offsets b with
  | [] => Ok (entry * bk_nevsize b + offset)
  | _ => o ← at_index (bk_offsets b) entry; Ok (o - bk_keylen b + offset)
  end.
Definition end_of (b : Basket) (entry : Z) : res Z :=
  boundary ← (if entry + 1 <? bk_nevbuf b then at_index (bk_offsets b) (entry + 1) else Ok (bk_last b));
  Ok (boundary - bk_keylen b).
(** [Rows.span]. *)
Definition span (itemsize header : Z) (counted : bool) (b : Basket) (entry offset : Z) : res (Z * Z) :=
  start ← start_of b entry offset;
  let start := start + header in
  stop ← end_of b entry;
  if negb counted then Ok (start, stop) else
  c ← R.unpack_from (bk_data b) (start - 4) 4;
  let last := start + unpack_u c * itemsize in
  if stop <? last then Err FormatError else Ok (start, last).

(** The head of a basket's own record: its key, and how it is cut. *)
Definition basket_head {V} : st exn (R.Buffer V) (Key * Z * Z * Z) :=
  key ← Key_init;
  R.i16 ≫= fun _ =>
  R.i32 ≫= fun _ =>
  nevsize ← R.i32;
  (if nevsize <? 0 then R.skip_record ≫= fun _ => mret tt else mret tt) ≫= fun _ =>
  nevbuf ← R.i32;
  last ← R.i32;
  mret (key, Z.abs nevsize, nevbuf, last).

(** ** Branches and trees *)

(** A column of a tree; a group says where its members are kept. *)
Record Branch := mkBranch {
  bn_name : str; bn_record : BranchRecord; bn_leaf : LeafRecord; bn_column : Column; bn_cached : option (Z * Basket); bn_group : option nat
}.
(** The branches by name, the ones that cannot be read, and the members of
    each group: the name of a member against the name of its branch. *)
Record TTree := mkTTree {
  tt_name : str; tt_title : str; tt_num_entries : Z; tt_branches : dict str Branch; tt_unreadable : dict str unit;
  tt_groups : list (dict str str)
}.

Definition num_entries (b : Branch) : Z := br_entries (bn_record b).
Definition branch_typename (b : Branch) : option str :=
  match bn_column b with
  | Flat t _ _ _ _ | Rows t _ _ _ _ _ | Values t _ => Some t
  | Members => Some (s_ "dict")
  | Refused => None
  end.
Definition branch_length (b : Branch) : Z := match bn_column b with Flat _ _ _ _ n => n | _ => 1 end.
Definition is_jagged (b : Branch) : bool := match bn_column b with Rows _ _ _ _ _ _ => true | _ => false end.
Definition num_baskets (b : Branch) : Z := Z.max (zlen (br_basket_seek (bn_record b))) (zlen (br_baskets (bn_record b))).
Definition is_refused (c : Column) : bool := match c with Refused => true | _ => false end.
Definition _refuse_if_unreadable (b : Branch) : res unit :=
  if is_refused (bn_column b) || (is_jagged b && (1 <? zlen (br_leaves (bn_record b)))) then Err UnsupportedFeatureError else Ok tt.
Definition _bounds (b : Branch) (start : Z) (stop : option Z) : Z * Z :=
  let total := num_entries b in
  let start := if start <? 0 then total + start else start in
  let stop := default total stop in
  let stop := if stop <? 0 then stop + total else stop in
  (Z.max start 0, Z.min stop total).

(** What asking for a column gives. *)
Inductive values := AFlat (typecode : str) (l : list Z) | AJagged (j : Jagged) | AObjects (l : list obj).

Section Reading.
Context {H X W : Type} `{RootEnv H X W}.
Variable codecs : Compression.Codecs.
(** [str] of what the buffers hold, [str.lower], and how deep things nest. *)
Variable show_info : sval -> str.
Variable show_part : part -> str.
Variable show : obj -> str.
Variable lower : str -> str.
Variable depth : nat.

Notation M := (st exn (Source H * W)).

(** Something worked out from bytes at hand, reading the streamer information
    first if it turns out to need it. *)
Definition asking {A} (c : option (res (dict str (dict str Member))) -> res A) : M A := fun s =>
  match so_streamers s.1 with
  | Some d => (s, c (Some (Ok d)))
  | None =>
      match c None with
      | Err Unasked => let '(s, r) := streamers codecs show_info depth s in (s, c (Some r))
      | r => (s, r)
      end
  end.

Definition Basket_keyed (seek nbytes : Z) (has_offsets : bool) : M Basket :=
  raw ← read seek nbytes;
  '(key, nevsize, nevbuf, last) ← lift (over (V := unit) basket_head raw 0);
  let payload := R.py_slice raw (k_keylen key) (zlen raw) in
  data ← lift (if compressed key then Compression.decompress codecs payload (k_objlen key) else Ok payload);
  offsets ← lift (if has_offsets : bool then over (V := unit) (R.seek_to last ≫= fun _ => n ← R.i32; R.i32s n) data (k_keylen key) else Ok []);
  mret (mkBasket (k_keylen key) nevsize nevbuf last data offsets).

Section OneBranch.
(** The branch, and the basket it remembers. *)
Variable b : Branch.
Notation B := (st exn (option (Z * Basket) * (Source H * W))).

Definition on_source {A} (c : M A) : B A := fun s => let '(x, r) := c s.2 in ((s.1, x), r).

(** One basket, remembering the last. *)
Definition basket (index : Z) : B Basket := fun s =>
  let rec := bn_record b in
  if index <? zlen (br_baskets rec) then (s, at_index (br_baskets rec) index) else
  match '(i, bk) ← s.1; if i =? index then Some bk else None with
  | Some bk => (s, Ok bk)
  | None =>
      (seek ← lift (at_index (br_basket_seek rec) index);
       nbytes ← lift (at_index (br_basket_bytes rec) index);
       bk ← on_source (Basket_keyed seek nbytes (0 <? br_entry_offset_len rec));
       modify (fun s => (Some (index, bk), s.2)) ≫= fun _ => mret bk) s
  end.

(** The baskets that hold entries from [start] to [stop], with the part of each
    to take, and what [body] makes of them. *)
Fixpoint _spans {A} (body : Z -> Z -> Z -> B (list A)) (start stop : Z) (n : nat) (index : Z) : B (list A) :=
  match n with
  | O => mret []
  | S n =>
      low ← lift (at_index (br_basket_entry (bn_record b)) index);
      high ← lift (at_index (br_basket_entry (bn_record b)) (index + 1));
      piece ← (if (high <=? start) || (stop <=? low) then mret [] else body index (Z.max start low - low) (Z.min stop high - low));
      rest ← _spans body start stop n (index + 1);
      mret (piece ++ rest)
  end.

(** [range(low, high)]. *)
Definition entries_in (low high : Z) : list Z := map (fun i => low + Z.of_nat i) (seq 0 (Z.to_nat (high - low))).

Definition flat_piece (size : Z) (bk : Basket) (low high : Z) : res bytes :=
  let offset := lf_offset (bn_leaf b) in
  if (zlen (bk_offsets bk) =? 0) && (offset =? 0) && (bk_nevsize bk =? size) then Ok (R.py_slice (bk_data bk) (low * size) (high * size)) else
  l ← mapM_res (fun entry => at_ ← start_of bk entry offset; Ok (R.py_slice (bk_data bk) at_ (at_ + size))) (entries_in low high);
  Ok (concat l).
Definition _flat (code : str) (isize : Z) (unpack : option Unpack) (length start stop : Z) : B (list Z) :=
  content ← _spans (fun index low high => bk ← basket index; lift (flat_piece (length * isize) bk low high)) start stop
              (Z.to_nat (num_baskets b)) 0;
  lift (decode code unpack content).

Definition _rows (code : str) (isize : Z) (unpack : option Unpack) (header : Z) (counted : bool) (start stop : Z) : B Jagged :=
  pieces ← _spans (fun index low high =>
             bk ← basket index;
             lift (mapM_res (fun entry => '(at_, stop) ← span isize header counted bk entry (lf_offset (bn_leaf b));
                                          Ok ((stop - at_) / isize, R.py_slice (bk_data bk) at_ stop)) (entries_in low high)))
             start stop (Z.to_nat (num_baskets b)) 0;
  values ← lift (decode code unpack (concat pieces.*2));
  mret (mkJagged code values (foldl (fun l n => l ++ [List.last l 0 + n]) [0] pieces.*1)).

(** The entries of one basket, by one cursor. *)
Fixpoint objects_in (one : rd obj) (bk : Basket) (es : list Z) : rd (list obj) :=
  match es with
  | [] => mret []
  | entry :: es =>
      at_ ← lift (start_of bk entry (lf_offset (bn_leaf b)));
      R.seek_to (at_ + bk_keylen bk) ≫= fun _ =>
      o ← one; l ← objects_in one bk es; mret (o :: l)
  end.
Definition _objects (start stop : Z) : B (list obj) :=
  _spans (fun index low high =>
    bk ← basket index;
    on_source (asking (fun d =>
      c ← build d lower show depth (bn_record b) (bn_leaf b);
      match c with
      | Values _ one => over (objects_in one bk (entries_in low high)) (bk_data bk) (bk_keylen bk)
      | _ => Err AssertionError
      end))) start stop (Z.to_nat (num_baskets b)) 0.

(** [Branch.array]. *)
Definition branch_array (start : Z) (stop : option Z) : B values :=
  lift (_refuse_if_unreadable b) ≫= fun _ =>
  let '(start, stop) := _bounds b start stop in
  match bn_column b with
  | Values _ _ => l ← _objects start stop; mret (AObjects l)
  | Rows _ code isize u header counted => j ← _rows code isize u header counted start stop; mret (AJagged j)
  | Flat _ code isize u length => l ← _flat code isize u length start stop; mret (AFlat code l)
  | _ => raise AssertionError
  end.
End OneBranch.

(** *** Trees *)

Notation T := (st exn (TTree * (Source H * W))).

Definition with_branches (bs : dict str Branch) (un : dict str unit) (gs : list (dict str str)) (t : TTree) : TTree :=
  mkTTree (tt_name t) (tt_title t) (tt_num_entries t) bs un gs.
Definition set_branch (label : str) (b : Branch) (t : TTree) : TTree :=
  with_branches (dict_set label b (tt_branches t)) (tt_unreadable t) (tt_groups t) t.
Definition refuse (label : str) (t : TTree) : TTree :=
  with_branches (tt_branches t) (dict_set label tt (tt_unreadable t)) (tt_groups t) t.
Definition on_tree (f : TTree -> TTree) : T unit := modify (fun s => (f s.1, s.2)).

(** The leaves of a branch, as columns; their names. *)
Fixpoint add_leaves (rec : BranchRecord) (many : bool) (leaves : list LeafRecord) : T (list str) :=
  match leaves with
  | [] => mret []
  | leaf :: leaves =>
      let label := if many then br_name rec ++ 0x2E :: lf_name leaf else br_name rec in
      column ← (fun s => let '(x, r) := asking (fun d => build d lower show depth rec leaf) s.2 in ((s.1, x), r));
      on_tree (set_branch label (mkBranch label rec leaf column None None)) ≫= fun _ =>
      (if is_refused column then on_tree (refuse label) else mret tt) ≫= fun _ =>
      rest ← add_leaves rec many leaves; mret (label :: rest)
  end.
(** [text.removeprefix(prefix)]. *)
Definition removeprefix (prefix text : str) : str := if startswith prefix text then drop (length prefix) text else text.
Definition set_member (g : nat) (name label : str) (t : TTree) : TTree :=
  with_branches (tt_branches t) (tt_unreadable t) (alter (dict_set name label) g (tt_groups t)) t.

(** One branch and everything below it; a branch without baskets over others
    is a split object, a group of them. *)
Fixpoint _add (rec : BranchRecord) : T (list str) :=
  let many := 1 <? zlen (br_leaves rec) in
  labels ← add_leaves rec many (br_leaves rec);
  if (zlen (br_branches rec) =? 0) || negb (zlen (br_basket_seek rec) =? 0) || many then
    (fix go (l : list BranchRecord) : T (list str) :=
       match l with [] => mret labels | child :: l => _add child ≫= fun _ => go l end) (br_branches rec)
  else
    let leaf := default (LeafRecord_init (s_ "TLeafElement")) (head (br_leaves rec)) in
    g ← ((fun s => (s, Ok (length (tt_groups s.1)))) : T nat);
    on_tree (fun t => with_branches (dict_set (br_name rec) (mkBranch (br_name rec) rec leaf Members None (Some g)) (tt_branches t))
                        (dict_pop (br_name rec) (tt_unreadable t)) (tt_groups t ++ [[]]) t) ≫= fun _ =>
    (fix go (l : list BranchRecord) : T (list str) :=
       match l with
       | [] => mret [br_name rec]
       | child :: l =>
           ls ← _add child;
           on_tree (fun t => foldl (fun t label => set_member g (removeprefix (br_name rec ++ [0x2E]) label) label t) t ls) ≫= fun _ => go l
       end) (br_branches rec).

Fixpoint add_all (recs : list BranchRecord) : T unit :=
  match recs with [] => mret tt | r :: recs => _add r ≫= fun _ => add_all recs end.
Definition TTree_init (name title : str) (entries : Z) (records : list BranchRecord) : M TTree := fun s =>
  match add_all records (mkTTree name title entries [] [] [], s) with
  | ((t, s), Ok _) => (s, Ok t)
  | ((_, s), Err e) => (s, Err e)
  end.

Definition getitem_ (t : TTree) (name : str) : res Branch :=
  match dict_get name (tt_branches t) with Some b => Ok b | None => Err KeyError end.
Definition is_group (b : Branch) : bool := match bn_group b with Some _ => true | None => false end.
Definition readable (t : TTree) : list str :=
  dict_keys (filter (fun nb => negb (dict_mem nb.1 (tt_unreadable t)) && negb (is_group nb.2) = true) (tt_branches t)).
Definition groups (t : TTree) : list str := dict_keys (filter (fun nb => is_group nb.2 = true) (tt_branches t)).
Definition typenames (t : TTree) : dict str str :=
  (fun nb => (nb.1, default (s_ "? (" ++ lf_classname (bn_leaf nb.2) ++ s_ ")") (branch_typename nb.2))) <$> tt_branches t.

(** The value of one entry of a member. *)
Definition entry_value (vs : values) (width index : Z) : res obj :=
  match vs with
  | AFlat code l =>
      if 1 <? width then Ok (OArray code (R.py_slice l (index * width) ((index + 1) * width)))
      else v ← at_index l index; Ok (element code v)
  | AJagged j => r ← Jagged_getitem j index; Ok (OArray (jg_typecode j) r)
  | AObjects l => at_index l index
  end.
Fixpoint fill_member (vs : values) (width : Z) (member : str) (index : Z) (rows : list (dict str obj)) : res (list (dict str obj)) :=
  match rows with
  | [] => Ok []
  | r :: rows => v ← entry_value vs width index; l ← fill_member vs width member (index + 1) rows; Ok (dict_set member v r :: l)
  end.

(** A column of the tree, by its name: of a group one dictionary per entry. *)
Fixpoint array_ (fuel : nat) (label : str) (start : Z) (stop : option Z) : T values :=
  match fuel with
  | O => raise RecursionError
  | S fuel => fun s =>
      match getitem_ s.1 label with
      | Err e => (s, Err e)
      | Ok b =>
          match bn_group b with
          | None =>
              let '((cached, x), r) := branch_array b start stop (bn_cached b, s.2) in
              ((set_branch label (mkBranch (bn_name b) (bn_record b) (bn_leaf b) (bn_column b) cached None) s.1, x), r)
          | Some g =>
              let '(start, stop) := _bounds b start stop in
              ((fix go (ms : list (str * str)) (rows : list (dict str obj)) : T values :=
                  match ms with
                  | [] => mret (AObjects (map ODict rows))
                  | (member, l) :: ms => fun s =>
                      match getitem_ s.1 l with
                      | Err e => (s, Err e)
                      | Ok br =>
                          if is_refused (bn_column br) then go ms rows s else
                          (vs ← array_ fuel l start (Some stop);
                           rows ← lift (fill_member vs (branch_length br) member 0 rows);
                           go ms rows) s
                      end
                  end) (default [] (tt_groups s.1 !! g)) (replicate (Z.to_nat (Z.max (stop - start) 0)) [])) s
          end
      end
  end.
Fixpoint arrays_of (fuel : nat) (names : list str) (start : Z) (stop : option Z) (acc : dict str values) : T (dict str values) :=
  match names with
  | [] => mret acc
  | n :: names => v ← array_ fuel n start stop; arrays_of fuel names start stop (dict_set n v acc)
  end.
Definition arrays (fuel : nat) (names : option (list str)) (start : Z) (stop : option Z) : T (dict str values) := fun s =>
  arrays_of fuel (default (readable s.1) names) start stop [] s.

(** The batches of [iterate], each asked for in turn. *)
Fixpoint iterate_loop (turns fuel : nat) (names : option (list str)) (step at_ stop : Z) : T (list (dict str values)) :=
  match turns with
  | O => mret []
  | S turns =>
      if stop <=? at_ then mret [] else
      batch ← arrays fuel names at_ (Some (Z.min (at_ + step) stop));
      rest ← iterate_loop turns fuel names step (at_ + step) stop;
      mret (batch :: rest)
  end.
(** A step is at least one entry, so there are no more turns than entries. *)
Definition iterate (fuel : nat) (names : option (list str)) (step start : Z) (stop : option Z) : T (list (dict str values)) := fun s =>
  if step <=? 0 then (s, Err ValueError) else
  let stop := match stop with Some n => Z.min n (tt_num_entries s.1) | None => tt_num_entries s.1 end in
  iterate_loop (Z.to_nat (stop - start)) fuel names step start stop s.

(** ** What a key holds *)

Inductive content := IsTree (t : TTree) | IsValue (o : obj).

Definition tree_of (k : Key) : M TTree :=
  data ← payload codecs k;
  '(title, entries, branches) ← lift (over (read_tree show_part depth (k_classname k)) data (k_keylen k));
  TTree_init (k_name k) title entries branches.
(** An object, which has to be all of its record. *)
Definition object_of (k : Key) : M obj :=
  column ← asking (fun d => whole_object d lower show depth (k_classname k));
  if is_refused column then raise UnsupportedFeatureError else
  data ← payload codecs k;
  '(value, rest) ← asking (fun d =>
    c ← whole_object d lower show depth (k_classname k);
    match c with
    | Values _ one =>
        match one (R.Buffer_init data (k_keylen k)) with
        | (b, Ok v) => Ok (v, R.remaining b)
        | (_, Err FormatError) => Err UnsupportedFeatureError
        | (_, Err e) => Err e
        end
    | _ => Err AssertionError
    end);
  if negb (rest =? 0) then raise UnsupportedFeatureError else
  lift (match value with
        | ODict d =>
            if bool_decide (k_classname k ∈ HISTOGRAMS) then Histogram_init (k_classname k) d
            else if bool_decide (k_classname k ∈ GRAPHS) then Graph_init (k_classname k) d
            else Ok value
        | v => Ok v
        end).
(** The rest of [Directory._read]. *)
Definition read_other (k : Key) : M content :=
  if bool_decide (k_classname k ∈ TREE_CLASSES) then t ← tree_of k; mret (IsTree t) else o ← object_of k; mret (IsValue o).
End Reading.
End RootTree.
