(* ===== verification/RootEncoding.v ===== *)
(** * What is written is what is read

    The writer's buffer (RootPack) against the reader's cursor (RootBuffer),
    field by field: [emits c out], a writer that only appends [out], and
    [reads p c enc a], a reader that finds [enc] at position [p], gives [a] and
    stops behind it. Records and tagged objects compose both. *)

From S2P Require Import Prelude PyStr Errors Buffer UrlText RootBuffer RootFile Winfo RootPack.
Open Scope Z_scope.

Module RootEncoding.
Module R := RootBuffer.
Import RootPack.

(** ** Writing *)

Definition emits (c : wb unit) (out : bytes) : Prop := forall d, c d = (d ++ out, Ok tt).

Lemma emits_ret : emits (mret tt) [].
Proof. intros d. by rewrite app_nil_r. Qed.
Lemma emits_bind c k o1 o2 : emits c o1 -> emits k o2 -> emits (c ≫= fun _ => k) (o1 ++ o2).
Proof. intros Hc Hk d. unfold mbind, st_bind. by rewrite Hc, Hk, <- app_assoc. Qed.
Lemma emits_lift {A} (r : res A) a k o : r = Ok a -> emits (k a) o -> emits (lift r ≫= k) o.
Proof. intros -> Hk d. apply Hk. Qed.
Lemma emits_raw b : emits (raw b) b.
Proof. done. Qed.
Lemma emits_packs r b : r = Ok b -> emits (packs r) b.
Proof. intros ->. apply (emits_lift _ b); [done|]. apply emits_raw. Qed.

Lemma pack_i_small n v : - 2 ^ (8 * Z.of_nat n - 1) <= v < 2 ^ (8 * Z.of_nat n - 1) -> pack_i n v = Ok (be_enc n v).
Proof. intros Hv. unfold pack_i. rewrite (proj2 (andb_true_iff _ _)); [done|]. split; [apply Z.leb_le | apply Z.ltb_lt]; lia. Qed.

Lemma emits_u8 v : 0 <= v < 256 -> emits (u8 v) (be_enc 1 v).
Proof. intros. by apply emits_packs, pack_u_small. Qed.
Lemma emits_u16 v : 0 <= v < 65536 -> emits (u16 v) (be_enc 2 v).
Proof. intros. by apply emits_packs, pack_u_small. Qed.
Lemma emits_u32 v : 0 <= v < 4294967296 -> emits (u32 v) (be_enc 4 v).
Proof. intros. by apply emits_packs, pack_u_small. Qed.
Lemma emits_i16 v : - 32768 <= v < 32768 -> emits (i16 v) (be_enc 2 v).
Proof. intros. by apply emits_packs, pack_i_small. Qed.
Definition is_i32 (v : Z) : bool := (-2147483648 <=? v) && (v <? 2147483648).
Lemma emits_i32 v : is_i32 v = true -> emits (i32 v) (be_enc 4 v).
Proof. unfold is_i32. intros. zbool. apply emits_packs, pack_i_small. cbn. lia. Qed.

Lemma emits_each {A} (f : A -> wb unit) (out : A -> bytes) l :
  (forall a, a ∈ l -> emits (f a) (out a)) -> emits (each f l) (concat (out <$> l)).
Proof.
  induction l as [|a l IH]; intros Hf; [apply emits_ret|]. cbn.
  apply emits_bind; [apply Hf; left | apply IH; intros; apply Hf; by right].
Qed.

(** *** Text *)

Definition is_text (s : str) : bool := bool_decide (is_Some (utf8_encode s)).
Definition text_bytes (s : str) : bytes := default [] (utf8_encode s).

Lemma is_text_encode s : is_text s = true -> encode_escape s = Ok (text_bytes s) /\ decode_escape (text_bytes s) = s.
Proof.
  unfold is_text, text_bytes. rewrite bool_decide_eq_true. intros [b Hb]. rewrite Hb. by apply escape_text.
Qed.

Definition size_bytes (n : Z) : bytes := if 255 <=? n then be_enc 1 255 ++ be_enc 4 n else be_enc 1 n.
Definition string_bytes (s : str) : bytes := size_bytes (zlen (text_bytes s)) ++ text_bytes s.
(** Text a string can carry. *)
Definition carried (s : str) : bool := is_text s && (zlen (text_bytes s) <? 2147483648).

Lemma emits_string s : carried s = true -> emits (string s) (string_bytes s).
Proof.
  unfold carried, string, string_bytes, size_bytes. intros [Ht Hl]%andb_true_iff. zbool.
  pose proof (zlen_nonneg (text_bytes s)). destruct (is_text_encode s Ht) as [He _].
  eapply emits_lift; [exact He|]. apply emits_bind; [|apply emits_raw]. case_goal; zbool.
  - apply emits_bind; [by apply emits_u8|]. apply emits_i32. unfold is_i32. zbool. lia.
  - apply emits_u8. lia.
Qed.

(** *** Records *)

Definition counted (b : bytes) : bytes := be_enc 4 (Z.lor (zlen b) R.BYTE_COUNT_MASK) ++ b.
Definition record_bytes (version : Z) (body : bytes) : bytes := counted (be_enc 2 version ++ body).
Definition tag_bytes (classname : str) (body : bytes) : bytes :=
  counted (be_enc 4 R.NEW_CLASS_TAG ++ (text_bytes classname ++ [x00]) ++ body).

(** How long a record may be for its length to be told from the bit that says
    there is one. *)
Definition LIMIT : Z := 1073741824.

Lemma lor_mask n : 0 <= n < LIMIT -> Z.lor n R.BYTE_COUNT_MASK = n + LIMIT.
Proof.
  intros Hn. rewrite <- Z.lxor_lor, <- Z.add_nocarry_lxor; [done| |]; change R.BYTE_COUNT_MASK with (2 ^ 30); apply Z.bits_inj';
    intros i Hi; rewrite Z.land_spec, Z.bits_0, Z.pow2_bits_eqb by lia;
    (destruct (Z.eqb_spec 30 i) as [<-|]; [|apply andb_false_r]); rewrite andb_true_r, Z.testbit_false by lia;
    rewrite Z.div_small; [done | exact Hn | done | exact Hn].
Qed.

Lemma end_fills d body : zlen body < LIMIT -> end_ (length d) (d ++ hole ++ body) = (d ++ counted body, Ok tt).
Proof.
  intros Hb. pose proof (zlen_nonneg body). unfold end_, counted. rewrite !zlen_app.
  replace (zlen d + (zlen hole + zlen body) - Z.of_nat (length d) - 4) with (zlen body) by (unfold zlen; cbn; lia).
  rewrite lor_mask by lia. rewrite pack_u_small by (unfold LIMIT in *; cbn; lia).
  unfold patch. rewrite be_enc_length, take_app_length, drop_app_add. by rewrite (drop_app_length' hole) by done.
Qed.

Lemma emits_record version body out :
  0 <= version < 65536 -> emits body out -> 2 + zlen out < LIMIT -> emits (record version body) (record_bytes version out).
Proof.
  intros Hv Hb Hl d. unfold record, start, here, raw, modify, mbind, st_bind, mret, st_ret.
  rewrite (emits_u16 version Hv), Hb, <- !app_assoc. apply (end_fills d). rewrite zlen_app, be_enc_zlen. lia.
Qed.

Lemma emits_tagged classname body out :
  is_text classname = true -> emits body out -> 5 + zlen (text_bytes classname) + zlen out < LIMIT ->
  emits (tagged classname body) (tag_bytes classname out).
Proof.
  intros Ht Hb Hl d. unfold tagged, tag, cstring, here, raw, modify, lift, mbind, st_bind, mret, st_ret.
  rewrite emits_u32 by done. destruct (is_text_encode _ Ht) as [-> _]. rewrite Hb, <- !app_assoc.
  unfold tag_bytes. rewrite <- !app_assoc. apply (end_fills d). rewrite !zlen_app, be_enc_zlen. change (zlen [x00]) with 1. lia.
Qed.

Lemma emits_built c out : emits c out -> built c = Ok out.
Proof. intros Hc. unfold built. by rewrite Hc. Qed.

(** ** Reading *)

Section Reading.
Context {V : Type}.
Notation M := (st exn (R.Buffer V)).

Definition reads {A} (p : Z) (c : M A) (enc : bytes) (a : A) : Prop :=
  forall pre post off refs, off + zlen pre = p -> exists refs',
    c (R.mkBuffer (pre ++ enc ++ post) p off refs) = (R.mkBuffer (pre ++ enc ++ post) (p + zlen enc) off refs', Ok a).

Lemma reads_ret {A} p (a : A) : reads p (mret a) [] a.
Proof. intros pre post off refs _. exists refs. by rewrite zlen_nil, Z.add_0_r. Qed.

Lemma reads_bind {A B} p (c : M A) (k : A -> M B) e1 e2 a b :
  reads p c e1 a -> reads (p + zlen e1) (k a) e2 b -> reads p (c ≫= k) (e1 ++ e2) b.
Proof.
  intros Hc Hk pre post off refs Hp. rewrite <- app_assoc. destruct (Hc pre (e2 ++ post) off refs Hp) as [refs1 H1].
  destruct (Hk (pre ++ e1) post off refs1) as [refs2 H2]; [rewrite zlen_app; lia|].
  exists refs2. unfold mbind, st_bind. rewrite H1. rewrite <- app_assoc in H2. rewrite H2.
  by rewrite zlen_app, Z.add_assoc.
Qed.

(** Nothing is read by what only looks or moves to where the cursor is. *)
Lemma reads_bind_nil {A B} p (c : M A) (k : A -> M B) e a b :
  reads p c [] a -> reads p (k a) e b -> reads p (c ≫= k) e b.
Proof. intros Hc Hk. apply (reads_bind p c k [] e a b); [done|]. by rewrite zlen_nil, Z.add_0_r. Qed.
Lemma reads_last {A B} p (c : M A) (k : A -> M B) e a b :
  reads p c e a -> reads (p + zlen e) (k a) [] b -> reads p (c ≫= k) e b.
Proof. intros Hc Hk. rewrite <- (app_nil_r e). by eapply reads_bind. Qed.

Lemma reads_pos p : reads p R.pos [] p.
Proof. intros pre post off refs _. exists refs. by rewrite zlen_nil, Z.add_0_r. Qed.
Lemma reads_seek p : reads p (R.seek_to p) [] tt.
Proof. intros pre post off refs _. exists refs. by rewrite zlen_nil, Z.add_0_r. Qed.
(** Moving past what is not looked at. *)
Lemma reads_resume p e b : e = p + zlen b -> reads p (R.resume (Some e)) b tt.
Proof. intros -> pre post off refs _. by exists refs. Qed.
Lemma reads_set_ref p at_ r : reads p (R.set_ref at_ r) [] tt.
Proof. intros pre post off refs _. eexists. by rewrite zlen_nil, Z.add_0_r. Qed.

Lemma reads_take p enc n : n = length enc -> reads p (R._take n) enc enc.
Proof.
  intros -> pre post off refs <-. exists refs. unfold R._take, R.unpack_from. cbn [R.bf_data R.bf_pos R.bf_offset R.bf_refs R.at_pos]. cbv beta zeta.
  replace (off + zlen pre - off) with (zlen pre) by lia. rewrite !zlen_app. unfold zlen. decide_cmp.
  by rewrite Nat2Z.id, drop_app_length, take_app_length.
Qed.

Lemma reads_take_ p enc n : n = zlen enc -> reads p (R.take_ n) enc enc.
Proof.
  intros -> pre post off refs <-. exists refs. unfold R.take_, R.py_slice. cbn [R.bf_data R.bf_pos R.bf_offset R.bf_refs R.at_pos]. cbv beta zeta.
  replace (off + zlen pre - off) with (zlen pre) by lia. pose proof (zlen_nonneg pre). pose proof (zlen_nonneg post). pose proof (zlen_nonneg enc).
  rewrite !zlen_app. decide_cmp. replace (zlen pre + zlen enc - zlen pre) with (zlen enc) by lia. unfold zlen.
  by rewrite !Nat2Z.id, drop_app_length, take_app_length.
Qed.

(** *** Fields *)

Lemma reads_field {A} p n enc (f : bytes -> A) a :
  length enc = n -> f enc = a -> reads p (d ← R._take n; mret (f d)) enc a.
Proof. intros Hn <-. eapply reads_last; [by apply reads_take | apply reads_ret]. Qed.

Lemma reads_u8 p v : 0 <= v < 256 -> reads p R.u8 (be_enc 1 v) v.
Proof. intros. apply (reads_field p 1 _ unpack_u); [apply be_enc_length | by apply be_dec_enc_small]. Qed.
Lemma reads_u16 p v : 0 <= v < 65536 -> reads p R.u16 (be_enc 2 v) v.
Proof. intros. apply (reads_field p 2 _ unpack_u); [apply be_enc_length | by apply be_dec_enc_small]. Qed.
Lemma reads_u32 p v : 0 <= v < 4294967296 -> reads p R.u32 (be_enc 4 v) v.
Proof. intros. apply (reads_field p 4 _ unpack_u); [apply be_enc_length | by apply be_dec_enc_small]. Qed.
Lemma reads_i16 p v : - 32768 <= v < 32768 -> reads p R.i16 (be_enc 2 v) v.
Proof. intros. apply (reads_field p 2 _ unpack_i); [apply be_enc_length | by apply unpack_i_enc; [lia|]]. Qed.
Lemma reads_i32 p v : is_i32 v = true -> reads p R.i32 (be_enc 4 v) v.
Proof. unfold is_i32. intros. zbool. apply (reads_field p 4 _ unpack_i); [apply be_enc_length | apply unpack_i_enc; [lia|]; cbn; lia]. Qed.

Lemma reads_i64 p v : - 2 ^ 63 <= v < 2 ^ 63 -> reads p R.i64 (be_enc 8 v) v.
Proof. intros. apply (reads_field p 8 _ unpack_i); [apply be_enc_length | apply unpack_i_enc; [lia|]; exact H]. Qed.

Lemma reads_string p s : carried s = true -> reads p R.string (string_bytes s) s.
Proof.
  unfold carried. intros [Ht Hl]%andb_true_iff. zbool. destruct (is_text_encode s Ht) as [_ Hd].
  set (b := text_bytes s) in *. pose proof (zlen_nonneg b).
  assert (Hbody : forall q, reads q (d ← R.take_ (zlen b); mret (decode_escape d)) b s).
  { intros q. eapply reads_last; [by apply reads_take_|]. rewrite Hd. apply reads_ret. }
  unfold R.string, string_bytes, size_bytes. fold b. case_goal; zbool.
  - rewrite <- app_assoc. eapply reads_bind; [by apply reads_u8|]. cbn [Z.eqb Pos.eqb].
    eapply reads_bind; [|apply Hbody]. apply reads_i32. unfold is_i32. zbool. lia.
  - eapply reads_bind; [apply reads_u8; lia|]. replace (zlen b =? 255) with false by (symmetry; apply Z.eqb_neq; lia).
    eapply reads_bind_nil; [apply reads_ret | apply Hbody].
Qed.

Lemma reads_cstring p s : is_text s = true -> x00 ∉ text_bytes s -> reads p R.cstring (text_bytes s ++ [x00]) s.
Proof.
  intros Ht Hn pre post off refs <-. exists refs. destruct (is_text_encode s Ht) as [_ Hd]. set (b := text_bytes s) in *.
  unfold R.cstring, R.find_nul, R.py_slice. cbn [R.bf_data R.bf_pos R.bf_offset R.bf_refs R.at_pos]. cbv beta zeta.
  replace (off + zlen pre - off) with (zlen pre) by lia. rewrite <- app_assoc. unfold zlen. decide_cmp.
  rewrite Nat2Z.id, drop_app_length. cbn [app]. rewrite partition_app by done. rewrite !length_app. cbn [length]. decide_cmp.
  replace (Z.of_nat (length pre) + Z.of_nat (length b) - Z.of_nat (length pre)) with (Z.of_nat (length b)) by lia.
  rewrite Nat2Z.id, take_app_length, Hd. unfold R.at_pos. cbn. do 2 f_equal. lia.
Qed.

(** *** Records *)

Lemma reads_eq {A} p (c c' : M A) e a : (forall b, c b = c' b) -> reads p c e a -> reads p c' e a.
Proof. intros Hc Hr pre post off refs Hp. rewrite <- Hc. by apply Hr. Qed.

Lemma land_count_mask n : 0 <= n < LIMIT -> Z.land (n + LIMIT) R.BYTE_COUNT_MASK = LIMIT /\ Z.ldiff (n + LIMIT) R.BYTE_COUNT_MASK = n.
Proof.
  intros Hn. rewrite <- lor_mask by done.
  assert (E : Z.land n R.BYTE_COUNT_MASK = 0).
  { pose proof (lor_mask n Hn) as E. pose proof (Z.add_lor_land n R.BYTE_COUNT_MASK). change R.BYTE_COUNT_MASK with LIMIT in *. lia. }
  split.
  - rewrite Z.land_lor_distr_l, E, Z.lor_0_l. done.
  - apply Z.bits_inj'. intros i Hi. rewrite Z.ldiff_spec, Z.lor_spec.
    apply (f_equal (fun z => Z.testbit z i)) in E. rewrite Z.land_spec, Z.bits_0 in E.
    destruct (Z.testbit n i), (Z.testbit R.BYTE_COUNT_MASK i); done.
Qed.

Lemma reads_header p version (body : bytes) :
  0 <= version < 65536 -> 2 + zlen body < LIMIT ->
  reads p R.header (be_enc 4 (Z.lor (2 + zlen body) R.BYTE_COUNT_MASK) ++ be_enc 2 version) (version, Some (p + 4 + (2 + zlen body))).
Proof.
  intros Hv Hb. pose proof (zlen_nonneg body). rewrite lor_mask by lia. destruct (land_count_mask (2 + zlen body)) as [Hm Hd]; [lia|].
  unfold R.header. eapply reads_bind_nil; [apply reads_pos|]. eapply reads_bind; [apply reads_u32; unfold LIMIT in *; lia|].
  rewrite be_enc_zlen, Hm, Hd. cbn [Z.eqb LIMIT]. eapply reads_bind_nil; [apply reads_pos|].
  eapply reads_bind_nil; [apply reads_ret|]. eapply reads_last; [by apply reads_u16|]. apply reads_ret.
Qed.

(** Reading a record: its header, the body, and on from its end. *)
Lemma reads_record {A} p version body rest (k : Z * option Z -> M A) a :
  0 <= version < 65536 -> 2 + zlen body < LIMIT ->
  reads (p + 6) (k (version, Some (p + 6 + zlen body))) (body ++ rest) a ->
  reads p (R.header ≫= k) (record_bytes version body ++ rest) a.
Proof.
  intros Hv Hb Hk. unfold record_bytes, counted. rewrite zlen_app, be_enc_zlen. rewrite app_assoc, <- app_assoc.
  eapply reads_bind; [by apply reads_header|]. rewrite zlen_app, !be_enc_zlen.
  replace (p + 4 + (2 + zlen body)) with (p + 6 + zlen body) by lia. exact Hk.
Qed.
Lemma reads_whole {A} p version body (k : Z * option Z -> M A) a :
  0 <= version < 65536 -> 2 + zlen body < LIMIT ->
  reads (p + 6) (k (version, Some (p + 6 + zlen body))) body a -> reads p (R.header ≫= k) (record_bytes version body) a.
Proof. intros Hv Hb Hk. rewrite <- (app_nil_r (record_bytes _ _)). apply reads_record; [done..|]. by rewrite app_nil_r. Qed.

(** Reading an object that names its class. *)
Lemma reads_any p (show : V -> str) classes classname reader body v :
  is_text classname = true -> x00 ∉ text_bytes classname -> 5 + zlen (text_bytes classname) + zlen body < LIMIT ->
  classes classname = Some reader -> reads (p + 9 + zlen (text_bytes classname)) reader body v ->
  reads p (R.any show classes) (tag_bytes classname body) (Some (R.Object v)).
Proof.
  intros Ht Hn Hl Hc Hr. unfold R.any, tag_bytes, counted. set (b := text_bytes classname) in *.
  pose proof (zlen_nonneg b). pose proof (zlen_nonneg body). rewrite !zlen_app, be_enc_zlen. change (zlen [x00]) with 1. set (n := Z.of_nat 4 + (zlen b + 1 + zlen body)).
  assert (Hn' : 0 <= n < LIMIT) by (unfold n; lia). rewrite lor_mask by done. destruct (land_count_mask n Hn') as [Hm Hd].
  eapply reads_bind_nil; [apply reads_pos|]. eapply reads_bind; [apply reads_u32; unfold LIMIT in *; lia|].
  eapply reads_bind_nil; [apply reads_pos|]. rewrite Hm, Hd, be_enc_zlen.
  replace (n + LIMIT =? R.NEW_CLASS_TAG) with false by (symmetry; apply Z.eqb_neq; unfold LIMIT, R.NEW_CLASS_TAG in *; lia).
  cbn [Z.eqb LIMIT orb]. eapply reads_bind.
  { eapply reads_last; [by apply reads_u32|]. apply reads_ret. }
  cbn [Z.land R.NEW_CLASS_TAG R.CLASS_MASK Pos.land Z.eqb Pos.eqb]. eapply reads_bind.
  { eapply reads_last; [by apply reads_cstring|]. eapply reads_bind_nil; [apply reads_set_ref | apply reads_ret]. }
  rewrite Hc, be_enc_zlen, zlen_app. change (zlen [x00]) with 1. eapply reads_last.
  { replace (_ + _) with (p + 9 + zlen b); [exact Hr|]. fold b. lia. }
  eapply reads_bind_nil; [apply reads_set_ref | apply reads_ret].
Qed.

(** As many entries as were written. *)
Lemma reads_times {A B} (c : M A) (out : B -> bytes) (val : B -> A) (l : list B) :
  (forall b q, b ∈ l -> reads q c (out b) (val b)) -> forall p, reads p (R.times (length l) c) (concat (out <$> l)) (val <$> l).
Proof.
  induction l as [|b l IH]; intros Hc p; [apply reads_ret|]. cbn. eapply reads_bind; [apply Hc; left|].
  eapply reads_last; [apply IH; intros; apply Hc; by right|]. apply reads_ret.
Qed.

(** A run of numbers of [w] bytes. *)
Definition is_int (w : nat) (v : Z) : bool := (- 2 ^ (8 * Z.of_nat w - 1) <=? v) && (v <? 2 ^ (8 * Z.of_nat w - 1)).
Lemma is_int_spec w v : is_int w v = true <-> - 2 ^ (8 * Z.of_nat w - 1) <= v < 2 ^ (8 * Z.of_nat w - 1).
Proof. unfold is_int. rewrite andb_true_iff, Z.leb_le, Z.ltb_lt. done. Qed.
Lemma cut_numbers w (l : list Z) : (0 < w)%nat -> forallb (is_int w) l = true ->
  unpack_i <$> R.cut_every w (length l) (concat (be_enc w <$> l)) = l.
Proof.
  intros Hw. induction l as [|v l IH]; cbn [forallb]; [done|]. intros [Hv Hl]%andb_true_iff.
  cbn [length R.cut_every fmap list_fmap concat]. rewrite (take_app_length' (be_enc w v)) by (by rewrite be_enc_length).
  rewrite (drop_app_length' (be_enc w v)) by (by rewrite be_enc_length). f_equal; [|by apply IH].
  apply unpack_i_enc; [done | by apply is_int_spec].
Qed.
Lemma numbers_zlen w (l : list Z) : zlen (concat (be_enc w <$> l)) = Z.of_nat w * zlen l.
Proof.
  induction l as [|v l IH]; [unfold zlen; cbn; lia|]. cbn [fmap list_fmap concat]. rewrite zlen_app, zlen_cons. setoid_rewrite IH. rewrite be_enc_zlen. lia.
Qed.
Lemma reads_run w p l : (0 < w)%nat -> forallb (is_int w) l = true -> reads p (R.ints w (zlen l)) (concat (be_enc w <$> l)) l.
Proof.
  intros Hw Hl pre post off refs <-. exists refs. unfold R.ints, R._span, R.unpack_from, mbind, st_bind, raise.
  cbn [R.bf_data R.bf_pos R.bf_offset R.bf_refs]. cbv beta zeta.
  replace (off + zlen pre - off) with (zlen pre) by lia. pose proof (numbers_zlen w l) as En. rewrite !zlen_app.
  set (enc := concat (be_enc w <$> l)) in *. pose proof (zlen_nonneg pre). pose proof (zlen_nonneg post). pose proof (zlen_nonneg l).
  replace (zlen pre + (zlen enc + zlen post) <? zlen pre + zlen l * Z.of_nat w) with false by (symmetry; apply Z.ltb_ge; lia).
  replace (zlen l <? 0) with false by (symmetry; apply Z.ltb_ge; lia).
  unfold R.at_pos. cbn [R.bf_data R.bf_pos R.bf_offset R.bf_refs]. rewrite !zlen_app.
  replace (zlen pre <? 0) with false by (symmetry; apply Z.ltb_ge; lia). cbv beta iota zeta.
  replace ((zlen pre <? 0) || (zlen pre + (zlen enc + zlen post) <? zlen pre + Z.of_nat (Z.to_nat (zlen l) * w))) with false
    by (symmetry; apply orb_false_iff; split; apply Z.ltb_ge; lia).
  replace (Z.to_nat (zlen pre)) with (length pre) by (unfold zlen; lia). rewrite drop_app_length.
  rewrite take_app_length' by (unfold zlen in *; lia). replace (Z.to_nat (zlen l)) with (length l) by (unfold zlen; lia).
  unfold result_bind. pose proof (cut_numbers w l Hw Hl) as E. fold enc in E. rewrite E. do 2 f_equal. lia.
Qed.
Lemma reads_ints p l : forallb is_i32 l = true -> reads p (R.i32s (zlen l)) (concat (be_enc 4 <$> l)) l.
Proof. intros Hl. apply (reads_run 4); [lia | exact Hl]. Qed.

Lemma reads_over {A} (c : M A) enc a offset : reads offset c enc a -> RootFile.over c enc offset = Ok a.
Proof.
  intros Hr. destruct (Hr [] [] offset []) as [refs H]; [rewrite zlen_nil; lia|]. rewrite app_nil_r in H. cbn [app] in H.
  unfold RootFile.over, R.Buffer_init. by rewrite H.
Qed.
End Reading.
End RootEncoding.
