(* ===== verification/RootInfos.v ===== *)
(** * A file that describes its own classes

    What [_closure] reaches, and that the streamer information written by
    [_streamers] (RootPack) is read by [read_streamers] (RootFile) as the
    members of exactly those classes. *)

From stdpp Require Import sets.
From S2P Require Import Prelude PyStr Errors Buffer UrlText RootBuffer RootFile Winfo RootPack RootEncoding.
Open Scope Z_scope.

Module RootInfos.
Import Winfo RootPack RootEncoding.

(** ** The classes reached *)

(** Every class an element of [c] needs, of those with a layout, is in [l]. *)
Definition described (l : list str) (c : str) : Prop :=
  forall info e h, dict_get c INFOS = Some info -> e ∈ info.2 -> held_class e = Some h -> h ∈ dict_keys INFOS -> h ∈ l.

Lemma described_mono l k c : described l c -> (forall x, x ∈ l -> x ∈ k) -> described k c.
Proof. intros Hd Hs info e h H1 H2 H3 H4. eauto. Qed.

Lemma meet_adds s e : exists new,
  dict_keys (meet s e).1 = dict_keys s.1 ++ new /\ (meet s e).2 = s.2 ++ new
  /\ (forall h, h ∈ new -> h ∈ dict_keys INFOS /\ h ∉ dict_keys s.1) /\ NoDup new
  /\ (forall h, held_class e = Some h -> h ∈ dict_keys INFOS -> h ∈ dict_keys s.1 ++ new).
Proof.
  unfold meet. destruct (held_class e) as [h|]; [|exists []; rewrite !app_nil_r; split_and!; [done..| |by constructor|done]; by intros h ?%elem_of_nil].
  destruct (dict_mem h INFOS && negb (dict_mem h s.1)) eqn:E.
  - apply andb_true_iff in E as [Hi Hm]. apply dict_mem_true, dict_get_keys in Hi. apply negb_true_iff in Hm.
    assert (Hn : dict_get h s.1 = None).
    { destruct (dict_get h s.1) eqn:E; [|done]. assert (dict_mem h s.1 = true) by (apply dict_mem_true; eauto). congruence. }
    exists [h]. cbn [fst snd]. rewrite dict_keys_set, Hn. split_and!; [done..| |apply NoDup_singleton|].
    + intros x ->%list_elem_of_singleton. split; [done|]. by apply dict_get_None_keys.
    + intros x [= <-] _. apply elem_of_app. right. by apply list_elem_of_singleton.
  - exists []. rewrite !app_nil_r. split_and!; [done..| |by constructor|]; [by intros x ?%elem_of_nil|].
    intros x [= <-] Hx. apply andb_false_iff in E as [E|E].
    + apply dict_get_keys, dict_mem_true in Hx. congruence.
    + apply negb_false_iff, dict_mem_true, dict_get_keys in E. done.
Qed.

Lemma meets_add es : forall s, exists new,
  dict_keys (foldl meet s es).1 = dict_keys s.1 ++ new /\ (foldl meet s es).2 = s.2 ++ new
  /\ (forall h, h ∈ new -> h ∈ dict_keys INFOS /\ h ∉ dict_keys s.1) /\ NoDup new
  /\ (forall e h, e ∈ es -> held_class e = Some h -> h ∈ dict_keys INFOS -> h ∈ dict_keys s.1 ++ new).
Proof.
  induction es as [|e es IH]; intros s; cbn [foldl].
  - exists []. rewrite !app_nil_r. split_and!; [done..| |by constructor|]; [by intros h ?%elem_of_nil | by intros e h ?%elem_of_nil].
  - destruct (meet_adds s e) as (n1 & K1 & Q1 & I1 & D1 & H1). destruct (IH (meet s e)) as (n2 & K2 & Q2 & I2 & D2 & H2).
    rewrite K1, Q1 in *. exists (n1 ++ n2). rewrite K2, Q2, <- !app_assoc. split_and!; [done..| | |].
    + intros h [Hh|Hh]%elem_of_app; [by apply I1|]. destruct (I2 h Hh) as [? Hn]. rewrite elem_of_app in Hn. tauto.
    + apply NoDup_app. split_and!; [done | | done]. intros h Ha Hb. destruct (I2 h Hb) as [_ Hn]. rewrite elem_of_app in Hn. tauto.
    + intros x h [->|Hx]%elem_of_cons Hh Hi; rewrite app_assoc; [apply elem_of_app; left; by eapply H1 | by eapply H2].
Qed.

Lemma closure_loop_spec fuel : forall ordered queue done new0 seeds,
  dict_keys ordered = done ++ queue -> dict_keys ordered = seeds ++ new0 -> NoDup (dict_keys ordered) ->
  (forall h, h ∈ new0 -> h ∈ dict_keys INFOS) -> (forall c, c ∈ done -> described (dict_keys ordered) c) ->
  (length seeds + length INFOS <= fuel + length done)%nat ->
  exists new, closure_loop fuel ordered queue = seeds ++ new /\ NoDup (seeds ++ new) /\ (forall h, h ∈ new -> h ∈ dict_keys INFOS)
    /\ (forall c, c ∈ seeds ++ new -> described (seeds ++ new) c).
Proof.
  induction fuel as [|fuel IH]; intros ordered queue done new0 seeds Hk Hs Hnd Hi Hd Hf.
  - assert (Hq : queue = []).
    { assert (length new0 <= length INFOS)%nat.
      { replace (length INFOS) with (length (dict_keys INFOS)) by apply length_fmap. apply submseteq_length, NoDup_submseteq; [|done].
        rewrite Hs in Hnd. by apply NoDup_app in Hnd as (_ & _ & ?). }
      rewrite Hk in Hs. apply (f_equal length) in Hs. rewrite !length_app in Hs. destruct queue; [done|]. cbn [length] in *. lia. }
    subst queue. rewrite app_nil_r in Hk. cbn. exists new0. rewrite <- Hs. split_and!; [done..|]. by rewrite Hk in *.
  - destruct queue as [|q queue]; cbn [closure_loop].
    { rewrite app_nil_r in Hk. exists new0. rewrite <- Hs. split_and!; [done..|]. by rewrite Hk in *. }
    destruct (dict_get q INFOS) as [info|] eqn:Eq.
    + destruct (meets_add info.2 (ordered, queue)) as (n & K & Q & I & D & Hh). destruct (foldl meet (ordered, queue) info.2) as [ord' q'].
      cbn [fst snd] in K, Q, I, Hh. subst q'. apply (IH ord' (queue ++ n) (done ++ [q]) (new0 ++ n) seeds).
      * rewrite K, Hk, <- !app_assoc. done.
      * rewrite K, Hs, <- app_assoc. done.
      * rewrite K. apply NoDup_app. split_and!; [done| |done]. intros x Hx Hn. by apply I in Hn as [_ ?].
      * intros h [?|?]%elem_of_app; [by apply Hi | by apply I].
      * intros c [Hc| ->%list_elem_of_singleton]%elem_of_app.
        -- eapply described_mono; [by apply Hd|]. intros x. rewrite K. intros. apply elem_of_app. by left.
        -- intros info' e h Ei He Hc Hin. rewrite K. replace info' with info in * by congruence. by eapply Hh.
      * rewrite length_app. cbn [length]. lia.
    + apply (IH ordered queue (done ++ [q]) new0 seeds); [by rewrite <- app_assoc | done..| |].
      * intros c [Hc| ->%list_elem_of_singleton]%elem_of_app; [by apply Hd|]. intros info e h Ei. congruence.
      * rewrite length_app. cbn [length]. lia.
Qed.

(** The seeds in order, and then only classes with a layout; with a class,
    every class it needs. *)
Lemma closure_spec seeds : exists new,
  let names := _closure seeds in
  names = dict_keys (foldl (fun d s => dict_set s tt d) [] seeds) ++ new /\ NoDup names
  /\ (forall h, h ∈ new -> h ∈ dict_keys INFOS) /\ (forall c, c ∈ names -> described names c).
Proof.
  unfold _closure. set (ord := foldl _ [] seeds).
  assert (Hnd : NoDup (dict_keys ord)).
  { unfold ord. assert (NoDup (dict_keys (@nil (str * unit)))) as H by constructor. revert H. generalize (@nil (str * unit)).
    induction seeds as [|x seeds IH]; intros d Hd; [done|]. cbn. apply IH. by apply dict_set_NoDup. }
  destruct (closure_loop_spec (length ord + length INFOS) ord (dict_keys ord) [] [] (dict_keys ord)) as (new & E & H1 & H2 & H3);
    [done | by rewrite app_nil_r | done | by intros h ?%elem_of_nil | by intros h ?%elem_of_nil | unfold dict_keys; rewrite length_fmap; cbn [length]; lia |].
  exists new. cbv zeta. rewrite E. done.
Qed.

(** What an element of a class needs described with it: the class it derives
    from, the class of the object it holds or points to, or that of strings. *)
Inductive holds (e : Element) : str -> Prop :=
| holds_base : el_kind e = s_ "TStreamerBase" -> holds e (el_name e)
| holds_object : el_kind e <> s_ "TStreamerBase" -> el_stype e = 61 \/ el_stype e = 62 -> holds e (strip_stars (el_typename e))
| holds_pointer : el_kind e <> s_ "TStreamerBase" -> el_stype e ∈ [63; 64; 68; 69] -> holds e (strip_stars (el_typename e))
| holds_string : el_kind e <> s_ "TStreamerBase" -> el_stype e = 65 -> holds e (s_ "TString").

(** The classes reached from those used, of the ones with a layout. *)
Inductive reached (used : list str) : str -> Prop :=
| reached_used n : n ∈ used -> reached used n
| reached_by c info e h :
    reached used c -> dict_get c INFOS = Some info -> e ∈ info.2 -> holds e h -> h ∈ dict_keys INFOS -> reached used h.

Lemma holds_held e h : holds e h <-> held_class e = Some h.
Proof.
  unfold held_class. split.
  - intros [Hk|Hk Hs|Hk Hs|Hk Hs]; rewrite ?(bool_decide_eq_true_2 (el_kind e = _)), ?(bool_decide_eq_false_2 (el_kind e = _)) by done; [done|..].
    + rewrite bool_decide_eq_true_2; [done|]. set_solver.
    + rewrite bool_decide_eq_true_2; [done|]. set_solver.
    + rewrite Hs. done.
  - case_bool_decide as Hk; [intros [= <-]; by constructor|]. case_bool_decide as Hs.
    + intros [= <-]. apply elem_of_cons in Hs as [|Hs]; [apply holds_object; auto|].
      apply elem_of_cons in Hs as [|Hs]; [apply holds_object; auto|]. by apply holds_pointer.
    + destruct (Z.eqb_spec (el_stype e) 65) as [E|]; [|done]. intros [= <-]. by apply holds_string.
Qed.

Lemma meets_sound (P : str -> Prop) es : (forall e h, e ∈ es -> held_class e = Some h -> h ∈ dict_keys INFOS -> P h) ->
  forall s, (forall x, x ∈ dict_keys s.1 \/ x ∈ s.2 -> P x) ->
  forall x, x ∈ dict_keys (foldl meet s es).1 \/ x ∈ (foldl meet s es).2 -> P x.
Proof.
  induction es as [|e es IH]; intros He s Hs; [exact Hs|]. cbn [foldl]. apply IH; [intros; eapply He; [by right|..]; eauto|].
  unfold meet. destruct (held_class e) as [h|] eqn:Eh; [|done]. destruct (dict_mem h INFOS && _) eqn:E; [|done]. cbn [fst snd].
  apply andb_true_iff in E as [Hi _]. apply dict_mem_true, dict_get_keys in Hi. assert (Ph : P h) by (eapply He; [by left|..]; eauto).
  intros x Hx. rewrite dict_keys_set in Hx. destruct (dict_get h s.1); set_solver.
Qed.
Lemma closure_sound used fuel : forall ordered queue, (forall x, x ∈ dict_keys ordered \/ x ∈ queue -> reached used x) ->
  forall x, x ∈ closure_loop fuel ordered queue -> reached used x.
Proof.
  induction fuel as [|fuel IH]; intros ordered queue Hr; [intros x Hx; cbn in Hx; auto|].
  destruct queue as [|q queue]; cbn [closure_loop]; [intros x Hx; auto|]. destruct (dict_get q INFOS) as [info|] eqn:Eq.
  - pose proof (meets_sound (reached used) info.2) as Hm. specialize (fun H => Hm H (ordered, queue)). cbn [fst snd] in Hm.
    destruct (foldl meet (ordered, queue) info.2) as [o' q']. apply IH. apply Hm.
    + intros e h He Hh. eapply reached_by; [apply Hr; right; by left | done | done |]. by apply holds_held.
    + set_solver.
  - apply IH. set_solver.
Qed.

(** ** Elements *)

Definition tobject_bytes : bytes := be_enc 2 1 ++ be_enc 4 0 ++ be_enc 4 BITS.
Definition named_bytes (name title : str) : bytes := record_bytes 1 (tobject_bytes ++ string_bytes name ++ string_bytes title).
Definition numbers (l : list Z) : bytes := concat (be_enc 4 <$> l).

(** How long a name or a title may be here. *)
Definition short (s : str) : bool := is_text s && (zlen (text_bytes s) <? 1000).
Lemma short_carried s : short s = true -> carried s = true /\ zlen (string_bytes s) < 1010 /\ is_text s = true.
Proof.
  unfold short, carried, string_bytes, size_bytes. intros [Ht Hl]%andb_true_iff. rewrite Ht, zlen_app. zbool.
  split_and!; [lia | | done]. case_goal; rewrite ?zlen_app, !be_enc_zlen; lia.
Qed.

Lemma emits_tobject : emits (tobject BITS 0) tobject_bytes.
Proof. repeat apply emits_bind; [by apply emits_u16 | by apply emits_u32 | by apply emits_u32]. Qed.
Lemma emits_named name title : short name = true -> short title = true -> emits (named name title) (named_bytes name title).
Proof.
  intros Hn Ht. apply short_carried in Hn as (Hn & Ln & _), Ht as (Ht & Lt & _). apply emits_record; [done | |].
  - apply emits_bind; [apply emits_tobject|]. apply emits_bind; by apply emits_string.
  - rewrite !zlen_app. change (zlen tobject_bytes) with 10. unfold LIMIT. lia.
Qed.
Lemma emits_numbers l : forallb is_i32 l = true -> emits (each i32 l) (numbers l).
Proof. intros Hl. apply emits_each. intros v Hv. apply emits_i32. rewrite forallb_forall in Hl. by apply Hl, list_elem_of_In. Qed.

Lemma named_short name title : short name = true -> short title = true -> zlen (named_bytes name title) < 2100.
Proof.
  intros (_ & Ln & _)%short_carried (_ & Lt & _)%short_carried. unfold named_bytes, record_bytes, counted.
  rewrite !zlen_app, !be_enc_zlen. change (zlen tobject_bytes) with 10. lia.
Qed.

Section Common.
Context {V : Type}.

Lemma reads_tobject p : reads (V := V) p R.tobject tobject_bytes (0, BITS).
Proof.
  eapply reads_bind; [by apply reads_u16|]. eapply reads_bind; [by apply reads_u32|]. eapply reads_last; [by apply reads_u32|].
  change (Z.land BITS R.IS_REFERENCED =? 0) with true. eapply reads_bind_nil; apply reads_ret.
Qed.

Lemma reads_named p name title : short name = true -> short title = true -> reads (V := V) p R.named (named_bytes name title) (name, title).
Proof.
  intros Hn Ht. apply short_carried in Hn as (Hn & Ln & _), Ht as (Ht & Lt & _).
  apply reads_whole; [done | rewrite !zlen_app; change (zlen tobject_bytes) with 10; unfold LIMIT; lia|].
  eapply reads_bind; [apply reads_tobject|]. eapply reads_bind; [by apply reads_string|].
  eapply reads_last; [by apply reads_string|]. eapply reads_bind_nil; [|apply reads_ret].
  apply reads_resume. rewrite !zlen_app, zlen_nil. lia.
Qed.
End Common.

(** What an element says after its base, and the member it reads as. *)
Definition extras_ok (e : Element) : bool :=
  if bool_decide (el_kind e = s_ "TStreamerBase") then match extra_int (el_extras e !! 0%nat) with Ok n => is_i32 n | _ => false end
  else if bool_decide (el_kind e = s_ "TStreamerBasicPointer") then
    match extra_int (el_extras e !! 0%nat), extra_str (el_extras e !! 1%nat), extra_str (el_extras e !! 2%nat) with
    | Ok n, Ok a, Ok b => is_i32 n && short a && short b
    | _, _, _ => false
    end
  else true.
Definition extras_bytes (e : Element) : bytes :=
  if bool_decide (el_kind e = s_ "TStreamerBase") then match extra_int (el_extras e !! 0%nat) with Ok n => be_enc 4 n | _ => [] end
  else if bool_decide (el_kind e = s_ "TStreamerBasicPointer") then
    match extra_int (el_extras e !! 0%nat), extra_str (el_extras e !! 1%nat), extra_str (el_extras e !! 2%nat) with
    | Ok n, Ok a, Ok b => be_enc 4 n ++ string_bytes a ++ string_bytes b
    | _, _, _ => []
    end
  else [].
Definition member_of (e : Element) : RootFile.Member :=
  RootFile.mkMember (el_name e) (el_title e) (el_stype e) (el_typename e) (el_alen e)
    (if bool_decide (el_kind e = s_ "TStreamerBasicPointer") then match extra_str (el_extras e !! 1%nat) with Ok a => a | Err _ => [] end else []).

Lemma emits_extras e : extras_ok e = true -> emits (info_extras e) (extras_bytes e) /\ zlen (extras_bytes e) < 3000.
Proof.
  unfold extras_ok, info_extras, extras_bytes. repeat case_bool_decide.
  - destruct (extra_int _) as [n|]; [|done]. intros Hn. split; [|by rewrite be_enc_zlen]. by eapply emits_lift, emits_i32.
  - destruct (extra_int _) as [n|]; [|done]. destruct (extra_str (_ !! 1%nat)) as [a|]; [|done]. destruct (extra_str _) as [b|]; [|done].
    intros [[Hn Ha]%andb_true_iff Hb]%andb_true_iff. apply short_carried in Ha as (Ha & La & _), Hb as (Hb & Lb & _).
    split; [|rewrite !zlen_app, be_enc_zlen; lia].
    eapply emits_lift; [done|]. apply emits_bind; [by apply emits_i32|]. eapply emits_lift; [done|].
    apply emits_bind; [by apply emits_string|]. eapply emits_lift; [done|]. by apply emits_string.
  - intros _. split; [apply emits_ret | done].
Qed.

Definition KINDS : list str := dict_keys SUBVERSIONS.
Definition base_bytes (e : Element) : bytes :=
  record_bytes 4 (named_bytes (el_name e) (el_title e) ++ numbers [el_stype e; el_size e; el_alen e; el_adim e]
                  ++ numbers (el_maxidx e) ++ string_bytes (el_typename e)).
Definition version_of (e : Element) : Z := default 0 (dict_get (el_kind e) SUBVERSIONS).
Definition element_bytes (e : Element) : bytes := tag_bytes (el_kind e) (record_bytes (version_of e) (base_bytes e ++ extras_bytes e)).
Definition element_ok (e : Element) : bool :=
  bool_decide (el_kind e ∈ KINDS) && short (el_name e) && short (el_title e) && short (el_typename e)
  && forallb is_i32 [el_stype e; el_size e; el_alen e; el_adim e] && forallb is_i32 (el_maxidx e) && (zlen (el_maxidx e) =? 5)
  && extras_ok e.

Lemma kind_ok k : k ∈ KINDS -> is_text k = true /\ x00 ∉ text_bytes k /\ zlen (text_bytes k) < 100
  /\ exists v, dict_get k SUBVERSIONS = Some v /\ 0 <= v < 65536.
Proof.
  intros Hk. set (ok := fun k => is_text k && bool_decide (x00 ∉ text_bytes k) && (zlen (text_bytes k) <? 100)
    && match dict_get k SUBVERSIONS with Some v => (0 <=? v) && (v <? 65536) | None => false end).
  assert (H : forallb ok KINDS = true) by (vm_compute; reflexivity). rewrite forallb_forall in H.
  specialize (H k (proj1 (list_elem_of_In _ _) Hk)). unfold ok in H. apply andb_true_iff in H as [[[Ht Hx]%andb_true_iff Hl]%andb_true_iff Hv].
  apply bool_decide_eq_true in Hx. zbool. destruct (dict_get k SUBVERSIONS) as [v|]; [|done]. zbool. split_and!; [done..|]. by exists v.
Qed.

Section Element.
Variable e : Element.
Hypothesis He : element_ok e = true.

Let Hparts : el_kind e ∈ KINDS /\ short (el_name e) = true /\ short (el_title e) = true /\ short (el_typename e) = true
  /\ forallb is_i32 [el_stype e; el_size e; el_alen e; el_adim e] = true /\ forallb is_i32 (el_maxidx e) = true /\ zlen (el_maxidx e) = 5
  /\ extras_ok e = true.
Proof. unfold element_ok in He. rewrite !andb_true_iff, bool_decide_eq_true in He. destruct_and!. zbool. split_and!; done. Qed.

Let inner_short : zlen (named_bytes (el_name e) (el_title e) ++ numbers [el_stype e; el_size e; el_alen e; el_adim e]
                  ++ numbers (el_maxidx e) ++ string_bytes (el_typename e)) < 4000.
Proof.
  destruct Hparts as (_ & Hn & Ht & Hy & _ & _ & Hm & _). pose proof (named_short _ _ Hn Ht). apply short_carried in Hy as (_ & ? & _).
  rewrite !zlen_app. unfold numbers. rewrite !numbers_zlen, Hm. change (zlen [el_stype e; el_size e; el_alen e; el_adim e]) with 4. lia.
Qed.

Lemma base_short : zlen (base_bytes e) < 5000.
Proof. unfold base_bytes, record_bytes, counted. rewrite zlen_app, be_enc_zlen, zlen_app, be_enc_zlen. lia. Qed.

Lemma emits_base : emits (record 4 (named (el_name e) (el_title e) ≫= fun _ =>
    each i32 [el_stype e; el_size e; el_alen e; el_adim e] ≫= fun _ => each i32 (el_maxidx e) ≫= fun _ => string (el_typename e))) (base_bytes e).
Proof.
  destruct Hparts as (_ & Hn & Ht & Hy & Hi & Hm & _ & _). apply emits_record; [done| |unfold LIMIT; lia].
  apply emits_bind; [by apply emits_named|]. apply emits_bind; [by apply emits_numbers|].
  apply emits_bind; [by apply emits_numbers|]. by apply emits_string, short_carried.
Qed.

Lemma emits_element : emits (_info_element e) (element_bytes e) /\ zlen (element_bytes e) < 10000.
Proof.
  destruct Hparts as (Hk & _ & _ & _ & _ & _ & _ & Hx). destruct (kind_ok _ Hk) as (Kt & _ & Kl & v & Kv & Hv).
  destruct (emits_extras e Hx) as [Ex Lx]. pose proof base_short. unfold element_bytes, version_of. rewrite Kv. change (default 0 (Some v)) with v.
  assert (L : zlen (record_bytes v (base_bytes e ++ extras_bytes e)) < 9000).
  { unfold record_bytes, counted. rewrite !zlen_app, !be_enc_zlen. lia. }
  split.
  - apply emits_tagged; [done | | unfold LIMIT; lia]. rewrite Kv. change (emits (record v (record 4 (named (el_name e) (el_title e) ≫= fun _ =>
      each i32 [el_stype e; el_size e; el_alen e; el_adim e] ≫= fun _ => each i32 (el_maxidx e) ≫= fun _ => string (el_typename e)) ≫= fun _ =>
      info_extras e)) (record_bytes v (base_bytes e ++ extras_bytes e))).
    apply emits_record; [done | by apply emits_bind; [apply emits_base|] | rewrite zlen_app; unfold LIMIT; lia].
  - unfold tag_bytes, counted. rewrite !zlen_app, !be_enc_zlen. change (zlen [x00]) with 1. lia.
Qed.

Definition counted_kind : bool := bool_decide (el_kind e = s_ "TStreamerBasicPointer").

Lemma reads_extras p stop : stop = p + zlen (extras_bytes e) ->
  reads (V := RootFile.sval) p (count ← (if counted_kind then R.i32 ≫= fun _ => R.string else mret []);
    R.resume (Some stop) ≫= fun _ => mret (RootFile.VMember (RootFile.mkMember (el_name e) (el_title e) (el_stype e) (el_typename e) (el_alen e) count)))
    (extras_bytes e) (RootFile.VMember (member_of e)).
Proof.
  intros ->. destruct Hparts as (_ & _ & _ & _ & _ & _ & _ & Hx). unfold member_of, counted_kind, extras_bytes. unfold extras_ok in Hx.
  repeat case_bool_decide.
  - by rewrite H in H0.
  - eapply reads_bind_nil; [apply reads_ret|]. eapply reads_last; [by apply reads_resume | apply reads_ret].
  - destruct (extra_int _) as [n|]; [|done]. destruct (extra_str (_ !! 1%nat)) as [a|]; [|done]. destruct (extra_str _) as [b|]; [|done].
    apply andb_true_iff in Hx as [[Hn Ha]%andb_true_iff Hb]. apply short_carried in Ha as (Ha & La & _). rewrite app_assoc. eapply reads_bind.
    { eapply reads_bind; [by apply reads_i32 | by apply reads_string]. }
    eapply reads_last; [|apply reads_ret]. apply reads_resume. rewrite !zlen_app. lia.
  - eapply reads_bind_nil; [apply reads_ret|]. eapply reads_last; [by apply reads_resume | apply reads_ret].
Qed.

Lemma reads_element p :
  reads (V := RootFile.sval) p (RootFile.read_element 1 counted_kind) (record_bytes (version_of e) (base_bytes e ++ extras_bytes e))
    (RootFile.VMember (member_of e)).
Proof.
  destruct Hparts as (Hk & Hn & Ht & Hy & Hi & Hm & Hl & Hx). destruct (kind_ok _ Hk) as (_ & _ & _ & v & Kv & Hv).
  pose proof base_short. destruct (emits_extras e Hx) as [_ Lx]. unfold version_of. rewrite Kv. change (default 0 (Some v)) with v.
  assert (N4 : zlen (numbers [el_stype e; el_size e; el_alen e; el_adim e]) = 16) by (unfold numbers; by rewrite numbers_zlen).
  apply reads_whole; [done | rewrite zlen_app; unfold LIMIT; lia|]. cbn [Nat.sub RootFile.headers].
  eapply reads_bind_nil; [apply reads_ret|]. unfold base_bytes at 2. set (inner := _ ++ _ ++ _ ++ string_bytes _).
  apply reads_record; [done | unfold LIMIT; unfold inner; lia|]. unfold inner at 2. rewrite <- !app_assoc.
  cbn [forallb] in Hi. rewrite !andb_true_iff in Hi. destruct Hi as (I1 & I2 & I3 & I4 & _).
  eapply reads_bind; [by apply reads_named|]. unfold numbers at 1. cbn [fmap list_fmap concat]. rewrite <- !app_assoc. cbn [app].
  do 4 (eapply reads_bind; [by apply reads_i32|]). cbn [Z.eqb Pos.eqb]. eapply reads_bind_nil; [apply reads_ret|].
  eapply reads_bind; [rewrite <- Hl; by apply reads_ints|]. eapply reads_bind; [by apply reads_string, short_carried|].
  eapply (reads_bind_nil _ _ _ (extras_bytes e)).
  { apply reads_resume. unfold inner. rewrite !zlen_app, !be_enc_zlen, N4, zlen_nil. lia. }
  apply reads_extras. unfold base_bytes, record_bytes, counted. rewrite !zlen_app, !be_enc_zlen, N4. lia.
Qed.
End Element.

(** ** Classes *)

Definition array_bytes (es : list Element) : bytes :=
  record_bytes 3 (tobject_bytes ++ string_bytes [] ++ numbers [zlen es; 0] ++ concat (element_bytes <$> es)).
Definition body_bytes (name : str) (info : Info) : bytes :=
  record_bytes 9 (named_bytes name [] ++ be_enc 4 info.1.1 ++ be_enc 4 info.1.2 ++ tag_bytes (s_ "TObjArray") (array_bytes info.2)).
Definition info_of (name : str) : Info := default (0, 0, []) (dict_get name INFOS).
Definition info_bytes (name : str) : bytes := tag_bytes (s_ "TStreamerInfo") (body_bytes name (info_of name)) ++ be_enc 1 0.

Definition info_ok (ni : str * Info) : bool :=
  short ni.1 && (0 <=? ni.2.1.1) && (ni.2.1.1 <? 4294967296) && is_i32 ni.2.1.2 && forallb element_ok ni.2.2 && (zlen ni.2.2 <? 100).
Lemma infos_ok : forallb info_ok INFOS = true.
Proof. vm_compute. reflexivity. Qed.
#[local] Opaque INFOS.

Lemma concat_short {A} (f : A -> bytes) l n : (forall a, a ∈ l -> zlen (f a) < n) -> zlen (concat (f <$> l)) <= n * zlen l.
Proof.
  induction l as [|a l IH]; intros Hf; [change (0 <= n * 0); lia|]. rewrite fmap_cons. cbn [concat]. rewrite zlen_app, zlen_cons, Z.mul_add_distr_l, Z.mul_1_r.
  pose proof (Hf a (list_elem_of_here _ _)). specialize (IH (fun x H => Hf x (list_elem_of_further _ _ _ H))). lia.
Qed.

Lemma element_kind e : element_ok e = true -> el_kind e ∈ KINDS.
Proof. unfold element_ok. rewrite !andb_true_iff, bool_decide_eq_true. tauto. Qed.

(** Every kind of element that is written has its reader. *)
Lemma class_of_element show d e : element_ok e = true ->
  RootFile.CLASSES show d (el_kind e) = Some (RootFile.read_element 1 (counted_kind e)).
Proof.
  intros Hk%element_kind. unfold counted_kind, KINDS in *. revert Hk. generalize (el_kind e). intros k Hk.
  change (dict_keys SUBVERSIONS) with [s_ "TStreamerBase"; s_ "TStreamerBasicType"; s_ "TStreamerBasicPointer"; s_ "TStreamerString";
    s_ "TStreamerObject"; s_ "TStreamerObjectAny"; s_ "TStreamerObjectPointer"] in Hk.
  repeat (apply elem_of_cons in Hk as [->|Hk]; [by destruct d|]). by apply elem_of_nil in Hk.
Qed.

Section Info.
Variable name : str.
Hypothesis Hname : name ∈ dict_keys INFOS.
Notation info := (info_of name).

Let Hget : dict_get name INFOS = Some info.
Proof. unfold info_of. apply dict_get_keys in Hname as [i ->]. done. Qed.
Let Hok : short name = true /\ 0 <= info.1.1 < 4294967296 /\ is_i32 info.1.2 = true /\ (forall e, e ∈ info.2 -> element_ok e = true)
  /\ zlen info.2 < 100.
Proof.
  pose proof infos_ok as H. rewrite forallb_forall in H. specialize (H _ (proj1 (list_elem_of_In _ _) (dict_get_Some_in _ _ _ Hget))).
  unfold info_ok in H. rewrite !andb_true_iff in H. destruct_and!. zbool. split_and!; [done..| | done].
  intros e He. match goal with H : forallb _ _ = true |- _ => rewrite forallb_forall in H; by apply H, list_elem_of_In end.
Qed.

Let elements_short : zlen (concat (element_bytes <$> info.2)) <= 1000000.
Proof.
  destruct Hok as (_ & _ & _ & He & Hl). pose proof (concat_short element_bytes info.2 10000) as H. pose proof (zlen_nonneg info.2).
  enough (zlen (concat (element_bytes <$> info.2)) <= 10000 * zlen info.2) by lia. apply H. intros e Hi. by apply emits_element, He.
Qed.
Let array_short : zlen (array_bytes info.2) < 1000100.
Proof.
  unfold array_bytes, record_bytes, counted, numbers. rewrite !zlen_app, !be_enc_zlen, numbers_zlen.
  change (zlen tobject_bytes) with 10. change (zlen (string_bytes [])) with 1. change (zlen [zlen info.2; 0]) with 2. lia.
Qed.
Let body_short : zlen (body_bytes name info) < 1003000.
Proof.
  destruct Hok as (Hn & _). pose proof (named_short name [] Hn eq_refl). unfold body_bytes, record_bytes at 1, tag_bytes, counted.
  rewrite !zlen_app, !be_enc_zlen. change (zlen (text_bytes (s_ "TObjArray"))) with 9. change (zlen [x00]) with 1. lia.
Qed.

Lemma emits_array : emits (record 3 (tobject BITS 0 ≫= fun _ => string [] ≫= fun _ => each i32 [zlen info.2; 0] ≫= fun _ =>
  each _info_element info.2)) (array_bytes info.2).
Proof.
  destruct Hok as (_ & _ & _ & He & Hl). pose proof (zlen_nonneg info.2). apply emits_record; [done | |].
  - apply emits_bind; [apply emits_tobject|]. apply emits_bind; [by apply emits_string|]. apply emits_bind.
    + apply emits_numbers. cbn [forallb]. apply andb_true_iff. split; [unfold is_i32; zbool; lia | done].
    + apply emits_each. intros e Hi. by apply emits_element, He.
  - unfold numbers. rewrite !zlen_app, numbers_zlen. change (zlen tobject_bytes) with 10. change (zlen (string_bytes [])) with 1.
    change (zlen [zlen info.2; 0]) with 2. unfold LIMIT. lia.
Qed.

Let info_eq : _info name = tagged (s_ "TStreamerInfo") (record 9 (
    named name [] ≫= fun _ => u32 info.1.1 ≫= fun _ => i32 info.1.2 ≫= fun _ =>
    tagged (s_ "TObjArray") (record 3 (tobject BITS 0 ≫= fun _ => string [] ≫= fun _ => each i32 [zlen info.2; 0] ≫= fun _ =>
      each _info_element info.2)))) ≫= fun _ => u8 0.
Proof. unfold _info. rewrite Hget. clear. by destruct info as [[c v] es]. Qed.

Lemma emits_info : emits (_info name) (info_bytes name).
Proof.
  destruct Hok as (Hn & Hc & Hv & He & Hl). pose proof (named_short name [] Hn eq_refl). rewrite info_eq. unfold info_bytes.
  apply emits_bind; [|by apply emits_u8]. apply emits_tagged; [done| |change (zlen (text_bytes (s_ "TStreamerInfo"))) with 13; unfold LIMIT; lia].
  apply emits_record; [done| |].
  - apply emits_bind; [by apply emits_named|]. apply emits_bind; [by apply emits_u32|]. apply emits_bind; [by apply emits_i32|].
    apply emits_tagged; [done | apply emits_array |]. change (zlen (text_bytes (s_ "TObjArray"))) with 9. unfold LIMIT. lia.
  - unfold tag_bytes, counted. rewrite !zlen_app, !be_enc_zlen. change (zlen (text_bytes (s_ "TObjArray"))) with 9.
    change (zlen [x00]) with 1. unfold LIMIT. lia.
Qed.

(** *** Reading one class *)

Variable show : RootFile.sval -> str.

Lemma class_of_kind d e : e ∈ info.2 -> RootFile.CLASSES show d (el_kind e) = Some (RootFile.read_element 1 (counted_kind e)).
Proof.
  intros Hi. destruct Hok as (_ & _ & _ & He & _). by apply class_of_element, He.
Qed.

Definition entry_of (e : Element) : option (R.ref RootFile.sval) := Some (R.Object (RootFile.VMember (member_of e))).

Lemma reads_objarray d p : reads p (R.objarray show (RootFile.CLASSES show d)) (array_bytes info.2) (entry_of <$> info.2).
Proof.
  destruct Hok as (_ & _ & _ & He & Hl). pose proof (zlen_nonneg info.2). set (es := info.2) in *.
  assert (N2 : zlen (numbers [zlen es; 0]) = 8) by (unfold numbers; by rewrite numbers_zlen).
  unfold R.objarray, array_bytes. apply reads_whole; [lia | |].
  { rewrite !zlen_app, N2. change (zlen tobject_bytes) with 10. change (zlen (string_bytes [])) with 1. unfold LIMIT, es in *. lia. }
  eapply reads_bind; [apply reads_tobject|]. eapply reads_bind; [by apply reads_string|].
  unfold numbers at 2. cbn [fmap list_fmap concat]. rewrite <- !app_assoc. cbn [app].
  eapply reads_bind; [apply reads_i32; unfold is_i32; zbool; lia|]. eapply reads_bind; [by apply reads_i32|].
  replace (Z.to_nat (zlen es)) with (length es) by (unfold zlen; lia). eapply reads_last.
  - apply (reads_times _ element_bytes entry_of). intros e q Hi. specialize (He e Hi).
    destruct (kind_ok _ (element_kind e He)) as (Kt & Kx & Kl & _). destruct (emits_element e He) as [_ Le].
    unfold element_bytes. eapply (reads_any q show _ (el_kind e)); [exact Kt | exact Kx | | exact (class_of_kind d e Hi) | exact (reads_element e He _)].
    unfold element_bytes, tag_bytes, counted in Le. rewrite !zlen_app, !be_enc_zlen in Le. pose proof (zlen_nonneg (text_bytes (el_kind e))).
    change (zlen [x00]) with 1 in Le. unfold LIMIT. lia.
  - eapply reads_bind_nil; [|apply reads_ret]. apply reads_resume. rewrite !zlen_app, N2, !be_enc_zlen, zlen_nil. unfold numbers. lia.
Qed.

Lemma member_dict_entries es d0 : foldl (fun d x => match x with Some (R.Object (RootFile.VMember m)) => dict_set (RootFile.mb_name m) m d | _ => d end)
    d0 (entry_of <$> es) = foldl (fun d e => dict_set (el_name e) (member_of e) d) d0 es.
Proof. revert d0. induction es as [|e es IH]; intros d0; [done|]. rewrite fmap_cons. cbn [foldl entry_of]. apply IH. Qed.

(** The members of the class, by name. *)
Definition members_of : dict str RootFile.Member := foldl (fun d e => dict_set (el_name e) (member_of e) d) [] info.2.

Lemma reads_info d p : reads p (RootFile.read_info show (RootFile.CLASSES show (S d))) (body_bytes name info) (RootFile.VInfo name members_of).
Proof.
  destruct Hok as (Hn & Hc & Hv & He & Hl). pose proof (named_short name [] Hn eq_refl) as Hns. unfold RootFile.read_info, body_bytes.
  set (arr := tag_bytes _ _). assert (La : zlen arr < 1000200).
  { unfold arr, tag_bytes, counted. rewrite !zlen_app, !be_enc_zlen. change (zlen (text_bytes (s_ "TObjArray"))) with 9. change (zlen [x00]) with 1. lia. }
  apply reads_whole; [lia | rewrite !zlen_app, !be_enc_zlen; unfold LIMIT; lia|].
  eapply reads_bind; [exact (reads_named _ name [] Hn eq_refl)|]. eapply reads_bind; [exact (reads_u32 _ _ Hc)|].
  eapply reads_bind; [exact (reads_i32 _ _ Hv)|]. eapply reads_last.
  { eapply (reads_any _ show _ (s_ "TObjArray") (l ← R.objarray show (RootFile.CLASSES show d); mret (RootFile.VArray l)));
      [reflexivity | apply (bool_decide_unpack _); reflexivity | | reflexivity |].
    - change (zlen (text_bytes (s_ "TObjArray"))) with 9. unfold LIMIT. lia.
    - eapply reads_last; [apply reads_objarray | apply reads_ret]. }
  cbv beta iota. eapply reads_bind_nil; [apply reads_ret|]. eapply reads_bind_nil.
  - apply reads_resume. rewrite !zlen_app, !be_enc_zlen, zlen_nil. fold arr. lia.
  - unfold RootFile.member_dict. rewrite member_dict_entries. apply reads_ret.
Qed.

Lemma reads_entry d p :
  reads p (x ← R.any show (RootFile.CLASSES show (S (S d))); R.string ≫= fun _ => mret x) (info_bytes name)
    (Some (R.Object (RootFile.VInfo name members_of))) /\ zlen (info_bytes name) < 1004000.
Proof.
  unfold info_bytes. split.
  - eapply reads_bind.
    + eapply (reads_any _ show _ (s_ "TStreamerInfo") (RootFile.read_info show (RootFile.CLASSES show (S d))));
        [reflexivity | apply (bool_decide_unpack _); reflexivity | | reflexivity | apply reads_info].
      change (zlen (text_bytes (s_ "TStreamerInfo"))) with 13. unfold LIMIT. lia.
    + eapply reads_last; [|apply reads_ret]. exact (reads_string _ [] eq_refl).
  - unfold tag_bytes, counted. rewrite !zlen_app, !be_enc_zlen. change (zlen (text_bytes (s_ "TStreamerInfo"))) with 13.
    change (zlen [x00]) with 1. lia.
Qed.
End Info.

(** ** The whole record *)

Definition list_bytes (names : list str) : bytes :=
  record_bytes 5 (tobject_bytes ++ string_bytes [] ++ be_enc 4 (zlen names) ++ concat (info_bytes <$> names)).

Section Whole.
Variable names : list str.
Hypothesis Hin : forall n, n ∈ names -> n ∈ dict_keys INFOS.
Hypothesis Hnd : NoDup names.

Let few : zlen names <= 32.
Proof.
  assert (length names <= length (dict_keys INFOS))%nat by (apply submseteq_length, NoDup_submseteq; done).
  assert (length (dict_keys INFOS) = 32%nat) by (vm_compute; reflexivity). unfold zlen. lia.
Qed.
Let bodies : zlen (concat (info_bytes <$> names)) <= 1004000 * 32.
Proof.
  pose proof (concat_short info_bytes names 1004000) as H. enough (zlen (concat (info_bytes <$> names)) <= 1004000 * zlen names) by lia.
  apply H. intros n Hn. exact (proj2 (reads_entry n (Hin n Hn) (fun _ => []) 0 0)).
Qed.

Lemma emits_list : emits (record 5 (tobject BITS 0 ≫= fun _ => string [] ≫= fun _ => i32 (zlen names) ≫= fun _ => each _info names)) (list_bytes names).
Proof.
  pose proof (zlen_nonneg names). apply emits_record; [lia| |].
  - apply emits_bind; [apply emits_tobject|]. apply emits_bind; [exact (emits_string [] eq_refl)|].
    apply emits_bind; [apply emits_i32; unfold is_i32; zbool; lia|]. apply emits_each. intros n Hn. apply emits_info. by apply Hin.
  - rewrite !zlen_app, be_enc_zlen. change (zlen tobject_bytes) with 10. change (zlen (string_bytes [])) with 1. unfold LIMIT. lia.
Qed.

Definition info_entry (n : str) : option (R.ref RootFile.sval) := Some (R.Object (RootFile.VInfo n (members_of n))).

Lemma reads_list show d p : reads p (R.tlist show (RootFile.CLASSES show (S (S d)))) (list_bytes names) (info_entry <$> names).
Proof.
  pose proof (zlen_nonneg names). unfold R.tlist, list_bytes. apply reads_whole; [lia| |].
  { rewrite !zlen_app, be_enc_zlen. change (zlen tobject_bytes) with 10. change (zlen (string_bytes [])) with 1. unfold LIMIT. lia. }
  cbv beta iota. change (5 <=? 3) with false. cbv iota.
  eapply reads_bind; [apply reads_tobject|]. eapply reads_bind; [exact (reads_string _ [] eq_refl)|].
  eapply reads_bind; [apply reads_i32; unfold is_i32; zbool; lia|]. replace (Z.to_nat (zlen names)) with (length names) by (unfold zlen; lia).
  eapply reads_last.
  - apply (reads_times _ info_bytes info_entry). intros n q Hn. exact (proj1 (reads_entry n (Hin n Hn) show d q)).
  - eapply reads_bind_nil; [|apply reads_ret]. apply reads_resume. rewrite !zlen_app, be_enc_zlen, zlen_nil. lia.
Qed.
End Whole.

Lemma found_once names : forall d, NoDup names -> (forall n, n ∈ names -> n ∉ dict_keys d) ->
  foldl (fun d x => match x with Some (R.Object (RootFile.VInfo n ms)) => dict_setdefault n ms d | _ => d end) d (info_entry <$> names)
  = d ++ ((fun n => (n, members_of n)) <$> names).
Proof.
  induction names as [|n names IH]; intros d Hnd Hd; [by rewrite app_nil_r|]. apply NoDup_cons in Hnd as [Hn Hnd].
  rewrite !fmap_cons. cbn [foldl info_entry]. pose proof (Hd n (list_elem_of_here _ _)) as Hnew. unfold dict_setdefault.
  rewrite (proj2 (dict_get_None_keys n d) Hnew), dict_set_end by done. rewrite IH; [by rewrite <- app_assoc | done |].
  intros x Hx. unfold dict_keys. rewrite fmap_app, elem_of_app. cbn. rewrite list_elem_of_singleton.
  intros [H| ->]; [by apply (Hd x (list_elem_of_further _ _ _ Hx)) | done].
Qed.

Lemma seeds_in (seeds : list str) n : n ∈ dict_keys (foldl (fun (d : dict str unit) s => dict_set s tt d) [] seeds) <-> n ∈ seeds.
Proof.
  enough (H : forall d : dict str unit, n ∈ dict_keys (foldl (fun d s => dict_set s tt d) d seeds) <-> n ∈ dict_keys d \/ n ∈ seeds).
  { rewrite H. cbn. rewrite !elem_of_nil. tauto. }
  induction seeds as [|x seeds IH]; intros d; cbn [foldl]; [rewrite elem_of_nil; tauto|].
  rewrite IH, elem_of_cons, dict_keys_set. destruct (dict_get x d) eqn:E; rewrite ?elem_of_app, ?list_elem_of_singleton; [|tauto].
  assert (x ∈ dict_keys d) by (apply dict_get_keys; eauto). split; [tauto|]. intros [?|[->|?]]; tauto.
Qed.

(** Streamer information is only written for classes with a layout. *)
Lemma each_info_ok l : forall d d', each _info l d = (d', Ok tt) -> forall n, n ∈ l -> n ∈ dict_keys INFOS.
Proof.
  induction l as [|m l IH]; intros d d' H n Hn; [by apply elem_of_nil in Hn|]. cbn [each] in H. apply st_bind_ok in H as (d1 & [] & H1 & H2).
  apply elem_of_cons in Hn as [->|Hn]; [|by eapply IH]. apply dict_get_keys. unfold _info in H1. destruct (dict_get m INFOS); [eauto | done].
Qed.
Lemma streamers_only used data : _streamers used = Ok data -> forall n, n ∈ used -> n ∈ dict_keys INFOS.
Proof.
  unfold _streamers, built, record. intros H n Hn.
  match type of H with (let (_, _) := ?x in _) = _ => destruct x as [d [[]|e]] eqn:E; [|done] end. clear H.
  apply st_bind_ok in E as (d1 & i & _ & E). apply st_bind_ok in E as (d2 & [] & E & _). do 3 apply st_bind_ok in E as (? & [] & _ & E).
  eapply each_info_ok; [exact E|]. destruct (closure_spec used) as (new & Ec & _). cbv zeta in Ec. rewrite Ec, elem_of_app, seeds_in. by left.
Qed.

Lemma streamers_read show depth offset used :
  (forall n, n ∈ used -> n ∈ dict_keys INFOS) -> (2 <= depth)%nat ->
  exists data l, _streamers used = Ok data
    /\ RootFile.over (R.tlist show (RootFile.CLASSES show depth)) data offset = Ok l
    /\ RootFile.found_infos l = (fun n => (n, members_of n)) <$> _closure used
    /\ (forall n, n ∈ used -> n ∈ _closure used) /\ (forall c, c ∈ _closure used -> described (_closure used) c).
Proof.
  intros Hu Hd. destruct depth as [|[|d]]; [lia..|]. destruct (closure_spec used) as (new & E & Hnd & Hi & Hc). cbv zeta in *.
  assert (Hin : forall n, n ∈ _closure used -> n ∈ dict_keys INFOS).
  { intros n. rewrite E, elem_of_app, seeds_in. intros [?|?]; eauto. }
  exists (list_bytes (_closure used)), (info_entry <$> _closure used). split_and!.
  - apply emits_built, emits_list; done.
  - apply reads_over, reads_list; done.
  - unfold RootFile.found_infos. rewrite found_once; [done..|]. intros n _. apply not_elem_of_nil.
  - intros n Hn. rewrite E, elem_of_app, seeds_in. by left.
  - done.
Qed.

(** What is described is what is reached. *)
Lemma closure_reached used : (forall n, n ∈ used -> n ∈ dict_keys INFOS) -> forall n, n ∈ _closure used <-> reached used n.
Proof.
  intros Hu n. destruct (closure_spec used) as (new & E & _ & _ & Hc). cbv zeta in *. split.
  - unfold _closure. apply closure_sound. intros x Hx. apply reached_used, seeds_in. tauto.
  - induction 1 as [n Hn|c info e h _ IH Ei He Hh Hi].
    + rewrite E, elem_of_app, seeds_in. by left.
    + apply holds_held in Hh. by eapply Hc.
Qed.

(** C16: whatever classes of the writer's table a file is said to use, its
    streamer information is written, and reads back - at any offset, by a
    reader that may nest two objects deep - as the members of exactly the
    classes reached from them through bases, held objects and pointers: the
    file describes everything in it, nothing else, and nothing twice. *)
Theorem streamers_describe show depth offset used :
  (forall n, n ∈ used -> n ∈ dict_keys INFOS) -> (2 <= depth)%nat ->
  exists data l names, _streamers used = Ok data
    /\ RootFile.over (R.tlist show (RootFile.CLASSES show depth)) data offset = Ok l
    /\ RootFile.found_infos l = (fun n => (n, members_of n)) <$> names
    /\ NoDup names /\ (forall n, n ∈ names <-> reached used n).
Proof.
  intros Hu Hd. destruct (streamers_read show depth offset used Hu Hd) as (data & l & H1 & H2 & H3 & _).
  exists data, l, (_closure used). destruct (closure_spec used) as (_ & _ & Hn & _). split_and!; [done..|]. by apply closure_reached.
Qed.

Lemma streamers_describe_witness :
  (2 <= 2)%nat /\ exists data l names, _streamers [s_ "TH1D"] = Ok data
    /\ RootFile.over (R.tlist (fun _ => []) (RootFile.CLASSES (fun _ => []) 2)) data 64 = Ok l
    /\ RootFile.found_infos l = (fun n => (n, members_of n)) <$> names
    /\ NoDup names /\ (forall n, n ∈ names <-> reached [s_ "TH1D"] n).
Proof.
  split; [lia|]. apply (streamers_describe (fun _ => []) 2 64 [s_ "TH1D"]); [|lia].
  intros n ->%list_elem_of_singleton. decided.
Defined.
End RootInfos.
