(* ===== verification/RootContainer.v ===== *)
(** * A written file, byte by byte

    The records [_put] lays down, the invariant the file keeps while it is
    written, and the shape of what [close] writes out (RootWriter). *)

From S2P Require Import Prelude PyStr Errors Buffer UrlText Compression CompressionProps RootBuffer RootFile Winfo RootPack RootEncoding RootInfos RootWriter.
Open Scope Z_scope.

Module RootContainer.
Module R := RootBuffer.
Import RootPack RootEncoding RootWriter.

(** ** What a writer that returned has written *)

Definition wrote (c : wb unit) (out : bytes) (P : Prop) : Prop := forall d d', c d = (d', Ok tt) -> d' = d ++ out /\ P.

Lemma wrote_bind c k o1 o2 P Q : wrote c o1 P -> wrote k o2 Q -> wrote (c ≫= fun _ => k) (o1 ++ o2) (P /\ Q).
Proof.
  intros Hc Hk d d' (d1 & [] & H1 & H2)%st_bind_ok. apply Hc in H1 as [-> HP]. apply Hk in H2 as [-> HQ]. by rewrite <- app_assoc.
Qed.
Lemma wrote_packs r b P : (forall b', r = Ok b' -> b' = b /\ P) -> wrote (packs r) b P.
Proof. intros Hr d d'. unfold packs, lift, raw, modify, mbind, st_bind. destruct r as [b'|]; [|done]. intros [= <-]. by destruct (Hr b' eq_refl) as [-> ?]. Qed.
Lemma pack_u_inv n v b : pack_u n v = Ok b -> b = be_enc n v /\ 0 <= v < 256 ^ Z.of_nat n.
Proof. unfold pack_u. case_goal; [|done]. intros [= <-]. zbool. done. Qed.
Lemma pack_i_inv n v b : pack_i n v = Ok b -> b = be_enc n v /\ - 2 ^ (8 * Z.of_nat n - 1) <= v < 2 ^ (8 * Z.of_nat n - 1).
Proof. unfold pack_i. case_goal; [|done]. intros [= <-]. zbool. done. Qed.

Lemma wrote_u8 v : wrote (u8 v) (be_enc 1 v) (0 <= v < 256).
Proof. apply wrote_packs. intros b' H. by apply pack_u_inv in H. Qed.
Lemma wrote_u16 v : wrote (u16 v) (be_enc 2 v) (0 <= v < 65536).
Proof. apply wrote_packs. intros b' H. by apply pack_u_inv in H. Qed.
Lemma wrote_u32 v : wrote (u32 v) (be_enc 4 v) (0 <= v < 4294967296).
Proof. apply wrote_packs. intros b' H. by apply pack_u_inv in H. Qed.
Lemma wrote_i16 v : wrote (i16 v) (be_enc 2 v) (- 32768 <= v < 32768).
Proof. apply wrote_packs. intros b' H. by apply pack_i_inv in H. Qed.
Lemma wrote_i32 v : wrote (i32 v) (be_enc 4 v) (is_i32 v = true).
Proof. apply wrote_packs. intros b' H. apply pack_i_inv in H as [-> H]. split; [done|]. unfold is_i32. cbn in H. zbool. lia. Qed.
Lemma wrote_raw b : wrote (raw b) b True.
Proof. intros d d' [= <-]. done. Qed.
Lemma wrote_string s : is_text s = true -> wrote (string s) (string_bytes s) (carried s = true).
Proof.
  intros Ht d d'. destruct (is_text_encode s Ht) as [He _]. unfold string. rewrite He. unfold string_bytes, size_bytes, carried. rewrite Ht.
  intros (d0 & b & H0 & H)%st_bind_ok. unfold lift in H0. injection H0 as <- <-. apply st_bind_ok in H as (d1 & [] & H1 & H2). apply wrote_raw in H2 as [-> _].
  destruct (255 <=? _) eqn:E; zbool.
  - apply (wrote_bind _ _ _ _ _ _ (wrote_u8 255) (wrote_i32 _)) in H1 as [-> [_ Hi]]. split; [by rewrite !app_assoc|].
    unfold is_i32 in Hi. cbn [andb]. zbool. lia.
  - apply wrote_u8 in H1 as [-> _]. split; [by rewrite <- app_assoc|]. cbn [andb]. zbool. lia.
Qed.
Lemma wrote_each {A} (f : A -> wb unit) out P l : (forall a, wrote (f a) (out a) (P a)) -> wrote (each f l) (concat (out <$> l)) (forall a, a ∈ l -> P a).
Proof.
  intros Hf. induction l as [|a l IH].
  - intros d d' [= <-]. rewrite app_nil_r. split; [done|]. by intros a ?%elem_of_nil.
  - intros d d' H. cbn in H. apply (wrote_bind _ _ _ _ _ _ (Hf a) IH) in H as [-> [H1 H2]]. split; [done|].
    intros x [->|Hx]%elem_of_cons; [done | by apply H2].
Qed.
Lemma wrote_built c out P b : wrote c out P -> built c = Ok b -> b = out /\ P.
Proof.
  intros Hc. unfold built. destruct (c []) as [d [[]|e]] eqn:E; [|done]. intros [= <-]. by apply Hc in E.
Qed.

(** ** Keys *)

Lemma wrote_key nbytes objlen datime keylen cycle seek pdir cls name title :
  is_text cls = true -> is_text name = true -> is_text title = true -> exists out,
  wrote (key_bytes nbytes objlen datime keylen cycle seek pdir cls name title) out
    (forall V p, reads (V := V) p RootFile.Key_init out
       (RootFile.mkKey nbytes KEY_VERSION objlen datime keylen cycle seek pdir cls name title))
  /\ zlen out = 26 + zlen (string_bytes cls) + zlen (string_bytes name) + zlen (string_bytes title).
Proof.
  intros Hc Hn Ht. unfold key_bytes. eexists. split.
  - intros d d' H. eapply wrote_bind in H as [-> H]; [|apply wrote_i32|..].
  2: { repeat (eapply wrote_bind || apply wrote_i32 || apply wrote_u16 || apply wrote_u32 || apply wrote_i16
    || (apply wrote_string; assumption)). }
    destruct H as (H1 & H2 & H3 & H4 & H5 & H6 & H7 & H8 & H9 & H10 & H11). split; [reflexivity|].
    intros V p. unfold RootFile.Key_init. eapply reads_bind; [by apply reads_i32|]. eapply reads_bind; [by apply reads_u16|].
    eapply reads_bind; [by apply reads_i32|]. eapply reads_bind; [by apply reads_u32|].
    do 2 (eapply reads_bind; [by apply reads_i16|]). change (1000 <? KEY_VERSION) with false. cbv zeta iota.
    do 2 (eapply reads_bind; [by apply reads_i32|]). do 2 (eapply reads_bind; [by apply reads_string|]).
    eapply reads_last; [by apply reads_string|]. apply reads_ret.
  - rewrite !zlen_app, !be_enc_zlen. lia.
Qed.
Lemma key_written nbytes objlen datime keylen cycle seek pdir cls name title b :
  is_text cls = true -> is_text name = true -> is_text title = true ->
  built (key_bytes nbytes objlen datime keylen cycle seek pdir cls name title) = Ok b ->
  (forall V p, reads (V := V) p RootFile.Key_init b
     (RootFile.mkKey nbytes KEY_VERSION objlen datime keylen cycle seek pdir cls name title))
  /\ zlen b = 26 + zlen (string_bytes cls) + zlen (string_bytes name) + zlen (string_bytes title).
Proof.
  intros Hc Hn Ht Hb. destruct (wrote_key nbytes objlen datime keylen cycle seek pdir cls name title Hc Hn Ht) as (out & Hw & Hl).
  destruct (wrote_built _ _ _ _ Hw Hb) as [-> Hr]. done.
Qed.

(** Text a key can carry: its length in one byte. *)
Definition keyed (s : str) : bool := is_text s && (zlen (text_bytes s) <=? 254).
Lemma keyed_string s : keyed s = true -> is_text s = true /\ zlen (string_bytes s) = 1 + zlen (text_bytes s) /\ encoded_len s = Ok (zlen (text_bytes s)).
Proof.
  unfold keyed, string_bytes, size_bytes, encoded_len. intros [Ht Hl]%andb_true_iff. zbool. destruct (is_text_encode s Ht) as [-> _].
  split_and!; [done| |done]. rewrite zlen_app. case_goal; zbool; [lia|]. by rewrite be_enc_zlen.
Qed.
Lemma keyed_keylen cls name title : keyed cls = true -> keyed name = true -> keyed title = true ->
  _keylen cls name title 0 = Ok (26 + zlen (string_bytes cls) + zlen (string_bytes name) + zlen (string_bytes title)).
Proof.
  intros (_ & Hc & Ec)%keyed_string (_ & Hn & En)%keyed_string (_ & Ht & Et)%keyed_string. unfold _keylen.
  rewrite Ec, En, Et. cbn [mbind result_bind]. f_equal. lia.
Qed.
Lemma checked_keyed s r : is_text s = true -> _checked s = Ok r -> keyed s = true.
Proof.
  intros Ht. unfold _checked, encoded_len, keyed. destruct (is_text_encode s Ht) as [-> _]. rewrite Ht. cbn.
  case_goal; [done|]. intros _. zbool. lia.
Qed.

(** ** Records *)

Record entry := mkEntry { en_class : str; en_name : str; en_title : str; en_payload : bytes; en_cycle : Z }.

Section Put.
Context {G : Type}.
Variable codecs : Compression.Codecs.
Hypothesis laws : CompressionProps.CodecLaws codecs.
Notation file := (WritableFile G).

(** What a record holds for a payload. *)
Definition holds (payload body : bytes) : Prop :=
  body = payload \/ (zlen body < zlen payload /\ Compression.decompress codecs body (zlen payload) = Ok payload).

Lemma squeeze_holds (f : file) packed payload body : squeeze codecs f packed payload = Ok body -> holds payload body.
Proof.
  unfold squeeze, holds. destruct (wf_algorithm f) as [a|]; [|intros [= <-]; by left]. destruct packed; [|intros [= <-]; by left].
  intros H. apply bind_ok_inv in H as (c & Hc & H). injection H as <-. case_goal; [|by left]. zbool. right. split; [done|].
  by eapply CompressionProps.compress_undone.
Qed.

(** A record of [e] at [seek]: its key [h], which reads as [k], then [body]. *)
Record recorded (datime : Z) (e : entry) (seek : Z) (k : RootFile.Key) (h body : bytes) : Prop := {
  rec_reads : forall V p, reads (V := V) p RootFile.Key_init h k;
  rec_key : k = RootFile.mkKey (zlen h + zlen body) KEY_VERSION (zlen (en_payload e)) datime (zlen h) (en_cycle e) seek BEGIN
                  (en_class e) (en_name e) (en_title e);
  rec_body : holds (en_payload e) body
}.

(** Nothing but the data and the keys changes. *)
Record same_file (f f' : file) : Prop := {
  same_handle : wf_handle f' = wf_handle f; same_owned : wf_owned f' = wf_owned f; same_algorithm : wf_algorithm f' = wf_algorithm f;
  same_level : wf_level f' = wf_level f; same_datime : wf_datime f' = wf_datime f; same_uuid : wf_uuid f' = wf_uuid f;
  same_closed : wf_closed f' = wf_closed f; same_label : wf_label f' = wf_label f; same_nname : wf_nname f' = wf_nname f;
  same_used : wf_used f' = wf_used f
}.

Lemma same_trans (f1 f2 f3 : file) : same_file f1 f2 -> same_file f2 f3 -> same_file f1 f3.
Proof. intros [] []. split; congruence. Qed.

Lemma put_grows cls name title payload cycle listed packed extra (f f' : file) r :
  _put codecs cls name title payload cycle listed packed extra f = (f', r) ->
  same_file f f' /\ wf_trees f' = wf_trees f /\ (exists more, wf_data f' = wf_data f ++ more)
  /\ (listed = false \/ is_ok r = false -> wf_keys f' = wf_keys f) /\ wf_cycles f' = wf_cycles f.
Proof.
  unfold _put. case_goal; [intros [= <- <-]; split_and!; [done..|exists []; by rewrite app_nil_r|done|done]|].
  match goal with |- match ?c with _ => _ end = _ -> _ => destruct c as [[[body keylen] header]|e] end;
    [|intros [= <- <-]; split_and!; [done..|exists []; by rewrite app_nil_r|done|done]].
  intros [= <- <-]. destruct listed; cbn; split_and!; try done; [eexists; done| by intros [|] | eexists; done].
Qed.

Lemma put_spec cls name title payload cycle listed packed (f f' : file) seek nbytes :
  keyed cls = true -> keyed name = true -> keyed title = true ->
  _put codecs cls name title payload cycle listed packed [] f = (f', Ok (seek, nbytes)) ->
  exists k h body, seek = zlen (wf_data f) /\ nbytes = zlen h + zlen body
    /\ zlen h = 26 + zlen (string_bytes cls) + zlen (string_bytes name) + zlen (string_bytes title)
    /\ recorded (wf_datime f) (mkEntry cls name title payload cycle) seek k h body
    /\ wf_data f' = wf_data f ++ h ++ body /\ wf_keys f' = wf_keys f ++ (if listed then [h] else [])
    /\ (packed = false -> body = payload).
Proof.
  intros Hc Hn Ht. unfold _put. destruct (BIG <? _); [done|].
  match goal with |- match ?c with _ => _ end = _ -> _ => destruct c as [[[body keylen] header]|e] eqn:E; [|done] end.
  intros [= <- <- <-]. apply bind_ok_inv in E as (b & Hb & E). rewrite zlen_nil, keyed_keylen in E by done. cbn [mbind result_bind] in E.
  apply bind_ok_inv in E as (h & Hh & E). injection E as <- <- <-. rewrite app_nil_r.
  pose proof (keyed_string _ Hc) as (Tc & Lc & _). pose proof (keyed_string _ Hn) as (Tn & Ln & _). pose proof (keyed_string _ Ht) as (Tt & Lt & _).
  apply key_written in Hh as [Hr Hl]; [|done..]. rewrite <- Hl in *. eexists _, h, b. split_and!; [done | done | done | | | |].
  - split; [exact Hr | done | by eapply squeeze_holds].
  - by destruct listed.
  - destruct listed; cbn; [done | by rewrite app_nil_r].
  - intros ->. unfold squeeze in Hb. destruct (wf_algorithm f); by injection Hb.
Qed.
End Put.

(** ** While the file is written *)

Section Writing.
Context {G : Type}.
Variable codecs : Compression.Codecs.
Hypothesis laws : CompressionProps.CodecLaws codecs.
Variable show : pyval -> str.
Variable wide : bool.
Notation file := (WritableFile G).

Definition base (f : file) : Z := BEGIN + wf_nname f + 60.
Definition tags (f : file) : list (str * str * Z) := (fun t => (wt_name t, wt_title t, wt_cycle t)) <$> wf_trees f.

(** The record of [e] with key [h] is in the file, behind its head. *)
Definition kept (f : file) (e : entry) (h : bytes) : Prop :=
  exists seek k body pre post, recorded codecs (wf_datime f) e seek k h body
    /\ wf_data f = pre ++ (h ++ body) ++ post /\ zlen pre = seek /\ base f <= seek.

Variable g : G.
Variable closed : bool.
(** The objects written so far are [es], in this order. *)
Record Inv (f : file) (es : list entry) : Prop := {
  inv_handle : wf_handle f = g;
  inv_closed : wf_closed f = closed;
  inv_label : keyed (wf_label f) = true;
  inv_nname : wf_nname f = 36 + 2 * zlen (text_bytes (wf_label f));
  inv_uuid : zlen (wf_uuid f) = 16;
  inv_data : exists tail, wf_data f = replicate (Z.to_nat (base f)) x00 ++ tail;
  inv_keys : Forall2 (kept f) es (wf_keys f);
  inv_trees : forall n t c, (n, t, c) ∈ tags f -> keyed n = true /\ keyed t = true
}.

(** The file only grows, and lists nothing more. *)
Record calm (f f' : file) : Prop := {
  calm_same : same_file f f'; calm_keys : wf_keys f' = wf_keys f; calm_data : exists more, wf_data f' = wf_data f ++ more
}.

Lemma calm_refl f : calm f f.
Proof. split; [done..|]. exists []. by rewrite app_nil_r. Qed.
Lemma calm_trans f1 f2 f3 : calm f1 f2 -> calm f2 f3 -> calm f1 f3.
Proof.
  intros [[] K1 [m1 D1]] [[] K2 [m2 D2]]. split; [split; congruence | congruence |]. exists (m1 ++ m2). by rewrite D2, D1, <- app_assoc.
Qed.

Lemma kept_grows f f' e h : same_file f f' -> (exists more, wf_data f' = wf_data f ++ more) -> kept f e h -> kept f' e h.
Proof.
  intros S [more Hm] (seek & k & body & pre & post & Hr & Hd & Hp & Hb). exists seek, k, body, pre, (post ++ more).
  destruct S as [_ _ _ _ Sd _ _ _ Sn _]. unfold base. rewrite Sd, Sn. split_and!; [done| |done|done]. by rewrite Hm, Hd, <- !app_assoc.
Qed.
Lemma inv_calm f f' es : Inv f es -> calm f f' -> (forall n t c, (n, t, c) ∈ tags f' -> keyed n = true /\ keyed t = true) -> Inv f' es.
Proof.
  intros [Ih Ic I1 I2 I3 [tail I4] I5 I6] [S K D] Ht. pose proof S as [Sh _ _ _ Sd Su Sc Sl Sn _]. split; rewrite ?Sh, ?Sc, ?Sl, ?Sn, ?Su; try done.
  - destruct D as [more ->]. exists (tail ++ more). unfold base. by rewrite Sn, I4, <- app_assoc.
  - rewrite K. eapply Forall2_impl; [exact I5|]. intros e h. by apply kept_grows.
Qed.

(** Computations that do no more than that, whether they return or raise. *)
Definition calms {A} (c : st exn file A) : Prop := forall f, calm f (c f).1 /\ tags (c f).1 = tags f /\ wf_cycles (c f).1 = wf_cycles f.

Lemma calms_ret {A} (a : A) : calms (mret a).
Proof. intros f. split_and!; [apply calm_refl | done..]. Qed.
Lemma calms_lift {A} (r : res A) : calms (lift r).
Proof. intros f. split_and!; [apply calm_refl | done..]. Qed.
Lemma calms_bind {A B} (c : st exn file A) (k : A -> st exn file B) : calms c -> (forall a, calms (k a)) -> calms (c ≫= k).
Proof.
  intros Hc Hk f. unfold mbind, st_bind. destruct (Hc f) as (C & T & Y). destruct (c f) as [f1 [a|e]]; [|done].
  destruct (Hk a f1) as (C' & T' & Y'). cbn in *. split_and!; [by eapply calm_trans | congruence..].
Qed.
Lemma calms_put cls name title payload cycle packed extra : calms (_put codecs cls name title payload cycle false packed extra).
Proof.
  intros f. destruct (_put _ _ _ _ _ _ _ _ _ f) as [f' r] eqn:E. apply put_grows in E as (S & T & D & K & Y). cbn.
  split_and!; [split; [done | by apply K; left | done] | unfold tags; by rewrite T | done].
Qed.
Lemma calms_set_column t name c : calms (set_column t name c : st exn file unit).
Proof.
  intros f. unfold set_column, modify. cbn. split_and!; [split; [done | done | exists []; by rewrite app_nil_r] | | done].
  unfold tags. cbn. rewrite list_fmap_alter with (h := id); [by apply list_alter_id|]. apply Forall_true. by intros [].
Qed.

Lemma calms_flush t name : calms (_flush codecs t name).
Proof.
  intros f. unfold _flush. destruct (the_column t name f) as [c|]; [|by apply (calms_lift (Err KeyError))].
  case_goal; [by apply (calms_ret tt)|]. match goal with |- calm f (?c f).1 /\ _ => apply (fun H : calms c => H f) end.
  apply calms_bind; [apply calms_lift|]. intros keylen. apply calms_bind; [apply calms_lift|]. intros extra.
  apply calms_bind; [apply calms_put|]. intros [seek nbytes]. apply calms_set_column.
Qed.
Lemma calms_each (fn : str -> st exn file unit) l : (forall n, calms (fn n)) -> calms (each_name fn l).
Proof. intros Hfn. induction l as [|n l IH]; [apply calms_ret|]. cbn. apply calms_bind; [done|]. by intros _. Qed.

Lemma calms_row t row : calms (_row codecs t row).
Proof.
  intros f. unfold _row. destruct (wf_trees f !! t) as [tr|] eqn:Et; [|by apply (calms_lift (Err KeyError))].
  case_goal; [by apply (calms_lift (Err ValueError))|]. case_goal; [by apply (calms_lift (Err ValueError))|].
  destruct (mapM_res _ _) as [cols|e]; [|by apply (calms_lift (Err e))].
  set (f1 := set_trees _ f). assert (C1 : calm f f1) by (split; [done | done | exists []; by rewrite app_nil_r]).
  assert (T1 : tags f1 = tags f).
  { unfold tags, f1. cbn. rewrite list_fmap_insert. apply list_insert_id. rewrite list_lookup_fmap, Et. done. }
  match goal with |- calm f (?c f1).1 /\ _ => assert (H : calms c) end.
  - apply calms_each. intros n f2. destruct (the_column t n f2) as [c|]; [|by apply (calms_ret tt)].
    case_goal; [apply calms_flush | by apply (calms_ret tt)].
  - destruct (H f1) as (C2 & T2 & Y2). split_and!; [by eapply calm_trans | congruence | done].
Qed.

(** *** Objects *)

Lemma inv_listed cls name title payload cycle f f' es seek nbytes :
  keyed cls = true -> keyed name = true -> keyed title = true -> Inv f es ->
  _put codecs cls name title payload cycle true true [] f = (f', Ok (seek, nbytes)) ->
  Inv f' (es ++ [mkEntry cls name title payload cycle]) /\ tags f' = tags f /\ same_file f f'.
Proof.
  intros Hc Hn Ht I E. pose proof E as E'. apply put_grows in E' as (S & T & D & _ & _). apply (put_spec _ laws) in E as
    (k & h & body & -> & -> & _ & Hr & Hd & Hk & _); [|done..].
  assert (Tg : tags f' = tags f) by (unfold tags; by rewrite T). split; [|by split].
  destruct I as [Ih Ic I1 I2 I3 [tail I4] I5 I6]. pose proof S as [Sh _ _ _ Sd Su Sc Sl Sn _]. split; rewrite ?Sh, ?Sc, ?Sl, ?Sn, ?Su, ?Tg; try done.
  - exists (tail ++ h ++ body). unfold base. by rewrite Sn, Hd, I4, <- app_assoc.
  - rewrite Hk. apply Forall2_app; [eapply Forall2_impl; [exact I5|]; intros e h'; by apply kept_grows|]. constructor; [|constructor].
    exists (zlen (wf_data f)), k, body, (wf_data f), []. rewrite app_nil_r. split_and!; [by rewrite Sd | done | done |].
    unfold base. rewrite Sn, I4, zlen_app. unfold zlen at 1. rewrite length_replicate. unfold base. pose proof (zlen_nonneg tail). lia.
Qed.

(** The class an object is written as is one a key carries. *)
Definition classnames_written : list str := s_ "string" :: (ARRAY_CLASSES.*2 ++ dict_keys Winfo.INFOS).
Lemma payload_class depth obj cls payload used : _payload show depth obj = Ok (cls, payload, used) -> keyed cls = true.
Proof.
  intros H. assert (Hin : cls ∈ classnames_written).
  { unfold classnames_written. rewrite elem_of_cons, elem_of_app. destruct obj as [| | | |s| |tc sz vs| | | |c ms n|c ms l|]; try discriminate H; cbn [_payload] in H.
    - apply bind_ok_inv in H as (b & _ & H). injection H as <- _ _. by left.
    - destruct (dict_get _ ARRAY_CLASSES) as [c|] eqn:E; [|discriminate H]. apply bind_ok_inv in H as (b & _ & H). injection H as <- _ _.
      right; left. apply dict_get_Some_in in E. apply list_elem_of_fmap. eexists (_, c). done.
    - destruct (dict_mem c Winfo.INFOS) eqn:E; [|discriminate H]. cbn [negb] in H. destruct (_record _ _ _ _ _) as [[? ?] [|]]; [|discriminate H].
      injection H as <- _ _. right; right. by apply dict_get_keys, dict_mem_true.
    - destruct (dict_mem c Winfo.INFOS) eqn:E; [|discriminate H]. cbn [negb] in H. destruct (_record _ _ _ _ _) as [[? ?] [|]]; [|discriminate H].
      injection H as <- _ _. right; right. by apply dict_get_keys, dict_mem_true. }
  assert (A : forallb keyed classnames_written = true) by (vm_compute; reflexivity). rewrite forallb_forall in A. by apply A, list_elem_of_In.
Qed.

(** What a caller may do, with text for every name; an exception is caught and
    the file goes on. *)
Inductive op :=
| Write (depth : nat) (name : str) (obj : pyval) (title : option str)
| Tree (name : str) (columns : dict str pyval) (title : option str) (basket_size : Z)
| Row (tree : nat) (row : dict str pyval).

Definition title_of (obj : pyval) (title : option str) : res str := match title with Some t => Ok t | None => obj_title show obj end.
Definition in_text (o : op) : bool :=
  match o with
  | Write _ name obj title => is_text name && match title_of obj title with Ok t => is_text t | Err _ => true end
  | Tree name _ title _ => is_text name && is_text (default [] title)
  | Row _ _ => true
  end.
Definition run_op (o : op) (f : file) : file :=
  match o with
  | Write depth name obj title => (write codecs show depth name obj title f).1
  | Tree name columns title basket_size => (tree wide name columns title basket_size f).1
  | Row t row => (_row codecs t row f).1
  end.
(** The entry an operation adds: that of an object that was written. *)
Definition added (o : op) (f : file) : list entry :=
  match o with
  | Write depth name obj title =>
      match (write codecs show depth name obj title f).2, _payload show depth obj, title_of obj title with
      | Ok _, Ok (cls, payload, _), Ok t => [mkEntry cls name t payload (default 0 (dict_get name (wf_cycles f)) + 1)]
      | _, _, _ => []
      end
  | _ => []
  end.
Fixpoint run (ops : list op) (f : file) : file := match ops with [] => f | o :: ops => run ops (run_op o f) end.
Fixpoint log (ops : list op) (f : file) : list entry := match ops with [] => [] | o :: ops => added o f ++ log ops (run_op o f) end.

Lemma inv_use names f es : Inv f es -> Inv (use names f) es.
Proof. intros [Ih Ic I1 I2 I3 I4 I5 I6]. by split. Qed.
Lemma calm_cycle name c (f : file) : calm f (set_cycle name c f).
Proof. split; [done | done | exists []; by rewrite app_nil_r]. Qed.

Lemma inv_write depth name obj title f es : in_text (Write depth name obj title) = true -> Inv f es ->
  Inv (run_op (Write depth name obj title) f) (es ++ added (Write depth name obj title) f)
  /\ tags (run_op (Write depth name obj title) f) = tags f.
Proof.
  cbn [in_text run_op added]. intros [Tn Tt]%andb_true_iff I. unfold write, _check_name. rewrite st_bind_eq.
  destruct (wf_closed f); [by rewrite app_nil_r|]. destruct (_checked name) as [s|] eqn:Cn; cbn [mbind result_bind]; [|by rewrite app_nil_r].
  destruct (_ || _); [by rewrite app_nil_r|]. unfold lift. rewrite st_bind_eq. destruct (_payload show depth obj) as [[[cls payload] used]|] eqn:Ep; [|by rewrite app_nil_r].
  rewrite st_bind_eq. fold (title_of obj title). destruct (title_of obj title) as [t|]; [|by rewrite app_nil_r].
  rewrite st_bind_eq. destruct (_checked t) as [t'|] eqn:Ct; [|by rewrite app_nil_r].
  unfold next_cycle. rewrite !st_bind_eq. cbn [modify]. set (cyc := default 0 _ + 1). rewrite !st_bind_eq. cbn [modify mret st_ret].
  set (f1 := set_cycle name cyc (use used f)).
  assert (I1 : Inv f1 es) by (eapply inv_calm; [by apply (inv_use used) | apply calm_cycle | exact (inv_trees _ _ I)]).
  change (default 0 (dict_get name (wf_cycles (use used f))) + 1) with cyc. fold f1. rewrite !st_bind_eq.
  destruct (_put codecs cls name t payload cyc true true [] f1) as [f2 [[seek nbytes]|e]] eqn:E.
  - apply (inv_listed _ _ _ _ _ _ _ es) in E as (I2 & T2 & _); [done | by eapply payload_class | by eapply checked_keyed | by eapply checked_keyed | done].
  - apply put_grows in E as (S & T & D & K & _). rewrite app_nil_r. cbn [fst]. assert (tags f2 = tags f) as Tg by (unfold tags; by rewrite T).
    split; [|done]. eapply inv_calm; [exact I1 | split; [done | by apply K; right | done] | rewrite Tg; exact (inv_trees _ _ I)].
Qed.

Lemma inv_tree name columns title basket_size f es : in_text (Tree name columns title basket_size) = true -> Inv f es ->
  Inv (run_op (Tree name columns title basket_size) f) es.
Proof.
  cbn [in_text run_op]. intros [Tn Tt]%andb_true_iff I. unfold tree, _check_name. rewrite st_bind_eq.
  destruct (wf_closed f); [done|]. destruct (_checked name) as [s|] eqn:Cn; cbn [mbind result_bind]; [|done].
  destruct (_ || _); [done|]. unfold lift. rewrite st_bind_eq. destruct (_checked (default [] title)) as [t'|] eqn:Ct; [|done].
  unfold next_cycle. rewrite !st_bind_eq. cbn [modify]. set (cyc := default 0 _ + 1). cbn [mret st_ret].
  assert (I1 : Inv (set_cycle name cyc f) es) by (eapply inv_calm; [exact I | apply calm_cycle | exact (inv_trees _ _ I)]).
  unfold mbind, st_bind. destruct (WritableTree_init _ _ _ _ _ _) as [tr|] eqn:Et; [|exact I1]. cbn [modify fst].
  apply inv_use. eapply inv_calm; [exact I1 | split; [done | done | exists []; by rewrite app_nil_r] |].
  unfold tags. cbn. rewrite fmap_app. intros n t c [Hin|Hin]%elem_of_app; [by apply (inv_trees _ _ I) in Hin|].
  unfold WritableTree_init in Et. repeat (case_hyp; [done|]). apply bind_ok_inv in Et as (cols & _ & Et). injection Et as <-.
  apply list_elem_of_singleton in Hin as [= -> -> ->]. split; by eapply checked_keyed.
Qed.

Lemma inv_op o f es : in_text o = true -> Inv f es -> Inv (run_op o f) (es ++ added o f).
Proof.
  intros Ho I. destruct o.
  - by apply inv_write.
  - cbn [added]. rewrite app_nil_r. by apply inv_tree.
  - cbn [added run_op]. rewrite app_nil_r. destruct (calms_row tree0 row f) as (C & T & _). eapply inv_calm; [done | done |].
    rewrite T. exact (inv_trees _ _ I).
Qed.
Lemma inv_run ops : forall f es, forallb in_text ops = true -> Inv f es -> Inv (run ops f) (es ++ log ops f).
Proof.
  induction ops as [|o ops IH]; intros f es; cbn [forallb run log]; [by rewrite app_nil_r|].
  intros [Ho Hops]%andb_true_iff I. rewrite app_assoc. apply IH; [done|]. by apply inv_op.
Qed.

(** *** Cycles *)

Definition cycle_of (n : str) (f : file) : Z := default 0 (dict_get n (wf_cycles f)).

Lemma cycle_set n name (f : file) : cycle_of n f <= cycle_of n (set_cycle name (cycle_of name f + 1) f).
Proof. unfold cycle_of. cbn. rewrite dict_get_set. case_decide as E; [subst; cbn; lia | lia]. Qed.

(** Cycles never go back, and an object written takes the next of its name. *)
Record next_cycles (f f' : file) (es : list entry) : Prop := {
  nc_grow : forall n, cycle_of n f <= cycle_of n f';
  nc_entry : forall e, e ∈ es -> en_cycle e = cycle_of (en_name e) f + 1 /\ cycle_of (en_name e) f' = en_cycle e /\ PyStr.contains 0x3B (en_name e) = false
}.
Lemma next_same (f f' : file) : wf_cycles f' = wf_cycles f -> next_cycles f f' [].
Proof. intros E. split; [intros n; unfold cycle_of; rewrite E; lia | by intros e ?%elem_of_nil]. Qed.
Lemma next_one name (f f' : file) : wf_cycles f' = wf_cycles (set_cycle name (cycle_of name f + 1) f) -> next_cycles f f' [].
Proof.
  intros E. split; [|by intros e ?%elem_of_nil]. intros n. pose proof (cycle_set n name f). unfold cycle_of in *. by rewrite E.
Qed.

Lemma write_cycles depth name obj title f :
  next_cycles f (run_op (Write depth name obj title) f) (added (Write depth name obj title) f).
Proof.
  cbn [run_op added]. unfold write, _check_name. rewrite st_bind_eq.
  destruct (wf_closed f); [by apply next_same|]. destruct (_checked name) as [s|]; cbn [mbind result_bind]; [|by apply next_same].
  destruct (_ || PyStr.contains 0x3B name) eqn:Ec; [by apply next_same|]. apply orb_false_iff in Ec as [_ Ec]. unfold lift. rewrite st_bind_eq.
  destruct (_payload show depth obj) as [[[cls payload] used]|] eqn:Ep; [|by apply next_same].
  rewrite st_bind_eq. fold (title_of obj title). destruct (title_of obj title) as [t|]; [|by apply next_same].
  rewrite st_bind_eq. destruct (_checked t) as [t'|]; [|by apply next_same].
  unfold next_cycle. rewrite !st_bind_eq. cbn [modify]. rewrite !st_bind_eq. cbn [modify mret st_ret].
  change (default 0 (dict_get name (wf_cycles (use used f))) + 1) with (cycle_of name f + 1).
  change (default 0 (dict_get name (wf_cycles f)) + 1) with (cycle_of name f + 1). rewrite !st_bind_eq.
  destruct (_put _ _ _ _ _ _ _ _ _ _) as [f2 [[seek nbytes]|e]] eqn:E; apply put_grows in E as (_ & _ & _ & _ & Y); [|by apply (next_one name)].
  split; [exact (nc_grow _ _ _ (next_one name f f2 Y))|]. intros e ->%list_elem_of_singleton. cbn [en_cycle en_name]. split_and!; [done| |done].
  assert (E : cycle_of name f2 = cycle_of name f + 1) by (unfold cycle_of at 1; rewrite Y; cbn; by rewrite dict_get_set_eq). exact E.
Qed.
Lemma op_cycles o f : next_cycles f (run_op o f) (added o f).
Proof.
  destruct o; [apply write_cycles| |apply next_same; exact (proj2 (proj2 (calms_row tree0 row f)))].
  cbn [run_op added]. unfold tree, _check_name. rewrite st_bind_eq.
  destruct (wf_closed f); [by apply next_same|]. destruct (_checked name) as [s|]; cbn [mbind result_bind]; [|by apply next_same].
  destruct (_ || _); [by apply next_same|]. unfold lift. rewrite st_bind_eq. destruct (_checked (default [] title0)) as [t'|]; [|by apply next_same].
  unfold next_cycle. rewrite !st_bind_eq. cbn [modify]. cbn [mret st_ret].
  unfold mbind, st_bind. destruct (WritableTree_init _ _ _ _ _ _) as [tr|]; by apply (next_one name).
Qed.

(** Later entries of a name have higher cycles. *)
Fixpoint rising (es : list entry) : Prop :=
  match es with
  | [] => True
  | e :: es => (forall e', e' ∈ es -> en_name e' = en_name e -> en_cycle e < en_cycle e') /\ rising es
  end.
Lemma rising_app es es' : rising es -> rising es' -> (forall e e', e ∈ es -> e' ∈ es' -> en_name e' = en_name e -> en_cycle e < en_cycle e') -> rising (es ++ es').
Proof.
  induction es as [|e es IH]; intros Hr Hr' Hx; [done|]. cbn in *. destruct Hr as [He Hr]. split.
  - intros e' [Hin|Hin]%elem_of_app Hn; [by apply He | apply Hx; [left | done | done]].
  - apply IH; [done | done |]. intros a b Ha Hb. apply Hx; [by right | done].
Qed.
Lemma log_rising ops : forall f, rising (log ops f) /\ (forall e, e ∈ log ops f -> cycle_of (en_name e) f < en_cycle e /\ PyStr.contains 0x3B (en_name e) = false).
Proof.
  induction ops as [|o ops IH]; intros f; cbn [log]; [split; [done | by intros e ?%elem_of_nil]|].
  destruct (op_cycles o f) as [Hg He]. destruct (IH (run_op o f)) as [Hr Hl]. split.
  - apply rising_app; [|done|].
    + destruct o; cbn [added]; [|done|done]. repeat case_match; cbn; (try done).
      split; [by intros e' ?%elem_of_nil | done].
    + intros e e' Hin Hin' Hn. destruct (He e Hin) as (_ & Hc & _). destruct (Hl e' Hin') as [Hlt _]. rewrite Hn in Hlt. lia.
  - intros e [Hin|Hin]%elem_of_app.
    + destruct (He e Hin) as (Hc & _ & Hn). split; [lia | done].
    + destruct (Hl e Hin) as [Hc Hn]. split; [|done]. specialize (Hg (en_name e)). lia.
Qed.

(** *** Trees, at the end *)

Definition tag_entry (tag : str * str * Z) (e : entry) : Prop :=
  e = mkEntry (s_ "TTree") tag.1.1 tag.1.2 (en_payload e) tag.2.
(** The entry of a tree whose baskets are all in the file: its name, title and
    cycle, and its record. *)
Definition tree_entry (codes : Z) (tr : WritableTree) (e : entry) : Prop :=
  exists keylen payload, _keylen (s_ "TTree") (wt_name tr) (wt_title tr) 0 = Ok keylen /\ tree_payload tr codes keylen = Ok payload
    /\ e = mkEntry (s_ "TTree") (wt_name tr) (wt_title tr) payload (wt_cycle tr).

(** Computations that leave the other trees alone. *)
Definition only {A} (t : nat) (c : st exn file A) : Prop := forall f t', t' <> t -> wf_trees (c f).1 !! t' = wf_trees f !! t'.
Lemma only_bind {A B} t (c : st exn file A) (k : A -> st exn file B) : only t c -> (forall a, only t (k a)) -> only t (c ≫= k).
Proof.
  intros Hc Hk f t' Ht. unfold mbind, st_bind. specialize (Hc f t' Ht). destruct (c f) as [f1 [a|e]]; [|done]. cbn in Hc. rewrite <- Hc. by apply Hk.
Qed.
Lemma only_put t cls name title payload cycle listed packed extra : only t (_put (G := G) codecs cls name title payload cycle listed packed extra).
Proof. intros f t' _. destruct (_put _ _ _ _ _ _ _ _ _ f) as [f' r] eqn:E. apply put_grows in E as (_ & T & _). cbn. by rewrite T. Qed.
Lemma only_flush t name : only t (_flush (G := G) codecs t name).
Proof.
  intros f t' Ht. unfold _flush. destruct (the_column t name f) as [c|]; [|done]. case_goal; [done|].
  match goal with |- wf_trees (?c f).1 !! _ = _ => apply (fun H : only t c => H f t' Ht) end.
  apply only_bind; [by intros ? ? _|]. intros keylen. apply only_bind; [by intros ? ? _|]. intros extra.
  apply only_bind; [apply only_put|]. intros [seek nbytes] f1 t1 Ht1. cbn. by apply list_lookup_alter_ne.
Qed.
Lemma only_each t (fn : str -> st exn file unit) l : (forall n, only t (fn n)) -> only t (each_name fn l).
Proof. intros Hfn. induction l as [|n l IH]; [by intros ? ? _|]. cbn. apply only_bind; [done|]. by intros _. Qed.

(** The record of tree [t] is [e]'s payload. *)
Definition record_of (f : file) (t : nat) (e : entry) : Prop :=
  exists tr keylen, wf_trees f !! t = Some tr /\ _keylen (s_ "TTree") (wt_name tr) (wt_title tr) 0 = Ok keylen
    /\ tree_payload tr (_codes f) keylen = Ok (en_payload e).

Lemma inv_finish t f f' es tag : tags f !! t = Some tag -> Inv f es -> _finish codecs t f = (f', Ok tt) ->
  exists e, tag_entry tag e /\ Inv f' (es ++ [e]) /\ tags f' = tags f /\ same_file f f' /\ record_of f' t e
    /\ forall t', t' <> t -> wf_trees f' !! t' = wf_trees f !! t'.
Proof.
  intros Ht I. unfold _finish. destruct (wf_trees f !! t) as [tr|]; [|done]. intros (f1 & [] & H1 & H2)%st_bind_ok.
  pose proof (calms_each (_flush codecs t) (dict_keys (wt_columns tr)) (calms_flush t) f) as (C & T & _). rewrite H1 in C, T. cbn [fst] in C, T.
  pose proof (only_each t _ (dict_keys (wt_columns tr)) (only_flush t) f) as O. rewrite H1 in O. cbn [fst] in O.
  assert (I1 : Inv f1 es) by (eapply inv_calm; [exact I | exact C | rewrite T; exact (inv_trees _ _ I)]).
  unfold put_tree in H2. destruct (wf_trees f1 !! t) as [tr1|] eqn:E1; [|done]. apply st_bind_ok in H2 as (f2 & kl & H3 & H2).
  unfold lift in H3. injection H3 as <- Hkl. apply st_bind_ok in H2 as (f2 & payload & H4 & H2). unfold lift in H4. injection H4 as <- Hp.
  apply st_bind_ok in H2 as (f3 & [seek nbytes] & H5 & H2). injection H2 as <-.
  assert (Hg : tags f1 !! t = Some (wt_name tr1, wt_title tr1, wt_cycle tr1)) by (unfold tags; rewrite list_lookup_fmap, E1; done).
  rewrite T, Ht in Hg. injection Hg as ->.
  destruct (inv_trees _ _ I1 (wt_name tr1) (wt_title tr1) (wt_cycle tr1)) as [Kn Kt]; [rewrite T; by eapply list_elem_of_lookup_2|].
  pose proof H5 as (_ & W5 & _)%put_grows. apply (inv_listed _ _ _ _ _ _ _ es) in H5 as (I2 & T2 & U2); [|done..].
  eexists. split_and!; [|exact I2 | by rewrite T2, T | exact (same_trans _ _ _ (calm_same _ _ C) U2) | | intros t' Hn; rewrite W5; by apply O]; [done|].
  exists tr1, kl. rewrite W5. split_and!; [done | done |]. unfold _codes. by rewrite (same_algorithm _ _ U2), (same_level _ _ U2).
Qed.

Lemma inv_finish_all n : forall t f f' es, Inv f es -> (t + n <= length (tags f))%nat -> finish_all codecs t n f = (f', Ok tt) ->
  exists ts, Forall2 tag_entry (take n (drop t (tags f))) ts /\ Inv f' (es ++ ts) /\ same_file f f' /\ tags f' = tags f
    /\ (forall i e, ts !! i = Some e -> record_of f' (t + i) e) /\ forall t', (t' < t)%nat -> wf_trees f' !! t' = wf_trees f !! t'.
Proof.
  induction n as [|n IH]; intros t f f' es I Hl; cbn [finish_all].
  - intros [= <-]. exists []. rewrite app_nil_r. split_and!; [constructor | done | done | done | done | done].
  - intros (f1 & [] & H1 & H2)%st_bind_ok. destruct (tags f !! t) as [tag|] eqn:Et; [|apply lookup_ge_None in Et; lia].
    destruct (inv_finish t f f1 es tag Et I H1) as (e & He & I1 & T1 & U1 & R1 & O1). rewrite (drop_S _ tag) by done. cbn [take].
    rewrite <- T1 in Hl |- *. destruct (IH (S t) f1 f' _ I1 ltac:(lia) H2) as (ts & Hts & I2 & U2 & T2 & R2 & O2). exists (e :: ts).
    split_and!; [by constructor | by rewrite <- app_assoc in I2 | exact (same_trans _ _ _ U1 U2) | done | |].
    + intros [|i] x; cbn; [intros [= <-]|intros Hx; rewrite Nat.add_succ_r; by apply R2]. rewrite Nat.add_0_r.
      destruct R1 as (tr & kl & E1 & Ek & E2). exists tr, kl. rewrite O2 by lia. split_and!; [done | done |]. unfold _codes. by rewrite (same_algorithm _ _ U2), (same_level _ _ U2).
    + intros t' Ht. rewrite O2 by lia. apply O1. lia.
Qed.

(** *** The head of the file *)

(** The header, as far as it is read. *)
Definition first_bytes (nname codes end_at seek_free nfree seek_info nbytes_info : Z) : bytes :=
  b_ "root" ++ be_enc 4 Winfo.WRITER_VERSION ++ be_enc 4 BEGIN
  ++ be_enc 4 end_at ++ be_enc 4 seek_free ++ be_enc 4 nfree ++ be_enc 4 1 ++ be_enc 4 nname ++ be_enc 1 4
  ++ be_enc 4 codes ++ be_enc 4 seek_info ++ be_enc 4 nbytes_info.
(** The directory record, and what is behind it. *)
Definition directory_bytes (datime nname nbytes_keys seek_keys : Z) : bytes :=
  be_enc 2 5 ++ be_enc 4 datime ++ be_enc 4 datime ++ be_enc 4 nbytes_keys ++ be_enc 4 nname ++ be_enc 4 BEGIN ++ be_enc 4 0 ++ be_enc 4 seek_keys.

Lemma directory_zlen datime nname nbytes_keys seek_keys : zlen (directory_bytes datime nname nbytes_keys seek_keys) = 30.
Proof. unfold directory_bytes. rewrite !zlen_app, !be_enc_zlen. done. Qed.

Lemma head_written (f : file) es keylen nbytes_keys seek_keys b : Inv f es ->
  built (head_bytes f keylen nbytes_keys seek_keys) = Ok b ->
  exists pre post, b = pre ++ directory_bytes (wf_datime f) (wf_nname f) nbytes_keys seek_keys ++ post
    /\ zlen pre = wf_nname f /\ zlen post = 30 /\ is_i32 nbytes_keys = true /\ is_i32 seek_keys = true /\ 0 <= wf_datime f < 4294967296
    /\ is_i32 (wf_nname f) = true.
Proof.
  intros I Hb. destruct (keyed_string _ (inv_label _ _ I)) as (Tl & Ll & _). unfold head_bytes in Hb.
  destruct (wrote_key (wf_nname f + 60) (wf_nname f - keylen + 60) (wf_datime f) keylen 1 BEGIN 0 (s_ "TFile") (wf_label f) []) as (kb & Hk & Lk);
    [done..|].
  eapply wrote_built in Hb; [|eapply wrote_bind; [exact Hk|]; do 2 (eapply wrote_bind; [apply wrote_string; first [assumption | reflexivity]|]);
    eapply wrote_bind; [apply wrote_u16|]; do 2 (eapply wrote_bind; [apply wrote_u32|]); do 5 (eapply wrote_bind; [apply wrote_i32|]);
    eapply wrote_bind; [apply wrote_u16|]; eapply wrote_bind; apply wrote_raw].
  destruct Hb as (-> & _ & _ & _ & _ & Hd & _ & Hn & Hnn & _ & _ & Hs & _).
  exists (kb ++ string_bytes (wf_label f) ++ string_bytes []), (be_enc 2 1 ++ wf_uuid f ++ replicate 12 x00). split_and!.
  - unfold directory_bytes. by rewrite <- !app_assoc.
  - rewrite !zlen_app, Lk, (inv_nname _ _ I), Ll. change (zlen (string_bytes (s_ "TFile"))) with 6. change (zlen (string_bytes [])) with 1. lia.
  - rewrite !zlen_app, be_enc_zlen, (inv_uuid _ _ I). done.
  - done.
  - done.
  - lia.
  - lia.
  - done.
Qed.

Lemma header_written (f : file) end_at seek_free nfree seek_info nbytes_info b :
  built (header_bytes f end_at seek_free nfree seek_info nbytes_info) = Ok b ->
  b = be_enc 4 end_at ++ be_enc 4 seek_free ++ be_enc 4 nfree ++ be_enc 4 1 ++ be_enc 4 (wf_nname f) ++ be_enc 1 4
      ++ be_enc 4 (_codes f) ++ be_enc 4 seek_info ++ be_enc 4 nbytes_info
  /\ forallb is_i32 [end_at; seek_free; nfree; 1; wf_nname f; _codes f; seek_info; nbytes_info] = true.
Proof.
  intros Hb. unfold header_bytes in Hb.
  eapply wrote_built in Hb; [|eapply wrote_bind; [apply wrote_each, wrote_i32|]; eapply wrote_bind; [apply wrote_u8 | apply wrote_each, wrote_i32]].
  destruct Hb as (-> & H1 & _ & H2). split; [cbn [fmap list_fmap concat]; by rewrite <- !app_assoc|].
  cbn [forallb]. rewrite !andb_true_iff. split_and!; (try done);
    first [apply H1; solve [repeat (first [apply list_elem_of_here | apply list_elem_of_further])]
          |apply H2; solve [repeat (first [apply list_elem_of_here | apply list_elem_of_further])]].
Qed.

Lemma patch_middle (pre old post b : bytes) i : length pre = i -> length b = length old -> patch i b (pre ++ old ++ post) = pre ++ b ++ post.
Proof.
  intros <- Hl. unfold patch. rewrite take_app_length, drop_app_add, Hl, drop_app_length. done.
Qed.

(** The four patches of an empty head. *)
Lemma patched (b12 b33 b18 head tail : bytes) n : length b12 = 12%nat -> length b33 = 33%nat -> length b18 = 18%nat -> length head = n ->
  patch 45 b18 (patch 12 b33 (patch 0 b12 (patch 100 head (replicate (100 + n) x00 ++ tail))))
  = (b12 ++ b33) ++ (b18 ++ replicate 37 x00) ++ head ++ tail.
Proof.
  intros H12 H33 H18 Hn. replace (replicate (100 + n) x00) with
    (replicate 12 x00 ++ replicate 33 x00 ++ replicate 18 x00 ++ replicate 37 x00 ++ replicate n x00) by (rewrite <- !replicate_add; f_equal).
  rewrite <- !app_assoc.
  replace (replicate 12 x00 ++ replicate 33 x00 ++ replicate 18 x00 ++ replicate 37 x00 ++ replicate n x00 ++ tail)
    with ((replicate 12 x00 ++ replicate 33 x00 ++ replicate 18 x00 ++ replicate 37 x00) ++ replicate n x00 ++ tail) by (by rewrite <- !app_assoc).
  rewrite (patch_middle _ (replicate n x00)) by (rewrite ?length_replicate; done). rewrite <- !app_assoc.
  match goal with |- context [patch 0 b12 ?d] => change (patch 0 b12 d) with (patch 0 b12 ([] ++ d)) end.
  rewrite (patch_middle [] (replicate 12 x00)) by (rewrite ?length_replicate; done). cbn [app].
  rewrite (patch_middle b12 (replicate 33 x00)) by (rewrite ?length_replicate; done). rewrite (app_assoc b12 b33).
  rewrite (patch_middle (b12 ++ b33) (replicate 18 x00)) by (rewrite ?length_replicate, ?length_app; lia). by rewrite <- !app_assoc.
Qed.

(** ** What [close] writes out *)

(** The file that is written: its head, then the records, the last of them the
    streamer information and the key list. *)
Record assembled (f : file) (D : bytes) : Prop := {
  as_parts : exists tail info ki hi bi kk hk keylist more first mid post,
    wf_data f = replicate (Z.to_nat (base f)) x00 ++ tail
    /\ let at_info := base f + zlen tail in
       let at_keys := at_info + zlen (hi ++ bi) in
       D = (first ++ mid ++ directory_bytes (wf_datime f) (wf_nname f) (zlen hk + zlen keylist) at_keys ++ post)
           ++ tail ++ (hi ++ bi) ++ (hk ++ keylist) ++ more
       /\ (exists end_at seek_free nfree, first = first_bytes (wf_nname f) (_codes f) end_at seek_free nfree at_info (zlen hi + zlen bi)
             /\ forallb is_i32 [end_at; seek_free; nfree; 1; wf_nname f; _codes f; at_info; zlen hi + zlen bi] = true)
       /\ zlen (first ++ mid) = BEGIN + wf_nname f /\ zlen post = 30
       /\ is_i32 (zlen hk + zlen keylist) = true /\ is_i32 at_keys = true /\ 0 <= wf_datime f < 4294967296
       /\ _streamers (dict_keys (wf_used f)) = Ok info
       /\ recorded codecs (wf_datime f) (mkEntry (s_ "TList") (s_ "StreamerInfo") (s_ "Doubly linked list") info 1) at_info ki hi bi
       /\ recorded codecs (wf_datime f) (mkEntry (s_ "TFile") (wf_label f) [] keylist 1) at_keys kk hk keylist
       /\ zlen hi = 64 /\ 26 < zlen hk
       /\ keylist = be_enc 4 (zlen (wf_keys f)) ++ concat (wf_keys f) /\ is_i32 (zlen (wf_keys f)) = true
}.

(** The steps of closing, one by one. *)
Record steps (f f' f1 f2 f3 : file) (info keylist head b33 : bytes) (seek_info nbytes_info seek_keys nbytes_keys keylen : Z) : Prop := {
  st_info : _streamers (dict_keys (wf_used f)) = Ok info;
  st_put1 : _put codecs (s_ "TList") (s_ "StreamerInfo") (s_ "Doubly linked list") info 1 false true [] f = (f1, Ok (seek_info, nbytes_info));
  st_keylist : built (i32 (zlen (wf_keys f)) ≫= fun _ => each raw (wf_keys f)) = Ok keylist;
  st_put2 : _put codecs (s_ "TFile") (wf_label f) [] keylist 1 false false [] f1 = (f2, Ok (seek_keys, nbytes_keys));
  st_put3 : exists free z, _put codecs (s_ "TFile") (wf_label f) [] free 1 false false [] f2 = (f3, Ok z);
  st_head : built (head_bytes f keylen nbytes_keys seek_keys) = Ok head;
  st_header : built (header_bytes f (zlen (wf_data f2) + keylen + 10) (zlen (wf_data f2)) (keylen + 10) seek_info nbytes_info) = Ok b33;
  st_same : same_file f3 f';
  st_data : exists b18, length b18 = 18%nat /\ wf_data f' = patch 45 b18 (patch 12 b33 (patch 0
    (b_ "root" ++ be_enc 4 Winfo.WRITER_VERSION ++ be_enc 4 BEGIN) (patch 100 head (wf_data f3))))
}.

Lemma assemble_steps f f' : assemble_rest codecs f = (f', Ok tt) ->
  exists f1 f2 f3 info keylist head b33 a b c d e, steps f f' f1 f2 f3 info keylist head b33 a b c d e.
Proof.
  unfold assemble_rest. intros (f0 & info & H1 & H)%st_bind_ok. unfold lift in H1. injection H1 as <- Hinfo.
  apply st_bind_ok in H as (f1 & [seek_info nbytes_info] & P1 & H). apply st_bind_ok in H as (f1' & keylist & H2 & H). injection H2 as <- Hkl.
  apply st_bind_ok in H as (f2 & [seek_keys nbytes_keys] & P2 & H). apply st_bind_ok in H as (f2' & seek_free & H3 & H). injection H3 as <- <-.
  apply st_bind_ok in H as (f2' & label & H4 & H). injection H4 as <- _. cbv zeta in H.
  apply st_bind_ok in H as (f2' & free & H5 & H). injection H5 as <- _. apply st_bind_ok in H as (f3 & z & P3 & H).
  unfold patch_with in H. apply st_bind_ok in H as (f4 & [] & Q1 & H). apply st_bind_ok in Q1 as (f3' & head & Q0 & Q1). injection Q0 as <- Hhead. injection Q1 as <-.
  apply st_bind_ok in H as (f5 & [] & Q1 & H). apply st_bind_ok in Q1 as (f3' & b12 & Q0 & Q1).
  assert (H12 : b12 = b_ "root" ++ be_enc 4 Winfo.WRITER_VERSION ++ be_enc 4 BEGIN) by (injection Q0 as _ <-; reflexivity).
  injection Q0 as <- _. injection Q1 as <-.
  apply st_bind_ok in H as (f6 & [] & Q1 & H). apply st_bind_ok in Q1 as (f3' & b33 & Q0 & Q1). injection Q0 as <- H33. injection Q1 as <-.
  apply st_bind_ok in H as (f3' & b18 & Q0 & Q1). injection Q0 as <- H18. injection Q1 as <-.
  exists f1, f2, f3, info, keylist, head, b33, seek_info, nbytes_info, seek_keys, nbytes_keys, (34 + label). split; try done.
  - by exists free, z.
  - exists b18. split; [|by rewrite H12]. rewrite <- H18. cbn [length]. unfold sixteen. rewrite length_take, length_app, length_replicate. lia.
Qed.

Lemma base_nat (f : file) es : Inv f es -> (100 + Z.to_nat (wf_nname f + 60))%nat = Z.to_nat (base f).
Proof.
  intros I. unfold base, BEGIN. pose proof (zlen_nonneg (text_bytes (wf_label f))). rewrite (inv_nname _ _ I). lia.
Qed.

Lemma assemble_shape f f' es : Inv f es -> assemble_rest codecs f = (f', Ok tt) -> same_file f f' /\ assembled f (wf_data f').
Proof.
  intros I (f1 & f2 & f3 & info & keylist & head & b33 & si & ni & sk & nk & kl & [S1 P1 S2 P2 (free & z & P3) S3 S4 S5 (b18 & L18 & S6)])%assemble_steps.
  pose proof P1 as (SF1 & _)%put_grows. pose proof P2 as (SF2 & _)%put_grows. pose proof P3 as (SF3 & _ & (more & D3) & _)%put_grows.
  pose proof (same_trans _ _ _ SF1 SF2) as SF. split; [eapply same_trans; [exact SF|]; by eapply same_trans|].
  apply (put_spec _ laws) in P1 as (ki & hi & bi & Esi & Eni & Li & Ri & D1 & _); [|done..].
  apply (put_spec _ laws) in P2 as (kk & hk & bk & Esk & Enk & Lk & Rk & D2 & _ & Ebk); [|done | exact (inv_label _ _ I) | done].
  rewrite Ebk in * by done. rewrite (same_datime _ _ SF1) in Rk. destruct (inv_data _ _ I) as [tail Hd].
  destruct (head_written f es _ _ _ _ I S3) as (pre & post & -> & Lpre & Lpost & N1 & N2 & N3 & _).
  apply header_written in S4 as [-> N4]. apply (wrote_built _ _ _ _ (wrote_bind _ _ _ _ _ _ (wrote_i32 _) (wrote_each _ id _ _ wrote_raw))) in S2 as [-> [N5 _]].
  rewrite list_fmap_id in *. set (keylist := be_enc 4 _ ++ concat (wf_keys f)) in *.
  assert (Hbase : zlen (wf_data f) = base f + zlen tail).
  { rewrite Hd, zlen_app. f_equal. unfold zlen. rewrite length_replicate. unfold base. rewrite (inv_nname _ _ I). pose proof (zlen_nonneg (text_bytes (wf_label f))).
    unfold BEGIN in *. lia. }
  assert (Esi' : si = base f + zlen tail) by congruence. assert (Esk' : sk = base f + zlen tail + zlen (hi ++ bi)) by (rewrite Esk, D1, zlen_app; lia).
  set (dl := zlen (wf_data f2)) in *. constructor.
  exists tail, info, ki, hi, bi, kk, hk, keylist, more, (first_bytes (wf_nname f) (_codes f) (dl + kl + 10) dl (kl + 10) si ni), ((b18 ++ replicate 37 x00) ++ pre), post.
  split; [exact Hd|]. cbv zeta. rewrite <- Esk', <- Esi', <- Eni, <- Enk. split_and!; [| |  | done | done | done | lia | lia | exact S1 | exact Ri | exact Rk | by rewrite Li | | done | done].
  - rewrite S6, D3, D2, D1, Hd, <- !app_assoc. rewrite <- (base_nat f es I). rewrite patched.
    + unfold first_bytes. by rewrite <- !app_assoc.
    + done.
    + done.
    + done.
    + apply Nat2Z.inj. change (zlen (pre ++ directory_bytes (wf_datime f) (wf_nname f) nk sk ++ post) = Z.of_nat (Z.to_nat (wf_nname f + 60))).
      rewrite !zlen_app, Lpre, Lpost. rewrite directory_zlen, (inv_nname _ _ I). pose proof (zlen_nonneg (text_bytes (wf_label f))). lia.
  - exists (dl + kl + 10), dl, (kl + 10). split; [reflexivity | exact N4].
  - rewrite !zlen_app, Lpre. unfold first_bytes, BEGIN. rewrite !zlen_app, !be_enc_zlen. unfold zlen. rewrite L18, length_replicate. cbn. lia.
  - rewrite Lk. change (zlen (string_bytes (s_ "TFile"))) with 6. pose proof (zlen_nonneg (string_bytes (wf_label f))).
    pose proof (zlen_nonneg (string_bytes [])). lia.
Qed.
End Writing.

(** ** From an empty file to a closed one *)

Section Whole.
Context {G W : Type} `{WriterEnv G W}.
Variable codecs : Compression.Codecs.
Hypothesis laws : CompressionProps.CodecLaws codecs.
Variable show : pyval -> str.
Variable wide : bool.

Lemma inv_init g name owned algorithm level w w' f : zlen (uuid4 w).2 = 16 ->
  WritableFile_init g name owned algorithm level w = (w', Ok f) -> Inv codecs g false f [] /\ tags f = [].
Proof.
  intros Hu. unfold WritableFile_init. destruct (match algorithm, level with Some _, _ => _ | _, _ => _ end) as [lv|]; [|done].
  destruct (uuid4 w) as [w1 u] eqn:E. intros [= <- Ei]. apply bind_ok_inv in Ei as (label & El & Ei). apply bind_ok_inv in Ei as (n & En & Ei).
  injection Ei as <-. unfold strict_len in En. destruct (utf8_encode label) as [b|] eqn:Eb; [|done]. injection En as <-.
  assert (Ht : is_text label = true) by (unfold is_text; apply bool_decide_eq_true; eauto).
  assert (Hx : text_bytes label = b) by (unfold text_bytes; by rewrite Eb).
  assert (label = last_part name) as Hlp by (unfold _checked in El; apply bind_ok_inv in El as (k & _ & El); by destruct (254 <? k); [|injection El]).
  split; [|done]. split; cbn [wf_handle wf_closed wf_label wf_nname wf_uuid wf_data wf_keys]; [done | done | | rewrite Hx; lia | done | | constructor |].
  - rewrite <- Hlp in El. by eapply checked_keyed.
  - exists []. by rewrite app_nil_r.
  - unfold tags. cbn. by intros n t c ?%elem_of_nil.
Qed.

Lemma inv_close (g : G) (f : WritableFile G) es : Inv codecs g false f es -> Inv codecs g true (set_closed f) es.
Proof. intros [Ih Ic I1 I2 I3 I4 I5 I6]. by split. Qed.

(** What closing hands to the file is the file assembled from what was put in,
    the trees behind the objects. *)
Lemma close_writes g f es w f' w' : Inv codecs g false f es -> close codecs (f, w) = ((f', w'), Ok tt) ->
  exists f1 D ts w1, Inv codecs g true f1 (es ++ ts) /\ (tags f1 = tags f /\ Forall2 (tree_entry (_codes f)) (wf_trees f1) ts) /\ assembled codecs f1 D /\ wf_used f1 = wf_used f /\ _codes f1 = _codes f
    /\ wh_write g D w = (w1, Ok tt) /\ finish_all codecs 0 (length (wf_trees f)) (set_closed f) = (f1, Ok tt)
    /\ forall i e, ts !! i = Some e -> record_of f1 i e.
Proof.
  intros I Hc. unfold close in Hc. cbn [fst] in Hc. rewrite (inv_closed _ _ _ _ _ I) in Hc.
  match type of Hc with (let (_, _) := ?x in _) = _ => destruct x as [[f2 w2] r] eqn:Er end.
  destruct (let_go _) as [[f3 w3] [[]|e]]; [|done]. injection Hc as _ _ ->.
  apply st_bind_ok in Er as ([fa wa] & [] & E0 & Er). injection E0 as <- <-.
  apply st_bind_ok in Er as ([fb wb] & [] & E1 & Er). unfold on_file in E1. cbn [fst snd] in E1.
  destruct (_assemble codecs (set_closed f)) as [f1 r1] eqn:Ea. injection E1 as <- <- ->.
  apply st_bind_ok in Er as ([fc wc] & [] & E2 & _). unfold write_out, on_world in E2. cbn [fst snd] in E2.
  unfold _assemble in Ea. apply st_bind_ok in Ea as (fz & n & Ez & Ea). injection Ez as <- <-.
  apply st_bind_ok in Ea as (ft & [] & Ef & Ea). pose proof (inv_close _ _ _ I) as I1.
  destruct (inv_finish_all codecs laws g true (length (wf_trees (set_closed f))) 0 _ _ _ I1 ltac:(unfold tags; rewrite length_fmap; lia) Ef) as (ts & Hts & I2 & U2 & T2 & R2 & _).
  assert (Uf : wf_used ft = wf_used f) by exact (same_used _ _ U2).
  assert (Cf : _codes ft = _codes f) by (unfold _codes; rewrite (same_algorithm _ _ U2), (same_level _ _ U2); done).
  destruct (assemble_shape codecs laws g true ft f1 _ I2 Ea) as [S A]. exists ft, (wf_data f1), ts.
  rewrite drop_0, take_ge in Hts by (unfold tags; rewrite length_fmap; cbn; lia).
  assert (Ht : tags ft = tags f /\ Forall2 (tree_entry (_codes f)) (wf_trees ft) ts).
  { split; [exact T2|]. apply Forall2_same_length_lookup_2.
    - apply Forall2_length in Hts. rewrite <- Hts, <- T2. unfold tags. by rewrite length_fmap.
    - intros i tr e Htr He. destruct (R2 i e He) as (tr1 & kl & E3 & Ek & Ep). rewrite Nat.add_0_l, Htr in E3. injection E3 as <-.
      exists kl, (en_payload e). rewrite <- Cf. split_and!; [done | done|].
      assert (Htag : tags (set_closed f) !! i = Some (wt_name tr, wt_title tr, wt_cycle tr)) by (rewrite <- T2; unfold tags; by rewrite list_lookup_fmap, Htr).
      exact (Forall2_lookup_lr _ _ _ _ _ _ Hts Htag He). }
  rewrite (same_handle _ _ S), (inv_handle _ _ _ _ _ I2) in E2. destruct (wh_write g (wf_data f1) w) as [w4 [[]|e]]; [|done]. by exists w4.
Qed.
End Whole.
End RootContainer.
