(* ===== verification/RootRoundTrip.v ===== *)
(** * What was written reads back

    The file written by [close] (RootWriter) opened by [ROOTFile_init]
    (RootFile): the keys are the objects, in the order they were written, the
    payload of each is the bytes it was written as, and the streamer
    information describes the classes that were used. *)

From S2P Require Import Prelude PyStr Errors Buffer Url UrlText Compression CompressionProps RootBuffer RootFile Winfo RootPack RootEncoding RootInfos RootWriter RootContainer.
Open Scope Z_scope.

Module RootRoundTrip.
Module R := RootBuffer.
Import RootFile RootEncoding RootContainer.

(** ** Header fields *)

Definition fits (n : nat) (v : Z) : Prop := (0 < n)%nat /\ - 2 ^ (8 * Z.of_nat n - 1) <= v < 2 ^ (8 * Z.of_nat n - 1).

Lemma fields_enc ws vs : Forall2 fits ws vs -> forall pre rest,
  fields_at ws (length pre) (pre ++ concat (zip_with be_enc ws vs) ++ rest) = vs.
Proof.
  induction 1 as [|n v ws vs [Hn Hv] _ IH]; intros pre rest; [done|]. cbn [fields_at zip_with concat]. rewrite drop_app_length, <- app_assoc.
  rewrite (take_app_length' (be_enc n v)) by (by rewrite be_enc_length). f_equal; [by apply unpack_i_enc|].
  replace (length pre + n)%nat with (length (pre ++ be_enc n v)) by (by rewrite length_app, be_enc_length).
  rewrite (app_assoc pre). apply IH.
Qed.
Lemma fits_i32 v : is_i32 v = true -> fits 4 v.
Proof. unfold is_i32, fits. intros. zbool. cbn. lia. Qed.

Section Reading.
Context {H X W : Type} `{RootEnv H X W}.
Variable codecs : Compression.Codecs.
Variable h : H.
Variable D : bytes.
Variable pid : Z.
Variable alive : W -> Prop.

(** An open file that holds [D], in the process that opened it. *)
Definition serves : Prop := forall w off n, alive w -> 0 <= off -> 0 <= n -> off + n <= zlen D ->
  getpid w = pid /\ exists w1 w2, rh_seek h off w = (w1, Ok tt) /\ alive w2
    /\ rh_read h n w1 = (w2, Ok (take (Z.to_nat n) (drop (Z.to_nat off) D))).
Hypothesis Hserves : serves.

(** A source over it. *)
Definition over_it (so : Source H) : Prop := so_handle so = h /\ so_pid so = pid.

Lemma read_part so w pre b post off n : over_it so -> alive w -> D = pre ++ b ++ post -> off = zlen pre -> n = zlen b ->
  exists w', read off n (so, w) = ((so, w'), Ok b) /\ alive w'.
Proof.
  intros [Hh Hp] Ha HD -> ->. destruct (Hserves w (zlen pre) (zlen b) Ha) as (Hpid & w1 & w2 & H1 & Ha2 & H2).
  { apply zlen_nonneg. } { apply zlen_nonneg. } { rewrite HD, !zlen_app. pose proof (zlen_nonneg post). lia. }
  exists w2. split; [|done]. unfold read, on_handle. rewrite st_bind_eq. cbn [fst snd]. rewrite Hp, Hpid, Z.eqb_refl.
  rewrite st_bind_eq. cbn [fst snd]. rewrite Hh, H1, st_bind_eq. cbn [fst snd]. rewrite Hh, H2, HD.
  replace (Z.to_nat (zlen pre)) with (length pre) by (unfold zlen; lia). replace (Z.to_nat (zlen b)) with (length b) by (unfold zlen; lia).
  rewrite drop_app_length, take_app_length, Z.eqb_refl. done.
Qed.

(** The payload of a record. *)
Lemma payload_back so w dt e seek k hd body pre post : over_it so -> alive w -> recorded codecs dt e seek k hd body ->
  D = pre ++ (hd ++ body) ++ post -> zlen pre = seek ->
  exists w', payload codecs k (so, w) = ((so, w'), Ok (en_payload e)) /\ alive w'.
Proof.
  intros Hs Ha [Hr -> Hb] HD Hp. destruct (read_part so w (pre ++ hd) body post (seek + zlen hd) (zlen body)) as (w' & H1 & H2); [done | done | | | done |].
  { by rewrite HD, <- !app_assoc. } { rewrite zlen_app. lia. }
  exists w'. split; [|done]. unfold payload, compressed. rewrite st_bind_eq. cbn [k_seek_key k_keylen k_nbytes k_objlen].
  replace (zlen hd + zlen body - zlen hd) with (zlen body) by lia. rewrite H1. destruct Hb as [-> | [Hl Hd]].
  - by rewrite Z.eqb_refl.
  - replace (zlen (en_payload e) =? zlen body) with false by (symmetry; apply Z.eqb_neq; lia). cbn [negb]. unfold lift. by rewrite Hd.
Qed.

(** A key that shows [e]: what it says, and what reading it gives. *)
Record shows (e : entry) (k : Key) : Prop := {
  sh_class : k_classname k = en_class e; sh_name : k_name k = en_name e; sh_title : k_title k = en_title e; sh_cycle : k_cycle k = en_cycle e;
  sh_payload : forall so w, over_it so -> alive w -> exists w', payload codecs k (so, w) = ((so, w'), Ok (en_payload e)) /\ alive w'
}.

Context {G : Type}.
Variable f : RootWriter.WritableFile G.
Variable es : list entry.
Variable g : G.
Variable closed : bool.
Hypothesis I : Inv codecs g closed f es.

Lemma recorded_shows dt e seek k hd body pre post : recorded codecs dt e seek k hd body -> D = pre ++ (hd ++ body) ++ post -> zlen pre = seek -> shows e k.
Proof.
  intros Hr HD Hp. pose proof (rec_key _ _ _ _ _ _ _ Hr) as E. split; try (rewrite E; done).
  intros so w Hs Ha. by eapply payload_back.
Qed.

(** What is behind the head is where it was. *)
Lemma relocated head tail rest pre b post : RootWriter.wf_data f = replicate (Z.to_nat (base f)) x00 ++ tail -> zlen head = base f -> D = head ++ tail ++ rest ->
  RootWriter.wf_data f = pre ++ b ++ post -> base f <= zlen pre -> exists pre', D = pre' ++ b ++ (post ++ rest) /\ zlen pre' = zlen pre.
Proof.
  intros Hd Hh HD Hp Hb. rewrite Hd in Hp. assert (Hpre : exists pre', pre = replicate (Z.to_nat (base f)) x00 ++ pre').
  { apply app_eq_inv in Hp as [(l & Hl1 & Hl2)|(l & -> & Hl2)]; [|by exists l]. exists []. rewrite app_nil_r.
    assert (zlen l = 0). { apply (f_equal zlen) in Hl1. rewrite zlen_app in Hl1. unfold zlen in Hl1 at 1. rewrite length_replicate in Hl1. pose proof (zlen_nonneg l). pose proof (zlen_nonneg pre). unfold base, RootPack.BEGIN in *. lia. }
    destruct l; [by rewrite Hl1, app_nil_r | rewrite zlen_cons in *; pose proof (zlen_nonneg l); lia]. }
  destruct Hpre as [pre' ->]. rewrite <- app_assoc in Hp. apply app_inv_head in Hp. exists (head ++ pre'). split.
  - rewrite HD, Hp, <- !app_assoc. reflexivity.
  - rewrite !zlen_app, Hh. f_equal. unfold zlen. rewrite length_replicate.
    unfold base, RootPack.BEGIN. rewrite (inv_nname _ _ _ _ _ I). pose proof (zlen_nonneg (text_bytes (RootWriter.wf_label f))). lia.
Qed.
Lemma kept_shows head tail rest e hd : RootWriter.wf_data f = replicate (Z.to_nat (base f)) x00 ++ tail -> zlen head = base f -> D = head ++ tail ++ rest ->
  kept codecs f e hd -> exists k, shows e k /\ forall V p, reads (V := V) p Key_init hd k.
Proof.
  intros Hd Hh HD (seek & k & body & pre & post & Hr & Hp & Hl & Hb). exists k. split; [|exact (rec_reads _ _ _ _ _ _ _ Hr)].
  destruct (relocated head tail rest pre (hd ++ body) post Hd Hh HD Hp ltac:(lia)) as (pre' & HD' & Hl').
  apply (recorded_shows _ _ _ _ _ _ pre' (post ++ rest) Hr HD'). congruence.
Qed.

Lemma all_shown head tail rest : RootWriter.wf_data f = replicate (Z.to_nat (base f)) x00 ++ tail -> zlen head = base f -> D = head ++ tail ++ rest ->
  exists kbs : list (bytes * Key), kbs.*1 = RootWriter.wf_keys f /\ Forall2 shows es kbs.*2
    /\ (forall bk V p, bk ∈ kbs -> reads (V := V) p Key_init bk.1 bk.2).
Proof.
  intros Hd Hh HD. pose proof (inv_keys _ _ _ _ _ I) as HK. pose proof (fun e hd => kept_shows head tail rest e hd Hd Hh HD) as Hall. clear I. induction HK as [|e hd es' hds Hk _ (kbs & E & Hs & Hr)].
  - exists []. split_and!; [done | constructor |]. by intros bk V p ?%elem_of_nil.
  - destruct (Hall e hd Hk) as (k & Hks & Hkr). exists ((hd, k) :: kbs). cbn [fmap list_fmap fst snd].
    split_and!; [by f_equal | by constructor |]. intros bk V p [->|Hin]%elem_of_cons; [apply Hkr | by apply Hr].
Qed.

Definition with_info (so : Source H) (i : Z * Z) : Source H :=
  mkSource (so_handle so) (so_name so) (so_owned so) i (so_streamers so) (so_pid so) (so_reopen so) (so_inherited so).

Lemma directory_read so w pre post datime nname nbytes_keys seek_keys : over_it so -> alive w ->
  D = pre ++ RootContainer.directory_bytes datime nname nbytes_keys seek_keys ++ post -> 12 <= zlen post ->
  0 <= datime < 4294967296 -> is_i32 nname = true -> is_i32 nbytes_keys = true -> is_i32 seek_keys = true -> 0 < nbytes_keys -> 0 < seek_keys ->
  exists w', _directory_record (zlen pre) (so, w) = ((so, w'), Ok (seek_keys, nbytes_keys)) /\ alive w'.
Proof.
  intros Hs Ha HD Hl Hd Hn Hk Hs' P1 P2. set (dir := directory_bytes _ _ _ _) in *. assert (Ld : zlen dir = 30) by apply directory_zlen.
  destruct (read_part so w pre (dir ++ take 12 post) (drop 12 post) (zlen pre) 42) as (w' & H1 & H2); [done | done | | done | |].
  { by rewrite <- app_assoc, take_drop. } { rewrite zlen_app, Ld. unfold zlen in *. rewrite length_take. lia. }
  exists w'. split; [|done]. unfold _directory_record. rewrite st_bind_eq, H1. unfold lift. f_equal.
  assert (HR : reads (V := unit) 0 directory_fields dir (seek_keys, nbytes_keys)).
  { unfold directory_fields, dir, directory_bytes. eapply reads_bind; [by apply reads_u16|]. do 2 (eapply reads_bind; [by apply reads_u32|]).
    do 2 (eapply reads_bind; [by apply reads_i32|]). change (1000 <? 5) with false. cbv zeta iota.
    do 2 (eapply reads_bind; [by apply reads_i32|]). eapply reads_last; [by apply reads_i32|].
    replace ((seek_keys <=? 0) || (nbytes_keys <=? 0)) with false by (symmetry; apply orb_false_iff; split; apply Z.leb_gt; lia). apply reads_ret. }
  destruct (HR [] (take 12 post) 0 []) as [refs E]; [done|]. unfold over, R.Buffer_init. cbn [app] in E. by rewrite E.
Qed.

Lemma keys_read so w pre post kk hk (kbs : list (bytes * Key)) keylist : over_it so -> alive w -> D = pre ++ (hk ++ keylist) ++ post ->
  (forall V p, reads (V := V) p Key_init hk kk) -> keylist = be_enc 4 (zlen kbs) ++ concat kbs.*1 -> is_i32 (zlen kbs) = true ->
  (forall bk V p, bk ∈ kbs -> reads (V := V) p Key_init bk.1 bk.2) ->
  exists w', read_keys (zlen pre) (zlen hk + zlen keylist) (so, w) = ((so, w'), Ok kbs.*2) /\ alive w'.
Proof.
  intros Hs Ha HD Hk -> Hn Hr. destruct (read_part so w pre (hk ++ be_enc 4 (zlen kbs) ++ concat kbs.*1) post (zlen pre) (zlen hk + zlen (be_enc 4 (zlen kbs) ++ concat kbs.*1)))
    as (w' & H1 & H2); [done.. | by rewrite (zlen_app hk) |].
  exists w'. split; [|done]. unfold read_keys. rewrite st_bind_eq, H1. unfold lift. f_equal. apply reads_over.
  eapply reads_bind; [apply Hk|]. eapply reads_bind; [by apply reads_i32|]. replace (Z.to_nat (zlen kbs)) with (length kbs) by (unfold zlen; lia).
  apply (reads_times Key_init fst snd kbs). intros bk q Hin. by apply Hr.
Qed.

(** *** Opening *)

Lemma startswith_itself (pre l : bytes) : startswith pre (pre ++ l) = true.
Proof. induction pre as [|b pre IH]; [done|]. cbn. rewrite bool_decide_eq_true_2 by done. exact IH. Qed.

Lemma header_fields nname codes end_at seek_free nfree seek_info nbytes_info rest :
  forallb is_i32 [end_at; seek_free; nfree; 1; nname; codes; seek_info; nbytes_info] = true ->
  let header := first_bytes nname codes end_at seek_free nfree seek_info nbytes_info ++ rest in
  startswith MAGIC header = true /\ fields_at [4; 4]%nat 4 header = [Winfo.WRITER_VERSION; RootPack.BEGIN]
  /\ fields_at [4; 4; 4; 4; 4; 1; 4; 4; 4]%nat 12 header = [end_at; seek_free; nfree; 1; nname; 4; codes; seek_info; nbytes_info].
Proof.
  cbn [forallb]. rewrite !andb_true_iff. intros (N1 & N2 & N3 & N4 & N5 & N6 & N7 & N8 & _). cbv zeta. unfold first_bytes. split_and!.
  - rewrite <- app_assoc. apply startswith_itself.
  - set (rest' := be_enc 4 end_at ++ _) in *.
    assert (F : Forall2 fits [4; 4]%nat [Winfo.WRITER_VERSION; RootPack.BEGIN]) by (repeat (constructor; [by apply fits_i32|]); constructor).
    etrans; [|exact (fields_enc _ _ F (b_ "root") (rest' ++ rest))]. cbn [zip_with concat]. rewrite <- !app_assoc. reflexivity.
  - set (vs := [end_at; seek_free; nfree; 1; nname; 4; codes; seek_info; nbytes_info]).
    assert (F : Forall2 fits [4; 4; 4; 4; 4; 1; 4; 4; 4]%nat vs) by (repeat (constructor; [first [by apply fits_i32 | unfold fits; cbn; lia]|]); constructor).
    etrans; [|exact (fields_enc _ _ F (b_ "root" ++ be_enc 4 Winfo.WRITER_VERSION ++ be_enc 4 RootPack.BEGIN) rest)].
    unfold vs. cbn [zip_with concat]. rewrite <- !app_assoc. reflexivity.
Qed.

Lemma first_zlen nname codes end_at seek_free nfree seek_info nbytes_info :
  zlen (first_bytes nname codes end_at seek_free nfree seek_info nbytes_info) = 45.
Proof. unfold first_bytes. rewrite !zlen_app, !be_enc_zlen. done. Qed.

(** What the streamer information of the file reads as. *)
Definition describes (so : Source H) (w : W) : Prop := forall show depth, (2 <= depth)%nat ->
  exists w', read_streamers codecs show depth (so, w)
    = ((so, w'), Ok ((fun n => (n, RootInfos.members_of n)) <$> RootPack._closure (dict_keys (RootWriter.wf_used f)))) /\ alive w'.

Lemma streamers_used data : RootPack._streamers (dict_keys (RootWriter.wf_used f)) = Ok data ->
  forall n, n ∈ dict_keys (RootWriter.wf_used f) -> n ∈ dict_keys Winfo.INFOS.
Proof. apply RootInfos.streamers_only. Qed.

Lemma info_described so w info ki hi bi pre post nbytes : over_it so -> alive w -> so_info so = (zlen pre, nbytes) -> 0 < zlen pre -> nbytes = zlen hi + zlen bi ->
  26 < zlen hi < 512 ->
  RootPack._streamers (dict_keys (RootWriter.wf_used f)) = Ok info ->
  recorded codecs (RootWriter.wf_datime f) (mkEntry (s_ "TList") (s_ "StreamerInfo") (s_ "Doubly linked list") info 1) (zlen pre) ki hi bi ->
  D = pre ++ (hi ++ bi) ++ post -> describes so w.
Proof.
  intros Hs Ha Hi Hp -> Hh Hst Hr HD show depth Hd. pose proof (zlen_nonneg bi) as Hbi.
  set (n := Z.to_nat (Z.min (zlen bi) (512 - zlen hi))).
  destruct (read_part so w pre (hi ++ take n bi) (drop n bi ++ post) (zlen pre) (Z.min (zlen hi + zlen bi) STREAMER_WINDOW)) as (w1 & H1 & Ha1); [done | done | | done | |].
  { rewrite HD, <- !app_assoc, (app_assoc (take n bi)), take_drop. done. }
  { rewrite zlen_app. unfold zlen at 4. rewrite length_take. unfold n, STREAMER_WINDOW, zlen in *. lia. }
  destruct (payload_back so w1 _ _ _ ki hi bi pre post Hs Ha1 Hr HD eq_refl) as (w2 & H2 & Ha2).
  exists w2. split; [|done]. unfold read_streamers. rewrite st_bind_eq. cbn [fst]. rewrite Hi.
  replace ((zlen pre <=? 0) || (zlen hi + zlen bi <=? 0)) with false by (symmetry; apply orb_false_iff; split; apply Z.leb_gt; lia).
  rewrite st_bind_eq, H1. unfold lift. rewrite st_bind_eq.
  destruct (rec_reads _ _ _ _ _ _ _ Hr unit 0 [] (take n bi) 0 []) as [refs E]; [done|]. unfold over at 1. cbn [app] in E. unfold R.Buffer_init. rewrite E. cbn [snd].
  rewrite st_bind_eq, H2. cbn [en_payload]. rewrite st_bind_eq.
  destruct (RootInfos.streamers_read show depth (k_keylen ki) _ (streamers_used info Hst) Hd) as (data & l & Ed & El & Ef & _ & _).
  rewrite Hst in Ed. injection Ed as <-. rewrite El. unfold mret, st_ret. by rewrite Ef.
Qed.

Lemma init_steps so w w1 w2 w3 header version begin a b c d nname e codes info ninfo seek nbytes ks :
  read 0 100 (so, w) = ((so, w1), Ok header) -> startswith MAGIC header = true -> fields_at [4; 4]%nat 4 header = [version; begin] ->
  (1000000 <=? version) = false -> fields_at [4; 4; 4; 4; 4; 1; 4; 4; 4]%nat 12 header = [a; b; c; d; nname; e; codes; info; ninfo] ->
  _directory_record (begin + nname) (with_info so (info, ninfo), w1) = ((with_info so (info, ninfo), w2), Ok (seek, nbytes)) ->
  read_keys seek nbytes (with_info so (info, ninfo), w2) = ((with_info so (info, ninfo), w3), Ok ks) ->
  ROOTFile_init (so, w) = ((with_info so (info, ninfo), w3), Ok (mkROOT (version mod 1000000) codes (mkDirectory ks []))).
Proof.
  intros E1 E2 E3 E4 E5 E6 E7. unfold ROOTFile_init. rewrite st_bind_eq, E1, E2. cbn [negb]. rewrite E3, E4, E5. cbv zeta iota.
  unfold set_info. rewrite st_bind_eq. cbn [fst snd]. change (mkSource _ _ _ _ _ _ _ _) with (with_info so (info, ninfo)). rewrite st_bind_eq, E6. cbv iota. rewrite st_bind_eq, E7. done.
Qed.

Lemma opened so w : over_it so -> alive w -> assembled codecs f D ->
  exists i w' ks, ROOTFile_init (so, w) = ((with_info so i, w'), Ok (mkROOT Winfo.WRITER_VERSION (RootWriter._codes f) (mkDirectory ks [])))
    /\ alive w' /\ Forall2 shows es ks /\ describes (with_info so i) w'
    /\ forall n, n ∈ dict_keys (RootWriter.wf_used f) -> n ∈ dict_keys Winfo.INFOS.
Proof.
  intros Hs Ha [(tail & info & ki & hi & bi & kk & hk & keylist & more & first & mid & post & Hd & HD & (end_at & seek_free & nfree & Ef & Nf)
    & Lfm & Lpost & N1 & N2 & N3 & Hst & Ri & Rk & Li & Lk & Ek & N4)].
  set (at_info := base f + zlen tail) in *. set (at_keys := at_info + zlen (hi ++ bi)) in *.
  set (dir := directory_bytes _ _ _ _) in *. set (head := first ++ mid ++ dir ++ post) in *.
  assert (Lf : zlen first = 45) by (rewrite Ef; apply first_zlen). assert (Ld : zlen dir = 30) by apply directory_zlen.
  pose proof (inv_nname _ _ _ _ _ I) as Hnn. pose proof (zlen_nonneg (text_bytes (RootWriter.wf_label f))) as Hll. rewrite zlen_app, Lf in Lfm. unfold RootPack.BEGIN in Lfm.
  assert (Lh : zlen head = base f) by (unfold head, base, RootPack.BEGIN; rewrite !zlen_app; lia).
  destruct (read_part so w [] (first ++ take 55 mid) (drop 55 mid ++ dir ++ post ++ tail ++ (hi ++ bi) ++ (hk ++ keylist) ++ more) 0 100)
    as (w1 & R1 & Ha1); [done | done | | done | |].
  { rewrite HD. unfold head. cbn [app]. rewrite <- !app_assoc, (app_assoc (take 55 mid)), take_drop. done. }
  { rewrite zlen_app, Lf. unfold zlen in *. rewrite length_take. lia. }
  destruct (header_fields (RootWriter.wf_nname f) (RootWriter._codes f) end_at seek_free nfree at_info (zlen hi + zlen bi) (take 55 mid) Nf) as (F1 & F2 & F3).
  rewrite <- Ef in F1, F2, F3. cbv zeta in F1, F2, F3. set (i := (at_info, zlen hi + zlen bi)). assert (Hs' : over_it (with_info so i)) by exact Hs.
  pose proof (zlen_nonneg tail) as Ht. pose proof (zlen_nonneg keylist) as Hkl. pose proof (zlen_nonneg (hi ++ bi)) as Hib.
  assert (Nn : is_i32 (RootWriter.wf_nname f) = true) by (cbn [forallb] in Nf; rewrite !andb_true_iff in Nf; tauto).
  assert (Hb : 0 < base f) by (unfold base, RootPack.BEGIN; lia).
  destruct (directory_read (with_info so i) w1 (first ++ mid) (post ++ tail ++ (hi ++ bi) ++ (hk ++ keylist) ++ more) (RootWriter.wf_datime f)
    (RootWriter.wf_nname f) (zlen hk + zlen keylist) at_keys) as (w2 & R2 & Ha2); [done.. | | | done | done | done | done | lia | unfold at_keys, at_info; lia |].
  { rewrite HD. unfold head. by rewrite <- !app_assoc. } { rewrite zlen_app. pose proof (zlen_nonneg (tail ++ (hi ++ bi) ++ (hk ++ keylist) ++ more)). lia. }
  destruct (all_shown head tail ((hi ++ bi) ++ (hk ++ keylist) ++ more) Hd Lh HD) as (kbs & Kb & Sh & Kr).
  assert (Ln : zlen kbs = zlen (RootWriter.wf_keys f)) by (rewrite <- Kb; unfold zlen; by rewrite length_fmap).
  destruct (keys_read (with_info so i) w2 (head ++ tail ++ hi ++ bi) more kk hk kbs keylist) as (w3 & R3 & Ha3);
    [done | done | by rewrite HD, <- !app_assoc | exact (rec_reads _ _ _ _ _ _ _ Rk) | by rewrite Ln, Kb | by rewrite Ln | done |].
  exists i, w3, kbs.*2. split_and!; [|done|done| |exact (streamers_used info Hst)].
  - replace Winfo.WRITER_VERSION with (Winfo.WRITER_VERSION mod 1000000) by done.
    eapply (init_steps so w w1 w2 w3); [exact R1 | exact F1 | exact F2 | reflexivity | exact F3 | |].
    + replace (RootPack.BEGIN + RootWriter.wf_nname f) with (zlen (first ++ mid)) by (rewrite zlen_app; unfold RootPack.BEGIN; lia). exact R2.
    + replace at_keys with (zlen (head ++ tail ++ hi ++ bi)) by (rewrite !zlen_app, Lh; unfold at_keys, at_info; rewrite zlen_app; lia). exact R3.
  - eapply (info_described (with_info so i) w3 info ki hi bi (head ++ tail) ((hk ++ keylist) ++ more) (zlen hi + zlen bi));
      [done | done | | | done | lia | exact Hst | | by rewrite HD, <- !app_assoc].
    + cbn. unfold i. by rewrite zlen_app, Lh.
    + rewrite zlen_app, Lh. lia.
    + rewrite zlen_app, Lh. exact Ri.
Qed.
End Reading.

(** ** The newest of a name *)

Fixpoint last_named (n : str) (es : list entry) : option entry :=
  match es with
  | [] => None
  | e :: es => match last_named n es with Some e' => Some e' | None => if decide (en_name e = n) then Some e else None end
  end.

Section Newest.
Variable P : entry -> Key -> Prop.
Hypothesis Pname : forall e k, P e k -> k_name k = en_name e /\ k_cycle k = en_cycle e.

Lemma last_named_in n es e : last_named n es = Some e -> e ∈ es /\ en_name e = n.
Proof.
  induction es as [|x es IH]; cbn; [done|]. destruct (last_named n es) as [e'|].
  - intros [= ->]. destruct (IH eq_refl). split; [by right | done].
  - case_decide; [|done]. intros [= ->]. split; [left | done].
Qed.

Lemma pick_last n es ks : Forall2 P es ks -> rising es -> forall found,
  (forall k e, found = Some k -> e ∈ es -> en_name e = n -> k_cycle k < en_cycle e) ->
  match last_named n es with
  | Some e => exists k, pick n [] found ks = Some k /\ P e k
  | None => pick n [] found ks = found
  end.
Proof.
  induction 1 as [|e k es ks Hek HF IH]; [done|]. cbn [rising last_named pick]. intros [Hr Hrs] found Hf.
  destruct (Pname e k Hek) as [Hn Hc]. destruct (decide (k_name k = n)) as [Ek|Ek].
  - rewrite bool_decide_eq_false_2 by (by intros []).
    assert (Hs : match found with Some f => if k_cycle f <? k_cycle k then Some k else found | None => Some k end = Some k).
    { destruct found as [fk|]; [|done]. assert (k_cycle fk < en_cycle e) by (apply Hf; [done | left | congruence]).
      by replace (k_cycle fk <? k_cycle k) with true by (symmetry; apply Z.ltb_lt; lia). }
    rewrite Hs. specialize (IH Hrs (Some k)). destruct (last_named n es) as [e'|] eqn:El.
    + apply IH. intros k' x [= <-] Hin Hx. rewrite Hc. apply Hr; congruence.
    + rewrite decide_True by congruence. exists k. split; [|done]. apply IH. intros k' x [= <-] Hin Hx. rewrite Hc. apply Hr; congruence.
  - rewrite bool_decide_eq_true_2 by done. assert (Hne : en_name e <> n) by congruence. rewrite (decide_False) by done.
    specialize (IH Hrs found). destruct (last_named n es); apply IH; intros k' x Hk Hin; apply Hf; [done | by right | done | by right].
Qed.
End Newest.

(** ** The round trip *)

Section RoundTrip.
Context {G W : Type} {EW : WriterEnv G W}.
Context {H X V : Type} {ER : RootEnv H X V}.
Variable codecs : Compression.Codecs.
Hypothesis laws : CompressionProps.CodecLaws codecs.
Variable show : RootPack.pyval -> str.
Variable wide : bool.

Notation run := (run codecs show wide).
Notation log := (log codecs show wide).

(** *** The classes the operations used *)

(** The classes of one operation: those of the records an object was made of,
    once its name and title have passed, and those of a tree that was made. *)
Definition uses (o : op) (f : RootWriter.WritableFile G) : list str :=
  match o with
  | Write depth name obj title =>
      match (RootWriter._check_name name f).2, RootPack._payload show depth obj, title_of show obj title with
      | Ok _, Ok (_, _, used), Ok t => if is_ok (RootWriter._checked t) then used else []
      | _, _, _ => []
      end
  | Tree name columns title basket_size =>
      match RootWriter.tree wide name columns title basket_size f with
      | (f', Ok t) => default [] (RootWriter.classes <$> RootWriter.wf_trees f' !! t)
      | (_, Err _) => []
      end
  | Row _ _ => []
  end.
Fixpoint used_by (ops : list op) (f : RootWriter.WritableFile G) : list str :=
  match ops with [] => [] | o :: ops => uses o f ++ used_by ops (run_op codecs show wide o f) end.

Lemma use_keys names (f : RootWriter.WritableFile G) n :
  n ∈ dict_keys (RootWriter.wf_used (RootWriter.use names f)) <-> n ∈ dict_keys (RootWriter.wf_used f) \/ n ∈ names.
Proof.
  cbn. generalize (RootWriter.wf_used f). induction names as [|m names IH]; intros d; cbn; [rewrite elem_of_nil; tauto|].
  rewrite IH, elem_of_cons, !dict_get_keys, dict_get_set. case_decide; subst; [|intuition congruence].
  split; [tauto|]. intros _. left. by eexists.
Qed.

Lemma used_op o f n : n ∈ dict_keys (RootWriter.wf_used (run_op codecs show wide o f)) <-> n ∈ dict_keys (RootWriter.wf_used f) \/ n ∈ uses o f.
Proof.
  assert (Hn : forall f' : RootWriter.WritableFile G, RootWriter.wf_used f' = RootWriter.wf_used f -> n ∈ dict_keys (RootWriter.wf_used f') <-> n ∈ dict_keys (RootWriter.wf_used f) \/ n ∈ @nil str)
    by (intros f' ->; rewrite elem_of_nil; tauto).
  destruct o as [depth name obj title|name columns title size|t row]; cbn [run_op uses].
  - unfold RootWriter.write. rewrite st_bind_eq. unfold RootWriter._check_name at 1 2. cbn [snd].
    destruct (if RootWriter.wf_closed f then _ else _) as [[]|]; [|by apply Hn]. rewrite st_bind_eq. unfold lift at 1.
    destruct (RootPack._payload show depth obj) as [[[cls payload] used]|]; [|by apply Hn]. rewrite st_bind_eq. unfold lift at 1. fold (title_of show obj title).
    destruct (title_of show obj title) as [t|]; [|by apply Hn]. rewrite st_bind_eq. unfold lift at 1. destruct (RootWriter._checked t) as [t'|]; [|by apply Hn].
    cbn [is_ok]. rewrite <- use_keys. unfold RootWriter.next_cycle. rewrite !st_bind_eq. cbn [modify]. rewrite !st_bind_eq. cbn [modify mret st_ret]. rewrite st_bind_eq.
    destruct (RootWriter._put _ _ _ _ _ _ _ _ _ _) as [f2 r] eqn:E. apply (put_grows codecs) in E as (S & _). destruct r as [[seek nbytes]|]; cbn [fst mret st_ret]; by rewrite (same_used _ _ S).
  - unfold RootWriter.tree. rewrite !st_bind_eq. unfold RootWriter._check_name. 
    destruct (if RootWriter.wf_closed f then _ else _) as [[]|]; [|by apply Hn]. rewrite !st_bind_eq. unfold lift.
    destruct (RootWriter._checked (default [] title)) as [t'|]; [|by apply Hn]. unfold RootWriter.next_cycle. rewrite !st_bind_eq. cbn [modify mret st_ret]. rewrite !st_bind_eq.
    destruct (RootWriter.WritableTree_init _ _ _ _ _ _) as [tr|]; [|by apply Hn]. rewrite !st_bind_eq. cbn [modify mret st_ret fst]. rewrite !st_bind_eq. cbn [modify mret st_ret fst].
    rewrite use_keys. cbn. rewrite list_lookup_middle by done. done.
  - apply Hn. exact (same_used _ _ (calm_same _ _ (proj1 (calms_row codecs t row f)))).
Qed.

Lemma used_run ops : forall f n, n ∈ dict_keys (RootWriter.wf_used (run ops f)) <-> n ∈ dict_keys (RootWriter.wf_used f) \/ n ∈ used_by ops f.
Proof.
  induction ops as [|o ops IH]; intros f n; cbn [RootContainer.run used_by]; [rewrite elem_of_nil; tauto|].
  rewrite IH, used_op, elem_of_app. tauto.
Qed.

Lemma init_used g name owned algorithm level w0 w1 f0 :
  RootWriter.WritableFile_init g name owned algorithm level w0 = (w1, Ok f0) -> RootWriter.wf_used f0 = [].
Proof.
  unfold RootWriter.WritableFile_init. destruct (match algorithm, level with Some _, _ => _ | _, _ => _ end) as [lv|]; [|done].
  destruct (uuid4 w0) as [w u]. intros [= _ (label & _ & (n & _ & Ei)%bind_ok_inv)%bind_ok_inv]. by injection Ei as <-.
Qed.

(** The streamer information read lists the classes reached from [used], each
    once, with their members. *)
Definition describes_used (alive : V -> Prop) (used : list str) (so : Source H) (w : V) : Prop := forall show depth, (2 <= depth)%nat ->
  exists w' names, read_streamers codecs show depth (so, w) = ((so, w'), Ok ((fun n => (n, RootInfos.members_of n)) <$> names)) /\ alive w'
    /\ NoDup names /\ forall n, n ∈ names <-> RootInfos.reached used n.

Lemma reached_ext u u' n : (forall n, n ∈ u <-> n ∈ u') -> RootInfos.reached u n -> RootInfos.reached u' n.
Proof. intros Hu. induction 1 as [n Hn|]; [apply RootInfos.reached_used; by apply Hu | by eapply RootInfos.reached_by]. Qed.

(** What any reader finds in an open file holding [D]: its compression, the
    keys of [es] with the payloads they were made of, and a description of the
    classes [used]. *)
Definition reads_as (D : bytes) (codes : Z) (used : list str) (es : list entry) : Prop :=
  forall h pid (alive : V -> Prop) so v, serves h D pid alive -> over_it h pid so -> alive v ->
  exists i v' ks, ROOTFile_init (so, v) = ((with_info so i, v'), Ok (mkROOT Winfo.WRITER_VERSION codes (mkDirectory ks [])))
    /\ alive v' /\ Forall2 (shows codecs h pid alive) es ks /\ describes_used alive used (with_info so i) v'.

(** The file [f] with the last baskets of its trees written. *)
Definition finished (f f1 : RootWriter.WritableFile G) : Prop :=
  RootWriter.finish_all codecs 0 (length (RootWriter.wf_trees f)) (RootWriter.set_closed f) = (f1, Ok tt) /\ tags f1 = tags f.

Lemma closed_reads g name owned algorithm level w0 w1 f0 ops w f' w' :
  zlen (uuid4 w0).2 = 16 -> RootWriter.WritableFile_init g name owned algorithm level w0 = (w1, Ok f0) -> forallb (in_text show) ops = true ->
  RootWriter.close codecs (run ops f0, w) = ((f', w'), Ok tt) ->
  exists D f1 ts w2, wh_write g D w = (w2, Ok tt) /\ finished (run ops f0) f1
    /\ Forall2 (tree_entry (RootWriter._codes (run ops f0))) (RootWriter.wf_trees f1) ts
    /\ reads_as D (RootWriter._codes (run ops f0)) (used_by ops f0) (log ops f0 ++ ts).
Proof.
  intros Hu Hi Ht Hc. destruct (inv_init codecs g _ _ _ _ _ _ _ Hu Hi) as [I0 _].
  pose proof (inv_run codecs laws show wide g false ops f0 [] Ht I0) as I1. rewrite app_nil_l in I1.
  destruct (close_writes codecs laws g _ _ _ _ _ I1 Hc) as (f1 & D & ts & w2 & I2 & [Htg Hts] & HA & HU & HC & Hw & Hf & _).
  exists D, f1, ts, w2. split_and!; [done..|]. intros h pid alive so v Hs Ho Ha.
  destruct (opened codecs h D pid alive Hs f1 _ g true I2 so v Ho Ha HA) as (i & v' & ks & E & Ha' & HS & HD & HI). exists i, v', ks. rewrite <- HC.
  split_and!; [done..|]. intros sh depth Hd. destruct (HD sh depth Hd) as (w3 & E3 & Ha3). exists w3, (RootPack._closure (dict_keys (RootWriter.wf_used f1))).
  destruct (RootInfos.closure_spec (dict_keys (RootWriter.wf_used f1))) as (_ & _ & Hn & _). split_and!; [exact E3 | exact Ha3 | exact Hn|].
  intros n. rewrite (RootInfos.closure_reached _ HI), HU.
  assert (He : forall m, m ∈ dict_keys (RootWriter.wf_used (run ops f0)) <-> m ∈ used_by ops f0).
  { intros m. rewrite used_run. assert (RootWriter.wf_used f0 = []) as -> by (by eapply init_used). cbn. rewrite elem_of_nil. tauto. }
  split; apply reached_ext; intros m; rewrite He; done.
Qed.

(** C15: a ROOT file reads back as it was written. Whatever objects were put into a
    new file and whatever trees were filled, under names and titles that are
    text, with the calls that raised caught on the way, and whatever its
    compression: when it closes, the bytes handed to the file open as a ROOT
    file whose keys are the objects written, in order and with their classes,
    titles and cycles, and then the trees; the payload behind the key of an
    object is the bytes the object was written as, and behind the key of a tree
    the record of that tree with its last baskets written; and the streamer
    information describes exactly the classes those objects and trees were made
    of and all they need. The codecs undo themselves, and the identifier of the
    file has 16 bytes. *)
Theorem written_reads_back g name owned algorithm level w0 w1 f0 ops w f' w' :
  zlen (uuid4 w0).2 = 16 -> RootWriter.WritableFile_init g name owned algorithm level w0 = (w1, Ok f0) -> forallb (in_text show) ops = true ->
  RootWriter.close codecs (run ops f0, w) = ((f', w'), Ok tt) ->
  exists D f1 ts w2, wh_write g D w = (w2, Ok tt) /\ finished (run ops f0) f1
    /\ Forall2 (tree_entry (RootWriter._codes (run ops f0))) (RootWriter.wf_trees f1) ts
    /\ reads_as D (RootWriter._codes (run ops f0)) (used_by ops f0) (log ops f0 ++ ts).
Proof. apply closed_reads. Qed.

(** Asking for a name gives the newest: in a file of objects alone, a name
    written several times finds the key of the object written last under it,
    and that key reads as its bytes. *)
Theorem newest_found g name owned algorithm level w0 w1 f0 ops w f' w' :
  zlen (uuid4 w0).2 = 16 -> RootWriter.WritableFile_init g name owned algorithm level w0 = (w1, Ok f0) -> forallb (in_text show) ops = true ->
  tags (run ops f0) = [] -> RootWriter.close codecs (run ops f0, w) = ((f', w'), Ok tt) ->
  exists D w2, wh_write g D w = (w2, Ok tt)
    /\ forall h pid (alive : V -> Prop) so v n e, serves h D pid alive -> over_it h pid so -> alive v -> last_named n (log ops f0) = Some e ->
       exists so' v' rf k, ROOTFile_init (so, v) = ((so', v'), Ok rf) /\ _key (rf_directory rf) n = Ok k /\ shows codecs h pid alive e k.
Proof.
  intros Hu Hi Ht Hg Hc. destruct (closed_reads _ _ _ _ _ _ _ _ _ _ _ _ Hu Hi Ht Hc) as (D & f1 & ts & w2 & Hw & [_ Htg] & Hts & HR). exists D, w2. split; [done|].
  rewrite Hg in Htg. apply fmap_nil_inv in Htg. rewrite Htg in Hts. apply Forall2_nil_inv_l in Hts as ->. rewrite app_nil_r in HR. intros h pid alive so v n e Hs Ho Ha Hl.
  destruct (HR h pid alive so v Hs Ho Ha) as (i & v' & ks & E & _ & HS & _). destruct (log_rising codecs show wide ops f0) as [Hr Hn].
  pose proof (pick_last (shows codecs h pid alive) (fun a b S => conj (sh_name _ _ _ _ _ _ S) (sh_cycle _ _ _ _ _ _ S)) n _ _ HS Hr None ltac:(done)) as Hp.
  rewrite Hl in Hp. destruct Hp as (k & Hp & Hk). exists (with_info so i), v', (mkROOT Winfo.WRITER_VERSION (RootWriter._codes (run ops f0)) (mkDirectory ks [])), k.
  split_and!; [done | | done]. apply last_named_in in Hl as [Hin <-]. destruct (Hn e Hin) as [_ Hc']. unfold PyStr.contains in Hc'.
  apply bool_decide_eq_false in Hc'. unfold _key. rewrite partition_none by done. cbn [rf_directory dr_keys]. by rewrite Hp.
Qed.
End RoundTrip.

(** ** A file in memory *)

(** [io.BytesIO]: its bytes and its position. *)
Definition mem : Type := bytes * Z.
#[export] Instance mem_writer : WriterEnv unit mem := {|
  wh_write _ b w := ((w.1 ++ b, zlen w.1 + zlen b), Ok tt);
  wh_flush _ := None; wh_close _ w := (w, Ok tt); wh_open _ w := (w, Ok tt); wh_open_url _ w := (w, Ok tt);
  now _ := (2024, 5, 6, (7, 8, 9)); uuid4 w := (w, replicate 16 x01)
|}.
#[export] Instance mem_reader : RootEnv unit unit mem := {|
  rh_seek _ o w := ((w.1, o), Ok tt);
  rh_read _ n w := ((w.1, w.2 + n), Ok (take (Z.to_nat n) (drop (Z.to_nat w.2) w.1)));
  rh_close _ w := (w, Ok tt); getpid _ := 7; rh_reopen _ w := (w, Ok tt); rx_item x _ w := (w, Err TypeError)
|}.

Definition nothing : RootPack.pyval -> str := fun _ => [].
Definition example_file : RootWriter.WritableFile unit :=
  match RootWriter.WritableFile_init tt (s_ "out/x.root") false (Some (s_ "lz4")) None ([], 0) with
  | (_, Ok f) => f
  | (_, Err _) => RootWriter.mkWF tt false None None 0 [] false [] [] 0 [] [] [] [] []
  end.
(** Two objects of one name, an array, and a name that is refused. *)
Definition example_ops : list op :=
  [Write 3 (s_ "a") (RootPack.PStr (s_ "hello")) None;
   Write 3 (s_ "b") (RootPack.PArray (s_ "i") 4 (replicate 100 (RootPack.PInt 3))) (Some (s_ "three"));
   Write 3 (s_ "not/here") (RootPack.PStr []) None;
   Write 3 (s_ "a") (RootPack.PStr (s_ "world")) None].
Lemma mem_serves D : serves (X := unit) tt D 7 (fun w : mem => w.1 = D).
Proof. intros w off n <- Ho Hn Hl. split; [done|]. eexists _, _. split; [reflexivity|]. split; [|reflexivity]. done. Qed.

(** Closing the example hands over one file. *)
Lemma example_closes :
  exists f' w', RootWriter.close CompressionProps.stored (run CompressionProps.stored nothing true example_ops example_file, ([], 0)) = ((f', w'), Ok tt).
Proof. eexists _, _. vm_compute. reflexivity. Qed.
Lemma example_init : RootWriter.WritableFile_init tt (s_ "out/x.root") false (Some (s_ "lz4")) None ([], 0) = (([], 0), Ok example_file).
Proof. vm_compute. reflexivity. Qed.

(** And a tree with one row. *)
Definition example_ops_tree : list op :=
  example_ops ++ [Tree (s_ "t") [(s_ "x", RootPack.PStr (s_ "i"))] (Some (s_ "one")) 32000; Row 0 [(s_ "x", RootPack.PInt 5)]].
Lemma example_tree_closes :
  exists f' w', RootWriter.close CompressionProps.stored (run CompressionProps.stored nothing true example_ops_tree example_file, ([], 0)) = ((f', w'), Ok tt).
Proof.
  assert (E : is_ok (RootWriter.close CompressionProps.stored (run CompressionProps.stored nothing true example_ops_tree example_file, ([], 0))).2 = true)
    by (vm_compute; reflexivity).
  destruct (RootWriter.close _ _) as [[f' w'] [[]|e]]; [by exists f', w' | done].
Qed.

Lemma written_reads_back_witness :
  exists D f1 ts w2, wh_write tt D ([], 0) = (w2, Ok tt)
    /\ finished CompressionProps.stored (run CompressionProps.stored nothing true example_ops_tree example_file) f1
    /\ Forall2 (tree_entry (RootWriter._codes (run CompressionProps.stored nothing true example_ops_tree example_file))) (RootWriter.wf_trees f1) ts
    /\ reads_as (H := unit) (X := unit) (V := mem) CompressionProps.stored D
         (RootWriter._codes (run CompressionProps.stored nothing true example_ops_tree example_file))
         (used_by CompressionProps.stored nothing true example_ops_tree example_file)
         (log CompressionProps.stored nothing true example_ops_tree example_file ++ ts).
Proof.
  destruct example_tree_closes as (f' & w' & E).
  exact (written_reads_back (EW := mem_writer) (ER := mem_reader) CompressionProps.stored CompressionProps.stored_laws nothing true tt (s_ "out/x.root") false (Some (s_ "lz4")) None
    ([], 0) ([], 0) example_file example_ops_tree ([], 0) f' w' eq_refl example_init eq_refl E).
Defined.

Lemma newest_found_witness :
  exists D w2, wh_write tt D ([], 0) = (w2, Ok tt)
    /\ exists so' v' rf k, ROOTFile_init (X := unit) (mkSource tt [] false (0, 0) None 7 None None, (D, 0)) = ((so', v'), Ok rf)
        /\ _key (rf_directory rf) (s_ "a") = Ok k
        /\ shows CompressionProps.stored (X := unit) tt 7 (fun w : mem => w.1 = D) (mkEntry (s_ "string") (s_ "a") [] (x05 :: b_ "world") 2) k.
Proof.
  destruct example_closes as (f' & w' & E).
  destruct (newest_found (EW := mem_writer) (ER := mem_reader) CompressionProps.stored CompressionProps.stored_laws nothing true tt (s_ "out/x.root") false (Some (s_ "lz4")) None
    ([], 0) ([], 0) example_file example_ops ([], 0) f' w' eq_refl example_init eq_refl eq_refl E) as (D & w2 & Hw & HR).
  exists D, w2. split; [exact Hw|].
  exact (HR tt 7 (fun w => w.1 = D) (mkSource tt [] false (0, 0) None 7 None None) (D, 0) (s_ "a") (mkEntry (s_ "string") (s_ "a") [] (x05 :: b_ "world") 2)
    (mem_serves D) (conj eq_refl eq_refl) eq_refl eq_refl).
Defined.
End RootRoundTrip.
