(* ===== verification/RootTreeRecord.v ===== *)
(** * The record of a tree, written and read

    [tree_payload] (RootWriter) against [read_tree] (RootTree): a tree record
    that was written reads as the branches of its columns, each with one leaf
    and the places of its baskets. *)

From S2P Require Import Prelude PyStr Errors Buffer UrlText Compression RootBuffer RootFile Winfo RootPack RootEncoding RootInfos RootWriter RootContainer RootInterp RootTree.
Open Scope Z_scope.

Module RootTreeRecord.
Module R := RootBuffer.
Module RT := RootTree.
Import RootPack RootEncoding RootWriter.

(** ** Writing *)

(** Nothing that returned has made the buffer shorter. *)
Definition grows {A} (c : wb A) : Prop := forall d d' r, c d = (d', Ok r) -> zlen d <= zlen d'.

(** With less than a record can count in the end, [c] has appended something that is [Q]. *)
Definition lays {A} (c : wb A) (Q : bytes -> Prop) : Prop :=
  forall d d' r, c d = (d', Ok r) -> zlen d' < LIMIT -> exists out, d' = d ++ out /\ Q out.

Lemma grows_ret {A} (a : A) : grows (mret a).
Proof. intros d d' r [= <- _]. lia. Qed.
Lemma grows_bind {A B} (c : wb A) (k : A -> wb B) : grows c -> (forall a, grows (k a)) -> grows (c ≫= k).
Proof. intros Hc Hk d d' r (d1 & a & H1 & H2)%st_bind_ok. apply Hc in H1. apply Hk in H2. lia. Qed.
Lemma grows_raw b : grows (raw b).
Proof. intros d d' r [= <- _]. rewrite zlen_app. pose proof (zlen_nonneg b). lia. Qed.
Lemma grows_lift {A} (r : res A) : grows (lift r).
Proof. intros d d' a [= <- _]. lia. Qed.
Lemma grows_packs r : grows (packs r).
Proof. apply grows_bind; [apply grows_lift | apply grows_raw]. Qed.
Lemma grows_here : grows here.
Proof. intros d d' r [= <- _]. lia. Qed.
Lemma grows_end i : grows (end_ i).
Proof.
  intros d d' r. unfold end_. destruct (pack_u 4 _) as [b|] eqn:E; [|done]. intros [= <- _]. apply RootContainer.pack_u_inv in E as [-> _].
  unfold patch. rewrite be_enc_length. unfold zlen. rewrite !length_app, length_take, length_drop, be_enc_length. lia.
Qed.
#[local] Hint Resolve grows_ret grows_raw grows_lift grows_packs grows_here grows_end : grows.
#[local] Hint Extern 1 (grows (u8 _)) => apply grows_packs : grows.
#[local] Hint Extern 1 (grows (u16 _)) => apply grows_packs : grows.
#[local] Hint Extern 1 (grows (u32 _)) => apply grows_packs : grows.
#[local] Hint Extern 1 (grows (i16 _)) => apply grows_packs : grows.
#[local] Hint Extern 1 (grows (i32 _)) => apply grows_packs : grows.
#[local] Hint Extern 1 (grows (i64 _)) => apply grows_packs : grows.
(** Goes through the binds of a writer. *)
Ltac growing := intros; repeat first [solve [auto with grows] | apply grows_bind; [|intros ?] | case_goal].

Lemma grows_each {A} (f : A -> wb unit) l : (forall a, grows (f a)) -> grows (each f l).
Proof. intros Hf. induction l as [|a l IH]; cbn [each]; growing. Qed.
Lemma grows_string s : grows (string s).
Proof. unfold string. growing. Qed.
Lemma grows_start v : grows (start v).
Proof. unfold start. growing. Qed.
Lemma grows_tag s : grows (tag s).
Proof. unfold tag, cstring. growing. Qed.
#[local] Hint Resolve grows_each grows_string grows_start grows_tag : grows.
Lemma grows_within {A} open (body : wb A) : grows open -> grows body -> grows (within open body).
Proof. intros. unfold within. growing. Qed.
Lemma grows_record v body : grows body -> grows (record v body).
Proof. intros. unfold record. growing. Qed.
Lemma grows_tobject a b : grows (tobject a b).
Proof. unfold tobject. growing. Qed.
#[local] Hint Resolve grows_within grows_record grows_tobject : grows.
Lemma grows_named a b : grows (named a b).
Proof. unfold named. growing. Qed.
Lemma grows_objarray n : grows (_objarray n).
Proof. unfold _objarray. growing. Qed.
#[local] Hint Resolve grows_named grows_objarray : grows.

Lemma lays_ret {A} (a : A) (Q : bytes -> Prop) : Q [] -> lays (mret a) Q.
Proof. intros HQ d d' r [= <- _] _. exists []. by rewrite app_nil_r. Qed.
Lemma lays_bind {A B} (c : wb A) (k : A -> wb B) Q1 Q :
  lays c Q1 -> (forall a, grows (k a)) -> (forall a o1, Q1 o1 -> lays (k a) (fun o2 => Q (o1 ++ o2))) -> lays (c ≫= k) Q.
Proof.
  intros Hc Hg Hk d d' r (d1 & x & H1 & H2)%st_bind_ok Hl. pose proof (Hg _ _ _ _ H2).
  destruct (Hc d d1 x H1 ltac:(lia)) as (o1 & -> & HQ1). destruct (Hk x o1 HQ1 _ _ _ H2 Hl) as (o2 & -> & HQ). exists (o1 ++ o2).
  by rewrite <- app_assoc.
Qed.
Lemma lays_wrote c out P : RootContainer.wrote c out P -> lays c (fun o => o = out /\ P).
Proof. intros Hw d d' [] H _. apply Hw in H as [-> HP]. by exists out. Qed.
Lemma lays_impl {A} (c : wb A) (Q Q' : bytes -> Prop) : lays c Q -> (forall o, Q o -> Q' o) -> lays c Q'.
Proof. intros Hl HQ d d' r H Hd. destruct (Hl d d' r H Hd) as (o & -> & Ho). exists o. auto. Qed.
Lemma lays_here {A} (k : nat -> wb A) Q : (forall i, lays (k i) Q) -> lays (here ≫= k) Q.
Proof. intros Hk d d' r (d1 & i & H1 & H2)%st_bind_ok Hl. injection H1 as <- <-. by eapply Hk. Qed.
Lemma lays_ret_after {A B} (c : wb A) (f : A -> B) Q : lays c Q -> lays (c ≫= fun a => mret (f a)) Q.
Proof. intros Hc d d' r (d1 & x & H1 & H2)%st_bind_ok Hl. injection H2 as <- _. by eapply Hc. Qed.
(** What is appended is shorter than a record can be. *)
Lemma lays_sized {A} (c : wb A) Q : lays c Q -> lays c (fun o => zlen o < LIMIT /\ Q o).
Proof.
  intros Hl d d' r H Hd. destruct (Hl d d' r H Hd) as (o & -> & Ho). exists o. split_and!; [done| |done].
  rewrite zlen_app in Hd. pose proof (zlen_nonneg d). lia.
Qed.
Lemma lays_built {A} (c : wb A) Q b : lays c Q -> built c = Ok b -> zlen b < LIMIT -> Q b.
Proof.
  intros Hl H Hb. unfold built in H. destruct (c []) as [d [r|e]] eqn:E; [|done]. injection H as ->. by destruct (Hl _ _ _ E Hb) as (o & -> & Ho).
Qed.

(** *** Records *)

Definition opens (open : wb nat) (hd : bytes) (P : Prop) : Prop :=
  forall d d' i, open d = (d', Ok i) -> d' = d ++ hole ++ hd /\ i = length d /\ P.

Lemma lays_within {A} open hd P (body : wb A) Q :
  opens open hd P -> lays body Q -> lays (within open body) (fun out => zlen out < LIMIT /\ exists o, out = counted (hd ++ o) /\ P /\ Q o).
Proof.
  intros Ho Hb. apply lays_sized. intros d d' r H Hl. unfold within in H. apply st_bind_ok in H as (d1 & i & H1 & H). apply st_bind_ok in H as (d2 & x & H2 & H).
  apply st_bind_ok in H as (d3 & [] & H3 & H). injection H as <- <-. destruct (Ho d d1 i H1) as (-> & -> & HP). pose proof (grows_end _ _ _ _ H3) as Hg.
  destruct (Hb _ _ _ H2 ltac:(lia)) as (o & -> & HQ). assert (Hs : zlen (hd ++ o) < LIMIT).
  { pose proof (zlen_nonneg d). pose proof (zlen_nonneg hole). rewrite !zlen_app in Hg. rewrite zlen_app. lia. }
  replace ((d ++ hole ++ hd) ++ o) with (d ++ hole ++ hd ++ o) in H3 by (by rewrite <- !app_assoc).
  rewrite end_fills in H3 by done. injection H3 as <-. exists (counted (hd ++ o)). eauto.
Qed.

Lemma opens_start v : opens (start v) (be_enc 2 v) (0 <= v < 65536).
Proof.
  intros d d' i H. unfold start in H. apply st_bind_ok in H as (d0 & j & H0 & H). injection H0 as <- <-.
  apply st_bind_ok in H as (d1 & [] & H1 & H). injection H1 as <-. apply st_bind_ok in H as (d2 & [] & H2 & H). injection H as <- <-.
  apply RootContainer.wrote_u16 in H2 as [-> Hv]. by rewrite <- app_assoc.
Qed.
Lemma opens_tag cls : is_text cls = true -> opens (tag cls) (be_enc 4 R.NEW_CLASS_TAG ++ text_bytes cls ++ [x00]) True.
Proof.
  intros Ht d d' i H. unfold tag in H. apply st_bind_ok in H as (d0 & j & H0 & H). injection H0 as <- <-.
  apply st_bind_ok in H as (d1 & [] & H1 & H). injection H1 as <-. apply st_bind_ok in H as (d2 & [] & H2 & H).
  apply RootContainer.wrote_u32 in H2 as [-> _]. apply st_bind_ok in H as (d3 & [] & H3 & H). injection H as <- <-.
  unfold cstring in H3. destruct (is_text_encode cls Ht) as [E _]. rewrite E in H3. injection H3 as <-. by rewrite <- !app_assoc.
Qed.
Definition array_head (count : Z) : bytes := be_enc 2 OBJARRAY_VERSION ++ RootInfos.tobject_bytes ++ string_bytes [] ++ be_enc 4 count ++ be_enc 4 0.
Lemma opens_objarray count : opens (_objarray count) (array_head count) (is_i32 count = true).
Proof.
  intros d d' i H. unfold _objarray in H. apply st_bind_ok in H as (d0 & j & H0 & H). apply opens_start in H0 as (-> & -> & _).
  apply st_bind_ok in H as (d1 & [] & H1 & H). rewrite RootInfos.emits_tobject in H1. injection H1 as <-.
  apply st_bind_ok in H as (d2 & [] & H2 & H). rewrite (emits_string []) in H2 by done. injection H2 as <-.
  apply st_bind_ok in H as (d3 & [] & H3 & H). apply RootContainer.wrote_i32 in H3 as [-> Hc].
  apply st_bind_ok in H as (d4 & [] & H4 & H). apply RootContainer.wrote_i32 in H4 as [-> _]. injection H as <- <-.
  unfold array_head. by rewrite <- !app_assoc.
Qed.

Lemma lays_record v body Q : lays body Q -> lays (record v body) (fun out => zlen out < LIMIT /\ exists o, out = record_bytes v o /\ 0 <= v < 65536 /\ Q o).
Proof.
  intros Hb. pose proof (lays_within _ _ _ _ _ (opens_start v) Hb) as Hw. intros d d' r H Hl. apply (Hw d d' r); [|done].
  unfold record in H. unfold within. apply st_bind_ok in H as (d1 & i & H1 & H). apply st_bind_ok in H as (d2 & [] & H2 & H3).
  apply st_bind_ok. exists d1, i. split; [done|]. apply st_bind_ok. exists d2, tt. split; [done|]. apply st_bind_ok. destruct r. by exists d', tt.
Qed.
(** [c] has appended [out], and so [P]. *)
Definition writes {A} (c : wb A) (out : bytes) (P : Prop) : Prop := lays c (fun o => o = out /\ P).
Lemma writes_seq {A B} (c : wb A) (k : A -> wb B) o1 o2 P1 P2 :
  writes c o1 P1 -> (forall a, grows (k a)) -> (forall a, P1 -> writes (k a) o2 P2) -> writes (c ≫= k) (o1 ++ o2) (P1 /\ P2).
Proof.
  intros Hc Hg Hk. eapply lays_bind; [exact Hc | exact Hg|]. intros a o [-> H1]. eapply lays_impl; [by apply Hk|]. cbn beta. by intros o' [-> H2].
Qed.
Lemma writes_within {A} open hd P (body : wb A) o Q : opens open hd P -> writes body o Q ->
  writes (within open body) (counted (hd ++ o)) (zlen (counted (hd ++ o)) < LIMIT /\ P /\ Q).
Proof.
  intros Ho Hb. eapply lays_impl; [by apply lays_within|]. cbn beta. by intros out (Hl & o' & -> & HP & -> & HQ).
Qed.
Lemma writes_record v body o Q : writes body o Q -> writes (record v body) (record_bytes v o) (zlen (record_bytes v o) < LIMIT /\ 0 <= v < 65536 /\ Q).
Proof. intros Hb. eapply lays_impl; [by apply lays_record|]. cbn beta. by intros out (Hl & o' & -> & HP & -> & HQ). Qed.
Lemma writes_impl {A} (c : wb A) o o' (P P' : Prop) : writes c o P -> o = o' -> (zlen o' < LIMIT -> P -> P') -> writes c o' P'.
Proof. intros Hw -> HP. eapply lays_impl; [apply lays_sized, Hw|]. cbn beta. intros x (Hl & -> & ?). auto. Qed.
Lemma counted_zlen b : zlen (counted b) = 4 + zlen b.
Proof. unfold counted. by rewrite zlen_app, be_enc_zlen. Qed.

(** *** Text *)

Lemma text_app a b : is_text a = true -> is_text b = true -> is_text (a ++ b) = true.
Proof.
  unfold is_text. rewrite !bool_decide_eq_true. intros [x Hx] [y Hy]. revert x Hx. induction a as [|c a IH]; intros x; cbn; [by rewrite Hy|].
  destruct (utf8_char c); [|done]. destruct (utf8_encode a); [|done]. intros _. destruct (IH _ eq_refl) as [z ->]. by eexists.
Qed.
Lemma text_char c : 0 <= c < 128 -> is_text [c] = true.
Proof.
  intros Hc. unfold is_text, utf8_encode, utf8_char. replace ((c <? 0) || (1114112 <=? c)) with false by (symmetry; apply orb_false_iff; split; [apply Z.ltb_ge | apply Z.leb_gt]; lia).
  replace (c <? 128) with true by (symmetry; apply Z.ltb_lt; lia). done.
Qed.
Lemma text_cons c s : 0 <= c < 128 -> is_text s = true -> is_text (c :: s) = true.
Proof. intros Hc Hs. apply (text_app [c] s); [by apply text_char | done]. Qed.
Lemma text_dec n : is_text (to_dec n) = true.
Proof.
  assert (H : forall s, Forall is_digit s -> is_text s = true).
  { induction 1 as [|c s Hc _ IH]; [done|]. apply text_cons; [unfold is_digit in Hc; lia | done]. }
  unfold to_dec. case_goal; [apply text_cons; [lia|]|]; apply H, dec_digits_chars; constructor.
Qed.

(** *** Numbers *)

Lemma wrote_i64 v : RootContainer.wrote (i64 v) (be_enc 8 v) (- 2 ^ 63 <= v < 2 ^ 63).
Proof. apply RootContainer.wrote_packs. intros b' H. by apply RootContainer.pack_i_inv in H. Qed.
Lemma wrote_ret : RootContainer.wrote (mret tt) [] True.
Proof. intros d d' [= <-]. by rewrite app_nil_r. Qed.

(** What was asked of a table's values, and their bytes. *)
Lemma packed_ints code w l b : dict_get code PACKS = Some (pack_int true w) -> struct_pack code (PInt <$> l) = Ok b ->
  b = concat (be_enc w <$> l) /\ forallb (is_int w) l = true.
Proof.
  intros Hc. unfold struct_pack. rewrite Hc. intros (bs & Hbs & H)%bind_ok_inv. injection H as <-.
  revert bs Hbs. induction l as [|v l IH]; intros bs; cbn; [by intros [= <-]|]. intros (x & Hx & H)%bind_ok_inv. apply bind_ok_inv in H as (xs & Hxs & H). injection H as <-.
  apply RootContainer.pack_i_inv in Hx as [-> Hx]. destruct (IH _ Hxs) as [E Hl]. cbn. rewrite E, Hl. split; [done|]. apply andb_true_iff. split; [|done]. by apply is_int_spec.
Qed.
(** A table as long as it has slots. *)
Definition slots (values : list Z) (width : Z) : list Z := values ++ replicate (Z.to_nat (width - zlen values)) 0.
Lemma wrote_table code w values width : dict_get code PACKS = Some (pack_int true w) ->
  RootContainer.wrote (_table values width code) (be_enc 1 1 ++ concat (be_enc w <$> slots values width)) (zlen values <= width /\ forallb (is_int w) (slots values width) = true).
Proof.
  intros Hc d d' H. eapply RootContainer.wrote_bind in H as [-> [_ H]]; [split; [reflexivity|exact H] | apply RootContainer.wrote_u8 |].
  apply RootContainer.wrote_packs. intros b. case_goal; [done|]. zbool. intros Hb.
  replace ((PInt <$> values) ++ _) with (PInt <$> slots values width) in Hb by (unfold slots; by rewrite fmap_app, fmap_replicate).
  by destruct (packed_ints code w _ _ Hc Hb).
Qed.
Lemma slots_zlen values width : zlen values <= width -> zlen (slots values width) = width.
Proof. intros Hw. unfold slots, zlen in *. rewrite length_app, length_replicate. lia. Qed.
Lemma first_slots values width : RT.first (slots values width) (zlen values) = values.
Proof.
  unfold RT.first, R.py_slice. pose proof (zlen_nonneg values). cbn [Z.ltb Z.compare]. replace (zlen values <? 0) with false by (symmetry; apply Z.ltb_ge; lia).
  unfold slots, zlen. rewrite drop_0, Z.sub_0_r, Nat2Z.id. apply take_app_length.
Qed.

(** ** Reading *)

Section Readers.
Context {V : Type}.
Notation reads := (reads (V := V)).

Lemma reads_skip p v body : 0 <= v < 65536 -> 2 + zlen body < LIMIT -> reads p R.skip_record (record_bytes v body) v.
Proof.
  intros Hv Hb. apply reads_whole; [done..|]. cbn. eapply reads_last; [|apply reads_ret]. by apply (reads_resume (p + 6) (p + 6 + zlen body)).
Qed.
Lemma reads_bool p (b : bool) : reads p R.bool_ (be_enc 1 (if b then 1 else 0)) b.
Proof. eapply reads_last; [apply reads_u8; by destruct b|]. destruct b; apply reads_ret. Qed.
Lemma reads_named_any p name title : carried name = true -> carried title = true -> zlen (RootInfos.named_bytes name title) < LIMIT ->
  reads p R.named (RootInfos.named_bytes name title) (name, title).
Proof.
  unfold RootInfos.named_bytes at 1. intros Hn Ht Hl. unfold record_bytes in Hl. rewrite counted_zlen, zlen_app, be_enc_zlen in Hl.
  apply reads_whole; [done | lia|]. eapply reads_bind; [apply RootInfos.reads_tobject|]. eapply reads_bind; [by apply reads_string|].
  eapply reads_last; [by apply reads_string|]. eapply reads_bind_nil; [|apply reads_ret].
  apply reads_resume. rewrite !zlen_app, zlen_nil. lia.
Qed.
(** No object. *)
Lemma reads_null p show classes : reads p (R.any show classes) (be_enc 4 0) None.
Proof.
  unfold R.any. eapply reads_bind_nil; [apply reads_pos|]. eapply reads_last; [by apply reads_u32|]. eapply reads_bind_nil; [apply reads_pos|].
  eapply reads_bind_nil; [apply reads_ret|]. apply reads_ret.
Qed.
Lemma zeros_words n : replicate (4 * n) x00 = concat (replicate n (be_enc 4 0)).
Proof. induction n as [|n IH]; [done|]. replace (4 * S n)%nat with (S (S (S (S (4 * n))))) by lia. cbn [replicate concat]. by rewrite IH. Qed.
Lemma reads_nulls p show classes n : reads p (R.times n (R.any show classes)) (replicate (4 * n) x00) (replicate n None).
Proof.
  rewrite zeros_words. pose proof (reads_times (R.any show classes) (fun _ : unit => be_enc 4 0) (fun _ => None) (replicate n tt)
    (fun _ q _ => reads_null q show classes) p) as H. rewrite length_replicate, !fmap_replicate in H. exact H.
Qed.
Lemma reads_array p show classes n o vals : is_i32 n = true -> zlen (counted (array_head n ++ o)) < LIMIT ->
  (forall q, reads q (R.times (Z.to_nat n) (R.any show classes)) o vals) -> reads p (R.objarray show classes) (counted (array_head n ++ o)) vals.
Proof.
  intros Hn Hl Ho. rewrite counted_zlen in Hl. unfold array_head in *. rewrite <- app_assoc in *. rewrite (zlen_app (be_enc 2 _)), be_enc_zlen in Hl.
  match goal with |- context [counted (be_enc 2 OBJARRAY_VERSION ++ ?b)] => change (counted (be_enc 2 OBJARRAY_VERSION ++ b)) with (record_bytes OBJARRAY_VERSION b) end.
  unfold R.objarray. apply reads_whole; [done | lia|]. rewrite <- !app_assoc. eapply reads_bind; [apply RootInfos.reads_tobject|]. eapply reads_bind; [by apply reads_string|].
  eapply reads_bind; [by apply reads_i32|]. eapply reads_bind; [by apply reads_i32|]. eapply reads_last; [apply Ho|].
  eapply reads_bind_nil; [|apply reads_ret]. apply reads_resume. rewrite !zlen_app, !be_enc_zlen, zlen_nil. lia.
Qed.
End Readers.

Lemma writes_named name title : is_text name = true -> is_text title = true ->
  writes (named name title) (RootInfos.named_bytes name title) (carried name = true /\ carried title = true /\ zlen (RootInfos.named_bytes name title) < LIMIT).
Proof.
  intros Hn Ht. eapply writes_impl; [|reflexivity|].
  - apply writes_record, lays_wrote. eapply RootContainer.wrote_bind; [|eapply RootContainer.wrote_bind; by apply RootContainer.wrote_string].
    intros d d' H. rewrite RootInfos.emits_tobject in H. injection H as <-. exact (conj eq_refl I).
  - intros _ (Hl & _ & _ & Cn & Ct). done.
Qed.

(** ** Leaves *)

(** A column as [Column_init] makes it, with a name that is text. *)
Record column_typed (c : _Column) : Prop := {
  ct_leaf : dict_get (co_typecode c) LEAVES = Some (co_classname c, co_letter c, co_itemsize c, co_unsigned c);
  ct_length : 1 <= co_length c;
  ct_size : co_size c = co_length c * co_itemsize c;
  ct_name : is_text (co_name c) = true
}.
Definition leaf_of (c : _Column) : RT.LeafRecord :=
  RT.mkLeaf (co_classname c) (co_name c) (leaf_title c) (co_length c) (co_itemsize c) 0 (co_unsigned c) None (-1).

Definition leaf_fits (x : str * (str * str * Z * bool)) : bool :=
  let '(_, (cls, letter, size, _)) := x in
  is_text cls && bool_decide (x00 ∉ text_bytes cls) && bool_decide (cls ∈ dict_keys RT.LEAF_TYPES)
  && negb (bool_decide (cls = s_ "TLeafElement")) && is_text letter && bool_decide (size ∈ [1; 2; 4; 8]).
Lemma leaves_fit : forallb leaf_fits LEAVES = true.
Proof. vm_compute. reflexivity. Qed.
Lemma typed_leaf c : column_typed c -> is_text (co_classname c) = true /\ x00 ∉ text_bytes (co_classname c) /\ co_classname c ∈ dict_keys RT.LEAF_TYPES
  /\ co_classname c <> s_ "TLeafElement" /\ is_text (co_letter c) = true /\ co_itemsize c ∈ [1; 2; 4; 8].
Proof.
  intros [Hd _ _ _]. apply dict_get_Some_in in Hd. pose proof leaves_fit as H. rewrite forallb_forall in H. apply list_elem_of_In, H in Hd.
  cbn in Hd. rewrite !andb_true_iff, negb_true_iff, bool_decide_eq_false, !bool_decide_eq_true in Hd. naive_solver.
Qed.
Lemma typed_titles c : column_typed c -> is_text (leaf_title c) = true /\ is_text (title c) = true.
Proof.
  intros Hc. destruct (typed_leaf c Hc) as (_ & _ & _ & _ & Hl & _). pose proof (ct_name c Hc) as Hn.
  assert (H : is_text (leaf_title c) = true).
  { unfold leaf_title. case_goal; [done|]. apply text_app; [done|]. apply text_cons; [lia|]. apply text_app; [apply text_dec | by apply text_char]. }
  split; [done|]. unfold title. apply text_app; [done|]. by apply text_cons; [lia|].
Qed.

Lemma class_of_leaf show d cls : cls ∈ dict_keys RT.LEAF_TYPES -> exists inner,
  RT.CLASSES show d cls = Some (l ← RT.read_leaf show inner cls; mret (RT.PLeaf l)).
Proof.
  intros Hc. destruct d; cbn [RT.CLASSES]; (rewrite bool_decide_eq_true_2 by (apply elem_of_app; by left)); by eexists.
Qed.
Lemma class_of_branch show d : RT.CLASSES show (S d) (s_ "TBranch") = Some (b ← RT.read_branch show (RT.CLASSES show d); mret (RT.PBranch b)).
Proof. reflexivity. Qed.

#[local] Opaque be_enc.
Section Parts.
Variable show : RT.part -> str.

(** The fields of a leaf, and the record around them. *)
Definition leaf_fields (c : _Column) : bytes :=
  RootInfos.named_bytes (co_name c) (leaf_title c) ++ be_enc 4 (co_length c) ++ be_enc 4 (co_itemsize c) ++ be_enc 4 0
  ++ be_enc 1 0 ++ be_enc 1 (if co_unsigned c then 1 else 0) ++ be_enc 4 0.
Definition leaf_record (c : _Column) : bytes :=
  record_bytes SUBLEAF_VERSION (record_bytes LEAF_VERSION (leaf_fields c) ++ replicate (Z.to_nat (2 * co_itemsize c)) x00).

Lemma writes_leaf c : column_typed c -> writes (_leaf c) (tag_bytes (co_classname c) (leaf_record c))
  (zlen (tag_bytes (co_classname c) (leaf_record c)) < LIMIT
   /\ carried (co_name c) = true /\ carried (leaf_title c) = true /\ is_i32 (co_length c) = true /\ is_i32 (co_itemsize c) = true).
Proof.
  intros Hc. destruct (typed_leaf c Hc) as (Tc & Nc & Kc & Ec & _ & _). destruct (typed_titles c Hc) as [Tl _].
  unfold _leaf. apply lays_here. intros i. apply lays_ret_after. eapply writes_impl; [apply writes_within; [by apply opens_tag|]; apply writes_within; [apply opens_start|];
    eapply writes_seq; [apply writes_within; [apply opens_start|]| | ] | |].
  - eapply writes_seq; [apply writes_named; [apply (ct_name c Hc) | done]| growing | intros _ _].
    apply lays_wrote. repeat (eapply RootContainer.wrote_bind; [first [apply RootContainer.wrote_i32 | apply RootContainer.wrote_u8]|]). apply RootContainer.wrote_u32.
  - growing.
  - intros _ _. apply lays_wrote, RootContainer.wrote_raw.
  - unfold tag_bytes, leaf_record, record_bytes, leaf_fields. by rewrite <- !app_assoc.
  - naive_solver.
Qed.

Lemma reads_leaf c d p : column_typed c -> zlen (tag_bytes (co_classname c) (leaf_record c)) < LIMIT ->
  carried (co_name c) = true -> carried (leaf_title c) = true -> is_i32 (co_length c) = true -> is_i32 (co_itemsize c) = true ->
  reads p (R.any show (RT.CLASSES show d)) (tag_bytes (co_classname c) (leaf_record c)) (Some (R.Object (RT.PLeaf (leaf_of c)))).
Proof.
  intros Hc Hl Cn Ct Il Ii. destruct (typed_leaf c Hc) as (Tc & Nc & Kc & Ec & _ & Hi). unfold tag_bytes in Hl.
  rewrite counted_zlen, !zlen_app, be_enc_zlen in Hl. change (zlen [x00]) with 1 in Hl.
  destruct (class_of_leaf show d (co_classname c) Kc) as [inner Ek]. eapply reads_any; [done | done | lia | exact Ek|]. clear Ek.
  pose proof (zlen_nonneg (text_bytes (co_classname c))). unfold leaf_record in Hl |- *. set (z := replicate _ x00) in *. unfold record_bytes at 1 in Hl.
  rewrite counted_zlen, !zlen_app, be_enc_zlen in Hl. pose proof (zlen_nonneg z). unfold record_bytes at 1 in Hl. rewrite counted_zlen, zlen_app, be_enc_zlen in Hl.
  assert (Hf : zlen (leaf_fields c) < LIMIT) by lia. eapply reads_last; [|apply reads_ret]. unfold RT.read_leaf. apply reads_whole; [done| |].
  { rewrite zlen_app. unfold record_bytes. rewrite counted_zlen, zlen_app, be_enc_zlen. lia. }
  apply reads_record; [done | lia|]. unfold leaf_fields in Hf |- *. rewrite <- !app_assoc.
  eapply reads_bind; [apply reads_named_any; [done | done | rewrite zlen_app in Hf; pose proof (zlen_nonneg (be_enc 4 (co_length c) ++ be_enc 4 (co_itemsize c) ++ be_enc 4 0 ++ be_enc 1 0 ++ be_enc 1 (if co_unsigned c then 1 else 0) ++ be_enc 4 0)); lia]|].
  cbn beta iota. do 3 (eapply reads_bind; [by apply reads_i32|]). eapply reads_bind; [apply (reads_bool _ false)|]. eapply reads_bind; [apply reads_bool|].
  eapply reads_bind; [apply reads_null|]. eapply reads_bind_nil; [apply reads_resume; rewrite !zlen_app, !be_enc_zlen, zlen_nil; lia|].
  rewrite bool_decide_eq_false_2 by done. eapply reads_bind_nil; [apply reads_ret|].
  eapply reads_last; [apply reads_resume|].
  { unfold record_bytes at 1. rewrite !zlen_app, counted_zlen, !zlen_app, !be_enc_zlen. lia. }
  pose proof (ct_length c Hc). replace (co_length c =? 0) with false by (symmetry; apply Z.eqb_neq; lia). apply reads_ret.
Qed.
Lemma lays_leaf c : column_typed c ->
  lays (_leaf c) (fun o => forall d p, reads p (R.any show (RT.CLASSES show d)) o (Some (R.Object (RT.PLeaf (leaf_of c))))).
Proof. intros Hc. eapply lays_impl; [by apply writes_leaf|]. cbn beta. intros o (-> & Hl & Cn & Ct & Il & Ii) d p. by apply reads_leaf. Qed.

(** ** Branches *)

Section OneBranch.
Variable c : _Column.
Variable entries compress : Z.
Hypothesis Hc : column_typed c.
Let written := zlen (co_seeks c).
Let width := Z.max MIN_BASKETS (written + 1).

Definition fields_bytes : bytes :=
  RootInfos.named_bytes (co_name c) (title c) ++ record_bytes ATTRIBUTE_VERSION (be_enc 2 0 ++ be_enc 2 0)
  ++ be_enc 4 compress ++ be_enc 4 (co_basket_size c) ++ be_enc 4 0 ++ be_enc 4 written ++ be_enc 8 entries
  ++ be_enc 4 0 ++ be_enc 4 width ++ be_enc 4 0
  ++ be_enc 8 entries ++ be_enc 8 0 ++ be_enc 8 (co_tot_bytes c) ++ be_enc 8 (co_zip_bytes c).
Definition arrays_bytes : bytes :=
  counted (array_head 0) ++ counted (array_head 1 ++ tag_bytes (co_classname c) (leaf_record c))
  ++ counted (array_head (written + 1) ++ replicate (4 * Z.to_nat (written + 1)) x00).
Definition tables_bytes : bytes :=
  be_enc 1 1 ++ concat (be_enc 4 <$> slots (co_sizes c) width) ++ be_enc 1 1 ++ concat (be_enc 8 <$> slots (co_starts c) width)
  ++ be_enc 1 1 ++ concat (be_enc 8 <$> slots (co_seeks c) width) ++ string_bytes [].
Definition branch_bytes : bytes := tag_bytes (s_ "TBranch") (record_bytes BRANCH_VERSION (fields_bytes ++ arrays_bytes ++ tables_bytes)).

Record fields_written : Prop := {
  fw_name : carried (co_name c) = true; fw_title : carried (title c) = true; fw_named : zlen (RootInfos.named_bytes (co_name c) (title c)) < LIMIT;
  fw_i32 : is_i32 compress = true /\ is_i32 (co_basket_size c) = true /\ is_i32 written = true /\ is_i32 width = true;
  fw_i64 : - 2 ^ 63 <= entries < 2 ^ 63 /\ - 2 ^ 63 <= co_tot_bytes c < 2 ^ 63 /\ - 2 ^ 63 <= co_zip_bytes c < 2 ^ 63
}.
Record tables_written : Prop := {
  tw_sizes : zlen (co_sizes c) <= width /\ forallb (is_int 4) (slots (co_sizes c) width) = true;
  tw_starts : zlen (co_starts c) <= width /\ forallb (is_int 8) (slots (co_starts c) width) = true;
  tw_seeks : zlen (co_seeks c) <= width /\ forallb (is_int 8) (slots (co_seeks c) width) = true
}.
Lemma writes_fields : writes (branch_fields c entries compress written width) fields_bytes fields_written.
Proof.
  destruct (typed_titles c Hc) as [_ Tt]. unfold branch_fields. eapply writes_impl.
  - eapply writes_seq; [apply writes_named; [exact (ct_name c Hc) | exact Tt] | growing | intros _ _].
    eapply writes_seq; [apply writes_record, lays_wrote, (RootContainer.wrote_each i16 _ _ _ RootContainer.wrote_i16) | growing | intros _ _].
    apply lays_wrote. cbn [each]. eapply RootContainer.wrote_bind; [repeat (eapply RootContainer.wrote_bind; [apply RootContainer.wrote_i32|]); apply wrote_ret|].
    eapply RootContainer.wrote_bind; [apply wrote_i64|]. eapply RootContainer.wrote_bind; [repeat (eapply RootContainer.wrote_bind; [apply RootContainer.wrote_i32|]); apply wrote_ret|].
    repeat (eapply RootContainer.wrote_bind; [apply wrote_i64|]). apply wrote_ret.
  - unfold fields_bytes. cbn [fmap list_fmap concat]. by rewrite !app_nil_r, <- !app_assoc.
  - intros _ H. constructor; naive_solver.
Qed.
Lemma writes_tables : writes (branch_tables c width) tables_bytes tables_written.
Proof.
  unfold branch_tables. eapply writes_impl.
  - apply lays_wrote. do 3 (eapply RootContainer.wrote_bind; [by apply wrote_table|]). by apply RootContainer.wrote_string.
  - unfold tables_bytes. by rewrite <- !app_assoc.
  - intros _ H. constructor; naive_solver.
Qed.
Lemma grows_leaf : grows (_leaf c).
Proof. unfold _leaf. growing. Qed.
Lemma grows_table values w code : grows (_table values w code).
Proof. unfold _table. growing. Qed.
Hint Resolve grows_leaf grows_table : grows.
Lemma grows_branch_parts : grows (branch_fields c entries compress written width) /\ grows (branch_tables c width).
Proof. unfold branch_fields, branch_tables. split; growing. Qed.

Record branch_written : Prop := {
  bw_fields : fields_written; bw_tables : tables_written; bw_count : is_i32 (written + 1) = true;
  bw_leaf : carried (leaf_title c) = true /\ is_i32 (co_length c) = true /\ is_i32 (co_itemsize c) = true;
  bw_arrays : zlen (counted (array_head 0)) < LIMIT /\ zlen (counted (array_head 1 ++ tag_bytes (co_classname c) (leaf_record c))) < LIMIT
    /\ zlen (tag_bytes (co_classname c) (leaf_record c)) < LIMIT
    /\ zlen (counted (array_head (written + 1) ++ replicate (4 * Z.to_nat (written + 1)) x00)) < LIMIT;
  bw_whole : zlen branch_bytes < LIMIT
}.
Lemma writes_branch : writes (_branch c entries compress) branch_bytes branch_written.
Proof.
  destruct grows_branch_parts as [Gf Gt]. unfold _branch. fold written. fold width. eapply writes_impl.
  - apply writes_within; [by apply opens_tag|]. apply writes_within; [apply opens_start|].
    eapply writes_seq; [exact writes_fields | growing | intros _ _].
    eapply writes_seq; [apply writes_within; [apply opens_objarray | apply lays_wrote, wrote_ret] | growing | intros _ _].
    eapply writes_seq; [apply writes_within; [apply opens_objarray | by apply writes_leaf] | growing | intros pl _].
    eapply writes_seq; [apply writes_within; [apply opens_objarray | apply lays_wrote, RootContainer.wrote_raw] | growing | intros _ _].
    apply (lays_ret_after _ (fun _ => pl)), writes_tables.
  - unfold branch_bytes, arrays_bytes, tag_bytes, record_bytes. by rewrite app_nil_r, <- !app_assoc.
  - rewrite app_nil_r. intros Hl H. destruct H as (_ & _ & _ & _ & H1 & (H2 & _) & (H3 & _ & H4) & (H5 & H6 & _) & H7). constructor; naive_solver.
Qed.

Hypothesis Hsizes : zlen (co_sizes c) = written.
Hypothesis Hstarts : zlen (co_starts c) = written + 1.
Definition branch_of : RT.BranchRecord :=
  RT.mkBranchRecord (co_name c) (title c) [] 0 entries 0 (co_sizes c) (co_starts c) (co_seeks c) [leaf_of c] [] [] false false.

Lemma reads_table_i32 p values : zlen values <= width -> forallb (is_int 4) (slots values width) = true ->
  reads (V := RT.part) p (R.i32s width) (concat (be_enc 4 <$> slots values width)) (slots values width).
Proof. intros Hl Hi. rewrite <- (slots_zlen values width Hl) at 1. apply (reads_run 4); [lia | done]. Qed.
Lemma reads_table_i64 p values : zlen values <= width -> forallb (is_int 8) (slots values width) = true ->
  reads (V := RT.part) p (R.i64s width) (concat (be_enc 8 <$> slots values width)) (slots values width).
Proof. intros Hl Hi. rewrite <- (slots_zlen values width Hl) at 1. apply (reads_run 8); [lia | done]. Qed.

Lemma held_nulls n : RT._held (replicate n None) = [].
Proof. by destruct n. Qed.
Lemma app_four (a b e f r : bytes) : a ++ b ++ e ++ f ++ r = (a ++ b ++ e ++ f) ++ r.
Proof. by rewrite <- !app_assoc. Qed.
Lemma app_three (a b e r : bytes) : a ++ b ++ e ++ r = (a ++ b ++ e) ++ r.
Proof. by rewrite <- !app_assoc. Qed.
Lemma reads_branch d p : branch_written ->
  reads p (R.any show (RT.CLASSES show (S d))) branch_bytes (Some (R.Object (RT.PBranch branch_of))).
Proof.
  intros [[F1 F2 F3 (F4 & F5 & F6 & F7) (F8 & F9 & F10)] [[T1 T2] [T3 T4] [T5 T6]] Bc (L1 & L2 & L3) (A1 & A2 & A3 & A4) Bw].
  unfold branch_bytes in *. unfold tag_bytes in Bw. rewrite counted_zlen, !zlen_app, be_enc_zlen in Bw. unfold record_bytes in Bw. rewrite counted_zlen, (zlen_app (be_enc 2 _)), be_enc_zlen in Bw.
  change (zlen (text_bytes (s_ "TBranch"))) with 7 in Bw. change (zlen [x00]) with 1 in Bw.
  eapply reads_any; [done | apply (bool_decide_eq_true_1 _); vm_compute; reflexivity | | apply class_of_branch |].
  { unfold record_bytes. rewrite counted_zlen, (zlen_app (be_enc 2 _)), be_enc_zlen. change (zlen (text_bytes (s_ "TBranch"))) with 7. lia. }
  eapply reads_last; [|apply reads_ret]. unfold RT.read_branch. apply reads_whole; [done | lia|]. cbn beta iota.
  change (BRANCH_VERSION <? 6) with false. change (10 <=? BRANCH_VERSION) with true. change (7 <? BRANCH_VERSION) with true. change (13 <=? BRANCH_VERSION) with false.
  change (6 <? BRANCH_VERSION) with true. change (11 <=? BRANCH_VERSION) with true. cbv beta iota zeta. unfold fields_bytes, arrays_bytes, tables_bytes. rewrite <- !app_assoc.
  eapply reads_bind; [by apply reads_named_any|]. cbn beta iota. eapply reads_bind; [by apply reads_skip|].
  do 4 (eapply reads_bind; [by apply reads_i32|]). eapply reads_bind; [apply reads_i64; lia|]. eapply reads_bind_nil; [apply reads_ret|].
  do 3 (eapply reads_bind; [by apply reads_i32|]).
  match goal with |- reads _ _ (?a ++ ?b ++ ?e ++ ?f ++ ?r) _ => rewrite (app_four a b e f r) end. eapply reads_bind.
  { eapply reads_bind; [apply reads_i64; lia|]. eapply reads_bind; [apply reads_i64; lia|]. eapply reads_bind; [apply reads_i64; lia|].
    eapply reads_last; [apply reads_i64; lia|]. apply reads_ret. }
  cbn beta iota.
  eapply reads_bind; [rewrite <- (app_nil_r (array_head 0)); apply (reads_array _ _ _ 0 [] []); [done | by rewrite app_nil_r | intros q; apply reads_ret]|].
  eapply reads_bind; [apply (reads_array _ _ _ 1 _ [Some (R.Object (RT.PLeaf (leaf_of c)))]); [done | done | intros q; eapply reads_last; [by apply reads_leaf|]; eapply reads_bind_nil; apply reads_ret]|].
  eapply reads_bind; [apply (reads_array _ _ _ (written + 1) _ (replicate (Z.to_nat (written + 1)) None)); [done | done | intros q; apply reads_nulls]|].
  eapply reads_bind; [by apply reads_u8|]. eapply reads_bind; [by apply reads_table_i32|]. eapply reads_bind; [by apply reads_u8|].
  match goal with |- reads _ _ (?a ++ ?b ++ ?e ++ ?r) _ => rewrite (app_three a b e r) end. eapply reads_bind.
  { eapply reads_bind; [by apply reads_table_i64|]. eapply reads_bind; [by apply reads_u8|]. eapply reads_last; [by apply reads_table_i64|]. apply reads_ret. }
  cbn beta iota zeta. eapply reads_last; [apply reads_resume; rewrite !zlen_app, !be_enc_zlen; lia|].
  rewrite held_nulls. change (zlen []) with 0. cbn [Z.eqb negb andb].
  assert (E1 : RT.first (slots (co_sizes c) width) written = co_sizes c) by (rewrite <- Hsizes; apply first_slots).
  assert (E2 : RT.first (slots (co_starts c) width) (written + 1) = co_starts c) by (rewrite <- Hstarts; apply first_slots).
  rewrite (first_slots (co_seeks c) width : RT.first (slots (co_seeks c) width) written = _), E1, E2. apply reads_ret.
Qed.
End OneBranch.

(** As many places as sizes, and one start more. *)
Record column_shaped (c : _Column) : Prop := {
  cs_typed : column_typed c; cs_sizes : zlen (co_sizes c) = zlen (co_seeks c); cs_starts : zlen (co_starts c) = zlen (co_seeks c) + 1
}.
Definition branch_item (entries : Z) (c : _Column) : option (R.ref RT.part) := Some (R.Object (RT.PBranch (branch_of c entries))).

Lemma grows_branch c entries compress : grows (_branch c entries compress).
Proof.
  unfold _branch, branch_fields, branch_tables. pose proof (grows_leaf c). pose proof grows_table. growing.
Qed.
Lemma grows_branches entries compress l : grows (branches l entries compress).
Proof. pose proof grows_branch. induction l as [|c l IH]; cbn [branches]; growing. Qed.
Lemma lays_branches entries compress l : Forall column_shaped l ->
  lays (branches l entries compress) (fun o => forall d p, reads p (R.times (length l) (R.any show (RT.CLASSES show (S d)))) o (branch_item entries <$> l)).
Proof.
  pose proof (grows_branches entries compress) as G. induction 1 as [|c l [Ht Hs Hst] _ IH]; cbn [branches]; [apply lays_ret; intros d p; apply reads_ret|].
  eapply lays_bind; [by apply writes_branch | growing|]. intros a o1 [-> H1].
  apply lays_ret_after. eapply lays_impl; [exact IH|]. cbn beta. intros o H2 d p. cbn [length R.times fmap list_fmap].
  eapply reads_bind; [by apply reads_branch|]. eapply reads_last; [apply H2|]. apply reads_ret.
Qed.

(** ** Trees *)

Lemma reads_f64 p v : exists r, reads (V := RT.part) p R.f64 (be_enc 8 v) r.
Proof. eexists. apply (reads_field p 8 _ unpack_u); [apply be_enc_length | reflexivity]. Qed.

Definition attributes_bytes : bytes :=
  record_bytes ATTRIBUTE_VERSION (be_enc 2 602 ++ be_enc 2 1 ++ be_enc 2 1) ++ record_bytes ATTRIBUTE_VERSION (be_enc 2 0 ++ be_enc 2 1001)
  ++ record_bytes ATTRIBUTE_VERSION (be_enc 2 1 ++ be_enc 2 1 ++ be_enc 4 0x3F800000).
Lemma writes_attributes : writes _attributes attributes_bytes True.
Proof.
  unfold _attributes. eapply writes_impl.
  - eapply writes_seq; [apply writes_record, lays_wrote, (RootContainer.wrote_each i16 _ _ _ RootContainer.wrote_i16) | growing | intros _ _].
    eapply writes_seq; [apply writes_record, lays_wrote, (RootContainer.wrote_each i16 _ _ _ RootContainer.wrote_i16) | growing | intros _ _].
    apply writes_record, lays_wrote. eapply RootContainer.wrote_bind; [apply (RootContainer.wrote_each i16 _ _ _ RootContainer.wrote_i16)|].
    apply (RootContainer.wrote_packs _ (be_enc 4 0x3F800000) True). intros b. vm_compute. intros [= <-]. done.
  - unfold attributes_bytes. cbn [fmap list_fmap concat]. by rewrite !app_nil_r, <- !app_assoc.
  - done.
Qed.

Section OneTree.
Variable t : WritableTree.
Variable compress : Z.
Hypothesis Tn : is_text (wt_name t) = true.
Hypothesis Tt : is_text (wt_title t) = true.
Let columns := (wt_columns t).*2.
Hypothesis Hcolumns : Forall column_shaped columns.

Definition counts_bytes : bytes :=
  be_enc 8 (wt_entries t) ++ be_enc 8 (total co_tot_bytes columns) ++ be_enc 8 (total co_zip_bytes columns) ++ be_enc 8 0 ++ be_enc 8 0 ++ be_enc 8 WEIGHT
  ++ be_enc 4 0 ++ be_enc 4 SCAN_FIELD ++ be_enc 4 0 ++ be_enc 4 OFFSET_LEN ++ be_enc 4 0
  ++ be_enc 8 MAX_ENTRIES ++ be_enc 8 MAX_ENTRIES ++ be_enc 8 0 ++ be_enc 8 AUTO_SAVE ++ be_enc 8 AUTO_FLUSH ++ be_enc 8 ESTIMATE ++ be_enc 1 0 ++ be_enc 1 0.
Lemma writes_tree_fields : writes (tree_fields t) (RootInfos.named_bytes (wt_name t) (wt_title t) ++ attributes_bytes ++ counts_bytes)
  ((carried (wt_name t) = true /\ carried (wt_title t) = true /\ zlen (RootInfos.named_bytes (wt_name t) (wt_title t)) < LIMIT)
   /\ - 2 ^ 63 <= wt_entries t < 2 ^ 63 /\ - 2 ^ 63 <= total co_tot_bytes columns < 2 ^ 63 /\ - 2 ^ 63 <= total co_zip_bytes columns < 2 ^ 63).
Proof.
  unfold tree_fields. eapply writes_impl.
  - eapply writes_seq; [by apply writes_named | unfold _attributes; growing | intros _ _].
    eapply writes_seq; [apply writes_attributes | growing | intros _ _].
    apply lays_wrote. cbn [each]. eapply RootContainer.wrote_bind; [repeat (eapply RootContainer.wrote_bind; [apply wrote_i64|]); apply wrote_ret|].
    eapply RootContainer.wrote_bind; [apply (RootContainer.wrote_packs _ (be_enc 8 WEIGHT) True); intros b; vm_compute; intros [= <-]; done|].
    eapply RootContainer.wrote_bind; [repeat (eapply RootContainer.wrote_bind; [apply RootContainer.wrote_i32|]); apply wrote_ret|].
    eapply RootContainer.wrote_bind; [repeat (eapply RootContainer.wrote_bind; [apply wrote_i64|]); apply wrote_ret|].
    eapply RootContainer.wrote_bind; apply RootContainer.wrote_u8.
  - unfold counts_bytes. by rewrite !app_nil_r, <- !app_assoc.
  - intros _ H. naive_solver.
Qed.

(** The rest of a tree's record, which is stepped over. *)
Definition behind (places : list nat) (origin : Z) : wb unit :=
  within (_objarray (zlen columns)) (each (fun p : nat => u32 (origin + Z.of_nat p + R.MAP_OFFSET)) places) ≫= fun _ =>
  each u32 [0] ≫= fun _ => each i32 [0; 0] ≫= fun _ => each u32 [0; 0; 0; 0].
Lemma lays_behind places origin : lays (behind places origin) (fun _ => True).
Proof.
  unfold behind. eapply lays_bind.
  - apply lays_within; [apply opens_objarray|]. apply lays_wrote, RootContainer.wrote_each. intros a. apply RootContainer.wrote_u32.
  - growing.
  - intros _ o1 _. eapply lays_impl; [apply lays_wrote; cbn [each]; repeat (eapply RootContainer.wrote_bind;
      [first [apply RootContainer.wrote_i32 | apply RootContainer.wrote_u32 | repeat (eapply RootContainer.wrote_bind; [first [apply RootContainer.wrote_i32 | apply RootContainer.wrote_u32]|]); apply wrote_ret]|]); apply wrote_ret | done].
Qed.

Definition tree_body (out : bytes) : Prop :=
  exists o rest, out = (RootInfos.named_bytes (wt_name t) (wt_title t) ++ attributes_bytes ++ counts_bytes) ++ counted (array_head (zlen columns) ++ o) ++ rest
  /\ ((carried (wt_name t) = true /\ carried (wt_title t) = true /\ zlen (RootInfos.named_bytes (wt_name t) (wt_title t)) < LIMIT)
       /\ - 2 ^ 63 <= wt_entries t < 2 ^ 63 /\ - 2 ^ 63 <= total co_tot_bytes columns < 2 ^ 63 /\ - 2 ^ 63 <= total co_zip_bytes columns < 2 ^ 63)
  /\ zlen (counted (array_head (zlen columns) ++ o)) < LIMIT /\ is_i32 (zlen columns) = true
  /\ forall d p, reads p (R.times (length columns) (R.any show (RT.CLASSES show (S d)))) o (branch_item (wt_entries t) <$> columns).

Lemma tree_payload_written origin b : tree_payload t compress origin = Ok b -> zlen b < LIMIT -> exists o, b = record_bytes TREE_VERSION o /\ tree_body o.
Proof.
  unfold tree_payload. fold columns. apply (lays_built _ (fun b => exists o, b = record_bytes TREE_VERSION o /\ tree_body o)). eapply lays_impl; [refine (lays_within _ _ _ _ tree_body (opens_start TREE_VERSION) _)|].
  - eapply lays_bind; [apply writes_tree_fields| |].
    + pose proof (grows_branches (wt_entries t) compress). growing.
    + intros _ o1 [-> H1]. eapply lays_bind; [apply lays_within; [apply opens_objarray | by apply lays_branches]| growing |].
      cbn beta. intros places o2 (Hl & ob & -> & Hi & Hr). eapply lays_impl; [apply (lays_behind places origin)|].
      cbn beta. intros rest _. by exists ob, rest.
  - cbn beta. intros o (Hl & ? & -> & _ & H). by eexists.
Qed.

Lemma branch_parts_items entries l : RT.branch_parts (branch_item entries <$> l) = (fun c => branch_of c entries) <$> l.
Proof. induction l as [|c l IH]; [done|]. cbn. f_equal. exact IH. Qed.
Lemma reads_thrice {A} p (k : unit -> st exn (R.Buffer RT.part) A) (r : st exn (R.Buffer RT.part) Z) e1 e2 e3 e v1 v2 v3 a :
  (forall q, reads q r e1 v1) -> (forall q, reads q r e2 v2) -> (forall q, reads q r e3 v3) ->
  (forall q, q = p + zlen (e1 ++ e2 ++ e3) -> reads q (k tt) e a) -> reads p (RT.repeat 3 r ≫= k) (e1 ++ e2 ++ e3 ++ e) a.
Proof.
  intros H1 H2 H3 Hk. rewrite app_three. eapply reads_bind; [|by apply Hk]. cbn [RT.repeat]. eapply reads_bind; [apply H1|]. eapply reads_bind; [apply H2|].
  eapply reads_last; [apply H3|]. apply reads_ret.
Qed.
Lemma reads_tree_record d p origin b : tree_payload t compress origin = Ok b -> zlen b < LIMIT ->
  reads p (RT.read_tree show (S d) (s_ "TTree")) b (wt_title t, wt_entries t, (fun c => branch_of c (wt_entries t)) <$> columns).
Proof.
  intros H Hl. destruct (tree_payload_written _ _ H Hl) as (o & -> & ob & rest & -> & ((C1 & C2 & C3) & N1 & N2 & N3) & La & Na & Hr). clear H.
  unfold record_bytes in Hl. rewrite counted_zlen, (zlen_app (be_enc 2 _)), be_enc_zlen in Hl. unfold RT.read_tree.
  eapply reads_bind_nil; [apply reads_ret|]. apply reads_whole; [done | lia|]. cbn beta iota.
  change (TREE_VERSION <? 5) with false. change (5 <? TREE_VERSION) with true. change (18 <=? TREE_VERSION) with true. change (16 <=? TREE_VERSION) with true.
  change (17 <=? TREE_VERSION) with true. change (19 <=? TREE_VERSION) with true. change (20 <=? TREE_VERSION) with false. cbv beta iota zeta.
  rewrite <- !app_assoc. eapply reads_bind; [by apply reads_named_any|]. cbn beta iota.
  unfold attributes_bytes. rewrite <- !app_assoc. eapply reads_thrice; [intros q; by apply reads_skip..|]. intros q1 E1.
  unfold counts_bytes. rewrite <- !app_assoc. eapply reads_bind; [by apply reads_i64|]. eapply reads_thrice; [intros q; apply reads_i64; lia..|]. intros q2 E2.
  eapply reads_bind; [apply reads_i64; lia|]. destruct (reads_f64 (q2 + zlen (be_enc 8 0)) WEIGHT) as [r Hf]. eapply reads_bind; [exact Hf|]. clear Hf.
  eapply reads_thrice; [intros q; by apply reads_i32..|]. intros q3 E3. do 2 (eapply reads_bind; [by apply reads_i32|]).
  eapply reads_bind; [apply reads_i64; unfold MAX_ENTRIES; lia|].
  eapply reads_thrice; [intros q; apply reads_i64; unfold MAX_ENTRIES, AUTO_SAVE; lia..|]. intros q4 E4.
  do 2 (eapply reads_bind; [apply reads_i64; unfold AUTO_FLUSH, ESTIMATE; lia|]).
  match goal with |- reads _ _ (?a ++ ?b ++ ?r) _ => rewrite (app_assoc a b r) end. eapply reads_bind.
  { eapply reads_bind; [by apply reads_u8|]. eapply reads_bind_nil; [by apply (reads_run 8 _ []); [lia|]|]. eapply reads_last; [by apply reads_u8|]. by apply (reads_run 8 _ []); [lia|]. }
  eapply reads_bind_nil; [apply reads_ret|].
  eapply reads_bind; [apply (reads_array _ _ _ (zlen columns) ob (branch_item (wt_entries t) <$> columns)); [done | done|]|].
  { intros q. unfold zlen. rewrite Nat2Z.id. apply Hr. }
  eapply reads_last; [apply reads_resume|].
  { subst q1 q2 q3 q4. unfold attributes_bytes, counts_bytes. rewrite !zlen_app, !be_enc_zlen. lia. }
  rewrite branch_parts_items. apply reads_ret.
Qed.
End OneTree.
End Parts.
End RootTreeRecord.
