(* ===== verification/RootFill.v ===== *)
(** * Filling a tree

    The values of a row as a column packs them and as they are read, and the
    invariant a tree stays while it is filled (RootWriter): the entries of every
    column are the rows that were taken, in baskets that are in the file or
    still being gathered. *)

From S2P Require Import Prelude PyStr Errors Buffer Url UrlText Compression CompressionProps RootBuffer RootFile Winfo RootPack RootEncoding RootInfos RootWriter RootContainer RootInterp RootTree RootTreeRecord.
Open Scope Z_scope.

Module RootFill.
Module R := RootBuffer.
Module RT := RootTree.
Import RootPack RootEncoding RootWriter RootTreeRecord.

(** ** Values *)

(** The number an array holds for a value of a column: of a float its bits. *)
Definition number (code : str) (v : pyval) : Z :=
  if bool_decide (code = s_ "?") then (if truthy v then 1 else 0)
  else if bool_decide (code = s_ "f") then
    match pack_double v with Ok bits => default 0 (float_narrow bits) | Err _ => 0 end
  else if bool_decide (code = s_ "d") then match pack_double v with Ok bits => bits | Err _ => 0 end
  else match v with PInt n => n | PBool true => 1 | _ => 0 end.
(** The numbers of one entry. *)
Definition entry_values (c : _Column) (v : pyval) : list Z :=
  if co_length c =? 1 then [number (co_typecode c) v] else
  match bool_decide (co_typecode c = s_ "B"), v with
  | true, PBytes b => b2z <$> b
  | _, _ => match py_list v with Ok l => number (co_typecode c) <$> l | Err _ => [] end
  end.
(** Truth is read back as a small number. *)
Definition read_code (code : str) : str := if bool_decide (code = s_ "?") then s_ "b" else code.

Lemma cut_every_app n j k (a b : bytes) : length a = (j * n)%nat -> R.cut_every n (j + k) (a ++ b) = R.cut_every n j a ++ R.cut_every n k b.
Proof.
  revert a. induction j as [|j IH]; intros a Ha; [by destruct a|]. cbn [Nat.add R.cut_every app].
  rewrite take_app_le, drop_app_le by lia. f_equal. apply IH. rewrite length_drop. lia.
Qed.
Lemma native_app code a b x y : RootInterp.native code a = Ok x -> RootInterp.native code b = Ok y -> RootInterp.native code (a ++ b) = Ok (x ++ y).
Proof.
  unfold RootInterp.native. destruct (dict_get code RootInterp.CODES) as [[n sg]|] eqn:Ec; [|done].
  assert (Hn : (0 < n)%nat).
  { apply dict_get_Some_in in Ec. assert (A : forallb (fun x => Nat.ltb 0 x.2.1) RootInterp.CODES = true) by reflexivity. rewrite forallb_forall in A.
    apply list_elem_of_In, A in Ec. by apply Nat.ltb_lt in Ec. }
  case_goal; [|done]. intros [= <-]. case_goal; [|done]. intros [= <-]. zbool. unfold zlen in *.
  assert (Ha : length a = (Nat.div (length a) n * n)%nat) by (apply Nat2Z.inj; rewrite Nat2Z.inj_mul, Nat2Z.inj_div; apply Z.div_exact in E; [lia | lia]).
  assert (Hb : length b = (Nat.div (length b) n * n)%nat) by (apply Nat2Z.inj; rewrite Nat2Z.inj_mul, Nat2Z.inj_div; apply Z.div_exact in E0; [lia | lia]).
  rewrite length_app. replace (Nat.div (length a + length b) n) with (Nat.div (length a) n + Nat.div (length b) n)%nat
    by (apply Nat.div_unique_exact; lia).
  rewrite Nat2Z.inj_add, Z.add_mod, E, E0, Z.mod_0_l by lia. cbn [Z.eqb].
  rewrite cut_every_app by done. by rewrite fmap_app.
Qed.

(** One number of [n] bytes. *)
Lemma native_one code n sg b : dict_get code RootInterp.CODES = Some (n, sg) -> length b = n -> (0 < n)%nat ->
  RootInterp.native code b = Ok [(if sg then unpack_i else unpack_u) b].
Proof.
  intros Hc Hl Hn. unfold RootInterp.native. rewrite Hc. unfold zlen. rewrite Hl, Z.mod_same by lia. cbn [Z.eqb]. rewrite Nat.div_same by lia.
  cbn [R.cut_every]. by rewrite take_ge by lia.
Qed.

(** One value as it is packed, and as it is read. *)
Definition numeric (code : str) (size : Z) : Prop := exists n sg f, dict_get code PACKS = Some f /\ dict_get (read_code code) RootInterp.CODES = Some (n, sg)
  /\ Z.of_nat n = size /\ (0 < n)%nat /\ forall v b, f v = Ok b -> length b = n /\ (if sg : bool then unpack_i else unpack_u) b = number code v.

Lemma int_read (sg : bool) n v b : (0 < n)%nat -> pack_int sg n v = Ok b ->
  length b = n /\ (if sg then unpack_i else unpack_u) b = match v with PInt n => n | PBool true => 1 | _ => 0 end.
Proof.
  intros Hn. assert (Hs : forall i : bool, - 2 ^ (8 * Z.of_nat n - 1) <= (if i then 1 else 0) < 2 ^ (8 * Z.of_nat n - 1)).
  { intros i. assert (2 ^ 1 <= 2 ^ (8 * Z.of_nat n - 1)) by (apply Z.pow_le_mono_r; lia). destruct i; lia. }
  destruct v as [|i|i| | | | | | | | | |]; try discriminate; cbn [pack_int].
  - intros [-> Hi]%RootContainer.pack_u_inv. split; [apply be_enc_length|]. specialize (Hs i). destruct sg, i; first [by apply unpack_i_enc | by apply be_dec_enc_small].
  - destruct sg.
    + intros [-> Hi]%RootContainer.pack_i_inv. split; [apply be_enc_length|]. by apply unpack_i_enc.
    + intros [-> Hi]%RootContainer.pack_u_inv. split; [apply be_enc_length|]. by apply be_dec_enc_small.
Qed.
Lemma codes_numeric code cls letter size un : dict_get code LEAVES = Some (cls, letter, size, un) -> numeric code size.
Proof.
  intros Hd. apply dict_get_Some_in in Hd. unfold LEAVES in Hd. unfold numeric.
  repeat (apply elem_of_cons in Hd as [[= -> _ _ -> _]|Hd]); [..|by apply elem_of_nil in Hd].
  1: { exists 1%nat, true. eexists. split_and!; [reflexivity.. | lia|]. intros v b [= <-]. unfold number. cbn. by destruct (truthy v). }
  all: try (eexists _, _, _; split_and!; [reflexivity.. | lia |]; intros v b H; apply int_read in H as [H1 H2]; [split; [exact H1 | exact H2] | lia]).
  - eexists _, _, _. split_and!; [reflexivity.. | lia |]. intros v b H. unfold pack_float in H. apply bind_ok_inv in H as (bits & Hb & H).
    unfold number. cbn. rewrite Hb. destruct (float_narrow bits) as [fl|]; [|done]. apply RootContainer.pack_u_inv in H as [-> Hf]. split; [apply be_enc_length | by apply be_dec_enc_small].
  - eexists _, _, _. split_and!; [reflexivity.. | lia |]. intros v b H. apply bind_ok_inv in H as (bits & Hb & H).
    unfold number. cbn. rewrite Hb. apply RootContainer.pack_u_inv in H as [-> Hf]. split; [apply be_enc_length | by apply be_dec_enc_small].
Qed.

Lemma packed_native code size values b : numeric code size -> struct_pack code values = Ok b ->
  zlen b = size * zlen values /\ RootInterp.native (read_code code) b = Ok (number code <$> values).
Proof.
  intros (n & sg & f & Hf & Hc & Hn & H0 & Hv). unfold struct_pack. rewrite Hf. intros (bs & Hbs & H)%bind_ok_inv. injection H as <-.
  revert bs Hbs. induction values as [|v l IH]; intros bs; cbn.
  - intros [= <-]. split; [unfold zlen; cbn; lia|]. unfold RootInterp.native. rewrite Hc. cbn. rewrite Nat.div_0_l by lia. by rewrite Z.mod_0_l by lia.
  - intros (x & Hx & H)%bind_ok_inv. apply bind_ok_inv in H as (xs & Hxs & H). injection H as <-. destruct (IH xs Hxs) as [Hl Hr]. destruct (Hv v x Hx) as [Lx Ex].
    cbn [concat]. rewrite zlen_app, zlen_cons, Hl. split; [unfold zlen at 1; lia|]. apply (native_app _ x (concat xs) [_]); [|done].
    rewrite (native_one _ n sg) by done. by rewrite Ex.
Qed.
Lemma bytes_native b : RootInterp.native (s_ "B") b = Ok (b2z <$> b).
Proof.
  unfold RootInterp.native. change (dict_get (s_ "B") RootInterp.CODES) with (Some (1%nat, false)). cbv beta iota. rewrite Z.mod_1_r. cbn [Z.eqb]. rewrite Nat.div_1_r. f_equal.
  induction b as [|x b IH]; [done|]. cbn [length R.cut_every take drop fmap list_fmap]. rewrite drop_0. f_equal. exact IH.
Qed.

(** What one entry is packed as is read as its values. *)
Lemma pack_native c v b : column_typed c -> pack c v = Ok b ->
  zlen b = co_size c /\ RootInterp.native (read_code (co_typecode c)) b = Ok (entry_values c v).
Proof.
  intros Hc. pose proof (codes_numeric _ _ _ _ _ (ct_leaf c Hc)) as Hn. rewrite (ct_size c Hc). unfold pack, entry_values.
  assert (Hp : forall values, match struct_pack (co_typecode c) values with Err OverflowError => Err OverflowError | Err _ => Err ValueError | Ok b => Ok b end = Ok b ->
    struct_pack (co_typecode c) values = Ok b) by (intros values; destruct (struct_pack _ _) as [x|e]; [done | by destruct e]).
  case_goal; [intros H%Hp; zbool; apply (packed_native _ _ _ _ Hn) in H as [Hl Hr]; rewrite Hl, E; split; [unfold zlen; cbn; lia | done]|].
  assert (Hl : match py_list v with Err _ => Err ValueError | Ok values => if zlen values =? co_length c
      then match struct_pack (co_typecode c) values with Err OverflowError => Err OverflowError | Err _ => Err ValueError | Ok b => Ok b end else Err ValueError end = Ok b ->
    zlen b = co_length c * co_itemsize c /\ RootInterp.native (read_code (co_typecode c)) b = Ok (match py_list v with Ok l => number (co_typecode c) <$> l | Err _ => [] end)).
  { destruct (py_list v) as [l|]; [|done]. case_goal; [|done]. intros H%Hp. zbool. apply (packed_native _ _ _ _ Hn) in H as [Hl Hr]. rewrite Hl. split; [lia | done]. }
  destruct (bool_decide (co_typecode c = s_ "B")) eqn:Eb; [|exact Hl]. apply bool_decide_eq_true in Eb. destruct v; try exact Hl.
  case_goal; [|done]. intros [= <-]. zbool. assert (Hi : co_itemsize c = 1).
  { pose proof (ct_leaf c Hc) as Hd. rewrite Eb in Hd. change (dict_get (s_ "B") LEAVES) with (Some (s_ "TLeafB", s_ "b", 1, true)) in Hd. congruence. }
  split; [lia|]. rewrite Eb. apply bytes_native.
Qed.
(** And entries one after another as all of them. *)
Lemma packs_native c vs bs : column_typed c -> mapM_res (pack c) vs = Ok bs ->
  Forall (fun b => zlen b = co_size c) bs /\ RootInterp.native (read_code (co_typecode c)) (concat bs) = Ok (concat (entry_values c <$> vs)).
Proof.
  intros Hc. revert bs. induction vs as [|v vs IH]; intros bs; cbn.
  - intros [= <-]. split; [constructor|]. pose proof (codes_numeric _ _ _ _ _ (ct_leaf c Hc)) as (n & sg & f & Hf & Hd & Hn & H0 & Hv).
    unfold RootInterp.native. rewrite Hd. cbn. rewrite Nat.div_0_l by lia. by rewrite Z.mod_0_l by lia.
  - intros (x & Hx & H)%bind_ok_inv. apply bind_ok_inv in H as (xs & Hxs & H). injection H as <-. destruct (IH xs Hxs) as [Hl Hr]. destruct (pack_native c v x Hc Hx) as [Lx Ex].
    split; [by constructor|]. by apply native_app.
Qed.

(** ** Baskets *)

Lemma keylen_extra cls name title n : RootContainer.keyed cls = true -> RootContainer.keyed name = true -> RootContainer.keyed title = true ->
  _keylen cls name title n = Ok (26 + zlen (string_bytes cls) + zlen (string_bytes name) + zlen (string_bytes title) + n).
Proof.
  intros (_ & Hc & Ec)%RootContainer.keyed_string (_ & Hn & En)%RootContainer.keyed_string (_ & Ht & Et)%RootContainer.keyed_string. unfold _keylen.
  rewrite Ec, En, Et. cbn [mbind result_bind]. f_equal. lia.
Qed.

Section Filling.
Context {G : Type}.
Variable codecs : Compression.Codecs.
Hypothesis laws : CompressionProps.CodecLaws codecs.
Notation file := (WritableFile G).
Import RootContainer.

(** A record with something between its key and its body. *)
Lemma put_extra cls name title payload cycle extra (f f' : file) seek nbytes :
  keyed cls = true -> keyed name = true -> keyed title = true ->
  _put codecs cls name title payload cycle false true extra f = (f', Ok (seek, nbytes)) ->
  exists h body, seek = zlen (wf_data f) /\ nbytes = zlen (h ++ extra ++ body) /\ holds codecs payload body
    /\ zlen h + zlen extra = 26 + zlen (string_bytes cls) + zlen (string_bytes name) + zlen (string_bytes title) + zlen extra
    /\ (forall V p, reads (V := V) p RootFile.Key_init h
         (RootFile.mkKey nbytes KEY_VERSION (zlen payload) (wf_datime f) (zlen h + zlen extra) cycle seek BEGIN cls name title))
    /\ wf_data f' = wf_data f ++ h ++ extra ++ body.
Proof.
  intros Hc Hn Ht. unfold _put. destruct (BIG <? _); [done|].
  match goal with |- match ?c with _ => _ end = _ -> _ => destruct c as [[[body keylen] header]|e] eqn:E; [|done] end.
  intros [= <- <- <-]. apply bind_ok_inv in E as (b & Hb & E). rewrite keylen_extra in E by done. cbn [mbind result_bind] in E.
  apply bind_ok_inv in E as (h & Hh & E). injection E as <- <- <-.
  pose proof (keyed_string _ Hc) as (Tc & Lc & _). pose proof (keyed_string _ Hn) as (Tn & Ln & _). pose proof (keyed_string _ Ht) as (Tt & Lt & _).
  apply key_written in Hh as [Hr Hl]; [|done..]. rewrite <- Hl in *. exists h, b. rewrite !zlen_app, Z.add_assoc. split_and!; [done | done | by eapply squeeze_holds | lia | exact Hr |].
  cbn. by rewrite <- app_assoc.
Qed.

(** What stands between the key of a basket and its body. *)
Definition basket_extra (basket_size size n last : Z) : bytes :=
  be_enc 2 BASKET_VERSION ++ be_enc 4 basket_size ++ be_enc 4 size ++ be_enc 4 n ++ be_enc 4 last ++ be_enc 1 0.

(** The basket of the entries [g] is in the file at [seek], over [nbytes]. *)
Record stored_basket (f : file) (size : Z) (g : list bytes) (seek nbytes : Z) : Prop := {
  sb_stored : exists h body k basket_size last pre post,
    wf_data f = pre ++ (h ++ basket_extra basket_size size (zlen g) last ++ body) ++ post /\ zlen pre = seek /\ base f <= seek
    /\ nbytes = zlen (h ++ basket_extra basket_size size (zlen g) last ++ body)
    /\ (forall V p, reads (V := V) p RootFile.Key_init h k) /\ RootFile.k_nbytes k = nbytes /\ RootFile.k_objlen k = zlen (concat g)
    /\ RootFile.k_keylen k = zlen h + 19 /\ holds codecs (concat g) body
    /\ is_i32 basket_size = true /\ is_i32 size = true /\ is_i32 (zlen g) = true /\ is_i32 last = true
}.

(** The file has only grown. *)
Definition grown (f f' : file) : Prop := wf_nname f' = wf_nname f /\ exists more, wf_data f' = wf_data f ++ more.
Lemma grown_refl f : grown f f.
Proof. split; [done|]. exists []. by rewrite app_nil_r. Qed.
Lemma grown_trans f1 f2 f3 : grown f1 f2 -> grown f2 f3 -> grown f1 f3.
Proof. intros [N1 [m1 D1]] [N2 [m2 D2]]. split; [congruence|]. exists (m1 ++ m2). by rewrite D2, D1, app_assoc. Qed.
Lemma grown_trees f ts : grown f (set_trees ts f).
Proof. split; [done|]. exists []. by rewrite app_nil_r. Qed.
Lemma grown_same f f' : same_file f f' -> (exists more, wf_data f' = wf_data f ++ more) -> grown f f'.
Proof. intros S D. split; [exact (same_nname _ _ S) | done]. Qed.
Lemma stored_grown f f' size g seek nbytes : grown f f' -> stored_basket f size g seek nbytes -> stored_basket f' size g seek nbytes.
Proof.
  intros [N [more D]] [(h & body & k & bs & last & pre & post & H1 & H2 & H3 & H4)]. constructor. exists h, body, k, bs, last, pre, (post ++ more).
  split_and!; [by rewrite D, H1, <- !app_assoc | done | unfold base in *; by rewrite N | apply H4..].
Qed.

(** Where each group starts, and where the last ends. *)
Fixpoint starts (n : Z) (gs : list (list bytes)) : list Z := n :: match gs with [] => [] | g :: gs => starts (n + zlen g) gs end.
Lemma starts_last n gs d : List.last (starts n gs) d = n + zlen (concat gs).
Proof.
  revert n. induction gs as [|g gs IH]; intros n; cbn [starts concat]; [rewrite zlen_nil; cbn; lia|].
  rewrite zlen_app, Z.add_assoc, <- IH. by destruct gs.
Qed.
Lemma starts_snoc n gs g : starts n (gs ++ [g]) = starts n gs ++ [n + zlen (concat gs) + zlen g].
Proof.
  revert n. induction gs as [|g' gs IH]; intros n; cbn [starts concat app]; [by rewrite zlen_nil, Z.add_0_r|].
  f_equal. rewrite IH, zlen_app. do 2 f_equal. lia.
Qed.
Lemma starts_length n gs : length (starts n gs) = S (length gs).
Proof. revert n. induction gs as [|g gs IH]; intros n; [done|]. cbn [starts length]. by rewrite IH. Qed.

(** ** Columns *)

(** The column has the entries [bs]: full baskets in the file, and the rest gathered. *)
Record column_holds (f : file) (c : _Column) (bs : list bytes) : Prop := {
  ch_typed : column_typed c;
  ch_groups : exists groups pend, bs = concat groups ++ pend /\ co_buffer c = concat pend /\ co_pending c = zlen pend
    /\ co_starts c = starts 0 groups /\ Forall3 (stored_basket f (co_size c)) groups (co_seeks c) (co_sizes c)
}.
Lemma column_grown f f' c bs : grown f f' -> column_holds f c bs -> column_holds f' c bs.
Proof.
  intros Hg [Ht (groups & pend & H1 & H2 & H3 & H4 & H5)]. split; [done|]. exists groups, pend. split_and!; [done..|].
  eapply Forall3_impl; [exact H5|]. intros g seek nbytes. by apply stored_grown.
Qed.
Lemma column_packed f c bs b : column_holds f c bs -> column_holds f (with_packed b c) (bs ++ [b]).
Proof.
  intros [[T1 T2 T3 T4] (groups & pend & H1 & H2 & H3 & H4 & H5)]. split; [by split|]. exists groups, (pend ++ [b]). cbn.
  rewrite H1, H2, H3, concat_app, zlen_app. cbn. rewrite app_nil_r, app_assoc. done.
Qed.
Lemma holds_shaped f c bs : column_holds f c bs -> column_shaped c.
Proof.
  intros [Ht (groups & pend & _ & _ & _ & H4 & H5)]. split; [done| |].
  - unfold zlen. by rewrite <- (Forall3_length_lm _ _ _ _ H5), <- (Forall3_length_lr _ _ _ _ H5).
  - rewrite H4. unfold zlen. rewrite starts_length, (Forall3_length_lm _ _ _ _ H5). lia.
Qed.

(** Writing a basket moves what was gathered into the file. *)
Definition extra_of (c : _Column) (keylen : Z) : res bytes :=
  a ← pack_i 2 BASKET_VERSION; b ← pack_i 4 (co_basket_size c); n ← pack_i 4 (co_size c); p ← pack_i 4 (co_pending c);
  l ← pack_i 4 (keylen + zlen (co_buffer c)); z ← pack_u 1 0; Ok (a ++ b ++ n ++ p ++ l ++ z).
Lemma extra_written c keylen extra : extra_of c keylen = Ok extra ->
  extra = basket_extra (co_basket_size c) (co_size c) (co_pending c) (keylen + zlen (co_buffer c))
  /\ is_i32 (co_basket_size c) = true /\ is_i32 (co_size c) = true /\ is_i32 (co_pending c) = true /\ is_i32 (keylen + zlen (co_buffer c)) = true.
Proof.
  unfold extra_of. intros (a & Ha & H)%bind_ok_inv. apply pack_i_inv in Ha as [-> _]. apply bind_ok_inv in H as (b & Hb & H). apply pack_i_inv in Hb as [-> Hb].
  apply bind_ok_inv in H as (n & Hn & H). apply pack_i_inv in Hn as [-> Hn]. apply bind_ok_inv in H as (p & Hp & H). apply pack_i_inv in Hp as [-> Hp].
  apply bind_ok_inv in H as (l & Hl & H). apply pack_i_inv in Hl as [-> Hl]. apply bind_ok_inv in H as (z & Hz & H). apply pack_u_inv in Hz as [-> _].
  injection H as <-. split_and!; [done| | | |]; by apply (is_int_spec 4).
Qed.
Lemma column_flushed f c bs title keylen extra f1 seek nbytes : column_holds f c bs -> keyed (co_name c) = true -> keyed title = true ->
  base f <= zlen (wf_data f) -> extra_of c keylen = Ok extra ->
  _put codecs (s_ "TBasket") (co_name c) title (co_buffer c) 0 false true extra f = (f1, Ok (seek, nbytes)) ->
  grown f f1 /\ column_holds f1 (with_basket seek nbytes keylen c) bs.
Proof.
  intros Hc Kn Kt Hb (-> & R1 & R2 & R3 & R4)%extra_written E. pose proof E as (S & _ & D & _)%put_grows.
  assert (Hg : grown f f1) by (by apply grown_same). split; [done|]. apply put_extra in E as (h & body & E1 & E2 & Hh & _ & Hr & Hd); [|done..].
  apply (column_grown f f1 c bs Hg) in Hc as [[T1 T2 T3 T4] (groups & pend & H1 & H2 & H3 & H4 & H5)]. split; [by split|].
  exists (groups ++ [pend]), []. cbn [with_basket co_buffer co_pending co_starts co_seeks co_sizes co_size]. split_and!; [| done | done | |].
  - rewrite concat_app. cbn. by rewrite !app_nil_r.
  - by rewrite H4, starts_last, starts_snoc, H3.
  - apply Forall3_app; [done|]. constructor; [|constructor]. constructor. rewrite H3 in *. rewrite <- H2. eexists h, body, _, (co_basket_size c), (keylen + zlen (co_buffer c)), (wf_data f), [].
    split_and!; [by rewrite app_nil_r | done | | exact E2 | exact Hr | done | done | done | done | done | done | done | done].
    destruct Hg as [N _]. unfold base in *. rewrite N, E1. lia.
Qed.

(** ** Trees *)

(** What a column is given of a row. *)
Definition cells (n : str) (rows : list (dict str pyval)) : list pyval := (fun r => row_get r n) <$> rows.

(** The tree has taken [rows]. *)
Record tree_holds (f : file) (tr : WritableTree) (rows : list (dict str pyval)) : Prop := {
  th_name : keyed (wt_name tr) = true;
  th_entries : wt_entries tr = zlen rows;
  th_nodup : NoDup (dict_keys (wt_columns tr));
  th_columns : forall n c, dict_get n (wt_columns tr) = Some c ->
    co_name c = n /\ keyed n = true /\ exists bs, mapM_res (pack c) (cells n rows) = Ok bs /\ column_holds f c bs
}.
(** Every tree has taken its rows. *)
Record Filled (f : file) (rows : nat -> list (dict str pyval)) : Prop := {
  fi_data : base f <= zlen (wf_data f);
  fi_trees : forall t tr, wf_trees f !! t = Some tr -> tree_holds f tr (rows t);
  fi_none : forall t, wf_trees f !! t = None -> rows t = []
}.

Lemma tree_grown f f' tr rows : grown f f' -> tree_holds f tr rows -> tree_holds f' tr rows.
Proof.
  intros Hg [H1 H2 H3 H4]. split; [done..|]. intros n c Hc. destruct (H4 n c Hc) as (E & K & bs & Hm & Hb). split_and!; [done..|].
  exists bs. split; [done|]. by eapply column_grown.
Qed.
Lemma base_grown f f' : grown f f' -> base f <= zlen (wf_data f) -> base f' <= zlen (wf_data f').
Proof. intros [N [more D]]. unfold base. rewrite N, D, zlen_app. pose proof (zlen_nonneg more). lia. Qed.
Lemma filled_grown f f' rows : grown f f' -> wf_trees f' = wf_trees f -> Filled f rows -> Filled f' rows.
Proof.
  intros Hg Ht [H1 H2 H3]. split; rewrite ?Ht; [by eapply base_grown | | done]. intros t tr E. eapply tree_grown; [done | by apply H2].
Qed.
(** One tree was replaced. *)
Lemma filled_tree f f' rows rows' t tr' : grown f f' -> wf_trees f' = <[t := tr']> (wf_trees f) -> (t < length (wf_trees f))%nat ->
  (forall t', t' <> t -> rows' t' = rows t') -> tree_holds f' tr' (rows' t) -> Filled f rows -> Filled f' rows'.
Proof.
  intros Hg Ht Hl Hr Htr [H1 H2 H3]. split; rewrite ?Ht.
  - by eapply base_grown.
  - intros t' tr. destruct (decide (t' = t)) as [->|Hn].
    + rewrite list_lookup_insert_eq by done. by intros [= <-].
    + rewrite list_lookup_insert_ne by done. intros E. rewrite Hr by done. eapply tree_grown; [done | by apply H2].
  - intros t' E. destruct (decide (t' = t)) as [->|Hn]; [by rewrite list_lookup_insert_eq in E|].
    rewrite list_lookup_insert_ne in E by done. rewrite Hr by done. by apply H3.
Qed.

(** *** Flushing *)

(** Nothing happened, or a basket was written. *)
Lemma flush_cases t n (f f' : file) r : _flush codecs t n f = (f', r) ->
  (f' = f /\ (r = Ok tt -> exists tr c, wf_trees f !! t = Some tr /\ dict_get n (wt_columns tr) = Some c /\ co_pending c = 0))
  \/ exists tr c keylen extra f1 seek nbytes, r = Ok tt /\ wf_trees f !! t = Some tr /\ dict_get n (wt_columns tr) = Some c
      /\ _keylen (s_ "TBasket") (co_name c) (wt_name tr) 19 = Ok keylen /\ extra_of c keylen = Ok extra
      /\ _put codecs (s_ "TBasket") (co_name c) (wt_name tr) (co_buffer c) 0 false true extra f = (f1, Ok (seek, nbytes))
      /\ f' = set_trees (<[t := mkTree (wt_cycle tr) (wt_name tr) (wt_title tr) (wt_entries tr) (dict_set n (with_basket seek nbytes keylen c) (wt_columns tr))]> (wf_trees f1)) f1.
Proof.
  unfold _flush, the_column, tree_name. destruct (wf_trees f !! t) as [tr|] eqn:Et; [|intros [= <- <-]; by left]. cbn [mbind option_bind default fmap option_fmap option_map].
  destruct (dict_get n (wt_columns tr)) as [c|] eqn:Ec; [|intros [= <- <-]; by left]. destruct (Z.eqb_spec (co_pending c) 0) as [E0|E0].
  { intros [= <- <-]. left. split; [done|]. intros _. by exists tr, c. }
  rewrite st_bind_eq. unfold lift at 1. destruct (_keylen _ _ _ _) as [keylen|] eqn:Ek; [|intros [= <- <-]; by left].
  rewrite st_bind_eq. unfold lift. fold (extra_of c keylen). destruct (extra_of c keylen) as [extra|] eqn:Ex; [|intros [= <- <-]; by left].
  rewrite st_bind_eq. destruct (_put _ _ _ _ _ _ _ _ _ f) as [f1 [[seek nbytes]|e]] eqn:Ep.
  - intros [= <- <-]. right. exists tr, c, keylen, extra, f1, seek, nbytes. split_and!; [done..|]. unfold set_trees. cbn. f_equal.
    pose proof Ep as (_ & T & _)%put_grows. apply list_eq. intros i. destruct (decide (i = t)) as [->|Hi].
    + rewrite list_lookup_alter_eq, T, Et. cbn. rewrite list_lookup_insert_eq; [done|]. by apply lookup_lt_Some in Et.
    + by rewrite list_lookup_alter_ne, list_lookup_insert_ne by done.
  - intros [= <- <-]. left. split; [|done]. unfold _put in Ep. destruct (BIG <? _); [by injection Ep|].
    match type of Ep with match ?c with _ => _ end = _ => destruct c as [[[? ?] ?]|]; [done | by injection Ep] end.
Qed.

Lemma filled_flush t n f f' r rows : _flush codecs t n f = (f', r) -> Filled f rows -> Filled f' rows /\ grown f f'.
Proof.
  intros E F. apply flush_cases in E as [[-> _]|(tr & c & keylen & extra & f1 & seek & nbytes & -> & Et & Ec & Ek & Ex & Ep & ->)]; [split; [done | apply grown_refl]|].
  destruct (fi_trees _ _ F t tr Et) as [H1 H2 H3 H4]. destruct (H4 n c Ec) as (<- & K & bs & Hm & Hb).
  destruct (column_flushed f c bs _ _ _ _ _ _ Hb K H1 (fi_data _ _ F) Ex Ep) as [Hg Hc]. pose proof Ep as (_ & T & _)%put_grows.
  assert (Hg' : grown f (set_trees (<[t := mkTree (wt_cycle tr) (wt_name tr) (wt_title tr) (wt_entries tr) (dict_set (co_name c) (with_basket seek nbytes keylen c) (wt_columns tr))]> (wf_trees f1)) f1)) by exact Hg.
  split; [|exact Hg']. eapply filled_tree; [exact Hg' | cbn; by rewrite T | by apply lookup_lt_Some in Et | done | | exact F].
  split; [done | done | by apply dict_set_NoDup |]. cbn [wt_columns]. intros m c'. rewrite dict_get_set. case_decide as Em.
  - intros [= <-]. subst m. split_and!; [done..|]. exists bs. split; [exact Hm|]. eapply column_grown; [apply grown_trees | exact Hc].
  - intros Em'. destruct (H4 m c' Em') as (E' & K' & bs' & Hm' & Hb'). split_and!; [done..|]. exists bs'. split; [done|]. by eapply (column_grown f).
Qed.
Lemma filled_each (fn : str -> st exn file unit) rows l : (forall n f f' r, fn n f = (f', r) -> Filled f rows -> Filled f' rows /\ grown f f') ->
  forall f f' r, each_name fn l f = (f', r) -> Filled f rows -> Filled f' rows /\ grown f f'.
Proof.
  intros Hfn. induction l as [|n l IH]; intros f f' r; cbn [each_name]; [intros [= <- _] F; split; [done | apply grown_refl]|].
  rewrite st_bind_eq. destruct (fn n f) as [f1 [[]|e]] eqn:E; intros E' F; destruct (Hfn _ _ _ _ E F) as [F1 G1].
  - destruct (IH _ _ _ E' F1) as [F2 G2]. split; [done | by eapply grown_trans].
  - by injection E' as <- _.
Qed.

(** *** Rows *)

(** A cell appended to every column. *)
Lemma packed_columns row cols cols' : mapM_res (fun nc => b ← pack nc.2 (row_get row nc.1); Ok (nc.1, with_packed b nc.2)) cols = Ok cols' ->
  dict_keys cols' = dict_keys cols
  /\ forall n c', dict_get n cols' = Some c' -> exists c b, dict_get n cols = Some c /\ pack c (row_get row n) = Ok b /\ c' = with_packed b c.
Proof.
  revert cols'. induction cols as [|[m c] cols IH]; intros cols'; cbn; [by intros [= <-]|].
  intros (x & Hx & H)%bind_ok_inv. apply bind_ok_inv in Hx as (b & Hb & Hx). injection Hx as <-. apply bind_ok_inv in H as (xs & Hxs & H). injection H as <-.
  destruct (IH xs Hxs) as [Hk Hg]. cbn. split; [unfold dict_keys in *; cbn; by f_equal|]. intros n c'. case_decide as En; [|apply Hg].
  intros [= <-]. subst n. by exists c, b.
Qed.
Lemma mapM_res_snoc {A B} (fn : A -> res B) l a bs b : mapM_res fn l = Ok bs -> fn a = Ok b -> mapM_res fn (l ++ [a]) = Ok (bs ++ [b]).
Proof. intros Hl Ha. rewrite mapM_res_app, Hl. cbn. by rewrite Ha. Qed.

(** Whether a row suits tree [t]: the file is open, the row has a value for
    every column and no other, and each column can pack its own. *)
Definition suits (t : nat) (row : dict str pyval) (f : file) : bool :=
  match wf_trees f !! t with
  | None => false
  | Some tr =>
      negb (wf_closed f) && forallb (fun n => dict_mem n row) (dict_keys (wt_columns tr))
      && forallb (fun n => dict_mem n (wt_columns tr)) (dict_keys row)
      && forallb (fun nc => is_ok (pack nc.2 (row_get row nc.1))) (wt_columns tr)
  end.
(** The row, when the call took it: it returned, or it raised over a row that
    suits, which is while a full basket was written. *)
Definition taken (t : nat) (row : dict str pyval) (f : file) : list (dict str pyval) :=
  match (_row codecs t row f).2 with
  | Ok _ => [row]
  | Err _ => if suits t row f then [row] else []
  end.

Lemma forallb_existsb {A} (g : A -> bool) l : existsb (fun x => negb (g x)) l = negb (forallb g l).
Proof. induction l as [|x l IH]; [done|]. cbn. rewrite IH. by destruct (g x). Qed.
Lemma packs_all row (cols : dict str _Column) :
  forallb (fun nc => is_ok (pack nc.2 (row_get row nc.1))) cols
  = is_ok (mapM_res (fun nc => b ← pack nc.2 (row_get row nc.1); Ok (nc.1, with_packed b nc.2)) cols).
Proof.
  induction cols as [|[n c] cols IH]; [done|]. cbn. rewrite IH. destruct (pack c (row_get row n)) as [b|]; [|done]. cbn.
  by destruct (mapM_res _ cols).
Qed.

Lemma filled_row t row f rows : Filled f rows -> Filled (_row codecs t row f).1 (fun i => rows i ++ if decide (i = t) then taken t row f else []).
Proof.
  intros F. assert (Same : (_row codecs t row f).1 = f -> suits t row f = false -> is_ok (_row codecs t row f).2 = false ->
    Filled (_row codecs t row f).1 (fun i => rows i ++ if decide (i = t) then taken t row f else [])).
  { intros E1 E2 E3. unfold taken. rewrite E1, E2. destruct (_row codecs t row f).2; [done|]. destruct F as [H1 H2 H3].
    split; [done| |]; intros i; case_decide; rewrite app_nil_r; auto. }
  destruct (_row codecs t row f) as [f' r] eqn:E. cbn [fst snd] in *. pose proof E as E0. unfold suits in Same. unfold _row in E.
  destruct (wf_trees f !! t) as [tr|] eqn:Et; [|injection E as <- <-; by apply Same].
  rewrite packs_all in Same. destruct (wf_closed f) eqn:Ecl; [injection E as <- <-; by apply Same|]. rewrite !forallb_existsb in E.
  destruct (forallb _ (dict_keys (wt_columns tr))) eqn:E1; [|injection E as <- <-; by apply Same].
  destruct (forallb _ (dict_keys row)) eqn:E2; [|injection E as <- <-; by apply Same]. cbn [negb orb andb] in E, Same.
  destruct (mapM_res _ (wt_columns tr)) as [cols|e] eqn:Em; [|injection E as <- <-; by apply Same]. clear Same.
  assert (Htk : taken t row f = [row]).
  { unfold taken, suits. rewrite Et, Ecl, E1, E2, packs_all, Em. by destruct (_row codecs t row f).2. }
  apply packed_columns in Em as [Hk Hc].
  set (f1 := set_trees _ f) in E. set (rows' := fun i => rows i ++ if decide (i = t) then [row] else []).
  destruct (fi_trees _ _ F t tr Et) as [H1 H2 H3 H4].
  assert (F1 : Filled f1 rows').
  { eapply (filled_tree f f1 rows rows' t); [apply grown_trees | reflexivity | by apply lookup_lt_Some in Et | | | exact F].
    - intros t' Hn. unfold rows'. by rewrite decide_False, app_nil_r.
    - unfold rows'. rewrite decide_True by done. split; cbn [wt_name wt_entries wt_columns]; [done | rewrite H2, zlen_app; done | by rewrite Hk |].
      intros n c' (c & b & Ec & Eb & ->)%Hc. destruct (H4 n c Ec) as (<- & K & bs & Hm & Hb). split_and!; [done..|]. exists (bs ++ [b]).
      split; [|apply column_packed; eapply column_grown; [apply grown_trees | exact Hb]].
      unfold cells. rewrite fmap_app. apply mapM_res_snoc; [exact Hm | exact Eb]. }
  eapply (filled_each _ rows') in E as [F2 _]; [| |exact F1].
  - rewrite Htk. exact F2.
  - intros n f2 f3 r2. destruct (the_column t n f2) as [c|]; [|intros [= <- _]; split; [done | apply grown_refl]].
    case_goal; [apply filled_flush | intros [= <- _]; split; [done | apply grown_refl]].
Qed.

(** *** Objects *)

(** Computations that keep the trees. *)
Definition stays {A} (c : st exn file A) : Prop := forall f, wf_trees (c f).1 = wf_trees f /\ grown f (c f).1.
Lemma stays_ret {A} (a : A) : stays (mret a).
Proof. intros f. split; [done | apply grown_refl]. Qed.
Lemma stays_res {A} (r : file -> res A) : stays (fun f => (f, r f)).
Proof. intros f. split; [done | apply grown_refl]. Qed.
Lemma stays_modify (g : file -> file) : (forall f, wf_trees (g f) = wf_trees f /\ wf_nname (g f) = wf_nname f /\ wf_data (g f) = wf_data f) -> stays (modify g).
Proof. intros Hg f. destruct (Hg f) as (H1 & H2 & H3). split; [done|]. split; [done|]. exists []. cbn. by rewrite H3, app_nil_r. Qed.
Lemma stays_bind {A B} (c : st exn file A) (k : A -> st exn file B) : stays c -> (forall a, stays (k a)) -> stays (c ≫= k).
Proof.
  intros Hc Hk f. unfold mbind, st_bind. destruct (Hc f) as [T G1]. destruct (c f) as [f1 [a|e]]; [|done].
  destruct (Hk a f1) as [T' G2]. cbn in *. split; [congruence | by eapply grown_trans].
Qed.
Lemma stays_put cls name title payload cycle listed packed extra : stays (_put codecs cls name title payload cycle listed packed extra).
Proof.
  intros f. destruct (_put _ _ _ _ _ _ _ _ _ f) as [f' r] eqn:E. apply put_grows in E as (S & T & D & _). split; [done | by apply grown_same].
Qed.
Lemma stays_check name : stays (_check_name name).
Proof. apply stays_res. Qed.
Lemma stays_cycle name : stays (next_cycle name).
Proof. apply stays_bind; [apply stays_res|]. intros c. apply stays_bind; [by apply stays_modify | intros _; apply stays_ret]. Qed.
Lemma stays_write show depth name obj title : stays (write codecs show depth name obj title).
Proof.
  apply stays_bind; [apply stays_check|]. intros _. apply stays_bind; [apply (stays_res (fun _ => _))|]. intros [[cls payload] used].
  apply stays_bind; [apply (stays_res (fun _ => _))|]. intros t. apply stays_bind; [apply (stays_res (fun _ => _))|]. intros _.
  apply stays_bind; [by apply stays_modify|]. intros _. apply stays_bind; [apply stays_cycle|]. intros cyc.
  apply stays_bind; [apply stays_put|]. intros _. apply stays_ret.
Qed.

(** *** New trees *)

Lemma typecode_known wide spec code n : _typecode wide spec = Ok (code, n) -> 1 <= n /\ exists x, dict_get code LEAVES = Some x.
Proof.
  assert (Hs : forall s c, spec_code wide s = Ok c -> exists x, dict_get c LEAVES = Some x).
  { intros s c. unfold spec_code. intros (s' & _ & H)%bind_ok_inv. case_hyp; [|done]. injection H as <-. by apply dict_mem_true. }
  assert (H1 : forall s, (c ← spec_code wide s; Ok (c, 1)) = Ok (code, n) -> 1 <= n /\ exists x, dict_get code LEAVES = Some x).
  { intros s (c & Hc & H)%bind_ok_inv. injection H as <- <-. split; [lia | by eapply Hs]. }
  assert (H2 : forall l, match l with [s; PInt k] => if k <? 1 then Err ValueError else c ← spec_code wide s; Ok (c, k) | _ => Err ValueError end = Ok (code, n) ->
    1 <= n /\ exists x, dict_get code LEAVES = Some x).
  { intros [|s [|[] [|]]]; try done. case_goal; [done|]. intros (c & Hc & H)%bind_ok_inv. injection H as <- <-. zbool. split; [lia | by eapply Hs]. }
  unfold _typecode. destruct spec; first [apply H2 | apply H1].
Qed.

(** A column nothing was put into. *)
Definition fresh (n : str) (c : _Column) : Prop :=
  co_name c = n /\ keyed n = true /\ column_typed c /\ co_buffer c = [] /\ co_pending c = 0 /\ co_seeks c = [] /\ co_sizes c = [] /\ co_starts c = [0].
Lemma fresh_columns wide columns size acc cols : forallb is_text (dict_keys columns) = true -> init_columns wide columns size acc = Ok cols ->
  NoDup (dict_keys acc) -> (forall n c, dict_get n acc = Some c -> fresh n c) ->
  NoDup (dict_keys cols) /\ forall n c, dict_get n cols = Some c -> fresh n c.
Proof.
  revert acc. induction columns as [|[n spec] columns IH]; intros acc; cbn [init_columns dict_keys fmap list_fmap forallb fst]; [by intros _ [= <-]|].
  intros [Tn Ts]%andb_true_iff H Hnd Hacc. apply bind_ok_inv in H as (x & Hx & H). case_hyp; [done|]. apply bind_ok_inv in H as ([code len] & Hcode & H).
  apply bind_ok_inv in H as (c & Hc & H). apply (IH _ Ts H); [by apply dict_set_NoDup|]. intros m c'. rewrite dict_get_set. case_decide as Em; [|apply Hacc].
  intros [= <-]. subst m. apply typecode_known in Hcode as [Hlen [y Hy]]. unfold Column_init in Hc. rewrite Hy in Hc. destruct y as [[[cls letter] sz] un]. injection Hc as <-.
  apply checked_keyed in Hx; [|done]. unfold fresh. cbn. split_and!; done.
Qed.
Lemma fresh_holds f n c : fresh n c -> column_holds f c [].
Proof. intros (_ & _ & Ht & H1 & H2 & H3 & H4 & H5). split; [done|]. exists [], []. rewrite H1, H2, H3, H4, H5. split_and!; first [done | constructor]. Qed.

Variable show : pyval -> str.
Variable wide : bool.
Notation run_op := (run_op codecs show wide).
Notation run := (run codecs show wide).

(** With text for the names of columns too. *)
Definition columns_text (o : op) : bool := match o with Tree _ columns _ _ => forallb is_text (dict_keys columns) | _ => true end.

Lemma filled_new name columns title size f rows : in_text show (Tree name columns title size) = true -> columns_text (Tree name columns title size) = true ->
  Filled f rows -> Filled (run_op (Tree name columns title size) f) rows.
Proof.
  cbn [in_text columns_text run_op]. intros [Tn Tt]%andb_true_iff Tc F. unfold tree. rewrite st_bind_eq. destruct (_check_name name f) as [f1 [[]|e]] eqn:E1; cbn [fst].
  2: { unfold _check_name in E1. injection E1 as <- _. exact F. }
  unfold _check_name in E1. injection E1 as <- E1. assert (Kn : keyed name = true).
  { destruct (wf_closed f); [done|]. apply bind_ok_inv in E1 as (x & Hx & _). by eapply checked_keyed. }
  rewrite st_bind_eq. unfold lift at 1. destruct (_checked (default [] title)); [|exact F]. rewrite st_bind_eq. destruct (stays_cycle name f) as [T G1].
  destruct (next_cycle name f) as [f2 [cyc|e]]; cbn [fst] in *; [|by eapply filled_grown].
  pose proof (filled_grown f f2 rows G1 T F) as F2. rewrite st_bind_eq. unfold lift at 1. destruct (WritableTree_init _ _ _ _ _ _) as [tr|] eqn:Et; [|exact F2].
  rewrite !st_bind_eq. cbn [modify]. rewrite st_bind_eq. cbn [modify mret st_ret fst].
  unfold WritableTree_init in Et. repeat (case_hyp; [done|]). apply bind_ok_inv in Et as (cols & Hcols & Et). injection Et as <-.
  apply fresh_columns in Hcols as [Hnd Hfresh]; [|done | constructor | done].
  set (f3 := use _ _). assert (G2 : grown f2 f3) by (split; [done | exists []; by rewrite app_nil_r]). destruct F2 as [D2 H2 H3]. split.
  - exact (base_grown _ _ G2 D2).
  - intros t tr. change (wf_trees f3) with (wf_trees f2 ++ [mkTree cyc name (default [] title) 0 cols]). intros [Hin|[Hge Hin]]%lookup_app_Some.
    + eapply tree_grown; [exact G2 | by apply H2].
    + destruct (t - length (wf_trees f2))%nat as [|i] eqn:Ei; [|done]. injection Hin as <-. assert (rows t = []) as -> by (apply H3, lookup_ge_None; lia).
      split; cbn [wt_name wt_entries wt_columns]; [done | done | done |]. intros n c Hc. pose proof (Hfresh n c Hc) as Hf. split_and!; [apply Hf | apply Hf |].
      exists []. split; [done|]. by eapply fresh_holds.
  - intros t. change (wf_trees f3) with (wf_trees f2 ++ [mkTree cyc name (default [] title) 0 cols]). rewrite lookup_ge_None, length_app. intros Hl.
    apply H3, lookup_ge_None. lia.
Qed.

(** The rows an operation adds to tree [t], and all of them. *)
Definition new_rows (t : nat) (o : op) (f : file) : list (dict str pyval) :=
  match o with Row t' row => if decide (t = t') then taken t' row f else [] | _ => [] end.
Fixpoint filled (t : nat) (ops : list op) (f : file) : list (dict str pyval) :=
  match ops with [] => [] | o :: ops => new_rows t o f ++ filled t ops (run_op o f) end.

Lemma filled_ext f rows rows' : (forall t, rows t = rows' t) -> Filled f rows -> Filled f rows'.
Proof. intros E [H1 H2 H3]. split; [done| |]; intros t; rewrite <- E; auto. Qed.
Lemma filled_op o f rows : in_text show o = true -> columns_text o = true -> Filled f rows -> Filled (run_op o f) (fun t => rows t ++ new_rows t o f).
Proof.
  intros Ho Hc F. destruct o as [depth name obj title|name columns title size|t row].
  - apply (filled_ext _ rows); [intros t; cbn [new_rows]; by rewrite app_nil_r|]. cbn [RootContainer.run_op].
    destruct (stays_write show depth name obj title f) as [T G1]. by eapply filled_grown.
  - apply (filled_ext _ rows); [intros t; cbn [new_rows]; by rewrite app_nil_r|]. by apply filled_new.
  - by apply filled_row.
Qed.
Lemma filled_run ops : forall f rows, forallb (in_text show) ops = true -> forallb columns_text ops = true -> Filled f rows ->
  Filled (run ops f) (fun t => rows t ++ filled t ops f).
Proof.
  induction ops as [|o ops IH]; intros f rows; cbn [forallb RootContainer.run filled].
  - intros _ _. apply filled_ext. intros t. by rewrite app_nil_r.
  - intros [Ho Hops]%andb_true_iff [Co Cops]%andb_true_iff F. eapply filled_ext; [|apply (IH _ _ Hops Cops (filled_op o f rows Ho Co F))]. intros t. by rewrite app_assoc.
Qed.

(** *** At the end *)

(** The same title and columns, of the same types. *)
Definition like (tr tr' : WritableTree) : Prop :=
  wt_title tr' = wt_title tr /\ dict_keys (wt_columns tr') = dict_keys (wt_columns tr)
  /\ forall n c', dict_get n (wt_columns tr') = Some c' -> exists c, dict_get n (wt_columns tr) = Some c /\ co_typecode c' = co_typecode c /\ co_length c' = co_length c.
Lemma like_refl tr : like tr tr.
Proof. split_and!; [done..|]. intros n c Hc. by exists c. Qed.
Lemma like_trans t1 t2 t3 : like t1 t2 -> like t2 t3 -> like t1 t3.
Proof.
  intros (T1 & K1 & L1) (T2 & K2 & L2). split_and!; [congruence..|]. intros n c3 H3. destruct (L2 n c3 H3) as (c2 & H2 & E2 & E2'). destruct (L1 n c2 H2) as (c1 & H1 & E1 & E1').
  exists c1. split_and!; [done | congruence..].
Qed.

(** The columns not named in [l] are as they were; the others have nothing pending. *)
Definition flushed (l : list str) (tr tr' : WritableTree) : Prop :=
  like tr tr' /\ forall m c', dict_get m (wt_columns tr') = Some c' -> co_pending c' = 0 \/ (m ∉ l /\ dict_get m (wt_columns tr) = Some c').
Lemma flush_flushed t n (f f' : file) tr' : _flush codecs t n f = (f', Ok tt) -> wf_trees f' !! t = Some tr' ->
  exists tr, wf_trees f !! t = Some tr /\ flushed [n] tr tr'.
Proof.
  intros [[-> H]|(tr & c & keylen & extra & f1 & seek & nbytes & _ & Et & Ec & _ & _ & Ep & ->)]%flush_cases E.
  - destruct (H eq_refl) as (tr & c & Et & Ec & Hc). rewrite E in Et. injection Et as ->. exists tr. split; [done|]. split; [apply like_refl|].
    intros m c' Hm. destruct (decide (m = n)) as [->|Hn]; [left; congruence | right; split; [by rewrite list_elem_of_singleton | done]].
  - pose proof Ep as (_ & T & _)%put_grows. cbn in E. rewrite list_lookup_insert_eq in E by (rewrite T; by apply lookup_lt_Some in Et). injection E as <-.
    exists tr. split; [done|]. split; [split_and!; cbn [wt_columns]; [done | by rewrite dict_keys_set, Ec|]|]; cbn [wt_columns]; intros m c'; rewrite dict_get_set; case_decide as Em.
    + intros [= <-]. subst m. by exists c.
    + intros Hm. by exists c'.
    + intros [= <-]. by left.
    + intros Hm. right. split; [rewrite list_elem_of_singleton; congruence | done].
Qed.
Lemma flush_all t l : forall (f f' : file) tr', each_name (_flush codecs t) l f = (f', Ok tt) -> wf_trees f' !! t = Some tr' ->
  exists tr, wf_trees f !! t = Some tr /\ flushed l tr tr'.
Proof.
  induction l as [|n l IH]; intros f f' tr'; cbn [each_name].
  - intros [= <-] E. exists tr'. split; [done|]. split; [apply like_refl|]. intros m c' Hm. right. split; [apply not_elem_of_nil | done].
  - intros (f1 & [] & H1 & H2)%st_bind_ok E. destruct (IH _ _ _ H2 E) as (tr1 & E1 & L1 & P1). destruct (flush_flushed _ _ _ _ _ H1 E1) as (tr & E0 & L0 & P0).
    exists tr. split; [done|]. split; [by eapply like_trans|]. intros m c' Hm. destruct (P1 m c' Hm) as [?|[Hn Hm1]]; [by left|].
    destruct (P0 m c' Hm1) as [?|[Hn0 Hm0]]; [by left|]. right. split; [|done]. rewrite elem_of_cons. rewrite list_elem_of_singleton in Hn0. tauto.
Qed.

(** Nothing is pending in tree [t]. *)
Definition settled (tr : WritableTree) : Prop := forall n c, dict_get n (wt_columns tr) = Some c -> co_pending c = 0.
Lemma filled_finish t (f f' : file) rows : _finish codecs t f = (f', Ok tt) -> Filled f rows ->
  Filled f' rows /\ (forall t', t' <> t -> wf_trees f' !! t' = wf_trees f !! t')
  /\ forall tr', wf_trees f' !! t = Some tr' -> settled tr' /\ exists tr, wf_trees f !! t = Some tr /\ like tr tr'.
Proof.
  unfold _finish. destruct (wf_trees f !! t) as [tr|] eqn:Et; [|done]. intros (f1 & [] & H1 & H2)%st_bind_ok F.
  destruct (filled_each (_flush codecs t) rows _ (fun n f f' r => filled_flush t n f f' r rows) _ _ _ H1 F) as [F1 _].
  assert (K : stays (put_tree codecs t)).
  { intros f2. unfold put_tree. destruct (wf_trees f2 !! t) as [tr2|]; [|by apply (stays_res (fun _ => Err KeyError : res unit))].
    match goal with |- wf_trees (?c f2).1 = _ /\ _ => apply (fun H : stays c => H f2) end.
    apply stays_bind; [apply (stays_res (fun _ => _))|]. intros kl. apply stays_bind; [apply (stays_res (fun _ => _))|]. intros p. apply stays_bind; [apply stays_put | intros _; apply stays_ret]. }
  destruct (K f1) as [T2 G2]. rewrite H2 in T2, G2. cbn [fst] in T2, G2. split_and!.
  - by eapply filled_grown.
  - intros t' Hn. rewrite T2. pose proof (only_each t _ (dict_keys (wt_columns tr)) (only_flush codecs t) f t' Hn) as O. by rewrite H1 in O.
  - intros tr' E. rewrite T2 in E. destruct (flush_all _ _ _ _ _ H1 E) as (tr0 & E0 & L & P). rewrite Et in E0. injection E0 as <-. split; [|by exists tr].
    intros n c' Hc. destruct (P n c' Hc) as [?|[Hn Hc0]]; [done|]. destruct Hn. apply dict_get_keys. by eexists.
Qed.
Lemma filled_finish_all n : forall t (f f' : file) rows, finish_all codecs t n f = (f', Ok tt) -> Filled f rows ->
  Filled f' rows /\ (forall t', (t' < t)%nat -> wf_trees f' !! t' = wf_trees f !! t')
  /\ forall t' tr', wf_trees f' !! t' = Some tr' -> exists tr, wf_trees f !! t' = Some tr /\ like tr tr' /\ ((t <= t' < t + n)%nat -> settled tr').
Proof.
  induction n as [|n IH]; intros t f f' rows; cbn [finish_all].
  - intros [= <-] F. split_and!; [done..|]. intros t' tr' E. exists tr'. split_and!; [done | apply like_refl | lia].
  - intros (f1 & [] & H1 & H2)%st_bind_ok F. destruct (filled_finish _ _ _ _ H1 F) as (F1 & O1 & S1). destruct (IH _ _ _ _ H2 F1) as (F2 & O2 & S2). split_and!; [done | intros t' Hl; rewrite O2 by lia; apply O1; lia|].
    intros t' tr' E. destruct (S2 t' tr' E) as (tr1 & E1 & L1 & P1). destruct (decide (t' = t)) as [->|Hn].
    + destruct (S1 tr1 E1) as [St (tr & Et & L)]. exists tr. split_and!; [done | by eapply like_trans|]. intros _.
      rewrite O2, E1 in E by lia. injection E as <-. done.
    + exists tr1. rewrite <- O1 by done. split_and!; [done..|]. intros Hr. apply P1. lia.
Qed.
End Filling.
End RootFill.
