(* ===== verification/RootTreeTrip.v ===== *)
(** * A filled tree reads back

    What is put into a tree row by row (RootWriter) against what its columns
    give when the file is opened again (RootTree): the values of every row that
    was taken, for every range of entries. *)

From S2P Require Import Prelude PyStr Errors Buffer Url UrlText Compression CompressionProps RootBuffer RootFile Winfo RootPack RootEncoding RootInfos RootWriter RootContainer RootRoundTrip RootInterp RootTree RootTreeRecord RootFill.
Open Scope Z_scope.

Module RootTreeTrip.
Module R := RootBuffer.
Module RT := RootTree.
Import RootPack RootEncoding RootWriter RootTreeRecord RootFill.

(** ** Windows *)

(** The entries from [a] to [b] of a list that starts at [at_]. *)
Definition window {A} (a b at_ : Z) (l : list A) : list A := take (Z.to_nat (b - Z.max a at_)) (drop (Z.to_nat (a - at_)) l).

Lemma window_app {A} a b at_ (g l : list A) :
  window a b at_ (g ++ l) = (if (at_ + zlen g <=? a) || (b <=? at_) then [] else window a (Z.min b (at_ + zlen g)) at_ g) ++ window a b (at_ + zlen g) l.
Proof.
  unfold window. pose proof (zlen_nonneg g). case_goal.
  - cbn [app]. apply orb_true_iff in E as [E|E]; zbool.
    + rewrite drop_app_ge by (unfold zlen in *; lia). replace (Z.to_nat (a - at_) - length g)%nat with (Z.to_nat (a - (at_ + zlen g))) by (unfold zlen; lia).
      do 2 f_equal. lia.
    + replace (Z.to_nat (b - Z.max a at_)) with 0%nat by lia. replace (Z.to_nat (b - Z.max a (at_ + zlen g))) with 0%nat by lia. by rewrite !take_0.
  - apply orb_false_iff in E as [E1 E2]. zbool. rewrite drop_app_le by (unfold zlen in *; lia). rewrite take_app, length_drop. f_equal.
    + destruct (decide (b <= at_ + zlen g)); [do 2 f_equal; lia|]. rewrite !take_ge; [done| |]; rewrite length_drop; unfold zlen in *; lia.
    + replace (Z.to_nat (a - (at_ + zlen g))) with 0%nat by lia. rewrite drop_0. f_equal. unfold zlen in *. lia.
Qed.
Lemma take_concat size k (g : list bytes) : Forall (fun b => length b = size) g -> take (k * size) (concat g) = concat (take k g).
Proof.
  intros Hg. revert k. induction Hg as [|b g Hb _ IH]; intros k; [cbn [concat]; by rewrite !take_nil|]. destruct k as [|k]; [done|]. cbn [concat take].
  rewrite take_app_ge by lia. f_equal. rewrite <- IH. f_equal. lia.
Qed.
Lemma drop_concat size k (g : list bytes) : Forall (fun b => length b = size) g -> drop (k * size) (concat g) = concat (drop k g).
Proof.
  intros Hg. revert k. induction Hg as [|b g Hb _ IH]; intros k; [cbn [concat]; by rewrite !drop_nil|]. destruct k as [|k]; [done|]. cbn [concat drop].
  rewrite drop_app_ge by lia. rewrite <- IH. f_equal. lia.
Qed.
(** A slice of the bytes is a slice of the entries. *)
Lemma slice_concat size low high (g : list bytes) : Forall (fun b => zlen b = size) g -> 0 <= low -> 0 <= high -> 0 <= size ->
  R.py_slice (concat g) (low * size) (high * size) = concat (take (Z.to_nat (high - low)) (drop (Z.to_nat low) g)).
Proof.
  intros Hg Hl Hh Hs. unfold R.py_slice. replace (low * size <? 0) with false by (symmetry; apply Z.ltb_ge; lia). replace (high * size <? 0) with false by (symmetry; apply Z.ltb_ge; lia).
  assert (Hg' : Forall (fun b : bytes => length b = Z.to_nat size) g) by (eapply Forall_impl; [exact Hg|]; unfold zlen; cbn; lia).
  rewrite <- Z.mul_sub_distr_r. replace (Z.to_nat (low * size)) with (Z.to_nat low * Z.to_nat size)%nat by lia. rewrite (drop_concat (Z.to_nat size)) by done.
  replace (Z.to_nat ((high - low) * size)) with (Z.to_nat (high - low) * Z.to_nat size)%nat.
  - apply take_concat. by apply Forall_drop.
  - destruct (decide (high <= low)); [replace (Z.to_nat (high - low)) with 0%nat by lia; nia|]. rewrite Z2Nat.inj_mul by lia. done.
Qed.
Lemma mapM_window {A B} (fn : A -> res B) l bs a b : mapM_res fn l = Ok bs -> mapM_res fn (window a b 0 l) = Ok (window a b 0 bs).
Proof.
  unfold window. intros H. assert (Hd : forall n, mapM_res fn (drop n l) = Ok (drop n bs)).
  { revert bs H. induction l as [|x l IH]; intros bs; cbn; [intros [= <-] n; by rewrite !drop_nil|]. intros (y & Hy & H)%bind_ok_inv. apply bind_ok_inv in H as (ys & Hys & H).
    injection H as <-. intros [|n]; cbn [drop]; [cbn; by rewrite Hy, Hys | by apply IH]. }
  specialize (Hd (Z.to_nat (a - 0))). revert Hd. generalize (drop (Z.to_nat (a - 0)) l) (drop (Z.to_nat (a - 0)) bs). generalize (Z.to_nat (b - a `max` 0)). clear.
  intros n l. revert n. induction l as [|x l IH]; intros n bs; cbn; [intros [= <-]; by rewrite !take_nil|]. intros (y & Hy & H)%bind_ok_inv. apply bind_ok_inv in H as (ys & Hys & H).
  injection H as <-. destruct n as [|n]; [done|]. cbn. by rewrite Hy, (IH n ys Hys).
Qed.

(** ** Baskets *)

Lemma reads_over_front {V A} (c : st exn (R.Buffer V) A) enc post a offset : reads offset c enc a -> RootFile.over c (enc ++ post) offset = Ok a.
Proof.
  intros Hr. destruct (Hr [] post offset []) as [refs E]; [rewrite zlen_nil; lia|]. cbn [app] in E. unfold RootFile.over, R.Buffer_init. by rewrite E.
Qed.
Lemma reads_basket_head {V} p hd k bs size n last : (forall q, reads (V := V) q RootFile.Key_init hd k) -> 0 <= size ->
  is_i32 bs = true -> is_i32 size = true -> is_i32 n = true -> is_i32 last = true ->
  reads (V := V) p RT.basket_head (hd ++ be_enc 2 BASKET_VERSION ++ be_enc 4 bs ++ be_enc 4 size ++ be_enc 4 n ++ be_enc 4 last) (k, size, n, last).
Proof.
  intros Hk Hs Ib Is In Il. unfold RT.basket_head. eapply reads_bind; [apply Hk|]. eapply reads_bind; [by apply reads_i16|]. eapply reads_bind; [by apply reads_i32|].
  eapply reads_bind; [by apply reads_i32|]. replace (size <? 0) with false by (symmetry; apply Z.ltb_ge; lia). eapply reads_bind_nil; [apply reads_ret|].
  eapply reads_bind; [by apply reads_i32|]. eapply reads_last; [by apply reads_i32|]. rewrite Z.abs_eq by done. apply reads_ret.
Qed.

(** A basket that holds the entries [g]. *)
Definition basket_of (size : Z) (g : list bytes) (bk : RT.Basket) : Prop :=
  RT.bk_data bk = concat g /\ RT.bk_offsets bk = [] /\ RT.bk_nevsize bk = size.

Section Reading.
Context {H X W : Type} `{RootEnv H X W}.
Variable codecs : Compression.Codecs.
Variable h : H.
Variable D : bytes.
Variable pid : Z.
Variable alive : W -> Prop.
Hypothesis Hserves : RootRoundTrip.serves (H := H) (X := X) (W := W) h D pid alive.
Notation over_it := (RootRoundTrip.over_it (H := H) h pid).

(** The basket of [g] is read from [seek] and [nbytes]. *)
Definition basket_back (size : Z) (g : list bytes) (seek nbytes : Z) : Prop :=
  forall so w, over_it so -> alive w -> exists w' bk, RT.Basket_keyed (X := X) codecs seek nbytes false (so, w) = ((so, w'), Ok bk) /\ alive w' /\ basket_of size g bk.

Lemma stored_back {G} (f : WritableFile G) size g seek nbytes es gh closed head tail rest : RootContainer.Inv codecs gh closed f es ->
  wf_data f = replicate (Z.to_nat (RootContainer.base f)) x00 ++ tail -> zlen head = RootContainer.base f -> D = head ++ tail ++ rest -> 0 <= size ->
  stored_basket codecs f size g seek nbytes -> basket_back size g seek nbytes.
Proof.
  intros I Hd Hh HD Hs [(hd & body & k & bs & last & pre & post & E1 & E2 & E3 & E4 & E5 & E6 & E7 & E8 & E9 & I1 & I2 & I3 & I4)] so w Ho Ha.
  destruct (RootRoundTrip.relocated codecs D f es gh closed I head tail rest pre _ post Hd Hh HD E1 ltac:(lia)) as (pre' & HD' & Hl').
  destruct (RootRoundTrip.read_part h D pid alive Hserves so w pre' _ (post ++ rest) seek nbytes Ho Ha HD' ltac:(lia) E4) as (w' & Hr & Ha').
  set (raw := hd ++ _ ++ body) in *. assert (Hx : raw = (hd ++ basket_extra bs size (zlen g) last) ++ body) by (unfold raw; by rewrite <- app_assoc).
  assert (Hlx : zlen (hd ++ basket_extra bs size (zlen g) last) = zlen hd + 19) by (rewrite zlen_app; unfold basket_extra; rewrite !zlen_app, !be_enc_zlen; lia).
  exists w'. eexists. split; [|split; [exact Ha'|]].
  - unfold RT.Basket_keyed. rewrite st_bind_eq, Hr. rewrite st_bind_eq. unfold lift at 1.
    assert (Hb : RootFile.over (V := unit) RT.basket_head raw 0 = Ok (k, size, zlen g, last)).
    { replace raw with ((hd ++ be_enc 2 BASKET_VERSION ++ be_enc 4 bs ++ be_enc 4 size ++ be_enc 4 (zlen g) ++ be_enc 4 last) ++ be_enc 1 0 ++ body)
        by (unfold raw, basket_extra; by rewrite <- !app_assoc). apply reads_over_front, reads_basket_head; [intros q; apply E5 | done..]. }
    rewrite Hb. cbv beta iota zeta.
    assert (Hp : R.py_slice raw (RootFile.k_keylen k) (zlen raw) = body).
    { unfold R.py_slice. rewrite E8. pose proof (zlen_nonneg hd). replace (zlen hd + 19 <? 0) with false by (symmetry; apply Z.ltb_ge; lia).
      pose proof (zlen_nonneg raw). replace (zlen raw <? 0) with false by (symmetry; apply Z.ltb_ge; lia). rewrite <- Hlx, Hx, zlen_app.
      replace (Z.to_nat (zlen (hd ++ basket_extra bs size (zlen g) last))) with (length (hd ++ basket_extra bs size (zlen g) last)) by (unfold zlen; lia).
      rewrite drop_app_length. apply take_ge. unfold zlen. lia. }
    rewrite Hp. rewrite st_bind_eq. unfold lift at 1.
    assert (Hc : (if RootFile.compressed k then Compression.decompress codecs body (RootFile.k_objlen k) else Ok body) = Ok (concat g)).
    { unfold RootFile.compressed. rewrite E6, E7, E8. assert (Hn : nbytes - (zlen hd + 19) = zlen body) by (rewrite E4, Hx, zlen_app, Hlx; lia). rewrite Hn.
      destruct E9 as [->|[Hlt Hdec]]; [by rewrite Z.eqb_refl|]. replace (zlen (concat g) =? zlen body) with false by (symmetry; apply Z.eqb_neq; lia). exact Hdec. }
    rewrite Hc. rewrite st_bind_eq. reflexivity.
  - done.
Qed.

(** ** One column *)

Section OneColumn.
Variable c : _Column.
Variable entries : Z.
Variable groups : list (list bytes).
Hypothesis Hc : column_shaped c.
Hypothesis Hstarts : co_starts c = starts 0 groups.
Hypothesis Hback : Forall3 (basket_back (co_size c)) groups (co_seeks c) (co_sizes c).
Hypothesis Hsized : Forall (fun b : bytes => zlen b = co_size c) (concat groups).
Hypothesis Hentries : entries = zlen (concat groups).

(** The column as it is read. *)
Definition flat_column : RootInterp.Column :=
  RootInterp.Flat (default [] (RT.typename (leaf_of c))) (read_code (co_typecode c)) (co_itemsize c) None (co_length c).
Definition branch_with (cached : option (Z * RT.Basket)) : RT.Branch :=
  RT.mkBranch (co_name c) (branch_of c entries) (leaf_of c) flat_column cached None.
(** What is remembered is a basket of the column. *)
Definition cache_ok (cached : option (Z * RT.Basket)) : Prop :=
  match cached with None => True | Some (i, bk) => exists g, 0 <= i /\ groups !! Z.to_nat i = Some g /\ basket_of (co_size c) g bk end.

Lemma basket_got b0 i g cached so w : groups !! i = Some g -> cache_ok cached -> over_it so -> alive w ->
  exists cached' w' bk, RT.basket (X := X) codecs (branch_with b0) (Z.of_nat i) (cached, (so, w)) = ((cached', (so, w')), Ok bk)
    /\ cache_ok cached' /\ alive w' /\ basket_of (co_size c) g bk.
Proof.
  intros Hg Hk Ho Ha. unfold RT.basket. cbn [branch_with RT.bn_record branch_of RT.br_baskets RT.br_basket_seek RT.br_basket_bytes RT.br_entry_offset_len fst snd]. rewrite zlen_nil.
  replace (Z.of_nat i <? 0) with false by (symmetry; apply Z.ltb_ge; lia). destruct (Forall3_lookup_l _ _ _ _ i g Hback Hg) as (seek & nbytes & Es & En & Hb).
  assert (Hread : exists cached' w' bk, (seek ← lift (RT.at_index (co_seeks c) (Z.of_nat i)); nbytes ← lift (RT.at_index (co_sizes c) (Z.of_nat i));
      bk ← RT.on_source (RT.Basket_keyed (X := X) codecs seek nbytes (0 <? 0)); modify (fun s => (Some (Z.of_nat i, bk), s.2)) ≫= fun _ => mret bk) (cached, (so, w))
      = ((cached', (so, w')), Ok bk) /\ cache_ok cached' /\ alive w' /\ basket_of (co_size c) g bk).
  { destruct (Hb so w Ho Ha) as (w' & bk & E & Ha' & Hbk). exists (Some (Z.of_nat i, bk)), w', bk. split; [|split_and!; [|done|done]].
    - unfold RT.at_index. rewrite Nat2Z.id, Es, En. rewrite st_bind_eq. unfold lift at 1. rewrite st_bind_eq. unfold lift at 1.
      rewrite st_bind_eq. unfold RT.on_source. cbn [fst snd]. change (0 <? 0) with false. rewrite E. reflexivity.
    - exists g. rewrite Nat2Z.id. split_and!; [lia | done | done]. }
  destruct cached as [[j bk]|]; cbn [mbind option_bind]; [|exact Hread]. destruct (Z.eqb_spec j (Z.of_nat i)) as [->|_]; [|exact Hread].
  exists (Some (Z.of_nat i, bk)), w, bk. split_and!; [done..|]. destruct Hk as (g' & _ & Hg' & Hbk). rewrite Nat2Z.id, Hg in Hg'. injection Hg' as <-. exact Hbk.
Qed.

Lemma start_at (i : nat) gs : (i <= length gs)%nat -> starts 0 gs !! i = Some (zlen (concat (take i gs))).
Proof.
  assert (A : forall n, (i <= length gs)%nat -> starts n gs !! i = Some (n + zlen (concat (take i gs)))).
  { revert i. induction gs as [|g gs IH]; intros [|i] n Hi; cbn [starts length] in *; try (cbn; f_equal; unfold zlen; cbn; lia).
    cbn [lookup list_lookup take concat]. rewrite IH by lia. f_equal. rewrite zlen_app. lia. }
  intros Hi. by rewrite A.
Qed.

Lemma size_nonneg : 0 <= co_size c.
Proof. destruct Hc as [Ht _ _]. rewrite (ct_size c Ht). pose proof (ct_length c Ht). destruct (typed_leaf c Ht) as (_ & _ & _ & _ & _ & Hi). repeat (apply elem_of_cons in Hi as [->|Hi]; [lia|]). by apply elem_of_nil in Hi. Qed.

Lemma spans_read b0 a b : 0 <= a -> forall gs pre cached so w, groups = pre ++ gs -> cache_ok cached -> over_it so -> alive w ->
  exists cached' w', RT._spans (branch_with b0) (fun index low high => bk ← RT.basket (X := X) codecs (branch_with b0) index; lift (RT.flat_piece (branch_with b0) (co_size c) bk low high))
      a b (length gs) (zlen pre) (cached, (so, w)) = ((cached', (so, w')), Ok (concat (window a b (zlen (concat pre)) (concat gs))))
    /\ cache_ok cached' /\ alive w'.
Proof.
  intros Hla. induction gs as [|g gs IH]; intros pre cached so w Eg Hk Ho Ha; cbn [length RT._spans].
  { exists cached, w. split_and!; [|done|done]. unfold window. cbn [concat]. by rewrite drop_nil, take_nil. }
  pose proof size_nonneg as Hs. set (at_ := zlen (concat pre)).
  assert (E1 : RT.at_index (co_starts c) (zlen pre) = Ok at_).
  { unfold RT.at_index. rewrite Hstarts, Eg. unfold zlen at 1. rewrite Nat2Z.id, start_at, take_app_length by (rewrite !length_app; lia). done. }
  assert (E2 : RT.at_index (co_starts c) (zlen pre + 1) = Ok (at_ + zlen g)).
  { unfold RT.at_index. rewrite Hstarts, Eg. replace (Z.to_nat (zlen pre + 1)) with (length (pre ++ [g])) by (rewrite length_app; unfold zlen; cbn; lia).
    replace (pre ++ g :: gs) with ((pre ++ [g]) ++ gs) by (by rewrite <- app_assoc). rewrite start_at, take_app_length by (rewrite !length_app; lia).
    f_equal. rewrite concat_app, zlen_app. unfold at_. cbn. by rewrite app_nil_r. }
  cbn [concat]. rewrite window_app, concat_app. fold at_.
  assert (Hpiece : exists cached1 w1, (if (at_ + zlen g <=? a) || (b <=? at_) then mret []
      else (bk ← RT.basket (X := X) codecs (branch_with b0) (zlen pre); lift (RT.flat_piece (branch_with b0) (co_size c) bk (a `max` at_ - at_) (b `min` (at_ + zlen g) - at_)))) (cached, (so, w))
      = ((cached1, (so, w1)), Ok (concat (if (at_ + zlen g <=? a) || (b <=? at_) then [] else window a (b `min` (at_ + zlen g)) at_ g))) /\ cache_ok cached1 /\ alive w1).
  { case_goal; [by exists cached, w|]. apply orb_false_iff in E as [G1 G2]. zbool.
    destruct (basket_got b0 (length pre) g cached so w) as (cached1 & w1 & bk & Eb & Hk1 & Ha1 & Hd1 & Hd2 & Hd3); [by rewrite Eg, list_lookup_middle | done | done | done |].
    exists cached1, w1. split_and!; [|done|done]. rewrite st_bind_eq. unfold zlen at 1. rewrite Eb. unfold lift. do 2 f_equal.
    unfold RT.flat_piece. cbn [branch_with RT.bn_leaf leaf_of RT.lf_offset]. rewrite Hd1, Hd2, Hd3, (Z.eqb_refl (co_size c)). cbn [zlen length Z.of_nat Z.eqb andb].
    assert (Hg : Forall (fun b : bytes => zlen b = co_size c) g).
    { rewrite Eg, concat_app in Hsized. cbn [concat] in Hsized. apply Forall_app in Hsized as [_ Hsz]. by apply Forall_app in Hsz as [Hsz _]. }
    pose proof (zlen_nonneg g). rewrite slice_concat; [|done | lia | lia | done]. unfold window. do 3 f_equal; [lia|]. f_equal. lia. }
  destruct Hpiece as (cached1 & w1 & Ep & Hk1 & Ha1).
  destruct (IH (pre ++ [g]) cached1 so w1) as (cached2 & w2 & Er & Hk2 & Ha2); [by rewrite <- app_assoc | done | done | done |].
  exists cached2, w2. split_and!; [|done|done]. cbn [branch_with RT.bn_record branch_of RT.br_basket_entry].
  rewrite !st_bind_eq. unfold lift at 1. rewrite E1. rewrite st_bind_eq. unfold lift at 1. rewrite E2. rewrite st_bind_eq. cbn [branch_with] in Ep. rewrite Ep.
  rewrite st_bind_eq. replace (zlen pre + 1) with (zlen (pre ++ [g])) by (rewrite zlen_app; done). cbn [branch_with] in Er. rewrite Er. cbn [mret st_ret].
  do 3 f_equal. rewrite concat_app, zlen_app. cbn. rewrite app_nil_r. done.
Qed.

(** *** Its values *)

Variable show_info : RootFile.sval -> str.
Variable show : RootInterp.obj -> str.
Variable lower : str -> str.
Variable depth : nat.
Variable cells : list pyval.
Hypothesis Hpacked : mapM_res (pack c) cells = Ok (concat groups).

Lemma num_baskets_groups b0 : RT.num_baskets (branch_with b0) = zlen groups.
Proof.
  unfold RT.num_baskets. cbn [branch_with RT.bn_record branch_of RT.br_basket_seek RT.br_baskets]. rewrite zlen_nil.
  pose proof (zlen_nonneg (co_seeks c)). rewrite Z.max_l by lia. unfold zlen. by rewrite (Forall3_length_lm _ _ _ _ Hback).
Qed.
Lemma cells_entries : zlen cells = entries.
Proof.
  rewrite Hentries. revert Hpacked. generalize (concat groups). clear. induction cells as [|v l IH]; intros bs; cbn; [by intros [= <-]|].
  intros (x & Hx & H1)%bind_ok_inv. apply bind_ok_inv in H1 as (xs & Hxs & H1). injection H1 as <-. by rewrite !zlen_cons, (IH xs Hxs).
Qed.

(** [l[start:stop]], where none is the end. *)
Definition part_of {A} (start : Z) (stop : option Z) (l : list A) : list A := R.py_slice l start (default (zlen l) stop).
Lemma bounds_window {A} b0 start stop (l : list A) : zlen l = entries -> let '(a, b) := RT._bounds (branch_with b0) start stop in
  0 <= a /\ window a b 0 l = part_of start stop l.
Proof.
  intros Hl. unfold RT._bounds, RT.num_entries. cbn [branch_with RT.bn_record branch_of RT.br_entries]. rewrite <- Hl. pose proof (zlen_nonneg l) as Hz.
  split; [lia|]. unfold window, part_of, R.py_slice. set (st := default (zlen l) stop).
  assert (Hd : Z.to_nat (Z.max (if start <? 0 then zlen l + start else start) 0 - 0) = Z.to_nat (if start <? 0 then Z.max 0 (start + zlen l) else start)) by (case_goal; zbool; lia).
  rewrite Hd. set (x := Z.to_nat (if start <? 0 then _ else _)).
  assert (Hlen : length (drop x l) = (length l - x)%nat) by apply length_drop.
  set (p := Z.min _ _ - _). set (q := (if st <? 0 then _ else _) - _).
  destruct (decide (Z.to_nat p = Z.to_nat q)) as [->|Hne]; [done|]. rewrite !take_ge; [done| |]; rewrite Hlen; subst p q x; unfold zlen in *; repeat case_hyp; zbool; lia.
Qed.

Lemma column_read b0 start stop cached so w : cache_ok cached -> over_it so -> alive w ->
  exists cached' w', RT.branch_array (X := X) codecs show_info show lower depth (branch_with b0) start stop (cached, (so, w))
    = ((cached', (so, w')), Ok (RT.AFlat (read_code (co_typecode c)) (concat (entry_values c <$> part_of start stop cells)))) /\ cache_ok cached' /\ alive w'.
Proof.
  intros Hk Ho Ha. unfold RT.branch_array. rewrite st_bind_eq. cbn [lift RT._refuse_if_unreadable branch_with RT.bn_column flat_column RT.is_refused RT.is_jagged orb andb].
  pose proof (bounds_window b0 start stop cells cells_entries) as Hb. unfold branch_with, flat_column in Hb. destruct (RT._bounds _ start stop) as [a b]. destruct Hb as [Hla Hw].
  cbn beta iota. rewrite !st_bind_eq. unfold RT._flat. pose proof (cs_typed c Hc) as Ht. rewrite <- (ct_size c Ht).
  destruct (spans_read b0 a b Hla groups [] cached so w eq_refl Hk Ho Ha) as (cached' & w' & E & Hk' & Ha').
  rewrite num_baskets_groups. unfold zlen at 1. rewrite Nat2Z.id. rewrite st_bind_eq. change (zlen []) with 0 in E. rewrite E.
  exists cached', w'. split_and!; [|done|done]. unfold lift. cbn [RootInterp.decode]. change (zlen (concat [])) with 0.
  pose proof (mapM_window (pack c) cells _ a b Hpacked) as Hm. rewrite Hw in Hm. destruct (packs_native c _ _ Ht Hm) as [_ Hn]. rewrite Hn. done.
Qed.
End OneColumn.

(** ** The tree *)

Definition leaf_reads (x : str * (str * str * Z * bool)) : bool :=
  let '(code, (cls, _, size, un)) := x in
  let l := RT.mkLeaf cls [] [] 1 0 0 un None (-1) in
  dict_mem cls RT.LEAF_TYPES && negb (bool_decide (cls = s_ "TLeafC")) 
  && match RT.typecode l, RT.itemsize l with Ok c, Ok n => bool_decide (c = read_code code) && (n =? size) | _, _ => false end.
Lemma leaves_read : forallb leaf_reads LEAVES = true.
Proof. vm_compute. reflexivity. Qed.
Lemma built_column d lower show depth rec c : column_typed c -> RT.build d lower show depth rec (leaf_of c) = Ok (flat_column c).
Proof.
  intros [Hd _ _ _]. apply dict_get_Some_in in Hd. pose proof leaves_read as A. rewrite forallb_forall in A. apply list_elem_of_In, A in Hd.
  cbn beta iota zeta in Hd. unfold leaf_reads in Hd. rewrite !andb_true_iff, negb_true_iff, bool_decide_eq_false in Hd. destruct Hd as [[H1 H2] H3].
  unfold RT.build. cbn [leaf_of RT.lf_classname]. rewrite H1. unfold RT._plain. cbn [leaf_of RT.lf_classname RT.lf_count RT.lf_length]. rewrite bool_decide_eq_false_2 by done.
  change (RT.typecode (leaf_of c)) with (RT.typecode (RT.mkLeaf (co_classname c) [] [] 1 0 0 (co_unsigned c) None (-1))).
  change (RT.itemsize (leaf_of c)) with (RT.itemsize (RT.mkLeaf (co_classname c) [] [] 1 0 0 (co_unsigned c) None (-1))). 
  destruct (RT.typecode _) as [x|]; [|done]. destruct (RT.itemsize _) as [n|]; [|done]. apply andb_true_iff in H3 as [->%bool_decide_eq_true ->%Z.eqb_eq]. reflexivity.
Qed.

Variable show_info : RootFile.sval -> str.
Variable show_part : RT.part -> str.
Variable show : RootInterp.obj -> str.
Variable lower : str -> str.
Variable depth : nat.

(** Nothing is asked of the file to tell what a plain column is. *)
Lemma asking_plain {A} (k : option (res (dict str (dict str RootFile.Member))) -> res A) a s : (forall d, k d = Ok a) ->
  RT.asking (H := H) (X := X) (W := W) codecs show_info depth k s = (s, Ok a).
Proof. intros Hk. unfold RT.asking. destruct (RootFile.so_streamers s.1); by rewrite Hk. Qed.

Lemma added_branch entries c T s : column_typed c ->
  RT._add (X := X) codecs show_info show lower depth (branch_of c entries) (T, s) = ((RT.set_branch (co_name c) (branch_with c entries None) T, s), Ok [co_name c]).
Proof.
  intros Ht. cbn [RT._add branch_of RT.br_leaves RT.br_branches RT.br_name]. change (1 <? zlen [leaf_of c]) with false. cbn [RT.add_leaves].
  rewrite !st_bind_eq. cbn [snd fst].
  rewrite (asking_plain _ (flat_column c)) by (intros d; by apply built_column). reflexivity.
Qed.
Lemma added_branches entries cols T s : Forall column_typed cols ->
  RT.add_all (X := X) codecs show_info show lower depth ((fun c => branch_of c entries) <$> cols) (T, s)
  = ((foldl (fun T c => RT.set_branch (co_name c) (branch_with c entries None) T) T cols, s), Ok tt).
Proof.
  intros Hc. revert T. induction Hc as [|c cols Ht _ IH]; intros T; [done|]. cbn [fmap list_fmap RT.add_all foldl].
  rewrite st_bind_eq, added_branch by done. apply IH.
Qed.

(** The cells of a column, in the baskets its branch speaks of. *)
Record column_ready (entries : Z) (c : _Column) (groups : list (list bytes)) (vals : list pyval) : Prop := {
  cr_shaped : column_shaped c; cr_starts : co_starts c = starts 0 groups;
  cr_back : Forall3 (basket_back (co_size c)) groups (co_seeks c) (co_sizes c);
  cr_entries : entries = zlen (concat groups); cr_packed : mapM_res (pack c) vals = Ok (concat groups)
}.

Lemma part_of_fmap {A B} (fn : A -> B) start stop l : fn <$> part_of start stop l = part_of start stop (fn <$> l).
Proof. unfold part_of, R.py_slice. unfold zlen. by rewrite !length_fmap, fmap_take, fmap_drop. Qed.

Section OneTree.
Variable tr : WritableTree.
Variable rows : list (dict str pyval).

(** A tree whose branches are the columns, whatever baskets they remember. *)
Definition shown (T : RT.TTree) : Prop := forall n c, dict_get n (wt_columns tr) = Some c ->
  co_name c = n /\ exists groups cached, column_ready (wt_entries tr) c groups (cells n rows)
    /\ dict_get n (RT.tt_branches T) = Some (branch_with c (wt_entries tr) cached) /\ cache_ok c groups cached.

(** The values of a column for the rows from [start] to [stop]. *)
Definition values_of (n : str) (start : Z) (stop : option Z) : RT.values :=
  match dict_get n (wt_columns tr) with
  | Some c => RT.AFlat (read_code (co_typecode c)) (concat (entry_values c <$> cells n (part_of start stop rows)))
  | None => RT.AObjects []
  end.

Lemma array_read fuel n start stop T so w : shown T -> is_Some (dict_get n (wt_columns tr)) -> over_it so -> alive w ->
  exists T' w', RT.array_ (X := X) codecs show_info show lower depth (S fuel) n start stop (T, (so, w)) = ((T', (so, w')), Ok (values_of n start stop))
    /\ shown T' /\ alive w' /\ RT.tt_num_entries T' = RT.tt_num_entries T.
Proof.
  intros HT [c Hc] Ho Ha. destruct (HT n c Hc) as (En & groups & cached & [R1 R2 R3 R4 R5] & HB & Hk).
  destruct (column_read c (wt_entries tr) groups R1 R2 R3 (proj1 (packs_native c _ _ (cs_typed c R1) R5)) R4 show_info show lower depth _ R5 cached start stop cached so w Hk Ho Ha)
    as (cached' & w' & E & Hk' & Ha').
  exists (RT.set_branch n (branch_with c (wt_entries tr) cached') T), w'. split_and!; [| |done|done].
  - cbn [RT.array_]. unfold RT.getitem_. cbn [fst]. rewrite HB. cbn [branch_with RT.bn_group RT.bn_cached fst snd] in *. rewrite E. unfold values_of. rewrite Hc.
    unfold cells. by rewrite !part_of_fmap.
  - intros m c' Hm. destruct (HT m c' Hm) as (Em & groups' & cached0 & Rm & HBm & Hkm). split; [done|]. unfold RT.set_branch. cbn [RT.with_branches RT.tt_branches].
    destruct (decide (n = m)) as [<-|Hne].
    + rewrite Hc in Hm. injection Hm as <-. exists groups, cached'. rewrite dict_get_set_eq. split_and!; [by split | done | done].
    + exists groups', cached0. rewrite dict_get_set_ne by done. done.
Qed.

(** Columns asked for one after another. *)
Fixpoint asks (fuel : nat) (qs : list (str * Z * option Z)) : st exn (RT.TTree * (RootFile.Source H * W)) (list RT.values) :=
  match qs with
  | [] => mret []
  | (n, start, stop) :: qs => v ← RT.array_ (X := X) codecs show_info show lower depth (S fuel) n start stop; vs ← asks fuel qs; mret (v :: vs)
  end.
Lemma asks_read fuel qs : forall T so w, shown T -> Forall (fun q => is_Some (dict_get q.1.1 (wt_columns tr))) qs -> over_it so -> alive w ->
  exists T' w', asks fuel qs (T, (so, w)) = ((T', (so, w')), Ok ((fun q => values_of q.1.1 q.1.2 q.2) <$> qs)) /\ alive w'.
Proof.
  induction qs as [|[[n start] stop] qs IH]; intros T so w HT Hq Ho Ha; cbn [asks fmap list_fmap]; [by exists T, w|].
  apply Forall_cons in Hq as [Hn Hq]. destruct (array_read fuel n start stop T so w HT Hn Ho Ha) as (T1 & w1 & E1 & HT1 & Ha1 & _).
  destruct (IH T1 so w1 HT1 Hq Ho Ha1) as (T2 & w2 & E2 & Ha2). exists T2, w2. split; [|done]. rewrite st_bind_eq, E1, st_bind_eq, E2. reflexivity.
Qed.

(** Branches set one after another, each under a name of its own. *)
Lemma set_branches cols : forall T, NoDup (co_name <$> cols) -> (forall c, c ∈ cols -> dict_get (co_name c) (RT.tt_branches T) = None) ->
  let T' := foldl (fun T c => RT.set_branch (co_name c) (branch_with c (wt_entries tr) None) T) T cols in
  dict_keys (RT.tt_branches T') = dict_keys (RT.tt_branches T) ++ (co_name <$> cols)
  /\ (forall c, c ∈ cols -> dict_get (co_name c) (RT.tt_branches T') = Some (branch_with c (wt_entries tr) None))
  /\ (forall n, n ∉ co_name <$> cols -> dict_get n (RT.tt_branches T') = dict_get n (RT.tt_branches T))
  /\ RT.tt_name T' = RT.tt_name T /\ RT.tt_title T' = RT.tt_title T /\ RT.tt_num_entries T' = RT.tt_num_entries T /\ RT.tt_unreadable T' = RT.tt_unreadable T.
Proof.
  induction cols as [|c cols IH]; intros T Hn Hf; cbn [foldl fmap list_fmap].
  { rewrite app_nil_r. split_and!; [done | by intros c ?%elem_of_nil | done..]. }
  cbn [fmap list_fmap] in Hn. apply NoDup_cons in Hn as [Hnin Hn]. set (T1 := RT.set_branch _ _ T).
  assert (B1 : forall n, dict_get n (RT.tt_branches T1) = if decide (co_name c = n) then Some (branch_with c (wt_entries tr) None) else dict_get n (RT.tt_branches T)) by (intros n; apply dict_get_set).
  destruct (IH T1 Hn) as (K & B & O & E1 & E2 & E3 & E4).
  { intros c' Hin. rewrite B1, decide_False; [apply Hf; by right|]. intros E. apply Hnin. rewrite E. by apply list_elem_of_fmap_2. }
  split_and!; try done.
  - rewrite K. unfold T1. cbn [RT.set_branch RT.with_branches RT.tt_branches]. rewrite dict_keys_set, (Hf c) by left. by rewrite <- app_assoc.
  - intros c' [->|Hin]%elem_of_cons; [|by apply B]. rewrite O, B1 by done. by rewrite decide_True.
  - intros n Hnot. rewrite not_elem_of_cons in Hnot. destruct Hnot as [Hne Hnot]. rewrite O, B1 by done. by rewrite decide_False.
Qed.

Hypothesis Hnodup : NoDup (dict_keys (wt_columns tr)).
Hypothesis Hready : forall n c, dict_get n (wt_columns tr) = Some c -> co_name c = n /\ exists groups, column_ready (wt_entries tr) c groups (cells n rows).

Lemma column_names : co_name <$> (wt_columns tr).*2 = dict_keys (wt_columns tr).
Proof.
  assert (A : forall n c, (n, c) ∈ wt_columns tr -> co_name c = n) by (intros n c Hin; by apply Hready, dict_in_get).
  unfold dict_keys. clear - A. induction (wt_columns tr) as [|[n c] l IH]; [done|]. cbn. f_equal; [apply A; left | apply IH; intros; apply A; by right].
Qed.
Lemma columns_shaped : Forall column_shaped (wt_columns tr).*2.
Proof.
  apply Forall_forall. intros c Hin. apply list_elem_of_fmap in Hin as ([n c'] & -> & Hin). cbn. destruct (Hready n c') as (_ & groups & Hr); [by apply dict_in_get|].
  exact (cr_shaped _ _ _ _ Hr).
Qed.

Lemma tree_opened so w k e codes keylen d : depth = S d -> over_it so -> alive w -> RootRoundTrip.shows codecs h pid alive e k -> RootContainer.en_class e = s_ "TTree" ->
  is_text (wt_name tr) = true -> is_text (wt_title tr) = true -> tree_payload tr codes keylen = Ok (RootContainer.en_payload e) -> zlen (RootContainer.en_payload e) < LIMIT ->
  exists T w', RT.tree_of (X := X) codecs show_info show_part show lower depth k (so, w) = ((so, w'), Ok T) /\ alive w' /\ shown T
    /\ dict_keys (RT.tt_branches T) = dict_keys (wt_columns tr) /\ RT.tt_num_entries T = wt_entries tr /\ RT.tt_title T = wt_title tr /\ RT.tt_unreadable T = [].
Proof.
  intros Ed Ho Ha Hs Ec Tn Tt Hp Hl. destruct (RootRoundTrip.sh_payload _ _ _ _ _ _ Hs so w Ho Ha) as (w' & Hpl & Ha').
  pose proof (reads_tree_record show_part tr codes Tn Tt columns_shaped d (RootFile.k_keylen k) keylen _ Hp Hl) as Hr. apply reads_over in Hr.
  assert (Hct : Forall column_typed (wt_columns tr).*2) by (eapply Forall_impl; [exact columns_shaped|]; intros c; apply cs_typed).
  set (T0 := RT.mkTTree (RootFile.k_name k) (wt_title tr) (wt_entries tr) [] [] []).
  pose proof (added_branches (wt_entries tr) _ T0 (so, w') Hct) as Hadd.
  destruct (set_branches (wt_columns tr).*2 T0) as (K & B & _ & _ & E2 & E3 & E4); [by rewrite column_names | done |].
  set (T := foldl _ T0 _) in *. exists T, w'. split_and!; [|done| | by rewrite K, column_names | done | done | done].
  - unfold RT.tree_of. rewrite st_bind_eq, Hpl, st_bind_eq. rewrite (RootRoundTrip.sh_class _ _ _ _ _ _ Hs), Ec, Ed. unfold lift. rewrite Hr. cbv beta iota zeta.
    rewrite <- Ed. unfold RT.TTree_init. fold T0. rewrite Hadd. reflexivity.
  - intros n c Hc. destruct (Hready n c Hc) as (En & groups & Hg). split; [done|]. exists groups, None. split_and!; [done| |done]. rewrite <- En at 1. apply B.
    apply list_elem_of_fmap. exists (n, c). split; [done | by apply dict_get_Some_in].
Qed.
End OneTree.
End Reading.

(** ** The round trip *)

Lemma mapM_zlen {A B} (fn : A -> res B) l bs : mapM_res fn l = Ok bs -> zlen bs = zlen l.
Proof.
  revert bs. induction l as [|v l IH]; intros bs; cbn; [by intros [= <-]|]. intros (x & Hx & H1)%bind_ok_inv. apply bind_ok_inv in H1 as (xs & Hxs & H1).
  injection H1 as <-. by rewrite !zlen_cons, (IH xs Hxs).
Qed.
(** The same columns have the same values. *)
Lemma values_like tr tr' rows n start stop : like tr tr' -> is_Some (dict_get n (wt_columns tr)) -> values_of tr' rows n start stop = values_of tr rows n start stop.
Proof.
  intros (_ & K & L) Hn. unfold values_of. apply dict_get_keys in Hn. rewrite <- K in Hn. apply dict_get_keys in Hn as [c' Hc']. destruct (L n c' Hc') as (c & Hc & Et & El).
  rewrite Hc, Hc', Et. unfold entry_values. by rewrite Et, El.
Qed.

Section RoundTrip.
Context {G W : Type} {EW : WriterEnv G W}.
Context {H X V : Type} {ER : RootEnv H X V}.
Variable codecs : Compression.Codecs.
Hypothesis laws : CompressionProps.CodecLaws codecs.
Variable show_val : pyval -> str.
Variable wide : bool.
Import RootContainer RootRoundTrip.

Notation run := (run codecs show_val wide).
Notation log := (log codecs show_val wide).
Notation filled := (filled codecs show_val wide).

(** Every record of a tree is one whose length its count can carry. *)
Definition records_small (f : WritableFile G) : bool :=
  match finish_all codecs 0 (length (wf_trees f)) (set_closed f) with
  | (f1, Ok _) => forallb (fun tr => match (n ← _keylen (s_ "TTree") (wt_name tr) (wt_title tr) 0; tree_payload tr (_codes f1) n) with
                                     | Ok b => zlen b <? LIMIT
                                     | Err _ => true
                                     end) (wf_trees f1)
  | _ => true
  end.

(** The key [k] opens as a tree with the columns of [tr], and whatever is asked
    of them is the values of [rows]. *)
Definition opens_as (tr : WritableTree) (rows : list (dict str pyval)) (k : RootFile.Key) (so : RootFile.Source H) (v : V) : Prop :=
  forall show_info show_part show lower d fuel qs, Forall (fun q => q.1.1 ∈ dict_keys (wt_columns tr)) qs ->
  exists T v1 T' v2, RT.tree_of (X := X) codecs show_info show_part show lower (S d) k (so, v) = ((so, v1), Ok T)
    /\ RT.tt_num_entries T = zlen rows /\ RT.tt_title T = wt_title tr /\ dict_keys (RT.tt_branches T) = dict_keys (wt_columns tr) /\ RT.tt_unreadable T = []
    /\ asks (X := X) codecs show_info show lower (S d) fuel qs (T, (so, v1)) = ((T', (so, v2)), Ok ((fun q => values_of tr rows q.1.1 q.1.2 q.2) <$> qs)).

Lemma init_filled (g : G) name owned algorithm level (w w' : W) f : zlen (uuid4 w).2 = 16 ->
  WritableFile_init g name owned algorithm level w = (w', Ok f) -> Filled codecs f (fun _ => []).
Proof.
  intros Hu Hi. destruct (inv_init codecs g _ _ _ _ _ _ _ Hu Hi) as [I Ht]. assert (E : wf_trees f = []) by (unfold tags in Ht; by destruct (wf_trees f)).
  split; [|by rewrite E | done]. destruct (inv_data _ _ _ _ _ I) as [tail ->]. rewrite zlen_app. unfold zlen at 1. rewrite length_replicate. pose proof (zlen_nonneg tail). lia.
Qed.

(** The file, cut where it was written. *)
Lemma assembled_parts (f : WritableFile G) g closed es D : Inv codecs g closed f es -> assembled codecs f D ->
  exists head tail rest, wf_data f = replicate (Z.to_nat (base f)) x00 ++ tail /\ zlen head = base f /\ D = head ++ tail ++ rest.
Proof.
  intros I [(tail & info & ki & hi & bi & kk & hk & keylist & more & first & mid & post & Hd & HD & _ & Lfm & Lpost & _)].
  eexists _, tail, _. split_and!; [done| |exact HD]. rewrite !zlen_app. rewrite zlen_app in Lfm. rewrite directory_zlen. unfold base. lia.
Qed.

(** What a tree holds is ready to be read from the file. *)
Lemma holds_ready h D pid (alive : V -> Prop) (f : WritableFile G) g closed es tr rows n c : serves (X := X) h D pid alive -> Inv codecs g closed f es -> assembled codecs f D ->
  tree_holds codecs f tr rows -> settled tr -> dict_get n (wt_columns tr) = Some c ->
  co_name c = n /\ exists groups, column_ready (X := X) codecs h pid alive (wt_entries tr) c groups (cells n rows).
Proof.
  intros Hs I HA [_ He _ Hcols] Hst Hc. destruct (Hcols n c Hc) as (En & _ & bs & Hm & Hb). split; [done|]. pose proof (holds_shaped _ _ _ _ Hb) as Hsh.
  destruct Hb as [Ht (groups & pend & H1 & H2 & H3 & H4 & H5)]. rewrite (Hst n c Hc) in H3.
  assert (pend = []) as -> by (destruct pend; [done | rewrite zlen_cons in H3; pose proof (zlen_nonneg pend); lia]). rewrite app_nil_r in H1. subst bs.
  destruct (assembled_parts f g closed es D I HA) as (head & tail & rest & Hd & Hh & HD). exists groups. split; [done | done | | | done].
  - eapply Forall3_impl; [exact H5|]. intros gr seek nbytes Hg. eapply (stored_back codecs h D pid alive Hs f _ gr seek nbytes es g closed head tail rest); [done.. | | done].
    by eapply size_nonneg.
  - rewrite He, (mapM_zlen _ _ _ Hm). unfold cells, zlen. by rewrite length_fmap.
Qed.

Lemma tree_back h D pid (alive : V -> Prop) (f f1 : WritableFile G) g es ts t tr rows e k so v : serves (X := X) h D pid alive -> over_it h pid so -> alive v ->
  Inv codecs g true f1 es -> assembled codecs f1 D -> finish_all codecs 0 (length (wf_trees f)) (set_closed f) = (f1, Ok tt) -> records_small f = true ->
  Filled codecs f rows -> wf_trees f !! t = Some tr -> tag_entry ts e -> record_of f1 t e -> shows codecs h pid alive e k ->
  opens_as tr (rows t) k so v.
Proof.
  intros Hs Ho Ha I HA Hf Hsm HF Ht Hte (tr1 & keylen & Et1 & Ek & Hp) Hk.
  assert (HF' : Filled codecs (set_closed f) rows).
  { apply (filled_grown codecs f); [|reflexivity | exact HF]. split; [done|]. exists []. by rewrite app_nil_r. }
  destruct (filled_finish_all codecs laws _ _ _ _ _ Hf HF') as (HF1 & _ & HL). destruct (HL t tr1 Et1) as (tr0 & Et0 & Lk & St).
  change (wf_trees (set_closed f)) with (wf_trees f) in Et0. rewrite Ht in Et0. injection Et0 as <-.
  assert (Hset : settled tr1) by (apply St; apply lookup_lt_Some in Ht; lia). pose proof (fi_trees _ _ _ HF1 t tr1 Et1) as Hh.
  assert (Hsize : zlen (en_payload e) < LIMIT).
  { unfold records_small in Hsm. rewrite Hf, forallb_forall in Hsm. specialize (Hsm tr1). rewrite Ek in Hsm. cbn [mbind result_bind] in Hsm. rewrite Hp in Hsm.
    apply Z.ltb_lt, Hsm, list_elem_of_In. by eapply list_elem_of_lookup_2. }
  assert (Hn : (wt_name tr1, wt_title tr1, wt_cycle tr1) ∈ tags f1) by (apply list_elem_of_fmap; exists tr1; split; [done | by eapply list_elem_of_lookup_2]).
  destruct (inv_trees _ _ _ _ _ I _ _ _ Hn) as [(Tn & _)%keyed_string (Tt & _)%keyed_string]. pose proof Lk as (Lk0 & Lk1 & _).
  intros show_info show_part show lower d fuel qs Hqs.
  destruct (tree_opened (X := X) codecs h pid alive show_info show_part show lower (S d) tr1 (rows t) (th_nodup _ _ _ _ Hh)
    (fun n c => holds_ready h D pid alive f1 g true es tr1 (rows t) n c Hs I HA Hh Hset) so v k e (_codes f1) keylen d eq_refl Ho Ha Hk) as (T & v1 & E & Ha1 & HT & K & N & Ti & U);
    [by rewrite Hte | done | done | exact Hp | done |].
  destruct (asks_read (X := X) codecs h pid alive show_info show lower (S d) tr1 (rows t) fuel qs T so v1 HT) as (T' & v2 & Eq & _); [|done | done |].
  { eapply Forall_impl; [exact Hqs|]. intros q Hq. apply dict_get_keys. by rewrite Lk1. }
  exists T, v1, T', v2. split_and!; [exact E | rewrite N; exact (th_entries _ _ _ _ Hh) | | by rewrite K | done |].
  - congruence.
  - rewrite Eq. do 2 f_equal. apply list_fmap_ext. intros i q Hq. apply values_like; [done|]. apply dict_get_keys. rewrite Forall_lookup in Hqs. by apply (Hqs i).
Qed.

(** C17: a filled tree reads back. Whatever was put into a new file, with the
    calls that raised caught on the way, under names, titles and columns that
    are text, and as long as the record of each tree stays below 1 GiB
    ([records_small]): when it closes, the bytes handed to the file open as a
    ROOT file in which each tree, behind the objects, opens as a tree with
    its columns and as many entries as rows were taken - those whose call
    returned, and those that suited the tree but raised while a full basket
    was being written; and columns asked for in any order, over any range of
    entries, are the values those rows had, in the width their type code
    gives them. The codecs undo themselves, and the identifier of the file
    has 16 bytes. *)
Theorem tree_reads_back (g : G) name owned algorithm level (w0 w1 : W) f0 ops (w : W) f' w' :
  zlen (uuid4 w0).2 = 16 -> WritableFile_init g name owned algorithm level w0 = (w1, Ok f0) ->
  forallb (in_text show_val) ops = true -> forallb columns_text ops = true -> records_small (run ops f0) = true ->
  close codecs (run ops f0, w) = ((f', w'), Ok tt) ->
  exists D w2, wh_write g D w = (w2, Ok tt)
    /\ forall h pid (alive : V -> Prop) so v, serves (X := X) h D pid alive -> over_it h pid so -> alive v ->
       exists so' v' rf, RootFile.ROOTFile_init (so, v) = ((so', v'), Ok rf)
         /\ forall t tr, wf_trees (run ops f0) !! t = Some tr -> exists k, RootFile.dr_keys (RootFile.rf_directory rf) !! (length (log ops f0) + t)%nat = Some k
              /\ RootFile.k_name k = wt_name tr /\ RootFile.k_cycle k = wt_cycle tr /\ opens_as tr (filled t ops f0) k so' v'.
Proof.
  intros Hu Hi Ht Hct Hsm Hc. destruct (inv_init codecs g _ _ _ _ _ _ _ Hu Hi) as [I0 _].
  pose proof (inv_run codecs laws show_val wide g false ops f0 [] Ht I0) as I1. rewrite app_nil_l in I1.
  pose proof (filled_run codecs laws show_val wide ops f0 _ Ht Hct (init_filled _ _ _ _ _ _ _ _ Hu Hi)) as HF.
  destruct (close_writes codecs laws g _ _ _ _ _ I1 Hc) as (f1 & D & ts & w2 & I2 & Hts & HA & _ & _ & Hw & Hfin & Hrec).
  exists D, w2. split; [done|]. intros h pid alive so v Hs Ho Ha. destruct (opened codecs h D pid alive Hs f1 _ g true I2 so v Ho Ha HA) as (i & v' & ks & E & Ha' & HS & _).
  eexists _, v', _. split; [exact E|]. intros t tr Htr.
  assert (Htag : tags (run ops f0) !! t = Some (wt_name tr, wt_title tr, wt_cycle tr)) by (unfold tags; by rewrite list_lookup_fmap, Htr).
  destruct Hts as [Htags Hts]. rewrite <- Htags in Htag. unfold tags in Htag. rewrite list_lookup_fmap in Htag.
  destruct (wf_trees f1 !! t) as [tr1|] eqn:Etr1; [|done]. cbn in Htag. injection Htag as Htn Htt Htc.
  destruct (Forall2_lookup_l _ _ _ _ _ Hts Etr1) as (e & He & kl & payload & Ek & Ep & Ee).
  assert (Hte : tag_entry (wt_name tr, wt_title tr, wt_cycle tr) e) by (unfold tag_entry; rewrite Ee; cbn; by rewrite Htn, Htt, Htc).
  destruct (Forall2_lookup_l _ _ _ (length (log ops f0) + t) e HS) as (k & Hk & Hsh); [rewrite lookup_app_r by lia; by replace (length (log ops f0) + t - length (log ops f0))%nat with t by lia|].
  exists k. split_and!; [exact Hk | rewrite (sh_name _ _ _ _ _ _ Hsh), Hte; done | rewrite (sh_cycle _ _ _ _ _ _ Hsh), Hte; done|].
  eapply (tree_back h D pid alive (run ops f0) f1 g _ _ t tr (fun t => filled t ops f0) e k _ v' Hs); [exact Ho | done | exact I2 | exact HA | exact Hfin | exact Hsm | exact HF | exact Htr | exact Hte | by apply Hrec | exact Hsh].
Qed.
End RoundTrip.

(** *** An example *)

Import RootContainer RootRoundTrip.
Definition plain_file : WritableFile unit :=
  match WritableFile_init tt (s_ "out/x.root") false None None ([], 0) with
  | (_, Ok f) => f
  | (_, Err _) => mkWF tt false None None 0 [] false [] [] 0 [] [] [] [] []
  end.
Lemma plain_init : WritableFile_init tt (s_ "out/x.root") false None None ([], 0) = (([], 0), Ok plain_file).
Proof. vm_compute. reflexivity. Qed.
(** A tree of two columns, four rows it takes in baskets of two or three, and one it does not. *)
Definition tree_ops : list op :=
  [Tree (s_ "t") [(s_ "x", PType TInt); (s_ "y", PTuple [PStr (s_ "f"); PInt 2])] None 20;
   Row 0 [(s_ "x", PInt 5); (s_ "y", PList [PInt 1; PInt 2])];
   Row 0 [(s_ "x", PInt (-7)); (s_ "y", PList [PInt 3; PInt 4])];
   Row 0 [(s_ "x", PStr (s_ "eight")); (s_ "y", PList [PInt 3; PInt 4])];
   Row 0 [(s_ "x", PInt 9); (s_ "y", PList [PInt 1; PInt 2])];
   Row 0 [(s_ "x", PInt 11); (s_ "y", PList [PInt 1; PInt 3])]].
Definition tree_made : WritableTree :=
  default (mkTree 0 [] [] 0 []) (wf_trees (RootContainer.run CompressionProps.stored nothing true tree_ops plain_file) !! 0%nat).
Lemma tree_closes : exists f' w', close CompressionProps.stored (RootContainer.run CompressionProps.stored nothing true tree_ops plain_file, ([], 0)) = ((f', w'), Ok tt).
Proof.
  assert (E : is_ok (close CompressionProps.stored (RootContainer.run CompressionProps.stored nothing true tree_ops plain_file, ([], 0))).2 = true) by (vm_compute; reflexivity).
  destruct (close _ _) as [[f' w'] [[]|e]]; [by exists f', w' | done].
Qed.
Lemma tree_small : records_small CompressionProps.stored (RootContainer.run CompressionProps.stored nothing true tree_ops plain_file) = true.
Proof. vm_compute. reflexivity. Qed.
Lemma tree_there : wf_trees (RootContainer.run CompressionProps.stored nothing true tree_ops plain_file) !! 0%nat = Some tree_made.
Proof. vm_compute. reflexivity. Qed.
Definition tree_asked : list (str * Z * option Z) := [(s_ "x", 1, None); (s_ "y", -3, Some 3)].
Lemma asked_named : Forall (fun q => q.1.1 ∈ dict_keys (wt_columns tree_made)) tree_asked.
Proof. apply (bool_decide_eq_true_1 _). vm_compute. reflexivity. Qed.

Lemma tree_reads_back_witness :
  exists D w2, wh_write tt D ([], 0) = (w2, Ok tt)
    /\ exists so' v' rf k T v1 T' v2, RootFile.ROOTFile_init (X := unit) (RootFile.mkSource tt [] false (0, 0) None 7 None None, (D, 0)) = ((so', v'), Ok rf)
        /\ RootFile.dr_keys (RootFile.rf_directory rf) !! 0%nat = Some k
        /\ RT.tree_of (X := unit) CompressionProps.stored (fun _ => []) (fun _ => []) (fun _ => []) id 2 k (so', v') = ((so', v1), Ok T)
        /\ RT.tt_num_entries T = 4
        /\ asks (X := unit) CompressionProps.stored (fun _ => []) (fun _ => []) id 2 0 tree_asked (T, (so', v1))
           = ((T', (so', v2)), Ok [RT.AFlat (s_ "q") [-7; 9; 11]; RT.AFlat (s_ "f") [1077936128; 1082130432; 1065353216; 1073741824]]).
Proof.
  destruct tree_closes as (f' & w' & E).
  destruct (tree_reads_back (EW := mem_writer) (ER := mem_reader) CompressionProps.stored CompressionProps.stored_laws nothing true tt (s_ "out/x.root") false None None
    ([], 0) ([], 0) plain_file tree_ops ([], 0) f' w' eq_refl plain_init eq_refl eq_refl tree_small E) as (D & w2 & Hw & HR).
  exists D, w2. split; [exact Hw|].
  destruct (HR tt 7 (fun w => w.1 = D) (RootFile.mkSource tt [] false (0, 0) None 7 None None) (D, 0) (mem_serves D) (conj eq_refl eq_refl) eq_refl) as (so' & v' & rf & E1 & Ht).
  destruct (Ht 0%nat tree_made tree_there) as (k & Ek & _ & _ & Ho).
  destruct (Ho (fun _ => []) (fun _ => []) (fun _ => []) id 1%nat 0%nat tree_asked asked_named)
    as (T & v1 & T' & v2 & E2 & E3 & _ & _ & _ & E4).
  exists so', v', rf, k, T, v1, T', v2. split_and!; [exact E1 | exact Ek | exact E2 | rewrite E3; vm_compute; reflexivity | refine (eq_trans E4 _); do 2 f_equal; vm_compute; reflexivity].
Defined.
End RootTreeTrip.
