(* ===== verification/Pool.v ===== *)
(** * The session pool

    src/xrd/session/pool.py: idle sessions kept for the next caller with the
    same identity. A session is an object the pool only holds a reference
    to: whether it has been closed is asked of the world at each call, and
    what a call closes is part of its result. SHA-256 and Python's [repr]
    are parameters. *)

From stdpp Require Import countable relations.
From S2P Require Import Prelude PyStr Errors ConfigFile Url.
From Stdlib Require Import QArith.
Open Scope Z_scope.

(** ** Identity *)

(** Where and as whom. *)
Definition Key : Type := str * str * Z * bytes.

Section Identity.
(** [hashlib.sha256(m).hexdigest()] and [repr(x).encode()] at the types of
    the identity fields. *)
Variable sha256 : bytes -> bytes.
Variable repr_str : str -> bytes.
Variable repr_opt : option str -> bytes.
Variable repr_strs : list str -> bytes.
Variable repr_bool : bool -> bytes.

(** [url.username or config.username]. *)
Definition login_name (url : XRootDURL) (config : Config) : str :=
  match u_username url with [] => c_username config | n => n end.

(** The representations of [_IDENTITY_FIELDS], in order. *)
Definition identity_fields (config : Config) : list bytes :=
  [repr_str (c_username config); repr_opt (c_token config); repr_opt (c_token_file config);
   repr_opt (c_keytab config); repr_opt (c_proxy config); repr_opt (c_ca_path config);
   repr_opt (c_ca_file config); repr_strs (c_auth_order config); repr_bool (c_verify_tls config);
   repr_bool (c_require_tls config)].

(** What is fed to the digest. *)
Definition identity_message (url : XRootDURL) (config : Config) : bytes :=
  repr_str (login_name url config) ++ concat (map (cons x00) (identity_fields config)).

Definition _identity (url : XRootDURL) (config : Config) : bytes := sha256 (identity_message url config).

Definition _key (url : XRootDURL) (config : Config) : Key :=
  (if use_tls url || c_require_tls config then s_ "roots" else s_ "root", u_host url, u_port url,
   _identity url config).

(** Everything that decides who the server thinks it is talking to. *)
Definition same_identity (u1 : XRootDURL) (c1 : Config) (u2 : XRootDURL) (c2 : Config) : Prop :=
  login_name u1 c1 = login_name u2 c2 /\ c_username c1 = c_username c2 /\ c_token c1 = c_token c2
  /\ c_token_file c1 = c_token_file c2 /\ c_keytab c1 = c_keytab c2 /\ c_proxy c1 = c_proxy c2
  /\ c_ca_path c1 = c_ca_path c2 /\ c_ca_file c1 = c_ca_file c2 /\ c_auth_order c1 = c_auth_order c2
  /\ c_verify_tls c1 = c_verify_tls c2 /\ c_require_tls c1 = c_require_tls c2.

(** [repr] round-trips through [ast.literal_eval], and escapes NUL. *)
Hypothesis repr_str_inj : forall a b, repr_str a = repr_str b -> a = b.
Hypothesis repr_opt_inj : forall a b, repr_opt a = repr_opt b -> a = b.
Hypothesis repr_strs_inj : forall a b, repr_strs a = repr_strs b -> a = b.
Hypothesis repr_bool_inj : forall a b, repr_bool a = repr_bool b -> a = b.
Hypothesis repr_no_nul : (forall a, x00 ∉ repr_str a) /\ (forall a, x00 ∉ repr_opt a)
  /\ (forall a, x00 ∉ repr_strs a) /\ (forall a, x00 ∉ repr_bool a).

Lemma join_message a fs : a ++ concat (map (cons x00) fs) = join x00 (a :: fs).
Proof.
  revert a. induction fs as [|f fs IH]; intros a; [apply app_nil_r|].
  cbn [map concat]. rewrite <- app_comm_cons, IH. done.
Qed.

Lemma message_fields url config :
  split_all x00 (identity_message url config) = repr_str (login_name url config) :: identity_fields config.
Proof.
  destruct repr_no_nul as (H1 & H2 & H3 & H4). unfold identity_message. rewrite join_message.
  apply split_join; [done|]. unfold identity_fields. repeat constructor; auto.
Qed.

Lemma message_inj u1 c1 u2 c2 :
  identity_message u1 c1 = identity_message u2 c2 -> same_identity u1 c1 u2 c2.
Proof.
  intros E. apply (f_equal (split_all x00)) in E. rewrite !message_fields in E.
  unfold identity_fields in E. injection E as E0 E1 E2 E3 E4 E5 E6 E7 E8 E9 E10.
  unfold same_identity. split_and!; auto.
Qed.

(** One user's connection is never another's. Two callers get the same
    pool key only if they ask for the same endpoint with the same
    encryption and every field that decides who they log in as is equal -
    or else the two make a SHA-256 collision. *)
Theorem key_separates_identities u1 c1 u2 c2 :
  _key u1 c1 = _key u2 c2 ->
  u_host u1 = u_host u2 /\ u_port u1 = u_port u2
  /\ (use_tls u1 || c_require_tls c1) = (use_tls u2 || c_require_tls c2)
  /\ (same_identity u1 c1 u2 c2
      \/ exists x y, x <> y /\ sha256 x = sha256 y).
Proof.
  unfold _key. intros E. injection E as Es Eh Ep Ei. split_and!; [done|done| |].
  - by destruct (use_tls u1 || c_require_tls c1), (use_tls u2 || c_require_tls c2).
  - destruct (decide (identity_message u1 c1 = identity_message u2 c2)) as [Em|Em].
    + left. by apply message_inj.
    + right. by eexists _, _.
Qed.
End Identity.

(** ** The pool *)

Section Pool.
Context {S : Type}.

(** An idle session, and when it was put there. *)
Definition entry : Type := Q * S.
Definition idle : Type := dict Key (list entry).

Definition Qltb (a b : Q) : bool := negb (Qle_bool b a).

(** The loop of [acquire] on a bucket, newest entry first: the session
    found, the stale ones passed over, and what is left (newest first). *)
Fixpoint take_live (closed : S -> bool) (cutoff : Q) (bucket : list entry)
    : option S * list S * list entry :=
  match bucket with
  | [] => (None, [], [])
  | (when_, session) :: rest =>
      if closed session then take_live closed cutoff rest
      else if Qltb when_ cutoff then
        let '(found, stale, left_) := take_live closed cutoff rest in (found, session :: stale, left_)
      else (Some session, [], rest)
  end.

(** [acquire]: the session or [None], the pool after, and the sessions it
    closes. [key] is [_key(url, config)]. *)
Definition acquire (closed : S -> bool) (now : Q) (key : Key) (config : Config) (p : idle)
    : option S * idle * list S :=
  if c_pool_size config <=? 0 then (None, p, [])
  else
    let cutoff := (now - c_pool_idle_ttl config)%Q in
    let '(found, stale, left_) := take_live closed cutoff (reverse (default [] (dict_get key p))) in
    let p := match left_ with
             | [] => dict_pop key p
             | _ => dict_set key (reverse left_) p
             end in
    (found, p, stale).

(** [release]: whether the session was kept, the pool after, and the
    sessions it closes. [now] is read for the cutoff, [now'] for the entry. *)
Definition release (closed : S -> bool) (now now' : Q) (key : Key) (config : Config) (session : S)
    (p : idle) : bool * idle * list S :=
  if (c_pool_size config <=? 0) || closed session then (false, p, [])
  else
    let cutoff := (now - c_pool_idle_ttl config)%Q in
    let bucket := default [] (dict_get key p) in
    let expired := filter (fun e => Qltb e.1 cutoff = true) bucket in
    let bucket := filter (fun e => Qltb e.1 cutoff = false) bucket in
    if c_pool_size config <=? zlen bucket then (false, dict_set key bucket p, expired.*2)
    else (true, dict_set key (bucket ++ [(now', session)]) p, expired.*2).

(** [forget] drops the references; [clear] closes what it drops. *)
Definition forget (p : idle) : idle := [].
Definition clear (p : idle) : idle * list S := ([], p ≫= fun kb => kb.2.*2).

Definition pool_len (p : idle) : Z := foldr (fun kb n => zlen kb.2 + n) 0 p.

(** ** What the pool holds *)

(** Every session in the pool, and those under one key. *)
Definition held (p : idle) : list S := p ≫= fun kb => kb.2.*2.
Definition bucket_of (key : Key) (p : idle) : list entry := default [] (dict_get key p).

Lemma held_pop key (p : idle) :
  NoDup (dict_keys p) -> held p ≡ₚ (bucket_of key p).*2 ++ held (dict_pop key p).
Proof.
  unfold bucket_of, dict_keys, dict_pop, held. induction p as [|[k b] p IH]; [done|].
  cbn [fmap list_fmap fst]. intros [Hk Hn]%NoDup_cons. cbn [dict_get mbind list_bind snd].
  rewrite filter_cons. cbn [fst]. destruct (decide (key = k)) as [->|Hne].
  - rewrite decide_False by (intros H; by apply H). rewrite (filter_all _ p); [done|].
    intros [k' b'] Hin Heq. simpl in Heq. subst k'. apply Hk, list_elem_of_fmap. by exists (k, b').
  - rewrite decide_True by congruence. cbn [mbind list_bind snd]. rewrite (IH Hn).
    rewrite !app_assoc. f_equiv. apply Permutation_app_comm.
Qed.

Lemma held_set key b (p : idle) :
  NoDup (dict_keys p) -> held (dict_set key b p) ≡ₚ b.*2 ++ held (dict_pop key p).
Proof.
  intros Hn. rewrite (held_pop key) by (by apply dict_set_NoDup).
  unfold bucket_of. by rewrite dict_get_set_eq, dict_pop_set.
Qed.

Lemma take_live_perm closed cutoff bucket found stale left_ :
  take_live closed cutoff bucket = (found, stale, left_) ->
  exists dropped, Forall (fun s => closed s = true) dropped
    /\ bucket.*2 ≡ₚ option_list found ++ stale ++ dropped ++ left_.*2.
Proof.
  revert found stale left_. induction bucket as [|[w s] rest IH]; intros found stale left_; simpl.
  - intros [= <- <- <-]. by exists [].
  - destruct (closed s) eqn:Ec.
    + intros H. destruct (IH _ _ _ H) as (dropped & Hd & Hp). exists (s :: dropped).
      split; [by constructor|]. rewrite Hp, <- app_comm_cons.
      by rewrite <- Permutation_middle, <- Permutation_middle.
    + destruct (Qltb w cutoff).
      * destruct (take_live closed cutoff rest) as [[f st] lf] eqn:E. intros [= <- <- <-].
        destruct (IH _ _ _ eq_refl) as (dropped & Hd & Hp). exists dropped. split; [done|]. rewrite Hp.
        by rewrite (Permutation_app_swap_app (option_list f) (s :: st)), <- app_comm_cons,
          (Permutation_app_swap_app (option_list f) st).
      * intros [= <- <- <-]. by exists [].
Qed.

(** What the pool holds under the keys other than the one in use. *)
Lemma bucket_of_set key b (p : idle) : bucket_of key (dict_set key b p) = b.
Proof. unfold bucket_of. by rewrite dict_get_set_eq. Qed.

Lemma take_live_found closed cutoff bucket s stale left_ :
  take_live closed cutoff bucket = (Some s, stale, left_) ->
  exists newer when_, bucket = newer ++ (when_, s) :: left_
    /\ closed s = false /\ (cutoff <= when_)%Q
    /\ Forall (fun e => closed e.2 = true \/ (e.1 < cutoff)%Q) newer.
Proof.
  revert stale. induction bucket as [|[w s'] rest IH]; intros stale; [done|]. simpl.
  assert (Hlt : Qltb w cutoff = true -> (w < cutoff)%Q).
  { unfold Qltb. intros H%negb_true_iff. apply Qnot_le_lt. intros H'%Qle_bool_iff. congruence. }
  destruct (closed s') eqn:Ec.
  { intros (newer & w' & -> & H)%IH. exists ((w, s') :: newer), w'. destruct H as (? & ? & ?).
    split_and!; try done. constructor; auto. }
  destruct (Qltb w cutoff) eqn:El.
  - destruct (take_live closed cutoff rest) as [[f st] lf] eqn:E. intros [= -> <- ->].
    destruct (IH _ eq_refl) as (newer & w' & -> & ? & ? & ?). exists ((w, s') :: newer), w'.
    split_and!; try done. constructor; auto.
  - intros [= -> <- ->]. exists [], w. split_and!; try done.
    unfold Qltb in El. apply negb_false_iff in El. by apply Qle_bool_iff.
Qed.

Lemma acquire_held closed now key config p found p' stale :
  NoDup (dict_keys p) -> acquire closed now key config p = (found, p', stale) ->
  NoDup (dict_keys p')
  /\ exists dropped, Forall (fun s => closed s = true) dropped
      /\ held p ≡ₚ option_list found ++ stale ++ dropped ++ held p'.
Proof.
  intros Hn. unfold acquire. destruct (c_pool_size config <=? 0).
  { intros [= <- <- <-]. split; [done|]. by exists []. }
  destruct (take_live _ _ _) as [[f st] lf] eqn:E. intros [= <- <- <-].
  destruct (take_live_perm _ _ _ _ _ _ E) as (dropped & Hd & Hp). split.
  - destruct lf; [by apply dict_pop_NoDup | by apply dict_set_NoDup].
  - exists dropped. split; [done|]. rewrite (held_pop key p Hn). fold (bucket_of key p) in Hp.
    rewrite fmap_reverse, reverse_Permutation in Hp. rewrite Hp, <- !app_assoc. do 3 f_equiv.
    destruct lf as [|e lf]; [done|]. rewrite held_set by done.
    by rewrite fmap_reverse, reverse_Permutation.
Qed.

Lemma release_held closed now now' key config s p kept p' dead :
  NoDup (dict_keys p) -> release closed now now' key config s p = (kept, p', dead) ->
  NoDup (dict_keys p')
  /\ held p ++ (if kept then [s] else []) ≡ₚ dead ++ held p'.
Proof.
  intros Hn. unfold release. destruct (_ || _).
  { intros [= <- <- <-]. split; [done|]. by rewrite app_nil_r. }
  fold (bucket_of key p).
  assert (Hf : (bucket_of key p).*2
    ≡ₚ (filter (fun e => Qltb e.1 (now - c_pool_idle_ttl config)%Q = true) (bucket_of key p)).*2
       ++ (filter (fun e => Qltb e.1 (now - c_pool_idle_ttl config)%Q = false) (bucket_of key p)).*2).
  { rewrite <- fmap_app. apply fmap_Permutation. induction (bucket_of key p) as [|e b IH]; [done|].
    rewrite !filter_cons. destruct (Qltb e.1 _) eqn:E; cbn.
    - by rewrite IH at 1.
    - by rewrite IH at 1; rewrite Permutation_middle. }
  case_match; intros [= <- <- <-]; (split; [by apply dict_set_NoDup|]); rewrite held_set by done;
    rewrite (held_pop key p Hn), Hf.
  - by rewrite app_nil_r, app_assoc.
  - rewrite fmap_app, <- !app_assoc. do 2 f_equiv. apply Permutation_app_comm.
Qed.

(** ** Everyone's sessions *)

(** The pool, the sessions callers have in hand, and every session ever
    dialled. *)
Record world := { w_pool : idle; w_in_use : list S; w_dialled : list S }.
Definition start_world : world := {| w_pool := []; w_in_use := []; w_dialled := [] |}.

(** What a process does with its pool: dial, take one out, give one back
    (a refused session is closed by the caller, who no longer has it),
    close what a caller has, empty the pool. Which sessions are found
    closed is up to the network at every step; no caller's [pool_size] is
    above [n]. *)
Inductive pool_step (n : Z) : world -> world -> Prop :=
| step_dial s w :
    s ∉ w_dialled w ->
    pool_step n w {| w_pool := w_pool w; w_in_use := s :: w_in_use w; w_dialled := s :: w_dialled w |}
| step_acquire closed now key config w found p' stale :
    acquire closed now key config (w_pool w) = (found, p', stale) ->
    pool_step n w
      {| w_pool := p'; w_in_use := option_list found ++ w_in_use w; w_dialled := w_dialled w |}
| step_release closed now now' key config s rest w kept p' dead :
    c_pool_size config <= n -> w_in_use w ≡ₚ s :: rest ->
    release closed now now' key config s (w_pool w) = (kept, p', dead) ->
    pool_step n w {| w_pool := p'; w_in_use := rest; w_dialled := w_dialled w |}
| step_close s rest w :
    w_in_use w ≡ₚ s :: rest ->
    pool_step n w {| w_pool := w_pool w; w_in_use := rest; w_dialled := w_dialled w |}
| step_clear w :
    pool_step n w {| w_pool := (clear (w_pool w)).1; w_in_use := w_in_use w; w_dialled := w_dialled w |}
| step_forget w :
    pool_step n w {| w_pool := forget (w_pool w); w_in_use := w_in_use w; w_dialled := w_dialled w |}.

Definition world_inv (n : Z) (w : world) : Prop :=
  NoDup (w_dialled w) /\ held (w_pool w) ++ w_in_use w ⊆+ w_dialled w
  /\ NoDup (dict_keys (w_pool w)) /\ (forall key, zlen (bucket_of key (w_pool w)) <= n).

Lemma bucket_of_other key key' b (p : idle) :
  key' <> key -> bucket_of key' (dict_set key b p) = bucket_of key' p.
Proof. intros. unfold bucket_of. by rewrite dict_get_set_ne. Qed.

Lemma bucket_of_pop_other key key' (p : idle) :
  key' <> key -> bucket_of key' (dict_pop key p) = bucket_of key' p.
Proof. intros. unfold bucket_of. by rewrite dict_get_pop_ne. Qed.

Lemma take_live_left closed cutoff bucket found stale left_ :
  take_live closed cutoff bucket = (found, stale, left_) -> exists pre, bucket = pre ++ left_.
Proof.
  revert found stale. induction bucket as [|[w s] rest IH]; intros found stale; simpl.
  { intros [= <- <- <-]. by exists []. }
  destruct (closed s); [intros H | destruct (Qltb w cutoff);
    [destruct (take_live _ _ _) as [[f st] lf] eqn:H; intros [= <- <- <-] | intros [= <- <- <-]]].
  - destruct (IH _ _ H) as [pre ->]. by exists ((w, s) :: pre).
  - destruct (IH _ _ eq_refl) as [pre ->]. by exists ((w, s) :: pre).
  - by exists [(w, s)].
Qed.

(** Where the entries of the pool come from. *)
Lemma acquire_entries closed now key config p found p' stale :
  acquire closed now key config p = (found, p', stale) ->
  (forall key' e, e ∈ bucket_of key' p' -> e ∈ bucket_of key' p)
  /\ (forall s, found = Some s -> exists when_, (when_, s) ∈ bucket_of key p).
Proof.
  unfold acquire. destruct (c_pool_size config <=? 0); [by intros [= <- <- <-]|].
  destruct (take_live _ _ _) as [[f st] lf] eqn:E. intros [= <- <- <-]. fold (bucket_of key p) in E. split.
  - intros key' e. apply take_live_left in E as [pre Eb].
    destruct (decide (key' = key)) as [->|Hk];
      [|destruct lf; [by rewrite bucket_of_pop_other | by rewrite bucket_of_other]].
    assert (Hin : forall x, x ∈ lf -> x ∈ bucket_of key p).
    { intros x Hx. apply elem_of_reverse. unfold entry in *. rewrite Eb, elem_of_app. by right. }
    destruct lf as [|y lf]; [unfold bucket_of at 1; rewrite dict_get_pop_eq; by intros ?%elem_of_nil|].
    rewrite bucket_of_set, elem_of_reverse. apply Hin.
  - intros s ->. apply take_live_found in E as (newer & w & Eb & _). exists w.
    apply elem_of_reverse. unfold entry in *. rewrite Eb, elem_of_app, elem_of_cons. auto.
Qed.

Lemma release_entries closed now now' key config s p kept p' dead :
  release closed now now' key config s p = (kept, p', dead) ->
  forall key' e, e ∈ bucket_of key' p' -> e ∈ bucket_of key' p \/ (key' = key /\ e.2 = s).
Proof.
  unfold release. destruct (_ || _); [intros [= <- <- <-]; auto|]. fold (bucket_of key p).
  case_match; intros [= <- <- <-] key' e; (destruct (decide (key' = key)) as [->|];
    [rewrite bucket_of_set | rewrite bucket_of_other by done; auto]).
  - rewrite list_elem_of_filter. intros [_ ?]; auto.
  - rewrite elem_of_app, list_elem_of_filter, list_elem_of_singleton. intros [[_ ?]| ->]; auto.
Qed.

Lemma acquire_buckets closed now key config p found p' stale :
  acquire closed now key config p = (found, p', stale) ->
  (forall key', key' <> key -> bucket_of key' p' = bucket_of key' p)
  /\ zlen (bucket_of key p') <= zlen (bucket_of key p).
Proof.
  unfold acquire. destruct (c_pool_size config <=? 0).
  { intros [= <- <- <-]. split; [done | lia]. }
  destruct (take_live _ _ _) as [[f st] lf] eqn:E. intros [= <- <- <-].
  destruct (take_live_perm _ _ _ _ _ _ E) as (dropped & _ & Hp). fold (bucket_of key p) in Hp.
  assert (Hl : (length lf <= length (bucket_of key p))%nat).
  { apply Permutation_length in Hp. rewrite fmap_reverse, length_reverse, !length_app, !length_fmap in Hp.
    unfold entry in *. lia. }
  split.
  - intros key' Hk. destruct lf; [by apply bucket_of_pop_other | by apply bucket_of_other].
  - destruct lf; [|rewrite bucket_of_set; unfold zlen; rewrite length_reverse; lia].
    unfold bucket_of at 1. rewrite dict_get_pop_eq. unfold zlen. cbn. lia.
Qed.

Lemma release_buckets closed now now' key config s p kept p' dead n :
  c_pool_size config <= n -> (forall key', zlen (bucket_of key' p) <= n) ->
  release closed now now' key config s p = (kept, p', dead) ->
  forall key', zlen (bucket_of key' p') <= n.
Proof.
  intros Hs Hb. unfold release. destruct (_ || _); [by intros [= <- <- <-]|].
  fold (bucket_of key p).
  assert (Hf : forall q, zlen (filter (fun e => Qltb e.1 q = false) (bucket_of key p)) <= n).
  { intros q. specialize (Hb key). unfold zlen in *.
    pose proof (length_filter (fun e : entry => Qltb e.1 q = false) (bucket_of key p)).
    unfold entry in *. lia. }
  case_match eqn:Efull; intros [= <- <- <-] key'; (destruct (decide (key' = key)) as [->|];
    [rewrite bucket_of_set | by rewrite bucket_of_other]).
  - apply Hf.
  - apply Z.leb_gt in Efull. unfold zlen in *. rewrite length_app. cbn [length]. lia.
Qed.

Lemma world_inv_step n w w' : pool_step n w w' -> world_inv n w -> world_inv n w'.
Proof.
  intros Hst (Hd & Hsub & Hk & Hb). unfold world_inv.
  destruct Hst as [s w Hs | closed now key config w found p' stale E
    | closed now now' key config s rest w kept p' dead Hsz Hu E | s rest w Hu | w | w];
    cbn [w_pool w_in_use w_dialled].
  - split_and!; try done; [by constructor|]. rewrite <- Permutation_middle. by constructor.
  - destruct (acquire_held _ _ _ _ _ _ _ _ Hk E) as (Hk' & dropped & _ & Hp).
    destruct (acquire_buckets _ _ _ _ _ _ _ _ E) as [Ho Hl]. split_and!; try done.
    + rewrite Hp in Hsub. rewrite <- Hsub, app_assoc. apply submseteq_skips_r.
      rewrite Permutation_app_comm, !app_assoc. apply submseteq_skips_r.
      rewrite <- !app_assoc. apply submseteq_inserts_r. done.
    + intros key'. destruct (decide (key' = key)) as [->|]; [|by rewrite Ho].
      specialize (Hb key). lia.
  - destruct (release_held _ _ _ _ _ _ _ _ _ _ Hk E) as (Hk' & Hp). split_and!; try done.
    + rewrite <- Hsub, Hu. transitivity (dead ++ held p' ++ rest).
      { by apply submseteq_inserts_l. }
      rewrite app_assoc, <- Hp, <- app_assoc. apply submseteq_skips_l. destruct kept; [done|].
      by apply submseteq_cons.
    + by apply (release_buckets _ _ _ _ _ _ _ _ _ _ _ Hsz Hb E).
  - split_and!; try done. rewrite <- Hsub, Hu. apply submseteq_skips_l. by apply submseteq_cons.
  - split_and!; try done; [|constructor|].
    + rewrite <- Hsub. by apply submseteq_inserts_l.
    + intros key. specialize (Hb key). unfold zlen in *. cbn. lia.
  - split_and!; try done; [|constructor|].
    + rewrite <- Hsub. by apply submseteq_inserts_l.
    + intros key. specialize (Hb key). unfold zlen in *. cbn. lia.
Qed.

(** What [acquire] hands out was put back for this key, is not
    closed, has not been idle longer than the caller's [pool_idle_ttl], and
    is the newest such; the buckets of other keys are not touched, and
    every session the pool lets go of without handing it out was either
    found closed already or is closed by the call. *)
Theorem acquire_sound closed now key config p found p' stale :
  NoDup (dict_keys p) ->
  acquire closed now key config p = (found, p', stale) ->
  (forall s, found = Some s -> exists older when_ newer,
     bucket_of key p = older ++ (when_, s) :: newer
     /\ closed s = false /\ (now - c_pool_idle_ttl config <= when_)%Q
     /\ Forall (fun e => closed e.2 = true \/ (e.1 < now - c_pool_idle_ttl config)%Q) newer)
  /\ (forall key', key' <> key -> bucket_of key' p' = bucket_of key' p)
  /\ exists dropped, Forall (fun s => closed s = true) dropped
      /\ held p ≡ₚ option_list found ++ stale ++ dropped ++ held p'.
Proof.
  intros Hn E. destruct (acquire_buckets _ _ _ _ _ _ _ _ E) as [Ho _].
  destruct (acquire_held _ _ _ _ _ _ _ _ Hn E) as [_ Hd]. split_and!; [|done|done].
  intros s ->. revert E. unfold acquire. destruct (_ <=? 0); [done|].
  destruct (take_live _ _ _) as [[f st] lf] eqn:E. intros [= -> _ _].
  apply take_live_found in E as (newer & w & Eb & Hc & Hw & Hf). fold (bucket_of key p) in Eb.
  exists (reverse lf), w, (reverse newer). split_and!; [|done|done|].
  - rewrite <- (reverse_involutive (bucket_of key p)), Eb, reverse_app, reverse_cons.
    by rewrite <- app_assoc.
  - by apply Forall_reverse.
Qed.

End Pool.
Arguments entry : clear implicits.
Arguments idle : clear implicits.

(** ** Concrete instances *)

(** An injective NUL-free rendering of any countable type. *)
Fixpoint pos_bytes (p : positive) : bytes :=
  match p with
  | xH => [x01]
  | xO p => x02 :: pos_bytes p
  | xI p => x03 :: pos_bytes p
  end.
Definition demo_repr {A} `{Countable A} (a : A) : bytes := pos_bytes (encode a).

Lemma pos_bytes_inj p q : pos_bytes p = pos_bytes q -> p = q.
Proof. revert q. induction p; intros [q|q|]; simpl; intros E; simplify_eq; f_equal; auto. Qed.

Lemma demo_repr_inj {A} `{Countable A} (a b : A) : demo_repr a = demo_repr b -> a = b.
Proof. intros E%pos_bytes_inj. by apply encode_inj in E. Qed.

Lemma demo_repr_nul {A} `{Countable A} (a : A) : x00 ∉ demo_repr a.
Proof.
  unfold demo_repr.
  induction (encode a); simpl; rewrite ?not_elem_of_cons; repeat split; auto; apply not_elem_of_nil.
Qed.

Definition demo_config : Config :=
  Eval vm_compute in let c := factory (s_ "alice") in
  let c := c <| c_wait_cap := 60%Q |> in
  let c := c <| c_pool_size := 2 |> in
  let c := c <| c_pool_idle_ttl := 30%Q |> in
  let c := c <| c_auth_order := @nil str |> in
  c.
Definition demo_url : XRootDURL := mkURL (s_ "root") (s_ "h") 1094 (s_ "/") [] [] [].
Definition demo_key : Key := (s_ "root", s_ "h", 1094, []).

Lemma key_separates_identities_witness :
  u_host demo_url = u_host (mkURL (s_ "xroot") (s_ "h") 1094 (s_ "/d") (s_ "alice") [] []).
Proof.
  exact (proj1 (key_separates_identities id demo_repr demo_repr demo_repr demo_repr
    demo_repr_inj demo_repr_inj demo_repr_inj demo_repr_inj
    (conj demo_repr_nul (conj demo_repr_nul (conj demo_repr_nul demo_repr_nul)))
    demo_url demo_config (mkURL (s_ "xroot") (s_ "h") 1094 (s_ "/d") (s_ "alice") [] []) demo_config
    ltac:(vm_compute; reflexivity))).
Defined.

(** A closed session on top of a live one. *)
Lemma acquire_sound_witness :
  exists older when_ newer,
    bucket_of demo_key [(demo_key, [((100 # 1)%Q, 1); ((101 # 1)%Q, 2)])] = older ++ (when_, 1) :: newer.
Proof.
  destruct (acquire_sound (fun s => s =? 2) 110 demo_key demo_config
    [(demo_key, [((100 # 1)%Q, 1); ((101 # 1)%Q, 2)])] (Some 1) [] []
    ltac:(repeat constructor; apply not_elem_of_nil) ltac:(vm_compute; reflexivity)) as [H _].
  destruct (H 1 eq_refl) as (o & w & n & E & _). exists o, w, n. exact E.
Defined.

