(* ===== verification/Router.v ===== *)
(** * Redirects and reconnection

    src/xrd/session/router.py: a connection that knows how to move. The
    sessions a router drives are an interface, [SessionEnv]; the router, the
    process-wide pool and the outside world are passed as explicit state.

    [Router.execute] loops until its request completes, so it takes fuel; the
    theorems show that [redirect_limit + connect_retries + 1] turns always
    end it. *)

From stdpp Require Import countable relations.
From S2P Require Import Prelude PyStr Errors Buffer Frames Requests Responses ConfigFile Url Pool.
From Stdlib Require Import QArith.
Open Scope Z_scope.

(** A completed request. *)
Record Result := { res_data : bytes; res_status : option StatusInfo }.

(** What a router uses of sessions and of the clock. [S] are references to
    sessions, [W] the state of everything outside the router. *)
Class SessionEnv (S W : Type) := {
  se_closed : W -> S -> bool;
  se_connect : XRootDURL -> Config -> W -> res S * W;
  se_execute : S -> Request -> str -> W -> res Result * W;
  se_close : S -> W -> W;
  se_monotonic : W -> Q * W;
  se_sleep : Q -> W -> W
}.

Record Router (S : Type) := mkRouter {
  r_url : XRootDURL; r_config : Config; r_reconnect : bool; r_session : option S; r_owns : bool
}.
Arguments mkRouter {S}.
Arguments r_url {S}.
Arguments r_config {S}.
Arguments r_reconnect {S}.
Arguments r_session {S}.
Arguments r_owns {S}.

(** [path] of the request classes that have one. *)
Definition request_path (r : Request) : option str :=
  match r with
  | Stat path _ _ | Dirlist path _ | Locate path _ | Mkdir path _ _ | Rm path | Rmdir path
  | Readlink path | Setattr path _ _ _ _ _ | Chmod path _ | Truncate path _ _ | Open path _ _ => Some path
  | _ => None
  end.

(** [request.path = path]. *)
Definition set_request_path (path : str) (r : Request) : Request :=
  match r with
  | Stat _ options fhandle => Stat path options fhandle
  | Dirlist _ options => Dirlist path options
  | Locate _ options => Locate path options
  | Mkdir _ mode mkpath => Mkdir path mode mkpath
  | Rm _ => Rm path
  | Rmdir _ => Rmdir path
  | Readlink _ => Readlink path
  | Setattr _ flags atime mtime uid gid => Setattr path flags atime mtime uid gid
  | Chmod _ mode => Chmod path mode
  | Truncate _ size fhandle => Truncate path size fhandle
  | Open _ options mode => Open path options mode
  | r => r
  end.

(** Fold a redirect's opaque token into the request's path CGI. *)
Definition _retarget (request : Request) (token : str) : Request :=
  match token, request_path request with
  | [], _ | _, None => request
  | _, Some path => set_request_path (path ++ (if decide (0x3F ∈ path) then 0x26 else 0x3F) :: token) request
  end.

(** [except WaitLimitError]. *)
Definition is_wait_limit (e : exn) : bool := match e with WaitLimitError _ => true | _ => false end.

Section Router.
Context {S W : Type} `{SessionEnv S W}.
(** As in the pool: [_key], with its digest and representations applied;
    and [str.lower]. *)
Variable key_of : XRootDURL -> Config -> Key.
Variable lower : str -> str.

(** The router, the pool and the world. *)
Record sys := mkSys { s_router : Router S; s_pool : idle S; s_world : W }.

Definition set_router (f : Router S -> Router S) (x : sys) : sys :=
  mkSys (f (s_router x)) (s_pool x) (s_world x).
Definition with_session (s : option S) (owns : bool) (r : Router S) : Router S :=
  mkRouter (r_url r) (r_config r) (r_reconnect r) s owns.
Definition close_session (s : S) (x : sys) : sys :=
  mkSys (s_router x) (s_pool x) (se_close s (s_world x)).

(** [SESSIONS.acquire(self.url, self.config)]. *)
Definition pool_acquire (x : sys) : option S * sys :=
  let '(now, w) := if c_pool_size (r_config (s_router x)) <=? 0 then (0%Q, s_world x)
                   else se_monotonic (s_world x) in
  let '(found, p, stale) :=
    acquire (se_closed w) now (key_of (r_url (s_router x)) (r_config (s_router x)))
      (r_config (s_router x)) (s_pool x) in
  (found, mkSys (s_router x) p (foldl (fun w s => se_close s w) w stale)).

(** [SESSIONS.release(session, self.url, self.config)]. Reading the clock
    does nothing but let time pass. *)
Definition pool_release (session : S) (x : sys) : bool * sys :=
  let r := s_router x in
  if (c_pool_size (r_config r) <=? 0) || se_closed (s_world x) session then (false, x)
  else
    let '(now, w) := se_monotonic (s_world x) in
    let '(now', w) := se_monotonic w in
    let '(kept, p, expired) :=
      release (se_closed (s_world x)) now now' (key_of (r_url r) (r_config r)) (r_config r) session (s_pool x) in
    (kept, mkSys r p (foldl (fun w s => se_close s w) w expired)).

(** The live session, connecting on first use. *)
Definition redial (x : sys) : res S * sys :=
  let x := set_router (fun r => with_session (r_session r) true r) x in
  let '(found, x) := pool_acquire x in
  match found with
  | Some s => (Ok s, set_router (with_session (Some s) true) x)
  | None =>
      let '(out, w) := se_connect (r_url (s_router x)) (r_config (s_router x)) (s_world x) in
      let x := mkSys (s_router x) (s_pool x) w in
      match out with
      | Ok s => (Ok s, set_router (with_session (Some s) true) x)
      | Err e => (Err e, x)
      end
  end.

Definition session (x : sys) : res S * sys :=
  match r_session (s_router x) with
  | Some s =>
      if se_closed (s_world x) s then
        if r_reconnect (s_router x) then redial (close_session s x) else (Err ConnectionError, x)
      else (Ok s, x)
  | None => redial x
  end.

Definition connected (x : sys) : bool :=
  match r_session (s_router x) with Some s => negb (se_closed (s_world x) s) | None => false end.

(** Finish with this connection, offering it to the pool if it is ours. *)
Definition close (x : sys) : sys :=
  let owns := r_owns (s_router x) in
  let sess := r_session (s_router x) in
  let x := set_router (with_session None true) x in
  match sess with
  | None => x
  | Some s =>
      if negb owns then x
      else let '(kept, x) := pool_release s x in if kept then x else close_session s x
  end.

Definition _drop (x : sys) : sys :=
  let x := match r_session (s_router x) with
           | Some s => set_router (fun r => with_session None (r_owns r) r) (close_session s x)
           | None => x
           end in
  set_router (fun r => with_session (r_session r) true r) x.

(** A router bound to the current endpoint, sharing this connection. *)
Definition pin (transfer : bool) (x : sys) : Router S * sys :=
  let sess := r_session (s_router x) in
  let pinned := mkRouter (r_url (s_router x)) (r_config (s_router x)) false sess
                  (transfer || match sess with None => true | Some _ => false end) in
  (pinned, if transfer then set_router (fun r => with_session None (r_owns r) r) x else x).

Definition _pause (attempts : Z) (x : sys) : sys :=
  let c := r_config (s_router x) in
  if Qltb 0 (c_retry_backoff c) then
    mkSys (s_router x) (s_pool x)
      (se_sleep (qmin (c_retry_backoff c * inject_Z (2 ^ (attempts - 1))) (c_wait_cap c)) (s_world x))
  else x.

Definition _follow (host : str) (port : Z) (x : sys) : sys :=
  let scheme := if port <? 0 then s_ "roots" else u_scheme (r_url (s_router x)) in
  let x := close x in
  set_router (fun r => mkRouter
    (evolve lower (r_url r) (mkChanges (Some scheme) (Some host)
       (Some (if Z.abs port =? 0 then u_port (r_url r) else Z.abs port)) None None None None))
    (r_config r) (r_reconnect r) (r_session r) (r_owns r)) x.

(** [self.session.execute(request, path=path)]. *)
Definition attempt (request : Request) (path : str) (x : sys) : res Result * sys :=
  match session x with
  | (Err e, x) => (Err e, x)
  | (Ok s, x) =>
      let '(out, w) := se_execute s request path (s_world x) in
      (out, mkSys (s_router x) (s_pool x) w)
  end.

(** What the caller is told after the last attempt. *)
Definition final_error (e : exn) (attempts : Z) : exn :=
  if is_timeout e then TimeoutError attempts 0 else TransientError attempts 0.

(** The [return] and the [except] clauses of [execute]: finished, or the
    counters, the request and the state of the next turn. *)
Definition after_attempt (hops attempts : Z) (request : Request) (out : res Result) (x : sys)
    : (res Result * Request * sys) + (Z * Z * Request * sys) :=
  let c := r_config (s_router x) in
  match out with
  | Ok r => inl (Ok r, request, x)
  | Err (RedirectRequired host port token) =>
      let hops := hops + 1 in
      if c_redirect_limit c <? hops then inl (Err RedirectLimitError, request, x)
      else inr (hops, attempts, _retarget request token, _follow host port x)
  | Err (WaitLimitError n) => inl (Err (WaitLimitError n), request, x)
  | Err e =>
      if is_connection_error e then
        let attempts := attempts + 1 in
        if negb (r_reconnect (s_router x)) || (c_connect_retries c <? attempts)
           || negb (idempotent request)
        then inl (Err (final_error e attempts), request, x)
        else inr (hops, attempts, request, _pause attempts (_drop x))
      else inl (Err e, request, x)
  end.

(** The loop of [execute]; the request comes back as its attributes were
    left. *)
Fixpoint execute_loop (fuel : nat) (hops attempts : Z) (request : Request) (path : str) (x : sys)
    : option (res Result * Request * sys) :=
  match fuel with
  | O => None
  | Datatypes.S fuel =>
      let '(out, x) := attempt request path x in
      match after_attempt hops attempts request out x with
      | inl final => Some final
      | inr (hops, attempts, request, x) => execute_loop fuel hops attempts request path x
      end
  end.

Definition execute_fuel (c : Config) : nat :=
  Datatypes.S (Z.to_nat (c_redirect_limit c) + Z.to_nat (c_connect_retries c)).

Definition execute (request : Request) (path : str) (x : sys) : option (res Result * Request * sys) :=
  execute_loop (execute_fuel (r_config (s_router x))) 0 0 request path x.

(** ** Termination *)

(** [y] is [x] but for the connection, the pool and the world. *)
Definition same_settings (x y : sys) : Prop :=
  r_url (s_router y) = r_url (s_router x) /\ r_config (s_router y) = r_config (s_router x)
  /\ r_reconnect (s_router y) = r_reconnect (s_router x).

#[export] Instance same_settings_preorder : PreOrder same_settings.
Proof. split; [done | intros x y z (? & ? & ?) (? & ? & ?); split_and!; congruence]. Qed.

Lemma pool_acquire_router x found y : pool_acquire x = (found, y) -> s_router y = s_router x.
Proof. unfold pool_acquire. repeat case_match; intros [= <- <-]; done. Qed.

Lemma pool_release_router s x kept y : pool_release s x = (kept, y) -> s_router y = s_router x.
Proof. unfold pool_release. repeat case_match; intros [= <- <-]; done. Qed.

Lemma redial_settings x out y : redial x = (out, y) -> same_settings x y.
Proof.
  unfold redial. destruct (pool_acquire _) as [found z] eqn:E. apply pool_acquire_router in E.
  assert (Hz : same_settings x z) by (unfold same_settings; by rewrite E).
  destruct found; [|destruct (se_connect _ _ _) as [[]]]; intros [= <- <-]; exact Hz.
Qed.

Lemma session_settings x out y : session x = (out, y) -> same_settings x y.
Proof.
  unfold session. repeat case_match; try (intros [= <- <-]; done); intros Hr%redial_settings; done.
Qed.

Lemma attempt_settings request path x out y :
  attempt request path x = (out, y) -> same_settings x y.
Proof.
  unfold attempt. destruct (session x) as [[s|e] z] eqn:E; apply session_settings in E.
  - destruct (se_execute _ _ _ _). by intros [= <- <-].
  - by intros [= <- <-].
Qed.

Lemma close_settings x : same_settings x (close x).
Proof.
  unfold close. repeat case_match; try done;
    match goal with E : pool_release _ _ = _ |- _ => apply pool_release_router in E end;
    unfold same_settings; cbn; match goal with E : s_router _ = _ |- _ => by rewrite E end.
Qed.

Lemma drop_settings x : same_settings x (_drop x).
Proof. unfold _drop. by case_match. Qed.

Lemma pause_settings n x : same_settings x (_pause n x).
Proof. unfold _pause. by case_match. Qed.

Lemma follow_config host port x : r_config (s_router (_follow host port x)) = r_config (s_router x).
Proof. unfold _follow. cbn. apply close_settings. Qed.

Lemma follow_reconnect host port x :
  r_reconnect (s_router (_follow host port x)) = r_reconnect (s_router x).
Proof. unfold _follow. cbn. apply close_settings. Qed.

(** Going on: after a redirect within the limit, or after a connection
    error that may be retried. *)
Inductive goes_on (hops attempts : Z) (request : Request) (x : sys)
    : exn -> Z * Z * Request * sys -> Prop :=
| goes_redirected host port token :
    hops + 1 <= c_redirect_limit (r_config (s_router x)) ->
    goes_on hops attempts request x (RedirectRequired host port token)
      (hops + 1, attempts, _retarget request token, _follow host port x)
| goes_reconnecting e :
    is_connection_error e = true -> is_wait_limit e = false ->
    r_reconnect (s_router x) = true -> idempotent request = true ->
    attempts + 1 <= c_connect_retries (r_config (s_router x)) ->
    goes_on hops attempts request x e
      (hops, attempts + 1, request, _pause (attempts + 1) (_drop x)).

(** And stopping: with the answer, or with an error and everything as it
    was. *)
Lemma after_attempt_spec hops attempts request out x :
  match after_attempt hops attempts request out x with
  | inl (out', q, y) => q = request /\ y = x
      /\ match out with Ok r => out' = Ok r | Err e => exists e', out' = Err e' end
  | inr next => exists e, out = Err e /\ goes_on hops attempts request x e next
  end.
Proof.
  destruct out as [r|e]; [done|].
  assert (Hretry : is_wait_limit e = false ->
    match (if is_connection_error e then
             if negb (r_reconnect (s_router x)) || (c_connect_retries (r_config (s_router x)) <? attempts + 1)
                || negb (idempotent request)
             then inl (Err (final_error e (attempts + 1)), request, x)
             else inr (hops, attempts + 1, request, _pause (attempts + 1) (_drop x))
           else inl (Err e, request, x)) with
    | inl (out', q, y) => q = request /\ y = x /\ exists e', out' = @Err _ Result e'
    | inr next => exists e', @Err _ Result e = Err e' /\ goes_on hops attempts request x e' next
    end).
  { intros Hw. destruct (is_connection_error e) eqn:Ece; [|split; [done|]; split; [done|]; by eexists].
    destruct (_ || negb _) eqn:Eg; [split; [done|]; split; [done|]; by eexists|].
    apply orb_false_iff in Eg as [[Erc%negb_false_iff Hlt%Z.ltb_ge]%orb_false_iff Eid%negb_false_iff].
    exists e. split; [done|]. by apply goes_reconnecting. }
  destruct e; try (exact (Hretry eq_refl)); cbv beta iota zeta delta [after_attempt];
      [split; [done|]; split; [done|]; by eexists|].
  clear Hretry. destruct (c_redirect_limit _ <? _) eqn:El; cbv beta iota;
    [split; [done|]; split; [done|]; by eexists|]. apply Z.ltb_ge in El.
  eexists. split; [done|]. by apply goes_redirected.
Qed.

Lemma goes_on_settings hops attempts request x e h a q y :
  goes_on hops attempts request x e (h, a, q, y) ->
  r_config (s_router y) = r_config (s_router x) /\ r_reconnect (s_router y) = r_reconnect (s_router x)
  /\ idempotent q = idempotent request.
Proof.
  assert (Hset : forall n, same_settings x (_pause n (_drop x)))
    by (intros n; etransitivity; [apply drop_settings | apply pause_settings]).
  inversion 1; subst.
  - rewrite follow_config, follow_reconnect. split_and!; try done. unfold _retarget.
    by destruct token, request.
  - destruct (Hset (attempts + 1)) as (_ & ? & ?). done.
Qed.

Lemma execute_loop_ends fuel hops attempts request path x :
  (Z.to_nat (c_redirect_limit (r_config (s_router x)) - hops)
   + Z.to_nat (c_connect_retries (r_config (s_router x)) - attempts) < fuel)%nat ->
  is_Some (execute_loop fuel hops attempts request path x).
Proof.
  revert hops attempts request x. induction fuel as [|fuel IH]; [lia|].
  intros hops attempts request x Hf. cbn [execute_loop].
  destruct (attempt request path x) as [out y] eqn:E. apply attempt_settings in E as (_ & Ec & _).
  rewrite <- Ec in Hf. pose proof (after_attempt_spec hops attempts request out y) as Hs.
  destruct (after_attempt _ _ _ _ _) as [|[[[h a] q] z]]; [done|].
  destruct Hs as (e & _ & Hg). apply IH. destruct (goes_on_settings _ _ _ _ _ _ _ _ _ Hg) as (-> & _).
  inversion Hg; subst; lia.
Qed.
End Router.
