(* ===== verification/RouterProps.v ===== *)
(** * What a router does to the servers

    The calls [Router.execute] makes on sessions, in order: how often a
    request is sent again and after what, whom it is sent as, and that a
    redirect never takes a connection off TLS. The calls are observed by
    running the router on an environment that writes them down. *)

From stdpp Require Import countable relations.
From S2P Require Import Prelude PyStr Errors Buffer Frames Requests Responses ConfigFile Url Pool Router.
From Stdlib Require Import QArith.
Open Scope Z_scope.

(** ** An environment that writes down what is asked of it *)

Inductive call (S : Type) :=
| Dialled (url : XRootDURL) (config : Config) (out : res S)
| Sent (s : S) (request : Request) (out : res Result).
Arguments Dialled {S}.
Arguments Sent {S}.

Definition recorded {S W} (E : SessionEnv S W) : SessionEnv S (W * list (call S)) := {|
  se_closed w s := se_closed w.1 s;
  se_connect url config w :=
    let '(out, w') := se_connect url config w.1 in (out, (w', w.2 ++ [Dialled url config out]));
  se_execute s request path w :=
    let '(out, w') := se_execute s request path w.1 in (out, (w', w.2 ++ [Sent s request out]));
  se_close s w := (se_close s w.1, w.2);
  se_monotonic w := let '(now, w') := se_monotonic w.1 in (now, (w', w.2));
  se_sleep q w := (se_sleep q w.1, w.2)
|}.

Section Calls.
Context {S W : Type} {E : SessionEnv S W}.
Variable key_of : XRootDURL -> Config -> Key.
Variable lower : str -> str.
Notation rsys := (sys (S := S) (W := W * list (call S))).
#[local] Existing Instance recorded.

Definition log (x : rsys) : list (call S) := (s_world x).2.

(** The calls of one turn of the loop, and what it came to. *)
Inductive turn (x : rsys) (request : Request) : list (call S) -> res Result -> Prop :=
| turn_lost : r_reconnect (s_router x) = false -> turn x request [] (Err ConnectionError)
| turn_no_dial e : turn x request [Dialled (r_url (s_router x)) (r_config (s_router x)) (Err e)] (Err e)
| turn_dialled s out :
    turn x request [Dialled (r_url (s_router x)) (r_config (s_router x)) (Ok s); Sent s request out] out
| turn_sent s out : turn x request [Sent s request out] out.

Lemma closes_log (w : W * list (call S)) l : (foldl (fun w s => se_close s w) w l).2 = w.2.
Proof. revert w. induction l as [|s l IH]; intros w; [done|]. cbn. by rewrite IH. Qed.

Lemma monotonic_log (w : W * list (call S)) : (se_monotonic w).2.2 = w.2.
Proof. cbn. by destruct (se_monotonic w.1). Qed.

Lemma pool_acquire_log (x : rsys) found y : pool_acquire key_of x = (found, y) -> log y = log x.
Proof.
  unfold pool_acquire, log. pose proof (monotonic_log (s_world x)) as Hm.
  destruct (se_monotonic (s_world x)) as [now w]. cbn in Hm.
  destruct (_ <=? 0); destruct (acquire _ _ _ _ _) as [[f p] st]; intros [= <- <-]; cbn;
    by rewrite closes_log.
Qed.

Lemma pool_release_log s (x : rsys) kept y : pool_release key_of s x = (kept, y) -> log y = log x.
Proof.
  unfold pool_release, log. pose proof (monotonic_log (s_world x)) as Hm.
  destruct (_ || _); [by intros [= <- <-]|].
  destruct (se_monotonic (s_world x)) as [now w]. pose proof (monotonic_log w) as Hm'.
  destruct (se_monotonic w) as [now' w']. cbn in Hm, Hm'.
  destruct (release _ _ _ _ _ _ _) as [[k p] ex]. intros [= <- <-]. cbn. rewrite closes_log. congruence.
Qed.

Lemma close_log (x : rsys) : log (close key_of x) = log x.
Proof.
  unfold close. destruct (r_session _); [|done]. destruct (negb _); [done|].
  destruct (pool_release _ _ _) as [[] y] eqn:Er; by apply pool_release_log in Er.
Qed.

Lemma follow_log host port (x : rsys) : log (_follow key_of lower host port x) = log x.
Proof. apply close_log. Qed.

Lemma drop_pause_log n (x : rsys) : log (_pause n (_drop x)) = log x.
Proof. unfold _pause, _drop. by repeat case_match. Qed.

(** [redial] says what it did, and leaves the session with the router. *)
Lemma redial_log (x : rsys) out y :
  redial key_of x = (out, y) ->
  match out with
  | Ok s => r_session (s_router y) = Some s
      /\ (log y = log x
          \/ log y = log x ++ [Dialled (r_url (s_router x)) (r_config (s_router x)) (Ok s)])
  | Err e => log y = log x ++ [Dialled (r_url (s_router x)) (r_config (s_router x)) (Err e)]
  end.
Proof.
  unfold redial. destruct (pool_acquire _ _) as [found z] eqn:Ea.
  pose proof (pool_acquire_router _ _ _ _ Ea) as Er. apply pool_acquire_log in Ea.
  change (log (set_router _ x)) with (log x) in Ea.
  destruct found as [s|]; [intros [= <- <-]; split; [done | by left]|].
  cbn [se_connect recorded]. rewrite Er. cbn.
  destruct (se_connect (r_url (s_router x)) (r_config (s_router x)) (s_world z).1) as [[s|e] w];
    intros [= <- <-]; unfold log in *; cbn; rewrite Ea; [split; [done | by right] | done].
Qed.

Lemma attempt_turn request path (x : rsys) out y :
  attempt key_of request path x = (out, y) -> exists evs, turn x request evs out /\ log y = log x ++ evs
    /\ (forall s q o, Sent s q o ∈ evs -> r_session (s_router y) = Some s).
Proof.
  unfold attempt, session.
  assert (Hsend : forall s z pre, log z = log x ++ pre ->
    (forall s' q o, Sent s' q o ∉ pre) -> r_session (s_router z) = Some s ->
    (forall o, turn x request (pre ++ [Sent s request o]) o) ->
    (let '(out, w) := se_execute s request path (s_world z) in
     (out, mkSys (s_router z) (s_pool z) w)) = (out, y) ->
    exists evs, turn x request evs out /\ log y = log x ++ evs
      /\ (forall s q o, Sent s q o ∈ evs -> r_session (s_router y) = Some s)).
  { intros s z pre Hz Hpre Hsess Ht. cbn. destruct (se_execute _ _ _ _) as [o w]. intros [= <- <-].
    eexists. split; [apply Ht|]. unfold log in *. cbn. split; [by rewrite Hz, <- app_assoc|].
    intros s' q o'. rewrite elem_of_app, list_elem_of_singleton. intros [Hin|[= -> _ _]]; [|done].
    by destruct (Hpre s' q o'). }
  assert (Hre : forall x', log x' = log x -> r_url (s_router x') = r_url (s_router x) ->
    r_config (s_router x') = r_config (s_router x) ->
    match redial key_of x' with
    | (Ok s, z) => let '(out, w) := se_execute s request path (s_world z) in
                   (out, mkSys (s_router z) (s_pool z) w)
    | (Err e, z) => (Err e, z)
    end = (out, y) -> exists evs, turn x request evs out /\ log y = log x ++ evs
      /\ (forall s q o, Sent s q o ∈ evs -> r_session (s_router y) = Some s)).
  { intros x' Hl Hu Hc. destruct (redial _ _) as [[s|e] z] eqn:Er; apply redial_log in Er;
      rewrite Hl, Hu, Hc in Er.
    - destruct Er as [Hs [Ez|Ez]].
      + apply (Hsend s z []); [by rewrite app_nil_r | intros; apply not_elem_of_nil | done |].
        intros. apply turn_sent.
      + apply (Hsend s z _ Ez); [|done | intros; apply turn_dialled].
        intros s' q o. by rewrite list_elem_of_singleton.
    - intros [= <- <-]. eexists. split_and!; [apply turn_no_dial | done|].
      intros s' q o. by rewrite list_elem_of_singleton. }
  destruct (r_session (s_router x)) as [s|] eqn:Es; [|by apply Hre].
  destruct (se_closed _ _); [|apply (Hsend s x []); [by rewrite app_nil_r | intros; apply not_elem_of_nil
    | done | intros; apply turn_sent]].
  destruct (r_reconnect _) eqn:Erc; [by apply Hre|]. intros [= <- <-]. exists [].
  split_and!; [by apply turn_lost | by rewrite app_nil_r | intros ? ? ? []%not_elem_of_nil].
Qed.

(** ** Retries *)

(** How a call failed. *)
Definition failure (c : call S) : option exn :=
  match c with Dialled _ _ (Err e) | Sent _ _ (Err e) => Some e | _ => None end.
Definition is_redirect (e : exn) : bool := match e with RedirectRequired _ _ _ => true | _ => false end.

(** A call after which the router may do something more: a successful
    dial, a redirect, or - only for an idempotent request on a router that
    may reconnect - a connection error other than a spent wait budget. *)
Definition may_go_on (again : bool) (c : call S) : Prop :=
  match failure c with
  | None => exists url config s, c = Dialled url config (Ok s)
  | Some e => is_redirect e = true \/ (again = true /\ is_connection_error e = true /\ is_wait_limit e = false)
  end.

Definition redirects (evs : list (call S)) : Z :=
  zlen (filter (fun e => is_redirect e = true) (omap failure evs)).
Definition losses (evs : list (call S)) : Z :=
  zlen (filter (fun e => is_redirect e = false) (omap failure evs)).

(** The requests sent: the caller's, then with each redirect's token. *)
Fixpoint sent_as (request : Request) (evs : list (call S)) : Prop :=
  match evs with
  | [] => True
  | Sent _ q (Err (RedirectRequired _ _ token)) :: evs => q = request /\ sent_as (_retarget request token) evs
  | Sent _ q _ :: evs => q = request /\ sent_as request evs
  | Dialled _ _ (Err (RedirectRequired _ _ token)) :: evs => sent_as (_retarget request token) evs
  | Dialled _ _ _ :: evs => sent_as request evs
  end.

Lemma redirects_app l l' : redirects (l ++ l') = redirects l + redirects l'.
Proof. unfold redirects, zlen. rewrite omap_app, filter_app, length_app. lia. Qed.
Lemma losses_app l l' : losses (l ++ l') = losses l + losses l'.
Proof. unfold losses, zlen. rewrite omap_app, filter_app, length_app. lia. Qed.

Lemma Forall_removelast_app {A} (P : A -> Prop) (l l' : list A) :
  Forall P l -> Forall P (removelast l') -> Forall P (removelast (l ++ l')).
Proof.
  intros Hl Hl'. destruct l' as [|a l'].
  - rewrite app_nil_r. clear Hl'. induction Hl as [|b l Hb _ IH]; [constructor|]. destruct l; [constructor|].
    constructor; done.
  - rewrite removelast_app by done. by apply Forall_app.
Qed.

(** What a turn's calls contribute. *)
Lemma turn_ok x request evs r :
  turn x request evs (Ok r) ->
  exists pre s, evs = pre ++ [Sent s request (Ok r)] /\ Forall (may_go_on false) pre
    /\ redirects evs = 0 /\ losses evs = 0 /\ sent_as request evs.
Proof.
  inversion 1; subst.
  - eexists [_], _. split_and!; [done | repeat constructor; by do 3 eexists | done | done | done].
  - by eexists [], _.
Qed.

Lemma turn_err x request evs e :
  turn x request evs (Err e) ->
  (forall again, Forall (may_go_on again) (removelast evs))
  /\ (forall again, is_redirect e = true
       \/ (again = true /\ is_connection_error e = true /\ is_wait_limit e = false) ->
       Forall (may_go_on again) evs)
  /\ redirects evs = (if is_redirect e then 1 else 0)
  /\ 0 <= losses evs <= (if is_redirect e then 0 else 1)
  /\ (forall rest, sent_as (match e with RedirectRequired _ _ t => _retarget request t | _ => request end) rest ->
        sent_as request (evs ++ rest)).
Proof.
  inversion 1; subst; (split_and!; [intros again | intros again Hg | | |  | intros rest Hs]);
    try (repeat constructor; try done; by do 3 eexists);
    try (unfold redirects, losses, zlen; cbn; rewrite ?filter_cons; by destruct (is_redirect e)).
  all: first [ by destruct e | repeat (apply Forall_cons; split); first [exact Hg | by do 3 eexists | constructor] ].
Qed.

(** What is known of the calls made from the counters [hops] and
    [attempts] on. *)
Record calls_ok (x : rsys) (request : Request) (hops attempts : Z) (evs : list (call S))
    (out : res Result) (q : Request) : Prop := {
  co_go_on : Forall (may_go_on (r_reconnect (s_router x) && idempotent request)) (removelast evs);
  co_sent : sent_as request evs;
  co_redirects : hops + redirects evs <= Z.max hops (c_redirect_limit (r_config (s_router x))) + 1;
  co_losses : attempts + losses evs <= Z.max attempts (c_connect_retries (r_config (s_router x))) + 1;
  co_answer : forall r, out = Ok r -> exists pre s, evs = pre ++ [Sent s q (Ok r)]
}.

(** A turn that goes on, before the calls of the turns after it. *)
Lemma calls_ok_turn x z request hops attempts t e h a q y evs out q' :
  turn x request t (Err e) -> same_settings x z -> goes_on key_of lower hops attempts request z e (h, a, q, y) ->
  calls_ok y q h a evs out q' -> calls_ok x request hops attempts (t ++ evs) out q'.
Proof.
  intros Ht (_ & Ec & Er) Hg [Hf Hse Hre Hlo Hok].
  destruct (goes_on_settings _ _ _ _ _ _ _ _ _ _ _ Hg) as (Ec' & Er' & Ei).
  rewrite Ec', Ec in Hre, Hlo. rewrite Er', Er, Ei in Hf.
  apply turn_err in Ht as (_ & Hall & Hr & Hl & Hs).
  assert (Hne : is_connection_error e = true -> is_redirect e = false) by (by destruct e).
  assert (Htok : q = match e with RedirectRequired _ _ tok => _retarget request tok | _ => request end).
  { inversion Hg; subst; [done|]. by destruct e. }
  split.
  - apply Forall_removelast_app; [|done]. apply Hall. inversion Hg; subst; [by left|]. right.
    rewrite <- Er. split_and!; [|done|done]. by apply andb_true_iff.
  - apply Hs. by rewrite <- Htok.
  - rewrite redirects_app. inversion Hg; subst; [cbn in Hr|rewrite (Hne ltac:(done)) in Hr]; rewrite ?Ec in *; lia.
  - rewrite losses_app. inversion Hg; subst; [cbn in Hl|rewrite (Hne ltac:(done)) in Hl]; rewrite ?Ec in *; lia.
  - intros r Hout. destruct (Hok r Hout) as (pre & s & ->). exists (t ++ pre), s. by rewrite app_assoc.
Qed.

(** A turn that ends the loop. *)
Lemma calls_ok_last x request hops attempts t out out' :
  turn x request t out ->
  match out with Ok r => out' = Ok r | Err e => exists e', out' = Err e' end ->
  calls_ok x request hops attempts t out' request.
Proof.
  intros Ht Ho. destruct out as [r|e].
  - subst out'. apply turn_ok in Ht as (pre & s & -> & Hf & Hr & Hl & Hs). split; try done; try lia.
    + rewrite removelast_last. eapply Forall_impl; [exact Hf|]. intros c. unfold may_go_on.
      destruct (failure c); [|done]. intros [?|[? _]]; [by left | done].
    + intros r' [= <-]. by exists pre, s.
  - destruct Ho as [e' ->]. apply turn_err in Ht as (Hf & _ & Hr & Hl & Hs). split; try done.
    + specialize (Hs [] I). by rewrite app_nil_r in Hs.
    + destruct (is_redirect e); lia.
    + destruct (is_redirect e); lia.
Qed.

Lemma goes_on_log hops attempts request (x : rsys) e h a q y :
  goes_on key_of lower hops attempts request x e (h, a, q, y) -> log y = log x.
Proof. inversion 1; subst; [apply follow_log | apply drop_pause_log]. Qed.

Lemma execute_loop_calls fuel hops attempts request path (x : rsys) out q y :
  execute_loop key_of lower fuel hops attempts request path x = Some (out, q, y) ->
  exists evs, log y = log x ++ evs /\ calls_ok x request hops attempts evs out q.
Proof.
  revert hops attempts request x. induction fuel as [|fuel IH]; [done|].
  intros hops attempts request x. cbn [execute_loop].
  destruct (attempt key_of request path x) as [o z] eqn:Ea.
  pose proof (attempt_settings _ _ _ _ _ _ Ea) as Hset.
  apply attempt_turn in Ea as (t & Ht & Hl & _).
  pose proof (after_attempt_spec key_of lower hops attempts request o z) as Hs.
  destruct (after_attempt _ _ _ _ _ _ _) as [[[out' q'] y']|[[[h a] q'] y']].
  - destruct Hs as (-> & -> & Ho). intros [= <- <- <-]. exists t. split; [done|]. by eapply calls_ok_last.
  - destruct Hs as (e & -> & Hg). intros (evs & Hle & Hok)%IH. exists (t ++ evs).
    rewrite Hle, (goes_on_log _ _ _ _ _ _ _ _ _ Hg), Hl, <- app_assoc. split; [done|].
    by eapply calls_ok_turn.
Qed.

(** ** Whom a request is sent as *)

(** What each session was dialled for. *)
Variable dialled_as : S -> Key.
Hypothesis connect_law : forall url config w s w',
  se_connect (SessionEnv := E) url config w = (Ok s, w') -> dialled_as s = key_of url config.

(** The router's session was dialled for where the router points, and each
    session of the pool for the key it is kept under. *)
Definition keyed (x : rsys) : Prop :=
  (forall s, r_session (s_router x) = Some s ->
     dialled_as s = key_of (r_url (s_router x)) (r_config (s_router x)))
  /\ NoDup (dict_keys (s_pool x))
  /\ (forall key e, e ∈ bucket_of key (s_pool x) -> dialled_as e.2 = key).

Lemma pool_acquire_keyed (x : rsys) found y :
  pool_acquire key_of x = (found, y) -> keyed x ->
  keyed y /\ (forall s, found = Some s -> dialled_as s = key_of (r_url (s_router x)) (r_config (s_router x))).
Proof.
  intros Ha (Hs & Hn & Hp). revert Ha. unfold pool_acquire. destruct (if _ <=? 0 then _ else _) as [now w].
  destruct (acquire _ _ _ _ _) as [[f p] st] eqn:Eq. intros [= <- <-].
  destruct (acquire_entries _ _ _ _ _ _ _ _ Eq) as [Hin Hf].
  split; [split_and!; [done | by eapply acquire_held|]|].
  - intros key e He. cbn in He. auto.
  - intros s ->. destruct (Hf s eq_refl) as [when_ Hw]. exact (Hp _ _ Hw).
Qed.

Lemma redial_keyed (x : rsys) out y : redial key_of x = (out, y) -> keyed x -> keyed y.
Proof.
  unfold redial. destruct (pool_acquire _ _) as [found z] eqn:Ea. intros Hr Hx.
  pose proof (pool_acquire_router _ _ _ _ Ea) as Er. apply pool_acquire_keyed in Ea as [Hz Hf]; [|exact Hx].
  destruct Hz as (Hs & Hn & Hp). revert Hr. destruct found as [s|].
  { intros [= <- <-]. split_and!; [|done|done]. intros s' [= <-]. cbn. rewrite Er. by apply Hf. }
  cbn [se_connect recorded].
  destruct (se_connect (r_url (s_router z)) (r_config (s_router z)) (s_world z).1) as [[s|e] w] eqn:Ec;
    intros [= <- <-]; [|done].
  split_and!; [|done|done]. intros s' [= <-]. by eapply connect_law.
Qed.

Lemma attempt_keyed request path (x : rsys) out y :
  attempt key_of request path x = (out, y) -> keyed x -> keyed y.
Proof.
  unfold attempt. destruct (session key_of x) as [o z] eqn:Es. intros Ha Hx.
  assert (Hz : keyed z).
  { revert Es. unfold session. destruct (r_session _); [destruct (se_closed _ _); [destruct (r_reconnect _)|]|];
      try (by intros [= <- <-]); intros Hr%redial_keyed; auto. }
  revert Ha. destruct o as [s|e]; [|by intros [= <- <-]].
  destruct (se_execute _ _ _ _) as [o w]. by intros [= <- <-].
Qed.

Lemma close_keyed (x : rsys) :
  keyed x -> keyed (close key_of x) /\ r_session (s_router (close key_of x)) = None.
Proof.
  intros (Hs & Hn & Hp). unfold close. destruct (r_session _) as [s|] eqn:Es; [|by split].
  destruct (negb _); [by split|]. specialize (Hs s eq_refl). destruct (pool_release _ _ _) as [kept y] eqn:Er.
  assert (Hy : keyed y /\ r_session (s_router y) = None).
  { pose proof (pool_release_router _ _ _ _ _ Er) as Eq. unfold keyed. rewrite Eq. cbn.
    revert Er. unfold pool_release. destruct (_ || _); [by intros [= <- <-]|].
    destruct (se_monotonic _) as [now w], (se_monotonic w) as [now' w'].
    destruct (release _ _ _ _ _ _ _) as [[k p] ex] eqn:Erl. intros [= <- <-]. cbn.
    split; [|done]. split_and!; [done | by eapply release_held|].
    intros key e [He|[-> ->]]%(release_entries _ _ _ _ _ _ _ _ _ _ Erl); auto. }
  by destruct kept.
Qed.

Lemma goes_on_keyed hops attempts request (x : rsys) e h a q y :
  goes_on key_of lower hops attempts request x e (h, a, q, y) -> keyed x -> keyed y.
Proof.
  inversion 1; subst; intros Hx.
  - destruct (close_keyed x Hx) as [(_ & Hn & Hp) Hs]. unfold _follow. split_and!; [|done|done].
    cbn. by rewrite Hs.
  - assert (Hd : keyed (_drop x)).
    { destruct Hx as (Hs & Hn & Hp). unfold _drop. destruct (r_session _) eqn:Es; split_and!; try done.
      intros s. cbn. by rewrite Es. }
    unfold _pause. by destruct (Qltb _ _).
Qed.

(** ** Moving on *)

Hypothesis lower_tls : forall scheme, scheme ∈ _TLS_SCHEMES -> lower scheme = scheme.

(** [y]'s router is still the caller of [x]'s. *)
Definition moved (x y : rsys) : Prop :=
  r_config (s_router y) = r_config (s_router x)
  /\ u_username (r_url (s_router y)) = u_username (r_url (s_router x))
  /\ (use_tls (r_url (s_router x)) = true -> use_tls (r_url (s_router y)) = true).

#[local] Instance moved_preorder : PreOrder moved.
Proof. split; [done | intros x y z (? & ? & ?) (? & ? & ?); split_and!; try congruence; auto]. Qed.

Lemma moved_settings x y : same_settings x y -> moved x y.
Proof. intros (Hu & Hc & _). unfold moved. by rewrite Hu, Hc. Qed.

Lemma goes_on_moved hops attempts request (x : rsys) e h a q y :
  goes_on key_of lower hops attempts request x e (h, a, q, y) -> moved x y.
Proof.
  inversion 1; subst.
  - destruct (close_settings key_of x) as (Hu & Hc & _). unfold moved, _follow. cbn. rewrite Hu, Hc.
    split_and!; [done|done|]. unfold use_tls, evolve, make_url. cbn. rewrite !bool_decide_eq_true.
    intros Hin. case_match; [rewrite lower_tls; decided | by rewrite lower_tls].
  - apply moved_settings. etransitivity; [apply drop_settings | apply pause_settings].
Qed.

(** A call made as the caller of [x]. *)
Definition as_caller (x : rsys) (c : call S) : Prop :=
  match c with
  | Sent s _ _ => exists url, dialled_as s = key_of url (r_config (s_router x))
      /\ u_username url = u_username (r_url (s_router x))
      /\ (use_tls (r_url (s_router x)) = true -> use_tls url = true)
  | Dialled url config _ => config = r_config (s_router x)
      /\ u_username url = u_username (r_url (s_router x))
      /\ (use_tls (r_url (s_router x)) = true -> use_tls url = true)
  end.

Lemma as_caller_moved x y c : moved x y -> as_caller y c -> as_caller x c.
Proof.
  intros (Hc & Hu & Ht). destruct c; cbn; rewrite Hc, Hu.
  - intros (? & ? & ?). auto.
  - intros (u & ? & ? & ?). exists u. auto.
Qed.

Lemma turn_dials x request evs out url config d :
  turn x request evs out -> Dialled url config d ∈ evs ->
  url = r_url (s_router x) /\ config = r_config (s_router x).
Proof. inversion 1; subst; rewrite ?elem_of_cons, elem_of_nil; intuition congruence. Qed.

Lemma execute_loop_caller fuel hops attempts request path (x : rsys) out q y :
  execute_loop key_of lower fuel hops attempts request path x = Some (out, q, y) -> keyed x ->
  keyed y /\ moved x y /\ exists evs, log y = log x ++ evs /\ Forall (as_caller x) evs.
Proof.
  revert hops attempts request x. induction fuel as [|fuel IH]; [done|].
  intros hops attempts request x. cbn [execute_loop].
  destruct (attempt key_of request path x) as [o z] eqn:Ea. intros Hrun Hx.
  pose proof (attempt_settings _ _ _ _ _ _ Ea) as Hset. pose proof (attempt_keyed _ _ _ _ _ Ea Hx) as Hz.
  apply attempt_turn in Ea as (t & Ht & Hl & Hsess).
  assert (Hcalls : Forall (as_caller x) t).
  { apply Forall_forall. intros [url config out'|s q' out'] Hin; cbn.
    - by destruct (turn_dials _ _ _ _ _ _ _ Ht Hin) as [-> ->].
    - exists (r_url (s_router x)). destruct Hset as (Hu & Hc & _). destruct Hz as [Hs _].
      rewrite <- Hu, <- Hc. split; [|done]. by apply Hs, (Hsess _ _ _ Hin). }
  pose proof (after_attempt_spec key_of lower hops attempts request o z) as Hs. apply moved_settings in Hset.
  destruct (after_attempt _ _ _ _ _ _ _) as [[[out' q'] y']|[[[h a] q'] y']].
  - destruct Hs as (-> & -> & Ho). injection Hrun as <- <- <-. split_and!; [done|done|]. by exists t.
  - destruct Hs as (e & -> & Hg). assert (Hm : moved x y') by (etransitivity; [done | by eapply goes_on_moved]).
    destruct (IH _ _ _ _ Hrun (goes_on_keyed _ _ _ _ _ _ _ _ _ Hg Hz)) as (Hk & Hmy & evs & Hle & Hf).
    split_and!; [done | by etransitivity |]. exists (t ++ evs).
    rewrite Hle, (goes_on_log _ _ _ _ _ _ _ _ _ Hg), Hl, <- app_assoc. split; [done|].
    apply Forall_app. split; [done|]. eapply Forall_impl; [exact Hf|]. intros c. by apply as_caller_moved.
Qed.
End Calls.

(** ** The router's promises *)

(** C6: a request is not sent around for ever, and never twice where it
    matters. Whatever servers and network do, [execute] returns; it dials and
    sends at most as the limits allow - no more than [redirect_limit + 1]
    redirects and [connect_retries + 1] failures are met; all but its last
    call was a successful dial, a redirect, or, only if the request is
    idempotent and the router may reconnect, a connection error other than a
    spent wait budget: so a request that is not idempotent is never sent
    again after one that may have reached the server. Each request sent is
    the caller's with the tokens of the redirects so far, and an answer is
    returned only as some session's answer to the last. *)
Theorem execute_bounded {S W} (E : SessionEnv S W) key_of lower request path x :
  exists out q y evs, execute (H := recorded E) key_of lower request path x = Some (out, q, y)
    /\ log y = log x ++ evs
    /\ Forall (may_go_on (r_reconnect (s_router x) && idempotent request)) (removelast evs)
    /\ sent_as request evs
    /\ redirects evs <= Z.max 0 (c_redirect_limit (r_config (s_router x))) + 1
    /\ losses evs <= Z.max 0 (c_connect_retries (r_config (s_router x))) + 1
    /\ (forall r, out = Ok r -> exists pre s, evs = pre ++ [Sent s q (Ok r)]).
Proof.
  destruct (execute_loop_ends (H := recorded E) key_of lower (execute_fuel (r_config (s_router x)))
    0 0 request path x) as [[[out q] y] Hrun]; [unfold execute_fuel; lia|].
  destruct (execute_loop_calls _ _ _ _ _ _ _ _ _ _ _ Hrun) as (evs & Hl & [Hf Hs Hr Hlo Ha]).
  exists out, q, y, evs. split_and!; try done; lia.
Qed.

Section AsCaller.
Context (sha256 : bytes -> bytes) (repr_str : str -> bytes) (repr_opt : option str -> bytes).
Context (repr_strs : list str -> bytes) (repr_bool : bool -> bytes) (lower : str -> str).
Notation key := (_key sha256 repr_str repr_opt repr_strs repr_bool).
Notation ident := (_identity sha256 repr_str repr_opt repr_strs repr_bool).

Lemma identity_username u1 u2 c : u_username u1 = u_username u2 -> ident u1 c = ident u2 c.
Proof. unfold _identity, identity_message, login_name. by intros ->. Qed.

(** C7: a request only ever goes out as the caller. If the router's and
    the pool's sessions were dialled for the keys they are under, then
    after [execute] - through any redirects and reconnections - they still
    are, and every session used was dialled with the caller's own identity
    digest, as the caller's user and under the caller's settings; and a
    router on TLS stays on TLS, whatever endpoints it was redirected to. *)
Theorem execute_as_caller {S W} (E : SessionEnv S W) (dialled_as : S -> Key) request path x out q y :
  (forall url config w s w', se_connect url config w = (Ok s, w') -> dialled_as s = key url config) ->
  (forall scheme, scheme ∈ _TLS_SCHEMES -> lower scheme = scheme) ->
  keyed key dialled_as x ->
  execute (H := recorded E) key lower request path x = Some (out, q, y) ->
  keyed key dialled_as y
  /\ exists evs, log y = log x ++ evs
      /\ Forall (fun c => match c with
           | Sent s _ _ =>
               (dialled_as s).2 = ident (r_url (s_router x)) (r_config (s_router x))
               /\ (use_tls (r_url (s_router x)) = true -> (dialled_as s).1.1.1 = s_ "roots")
           | Dialled url config _ =>
               config = r_config (s_router x)
               /\ u_username url = u_username (r_url (s_router x))
               /\ (use_tls (r_url (s_router x)) = true -> use_tls url = true)
           end) evs.
Proof.
  intros Hlaw Hlow Hx Hrun.
  destruct (execute_loop_caller _ _ _ Hlaw Hlow _ _ _ _ _ _ _ _ _ Hrun Hx) as (Hk & _ & evs & Hl & Hf).
  split; [done|]. exists evs. split; [done|]. eapply Forall_impl; [exact Hf|].
  intros [url config o|s q' o]; [done|]. intros (url & -> & Hu & Ht). split.
  - by apply identity_username.
  - intros Htls. unfold _key. cbn. by rewrite (Ht Htls).
Qed.
End AsCaller.

(** ** A router on a scripted server *)

(** Sessions never close by themselves and remember what they were dialled
    for; each request is answered from the script. *)
Notation demo_router_key := (_key id demo_repr demo_repr demo_repr demo_repr).
#[local] Instance demo_env : SessionEnv Key (list (res Result)) := {|
  se_closed _ _ := false;
  se_connect url config w := (Ok (demo_router_key url config), w);
  se_execute _ _ _ w := match w with [] => (Err ConnectionError, []) | o :: w => (o, w) end;
  se_close _ w := w;
  se_monotonic w := (0%Q, w);
  se_sleep _ w := w
|}.

(** A manager redirects to a data server, which drops the first connection. *)
Definition demo_script : list (res Result) :=
  [Err (RedirectRequired (s_ "h2") (-1095) (s_ "tok")); Err ConnectionError;
   Ok {| res_data := []; res_status := None |}].
Definition demo_x0 : sys (S := Key) (W := list (res Result) * list (call Key)) :=
  mkSys (mkRouter (mkURL (s_ "roots") (s_ "h") 1094 (s_ "/") [] [] []) demo_config true None true) []
    (demo_script, []).
Definition demo_run (request : Request) :=
  execute (H := recorded demo_env) demo_router_key id request [] demo_x0.

(** A stat gets there; a removal is not sent twice to the data server. *)
Example demo_run_stat :
  (fun r => (r.1.1, r.1.2, zlen (log r.2))) <$> demo_run (Stat (s_ "/f") 0 []) =
    Some (Ok {| res_data := []; res_status := None |}, Stat (s_ "/f?tok") 0 [], 6).
Proof. vm_compute. reflexivity. Qed.

Example demo_run_rm :
  (fun r => (r.1.1, zlen (log r.2))) <$> demo_run (Rm (s_ "/f")) = Some (Err (TransientError 1 0), 4).
Proof. vm_compute. reflexivity. Qed.

Lemma demo_x0_keyed : keyed demo_router_key id demo_x0.
Proof.
  split_and!; [by intros s Hs | constructor|]. intros key e He. by apply elem_of_nil in He.
Qed.

Lemma demo_run_ends : exists out q y, demo_run (Stat (s_ "/f") 0 []) = Some (out, q, y).
Proof. vm_compute. do 3 eexists. reflexivity. Qed.

Lemma execute_as_caller_witness :
  exists out q y, demo_run (Stat (s_ "/f") 0 []) = Some (out, q, y) /\ keyed demo_router_key id y.
Proof.
  destruct demo_run_ends as (out & q & y & Hrun). exists out, q, y. split; [exact Hrun|].
  refine (proj1 (execute_as_caller id demo_repr demo_repr demo_repr demo_repr id demo_env id
    (Stat (s_ "/f") 0 []) [] demo_x0 out q y _ _ demo_x0_keyed Hrun)); clear Hrun.
  - intros url config w s w' Hc. injection Hc as <- _. reflexivity.
  - reflexivity.
Defined.
