(* ===== verification/Session.v ===== *)
(** * The blocking session driver

    src/xrd/session/sync.py: one connection, a transport and a machine, the
    machine's events turned into returns and exceptions. The transports are
    an interface, [TransportEnv]; everything a session object holds is its
    state, and a method that raises keeps the changes it made before.

    The loops that read until something arrives take fuel, the number of
    reads they may make, and return [None] when it runs out. *)

From S2P Require Import Prelude PyStr Constants Errors Buffer Frames Requests Responses Sigver ConfigFile Url Machine Router.
From Stdlib Require Import QArith.
Open Scope Z_scope.
Import SessionMachine.

(** What a session uses of its sockets and of the clock. [T] are transports,
    [W] the state of everything outside the session. [t_sleep] raises on a
    negative time, as [time.sleep] does. *)
Class TransportEnv (T W : Type) := {
  t_connect : str -> Z -> Config -> W -> W * res T;
  t_send : T -> bytes -> W -> W * res unit;
  t_receive : T -> W -> W * res bytes;
  t_start_tls : T -> str -> Config -> W -> W * res unit;
  t_close : T -> W -> W;
  t_sleep : Q -> W -> W * res unit
}.

Section Session.
Context {C I T W : Type} `{CredentialOps C I} `{TransportEnv T W}.
Variable hmac_sha256 : bytes -> bytes -> bytes.
Variable getpid : Z.
Variable describe_exn : exn -> str.
Notation machine := (@machine C I).

(** [chunks] is what the caller's [on_chunk] has been given so far. *)
Record Session := mkSession {
  sn_t : T; sn_m : machine; sn_config : Config; sn_inbox : dict Z (list Event);
  sn_notices : list AttnInfo; sn_paths : dict Z T; sn_arrives : option bool; sn_world : W;
  sn_chunks : list bytes
}.

Definition Session_init (transport : T) (m : machine) (config : Config) (w : W) : Session :=
  mkSession transport m config [] [] [] None w [].

Definition set_sn_m (m : machine) (s : Session) : Session :=
  mkSession (sn_t s) m (sn_config s) (sn_inbox s) (sn_notices s) (sn_paths s) (sn_arrives s)
    (sn_world s) (sn_chunks s).
Definition set_sn_inbox (v : dict Z (list Event)) (s : Session) : Session :=
  mkSession (sn_t s) (sn_m s) (sn_config s) v (sn_notices s) (sn_paths s) (sn_arrives s)
    (sn_world s) (sn_chunks s).
Definition set_sn_notices (v : list AttnInfo) (s : Session) : Session :=
  mkSession (sn_t s) (sn_m s) (sn_config s) (sn_inbox s) v (sn_paths s) (sn_arrives s)
    (sn_world s) (sn_chunks s).
Definition set_sn_paths (v : dict Z T) (s : Session) : Session :=
  mkSession (sn_t s) (sn_m s) (sn_config s) (sn_inbox s) (sn_notices s) v (sn_arrives s)
    (sn_world s) (sn_chunks s).
Definition set_sn_arrives (v : option bool) (s : Session) : Session :=
  mkSession (sn_t s) (sn_m s) (sn_config s) (sn_inbox s) (sn_notices s) (sn_paths s) v
    (sn_world s) (sn_chunks s).
Definition set_sn_world (v : W) (s : Session) : Session :=
  mkSession (sn_t s) (sn_m s) (sn_config s) (sn_inbox s) (sn_notices s) (sn_paths s) (sn_arrives s)
    v (sn_chunks s).
Definition set_sn_chunks (v : list bytes) (s : Session) : Session :=
  mkSession (sn_t s) (sn_m s) (sn_config s) (sn_inbox s) (sn_notices s) (sn_paths s) (sn_arrives s)
    (sn_world s) v.

Notation D := (st exn Session).

(** A call on the machine, and one on the outside. *)
Definition on_machine {A} (c : st exn machine A) : D A := fun s =>
  let '(m, r) := c (sn_m s) in (set_sn_m m s, r).
Definition on_world {A} (c : W -> W * res A) : D A := fun s =>
  let '(w, r) := c (sn_world s) in (set_sn_world w s, r).

Definition session_closed (s : Session) : bool :=
  bool_decide (state (sn_m s) = CLOSED) || bool_decide (state (sn_m s) = FAILED).

(** Drain any unsolicited messages the server sent. *)
Definition notices : D (list AttnInfo) :=
  s ← get; modify (set_sn_notices []) ≫= fun _ => mret (sn_notices s).

(** ** I/O pump *)

Fixpoint flush_paths (paths : dict Z T) : D unit :=
  match paths with
  | [] => mret tt
  | (p, transport) :: paths =>
      queued ← on_machine (path_data_to_send p);
      match queued with [] => mret tt | _ => on_world (t_send transport queued) end ≫= fun _ =>
      flush_paths paths
  end.

Definition _flush : D unit :=
  data ← on_machine data_to_send;
  s ← get;
  match data with [] => mret tt | _ => on_world (t_send (sn_t s) data) end ≫= fun _ =>
  flush_paths (sn_paths s).

(** One send/receive turn; returns whatever events it produced. *)
Definition _pump (pathid : Z) : D (list Event) :=
  _flush ≫= fun _ =>
  s ← get;
  transport ← (if pathid =? 0 then mret (sn_t s)
               else match dict_get pathid (sn_paths s) with
                    | Some transport => mret transport
                    | None => raise KeyError
                    end);
  data ← on_world (t_receive transport);
  on_machine (receive_data getpid describe_exn (Some data) pathid) ≫= fun _ =>
  on_machine drain_events.

Definition _close_path (pathid : Z) : D unit :=
  s ← get;
  modify (set_sn_paths (dict_pop pathid (sn_paths s))) ≫= fun _ =>
  match dict_get pathid (sn_paths s) with
  | Some transport => modify (fun s => set_sn_world (t_close transport (sn_world s)) s)
  | None => mret tt
  end ≫= fun _ =>
  on_machine (forget_path pathid).

(** [self._inbox.setdefault(target, []).append(event)]. *)
Definition to_inbox (target : Z) (e : Event) (s : Session) : Session :=
  set_sn_inbox (dict_set target (default [] (dict_get target (sn_inbox s)) ++ [e]) (sn_inbox s)) s.

(** The [for] loop of [_events_for] over one turn's events. *)
Fixpoint route (sid : Z) (evs mine : list Event) : D (list Event) :=
  match evs with
  | [] => mret mine
  | e :: evs =>
      if decide (event_streamid e = Some sid) then route sid evs (mine ++ [e])
      else
        match e with
        | Attention info => modify (fun s => set_sn_notices (sn_notices s ++ [info]) s)
        | PathLost p _ => _close_path p
        | Disconnected _ => raise ConnectionError
        | Failed None _ error => raise error
        | _ =>
            match event_streamid e with
            | Some target => modify (to_inbox target e)
            | None => mret tt
            end
        end ≫= fun _ => route sid evs mine
  end.

(** The [while True] loop of [_events_for]. *)
Fixpoint events_loop (fuel : nat) (sid pathid : Z) (s : Session)
    : option (Session * res (list Event)) :=
  match fuel with
  | O => None
  | S fuel =>
      match (_pump pathid ≫= fun evs => route sid evs []) s with
      | (s, Ok []) => events_loop fuel sid pathid s
      | out => Some out
      end
  end.

(** Block until at least one event for [sid] is available. *)
Definition _events_for (fuel : nat) (sid pathid : Z) (s : Session)
    : option (Session * res (list Event)) :=
  let queued := default [] (dict_get sid (sn_inbox s)) in
  let s := set_sn_inbox (dict_pop sid (sn_inbox s)) s in
  match queued with
  | [] => events_loop fuel sid pathid s
  | _ => Some (s, Ok queued)
  end.

(** ** Requests *)

(** How the [for] loop of [_await] over a batch of events ended: with the
    result, or with the number of waits and of bytes streamed so far. *)
Inductive batch_end :=
| Returned (r : Result)
| Goes_on (waits streamed : Z).

Definition give_chunk (on_chunk : bool) (data : bytes) : D unit :=
  if on_chunk then modify (fun s => set_sn_chunks (sn_chunks s ++ [data]) s) else mret tt.

Fixpoint await_batch (sid : Z) (on_chunk : bool) (evs : list Event) (waits streamed : Z) : D batch_end :=
  match evs with
  | [] => mret (Goes_on waits streamed)
  | e :: evs =>
      match e with
      | Completed _ _ data status =>
          (if on_chunk && (streamed <? zlen data) then give_chunk on_chunk (slice_from data streamed)
           else mret tt) ≫= fun _ =>
          mret (Returned {| res_data := data; res_status := status |})
      | Failed _ _ error => raise error
      | Chunk _ _ data =>
          give_chunk on_chunk data ≫= fun _ => await_batch sid on_chunk evs waits (streamed + zlen data)
      | Redirected _ _ target =>
          on_machine (release sid) ≫= fun _ =>
          raise (RedirectRequired (ri_host target) (ri_port target) (ri_token target))
      | Waiting _ _ seconds _ true =>
          s ← get;
          let waits := waits + 1 in
          if c_redirect_limit (sn_config s) <? waits then raise (WaitLimitError waits)
          else
            on_world (t_sleep seconds) ≫= fun _ =>
            on_machine (resume sid) ≫= fun _ =>
            _flush ≫= fun _ =>
            await_batch sid on_chunk evs waits 0
      | _ => await_batch sid on_chunk evs waits streamed
      end
  end.

Fixpoint await_loop (rounds fuel : nat) (sid : Z) (on_chunk : bool) (pathid waits streamed : Z)
    (s : Session) : option (Session * res Result) :=
  match rounds with
  | O => None
  | S rounds =>
      match _events_for fuel sid pathid s with
      | None => None
      | Some (s, Err e) => Some (s, Err e)
      | Some (s, Ok evs) =>
          match await_batch sid on_chunk evs waits streamed s with
          | (s, Err e) => Some (s, Err e)
          | (s, Ok (Returned r)) => Some (s, Ok r)
          | (s, Ok (Goes_on waits streamed)) =>
              await_loop rounds fuel sid on_chunk pathid waits streamed s
          end
      end
  end.

Definition _await (fuel : nat) (sid : Z) (on_chunk : bool) (pathid : Z) (s : Session)
    : option (Session * res Result) :=
  await_loop fuel fuel sid on_chunk pathid 0 0 s.

(** The part of [execute] before the wait: the stream id, whether the request
    arrives on its data path, and the link its answer is expected on. *)
Definition send_request (request : Request) (path : str) (arrive_on_path : bool) : D (Z * bool * Z) :=
  s ← get;
  if session_closed s then raise ConnectionError
  else if negb (pathid request =? 0) && negb (dict_mem (pathid request) (sn_paths s)) then raise ValueError
  else
    let on_path := arrive_on_path && negb (bool_decide (sn_arrives s = Some false))
                   && negb (pathid request =? 0) && dict_mem (pathid request) (sn_paths s) in
    sid ← on_machine (submit hmac_sha256 request path on_path);
    mret (sid, on_path,
          if on_path then pathid request else if reply_on_path request then pathid request else 0).

Definition execute (fuel : nat) (request : Request) (path : str) (on_chunk arrive_on_path : bool)
    (s : Session) : option (Session * res Result) :=
  match send_request request path arrive_on_path s with
  | (s, Err e) => Some (s, Err e)
  | (s, Ok (sid, on_path, answers_on)) =>
      match _await fuel sid on_chunk answers_on s with
      | Some (s, Ok r) => Some (if on_path then set_sn_arrives (Some true) s else s, Ok r)
      | Some (s, Err e) =>
          if on_path then
            match _close_path (pathid request) (set_sn_arrives (Some false) s) with
            | (s, Ok _) => Some (s, Err e)
            | (s, Err e') => Some (s, Err e')
            end
          else Some (s, Err e)
      | None => None
      end
  end.

(** ** Bring-up *)

Fixpoint bringup_events (evs : list Event) : D unit :=
  match evs with
  | [] => mret tt
  | e :: evs =>
      match e with
      | NeedTLS _ =>
          _flush ≫= fun _ =>
          s ← get;
          on_world (t_start_tls (sn_t s) (host (sn_m s)) (sn_config s)) ≫= fun _ =>
          on_machine (tls_established getpid)
      | Failed _ _ error => raise error
      | Disconnected _ => raise ConnectionError
      | _ => mret tt
      end ≫= fun _ => bringup_events evs
  end.

Fixpoint bringup (fuel : nat) (s : Session) : option (Session * res unit) :=
  match fuel with
  | O => None
  | S fuel =>
      if bool_decide (state (sn_m s) = READY) then Some (s, Ok tt)
      else if session_closed s then Some (s, Err ConnectionError)
      else
        match (_pump 0 ≫= bringup_events) s with
        | (s, Ok _) => bringup fuel s
        | out => Some out
        end
  end.

(** [Session.connect]: connect, negotiate, upgrade, log in, authenticate. *)
Definition connect (fuel : nat) (target : XRootDURL) (config : Config) (username : str) (w : W)
    : option (W * res Session) :=
  match t_connect (u_host target) (u_port target) config w with
  | (w, Err e) => Some (w, Err e)
  | (w, Ok transport) =>
      let user := match username with
                  | [] => match u_username target with [] => c_username config | u => u end
                  | u => u
                  end in
      let m := make (u_host target) (u_port target) config None user
                 (use_tls target || c_require_tls config) [] in
      let s := Session_init transport m config w in
      match on_machine start s with
      | (s, Err e) => Some (t_close transport (sn_world s), Err e)
      | (s, Ok _) =>
          match bringup fuel s with
          | None => None
          | Some (s, Err e) => Some (t_close transport (sn_world s), Err e)
          | Some (s, Ok _) => Some (sn_world s, Ok s)
          end
      end
  end.

(** Open a second connection to this server and bind it to the session. *)
Definition bind_data_path (fuel : nat) (s : Session) : option (Session * res Z) :=
  if session_closed s then Some (s, Err ConnectionError)
  else if bool_decide (session_id (sn_m s) = []) then Some (s, Err XRootDError)
  else
    match t_connect (host (sn_m s)) (port (sn_m s)) (sn_config s) (sn_world s) with
    | (w, Err e) => Some (set_sn_world w s, Err e)
    | (w, Ok transport) =>
        let m := make (host (sn_m s)) (port (sn_m s)) (sn_config s) None (username (sn_m s))
                   (tls_active (sn_m s)) (session_id (sn_m s)) in
        let fail_with b e := Some (set_sn_world (t_close transport (sn_world b)) s, Err e) in
        match on_machine start (Session_init transport m (sn_config s) w) with
        | (b, Err e) => fail_with b e
        | (b, Ok _) =>
            match bringup fuel b with
            | None => None
            | Some (b, Err e) => fail_with b e
            | Some (b, Ok _) =>
                let p := m_pathid (sn_m b) in
                if dict_mem p (sn_paths s) then fail_with b ProtocolError
                else Some (set_sn_paths (dict_set p transport (sn_paths s)) (set_sn_world (sn_world b) s), Ok p)
            end
        end
    end.

(** ** Teardown *)

(** End the session and drop the connection. *)
Definition session_close (s : Session) : Session * res unit :=
  let '(s, r) :=
    if bool_decide (state (sn_m s) = READY) then
      match (on_machine (close true) ≫= fun _ => _flush) s with
      | (s, Err e) => if is_xrootd_error e || is_os_error e then (s, Ok tt) else (s, Err e)
      | out => out
      end
    else (s, Ok tt) in
  match r with
  | Err e => (s, Err e)
  | Ok _ =>
      let w := foldl (fun w pt => t_close pt.2 w) (t_close (sn_t s) (sn_world s)) (sn_paths s) in
      (set_sn_m (set_state CLOSED (sn_m s)) (set_sn_paths [] (set_sn_world w s)), Ok tt)
  end.
End Session.
Arguments Session : clear implicits.
