(* ===== verification/SessionProps.v ===== *)
(** * What a session hands back

    Which event goes to which caller on the driver of [Session], what a
    streaming caller is given, and what happens when a connection ends under
    a wait. *)

From S2P Require Import Prelude PyStr Constants Errors Buffer Frames Requests Responses Sigver ConfigFile Url Machine MachineFraming MachineStreams MachineDelivery MachineBodies Router Session.
Import MachineScenarios.
From Stdlib Require Import QArith.
Open Scope Z_scope.
Import SessionMachine.

(** The notices among some events. *)
Definition notice_of (e : Event) : option AttnInfo := match e with Attention info => Some info | _ => None end.

Section Driver.
Context {C I T W : Type} `{CredentialOps C I} `{TransportEnv T W}.
Variable hmac_sha256 : bytes -> bytes -> bytes.
Variable getpid : Z.
Variable describe_exn : exn -> str.
Notation machine := (@machine C I).
Notation Session := (Session C I T W).
Notation D := (st exn Session).
Implicit Types (s : Session) (m : machine) (sid : Z).

Definition inbox_of sid s : list Event := default [] (dict_get sid (sn_inbox s)).

Lemma inbox_of_to_inbox t e sid s :
  inbox_of sid (to_inbox t e s) = inbox_of sid s ++ (if decide (sid = t) then [e] else []).
Proof.
  unfold inbox_of, to_inbox. cbn [sn_inbox set_sn_inbox]. destruct (decide (sid = t)) as [->|Hne].
  - by rewrite dict_get_set_eq.
  - by rewrite dict_get_set_ne, app_nil_r by congruence.
Qed.

(** ** Who gets which event *)

(** Closing a path keeps everything but the path and the machine. *)
Lemma close_path_keeps p s :
  let s' := ((_close_path p : D unit) s).1 in
  sn_inbox s' = sn_inbox s /\ sn_notices s' = sn_notices s /\ sn_chunks s' = sn_chunks s
  /\ sn_config s' = sn_config s /\ sn_m s' = ((forget_path p : st exn machine unit) (sn_m s)).1.
Proof.
  unfold _close_path. rewrite st_bind_eq. unfold get. cbv beta iota. rewrite st_bind_eq. unfold modify at 1.
  cbv beta iota. destruct (dict_get p (sn_paths s)); done.
Qed.

Lemma close_path_ok p s : ((_close_path p : D unit) s).2 = Ok tt.
Proof.
  unfold _close_path. rewrite st_bind_eq. unfold get. cbv beta iota. rewrite st_bind_eq. unfold modify at 1.
  cbv beta iota. destruct (dict_get p (sn_paths s)); done.
Qed.

(** One event that is not the caller's. *)
Lemma route_other sid e evs mine s s' out :
  event_streamid e <> Some sid -> route sid (e :: evs) mine s = (s', Ok out) ->
  exists s1, route sid evs mine s1 = (s', Ok out)
    /\ (forall t, inbox_of t s1 = inbox_of t s ++ of_stream t [e])
    /\ sn_notices s1 = sn_notices s ++ option_list (notice_of e)
    /\ sn_chunks s1 = sn_chunks s /\ sn_config s1 = sn_config s
    /\ (sn_m s1 = sn_m s \/ exists p, sn_m s1 = ((forget_path p : st exn machine unit) (sn_m s)).1)
    /\ (forall r, e <> Disconnected r).
Proof.
  intros Hne. cbn [route]. rewrite decide_False by done.
  assert (Hin : forall t, event_streamid e = Some t -> notice_of e = None -> exists s1,
      (modify (to_inbox t e) : D unit) s = (s1, Ok tt)
      /\ (forall t', inbox_of t' s1 = inbox_of t' s ++ of_stream t' [e])
      /\ sn_notices s1 = sn_notices s ++ option_list (notice_of e)
      /\ sn_chunks s1 = sn_chunks s /\ sn_config s1 = sn_config s /\ sn_m s1 = sn_m s).
  { intros t Ht Hn. eexists. split; [done|]. split_and!; try done; [|by rewrite Hn, app_nil_r].
    intros t'. rewrite inbox_of_to_inbox. unfold of_stream. rewrite filter_cons, Ht.
    repeat case_decide; naive_solver. }
  assert (Hnil : forall s1, sn_inbox s1 = sn_inbox s -> event_streamid e = None ->
      forall t, inbox_of t s1 = inbox_of t s ++ of_stream t [e]).
  { intros s1 Hs1 He t. unfold inbox_of, of_stream. rewrite Hs1, filter_cons, He, decide_False by done.
    by rewrite app_nil_r. }
  rewrite st_bind_eq. destruct e as [| | | | | | | |[t|] q err|p reason|]; cbn [event_streamid notice_of] in *;
    try (intros Hr; discriminate Hr);
    try (destruct (Hin _ eq_refl eq_refl) as (s1 & -> & ? & ? & ? & ? & ?); intros Hr; exists s1;
         split_and!; first [done | by left]);
    try (intros Hr; exists s; split_and!; first [done | by apply Hnil | by rewrite app_nil_r | by left]).
  - intros Hr. eexists. split; [exact Hr|]. split_and!; first [done | by apply Hnil | by left].
  - destruct (close_path_keeps p s) as (Hi & Hno & Hc & Hcf & Hm). pose proof (close_path_ok p s) as Hok.
    destruct (_close_path p s) as [s1 r1]. cbn in *. subst r1. intros Hr. exists s1.
    split_and!; first [done | by apply Hnil | by rewrite app_nil_r | right; by eexists].
Qed.

(** What the [for] loop of [_events_for] does with a turn's events. *)
Lemma route_ok sid evs mine s s' out :
  route sid evs mine s = (s', Ok out) ->
  out = mine ++ of_stream sid evs
  /\ (forall t, inbox_of t s' = inbox_of t s ++ (if decide (t = sid) then [] else of_stream t evs))
  /\ sn_notices s' = sn_notices s ++ omap notice_of evs
  /\ sn_chunks s' = sn_chunks s /\ sn_config s' = sn_config s /\ (forall r, Disconnected r ∉ evs).
Proof.
  revert mine s. induction evs as [|e evs IH]; intros mine s.
  { intros [= <- <-]. unfold of_stream. rewrite !app_nil_r. split_and!; try done.
    - intros t. by destruct (decide (t = sid)); rewrite app_nil_r.
    - intros r. apply not_elem_of_nil. }
  destruct (decide (event_streamid e = Some sid)) as [He|He].
  - cbn [route]. rewrite decide_True by done. intros (-> & Hi & Hn & Hc & Hcf & Hd)%IH.
    change (e :: evs) with ([e] ++ evs). rewrite of_stream_app, omap_app, Hn.
    assert (Hs : of_stream sid [e] = [e]) by (apply of_stream_all; by repeat constructor).
    rewrite Hs, <- app_assoc. split_and!; try done.
    + intros t. rewrite Hi. case_decide; [done|]. rewrite of_stream_app, (of_stream_none t [e]); [done|].
      repeat constructor. congruence.
    + by destruct e.
    + intros r [<-%list_elem_of_singleton|Hin]%elem_of_app; [done | by apply (Hd r)].
  - intros (s1 & Hr & Hi & Hn & Hc & Hcf & _ & Hd)%route_other; [|done].
    apply IH in Hr as (-> & Hi' & Hn' & Hc' & Hcf' & Hd').
    change (e :: evs) with ([e] ++ evs). rewrite of_stream_app, omap_app, Hn', Hn, Hc', Hc, Hcf', Hcf.
    rewrite (of_stream_none sid [e]) by (by repeat constructor). split_and!; try done.
    + intros t. rewrite Hi', Hi, of_stream_app. case_decide as Ht; [subst t|by rewrite app_assoc].
      rewrite (of_stream_none sid [e]) by (by repeat constructor). by rewrite !app_nil_r.
    + rewrite <- app_assoc. by destruct (notice_of e) eqn:E; cbn; rewrite E.
    + intros r [<-%list_elem_of_singleton|Hin]%elem_of_app; [by apply (Hd r) | by apply (Hd' r)].
Qed.

(** ** Sending changes nothing of what is known *)

(** [s'] differs from [s] only in the world and in what is queued to go out. *)
Record quiet s s' : Prop := {
  qu_t : sn_t s' = sn_t s; qu_inbox : sn_inbox s' = sn_inbox s; qu_notices : sn_notices s' = sn_notices s;
  qu_paths : sn_paths s' = sn_paths s; qu_chunks : sn_chunks s' = sn_chunks s;
  qu_config : sn_config s' = sn_config s; qu_pending : pending (sn_m s') = pending (sn_m s);
  qu_events : events (sn_m s') = events (sn_m s); qu_free : free (sn_m s') = free (sn_m s);
  qu_next : next_sid (sn_m s') = next_sid (sn_m s); qu_state : state (sn_m s') = state (sn_m s)
}.

Lemma quiet_refl s : quiet s s.
Proof. by split. Qed.

Lemma quiet_wf s s' : quiet s s' -> wf (sn_m s) -> wf (sn_m s').
Proof. intros [] Hw. unfold wf in *. congruence. Qed.

Section Quiet.
Context (s0 : Session).

Lemma on_world_quiet {A} (c : W -> W * res A) : preserves (quiet s0) (on_world c : D A).
Proof. intros s []. unfold on_world. destruct (c (sn_world s)). by split. Qed.

Lemma out_quiet : preserves (quiet s0) (on_machine data_to_send : D bytes).
Proof. intros s []. by split. Qed.

Lemma out_path_quiet p : preserves (quiet s0) (on_machine (path_data_to_send p) : D bytes).
Proof. intros s []. by split. Qed.

Lemma flush_paths_quiet paths : preserves (quiet s0) (flush_paths paths : D unit).
Proof.
  induction paths as [|[p t] paths IH]; cbn [flush_paths]; [apply preserves_ret|].
  apply preserves_bind; [apply out_path_quiet|]. intros queued.
  apply preserves_bind; [|done]. destruct queued; [apply preserves_ret | apply on_world_quiet].
Qed.

Lemma flush_quiet : preserves (quiet s0) (_flush : D unit).
Proof.
  unfold _flush. apply preserves_bind; [apply out_quiet|]. intros data. apply preserves_get_all. intros s.
  apply preserves_bind; [|intros; apply flush_paths_quiet].
  destruct data; [apply preserves_ret | apply on_world_quiet].
Qed.
End Quiet.

(** ** A turn of the pump *)

Lemma pump_ok p s s' evs :
  _pump getpid describe_exn p s = (s', Ok evs) ->
  exists s1 data m1, quiet s s1
    /\ receive_data getpid describe_exn (Some data) p (sn_m s1) = (m1, Ok tt)
    /\ evs = events m1 /\ s' = set_sn_m (set_events [] m1) s1.
Proof.
  unfold _pump. intros (s1 & [] & Hf & Hr)%st_bind_ok.
  assert (Hq : quiet s s1) by (pose proof (flush_quiet s s (quiet_refl s)) as Hq; by rewrite Hf in Hq).
  rewrite st_bind_eq in Hr. unfold get in Hr. cbv beta iota in Hr.
  apply st_bind_ok in Hr as (s2 & t & Ht & Hr).
  assert (s2 = s1) as -> by (repeat case_match; by inversion Ht).
  apply st_bind_ok in Hr as (s2 & data & Hd & Hr).
  assert (Hq2 : quiet s s2) by (pose proof (on_world_quiet s (t_receive t) s1 Hq) as Hq2; by rewrite Hd in Hq2).
  apply st_bind_ok in Hr as (s3 & [] & Hm & Hr). unfold on_machine in Hm.
  destruct (receive_data getpid describe_exn (Some data) p (sn_m s2)) as [m1 r] eqn:Em.
  injection Hm as <- ->. injection Hr as <- <-. by exists s2, data, m1.
Qed.

(** What a caller waiting on [sid] knows: [acc] of its body has been reported
    to it, and what is still to be reported continues it. *)
Definition tracked sid (request : Request) (acc : bytes) (evs : list Event) s : Prop :=
  wf (sn_m s)
  /\ follows request acc (evs ++ inbox_of sid s ++ of_stream sid (events (sn_m s)))
       (dict_get sid (pending (sn_m s))).

Lemma tracked_quiet sid request acc evs s s' :
  quiet s s' -> tracked sid request acc evs s -> tracked sid request acc evs s'.
Proof.
  intros Hq [Hw Hf]. split; [by eapply quiet_wf|]. destruct Hq as [_ Hi _ _ _ _ Hp He _ _ _].
  unfold inbox_of. rewrite Hi, Hp, He. exact Hf.
Qed.

Lemma forget_tracked sid request acc evs p s m :
  m = ((forget_path p : st exn machine unit) (sn_m s)).1 ->
  tracked sid request acc evs s -> tracked sid request acc evs (set_sn_m m s).
Proof.
  intros -> [Hw Hf]. split; [by apply forget_path_wf|].
  destruct (forget_path_fields p (sn_m s) ltac:(apply Hw)) as (Hp & He & _).
  destruct (dict_get_on_path p sid (pending (sn_m s)) ltac:(apply Hw)) as [_ Hg].
  unfold inbox_of. cbn [sn_inbox set_sn_m sn_m]. rewrite Hp, He, Hg.
  destruct (dict_get sid (pending (sn_m s))) as [q|]; [|done].
  case_decide; [by eapply follows_forget | done].
Qed.

Lemma tracked_ext sid request acc evs s s' :
  sn_m s' = sn_m s -> inbox_of sid s' = inbox_of sid s ->
  tracked sid request acc evs s -> tracked sid request acc evs s'.
Proof. unfold tracked. by intros -> ->. Qed.

Lemma route_tracked sid request acc X evs mine s s' out :
  tracked sid request acc X s -> route sid evs mine s = (s', Ok out) -> tracked sid request acc X s'.
Proof.
  revert mine s. induction evs as [|e evs IH]; intros mine s Ht; [by intros [= <- <-]|].
  destruct (decide (event_streamid e = Some sid)) as [He|He].
  - cbn [route]. rewrite decide_True by done. by apply IH.
  - intros (s1 & Hr & Hi & _ & _ & _ & Hm & _)%route_other; [|done].
    apply (IH _ _) in Hr; [done|]. specialize (Hi sid).
    rewrite (of_stream_none sid [e]), app_nil_r in Hi by (by repeat constructor).
    destruct Hm as [Hm|[p Hm]]; [by eapply tracked_ext|].
    eapply tracked_ext; [| |by eapply (forget_tracked sid request acc X p s)]; done.
Qed.

(** After a turn, the caller's events are in its hands. *)
Lemma turn_tracked sid request acc p s s1 s' evs mine :
  tracked sid request acc [] s -> inbox_of sid s = [] ->
  _pump getpid describe_exn p s = (s1, Ok evs) -> route sid evs [] s1 = (s', Ok mine) ->
  tracked sid request acc mine s' /\ inbox_of sid s' = []
  /\ sn_chunks s' = sn_chunks s /\ sn_config s' = sn_config s.
Proof.
  intros Ht Hi Hp Hr. apply pump_ok in Hp as (s2 & data & m1 & Hq & Hm & -> & ->).
  pose proof (tracked_quiet _ _ _ _ _ _ Hq Ht) as [Hw Hf].
  assert (Hi2 : inbox_of sid s2 = []) by (unfold inbox_of in *; by rewrite (qu_inbox _ _ Hq)).
  destruct (receive_follows getpid describe_exn (Some data) p (sn_m s2) Hw) as (es & He & Hb).
  pose proof (receive_wf getpid describe_exn (Some data) p (sn_m s2) Hw) as Hw1. rewrite Hm in He, Hb, Hw1. cbn [fst] in *.
  destruct (route_ok _ _ _ _ _ _ Hr) as (-> & Hin & _ & Hc & Hcf & _).
  assert (H1 : tracked sid request acc (of_stream sid (events m1)) (set_sn_m (set_events [] m1) s2)).
  { split; [exact Hw1|]. cbn [sn_m set_sn_m pending events set_events].
    change (inbox_of sid (set_sn_m _ s2)) with (inbox_of sid s2).
    rewrite Hi2, He, of_stream_app. cbn [of_stream filter list_filter app]. rewrite app_nil_r.
    rewrite Hi2 in Hf. cbn [app] in Hf. eapply follows_app; [exact Hf | apply Hb]. }
  split_and!; [by eapply route_tracked | | |].
  - rewrite Hin, decide_True, app_nil_r by done. exact Hi2.
  - rewrite Hc. by apply Hq.
  - rewrite Hcf. by apply Hq.
Qed.

(** ** Sending a request *)

Lemma submit_events req path arrive m :
  let m' := ((submit hmac_sha256 req path arrive : st exn machine Z) m).1 in
  events m' = events m /\ state m' = state m.
Proof.
  assert (Hp : preserves (fun m' => events m' = events m /\ state m' = state m)
    (submit hmac_sha256 req path arrive : st exn machine Z)); [|by apply Hp].
  unfold submit, _acquire_sid, _send, sign_frame. apply preserves_get_all. intros m0. case_match; [apply preserves_raise|].
  apply preserves_bind; [|intros sid; apply preserves_bind; [|intros; apply preserves_ret]].
  - apply preserves_get_all. intros m1. case_match; m_preserves ltac:(assumption).
  - apply preserves_bind; [apply preserves_lift|]. intros f.
    apply preserves_bind.
    { intros m1 Hm1. destruct (signer m1); [|done]. by destruct (Signer.sign _ _ _). }
    intros sg. m_preserves ltac:(assumption); apply preserves_modify; by intros.
Qed.

Lemma submit_new req path arrive m m' sid :
  wf m -> submit hmac_sha256 req path arrive m = (m', Ok sid) ->
  wf m' /\ exists p, dict_get sid (pending m') = Some p /\ p_request p = req /\ p_buffer p = []
    /\ events m' = events m.
Proof.
  intros Hw Hsub. pose proof (submit_wf hmac_sha256 describe_exn req path arrive m Hw) as Hw'.
  pose proof (submit_events req path arrive m) as [Hev _]. rewrite Hsub in Hw', Hev. split; [exact Hw'|].
  apply submit_ok in Hsub as (_ & m1 & Ha & Hsend).
  destruct (acquire_spec m m1 _ Hw Ha) as (_ & Hp1 & _).
  apply send_ok in Hsend as (f & pre & m3 & sg & Hf' & _ & _ & _ & Hp2 & _).
  rewrite Hp1 in Hp2. eexists. rewrite Hp2, dict_get_set_eq. done.
Qed.

Lemma send_request_ok req path arrive s s' sid on_path answers :
  send_request hmac_sha256 req path arrive s = (s', Ok (sid, on_path, answers)) ->
  exists m', submit hmac_sha256 req path on_path (sn_m s) = (m', Ok sid) /\ s' = set_sn_m m' s.
Proof.
  unfold send_request. rewrite st_bind_eq. unfold get. cbv beta iota.
  destruct (session_closed s); [done|]. destruct (_ && negb _); [done|].
  intros (s1 & sid' & Hs & Hr)%st_bind_ok. injection Hr as <- <- <- _. unfold on_machine in Hs.
  destruct (submit _ _ _ _ (sn_m s)) as [m' r] eqn:E. injection Hs as <- ->. by exists m'.
Qed.

(** ** Streaming *)

Section Sleeps.
(** How often a session has slept before sending a request again. *)
Context (slept : W -> nat).
Hypothesis sleep_counts : forall q w, slept (t_sleep q w).1 = S (slept w).
Hypothesis send_counts : forall t b w, slept (t_send t b w).1 = slept w.
Hypothesis receive_counts : forall t w, slept (t_receive t w).1 = slept w.
Hypothesis close_counts : forall t w, slept (t_close t w) = slept w.

Definition naps s : nat := slept (sn_world s).

Section AtLeast.
Context (n : nat).
Notation P := (fun s => (n <= naps s)%nat).

Lemma on_machine_naps {A} (c : st exn machine A) : preserves P (on_machine c : D A).
Proof. intros s Hs. unfold on_machine. by destruct (c (sn_m s)). Qed.

Lemma send_naps t b : preserves P (on_world (t_send t b) : D unit).
Proof.
  intros s Hs. unfold on_world, naps in *. pose proof (send_counts t b (sn_world s)) as Hc.
  destruct (t_send t b (sn_world s)) as [w r]. cbn in *. by rewrite Hc.
Qed.

Lemma receive_naps t : preserves P (on_world (t_receive t) : D bytes).
Proof.
  intros s Hs. unfold on_world, naps in *. pose proof (receive_counts t (sn_world s)) as Hc.
  destruct (t_receive t (sn_world s)) as [w r]. cbn in *. by rewrite Hc.
Qed.

Lemma sleep_naps q : preserves P (on_world (t_sleep q) : D unit).
Proof.
  intros s Hs. unfold on_world, naps in *. pose proof (sleep_counts q (sn_world s)) as Hc.
  destruct (t_sleep q (sn_world s)) as [w r]. cbn in *. rewrite Hc. lia.
Qed.

Lemma flush_naps : preserves P (_flush : D unit).
Proof.
  unfold _flush. apply preserves_bind; [apply on_machine_naps|]. intros data. apply preserves_get_all. intros s.
  apply preserves_bind; [destruct data; [apply preserves_ret | apply send_naps]|]. intros _.
  induction (sn_paths s) as [|[p t] paths IH]; cbn [flush_paths]; [apply preserves_ret|].
  apply preserves_bind; [apply on_machine_naps|]. intros queued.
  apply preserves_bind; [destruct queued; [apply preserves_ret | apply send_naps] | done].
Qed.

Lemma pump_naps p : preserves P (_pump getpid describe_exn p : D (list Event)).
Proof.
  unfold _pump. apply preserves_bind; [apply flush_naps|]. intros _. apply preserves_get_all. intros s.
  apply preserves_bind; [repeat case_match; first [apply preserves_ret | apply preserves_raise]|]. intros t.
  apply preserves_bind; [apply receive_naps|]. intros data.
  apply preserves_bind; intros; apply on_machine_naps.
Qed.

Lemma route_naps sid evs mine : preserves P (route sid evs mine : D (list Event)).
Proof.
  revert mine. induction evs as [|e evs IH]; intros mine; cbn [route]; [apply preserves_ret|].
  case_decide; [apply IH|]. apply preserves_bind; [|intros; apply IH].
  repeat case_match; try apply preserves_raise; try apply preserves_ret;
    try (apply preserves_modify; by intros).
  unfold _close_path. apply preserves_get_all. intros s.
  apply preserves_bind; [apply preserves_modify; by intros|]. intros _.
  apply preserves_bind; [|intros; apply on_machine_naps]. case_match; [|apply preserves_ret].
  apply preserves_modify. intros s1 Hs1. unfold naps. cbn. by rewrite close_counts.
Qed.

Lemma await_batch_naps sid b evs waits k : preserves P (await_batch sid b evs waits k : D batch_end).
Proof.
  revert waits k. induction evs as [|e evs IH]; intros waits k; cbn [await_batch]; [apply preserves_ret|].
  assert (Hgive : forall d, preserves P (give_chunk b d : D unit))
    by (intros d; unfold give_chunk; destruct b; [by apply preserves_modify; intros | apply preserves_ret]).
  destruct e as [| | | | | |sid' q sec msg []| | | |]; auto; try apply preserves_raise.
  - apply preserves_bind; [case_match; [apply Hgive | apply preserves_ret] | intros; apply preserves_ret].
  - apply preserves_bind; auto.
  - apply preserves_bind; [apply on_machine_naps | intros; apply preserves_raise].
  - apply preserves_get_all. intros s. case_match; [apply preserves_raise|].
    apply preserves_bind; [apply sleep_naps|]. intros _.
    apply preserves_bind; [apply on_machine_naps|]. intros _.
    apply preserves_bind; [apply flush_naps | intros; apply IH].
Qed.
End AtLeast.

(** A batch with no sleep in it: what the callback was given continues what
    it had, and ends at the body that is returned. *)
Lemma await_batch_streams sid request evs waits k s s' out acc :
  tracked sid request acc evs s -> k = zlen acc ->
  await_batch sid true evs waits k s = (s', Ok out) -> naps s' = naps s ->
  exists cs, sn_chunks s' = sn_chunks s ++ cs /\ inbox_of sid s' = inbox_of sid s
    /\ match out with
       | Returned r => acc ++ concat cs = res_data r
       | Goes_on _ k' => k' = zlen (acc ++ concat cs) /\ tracked sid request (acc ++ concat cs) [] s'
       end.
Proof.
  revert waits k s acc. induction evs as [|e evs IH]; intros waits k s acc Ht ->.
  { intros [= <- <-] _. exists []. cbn. rewrite !app_nil_r. done. }
  destruct Ht as [Hw Hf]. cbn [app follows] in Hf.
  destruct e as [| | |sid' q data st|sid' q d|sid' q tgt|sid' q sec msg []| |sid' q err| |]; try done;
    cbn [await_batch]; try (intros Hr; discriminate Hr).
  - destruct Hf as (-> & [tail ->] & _ & _). cbn [andb]. intros Hr _.
    destruct (Z.ltb_spec (zlen acc) (zlen (acc ++ tail))) as [Hl|Hl].
    + injection Hr as <- <-. exists [tail]. cbn. rewrite slice_from_app, app_nil_r. done.
    + injection Hr as <- <-. exists []. cbn. rewrite !app_nil_r. split_and!; try done.
      rewrite zlen_app in Hl. unfold zlen in Hl. destruct tail; [by rewrite app_nil_r | cbn in Hl; lia].
  - destruct Hf as [-> Hf]. intros Hr Hn.
    destruct (IH waits (zlen acc + zlen d) (set_sn_chunks (sn_chunks s ++ [d]) s) (acc ++ d)) as (cs & Hc & Hi & Ho);
      [split; [exact Hw | exact Hf] | by rewrite zlen_app | exact Hr | exact Hn|].
    exists (d :: cs). cbn [concat]. rewrite app_assoc. split_and!; [|exact Hi|exact Ho].
    rewrite Hc. cbn [sn_chunks set_sn_chunks]. by rewrite <- app_assoc.
  - intros Hr Hn. exfalso. rewrite st_bind_eq in Hr. unfold get in Hr. cbv beta iota zeta in Hr.
    case_match; [discriminate Hr|]. apply st_bind_ok in Hr as (s1 & [] & Hs & Hr).
    assert (Hs1 : naps s1 = S (naps s)).
    { unfold on_world in Hs. pose proof (sleep_counts sec (sn_world s)) as Hc.
      destruct (t_sleep sec (sn_world s)) as [w r]. injection Hs as <- ->. exact Hc. }
    assert (Hle : (naps s1 <= naps s')%nat).
    { replace s' with ((((on_machine (resume sid) : D unit) ≫= fun _ => _flush ≫= fun _ =>
        await_batch sid true evs (waits + 1) 0) s1).1) by (by rewrite Hr).
      revert s1 Hr Hs Hs1. intros s1 _ _ _.
      apply (preserves_bind (fun s => (naps s1 <= naps s)%nat)); [apply on_machine_naps | intros _ | done].
      apply preserves_bind; [apply flush_naps | intros; apply await_batch_naps]. }
    lia.
  - destruct Hf as [-> Hf]. apply IH; [split; [exact Hw | exact Hf] | done].
Qed.

Lemma events_loop_streams fuel sid request acc p s s' mine :
  tracked sid request acc [] s -> inbox_of sid s = [] ->
  events_loop getpid describe_exn fuel sid p s = Some (s', Ok mine) ->
  tracked sid request acc mine s' /\ inbox_of sid s' = [] /\ sn_chunks s' = sn_chunks s
  /\ (naps s <= naps s')%nat.
Proof.
  revert s. induction fuel as [|fuel IH]; intros s Ht Hi; cbn [events_loop]; [done|].
  destruct ((_pump getpid describe_exn p ≫= fun evs => route sid evs []) s) as [s1 [evs|e]] eqn:Er; [|done].
  assert (Hle : (naps s <= naps s1)%nat).
  { replace s1 with (((_pump getpid describe_exn p ≫= fun evs => route sid evs []) s).1) by (by rewrite Er).
    apply (preserves_bind (fun x => (naps s <= naps x)%nat)); [apply pump_naps | intros; apply route_naps | done]. }
  apply st_bind_ok in Er as (s2 & evs' & Hp & Hr).
  destruct (turn_tracked _ _ _ _ _ _ _ _ _ Ht Hi Hp Hr) as (Ht1 & Hi1 & Hc1 & _).
  destruct evs as [|e evs]; [|intros [= <- <-]; done].
  intros (Ht2 & Hi2 & Hc2 & Hn2)%IH; try done. split_and!; [done|done|congruence|lia].
Qed.

Lemma events_for_naps fuel sid p s s' out :
  _events_for getpid describe_exn fuel sid p s = Some (s', out) -> (naps s <= naps s')%nat.
Proof.
  unfold _events_for. destruct (default [] _); [|by intros [= <- _]].
  change (naps s) with (naps (set_sn_inbox (dict_pop sid (sn_inbox s)) s)).
  generalize (set_sn_inbox (dict_pop sid (sn_inbox s)) s). clear s.
  induction fuel as [|fuel IH]; intros s; cbn [events_loop]; [done|].
  assert (Hle : (naps s <= naps ((_pump getpid describe_exn p ≫= fun evs => route sid evs []) s).1)%nat)
    by (apply (preserves_bind (fun x => (naps s <= naps x)%nat)); [apply pump_naps | intros; apply route_naps | done]).
  destruct ((_pump getpid describe_exn p ≫= fun evs => route sid evs []) s) as [s1 [[|e evs]|e]]; cbn [fst] in Hle.
  - intros Hr%IH. lia.
  - intros [= <- _]. done.
  - intros [= <- _]. done.
Qed.

Lemma await_loop_naps rounds fuel sid b p waits k s s' out :
  await_loop getpid describe_exn rounds fuel sid b p waits k s = Some (s', out) -> (naps s <= naps s')%nat.
Proof.
  revert waits k s. induction rounds as [|rounds IH]; intros waits k s; cbn [await_loop]; [done|].
  destruct (_events_for _ _ _ _ _ _) as [[s1 [evs|e]]|] eqn:Ee; [| |done].
  - apply events_for_naps in Ee. pose proof (await_batch_naps (naps s) sid b evs waits k s1 Ee) as Hle.
    cbv beta in Hle. destruct (await_batch _ _ _ _ _ _) as [s2 [[r|w k']|e]]; cbn [fst] in Hle.
    + intros [= <- _]. done.
    + intros Hr%IH. lia.
    + intros [= <- _]. done.
  - intros [= <- _]. by eapply events_for_naps.
Qed.

Lemma await_loop_streams rounds fuel sid request acc p waits s s' r :
  tracked sid request acc [] s -> inbox_of sid s = [] ->
  await_loop getpid describe_exn rounds fuel sid true p waits (zlen acc) s = Some (s', Ok r) ->
  naps s' = naps s -> exists cs, sn_chunks s' = sn_chunks s ++ cs /\ acc ++ concat cs = res_data r.
Proof.
  revert acc waits s. induction rounds as [|rounds IH]; intros acc waits s Ht Hi; cbn [await_loop]; [done|].
  destruct (_events_for _ _ _ _ _ _) as [[s1 [evs|e]]|] eqn:Ee; [|done|done].
  unfold _events_for in Ee. fold (inbox_of sid s) in Ee. rewrite Hi in Ee.
  assert (Hi0 : inbox_of sid (set_sn_inbox (dict_pop sid (sn_inbox s)) s) = [])
    by (unfold inbox_of; cbn; by rewrite dict_get_pop_eq).
  apply (events_loop_streams _ sid request acc) in Ee as (Ht1 & Hi1 & Hc1 & Hn1);
    [|apply (tracked_ext sid request acc [] s); [done | by rewrite Hi0, Hi | exact Ht] | exact Hi0].
  change (naps (set_sn_inbox _ s)) with (naps s) in Hn1.
  change (sn_chunks (set_sn_inbox _ s)) with (sn_chunks s) in Hc1.
  pose proof (await_batch_naps (naps s1) sid true evs waits (zlen acc) s1 (le_n _)) as Hle. cbv beta in Hle.
  destruct (await_batch _ _ _ _ _ _) as [s2 [[r'|w k']|e]] eqn:Eb; cbn [fst] in Hle.
  - intros [= <- <-] Hn. destruct (await_batch_streams _ _ _ _ _ _ _ _ _ Ht1 eq_refl Eb) as (cs & Hc & _ & Ho); [lia|].
    exists cs. by rewrite Hc, Hc1.
  - intros Hr Hn. pose proof (await_loop_naps _ _ _ _ _ _ _ _ _ _ Hr) as Hle2.
    destruct (await_batch_streams _ _ _ _ _ _ _ _ _ Ht1 eq_refl Eb) as (cs & Hc & Hi2 & -> & Ht2); [lia|].
    rewrite Hi1 in Hi2. destruct (IH _ _ _ Ht2 Hi2 Hr) as (cs' & Hc' & Ho'); [lia|].
    exists (cs ++ cs'). rewrite Hc', Hc, Hc1, concat_app, <- !app_assoc. rewrite <- app_assoc in Ho'. done.
  - done.
Qed.

(** C8: a streaming caller is given exactly the body. On a session with
    nothing left over from earlier requests, when [execute] returns a result
    and the server did not make the request wait, the pieces handed to
    [on_chunk], in order, are [Result.data]: nothing missing, nothing twice,
    nothing of another request. *)
Theorem execute_streams fuel request path arrive s s' r :
  wf (sn_m s) -> sn_inbox s = [] -> events (sn_m s) = [] ->
  Session.execute hmac_sha256 getpid describe_exn fuel request path true arrive s = Some (s', Ok r) ->
  slept (sn_world s') = slept (sn_world s) ->
  exists cs, sn_chunks s' = sn_chunks s ++ cs /\ concat cs = res_data r.
Proof.
  intros Hw Hi He. unfold Session.execute.
  destruct (send_request hmac_sha256 request path arrive s) as [s1 [[[sid on_path] answers]|e]] eqn:Es; [|done].
  apply send_request_ok in Es as (m' & Hsub & ->). cbn [sn_m].
  destruct (submit_new _ _ _ _ _ _ Hw Hsub) as (Hw' & p & Hp & Hq & Hb & Hev).
  assert (Ht : tracked sid request [] [] (set_sn_m m' s)).
  { split; [exact Hw'|]. unfold inbox_of. cbn [sn_inbox set_sn_m sn_m]. rewrite Hi, Hev, He, Hp. done. }
  assert (Hi1 : inbox_of sid (set_sn_m m' s) = []) by (unfold inbox_of; cbn [sn_inbox set_sn_m]; by rewrite Hi).
  unfold _await. destruct (await_loop _ _ _ _ _ _ _ _ _ _) as [[s2 [r'|e]]|] eqn:Ea; [| |done].
  - intros [= Hs <-] Hn. apply (await_loop_streams _ _ _ _ [] _ _ _ _ _ Ht Hi1) in Ea as (cs & Hc & Ho).
    + exists cs. split; [|exact Ho]. rewrite <- Hs. destruct on_path; exact Hc.
    + unfold naps. rewrite <- Hs in Hn. destruct on_path; exact Hn.
  - destruct on_path; [destruct (_close_path _ _) as [? []]|]; intros [=].
Qed.
End Sleeps.

(** ** The promises of the driver *)

(** Every event reaches the caller it is for. Of the events of a turn of
    the pump, those about the stream waited on are returned, in order, and
    those about any other stream are left in order behind what was already
    in that stream's inbox; the server's notices are kept; none is lost. *)
Theorem turn_demux sid p s s' mine :
  (_pump getpid describe_exn p ≫= fun evs => route sid evs []) s = (s', Ok mine) ->
  exists s1 evs, _pump getpid describe_exn p s = (s1, Ok evs)
    /\ mine = filter (fun e => event_streamid e = Some sid) evs
    /\ (forall t, inbox_of t s' = inbox_of t s
          ++ (if decide (t = sid) then [] else filter (fun e => event_streamid e = Some t) evs))
    /\ sn_notices s' = sn_notices s ++ omap notice_of evs.
Proof.
  intros (s1 & evs & Hp & Hr)%st_bind_ok. exists s1, evs. split; [done|].
  apply route_ok in Hr as (-> & Hi & Hn & _).
  apply pump_ok in Hp as (s2 & data & m1 & Hq & _ & _ & ->).
  split; [done|]. rewrite <- (qu_notices _ _ Hq). split; [|exact Hn].
  intros t. rewrite Hi. unfold inbox_of. cbn [sn_inbox set_sn_m]. by rewrite (qu_inbox _ _ Hq).
Qed.

(** A turn on a connection the peer has closed. *)
Lemma eof_turn sid s :
  session_closed s = false -> NoDup (dict_keys (pending (sn_m s))) ->
  (forall w, (t_receive (sn_t s) w).2 = Ok []) ->
  exists s' e, (_pump getpid describe_exn 0 ≫= fun evs => route sid evs []) s = (s', Err e).
Proof.
  intros Hcl Hn Heof.
  destruct ((_pump getpid describe_exn 0 ≫= fun evs => route sid evs []) s) as [s' [mine|e]] eqn:E; [|by eauto].
  exfalso. apply st_bind_ok in E as (s1 & evs & Hp & Hr). apply route_ok in Hr as (_ & _ & _ & _ & _ & Hd).
  unfold _pump in Hp. apply st_bind_ok in Hp as (s2 & [] & Hf & Hp).
  assert (Hq : quiet s s2) by (pose proof (flush_quiet s s (quiet_refl s)) as Hq; by rewrite Hf in Hq).
  rewrite st_bind_eq in Hp. unfold get in Hp. cbv beta iota in Hp.
  apply st_bind_ok in Hp as (s3 & t & Ht & Hp). injection Ht as <- <-.
  apply st_bind_ok in Hp as (s3 & data & Hw & Hp). unfold on_world in Hw. specialize (Heof (sn_world s2)).
  rewrite <- (qu_t _ _ Hq) in Heof. destruct (t_receive (sn_t s2) (sn_world s2)) as [w r]. cbn in Heof.
  subst r. injection Hw as <- <-. apply st_bind_ok in Hp as (s3 & [] & Hm & Hp).
  unfold on_machine in Hm. cbn [sn_m set_sn_world] in Hm.
  apply orb_false_iff in Hcl as [Hc Hfl]. rewrite !bool_decide_eq_false in Hc, Hfl.
  rewrite <- (qu_state _ _ Hq) in Hc, Hfl.
  rewrite (eof_eq getpid describe_exn (Some []) (sn_m s2)) in Hm by done.
  destruct (eof_fields (with_framer 0 (sn_m s2)) Hc Hfl) as (m' & Hm' & He & _).
  rewrite Hm' in Hm. injection Hm as <-. injection Hp as <- <-.
  apply (Hd "connection closed by peer"%string). cbn [sn_m set_sn_m]. rewrite He.
  rewrite !elem_of_app, list_elem_of_singleton. auto.
Qed.

(** C38: a wait never outlives the connection. On a well-formed session with
    nothing left in its inbox, if the transport of the control link reports
    the end of file, a request that is answered there (it names no data path)
    is not waited for: [execute] raises after a single read. *)
Theorem execute_ends fuel request path on_chunk arrive s :
  wf (sn_m s) -> sn_inbox s = [] -> pathid request = 0 ->
  (forall w, (t_receive (sn_t s) w).2 = Ok []) ->
  exists s' e, Session.execute hmac_sha256 getpid describe_exn (S fuel) request path on_chunk arrive s
    = Some (s', Err e).
Proof.
  intros Hw Hi Hpi Heof. unfold Session.execute.
  destruct (send_request hmac_sha256 request path arrive s) as [s1 [[[sid on_path] answers]|e]] eqn:Es; [|by eauto].
  assert (Hans : on_path = false /\ answers = 0).
  { revert Es. unfold send_request. rewrite st_bind_eq. unfold get. cbv beta iota. rewrite Hpi.
    destruct (session_closed s); [done|]. cbn [negb andb Z.eqb]. rewrite !andb_false_r. cbn [andb].
    intros (s2 & sid' & _ & Hr)%st_bind_ok. injection Hr as _ _ <- <-. split; [done|]. by case_match. }
  destruct Hans as [-> ->]. apply send_request_ok in Es as (m' & Hsub & ->).
  pose proof (submit_events request path false (sn_m s)) as [_ Hst].
  destruct (submit_new _ _ _ _ _ _ Hw Hsub) as (Hw' & _). apply submit_ok in Hsub as Hok. destruct Hok as [Hrd _].
  rewrite Hsub in Hst. cbn in Hst. rewrite Hrd in Hst.
  destruct (eof_turn sid (set_sn_inbox (dict_pop sid (sn_inbox (set_sn_m m' s))) (set_sn_m m' s))) as (s2 & e & Ht).
  { unfold session_closed. cbn [sn_m set_sn_inbox set_sn_m]. by rewrite Hst. }
  { apply Hw'. }
  { exact Heof. }
  exists s2, e. unfold _await. cbn [await_loop]. unfold _events_for. cbn [events_loop].
  change (sn_inbox (set_sn_m m' s)) with (sn_inbox s) at 1. rewrite Hi. cbn [dict_get default].
  change (sn_inbox (set_sn_m m' s)) with (sn_inbox s) in Ht. rewrite Hi in Ht.
  change (sn_inbox (set_sn_m m' s)) with (sn_inbox s). rewrite Hi. by rewrite Ht.
Qed.
End Driver.

(** ** A scripted connection *)

(** Every read is answered from the script, whose end is the peer's; the
    sleeps are counted. *)
Definition script : Type := list (res bytes) * nat.
#[local] Instance scripted : TransportEnv unit script := {|
  t_connect _ _ _ w := (w, Ok tt);
  t_send _ _ w := (w, Ok tt);
  t_receive _ w := match w.1 with [] => (w, Ok []) | r :: rs => ((rs, w.2), r) end;
  t_start_tls _ _ _ w := (w, Ok tt);
  t_close _ w := w;
  t_sleep q w := ((w.1, S w.2), if Qle_bool 0 q then Ok tt else Err ValueError)
|}.
Notation demo_session_t := (Session unit unit unit script).

(** The machine as bring-up leaves it: its events have been read. *)
Definition demo_up : @machine unit unit := (drain_events demo_ready).1.
Definition demo_session (reads : list (res bytes)) : demo_session_t :=
  Session_init tt demo_up demo_config (reads, O).
Definition demo_execute (r : Request) (s : demo_session_t) : option (demo_session_t * res Result) :=
  Session.execute demo_hmac demo_pid demo_text 10 r [] true false s.
Definition demo_read_at (offset : Z) : Request := Read (be_enc 4 1) offset 4 0.

(** Reads made one after the other: what each returned or raised. *)
Fixpoint demo_reads (offsets : list Z) (s : demo_session_t) : list (option (res bytes)) :=
  match offsets with
  | [] => []
  | o :: offsets =>
      match demo_execute (demo_read_at o) s with
      | Some (s, r) => Some (res_data <$> r) :: demo_reads offsets s
      | None => [None]
      end
  end.

(** A late answer is given to the wrong caller. A read times out and is
    abandoned with its stream still in flight; its answer, arriving with that
    of the next read, is left in the inbox and its stream id goes back for
    re-use; the request that gets the id is handed the old answer, before
    anything it asked for was read. Here the read at offset 8 returns the
    bytes of the read at offset 0. *)
Theorem stale_answer :
  demo_reads [0; 4; 8]
    (demo_session [Err (TimeoutError 0 0);
                   Ok (response_frame 5 kXR_ok (b_ "at 4") ++ response_frame 4 kXR_ok (b_ "at 0"));
                   Ok (response_frame 4 kXR_ok (b_ "at 8"))])
  = [Some (Err (TimeoutError 0 0)); Some (Ok (b_ "at 4")); Some (Ok (b_ "at 0"))].
Proof. vm_compute. reflexivity. Qed.

(** A body interrupted by [kXR_wait] is returned with its beginning
    twice. The server sends part of a body, asks the client to wait, and
    answers the request sent again with the whole body: the result has the
    part before it. *)
Theorem wait_repeats_body :
  demo_reads [0]
    (demo_session [Ok (response_frame 4 kXR_oksofar (b_ "ab"));
                   Ok (response_frame 4 kXR_wait (be_enc 4 1));
                   Ok (response_frame 4 kXR_ok (b_ "abcd"))])
  = [Some (Ok (b_ "ababcd"))].
Proof. vm_compute. reflexivity. Qed.

Lemma demo_up_wf : wf demo_up.
Proof.
  apply (reachable_wf demo_hmac demo_pid demo_text). unfold demo_up.
  exact (reachable_call demo_hmac demo_pid demo_text demo_ready _ demo_ready_reachable
    (call_events demo_hmac demo_pid demo_text demo_ready)).
Qed.

(** A body in two pieces and a notice in between. *)
Definition demo_pieces : demo_session_t :=
  demo_session [Ok (response_frame 4 kXR_oksofar (b_ "ab"));
                Ok (response_frame 0 kXR_attn (be_enc 4 5001 ++ b_ "down soon") ++ response_frame 4 kXR_ok (b_ "cd"))].

Lemma scripted_receive t w : snd (t_receive (TransportEnv := scripted) t w).1 = snd w.
Proof. by destruct w as [[]]. Qed.

Lemma demo_pieces_run :
  exists s', Session.execute demo_hmac demo_pid demo_text 10 (demo_read_at 0) [] true false demo_pieces
      = Some (s', Ok {| res_data := b_ "abcd"; res_status := None |})
    /\ snd (sn_world s') = snd (sn_world demo_pieces).
Proof. vm_compute. eexists. split; reflexivity. Qed.

Lemma demo_pieces_clean : sn_inbox demo_pieces = [] /\ events (sn_m demo_pieces) = [].
Proof. split; reflexivity. Qed.

Lemma execute_streams_witness :
  exists s' cs, Session.execute demo_hmac demo_pid demo_text 10 (demo_read_at 0) [] true false demo_pieces
      = Some (s', Ok {| res_data := b_ "abcd"; res_status := None |})
    /\ sn_chunks s' = sn_chunks demo_pieces ++ cs /\ concat cs = b_ "abcd".
Proof.
  destruct demo_pieces_run as (s' & Hrun & Hz). exists s'.
  destruct (execute_streams (H0 := scripted) demo_hmac demo_pid demo_text snd (fun _ _ => eq_refl)
    (fun _ _ _ => eq_refl) scripted_receive (fun _ _ => eq_refl) 10 (demo_read_at 0) [] false demo_pieces s'
    {| res_data := b_ "abcd"; res_status := None |}
    demo_up_wf (proj1 demo_pieces_clean) (proj2 demo_pieces_clean) Hrun Hz) as (cs & Hc & Hd).
  exists cs. split; [exact Hrun|]. split; [exact Hc | exact Hd].
Defined.

Lemma turn_demux_witness :
  exists s', (_pump demo_pid demo_text 0 ≫= fun evs => route 4 evs [])
      (demo_session [Ok (response_frame 0 kXR_attn (be_enc 4 5001))]) = (s', Ok [])
    /\ sn_notices s' = [{| ai_action := 5001; ai_params := [] |}].
Proof.
  pose (x := (_pump demo_pid demo_text 0 ≫= fun evs => route 4 evs [])
    (demo_session [Ok (response_frame 0 kXR_attn (be_enc 4 5001))])).
  exists x.1. assert (Hx : x = (x.1, Ok [])) by (vm_compute; reflexivity). split; [exact Hx|].
  destruct (turn_demux demo_pid demo_text 4 0 _ _ _ Hx) as (s1 & evs & Hp & _ & _ & Hn).
  rewrite Hn. assert (Hevs : exists s2, _pump demo_pid demo_text 0
    (demo_session [Ok (response_frame 0 kXR_attn (be_enc 4 5001))])
    = (s2, Ok [Attention {| ai_action := 5001; ai_params := [] |}])) by (vm_compute; eexists; reflexivity).
  destruct Hevs as [s2 Hs2]. rewrite Hs2 in Hp. injection Hp as _ <-. reflexivity.
Defined.

(** A connection whose peer has gone. *)
Definition ended : TransportEnv unit unit := {|
  t_connect _ _ _ w := (w, Ok tt);
  t_send _ _ w := (w, Ok tt);
  t_receive _ w := (w, Ok []);
  t_start_tls _ _ _ w := (w, Ok tt);
  t_close _ w := w;
  t_sleep q w := (w, Ok tt)
|}.

Lemma execute_ends_witness :
  exists s' e, Session.execute (H0 := ended) demo_hmac demo_pid demo_text 1 (demo_read_at 0) [] true false
    (Session_init tt demo_up demo_config tt) = Some (s', Err e).
Proof.
  exact (execute_ends (H0 := ended) demo_hmac demo_pid demo_text 0 (demo_read_at 0) [] true false
    (Session_init tt demo_up demo_config tt) demo_up_wf eq_refl eq_refl (fun w => eq_refl)).
Defined.
